(* ===== verification/_CoqProject ===== *)
-Q . S2P
Prelude.v
Text.v
Utf.v
Message.v
Parser.v
Framer.v
CaseMapping.v
ServerFeatures.v
Capability.v
CommandBuilder.v
JoinTarget.v
Scram.v
OrdMap.v
SessionTypes.v
Connection.v
Platform.v
Sts.v
Ctcp.v
Metadata.v
Typing.v
SessionCore.v
SessionOutbound.v
SessionMarkers.v
SessionHistory.v
SessionNegotiation.v
SessionDispatch.v
Session.v
SessionInvariants.v
SessionProperties.v
SessionReconnect.v
SessionMessages.v
Secrets.v
Presence.v
Events.v
Conversation.v
MembershipNoise.v
Translator.v
ReducerState.v
ReducerTranscript.v
ReducerSplice.v
Reducer.v
ReducerViews.v
ReducerRows.v
ReducerSteps.v
ReducerInvariants.v
ReducerProperties.v
SettingsIni.v
SettingsValues.v
Settings.v
SettingsAccess.v
SettingsLines.v
SettingsFile.v
SettingsProperties.v
StsStore.v
StsStoreProperties.v
Lists.v
ListsProperties.v
ClosedChannels.v
StoragePath.v
ConversationLog.v
ConversationLogProperties.v
StatusEntry.v
Command.v
Autoaway.v
Inbox.v
Console.v
AvatarUrl.v
ChannelList.v
PlaybackTime.v
Playback.v
Profiles.v
Credentials.v
ControllerState.v
ControllerServices.v
ControllerReplies.v
Controller.v
ControllerCommands.v
ControllerNetworks.v
ControllerInvariants.v
ControllerProperties.v
