(* ===== verification/Prelude.v ===== *)
(** * Omairc: a verification library of the Rust client's core

    Omairc is an IRC client. The Rust program under src/client/src keeps everything that
    decides behaviour in two trees: irc/ (the wire format, what a line means, and the
    conversations the lines build) and session/ (the state machine of one network's
    connection). What it must not lose it keeps in the files of storage/. This library models
    the two trees and the settings files as executable definitions and proves what they
    promise. The window, most of the controller, sockets and the terminal client in Go are outside it;
    see "Not modelled".

    ** The program and how its parts meet

    Bytes from a socket go into the framer, which delivers the lines between CRLFs. Each line
    is parsed into a message. The session of the network routes the message: it answers the
    server where the protocol asks for it (capabilities, SASL, PING, batches, read markers)
    and reports the message to its owner. The owner translates a message, or a finished batch,
    into events, and the reducer folds each event into the conversations, their transcripts,
    members and badges. Outbound text goes through the command builders, which keep every line
    within the limits of the wire, and through the secret policy before it is shown. Settings
    and the STS policies that forbid a plain connection are saved in INI files, which are
    loaded at the start of each operation on them and written whole.

    ** Files

    Shared: Prelude (this file: notation, tactics, the record update of [Eta], lemmas on lists
    and options), Text (characters, UTF-8, string methods), Utf (lossy decoding and UTF-16),
    OrdMap ([BTreeMap] and [BTreeSet] with their key order, sorting), Platform (what comes from Unicode tables and the chrono crate, as a
    class, with a small instance for the examples).

    The wire (irc/): Message (message.rs), Parser (parser.rs), Framer (framer.rs), CaseMapping
    (casemapping.rs), ServerFeatures (serverfeatures.rs), Capability (capability.rs,
    capabilitynegotiation.rs), CommandBuilder (commandbuilder.rs), JoinTarget (jointarget.rs,
    channelmode.rs, listmask.rs), Ctcp (ctcp.rs, servicenick.rs), Metadata and Presence (the
    two halves of presence.rs), Typing (irc/typing.rs, session/typing.rs), ServerTime
    (readmarker.rs, the times of translator/context.rs), Secrets (secretpolicy.rs), StatusEntry
    (statusentry/: the Status console's entry of a line and which lines it keeps).

    Around the conversations (irc/, controller/): Command (command/, pref.rs, colorpalette.rs:
    what a line typed into the composer asks for) with CommandProperties, Autoaway (autoaway.rs)
    with AutoawayProperties, Inbox (inbox.rs) and Console (controller/console.rs).

    The session (session/): SessionTypes (events.rs, config.rs, transport.rs), Connection
    (connection.rs), Sts (sts.rs), Scram (saslscram.rs and attrs.rs), SessionCore (session.rs,
    send.rs, timers.rs, labels.rs, watchdog.rs), SessionOutbound (outbound.rs, autojoin.rs,
    wire.rs and the writers of the small modules), SessionMarkers (readmarker.rs),
    SessionHistory (batch.rs, history.rs), SessionNegotiation (stsflow.rs, registration.rs,
    caps.rs), SessionDispatch (dispatch.rs, malformed.rs, sink.rs). One record, [Core], holds
    what the Rust state machine mutates; an entry point maps it to the next one and appends to
    its queues of events and effects. Session composes the entry points: an [Input] is one of
    them, [session_step] what it does at a [Moment] (the clock, the transport's state, random
    bytes), and [reachable] the runs from a new session. SessionInvariants, SessionProperties,
    SessionReconnect and SessionMessages hold the theorems.

    The conversations (irc/): Events (event.rs), Translator (translator/), Conversation
    (conversation.rs), MembershipNoise (membershipnoise.rs), and the reducer in five files:
    ReducerState (world.rs, reducer/state.rs, log.rs, facts.rs), ReducerTranscript
    (transcript.rs), ReducerSplice (splice.rs), Reducer (reducer.rs, handlers.rs,
    conversations.rs, readmarker.rs and the held batches of splice.rs) and ReducerViews
    (viewnotify.rs, notify.rs, sidebar.rs and the reads). An [EventReducer] is the ordered
    table of conversations beside the [Facts] of the networks; a function that borrows one
    conversation and the facts maps the pair of them.

    The files (storage/): SettingsIni (settings_ini.rs: the line scanner, the escapes, the two
    parsers), Settings (settings.rs and settings_snapshot.rs: the table of paths, the writer,
    the reads and writes, the probe and the save), StsStore (stspolicies.rs). What a path names
    is a [Node], and whether an atomic write lands is an argument of the operation that makes
    it. Backing (mod.rs) edits the file as a whole; Lists (lists.rs, opendirect.rs) keeps the
    lists of the networks in it, each store over one shared file; ClosedChannels puts the closed
    list under the reducer. StoragePath (irc/storagepath.rs) names files, and ConversationLog
    (conversationlog.rs) keeps the transcripts in them: a folder is a table of files, and an
    [Outcome] says how the file system answers. SettingsValues reads keys and values back, SettingsLines a file of rows, SettingsFile
    the rows a store writes; SettingsAccess has the reads of a store after its writes;
    SettingsProperties, StsStoreProperties, BackingProperties, ListsProperties, ListsRestart,
    StoragePathProperties and ConversationLogProperties hold the theorems.

    ** What the theorems show

    - Wire: parse and serialize are inverse on what the program accepts; a parsed message is
      well formed; a stream delivers the same lines however it is cut into reads, and what is
      held back is bounded; name folding is canonical; rank changes of a MODE name the right
      arguments; split bodies fit their budget and lose nothing; a JOIN target is sendable.
    - Negotiation: the capability ledger never holds a token in two states and every step moves
      a token along its life; a SCRAM exchange that reports success has verified the server.
    - Session, for every reachable state (SessionInvariants gives the induction over its
      primitive moves, SessionProperties the results): with SCRAM the session registers only
      behind a verified server; TLS, once required, is required on every later connect; a
      timer slot and the clock agree; a label finishes once; open and ignored batches stay
      within their ceilings; after stop nothing is pending; a lost connection is retried and a
      reconnecting session asks its transport to connect; a message goes out whole or not at
      all.
    - Secrets: a masked line is a function of the line without its secret; near misses of a
      rule verb are masked; the letter distance is the least number of edits.
    - Status: an entry, sent or received, is a function of the line without its secret; every
      line has an entry; a private line no conversation takes is kept.
    - Console: the lines of a network are the last of a journal that forgets nothing, and the
      alerts counted are those not seen.
    - Inbox: at most fifty rows, an invite or a nick online once.
    - Composer: a slash line is read as the verb its word names, anything can be said, a whole
      duration is exact.
    - Presence: the sparse table of nick facts refines the total function from nicks to facts.
    - Translator: chat shown in a channel for a line sent to us was confirmed to come from a
      member; a query replay stays in its conversation.
    - Membership noise: the caption parser's fuel, the length of the caption, always suffices.
    - Reducer, for every state a controller can bring a new reducer to (ReducerRows and
      ReducerSteps carry one conversation through every change of its rows, ReducerInvariants
      the table through every operation, ReducerProperties has the results): a transcript is
      bounded, its sequences and ids are distinct and the ids known; a channel-context claim
      names a channel that exists; a redelivered line changes nothing; read markers move
      forward and recount exactly; PART, KICK, QUIT and NICK leave the right members, ranks,
      typing and presence behind.

    - Settings: what a store saves it loads, for every path that a file can hold; a file that
      is malformed, unreadable or not writable is never written over, and a save that fails
      changes nothing.
    - STS policies: a stored policy protects its host until it lapses, whatever becomes of any
      write; while the writes land the file answers as the cache of the session; the file is
      replaced whole or not at all.

    - Lists: under a case mapping a list is a set of names, each once; it is there after a
      restart, and no list disturbs another in the file they share; a channel that was closed
      stays closed over a restart of the reducer.
    - Transcripts: a segment of a path is a safe file name, and two conversations share one only
      when their digests do; the tail is the last lines of the file, whatever the chunks; a file
      is the list of its lines; moving it to its new name loses nothing.

    The conversation between components goes through classes: [Platform], [Crypto] (the hash
    functions of a crate), [SecretPolicy] (what the session is given by Secrets), [OrdKey] with
    [OrdKeyLaws], and [Stores] (the transcript log and the closed list, which the reducer uses
    through two traits), [ListBacking] (where a list is saved) and [LogJson] (the JSON of a
    record, a crate's). Theorems hold for every instance; the witnesses run small ones.

    ** Numbers and fuel

    Characters and bytes are [N]; a machine integer wraps or saturates where its value can
    come from outside (ports, durations, the 32-bit badges of a conversation), while counters
    that count what the program itself has done (sequences, generations) are unbounded. Loops
    that are not structural take fuel: [feed_loop] and the body splitter the length of their
    input, [parse_loop] of a caption its length, [delay_loop] the number of doublings,
    [scan_line] and [read_value] of a settings file what is left of it, [chunk_loop] and
    [pending_loop] of a transcript what is left to read; for each a theorem
    shows that the fuel given is enough.

    ** Not modelled

    - The [RefCell] handle around the session, its re-entrancy guards, and the order in which
      its owner drains the queues: the queues are fields of the state.
    - Sockets, TLS, name resolution and the system clock (net/, session/clock.rs): effects and
      inputs here. Hashes and Base64, Unicode tables and date printing come from crates.
    - Of storage/: profiles, preferences and scroll positions, the import of the registry, the
      folders of the platform, permissions, links, and the steps of an atomic write, which is
      one step that lands or does not.
    - The rest of the controller (controller/), which wires sessions, reducer and storage
      together over shared mutable handles, and live/, demo/, model/, ui/ and desktop/: windows, pixels,
      notifications. The Go client (tui/) is another program.
    - Of irc/: the completion of slash commands, avatars, file links and text formatting. They
      are conveniences above the core; channelname.rs is compiled for tests only. *)

From Corelib Require Export ssreflect.
From Stdlib Require Export ZifyN ZifyBool.
From stdpp Require Export base list option numbers gmap strings.

#[global] Set Default Proof Using "Type".
#[global] Set Warnings "-clear-no-such-hyp".
#[global] Close Scope boolean_if_scope.
#[global] Open Scope general_if_scope.
#[global] Open Scope N_scope.
#[global] Open Scope list_scope.

Declare Scope omairc_scope.
Delimit Scope omairc_scope with om.
#[global] Open Scope omairc_scope.

(** ** Notation *)

(** Rust's [?] on an [Option]. *)
Notation "'let?' x ':=' c 'in' k" :=
  (match c with Some x => k | None => None end)
  (at level 10, x pattern, c at level 100, k at level 200) : omairc_scope.

(** Rust's [let Some(x) = c else { return d };]. *)
Notation "'let??' x ':=' c 'else' d 'in' k" :=
  (match c with Some x => k | None => d end)
  (at level 10, x pattern, c at level 100, d at level 100, k at level 200) : omairc_scope.

(** Reverse application, the order in which statements run on a state. *)
Notation "x ▷ f" := (f x) (at level 51, left associativity, only parsing) : omairc_scope.

(** ** Functional record update

    [r <| field := v |>] is the record [r] with one field replaced, the model of a
    field assignment. A record enables it with an [Eta] instance that rebuilds the
    record from its projections; the setter of a projection is then found by
    abstracting that projection out of the rebuilt record. *)
Class Eta (R : Type) := eta : R -> R.
Class Update {R T : Type} (proj : R -> T) := update : (T -> T) -> R -> R.

Ltac build_update R T proj :=
  exact (fun (f : T -> T) (r : R) =>
    ltac:(
      let body := constr:(eta r) in
      let body := eval hnf in body in
      lazymatch body with
      | context C [proj r] => let body := context C [f (proj r)] in exact body
      end)).

#[export] Hint Extern 1 (@Update ?R ?T ?proj) => build_update R T proj : typeclass_instances.

Notation "r '<|' p ':=' v '|>'" := (update (proj := p) (fun _ => v) r)
  (at level 1, left associativity, format "r  '<|'  p  ':='  v  '|>'") : omairc_scope.

#[global] Arguments update {R T} proj {_} f r /.

(** ** Slices

    The slice methods the program uses, on lists. Indices are [nat]; lengths that the
    program compares with its limits are [N], so that a limit such as 8191 stays binary. *)

Definition blen {A} (l : list A) : N := N.of_nat (length l).

Section Slices.
Context {A : Type}.
Implicit Types (p : A -> bool) (l : list A).

(** [slice.iter().position(p)] *)
Fixpoint position p l : option nat :=
  match l with
  | [] => None
  | x :: l' => if p x then Some 0%nat else S <$> position p l'
  end.

(** [slice.split(p)]: the runs between matches, always at least one run. *)
Fixpoint split_on p l : list (list A) :=
  match l with
  | [] => [[]]
  | x :: l' =>
      if p x then [] :: split_on p l'
      else match split_on p l' with
           | [] => [[x]]
           | run :: runs => (x :: run) :: runs
           end
  end.

(** [str.split_once(c)]: the text before and after the first match. *)
Fixpoint split_once p l : option (list A * list A) :=
  match l with
  | [] => None
  | x :: l' =>
      if p x then Some ([], l')
      else let? (before, after) := split_once p l' in Some (x :: before, after)
  end.

(** [skip_while] and its mirror at the end of the slice. *)
Fixpoint skip_while p l : list A :=
  match l with
  | [] => []
  | x :: l' => if p x then skip_while p l' else l
  end.

Definition skip_while_end p l : list A := rev (skip_while p (rev l)).

Lemma position_Some p l i :
  position p l = Some i ->
  exists x, l = take i l ++ x :: drop (S i) l /\ p x = true /\ forallb (fun y => negb (p y)) (take i l) = true.
Proof.
  revert i. induction l as [|y l IH]; intros i H; [done|]. simpl in H.
  destruct (p y) eqn:Hp; simplify_eq.
  - exists y. by rw /= Hp.
  - destruct (position p l) as [j|]; [|done]. simplify_eq/=.
    destruct (IH j eq_refl) as (x & Hl & Hx & Hall). exists x.
    rw Hp /= Hall -Hl. done.
Qed.

Lemma position_lookup p l i : position p l = Some i -> exists x, l !! i = Some x /\ p x = true.
Proof.
  revert i. induction l as [|y l IH]; intros i H; [done|]. simpl in H.
  destruct (p y) eqn:Hp; simplify_eq; [by exists y|].
  destruct (position p l) as [j|]; [|done]. simplify_eq/=. by apply IH.
Qed.

Lemma position_lt p l i : position p l = Some i -> (i < length l)%nat.
Proof.
  revert i. induction l as [|y l IH]; intros i H; [done|]. simpl in H.
  destruct (p y); simplify_eq/=; [lia|].
  destruct (position p l) as [j|]; [|done]. simplify_eq/=. specialize (IH j eq_refl). lia.
Qed.

Lemma position_None p l : position p l = None <-> forallb (fun y => negb (p y)) l = true.
Proof.
  elim: l => [//|y l IH] /=. case: (p y) => //=. rw -IH.
  case: (position p l) => //.
Qed.

(** A run without matches does not move the first match after it. *)
Lemma position_app p l1 l2 :
  forallb (fun y => negb (p y)) l1 = true ->
  position p (l1 ++ l2) = (fun i => (length l1 + i)%nat) <$> position p l2.
Proof.
  elim: l1 => [|y l1 IH] /=; first by case: (position p l2).
  case: (p y) => //= /IH ->. by case: (position p l2).
Qed.

Lemma position_here p l1 x l2 :
  forallb (fun y => negb (p y)) l1 = true -> p x = true ->
  position p (l1 ++ x :: l2) = Some (length l1).
Proof. move=> H1 H2. rw position_app //= H2 /=. f_equal. lia. Qed.

Lemma split_on_nonempty p l : split_on p l <> [].
Proof. elim: l => [//|y l IH] /=. case: (p y) => //. by case: (split_on p l). Qed.

Lemma split_on_app p l1 x l2 :
  forallb (fun y => negb (p y)) l1 = true -> p x = true ->
  split_on p (l1 ++ x :: l2) = l1 :: split_on p l2.
Proof. elim: l1 => [|y l1 IH] /=; [by move=> _ ->|]. case: (p y) => //= H1 H2. by rw IH. Qed.

Lemma split_on_id p l : forallb (fun y => negb (p y)) l = true -> split_on p l = [l].
Proof. elim: l => [//|y l IH] /=. case: (p y) => //= H. by rw IH. Qed.

(** The runs of [split_on] hold no match. *)
Lemma split_on_runs p l : Forall (fun run => forallb (fun y => negb (p y)) run = true) (split_on p l).
Proof.
  induction l as [|y l IH]; simpl; [by repeat constructor|].
  destruct (p y) eqn:Hp; [by constructor|].
  destruct (split_on p l) as [|run runs]; [by repeat constructor; rw /= Hp|].
  apply Forall_cons in IH as [H1 H2]. constructor; [by rw /= Hp|done].
Qed.

(** A property of every element holds on every run. *)
Lemma split_on_forallb p q l :
  forallb q l = true -> Forall (fun run => forallb q run = true) (split_on p l).
Proof.
  induction l as [|y l IH]; simpl; [by repeat constructor|].
  intros [Hy Hl]%andb_true_iff. specialize (IH Hl). destruct (p y); [by constructor|].
  destruct (split_on p l) as [|run runs]; [by repeat constructor; rw /= Hy|].
  apply Forall_cons in IH as [H1 H2]. constructor; [by rw /= Hy|done].
Qed.

Lemma split_once_position p l :
  split_once p l = (fun i => (take i l, drop (S i) l)) <$> position p l.
Proof.
  elim: l => [//|y l IH] /=. case: (p y) => //. rw IH.
  by case: (position p l).
Qed.

Lemma skip_while_suffix p l : exists pre, l = pre ++ skip_while p l /\ forallb p pre = true.
Proof.
  induction l as [|y l (pre & IH1 & IH2)]; simpl; [by exists []|].
  destruct (p y) eqn:Hp; [|by exists []].
  exists (y :: pre). by rw /= Hp IH2 -IH1.
Qed.

Lemma skip_while_length p l : (length (skip_while p l) <= length l)%nat.
Proof. elim: l => [//|y l IH] /=. case: (p y) => /=; lia. Qed.

Lemma list_filter_all (P : A -> Prop) `{!forall x, Decision (P x)} l : Forall P l -> base.filter P l = l.
Proof. induction 1 as [|x l Hx _ IH]; [done|]. rw filter_cons_True; [done|]. by rw IH. Qed.

Lemma existsb_false_forallb p l :
  existsb p l = false <-> forallb (fun y => negb (p y)) l = true.
Proof. induction l as [|y l IH]; simpl; [done|]. destruct (p y); simpl; [done|exact IH]. Qed.

Lemma existsb_ext_in p q l : (forall x, x ∈ l -> p x = q x) -> existsb p l = existsb q l.
Proof.
  induction l as [|y l IH]; intros H; [done|]. cbn [existsb]. rw H; [by constructor|].
  f_equal. apply IH. intros. apply H. by constructor.
Qed.

Lemma forallb_impl p q l :
  (forall x, p x = true -> q x = true) -> forallb p l = true -> forallb q l = true.
Proof.
  intros H. induction l as [|y l IH]; simpl; [done|]. intros [Hy Hl]%andb_true_iff.
  by rw (H y Hy) (IH Hl).
Qed.

Lemma forallb_take p i l : forallb p l = true -> forallb p (take i l) = true.
Proof. rw -{1}(take_drop i l) forallb_app. by intros [? _]%andb_true_iff. Qed.

Lemma forallb_drop p i l : forallb p l = true -> forallb p (drop i l) = true.
Proof. rw -{1}(take_drop i l) forallb_app. by intros [_ ?]%andb_true_iff. Qed.

Lemma forallb_skip_while p q l : forallb p l = true -> forallb p (skip_while q l) = true.
Proof.
  destruct (skip_while_suffix q l) as (pre & E & _). rw {1}E forallb_app.
  by intros [_ ?]%andb_true_iff.
Qed.

Lemma forallb_both p q l :
  forallb p l = true -> forallb q l = true -> forallb (fun x => p x && q x) l = true.
Proof.
  induction l as [|y l IH]; simpl; [done|]. intros [-> ?]%andb_true_iff [-> ?]%andb_true_iff.
  by apply IH.
Qed.

Lemma skip_while_id p l : (forall x l', l = x :: l' -> p x = false) -> skip_while p l = l.
Proof. destruct l as [|x l]; simpl; [done|]. intros H. by rw (H x l eq_refl). Qed.

Lemma skip_while_head p l x l' : skip_while p l = x :: l' -> p x = false.
Proof. induction l as [|y l IH]; simpl; [done|]. destruct (p y) eqn:Hp; [done|]. by intros [= <- _]. Qed.
End Slices.

(** Join with a separator, [slice.join(sep)]. *)
Fixpoint join_with {A} (sep : list A) (parts : list (list A)) : list A :=
  match parts with
  | [] => []
  | [part] => part
  | part :: parts' => part ++ sep ++ join_with sep parts'
  end.

Section Join.
Context {A : Type}.
Implicit Types (p : A -> bool) (parts : list (list A)).

Lemma join_with_cons (sep part : list A) parts :
  parts <> [] -> join_with sep (part :: parts) = part ++ sep ++ join_with sep parts.
Proof. by destruct parts. Qed.

(** Splitting at the separator takes a joined list apart again, and conversely. *)
Lemma split_on_join p x parts :
  p x = true -> parts <> [] ->
  Forall (fun part => forallb (fun y => negb (p y)) part = true) parts ->
  split_on p (join_with [x] parts) = parts.
Proof.
  intros Hx Hne H. induction H as [|part parts Hpart Hparts IH]; [done|].
  destruct parts as [|part' parts]; [by apply split_on_id|].
  rw join_with_cons // split_on_app // IH //.
Qed.

Lemma join_split_on p x l :
  (forall y, p y = true -> y = x) -> join_with [x] (split_on p l) = l.
Proof.
  intros Hp. induction l as [|y l IH]; [done|]. simpl.
  pose proof (split_on_nonempty p l) as Hne. destruct (p y) eqn:Hy.
  - rw join_with_cons // IH (Hp y Hy). done.
  - destruct (split_on p l) as [|run runs]; [done|].
    destruct runs; simpl in *; by rw IH.
Qed.

Lemma join_with_length (sep : list A) parts parts' :
  Forall2 (fun a b => (length a <= length b)%nat) parts parts' ->
  (length (join_with sep parts) <= length (join_with sep parts'))%nat.
Proof.
  induction 1 as [|a b la lb Hab Hl IH]; [done|].
  destruct Hl as [|a' b' la lb Hab' Hl]; [done|].
  rw (join_with_cons sep a) // (join_with_cons sep b) // !length_app. lia.
Qed.

Lemma forallb_join p (sep : list A) parts :
  forallb p sep = true -> Forall (fun part => forallb p part = true) parts ->
  forallb p (join_with sep parts) = true.
Proof.
  intros Hsep H. induction H as [|part parts Hpart Hparts IH]; [done|].
  destruct parts as [|part' parts]; [done|].
  rw join_with_cons // !forallb_app Hpart Hsep IH. done.
Qed.
End Join.

(** ** Result

    Rust's [Result<T, E>]. *)
Inductive result (T E : Type) : Type :=
| Ok (value : T)
| Err (error : E).
Arguments Ok {T E} value.
Arguments Err {T E} error.

(** [option.ok_or(e)?] *)
Notation "'let!' x ':=' c 'orelse' e 'in' k" :=
  (match c with Some x => k | None => Err e end)
  (at level 10, x pattern, c at level 100, e at level 100, k at level 200) : omairc_scope.

(** ** Automation *)

Create HintDb om.
Create Rewrite HintDb om.

(** Case analysis on every test of the goal and the hypotheses, then arithmetic. *)
Ltac split_tests := repeat (case_match; simplify_eq/=).
(** Right-nested appends with their literal parts as conses. *)
Ltac norm_app := repeat (progress (cbn [app]; rw -?app_assoc)).
Ltac crush := repeat (case_match; simplify_eq/=; try done); try lia.

(** ** Folds

    Loops are left folds. What every step does to a view of the state, a reflexive and
    transitive relation or an invariant, the loop does. *)
Section Folds.
Context {S A : Type} (f : S -> A -> S).

Lemma foldl_relation {T} (g : S -> T) (R : relation T) `{!Reflexive R, !Transitive R} l s :
  (forall s x, x ∈ l -> R (g s) (g (f s x))) -> R (g s) (g (foldl f s l)).
Proof.
  revert s. induction l as [|x l IH]; intros s H; [done|]. cbn [foldl].
  transitivity (g (f s x)); [by apply H; constructor|]. apply IH. intros. apply H. by constructor.
Qed.

Lemma foldl_invariant (P : S -> Prop) l s :
  (forall s x, x ∈ l -> P s -> P (f s x)) -> P s -> P (foldl f s l).
Proof.
  revert s. induction l as [|x l IH]; intros s H Hs; [done|]. cbn [foldl].
  apply IH; [|by apply H; [constructor|]]. intros. apply H; [by constructor|done].
Qed.
End Folds.
