(* ===== verification/Text.v ===== *)
(** * Text: characters, UTF-8 and the string methods of the program

    The program keeps wire fields as bytes ([Vec<u8>]) and display text as [String].
    Here a byte and a character are both an [N]; a byte string is a list of bytes and a
    [String] is the list of its characters (Unicode scalar values). [as_bytes] is the
    UTF-8 encoding, [from_utf8] the validating decoder, and [wire_text]
    (src/client/src/irc/wiretext.rs) the program's total decoder built on it. *)

From Stdlib Require Ascii String.
From S2P Require Import Prelude.

Abbreviation byte := N (only parsing).
Abbreviation bytes := (list N) (only parsing).
Abbreviation char := N (only parsing).
Abbreviation str := (list N) (only parsing).

(** A literal. Every literal of the program is ASCII. *)
Definition lit (s : string) : str := Ascii.N_of_ascii <$> String.list_ascii_of_string s.
#[global] Arguments lit s%_string_scope.

(** A one-character literal. *)
Definition chr (s : string) : char := default 0 (head (lit s)).
#[global] Arguments chr s%_string_scope.

(** Character literals as their code points, for arithmetic. *)
Ltac chars :=
  repeat match goal with
  | |- context [chr ?s] => let v := eval vm_compute in (chr s) in change (chr s) with v
  | H : context [chr ?s] |- _ => let v := eval vm_compute in (chr s) in change (chr s) with v in H
  end.

Definition str_eqb (a b : str) : bool := bool_decide (a = b).

Lemma str_eqb_eq a b : str_eqb a b = true <-> a = b.
Proof. apply bool_decide_eq_true. Qed.

Lemma str_eqb_refl a : str_eqb a a = true.
Proof. by apply str_eqb_eq. Qed.

(** ** ASCII classes ([u8::is_ascii_digit] and the like) *)

Definition is_ascii (c : N) : bool := c <? 128.
Definition is_ascii_digit (c : N) : bool := (48 <=? c) && (c <=? 57).
Definition is_ascii_uppercase (c : N) : bool := (65 <=? c) && (c <=? 90).
Definition is_ascii_lowercase (c : N) : bool := (97 <=? c) && (c <=? 122).
Definition is_ascii_alphabetic (c : N) : bool := is_ascii_uppercase c || is_ascii_lowercase c.
Definition is_ascii_alphanumeric (c : N) : bool := is_ascii_alphabetic c || is_ascii_digit c.
Definition to_ascii_lowercase (c : N) : N := if is_ascii_uppercase c then c + 32 else c.
Definition to_ascii_uppercase (c : N) : N := if is_ascii_lowercase c then c - 32 else c.

Definition ascii_lower (s : str) : str := to_ascii_lowercase <$> s.
Definition ascii_upper (s : str) : str := to_ascii_uppercase <$> s.

(** [eq_ignore_ascii_case] *)
Definition eq_ignore_ascii_case (a b : str) : bool := str_eqb (ascii_lower a) (ascii_lower b).

Ltac ascii_lia :=
  unfold eq_ignore_ascii_case, ascii_lower, ascii_upper, to_ascii_lowercase, to_ascii_uppercase,
    is_ascii_alphanumeric, is_ascii_alphabetic, is_ascii_uppercase, is_ascii_lowercase,
    is_ascii_digit, is_ascii in *;
  repeat case_match; lia.

Lemma to_ascii_lowercase_idem c : to_ascii_lowercase (to_ascii_lowercase c) = to_ascii_lowercase c.
Proof. ascii_lia. Qed.

Lemma to_ascii_uppercase_idem c : to_ascii_uppercase (to_ascii_uppercase c) = to_ascii_uppercase c.
Proof. ascii_lia. Qed.

Lemma ascii_upper_idem s : ascii_upper (ascii_upper s) = ascii_upper s.
Proof.
  unfold ascii_upper. rw -list_fmap_compose. apply list_fmap_ext. intros ? c _.
  apply to_ascii_uppercase_idem.
Qed.

Lemma eq_ignore_ascii_case_refl s : eq_ignore_ascii_case s s = true.
Proof. apply str_eqb_refl. Qed.

Lemma eq_ignore_ascii_case_sym a b : eq_ignore_ascii_case a b = eq_ignore_ascii_case b a.
Proof. unfold eq_ignore_ascii_case, str_eqb. apply bool_decide_ext. done. Qed.

(** ** Unicode classes *)

(** [char::is_whitespace]: the White_Space property. *)
Definition is_whitespace (c : char) : bool :=
  ((9 <=? c) && (c <=? 13)) || (c =? 0x20) || (c =? 0x85) || (c =? 0xA0) || (c =? 0x1680)
  || ((0x2000 <=? c) && (c <=? 0x200A)) || (c =? 0x2028) || (c =? 0x2029) || (c =? 0x202F)
  || (c =? 0x205F) || (c =? 0x3000).

(** [char::is_control]: the general category Cc. *)
Definition is_control (c : char) : bool := (c <? 0x20) || ((0x7F <=? c) && (c <=? 0x9F)).

(** A Unicode scalar value. *)
Definition is_scalar (c : char) : bool := (c <? 0xD800) || ((0xE000 <=? c) && (c <? 0x110000)).

(** [str::trim] *)
Definition trim (s : str) : str := skip_while_end is_whitespace (skip_while is_whitespace s).

(** ** UTF-8 *)

Definition utf8_char (c : char) : bytes :=
  if c <? 0x80 then [c]
  else if c <? 0x800 then [0xC0 + c / 64; 0x80 + c mod 64]
  else if c <? 0x10000 then [0xE0 + c / 4096; 0x80 + (c / 64) mod 64; 0x80 + c mod 64]
  else [0xF0 + c / 262144; 0x80 + (c / 4096) mod 64; 0x80 + (c / 64) mod 64; 0x80 + c mod 64].

(** [String::as_bytes] *)
Definition as_bytes (s : str) : bytes := mbind utf8_char s.
#[global] Arguments as_bytes s : simpl never.

Definition is_continuation (b : byte) : bool := (0x80 <=? b) && (b <=? 0xBF).

(** [std::str::from_utf8]: no overlong form, no surrogate, nothing past U+10FFFF. *)
Fixpoint from_utf8 (raw : bytes) : option str :=
  match raw with
  | [] => Some []
  | b0 :: r0 =>
    if b0 <? 0x80 then cons b0 <$> from_utf8 r0
    else if b0 <? 0xC2 then None
    else if b0 <? 0xE0 then
      match r0 with
      | b1 :: r1 =>
          if is_continuation b1
          then cons ((b0 - 0xC0) * 64 + (b1 - 0x80)) <$> from_utf8 r1 else None
      | _ => None
      end
    else if b0 <? 0xF0 then
      match r0 with
      | b1 :: b2 :: r2 =>
          let c := (b0 - 0xE0) * 4096 + (b1 - 0x80) * 64 + (b2 - 0x80) in
          if is_continuation b1 && is_continuation b2 && (0x800 <=? c) && is_scalar c
          then cons c <$> from_utf8 r2 else None
      | _ => None
      end
    else if b0 <? 0xF5 then
      match r0 with
      | b1 :: b2 :: b3 :: r3 =>
          let c := (b0 - 0xF0) * 262144 + (b1 - 0x80) * 4096 + (b2 - 0x80) * 64 + (b3 - 0x80) in
          if is_continuation b1 && is_continuation b2 && is_continuation b3
             && (0x10000 <=? c) && is_scalar c
          then cons c <$> from_utf8 r3 else None
      | _ => None
      end
    else None
  end.

(** wiretext.rs, [wire_text]: valid UTF-8 passes through, anything else is Latin-1, one
    character per byte. *)
Definition wire_text (raw : bytes) : str := default raw (from_utf8 raw).

(** wiretext.rs, [contains_dot] *)
Definition contains_dot (text : str) : bool := existsb (N.eqb (chr ".")) text.

(** [str.len()] is the number of bytes. *)
Definition str_len (s : str) : N := blen (as_bytes s).

(** ** UTF-8 round trips *)

Ltac utf8_cases :=
  unfold is_continuation, is_scalar in *;
  repeat (case_match; simplify_eq; try lia).

Lemma add_sub_l a b : a + b - a = b.
Proof. lia. Qed.

(** The decoder on a two, three or four byte sequence given by its 6-bit digits. *)
Lemma from_utf8_2 a q rest :
  2 <= a < 32 -> q < 64 ->
  from_utf8 (0xC0 + a :: 0x80 + q :: rest) = cons (a * 64 + q) <$> from_utf8 rest.
Proof.
  intros Ha Hq. cbn [from_utf8]. rw !add_sub_l. unfold is_continuation.
  do 2 (case_match; [lia|]). do 2 (case_match; [|lia]). done.
Qed.

Lemma from_utf8_3 a q1 q rest :
  a < 16 -> q1 < 64 -> q < 64 -> 0x800 <= a * 4096 + q1 * 64 + q ->
  is_scalar (a * 4096 + q1 * 64 + q) = true ->
  from_utf8 (0xE0 + a :: 0x80 + q1 :: 0x80 + q :: rest)
  = cons (a * 4096 + q1 * 64 + q) <$> from_utf8 rest.
Proof.
  intros Ha Hq1 Hq Hmin Hs. cbn [from_utf8]. rw !add_sub_l Hs. unfold is_continuation.
  do 3 (case_match; [lia|]). case_match; [|lia].
  replace (_ && true) with true by lia. done.
Qed.

Lemma from_utf8_4 a q2 q1 q rest :
  a < 5 -> q2 < 64 -> q1 < 64 -> q < 64 -> 0x10000 <= a * 262144 + q2 * 4096 + q1 * 64 + q ->
  is_scalar (a * 262144 + q2 * 4096 + q1 * 64 + q) = true ->
  from_utf8 (0xF0 + a :: 0x80 + q2 :: 0x80 + q1 :: 0x80 + q :: rest)
  = cons (a * 262144 + q2 * 4096 + q1 * 64 + q) <$> from_utf8 rest.
Proof.
  intros Ha Hq2 Hq1 Hq Hmin Hs. cbn [from_utf8]. rw !add_sub_l Hs. unfold is_continuation.
  do 4 (case_match; [lia|]). case_match; [|lia].
  replace (_ && true) with true by lia. done.
Qed.

(** The decoder reads back one encoded character and goes on with the rest. *)
Lemma from_utf8_char c rest :
  is_scalar c = true -> from_utf8 (utf8_char c ++ rest) = cons c <$> from_utf8 rest.
Proof.
  intros Hc. assert (c < 0x110000) as Hmax by (unfold is_scalar in Hc; lia). unfold utf8_char.
  pose proof (N.div_mod c 64 ltac:(done)). pose proof (N.mod_lt c 64 ltac:(done)).
  pose proof (N.div_mod (c / 64) 64 ltac:(done)). pose proof (N.mod_lt (c / 64) 64 ltac:(done)).
  pose proof (N.div_mod (c / 4096) 64 ltac:(done)). pose proof (N.mod_lt (c / 4096) 64 ltac:(done)).
  assert (c / 64 / 64 = c / 4096) as E1 by by rw N.Div0.div_div.
  assert (c / 4096 / 64 = c / 262144) as E2 by by rw N.Div0.div_div.
  rw E1 in H1. rw E2 in H3.
  destruct (c <? 0x80) eqn:H80; [by rw /= H80|].
  destruct (c <? 0x800) eqn:H800.
  { cbn [app]. rw from_utf8_2; [lia|lia|]. do 2 f_equal. lia. }
  destruct (c <? 0x10000) eqn:H1000.
  { assert (c / 4096 * 4096 + (c / 64) mod 64 * 64 + c mod 64 = c) as E by lia.
    pose proof (from_utf8_3 (c / 4096) ((c / 64) mod 64) (c mod 64) rest) as L. rw E in L.
    apply L; [lia..|done]. }
  assert (c / 262144 * 262144 + (c / 4096) mod 64 * 4096 + (c / 64) mod 64 * 64 + c mod 64 = c)
    as E by lia.
  pose proof (from_utf8_4 (c / 262144) ((c / 4096) mod 64) ((c / 64) mod 64) (c mod 64) rest) as L.
  rw E in L. apply L; [lia..|done].
Qed.

Lemma from_utf8_as_bytes_app s rest :
  forallb is_scalar s = true -> from_utf8 (as_bytes s ++ rest) = app s <$> from_utf8 rest.
Proof.
  unfold as_bytes. induction s as [|c s IH]; simpl; [by destruct (from_utf8 rest)|].
  intros [Hc Hs]%andb_true_iff. rw -app_assoc from_utf8_char // IH //.
  by destruct (from_utf8 rest).
Qed.

Lemma from_utf8_as_bytes s : forallb is_scalar s = true -> from_utf8 (as_bytes s) = Some s.
Proof.
  intros Hs. rw -(app_nil_r (as_bytes s)) from_utf8_as_bytes_app //= app_nil_r. done.
Qed.

(** A decoded two, three or four byte sequence encodes back to itself. *)
Lemma div_mod_64 a b : b < 64 -> (a * 64 + b) / 64 = a /\ (a * 64 + b) mod 64 = b.
Proof.
  intros Hb. rw (N.add_comm (a * 64)). rw N.div_add // N.Div0.mod_add.
  rw (N.div_small _ _ Hb) (N.mod_small _ _ Hb). done.
Qed.

Lemma utf8_char_2 b0 b1 :
  0xC2 <= b0 < 0xE0 -> is_continuation b1 = true ->
  utf8_char ((b0 - 0xC0) * 64 + (b1 - 0x80)) = [b0; b1].
Proof.
  unfold is_continuation, utf8_char. intros H0 H1.
  destruct (div_mod_64 (b0 - 0xC0) (b1 - 0x80)) as [-> ->]; [lia|].
  repeat case_match; [lia| |lia|lia]. repeat f_equal; lia.
Qed.

Lemma utf8_char_3 b0 b1 b2 :
  0xE0 <= b0 < 0xF0 -> is_continuation b1 = true -> is_continuation b2 = true ->
  0x800 <= (b0 - 0xE0) * 4096 + (b1 - 0x80) * 64 + (b2 - 0x80) ->
  utf8_char ((b0 - 0xE0) * 4096 + (b1 - 0x80) * 64 + (b2 - 0x80)) = [b0; b1; b2].
Proof.
  unfold is_continuation, utf8_char. intros H0 H1 H2 Hmin.
  replace ((b0 - 0xE0) * 4096 + (b1 - 0x80) * 64 + (b2 - 0x80))
    with (((b0 - 0xE0) * 64 + (b1 - 0x80)) * 64 + (b2 - 0x80)) in * by lia.
  replace 4096 with (64 * 64) by done. rw -N.Div0.div_div.
  destruct (div_mod_64 ((b0 - 0xE0) * 64 + (b1 - 0x80)) (b2 - 0x80)) as [-> ->]; [lia|].
  destruct (div_mod_64 (b0 - 0xE0) (b1 - 0x80)) as [-> ->]; [lia|].
  repeat case_match; [lia|lia| |lia]. repeat f_equal; lia.
Qed.

Lemma utf8_char_4 b0 b1 b2 b3 :
  0xF0 <= b0 < 0xF5 -> is_continuation b1 = true -> is_continuation b2 = true ->
  is_continuation b3 = true ->
  0x10000 <= (b0 - 0xF0) * 262144 + (b1 - 0x80) * 4096 + (b2 - 0x80) * 64 + (b3 - 0x80) ->
  utf8_char ((b0 - 0xF0) * 262144 + (b1 - 0x80) * 4096 + (b2 - 0x80) * 64 + (b3 - 0x80))
  = [b0; b1; b2; b3].
Proof.
  unfold is_continuation, utf8_char. intros H0 H1 H2 H3 Hmin.
  replace ((b0 - 0xF0) * 262144 + (b1 - 0x80) * 4096 + (b2 - 0x80) * 64 + (b3 - 0x80))
    with ((((b0 - 0xF0) * 64 + (b1 - 0x80)) * 64 + (b2 - 0x80)) * 64 + (b3 - 0x80)) in * by lia.
  replace 262144 with (64 * (64 * 64)) by done. replace 4096 with (64 * 64) by done.
  rw -!N.Div0.div_div.
  destruct (div_mod_64 (((b0 - 0xF0) * 64 + (b1 - 0x80)) * 64 + (b2 - 0x80)) (b3 - 0x80))
    as [-> ->]; [lia|].
  destruct (div_mod_64 ((b0 - 0xF0) * 64 + (b1 - 0x80)) (b2 - 0x80)) as [-> ->]; [lia|].
  destruct (div_mod_64 (b0 - 0xF0) (b1 - 0x80)) as [-> ->]; [lia|].
  repeat case_match; [lia|lia|lia|]. repeat f_equal; lia.
Qed.

(** What the decoder accepts is the encoding of what it returns. *)
Lemma from_utf8_Some raw s :
  from_utf8 raw = Some s -> as_bytes s = raw /\ forallb is_scalar s = true.
Proof.
  revert s. induction raw as [raw IH] using (induction_ltof1 _ (@length N)); unfold ltof in IH.
  intros s H. destruct raw as [|b0 r0]; simpl in H; simplify_eq; [done|].
  assert (forall c r, (length r < length (b0 :: r0))%nat -> is_scalar c = true ->
     cons c <$> from_utf8 r = Some s -> as_bytes s = utf8_char c ++ r /\ forallb is_scalar s = true)
    as IH'.
  { intros c r Hr Hc E. destruct (from_utf8 r) as [t|] eqn:Et; simplify_eq/=.
    destruct (IH r Hr t Et) as [<- ->]. by rw Hc. }
  clear IH.
  destruct (b0 <? 0x80) eqn:H80.
  { apply IH' in H as [-> ->]; [|simpl; lia|unfold is_scalar; lia]. unfold utf8_char. by rw H80. }
  destruct (b0 <? 0xC2) eqn:HC2; [done|].
  destruct (b0 <? 0xE0) eqn:HE0.
  { destruct r0 as [|b1 r1]; [done|]. destruct (is_continuation b1) eqn:H1; [|done].
    apply IH' in H as [-> ->]; [|simpl; lia|].
    - rw utf8_char_2 //. lia.
    - unfold is_scalar, is_continuation in *. lia. }
  destruct (b0 <? 0xF0) eqn:HF0.
  { destruct r0 as [|b1 [|b2 r2]]; [done|done|]. destruct (_ && _) eqn:Hc; [|done].
    rw !andb_true_iff in Hc. destruct Hc as [[[H1 H2] Hmin] Hs].
    apply IH' in H as [-> ->]; [|simpl; lia|done]. rw utf8_char_3 //; unfold is_continuation; lia. }
  destruct (b0 <? 0xF5) eqn:HF5; [|done].
  destruct r0 as [|b1 [|b2 [|b3 r3]]]; [done|done|done|]. destruct (_ && _) eqn:Hc; [|done].
  rw !andb_true_iff in Hc. destruct Hc as [[[[H1 H2] H3] Hmin] Hs].
  apply IH' in H as [-> ->]; [|simpl; lia|done]. rw utf8_char_4 //; unfold is_continuation; lia.
Qed.

(** ** ASCII text is its own encoding *)

Lemma as_bytes_cons c s : as_bytes (c :: s) = utf8_char c ++ as_bytes s.
Proof. done. Qed.

Lemma utf8_char_ascii c : is_ascii c = true -> utf8_char c = [c].
Proof. unfold is_ascii, utf8_char. by intros ->. Qed.

Lemma as_bytes_ascii s : forallb is_ascii s = true -> as_bytes s = s.
Proof.
  induction s as [|c s IH]; simpl; [done|]. intros [Hc Hs]%andb_true_iff.
  by rw as_bytes_cons utf8_char_ascii // IH.
Qed.

Lemma from_utf8_ascii s : forallb is_ascii s = true -> from_utf8 s = Some s.
Proof.
  induction s as [|c s IH]; simpl; [done|]. intros [Hc Hs]%andb_true_iff.
  unfold is_ascii in Hc. by rw Hc IH.
Qed.

Lemma wire_text_ascii s : forallb is_ascii s = true -> wire_text s = s.
Proof. intros H. by rw /wire_text from_utf8_ascii. Qed.

Lemma as_bytes_app a b : as_bytes (a ++ b) = as_bytes a ++ as_bytes b.
Proof. apply bind_app. Qed.

Lemma is_ascii_scalar c : is_ascii c = true -> is_scalar c = true.
Proof. unfold is_ascii, is_scalar. lia. Qed.

Lemma ascii_scalar s : forallb is_ascii s = true -> forallb is_scalar s = true.
Proof.
  induction s as [|c s IH]; simpl; [done|]. intros [H ?]%andb_true_iff.
  rw is_ascii_scalar // IH //.
Qed.

Lemma ascii_lower_ascii c : is_ascii (to_ascii_lowercase c) = is_ascii c.
Proof. ascii_lia. Qed.

(** [wire_text] never yields anything but scalar values on octets. *)
Lemma wire_text_scalar raw :
  forallb (fun b => b <? 256) raw = true -> forallb is_scalar (wire_text raw) = true.
Proof.
  intros Hraw. unfold wire_text. destruct (from_utf8 raw) as [s|] eqn:E; simpl.
  - by apply from_utf8_Some in E as [_ ?].
  - clear E. induction raw as [|b raw IH]; simpl in *; [done|].
    apply andb_true_iff in Hraw as [Hb ?]. rw IH // andb_true_r. unfold is_scalar. lia.
Qed.

#[export] Hint Rewrite as_bytes_app str_eqb_eq : om.
#[export] Hint Resolve from_utf8_ascii wire_text_ascii as_bytes_ascii is_ascii_scalar : om.

(** ** Decimal numbers *)

(** The value of a run of decimal digits, [None] when another character appears. *)
Definition digits_value (acc : N) (s : str) : option N :=
  foldl (fun acc c => let? n := acc in
           if is_ascii_digit c then Some (n * 10 + (c - 48)) else None) (Some acc) s.

(** [str::parse] on an unsigned type whose largest value is [limit]: an optional plus sign,
    at least one digit, no overflow. *)
Definition parse_unsigned (limit : N) (s : str) : option N :=
  let digits := match s with c :: s' => if c =? chr "+" then s' else s | [] => [] end in
  match digits with
  | [] => None
  | _ => let? n := digits_value 0 digits in if n <=? limit then Some n else None
  end.

Definition u16_max : N := 2 ^ 16 - 1.
Definition u32_max : N := 2 ^ 32 - 1.
Definition usize_max : N := 2 ^ 64 - 1.
Definition i64_max : Z := (2 ^ 63 - 1)%Z.
Definition i64_min : Z := (- 2 ^ 63)%Z.

(** [str::parse::<i64>] *)
Definition parse_i64 (s : str) : option Z :=
  let parse_run (neg : bool) (digits : str) : option Z :=
    match digits with
    | [] => None
    | _ => let? n := digits_value 0 digits in
           let z := if neg then (- Z.of_N n)%Z else Z.of_N n in
           if (i64_min <=? z)%Z && (z <=? i64_max)%Z then Some z else None
    end in
  match s with
  | c :: s' => if c =? chr "+" then parse_run false s'
               else if c =? chr "-" then parse_run true s'
               else parse_run false s
  | [] => None
  end.

(** [format!("{n}")] on an unsigned number. The fuel is the number of binary digits,
    which is at least the number of decimal ones. *)
Fixpoint show_fuel (fuel : nat) (n : N) : str :=
  match fuel with
  | O => []
  | S fuel' => if n <? 10 then [48 + n] else show_fuel fuel' (n / 10) ++ [48 + n mod 10]
  end.

Definition show (n : N) : str := show_fuel (S (N.to_nat (N.size n))) n.

Lemma digits_value_app acc a b :
  digits_value acc (a ++ b) = (let? n := digits_value acc a in digits_value n b).
Proof.
  unfold digits_value. rw foldl_app. destruct (foldl _ (Some acc) a); [done|].
  induction b as [|c b IH]; [done|]. exact IH.
Qed.

Lemma show_fuel_spec fuel n :
  n < 2 ^ N.of_nat fuel -> (0 < fuel)%nat ->
  digits_value 0 (show_fuel fuel n) = Some n /\
  forallb is_ascii_digit (show_fuel fuel n) = true /\ show_fuel fuel n <> [].
Proof.
  revert n. induction fuel as [|fuel IH]; intros n Hn Hf; [lia|]. simpl.
  destruct (n <? 10) eqn:H10.
  { unfold digits_value, is_ascii_digit; simpl. split; [|split; [lia|done]].
    case_match; [|lia]. f_equal. lia. }
  assert (n < 10 * 2 ^ N.of_nat fuel) as Hn'.
  { rw Nat2N.inj_succ N.pow_succ_r' in Hn. lia. }
  assert (0 < fuel)%nat as Hfuel.
  { destruct fuel; [|lia]. simpl in Hn. lia. }
  assert (n / 10 < 2 ^ N.of_nat fuel) as Hdiv by (apply N.Div0.div_lt_upper_bound; lia).
  destruct (IH (n / 10) Hdiv Hfuel) as (Hv & Hd & Hne).
  pose proof (N.mod_lt n 10 ltac:(done)) as Hm. pose proof (N.div_mod n 10 ltac:(done)) as Hdm.
  split; [|split].
  - rw digits_value_app Hv. unfold digits_value, is_ascii_digit; simpl. case_match; [|lia].
    f_equal. lia.
  - rw forallb_app Hd /= /is_ascii_digit. lia.
  - by intros [? ?]%app_eq_nil.
Qed.

Lemma show_spec n :
  digits_value 0 (show n) = Some n /\ forallb is_ascii_digit (show n) = true /\ show n <> [].
Proof.
  apply show_fuel_spec; [|lia]. rw Nat2N.inj_succ N2Nat.id.
  pose proof (N.size_gt n). rw N.pow_succ_r'. lia.
Qed.

Lemma digit_ascii c : is_ascii_digit c = true -> is_ascii c = true.
Proof. ascii_lia. Qed.

Lemma show_inj n m : show n = show m -> n = m.
Proof.
  intros E. destruct (show_spec n) as [Hn _], (show_spec m) as [Hm _]. rw E in Hn. congruence.
Qed.

(** Parsing back a printed number, within the type. *)
Lemma parse_unsigned_show limit n : n <= limit -> parse_unsigned limit (show n) = Some n.
Proof.
  intros Hn. destruct (show_spec n) as (Hv & Hd & Hne). unfold parse_unsigned.
  destruct (show n) as [|c s]; [done|]. simpl in Hd.
  assert ((c =? chr "+") = false) as ->.
  { apply andb_true_iff in Hd as [Hc _]. chars. ascii_lia. }
  rw Hv. case_match; [done|lia].
Qed.

Lemma parse_unsigned_le limit s n : parse_unsigned limit s = Some n -> n <= limit.
Proof. unfold parse_unsigned. intros H. repeat case_match; simplify_eq; lia. Qed.
