(* ===== verification/Utf.v ===== *)
(** * Utf: the lossy decoders of the standard library

    [String::from_utf8_lossy], [str::encode_utf16] and [String::from_utf16_lossy], which the
    file formats use. What is not well formed becomes U+FFFD; what a [String] encodes to is
    read back as it was. *)

From S2P Require Import Prelude Text.

Definition REPLACEMENT : char := 0xFFFD.

(** ** UTF-8 *)

Definition within (low high b : N) : bool := (low <=? b) && (b <=? high).

(** The second bytes the first byte of a three or four byte sequence admits. *)
Definition utf8_second (b0 b1 : byte) : bool :=
  if b0 =? 0xE0 then within 0xA0 0xBF b1
  else if b0 =? 0xED then within 0x80 0x9F b1
  else if b0 =? 0xF0 then within 0x90 0xBF b1
  else if b0 =? 0xF4 then within 0x80 0x8F b1
  else is_continuation b1.

(** One character, or nothing for the longest prefix of one that no continuation completes,
    with the bytes behind it. A byte past the end reads as 0. *)
Definition utf8_next (b0 : byte) (r0 : bytes) : option char * bytes :=
  let get k := default 0 (r0 !! k) in
  if b0 <? 0x80 then (Some b0, r0)
  else if b0 <? 0xC2 then (None, r0)
  else if b0 <? 0xE0 then
    if is_continuation (get 0%nat) then (Some ((b0 - 0xC0) * 64 + (get 0%nat - 0x80)), drop 1 r0) else (None, r0)
  else if b0 <? 0xF0 then
    if negb (utf8_second b0 (get 0%nat)) then (None, r0)
    else if negb (is_continuation (get 1%nat)) then (None, drop 1 r0)
    else (Some ((b0 - 0xE0) * 4096 + (get 0%nat - 0x80) * 64 + (get 1%nat - 0x80)), drop 2 r0)
  else if b0 <? 0xF5 then
    if negb (utf8_second b0 (get 0%nat)) then (None, r0)
    else if negb (is_continuation (get 1%nat)) then (None, drop 1 r0)
    else if negb (is_continuation (get 2%nat)) then (None, drop 2 r0)
    else (Some ((b0 - 0xF0) * 262144 + (get 0%nat - 0x80) * 4096 + (get 1%nat - 0x80) * 64 + (get 2%nat - 0x80)), drop 3 r0)
  else (None, r0).

Fixpoint lossy_loop (fuel : nat) (raw : bytes) : str :=
  match fuel, raw with
  | S fuel, b0 :: r0 => let '(c, rest) := utf8_next b0 r0 in default REPLACEMENT c :: lossy_loop fuel rest
  | _, _ => []
  end.

(** [String::from_utf8_lossy] *)
Definition from_utf8_lossy (raw : bytes) : str := lossy_loop (length raw) raw.

Lemma utf8_next_2 a q rest :
  2 <= a < 32 -> q < 64 -> utf8_next (0xC0 + a) (0x80 + q :: rest) = (Some (a * 64 + q), rest).
Proof.
  intros Ha Hq. unfold utf8_next. cbv zeta. cbn [lookup list_lookup from_option id drop]. rw !add_sub_l. unfold is_continuation.
  do 2 (case_match; [lia|]). by do 2 (case_match; [|lia]).
Qed.

Lemma utf8_next_3 a q1 q rest :
  a < 16 -> q1 < 64 -> q < 64 -> 0x800 <= a * 4096 + q1 * 64 + q ->
  is_scalar (a * 4096 + q1 * 64 + q) = true ->
  utf8_next (0xE0 + a) (0x80 + q1 :: 0x80 + q :: rest) = (Some (a * 4096 + q1 * 64 + q), rest).
Proof.
  intros Ha Hq1 Hq Hmin Hs. unfold is_scalar in Hs. unfold utf8_next. cbv zeta. cbn [lookup list_lookup from_option id drop].
  rw !add_sub_l. do 3 (case_match; [lia|]). case_match; [|lia].
  assert (utf8_second (0xE0 + a) (0x80 + q1) = true) as ->.
  { unfold utf8_second, within, is_continuation. repeat case_match; lia. }
  assert (is_continuation (0x80 + q) = true) as ->; [unfold is_continuation; lia|done].
Qed.

Lemma utf8_next_4 a q2 q1 q rest :
  a < 5 -> q2 < 64 -> q1 < 64 -> q < 64 -> 0x10000 <= a * 262144 + q2 * 4096 + q1 * 64 + q ->
  is_scalar (a * 262144 + q2 * 4096 + q1 * 64 + q) = true ->
  utf8_next (0xF0 + a) (0x80 + q2 :: 0x80 + q1 :: 0x80 + q :: rest)
  = (Some (a * 262144 + q2 * 4096 + q1 * 64 + q), rest).
Proof.
  intros Ha Hq2 Hq1 Hq Hmin Hs. unfold is_scalar in Hs. unfold utf8_next. cbv zeta. cbn [lookup list_lookup from_option id drop].
  rw !add_sub_l. do 4 (case_match; [lia|]). case_match; [|lia].
  assert (utf8_second (0xF0 + a) (0x80 + q2) = true) as ->.
  { unfold utf8_second, within, is_continuation. repeat case_match; lia. }
  assert (is_continuation (0x80 + q1) = true) as -> by (unfold is_continuation; lia).
  assert (is_continuation (0x80 + q) = true) as ->; [unfold is_continuation; lia|done].
Qed.

Lemma utf8_next_char c b0 r0 rest :
  is_scalar c = true -> utf8_char c = b0 :: r0 -> utf8_next b0 (r0 ++ rest) = (Some c, rest).
Proof.
  intros Hc. assert (c < 0x110000) as Hmax by (unfold is_scalar in Hc; lia). unfold utf8_char.
  pose proof (N.div_mod c 64 ltac:(done)). pose proof (N.mod_lt c 64 ltac:(done)).
  pose proof (N.div_mod (c / 64) 64 ltac:(done)). pose proof (N.mod_lt (c / 64) 64 ltac:(done)).
  pose proof (N.div_mod (c / 4096) 64 ltac:(done)). pose proof (N.mod_lt (c / 4096) 64 ltac:(done)).
  assert (c / 64 / 64 = c / 4096) as E1 by by rw N.Div0.div_div.
  assert (c / 4096 / 64 = c / 262144) as E2 by by rw N.Div0.div_div.
  rw E1 in H1. rw E2 in H3.
  destruct (c <? 0x80) eqn:H80; [|destruct (c <? 0x800) eqn:H800; [|destruct (c <? 0x10000) eqn:H1000]];
    intros [= <- <-]; cbn [app].
  - unfold utf8_next. by rw H80.
  - rw utf8_next_2; [lia|lia|]. do 2 f_equal. lia.
  - assert (c / 4096 * 4096 + (c / 64) mod 64 * 64 + c mod 64 = c) as E by lia.
    pose proof (utf8_next_3 (c / 4096) ((c / 64) mod 64) (c mod 64) rest) as L. rw E in L. apply L; [lia..|done].
  - assert (c / 262144 * 262144 + (c / 4096) mod 64 * 4096 + (c / 64) mod 64 * 64 + c mod 64 = c) as E by lia.
    pose proof (utf8_next_4 (c / 262144) ((c / 4096) mod 64) ((c / 64) mod 64) (c mod 64) rest) as L.
    rw E in L. apply L; [lia..|done].
Qed.

Lemma utf8_char_cons c : exists b0 r0, utf8_char c = b0 :: r0.
Proof. unfold utf8_char. repeat case_match; eauto. Qed.

Lemma lossy_loop_as_bytes s fuel :
  forallb is_scalar s = true -> (length (as_bytes s) <= fuel)%nat -> lossy_loop fuel (as_bytes s) = s.
Proof.
  revert fuel. induction s as [|c s IH]; intros fuel; [by destruct fuel|]. cbn [forallb].
  intros [Hc Hs]%andb_true_iff. rw as_bytes_cons. destruct (utf8_char_cons c) as (b0 & r0 & E). rw E /=.
  destruct fuel as [|fuel]; [lia|]. rw length_app. intros Hfuel. cbn [lossy_loop].
  rw (utf8_next_char c b0 r0 _ Hc E). cbn [default]. f_equal. apply IH; [done|lia].
Qed.

(** What a [String] holds is read back. *)
Lemma from_utf8_lossy_as_bytes s : forallb is_scalar s = true -> from_utf8_lossy (as_bytes s) = s.
Proof. intros Hs. by apply lossy_loop_as_bytes. Qed.

(** ** UTF-16 *)

(** [char::encode_utf16] *)
Definition utf16_char (c : char) : list N :=
  if c <? 0x10000 then [c]
  else let c := c - 0x10000 in [0xD800 + c / 1024; 0xDC00 + c mod 1024].

(** [str::encode_utf16] *)
Definition encode_utf16 (s : str) : list N := mbind utf16_char s.

Definition is_high (u : N) : bool := within 0xD800 0xDBFF u.
Definition is_low (u : N) : bool := within 0xDC00 0xDFFF u.

(** [String::from_utf16_lossy]: a surrogate without its partner becomes U+FFFD. *)
Fixpoint from_utf16_lossy (units : list N) : str :=
  match units with
  | [] => []
  | u :: rest =>
      if is_high u then
        match rest with
        | l :: rest' =>
            if is_low l then 0x10000 + (u - 0xD800) * 1024 + (l - 0xDC00) :: from_utf16_lossy rest'
            else REPLACEMENT :: from_utf16_lossy rest
        | [] => [REPLACEMENT]
        end
      else (if is_low u then REPLACEMENT else u) :: from_utf16_lossy rest
  end.

Lemma from_utf16_lossy_char c rest :
  is_scalar c = true -> from_utf16_lossy (utf16_char c ++ rest) = c :: from_utf16_lossy rest.
Proof.
  intros Hc. unfold is_scalar in Hc. unfold utf16_char.
  pose proof (N.div_mod (c - 0x10000) 1024 ltac:(done)). pose proof (N.mod_lt (c - 0x10000) 1024 ltac:(done)).
  destruct (c <? 0x10000) eqn:E; cbn [app from_utf16_lossy].
  - unfold is_high, is_low, within. do 2 (case_match; [lia|]). done.
  - rw !add_sub_l. unfold is_high, is_low, within.
    assert ((c - 0x10000) / 1024 < 1024) by (apply N.Div0.div_lt_upper_bound; lia).
    case_match; [|lia]. case_match; [|lia]. f_equal. lia.
Qed.

Lemma from_utf16_lossy_encode s : forallb is_scalar s = true -> from_utf16_lossy (encode_utf16 s) = s.
Proof.
  unfold encode_utf16. induction s as [|c s IH]; [done|]. cbn [forallb]. intros [Hc Hs]%andb_true_iff.
  change (mbind utf16_char (c :: s)) with (utf16_char c ++ mbind utf16_char s). by rw from_utf16_lossy_char // IH.
Qed.

Lemma utf16_unit c u : is_scalar c = true -> u ∈ utf16_char c -> u < 0x10000.
Proof.
  intros Hc. unfold is_scalar in Hc. unfold utf16_char.
  pose proof (N.mod_lt (c - 0x10000) 1024 ltac:(done)). case_match eqn:E.
  - intros ->%list_elem_of_singleton. lia.
  - assert ((c - 0x10000) / 1024 < 1024) by (apply N.Div0.div_lt_upper_bound; lia).
    rw !elem_of_cons. intros [->|[->|[]%elem_of_nil]]; lia.
Qed.

Lemma encode_utf16_units s : forallb is_scalar s = true -> Forall (fun u => u < 0x10000) (encode_utf16 s).
Proof.
  intros Hs. apply Forall_forall. intros u (c & Hu & Hc)%list_elem_of_bind. eapply utf16_unit; [|done].
  by apply (proj1 (forallb_forall _ _) Hs), list_elem_of_In.
Qed.
