(* ===== verification/Message.v ===== *)
(** * Message: the parsed line (src/client/src/irc/message.rs)

    Frame limits, the error taxonomy and the parsed IRC line with its readers. Wire fields
    are bytes; the command and the tag names are validated ASCII, so they are text. *)

From S2P Require Import Prelude Text.

(** RFC 1459 line ceiling, CRLF included. *)
Definition MAX_CLASSIC_FRAME_BYTES : N := 512.
(** Receive ceiling. *)
Definition MAX_INBOUND_CLASSIC_FRAME_BYTES : N := 4096.
(** IRCv3 message-tags ceiling, without the leading at sign and the trailing space. *)
Definition MAX_TAG_SECTION_BYTES : N := 8191.
(** Parameters one line may carry. *)
Definition MAX_PARAMETERS : nat := 15.

Inductive IrcError :=
| EmptyInput
| InvalidCharacter
| InvalidTags
| InvalidPrefix
| InvalidCommand
| TooManyBytes
| InvalidField.

#[export] Instance IrcError_eq_dec : EqDecision IrcError.
Proof. solve_decision. Defined.

(** [IrcError::name] *)
Definition error_name (e : IrcError) : str :=
  match e with
  | EmptyInput => lit "empty input"
  | InvalidCharacter => lit "invalid character"
  | InvalidTags => lit "invalid tags"
  | InvalidPrefix => lit "invalid prefix"
  | InvalidCommand => lit "invalid command"
  | TooManyBytes => lit "too many bytes"
  | InvalidField => lit "invalid field"
  end.

Record IrcTag := mkTag { tag_name : str; tag_value : option bytes }.

(** [raw] always holds the whole source; an absent part is empty. *)
Record IrcPrefix := mkPrefix {
  prefix_raw : bytes;
  prefix_nick_bytes : bytes;
  prefix_user : bytes;
  prefix_host : bytes;
}.

Record IrcMessage := mkMessage {
  msg_tags : list IrcTag;
  msg_prefix : option IrcPrefix;
  msg_command : str;
  msg_params : list bytes;
}.

#[export] Instance IrcTag_eq_dec : EqDecision IrcTag.
Proof. solve_decision. Defined.
#[export] Instance IrcPrefix_eq_dec : EqDecision IrcPrefix.
Proof. solve_decision. Defined.
#[export] Instance IrcMessage_eq_dec : EqDecision IrcMessage.
Proof. solve_decision. Defined.

(** [IrcPrefix::is_user] *)
Definition is_user (p : IrcPrefix) : bool :=
  negb (bool_decide (prefix_nick_bytes p = [])) && negb (bool_decide (prefix_user p = [])).

(** [IrcMessage::text_param]: the parameter as display text, or empty past the end. *)
Definition text_param (m : IrcMessage) (index : nat) : str :=
  default [] (wire_text <$> msg_params m !! index).

(** [IrcMessage::param_index] *)
Definition param_index (m : IrcMessage) (value : str) : option nat :=
  position (fun index => eq_ignore_ascii_case (text_param m index) value)
    (seq 0 (length (msg_params m))).

(** [IrcMessage::tag_text]: the first value among the tags of that name. *)
Definition tag_text (m : IrcMessage) (name : str) : option str :=
  wire_text <$>
    head (omap tag_value (base.filter (fun t => tag_name t = name) (msg_tags m))).

(** [IrcMessage::has_tag] *)
Definition has_tag (m : IrcMessage) (name : str) : bool :=
  existsb (fun t => str_eqb (tag_name t) name) (msg_tags m).

(** [IrcMessage::msgid] *)
Definition msgid (m : IrcMessage) : str := default [] (tag_text m (lit "msgid")).

(** prefixnick.rs, [prefix_nick]: the nick that sent the message, empty without a source
    or when the source is a server name. *)
Definition prefix_nick (m : IrcMessage) : str :=
  match msg_prefix m with
  | None => []
  | Some prefix =>
      match prefix_nick_bytes prefix with
      | _ :: _ => wire_text (prefix_nick_bytes prefix)
      | [] => let raw := wire_text (prefix_raw prefix) in
              if contains_dot raw then [] else raw
      end
  end.

(** ** Facts shared by the clients *)

Lemma param_index_lt m value i : param_index m value = Some i -> (i < length (msg_params m))%nat.
Proof. intros H%position_lt. by rw length_seq in H. Qed.

Lemma text_param_past m i : (length (msg_params m) <= i)%nat -> text_param m i = [].
Proof. intros H. unfold text_param. by rw lookup_ge_None_2. Qed.

Lemma tag_text_has_tag m name v : tag_text m name = Some v -> has_tag m name = true.
Proof.
  unfold tag_text, has_tag. induction (msg_tags m) as [|t ts IH]; [done|]. rw filter_cons. simpl.
  destruct (decide (tag_name t = name)) as [<-|Hn]; [by rw str_eqb_refl|].
  intros H. rw IH // orb_true_r. done.
Qed.
