(* ===== verification/Parser.v ===== *)
(** * Parser: one line to a message and back (src/client/src/irc/parser.rs)

    [parse] follows the Rust function stage by stage with the same positions into the line;
    [serialize] is the inverse the demo peer and the round-trip tests use. *)

From S2P Require Import Prelude Text Message.

(** [&line[first..last]] *)
Definition slice {A} (l : list A) (first last : nat) : list A := take (last - first) (drop first l).

Definition is_space (b : byte) : bool := b =? chr " ".
Definition is_byte (c : byte) (b : byte) : bool := b =? c.
Definition contains_byte (c : byte) (l : bytes) : bool := existsb (is_byte c) l.

(** CR, LF or NUL. *)
Definition is_forbidden (b : byte) : bool := (b =? 13) || (b =? 10) || (b =? 0).
Definition contains_forbidden (l : bytes) : bool := existsb is_forbidden l.

Definition is_valid_command (command : bytes) : bool :=
  ((length command =? 3)%nat && forallb is_ascii_digit command)
  || (negb (bool_decide (command = [])) && forallb is_ascii_alphabetic command).

(** The position of the first byte at or after [pos] that is not a space. *)
Fixpoint leading_spaces (l : bytes) : nat :=
  match l with
  | b :: l' => if is_space b then S (leading_spaces l') else 0%nat
  | [] => 0%nat
  end.
Definition skip_spaces (line : bytes) (pos : nat) : nat := (pos + leading_spaces (drop pos line))%nat.

(** ** Tags *)

Definition unescape_byte (escaped : byte) : byte :=
  if escaped =? chr ":" then chr ";"
  else if escaped =? chr "s" then chr " "
  else if escaped =? chr "\" then chr "\"
  else if escaped =? chr "r" then 13
  else if escaped =? chr "n" then 10
  else escaped.

Fixpoint unescape_tag_value (value : bytes) : bytes :=
  match value with
  | [] => []
  | b :: value' =>
      if negb (b =? chr "\") then b :: unescape_tag_value value'
      else match value' with
           | [] => []
           | escaped :: value'' => unescape_byte escaped :: unescape_tag_value value''
           end
  end.

Definition escape_byte (b : byte) : bytes :=
  if b =? chr ";" then lit "\:"
  else if b =? chr " " then lit "\s"
  else if b =? chr "\" then lit "\\"
  else if b =? 13 then lit "\r"
  else if b =? 10 then lit "\n"
  else [b].
Definition escape_tag_value (value : bytes) : bytes := mbind escape_byte value.
#[global] Arguments escape_tag_value value : simpl never.

Definition is_tag_key_byte (b : byte) : bool := is_ascii_alphanumeric b || (b =? chr "-").
Definition is_tag_vendor_byte (b : byte) : bool := is_tag_key_byte b || (b =? chr ".").

Definition is_valid_tag_name (name : bytes) : bool :=
  let name := match name with b :: rest => if b =? chr "+" then rest else name | [] => name end in
  if bool_decide (name = []) then false
  else
    let '(vendor, key) :=
      match position (is_byte (chr "/")) name with
      | Some slash => (Some (take slash name), drop (slash + 1) name)
      | None => (None, name)
      end in
    if bool_decide (key = []) || (match vendor with Some _ => contains_byte (chr "/") key | None => false end)
    then false
    else if negb (forallb is_tag_key_byte key) then false
    else match vendor with
         | None => true
         | Some vendor => negb (bool_decide (vendor = [])) && forallb is_tag_vendor_byte vendor
         end.

Definition parse_tag (tag : bytes) : option IrcTag :=
  let '(name, value) :=
    match position (is_byte (chr "=")) tag with
    | Some equals => (take equals tag, Some (unescape_tag_value (drop (equals + 1) tag)))
    | None => (tag, None)
    end in
  if is_valid_tag_name name
  then let? name := from_utf8 name in Some (mkTag name value)
  else None.

Definition parse_tags (section : bytes) : option (list IrcTag) :=
  mapM parse_tag (split_on (is_byte (chr ";")) section).

(** ** Source *)

Definition parse_prefix (raw : bytes) : option IrcPrefix :=
  if bool_decide (raw = []) || contains_forbidden raw then None
  else
    let at_sign := position (is_byte (chr "@")) raw in
    let? (host, nick_part) :=
      match at_sign with
      | Some at_ =>
          if (at_ =? 0)%nat || (at_ + 1 =? length raw)%nat
             || contains_byte (chr "@") (drop (at_ + 1) raw)
          then None
          else Some (drop (at_ + 1) raw, take at_ raw)
      | None => Some ([], raw)
      end in
    match position (is_byte (chr "!")) nick_part with
    | Some bang =>
        if (bang =? 0)%nat || (bang + 1 =? length nick_part)%nat
           || contains_byte (chr "!") (drop (bang + 1) nick_part)
        then None
        else Some (mkPrefix raw (take bang nick_part) (drop (bang + 1) nick_part) host)
    | None =>
        Some (mkPrefix raw (match at_sign with Some _ => nick_part | None => [] end) [] host)
    end.

(** ** Parameters

    [slots] counts the parameters the line may still carry. It starts at
    [MAX_PARAMETERS], every iteration of the loop that goes on uses one, and the last one
    takes the rest of the line, so the count bounds the loop. *)
Fixpoint parse_parameters_from (slots : nat) (input : bytes) : list bytes :=
  match slots with
  | O => []
  | S slots' =>
      let rest := skip_while is_space input in
      match rest with
      | [] => []
      | b :: tail =>
          if (slots' =? 0)%nat then [if b =? chr ":" then tail else rest]
          else if b =? chr ":" then [tail]
          else match position is_space rest with
               | None => [rest]
               | Some relative =>
                   take relative rest :: parse_parameters_from slots' (drop (relative + 1) rest)
               end
      end
  end.

Definition parse_parameters (input : bytes) : list bytes := parse_parameters_from MAX_PARAMETERS input.

(** ** The line *)

(** The tag section: the tags and where the line goes on. *)
Definition parse_tag_stage (line : bytes) : option (list IrcTag * nat) :=
  match line with
  | b :: _ =>
      if b =? chr "@" then
        let? space := position is_space line in
        if (space =? 1)%nat || (MAX_TAG_SECTION_BYTES <? N.of_nat space - 1) then None
        else
          let? tags := parse_tags (slice line 1 space) in
          Some (tags, skip_spaces line (space + 1))
      else Some ([], 0%nat)
  | [] => Some ([], 0%nat)
  end.

(** The source, when the line carries one at [pos]. *)
Definition parse_prefix_stage (line : bytes) (pos : nat) : option (option IrcPrefix * nat) :=
  if bool_decide (line !! pos = Some (chr ":")) then
    match position is_space (drop pos line) with
    | None | Some 1%nat => None
    | Some relative =>
        let space := (pos + relative)%nat in
        let? prefix := parse_prefix (slice line (pos + 1) space) in
        Some (Some prefix, skip_spaces line (space + 1))
    end
  else Some (None, pos).

(** The command at [pos] and the parameters after it. *)
Definition parse_command_stage (line : bytes) (pos : nat) (tags : list IrcTag)
    (prefix : option IrcPrefix) : result IrcMessage IrcError :=
  if (pos =? length line)%nat then Err InvalidCommand
  else
    let relative := position is_space (drop pos line) in
    let command_end := match relative with None => length line | Some offset => (pos + offset)%nat end in
    let command := slice line pos command_end in
    if negb (is_valid_command command) then Err InvalidCommand
    else
      let! command := from_utf8 (ascii_upper command) orelse InvalidCommand in
      let params := match relative with
                    | Some offset => parse_parameters (drop (pos + offset + 1) line)
                    | None => []
                    end in
      Ok (mkMessage tags prefix command params).

Definition parse (line : bytes) : result IrcMessage IrcError :=
  if bool_decide (line = []) then Err EmptyInput
  else if contains_forbidden line then Err InvalidCharacter
  else
    let! (tags, pos) := parse_tag_stage line orelse InvalidTags in
    let! (prefix, pos) := parse_prefix_stage line pos orelse InvalidPrefix in
    parse_command_stage line pos tags prefix.

(** ** Writing a line *)

Definition serialize_tag (t : IrcTag) : option bytes :=
  let name := as_bytes (tag_name t) in
  if is_valid_tag_name name
  then Some (name ++ match tag_value t with
                     | Some value => chr "=" :: escape_tag_value value
                     | None => []
                     end)
  else None.

Definition serialize_tags (tags : list IrcTag) : option bytes :=
  match tags with
  | [] => Some []
  | _ =>
      let? fields := mapM serialize_tag tags in
      let section := join_with [chr ";"] fields in
      if MAX_TAG_SECTION_BYTES <? blen section then None
      else Some (chr "@" :: section ++ [chr " "])
  end.

Definition serialize_prefix (prefix : option IrcPrefix) : option bytes :=
  match prefix with
  | None => Some []
  | Some prefix =>
      if contains_byte (chr " ") (prefix_raw prefix)
         || bool_decide (parse_prefix (prefix_raw prefix) = None)
      then None
      else Some (chr ":" :: prefix_raw prefix ++ [chr " "])
  end.

Definition needs_colon (param : bytes) : bool :=
  match param with [] => true | b :: _ => (b =? chr ":") || contains_byte (chr " ") param end.

Fixpoint serialize_params (params : list bytes) : option bytes :=
  match params with
  | [] => Some []
  | param :: rest =>
      let is_last := bool_decide (rest = []) in
      if needs_colon param && negb is_last then None
      else
        let? tail := serialize_params rest in
        Some (chr " " :: (if needs_colon param then [chr ":"] else []) ++ param ++ tail)
  end.

Definition serialize (m : IrcMessage) : result bytes IrcError :=
  if (MAX_PARAMETERS <? length (msg_params m))%nat then Err InvalidField
  else
    let! tags := serialize_tags (msg_tags m) orelse InvalidTags in
    let! prefix := serialize_prefix (msg_prefix m) orelse InvalidPrefix in
    let command := as_bytes (msg_command m) in
    if negb (is_valid_command command) then Err InvalidCommand
    else
      let! params := serialize_params (msg_params m) orelse InvalidField in
      let line := tags ++ prefix ++ command ++ params in
      if contains_forbidden line then Err InvalidCharacter else Ok line.

Example parse_example :
  parse (as_bytes (lit "@a=1\s2;+b :n!u@h PRIVMSG #c :hello world"))
  = Ok (mkMessage [mkTag (lit "a") (Some (lit "1 2")); mkTag (lit "+b") None]
          (Some (mkPrefix (lit "n!u@h") (lit "n") (lit "u") (lit "h")))
          (lit "PRIVMSG") [lit "#c"; lit "hello world"]).
Proof. reflexivity. Qed.

(** ** Tag values *)

Lemma escape_cons b v : escape_tag_value (b :: v) = escape_byte b ++ escape_tag_value v.
Proof. done. Qed.

Lemma unescape_escape v rest :
  unescape_tag_value (escape_tag_value v ++ rest) = v ++ unescape_tag_value rest.
Proof.
  induction v as [|b v IH]; [done|]. rw escape_cons -app_assoc. unfold escape_byte.
  destruct (b =? chr ";") eqn:E1; [apply N.eqb_eq in E1 as ->; by rw /= IH|].
  destruct (b =? chr " ") eqn:E2; [apply N.eqb_eq in E2 as ->; by rw /= IH|].
  destruct (b =? chr "\") eqn:E3; [apply N.eqb_eq in E3 as ->; by rw /= IH|].
  destruct (b =? 13) eqn:E4; [apply N.eqb_eq in E4 as ->; by rw /= IH|].
  destruct (b =? 10) eqn:E5; [apply N.eqb_eq in E5 as ->; by rw /= IH|].
  by rw /= E3 /= IH.
Qed.

Lemma unescape_escape_nil v : unescape_tag_value (escape_tag_value v) = v.
Proof. by rw -(app_nil_r (escape_tag_value v)) unescape_escape /= app_nil_r. Qed.

(** A byte that separates fields never appears in an escaped value. *)
Definition is_tag_separator (b : byte) : bool := (b =? chr ";") || (b =? chr " ") || (b =? 13) || (b =? 10).

Lemma escape_no_separator v : forallb (fun b => negb (is_tag_separator b)) (escape_tag_value v) = true.
Proof.
  induction v as [|b v IH]; [done|]. rw escape_cons forallb_app IH andb_true_r. unfold escape_byte, is_tag_separator.
  repeat case_match; try done. simpl. destruct (b =? chr ";"), (b =? chr " "), (b =? 13), (b =? 10); done.
Qed.

Lemma escape_length_1 b : (length (escape_byte b) <= 2)%nat.
Proof. unfold escape_byte. repeat case_match; simpl; lia. Qed.

Lemma escape_plain b :
  is_tag_separator b = false -> (b =? chr "\") = false -> escape_byte b = [b].
Proof. unfold is_tag_separator, escape_byte. intros H1 ->. repeat case_match; try done; lia. Qed.

(** Escaping what was unescaped never makes the value longer. *)
Lemma escape_unescape_length v :
  forallb (fun b => negb (is_tag_separator b)) v = true ->
  (length (escape_tag_value (unescape_tag_value v)) <= length v)%nat.
Proof.
  induction v as [v IH] using (induction_ltof1 _ (@length N)); unfold ltof in IH.
  destruct v as [|b v]; [done|]. simpl. intros [Hb Hv]%andb_true_iff.
  destruct (b =? chr "\") eqn:E; simpl.
  - destruct v as [|c v]; [simpl; lia|]. simpl in Hv. apply andb_true_iff in Hv as [_ Hv].
    rw escape_cons length_app. pose proof (escape_length_1 (unescape_byte c)).
    specialize (IH v). simpl in *. lia.
  - rw escape_cons length_app escape_plain //; [by apply negb_true_iff|].
    specialize (IH v). simpl in *. lia.
Qed.

(** ** Tag names *)

Definition is_tag_name_byte (b : byte) : bool := is_tag_vendor_byte b || (b =? chr "/") || (b =? chr "+").

Lemma is_tag_name_byte_spec b :
  is_tag_name_byte b = true ->
  is_ascii b = true /\ is_tag_separator b = false /\ (b =? chr "=") = false /\ is_forbidden b = false.
Proof.
  unfold is_tag_name_byte, is_tag_vendor_byte, is_tag_key_byte, is_tag_separator, is_forbidden.
  chars. ascii_lia.
Qed.

Lemma forallb_take_drop (p : byte -> bool) i x l :
  l !! i = Some x -> forallb p (take i l) = true -> p x = true -> forallb p (drop (S i) l) = true ->
  forallb p l = true.
Proof.
  intros Hx H1 H2 H3. rw -(take_drop_middle l i x Hx) forallb_app H1 /= H2 H3. done.
Qed.

Lemma valid_tag_name_bytes name :
  is_valid_tag_name name = true -> forallb is_tag_name_byte name = true.
Proof.
  assert (forall b, is_tag_key_byte b = true -> is_tag_name_byte b = true) as Hkey.
  { intros b Hb. unfold is_tag_name_byte, is_tag_vendor_byte. by rw Hb. }
  assert (forall b, is_tag_vendor_byte b = true -> is_tag_name_byte b = true) as Hvendor.
  { intros b Hb. unfold is_tag_name_byte. by rw Hb. }
  unfold is_valid_tag_name.
  set (body := match name with b :: rest => if b =? chr "+" then rest else name | [] => name end).
  intros H. assert (forallb is_tag_name_byte body = true) as Hbody.
  { clearbody body. clear name. case_bool_decide; [done|].
    destruct (position _ body) as [slash|] eqn:Hpos.
    - apply position_Some in Hpos as (x & Hl & Hx & _).
      destruct (_ || _); [done|]. destruct (negb _) eqn:Hk; [done|].
      apply negb_false_iff in Hk. apply andb_true_iff in H as [_ Hv].
      rw Hl forallb_app (forallb_impl _ _ _ Hvendor Hv) /=.
      rw Nat.add_1_r in Hk. rw (forallb_impl _ _ _ Hkey Hk) andb_true_r.
      unfold is_byte in Hx. unfold is_tag_name_byte. rw Hx. by rw orb_true_r.
    - destruct (_ || _); [done|]. destruct (negb _) eqn:Hk; [done|].
      apply negb_false_iff in Hk. by apply (forallb_impl _ _ _ Hkey). }
  unfold body in Hbody. destruct name as [|b rest]; [done|]. destruct (b =? chr "+") eqn:E; [|done].
  simpl. rw Hbody andb_true_r /is_tag_name_byte E orb_true_r. done.
Qed.

(** ** The tag section *)

Definition tag_wf (t : IrcTag) : Prop := is_valid_tag_name (as_bytes (tag_name t)) = true.

Lemma as_bytes_ascii_inv s : forallb is_ascii (as_bytes s) = true -> as_bytes s = s.
Proof.
  induction s as [|c s IH]; [done|]. rw as_bytes_cons forallb_app. intros [Hc Hs]%andb_true_iff.
  rw IH //. enough (is_ascii c = true) by rw utf8_char_ascii //.
  unfold utf8_char, is_ascii in *. repeat case_match; simpl in Hc; lia.
Qed.

Lemma valid_name_text s :
  is_valid_tag_name (as_bytes s) = true -> as_bytes s = s /\ from_utf8 (as_bytes s) = Some s.
Proof.
  intros H%valid_tag_name_bytes.
  assert (forallb is_ascii (as_bytes s) = true) as Ha.
  { revert H. apply forallb_impl. by intros x (? & _)%is_tag_name_byte_spec. }
  pose proof (as_bytes_ascii_inv s Ha) as E. split; [done|]. rw E in Ha. rw E. by apply from_utf8_ascii.
Qed.

Lemma forallb_position_None c l :
  forallb (fun b => negb (is_byte c b)) l = true -> position (is_byte c) l = None.
Proof. intros H. by apply position_None. Qed.

(** One field reads back as its tag. *)
Lemma parse_serialize_tag t field : serialize_tag t = Some field -> parse_tag field = Some t.
Proof.
  unfold serialize_tag. destruct (is_valid_tag_name _) eqn:Hv; [|done]. intros [= <-].
  destruct (valid_name_text _ Hv) as [_ Hu]. pose proof (valid_tag_name_bytes _ Hv) as Hb.
  assert (forallb (fun b => negb (is_byte (chr "=") b)) (as_bytes (tag_name t)) = true) as Hne.
  { revert Hb. apply forallb_impl. intros x (_ & _ & Hx & _)%is_tag_name_byte_spec. by rw /is_byte Hx. }
  unfold parse_tag. destruct t as [name [value|]]; simpl in *.
  - rw position_here //. rw take_app_length Hv Hu. rw Nat.add_1_r.
    rw drop_app_ge; [lia|]. rw Nat.sub_succ_l // Nat.sub_diag /= drop_0 unescape_escape_nil. done.
  - rw app_nil_r. rw (forallb_position_None _ _ Hne) Hv Hu. done.
Qed.

(** A field holds no separator of the line. *)
Lemma serialize_tag_separator t field :
  serialize_tag t = Some field -> forallb (fun b => negb (is_tag_separator b)) field = true.
Proof.
  unfold serialize_tag. destruct (is_valid_tag_name _) eqn:Hv; [|done]. intros [= <-].
  rw forallb_app. apply andb_true_iff; split.
  - pose proof (valid_tag_name_bytes _ Hv) as Hb. revert Hb. apply forallb_impl.
    by intros x (_ & -> & _)%is_tag_name_byte_spec.
  - destruct (tag_value t); [|done]. simpl. by rw escape_no_separator.
Qed.

(** A parsed field writes back, no longer than it was. *)
Lemma serialize_parse_tag field t :
  forallb (fun b => negb (is_tag_separator b)) field = true ->
  parse_tag field = Some t ->
  exists field', serialize_tag t = Some field' /\ (length field' <= length field)%nat.
Proof.
  intros Hsep. unfold parse_tag, serialize_tag.
  destruct (position _ field) as [i|] eqn:Hpos.
  - apply position_Some in Hpos as (x & Hl & _ & _).
    destruct (is_valid_tag_name _) eqn:Hv; [|done].
    destruct (from_utf8 _) as [name|] eqn:Hu; [|done]. intros [= <-]; simpl.
    apply from_utf8_Some in Hu as [-> _]. rw Hv. eexists; split; [done|].
    assert (forallb (fun b => negb (is_tag_separator b)) (drop (i + 1) field) = true) as Hd.
    { rw -(take_drop (i + 1) field) forallb_app in Hsep. by apply andb_true_iff in Hsep as [_ ?]. }
    pose proof (escape_unescape_length _ Hd) as Hle.
    rw length_app /=. rw {3}Hl length_app /=. rw -(Nat.add_1_r i). lia.
  - destruct (is_valid_tag_name _) eqn:Hv; [|done].
    destruct (from_utf8 _) as [name|] eqn:Hu; [|done]. intros [= <-]; simpl.
    apply from_utf8_Some in Hu as [-> _]. rw Hv app_nil_r. eexists; split; [done|]. lia.
Qed.

Lemma parse_serialize_section tags fields :
  tags <> [] -> mapM serialize_tag tags = Some fields ->
  parse_tags (join_with [chr ";"] fields) = Some tags.
Proof.
  intros Hne H%mapM_Some. unfold parse_tags. rw split_on_join //.
  - by destruct H.
  - clear Hne. induction H as [|t field tags fields Ht H IH]; constructor; [|done].
    apply serialize_tag_separator in Ht. revert Ht. apply forallb_impl.
    intros x. unfold is_tag_separator, is_byte. lia.
  - apply mapM_Some. clear Hne. induction H as [|t field tags fields Ht H IH]; constructor; [|done].
    by apply parse_serialize_tag.
Qed.

Lemma section_separator tags fields :
  mapM serialize_tag tags = Some fields ->
  forallb (fun b => negb (is_space b)) (join_with [chr ";"] fields) = true.
Proof.
  intros H%mapM_Some. apply forallb_join; [done|].
  induction H as [|t field tags fields Ht H IH]; constructor; [|done].
  apply serialize_tag_separator in Ht. revert Ht. apply forallb_impl.
  intros x. unfold is_tag_separator, is_space. lia.
Qed.

Lemma clean_run run :
  forallb (fun y => negb (is_byte (chr ";") y)) run = true ->
  forallb (fun b => negb (is_space b || is_forbidden b)) run = true ->
  forallb (fun b => negb (is_tag_separator b)) run = true.
Proof.
  induction run as [|b run IH]; [done|]. simpl. intros [Hb Hs]%andb_true_iff [Hb' Hs']%andb_true_iff.
  rw IH // andb_true_r. revert Hb Hb'. unfold is_tag_separator, is_byte, is_space, is_forbidden. lia.
Qed.

Lemma parse_serialize_tags_back section tags :
  forallb (fun b => negb (is_space b || is_forbidden b)) section = true ->
  parse_tags section = Some tags ->
  exists fields, mapM serialize_tag tags = Some fields /\
    (length (join_with [chr ";"] fields) <= length section)%nat /\ tags <> [].
Proof.
  unfold parse_tags. intros Hsep H%mapM_Some.
  assert (forall y, is_byte (chr ";") y = true -> y = chr ";") as Hy by (unfold is_byte; lia).
  pose proof (join_split_on _ _ section Hy) as Hjoin.
  pose proof (split_on_runs (is_byte (chr ";")) section) as Hruns.
  pose proof (split_on_forallb (is_byte (chr ";")) _ _ Hsep) as Hclean.
  assert (Forall2 (fun t run => exists field, serialize_tag t = Some field /\
            (length field <= length run)%nat) tags (split_on (is_byte (chr ";")) section)) as H2.
  { clear Hsep Hjoin. revert tags H.
    induction (split_on _ section) as [|run runs IH]; intros tags H; inversion H; subst; constructor.
    - apply serialize_parse_tag; [|done].
      apply Forall_cons in Hruns as [Hs _]. apply Forall_cons in Hclean as [Hs' _].
      by apply clean_run.
    - apply Forall_cons in Hruns as [_ Hruns]. apply Forall_cons in Hclean as [_ Hclean]. by apply IH. }
  assert (tags <> []) as Hne.
  { intros ->. inversion H2 as [E|]; subst. by eapply split_on_nonempty. }
  clear -H2 Hne Hjoin.
  assert (exists fields, mapM serialize_tag tags = Some fields /\
    Forall2 (fun a b => (length a <= length b)%nat) fields (split_on (is_byte (chr ";")) section))
    as (fields & Hf & Hlen).
  { clear Hne Hjoin. induction H2 as [|t run tags runs (field & Hf & Hl) H2 (fields & Hfs & IH)].
    - exists []. split; [done|constructor].
    - exists (field :: fields). split; [by rw /= Hf /= Hfs|by constructor]. }
  exists fields. split; [done|]. split; [|done]. rw -Hjoin.
  by apply join_with_length.
Qed.

(** ** The stages on a written line *)

(** [rest] starts with neither a space nor one of [stops]. *)
Definition starts_clear (stops : list byte) (rest : bytes) : Prop :=
  forall b rest', rest = b :: rest' -> is_space b = false /\ existsb (N.eqb b) stops = false.

Lemma skip_spaces_at pre rest :
  starts_clear [] rest -> skip_spaces (pre ++ rest) (length pre) = length pre.
Proof.
  intros Hrest. unfold skip_spaces. rw drop_app_length. destruct rest as [|b rest]; simpl; [lia|].
  destruct (Hrest b rest eq_refl) as [-> _]. lia.
Qed.

Lemma slice_app {A} (l1 l2 l3 : list A) :
  slice (l1 ++ l2 ++ l3) (length l1) (length l1 + length l2) = l2.
Proof.
  unfold slice. rw drop_app_length. replace (_ + _ - _)%nat with (length l2) by lia.
  apply take_app_length.
Qed.

Lemma serialize_tag_nonempty t field : serialize_tag t = Some field -> field <> [].
Proof.
  unfold serialize_tag. destruct (is_valid_tag_name _) eqn:Hv; [|done]. intros [= <-].
  destruct (as_bytes (tag_name t)); done.
Qed.

Lemma parse_tag_stage_serialized tags T rest :
  serialize_tags tags = Some T -> starts_clear [chr "@"] rest -> rest <> [] ->
  parse_tag_stage (T ++ rest) = Some (tags, length T).
Proof.
  unfold serialize_tags. intros HT Hrest Hne.
  destruct tags as [|t tags].
  { simplify_eq/=. destruct rest as [|b rest]; [done|]. simpl.
    destruct (Hrest b rest eq_refl) as [_ Hb]. simpl in Hb. by destruct (b =? chr "@"). }
  cbv iota in HT. destruct (mapM serialize_tag (t :: tags)) as [fields|] eqn:Hf; [|done].
  destruct (_ <? _) eqn:Hlen in HT; [done|]. injection HT as <-.
  pose proof (section_separator _ _ Hf) as Hsp.
  pose proof (parse_serialize_section (t :: tags) fields ltac:(done) Hf) as Hp.
  assert (length (join_with [chr ";"] fields) <> 0)%nat as Hnz.
  { apply mapM_Some in Hf. inversion Hf as [|? field ? fields' Ht Hts]; subst.
    apply serialize_tag_nonempty in Ht. destruct field; [done|]. destruct fields'; simpl; lia. }
  set (section := join_with _ fields) in *. clearbody section. clear Hf.
  cbn [app parse_tag_stage]. change (chr "@" =? chr "@") with true. cbv iota.
  assert (position is_space (chr "@" :: (section ++ [chr " "]) ++ rest) = Some (S (length section))) as ->.
  { rw -app_assoc. apply (position_here is_space (chr "@" :: section)); [|done]. by rw /= Hsp. }
  unfold blen in Hlen. case_match eqn:Hbad; [lia|].
  assert (slice (chr "@" :: (section ++ [chr " "]) ++ rest) 1 (S (length section)) = section) as ->.
  { rw -app_assoc. apply (slice_app [chr "@"] section). }
  rw Hp. do 2 f_equal.
  replace (S (length section) + 1)%nat with (length (chr "@" :: section ++ [chr " "]))
    by (rw /= length_app /=; lia).
  apply (skip_spaces_at (chr "@" :: section ++ [chr " "]) rest).
  intros b r E. by destruct (Hrest b r E).
Qed.

(** The source a written line names: its raw text read again. *)
Definition canonical_prefix (prefix : option IrcPrefix) : option IrcPrefix :=
  let? p := prefix in parse_prefix (prefix_raw p).

Lemma parse_prefix_raw raw p : parse_prefix raw = Some p -> prefix_raw p = raw /\ raw <> [].
Proof.
  unfold parse_prefix. case_bool_decide; simpl; [done|]. intros H'. repeat case_match; by simplify_eq.
Qed.

Lemma parse_prefix_stage_serialized pre prefix P rest :
  serialize_prefix prefix = Some P -> starts_clear [chr ":"] rest ->
  parse_prefix_stage (pre ++ P ++ rest) (length pre) = Some (canonical_prefix prefix, length pre + length P)%nat.
Proof.
  intros HP Hrest. destruct prefix as [p|]; simplify_eq/=.
  2:{ rw /parse_prefix_stage /= lookup_app_r // Nat.sub_diag Nat.add_0_r. case_bool_decide as Hb; [|done].
      destruct rest as [|b rest]; simplify_eq/=. by destruct (Hrest _ rest eq_refl). }
  destruct (contains_byte _ _) eqn:Hsp; simplify_eq/=. case_bool_decide as Hp; simplify_eq/=.
  destruct (parse_prefix (prefix_raw p)) as [p'|] eqn:Hp'; [|done]. clear Hp.
  apply existsb_false_forallb in Hsp. pose proof (proj2 (parse_prefix_raw _ _ Hp')) as Hne.
  set (raw := prefix_raw p) in *. clearbody raw.
  unfold parse_prefix_stage. rw lookup_app_r // Nat.sub_diag. cbn [lookup list_lookup app].
  rw bool_decide_true // drop_app_length.
  assert (position is_space (chr ":" :: (raw ++ [chr " "]) ++ rest) = Some (S (length raw))) as ->.
  { rw -app_assoc. apply (position_here is_space (chr ":" :: raw)); [|done]. rw /=. by rw Hsp. }
  destruct raw as [|b raw]; [done|]. cbn [length].
  assert (slice (pre ++ chr ":" :: ((b :: raw) ++ [chr " "]) ++ rest) (length pre + 1)
            (length pre + S (S (length raw))) = b :: raw) as ->.
  { pose proof (slice_app (pre ++ [chr ":"]) (b :: raw) ([chr " "] ++ rest)) as E.
    rw length_app in E. rw -!app_assoc in E |- *. cbn [app length] in E |- *.
    rw -E. f_equal. lia. }
  rw Hp'. do 2 f_equal. set (X := pre ++ chr ":" :: (b :: raw) ++ [chr " "]).
  transitivity (skip_spaces (X ++ rest) (length X)).
  { apply f_equal2; unfold X; [norm_app; done|rw !length_app /= length_app /=; lia]. }
  rw skip_spaces_at; [|rw /X !length_app /= length_app /=; lia].
  intros c r Er. by destruct (Hrest c r Er).
Qed.

(** ** Parameters on a written line *)

Lemma needs_colon_false param :
  needs_colon param = false ->
  exists b rest, param = b :: rest /\ (b =? chr ":") = false /\
    forallb (fun b => negb (is_space b)) param = true.
Proof.
  unfold needs_colon. destruct param as [|b rest]; [done|].
  intros [Hb Hs]%orb_false_iff. exists b, rest. split; [done|]. split; [done|].
  by apply existsb_false_forallb in Hs.
Qed.

Lemma parse_parameters_serialized params slots s :
  serialize_params params = Some s -> (length params <= slots)%nat -> params <> [] ->
  exists t, s = chr " " :: t /\ parse_parameters_from slots t = params.
Proof.
  revert slots s. induction params as [|param params IH]; [done|].
  intros slots s Hs Hlen _. destruct slots as [|slots]; [simpl in Hlen; lia|].
  cbn [serialize_params] in Hs. case_bool_decide as Hlast.
  - subst params. rw andb_false_r /= app_nil_r in Hs. injection Hs as <-.
    eexists; split; [done|]. destruct (needs_colon param) eqn:Hc; simpl.
    + by case_match.
    + apply needs_colon_false in Hc as (b & rest & -> & Hb & Hsp). rw /= in Hsp *.
      apply andb_true_iff in Hsp as [Hb' Hsp]. apply negb_true_iff in Hb'. rw Hb' Hb.
      case_match; [done|]. by rw /= Hb' (proj2 (position_None _ _) Hsp).
  - destruct (needs_colon param) eqn:Hc; [done|]. simpl in Hs.
    destruct (serialize_params params) as [s'|] eqn:Hs'; [|done]. injection Hs as <-.
    destruct (IH slots s' eq_refl ltac:(simpl in Hlen; lia) Hlast) as (t & -> & Ht).
    eexists; split; [done|].
    apply needs_colon_false in Hc as (b & rest & -> & Hb & Hsp).
    cbn [parse_parameters_from].
    rw (skip_while_id is_space ((b :: rest) ++ _)).
    { intros x l' [= <- _]. simpl in Hsp. apply andb_true_iff in Hsp as [Hx _].
      by apply negb_true_iff. }
    assert (position is_space ((b :: rest) ++ chr " " :: t) = Some (length (b :: rest))) as Hpos
      by by apply position_here.
    cbn [app] in *. rw Hpos Hb. destruct slots as [|slots].
    { destruct params; [done|]. simpl in Hlen. lia. }
    change (S slots =? 0)%nat with false. cbv iota.
    assert (take (length (b :: rest)) (b :: rest ++ chr " " :: t) = b :: rest) as ->
      by exact (take_app_length (b :: rest) _).
    assert (drop (length (b :: rest) + 1) (b :: rest ++ chr " " :: t) = t) as ->; [|by rw Ht].
    pose proof (drop_app_add' (b :: rest) (chr " " :: t) (length (b :: rest)) 1 eq_refl) as E.
    exact E.
Qed.

(** ** Round trips *)

(** The message a written line reads back as: the command in upper case and the source
    read again from its raw text. *)
Definition canonical (m : IrcMessage) : IrcMessage :=
  mkMessage (msg_tags m) (canonical_prefix (msg_prefix m)) (ascii_upper (msg_command m)) (msg_params m).

Lemma valid_command_bytes command :
  is_valid_command command = true ->
  exists b rest, command = b :: rest /\ forallb is_ascii_alphanumeric command = true.
Proof.
  unfold is_valid_command. destruct command as [|b rest]; [done|]. intros H.
  exists b, rest. split; [done|].
  apply orb_true_iff in H as [[_ H]%andb_true_iff|[_ H]%andb_true_iff]; revert H; apply forallb_impl;
    unfold is_ascii_alphanumeric; intros x ->; [by rw orb_true_r|done].
Qed.

Lemma alphanumeric_clear b :
  is_ascii_alphanumeric b = true ->
  is_space b = false /\ (b =? chr "@") = false /\ (b =? chr ":") = false /\ is_ascii b = true.
Proof.
  unfold is_space. chars. ascii_lia.
Qed.

Lemma as_bytes_command s :
  is_valid_command (as_bytes s) = true -> as_bytes s = s /\ forallb is_ascii s = true.
Proof.
  intros (b & rest & _ & H)%valid_command_bytes.
  assert (forallb is_ascii (as_bytes s) = true) as Ha.
  { revert H. apply forallb_impl. by intros x (_ & _ & _ & ?)%alphanumeric_clear. }
  pose proof (as_bytes_ascii_inv s Ha) as E. by rw E in Ha.
Qed.

Lemma starts_clear_app stops l rest :
  l <> [] -> starts_clear stops l -> starts_clear stops (l ++ rest).
Proof. destruct l as [|b l]; [done|]. intros _ H c r [= <- _]. by apply (H b l). Qed.

Lemma alphanumeric_starts_clear stops l :
  forallb is_ascii_alphanumeric l = true -> forallb (fun b => (b =? chr "@") || (b =? chr ":")) stops = true ->
  starts_clear stops l.
Proof.
  intros Hl Hstops b r ->. simpl in Hl. apply andb_true_iff in Hl as [Hb _].
  apply alphanumeric_clear in Hb as (? & Hat & Hcolon & _). split; [done|].
  induction stops as [|s stops IH]; [done|]. simpl in *. apply andb_true_iff in Hstops as [Hs Hstops].
  rw IH // orb_false_r. apply N.eqb_neq. intros ->. by rw Hat Hcolon in Hs.
Qed.

Lemma alphanumeric_no_space l :
  forallb is_ascii_alphanumeric l = true -> forallb (fun b => negb (is_space b)) l = true.
Proof. apply forallb_impl. by intros x (-> & _)%alphanumeric_clear. Qed.

Lemma ascii_upper_ascii l :
  forallb is_ascii_alphanumeric l = true -> forallb is_ascii (ascii_upper l) = true.
Proof.
  unfold ascii_upper. induction l as [|b l IH]; simpl; [done|]. intros [Hb Hl]%andb_true_iff.
  rw IH // andb_true_r. clear -Hb. ascii_lia.
Qed.

Lemma slice_last {A} (l1 l2 : list A) : slice (l1 ++ l2) (length l1) (length (l1 ++ l2)) = l2.
Proof.
  unfold slice. rw drop_app_length length_app. apply take_ge. lia.
Qed.

Lemma parse_command_stage_written pre command written params tags prefix :
  is_valid_command command = true -> serialize_params params = Some written ->
  (length params <= MAX_PARAMETERS)%nat ->
  parse_command_stage (pre ++ command ++ written) (length pre) tags prefix
  = Ok (mkMessage tags prefix (ascii_upper command) params).
Proof.
  intros Hcmd Hw Hlen. destruct (valid_command_bytes _ Hcmd) as (c & cs & Hc & Halnum).
  pose proof (alphanumeric_no_space _ Halnum) as Hns.
  unfold parse_command_stage. case_match eqn:Hend.
  { apply Nat.eqb_eq in Hend. rw !length_app Hc /= in Hend. lia. }
  clear Hend. rw drop_app_length.
  destruct params as [|param params].
  - injection Hw as <-. rw app_nil_r (proj2 (position_None _ _) Hns) slice_last Hcmd.
    by rw /= from_utf8_ascii // ascii_upper_ascii.
  - destruct (parse_parameters_serialized _ _ _ Hw Hlen ltac:(done)) as (t & -> & Ht).
    rw position_here // slice_app Hcmd /= from_utf8_ascii ?ascii_upper_ascii //.
    do 2 f_equal. rw -Ht. unfold parse_parameters. f_equal.
    rw app_assoc -length_app (drop_app_add' _ _ _ 1) //.
Qed.

Lemma parse_serialized m line : serialize m = Ok line -> parse line = Ok (canonical m).
Proof.
  unfold serialize. case_match eqn:Hcount; [done|]. apply Nat.ltb_ge in Hcount.
  destruct (serialize_tags _) as [T|] eqn:HT; [|done].
  destruct (serialize_prefix _) as [P|] eqn:HP; [|done].
  destruct (is_valid_command _) eqn:Hcmd; [|done]. simpl.
  destruct (serialize_params _) as [W|] eqn:HW; [|done].
  destruct (contains_forbidden _) eqn:Hforb; [done|]. intros [= <-].
  destruct (as_bytes_command _ Hcmd) as [Ecmd _]. rw Ecmd in Hcmd Hforb *.
  destruct (valid_command_bytes _ Hcmd) as (c & cs & Hc & Halnum).
  assert (forall stops, forallb (fun b => (b =? chr "@") || (b =? chr ":")) stops = true ->
    starts_clear stops (msg_command m ++ W)) as Hclear.
  { intros stops Hstops. apply starts_clear_app; [by rw Hc|]. by apply alphanumeric_starts_clear. }
  assert (starts_clear [chr "@"] (P ++ msg_command m ++ W)) as Hafter_tags.
  { destruct (msg_prefix m) as [p|]; simplify_eq/=; [|by apply Hclear].
    destruct (_ || _); simplify_eq/=. by intros b r [= <- _]. }
  unfold parse. case_bool_decide as Hempty.
  { destruct (app_eq_nil _ _ Hempty) as [_ [_ [Hnil _]%app_eq_nil]%app_eq_nil]. by rw Hnil in Hc. }
  rw Hforb (parse_tag_stage_serialized _ _ _ HT Hafter_tags).
  { rw Hc. by destruct P. }
  rw (parse_prefix_stage_serialized T _ P (msg_command m ++ W) HP); [by apply Hclear|].
  rw app_assoc -length_app. by rw (parse_command_stage_written _ _ W (msg_params m)).
Qed.

(** C1: writing a message gives a line that reads back as the message, up to the case of
    the command and the parts of the source. *)
Theorem parse_serialize m line : serialize m = Ok line -> parse line = Ok (canonical m).
Proof. apply parse_serialized. Qed.

(** ** What the parser returns can be written *)

Abbreviation clean := (fun l : bytes => forallb (fun b => negb (is_forbidden b)) l = true).

Lemma serialize_parsed_params slots input :
  clean input ->
  (length (parse_parameters_from slots input) <= slots)%nat /\
  exists w, serialize_params (parse_parameters_from slots input) = Some w /\ clean w.
Proof.
  revert input. induction slots as [|slots IH]; intros input Hin; [by split; [|exists []]|].
  cbn [parse_parameters_from].
  pose proof (forallb_skip_while _ is_space _ Hin) as Hrest.
  destruct (skip_while is_space input) as [|b tail] eqn:Hs; [split; [simpl; lia|by exists []]|].
  assert (forall p, clean p -> (length [p] <= S slots)%nat /\
            exists w, serialize_params [p] = Some w /\ clean w) as Hone.
  { intros p Hp. split; [simpl; lia|]. simpl. rw andb_false_r app_nil_r. eexists; split; [done|].
    simpl. rw forallb_app Hp andb_true_r. by case_match. }
  pose proof Hrest as Htail. simpl in Htail. apply andb_true_iff in Htail as [_ Htail].
  case_match eqn:Hslots; [by apply Hone; case_match|].
  destruct (b =? chr ":") eqn:Hcolon; [by apply Hone|].
  destruct (position is_space (b :: tail)) as [relative|] eqn:Hpos; [|by apply Hone].
  pose proof (skip_while_head _ _ _ _ Hs) as Hb.
  apply position_Some in Hpos as (x & Hl & Hx & Hns).
  destruct (IH (drop (relative + 1) (b :: tail))) as [Hlen (w & Hw & Hwc)]; [by apply forallb_drop|].
  split; [simpl in *; lia|].
  set (params := parse_parameters_from slots _) in *. clearbody params.
  destruct relative as [|relative]; [simpl in Hl; injection Hl as <-; by rw Hb in Hx|].
  assert (needs_colon (take (S relative) (b :: tail)) = false) as Hnc.
  { simpl. rw Hcolon /=. change (existsb is_space (take (S relative) (b :: tail)) = false).
    by apply existsb_false_forallb. }
  assert (clean (take (S relative) (b :: tail))) as Htake by by apply forallb_take.
  cbn [serialize_params]. rw Hnc Hw. eexists; split; [done|].
  simpl in Htake |- *. by rw forallb_app Hwc andb_true_r.
Qed.

(** An unescaped value without NUL bytes escapes to a clean field. *)
Lemma unescape_no_nul v :
  forallb (fun b => negb (b =? 0)) v = true ->
  forallb (fun b => negb (b =? 0)) (unescape_tag_value v) = true.
Proof.
  induction v as [v IH] using (induction_ltof1 _ (@length N)); unfold ltof in IH.
  destruct v as [|b v]; [done|]. simpl. intros [Hb Hv]%andb_true_iff.
  destruct (negb (b =? chr "\")).
  { cbn [forallb]. rw IH // ; [simpl; lia|]. by rw Hb. }
  destruct v as [|c v]; [done|]. simpl in *. apply andb_true_iff in Hv as [Hc Hv].
  rw IH // ; [simpl in *; lia|]. rw andb_true_r. unfold unescape_byte. repeat case_match; done.
Qed.

Lemma escape_no_nul v :
  forallb (fun b => negb (b =? 0)) v = true ->
  forallb (fun b => negb (b =? 0)) (escape_tag_value v) = true.
Proof.
  induction v as [|b v IH]; [done|]. simpl. intros [Hb Hv]%andb_true_iff.
  rw escape_cons forallb_app IH // andb_true_r. unfold escape_byte. repeat case_match; try done.
  simpl. by rw Hb.
Qed.

Lemma clean_no_nul l : clean l -> forallb (fun b => negb (b =? 0)) l = true.
Proof. apply forallb_impl. unfold is_forbidden. lia. Qed.

Lemma serialize_parse_tag_clean run t field :
  clean run -> parse_tag run = Some t -> serialize_tag t = Some field -> clean field.
Proof.
  intros Hrun Hp Hs. pose proof (serialize_tag_separator _ _ Hs) as Hsep.
  enough (forallb (fun b => negb (b =? 0)) field = true) as Hz.
  { pose proof (forallb_both _ _ _ Hsep Hz) as Hb. revert Hb. apply forallb_impl.
    unfold is_tag_separator, is_forbidden. lia. }
  unfold serialize_tag in Hs. destruct (is_valid_tag_name _) eqn:Hv; [|done]. injection Hs as <-.
  rw forallb_app. apply andb_true_iff; split.
  { pose proof (valid_tag_name_bytes _ Hv) as Hn. revert Hn. apply forallb_impl.
    intros x (_ & _ & _ & Hx)%is_tag_name_byte_spec. unfold is_forbidden in Hx. lia. }
  destruct (tag_value t) as [value|] eqn:Hval; [|done]. simpl. apply escape_no_nul.
  unfold parse_tag in Hp. destruct (position _ run) as [i|]; destruct (is_valid_tag_name _); try done;
    destruct (from_utf8 _); simplify_eq/=.
  apply unescape_no_nul, clean_no_nul. by apply forallb_drop.
Qed.

Lemma serialize_parsed_tags section tags :
  clean section -> forallb (fun b => negb (is_space b)) section = true ->
  N.of_nat (length section) <= MAX_TAG_SECTION_BYTES ->
  parse_tags section = Some tags ->
  exists T, serialize_tags tags = Some T /\ clean T.
Proof.
  intros Hclean Hsp Hlen Hp.
  destruct (parse_serialize_tags_back section tags) as (fields & Hf & Hl & Hne); [|done|].
  { pose proof (forallb_both _ _ _ Hsp Hclean) as H. revert H. apply forallb_impl. intros x. lia. }
  assert (Forall (fun field => clean field) fields) as Hfields.
  { apply mapM_Some in Hf. unfold parse_tags in Hp. apply mapM_Some in Hp.
    pose proof (split_on_forallb (is_byte (chr ";")) _ _ Hclean) as Hruns.
    clear Hclean Hsp Hlen Hl Hne. revert fields Hf Hruns.
    induction Hp as [|run t runs tags Ht Hp IH]; intros fields Hf Hruns; inversion Hf; subst; constructor.
    - apply Forall_cons in Hruns as [Hr _]. by eapply serialize_parse_tag_clean.
    - apply Forall_cons in Hruns as [_ Hr]. by apply IH. }
  unfold serialize_tags. destruct tags as [|t tags]; [done|]. rw Hf. cbv iota.
  case_match eqn:Hlong; [unfold blen in Hlong; lia|].
  eexists; split; [done|]. simpl. rw forallb_app /= andb_true_r. by apply forallb_join.
Qed.

(** The shape of the first two stages' results. *)
Lemma parse_tag_stage_Some line tags pos :
  clean line -> parse_tag_stage line = Some (tags, pos) ->
  exists T, serialize_tags tags = Some T /\ clean T.
Proof.
  intros Hclean. unfold parse_tag_stage.
  destruct line as [|b line]; [intros [= <- <-]; by exists []|].
  case_match; [|intros [= <- <-]; by exists []].
  destruct (position is_space (b :: line)) as [space|] eqn:Hpos; [|done].
  case_match eqn:Hsize; [done|]. destruct (parse_tags _) as [tags'|] eqn:Hp; [|done].
  intros [= <- _]. apply position_Some in Hpos as Hsome. destruct Hsome as (x & Hl & _ & Hns).
  apply position_lt in Hpos.
  eapply serialize_parsed_tags; [| | |done]; unfold slice; rw ?skipn_O.
  - by apply forallb_take, forallb_drop.
  - clear -Hns. destruct space as [|space]; [done|]. rw /= in Hns *. rw Nat.sub_0_r.
    by apply andb_true_iff in Hns as [_ ?].
  - rw length_take length_drop. lia.
Qed.

Lemma parse_prefix_stage_Some line pos prefix pos' :
  clean line -> parse_prefix_stage line pos = Some (prefix, pos') ->
  canonical_prefix prefix = prefix /\ exists P, serialize_prefix prefix = Some P /\ clean P.
Proof.
  intros Hclean. unfold parse_prefix_stage.
  case_bool_decide; [|intros [= <- <-]; split; [done|by exists []]].
  destruct (position is_space _) as [relative|] eqn:Hpos; [|done].
  apply position_Some in Hpos as (x & Hl & _ & Hns).
  set (raw := slice line (pos + 1) (pos + relative)) in *.
  assert (forallb (fun b => negb (is_space b)) raw = true) as Hraw.
  { unfold raw, slice. destruct relative as [|relative].
    - by replace (pos + 0 - (pos + 1))%nat with 0%nat by lia.
    - replace (pos + S relative - (pos + 1))%nat with relative by lia.
      rw -drop_drop take_drop_commute. by apply forallb_drop. }
  assert (clean raw) as Hc by by apply forallb_take, forallb_drop.
  intros H'. assert (exists p, parse_prefix raw = Some p /\ prefix = Some p) as (p & Hp & ->).
  { destruct relative as [|[|relative]]; [| done |]; destruct (parse_prefix raw) as [p|]; simplify_eq;
      by exists p. }
  pose proof (proj1 (parse_prefix_raw _ _ Hp)) as Hpr.
  rw /canonical_prefix /serialize_prefix Hpr Hp. split; [done|].
  apply existsb_false_forallb in Hraw. change (existsb is_space raw) with (contains_byte (chr " ") raw) in Hraw.
  rw Hraw. eexists; split; [done|]. simpl. by rw forallb_app Hc.
Qed.

Lemma ascii_upper_valid_command command :
  is_valid_command command = true -> is_valid_command (ascii_upper command) = true.
Proof.
  unfold is_valid_command, ascii_upper. rw length_fmap. intros H.
  apply orb_true_iff in H as [H|H]; apply andb_true_iff in H as [H1 H2]; apply orb_true_iff.
  - left. rw H1 /=. clear H1. induction command as [|b l IH]; [done|]. simpl in *.
    apply andb_true_iff in H2 as [Hb Hl]. rw IH // andb_true_r. clear -Hb. ascii_lia.
  - right. apply andb_true_iff; split; [by destruct command|]. clear H1.
    induction command as [|b l IH]; [done|]. simpl in *.
    apply andb_true_iff in H2 as [Hb Hl]. rw IH // andb_true_r. clear -Hb. ascii_lia.
Qed.

Lemma parse_command_stage_Some line pos tags prefix m :
  clean line -> parse_command_stage line pos tags prefix = Ok m ->
  msg_tags m = tags /\ msg_prefix m = prefix /\ ascii_upper (msg_command m) = msg_command m /\
  is_valid_command (as_bytes (msg_command m)) = true /\ as_bytes (msg_command m) = msg_command m /\
  (length (msg_params m) <= MAX_PARAMETERS)%nat /\
  exists W, serialize_params (msg_params m) = Some W /\ clean W.
Proof.
  intros Hclean. unfold parse_command_stage. case_match; [done|].
  destruct (is_valid_command _) eqn:Hcmd; [|done]. simpl.
  pose proof (ascii_upper_valid_command _ Hcmd) as Hup.
  destruct (valid_command_bytes _ Hcmd) as (_ & _ & _ & Halnum).
  pose proof (ascii_upper_ascii _ Halnum) as Hascii. rw from_utf8_ascii // . intros [= <-]. simpl.
  rw as_bytes_ascii // ascii_upper_idem. do 5 (split; [done|]).
  destruct (position is_space _) as [offset|]; [|split; [simpl; lia|by exists []]].
  apply serialize_parsed_params. by apply forallb_drop.
Qed.

(** Every parsed message can be written, and the line it is written as reads back as
    exactly that message. *)
Theorem serialize_parse line m :
  parse line = Ok m -> exists line', serialize m = Ok line' /\ parse line' = Ok m.
Proof.
  intros H. unfold parse in H. revert H. case_bool_decide; [done|]. destruct (contains_forbidden line) eqn:Hforb; [done|].
  apply existsb_false_forallb in Hforb.
  destruct (parse_tag_stage line) as [[tags pos]|] eqn:Ht; [|done].
  destruct (parse_prefix_stage line pos) as [[prefix pos']|] eqn:Hp; [|done]. intros Hc.
  destruct (parse_tag_stage_Some _ _ _ Hforb Ht) as (T & HT & HTc).
  destruct (parse_prefix_stage_Some _ _ _ _ Hforb Hp) as (Hcanon & P & HP & HPc).
  destruct (parse_command_stage_Some _ _ _ _ _ Hforb Hc)
    as (<- & <- & Hup & Hcmd & Ecmd & Hlen & W & HW & HWc).
  assert (serialize m = Ok (T ++ P ++ msg_command m ++ W)) as Hser.
  { unfold serialize. case_match eqn:Hcount; [apply Nat.ltb_lt in Hcount; lia|].
    rw HT HP Hcmd HW Ecmd /=. destruct (contains_forbidden _) eqn:Hbad; [|done].
    exfalso. apply not_false_iff_true in Hbad. apply Hbad. apply existsb_false_forallb.
    rw !forallb_app HTc HPc HWc andb_true_r /=. rw Ecmd in Hcmd.
    destruct (valid_command_bytes _ Hcmd) as (_ & _ & _ & Ha). revert Ha. apply forallb_impl.
    unfold is_forbidden. intros x Hx. ascii_lia. }
  exists (T ++ P ++ msg_command m ++ W). split; [done|].
  rw (parse_serialized _ _ Hser) /canonical Hcanon Hup. by destruct m.
Qed.

(** A written parameter list: only the last may need a colon. *)
Lemma serialize_params_grammar params W :
  serialize_params params = Some W -> clean W ->
  Forall (fun p => clean p) params /\
  forall i p, params !! i = Some p -> (S i < length params)%nat -> needs_colon p = false.
Proof.
  revert W. induction params as [|param params IH]; intros W; [by intros _ _; split|].
  cbn [serialize_params]. destruct (needs_colon param && _) eqn:Hc; [done|].
  destruct (serialize_params params) as [W'|]; [|done]. intros [= <-]. simpl.
  rw !forallb_app !andb_true_iff. intros (_ & Hp & HW). destruct (IH W' eq_refl HW) as [Hall Hi].
  split; [by constructor|]. intros [|i] p; simpl; intros H Hlen; [|apply (Hi i p H); lia].
  injection H as <-. destruct params; [simpl in Hlen; lia|]. by rw andb_true_r in Hc.
Qed.

Lemma serialize_tags_names tags T :
  serialize_tags tags = Some T ->
  Forall (fun t => is_valid_tag_name (as_bytes (tag_name t)) = true) tags.
Proof.
  unfold serialize_tags. destruct tags as [|t tags]; [by constructor|].
  destruct (mapM serialize_tag (t :: tags)) as [fields|] eqn:Hf; [|done]. intros _.
  apply mapM_Some in Hf. induction Hf as [|t' field tags' fields Ht Hf IH]; constructor; [|done].
  unfold serialize_tag in Ht. by destruct (is_valid_tag_name _).
Qed.

(** C38: on an accepted line the parser yields at most fifteen parameters without CR, LF or
    NUL, of which only the last may be empty, hold a space or start with a colon; a command
    of letters or three digits in upper case; and tag names of the IRCv3 grammar. *)
Theorem parse_well_formed line m :
  parse line = Ok m ->
  (length (msg_params m) <= MAX_PARAMETERS)%nat /\
  Forall (fun p => contains_forbidden p = false) (msg_params m) /\
  (forall i p, msg_params m !! i = Some p -> (S i < length (msg_params m))%nat ->
     needs_colon p = false) /\
  is_valid_command (msg_command m) = true /\ ascii_upper (msg_command m) = msg_command m /\
  Forall (fun t => is_valid_tag_name (as_bytes (tag_name t)) = true) (msg_tags m).
Proof.
  unfold parse. case_bool_decide; [done|]. destruct (contains_forbidden line) eqn:Hforb; [done|].
  apply existsb_false_forallb in Hforb.
  destruct (parse_tag_stage line) as [[tags pos]|] eqn:Ht; [|done].
  destruct (parse_prefix_stage line pos) as [[prefix pos']|] eqn:Hp; [|done]. intros Hc.
  destruct (parse_tag_stage_Some _ _ _ Hforb Ht) as (T & HT & _).
  destruct (parse_command_stage_Some _ _ _ _ _ Hforb Hc)
    as (<- & _ & Hup & Hcmd & Ecmd & Hlen & W & HW & HWc).
  destruct (serialize_params_grammar _ _ HW HWc) as [Hall Hi]. rw Ecmd in Hcmd.
  repeat split; try done; [|by eapply serialize_tags_names].
  eapply Forall_impl; [exact Hall|]. intros p. apply existsb_false_forallb.
Qed.

(** Witnesses and a limit of the documented round trip. *)
Definition example_message : IrcMessage :=
  mkMessage [mkTag (lit "msgid") (Some (lit "a;b c"))]
    (Some (mkPrefix (lit "n!u@h") (lit "n") (lit "u") (lit "h")))
    (lit "PRIVMSG") [lit "#c"; lit "hello world"].

Lemma parse_serialize_witness :
  exists line, serialize example_message = Ok line /\ parse line = Ok (canonical example_message).
Proof. eexists. split; [vm_compute; reflexivity|]. apply parse_serialize. vm_compute. reflexivity. Defined.

Lemma serialize_parse_witness :
  exists m line', parse (lit "@a=1\s2 :n!u@h privmsg #c :hello world") = Ok m /\
    serialize m = Ok line' /\ parse line' = Ok m.
Proof.
  eexists. destruct (serialize_parse (lit "@a=1\s2 :n!u@h privmsg #c :hello world") _
    ltac:(vm_compute; reflexivity)) as (line' & H1 & H2).
  exists line'. split; [vm_compute; reflexivity|]. split; [exact H1|exact H2].
Defined.

Lemma parse_well_formed_witness :
  exists m, parse (lit "PING :a b") = Ok m /\ is_valid_command (msg_command m) = true.
Proof.
  eexists. split; [vm_compute; reflexivity|].
  apply (parse_well_formed (lit "PING :a b")). vm_compute. reflexivity.
Defined.

(** The comment on [serialize] promises the message back for every message it accepts. It
    accepts a lower-case command, which reads back in upper case. *)
Lemma serialize_accepts_lower_case :
  exists m line, serialize m = Ok line /\ parse line <> Ok m.
Proof.
  exists (mkMessage [] None (lit "ping") []), (lit "ping").
  split; [vm_compute; reflexivity|]. vm_compute. discriminate.
Qed.
