(* ===== verification/Framer.v ===== *)
(** * Framer: a byte stream to CRLF-terminated frames (src/client/src/irc/framer.rs)

    [feed] is the method of [IrcFramer]; its loop is [feed_loop], whose fuel the proofs show
    to suffice. The reference semantics [crlf_lines] cuts a whole stream at every CRLF; the
    main theorem says that feeding a stream in any chunks delivers exactly its valid lines. *)

From S2P Require Import Prelude Text Message.

Definition FAULT_PREVIEW_BYTES : nat := 160.

Record IrcFrameFault := mkFault {
  fault_error : IrcError;
  fault_preview : bytes;
  fault_byte_count : N;
}.

Record IrcFrameResult := mkFrameResult {
  frames : list bytes;
  faults : list IrcFrameFault;
}.

Record IrcFramer := mkFramer {
  pending : bytes;
  discarding : bool;
}.

(** [IrcFramer::new] *)
Definition new_framer : IrcFramer := mkFramer [] false.

Definition CR : byte := 13.
Definition LF : byte := 10.

(** [bytes.windows(2).position(|pair| pair == b"\r\n")] *)
Fixpoint find_crlf (l : bytes) : option nat :=
  match l with
  | [] => None
  | b :: l' =>
      match l' with
      | [] => None
      | c :: _ => if (b =? CR) && (c =? LF) then Some 0%nat else S <$> find_crlf l'
      end
  end.

Definition contains_nul (l : bytes) : bool := existsb (N.eqb 0) l.
Definition is_frame_space (b : byte) : bool := b =? chr " ".
Definition starts_with_at (l : bytes) : bool :=
  match l with b :: _ => b =? chr "@" | [] => false end.

Definition retained_carriage_return (rest : bytes) : bytes :=
  if bool_decide (last rest = Some CR) then [CR] else [].

Definition record_fault (error : IrcError) (raw : bytes) : IrcFrameFault :=
  mkFault error (take (Nat.min (length raw) FAULT_PREVIEW_BYTES) raw) (blen raw).

Definition complete_frame_is_valid (frame : bytes) : bool :=
  let plain_fits := blen frame + 2 <=? MAX_INBOUND_CLASSIC_FRAME_BYTES in
  if negb (starts_with_at frame) then plain_fits
  else match position is_frame_space frame with
       | None => plain_fits
       | Some space =>
           let tag_payload_bytes := N.of_nat space - 1 in
           let classic_frame_bytes := blen frame - N.of_nat space - 1 + 2 in
           (tag_payload_bytes <=? MAX_TAG_SECTION_BYTES)
           && (classic_frame_bytes <=? MAX_INBOUND_CLASSIC_FRAME_BYTES)
       end.

Definition pending_frame_is_overlong (rest : bytes) : bool :=
  if negb (starts_with_at rest) then MAX_INBOUND_CLASSIC_FRAME_BYTES <=? blen rest
  else match position is_frame_space rest with
       | None => 1 + MAX_TAG_SECTION_BYTES <? blen rest
       | Some space =>
           if MAX_TAG_SECTION_BYTES <? N.of_nat space - 1 then true
           else MAX_INBOUND_CLASSIC_FRAME_BYTES <=? blen rest - N.of_nat space - 1
       end.

(** The result fields the loop appends to. *)
Definition push_frame (frame : bytes) (r : IrcFrameResult) : IrcFrameResult :=
  mkFrameResult (frames r ++ [frame]) (faults r).
Definition push_fault (fault : IrcFrameFault) (r : IrcFrameResult) : IrcFrameResult :=
  mkFrameResult (frames r) (faults r ++ [fault]).

(** What one complete frame adds to the result. *)
Definition resolve_frame (frame : bytes) (r : IrcFrameResult) : IrcFrameResult :=
  if contains_nul frame then push_fault (record_fault InvalidCharacter frame) r
  else if negb (complete_frame_is_valid frame) then push_fault (record_fault TooManyBytes frame) r
  else push_frame frame r.

(** Why the unresolved bytes can no longer become a frame. *)
Definition pending_fault (rest : bytes) : option IrcError :=
  if contains_nul rest then Some InvalidCharacter
  else if pending_frame_is_overlong rest then Some TooManyBytes
  else None.

(** The loop of [feed]. [rest] is [data[position..]]; [None] means out of fuel. *)
Fixpoint feed_loop (fuel : nat) (discard : bool) (rest : bytes) (r : IrcFrameResult)
    : option (IrcFramer * IrcFrameResult) :=
  match fuel with
  | O => None
  | S fuel' =>
      if discard then
        match find_crlf rest with
        | Some delimiter => feed_loop fuel' false (drop (delimiter + 2) rest) r
        | None => Some (mkFramer (retained_carriage_return rest) true, r)
        end
      else
        match find_crlf rest with
        | Some delimiter =>
            feed_loop fuel' false (drop (delimiter + 2) rest) (resolve_frame (take delimiter rest) r)
        | None =>
            match pending_fault rest with
            | None => Some (mkFramer rest false, r)
            | Some error =>
                feed_loop fuel' true (if bool_decide (last rest = Some CR) then [CR] else [])
                  (push_fault (record_fault error rest) r)
            end
        end
  end.

(** [IrcFramer::feed] *)
Definition feed (st : IrcFramer) (incoming : bytes) : IrcFramer * IrcFrameResult :=
  let data := pending st ++ incoming in
  default (st, mkFrameResult [] [])
    (feed_loop (2 + length data) (discarding st) data (mkFrameResult [] [])).

(** Successive reads of a connection. *)
Fixpoint feed_all (st : IrcFramer) (chunks : list bytes) : IrcFramer * list bytes * list IrcFrameFault :=
  match chunks with
  | [] => (st, [], [])
  | chunk :: chunks' =>
      let '(st1, r) := feed st chunk in
      let '(st2, fs, es) := feed_all st1 chunks' in
      (st2, frames r ++ fs, faults r ++ es)
  end.

(** ** Reference semantics *)

(** The complete lines of a stream and its unterminated remainder. *)
Fixpoint crlf_lines (l : bytes) : list bytes * bytes :=
  match l with
  | [] => ([], [])
  | b :: l' =>
      match l' with
      | [] => ([], [b])
      | c :: l'' =>
          if (b =? CR) && (c =? LF)
          then let '(lines, rest) := crlf_lines l'' in ([] :: lines, rest)
          else match crlf_lines l' with
               | ([], rest) => ([], b :: rest)
               | (line :: lines, rest) => ((b :: line) :: lines, rest)
               end
      end
  end.

(** A line the framer delivers: no NUL and within the two length limits. *)
Definition valid_line (line : bytes) : bool := negb (contains_nul line) && complete_frame_is_valid line.

Definition count_invalid (lines : list bytes) : nat := length (base.filter (fun l => valid_line l = false) lines).

Example feed_example :
  feed_all new_framer [as_bytes (lit "PING :a"); [13]; [10; 80]]
  = (mkFramer [80] false, [lit "PING :a"], []).
Proof. vm_compute. reflexivity. Qed.

(** ** Cutting at CRLF *)

Lemma find_crlf_cons b c l :
  find_crlf (b :: c :: l) = if (b =? CR) && (c =? LF) then Some 0%nat else S <$> find_crlf (c :: l).
Proof. done. Qed.

Lemma find_crlf_Some l d :
  find_crlf l = Some d -> (d + 2 <= length l)%nat /\ l = take d l ++ CR :: LF :: drop (d + 2) l.
Proof.
  revert d. induction l as [|b l IH]; intros d H; [done|]. destruct l as [|c l]; [done|].
  rw find_crlf_cons in H. destruct (_ && _) eqn:E.
  - injection H as <-. apply andb_true_iff in E as [Eb%N.eqb_eq Ec%N.eqb_eq]. subst.
    split; [simpl; lia|done].
  - destruct (find_crlf (c :: l)) as [d'|]; [|done]. injection H as <-.
    destruct (IH d' eq_refl) as [Hlen Hl]. split; [simpl in *; lia|].
    change (b :: c :: l = b :: (take d' (c :: l) ++ CR :: LF :: drop (d' + 2) (c :: l))). by f_equal.
Qed.

(** A CRLF found in a stream is found again behind any prefix that holds none and does not
    end in a CR. *)
Lemma find_crlf_app a l :
  find_crlf a = None -> (last a = Some CR -> head l <> Some LF) ->
  find_crlf (a ++ l) = (fun d => (length a + d)%nat) <$> find_crlf l.
Proof.
  induction a as [|b a IH]; intros Ha Hlast; [simpl; by destruct (find_crlf l)|].
  destruct a as [|c a].
  - cbn [app length]. destruct l as [|c l]; [done|]. rw find_crlf_cons.
    destruct (_ && _) eqn:E; [|by destruct (find_crlf (c :: l))].
    apply andb_true_iff in E as [Eb%N.eqb_eq Ec%N.eqb_eq]. subst. by destruct Hlast.
  - cbn [app] in *. rw find_crlf_cons in Ha. rw find_crlf_cons.
    destruct (_ && _); [done|]. apply fmap_None in Ha. rw (IH Ha Hlast).
    by destruct (find_crlf l).
Qed.

Lemma find_crlf_None_app a l d :
  find_crlf a = None -> find_crlf (a ++ l) = Some d -> (length a <= d + 1)%nat.
Proof.
  revert d. induction a as [|b a IH]; intros d Ha H; [simpl; lia|].
  destruct a as [|c a]; [simpl; lia|]. cbn [app] in *. rw find_crlf_cons in Ha.
  rw find_crlf_cons in H. destruct (_ && _); [done|].
  destruct (find_crlf (c :: a)) eqn:Ea; [done|].
  destruct (find_crlf (c :: a ++ l)) as [d'|]; [|done]. injection H as <-.
  specialize (IH d' eq_refl eq_refl). simpl in *. lia.
Qed.

Lemma crlf_lines_find l :
  crlf_lines l = match find_crlf l with
                 | Some d => (take d l :: fst (crlf_lines (drop (d + 2) l)),
                              snd (crlf_lines (drop (d + 2) l)))
                 | None => ([], l)
                 end.
Proof.
  induction l as [|b l IH]; [done|]. destruct l as [|c l]; [done|]. rw find_crlf_cons.
  change (crlf_lines (b :: c :: l)) with
    (if (b =? CR) && (c =? LF) then let '(lines, rest) := crlf_lines l in ([] :: lines, rest)
     else match crlf_lines (c :: l) with
          | ([], rest) => ([], b :: rest)
          | (line :: lines, rest) => ((b :: line) :: lines, rest)
          end).
  destruct (_ && _).
  - cbn [take drop Nat.add]. rw drop_0. by destruct (crlf_lines l).
  - rw IH. by destruct (find_crlf (c :: l)).
Qed.

Lemma crlf_lines_rest l : find_crlf (snd (crlf_lines l)) = None.
Proof.
  induction l as [l IH] using (induction_ltof1 _ (@length N)); unfold ltof in IH.
  rw crlf_lines_find. destruct (find_crlf l) as [d|] eqn:E; [|done]. simpl. apply IH.
  apply find_crlf_Some in E as [Hlen _]. rw length_drop. lia.
Qed.

(** ** Bytes that can no longer become a frame *)

(** Every line that [rest] is the start of is refused. *)
Definition doomed (rest : bytes) : Prop :=
  forall x d, find_crlf (rest ++ x) = Some d -> valid_line (take d (rest ++ x)) = false.

Lemma doomed_app rest x : doomed rest -> doomed (rest ++ x).
Proof. intros H y d. rw -app_assoc. apply H. Qed.

(** A line starting in [rest] holds all of [rest], or all but a final CR. *)
Lemma line_from_rest rest x d :
  find_crlf rest = None -> find_crlf (rest ++ x) = Some d ->
  (exists y, take d (rest ++ x) = rest ++ y) \/ rest = take d (rest ++ x) ++ [CR].
Proof.
  intros Hr H. pose proof (find_crlf_None_app _ _ _ Hr H) as Hd.
  destruct (decide (length rest <= d)%nat) as [Hle|Hgt].
  - left. rw take_app_ge //. eauto.
  - right. rw take_app_le; [lia|].
    assert (d + 1 = length rest)%nat as Elen by lia.
    apply find_crlf_Some in H as [_ H].
    rw -{1}(take_drop d rest). f_equal.
    assert ((rest ++ x) !! d = Some CR) as Hx.
    { rw H lookup_app_r; [by rw length_take; lia|].
      replace (d - _)%nat with 0%nat; [done|]. rw length_take length_app. lia. }
    rw lookup_app_l in Hx; [lia|]. rw (drop_S _ _ _ Hx) drop_ge //. lia.
Qed.

Lemma starts_with_at_app a b : a <> [] -> starts_with_at (a ++ b) = starts_with_at a.
Proof. by destruct a. Qed.

Lemma blen_app {A} (a b : list A) : blen (a ++ b) = blen a + blen b.
Proof. unfold blen. rw length_app. lia. Qed.

Lemma position_app_Some {A} (p : A -> bool) l1 l2 i :
  position p l1 = Some i -> position p (l1 ++ l2) = Some i.
Proof.
  revert i. induction l1 as [|b l1 IH]; intros i H; [done|]. simpl in *. destruct (p b); [done|].
  destruct (position p l1) as [j|]; [|done]. by rw (IH j eq_refl).
Qed.

Lemma position_app_None {A} (p : A -> bool) l1 l2 i :
  position p l1 = None -> position p (l1 ++ l2) = Some i -> (length l1 <= i)%nat.
Proof.
  intros H. rw position_app; [by apply position_None|]. destruct (position p l2); [|done].
  intros [= <-]. lia.
Qed.

Lemma contains_nul_app a b : contains_nul (a ++ b) = contains_nul a || contains_nul b.
Proof. apply existsb_app. Qed.

Lemma blen_take_drop_le {A} (l1 l2 : list A) : blen l1 <= blen (l1 ++ l2).
Proof. rw blen_app. lia. Qed.

(** A line too long for the framer to hold is too long for the framer to deliver. *)
Lemma overlong_extends rest line :
  pending_frame_is_overlong rest = true ->
  (exists y, line = rest ++ y) \/ rest = line ++ [CR] ->
  complete_frame_is_valid line = false.
Proof.
  unfold pending_frame_is_overlong, complete_frame_is_valid, MAX_INBOUND_CLASSIC_FRAME_BYTES,
    MAX_TAG_SECTION_BYTES. intros Hover Hline.
  assert (blen rest <= blen line + 1) as Hlen.
  { destruct Hline as [[y ->]| ->]; rw blen_app; unfold blen; simpl; lia. }
  assert (line <> []) as Hne.
  { intros ->. destruct Hline as [[y Hy]| ->]; [|done]. symmetry in Hy.
    by apply app_eq_nil in Hy as [-> _]. }
  assert (starts_with_at rest = starts_with_at line) as Hat.
  { destruct Hline as [[y ->]| ->]; rw starts_with_at_app //. by intros ->. }
  rw Hat in Hover. destruct (starts_with_at line); simpl in *; [|lia].
  destruct (position is_frame_space rest) as [space|] eqn:Hpos.
  - assert (position is_frame_space line = Some space) as ->.
    { destruct Hline as [[y ->]| ->]; [by apply position_app_Some|].
      destruct (position is_frame_space line) as [i|] eqn:Hi.
      - by rw (position_app_Some _ _ _ _ Hi) in Hpos.
      - rw position_app in Hpos; [by apply position_None|]. done. }
    case_match; lia.
  - destruct (position is_frame_space line) as [i|] eqn:Hi; [|lia].
    destruct Hline as [[y ->]| ->]; [|by rw (position_app_Some _ _ _ _ Hi) in Hpos].
    apply (position_app_None _ _ _ _ Hpos) in Hi. unfold blen in *. lia.
Qed.

Lemma pending_fault_doomed rest e :
  find_crlf rest = None -> pending_fault rest = Some e -> doomed rest.
Proof.
  intros Hrest He x d Hd. pose proof (line_from_rest rest x d Hrest Hd) as Hline.
  set (line := take d (rest ++ x)) in *. clearbody line. unfold valid_line, pending_fault in *.
  destruct (contains_nul rest) eqn:Hnul.
  - assert (contains_nul line = true) as ->; [|done].
    destruct Hline as [[y ->]| ->]; rw contains_nul_app in Hnul *; [by rw Hnul|].
    by rw orb_false_r in Hnul.
  - destruct (pending_frame_is_overlong rest) eqn:Hover; [|done].
    rw (overlong_extends rest) //. apply andb_false_r.
Qed.

(** ** The loop against the reference *)

(** The framer [st] after a stream whose unterminated remainder is [rem]. *)
Definition framer_at (st : IrcFramer) (rem : bytes) : Prop :=
  find_crlf rem = None /\
  if discarding st then pending st = retained_carriage_return rem /\ doomed rem
  else pending st = rem /\ pending_fault rem = None.

Definition debt (discard : bool) : nat := if discard then 1%nat else 0%nat.

Lemma resolve_frame_spec frame r :
  frames (resolve_frame frame r) = frames r ++ base.filter (fun l => valid_line l = true) [frame] /\
  length (faults (resolve_frame frame r)) = (length (faults r) + count_invalid [frame])%nat.
Proof.
  unfold resolve_frame, count_invalid, valid_line. rw !filter_cons !filter_nil.
  destruct (contains_nul frame), (complete_frame_is_valid frame); simpl;
    rw ?app_nil_r ?length_app //=.
Qed.

Lemma count_invalid_cons l ls : count_invalid (l :: ls) = (count_invalid [l] + count_invalid ls)%nat.
Proof. unfold count_invalid. rw !filter_cons !filter_nil. by case_decide. Qed.

Lemma retained_no_crlf rest : find_crlf (retained_carriage_return rest) = None.
Proof. unfold retained_carriage_return. by case_bool_decide. Qed.

(** With fuel past the length, the loop delivers the valid lines of what it is given, one
    fault for every other line, and one for a remainder it starts to discard. *)
Lemma feed_loop_spec fuel rest r :
  (2 + length rest <= fuel)%nat ->
  exists st r', feed_loop fuel false rest r = Some (st, r') /\
    framer_at st (snd (crlf_lines rest)) /\
    frames r' = frames r ++ base.filter (fun l => valid_line l = true) (fst (crlf_lines rest)) /\
    length (faults r') =
      (length (faults r) + count_invalid (fst (crlf_lines rest)) + debt (discarding st))%nat.
Proof.
  revert rest r. induction fuel as [|fuel IH]; intros rest r Hfuel; [lia|].
  cbn [feed_loop]. rw crlf_lines_find. destruct (find_crlf rest) as [d|] eqn:Hd; simpl.
  - pose proof (find_crlf_Some _ _ Hd) as [Hlen _].
    destruct (IH (drop (d + 2) rest) (resolve_frame (take d rest) r)) as (st & r' & -> & Hst & Hf & Hn).
    { rw length_drop. lia. }
    destruct (resolve_frame_spec (take d rest) r) as [Ef En].
    exists st, r'. split; [done|]. split; [done|]. split.
    + rw Hf Ef -app_assoc -filter_app. done.
    + rw Hn En (count_invalid_cons _ (fst (crlf_lines _))). lia.
  - destruct (pending_fault rest) as [e|] eqn:He.
    + destruct fuel as [|fuel]; [lia|]. cbn [feed_loop].
      change (if bool_decide (last rest = Some CR) then [CR] else []) with (retained_carriage_return rest).
      rw retained_no_crlf. eexists _, _. split; [done|]. simpl. split.
      * split; [done|]. simpl. split; [|by eapply pending_fault_doomed].
        unfold retained_carriage_return. by repeat case_bool_decide.
      * rw app_nil_r length_app /=. split; [done|]. unfold count_invalid. simpl. lia.
    + eexists _, _. split; [done|]. simpl. rw app_nil_r. split; [done|].
      split; [done|]. unfold count_invalid. simpl. lia.
Qed.

Lemma find_crlf_app_Some a b d : find_crlf a = Some d -> find_crlf (a ++ b) = Some d.
Proof.
  revert d. induction a as [|x a IH]; intros d H; [done|].
  destruct a as [|y a]; [by simpl in H|].
  cbn [app] in *. rw !find_crlf_cons in H *.
  revert H. destruct (_ && _); [done|]. intros H.
  apply fmap_Some in H as (d' & H & ->). by rw (IH d' H).
Qed.

(** Cutting a stream read in two parts. *)
Lemma crlf_lines_app a b :
  crlf_lines (a ++ b) =
    (fst (crlf_lines a) ++ fst (crlf_lines (snd (crlf_lines a) ++ b)),
     snd (crlf_lines (snd (crlf_lines a) ++ b))).
Proof.
  induction a as [a IH] using (induction_ltof1 _ (@length N)); unfold ltof in IH.
  rw (crlf_lines_find a). destruct (find_crlf a) as [d|] eqn:Hd; simpl; [|by destruct (crlf_lines (a ++ b))].
  pose proof (find_crlf_Some _ _ Hd) as [Hlen _].
  rw crlf_lines_find (find_crlf_app_Some _ b _ Hd) take_app_le; [lia|]. rw drop_app_le; [lia|].
  rw IH //=. rw length_drop. lia.
Qed.

(** What a discarding framer keeps of a remainder loses no CRLF to come. *)
Lemma discard_split rem chunk :
  find_crlf rem = None ->
  exists a, rem = a ++ retained_carriage_return rem /\ find_crlf a = None /\
    (last a = Some CR -> head (retained_carriage_return rem ++ chunk) <> Some LF) /\
    retained_carriage_return (retained_carriage_return rem ++ chunk)
    = retained_carriage_return (rem ++ chunk).
Proof.
  intros Hrem. unfold retained_carriage_return. destruct rem as [|b rem' _] using rev_ind.
  { exists []. rw bool_decide_false //. }
  rw last_snoc. case_bool_decide as E; simplify_eq.
  - exists rem'. split; [done|]. split.
    { destruct (find_crlf rem') as [d|] eqn:Hd; [|done].
      by rw (find_crlf_app_Some _ [CR] _ Hd) in Hrem. }
    split; [done|]. by rw !last_app.
  - exists (rem' ++ [b]). split; [by rw app_nil_r|]. split; [done|]. cbn [app]. split.
    { rw last_snoc. by intros [= ->]. }
    rw !last_app. destruct (last chunk); simpl; [done|].
    by rw bool_decide_false // bool_decide_false.
Qed.

(** One read: the framer moves to the remainder of the longer stream. *)
Lemma feed_spec st rem chunk :
  framer_at st rem ->
  let '(st', res) := feed st chunk in
  framer_at st' (snd (crlf_lines (rem ++ chunk))) /\
  frames res = base.filter (fun l => valid_line l = true) (fst (crlf_lines (rem ++ chunk))) /\
  (length (faults res) + debt (discarding st) =
     count_invalid (fst (crlf_lines (rem ++ chunk))) + debt (discarding st'))%nat.
Proof.
  destruct st as [pend [|]]; intros [Hrem H]; simpl in H; destruct H as [-> H].
  2:{ unfold feed. cbn [pending discarding].
      destruct (feed_loop_spec (2 + length (rem ++ chunk)) (rem ++ chunk) (mkFrameResult [] []))
        as (st & r' & -> & Hst & Hf & Hn); [lia|].
      simpl in *. split; [done|]. split; [done|]. lia. }
  unfold feed. cbn [pending discarding]. set (keep := retained_carriage_return rem) in *.
  change (2 + length (keep ++ chunk))%nat with (S (S (length (keep ++ chunk)))).
  remember (S (length (keep ++ chunk))) as fuel eqn:Hfuel. cbn [feed_loop].
  destruct (discard_split rem chunk Hrem) as (a & Ha & Hfa & Hhead & Hkeep). fold keep in Ha, Hhead, Hkeep.
  assert (find_crlf (a ++ keep ++ chunk) =
    (fun d => (length a + d)%nat) <$> find_crlf (keep ++ chunk)) as Hfind by by apply find_crlf_app.
  rw Ha -app_assoc (crlf_lines_find (a ++ _)) Hfind.
  destruct (find_crlf (keep ++ chunk)) as [d|] eqn:Hd; simpl.
  - destruct (feed_loop_spec fuel (drop (d + 2) (keep ++ chunk)) (mkFrameResult [] []))
      as (st & r' & -> & Hst & Hf & Hn).
    { apply find_crlf_Some in Hd as [Hlen _]. rw length_drop. lia. }
    simpl in *. replace (length a + d + 2)%nat with (length a + (d + 2))%nat by lia.
    rw drop_app_add. split; [done|].
    assert (valid_line (take (length a + d) (a ++ keep ++ chunk)) = false) as Hbad.
    { specialize (H chunk (length a + d)%nat). rw Ha -app_assoc in H. apply H.
      by rw Hfind. }
    rw filter_cons decide_False; [by rw Hbad|]. split; [done|].
    rw Hn count_invalid_cons. unfold count_invalid at 2. rw filter_cons decide_True //. simpl. lia.
  - split; [|split; [done|unfold count_invalid; simpl; lia]].
    split; [done|]. simpl. rw Hkeep Ha -app_assoc. split; [done|].
    rw app_assoc -Ha. by apply doomed_app.
Qed.

Lemma feed_all_spec st rem chunks :
  framer_at st rem ->
  let '(st', fs, es) := feed_all st chunks in
  framer_at st' (snd (crlf_lines (rem ++ concat chunks))) /\
  fs = base.filter (fun l => valid_line l = true) (fst (crlf_lines (rem ++ concat chunks))) /\
  (length es + debt (discarding st) =
     count_invalid (fst (crlf_lines (rem ++ concat chunks))) + debt (discarding st'))%nat.
Proof.
  revert st rem. induction chunks as [|chunk chunks IH]; intros st rem Hst; simpl.
  { rw app_nil_r crlf_lines_find. destruct Hst as [Hrem Hst]. rw Hrem. simpl.
    split; [done|]. by rw filter_nil. }
  pose proof (feed_spec st rem chunk Hst) as H. destruct (feed st chunk) as [st1 r].
  destruct H as (Hst1 & Hf & Hn). specialize (IH st1 _ Hst1).
  destruct (feed_all st1 chunks) as [[st2 fs] es]. destruct IH as (Hst2 & Hfs & Hes).
  rw app_assoc crlf_lines_app /= filter_app Hf Hfs. split; [done|]. split; [done|].
  rw length_app. unfold count_invalid in *. rw filter_app length_app. lia.
Qed.

Lemma new_framer_at : framer_at new_framer [].
Proof. done. Qed.

(** C2: however the stream is cut into reads, the framer delivers exactly the complete lines
    of the stream that hold no NUL and respect the length limits, in order, and reports one
    fault for every other complete line plus one for a remainder it has begun to discard. *)
Theorem framer_chunk_independent chunks :
  let '(st, fs, es) := feed_all new_framer chunks in
  let lines := fst (crlf_lines (concat chunks)) in
  fs = base.filter (fun l => valid_line l = true) lines /\
  length es = (count_invalid lines + debt (discarding st))%nat.
Proof.
  pose proof (feed_all_spec new_framer [] chunks new_framer_at) as H.
  destruct (feed_all new_framer chunks) as [[st fs] es]. simpl in H. destruct H as (_ & Hf & Hn).
  split; [done|]. lia.
Qed.

Lemma pending_fault_bound rest : pending_fault rest = None -> blen rest < 12289.
Proof.
  unfold pending_fault, pending_frame_is_overlong, MAX_INBOUND_CLASSIC_FRAME_BYTES, MAX_TAG_SECTION_BYTES.
  destruct (contains_nul rest); [done|]. destruct (starts_with_at rest); simpl; [|case_match; [done|lia]].
  destruct (position is_frame_space rest) as [space|] eqn:Hpos; [|case_match; [done|lia]].
  apply position_lt in Hpos. unfold blen. case_match; [done|]. case_match; [done|lia].
Qed.

(** Whatever the peer sends, the framer never holds more than 12288 bytes of an
    unfinished line, and a discarding framer holds at most one. *)
Theorem framer_bounded chunks :
  let '(st, _, _) := feed_all new_framer chunks in
  blen (pending st) <= 12288 /\ (discarding st = true -> blen (pending st) <= 1).
Proof.
  pose proof (feed_all_spec new_framer [] chunks new_framer_at) as H.
  destruct (feed_all new_framer chunks) as [[st fs] es]. destruct H as ((_ & Hst) & _).
  destruct (discarding st); destruct Hst as [Hp Hst]; rw Hp.
  - unfold retained_carriage_return, blen. case_bool_decide; simpl; lia.
  - apply pending_fault_bound in Hst. split; [lia|done].
Qed.
