(* ===== verification/CaseMapping.v ===== *)
(** * CaseMapping: identifier comparison (src/client/src/irc/casemapping.rs) *)

From S2P Require Import Prelude Text.

Inductive IrcCaseMapping := Rfc1459 | Ascii | Rfc1459Strict.

#[export] Instance IrcCaseMapping_eq_dec : EqDecision IrcCaseMapping.
Proof. solve_decision. Defined.

(** [IrcCaseMapping::default] *)
Definition default_mapping : IrcCaseMapping := Rfc1459.

(** [IrcCaseMapping::from_name] *)
Definition from_name (name : str) : option IrcCaseMapping :=
  let lower := ascii_lower name in
  if str_eqb lower (lit "rfc1459") then Some Rfc1459
  else if str_eqb lower (lit "ascii") then Some Ascii
  else if str_eqb lower (lit "rfc1459-strict") || str_eqb lower (lit "strict-rfc1459")
       then Some Rfc1459Strict
  else None.

Definition normalized_character (c : char) (kind : IrcCaseMapping) : char :=
  if is_ascii_uppercase c then to_ascii_lowercase c
  else match kind with
       | Ascii => c
       | _ =>
           if c =? chr "[" then chr "{"
           else if c =? chr "]" then chr "}"
           else if c =? chr "\" then chr "|"
           else if (c =? chr "^") && bool_decide (kind = Rfc1459) then chr "~"
           else c
       end.

(** [IrcCaseMapping::normalize] *)
Definition normalize (kind : IrcCaseMapping) (identifier : str) : str :=
  (fun c => normalized_character c kind) <$> identifier.

(** [IrcCaseMapping::equals] *)
Definition equals (kind : IrcCaseMapping) (left right : str) : bool :=
  str_eqb (normalize kind left) (normalize kind right).

(** ** Comparison is an equivalence, and folding gives its canonical forms *)

Lemma normalized_character_idem c kind :
  normalized_character (normalized_character c kind) kind = normalized_character c kind.
Proof.
  unfold normalized_character, to_ascii_lowercase, is_ascii_uppercase.
  chars.
  destruct kind; repeat (case_match; try case_bool_decide; try lia; try done).
Qed.

Lemma normalize_idem kind s : normalize kind (normalize kind s) = normalize kind s.
Proof.
  unfold normalize. rw -list_fmap_compose. apply list_fmap_ext. intros i c _.
  apply normalized_character_idem.
Qed.

Lemma normalize_app kind a b : normalize kind (a ++ b) = normalize kind a ++ normalize kind b.
Proof. apply fmap_app. Qed.

Lemma normalize_length kind s : length (normalize kind s) = length s.
Proof. apply length_fmap. Qed.

Lemma equals_spec kind a b : equals kind a b = true <-> normalize kind a = normalize kind b.
Proof. apply str_eqb_eq. Qed.

(** Names equal under a mapping, as a relation to rewrite with. *)
Definition same_name (kind : IrcCaseMapping) : relation str :=
  fun a b => normalize kind a = normalize kind b.

#[export] Instance same_name_equivalence kind : Equivalence (same_name kind).
Proof. split; unfold same_name; repeat intro; congruence. Qed.

#[export] Instance normalize_proper kind : Proper (same_name kind ==> eq) (normalize kind).
Proof. by intros a b H. Qed.

#[export] Instance equals_proper kind : Proper (same_name kind ==> same_name kind ==> eq) (equals kind).
Proof. unfold same_name, equals. by intros a b -> c d ->. Qed.

Lemma same_name_normalize kind s : same_name kind (normalize kind s) s.
Proof. apply normalize_idem. Qed.

Lemma equals_refl kind a : equals kind a a = true.
Proof. by apply equals_spec. Qed.

#[export] Hint Rewrite normalize_idem equals_refl : om.
#[export] Hint Resolve equals_refl same_name_normalize : om.

(** a folded name is its own canonical form; two names are equal exactly when their
    canonical forms are; and the three rules are ordered: what ASCII identifies the strict
    rule identifies, and what the strict rule identifies RFC 1459 identifies. *)
Theorem case_mapping_canonical kind a b :
  equals kind (normalize kind a) a = true /\
  (equals kind a b = true <-> normalize kind a = normalize kind b) /\
  (equals Ascii a b = true -> equals Rfc1459Strict a b = true) /\
  (equals Rfc1459Strict a b = true -> equals Rfc1459 a b = true).
Proof.
  assert (forall k k', (forall c, normalized_character (normalized_character c k) k' = normalized_character c k') ->
            equals k a b = true -> equals k' a b = true) as Hcoarser.
  { intros k k' H. rw !equals_spec. intros E.
    assert (forall s, normalize k' (normalize k s) = normalize k' s) as Hs.
    { intros s. unfold normalize. rw -list_fmap_compose. apply list_fmap_ext. intros i c _. apply H. }
    by rw -(Hs a) -(Hs b) E. }
  assert (forall c, normalized_character (normalized_character c Ascii) Rfc1459Strict
                    = normalized_character c Rfc1459Strict) as H1.
  { intros c. unfold normalized_character. destruct (is_ascii_uppercase c) eqn:E; [|by rw E].
    clear -E. revert E. unfold to_ascii_lowercase, is_ascii_uppercase.
    chars.
    repeat case_match; lia. }
  assert (forall c, normalized_character (normalized_character c Rfc1459Strict) Rfc1459
                    = normalized_character c Rfc1459) as H2.
  { intros c. unfold normalized_character, to_ascii_lowercase, is_ascii_uppercase.
    chars.
    rw !(bool_decide_false (Rfc1459Strict = Rfc1459)) // !(bool_decide_true (Rfc1459 = Rfc1459)) //.
    repeat (case_match; try lia). }
  split; [apply equals_spec, normalize_idem|]. split; [apply equals_spec|]. split; by apply Hcoarser.
Qed.
