(* ===== verification/ServerFeatures.v ===== *)
(** * ServerFeatures: one network's ISUPPORT state (src/client/src/irc/serverfeatures.rs) *)

From S2P Require Import Prelude Text Message Parser CaseMapping.

(** A set of rank letters, one bit per letter: a [u32]. *)
Abbreviation IrcPrefixSet := N (only parsing).

Record IrcPrefixChange := mkPrefixChange {
  change_nick : str;
  change_letter : byte;
  change_grant : bool;
}.

Record IrcParsedName := mkParsedName { parsed_nick : str; parsed_ranks : IrcPrefixSet }.

Inductive ModeParamRule := Never | Always | SetOnly | Prefix.
#[export] Instance ModeParamRule_eq_dec : EqDecision ModeParamRule.
Proof. solve_decision. Defined.

Record PrefixPair := mkPair { pair_mode : byte; pair_symbol : byte }.
#[export] Instance PrefixPair_eq_dec : EqDecision PrefixPair.
Proof. solve_decision. Defined.

Definition DEFAULT_PREFIX : list PrefixPair :=
  [mkPair (chr "q") (chr "~"); mkPair (chr "a") (chr "&"); mkPair (chr "o") (chr "@");
   mkPair (chr "h") (chr "%"); mkPair (chr "v") (chr "+")].

(** CHANMODES groups A, B, C and D. *)
Record ChanModes := mkChanModes { modes_a : str; modes_b : str; modes_c : str; modes_d : str }.

(** [mode_rules] is the array of 256 rules, indexed by the mode byte. *)
Record IrcServerFeatures := mkFeatures {
  case_mapping : IrcCaseMapping;
  case_mapping_known : bool;
  channel_types : str;
  prefix_pairs : list PrefixPair;
  prefix_modes : str;
  prefix_symbols : str;
  nick_length : option N;
  line_length : N;
  monitor_advertised : bool;
  monitor_limit : option N;
  chan_modes : ChanModes;
  icon_url : option str;
  file_hosts : list str;
  mode_rules : list ModeParamRule;
}.

#[export] Instance features_eta : Eta IrcServerFeatures := fun f =>
  mkFeatures (case_mapping f) (case_mapping_known f) (channel_types f) (prefix_pairs f)
    (prefix_modes f) (prefix_symbols f) (nick_length f) (line_length f) (monitor_advertised f)
    (monitor_limit f) (chan_modes f) (icon_url f) (file_hosts f) (mode_rules f).

(** ** Ranks and mode rules *)

Definition bit_for (letter : byte) : N :=
  if is_ascii_lowercase letter then N.shiftl 1 (letter - chr "a") else 0.

Definition set_rule (rule : ModeParamRule) (rules : list ModeParamRule) (letter : byte) : list ModeParamRule :=
  <[N.to_nat letter := rule]> rules.

(** [rebuild_mode_rules]: the groups in order, then the rank letters over them. *)
Definition computed_rules (pairs : list PrefixPair) (groups : ChanModes) : list ModeParamRule :=
  let rules := replicate 256 Never in
  let rules := foldl (set_rule Always) rules (as_bytes (modes_a groups)) in
  let rules := foldl (set_rule Always) rules (as_bytes (modes_b groups)) in
  let rules := foldl (set_rule SetOnly) rules (as_bytes (modes_c groups)) in
  let rules := foldl (set_rule Never) rules (as_bytes (modes_d groups)) in
  foldl (set_rule Prefix) rules (pair_mode <$> pairs).

Definition rebuild_mode_rules (f : IrcServerFeatures) : IrcServerFeatures :=
  f <| mode_rules := computed_rules (prefix_pairs f) (chan_modes f) |>.

Definition rebuild_prefix_dumps (f : IrcServerFeatures) : IrcServerFeatures :=
  rebuild_mode_rules
    (f <| prefix_modes := pair_mode <$> prefix_pairs f |>
       <| prefix_symbols := pair_symbol <$> prefix_pairs f |>).

Definition rule_at (f : IrcServerFeatures) (letter : byte) : ModeParamRule :=
  default Never (mode_rules f !! N.to_nat letter).

(** [rule_for]: a rank letter wins over any CHANMODES group, in either case. *)
Definition rule_for (f : IrcServerFeatures) (raw : byte) : ModeParamRule :=
  if bool_decide (rule_at f (to_ascii_lowercase raw) = Prefix) then Prefix else rule_at f raw.

Definition letter_for_symbol (f : IrcServerFeatures) (symbol : byte) : byte :=
  default 0 (pair_mode <$> head (base.filter (fun p => pair_symbol p = symbol) (prefix_pairs f))).

(** ** Values *)

(** A decimal above zero, digits only, within [usize]. *)
Definition positive_decimal (value : str) : option N :=
  if bool_decide (value = []) || negb (forallb is_ascii_digit (as_bytes value)) then None
  else let? length := parse_unsigned usize_max value in
       if 0 <? length then Some length else None.

Definition split_chan_modes (value : str) : option ChanModes :=
  match split_on (N.eqb (chr ",")) value with
  | [a; b; c; d] => Some (mkChanModes a b c d)
  | _ => None
  end.

Definition hex_value (b : byte) : option N :=
  if is_ascii_digit b then Some (b - 48)
  else if (97 <=? b) && (b <=? 102) then Some (b - 97 + 10)
  else if (65 <=? b) && (b <=? 70) then Some (b - 65 + 10)
  else None.

(** [unescape_isupport_value], on the bytes of the value. *)
Fixpoint unescape_isupport_bytes (value : bytes) : bytes :=
  match value with
  | [] => []
  | b :: rest =>
      if negb (b =? chr "\") then b :: unescape_isupport_bytes rest
      else match rest with
           | [] => [b]
           | next :: rest1 =>
               if next =? chr "\" then chr "\" :: unescape_isupport_bytes rest1
               else match rest1 with
                    | high :: low :: rest3 =>
                        if next =? chr "x" then
                          match hex_value high, hex_value low with
                          | Some high, Some low =>
                              N.lor (N.shiftl high 4) low :: unescape_isupport_bytes rest3
                          | _, _ => b :: unescape_isupport_bytes rest
                          end
                        else b :: unescape_isupport_bytes rest
                    | _ => b :: unescape_isupport_bytes rest
                    end
           end
  end.

Definition unescape_isupport_value (value : str) : bytes := unescape_isupport_bytes (as_bytes value).

(** [scheme_is] *)
Definition scheme_is (uri scheme : str) : bool :=
  let uri := as_bytes uri in let scheme := as_bytes scheme in
  (length scheme <=? length uri)%nat && eq_ignore_ascii_case (take (length scheme) uri) scheme.

Definition HTTPS : str := lit "https://".
Definition HTTP : str := lit "http://".

(** [uri] is printable ASCII when the slices are taken, so bytes and characters agree. *)
Definition usable_file_host_uri (uri : str) : bool :=
  if bool_decide (uri = []) || negb (forallb (fun b => (0x20 <? b) && (b <? 0x7F)) (as_bytes uri)) then false
  else
    match (if scheme_is uri HTTPS then Some (drop (length HTTPS) uri)
           else if scheme_is uri HTTP then Some (drop (length HTTP) uri) else None) with
    | None => false
    | Some rest =>
        if bool_decide (rest = []) then false
        else
          let authority := default rest (head (split_on (N.eqb (chr "/")) rest)) in
          if bool_decide (authority = []) || existsb (N.eqb (chr "@")) authority then false
          else
            let host := default authority (head (split_on (N.eqb (chr ":")) authority)) in
            negb (bool_decide (host = []))
    end.

Definition parse_file_host_list (value : str) : list str :=
  let tokens := split_on (fun b => (b =? chr " ") || (b =? 9)) (unescape_isupport_value value) in
  let tokens := base.filter (fun token => token <> []) tokens in
  base.filter (fun token => usable_file_host_uri token = true) (omap from_utf8 tokens).

(** ** ISUPPORT tokens *)

Definition apply_prefix (f : IrcServerFeatures) (value : str) : IrcServerFeatures :=
  let bytes := as_bytes value in
  if (length bytes <? 4)%nat || negb (bool_decide (bytes !! 0%nat = Some (chr "("))) then f
  else
    match position (is_byte (chr ")")) bytes with
    | None => f
    | Some close =>
        if (close <? 2)%nat then f
        else
          let modes := slice bytes 1 close in
          let symbols := drop (close + 1) bytes in
          if negb (length modes =? length symbols)%nat
             || negb (forallb is_ascii modes) || negb (forallb is_ascii symbols)
          then f
          else
            rebuild_prefix_dumps
              (f <| prefix_pairs :=
                   zip_with (fun mode symbol => mkPair (to_ascii_lowercase mode) symbol) modes symbols |>)
    end.

Definition apply_monitor (f : IrcServerFeatures) (value : str) : IrcServerFeatures :=
  match value with
  | [] => f <| monitor_advertised := true |> <| monitor_limit := None |>
  | _ => match positive_decimal value with
         | Some limit => f <| monitor_advertised := true |> <| monitor_limit := Some limit |>
         | None => f
         end
  end.

Definition is_file_host_name (name : str) : bool :=
  str_eqb name (lit "soju.im/FILEHOST") || str_eqb name (lit "draft/FILEHOST").

(** The [-NAME] form of a token. *)
Definition remove_token (f : IrcServerFeatures) (removed : str) : IrcServerFeatures :=
  let name := match split_once (N.eqb (chr "=")) removed with Some (name, _) => name | None => removed end in
  if str_eqb name (lit "draft/ICON") then f <| icon_url := None |>
  else if is_file_host_name name then f <| file_hosts := [] |>
  else if str_eqb name (lit "MONITOR") then f <| monitor_advertised := false |> <| monitor_limit := None |>
  else if str_eqb name (lit "LINELEN") then f <| line_length := MAX_CLASSIC_FRAME_BYTES |>
  else f.

(** [IrcServerFeatures::apply_token] *)
Definition apply_token (f : IrcServerFeatures) (token : str) : IrcServerFeatures :=
  match token with
  | [] => f
  | c :: removed =>
      if c =? chr "-" then remove_token f removed
      else
        let '(name, value) := default (token, []) (split_once (N.eqb (chr "=")) token) in
        if str_eqb name (lit "CASEMAPPING") then
          match from_name value with
          | Some mapping => f <| case_mapping := mapping |> <| case_mapping_known := true |>
          | None => f
          end
        else if str_eqb name (lit "CHANTYPES") then f <| channel_types := value |>
        else if str_eqb name (lit "PREFIX") then apply_prefix f value
        else if str_eqb name (lit "CHANMODES") then
          match split_chan_modes value with
          | Some groups => rebuild_mode_rules (f <| chan_modes := groups |>)
          | None => f
          end
        else if str_eqb name (lit "NICKLEN") then
          match positive_decimal value with Some n => f <| nick_length := Some n |> | None => f end
        else if str_eqb name (lit "LINELEN") then
          match positive_decimal value with Some n => f <| line_length := n |> | None => f end
        else if str_eqb name (lit "MONITOR") then apply_monitor f value
        else if str_eqb name (lit "draft/ICON") then
          match value with [] => f | _ => f <| icon_url := Some value |> end
        else if is_file_host_name name then f <| file_hosts := parse_file_host_list value |>
        else f
  end.

(** [IrcServerFeatures::apply_tokens] *)
Definition apply_tokens (f : IrcServerFeatures) (tokens : list str) : IrcServerFeatures :=
  foldl apply_token f tokens.

(** [IrcServerFeatures::mark_case_mapping_known] *)
Definition mark_case_mapping_known (f : IrcServerFeatures) : IrcServerFeatures :=
  f <| case_mapping_known := true |>.

(** [IrcServerFeatures::new] *)
Definition new_features : IrcServerFeatures :=
  rebuild_prefix_dumps
    (mkFeatures default_mapping false (lit "#&") DEFAULT_PREFIX [] [] None MAX_CLASSIC_FRAME_BYTES
       false None (mkChanModes (lit "b") (lit "k") (lit "l") (lit "imnpst")) None [] (replicate 256 Never)).

(** ** Queries *)

(** [IrcServerFeatures::is_channel] *)
Definition is_channel (f : IrcServerFeatures) (target : str) : bool :=
  match as_bytes target with
  | first :: _ => existsb (N.eqb first) (as_bytes (channel_types f))
  | [] => false
  end.

(** [IrcServerFeatures::file_host] *)
Fixpoint file_host_from (uris : list str) (cleartext : option str) (encrypted : bool) : option str :=
  match uris with
  | [] => if encrypted then None else cleartext
  | uri :: uris' =>
      if scheme_is uri HTTPS then Some uri
      else
        let cleartext :=
          if bool_decide (cleartext = None) && scheme_is uri HTTP then Some uri else cleartext in
        file_host_from uris' cleartext encrypted
  end.
Definition file_host (f : IrcServerFeatures) (encrypted : bool) : option str :=
  file_host_from (file_hosts f) None encrypted.

(** The rank glyphs at the start of a NAMES token: their bits and how many there are. *)
Fixpoint leading_ranks (f : IrcServerFeatures) (bytes : bytes) (bits : N) : N * nat :=
  match bytes with
  | b :: rest =>
      let letter := letter_for_symbol f b in
      if letter =? 0 then (bits, 0%nat)
      else let '(bits, n) := leading_ranks f rest (N.lor bits (bit_for letter)) in (bits, S n)
  | [] => (bits, 0%nat)
  end.

(** [str::get(index..)]: [None] when the index is not a character boundary. *)
Definition get_from (s : str) (index : nat) : option str := from_utf8 (drop index (as_bytes s)).

(** [IrcServerFeatures::parse_names_token] *)
Definition parse_names_token (f : IrcServerFeatures) (token : str) : option IrcParsedName :=
  let '(bits, index) := leading_ranks f (as_bytes token) 0 in
  let? nick := get_from token index in
  match nick with [] => None | _ => Some (mkParsedName nick bits) end.

(** The walk of [prefix_changes] over the mode letters. [arguments] is the part of the
    argument list not consumed yet. *)
Fixpoint prefix_changes_from (f : IrcServerFeatures) (mode : bytes) (grant : bool) (arguments : list str)
    : list IrcPrefixChange :=
  match mode with
  | [] => []
  | raw :: mode' =>
      if raw =? chr "+" then prefix_changes_from f mode' true arguments
      else if raw =? chr "-" then prefix_changes_from f mode' false arguments
      else
        let rule := rule_for f raw in
        if bool_decide (rule = Prefix) then
          match arguments with
          | [] => prefix_changes_from f mode' grant arguments
          | nick :: arguments' =>
              mkPrefixChange nick (to_ascii_lowercase raw) grant
              :: prefix_changes_from f mode' grant arguments'
          end
        else
          let consumes := bool_decide (rule = Always) || (bool_decide (rule = SetOnly) && grant) in
          prefix_changes_from f mode' grant (if consumes then tail arguments else arguments)
  end.

(** [IrcServerFeatures::prefix_changes] *)
Definition prefix_changes (f : IrcServerFeatures) (mode : str) (arguments : list str) : list IrcPrefixChange :=
  prefix_changes_from f (as_bytes mode) true arguments.

(** [IrcServerFeatures::apply] *)
Definition apply_change (ranks : IrcPrefixSet) (change : IrcPrefixChange) : IrcPrefixSet :=
  let bit := bit_for (change_letter change) in
  if bit =? 0 then ranks
  else if change_grant change then N.lor ranks bit else N.ldiff ranks bit.

(** [IrcServerFeatures::rank_priority] *)
Definition rank_priority (f : IrcServerFeatures) (ranks : IrcPrefixSet) : nat :=
  default (length (prefix_pairs f))
    (position (fun pair => negb (N.land ranks (bit_for (pair_mode pair)) =? 0)) (prefix_pairs f)).

(** [IrcServerFeatures::member_label] *)
Definition member_label (f : IrcServerFeatures) (ranks : IrcPrefixSet) (nick : str) : str :=
  match prefix_pairs f !! rank_priority f ranks with
  | Some entry => pair_symbol entry :: nick
  | None => nick
  end.

Example features_example :
  let f := apply_tokens new_features [lit "PREFIX=(ov)@+"; lit "LINELEN=1024"; lit "CHANTYPES=#"] in
  (line_length f, is_channel f (lit "&local"), parse_names_token f (lit "@+dan"),
   prefix_changes f (lit "+bo-v") [lit "*!*@x"; lit "ann"; lit "bob"])
  = (1024, false, Some (mkParsedName (lit "dan") (N.lor (2 ^ 14) (2 ^ 21))),
     [mkPrefixChange (lit "ann") (chr "o") true; mkPrefixChange (lit "bob") (chr "v") false]).
Proof. vm_compute. reflexivity. Qed.


(** ** The state stays consistent *)

Definition pair_ok (p : PrefixPair) : bool :=
  is_ascii (pair_mode p) && is_ascii (pair_symbol p) && negb (is_ascii_uppercase (pair_mode p)).

(** The derived fields agree with the fields they are derived from, and every stored value
    is one the accessors may hand out. *)
Record features_ok (f : IrcServerFeatures) : Prop := {
  ok_rules : mode_rules f = computed_rules (prefix_pairs f) (chan_modes f);
  ok_modes : prefix_modes f = pair_mode <$> prefix_pairs f;
  ok_symbols : prefix_symbols f = pair_symbol <$> prefix_pairs f;
  ok_pairs : Forall (fun p => pair_ok p = true) (prefix_pairs f);
  ok_some_rank : prefix_pairs f <> [];
  ok_hosts : Forall (fun uri => usable_file_host_uri uri = true) (file_hosts f);
  ok_line : 0 < line_length f <= usize_max;
  ok_nick : forall n, nick_length f = Some n -> 0 < n <= usize_max;
  ok_monitor : forall n, monitor_limit f = Some n -> monitor_advertised f = true /\ 0 < n <= usize_max;
}.

Lemma positive_decimal_range value n : positive_decimal value = Some n -> 0 < n <= usize_max.
Proof.
  unfold positive_decimal. intros H. case_match; [done|].
  destruct (parse_unsigned _ _) eqn:E; [|done]. apply parse_unsigned_le in E.
  case_match; simplify_eq. lia.
Qed.

Lemma positive_decimal_show n : 0 < n <= usize_max -> positive_decimal (show n) = Some n.
Proof.
  intros Hn. destruct (show_spec n) as (_ & Hd & Hne). unfold positive_decimal.
  rw bool_decide_eq_false_2 // as_bytes_ascii.
  { eapply forallb_impl; [|exact Hd]. apply digit_ascii. }
  rw Hd parse_unsigned_show /=; [lia|]. case_match; [done|lia].
Qed.

Lemma zip_pairs_ok modes symbols :
  forallb is_ascii modes = true -> forallb is_ascii symbols = true ->
  Forall (fun p => pair_ok p = true)
    (zip_with (fun mode symbol => mkPair (to_ascii_lowercase mode) symbol) modes symbols).
Proof.
  revert symbols. induction modes as [|m modes IH]; intros [|s symbols]; simpl; try by constructor.
  intros [Hm ?]%andb_true_iff [Hs ?]%andb_true_iff. constructor; [|by apply IH].
  unfold pair_ok; simpl. rw ascii_lower_ascii Hm Hs. ascii_lia.
Qed.

Lemma apply_prefix_ok f value : features_ok f -> features_ok (apply_prefix f value).
Proof.
  intros Hf. unfold apply_prefix. destruct (_ || _) eqn:Hlen; [done|].
  destruct (position _ _) as [close|] eqn:Hpos; [|done].
  destruct (close <? 2)%nat eqn:Hclose; [done|].
  match goal with |- features_ok (if ?b then _ else _) => destruct b eqn:Hascii; [done|] end.
  apply position_lt in Hpos. apply orb_false_iff in Hascii as [[Hl Hm]%orb_false_iff Hs].
  destruct Hf. constructor; try done.
  - by apply zip_pairs_ok; apply negb_false_iff.
  - cbn. intros E%(f_equal length). rw length_zip_with in E. unfold slice in *.
    rw ?length_take ?length_drop in E Hl. cbn in E. lia.
Qed.

Lemma parse_file_host_list_ok value :
  Forall (fun uri => usable_file_host_uri uri = true) (parse_file_host_list value).
Proof. apply Forall_forall. intros uri [H _]%list_elem_of_filter. exact H. Qed.

Lemma remove_token_ok f removed : features_ok f -> features_ok (remove_token f removed).
Proof.
  intros []. unfold remove_token. repeat case_match; (constructor; try done); by vm_compute.
Qed.

Lemma apply_monitor_ok f value : features_ok f -> features_ok (apply_monitor f value).
Proof.
  intros []. unfold apply_monitor. destruct value; [by constructor|].
  destruct (positive_decimal _) eqn:E; [|by constructor]. apply positive_decimal_range in E.
  constructor; try done. cbn. by intros ? [= <-].
Qed.

Lemma apply_token_ok f token : features_ok f -> features_ok (apply_token f token).
Proof.
  intros Hf. unfold apply_token. destruct token as [|c removed]; [done|].
  case_match; [by apply remove_token_ok|].
  destruct (default _ _) as [name value].
  repeat match goal with |- context [str_eqb name ?x] => destruct (str_eqb name x) end;
    try (by apply apply_prefix_ok); try (by apply apply_monitor_ok); destruct Hf.
  all: repeat match goal with
    | |- context [match ?x with _ => _ end] => lazymatch x with
        | positive_decimal _ => let E := fresh in destruct x eqn:E; [apply positive_decimal_range in E|]
        | _ => destruct x end end; (constructor; try done).
  all: cbn; try (intros ? [= <-]); try done; apply parse_file_host_list_ok.
Qed.

Lemma apply_tokens_ok f tokens : features_ok f -> features_ok (apply_tokens f tokens).
Proof. revert f. induction tokens as [|t l IH]; intros f Hf; [done|]. by apply IH, apply_token_ok. Qed.

Lemma new_features_ok : features_ok new_features.
Proof. constructor; try done; try (repeat constructor); done. Qed.

(** whatever ISUPPORT tokens a server sends, the derived tables of the feature state are
    those of its PREFIX and CHANMODES, every rank is an ASCII lower-case pair and one is
    left, every upload URI is usable, and LINELEN, NICKLEN and the MONITOR limit are positive
    and fit a machine word. *)
Theorem features_invariant tokens :
  features_ok (apply_tokens new_features tokens) /\
  features_ok (mark_case_mapping_known (apply_tokens new_features tokens)).
Proof.
  assert (features_ok (apply_tokens new_features tokens)) as Hf
    by apply apply_tokens_ok, new_features_ok.
  split; [done|]. by destruct Hf.
Qed.

(** ** LINELEN *)

(** a LINELEN token with a positive machine-word value sets the line limit to that value,
    and the removal form restores 512, with or without a value of its own; neither touches
    any other field. *)
Theorem line_length_token f n suffix :
  0 < n <= usize_max ->
  apply_token f (lit "LINELEN=" ++ show n) = f <| line_length := n |> /\
  apply_token f (lit "-LINELEN=" ++ suffix) = f <| line_length := 512 |> /\
  apply_token f (lit "-LINELEN") = f <| line_length := 512 |>.
Proof.
  intros Hn. split; [|by split].
  change (apply_token f (lit "LINELEN=" ++ show n)) with
    (match positive_decimal (show n) with Some n => f <| line_length := n |> | None => f end).
  by rw positive_decimal_show.
Qed.

Lemma line_length_token_witness :
  (0 < 4096 <= usize_max) /\
  apply_token new_features (lit "LINELEN=4096") = new_features <| line_length := 4096 |>.
Proof.
  split; [by vm_compute|]. apply (line_length_token new_features 4096 []). by vm_compute.
Defined.

(** ** Rank sets *)

Lemma bit_for_testbit letter i :
  N.testbit (bit_for letter) i = is_ascii_lowercase letter && (i =? letter - chr "a").
Proof.
  unfold bit_for. case_match; cbn [andb]; [|apply N.bits_0].
  rw N.shiftl_1_l N.pow2_bits_eqb. lia.
Qed.

Lemma bit_for_zero letter : bit_for letter = 0 <-> is_ascii_lowercase letter = false.
Proof.
  unfold bit_for. case_match; [|done]. rw N.shiftl_1_l.
  pose proof (N.pow_nonzero 2 (letter - chr "a")). split; [|done]. lia.
Qed.

(** a rank change sets or clears exactly the bit of its letter and leaves every other rank
    alone, so that applying it twice is applying it once; a letter outside a..z changes
    nothing; and a set that fits the 32-bit representation still does. *)
Theorem apply_change_spec ranks change :
  (forall i, N.testbit (apply_change ranks change) i =
     if is_ascii_lowercase (change_letter change) && (i =? change_letter change - chr "a")
     then change_grant change else N.testbit ranks i) /\
  apply_change (apply_change ranks change) change = apply_change ranks change /\
  (N.log2 ranks < 32 -> N.log2 (apply_change ranks change) < 32).
Proof.
  assert (forall r i, N.testbit (apply_change r change) i =
     if is_ascii_lowercase (change_letter change) && (i =? change_letter change - chr "a")
     then change_grant change else N.testbit r i) as H.
  { intros r i. unfold apply_change. pose proof (bit_for_zero (change_letter change)) as Hz.
    destruct (bit_for (change_letter change) =? 0) eqn:E.
    - apply N.eqb_eq, Hz in E. by rw E.
    - destruct (change_grant change);
        rw ?N.lor_spec ?N.ldiff_spec bit_for_testbit; case_match; simpl;
        by rw ?orb_true_r ?orb_false_r ?andb_false_r ?andb_true_r. }
  split; [apply H|split].
  - apply N.bits_inj. intros i. rw !H. by case_match.
  - intros Hr. destruct (N.eq_dec (apply_change ranks change) 0) as [->|Hne]; [done|].
    apply N.bit_log2 in Hne. rw H in Hne. case_match.
    + chars. ascii_lia.
    + destruct (N.lt_ge_cases (N.log2 ranks) (N.log2 (apply_change ranks change))) as [Hlt|]; [|lia].
      by rw N.bits_above_log2 in Hne.
Qed.

(** ** NAMES tokens *)

Definition is_rank_symbol (f : IrcServerFeatures) (b : byte) : bool :=
  negb (letter_for_symbol f b =? 0).

(** The union of the rank bits of a run of rank symbols. *)
Definition symbol_bits (f : IrcServerFeatures) (glyphs : bytes) (bits : N) : N :=
  foldl (fun bits b => N.lor bits (bit_for (letter_for_symbol f b))) bits glyphs.

Lemma leading_ranks_spec f bytes bits :
  leading_ranks f bytes bits =
  (symbol_bits f (take (length bytes - length (skip_while (is_rank_symbol f) bytes)) bytes) bits,
   (length bytes - length (skip_while (is_rank_symbol f) bytes))%nat).
Proof.
  revert bits. induction bytes as [|b bytes IH]; intros bits; [done|].
  cbn [leading_ranks skip_while]. destruct (is_rank_symbol f b) eqn:E; unfold is_rank_symbol in E;
    [apply negb_true_iff in E|apply negb_false_iff in E]; rw E; [|by rw Nat.sub_diag].
  rw IH. pose proof (skip_while_length (is_rank_symbol f) bytes).
  rw Nat.sub_succ_l //.
Qed.

Lemma letter_for_symbol_ascii f b :
  features_ok f -> is_ascii b = false -> letter_for_symbol f b = 0.
Proof.
  intros Hf Hb. unfold letter_for_symbol.
  destruct (base.filter _ _) as [|p l] eqn:E; [done|]. exfalso.
  assert (p ∈ base.filter (fun p => pair_symbol p = b) (prefix_pairs f)) as Hp
    by (rw E; constructor).
  apply list_elem_of_filter in Hp as [Hs Hin].
  pose proof (ok_pairs f Hf) as Hall. rw Forall_forall in Hall. apply Hall in Hin.
  unfold pair_ok in Hin. rw !andb_true_iff in Hin. destruct Hin as [[_ Ha] _]. congruence.
Qed.

Lemma rank_symbol_ascii f b : features_ok f -> is_rank_symbol f b = true -> is_ascii b = true.
Proof.
  intros Hf H. destruct (is_ascii b) eqn:E; [done|]. unfold is_rank_symbol in H.
  by rw letter_for_symbol_ascii // in H.
Qed.

Lemma skip_ranks_prefix f glyphs rest :
  forallb (is_rank_symbol f) glyphs = true ->
  (forall b rest', rest = b :: rest' -> is_rank_symbol f b = false) ->
  skip_while (is_rank_symbol f) (glyphs ++ rest) = rest.
Proof.
  intros Hg Hr. induction glyphs as [|b glyphs IH]; [by apply skip_while_id|].
  simpl in *. apply andb_true_iff in Hg as [-> Hg]. by apply IH.
Qed.

(** The first byte of a text that does not start with a rank symbol is not one either. *)
Lemma first_byte_not_rank f nick b rest :
  features_ok f -> (forall c t, nick = c :: t -> is_rank_symbol f c = false) ->
  as_bytes nick = b :: rest -> is_rank_symbol f b = false.
Proof.
  intros Hf Hn E. destruct (is_rank_symbol f b) eqn:Hb; [|done].
  destruct nick as [|c t]; [done|]. rw as_bytes_cons in E.
  apply rank_symbol_ascii in Hb as Ha; [|done].
  assert (c = b) as <-; [|by rw (Hn c t eq_refl) in Hb].
  clear -E Ha. unfold utf8_char, is_ascii in *. repeat case_match; simplify_eq/=; lia.
Qed.

Lemma names_token_read f glyphs nick :
  features_ok f -> forallb (is_rank_symbol f) glyphs = true -> forallb is_scalar nick = true ->
  (forall c t, nick = c :: t -> is_rank_symbol f c = false) ->
  parse_names_token f (glyphs ++ nick) =
    match nick with [] => None | _ => Some (mkParsedName nick (symbol_bits f glyphs 0)) end.
Proof.
  intros Hf Hg Hs Hn. unfold parse_names_token, get_from. rw leading_ranks_spec.
  assert (as_bytes (glyphs ++ nick) = glyphs ++ as_bytes nick) as ->.
  { rw as_bytes_app as_bytes_ascii //. eapply forallb_impl; [|exact Hg].
    intros b. by apply rank_symbol_ascii. }
  rw skip_ranks_prefix //.
  { intros b rest. by apply first_byte_not_rank. }
  replace (length (glyphs ++ as_bytes nick) - length (as_bytes nick))%nat with (length glyphs)
    by (rw length_app; lia).
  rw take_app_length drop_app_length from_utf8_as_bytes //.
Qed.

(** a NAMES token is read as the rank symbols at its front and the nick after them: any run
    of advertised symbols gives the union of their ranks, the nick is returned whole even
    when it is not ASCII, and a token that is rank symbols only is refused. *)
Theorem parse_names_token_spec f glyphs nick :
  features_ok f -> forallb (is_rank_symbol f) glyphs = true -> forallb is_scalar nick = true ->
  (forall c t, nick = c :: t -> is_rank_symbol f c = false) ->
  parse_names_token f (glyphs ++ nick) =
    match nick with [] => None | _ => Some (mkParsedName nick (symbol_bits f glyphs 0)) end.
Proof. apply names_token_read. Qed.

Lemma parse_names_token_spec_witness :
  parse_names_token new_features (lit "@+" ++ lit "dan")
  = Some (mkParsedName (lit "dan") (N.lor (2 ^ 14) (2 ^ 21))).
Proof.
  apply (parse_names_token_spec new_features (lit "@+") (lit "dan"));
    [apply new_features_ok|by vm_compute|by vm_compute|by intros ? ? [= <- <-]].
Defined.

Lemma letter_of_symbol f p :
  NoDup (pair_symbol <$> prefix_pairs f) -> p ∈ prefix_pairs f ->
  letter_for_symbol f (pair_symbol p) = pair_mode p.
Proof.
  unfold letter_for_symbol. induction (prefix_pairs f) as [|q l IH]; intros Hnd Hin.
  { by apply not_elem_of_nil in Hin. }
  cbn in Hnd. apply NoDup_cons in Hnd as [Hq Hnd]. rw filter_cons.
  apply elem_of_cons in Hin as [<-|Hin]; [by rw decide_True|].
  rw decide_False; [|by apply IH]. intros E. apply Hq. rw E. by apply list_elem_of_fmap_2.
Qed.

Lemma rank_priority_bit f ranks p :
  prefix_pairs f !! rank_priority f ranks = Some p -> bit_for (pair_mode p) <> 0.
Proof.
  unfold rank_priority. destruct (position _ _) as [i|] eqn:E; simpl.
  - apply position_lookup in E as (q & Hl & Hq). rw Hl. intros [= <-] Hz.
    by rw Hz N.land_0_r in Hq.
  - by rw lookup_ge_None_2.
Qed.

(** a member's label reads back, as a NAMES token, to the nick and the highest rank the
    label shows, when the server's rank symbols are distinct. *)
Theorem member_label_roundtrip f ranks nick :
  features_ok f -> NoDup (pair_symbol <$> prefix_pairs f) ->
  forallb is_scalar nick = true -> nick <> [] ->
  (forall c t, nick = c :: t -> is_rank_symbol f c = false) ->
  parse_names_token f (member_label f ranks nick) =
    Some (mkParsedName nick
      (match prefix_pairs f !! rank_priority f ranks with
       | Some p => bit_for (pair_mode p) | None => 0 end)).
Proof.
  intros Hf Hnd Hs Hne Hn. unfold member_label.
  destruct (prefix_pairs f !! rank_priority f ranks) as [p|] eqn:Hp.
  - assert (letter_for_symbol f (pair_symbol p) = pair_mode p) as Hl
      by by apply letter_of_symbol, (list_elem_of_lookup_2 _ (rank_priority f ranks)).
    assert (bit_for (pair_mode p) <> 0) as Hbit by by apply (rank_priority_bit f ranks).
    assert (is_rank_symbol f (pair_symbol p) = true) as Hr.
    { unfold is_rank_symbol. rw Hl. destruct (pair_mode p =? 0) eqn:E; [|done].
      apply N.eqb_eq in E. by rw E in Hbit. }
    rw (names_token_read f [pair_symbol p] nick) //; [by rw /= Hr|].
    destruct nick; [done|]. cbn. by rw Hl.
  - rw (names_token_read f [] nick) //. by destruct nick.
Qed.

Lemma member_label_roundtrip_witness :
  parse_names_token new_features (member_label new_features (2 ^ 14 + 2 ^ 21) (lit "dan"))
  = Some (mkParsedName (lit "dan") (2 ^ 14)).
Proof.
  apply (member_label_roundtrip new_features (2 ^ 14 + 2 ^ 21) (lit "dan"));
    [apply new_features_ok|by apply (bool_decide_unpack _); vm_compute|by vm_compute|done|
     by intros ? ? [= <- <-]].
Defined.

(** ** MODE lines *)

Lemma set_rules_lookup rule letters rules i :
  (i < length rules)%nat ->
  foldl (set_rule rule) rules letters !! i =
    if existsb (fun l => (N.to_nat l =? i)%nat) letters then Some rule else rules !! i.
Proof.
  revert rules. induction letters as [|l letters IH]; intros rules Hi; [done|].
  cbn [foldl existsb]. unfold set_rule at 2. rw IH; [by rw length_insert|].
  destruct (existsb _ letters) eqn:E; [by rw orb_true_r|]. rw orb_false_r.
  destruct (N.to_nat l =? i)%nat eqn:El.
  - apply Nat.eqb_eq in El as <-. by rw list_lookup_insert_eq.
  - apply Nat.eqb_neq in El. by rw list_lookup_insert_ne.
Qed.

Lemma set_rules_length rule letters rules : length (foldl (set_rule rule) rules letters) = length rules.
Proof.
  revert rules. induction letters as [|l letters IH]; intros rules; [done|].
  cbn [foldl]. rw IH. apply length_insert.
Qed.

(** Only the PREFIX letters have the rank rule. *)
Lemma rule_at_prefix f letter :
  features_ok f -> letter < 256 ->
  rule_at f letter = Prefix <-> letter ∈ (pair_mode <$> prefix_pairs f).
Proof.
  intros Hf Hl. unfold rule_at. rw (ok_rules f Hf). unfold computed_rules. cbv zeta.
  rw set_rules_lookup; [rw !set_rules_length length_replicate; lia|].
  destruct (existsb _ (pair_mode <$> prefix_pairs f)) eqn:E.
  - split; [|done]. intros _. apply existsb_exists in E as (x & Hin & Hx).
    apply Nat.eqb_eq, N2Nat.inj in Hx as <-. by apply list_elem_of_In.
  - split; intros H; exfalso.
    + rw !set_rules_lookup ?set_rules_length ?length_replicate in H; try lia.
      rw lookup_replicate_2 in H; [lia|]. repeat case_match; simplify_eq/=.
    + apply existsb_false_forallb in E. rw forallb_forall in E.
      apply list_elem_of_In in H. specialize (E _ H). rw Nat.eqb_refl in E. done.
Qed.

Lemma rule_for_prefix f raw :
  features_ok f -> is_ascii raw = true ->
  rule_for f raw = Prefix <-> to_ascii_lowercase raw ∈ (pair_mode <$> prefix_pairs f).
Proof.
  intros Hf Hr. assert (to_ascii_lowercase raw < 256) as Hl.
  { rw -ascii_lower_ascii in Hr. unfold is_ascii in Hr. lia. }
  rw -rule_at_prefix //. unfold rule_for. case_bool_decide as E; [done|].
  split; [|done]. intros H. rw rule_at_prefix // in H; [unfold is_ascii in Hr; lia|].
  rw rule_at_prefix // in E. destruct E.
  enough (to_ascii_lowercase raw = raw) as -> by done.
  pose proof (ok_pairs f Hf) as Hall. rw Forall_forall in Hall.
  apply list_elem_of_fmap in H as (p & -> & Hin). apply Hall in Hin.
  unfold pair_ok in Hin. unfold to_ascii_lowercase. rw !andb_true_iff in Hin.
  destruct Hin as [_ Hu%negb_true_iff]. by rw Hu.
Qed.

Lemma rule_for_high f raw :
  features_ok f -> is_ascii raw = false -> raw < 256 -> rule_for f raw <> Prefix.
Proof.
  intros Hf Hr Hlt. unfold rule_for.
  assert (to_ascii_lowercase raw = raw) as -> by ascii_lia.
  assert (rule_at f raw <> Prefix) as H; [|by case_bool_decide].
  rw rule_at_prefix //. intros (p & -> & Hin)%list_elem_of_fmap.
  pose proof (ok_pairs f Hf) as Hall. rw Forall_forall in Hall. apply Hall in Hin.
  unfold pair_ok in Hin. by rw Hr in Hin.
Qed.

Lemma tail_sublist {A} (l l' : list A) : l' `sublist_of` tail l -> l' `sublist_of` l.
Proof. destruct l; simpl; [done|]. intros. by apply sublist_cons. Qed.

Lemma prefix_changes_from_spec f mode grant arguments :
  features_ok f -> Forall (fun b => b < 256) mode ->
  (change_nick <$> prefix_changes_from f mode grant arguments) `sublist_of` arguments /\
  Forall (fun c => change_letter c ∈ (pair_mode <$> prefix_pairs f))
    (prefix_changes_from f mode grant arguments).
Proof.
  intros Hf Hm. revert grant arguments.
  induction Hm as [|raw mode Hraw Hm IH]; intros grant arguments; cbn [prefix_changes_from].
  { split; [apply sublist_nil_l|constructor]. }
  destruct (raw =? chr "+"); [apply IH|]. destruct (raw =? chr "-"); [apply IH|].
  case_bool_decide as Hr.
  - destruct arguments as [|nick arguments]; [apply IH|]. destruct (IH grant arguments) as [H1 H2].
    cbn. split; [by apply sublist_skip|]. constructor; [|done]. cbn.
    destruct (is_ascii raw) eqn:Ha; [by apply rule_for_prefix|by apply rule_for_high in Hr].
  - destruct (_ || _); [|apply IH]. destruct (IH grant (tail arguments)) as [H1 H2].
    split; [by apply tail_sublist|done].
Qed.

Lemma as_bytes_octets s : forallb is_scalar s = true -> Forall (fun b => b < 256) (as_bytes s).
Proof.
  induction s as [|c s IH]; simpl; [constructor|]. intros [Hc Hs]%andb_true_iff.
  rw as_bytes_cons. apply Forall_app. split; [|by apply IH]. clear -Hc. unfold is_scalar in Hc.
  pose proof (N.mod_lt c 64 ltac:(done)). pose proof (N.mod_lt (c / 64) 64 ltac:(done)).
  pose proof (N.mod_lt (c / 4096) 64 ltac:(done)).
  pose proof (N.Div0.div_lt_upper_bound c 64 32). pose proof (N.Div0.div_lt_upper_bound c 4096 16).
  pose proof (N.Div0.div_lt_upper_bound c 262144 8).
  unfold utf8_char. repeat case_match; repeat constructor; lia.
Qed.

(** the rank changes of a MODE line name arguments of the line only, each at most once and
    in their order, and only ranks the server advertised; and a line of rank letters with one
    nick each gives every nick its rank, granted after a plus sign and revoked after a minus. *)
Theorem prefix_changes_spec f mode arguments :
  features_ok f -> forallb is_scalar mode = true ->
  (change_nick <$> prefix_changes f mode arguments) `sublist_of` arguments /\
  Forall (fun c => change_letter c ∈ (pair_mode <$> prefix_pairs f)) (prefix_changes f mode arguments) /\
  (forall sign letters, mode = sign :: letters -> sign = chr "+" \/ sign = chr "-" ->
     Forall (fun l => l ∈ (pair_mode <$> prefix_pairs f) /\ l <> chr "+" /\ l <> chr "-") letters ->
     length letters = length arguments ->
     prefix_changes f mode arguments =
       zip_with (fun l nick => mkPrefixChange nick l (sign =? chr "+")) letters arguments).
Proof.
  intros Hf Hs. split_and!; try (by apply prefix_changes_from_spec, as_bytes_octets).
  intros sign letters -> Hsign Hl Hlen.
  assert (forallb is_ascii letters = true) as Ha.
  { apply forallb_forall. intros l Hin%list_elem_of_In. rw Forall_forall in Hl.
    destruct (Hl l Hin) as [(p & -> & Hp)%list_elem_of_fmap _].
    pose proof (ok_pairs f Hf) as Hall. rw Forall_forall in Hall. apply Hall in Hp.
    unfold pair_ok in Hp. lia. }
  unfold prefix_changes. rw as_bytes_cons (as_bytes_ascii letters) //.
  replace (utf8_char sign) with [sign] by by destruct Hsign as [-> | ->].
  cbn [app prefix_changes_from].
  replace (if sign =? chr "+" then _ else _)
    with (prefix_changes_from f letters (sign =? chr "+") arguments)
    by by destruct Hsign as [-> | ->].
  generalize (sign =? chr "+") as grant. intros grant. clear Hs Hsign.
  revert arguments Hlen. induction Hl as [|l letters (Hin & Hp & Hm) Hl IH];
    intros [|nick arguments] Hlen; simplify_eq/=; try done.
  apply andb_true_iff in Ha as [Hla Ha].
  assert (to_ascii_lowercase l = l) as Hlow.
  { pose proof (ok_pairs f Hf) as Hall. rw Forall_forall in Hall.
    apply list_elem_of_fmap in Hin as (p & -> & Hin'). apply Hall in Hin'. unfold pair_ok in Hin'.
    unfold to_ascii_lowercase. rw !andb_true_iff in Hin'. by destruct Hin' as [_ ->%negb_true_iff]. }
  apply N.eqb_neq in Hp. apply N.eqb_neq in Hm. rw Hp Hm.
  rw bool_decide_eq_true_2; [by rw rule_for_prefix // Hlow|]. rw Hlow IH //.
Qed.

Lemma prefix_changes_spec_witness :
  prefix_changes new_features (lit "-ov") [lit "ann"; lit "bob"]
  = [mkPrefixChange (lit "ann") (chr "o") false; mkPrefixChange (lit "bob") (chr "v") false].
Proof.
  apply (prefix_changes_spec new_features (lit "-ov") [lit "ann"; lit "bob"]
    new_features_ok ltac:(by vm_compute)) with (sign := chr "-") (letters := lit "ov");
    [done|by right| |done].
  repeat constructor; try done; apply (bool_decide_unpack _); by vm_compute.
Defined.

(** ** Upload hosts *)

Lemma file_host_from_spec uris cleartext encrypted uri :
  file_host_from uris cleartext encrypted = Some uri ->
  (uri ∈ uris /\ (scheme_is uri HTTPS = true \/ encrypted = false /\ scheme_is uri HTTP = true)) \/
  (encrypted = false /\ cleartext = Some uri).
Proof.
  revert cleartext. induction uris as [|u uris IH]; intros cleartext; simpl.
  { destruct encrypted; [done|]. by right. }
  destruct (scheme_is u HTTPS) eqn:Hs.
  { intros [= <-]. left. split; [by constructor|by left]. }
  intros [[Hin H]|[He H]]%IH.
  - left. split; [by constructor|done].
  - case_match; simplify_eq; [|by right]. left. split; [by constructor|]. right. lia.
Qed.

Lemma file_host_from_https uris cleartext encrypted :
  existsb (fun u => scheme_is u HTTPS) uris = true ->
  exists uri, file_host_from uris cleartext encrypted = Some uri /\ scheme_is uri HTTPS = true.
Proof.
  revert cleartext. induction uris as [|u uris IH]; intros cleartext; simpl; [done|].
  destruct (scheme_is u HTTPS) eqn:E; simpl; [by exists u|apply IH].
Qed.

Lemma file_host_from_clear uris uri : exists u, file_host_from uris (Some uri) false = Some u.
Proof.
  induction uris as [|v uris IH]; simpl; [by exists uri|]. case_match; [by exists v|exact IH].
Qed.

Lemma usable_scheme uri :
  usable_file_host_uri uri = true -> scheme_is uri HTTPS = true \/ scheme_is uri HTTP = true.
Proof.
  unfold usable_file_host_uri. intros H. case_match; [done|].
  destruct (scheme_is uri HTTPS); [by left|]. destruct (scheme_is uri HTTP); [by right|done].
Qed.

(** the upload URI offered is one the server listed; over TLS it is an https URI and never
    a cleartext one; an https URI wins over a cleartext one; and a cleartext connection is
    offered nothing only when nothing usable is listed. *)
Theorem file_host_spec f encrypted :
  features_ok f ->
  (forall uri, file_host f encrypted = Some uri ->
     uri ∈ file_hosts f /\
     (scheme_is uri HTTPS = true \/
      encrypted = false /\ scheme_is uri HTTP = true /\
      existsb (fun u => scheme_is u HTTPS) (file_hosts f) = false)) /\
  (file_host f encrypted = None ->
     existsb (fun u => scheme_is u HTTPS) (file_hosts f) = false /\
     (encrypted = false -> file_hosts f = [])).
Proof.
  intros Hf. unfold file_host.
  destruct (existsb (fun u => scheme_is u HTTPS) (file_hosts f)) eqn:Hs.
  - destruct (file_host_from_https (file_hosts f) None encrypted Hs) as (u & Hu & Hus).
    rw Hu. split; [|done]. intros uri [= <-].
    apply file_host_from_spec in Hu as [[? _]|[_ ?]]; [|done]. split; [done|by left].
  - split.
    + intros uri [[? [?|[? ?]]]|[_ ?]]%file_host_from_spec; try done; split; auto.
    + intros Hn. split; [done|]. intros ->. pose proof (ok_hosts f Hf) as Hok.
      destruct (file_hosts f) as [|u uris]; [done|]. exfalso. simpl in *.
      apply orb_false_iff in Hs as [Hs _]. apply Forall_cons in Hok as [Hu%usable_scheme _].
      rw Hs in Hn, Hu. destruct Hu as [|Hu]; [done|]. rw Hu in Hn.
      by destruct (file_host_from_clear uris u) as [? E]; rw E in Hn.
Qed.

Lemma file_host_spec_witness :
  lit "https://up.example/" ∈ file_hosts (apply_token new_features
    (lit "soju.im/FILEHOST=http://a\x20https://up.example/")).
Proof.
  apply (file_host_spec (apply_token new_features
    (lit "soju.im/FILEHOST=http://a\x20https://up.example/")) true
    (apply_token_ok _ _ new_features_ok)). by vm_compute.
Defined.
