(* ===== verification/Capability.v ===== *)
(** * Capability: the CAP exchange (src/client/src/irc/capability.rs,
    src/client/src/irc/capabilitynegotiation.rs)

    What the server advertised, what the client asked for, what was granted and refused.
    The wanted table is the fixed policy; every operation is a walk over it or over the
    tokens of one CAP line. *)

From S2P Require Import Prelude Text.

(** ** The capability set (capability.rs) *)

Inductive IrcCapability :=
| Sasl | AwayNotify | Batch | MemberMetadata | MessageTags | MultiPrefix | Chghost | CapNotify
| EchoMessage | ChatHistory | ServerTime | LabeledResponse | AccountTag | AccountNotify
| ExtendedJoin | ReadMarker | ZncPlayback.

#[export] Instance IrcCapability_eq_dec : EqDecision IrcCapability.
Proof. solve_decision. Defined.

(** The discriminant, [self as u32]. *)
Definition discriminant (c : IrcCapability) : N :=
  match c with
  | Sasl => 0 | AwayNotify => 1 | Batch => 2 | MemberMetadata => 3 | MessageTags => 4
  | MultiPrefix => 5 | Chghost => 6 | CapNotify => 7 | EchoMessage => 8 | ChatHistory => 9
  | ServerTime => 10 | LabeledResponse => 11 | AccountTag => 12 | AccountNotify => 13
  | ExtendedJoin => 14 | ReadMarker => 15 | ZncPlayback => 16
  end.

Definition capability_bit (c : IrcCapability) : N := N.shiftl 1 (discriminant c).

(** A bit mask in a [u32]. *)
Abbreviation IrcCapabilitySet := N (only parsing).

Definition contains (set : IrcCapabilitySet) (c : IrcCapability) : bool :=
  negb (N.land set (capability_bit c) =? 0).
Definition insert_capability (set : IrcCapabilitySet) (c : IrcCapability) : IrcCapabilitySet :=
  N.lor set (capability_bit c).

Lemma contains_testbit set c : contains set c = N.testbit set (discriminant c).
Proof.
  unfold contains, capability_bit. rw N.shiftl_1_l.
  destruct (N.testbit set (discriminant c)) eqn:E.
  - apply negb_true_iff, N.eqb_neq. intros H%(f_equal (fun m => N.testbit m (discriminant c))).
    by rw N.land_spec E N.pow2_bits_true N.bits_0 in H.
  - apply negb_false_iff, N.eqb_eq, N.bits_inj_0. intros i. rw N.land_spec N.pow2_bits_eqb.
    destruct (N.eqb_spec (discriminant c) i) as [<-|]; [by rw E|by rw andb_false_r].
Qed.

Lemma discriminant_inj c d : discriminant c = discriminant d -> c = d.
Proof. by destruct c, d. Qed.

Lemma contains_insert set c d :
  contains (insert_capability set c) d = bool_decide (c = d) || contains set d.
Proof.
  rw !contains_testbit. unfold insert_capability, capability_bit.
  rw N.shiftl_1_l N.lor_spec N.pow2_bits_eqb orb_comm. f_equal.
  case_bool_decide as H; [subst; apply N.eqb_refl|].
  apply N.eqb_neq. by intros ?%discriminant_inj.
Qed.

Lemma contains_empty c : contains 0 c = false.
Proof. by destruct c. Qed.

(** ** The wanted table *)

Record IrcCapabilityRequest := mkRequest {
  request_lines : list str;
  requests_sasl : bool;
  request_mechanism : option str;
}.

#[export] Instance request_eta : Eta IrcCapabilityRequest := fun r =>
  mkRequest (request_lines r) (requests_sasl r) (request_mechanism r).

Inductive TokenState := Advertised | Requested | Enabled | Refused.
#[export] Instance TokenState_eq_dec : EqDecision TokenState.
Proof. solve_decision. Defined.

Record Wanted := mkWanted {
  w_capability : IrcCapability;
  w_token : str;
  w_dependency : option IrcCapability;
  w_needs_credentials : bool;
  w_own_request_line : bool;
  w_accepts_value : str -> bool;
}.

Definition accepts_any_value (value : str) : bool := true.

(** [sasl_value_lists] *)
Definition sasl_value_lists (value mechanism : str) : bool :=
  existsb (fun offered => negb (bool_decide (offered = [])) && eq_ignore_ascii_case offered mechanism)
    (split_on (N.eqb (chr ",")) value).

Definition SCRAM_SHA_256 : str := lit "SCRAM-SHA-256".
Definition PLAIN : str := lit "PLAIN".

Definition accepts_sasl_value (value : str) : bool :=
  bool_decide (value = []) || sasl_value_lists value PLAIN || sasl_value_lists value SCRAM_SHA_256.

Definition chosen_sasl_mechanism (value : str) : str :=
  if sasl_value_lists value SCRAM_SHA_256 then SCRAM_SHA_256 else PLAIN.

(** [Wanted::new] and its builder methods. *)
Definition wanted (c : IrcCapability) (token : string) : Wanted :=
  mkWanted c (lit token) None false false accepts_any_value.
Definition depends_on (dependency : IrcCapability) (w : Wanted) : Wanted :=
  mkWanted (w_capability w) (w_token w) (Some dependency) (w_needs_credentials w)
    (w_own_request_line w) (w_accepts_value w).
Definition needs_credentials (w : Wanted) : Wanted :=
  mkWanted (w_capability w) (w_token w) (w_dependency w) true (w_own_request_line w)
    (w_accepts_value w).
Definition own_line (w : Wanted) : Wanted :=
  mkWanted (w_capability w) (w_token w) (w_dependency w) (w_needs_credentials w) true
    (w_accepts_value w).
Definition accepts (f : str -> bool) (w : Wanted) : Wanted :=
  mkWanted (w_capability w) (w_token w) (w_dependency w) (w_needs_credentials w)
    (w_own_request_line w) f.

Definition WANTED : list Wanted :=
  [wanted Sasl "sasl" ▷ needs_credentials ▷ own_line ▷ accepts accepts_sasl_value;
   wanted AwayNotify "away-notify";
   wanted Batch "batch";
   wanted MemberMetadata "draft/metadata-2" ▷ depends_on Batch;
   wanted MessageTags "message-tags" ▷ own_line;
   wanted MultiPrefix "multi-prefix";
   wanted Chghost "chghost";
   wanted CapNotify "cap-notify";
   wanted EchoMessage "echo-message";
   wanted ServerTime "server-time" ▷ own_line;
   wanted ChatHistory "chathistory" ▷ depends_on Batch;
   wanted ChatHistory "draft/chathistory" ▷ depends_on Batch;
   wanted ZncPlayback "znc.in/playback" ▷ depends_on Batch ▷ own_line;
   wanted LabeledResponse "labeled-response" ▷ depends_on MessageTags ▷ own_line;
   wanted AccountTag "account-tag" ▷ depends_on MessageTags;
   wanted AccountNotify "account-notify";
   wanted ExtendedJoin "extended-join";
   wanted ReadMarker "draft/read-marker";
   wanted ReadMarker "soju.im/read"].

(** [wanted_for] *)
Definition wanted_for (name : str) : option Wanted :=
  List.find (fun w => eq_ignore_ascii_case (w_token w) name) WANTED.

(** [token_name] and [token_value] *)
Definition token_name (token : str) : str :=
  let name := match split_once (N.eqb (chr "=")) token with Some (name, _) => name | None => token end in
  match name with c :: rest => if c =? chr "-" then rest else name | [] => name end.
Definition token_value (token : str) : str :=
  match split_once (N.eqb (chr "=")) token with Some (_, value) => value | None => [] end.

(** ** The negotiation *)

Record IrcCapabilityNegotiation := mkNegotiation {
  tokens : gmap str TokenState;
  sasl_advertised_value : str;
  sasl_credentials_available : bool;
}.

#[export] Instance negotiation_eta : Eta IrcCapabilityNegotiation := fun n =>
  mkNegotiation (tokens n) (sasl_advertised_value n) (sasl_credentials_available n).

Definition new_negotiation (credentials : bool) : IrcCapabilityNegotiation :=
  mkNegotiation ∅ [] credentials.

(** [reset] *)
Definition reset_negotiation (n : IrcCapabilityNegotiation) (credentials : bool) : IrcCapabilityNegotiation :=
  new_negotiation credentials.

Definition state_of (n : IrcCapabilityNegotiation) (token : str) : option TokenState := tokens n !! token.

Definition set_token (n : IrcCapabilityNegotiation) (token : str) (s : TokenState) : IrcCapabilityNegotiation :=
  n <| tokens := <[token := s]> (tokens n) |>.

(** [any_token] *)
Definition any_token (n : IrcCapabilityNegotiation) (c : IrcCapability) (states : list TokenState) : bool :=
  existsb (fun w => match state_of n (w_token w) with
                    | Some s => bool_decide (s ∈ states)
                    | None => false
                    end)
    (base.filter (fun w => w_capability w = c) WANTED).

Definition active_states : list TokenState := [Enabled; Requested].

(** [is_requestable] *)
Definition is_requestable (n : IrcCapabilityNegotiation) (w : Wanted) : bool :=
  if negb (bool_decide (state_of n (w_token w) = Some Advertised)) then false
  else if any_token n (w_capability w) active_states then false
  else if w_needs_credentials w && negb (sasl_credentials_available n) then false
  else match w_dependency w with
       | Some dependency => any_token n dependency [Advertised; Requested; Enabled]
       | None => true
       end.

Definition advertise_token (n : IrcCapabilityNegotiation) (token : str) : IrcCapabilityNegotiation :=
  let?? w := wanted_for (token_name token) else n in
  let value := token_value token in
  if negb (w_accepts_value w value) then n
  else if bool_decide (state_of n (w_token w) ∈ [Some Enabled; Some Requested]) then n
  else
    let n := if bool_decide (w_capability w = Sasl) then n <| sasl_advertised_value := value |> else n in
    set_token n (w_token w) Advertised.

(** [advertise] *)
Definition advertise (n : IrcCapabilityNegotiation) (toks : list str) : IrcCapabilityNegotiation :=
  foldl advertise_token n toks.

Definition withdraw_token (n : IrcCapabilityNegotiation) (token : str) : IrcCapabilityNegotiation :=
  let?? w := wanted_for (token_name token) else n in
  let n := if bool_decide (w_capability w = Sasl) then n <| sasl_advertised_value := [] |> else n in
  n <| tokens := delete (w_token w) (tokens n) |>.

(** [withdraw] *)
Definition withdraw (n : IrcCapabilityNegotiation) (toks : list str) : IrcCapabilityNegotiation :=
  foldl withdraw_token n toks.

(** One row of the loop of [take_request]: the state, the request and the tokens that share
    the last line. *)
Definition take_row (st : IrcCapabilityNegotiation * IrcCapabilityRequest * list str) (w : Wanted)
    : IrcCapabilityNegotiation * IrcCapabilityRequest * list str :=
  let '(n, request, presence) := st in
  if negb (is_requestable n w) then st
  else
    let '(request, presence) :=
      if w_own_request_line w
      then (request <| request_lines := request_lines request ++ [w_token w] |>, presence)
      else (request, presence ++ [w_token w]) in
    let request :=
      if bool_decide (w_capability w = Sasl)
      then request <| requests_sasl := true |>
             <| request_mechanism := Some (chosen_sasl_mechanism (sasl_advertised_value n)) |>
      else request in
    (set_token n (w_token w) Requested, request, presence).

(** [take_request] *)
Definition take_request (n : IrcCapabilityNegotiation) : IrcCapabilityNegotiation * IrcCapabilityRequest :=
  let '(n, request, presence) := foldl take_row (n, mkRequest [] false None, []) WANTED in
  (n, match presence with
      | [] => request
      | _ => request <| request_lines := request_lines request ++ [join_with [chr " "] presence] |>
      end).

Definition starts_with_minus (token : str) : bool :=
  match token with c :: _ => c =? chr "-" | [] => false end.

Definition ack_token (st : IrcCapabilityNegotiation * IrcCapabilitySet) (token : str)
    : IrcCapabilityNegotiation * IrcCapabilitySet :=
  let '(n, newly_enabled) := st in
  let?? w := wanted_for (token_name token) else st in
  let state := state_of n (w_token w) in
  if starts_with_minus token then
    if bool_decide (state = Some Enabled) then (set_token n (w_token w) Refused, newly_enabled) else st
  else if negb (bool_decide (state = Some Requested)) then st
  else
    let was_enabled := any_token n (w_capability w) [Enabled] in
    (set_token n (w_token w) Enabled,
     if was_enabled then newly_enabled else insert_capability newly_enabled (w_capability w)).

(** [acknowledge] *)
Definition acknowledge (n : IrcCapabilityNegotiation) (toks : list str)
    : IrcCapabilityNegotiation * IrcCapabilitySet := foldl ack_token (n, 0) toks.

Definition nak_token (st : IrcCapabilityNegotiation * IrcCapabilitySet) (token : str)
    : IrcCapabilityNegotiation * IrcCapabilitySet :=
  let '(n, refused) := st in
  let?? w := wanted_for (token_name token) else st in
  if negb (bool_decide (state_of n (w_token w) = Some Requested)) then st
  else (set_token n (w_token w) Refused, insert_capability refused (w_capability w)).

(** [reject] *)
Definition reject (n : IrcCapabilityNegotiation) (toks : list str)
    : IrcCapabilityNegotiation * IrcCapabilitySet := foldl nak_token (n, 0) toks.

Definition abandon_row (st : IrcCapabilityNegotiation * IrcCapabilitySet) (w : Wanted)
    : IrcCapabilityNegotiation * IrcCapabilitySet :=
  let '(n, abandoned) := st in
  if negb (bool_decide (state_of n (w_token w) = Some Requested)) then st
  else (set_token n (w_token w) Refused, insert_capability abandoned (w_capability w)).

(** [abandon_outstanding] *)
Definition abandon_outstanding (n : IrcCapabilityNegotiation)
    : IrcCapabilityNegotiation * IrcCapabilitySet := foldl abandon_row (n, 0) WANTED.

(** [settled] *)
Definition settled (n : IrcCapabilityNegotiation) : bool :=
  bool_decide (map_Forall (fun _ s => s <> Requested) (tokens n)).

(** [enabled] *)
Definition enabled (n : IrcCapabilityNegotiation) : IrcCapabilitySet :=
  foldl (fun set w => if bool_decide (state_of n (w_token w) = Some Enabled)
                      then insert_capability set (w_capability w) else set) 0 WANTED.

Example negotiation_example :
  let n := advertise (new_negotiation true)
             [lit "sasl=EXTERNAL,scram-sha-256"; lit "Batch"; lit "draft/chathistory"; lit "sts=port=6697"] in
  let '(n, request) := take_request n in
  let '(n, granted) := acknowledge n [lit "sasl"; lit "batch"] in
  (request, contains granted Sasl, settled n, settled (abandon_outstanding n).1)
  = (mkRequest [lit "sasl"; lit "batch draft/chathistory"] true (Some SCRAM_SHA_256), true, false, true).
Proof. vm_compute. reflexivity. Qed.

#[global] Arguments any_token : simpl never.
#[global] Arguments is_requestable : simpl never.
#[global] Arguments state_of : simpl never.

(** The SASL row is the one that looks at the advertised value. *)
Lemma sasl_accepts w : w ∈ WANTED -> w_capability w = Sasl -> w_accepts_value w = accepts_sasl_value.
Proof.
  assert (Forall (fun w => w_capability w = Sasl -> w_accepts_value w = accepts_sasl_value) WANTED) as H
    by (repeat constructor; by intros).
  rw Forall_forall in H. apply H.
Qed.

(** Every token is one word, and all of them together fit one line. *)
Lemma wanted_tokens_words :
  Forall (fun w => forallb (fun c => negb (c =? chr " ") && is_ascii c) (w_token w) = true) WANTED.
Proof. repeat constructor. Qed.

Lemma wanted_tokens_length : (length (join_with [chr " "] (w_token <$> WANTED)) < 480)%nat.
Proof. apply Nat.ltb_lt. by vm_compute. Qed.

Lemma sasl_is_wanted : exists w, w ∈ WANTED /\ w_token w = lit "sasl" /\ w_capability w = Sasl.
Proof. exists (wanted Sasl "sasl" ▷ needs_credentials ▷ own_line ▷ accepts accepts_sasl_value). split; [constructor|done]. Qed.

Lemma sasl_token w : w ∈ WANTED -> w_capability w = Sasl -> w_token w = lit "sasl".
Proof.
  assert (Forall (fun w => w_capability w = Sasl -> w_token w = lit "sasl") WANTED) as H
    by (repeat constructor; by intros).
  rw Forall_forall in H. apply H.
Qed.

#[global] Opaque WANTED.

(** ** The table *)

Lemma wanted_tokens_nodup : NoDup (w_token <$> WANTED).
Proof. apply (bool_decide_unpack _). vm_compute. done. Qed.

Lemma wanted_for_in name w : wanted_for name = Some w -> w ∈ WANTED.
Proof. intros [H _]%find_some. by apply list_elem_of_In. Qed.

Lemma wanted_token_inj w w' : w ∈ WANTED -> w' ∈ WANTED -> w_token w = w_token w' -> w = w'.
Proof.
  generalize wanted_tokens_nodup. induction WANTED as [|x ws IH]; intros Hnd Hw Hw' E.
  { by apply not_elem_of_nil in Hw. }
  cbn in Hnd. apply NoDup_cons in Hnd as [Hx Hnd].
  apply elem_of_cons in Hw as [->|Hw]; apply elem_of_cons in Hw' as [->|Hw']; [done| | |by apply IH].
  - destruct Hx. rw E. by apply list_elem_of_fmap_2.
  - destruct Hx. rw -E. by apply list_elem_of_fmap_2.
Qed.

(** ** The life of one token *)

Definition is_active (s : option TokenState) : bool :=
  match s with Some Enabled | Some Requested => true | _ => false end.

Definition advertise_edge (s s' : option TokenState) : Prop :=
  s' = s \/ (is_active s = false /\ s' = Some Advertised).
Definition withdraw_edge (s s' : option TokenState) : Prop := s' = s \/ s' = None.
Definition take_edge (s s' : option TokenState) : Prop :=
  s' = s \/ (s = Some Advertised /\ s' = Some Requested).
Definition nak_edge (s s' : option TokenState) : Prop :=
  s' = s \/ (s = Some Requested /\ s' = Some Refused).
Definition ack_edge (s s' : option TokenState) : Prop :=
  s' = s \/ (s = Some Requested /\ (s' = Some Enabled \/ s' = Some Refused)) \/
  (s = Some Enabled /\ s' = Some Refused).

(** Every token moves along an edge. *)
Definition moves (edge : relation (option TokenState)) (n n' : IrcCapabilityNegotiation) : Prop :=
  forall t, edge (state_of n t) (state_of n' t).

#[export] Instance moves_refl edge `{!Reflexive edge} : Reflexive (moves edge).
Proof. intros n t. reflexivity. Qed.
#[export] Instance moves_trans edge `{!Transitive edge} : Transitive (moves edge).
Proof. intros n1 n2 n3 H1 H2 t. etransitivity; [apply H1|apply H2]. Qed.

Ltac edge := unfold advertise_edge, withdraw_edge, take_edge, nak_edge, ack_edge in *;
  try (intros ?; by auto); intros; intuition (subst; simplify_eq; auto).

#[export] Instance advertise_edge_refl : Reflexive advertise_edge. Proof. edge. Qed.
#[export] Instance advertise_edge_trans : Transitive advertise_edge. Proof. intros ???. edge. Qed.
#[export] Instance withdraw_edge_refl : Reflexive withdraw_edge. Proof. edge. Qed.
#[export] Instance withdraw_edge_trans : Transitive withdraw_edge. Proof. intros ???. edge. Qed.
#[export] Instance take_edge_refl : Reflexive take_edge. Proof. edge. Qed.
#[export] Instance take_edge_trans : Transitive take_edge. Proof. intros ???. edge. Qed.
#[export] Instance nak_edge_refl : Reflexive nak_edge. Proof. edge. Qed.
#[export] Instance nak_edge_trans : Transitive nak_edge. Proof. intros ???. edge. Qed.
#[export] Instance ack_edge_refl : Reflexive ack_edge. Proof. edge. Qed.
#[export] Instance ack_edge_trans : Transitive ack_edge. Proof. intros ???. edge. Qed.

Lemma state_of_set n t s t' :
  state_of (set_token n t s) t' = if decide (t = t') then Some s else state_of n t'.
Proof. unfold state_of, set_token. cbn. case_decide; subst; by simplify_map_eq. Qed.

Lemma set_token_moves (edge : relation (option TokenState)) `{!Reflexive edge} n t s :
  edge (state_of n t) (Some s) -> moves edge n (set_token n t s).
Proof. intros H t'. rw state_of_set. by case_decide; subst. Qed.

Lemma advertise_moves n toks : moves advertise_edge n (advertise n toks).
Proof.
  apply (foldl_relation advertise_token id (moves advertise_edge)). intros m token _. unfold advertise_token.
  destruct (wanted_for _) as [w|]; [|done]. case_match; [done|].
  case_bool_decide as Hs; [done|]. rw !elem_of_cons in Hs.
  assert (is_active (state_of m (w_token w)) = false) as Ha.
  { destruct (state_of m (w_token w)) as [[]|]; naive_solver. }
  intros t. case_bool_decide; rw state_of_set; case_decide; subst; edge.
Qed.

Lemma withdraw_moves n toks : moves withdraw_edge n (withdraw n toks).
Proof.
  apply (foldl_relation withdraw_token id (moves withdraw_edge)). intros m token _. unfold withdraw_token.
  destruct (wanted_for _) as [w|]; [|done]. intros t. unfold state_of. case_bool_decide; cbn;
    (destruct (decide (w_token w = t)) as [->|]; simplify_map_eq; edge).
Qed.

Lemma requestable_spec n w :
  is_requestable n w = true <->
  state_of n (w_token w) = Some Advertised /\
  any_token n (w_capability w) active_states = false /\
  (w_needs_credentials w = true -> sasl_credentials_available n = true) /\
  (forall dependency, w_dependency w = Some dependency ->
     any_token n dependency [Advertised; Requested; Enabled] = true).
Proof.
  unfold is_requestable.
  generalize (any_token n (w_capability w) active_states) as active. intros active.
  case_bool_decide; cbn; [|split; [done|by intros [? _]]].
  destruct active; [split; [done|by intros (_ & ? & _)]|].
  destruct (w_needs_credentials w), (sasl_credentials_available n); cbn;
    destruct (w_dependency w) as [d|]; (split; [|intros (_ & _ & Hc & Hd)]); try done;
    first [by specialize (Hc eq_refl)|by apply Hd
          |intros Hany; split_and!; try done; by intros ? [= <-]].
Qed.

Lemma take_row_state st w :
  (take_row st w).1.1 =
    if is_requestable st.1.1 w then set_token st.1.1 (w_token w) Requested else st.1.1.
Proof.
  destruct st as [[n r] p]. cbn. destruct (is_requestable n w); [|done]. cbn.
  by destruct (w_own_request_line w).
Qed.

Lemma take_rows_move st ws : moves take_edge st.1.1 (foldl take_row st ws).1.1.
Proof.
  apply (foldl_relation take_row (fun st => st.1.1) (moves take_edge)). intros s w _.
  rw take_row_state. destruct (is_requestable _ _) eqn:E; [|done].
  apply requestable_spec in E as [Ha _]. apply set_token_moves; [apply _|]. edge.
Qed.

Lemma ack_token_moves st token : moves ack_edge st.1 (ack_token st token).1.
Proof.
  destruct st as [n set]. unfold ack_token. destruct (wanted_for _) as [w|]; [|done].
  repeat case_match; cbn; try done; apply set_token_moves; try apply _;
    case_bool_decide; simplify_eq; edge.
Qed.

Lemma acknowledge_moves n toks : moves ack_edge n (acknowledge n toks).1.
Proof.
  apply (foldl_relation ack_token fst (moves ack_edge) _ (n, 0)). intros st token _. apply ack_token_moves.
Qed.

Lemma refuse_moves n w :
  state_of n (w_token w) = Some Requested -> moves nak_edge n (set_token n (w_token w) Refused).
Proof. intros H. apply set_token_moves; [apply _|]. edge. Qed.

Lemma reject_moves n toks : moves nak_edge n (reject n toks).1.
Proof.
  apply (foldl_relation nak_token fst (moves nak_edge) _ (n, 0)). intros [m set] token _. unfold nak_token. destruct (wanted_for _) as [w|]; [|done].
    case_bool_decide; cbn; [by apply refuse_moves|done].
Qed.

Lemma abandon_moves n ws st :
  st = (n, 0) -> moves nak_edge n (foldl abandon_row st ws).1.
Proof.
  intros ->. apply (foldl_relation abandon_row fst (moves nak_edge) _ (n, 0)). intros [m set] w _. unfold abandon_row. case_bool_decide; cbn; [by apply refuse_moves|done].
Qed.

Lemma take_request_state n :
  (take_request n).1 = (foldl take_row (n, mkRequest [] false None, []) WANTED).1.1.
Proof. unfold take_request. by destruct (foldl take_row _ _) as [[n' r] p]. Qed.

(** every operation moves a token only along its own edges: CAP LS and NEW make an inactive
    token advertised, CAP DEL forgets it, a request takes it from advertised to requested, an
    ACK answers a requested token or disables an enabled one, and a NAK and the timeout refuse
    requested tokens only. *)
Theorem token_lifecycle n toks :
  moves advertise_edge n (advertise n toks) /\
  moves withdraw_edge n (withdraw n toks) /\
  moves take_edge n (take_request n).1 /\
  moves ack_edge n (acknowledge n toks).1 /\
  moves nak_edge n (reject n toks).1 /\
  moves nak_edge n (abandon_outstanding n).1.
Proof.
  split_and!; [apply advertise_moves|apply withdraw_moves| |apply acknowledge_moves|
               apply reject_moves|by apply abandon_moves].
  rw take_request_state. apply (take_rows_move (n, _, _)).
Qed.

(** ** Invariant *)

Definition active (n : IrcCapabilityNegotiation) (w : Wanted) : Prop :=
  is_active (state_of n (w_token w)) = true.

(** One spelling at most of a capability is in play, no token of the table needs credentials
    that are not there, and the SASL value kept is one the client accepted. *)
Record negotiation_ok (n : IrcCapabilityNegotiation) : Prop := {
  nok_known : forall t s, state_of n t = Some s -> t ∈ (w_token <$> WANTED);
  nok_unique : forall w w', w ∈ WANTED -> w' ∈ WANTED -> w_capability w = w_capability w' ->
    active n w -> active n w' -> w = w';
  nok_credentials : forall w, w ∈ WANTED -> w_needs_credentials w = true ->
    active n w -> sasl_credentials_available n = true;
  nok_sasl : accepts_sasl_value (sasl_advertised_value n) = true;
}.

Lemma elem_of_WANTED w : w ∈ WANTED -> w_token w ∈ (w_token <$> WANTED).
Proof. apply list_elem_of_fmap_2. Qed.

(** A step that activates nothing keeps the invariant. *)
Lemma quiet_step_ok n n' :
  negotiation_ok n ->
  (forall t, is_active (state_of n' t) = true -> is_active (state_of n t) = true) ->
  (forall t s, state_of n' t = Some s -> t ∈ (w_token <$> WANTED)) ->
  sasl_credentials_available n' = sasl_credentials_available n ->
  accepts_sasl_value (sasl_advertised_value n') = true ->
  negotiation_ok n'.
Proof.
  intros [] Hact Hk Hc Hv. unfold active in *. constructor; unfold active; try done.
  - eauto.
  - rw Hc. eauto.
Qed.

Lemma set_token_known n w s t s' :
  negotiation_ok n -> w ∈ WANTED -> state_of (set_token n (w_token w) s) t = Some s' ->
  t ∈ (w_token <$> WANTED).
Proof.
  intros Hn Hw. rw state_of_set. case_decide as E; [intros _; subst; by apply elem_of_WANTED|].
  by apply nok_known.
Qed.

Lemma set_inactive_ok n w s :
  negotiation_ok n -> w ∈ WANTED -> is_active (Some s) = false -> negotiation_ok (set_token n (w_token w) s).
Proof.
  intros Hn Hw Hs. apply (quiet_step_ok n); try done; [|intros t s'; by apply set_token_known|apply Hn].
  intros t. rw state_of_set. case_decide; [by rw Hs|done].
Qed.

Lemma advertise_token_ok n token : negotiation_ok n -> negotiation_ok (advertise_token n token).
Proof.
  intros Hn. unfold advertise_token. destruct (wanted_for _) as [w|] eqn:E; [|done].
  apply wanted_for_in in E as Hw. destruct (w_accepts_value w _) eqn:Hv; [|done]. cbn.
  case_bool_decide; [done|]. apply set_inactive_ok; [|done|done].
  case_bool_decide as Hs; [|done]. apply (quiet_step_ok n); try done; [apply Hn|].
  cbn. by rw -(sasl_accepts w).
Qed.

Lemma withdraw_token_ok n token : negotiation_ok n -> negotiation_ok (withdraw_token n token).
Proof.
  intros Hn. unfold withdraw_token. destruct (wanted_for _) as [w|]; [|done].
  assert (forall t s, delete (w_token w) (tokens n) !! t = Some s -> state_of n t = Some s) as Hd.
  { intros t s H. by apply lookup_delete_Some in H as [_ ?]. }
  apply (quiet_step_ok n); try done.
  - intros t. unfold state_of. case_bool_decide; cbn;
      (destruct (delete _ _ !! t) eqn:E; [|done]); apply Hd in E; unfold state_of in E; by rw E.
  - intros t s. unfold state_of. case_bool_decide; cbn; intros E; apply Hd in E; by eapply nok_known.
  - by case_bool_decide.
  - case_bool_decide; cbn; [done|apply Hn].
Qed.

Lemma any_token_spec n c states :
  any_token n c states = true <->
  exists w s, w ∈ WANTED /\ w_capability w = c /\ state_of n (w_token w) = Some s /\ s ∈ states.
Proof.
  unfold any_token. rw existsb_exists. split.
  - intros (w & Hw & Hs). apply list_elem_of_In, list_elem_of_filter in Hw as [Hc Hw].
    destruct (state_of _ _) as [s|] eqn:E; [|done]. apply bool_decide_eq_true in Hs. eauto 6.
  - intros (w & s & Hw & Hc & E & Hs). exists w. split.
    + by apply list_elem_of_In, list_elem_of_filter.
    + rw E. by apply bool_decide_eq_true.
Qed.

Lemma active_any n w : w ∈ WANTED -> active n w -> any_token n (w_capability w) active_states = true.
Proof.
  intros Hw Ha. apply any_token_spec. unfold active in Ha.
  destruct (state_of n (w_token w)) as [s|] eqn:E; [|done]. exists w, s. split_and!; try done.
  unfold active_states. destruct s; try done; set_solver.
Qed.

Lemma take_row_ok st w : w ∈ WANTED -> negotiation_ok st.1.1 -> negotiation_ok (take_row st w).1.1.
Proof.
  intros Hw Hn. rw take_row_state. destruct (is_requestable _ _) eqn:E; [|done].
  apply requestable_spec in E as (_ & Hnone & Hcred & _). set (n := st.1.1) in *.
  assert (forall u, u ∈ WANTED -> active (set_token n (w_token w) Requested) u ->
    u = w \/ active n u) as Hact.
  { intros u Hu. unfold active. rw state_of_set. case_decide as Ht; [|by right].
    left. symmetry. by apply wanted_token_inj. }
  assert (forall u, u ∈ WANTED -> w_capability u = w_capability w -> ~ active n u) as Hfree.
  { intros u Hu Hc Ha%active_any; [|done]. rw Hc in Ha. congruence. }
  constructor.
  - intros t s. by apply set_token_known.
  - intros u u' Hu Hu' Hc [->|Hau]%Hact [->|Hau']%Hact; try done.
    + by destruct (Hfree u').
    + by destruct (Hfree u).
    + by eapply nok_unique.
  - intros u Hu Hneed [->|Hau]%Hact; [by apply Hcred|by apply (nok_credentials n Hn u)|done].
  - apply Hn.
Qed.

Lemma take_request_ok n : negotiation_ok n -> negotiation_ok (take_request n).1.
Proof.
  intros Hn. rw take_request_state.
  apply (foldl_invariant take_row (fun st => negotiation_ok st.1.1)); [|done].
  intros. by apply take_row_ok.
Qed.

Lemma ack_token_ok st token : negotiation_ok st.1 -> negotiation_ok (ack_token st token).1.
Proof.
  destruct st as [n set]. cbn. intros Hn. unfold ack_token.
  destruct (wanted_for _) as [w|] eqn:E; [|done]. apply wanted_for_in in E as Hw.
  case_match; case_bool_decide as Hs; cbn; try done; [by apply set_inactive_ok|].
  apply (quiet_step_ok n); try done; [|intros t s; by apply set_token_known|apply Hn].
  intros t. rw state_of_set. case_decide as Ht; [|done]. subst. by rw Hs.
Qed.

Lemma nak_token_ok st token : negotiation_ok st.1 -> negotiation_ok (nak_token st token).1.
Proof.
  destruct st as [n set]. cbn. intros Hn. unfold nak_token.
  destruct (wanted_for _) as [w|] eqn:E; [|done]. apply wanted_for_in in E as Hw.
  case_bool_decide; cbn; [by apply set_inactive_ok|done].
Qed.

Lemma abandon_row_ok st w : w ∈ WANTED -> negotiation_ok st.1 -> negotiation_ok (abandon_row st w).1.
Proof.
  destruct st as [n set]. cbn. intros Hw Hn. unfold abandon_row.
  case_bool_decide; cbn; [by apply set_inactive_ok|done].
Qed.

(** The operations, as one sequence of steps. *)
Inductive cap_op :=
| OpAdvertise (toks : list str)
| OpWithdraw (toks : list str)
| OpTake
| OpAck (toks : list str)
| OpNak (toks : list str)
| OpAbandon.

Definition run_op (n : IrcCapabilityNegotiation) (op : cap_op) : IrcCapabilityNegotiation :=
  match op with
  | OpAdvertise toks => advertise n toks
  | OpWithdraw toks => withdraw n toks
  | OpTake => (take_request n).1
  | OpAck toks => (acknowledge n toks).1
  | OpNak toks => (reject n toks).1
  | OpAbandon => (abandon_outstanding n).1
  end.

Lemma new_negotiation_ok credentials : negotiation_ok (new_negotiation credentials).
Proof. constructor; [by intros ? ? [=]|..]; unfold active, state_of; done. Qed.

Lemma run_op_ok n op : negotiation_ok n -> negotiation_ok (run_op n op).
Proof.
  intros Hn. destruct op as [toks|toks| |toks|toks|]; cbn.
  - apply (foldl_invariant advertise_token negotiation_ok); [|done]. intros. by apply advertise_token_ok.
  - apply (foldl_invariant withdraw_token negotiation_ok); [|done]. intros. by apply withdraw_token_ok.
  - by apply take_request_ok.
  - apply (foldl_invariant ack_token (fun st => negotiation_ok st.1)); [|done].
    intros. by apply ack_token_ok.
  - apply (foldl_invariant nak_token (fun st => negotiation_ok st.1)); [|done].
    intros. by apply nak_token_ok.
  - apply (foldl_invariant abandon_row (fun st => negotiation_ok st.1)); [|done].
    intros. by apply abandon_row_ok.
Qed.

(** In every sequence of CAP operations, at most one spelling of a capability is requested
    or enabled at a time, a token that needs credentials is never requested without them,
    and only tokens of the wanted table are tracked. *)
Theorem negotiation_invariant credentials ops :
  negotiation_ok (foldl run_op (new_negotiation credentials) ops).
Proof. apply foldl_invariant; [intros; by apply run_op_ok|apply new_negotiation_ok]. Qed.

(** ** Answers *)

Lemma enabled_spec n c : contains (enabled n) c = any_token n c [Enabled].
Proof.
  unfold enabled, any_token.
  enough (forall set, contains (foldl (fun set w => if bool_decide (state_of n (w_token w) = Some Enabled)
    then insert_capability set (w_capability w) else set) set WANTED) c
    = contains set c || existsb (fun w => match state_of n (w_token w) with
        | Some s => bool_decide (s ∈ [Enabled]) | None => false end)
        (base.filter (fun w => w_capability w = c) WANTED)) as -> by done.
  induction WANTED as [|w ws IH]; intros set; [by rw orb_false_r|]. cbn [foldl]. rw IH filter_cons.
  assert (match state_of n (w_token w) with Some s => bool_decide (s ∈ [Enabled]) | None => false end
    = bool_decide (state_of n (w_token w) = Some Enabled)) as E.
  { destruct (state_of n (w_token w)) as [[]|]; by vm_compute. }
  destruct (decide (w_capability w = c)) as [Hc|Hc]; cbn [existsb]; rw ?E; case_bool_decide; try done.
  - rw contains_insert bool_decide_eq_true_2 //. by destruct (contains set c).
  - rw contains_insert bool_decide_eq_false_2 //.
Qed.

Lemma any_token_set n w s c states :
  w ∈ WANTED -> s ∈ states -> w_capability w = c -> any_token (set_token n (w_token w) s) c states = true.
Proof. intros Hw Hs Hc. apply any_token_spec. exists w, s. rw state_of_set decide_True //. Qed.

Lemma any_token_set_ne n w s c states :
  w ∈ WANTED -> w_capability w <> c -> any_token (set_token n (w_token w) s) c states = any_token n c states.
Proof.
  intros Hw Hc. apply eq_bool_prop_intro. split; intros H%Is_true_true%any_token_spec;
    apply Is_true_true, any_token_spec; destruct H as (u & s' & Hu & Huc & E & Hs);
    exists u, s'; split_and!; try done; rw state_of_set in E |- *;
    (case_decide as Ht; [apply wanted_token_inj in Ht; [congruence|done..]|done]).
Qed.

Lemma ack_plain_token n n0 set token c :
  starts_with_minus token = false ->
  contains set c = any_token n c [Enabled] && negb (any_token n0 c [Enabled]) ->
  (any_token n0 c [Enabled] = true -> any_token n c [Enabled] = true) ->
  let st := ack_token (n, set) token in
  contains st.2 c = any_token st.1 c [Enabled] && negb (any_token n0 c [Enabled]) /\
  (any_token n0 c [Enabled] = true -> any_token st.1 c [Enabled] = true).
Proof.
  intros Hplain Hset Hmono. cbv zeta. unfold ack_token. rw Hplain.
  destruct (wanted_for _) as [w|] eqn:E; [|done]. apply wanted_for_in in E as Hw.
  case_bool_decide; [|done]. cbn [negb fst snd].
  destruct (decide (w_capability w = c)) as [Hc|Hc].
  - rw (any_token_set _ _ _ _ _ Hw _ Hc); [set_solver|].
    destruct (any_token n (w_capability w) [Enabled]) eqn:Ew; rw Hc in Ew; rw Ew in Hset Hmono.
    + by rw Hset.
    + rw contains_insert bool_decide_eq_true_2 //. split; [|done].
      destruct (any_token n0 c [Enabled]); [by specialize (Hmono eq_refl)|done].
  - rw any_token_set_ne //. destruct (any_token n (w_capability w) _); [done|].
    by rw contains_insert bool_decide_eq_false_2.
Qed.

(** an ACK line without removals reports exactly the capabilities that the line turned on:
    those enabled after it and not before it, and it turns none off. *)
Theorem acknowledge_newly_enabled n toks c :
  forallb (fun token => negb (starts_with_minus token)) toks = true ->
  contains (acknowledge n toks).2 c =
    contains (enabled (acknowledge n toks).1) c && negb (contains (enabled n) c) /\
  (contains (enabled n) c = true -> contains (enabled (acknowledge n toks).1) c = true).
Proof.
  intros Hplain. rw !enabled_spec. rw forallb_forall in Hplain.
  apply (foldl_invariant ack_token (fun st => contains st.2 c
    = any_token st.1 c [Enabled] && negb (any_token n c [Enabled]) /\
    (any_token n c [Enabled] = true -> any_token st.1 c [Enabled] = true))).
  - intros [m set] token Hin [H1 H2]. apply ack_plain_token; try done.
    by apply negb_true_iff, Hplain, list_elem_of_In.
  - cbn. rw contains_empty. by destruct (any_token n c [Enabled]).
Qed.

Lemma acknowledge_newly_enabled_witness :
  let n := (take_request (advertise (new_negotiation false) [lit "batch"; lit "chghost"])).1 in
  contains (acknowledge n [lit "Batch"]).2 Batch =
    contains (enabled (acknowledge n [lit "Batch"]).1) Batch && negb (contains (enabled n) Batch).
Proof.
  destruct (acknowledge_newly_enabled
    (take_request (advertise (new_negotiation false) [lit "batch"; lit "chghost"])).1 [lit "Batch"] Batch)
    as [H _]; [by vm_compute|exact H].
Defined.

(** *** The timeout *)

Lemma settled_spec n :
  negotiation_ok n -> settled n = true <-> (forall w, w ∈ WANTED -> state_of n (w_token w) <> Some Requested).
Proof.
  intros Hn. unfold settled. rw bool_decide_eq_true. split.
  - intros H w _ E. by apply (H _ _ E).
  - intros H t s E ->. apply (nok_known n Hn) in E as Ht.
    apply list_elem_of_fmap in Ht as (w & -> & Hw). by apply (H w).
Qed.

Lemma abandon_rows_spec ws n set :
  ws ⊆ WANTED -> NoDup (w_token <$> ws) ->
  let st := foldl abandon_row (n, set) ws in
  (forall w, w ∈ ws -> state_of st.1 (w_token w) <> Some Requested) /\
  (forall t, state_of st.1 t <> state_of n t -> state_of n t = Some Requested) /\
  (forall c, contains st.2 c = contains set c ||
     existsb (fun w => bool_decide (w_capability w = c) && bool_decide (state_of n (w_token w) = Some Requested)) ws).
Proof.
  revert n set. induction ws as [|w ws IH]; intros n set Hsub Hnd.
  { split_and!; [by intros w ?%not_elem_of_nil|done|intros c; by rw orb_false_r]. }
  cbn in Hnd. apply NoDup_cons in Hnd as [Hw Hnd]. cbn [foldl].
  assert (ws ⊆ WANTED) as Hsub' by (intros u Hu; apply Hsub; by constructor).
  assert (forall u, u ∈ ws -> w_token w <> w_token u) as Hne.
  { intros u Hu E. apply Hw. rw E. by apply list_elem_of_fmap_2. }
  unfold abandon_row at 2 4 6. case_bool_decide as Hs; cbn [negb].
  - destruct (IH (set_token n (w_token w) Refused) (insert_capability set (w_capability w)) Hsub' Hnd)
      as (H1 & H2 & H3). split_and!.
    + intros u [->|Hu]%elem_of_cons; [|by apply H1]. intros E.
      assert (state_of (set_token n (w_token w) Refused) (w_token w) = Some Requested) as E'.
      { apply H2. rw E state_of_set decide_True //. }
      by rw state_of_set decide_True in E'.
    + intros t Ht. destruct (decide (w_token w = t)) as [<-|Hwt]; [done|].
      specialize (H2 t). rw state_of_set decide_False // in H2. by apply H2.
    + intros c. rw H3 contains_insert. cbn [existsb]. rw (bool_decide_eq_true_2 _ Hs) andb_true_r.
      rw (orb_comm (bool_decide _) (contains set c)) -orb_assoc. do 2 f_equal.
      apply existsb_ext_in. intros u Hu. rw state_of_set decide_False //. by apply Hne.
  - destruct (IH n set Hsub' Hnd) as (H1 & H2 & H3). split_and!; [|done|].
    + intros u [->|Hu]%elem_of_cons; [|by apply H1]. intros E.
      destruct (decide (state_of (foldl abandon_row (n, set) ws).1 (w_token w) = state_of n (w_token w)))
        as [E'|E']; [congruence|by apply H2 in E'].
    + intros c. rw H3. cbn [existsb]. by rw (bool_decide_eq_false_2 _ Hs) andb_false_r.
Qed.

Lemma abandon_settles n :
  negotiation_ok n -> settled (abandon_outstanding n).1 = true.
Proof.
  intros Hn. apply settled_spec.
  - apply (foldl_invariant abandon_row (fun st => negotiation_ok st.1)); [|done].
    intros. by apply abandon_row_ok.
  - apply (abandon_rows_spec WANTED n 0); [done|apply wanted_tokens_nodup].
Qed.

Lemma settled_ack n toks :
  (forall w, w ∈ WANTED -> state_of n (w_token w) <> Some Requested) ->
  forallb (fun token => negb (starts_with_minus token)) toks = true ->
  acknowledge n toks = (n, 0).
Proof.
  intros Hs Hplain. rw forallb_forall in Hplain.
  apply (foldl_invariant ack_token (fun st => st = (n, 0))); [|done].
  intros st token Hin ->. unfold ack_token. destruct (wanted_for _) as [w|] eqn:E; [|done].
  apply wanted_for_in in E as Hw. apply list_elem_of_In, Hplain, negb_true_iff in Hin. rw Hin.
  case_bool_decide as H; [by apply Hs in H|done].
Qed.

Lemma settled_nak n toks :
  (forall w, w ∈ WANTED -> state_of n (w_token w) <> Some Requested) -> reject n toks = (n, 0).
Proof.
  intros Hs. apply (foldl_invariant nak_token (fun st => st = (n, 0))); [|done].
  intros st token Hin ->. unfold nak_token. destruct (wanted_for _) as [w|] eqn:E; [|done].
  apply wanted_for_in in E as Hw. case_bool_decide as H; [by apply Hs in H|done].
Qed.

(** after the CAP timeout nothing is outstanding, exactly the capabilities that were waiting
    are reported as given up, what was enabled stays enabled, and a late ACK or NAK changes
    nothing and reports nothing. *)
Theorem abandon_spec n toks c :
  negotiation_ok n -> forallb (fun token => negb (starts_with_minus token)) toks = true ->
  let n' := (abandon_outstanding n).1 in
  settled n' = true /\
  contains (abandon_outstanding n).2 c = any_token n c [Requested] /\
  contains (enabled n') c = contains (enabled n) c /\
  acknowledge n' toks = (n', 0) /\ reject n' toks = (n', 0).
Proof.
  intros Hn Hplain. cbv zeta. unfold abandon_outstanding.
  destruct (abandon_rows_spec WANTED n 0) as (H1 & H2 & H3); [done|apply wanted_tokens_nodup|].
  pose proof (abandon_moves n WANTED _ eq_refl) as Hm.
  split_and!; [by apply abandon_settles| | |by apply settled_ack|by apply settled_nak].
  - rw H3 contains_empty. apply eq_bool_prop_intro. rw !Is_true_true existsb_exists any_token_spec.
    split.
    + intros (w & Hw%list_elem_of_In & [Hc%bool_decide_eq_true Hs%bool_decide_eq_true]%andb_true_iff).
      exists w, Requested. set_solver.
    + intros (w & s & Hw & Hc & Hs & ->%list_elem_of_singleton). exists w.
      split; [by apply list_elem_of_In|]. by rw !bool_decide_eq_true_2.
  - rw !enabled_spec. apply eq_bool_prop_intro. rw !Is_true_true !any_token_spec.
    split; intros (w & s & Hw & Hc & Hs & ->%list_elem_of_singleton); exists w, Enabled;
      (split_and!; [done|done| |set_solver]); destruct (Hm (w_token w)) as [E|[E1 E2]]; congruence.
Qed.

Lemma abandon_spec_witness :
  let n := (take_request (advertise (new_negotiation true) [lit "batch"; lit "sasl"])).1 in
  contains (abandon_outstanding n).2 Sasl = any_token n Sasl [Requested].
Proof.
  apply (abandon_spec (take_request (advertise (new_negotiation true) [lit "batch"; lit "sasl"])).1
    [lit "sasl"] Sasl); [|by vm_compute].
  change (negotiation_ok (run_op (run_op (new_negotiation true)
    (OpAdvertise [lit "batch"; lit "sasl"])) OpTake)).
  do 2 apply run_op_ok. apply new_negotiation_ok.
Defined.

(** ** The request *)

(** Turning an advertised token into a requested one only takes possibilities away. *)
Lemma any_token_take n w c :
  w ∈ WANTED -> state_of n (w_token w) = Some Advertised ->
  any_token (set_token n (w_token w) Requested) c [Advertised; Requested; Enabled]
  = any_token n c [Advertised; Requested; Enabled].
Proof.
  intros Hw Ha. apply eq_bool_prop_intro. rw !Is_true_true !any_token_spec.
  split; intros (u & s & Hu & Hc & Hs & Hin).
  - rw state_of_set in Hs. case_decide as Ht; [|by exists u, s].
    exists u, Advertised. rw -Ht. set_solver.
  - destruct (decide (w_token w = w_token u)) as [Ht|Ht].
    + exists u, Requested. rw state_of_set decide_True //. set_solver.
    + exists u, s. rw state_of_set decide_False //.
Qed.

Lemma any_active_take n w c :
  w ∈ WANTED -> any_token n c active_states = true ->
  any_token (set_token n (w_token w) Requested) c active_states = true.
Proof.
  intros Hw. rw !any_token_spec. intros (u & s & Hu & Hc & Hs & Hin).
  destruct (decide (w_token w = w_token u)) as [Ht|Ht].
  - exists u, Requested. rw state_of_set decide_True //. unfold active_states. set_solver.
  - exists u, s. rw state_of_set decide_False //.
Qed.

Lemma requestable_take n w u :
  w ∈ WANTED -> state_of n (w_token w) = Some Advertised ->
  is_requestable (set_token n (w_token w) Requested) u = true -> is_requestable n u = true.
Proof.
  intros Hw Ha (H1 & H2 & H3 & H4)%requestable_spec. apply requestable_spec. split_and!.
  - rw state_of_set in H1. by case_decide.
  - destruct (any_token n (w_capability u) active_states) eqn:E; [|done].
    by rw any_active_take in H2.
  - done.
  - intros d Hd. rw -(any_token_take n w) //. by apply H4.
Qed.

(** What the loop does on the rows it is given: it takes the tokens of [rows]. *)
Record taken (n : IrcCapabilityNegotiation) (r : IrcCapabilityRequest) (p : list str)
    (ws rows : list Wanted) (st : IrcCapabilityNegotiation * IrcCapabilityRequest * list str) : Prop := {
  tk_sub : rows `sublist_of` ws;
  tk_state : forall t, state_of st.1.1 t =
    if decide (t ∈ (w_token <$> rows)) then Some Requested else state_of n t;
  tk_sasl_value : sasl_advertised_value st.1.1 = sasl_advertised_value n;
  tk_lines : request_lines st.1.2 =
    request_lines r ++ (w_token <$> base.filter (fun w => w_own_request_line w = true) rows);
  tk_shared : st.2 = p ++ (w_token <$> base.filter (fun w => w_own_request_line w = false) rows);
  tk_sasl : requests_sasl st.1.2 = requests_sasl r || existsb (fun w => bool_decide (w_capability w = Sasl)) rows;
  tk_mechanism : request_mechanism st.1.2 =
    if existsb (fun w => bool_decide (w_capability w = Sasl)) rows
    then Some (chosen_sasl_mechanism (sasl_advertised_value n)) else request_mechanism r;
  tk_rows : forall w, w ∈ rows -> is_requestable n w = true;
  tk_rest : forall w, w ∈ ws -> is_requestable st.1.1 w = false;
}.

Lemma requestable_rows ws st u :
  ws ⊆ WANTED -> is_requestable (foldl take_row st ws).1.1 u = true -> is_requestable st.1.1 u = true.
Proof.
  intros Hsub. apply (foldl_invariant take_row
    (fun s => is_requestable s.1.1 u = true -> is_requestable st.1.1 u = true)); [|done].
  intros s w Hw IH. rw take_row_state. destruct (is_requestable s.1.1 w) eqn:E; [|done].
  apply requestable_spec in E as [E _]. intros H. apply IH. by eapply requestable_take; [apply Hsub| |].
Qed.

(** The step that takes a row, written out. *)
Lemma take_row_taken n r p w :
  is_requestable n w = true ->
  taken n r p [w] [w] (take_row (n, r, p) w) /\
  (take_row (n, r, p) w).1.1 = set_token n (w_token w) Requested.
Proof.
  intros Hr. rw take_row_state Hr. split; [|done]. constructor.
  - done.
  - intros t. rw take_row_state Hr state_of_set. cbn. repeat case_decide; try done; set_solver.
  - by rw take_row_state Hr.
  - cbn -[base.filter]. rw Hr filter_cons filter_nil. cbn.
    destruct (w_own_request_line w); case_bool_decide; cbn; by rw ?app_nil_r.
  - cbn -[base.filter]. rw Hr filter_cons filter_nil. cbn.
    destruct (w_own_request_line w); case_bool_decide; cbn; by rw ?app_nil_r.
  - cbn. rw Hr. cbn. by destruct (w_own_request_line w); case_bool_decide; cbn; rw ?orb_true_r ?orb_false_r.
  - cbn. rw Hr. cbn. by destruct (w_own_request_line w); case_bool_decide.
  - by intros u ->%list_elem_of_singleton.
  - intros u ->%list_elem_of_singleton. rw take_row_state Hr.
    destruct (is_requestable (set_token _ _ _) w) eqn:E; [|done]. apply requestable_spec in E as [E _].
    by rw state_of_set decide_True in E.
Qed.

Lemma take_rows_taken ws n r p :
  ws ⊆ WANTED -> NoDup (w_token <$> ws) ->
  exists rows, taken n r p ws rows (foldl take_row (n, r, p) ws).
Proof.
  revert n r p. induction ws as [|w ws IH]; intros n r p Hsub Hnd.
  { exists []. constructor; try done; cbn; rw ?app_nil_r ?orb_false_r //;
      intros w ?%not_elem_of_nil; done. }
  cbn in Hnd. apply NoDup_cons in Hnd as [Hw Hnd].
  assert (ws ⊆ WANTED) as Hsub' by (intros u Hu; apply Hsub; by constructor).
  assert (w ∈ WANTED) as Hw' by (apply Hsub; by constructor). cbn [foldl].
  destruct (is_requestable n w) eqn:Hr.
  - apply requestable_spec in Hr as Ha. destruct Ha as [Ha _].
    destruct (take_row_taken n r p w Hr) as [[_ _ _ J4 J5 J6 J7 _ _] Jn].
    destruct (take_row (n, r, p) w) as [[n1 r1] p1] eqn:Erow. cbn in J4, J5, J6, J7, Jn. subst n1.
    destruct (IH (set_token n (w_token w) Requested) r1 p1 Hsub' Hnd) as (rows & [K1 K2 K3 K4 K5 K6 K7 K8 K9]).
    exists (w :: rows). constructor.
    + by apply sublist_skip.
    + intros t. rw K2 state_of_set. cbn [fmap list_fmap]. repeat case_decide; try done; set_solver.
    + by rw K3.
    + by rw K4 J4 (filter_app _ [w] rows) fmap_app -app_assoc.
    + by rw K5 J5 (filter_app _ [w] rows) fmap_app -app_assoc.
    + by rw K6 J6 /= orb_false_r orb_assoc.
    + rw K7 J7. cbn [existsb]. rw orb_false_r. by destruct (bool_decide _), (existsb _ _).
    + intros u [->|Hu]%elem_of_cons; [done|]. eapply requestable_take; [done|done|by apply K8].
    + intros u [->|Hu]%elem_of_cons; [|by apply K9].
      destruct (is_requestable (foldl _ _ _).1.1 w) eqn:E; [|done]. apply requestable_spec in E as [E _].
      rw K2 state_of_set in E. repeat case_decide; done.
  - assert (take_row (n, r, p) w = (n, r, p)) as -> by (cbn; by rw Hr).
    destruct (IH n r p Hsub' Hnd) as (rows & [K1 K2 K3 K4 K5 K6 K7 K8 K9]). exists rows.
    constructor; try done; [by apply sublist_cons|].
    intros u [->|Hu]%elem_of_cons; [|by apply K9].
    destruct (is_requestable (foldl _ _ _).1.1 w) eqn:E; [|done]. apply requestable_rows in E; [|done]. cbn in E. congruence.
Qed.

(** The tokens that a request takes. *)
Definition newly_requested (n n' : IrcCapabilityNegotiation) (t : str) : Prop :=
  state_of n t = Some Advertised /\ state_of n' t = Some Requested.

Lemma sublist_join_length {A} (sep : list A) l k :
  l `sublist_of` k -> (length (join_with sep l) <= length (join_with sep k))%nat.
Proof.
  assert (forall (x : list A) k, (length (join_with sep k) <= length (join_with sep (x :: k)))%nat) as Hskip.
  { intros x [|y k']; cbn; rw ?length_app; lia. }
  induction 1 as [|x l k H IH|x l k H IH]; [done| |by etrans; [exact IH|apply Hskip]].
  destruct l as [|y l].
  - destruct k as [|z k]; [done|]. cbn. rw !length_app. lia.
  - rw (join_with_cons sep x (y :: l)) // (join_with_cons sep x k);
      [intros ->; by apply sublist_nil_r in H|]. rw !length_app. lia.
Qed.

Lemma take_request_taken n :
  exists rows, rows `sublist_of` WANTED /\
    let '(n', request) := take_request n in
    let own := w_token <$> base.filter (fun w => w_own_request_line w = true) rows in
    let shared := w_token <$> base.filter (fun w => w_own_request_line w = false) rows in
    request_lines request = own ++ (match shared with [] => [] | _ => [join_with [chr " "] shared] end) /\
    requests_sasl request = existsb (fun w => bool_decide (w_capability w = Sasl)) rows /\
    request_mechanism request =
      (if requests_sasl request then Some (chosen_sasl_mechanism (sasl_advertised_value n)) else None) /\
    (forall t, state_of n' t = if decide (t ∈ (w_token <$> rows)) then Some Requested else state_of n t) /\
    (forall w, w ∈ rows -> is_requestable n w = true) /\
    (forall w, w ∈ WANTED -> is_requestable n' w = false).
Proof.
  destruct (take_rows_taken WANTED n (mkRequest [] false None) []) as (rows & K);
    [done|apply wanted_tokens_nodup|]. exists rows. split; [apply K|].
  unfold take_request. destruct (foldl take_row _ _) as [[n' r] p].
  destruct K as [K1 K2 K3 K4 K5 K6 K7 K8 K9]. cbn in K2, K3, K4, K5, K6, K7, K9. cbv zeta.
  cbn [app] in K5. rw -K5. destruct p; cbn; rw ?K4 ?app_nil_r; split_and!; try done; by rw K7 K6.
Qed.

Lemma fmap_sublist {A B} (f : A -> B) l k : l `sublist_of` k -> (f <$> l) `sublist_of` (f <$> k).
Proof. induction 1; cbn; by constructor. Qed.

Lemma own_shared_perm (rows : list Wanted) :
  base.filter (fun w => w_own_request_line w = true) rows
    ++ base.filter (fun w => w_own_request_line w = false) rows ≡ₚ rows.
Proof.
  etrans; [|apply (filter_app_complement (fun w => w_own_request_line w = true))].
  apply reflexive_eq. f_equal. apply list_filter_iff. intros w. by destruct (w_own_request_line w).
Qed.

(** The words of the request lines are the tokens of the rows taken. *)
Lemma request_words rows :
  rows ⊆ WANTED ->
  let own := w_token <$> base.filter (fun w => w_own_request_line w = true) rows in
  let shared := w_token <$> base.filter (fun w => w_own_request_line w = false) rows in
  concat (split_on (N.eqb (chr " ")) <$>
    (own ++ match shared with [] => [] | _ => [join_with [chr " "] shared] end))
  ≡ₚ (w_token <$> rows).
Proof.
  intros Hsub. cbv zeta.
  assert (forall l, l ⊆ WANTED -> Forall (fun t => forallb (fun c => negb (chr " " =? c)) t = true) (w_token <$> l))
    as Hword.
  { intros l Hl. apply Forall_fmap, Forall_forall. intros w Hw.
    pose proof wanted_tokens_words as H. rw Forall_forall in H. specialize (H w (Hl w Hw)).
    eapply forallb_impl; [|exact H]. intros c [Hc _]%andb_true_iff. by rw N.eqb_sym. }
  assert (forall l, Forall (fun t => forallb (fun c => negb (chr " " =? c)) t = true) l ->
    concat (split_on (N.eqb (chr " ")) <$> l) = l) as Hconcat.
  { induction 1 as [|t l Ht Hl IH]; [done|]. cbn. rw split_on_id // IH //. }
  etrans; [|apply fmap_Permutation, (own_shared_perm rows)]. rw !fmap_app concat_app Hconcat.
  { apply Hword. intros w [_ Hw]%list_elem_of_filter. by apply Hsub. }
  apply reflexive_eq. f_equal.
  destruct (w_token <$> base.filter (fun w => w_own_request_line w = false) rows) as [|t ts] eqn:E; [done|].
  rw -E. cbn [fmap list_fmap concat]. rw app_nil_r split_on_join; [done|by rw E| |done].
  apply Hword. intros w [_ Hw]%list_elem_of_filter. by apply Hsub.
Qed.

Lemma request_line_length rows line :
  rows `sublist_of` WANTED ->
  let own := w_token <$> base.filter (fun w => w_own_request_line w = true) rows in
  let shared := w_token <$> base.filter (fun w => w_own_request_line w = false) rows in
  line ∈ own ++ match shared with [] => [] | _ => [join_with [chr " "] shared] end ->
  (length line < 480)%nat /\ forallb is_ascii line = true.
Proof.
  intros Hsub. cbv zeta.
  assert (forall l, l `sublist_of` WANTED -> (length (join_with [chr " "] (w_token <$> l)) < 480)%nat
    /\ forallb is_ascii (join_with [chr " "] (w_token <$> l)) = true) as H.
  { intros l Hl. split.
    - eapply Nat.le_lt_trans; [apply sublist_join_length, fmap_sublist, Hl|apply wanted_tokens_length].
    - apply forallb_join; [done|]. apply Forall_fmap, Forall_forall. intros w Hw.
      pose proof wanted_tokens_words as Hwords. rw Forall_forall in Hwords.
      specialize (Hwords w (elem_of_sublist _ _ _ Hw Hl)).
      eapply forallb_impl; [|exact Hwords]. by intros c [_ ?]%andb_true_iff. }
  intros [Hl|Hl]%elem_of_app.
  - apply list_elem_of_fmap in Hl as (w & -> & [_ Hw]%list_elem_of_filter).
    apply (H [w]). apply singleton_sublist_l. by eapply elem_of_sublist.
  - destruct (w_token <$> base.filter (fun w => w_own_request_line w = false) rows) as [|t ts] eqn:E.
    { by apply not_elem_of_nil in Hl. }
    apply list_elem_of_singleton in Hl as ->. rw -E. apply H. etrans; [apply sublist_filter|exact Hsub].
Qed.

Lemma take_nothing n :
  (forall w, w ∈ WANTED -> is_requestable n w = false) -> take_request n = (n, mkRequest [] false None).
Proof.
  intros H. unfold take_request.
  assert (foldl take_row (n, mkRequest [] false None, []) WANTED = (n, mkRequest [] false None, [])) as ->; [|done].
  apply (foldl_invariant take_row (fun st => st = (n, mkRequest [] false None, []))); [|done].
  intros st w Hw ->. unfold take_row. by rw H.
Qed.

(** a request names, each once, exactly the tokens that it takes from advertised to requested;
    it leaves every other token alone; SASL is requested exactly when its token is, with the
    mechanism chosen from the advertised value; every line of it fits the 512 bytes of an
    IRC line; and asking again at once requests nothing. *)
Theorem take_request_spec n :
  let '(n', request) := take_request n in
  exists taken_tokens,
    NoDup taken_tokens /\
    concat (split_on (N.eqb (chr " ")) <$> request_lines request) ≡ₚ taken_tokens /\
    (forall t, t ∈ taken_tokens <-> newly_requested n n' t) /\
    (forall t, t ∉ taken_tokens -> state_of n' t = state_of n t) /\
    (requests_sasl request = true <-> lit "sasl" ∈ taken_tokens) /\
    request_mechanism request =
      (if requests_sasl request then Some (chosen_sasl_mechanism (sasl_advertised_value n)) else None) /\
    Forall (fun line => str_len (lit "CAP REQ :" ++ line ++ [13; 10]) <= 512) (request_lines request) /\
    (take_request n').1 = n' /\ (take_request n').2 = mkRequest [] false None.
Proof.
  destruct (take_request_taken n) as (rows & Hsub & H).
  destruct (take_request n) as [n' request]. destruct H as (Hlines & Hsasl & Hmech & Hstate & Hreq & Hrest).
  assert (rows ⊆ WANTED) as Hin by by apply sublist_subseteq.
  exists (w_token <$> rows). split_and!; try done.
  - eapply sublist_NoDup; [apply wanted_tokens_nodup|by apply fmap_sublist].
  - rw Hlines. by apply request_words.
  - intros t. unfold newly_requested. rw Hstate. case_decide as Ht; split; try done.
    + intros _. split; [|done]. apply list_elem_of_fmap in Ht as (w & -> & Hw).
      by apply Hreq, requestable_spec in Hw as [? _].
    + intros [H1 H2]. congruence.
  - intros t Ht. by rw Hstate decide_False.
  - rw Hsasl existsb_exists. split.
    + intros (w & Hw%list_elem_of_In & Hc%bool_decide_eq_true). rw -(sasl_token w) //; [by apply Hin|].
      by apply list_elem_of_fmap_2.
    + intros (w & Ht & Hw)%list_elem_of_fmap. exists w. split; [by apply list_elem_of_In|].
      destruct sasl_is_wanted as (s & Hs & Hst & Hsc). apply bool_decide_eq_true.
      rw -(wanted_token_inj s w) //; [by apply Hin|congruence].
  - apply Forall_forall. rw Hlines. intros line Hl. apply request_line_length in Hl as [Hl Ha]; [|done].
    unfold str_len, blen. rw (as_bytes_app (lit "CAP REQ :")) (as_bytes_app line) (as_bytes_ascii line) //.
    rw (length_app (as_bytes (lit "CAP REQ :"))) (length_app line).
    change (length (as_bytes (lit "CAP REQ :"))) with 9%nat. change (length (as_bytes [13; 10])) with 2%nat. lia.
  - by rw take_nothing.
  - by rw take_nothing.
Qed.

(** A NAK frees the other spelling of the capability: the next request asks for it although
    nothing new was advertised. *)
Example nak_requests_other_spelling :
  let n := (take_request (advertise (new_negotiation false)
              [lit "batch"; lit "chathistory"; lit "draft/chathistory"])).1 in
  let n := (reject n [lit "chathistory"]).1 in
  request_lines (take_request n).2 = [lit "draft/chathistory"].
Proof. vm_compute. reflexivity. Qed.
