(* ===== verification/CommandBuilder.v ===== *)
(** * CommandBuilder: outbound lines and byte budgets (src/client/src/irc/commandbuilder.rs)

    Text is a list of scalar values, so slices at byte offsets are taken on the UTF-8
    bytes and decoded again; that decoding never fails is part of what is proved. *)

From S2P Require Import Prelude Text Message Parser ServerFeatures.

Definition CRLF_BYTES : N := 2.
Definition ACTION_WRAPPER_BYTES : N := 9.
Definition ME_PREFIX_BYTES : N := 4.
Definition CRLF : str := [13; 10].

(** [line] *)
Definition line (command : str) (f : IrcServerFeatures) : result str IrcError :=
  let frame := line_length f in
  if bool_decide (command = []) then Err EmptyInput
  else if contains_forbidden (as_bytes command) then Err InvalidCharacter
  else if (frame <? CRLF_BYTES) || (frame <? str_len command + CRLF_BYTES) then Err TooManyBytes
  else Ok (command ++ CRLF).

(** [composer_byte_budget] *)
Definition composer_byte_budget (target : str) (f : IrcServerFeatures) : N :=
  let frame := line_length f in
  if frame <? CRLF_BYTES then 0
  else if bool_decide (target = []) then frame - CRLF_BYTES
  else
    let prefix_len := str_len (lit "PRIVMSG ") + str_len target + str_len (lit " :") in
    if frame <? prefix_len + 3 then 0 else frame - prefix_len - CRLF_BYTES.

(** [action_composer_byte_budget] *)
Definition action_composer_byte_budget (target : str) (f : IrcServerFeatures) : N :=
  let privmsg := composer_byte_budget target f in
  if privmsg <? ACTION_WRAPPER_BYTES then 0 else privmsg - ACTION_WRAPPER_BYTES + ME_PREFIX_BYTES.

(** [draft_is_action] *)
Definition draft_is_action (draft : str) : bool :=
  let trimmed := skip_while (fun c => (c =? chr " ") || (c =? 9)) draft in
  match trimmed with
  | c :: _ =>
      if negb (c =? chr "/") then false
      else match position (N.eqb (chr " ")) trimmed with
           | None => false
           | Some space =>
               match as_bytes (take space trimmed) with
               | [_; m; e] => ((m =? chr "m") || (m =? chr "M")) && ((e =? chr "e") || (e =? chr "E"))
               | _ => false
               end
           end
  | [] => false
  end.

(** [composer_byte_budget_for_draft] *)
Definition composer_byte_budget_for_draft (target draft : str) (f : IrcServerFeatures) : N :=
  if bool_decide (target = []) || negb (draft_is_action draft) then composer_byte_budget target f
  else action_composer_byte_budget target f.

(** [clamp_utf8_prefix]: whole characters only, up to the first that does not fit. *)
Fixpoint clamp_utf8_prefix (text : str) (max_bytes : N) : str :=
  match text with
  | [] => []
  | c :: rest =>
      if blen (utf8_char c) <=? max_bytes
      then c :: clamp_utf8_prefix rest (max_bytes - blen (utf8_char c))
      else []
  end.

(** [slice.iter().rposition(p)] *)
Definition rposition {A} (p : A -> bool) (l : list A) : option nat :=
  (fun i => (length l - 1 - i)%nat) <$> position p (rev l).

Definition continuation_byte (b : byte) : bool := N.land b 0xC0 =? 0x80.

(** The hard split: back up while the cut would land on a continuation byte. *)
Fixpoint back_up (bytes : bytes) (cut : nat) : nat :=
  match cut with
  | O => O
  | S cut' => if continuation_byte (default 0 (bytes !! cut)) then back_up bytes cut' else cut
  end.

(** The loop of [split_trailing_param] on the bytes not written yet. [None] is the empty
    result of a body that cannot be split. *)
Fixpoint split_loop (fuel : nat) (max_body : N) (bytes : bytes) : option (list Text.bytes) :=
  match fuel with
  | O => None
  | S fuel' =>
      if bool_decide (bytes = []) then Some []
      else if blen bytes <=? max_body then Some [bytes]
      else
        let size := N.to_nat max_body in
        match rposition (N.eqb (chr " ")) (take size bytes) with
        | Some (S _ as last_space) =>
            cons (take last_space bytes) <$> split_loop fuel' max_body (drop (S last_space) bytes)
        | _ =>
            let cut := back_up bytes size in
            if (cut =? 0)%nat then None
            else cons (take cut bytes) <$> split_loop fuel' max_body (drop cut bytes)
        end
  end.

(** [split_trailing_param] *)
Definition split_trailing_param (prefix body suffix : str) (f : IrcServerFeatures) : list str :=
  let frame := line_length f in
  if bool_decide (body = []) || contains_forbidden (as_bytes prefix)
     || contains_forbidden (as_bytes body) || contains_forbidden (as_bytes suffix)
  then []
  else if (frame <? 3) || (frame <? str_len prefix + str_len suffix + 3) then []
  else
    let max_body := frame - str_len prefix - str_len suffix - CRLF_BYTES in
    let bytes := as_bytes body in
    match split_loop (S (length bytes)) max_body bytes with
    | Some chunks => default [] (mapM from_utf8 chunks)
    | None => []
    end.

(** [is_single_field] and [is_join_field] *)
Definition is_single_field (field : str) : bool :=
  negb (bool_decide (field = [])) && negb (contains_forbidden (as_bytes field))
  && negb (existsb (N.eqb (chr " ")) field).

Definition is_join_field (field : str) : bool :=
  negb (bool_decide (field = []))
  && negb (match field with c :: _ => c =? chr ":" | [] => false end)
  && negb (existsb (fun c => is_whitespace c || (c =? chr ",") || (c =? 0)) field).

Definition nick (nickname : str) (f : IrcServerFeatures) : result str IrcError :=
  if negb (is_single_field nickname) then Err InvalidField
  else line (lit "NICK " ++ nickname) f.

Definition user (username realname : str) (f : IrcServerFeatures) : result str IrcError :=
  if negb (is_single_field username) || bool_decide (realname = []) || contains_forbidden (as_bytes realname)
  then Err InvalidField
  else line (lit "USER " ++ username ++ lit " 8 * :" ++ realname) f.

Definition pass (password : str) (f : IrcServerFeatures) : result str IrcError :=
  if negb (is_single_field password) then Err InvalidField
  else line (lit "PASS " ++ password) f.

Definition join (channel key : str) (f : IrcServerFeatures) : result str IrcError :=
  if negb (is_join_field channel) then Err InvalidField
  else if bool_decide (key = []) then line (lit "JOIN " ++ channel) f
  else if negb (is_join_field key) then Err InvalidField
  else line (lit "JOIN " ++ channel ++ lit " " ++ key) f.

(** [registration] *)
Definition registration (nickname username realname password : str) (f : IrcServerFeatures)
    : result str IrcError :=
  match nick nickname f, user username realname f with
  | Ok nick_command, Ok user_command =>
      if bool_decide (password = []) then Ok (nick_command ++ user_command)
      else match pass password f with
           | Ok pass_command => Ok (pass_command ++ nick_command ++ user_command)
           | Err e => Err e
           end
  | Err e, _ => Err e
  | Ok _, Err e => Err e
  end.

Example split_example :
  split_trailing_param (lit "NOTICE x :") (lit "hello wide world") [] (new_features <| line_length := 20 |>)
  = [lit "hello"; lit "wide"; lit "world"].
Proof. vm_compute. reflexivity. Qed.

(** ** Character boundaries *)

Lemma continuation_spec b : b < 256 -> continuation_byte b = is_continuation b.
Proof.
  intros Hb. assert (forallb (fun n => eqb (continuation_byte (N.of_nat n)) (is_continuation (N.of_nat n)))
    (seq 0 256) = true) as H by by vm_compute.
  rw forallb_forall in H. specialize (H (N.to_nat b)). rw N2Nat.id in H.
  apply eqb_prop, H, in_seq. lia.
Qed.

(** The first byte of a character starts it and the others continue it. *)
Lemma utf8_char_bytes c :
  is_scalar c = true ->
  exists b rest, utf8_char c = b :: rest /\ continuation_byte b = false /\
    Forall (fun b => continuation_byte b = true) rest /\ (length rest <= 3)%nat /\
    (is_ascii b = true -> c = b /\ rest = []).
Proof.
  intros Hc. assert (c < 0x110000) as Hmax by (unfold is_scalar in Hc; lia).
  pose proof (N.mod_lt c 64 ltac:(done)). pose proof (N.mod_lt (c / 64) 64 ltac:(done)).
  pose proof (N.mod_lt (c / 4096) 64 ltac:(done)).
  pose proof (N.Div0.div_lt_upper_bound c 64 32). pose proof (N.Div0.div_lt_upper_bound c 4096 16).
  pose proof (N.Div0.div_lt_upper_bound c 262144 5).
  assert (forall q, q < 64 -> continuation_byte (0x80 + q) = true) as Htail.
  { intros q Hq. rw continuation_spec; unfold is_continuation; lia. }
  assert (forall b, b < 256 -> b < 0x80 \/ 0xC0 <= b -> continuation_byte b = false) as Hlead.
  { intros b Hb Hr. rw continuation_spec //. unfold is_continuation. lia. }
  unfold utf8_char. destruct (c <? 0x80) eqn:H80; [|destruct (c <? 0x800) eqn:H800; [|destruct (c <? 0x10000) eqn:H1000]];
    eexists _, _; split_and!; try done; try (apply Hlead; lia); try (repeat constructor; by apply Htail);
    try (cbn; lia); unfold is_ascii; intros; lia.
Qed.

Lemma char_boundary s i :
  forallb is_scalar s = true ->
  match as_bytes s !! i with Some b => continuation_byte b = false | None => i = length (as_bytes s) end ->
  exists s1 s2, s = s1 ++ s2 /\ as_bytes s1 = take i (as_bytes s) /\ as_bytes s2 = drop i (as_bytes s).
Proof.
  revert i. induction s as [|c s IH]; intros i Hs Hi.
  { exists [], []. cbn. by rw take_nil drop_nil. }
  cbn [forallb] in Hs. apply andb_true_iff in Hs as [Hc Hs].
  destruct (utf8_char_bytes c Hc) as (b & rest & E & Hb & Hrest & _).
  rw as_bytes_cons E in Hi |- *. destruct i as [|i]; [by exists [], (c :: s); rw as_bytes_cons E|].
  destruct (decide (i < length rest)%nat) as [Hlt|Hge].
  - exfalso. cbn in Hi. rw lookup_app_l // in Hi.
    destruct (lookup_lt_is_Some_2 rest i Hlt) as [b' Hb']. rw Hb' in Hi.
    rw Forall_lookup in Hrest. rw (Hrest i b' Hb') in Hi. done.
  - destruct (IH (i - length rest)%nat Hs) as (s1 & s2 & Es & E1 & E2).
    { cbn in Hi. rw lookup_app_r in Hi; [lia|]. case_match; [done|].
      cbn in Hi. rw length_app in Hi. lia. }
    exists (c :: s1), s2. split_and!; [by rw Es|rw as_bytes_cons E E1|rw E2]; cbn [app].
    + rw firstn_cons take_app (take_ge rest) //. lia.
    + rw skipn_cons drop_app (drop_ge rest) //. lia.
Qed.

Lemma as_bytes_cons_inv s b rest :
  forallb is_scalar s = true -> as_bytes s = b :: rest ->
  continuation_byte b = false /\
  (is_ascii b = true -> exists s', s = b :: s' /\ as_bytes s' = rest).
Proof.
  destruct s as [|c s]; [done|]. cbn [forallb]. intros [Hc _]%andb_true_iff E. rw as_bytes_cons in E.
  destruct (utf8_char_bytes c Hc) as (b' & rest' & E' & Hb & _ & _ & Ha). rw E' in E. simplify_eq/=.
  split; [done|]. intros [-> ->]%Ha. by exists s.
Qed.

(** ** The split *)

(** [chunks] are consecutive pieces of [body]; one space may go missing at a cut. *)
Inductive pieces : str -> list str -> Prop :=
| pieces_nil : pieces [] []
| pieces_last body : pieces body [body]
| pieces_cut chunk rest chunks : pieces rest chunks -> pieces (chunk ++ rest) (chunk :: chunks)
| pieces_space chunk rest chunks :
    pieces rest chunks -> pieces (chunk ++ chr " " :: rest) (chunk :: chunks).

Lemma rposition_Some {A} (p : A -> bool) l i :
  rposition p l = Some i -> exists x, l !! i = Some x /\ p x = true.
Proof.
  unfold rposition. destruct (position p (rev l)) as [j|] eqn:E; [|done]. intros [= <-].
  apply position_lt in E as Hlt. rw length_rev in Hlt.
  apply position_lookup in E as (x & Hx & Hp). exists x. split; [|done].
  rw rev_alt -/(reverse l) in Hx. apply reverse_lookup_Some in Hx as [Hx _].
  by replace (length l - 1 - j)%nat with (length l - S j)%nat by lia.
Qed.

Lemma back_up_spec bytes size :
  (back_up bytes size <= size)%nat /\
  (back_up bytes size = 0%nat \/
   continuation_byte (default 0 (bytes !! back_up bytes size)) = false) /\
  (forall j, (back_up bytes size < j <= size)%nat -> continuation_byte (default 0 (bytes !! j)) = true).
Proof.
  induction size as [|size IH]; cbn [back_up]; [split_and!; [lia|by left|lia]|].
  destruct (continuation_byte (default 0 (bytes !! S size))) eqn:E.
  - destruct IH as (H1 & H2 & H3). split_and!; [lia|done|]. intros j Hj.
    destruct (decide (j = S size)) as [->|]; [done|apply H3; lia].
  - split_and!; [lia|by right|lia].
Qed.

(** A result that cuts [s] into whole-character pieces of at most [max_body] bytes. *)
Definition well_split (max_body : N) (s : str) (chunks : list bytes) : Prop :=
  exists cs, chunks = as_bytes <$> cs /\ pieces s cs /\
    Forall (fun c => c <> [] /\ forallb is_scalar c = true /\ str_len c <= max_body) cs.

Lemma as_bytes_nonempty s : forallb is_scalar s = true -> as_bytes s = [] -> s = [].
Proof.
  destruct s as [|c s]; [done|]. cbn [forallb]. intros [Hc _]%andb_true_iff. rw as_bytes_cons.
  by destruct (utf8_char_bytes c Hc) as (b & r & -> & _).
Qed.

Section Cut.
Context (fuel : nat) (max_body : N) (s : str).
Context (Hmore : forall s chunks, forallb is_scalar s = true ->
  split_loop fuel max_body (as_bytes s) = Some chunks -> well_split max_body s chunks).

(** A cut at a character boundary, with or without a dropped space. *)
Lemma well_split_cut cut s1 s2 gap rest chunks :
  forallb is_scalar s = true -> s = s1 ++ gap ++ s2 -> gap = [] \/ gap = [chr " "] ->
  as_bytes s1 = take cut (as_bytes s) -> (0 < cut)%nat -> N.of_nat cut <= max_body ->
  (cut <= length (as_bytes s))%nat -> as_bytes s2 = rest ->
  cons (take cut (as_bytes s)) <$> split_loop fuel max_body rest = Some chunks ->
  well_split max_body s chunks.
Proof using Hmore.
  intros Hs E Hgap E1 Hpos Hmax Hcut E2. rw E !forallb_app in Hs.
  apply andb_true_iff in Hs as [Hs1 [_ Hs2]%andb_true_iff]. rw -E1 -E2.
  destruct (split_loop fuel max_body (as_bytes s2)) as [more|] eqn:Em; [|done]. intros [= <-].
  apply Hmore in Em as (cs & -> & Hp & Hall); [|done]. exists (s1 :: cs). split_and!; [done| |].
  - rw E. destruct Hgap as [-> | ->]; by constructor.
  - assert (length (as_bytes s1) = cut) as Hlen by (rw E1 length_take; lia).
    constructor; [|done]. split_and!; [intros ->; change (0%nat = cut) in Hlen; lia|done|].
    unfold str_len, blen. lia.
Qed.

Lemma well_split_hard size chunks :
  forallb is_scalar s = true -> size = N.to_nat max_body -> (size < length (as_bytes s))%nat ->
  (let cut := back_up (as_bytes s) size in
   if (cut =? 0)%nat then None
   else cons (take cut (as_bytes s)) <$> split_loop fuel max_body (drop cut (as_bytes s))) = Some chunks ->
  well_split max_body s chunks.
Proof using Hmore.
  intros Hs -> Hsize. cbv zeta. destruct (back_up_spec (as_bytes s) (N.to_nat max_body)) as (B1 & B2 & _).
  destruct (back_up (as_bytes s) (N.to_nat max_body)) as [|cut]; [done|]. destruct B2 as [|B2]; [done|].
  destruct (char_boundary s (S cut) Hs) as (s1 & s2 & E & E1 & E2).
  { destruct (lookup_lt_is_Some_2 (as_bytes s) (S cut)) as [b Hb]; [lia|]. by rw Hb in B2 |- *. }
  apply (well_split_cut (S cut) s1 s2 []); [done|done|by left|done|lia..|done].
Qed.

Lemma well_split_space last chunks :
  forallb is_scalar s = true -> (S last < N.to_nat max_body)%nat -> as_bytes s !! S last = Some (chr " ") ->
  cons (take (S last) (as_bytes s)) <$> split_loop fuel max_body (drop (S (S last)) (as_bytes s)) = Some chunks ->
  well_split max_body s chunks.
Proof using Hmore.
  intros Hs Hlt Hx. destruct (char_boundary s (S last) Hs) as (s1 & s2 & E & E1 & E2); [by rw Hx|].
  rw (drop_S _ _ _ Hx) in E2.
  assert (forallb is_scalar s2 = true) as Hs2.
  { rw E forallb_app in Hs. by apply andb_true_iff in Hs as [_ ?]. }
  destruct (as_bytes_cons_inv s2 _ _ Hs2 E2) as [_ Ha]. destruct (Ha eq_refl) as (s3 & -> & E3).
  apply lookup_lt_Some in Hx. apply (well_split_cut (S last) s1 s3 [chr " "]); [done|done|by right|done|lia..|done].
Qed.
End Cut.

Lemma split_loop_pieces fuel max_body s chunks :
  forallb is_scalar s = true -> split_loop fuel max_body (as_bytes s) = Some chunks ->
  well_split max_body s chunks.
Proof.
  revert s chunks. induction fuel as [|fuel IH]; intros s chunks Hs; cbn [split_loop]; [done|].
  case_bool_decide as Hnil.
  { intros [= <-]. apply as_bytes_nonempty in Hnil as ->; [|done]. exists []. by repeat constructor. }
  destruct (blen (as_bytes s) <=? max_body) eqn:Hfit.
  { intros [= <-]. exists [s]. split_and!; [done|constructor|]. repeat constructor; [by intros ->|done|].
    unfold str_len. lia. }
  assert (N.to_nat max_body < length (as_bytes s))%nat as Hsize by (unfold blen in Hfit; lia). cbv zeta.
  pose proof (well_split_hard fuel max_body s IH _ chunks Hs eq_refl Hsize) as Hhard. cbv zeta in Hhard.
  destruct (rposition _ _) as [[|last]|] eqn:Er; [exact Hhard| |exact Hhard].
  apply rposition_Some in Er as (x & Hx & Hsp). apply N.eqb_eq in Hsp as <-.
  apply lookup_take_Some in Hx as [Hx Hlt]. by apply well_split_space.
Qed.

Lemma rest_after_space s last :
  forallb is_scalar s = true -> as_bytes s !! last = Some (chr " ") ->
  exists s', forallb is_scalar s' = true /\ as_bytes s' = drop (S last) (as_bytes s) /\
    (length (as_bytes s') < length (as_bytes s))%nat.
Proof.
  intros Hs Hx. destruct (char_boundary s last Hs) as (s1 & s2 & E & E1 & E2); [by rw Hx|].
  rw (drop_S _ _ _ Hx) in E2.
  assert (forallb is_scalar s2 = true) as Hs2.
  { rw E forallb_app in Hs. by apply andb_true_iff in Hs as [_ ?]. }
  destruct (as_bytes_cons_inv s2 _ _ Hs2 E2) as [_ Ha]. destruct (Ha eq_refl) as (s3 & -> & E3).
  exists s3. split_and!; [|done|].
  - cbn in Hs2. by apply andb_true_iff in Hs2 as [_ ?].
  - apply lookup_lt_Some in Hx. rw E3 length_drop. lia.
Qed.

(** The hard cut leaves a shorter text when any one character fits. *)
Lemma rest_after_hard s size :
  forallb is_scalar s = true -> (4 <= size)%nat -> (size < length (as_bytes s))%nat ->
  exists s', (0 < back_up (as_bytes s) size)%nat /\ forallb is_scalar s' = true /\
    as_bytes s' = drop (back_up (as_bytes s) size) (as_bytes s) /\
    (length (as_bytes s') < length (as_bytes s))%nat.
Proof.
  intros Hs H4 Hsize. destruct (back_up_spec (as_bytes s) size) as (B1 & B2 & B3).
  assert (0 < back_up (as_bytes s) size)%nat as Hpos.
  { destruct s as [|c s]; [by apply Nat.nlt_0_r in Hsize|]. cbn [forallb] in Hs. apply andb_true_iff in Hs as [Hc Hs].
    destruct (utf8_char_bytes c Hc) as (b & r & E & _ & _ & Hr & _).
    rw as_bytes_cons E in Hsize B3 |- *. cbn [app length] in Hsize. rw length_app in Hsize.
    destruct (decide (0 < back_up ((b :: r) ++ as_bytes s) size)%nat) as [|Hz]; [done|].
    destruct (as_bytes s) as [|b' r'] eqn:E'; [cbn in Hsize; lia|].
    assert (continuation_byte (default 0 (((b :: r) ++ b' :: r') !! S (length r))) = true) as Hk by (apply B3; lia).
    rw lookup_app_r in Hk; [cbn; lia|]. replace (S (length r) - length (b :: r))%nat with 0%nat in Hk by (cbn; lia).
    destruct (as_bytes_cons_inv s b' r' Hs E') as [Hb' _]. cbn in Hk. congruence. }
  destruct B2 as [|B2]; [lia|].
  destruct (char_boundary s (back_up (as_bytes s) size) Hs) as (s1 & s2 & E & E1 & E2).
  { destruct (lookup_lt_is_Some_2 (as_bytes s) (back_up (as_bytes s) size)) as [b Hb]; [lia|].
    by rw Hb in B2 |- *. }
  exists s2. split_and!; [done| |done|rw E2 length_drop; lia].
  rw E forallb_app in Hs. by apply andb_true_iff in Hs as [_ ?].
Qed.

(** With room for any one character the loop always finishes. *)
Lemma split_loop_total fuel max_body s :
  forallb is_scalar s = true -> 4 <= max_body -> (length (as_bytes s) < fuel)%nat ->
  is_Some (split_loop fuel max_body (as_bytes s)).
Proof.
  intros Hs Hmax. revert s Hs. induction fuel as [|fuel IH]; intros s Hs Hfuel; [lia|]. cbn [split_loop].
  case_bool_decide as Hnil; [done|]. destruct (blen (as_bytes s) <=? max_body) eqn:Hfit; [done|].
  assert (N.to_nat max_body < length (as_bytes s))%nat as Hsize by (unfold blen in Hfit; lia). cbv zeta.
  destruct (rest_after_hard s (N.to_nat max_body)) as (s2 & Hcut & Hs2 & E2 & Hl2); [done|lia|done|].
  assert (is_Some (if (back_up (as_bytes s) (N.to_nat max_body) =? 0)%nat then None
    else cons (take (back_up (as_bytes s) (N.to_nat max_body)) (as_bytes s)) <$>
      split_loop fuel max_body (drop (back_up (as_bytes s) (N.to_nat max_body)) (as_bytes s)))) as Hhard.
  { destruct (Nat.eqb_spec (back_up (as_bytes s) (N.to_nat max_body)) 0); [lia|].
    rw -E2. destruct (IH s2 Hs2) as [more ->]; [lia|done]. }
  destruct (rposition _ _) as [[|last]|] eqn:Er; [exact Hhard| |exact Hhard].
  apply rposition_Some in Er as (x & Hx & Hsp). apply N.eqb_eq in Hsp as <-.
  apply lookup_take_Some in Hx as [Hx _].
  destruct (rest_after_space s (S last)) as (s3 & Hs3 & E3 & Hl3); [done|done|].
  rw -E3. destruct (IH s3 Hs3) as [more ->]; [lia|done].
Qed.

Lemma pieces_bytes p body cs :
  pieces body cs -> existsb p (as_bytes body) = false -> Forall (fun c => existsb p (as_bytes c) = false) cs.
Proof.
  induction 1 as [|body|c rest cs Hp IH|c rest cs Hp IH]; [constructor|by repeat constructor| |].
  - rw as_bytes_app existsb_app. intros [H1 H2]%orb_false_iff. constructor; auto.
  - rw as_bytes_app existsb_app. intros [H1 H2]%orb_false_iff. constructor; [done|]. apply IH.
    rw as_bytes_cons existsb_app in H2. by apply orb_false_iff in H2 as [_ ?].
Qed.

Lemma from_utf8_chunks cs :
  Forall (fun c => forallb is_scalar c = true) cs -> mapM from_utf8 (as_bytes <$> cs) = Some cs.
Proof. induction 1 as [|c cs Hc Hcs IH]; [done|]. cbn. rw from_utf8_as_bytes //. cbn. by rw IH. Qed.

(** A body is split into non-empty pieces of whole characters that give the body back but for
    one space per cut; every piece makes, between the prefix and the suffix, a line the
    builder accepts; and nothing comes out only when the body is empty, a part holds a
    forbidden byte, or the frame has not room for one character beside the wrapper. *)
Theorem split_trailing_param_spec prefix body suffix f :
  forallb is_scalar body = true ->
  let chunks := split_trailing_param prefix body suffix f in
  (chunks <> [] ->
     pieces body chunks /\
     Forall (fun c => c <> [] /\ forallb is_scalar c = true /\
       line (prefix ++ c ++ suffix) f = Ok (prefix ++ c ++ suffix ++ CRLF)) chunks) /\
  (chunks = [] ->
     body = [] \/ contains_forbidden (as_bytes (prefix ++ body ++ suffix)) = true \/
     line_length f < str_len prefix + str_len suffix + 6).
Proof.
  intros Hs. cbv zeta. unfold split_trailing_param.
  case_bool_decide as Hb; [split; [done|by left]|].
  destruct (contains_forbidden (as_bytes prefix)) eqn:Hp,
    (contains_forbidden (as_bytes body)) eqn:Hy, (contains_forbidden (as_bytes suffix)) eqn:Hx; cbn [orb].
  all: try (split; [done|]; intros _; right; left; rw !as_bytes_app; unfold contains_forbidden in *;
    rw !existsb_app Hp Hy Hx ?orb_true_r //).
  destruct (_ || _) eqn:Hframe; [split; [done|]; intros _; right; right; lia|].
  destruct (split_loop _ _ _) as [chunks|] eqn:E.
  - apply split_loop_pieces in E as (cs & -> & Hpc & Hall); [|done].
    rw from_utf8_chunks /=; [eapply Forall_impl; [exact Hall|by intros c (_ & ? & _)]|].
    split; [|intros ->; left; by inversion Hpc].
    intros _. split; [done|]. pose proof (pieces_bytes is_forbidden body cs Hpc Hy) as Hclean.
    apply Forall_forall. intros c Hc. rw !Forall_forall in Hall Hclean.
    destruct (Hall c Hc) as (Hne & Hsc & Hlen). split_and!; [done|done|].
    unfold line. rw bool_decide_eq_false_2; [by intros [_ [? _]%app_eq_nil]%app_eq_nil|].
    unfold contains_forbidden in *. rw !as_bytes_app !existsb_app Hp Hx (Hclean c Hc) /=.
    assert (str_len (prefix ++ c ++ suffix) = str_len prefix + str_len c + str_len suffix) as ->.
    { unfold str_len, blen. rw !as_bytes_app !length_app. lia. }
    unfold CRLF_BYTES in *. case_match; [lia|]. by rw -!app_assoc.
  - split; [done|]. intros _. right. right.
    destruct (decide (4 <= line_length f - str_len prefix - str_len suffix - CRLF_BYTES)) as [H4|];
      [|unfold CRLF_BYTES in *; lia].
    destruct (split_loop_total (S (length (as_bytes body))) _ body Hs H4) as [? E']; [lia|congruence].
Qed.

Lemma split_trailing_param_spec_witness :
  pieces (lit "hello world") [lit "hello"; lit "world"].
Proof.
  apply (split_trailing_param_spec (lit "NOTICE x :") (lit "hello world") []
    (new_features <| line_length := 20 |>) ltac:(by vm_compute)). by vm_compute.
Defined.

(** ** Budgets *)

Lemma str_len_app a b : str_len (a ++ b) = str_len a + str_len b.
Proof. unfold str_len, blen. rw as_bytes_app length_app. lia. Qed.

Lemma str_len_pos s : forallb is_scalar s = true -> s <> [] -> 0 < str_len s.
Proof.
  intros Hs Hne. unfold str_len, blen. destruct (as_bytes s) eqn:E; [|cbn; lia].
  by apply as_bytes_nonempty in E.
Qed.

(** One piece comes out exactly when the wrapped body fits the frame. *)
Lemma split_one_piece prefix body suffix f :
  forallb is_scalar body = true -> body <> [] ->
  contains_forbidden (as_bytes prefix) = false -> contains_forbidden (as_bytes body) = false ->
  contains_forbidden (as_bytes suffix) = false ->
  split_trailing_param prefix body suffix f = [body] <->
  str_len prefix + str_len body + str_len suffix + CRLF_BYTES <= line_length f.
Proof.
  intros Hs Hne Hp Hb Hx. pose proof (str_len_pos body Hs Hne) as Hpos. unfold split_trailing_param.
  rw bool_decide_eq_false_2 // Hp Hb Hx. cbn [orb]. unfold CRLF_BYTES.
  destruct (_ || _) eqn:Hframe; [split; [done|lia]|].
  split.
  - destruct (split_loop _ _ _) as [chunks|] eqn:E; [|done]. intros Hc.
    apply split_loop_pieces in E as (cs & -> & _ & Hall); [|done].
    rw from_utf8_chunks /= in Hc; [eapply Forall_impl; [exact Hall|by intros c (_ & ? & _)]|].
    subst cs. apply Forall_cons in Hall as [(_ & _ & Hlen) _]. lia.
  - intros Hfit. cbn [split_loop]. rw bool_decide_eq_false_2; [by intros ?%as_bytes_nonempty|].
    change (blen (as_bytes body)) with (str_len body). destruct (str_len body <=? _) eqn:Hle; [|lia]. cbn. by rw from_utf8_as_bytes.
Qed.

(** the composer's budget is exact: a message body fits it just when it goes out as one frame,
    a raw Status line fits it just when the line builder takes it, and an action draft fits
    its budget just when the action goes out as one frame. *)
Theorem composer_budget_exact target body f :
  forallb is_scalar body = true -> body <> [] -> contains_forbidden (as_bytes body) = false ->
  target <> [] -> contains_forbidden (as_bytes target) = false ->
  (str_len body <= composer_byte_budget target f <->
     split_trailing_param (lit "PRIVMSG " ++ target ++ lit " :") body [] f = [body]) /\
  (str_len body <= composer_byte_budget [] f <-> line body f = Ok (body ++ CRLF)) /\
  (str_len (lit "/me " ++ body) <= composer_byte_budget_for_draft target (lit "/me " ++ body) f <->
     split_trailing_param (lit "PRIVMSG " ++ target ++ lit " :" ++ [1] ++ lit "ACTION ") body [1] f = [body]).
Proof.
  intros Hs Hne Hb Ht Htc. pose proof (str_len_pos body Hs Hne) as Hpos. split_and!.
  - rw split_one_piece //; [unfold contains_forbidden in *; by rw !as_bytes_app !existsb_app Htc|].
    rw !str_len_app. unfold composer_byte_budget, CRLF_BYTES. rw bool_decide_eq_false_2 //.
    change (str_len (lit "PRIVMSG ")) with 8. change (str_len (lit " :")) with 2.
    change (str_len []) with 0. repeat case_match; lia.
  - unfold composer_byte_budget, line, CRLF_BYTES. rw (bool_decide_eq_false_2 (body = [])) // Hb
      (bool_decide_eq_true_2 ([] = [])) //.
    destruct (line_length f <? 2) eqn:H2; cbn [orb]; [split; [lia|done]|].
    destruct (line_length f <? str_len body + 2) eqn:H3; (split; [|done || lia]); [lia|done].
  - rw split_one_piece //; [unfold contains_forbidden in *; by rw !as_bytes_app !existsb_app Htc|].
    assert (draft_is_action (lit "/me " ++ body) = true) as Hact by done.
    unfold composer_byte_budget_for_draft. rw Hact bool_decide_eq_false_2 //. cbn [negb orb].
    unfold action_composer_byte_budget, composer_byte_budget, CRLF_BYTES, ACTION_WRAPPER_BYTES, ME_PREFIX_BYTES.
    rw bool_decide_eq_false_2 // !str_len_app.
    change (str_len (lit "/me ")) with 4. change (str_len (lit "PRIVMSG ")) with 8.
    change (str_len (lit " :")) with 2. change (str_len [1]) with 1. change (str_len (lit "ACTION ")) with 7.
    repeat case_match; lia.
Qed.

Lemma composer_budget_exact_witness :
  split_trailing_param (lit "PRIVMSG #c :") (lit "hello") [] new_features = [lit "hello"].
Proof.
  apply (composer_budget_exact (lit "#c") (lit "hello") new_features); try done; by vm_compute.
Defined.
