(* ===== verification/JoinTarget.v ===== *)
(** * JoinTarget: what JOIN and MODE may name (src/client/src/irc/jointarget.rs,
    src/client/src/irc/channelmode.rs, src/client/src/irc/listmask.rs) *)

From S2P Require Import Prelude Text Message Parser ServerFeatures CommandBuilder.

(** ** Join targets *)

Record IrcJoinTarget := mkJoinTarget { join_channel : str; join_key : option str }.

Definition has_field_breakers (token : str) : bool :=
  existsb (fun c => is_whitespace c || (c =? chr ",") || (c =? 0)) token.

Definition starts_with_char (mark : char) (s : str) : bool :=
  match s with c :: _ => c =? mark | [] => false end.

Definition is_safe_join_key (key : str) : bool :=
  negb (bool_decide (key = [])) && negb (starts_with_char (chr ":") key) && negb (has_field_breakers key).

(** [encode_utf16().count()] *)
Definition utf16_len (s : str) : N :=
  foldr (fun c n => (if c <? 0x10000 then 1 else 2) + n) 0 s.

(** [IrcJoinTarget::make] *)
Definition make_join_target (channel : str) (key : option str) (f : IrcServerFeatures) : option IrcJoinTarget :=
  let trimmed := trim channel in
  if bool_decide (trimmed = []) then None
  else
    let name := if is_channel f trimmed then trimmed else chr "#" :: trimmed in
    if (utf16_len name <? 2) || has_field_breakers name then None
    else
      match key with
      | None => Some (mkJoinTarget name None)
      | Some raw =>
          let trimmed := trim raw in
          if is_safe_join_key trimmed then Some (mkJoinTarget name (Some trimmed)) else None
      end.

(** [has_key] *)
Definition has_key (t : IrcJoinTarget) : bool := bool_decide (is_Some (join_key t)).

Definition is_join_separator (c : char) : bool :=
  (c =? chr " ") || (c =? 9) || (c =? 10) || (c =? 11) || (c =? 12) || (c =? 13).

(** [split_ascii_whitespace_runs] *)
Definition split_ascii_whitespace_runs (text : str) : list str :=
  base.filter (fun token => token <> []) (split_on is_join_separator text).

Fixpoint join_targets_from (entries : list str) (f : IrcServerFeatures) (targets : list IrcJoinTarget)
    : option (list IrcJoinTarget) :=
  match entries with
  | [] => match targets with [] => None | _ => Some targets end
  | entry :: entries' =>
      match trim entry with
      | [] => join_targets_from entries' f targets
      | trimmed =>
          match split_ascii_whitespace_runs trimmed with
          | [channel] =>
              let? target := make_join_target channel None f in
              join_targets_from entries' f (targets ++ [target])
          | [channel; key] =>
              let? target := make_join_target channel (Some key) f in
              join_targets_from entries' f (targets ++ [target])
          | _ => None
          end
      end
  end.

(** [parse_join_targets] *)
Definition parse_join_targets (argument : str) (f : IrcServerFeatures) : option (list IrcJoinTarget) :=
  join_targets_from (split_on (N.eqb (chr ",")) argument) f [].

(** ** Mode requests *)

Record IrcChannelModeRequest := mkModeRequest {
  mode_channel : str;
  mode_modes : str;
  mode_parameters : list str;
  mode_query : bool;
}.

(** [parse_channel_mode_request] *)
Definition parse_channel_mode_request (argument : str) (f : IrcServerFeatures) : option IrcChannelModeRequest :=
  let tokens := base.filter (fun token => token <> []) (split_on (N.eqb (chr " ")) argument) in
  match tokens with
  | [] => None
  | channel :: rest =>
      if existsb (fun token => contains_forbidden (as_bytes token)) tokens then None
      else if negb (is_channel f channel) then None
      else match rest with
           | [] => Some (mkModeRequest channel [] [] true)
           | modes :: parameters => Some (mkModeRequest channel modes parameters false)
           end
  end.

(** ** List masks *)

Inductive ListMaskKind := Ban | Quiet.

Definition mode_letter (kind : ListMaskKind) : char :=
  match kind with Ban => chr "b" | Quiet => chr "q" end.

Definition expand_list_mask (token : str) : str :=
  if existsb (N.eqb (chr "!")) token || existsb (N.eqb (chr "@")) token then token
  else token ++ lit "!*@*".

Definition kick_nick_from_mask (token : str) : str :=
  match split_once (N.eqb (chr "!")) token with Some (nick, _) => nick | None => token end.

Example join_targets_example :
  parse_join_targets (lit "#a key, b ,,") new_features
  = Some [mkJoinTarget (lit "#a") (Some (lit "key")); mkJoinTarget (lit "#b") None].
Proof. vm_compute. reflexivity. Qed.

(** ** Validity *)

(** A field that JOIN may carry: what [is_join_field] accepts. *)
Definition target_ok (t : IrcJoinTarget) : Prop :=
  is_join_field (join_channel t) = true /\
  (forall key, join_key t = Some key -> is_join_field key = true).

Lemma trim_nonempty_head s c rest : trim s = c :: rest -> is_whitespace c = false.
Proof.
  unfold trim, skip_while_end. intros E.
  destruct (skip_while_suffix is_whitespace (rev (skip_while is_whitespace s))) as (pre & E1 & Hp).
  apply (f_equal (@rev N)) in E1. rw rev_involutive rev_app_distr E in E1.
  destruct (skip_while is_whitespace s) as [|x l] eqn:Es.
  - cbn in E1. done.
  - cbn in E1. injection E1 as -> _. by apply skip_while_head in Es.
Qed.

Lemma make_join_target_ok channel key f t :
  existsb (N.eqb (chr ":")) (as_bytes (channel_types f)) = false ->
  make_join_target channel key f = Some t -> target_ok t.
Proof.
  intros Htypes. unfold make_join_target. case_bool_decide as Hne; [done|].
  destruct (_ || _) eqn:Hname; [done|]. apply orb_false_iff in Hname as [_ Hbreak].
  assert (is_join_field (if is_channel f (trim channel) then trim channel else chr "#" :: trim channel) = true) as Hf.
  { unfold is_join_field. change (existsb (fun c => is_whitespace c || (c =? chr ",") || (c =? 0))) with has_field_breakers.
    rw Hbreak andb_true_r. destruct (is_channel f (trim channel)) eqn:Hc; [|done].
    rw bool_decide_eq_false_2 //=. destruct (trim channel) as [|c rest]; [done|].
    destruct (c =? chr ":") eqn:E; [|done]. apply N.eqb_eq in E as ->. exfalso.
    unfold is_channel in Hc. rw as_bytes_cons in Hc.
    change (existsb (N.eqb (chr ":")) (as_bytes (channel_types f)) = true) in Hc. congruence. }
  destruct key as [raw|].
  - destruct (is_safe_join_key (trim raw)) eqn:Hk; [|done]. intros [= <-]. split; [done|].
    intros k [= <-]. exact Hk.
  - intros [= <-]. by split.
Qed.

Lemma join_field_clean field : is_join_field field = true -> contains_forbidden (as_bytes field) = false.
Proof.
  unfold is_join_field. intros [_ H%negb_true_iff]%andb_true_iff. unfold contains_forbidden, as_bytes.
  induction field as [|c s IH]; [done|]. cbn [existsb] in H. apply orb_false_iff in H as [Hc Hs].
  cbn [mbind list_bind]. rw existsb_app (IH Hs) orb_false_r. clear IH Hs.
  apply orb_false_iff in Hc as [[Hw _]%orb_false_iff Hz]. apply existsb_false_forallb, forallb_forall.
  intros b Hb. unfold is_forbidden. unfold utf8_char in Hb.
  assert (c <> 13 /\ c <> 10) as [H13 H10].
  { split; intros ->; by vm_compute in Hw. }
  repeat case_match; cbn in Hb; lia.
Qed.

Lemma join_targets_from_ok f entries targets ts :
  existsb (N.eqb (chr ":")) (as_bytes (channel_types f)) = false ->
  Forall target_ok targets -> join_targets_from entries f targets = Some ts -> ts <> [] /\ Forall target_ok ts.
Proof.
  intros Htypes. revert targets. induction entries as [|entry entries IH]; intros targets Hall.
  { cbn. destruct targets; [done|]. by intros [= <-]. }
  cbn [join_targets_from]. destruct (trim entry) as [|c trimmed]; [by apply IH|].
  assert (forall channel key, (let? target := make_join_target channel key f in
      join_targets_from entries f (targets ++ [target])) = Some ts -> ts <> [] /\ Forall target_ok ts) as Hmake.
  { intros channel key. destruct (make_join_target channel key f) as [t|] eqn:E; [|done]. apply IH.
    apply Forall_app. split; [done|]. repeat constructor; by apply make_join_target_ok in E as []. }
  destruct (split_ascii_whitespace_runs _) as [|channel [|key [|]]]; [done|by apply Hmake|by apply Hmake|done].
Qed.

Lemma line_clean_ok command f :
  command <> [] -> contains_forbidden (as_bytes command) = false ->
  line command f = Ok (command ++ CRLF) \/ line command f = Err TooManyBytes.
Proof.
  intros Hne Hc. unfold line. rw bool_decide_eq_false_2 // Hc. case_match; by [right|left].
Qed.

Lemma join_line_ok t f :
  target_ok t ->
  let command := lit "JOIN " ++ join_channel t ++
    match join_key t with Some key => lit " " ++ key | None => [] end in
  join (join_channel t) (default [] (join_key t)) f = Ok (command ++ CRLF) \/
  join (join_channel t) (default [] (join_key t)) f = Err TooManyBytes.
Proof.
  intros [Hc Hk]. unfold join. rw Hc. cbn [negb]. apply join_field_clean in Hc as Hcc.
  destruct (join_key t) as [key|]; [change (default [] (Some key)) with key|change (default [] None) with ([] : str)].
  - specialize (Hk key eq_refl). apply join_field_clean in Hk as Hkc.
    rw bool_decide_eq_false_2; [by intros ->|]. rw Hk. cbn [negb]. apply line_clean_ok; [done|].
    unfold contains_forbidden in *. by rw !as_bytes_app !existsb_app Hcc Hkc.
  - rw bool_decide_eq_true_2 // app_nil_r. apply line_clean_ok; [done|].
    unfold contains_forbidden in *. by rw !as_bytes_app !existsb_app Hcc.
Qed.

(** A join argument that parses gives at least one target, and every target makes a JOIN
    line that the builder accepts as it stands, unless it is longer than the frame: no name or
    key it lets through can break the line or be taken for another field. *)
Theorem parse_join_targets_sendable argument f ts :
  existsb (N.eqb (chr ":")) (as_bytes (channel_types f)) = false ->
  parse_join_targets argument f = Some ts ->
  ts <> [] /\
  Forall (fun t =>
    let command := lit "JOIN " ++ join_channel t ++
      match join_key t with Some key => lit " " ++ key | None => [] end in
    is_join_field (join_channel t) = true /\
    (join (join_channel t) (default [] (join_key t)) f = Ok (command ++ CRLF) \/
     join (join_channel t) (default [] (join_key t)) f = Err TooManyBytes)) ts.
Proof.
  intros Htypes H. destruct (join_targets_from_ok f _ [] ts Htypes (Forall_nil_2 _) H) as [Hne Hall].
  split; [done|]. apply (Forall_impl target_ok); [done|]. intros t Ht.
  split; [exact (proj1 Ht)|by apply join_line_ok].
Qed.

Lemma parse_join_targets_sendable_witness :
  [mkJoinTarget (lit "#a") (Some (lit "k"))] <> [].
Proof.
  apply (parse_join_targets_sendable (lit "a k") new_features [mkJoinTarget (lit "#a") (Some (lit "k"))]);
    by vm_compute.
Defined.
