(* ===== verification/Scram.v ===== *)
(** * Scram: SCRAM-SHA-256 as the SASL mechanism (src/client/src/session/saslscram.rs,
    src/client/src/session/saslscram/attrs.rs)

    The hash, HMAC, PBKDF2 and base64 come from crates, so they are the operations of a
    class; the operating system's random bytes are an argument. *)

From S2P Require Import Prelude Text Framer.

Class Crypto := {
  sha256 : bytes -> bytes;
  hmac_sha256 : bytes -> bytes -> bytes;
  pbkdf2_hmac_sha256 : bytes -> bytes -> N -> bytes;
  base64_encode : bytes -> bytes;
  base64_decode : bytes -> option bytes;
}.

Definition SASL_AUTHENTICATE_CHUNK : nat := 400.
Definition INCOMING_ENCODED_LIMIT : N := 4096.

Inductive ScramFailure :=
| AccountUnsendable | ClientNonce | NotAwaitingFirst | NotAwaitingFinal | MissingAttributes
| MalformedAttribute | RepeatedAttribute | ServerRejected | NonceNotContinued | IterationsRange
| SignatureMismatch | MalformedChallenge.
#[export] Instance ScramFailure_eq_dec : EqDecision ScramFailure.
Proof. solve_decision. Defined.

Abbreviation ScramResult := (result bytes ScramFailure) (only parsing).

(** ** Attributes (saslscram/attrs.rs) *)

Definition MIN_ITERATIONS : Z := 4096.
Definition MAX_ITERATIONS : Z := 1000000.

Record Attributes := mkAttributes {
  at_nonce : option bytes;
  at_salt : option bytes;
  at_iterations : option bytes;
  at_verifier : option bytes;
  at_server_error : bool;
}.
#[export] Instance attributes_eta : Eta Attributes := fun a =>
  mkAttributes (at_nonce a) (at_salt a) (at_iterations a) (at_verifier a) (at_server_error a).

Definition no_attributes : Attributes := mkAttributes None None None None false.

(** The value kept for [key], [None] for a key without a slot. *)
Definition slot_of (a : Attributes) (key : byte) : option (option bytes) :=
  if key =? chr "r" then Some (at_nonce a)
  else if key =? chr "s" then Some (at_salt a)
  else if key =? chr "i" then Some (at_iterations a)
  else if key =? chr "v" then Some (at_verifier a)
  else None.

Definition set_slot (a : Attributes) (key : byte) (value : bytes) : Attributes :=
  if key =? chr "r" then a <| at_nonce := Some value |>
  else if key =? chr "s" then a <| at_salt := Some value |>
  else if key =? chr "i" then a <| at_iterations := Some value |>
  else a <| at_verifier := Some value |>.

Definition attribute_part (allowed : bytes) (acc : result Attributes ScramFailure) (part : bytes)
    : result Attributes ScramFailure :=
  match acc with
  | Err e => Err e
  | Ok a =>
      match part with
      | key :: eq :: _ :: _ =>
          let value := drop 2 part in
          if negb (eq =? chr "=") then Err MalformedAttribute
          else if key =? chr "e" then
            if at_server_error a then Err RepeatedAttribute else Ok (a <| at_server_error := true |>)
          else if negb (existsb (N.eqb key) allowed) then Err MalformedAttribute
          else match slot_of a key with
               | None => Err MalformedAttribute
               | Some (Some _) => Err RepeatedAttribute
               | Some None => Ok (set_slot a key value)
               end
      | _ => Err MalformedAttribute
      end
  end.

(** [attrs::parse] *)
Definition parse_attributes (message allowed : bytes) : result Attributes ScramFailure :=
  match message with
  | [] => Err MissingAttributes
  | _ => foldl (attribute_part allowed) (Ok no_attributes) (split_on (N.eqb (chr ",")) message)
  end.

(** [attrs::parse_iterations] *)
Definition parse_iterations (text : bytes) : result N ScramFailure :=
  if bool_decide (text = []) || negb (forallb is_ascii_digit text) then Err MalformedAttribute
  else match parse_i64 text with
       | None => Err MalformedAttribute
       | Some count =>
           if (MIN_ITERATIONS <=? count)%Z && (count <=? MAX_ITERATIONS)%Z
           then Ok (Z.to_N count) else Err IterationsRange
       end.

(** ** The client machine *)

Inductive Step := StepIdle | StepAwaitServerFirst | StepAwaitServerFinal.
#[export] Instance Step_eq_dec : EqDecision Step.
Proof. solve_decision. Defined.

Record SaslScram := mkScram {
  step : Step;
  scram_password : str;
  client_nonce : bytes;
  client_first_bare : bytes;
  auth_message : bytes;
  server_key : bytes;
}.
#[export] Instance scram_eta : Eta SaslScram := fun s =>
  mkScram (step s) (scram_password s) (client_nonce s) (client_first_bare s) (auth_message s) (server_key s).

(** [SaslScram::default], and what [reset] leaves. *)
Definition reset_scram : SaslScram := mkScram StepIdle [] [] [] [] [].

Definition contains_unsendable (text : str) : bool :=
  existsb (fun b => (b =? 0) || (b =? 13) || (b =? 10)) (as_bytes text).

Definition acceptable_nonce (nonce : bytes) : bool :=
  negb (bool_decide (nonce = []))
  && forallb (fun b => (0x21 <=? b) && (b <=? 0x7E) && negb (b =? chr ",")) nonce.

Definition escape_sasl_name (name : str) : bytes :=
  mbind (fun b => if b =? chr "=" then lit "=3D" else if b =? chr "," then lit "=2C" else [b])
    (as_bytes name).

Fixpoint starts_with (prefix l : bytes) : bool :=
  match prefix, l with
  | [], _ => true
  | x :: prefix', y :: l' => (x =? y) && starts_with prefix' l'
  | _ :: _, [] => false
  end.

(** ** The exchange: its data *)

Inductive Phase := AwaitPrompt | AwaitServerFirst | AwaitServerFinal | Verified.
#[export] Instance Phase_eq_dec : EqDecision Phase.
Proof. solve_decision. Defined.

Inductive ScramReply := Send (raw : bytes) | Continue | ReplyFail.

Record ScramExchange := mkExchange { phase : Phase; scram : SaslScram; incoming : bytes }.
#[export] Instance exchange_eta : Eta ScramExchange := fun x => mkExchange (phase x) (scram x) (incoming x).

Definition new_exchange : ScramExchange := mkExchange AwaitPrompt reset_scram [].

Section Machine.
Context `{Crypto}.

Definition decode_base64 (text : bytes) : result bytes ScramFailure :=
  if bool_decide (text = []) then Err MalformedAttribute
  else match base64_decode text with Some raw => Ok raw | None => Err MalformedAttribute end.

(** [generate_nonce]: [random] is what the operating system returned, [None] if it refused. *)
Definition generate_nonce (random : option bytes) : bytes :=
  match random with Some raw => base64_encode raw | None => [] end.

(** [SaslScram::start] with the nonce drawn from the operating system. *)
Definition scram_start (account password : str) (random : option bytes) : SaslScram * ScramResult :=
  if bool_decide (account = []) || contains_unsendable account || contains_unsendable password
  then (reset_scram, Err AccountUnsendable)
  else
    let nonce := generate_nonce random in
    if negb (acceptable_nonce nonce) then (reset_scram, Err ClientNonce)
    else
      let client_first_bare := lit "n=" ++ escape_sasl_name account ++ lit ",r=" ++ nonce in
      (mkScram StepAwaitServerFirst password nonce client_first_bare [] [],
       Ok (lit "n,," ++ client_first_bare)).

(** [client_final_for]: the new state on success; the caller resets on failure. *)
Definition client_final_for (s : SaslScram) (message : bytes) : result (SaslScram * bytes) ScramFailure :=
  match parse_attributes message (lit "rsi") with
  | Err e => Err e
  | Ok a =>
      if at_server_error a then Err ServerRejected
      else match at_nonce a, at_salt a, at_iterations a with
           | Some nonce, Some salt, Some iterations =>
               if (length nonce <=? length (client_nonce s))%nat || negb (starts_with (client_nonce s) nonce)
               then Err NonceNotContinued
               else match parse_iterations iterations with
                    | Err e => Err e
                    | Ok iterations =>
                        match decode_base64 salt with
                        | Err e => Err e
                        | Ok salt =>
                            let salted := pbkdf2_hmac_sha256 (as_bytes (scram_password s)) salt iterations in
                            let client_key := hmac_sha256 salted (lit "Client Key") in
                            let stored_key := sha256 client_key in
                            let derived_key := hmac_sha256 salted (lit "Server Key") in
                            let without_proof := lit "c=biws,r=" ++ nonce in
                            let transcript :=
                              client_first_bare s ++ lit "," ++ message ++ lit "," ++ without_proof in
                            let client_signature := hmac_sha256 stored_key transcript in
                            let proof := zip_with N.lxor client_key client_signature in
                            Ok (s <| scram_password := [] |> <| server_key := derived_key |>
                                  <| auth_message := transcript |> <| step := StepAwaitServerFinal |>,
                                without_proof ++ lit ",p=" ++ base64_encode proof)
                        end
                    end
           | _, _, _ => Err MissingAttributes
           end
  end.

(** [take_server_first] *)
Definition take_server_first (s : SaslScram) (message : bytes) : SaslScram * ScramResult :=
  if negb (bool_decide (step s = StepAwaitServerFirst)) then (s, Err NotAwaitingFirst)
  else match client_final_for s message with
       | Ok (s', client_final) => (s', Ok client_final)
       | Err e => (reset_scram, Err e)
       end.

(** [verify_server_final] *)
Definition verify_server_final (s : SaslScram) (message : bytes) : option ScramFailure :=
  match parse_attributes message (lit "v") with
  | Err e => Some e
  | Ok a =>
      if at_server_error a then Some ServerRejected
      else match at_verifier a with
           | None => Some MissingAttributes
           | Some verifier =>
               match decode_base64 verifier with
               | Err e => Some e
               | Ok verifier =>
                   if bool_decide (hmac_sha256 (server_key s) (auth_message s) = verifier)
                   then None else Some SignatureMismatch
               end
           end
  end.

(** [take_server_final] *)
Definition take_server_final (s : SaslScram) (message : bytes) : SaslScram * ScramResult :=
  if negb (bool_decide (step s = StepAwaitServerFinal)) then (s, Err NotAwaitingFinal)
  else match verify_server_final s message with
       | None => (reset_scram, Ok [])
       | Some e => (reset_scram, Err e)
       end.

(** ** SASL framing *)

(** [slice.chunks(n)], with as much fuel as there are bytes. *)
Fixpoint chunks_of (fuel n : nat) (l : bytes) : list bytes :=
  match fuel, l with
  | S fuel', _ :: _ => take n l :: chunks_of fuel' n (drop n l)
  | _, _ => []
  end.

Definition authenticate_frame (payload : bytes) : bytes := lit "AUTHENTICATE " ++ payload ++ [13; 10].

(** The payloads of [encode_sasl_frames], one per AUTHENTICATE line. *)
Definition sasl_payloads (raw : bytes) : list bytes :=
  let encoded := base64_encode raw in
  match encoded with
  | [] => [lit "+"]
  | _ => chunks_of (length encoded) SASL_AUTHENTICATE_CHUNK encoded
         ++ (if (length encoded mod SASL_AUTHENTICATE_CHUNK =? 0)%nat then [lit "+"] else [])
  end.

(** [encode_sasl_frames] *)
Definition encode_sasl_frames (raw : bytes) : list bytes := authenticate_frame <$> sasl_payloads raw.

(** [ChallengeBuffer::take] on the accumulated bytes. *)
Definition challenge_take (accumulated payload : bytes) : bytes * result (option bytes) ScramFailure :=
  let bare_plus := str_eqb payload (lit "+") in
  let mid_chunk := negb (bool_decide (accumulated = []))
                   && negb (length accumulated mod SASL_AUTHENTICATE_CHUNK =? 0)%nat in
  let overflows := negb bare_plus
                   && ((INCOMING_ENCODED_LIMIT <? blen payload)
                       || (INCOMING_ENCODED_LIMIT - blen payload <? blen accumulated)) in
  if bool_decide (payload = []) || mid_chunk || overflows then ([], Err MalformedChallenge)
  else
    let accumulated := if bare_plus then accumulated else accumulated ++ payload in
    if negb bare_plus && (length payload =? SASL_AUTHENTICATE_CHUNK)%nat then (accumulated, Ok None)
    else match accumulated with
         | [] => ([], Ok (Some []))
         | _ => ([], match base64_decode accumulated with
                     | Some raw => Ok (Some raw)
                     | None => Err MalformedChallenge
                     end)
         end.

(** ** The exchange *)

(** [ScramExchange::is_verified] *)
Definition is_verified (x : ScramExchange) : bool := bool_decide (phase x = Verified).

(** [ScramExchange::take_payload] *)
Definition take_payload (x : ScramExchange) (payload : bytes) (account password : str) (random : option bytes)
    : ScramExchange * ScramReply :=
  match phase x with
  | AwaitPrompt =>
      if negb (str_eqb payload (lit "+")) then (x, ReplyFail)
      else match scram_start account password random with
           | (s, Ok message) => (x <| phase := AwaitServerFirst |> <| scram := s |>, Send message)
           | (s, Err _) => (x <| scram := s |>, ReplyFail)
           end
  | Verified => (x, Continue)
  | AwaitServerFirst | AwaitServerFinal =>
      match challenge_take (incoming x) payload with
      | (buffer, Ok None) => (x <| incoming := buffer |>, Continue)
      | (buffer, Err _) => (x <| incoming := buffer |>, ReplyFail)
      | (buffer, Ok (Some message)) =>
          let x := x <| incoming := buffer |> in
          if bool_decide (phase x = AwaitServerFirst) then
            match take_server_first (scram x) message with
            | (s, Ok client_final) =>
                (x <| phase := AwaitServerFinal |> <| scram := s |>, Send client_final)
            | (s, Err _) => (x <| scram := s |>, ReplyFail)
            end
          else
            match take_server_final (scram x) message with
            | (s, Ok _) => (x <| phase := Verified |> <| scram := s |>, Send [])
            | (s, Err _) => (x <| scram := s |>, ReplyFail)
            end
      end
  end.
End Machine.

(** ** Framing round trip *)

(** What the buffer answers to a run of payloads. *)
Fixpoint challenge_feed `{Crypto} (accumulated : bytes) (payloads : list bytes)
    : bytes * list (result (option bytes) ScramFailure) :=
  match payloads with
  | [] => (accumulated, [])
  | payload :: payloads' =>
      let '(accumulated, answer) := challenge_take accumulated payload in
      let '(accumulated, answers) := challenge_feed accumulated payloads' in
      (accumulated, answer :: answers)
  end.

(** What base64 promises: it decodes back, whole groups of four characters come out, and only
    the empty input has the empty encoding. *)
Class Base64Laws `{Crypto} : Prop := {
  base64_roundtrip raw : base64_decode (base64_encode raw) = Some raw;
  base64_groups raw : exists n, length (base64_encode raw) = (4 * n)%nat;
  base64_empty raw : base64_encode raw = [] -> raw = [];
}.

Section Framing.
Context `{Base64Laws}.

Lemma challenge_take_plus accumulated :
  accumulated <> [] -> (length accumulated mod SASL_AUTHENTICATE_CHUNK = 0)%nat ->
  challenge_take accumulated (lit "+") =
    ([], match base64_decode accumulated with Some raw => Ok (Some raw) | None => Err MalformedChallenge end).
Proof.
  intros Hne Hmod. unfold challenge_take. rw Hmod. change (str_eqb (lit "+") (lit "+")) with true.
  rw (bool_decide_eq_false_2 (accumulated = [])) //. cbn. by destruct accumulated.
Qed.

Lemma challenge_take_chunk accumulated payload n :
  (length accumulated mod SASL_AUTHENTICATE_CHUNK = 0)%nat -> payload <> [] ->
  length payload = (4 * n)%nat -> blen accumulated + blen payload <= INCOMING_ENCODED_LIMIT ->
  challenge_take accumulated payload =
    if (length payload =? SASL_AUTHENTICATE_CHUNK)%nat then (accumulated ++ payload, Ok None)
    else ([], match base64_decode (accumulated ++ payload) with
              | Some raw => Ok (Some raw) | None => Err MalformedChallenge end).
Proof.
  intros Hmod Hne H4 Hlimit. unfold challenge_take. rw Hmod Nat.eqb_refl andb_false_r.
  assert (str_eqb payload (lit "+") = false) as ->.
  { apply bool_decide_eq_false_2. intros ->. cbn in H4. lia. }
  rw bool_decide_eq_false_2 //. cbn [negb andb orb]. case_match; [lia|].
  case_match; [done|]. by destruct accumulated, payload.
Qed.

Lemma chunks_of_cons fuel n e : e <> [] -> chunks_of (S fuel) n e = take n e :: chunks_of fuel n (drop n e).
Proof. by destruct e. Qed.

Lemma chunks_of_nil fuel n : chunks_of fuel n [] = [].
Proof. by destruct fuel. Qed.

Definition decoded (encoded : bytes) : result (option bytes) ScramFailure :=
  match base64_decode encoded with Some raw => Ok (Some raw) | None => Err MalformedChallenge end.

Lemma challenge_feed_encoded fuel e accumulated n :
  (length e <= fuel)%nat -> e <> [] -> length e = (4 * n)%nat ->
  (length accumulated mod SASL_AUTHENTICATE_CHUNK = 0)%nat ->
  blen accumulated + blen e <= INCOMING_ENCODED_LIMIT ->
  exists k, challenge_feed accumulated (chunks_of fuel SASL_AUTHENTICATE_CHUNK e ++
      (if (length e mod SASL_AUTHENTICATE_CHUNK =? 0)%nat then [lit "+"] else []))
    = ([], replicate k (Ok None) ++ [decoded (accumulated ++ e)]).
Proof.
  revert e accumulated n. induction fuel as [|fuel IH]; intros e accumulated n Hfuel Hne H4 Hmod Hlimit.
  { destruct e; [done|]. cbn in Hfuel. lia. }
  assert (0 < length e)%nat as Hpos by (destruct e; [done|cbn; lia]).
  rw chunks_of_cons //. cbn [app challenge_feed].
  destruct (decide (length e < 400)%nat) as [Hlt|Hge].
  - exists 0%nat. rw (take_ge e) ?(drop_ge e) ?chunks_of_nil; try (unfold SASL_AUTHENTICATE_CHUNK; lia).
    rw (challenge_take_chunk _ _ n) // Nat.mod_small; [unfold SASL_AUTHENTICATE_CHUNK; lia|].
    destruct (Nat.eqb_spec (length e) SASL_AUTHENTICATE_CHUNK); [unfold SASL_AUTHENTICATE_CHUNK in *; lia|].
    destruct (Nat.eqb_spec (length e) 0); [lia|done].
  - assert (length (take SASL_AUTHENTICATE_CHUNK e) = SASL_AUTHENTICATE_CHUNK) as Hchunk
      by (rw length_take; unfold SASL_AUTHENTICATE_CHUNK; lia).
    rw (challenge_take_chunk _ (take SASL_AUTHENTICATE_CHUNK e) 100) //;
      [by intros E; rw E in Hchunk|unfold blen in *; rw Hchunk; unfold SASL_AUTHENTICATE_CHUNK; lia|].
    rw Hchunk Nat.eqb_refl.
    assert ((length (accumulated ++ take SASL_AUTHENTICATE_CHUNK e) mod SASL_AUTHENTICATE_CHUNK = 0)%nat) as Hmod'.
    { rw length_app Hchunk Nat.Div0.add_mod Hmod Nat.Div0.mod_same. done. }
    assert (accumulated ++ e = (accumulated ++ take SASL_AUTHENTICATE_CHUNK e) ++ drop SASL_AUTHENTICATE_CHUNK e) as ->
      by by rw -app_assoc take_drop.
    assert (length e = SASL_AUTHENTICATE_CHUNK + length (drop SASL_AUTHENTICATE_CHUNK e))%nat as Hlen
      by (rw length_drop; unfold SASL_AUTHENTICATE_CHUNK; lia).
    destruct (decide (drop SASL_AUTHENTICATE_CHUNK e = [])) as [E|E].
    + rw E in Hlen |- *. cbn [length] in Hlen. rw Nat.add_0_r in Hlen. rw Hlen Nat.Div0.mod_same chunks_of_nil app_nil_r.
      exists 1%nat. cbn [app Nat.eqb challenge_feed]. rw challenge_take_plus //.
      by intros [_ E']%app_eq_nil; rw E' in Hchunk.
    + destruct (IH (drop SASL_AUTHENTICATE_CHUNK e) (accumulated ++ take SASL_AUTHENTICATE_CHUNK e) (n - 100)%nat) as [k Hk];
        try done.
      { unfold SASL_AUTHENTICATE_CHUNK in Hlen |- *. clear -Hlen Hfuel. lia. }
      { unfold SASL_AUTHENTICATE_CHUNK in Hlen |- *. clear -Hlen H4. lia. }
      { unfold blen in *. rw length_app Hchunk. clear -Hlen Hlimit. lia. }
      exists (S k). rw Hlen -(Nat.Div0.add_mod_idemp_l SASL_AUTHENTICATE_CHUNK) Nat.Div0.mod_same Nat.add_0_l Hk. done.
Qed.

(** A SASL response survives its framing: sent as AUTHENTICATE lines and read back by the
    challenge buffer, it asks for more until the last payload and then yields the bytes,
    leaving the buffer empty; and no line of it is longer than an IRC line. *)
Theorem sasl_framing_roundtrip raw :
  blen (base64_encode raw) <= INCOMING_ENCODED_LIMIT ->
  (exists k, challenge_feed [] (sasl_payloads raw) = ([], replicate k (Ok None) ++ [Ok (Some raw)])) /\
  Forall (fun frame => blen frame <= 512) (encode_sasl_frames raw).
Proof using All.
  intros Hlimit. destruct (base64_groups raw) as [n Hn]. pose proof (base64_roundtrip raw) as Hdecode.
  unfold encode_sasl_frames, sasl_payloads.
  destruct (base64_encode raw) as [|b e'] eqn:E.
  { apply base64_empty in E as ->. split; [by exists 0%nat|]. by repeat constructor. }
  set (e := b :: e') in *. split.
  - destruct (challenge_feed_encoded (length e) e [] n) as [k Hk]; try done.
    exists k. rw Hk. unfold decoded. cbn [app]. by rw Hdecode.
  - assert (forall fuel l, Forall (fun p => (length p <= 400)%nat) (chunks_of fuel SASL_AUTHENTICATE_CHUNK l)) as Hc.
    { induction fuel as [|fuel IH]; intros l; [constructor|]. destruct l as [|x l]; [constructor|].
      rw chunks_of_cons //. constructor; [rw length_take; unfold SASL_AUTHENTICATE_CHUNK; lia|apply IH]. }
    apply Forall_fmap, Forall_app. split.
    + eapply Forall_impl; [apply Hc|]. intros p Hp. cbv beta in Hp. unfold compose, blen, authenticate_frame.
      rw (length_app (lit "AUTHENTICATE ")) (length_app p). change (length (lit "AUTHENTICATE ")) with 13%nat.
      cbn [length]. lia.
    + case_match; repeat constructor. by vm_compute.
Qed.
End Framing.

(** ** Mutual authentication *)

(** The server proved that it knows the password: with a nonce that the client drew and the
    server extended, an iteration count within bounds, and the transcript of this exchange,
    its verifier is the signature under the key derived from the password. *)
Definition authenticated `{Crypto} (account password : str) : Prop :=
  exists client_nonce server_first server_final first final nonce salt encoded_salt iterations count verifier,
    acceptable_nonce client_nonce = true /\
    parse_attributes server_first (lit "rsi") = Ok first /\ at_server_error first = false /\
    at_nonce first = Some nonce /\ starts_with client_nonce nonce = true /\
    (length client_nonce < length nonce)%nat /\
    at_salt first = Some encoded_salt /\ decode_base64 encoded_salt = Ok salt /\
    at_iterations first = Some iterations /\ parse_iterations iterations = Ok count /\
    parse_attributes server_final (lit "v") = Ok final /\ at_server_error final = false /\
    at_verifier final = Some verifier /\
    decode_base64 verifier = Ok
      (hmac_sha256
         (hmac_sha256 (pbkdf2_hmac_sha256 (as_bytes password) salt count) (lit "Server Key"))
         (lit "n=" ++ escape_sasl_name account ++ lit ",r=" ++ client_nonce ++ lit "," ++ server_first
          ++ lit "," ++ lit "c=biws,r=" ++ nonce)).

Section Authentication.
Context `{Crypto} (account password : str).

(** What each phase has established. *)
Definition first_sent (s : SaslScram) : Prop :=
  step s = StepIdle \/
  (scram_password s = password /\ acceptable_nonce (client_nonce s) = true /\
   client_first_bare s = lit "n=" ++ escape_sasl_name account ++ lit ",r=" ++ client_nonce s).

Definition final_sent (s : SaslScram) : Prop :=
  step s = StepIdle \/
  exists client_nonce server_first first nonce salt encoded_salt iterations count,
    acceptable_nonce client_nonce = true /\
    parse_attributes server_first (lit "rsi") = Ok first /\ at_server_error first = false /\
    at_nonce first = Some nonce /\ starts_with client_nonce nonce = true /\
    (length client_nonce < length nonce)%nat /\
    at_salt first = Some encoded_salt /\ decode_base64 encoded_salt = Ok salt /\
    at_iterations first = Some iterations /\ parse_iterations iterations = Ok count /\
    server_key s = hmac_sha256 (pbkdf2_hmac_sha256 (as_bytes password) salt count) (lit "Server Key") /\
    auth_message s = lit "n=" ++ escape_sasl_name account ++ lit ",r=" ++ client_nonce ++ lit ","
      ++ server_first ++ lit "," ++ lit "c=biws,r=" ++ nonce.

Definition exchange_ok (x : ScramExchange) : Prop :=
  match phase x with
  | AwaitPrompt => True
  | AwaitServerFirst => first_sent (scram x)
  | AwaitServerFinal => final_sent (scram x)
  | Verified => authenticated account password
  end /\ (phase x <> AwaitServerFirst -> scram_password (scram x) = []).

Lemma client_final_spec s message s' client_final :
  first_sent s -> step s = StepAwaitServerFirst ->
  client_final_for s message = Ok (s', client_final) -> final_sent s' /\ scram_password s' = [].
Proof.
  intros [|(Hpw & Hnonce & Hbare)] Hstep; [congruence|]. unfold client_final_for.
  destruct (parse_attributes _ _) as [a|] eqn:Hparse; [|done].
  destruct (at_server_error a) eqn:Herr; [done|].
  destruct (at_nonce a) as [nonce|] eqn:Hn; [|done]. destruct (at_salt a) as [salt|] eqn:Hs; [|done].
  destruct (at_iterations a) as [its|] eqn:Hi; [|done].
  destruct (_ || _) eqn:Hext; [done|]. destruct (parse_iterations its) as [count|] eqn:Hc; [|done].
  destruct (decode_base64 salt) as [raw|] eqn:Hd; [|done]. intros [= <- _]. split; [|done].
  right. exists (client_nonce s), message, a, nonce, raw, salt, its, count. cbn.
  apply orb_false_iff in Hext as [Hlen Hpre]. split_and!; try done; [by apply negb_false_iff|lia|by rw Hpw|].
  rw Hbare -!app_assoc. done.
Qed.

Lemma verify_final_spec s message :
  final_sent s -> step s = StepAwaitServerFinal -> verify_server_final s message = None ->
  authenticated account password.
Proof.
  intros [|(cn & sf & a & nonce & salt & es & its & count & Hall)] Hstep; [congruence|].
  destruct Hall as (H1 & H2 & H3 & H4 & H5 & H6 & H7 & H8 & H9 & H10 & Hkey & Hauth).
  unfold verify_server_final. destruct (parse_attributes _ (lit "v")) as [f|] eqn:Hparse; [|done].
  destruct (at_server_error f) eqn:Herr; [done|]. destruct (at_verifier f) as [v|] eqn:Hv; [|done].
  destruct (decode_base64 v) as [raw|] eqn:Hd; [|done]. case_bool_decide as Hsig; [|done]. intros _.
  exists cn, sf, message, a, f, nonce, salt, es, its, count, v.
  split_and!; try done. rw Hd -Hsig Hkey Hauth. done.
Qed.

Lemma take_payload_ok x payload random :
  exchange_ok x -> exchange_ok (take_payload x payload account password random).1.
Proof.
  intros [Hx Hpw]. unfold take_payload. destruct (phase x) eqn:Hphase.
  - destruct (negb _); [by unfold exchange_ok; rw Hphase|]. unfold scram_start.
    destruct (_ || _); [by unfold exchange_ok; cbn; rw Hphase|].
    destruct (acceptable_nonce _) eqn:Hn; cbn [negb]; [|by unfold exchange_ok; cbn; rw Hphase].
    split; [|done]. cbn. right. by split_and!.
  - destruct (challenge_take _ _) as [buffer [[message|]|]]; try (by unfold exchange_ok; cbn; rw Hphase).
    cbn [phase]. rw Hphase bool_decide_eq_true_2 //. unfold take_server_first. cbn [scram].
    case_bool_decide as Hstep; cbn [negb]; [|by unfold exchange_ok; cbn; rw Hphase].
    destruct (client_final_for _ _) as [[s' cf]|] eqn:E.
    + apply client_final_spec in E as [? ?]; [|done..]. by split.
    + unfold exchange_ok. cbn. rw Hphase. split; [by left|done].
  - destruct (challenge_take _ _) as [buffer [[message|]|]]; try (by unfold exchange_ok; cbn; rw Hphase; split; auto).
    cbn [phase]. rw Hphase bool_decide_eq_false_2 //. unfold take_server_final. cbn [scram].
    case_bool_decide as Hstep; cbn [negb]; [|by unfold exchange_ok; cbn; rw Hphase; split; auto].
    destruct (verify_server_final _ _) as [e|] eqn:E.
    + unfold exchange_ok. cbn. rw Hphase. split; [by left|done].
    + apply verify_final_spec in E; [|done..]. by split.
  - unfold exchange_ok. cbn. by rw Hphase.
Qed.

Definition run_exchange (inputs : list (bytes * option bytes)) : ScramExchange :=
  foldl (fun x input => (take_payload x input.1 account password input.2).1) new_exchange inputs.

Lemma run_exchange_ok inputs : exchange_ok (run_exchange inputs).
Proof.
  apply (foldl_invariant _ exchange_ok); [|done]. intros x input _. apply take_payload_ok.
Qed.

End Authentication.

(** ** A concrete instance

    Two letters of padding and one per half byte stand for base64, and the hashes keep their
    input: enough to run the exchange and to show that the laws can hold. *)
Fixpoint toy_decode (l : bytes) : option bytes :=
  match l with
  | [] => Some []
  | 65 :: 65 :: high :: low :: l' => cons ((high - 65) * 16 + (low - 65)) <$> toy_decode l'
  | _ => None
  end.

Definition toy_crypto : Crypto := {|
  sha256 l := l;
  hmac_sha256 key message := key ++ message;
  pbkdf2_hmac_sha256 password salt count := password ++ salt;
  base64_encode := mbind (fun b => [65; 65; 65 + b / 16; 65 + b mod 16]);
  base64_decode := toy_decode;
|}.

Lemma toy_laws : @Base64Laws toy_crypto.
Proof.
  constructor; cbn.
  - induction raw as [|b raw IH]; [done|]. cbn in *. rw IH /=. f_equal. f_equal.
    pose proof (N.div_mod b 16 ltac:(done)). lia.
  - induction raw as [|b raw [n IH]]; [by exists 0%nat|]. exists (S n). cbn in *. rw IH. lia.
  - by intros [|b raw].
Qed.

Lemma sasl_framing_roundtrip_witness :
  exists k, @challenge_feed toy_crypto [] (@sasl_payloads toy_crypto (repeat 7 100))
    = ([], replicate k (Ok None) ++ [Ok (Some (repeat 7 100))]).
Proof. apply (@sasl_framing_roundtrip toy_crypto toy_laws (repeat 7 100)). by vm_compute. Defined.

(** A server that knows the password gets the exchange to the verified phase. *)
Example scram_run_example :
  let encode := @base64_encode toy_crypto in
  let nonce := encode [1; 2] in
  let first := lit "r=" ++ nonce ++ lit "s,s=" ++ encode [9] ++ lit ",i=4096" in
  let verifier := (as_bytes (lit "pw") ++ [9]) ++ lit "Server Key"
    ++ (lit "n=me,r=" ++ nonce ++ lit "," ++ first ++ lit ",c=biws,r=" ++ nonce ++ lit "s") in
  is_verified (@run_exchange toy_crypto (lit "me") (lit "pw")
    [(lit "+", Some [1; 2]); (encode first, None);
     (take 400 (encode (lit "v=" ++ encode verifier)), None);
     (take 400 (drop 400 (encode (lit "v=" ++ encode verifier))), None);
     (take 400 (drop 800 (encode (lit "v=" ++ encode verifier))), None);
     (drop 1200 (encode (lit "v=" ++ encode verifier)), None)]) = true.
Proof. vm_compute. reflexivity. Qed.
