(* ===== verification/OrdMap.v ===== *)
(** * OrdMap: ordered maps and sets ([BTreeMap<K, V>], [BTreeSet<String>])

    The program keeps its tables in [BTreeMap]s, and what it does with them shows the key
    order: labels are finished, keys searched and markers flushed in that order, and the
    sidebar lists its rows in it. A map is the list of its entries in increasing key order.
    The key type brings its order through the class [OrdKey]; [String]'s order is that of the
    bytes, and the order of a pair is the lexicographic one. *)

From Stdlib Require Import Sorting.Sorted.
From stdpp Require Import sorting.
From S2P Require Import Prelude Text.

(** [Ord for String]: lexicographic on the bytes. *)
Fixpoint bytes_ltb (a b : bytes) : bool :=
  match a, b with
  | _, [] => false
  | [], _ :: _ => true
  | x :: a', y :: b' => (x <? y) || ((x =? y) && bytes_ltb a' b')
  end.

Definition str_ltb (a b : str) : bool := bytes_ltb (as_bytes a) (as_bytes b).

Lemma str_eqb_ne a b : a <> b -> str_eqb a b = false.
Proof. apply bool_decide_eq_false_2. Qed.

(** [Ord] of a key type. *)
Class OrdKey (K : Type) := key_ltb : K -> K -> bool.
#[global] Hint Mode OrdKey ! : typeclass_instances.
#[export] Instance str_ord : OrdKey str := str_ltb.
#[export] Instance pair_ord `{OrdKey K1, EqDecision K1, OrdKey K2} : OrdKey (K1 * K2) := fun a b =>
  key_ltb a.1 b.1 || (bool_decide (a.1 = b.1) && key_ltb a.2 b.2).

Definition key_eqb `{EqDecision K} (a b : K) : bool := bool_decide (a = b).
Lemma key_eqb_refl `{EqDecision K} (a : K) : key_eqb a a = true.
Proof. by apply bool_decide_eq_true. Qed.
Lemma key_eqb_eq `{EqDecision K} (a b : K) : key_eqb a b = true -> a = b.
Proof. apply bool_decide_eq_true_1. Qed.
Lemma key_eqb_ne `{EqDecision K} (a b : K) : a <> b -> key_eqb a b = false.
Proof. apply bool_decide_eq_false_2. Qed.

Definition tree (K V : Type) : Type := list (K * V).
Definition btree (V : Type) : Type := tree str V.
Definition bset : Type := btree unit.

Section Maps.
Context {K : Type} `{Heq : EqDecision K, Hord : OrdKey K} {V : Type}.
Implicit Types (m : tree K V) (k : K) (v : V).

(** [BTreeMap::get] *)
Fixpoint bt_get k m : option V :=
  match m with
  | [] => None
  | (k', v) :: m' => if key_eqb k' k then Some v else bt_get k m'
  end.

(** [BTreeMap::insert] *)
Fixpoint bt_insert k v m : tree K V :=
  match m with
  | [] => [(k, v)]
  | (k', v') :: m' =>
      if key_eqb k' k then (k, v) :: m'
      else if key_ltb k k' then (k, v) :: (k', v') :: m'
      else (k', v') :: bt_insert k v m'
  end.

(** [BTreeMap::remove] *)
Fixpoint bt_remove k m : tree K V :=
  match m with
  | [] => []
  | (k', v') :: m' => if key_eqb k' k then bt_remove k m' else (k', v') :: bt_remove k m'
  end.

(** [BTreeMap::contains_key] *)
Definition bt_contains k m : bool := bool_decide (is_Some (bt_get k m)).

Definition bt_keys m : list K := m.*1.
Definition bt_values m : list V := m.*2.

(** A loop over [values_mut] that writes to its values and to a state beside them. *)
Fixpoint bt_traverse {S} (f : S -> V -> S * V) (s : S) m : S * tree K V :=
  match m with
  | [] => (s, [])
  | (k, v) :: m =>
      let '(s, v) := f s v in
      let '(s, m) := bt_traverse f s m in (s, (k, v) :: m)
  end.

(** [BTreeMap::retain] *)
Definition bt_retain (p : K -> V -> bool) m : tree K V := base.filter (fun e => p e.1 e.2 = true) m.

Lemma bt_get_insert k v m : bt_get k (bt_insert k v m) = Some v.
Proof.
  induction m as [|[k' v'] m IH]; cbn; [by rw key_eqb_refl|].
  destruct (key_eqb k' k) eqn:E; cbn; [by rw key_eqb_refl|].
  destruct (key_ltb k k'); cbn; [by rw key_eqb_refl|]. by rw E.
Qed.

Lemma bt_get_insert_ne k k' v m : k <> k' -> bt_get k' (bt_insert k v m) = bt_get k' m.
Proof.
  intros Hne. pose proof (key_eqb_ne k k' Hne) as Hf.
  induction m as [|[k'' v'] m IH]; cbn; [by rw Hf|].
  destruct (key_eqb k'' k) eqn:E; cbn.
  - apply key_eqb_eq in E as ->. by rw Hf.
  - destruct (key_ltb k k''); cbn; [by rw Hf|]. by rw IH.
Qed.

Lemma bt_get_remove k m : bt_get k (bt_remove k m) = None.
Proof. induction m as [|[k' v'] m IH]; cbn; [done|]. destruct (key_eqb k' k) eqn:E; cbn; by rw ?E. Qed.

Lemma bt_get_remove_ne k k' m : k <> k' -> bt_get k' (bt_remove k m) = bt_get k' m.
Proof.
  intros Hne. induction m as [|[k'' v'] m IH]; cbn; [done|].
  destruct (key_eqb k'' k) eqn:E; cbn; [|by rw IH].
  apply key_eqb_eq in E as ->. by rw key_eqb_ne.
Qed.

Lemma bt_get_remove_Some k k' v m : bt_get k' (bt_remove k m) = Some v -> bt_get k' m = Some v.
Proof.
  destruct (decide (k = k')) as [<-|]; [by rw bt_get_remove|]. by rw bt_get_remove_ne.
Qed.

Lemma bt_insert_length k v m : (length (bt_insert k v m) <= S (length m))%nat.
Proof.
  induction m as [|[k' v'] m IH]; cbn; [lia|].
  destruct (key_eqb k' k); cbn; [lia|]. destruct (key_ltb k k'); cbn; lia.
Qed.

Lemma bt_remove_length k m : (length (bt_remove k m) <= length m)%nat.
Proof. induction m as [|[k' v'] m IH]; cbn; [done|]. destruct (key_eqb k' k); cbn; lia. Qed.

Lemma bt_get_elem k v m : bt_get k m = Some v -> (k, v) ∈ m.
Proof.
  induction m as [|[k' v'] m IH]; cbn; [done|].
  destruct (key_eqb k' k) eqn:E; [|intros H; right; by apply IH].
  apply key_eqb_eq in E as ->. intros [= ->]. by left.
Qed.

Lemma bt_contains_spec k m : bt_contains k m = true <-> is_Some (bt_get k m).
Proof. apply bool_decide_eq_true. Qed.

Lemma bt_insert_perm k v m :
  bt_get k m = None -> bt_insert k v m ≡ₚ (k, v) :: m.
Proof.
  induction m as [|[k' v'] m IH]; cbn; [done|]. destruct (key_eqb k' k); [done|]. intros H.
  destruct (key_ltb k k'); [done|]. rw IH //. by rw Permutation_swap.
Qed.

(** [v] holds at every key. *)
Lemma bt_insert_Forall (P : K * V -> Prop) k v m :
  P (k, v) -> Forall P m -> Forall P (bt_insert k v m).
Proof.
  intros Hk. induction 1 as [|[k' v'] m H1 H2 IH]; cbn; [by constructor|].
  destruct (key_eqb k' k); [by constructor|]. destruct (key_ltb k k'); by repeat constructor.
Qed.

Lemma bt_remove_Forall (P : K * V -> Prop) k m : Forall P m -> Forall P (bt_remove k m).
Proof.
  induction 1 as [|[k' v'] m H1 H2 IH]; cbn; [by constructor|].
  destruct (key_eqb k' k); [done|by constructor].
Qed.

Lemma bt_remove_sublist k m : sublist (bt_remove k m) m.
Proof.
  induction m as [|[k' v'] m IH]; cbn; [done|].
  destruct (key_eqb k' k); by constructor.
Qed.

Lemma bt_keys_insert_perm k v m : bt_get k m = None -> bt_keys (bt_insert k v m) ≡ₚ k :: bt_keys m.
Proof. intros H. unfold bt_keys. rw bt_insert_perm //. Qed.

Lemma bt_get_None_keys k m : bt_get k m = None <-> k ∉ bt_keys m.
Proof.
  induction m as [|[k' v'] m IH]; cbn; [by split; [intros _ ?%elem_of_nil|]|].
  rw not_elem_of_cons -IH. case_match eqn:E; [apply key_eqb_eq in E as ->; naive_solver|].
  apply bool_decide_eq_false in E. naive_solver.
Qed.

Lemma bt_remove_id k m : bt_get k m = None -> bt_remove k m = m.
Proof.
  induction m as [|[k' v'] m IH]; cbn; [done|]. destruct (key_eqb k' k); [done|]. intros H. by rw IH.
Qed.

Lemma bt_keys_remove_perm k v m :
  NoDup (bt_keys m) -> bt_get k m = Some v -> bt_keys m ≡ₚ k :: bt_keys (bt_remove k m).
Proof.
  induction m as [|[k' v'] m IH]; cbn; [done|]. intros [Hn Hd]%NoDup_cons.
  destruct (key_eqb k' k) eqn:E.
  - apply key_eqb_eq in E as ->. intros _. rw bt_remove_id //. by apply bt_get_None_keys.
  - intros H. cbn. etrans; [apply perm_skip, (IH Hd H)|]. by apply perm_swap.
Qed.
End Maps.

(** ** The key order *)

(** The order of the keys is strict. *)
Class OrdKeyLaws (K : Type) `{OrdKey K} : Prop := {
  key_ltb_irrefl (a : K) : key_ltb a a = false;
  key_ltb_trans (a b c : K) : key_ltb a b = true -> key_ltb b c = true -> key_ltb a c = true;
}.
#[global] Hint Mode OrdKeyLaws ! - : typeclass_instances.

Lemma bytes_ltb_irrefl a : bytes_ltb a a = false.
Proof. induction a as [|x a IH]; cbn; [done|]. rw IH. lia. Qed.

Lemma bytes_ltb_trans a b c : bytes_ltb a b = true -> bytes_ltb b c = true -> bytes_ltb a c = true.
Proof.
  revert a c. induction b as [|y b IH]; intros [|x a] [|z c]; try done. cbn. intros H1 H2.
  assert (x < y \/ x = y /\ bytes_ltb a b = true) as Hxy by lia.
  assert (y < z \/ y = z /\ bytes_ltb b c = true) as Hyz by lia.
  destruct Hxy as [|[-> Ha]], Hyz as [|[-> Hb]]; try lia. rw (IH _ _ Ha Hb). lia.
Qed.
#[export] Instance str_ord_laws : OrdKeyLaws str.
Proof. constructor; intros; [apply bytes_ltb_irrefl|by eapply bytes_ltb_trans]. Qed.

#[export] Instance pair_ord_laws `{OrdKeyLaws K1, EqDecision K1, OrdKeyLaws K2} : OrdKeyLaws (K1 * K2).
Proof.
  constructor; [intros [a1 a2]|intros [a1 a2] [b1 b2] [c1 c2]]; unfold key_ltb at 1, pair_ord; cbn.
  - by rw !key_ltb_irrefl andb_false_r.
  - unfold key_ltb at 3 6, pair_ord. cbn.
    intros [Hab|[->%bool_decide_eq_true Hab]%andb_true_iff]%orb_true_iff
           [Hbc|[->%bool_decide_eq_true Hbc]%andb_true_iff]%orb_true_iff; apply orb_true_iff.
    + left. by eapply key_ltb_trans.
    + by left.
    + by left.
    + right. apply andb_true_iff. split; [by apply bool_decide_eq_true|by eapply key_ltb_trans].
Qed.

Section Order.
Context {K : Type} `{Heq : EqDecision K, Hord : OrdKey K} {V : Type}.
Implicit Types (m : tree K V) (k : K) (v : V).

(** No key stands after a greater one. *)
Definition ordered m : Prop := StronglySorted (fun a b => key_ltb b a = false) (bt_keys m).

Lemma bt_keys_insert_elem k k' v m : k' ∈ bt_keys (bt_insert k v m) -> k' = k \/ k' ∈ bt_keys m.
Proof.
  unfold bt_insert. induction m as [|[k0 v0] m IH]; cbn; [by intros ->%list_elem_of_singleton; left|].
  destruct (key_eqb k0 k) eqn:E; [apply key_eqb_eq in E as ->; cbn; set_solver|]. destruct (key_ltb k k0); cbn; set_solver.
Qed.

Lemma StronglySorted_sublist {A} (R : A -> A -> Prop) (l1 l2 : list A) :
  sublist l1 l2 -> StronglySorted R l2 -> StronglySorted R l1.
Proof.
  induction 1 as [|x l1 l2 H IH|x l1 l2 H IH]; [done|..]; intros [Hs Hf]%StronglySorted_inv; [|auto].
  constructor; [auto|]. apply Forall_forall. intros y Hy. eapply (proj1 (Forall_forall _ _) Hf). by eapply elem_of_sublist.
Qed.

Lemma ordered_sublist m m' : sublist m' m -> ordered m -> ordered m'.
Proof. intros H. apply StronglySorted_sublist. by apply fmap_sublist. Qed.

(** The value of a key that is there is replaced in place. *)
Lemma bt_insert_split k v m :
  ordered m -> bt_get k m = Some v ->
  exists pre post, m = pre ++ (k, v) :: post /\ forall v', bt_insert k v' m = pre ++ (k, v') :: post.
Proof.
  unfold ordered, bt_get, bt_insert. induction m as [|[k0 v0] m IH]; [done|]. cbn. intros [Hs Hf]%StronglySorted_inv.
  destruct (key_eqb k0 k) eqn:E; [apply key_eqb_eq in E as ->; intros [= ->]; by exists [], m|].
  intros Hget. destruct (IH Hs Hget) as (pre & post & -> & Hins). exists ((k0, v0) :: pre), post. split; [done|].
  intros v'. rw Hins. replace (key_ltb k k0) with false; [done|]. symmetry.
  apply (proj1 (Forall_forall _ _) Hf). unfold bt_keys. rw fmap_app. set_solver.
Qed.
Context `{Hlaws : !OrdKeyLaws K}.
Lemma ordered_insert k v m : ordered m -> ordered (bt_insert k v m).
Proof using All.
  unfold ordered. induction m as [|[k' v'] m IH]; [by repeat constructor|]. unfold bt_insert. cbn [bt_insert].
  intros [Hs Hf]%StronglySorted_inv. destruct (key_eqb k' k) eqn:E; [apply key_eqb_eq in E as ->; by constructor|].
  destruct (key_ltb k k') eqn:Hlt.
  - constructor; [by constructor|]. constructor.
    + apply not_true_is_false. intros H'. pose proof (key_ltb_trans _ _ _ Hlt H') as Hkk. by rw key_ltb_irrefl in Hkk.
    + eapply Forall_impl; [exact Hf|]. cbn. intros k0 H0. apply not_true_is_false. intros H'.
      by rw (key_ltb_trans _ _ _ H' Hlt) in H0.
  - constructor; [by apply IH|]. apply Forall_forall. intros k0 [->|Hin]%bt_keys_insert_elem; [done|].
    by eapply (proj1 (Forall_forall _ _) Hf).
Qed.
End Order.

Arguments bt_get : simpl never.
Arguments bt_insert : simpl never.
Arguments bt_remove : simpl never.
#[export] Hint Rewrite @bt_get_insert @bt_get_remove : om.

(** ** Sets *)
Definition bs_contains (k : str) (s : bset) : bool := bt_contains k s.
Definition bs_insert (k : str) (s : bset) : bset := bt_insert k tt s.
Definition bs_remove (k : str) (s : bset) : bset := bt_remove k s.
Definition bs_from_list (l : list str) : bset := foldl (fun s k => bs_insert k s) [] l.
Definition bs_elements (s : bset) : list str := bt_keys s.

(** ** Sorting *)

(** [Ordering] and [then_with]. *)
Definition str_compare (a b : str) : comparison := if str_eqb a b then Eq else if str_ltb a b then Lt else Gt.
Definition then_with (first second : comparison) : comparison := match first with Eq => second | _ => first end.
Definition not_after {A} (compare : A -> A -> comparison) (a b : A) : Prop := compare a b <> Gt.
#[export] Instance not_after_dec {A} (compare : A -> A -> comparison) : RelDecision (not_after compare).
Proof. intros a b. unfold not_after. apply _. Defined.

(** [sort_by]: a stable sort. *)
Definition sort_by {A} (compare : A -> A -> comparison) (l : list A) : list A := merge_sort (not_after compare) l.

(** ** Tables

    What the operations of a [BTreeMap] keep: its keys are in order and each is there once. *)
Section Tables.
Context {K : Type} `{Heq : EqDecision K, Hord : OrdKey K, Hlaws : !OrdKeyLaws K} {V : Type}.
Implicit Types (m : tree K V) (k : K) (v : V).

Definition table m : Prop := ordered m /\ NoDup (bt_keys m).

Lemma table_nil : table (@nil (K * V)).
Proof using Type. split; constructor. Qed.

Lemma table_insert k v m : table m -> table (bt_insert k v m).
Proof using Hlaws.
  intros [Ho Hd]. split; [by apply ordered_insert|]. destruct (bt_get k m) as [v0|] eqn:E.
  - destruct (bt_insert_split _ _ _ Ho E) as (pre & post & -> & Hins). rw Hins. unfold bt_keys in *.
    rw fmap_app. by rw fmap_app in Hd.
  - rw bt_keys_insert_perm //. constructor; [by apply bt_get_None_keys|done].
Qed.

Lemma table_sublist m m' : sublist m' m -> table m -> table m'.
Proof using Type.
  intros H [Ho Hd]. split; [by eapply ordered_sublist|]. eapply sublist_NoDup; [exact Hd|by apply fmap_sublist].
Qed.

Lemma table_remove k m : table m -> table (bt_remove k m).
Proof using Type. apply table_sublist, bt_remove_sublist. Qed.

Lemma table_retain p m : table m -> table (bt_retain p m).
Proof using Type. apply table_sublist, sublist_filter. Qed.

Lemma bt_elem_get k v m : NoDup (bt_keys m) -> (k, v) ∈ m -> bt_get k m = Some v.
Proof using Type.
  unfold bt_get. induction m as [|[k' v'] m IH]; [by intros _ ?%elem_of_nil|]. cbn. intros [Hn Hd]%NoDup_cons.
  intros [[= -> ->]|Hin]%elem_of_cons; [by rw key_eqb_refl|]. rw key_eqb_ne; [|by apply IH].
  intros ->. apply Hn. by apply (list_elem_of_fmap_2' fst _ (k, v)).
Qed.

Lemma bt_get_elem_iff k v m : NoDup (bt_keys m) -> bt_get k m = Some v <-> (k, v) ∈ m.
Proof using Type. intros Hd. split; [apply bt_get_elem|by apply bt_elem_get]. Qed.

(** Tables with the same entries give the same answers. *)
Lemma bt_get_perm k m m' : NoDup (bt_keys m) -> m ≡ₚ m' -> bt_get k m = bt_get k m'.
Proof using Type.
  intros Hd Hp. assert (Hd' : NoDup (bt_keys m')) by (unfold bt_keys; by rw -Hp). apply option_eq. intros v.
  by rw !bt_get_elem_iff // Hp.
Qed.

Definition bt_inserts (l : list (K * V)) m : tree K V := foldl (fun m e => bt_insert e.1 e.2 m) m l.

Lemma bt_inserts_perm l m : NoDup (l.*1 ++ bt_keys m) -> bt_inserts l m ≡ₚ l ++ m.
Proof using All.
  revert m. induction l as [|[k v] l IH]; intros m; [done|]. cbn. intros [Hn Hd]%NoDup_cons.
  assert (Hp : bt_insert k v m ≡ₚ (k, v) :: m).
  { apply bt_insert_perm, bt_get_None_keys. intros Hin. apply Hn. set_solver. }
  change (foldl _ (bt_insert k v m) l) with (bt_inserts l (bt_insert k v m)). rw IH.
  - unfold bt_keys. rw Hp. cbn. rw -Permutation_middle. by constructor.
  - by rw Hp Permutation_middle.
Qed.
End Tables.
