(* ===== verification/SessionTypes.v ===== *)
(** * SessionTypes: the session's vocabulary
    (src/client/src/session/events.rs, config.rs, transport.rs and the constants of session.rs)

    The states of the connection machine, what a session reports to its owner
    ([SessionEvent]), what it asks of its transport ([Effect]), and the settings of one
    network. An instant ([DateTime<Utc>]) is a [Z] of nanoseconds since the epoch, a
    [Duration] a [Z] of nanoseconds. A [Secret] is its text. *)

From S2P Require Import Prelude Text Message Capability OrdMap.

(** ** Time *)
Abbreviation Time := Z (only parsing).
Abbreviation Duration := Z (only parsing).

Definition nanos_per_milli : Z := 1000000.
(** [Duration::from_millis] and [TimeDelta::milliseconds]. *)
Definition from_millis (ms : N) : Duration := (Z.of_N ms * nanos_per_milli)%Z.
(** [Duration::from_secs] *)
Definition from_secs (s : N) : Duration := (Z.of_N s * 1000 * nanos_per_milli)%Z.
(** [DateTime::timestamp_millis] and [DateTime::timestamp], both rounding down. *)
Definition timestamp_millis (t : Time) : Z := (t / nanos_per_milli)%Z.
Definition timestamp (t : Time) : Z := (t / (1000 * nanos_per_milli))%Z.

(** ** States *)

Inductive SessionState :=
| StIdle | StConnecting | StStsUpgrading | StCapLs | StCapReq | StSasl
| StRegistering | StRegistered | StClosing | StReconnecting | StFailed.
#[export] Instance SessionState_eq_dec : EqDecision SessionState.
Proof. solve_decision. Defined.

Inductive ErrorKind := ErrProtocol | ErrAuthentication | ErrTls | ErrNetwork | ErrRegistration.
#[export] Instance ErrorKind_eq_dec : EqDecision ErrorKind.
Proof. solve_decision. Defined.

(** [ConnectionState]: the transport's own lifecycle. *)
Inductive ConnectionState :=
| TrIdle | TrConnecting | TrConnected | TrEncrypted | TrClosing | TrDisconnected | TrFailed.
#[export] Instance ConnectionState_eq_dec : EqDecision ConnectionState.
Proof. solve_decision. Defined.

Inductive TransportErrorKind :=
| TransportResolve | TransportNetwork | TransportTimeout | TransportTls | TransportCertificate.
Record TransportError := mkTransportError { transport_kind : TransportErrorKind; transport_message : str }.

Inductive HistoryKind := Chat | BouncerPlayback | Targets.
#[export] Instance HistoryKind_eq_dec : EqDecision HistoryKind.
Proof. solve_decision. Defined.

Inductive Severity := Info | Alert.

Record PendingInvite := mkInvite { invite_nick : str; invite_channel : str }.

Record HistoryTarget := mkHistoryTarget { history_target_name : str; latest : option Time }.

Record HistoryBatch := mkHistoryBatch {
  batch_target : str;
  batch_lines : list IrcMessage;
  batch_kind : option HistoryKind;
  older_page : bool;
  batch_history_ended : bool;
  after_request : bool;
  batch_targets : list HistoryTarget;
}.
#[export] Instance history_batch_eta : Eta HistoryBatch := fun b =>
  mkHistoryBatch (batch_target b) (batch_lines b) (batch_kind b) (older_page b)
    (batch_history_ended b) (after_request b) (batch_targets b).
Definition empty_batch : HistoryBatch := mkHistoryBatch [] [] None false false false [].

(** What a session tells its owner. *)
Inductive SessionEvent :=
| StateChanged (network_id : str) (state : SessionState)
| ErrorOccurred (network_id : str) (kind : ErrorKind) (message : str)
| RegisteredEvent (network_id : str)
| ReconnectScheduled (network_id : str) (delay_ms : N) (attempt : N)
| Inbound (network_id : str) (message : IrcMessage) (request_label nick channel_types : str) (at_ : Time)
| Outbound (network_id : str) (line : bytes) (channel_types : str) (at_ : Time)
| Lifecycle (network_id : str) (severity : Severity) (kind text : str) (at_ : Time)
| MessageReceived (network_id : str) (message : IrcMessage)
| HistoryBatchReceived (network_id : str) (batch : HistoryBatch)
| ChatHistoryRequestFinished (network_id target : str) (failed before : bool)
| ChatHistoryFailed (network_id subcommand target : str)
| CapabilitiesChanged (network_id : str) (capabilities : IrcCapabilitySet)
| RequestLabelFinished (network_id label : str)
| AutojoinChannelsChanged (network_id : str) (channels : list str) (keys : btree str)
| ReadMarkerReceived (network_id target : str) (marker : option Time).

(** The transport calls a session queues while it holds its state. *)
Inductive Effect :=
| Write (line : bytes)
| Connect (host : str) (port : N) (tls : bool)
| Shutdown
| SettleStop.

(** Which nick the registration tries next. *)
Inductive RegistrationNick := NickConfigured | NickUnderscore | NickDigit.

(** ** Limits (session.rs) *)
Definition HISTORY_LIMIT : N := 100.
Definition HISTORY_AFTER_PAGE_CAP : N := 10.
Definition HISTORY_BUFFER_CEILING : nat := 256.
Definition MAX_OPEN_BATCHES : nat := 16.
Definition MAX_IGNORED_BATCHES : nat := 32.
Definition CTCP_PING_PAYLOAD_MAX_BYTES : N := 32.
Definition CTCP_REPLY_INTERVAL : Duration := from_millis 5000.

(** ** Settings *)
Definition REGISTRATION_TIMEOUT_MS : N := 60000.

Record SessionConfig := mkConfig {
  network_id : str;
  name : str;
  host : str;
  config_port : N;
  config_tls_enabled : bool;
  config_nick : str;
  username : str;
  realname : str;
  password : str;
  nickserv_password : str;
  sasl_account : str;
  config_autojoin_channels : list str;
  config_autojoin_keys : btree str;
  reconnect_enabled : bool;
  reconnect_base_delay_ms : N;
  reconnect_maximum_delay_ms : N;
  capability_timeout_ms : N;
  registration_timeout_ms : N;
  ping_timeout_ms : N;
  labeled_response_timeout_ms : N;
}.
#[export] Instance config_eta : Eta SessionConfig := fun c =>
  mkConfig (network_id c) (name c) (host c) (config_port c) (config_tls_enabled c) (config_nick c)
    (username c) (realname c) (password c) (nickserv_password c) (sasl_account c)
    (config_autojoin_channels c) (config_autojoin_keys c) (reconnect_enabled c)
    (reconnect_base_delay_ms c) (reconnect_maximum_delay_ms c) (capability_timeout_ms c)
    (registration_timeout_ms c) (ping_timeout_ms c) (labeled_response_timeout_ms c).

(** [SessionConfig::with_defaults] *)
Definition with_defaults (network_id name host nick : str) : SessionConfig :=
  mkConfig network_id name host 6697 true nick nick nick [] [] [] [] [] true
    1000 30000 10000 REGISTRATION_TIMEOUT_MS 60000 45000.

(** [SessionConfig::sasl_account_name] *)
Definition sasl_account_name (c : SessionConfig) : str :=
  match sasl_account c with [] => config_nick c | account => account end.

(** [SessionConfig::sasl_secret] *)
Definition sasl_secret (c : SessionConfig) : str :=
  match nickserv_password c with [] => password c | secret => secret end.

(** [SessionConfig::resolved_name] *)
Definition resolved_name (c : SessionConfig) : str :=
  match trim (name c) with [] => trim (host c) | trimmed => trimmed end.

(** ** String methods the session adds *)

(** [str::is_empty] *)
Definition is_empty {A} (l : list A) : bool := match l with [] => true | _ => false end.

(** [str::strip_prefix] *)
Fixpoint strip_prefix (prefix s : str) : option str :=
  match prefix, s with
  | [], _ => Some s
  | x :: prefix', y :: s' => if x =? y then strip_prefix prefix' s' else None
  | _ :: _, [] => None
  end.

(** [str::strip_suffix] *)
Definition strip_suffix (suffix s : str) : option str := (@rev char) <$> strip_prefix (rev suffix) (rev s).

Lemma is_empty_spec {A} (l : list A) : is_empty l = true <-> l = [].
Proof. by destruct l. Qed.

Lemma strip_prefix_Some prefix s rest : strip_prefix prefix s = Some rest <-> s = prefix ++ rest.
Proof.
  revert s. induction prefix as [|x prefix IH]; intros s; cbn; [naive_solver|].
  destruct s as [|y s]; [naive_solver|]. destruct (N.eqb_spec x y) as [->|]; [rw IH|]; naive_solver.
Qed.
