(* ===== verification/Connection.v ===== *)
(** * Connection: why the transport goes away, and when to come back
    (src/client/src/session/connection.rs)

    The intent behind the next disconnect, the reconnect counter with its backoff, and the
    kinds of failure already reported. *)

From S2P Require Import Prelude Text SessionTypes.

Inductive DisconnectIntent := Unexpected | Stopping | IntentReconnecting.
#[export] Instance DisconnectIntent_eq_dec : EqDecision DisconnectIntent.
Proof. solve_decision. Defined.

Inductive DisconnectOutcome :=
| ScheduleReconnect | SettleIdle | FailUnexpected | FinishStsUpgrade | Ignore.
#[export] Instance DisconnectOutcome_eq_dec : EqDecision DisconnectOutcome.
Proof. solve_decision. Defined.

(** [reconnect_attempt] and [reported_retry_errors] are [u32]s. *)
Record Connection := mkConnection {
  intent : DisconnectIntent;
  reconnect_attempt : N;
  reported_retry_errors : N;
}.
#[export] Instance connection_eta : Eta Connection := fun c =>
  mkConnection (intent c) (reconnect_attempt c) (reported_retry_errors c).

(** [Connection::default] *)
Definition new_connection : Connection := mkConnection Unexpected 0 0.

Definition reset_retries (c : Connection) : Connection :=
  c <| reconnect_attempt := 0 |> <| reported_retry_errors := 0 |>.

Definition begin_start (c : Connection) : Connection := reset_retries (c <| intent := Unexpected |>).

Definition begin_stop (c : Connection) : Connection := reset_retries (c <| intent := Stopping |>).

Definition reconnect_on_disconnect (c : Connection) : Connection :=
  if decide (intent c = Unexpected) then c <| intent := IntentReconnecting |> else c.

Definition end_on_disconnect (c : Connection) : Connection := c <| intent := Stopping |>.

Definition is_stopping (c : Connection) : bool := bool_decide (intent c = Stopping).

Definition on_disconnect (c : Connection) (state : SessionState) : Connection * DisconnectOutcome :=
  match intent c with
  | IntentReconnecting => (c <| intent := Unexpected |>, ScheduleReconnect)
  | Stopping => (c, if decide (state = StClosing) then SettleIdle else Ignore)
  | Unexpected => (c, if decide (state = StStsUpgrading) then FinishStsUpgrade else FailUnexpected)
  end.

(** [kind as u32], the position in the enum. *)
Definition kind_index (kind : ErrorKind) : N :=
  match kind with
  | ErrProtocol => 0 | ErrAuthentication => 1 | ErrTls => 2 | ErrNetwork => 3 | ErrRegistration => 4
  end.

Definition report_bit (kind : ErrorKind) : N := N.shiftl 1 (kind_index kind).

Definition first_report_of (c : Connection) (kind : ErrorKind) : Connection * bool :=
  let bit := report_bit kind in
  if negb (N.land (reported_retry_errors c) bit =? 0) then (c, false)
  else (c <| reported_retry_errors := N.lor (reported_retry_errors c) bit |>, true).

(** [self.reconnect_attempt += 1], wrapping as an optimised build does. *)
Definition count_scheduled_reconnect (c : Connection) : Connection * N :=
  let c := c <| reconnect_attempt := (reconnect_attempt c + 1) mod 2 ^ 32 |> in
  (c, reconnect_attempt c).

(** The doubling loop of [next_delay]; [delay * 2] wraps at 64 bits. *)
Fixpoint delay_loop (fuel : nat) (step attempt delay maximum : N) : N :=
  match fuel with
  | O => delay
  | S fuel =>
      if (step <? attempt) && (delay <? maximum)
      then delay_loop fuel (step + 1) attempt (N.min ((delay * 2) mod 2 ^ 64) maximum) maximum
      else delay
  end.

Definition i32_max : N := 2 ^ 31 - 1.

(** [next_delay], in milliseconds. The loop runs at most [reconnect_attempt] times. *)
Definition next_delay (c : Connection) (config : SessionConfig) : N :=
  let base := reconnect_base_delay_ms config in
  let maximum := N.max (reconnect_maximum_delay_ms config) base in
  N.min (delay_loop (N.to_nat (reconnect_attempt c)) 1 (reconnect_attempt c) base maximum) i32_max.

(** ** The backoff *)

Lemma delay_loop_done fuel step attempt delay maximum :
  delay = maximum -> delay_loop fuel step attempt delay maximum = maximum.
Proof. intros ->. destruct fuel; [done|]. cbn [delay_loop]. by rw N.ltb_irrefl andb_false_r. Qed.

Lemma delay_loop_spec fuel step attempt delay maximum :
  delay <= maximum -> maximum < 2 ^ 63 -> (N.to_nat (attempt - step) <= fuel)%nat ->
  delay_loop fuel step attempt delay maximum = N.min (delay * 2 ^ (attempt - step)) maximum.
Proof.
  intros Hle Hmax. revert step delay Hle. induction fuel as [|fuel IH]; intros step delay Hle Hfuel.
  - assert (attempt - step = 0) as -> by lia. cbn [delay_loop]. rw N.pow_0_r. lia.
  - cbn [delay_loop]. destruct (N.ltb_spec step attempt) as [Hlt|Hge]; cbn [andb].
    2: { assert (attempt - step = 0) as -> by lia. rw N.pow_0_r. lia. }
    assert (E : attempt - step = N.succ (attempt - (step + 1))) by lia.
    destruct (N.ltb_spec delay maximum) as [Hd|Hd].
    2: { assert (delay = maximum) as -> by lia. rw N.min_r //.
         pose proof (N.pow_nonzero 2 (attempt - step) ltac:(done)). nia. }
    rw N.mod_small; [lia|]. rw IH; [lia|lia|]. rw E N.pow_succ_r'.
    set (p := 2 ^ (attempt - (step + 1))).
    assert (p <> 0) by (apply N.pow_nonzero; done).
    destruct (N.le_ge_cases (delay * 2) maximum) as [H2|H2].
    + rw (N.min_l (delay * 2)) //. f_equal. lia.
    + rw (N.min_r (delay * 2)) // !N.min_r //; nia.
Qed.

(** the reconnect backoff is the base delay doubled once per attempt after the first, never
    above the configured maximum (nor the largest [i32]) and never below the base for a base
    within that range; the loop always ends with that value. *)
Theorem next_delay_spec c config :
  let base := reconnect_base_delay_ms config in
  let maximum := N.max (reconnect_maximum_delay_ms config) base in
  maximum < 2 ^ 63 ->
  next_delay c config = N.min (N.min (base * 2 ^ (reconnect_attempt c - 1)) maximum) i32_max /\
  next_delay c config <= maximum /\ (base <= i32_max -> base <= next_delay c config).
Proof.
  intros base maximum Hmax. unfold next_delay. fold base maximum.
  rw delay_loop_spec; [lia|done|lia|].
  pose proof (N.pow_nonzero 2 (reconnect_attempt c - 1) ltac:(done)).
  split_and!; [done|lia|]. intros. assert (base <= base * 2 ^ (reconnect_attempt c - 1)) by nia. lia.
Qed.

Lemma next_delay_spec_witness :
  let config := with_defaults [] [] [] [] in
  next_delay (mkConnection Unexpected 4 0) config = 8000 /\ next_delay (mkConnection Unexpected 4 0) config <= 30000.
Proof.
  destruct (next_delay_spec (mkConnection Unexpected 4 0) (with_defaults [] [] [] [])) as (H1 & H2 & _); [by vm_compute|].
  split; [by vm_compute|exact H2].
Defined.

(** ** Reports *)

Definition reported (c : Connection) (kind : ErrorKind) : bool :=
  negb (N.land (reported_retry_errors c) (report_bit kind) =? 0).

Lemma land_bit n i : N.land n (N.shiftl 1 i) = if N.testbit n i then N.shiftl 1 i else 0.
Proof.
  apply N.bits_inj. intros j. rw N.land_spec N.shiftl_1_l. rw N.pow2_bits_eqb.
  destruct (N.eqb_spec i j) as [<-|Hne].
  - destruct (N.testbit n i); [by rw N.pow2_bits_true|]. by rw N.bits_0.
  - rw andb_false_r. destruct (N.testbit n i); [by rw N.pow2_bits_false|]. by rw N.bits_0.
Qed.

Lemma reported_testbit c kind : reported c kind = N.testbit (reported_retry_errors c) (kind_index kind).
Proof.
  unfold reported, report_bit. rw land_bit. destruct (N.testbit _ _); [|done].
  by destruct kind.
Qed.

Lemma kind_index_inj k k' : kind_index k = kind_index k' -> k = k'.
Proof. by destruct k, k'. Qed.

Lemma first_report_of_spec c kind kind' :
  (first_report_of c kind).2 = negb (reported c kind) /\
  reported (first_report_of c kind).1 kind' = bool_decide (kind' = kind) || reported c kind'.
Proof.
  unfold first_report_of. fold (reported c kind). destruct (reported c kind) eqn:E; cbn [fst snd].
  - split; [done|]. case_bool_decide as Hk; [|done]. by rw Hk E.
  - split; [done|]. rw !reported_testbit. cbn [reported_retry_errors update].
    rw N.lor_spec /report_bit N.shiftl_1_l N.pow2_bits_eqb orb_comm. f_equal.
    case_bool_decide as Hk; [by rw Hk N.eqb_refl|].
    apply N.eqb_neq. intros Hi. apply Hk. symmetry. by apply kind_index_inj.
Qed.

(** ** The order of precedence *)

Inductive connection_op :=
| OpBeginStart | OpBeginStop | OpReconnect | OpEnd | OpDisconnect (state : SessionState)
| OpReport (kind : ErrorKind) | OpCount | OpResetRetries.

#[export] Instance connection_op_eq_dec : EqDecision connection_op.
Proof. solve_decision. Defined.

Definition run_connection_op (c : Connection) (op : connection_op) : Connection * option DisconnectOutcome :=
  match op with
  | OpBeginStart => (begin_start c, None)
  | OpBeginStop => (begin_stop c, None)
  | OpReconnect => (reconnect_on_disconnect c, None)
  | OpEnd => (end_on_disconnect c, None)
  | OpDisconnect state => let '(c, outcome) := on_disconnect c state in (c, Some outcome)
  | OpReport kind => ((first_report_of c kind).1, None)
  | OpCount => ((count_scheduled_reconnect c).1, None)
  | OpResetRetries => (reset_retries c, None)
  end.

(** The outcomes of the disconnects among [ops]. *)
Fixpoint outcomes (c : Connection) (ops : list connection_op) : list DisconnectOutcome :=
  match ops with
  | [] => []
  | op :: ops =>
      let '(c, outcome) := run_connection_op c op in
      option_list outcome ++ outcomes c ops
  end.

Lemma stopping_stays c op :
  intent c = Stopping -> op <> OpBeginStart ->
  intent (run_connection_op c op).1 = Stopping /\
  (forall o, (run_connection_op c op).2 = Some o -> o = SettleIdle \/ o = Ignore).
Proof.
  intros Hi Hop. destruct op; cbn; try (split; [done|intros ? [=]]); try done.
  - unfold reconnect_on_disconnect. rw Hi. done.
  - unfold on_disconnect. rw Hi. cbn. split; [done|]. intros o [= <-]. case_decide; auto.
  - unfold first_report_of. split; [|done]. by destruct (negb _).
Qed.

(** a stop and a fatal failure outrank every request to reconnect: after either one, and
    until the next start, no disconnect schedules a reconnect, fails the session or finishes
    an upgrade. *)
Theorem stop_outranks_reconnect c first ops :
  first = OpBeginStop \/ first = OpEnd ->
  OpBeginStart ∉ ops ->
  Forall (fun o => o = SettleIdle \/ o = Ignore) (outcomes c (first :: ops)).
Proof.
  intros Hfirst Hops.
  assert (Hrun : outcomes c (first :: ops) = outcomes (run_connection_op c first).1 ops)
    by (destruct Hfirst as [-> | ->]; done).
  rw Hrun. assert (Hi : intent (run_connection_op c first).1 = Stopping)
    by (destruct Hfirst as [-> | ->]; done).
  clear Hrun Hfirst. revert Hi. generalize (run_connection_op c first).1. clear c first.
  induction ops as [|op ops IH]; intros c Hi; [done|]. apply not_elem_of_cons in Hops as [Hop Hops].
  destruct (stopping_stays c op Hi) as [Hi' Ho]; [by symmetry|]. cbn [outcomes].
  destruct (run_connection_op c op) as [c' o] eqn:E. cbn in *. apply Forall_app. split; [|by apply IH].
  destruct o as [o|]; cbn; [|done]. constructor; [by apply Ho|done].
Qed.

Lemma stop_outranks_reconnect_witness :
  Forall (fun o => o = SettleIdle \/ o = Ignore)
    (outcomes new_connection [OpBeginStop; OpReconnect; OpDisconnect StReconnecting; OpDisconnect StClosing]).
Proof.
  apply (stop_outranks_reconnect new_connection OpBeginStop [OpReconnect; OpDisconnect StReconnecting; OpDisconnect StClosing]).
  - by left.
  - compute_done.
Defined.
