(* ===== verification/Platform.v ===== *)
(** * Platform: what the program takes from outside the repository, and the times it states

    The full Unicode tables behind [str]'s case mappings and [char]'s letter tests, and the
    [chrono] crate's least instant, parsing and printing. They are the fields of a class, so the definitions that use them are executable
    at an instance, and [AsciiLaws] states the documented behaviour the theorems rely on. *)

From S2P Require Import Prelude Text Message SessionTypes.

Class Platform := {
  (** [str::to_lowercase] and [str::to_uppercase] *)
  to_lowercase : str -> str;
  to_uppercase : str -> str;
  (** [char::is_alphabetic], [char::is_numeric] *)
  is_alphabetic : char -> bool;
  is_numeric : char -> bool;
  (** [DateTime::<Utc>::MIN_UTC] *)
  MIN_UTC : Time;
  (** [when.format(layout).to_string()], in UTC and in the local zone *)
  chrono_format : Time -> str -> str;
  chrono_format_local : Time -> str -> str;
  (** [DateTime::parse_from_str(text, layout)] and [parse_from_rfc3339], taken to UTC *)
  parse_from_str : str -> str -> option Time;
  parse_from_rfc3339 : str -> option Time;
}.

(** On ASCII text the Unicode mappings are the ASCII ones. *)
Class AsciiLaws `{Platform} : Prop := {
  to_lowercase_ascii s : forallb is_ascii s = true -> to_lowercase s = ascii_lower s;
  to_uppercase_ascii s : forallb is_ascii s = true -> to_uppercase s = ascii_upper s;
}.

(** The text rules the session applies to server text before it shows any
    (src/client/src/irc/secretpolicy.rs): the mask of a preview, and the veto. *)
Class SecretPolicy := {
  redact_preview_line : str -> str -> option str;
  allows_transcript : str -> str -> bool;
}.

(** ** The times a server states (src/client/src/irc/translator/context.rs, readmarker.rs)

    The [time] tag of a line, the time of a CHATHISTORY TARGETS row, and the millisecond
    precision at which read markers compare. *)

(** *** Read markers: the wire vocabulary (irc/readmarker.rs) *)

Definition READ_MARKER_TIME_FORMAT : str := lit "%Y-%m-%dT%H:%M:%S%.3fZ".
Definition DRAFT_READ_MARKER_TOKEN : str := lit "draft/read-marker".
Definition SOJU_READ_TOKEN : str := lit "soju.im/read".

(** [irc::readmarker::read_marker_command] *)
Definition read_marker_command_for (enabled_token : option str) : str :=
  if decide (enabled_token = Some DRAFT_READ_MARKER_TOKEN) then lit "MARKREAD"
  else if decide (enabled_token = Some SOJU_READ_TOKEN) then lit "READ"
  else [].

Definition read_marker_time_millis (when : Time) : Time := (timestamp_millis when * nanos_per_milli)%Z.

Definition read_marker_time_after (left right : Time) : bool :=
  (read_marker_time_millis right <? read_marker_time_millis left)%Z.

Section ServerTimes.
Context `{platform : Platform}.

Definition parse_qt_iso_time (raw : str) : option Time :=
  match parse_from_str raw (lit "%Y-%m-%dT%H:%M:%S%.3f%#z") with
  | Some t => Some t
  | None => parse_from_str raw (lit "%Y-%m-%dT%H:%M:%S%#z")
  end.

Definition server_time_of (message : IrcMessage) : option Time :=
  let? raw := tag_text message (lit "time") in
  if is_empty raw then None else parse_qt_iso_time raw.

Definition parse_history_target_time (raw : str) : option Time :=
  let raw := default raw (strip_prefix (lit "timestamp=") raw) in
  if is_empty raw then None else parse_qt_iso_time raw.

Definition format_read_marker_time (when : Time) : str :=
  chrono_format (read_marker_time_millis when) READ_MARKER_TIME_FORMAT.

Definition parse_read_marker_time (value : str) : option Time :=
  let value := trim value in
  if is_empty value || negb (bool_decide (last value = Some (chr "Z"))) then None
  else read_marker_time_millis <$> parse_from_rfc3339 value.

(** [Some None] is the no-marker sentinel. *)
Definition parse_read_marker_parameter (parameter : str) : option (option Time) :=
  let parameter := trim parameter in
  if str_eqb parameter (lit "*") then Some None
  else let? value := strip_prefix (lit "timestamp=") parameter in
       Some <$> parse_read_marker_time value.
End ServerTimes.

(** ** An instance to evaluate the definitions with *)
Definition toy_platform : Platform := {|
  to_lowercase := ascii_lower;
  to_uppercase := ascii_upper;
  is_alphabetic := is_ascii_alphabetic;
  is_numeric := is_ascii_digit;
  MIN_UTC := (-8334601228800 * 1000 * nanos_per_milli)%Z;
  chrono_format when _ := show (Z.to_N when);
  chrono_format_local when _ := show (Z.to_N when);
  parse_from_str text _ := parse_i64 text;
  parse_from_rfc3339 text := parse_i64 text;
|}.

Lemma toy_ascii_laws : @AsciiLaws toy_platform.
Proof. by constructor. Qed.

Definition toy_policy : SecretPolicy := {|
  redact_preview_line _ _ := None;
  allows_transcript _ _ := true;
|}.
