(* ===== verification/Sts.v ===== *)
(** * Sts: strict transport security (src/client/src/session/sts.rs)

    The [sts] capability value and the policy cache kept for the life of the process
    ([MemoryStsStore]). The hash comes from a crate and the case mapping from the platform. *)

From S2P Require Import Prelude Text SessionTypes OrdMap Platform Scram.

Record StsAdvertisement := mkAdvertisement { adv_port : option N; duration_seconds : option Z }.
#[export] Instance advertisement_eta : Eta StsAdvertisement := fun a =>
  mkAdvertisement (adv_port a) (duration_seconds a).
Definition empty_advertisement : StsAdvertisement := mkAdvertisement None None.

Record StsCached := mkCached { cached_port : N; cached_duration : Z; expiry_epoch_seconds : Z }.
#[export] Instance cached_eta : Eta StsCached := fun c =>
  mkCached (cached_port c) (cached_duration c) (expiry_epoch_seconds c).

(** [token_name] and [token_value] of sts.rs and of presence.rs: the text before and after
    the first equals sign. *)
Definition name_of (token : str) : str :=
  match split_once (N.eqb (chr "=")) token with Some (name, _) => name | None => token end.
Definition value_of (token : str) : str :=
  match split_once (N.eqb (chr "=")) token with Some (_, value) => value | None => [] end.

Definition parse_port (raw : str) : option N :=
  if negb (forallb is_ascii_digit (as_bytes raw)) then None
  else let? port := parse_unsigned u16_max raw in if 1 <=? port then Some port else None.

(** [raw.parse::<i64>().ok().filter(|&seconds| seconds >= 0)] *)
Definition parse_duration (raw : str) : option Z :=
  let? seconds := parse_i64 raw in if (0 <=? seconds)%Z then Some seconds else None.

Definition sts_part (a : StsAdvertisement) (part : str) : StsAdvertisement :=
  let raw := value_of part in
  let key := ascii_lower (name_of part) in
  if str_eqb key (lit "port") && bool_decide (adv_port a = None) then a <| adv_port := parse_port raw |>
  else if str_eqb key (lit "duration") && bool_decide (duration_seconds a = None)
  then a <| duration_seconds := parse_duration raw |>
  else a.

Definition parse_sts_value (value : str) : StsAdvertisement :=
  foldl sts_part empty_advertisement
    (base.filter (fun part => part <> []) (split_on (N.eqb (chr ",")) value)).

Definition parse_sts_advertisement (tokens : list str) : option StsAdvertisement :=
  foldl (fun adv token =>
      if eq_ignore_ascii_case (name_of token) (lit "sts") then Some (parse_sts_value (value_of token)) else adv)
    None tokens.

(** ** The cache *)
Section Store.
Context `{platform : Platform} `{crypto : Crypto}.

Definition hex_digit (n : N) : char := if n <? 10 then 48 + n else 87 + n.

(** [format!("{byte:02x}")] *)
Definition hex_byte (b : byte) : str := [hex_digit (b / 16); hex_digit (b mod 16)].

Definition sts_group_key (host : str) : option str :=
  match to_lowercase (trim host) with
  | [] => None
  | folded => Some (mbind hex_byte (sha256 (as_bytes folded)))
  end.

(** 64 lowercase hexadecimal digits. *)
Definition is_hex (b : byte) : bool := is_ascii_digit b || ((chr "a" <=? b) && (b <=? chr "f")).
Definition is_sts_group_key (key : str) : bool := (str_len key =? 64) && forallb is_hex (as_bytes key).

(** Every key a host gets is one the store accepts, for a hash of 32 bytes. *)
Lemma sts_group_key_accepted host key :
  (forall l, length (sha256 l) = 32%nat /\ Forall (fun b => b < 256) (sha256 l)) ->
  sts_group_key host = Some key -> is_sts_group_key key = true.
Proof.
  intros Hsha. unfold sts_group_key. destruct (to_lowercase (trim host)) as [|c s] eqn:E; [done|]. intros [= <-].
  destruct (Hsha (as_bytes (c :: s))) as [Hlen Hall]. set (digest := sha256 (as_bytes (c :: s))) in *. clearbody digest.
  assert (Hhex : forall n, n < 16 -> is_hex (hex_digit n) = true).
  { intros n Hn. unfold is_hex, is_ascii_digit, hex_digit. chars. destruct (N.ltb_spec n 10); lia. }
  assert (Hkey : forallb is_hex (mbind hex_byte digest) = true /\ length (mbind hex_byte digest) = (2 * length digest)%nat).
  { clear Hlen. induction Hall as [|b digest Hb Hall [IH1 IH2]]; [done|].
    change (mbind hex_byte (b :: digest)) with (hex_byte b ++ mbind hex_byte digest).
    rw forallb_app IH1 length_app IH2. cbn. rw !Hhex; [apply N.Div0.div_lt_upper_bound; lia|by apply N.mod_lt|].
    split; [done|lia]. }
  destruct Hkey as [H1 H2]. unfold is_sts_group_key, str_len, blen. rw as_bytes_ascii.
  - eapply forallb_impl; [|exact H1]. intros b. unfold is_hex, is_ascii_digit, is_ascii. chars. lia.
  - by rw H1 H2 Hlen.
Qed.

(** [i64::saturating_add] *)
Definition saturating_add (a b : Z) : Z := Z.max i64_min (Z.min i64_max (a + b)%Z).

Definition StsStore : Type := btree StsCached.

Definition sts_clear (s : StsStore) (host : str) : StsStore :=
  match sts_group_key host with Some key => bt_remove key s | None => s end.

(** [lookup]: an expired entry is dropped. *)
Definition sts_lookup (s : StsStore) (host : str) (now : Time) : StsStore * option StsCached :=
  let?? key := sts_group_key host else (s, None) in
  let?? cached := bt_get key s else (s, None) in
  if (expiry_epoch_seconds cached <=? timestamp now)%Z then (bt_remove key s, None)
  else (s, Some cached).

Definition sts_store (s : StsStore) (host : str) (port : N) (duration : Z) (now : Time) : StsStore :=
  if (duration =? 0)%Z then sts_clear s host
  else let?? key := sts_group_key host else s in
       if port =? 0 then s
       else bt_insert key (mkCached port duration (saturating_add (timestamp now) duration)) s.

Definition sts_refresh (s : StsStore) (host : str) (duration : Z) (now : Time) : StsStore :=
  let?? key := sts_group_key host else s in
  let?? cached := bt_get key s else s in
  if (cached_duration cached =? duration)%Z
  then bt_insert key (cached <| expiry_epoch_seconds := saturating_add (timestamp now) duration |>) s
  else s.

(** *** What a lookup finds *)

Inductive sts_op :=
| StsStoreOp (host : str) (port : N) (duration : Z) (now : Time)
| StsRefreshOp (host : str) (duration : Z) (now : Time)
| StsClearOp (host : str)
| StsLookupOp (host : str) (now : Time).

Definition run_sts_op (s : StsStore) (op : sts_op) : StsStore :=
  match op with
  | StsStoreOp host port duration now => sts_store s host port duration now
  | StsRefreshOp host duration now => sts_refresh s host duration now
  | StsClearOp host => sts_clear s host
  | StsLookupOp host now => (sts_lookup s host now).1
  end.

(** Every entry names a port and a duration, with an expiry that was within range. *)
Definition sts_entry_ok (entry : str * StsCached) : Prop :=
  cached_port entry.2 <> 0 /\ cached_duration entry.2 <> 0%Z /\
  (i64_min <= expiry_epoch_seconds entry.2 <= i64_max)%Z.

Lemma saturating_add_range a b : (i64_min <= saturating_add a b <= i64_max)%Z.
Proof. unfold saturating_add, i64_min, i64_max. lia. Qed.

Lemma run_sts_op_ok s op : Forall sts_entry_ok s -> Forall sts_entry_ok (run_sts_op s op).
Proof.
  intros Hs. assert (Hclear : forall host, Forall sts_entry_ok (sts_clear s host)).
  { intros host. unfold sts_clear. case_match; [by apply bt_remove_Forall|done]. }
  destruct op as [host port duration now|host duration now|host|host now]; cbn [run_sts_op]; [| |done|].
  - unfold sts_store. destruct (Z.eqb_spec duration 0); [done|]. case_match; [|done].
    destruct (N.eqb_spec port 0); [done|]. apply bt_insert_Forall; [|done].
    split_and!; try done; apply saturating_add_range.
  - unfold sts_refresh. case_match; [|done]. destruct (bt_get _ s) as [cached|] eqn:E; [|done].
    case_match; [|done]. apply bt_insert_Forall; [|done].
    apply bt_get_elem in E. rw Forall_forall in Hs. destruct (Hs _ E) as (H1 & H2 & _).
    split_and!; try done; apply saturating_add_range.
  - unfold sts_lookup. repeat case_match; try done. by apply bt_remove_Forall.
Qed.

(** The policy a store leaves for its host, at any spelling with the same folded form. *)
Lemma sts_lookup_store s host host' port duration now later key :
  sts_group_key host = Some key -> sts_group_key host' = Some key ->
  duration <> 0%Z -> port <> 0 ->
  (sts_lookup (sts_store s host port duration now) host' later).2 =
    (let expiry := saturating_add (timestamp now) duration in
     if (expiry <=? timestamp later)%Z then None else Some (mkCached port duration expiry)).
Proof.
  intros Hk Hk' Hd Hp. unfold sts_store, sts_lookup. rw (proj2 (Z.eqb_neq _ _) Hd) Hk.
  rw (proj2 (N.eqb_neq _ _) Hp) Hk' bt_get_insert. cbn zeta. cbn [expiry_epoch_seconds]. by case_match.
Qed.

(** a policy stored over TLS for a host is what a lookup of that host finds, whatever its
    letter case or surrounding blanks, exactly until the (saturated) expiry instant; from then
    on the lookup finds nothing and drops it, and a host with another key is not affected. A
    zero duration or a clear removes the policy at once. *)
Theorem sts_cache_spec s host host' other port duration now later key key' :
  sts_group_key host = Some key -> sts_group_key host' = Some key ->
  sts_group_key other = Some key' -> key <> key' ->
  duration <> 0%Z -> port <> 0 ->
  let stored := sts_store s host port duration now in
  let expiry := saturating_add (timestamp now) duration in
  (sts_lookup stored host' later).2
    = (if (expiry <=? timestamp later)%Z then None else Some (mkCached port duration expiry)) /\
  ((expiry <= timestamp later)%Z -> bt_get key (sts_lookup stored host' later).1 = None) /\
  (sts_lookup stored other later).2 = (sts_lookup s other later).2 /\
  (sts_lookup (sts_clear stored host') host later).2 = None /\
  (sts_lookup (sts_store stored host' port 0 now) host later).2 = None.
Proof.
  intros Hk Hk' Ho Hne Hd Hp stored expiry.
  assert (Hclear : (sts_lookup (sts_clear stored host') host later).2 = None).
  { unfold sts_clear, sts_lookup. by rw Hk' Hk bt_get_remove. }
  split_and!; [by apply (sts_lookup_store s host host' port duration now later key)| | |done|done].
  - intros Hexp. unfold stored, sts_lookup, sts_store.
    rw (proj2 (Z.eqb_neq _ _) Hd) Hk (proj2 (N.eqb_neq _ _) Hp) Hk' bt_get_insert.
    cbn [expiry_epoch_seconds]. fold expiry. rw (proj2 (Z.leb_le _ _) Hexp). apply bt_get_remove.
  - unfold stored, sts_lookup, sts_store.
    rw (proj2 (Z.eqb_neq _ _) Hd) Hk (proj2 (N.eqb_neq _ _) Hp) Ho bt_get_insert_ne //.
    by repeat case_match.
Qed.
End Store.

Lemma sts_cache_spec_witness :
  let lookup := @sts_lookup toy_platform toy_crypto in
  let stored := @sts_store toy_platform toy_crypto [] (lit "irc.example") 6697 60 0 in
  (lookup stored (lit " IRC.Example ") (from_secs 59)).2 = Some (mkCached 6697 60 60) /\
  (lookup stored (lit "irc.example") (from_secs 60)).2 = None.
Proof.
  pose proof (@sts_cache_spec toy_platform toy_crypto [] (lit "irc.example") (lit " IRC.Example ") (lit "b")
    6697 60%Z 0%Z (from_secs 59) _ _ eq_refl eq_refl eq_refl ltac:(by vm_compute) ltac:(done) ltac:(done)) as (H1 & _).
  split; [etransitivity; [exact H1|by vm_compute]|by vm_compute].
Defined.

(** ** The advertisement *)

(** A port in range, a duration that is not negative. *)
Definition advertisement_ok (a : StsAdvertisement) : Prop :=
  (forall p, adv_port a = Some p -> 1 <= p <= 65535) /\
  (forall d, duration_seconds a = Some d -> (0 <= d <= i64_max)%Z).

Lemma parse_i64_range s z : parse_i64 s = Some z -> (i64_min <= z <= i64_max)%Z.
Proof. unfold parse_i64. intros H. repeat case_match; simplify_eq; lia. Qed.

Lemma sts_part_ok a part : advertisement_ok a -> advertisement_ok (sts_part a part).
Proof.
  intros [H1 H2]. unfold sts_part. cbv zeta. case_match; [|case_match; [|done]]; split; cbn; try done.
  - intros p. unfold parse_port. case_match; [done|].
    destruct (parse_unsigned _ _) as [n|] eqn:E; [|done]. apply parse_unsigned_le in E.
    destruct (N.leb_spec 1 n); [|done]. intros [= <-]. unfold u16_max in E. lia.
  - intros d. unfold parse_duration. destruct (parse_i64 _) as [z|] eqn:E; [|done].
    apply parse_i64_range in E. case_match; [|done]. intros [= <-]. lia.
Qed.

Lemma show_digits n : forallb is_ascii_digit (show n) = true.
Proof.
  unfold show. generalize (S (N.to_nat (N.size n))) as fuel. intros fuel. revert n.
  induction fuel as [|fuel IH]; intros n; [done|]. cbn [show_fuel]. destruct (N.ltb_spec n 10).
  - cbn. unfold is_ascii_digit. lia.
  - rw forallb_app IH. cbn. unfold is_ascii_digit. pose proof (N.mod_lt n 10 ltac:(done)). lia.
Qed.

Lemma show_nonempty n : show n <> [].
Proof. intros E. pose proof (parse_unsigned_show n n ltac:(lia)) as H. by rw E in H. Qed.

Lemma digits_value_show n : digits_value 0 (show n) = Some n.
Proof.
  pose proof (parse_unsigned_show n n ltac:(lia)) as H. revert H. unfold parse_unsigned.
  pose proof (show_digits n) as Hd. destruct (show n) as [|c s]; [done|].
  assert ((c =? chr "+") = false) as ->.
  { apply andb_true_iff in Hd as [Hc _]. unfold is_ascii_digit in Hc. chars. lia. }
  destruct (digits_value 0 (c :: s)); [|done]. case_match; [|done]. by intros [= ->].
Qed.

Lemma parse_port_show p : 1 <= p <= 65535 -> parse_port (show p) = Some p.
Proof.
  intros Hp. unfold parse_port. pose proof (show_digits p) as Hd.
  rw as_bytes_ascii; [eapply forallb_impl; [apply digit_ascii|exact Hd]|].
  rw Hd parse_unsigned_show; [unfold u16_max; lia|]. cbn [negb]. destruct (N.leb_spec 1 p); [done|lia].
Qed.

Lemma parse_duration_show d : (Z.of_N d <= i64_max)%Z -> parse_duration (show d) = Some (Z.of_N d).
Proof.
  intros Hle. unfold parse_duration, parse_i64. pose proof (show_digits d) as Hd.
  pose proof (digits_value_show d) as Hv. pose proof (show_nonempty d) as Hne. destruct (show d) as [|c s]; [done|].
  assert (Hc : is_ascii_digit c = true) by (by apply andb_true_iff in Hd as [? _]).
  unfold is_ascii_digit in Hc. chars.
  destruct (N.eqb_spec c 43); [lia|]. destruct (N.eqb_spec c 45); [lia|]. rw Hv.
  destruct (Z.leb_spec i64_min (Z.of_N d)); [|unfold i64_min in *; lia].
  destruct (Z.leb_spec (Z.of_N d) i64_max); [|lia]. cbn [andb].
  destruct (Z.leb_spec 0 (Z.of_N d)); [done|lia].
Qed.

Lemma digits_no_mark mark s :
  is_ascii_digit mark = false -> forallb is_ascii_digit s = true ->
  forallb (fun c => negb (mark =? c)) s = true.
Proof.
  intros Hm. apply forallb_impl. intros c Hc. destruct (N.eqb_spec mark c) as [->|]; [|done]. congruence.
Qed.

Lemma show_no_mark mark n :
  is_ascii_digit mark = false -> forallb (fun c => negb (mark =? c)) (show n) = true.
Proof. intros Hm. apply digits_no_mark; [done|apply show_digits]. Qed.

Lemma split_once_at mark a b :
  forallb (fun c => negb (mark =? c)) a = true -> split_once (N.eqb mark) (a ++ mark :: b) = Some (a, b).
Proof.
  intros Ha. rw split_once_position position_here //; [apply N.eqb_refl|]. cbn.
  rw take_app_length. do 2 f_equal. induction a as [|c a IH]; [done|]. apply IH. by apply andb_true_iff in Ha as [_ ?].
Qed.

Lemma sts_part_port p d :
  1 <= p <= 65535 ->
  sts_part (mkAdvertisement None d) (lit "port" ++ chr "=" :: show p) = mkAdvertisement (Some p) d.
Proof.
  intros Hp. unfold sts_part, name_of, value_of. rw split_once_at //. cbv beta zeta match.
  change (str_eqb (ascii_lower (lit "port")) (lit "port")) with true.
  rw bool_decide_eq_true_2 // parse_port_show //.
Qed.

Lemma sts_part_duration p d :
  (Z.of_N d <= i64_max)%Z ->
  sts_part (mkAdvertisement p None) (lit "duration" ++ chr "=" :: show d) = mkAdvertisement p (Some (Z.of_N d)).
Proof.
  intros Hd. unfold sts_part, name_of, value_of. rw split_once_at //. cbv beta zeta match.
  change (str_eqb (ascii_lower (lit "duration")) (lit "port")) with false.
  change (str_eqb (ascii_lower (lit "duration")) (lit "duration")) with true.
  rw (bool_decide_eq_true_2 (duration_seconds _ = None)) // parse_duration_show //.
Qed.

(** the port and the duration a server advertises are read back exactly, over the whole range
    of valid ports and durations; and whatever tokens arrive, an advertisement's port lies in
    1..65535 and its duration is never negative. *)
Theorem sts_advertisement_spec tokens :
  (forall a, parse_sts_advertisement tokens = Some a -> advertisement_ok a) /\
  (forall port duration, 1 <= port <= 65535 -> (Z.of_N duration <= i64_max)%Z ->
   parse_sts_advertisement (tokens ++ [lit "sts=port=" ++ show port ++ lit ",duration=" ++ show duration])
   = Some (mkAdvertisement (Some port) (Some (Z.of_N duration)))).
Proof.
  split.
  - unfold parse_sts_advertisement. enough (forall acc a, (forall a, acc = Some a -> advertisement_ok a) ->
      foldl (fun adv token => if eq_ignore_ascii_case (name_of token) (lit "sts")
        then Some (parse_sts_value (value_of token)) else adv) acc tokens = Some a -> advertisement_ok a) as Hgen.
    { intros a. by apply Hgen. }
    induction tokens as [|token tokens IH]; intros acc a Hacc; [by apply Hacc|]. cbn [foldl].
    apply IH. intros a'. case_match; [|by apply Hacc]. intros [= <-].
    unfold parse_sts_value. apply (foldl_invariant sts_part advertisement_ok); [by intros; apply sts_part_ok|].
    by split.
  - intros port duration Hp Hd. unfold parse_sts_advertisement. rw foldl_app. cbn [foldl].
    set (list := lit "port=" ++ show port ++ lit ",duration=" ++ show duration).
    change (lit "sts=port=" ++ _) with (lit "sts" ++ chr "=" :: list).
    unfold name_of, value_of. rw split_once_at //. cbn [fst snd]. f_equal.
    unfold parse_sts_value. subst list.
    change (lit "port=" ++ show port ++ lit ",duration=" ++ show duration)
      with ((lit "port" ++ chr "=" :: show port) ++ chr "," :: lit "duration" ++ chr "=" :: show duration).
    rw split_on_app //; [by rw forallb_app /= (show_no_mark (chr ",") port)|].
    rw split_on_id; [by rw forallb_app /= (show_no_mark (chr ",") duration)|].
    rw !filter_cons_True //. rw filter_nil. cbn [foldl].
    by rw sts_part_port // sts_part_duration.
Qed.

Lemma sts_advertisement_spec_witness :
  parse_sts_advertisement ([] ++ [lit "sts=port=" ++ show 6697 ++ lit ",duration=" ++ show 86400])
  = Some (mkAdvertisement (Some 6697) (Some 86400%Z)).
Proof.
  destruct (sts_advertisement_spec []) as [_ H]. apply (H 6697 86400); [lia|]. vm_compute. by intros [=].
Defined.
