(* ===== verification/Ctcp.v ===== *)
(** * Ctcp: CTCP payloads and service identities
    (src/client/src/irc/ctcp.rs, src/client/src/irc/servicenick.rs) *)

From S2P Require Import Prelude Text Message ServerFeatures SessionTypes Platform.

(** ** Payloads *)

Definition DELIMITER : char := 1.
Definition DAY_MILLIS : Z := (24 * 60 * 60 * 1000)%Z.

Record CtcpRequest := mkCtcp { ctcp_command : str; argument : str }.
#[export] Instance CtcpRequest_eq_dec : EqDecision CtcpRequest.
Proof. solve_decision. Defined.

Section Ctcp.
Context `{platform : Platform}.

Definition parse_ctcp_request (body : str) : option CtcpRequest :=
  let? rest := strip_prefix [DELIMITER] body in
  let? payload := strip_suffix [DELIMITER] rest in
  let '(raw_command, argument) :=
    match split_once (N.eqb (chr " ")) payload with Some split => split | None => (payload, []) end in
  match to_uppercase (trim raw_command) with
  | [] => None
  | command => Some (mkCtcp command argument)
  end.

Definition ctcp_payload (request : CtcpRequest) : str :=
  let body :=
    if is_empty (argument request) then ctcp_command request
    else ctcp_command request ++ [chr " "] ++ argument request in
  [DELIMITER] ++ body ++ [DELIMITER].

Definition ctcp_version_reply_text : str := lit "https://omairc.app".

(** [i64::checked_sub] *)
Definition checked_sub (a b : Z) : option Z :=
  let d := (a - b)%Z in if (i64_min <=? d)%Z && (d <=? i64_max)%Z then Some d else None.

(** The lag a PING argument gives, when it is within a day. *)
Definition ping_lag (argument : str) (now_unix_millis : Z) : option Z :=
  let? sent_millis := parse_i64 argument in
  let? lag := checked_sub now_unix_millis sent_millis in
  if (0 <=? lag)%Z && (lag <? DAY_MILLIS)%Z then Some lag else None.

Definition format_ctcp_reply_text (command nick argument : str) (now_unix_millis : Z) : str :=
  if str_eqb command (lit "PING") then
    match ping_lag argument now_unix_millis with
    | Some lag => lit "PING reply from " ++ nick ++ lit ": " ++ show (Z.to_N lag) ++ lit " ms"
    | None =>
        if is_empty argument then lit "PING reply from " ++ nick
        else lit "PING reply from " ++ nick ++ lit ": " ++ argument
    end
  else if is_empty argument then command ++ lit " reply from " ++ nick
  else command ++ lit " reply from " ++ nick ++ lit ": " ++ argument.

Lemma strip_suffix_app s mark : strip_suffix [mark] (s ++ [mark]) = Some s.
Proof.
  unfold strip_suffix. rw rev_app_distr /= N.eqb_refl /=. f_equal. apply rev_involutive.
Qed.

(** A command CTCP can carry: ASCII capitals and the like, no blank. *)
Definition ctcp_command_ok (command : str) : bool :=
  negb (is_empty command)
  && forallb (fun c => is_ascii c && negb (is_whitespace c) && negb (is_ascii_lowercase c)) command.

Lemma trim_no_whitespace s : forallb (fun c => negb (is_whitespace c)) s = true -> trim s = s.
Proof.
  intros H. assert (Hskip : forall l, forallb (fun c => negb (is_whitespace c)) l = true ->
    skip_while is_whitespace l = l).
  { intros l Hl. apply skip_while_id. intros x l' ->. apply andb_true_iff in Hl as [Hx _].
    by apply negb_true_iff. }
  unfold trim, skip_while_end. rw (Hskip s H) Hskip; [|apply rev_involutive].
  apply forallb_forall. intros x Hx%in_rev. by apply (proj1 (forallb_forall _ _) H).
Qed.

Lemma ascii_upper_id s : forallb (fun c => negb (is_ascii_lowercase c)) s = true -> ascii_upper s = s.
Proof.
  induction s as [|c s IH]; [done|]. intros [Hc Hs]%andb_true_iff. unfold ascii_upper in *. cbn [fmap list_fmap].
  rw IH //. f_equal. unfold to_ascii_uppercase. by rw (proj1 (negb_true_iff _) Hc).
Qed.

(** reading back a CTCP payload gives the command and the argument it was built from,
    the argument with every space it holds. *)
Theorem ctcp_roundtrip `{!AsciiLaws} request :
  ctcp_command_ok (ctcp_command request) = true ->
  parse_ctcp_request (ctcp_payload request) = Some request.
Proof.
  destruct request as [command arg]. unfold ctcp_command_ok. cbn [ctcp_command].
  intros [Hne Hall]%andb_true_iff.
  assert (Hascii : forallb is_ascii command = true) by (eapply forallb_impl; [|exact Hall]; cbn; lia).
  assert (Hws : forallb (fun c => negb (is_whitespace c)) command = true)
    by (eapply forallb_impl; [|exact Hall]; cbn; lia).
  assert (Hlow : forallb (fun c => negb (is_ascii_lowercase c)) command = true)
    by (eapply forallb_impl; [|exact Hall]; cbn; lia).
  assert (Hspace : forallb (fun c => negb (chr " " =? c)) command = true).
  { eapply forallb_impl; [|exact Hws]. intros c Hc. destruct (N.eqb_spec (chr " ") c) as [<-|]; done. }
  assert (Hread : to_uppercase (trim command) = command).
  { rw trim_no_whitespace // to_uppercase_ascii // ascii_upper_id //. }
  unfold parse_ctcp_request, ctcp_payload. cbn [app strip_prefix ctcp_command argument]. rw N.eqb_refl.
  rw strip_suffix_app. destruct arg as [|a arg]; cbn [is_empty].
  - rw split_once_position. rw (proj2 (position_None _ _) Hspace). cbn [fmap option_fmap option_map].
    rw Hread. by destruct command.
  - rw split_once_position (position_here _ command (chr " ")) //. cbn [fmap option_fmap option_map].
    rw take_app_length Hread (cons_middle (chr " ") command) app_assoc drop_app_length';
      [rw length_app /=; lia|]. by destruct command.
Qed.
End Ctcp.

Lemma ctcp_roundtrip_witness :
  let request := mkCtcp (lit "PING") (lit " 42 x") in
  @parse_ctcp_request toy_platform (ctcp_payload request) = Some request.
Proof. apply (@ctcp_roundtrip toy_platform toy_ascii_laws (mkCtcp (lit "PING") (lit " 42 x"))). by vm_compute. Defined.

(** ** Service identities *)

Definition is_network_notice_target (target : str) : bool :=
  is_empty target || str_eqb target (lit "*") || eq_ignore_ascii_case target (lit "AUTH").

Definition nick_is_routable (nick : str) : bool :=
  negb (is_empty nick)
  && negb (existsb (fun mark => (mark <? 0x20) || existsb (N.eqb mark) (lit " ,*?!@.$:")) nick).

Definition can_start_nick (mark : char) : bool :=
  is_ascii_alphabetic mark || existsb (N.eqb mark) (lit "-[]\`_^{|}").

Definition looks_like_channel (target channel_types : str) : bool :=
  match target with
  | [] => false
  | mark :: _ =>
      if negb (is_empty channel_types) then existsb (N.eqb mark) channel_types
      else negb (can_start_nick mark)
  end.

Definition ends_with_fold (text suffix : str) : bool :=
  let b := as_bytes text in
  let n := length (as_bytes suffix) in
  (n <=? length b)%nat && eq_ignore_ascii_case (drop (length b - n) b) (as_bytes suffix).

Definition is_service_identity `{Platform} (nick host channel_types : str) : bool :=
  if negb (is_empty nick) && negb (looks_like_channel nick channel_types) && ends_with_fold nick (lit "serv")
  then true
  else if is_empty host then false
  else let folded := to_lowercase host in
       str_eqb folded (lit "services") || bool_decide (is_Some (strip_prefix (lit "services.") folded)).

Definition is_service_source `{Platform} (message : IrcMessage) (features : IrcServerFeatures) : bool :=
  match msg_prefix message with
  | None => false
  | Some prefix =>
      is_service_identity (wire_text (prefix_nick_bytes prefix)) (wire_text (prefix_host prefix))
        (channel_types features)
  end.

Example service_identity_example :
  let serv := @is_service_identity toy_platform in
  serv (lit "NickServ") [] [] = true /\ serv (lit "#serv") [] (lit "#&") = false
  /\ serv (lit "bob") (lit "Services.Example.Net") [] = true /\ serv (lit "bob") (lit "servicesx.net") [] = false.
Proof. by vm_compute. Qed.
