(* ===== verification/Metadata.v ===== *)
(** * Metadata: the draft/metadata-2 vocabulary (src/client/src/irc/presence.rs, first part) *)

From S2P Require Import Prelude Text SessionTypes Platform Sts.

Definition MAXIMUM_VALUE_BYTES : N := 512.
Definition STATUS_KEY : str := lit "status".
Definition AVATAR_KEY : str := lit "avatar".
Definition BOT_KEY : str := lit "bot".
Definition DISPLAY_NAME_KEY : str := lit "display-name".
Definition PRONOUNS_KEY : str := lit "pronouns".
Definition HOMEPAGE_KEY : str := lit "homepage".
Definition COLOR_KEY : str := lit "color".

Definition SUBSCRIBED_KEYS : list str :=
  [STATUS_KEY; AVATAR_KEY; BOT_KEY; DISPLAY_NAME_KEY; PRONOUNS_KEY; HOMEPAGE_KEY; COLOR_KEY].

Record MetadataCapability := mkMetadata { max_subs : option N; max_value_bytes : option N }.
#[export] Instance metadata_eta : Eta MetadataCapability := fun m => mkMetadata (max_subs m) (max_value_bytes m).
Definition default_metadata : MetadataCapability := mkMetadata None None.

(** [take(limit)] with the limit capped at the list, so that a huge one stays binary. *)
Definition take_n {A} (n : N) (l : list A) : list A := take (N.to_nat (N.min n (blen l))) l.

Definition subscription_keys (max_subs : option N) : list str :=
  match max_subs with
  | None => SUBSCRIBED_KEYS
  | Some limit => if limit =? 0 then [] else take_n limit SUBSCRIBED_KEYS
  end.

Definition canonical_key (key : str) : option str :=
  List.find (fun known => eq_ignore_ascii_case known key) SUBSCRIBED_KEYS.

Definition is_known_key (key : str) : bool := bool_decide (is_Some (canonical_key key)).

(** ** UTF-16 *)

(** [str::encode_utf16] *)
Definition utf16_char (c : char) : list N :=
  if c <? 0x10000 then [c] else [0xD800 + (c - 0x10000) / 1024; 0xDC00 + (c - 0x10000) mod 1024].
Definition encode_utf16 (s : str) : list N := mbind utf16_char s.

Definition is_high (u : N) : bool := (0xD800 <=? u) && (u <=? 0xDBFF).
Definition is_low (u : N) : bool := (0xDC00 <=? u) && (u <=? 0xDFFF).

(** [String::from_utf16_lossy]: a surrogate without its partner reads as U+FFFD. *)
Fixpoint from_utf16_lossy (units : list N) : str :=
  match units with
  | [] => []
  | u :: rest =>
      if is_high u then
        match rest with
        | v :: rest' =>
            if is_low v then (0x10000 + (u - 0xD800) * 1024 + (v - 0xDC00)) :: from_utf16_lossy rest'
            else 0xFFFD :: from_utf16_lossy rest
        | [] => [0xFFFD]
        end
      else (if is_low u then 0xFFFD else u) :: from_utf16_lossy rest
  end.

(** The loop of [clamped_to]: [end_] falls until the text fits or nothing is left. *)
Fixpoint clamp_loop (units : list N) (end_ : nat) (max_bytes : N) : str :=
  let text := from_utf16_lossy (take end_ units) in
  match end_ with
  | O => text
  | S end' => if str_len text <=? max_bytes then text else clamp_loop units end' max_bytes
  end.

Definition clamped_to (value : str) (max_bytes : N) : str :=
  if max_bytes =? 0 then []
  else let units := encode_utf16 value in clamp_loop units (length units) max_bytes.

Definition clamped (value : str) : str := clamped_to value MAXIMUM_VALUE_BYTES.

Definition effective_max_value_bytes (advertised : option N) : N :=
  match advertised with
  | Some limit => if limit <? MAXIMUM_VALUE_BYTES then limit else MAXIMUM_VALUE_BYTES
  | None => MAXIMUM_VALUE_BYTES
  end.

(** [parse_non_negative]: an [i64] that fits a [usize]. *)
Definition parse_non_negative (raw : str) : option N :=
  if is_empty raw then None
  else let? value := parse_i64 (trim raw) in if (value <? 0)%Z then None else Some (Z.to_N value).

Section Metadata.
Context `{platform : Platform}.

Definition metadata_part (current : MetadataCapability) (part : str) : MetadataCapability :=
  if is_empty part then current
  else
    let key := to_lowercase (name_of part) in
    match parse_non_negative (value_of part) with
    | None => current
    | Some value =>
        if str_eqb key (lit "max-subs") && bool_decide (max_subs current = None)
        then current <| max_subs := Some value |>
        else if str_eqb key (lit "max-value-bytes") && bool_decide (max_value_bytes current = None)
        then current <| max_value_bytes := Some value |>
        else current
    end.

Definition parse_metadata_capability (tokens : list str) : option MetadataCapability :=
  foldl (fun result token =>
      if negb (eq_ignore_ascii_case (name_of token) (lit "draft/metadata-2")) then result
      else Some (foldl metadata_part default_metadata (split_on (N.eqb (chr ",")) (value_of token))))
    None tokens.
End Metadata.

(** ** Clamping *)

Lemma from_utf16_char c rest :
  is_scalar c = true -> from_utf16_lossy (utf16_char c ++ rest) = c :: from_utf16_lossy rest.
Proof.
  intros Hc. unfold is_scalar in Hc. unfold utf16_char. destruct (N.ltb_spec c 0x10000) as [Hs|Hs].
  - cbn [app from_utf16_lossy]. destruct (is_high c) eqn:Hh; [unfold is_high in Hh; lia|].
    destruct (is_low c) eqn:Hl; [unfold is_low in Hl; lia|done].
  - set (d := c - 0x10000). assert (Hd : d < 1024 * 1024) by (unfold d; lia).
    assert (Hdiv : d / 1024 < 1024) by (apply N.Div0.div_lt_upper_bound; lia).
    pose proof (N.mod_lt d 1024 ltac:(done)) as Hmod. pose proof (N.div_mod d 1024 ltac:(done)) as Hdm.
    cbn [app from_utf16_lossy].
    assert (is_high (0xD800 + d / 1024) = true) as -> by (unfold is_high; lia).
    assert (is_low (0xDC00 + d mod 1024) = true) as -> by (unfold is_low; lia).
    f_equal. unfold d in *. lia.
Qed.

Lemma from_utf16_encode s : forallb is_scalar s = true -> from_utf16_lossy (encode_utf16 s) = s.
Proof.
  induction s as [|c s IH]; [done|]. intros [Hc Hs]%andb_true_iff.
  unfold encode_utf16. cbn [mbind list_bind]. fold (encode_utf16 s). by rw from_utf16_char // IH.
Qed.

Lemma clamp_loop_fits units end_ max_bytes : str_len (clamp_loop units end_ max_bytes) <= max_bytes.
Proof.
  induction end_ as [|end_ IH]; [change (str_len (clamp_loop units 0 max_bytes)) with 0; lia|]. cbn [clamp_loop].
  destruct (N.leb_spec (str_len (from_utf16_lossy (take (S end_) units))) max_bytes); done.
Qed.

(** A loop that stops early had nothing longer that fits. *)
Lemma clamp_loop_longest units end_ max_bytes :
  exists n, (n <= end_)%nat /\ clamp_loop units end_ max_bytes = from_utf16_lossy (take n units) /\
    forall m, (n < m <= end_)%nat -> max_bytes < str_len (from_utf16_lossy (take m units)).
Proof.
  induction end_ as [|end_ (n & Hn & E & Hlong)]; [exists 0%nat; split_and!; [done|done|lia]|].
  cbn [clamp_loop]. destruct (N.leb_spec (str_len (from_utf16_lossy (take (S end_) units))) max_bytes) as [H|H].
  - exists (S end_). split_and!; [done|done|lia].
  - exists n. split_and!; [lia|done|]. intros m Hm. destruct (decide (m = S end_)) as [->|]; [done|].
    apply Hlong. lia.
Qed.

(** a metadata value cut to a byte budget always fits it, a value that fits is not
    changed, and a value that is cut keeps the longest run of UTF-16 units that fits. *)
Theorem clamped_to_spec value max_bytes :
  str_len (clamped_to value max_bytes) <= max_bytes /\
  (forallb is_scalar value = true -> 0 < max_bytes -> str_len value <= max_bytes -> clamped_to value max_bytes = value) /\
  (0 < max_bytes -> exists n, clamped_to value max_bytes = from_utf16_lossy (take n (encode_utf16 value)) /\
    forall m, (n < m <= length (encode_utf16 value))%nat ->
      max_bytes < str_len (from_utf16_lossy (take m (encode_utf16 value)))).
Proof.
  unfold clamped_to. destruct (N.eqb_spec max_bytes 0) as [->|Hne].
  { split_and!; [by vm_compute|lia|lia]. }
  split_and!; [apply clamp_loop_fits| |].
  - intros Hs _ Hfit. set (units := encode_utf16 value).
    assert (Hfull : from_utf16_lossy (take (length units) units) = value) by (rw take_ge //; by apply from_utf16_encode).
    destruct (length units) as [|end_] eqn:El; cbn [clamp_loop]; [done|]. rw Hfull.
    destruct (N.leb_spec (str_len value) max_bytes); [done|lia].
  - intros _. destruct (clamp_loop_longest (encode_utf16 value) (length (encode_utf16 value)) max_bytes)
      as (n & _ & E & Hlong). by exists n.
Qed.
