(* ===== verification/Typing.v ===== *)
(** * Typing: the typing notification and its pace
    (src/client/src/irc/typing.rs, src/client/src/session/typing.rs) *)

From S2P Require Import Prelude Text SessionTypes OrdMap.

Definition TYPING_ACTIVE_HOLD_MS : N := 6000.
Definition TYPING_PAUSED_HOLD_MS : N := 30000.
Definition TYPING_SEND_INTERVAL_MS : N := 3000.

Inductive TypingClock := ClockActive | ClockPaused.
Inductive TypingPhase := Active | Paused | Done.
#[export] Instance TypingPhase_eq_dec : EqDecision TypingPhase.
Proof. solve_decision. Defined.

Definition phase_value (phase : TypingPhase) : str :=
  match phase with Active => lit "active" | Paused => lit "paused" | Done => lit "done" end.

Definition typing_phase_from_tag (value : str) : option TypingPhase :=
  if eq_ignore_ascii_case value (lit "active") then Some Active
  else if eq_ignore_ascii_case value (lit "paused") then Some Paused
  else if eq_ignore_ascii_case value (lit "done") then Some Done
  else None.

Record TypingHint := mkHint { hint_clock : TypingClock; received_at : option Time; display_nick : str }.

#[export] Instance typing_hint_eta : Eta TypingHint := fun h => mkHint (hint_clock h) (received_at h) (display_nick h).

Definition stored_typing_hint (phase : TypingPhase) (received : Time) (display_nick : str) : option TypingHint :=
  match phase with
  | Done => None
  | Paused => Some (mkHint ClockPaused (Some received) display_nick)
  | Active => Some (mkHint ClockActive (Some received) display_nick)
  end.

Definition typing_expires_at (hint : TypingHint) : option Time :=
  let hold_ms := match hint_clock hint with ClockActive => TYPING_ACTIVE_HOLD_MS | ClockPaused => TYPING_PAUSED_HOLD_MS end in
  (fun received => (received + from_millis hold_ms)%Z) <$> received_at hint.

Definition typing_hint_retained (hint : TypingHint) (now : Time) : bool :=
  match typing_expires_at hint with Some expires => (now <? expires)%Z | None => false end.

Definition typing_shows_indicator (hint : TypingHint) (now : Time) : bool := typing_hint_retained hint now.

Definition typing_tagmsg (target : str) (phase : TypingPhase) : option str :=
  if is_empty target || existsb (fun b => (b =? 32) || (b =? 13) || (b =? 10)) (as_bytes target) then None
  else Some (lit "@+typing=" ++ phase_value phase ++ lit " TAGMSG " ++ target ++ [13; 10]).

(** ** The outbound pace *)

Record TargetClock := mkTargetClock {
  last_sent_at : option Time;
  last_phase : TypingPhase;
  suppress_done : bool;
}.
#[export] Instance target_clock_eta : Eta TargetClock := fun c =>
  mkTargetClock (last_sent_at c) (last_phase c) (suppress_done c).
Definition new_target_clock : TargetClock := mkTargetClock None Active false.

(** [TypingPublisher], the clocks by raw target. *)
Definition TypingPublisher : Type := btree TargetClock.

Definition should_send (p : TypingPublisher) (target : str) (phase : TypingPhase) (now : Time) : bool :=
  if decide (phase = Paused) then false
  else match bt_get target p with
  | None => bool_decide (phase = Active)
  | Some clock =>
      if bool_decide (phase = Done) && suppress_done clock then false
      else if bool_decide (phase = Done) && negb (bool_decide (last_phase clock = Active)) then false
      else match last_sent_at clock with
           | Some last => negb (now - last <? from_millis TYPING_SEND_INTERVAL_MS)%Z
           | None => true
           end
  end.

Definition record_sent (p : TypingPublisher) (target : str) (phase : TypingPhase) (now : Time) : TypingPublisher :=
  let clock := default new_target_clock (bt_get target p) in
  let clock := clock <| last_sent_at := Some now |> <| last_phase := phase |> in
  bt_insert target (if decide (phase = Done) then clock else clock <| suppress_done := false |>) p.

Definition publisher_message_sent (p : TypingPublisher) (target : str) : TypingPublisher :=
  bt_insert target ((default new_target_clock (bt_get target p)) <| suppress_done := true |>) p.

(** ** The pace over a run *)

Inductive typing_op := TypingAttempt (target : str) (phase : TypingPhase) (now : Time) | TypingMessage (target : str).

(** One attempt as [send_typing] makes it once the line is built: sent when the gate allows. *)
Definition run_typing_op (st : TypingPublisher * list (str * TypingPhase * Time)) (op : typing_op) :=
  match op with
  | TypingAttempt target phase now =>
      if should_send st.1 target phase now
      then (record_sent st.1 target phase now, st.2 ++ [(target, phase, now)]) else st
  | TypingMessage target => (publisher_message_sent st.1 target, st.2)
  end.

Definition typing_sent (ops : list typing_op) : list (str * TypingPhase * Time) := (foldl run_typing_op ([], []) ops).2.

(** The last phase sent to a target. *)
Definition last_sent (target : str) (sent : list (str * TypingPhase * Time)) : option (TypingPhase * Time) :=
  (fun e => (e.1.2, e.2)) <$> last (base.filter (fun e => e.1.1 = target) sent).

Definition pace_ok (st : TypingPublisher * list (str * TypingPhase * Time)) : Prop :=
  forall target,
    (forall phase at_, last_sent target st.2 = Some (phase, at_) ->
       exists clock, bt_get target st.1 = Some clock /\ last_sent_at clock = Some at_ /\ last_phase clock = phase) /\
    (last_sent target st.2 = None ->
       forall clock, bt_get target st.1 = Some clock -> last_sent_at clock = None /\ suppress_done clock = true).

Lemma last_sent_snoc target sent e :
  last_sent target (sent ++ [e]) = if decide (e.1.1 = target) then Some (e.1.2, e.2) else last_sent target sent.
Proof.
  unfold last_sent. rw filter_app filter_cons. destruct (decide (e.1.1 = target)); [|by rw filter_nil app_nil_r].
  by rw filter_nil last_snoc.
Qed.

Lemma record_sent_clock p target phase now :
  exists clock, bt_get target (record_sent p target phase now) = Some clock /\
    last_sent_at clock = Some now /\ last_phase clock = phase.
Proof. unfold record_sent. rw bt_get_insert. eexists. split; [done|]. by case_decide. Qed.

Lemma run_typing_op_ok st op : pace_ok st -> pace_ok (run_typing_op st op).
Proof.
  intros Hst. destruct op as [target phase now|target]; cbn [run_typing_op].
  - case_match; [|done]. intros other. cbn [fst snd]. rw last_sent_snoc. cbn [fst snd].
    destruct (decide (target = other)) as [<-|Hne].
    + split; [|done]. intros ? ? [= <- <-]. apply record_sent_clock.
    + unfold record_sent. rw bt_get_insert_ne; [done|apply Hst].
  - intros other. cbn [fst snd]. destruct (Hst other) as [H1 H2]. unfold publisher_message_sent.
    destruct (decide (target = other)) as [<-|Hne]; [|by rw bt_get_insert_ne]. rw bt_get_insert. split.
    + intros phase at_ E. destruct (H1 phase at_ E) as (clock & Hc & Ha & Hp). rw Hc. eexists. by split_and!.
    + intros E clock [= <-]. cbn. split; [|done]. destruct (bt_get target st.1) as [clock|]; [|done].
      by apply (H2 E clock).
Qed.

(** The next attempt that is sent, against what was sent to its target before. *)
Definition paced (sent : list (str * TypingPhase * Time)) (target : str) (phase : TypingPhase) (now : Time) : Prop :=
  phase <> Paused /\
  match last_sent target sent with
  | None => phase = Active
  | Some (before, at_) =>
      (from_millis TYPING_SEND_INTERVAL_MS <= now - at_)%Z /\ (phase = Done -> before = Active)
  end.

(** over any run of attempts and sent messages, two notifications to one target are at least
    three seconds apart, the first one to a target is [active], [paused] is never sent, and
    [done] only follows an [active]. *)
Theorem typing_pace before target phase now after :
  typing_sent (before ++ [TypingAttempt target phase now]) = typing_sent before ++ after ->
  after = [] \/ (after = [(target, phase, now)] /\ paced (typing_sent before) target phase now).
Proof.
  unfold typing_sent. rw foldl_app. cbn [foldl run_typing_op].
  assert (Hok : pace_ok (foldl run_typing_op ([], []) before)).
  { apply (foldl_invariant run_typing_op pace_ok); [by intros; apply run_typing_op_ok|].
    intros other. split; [by intros ? ? [=]|]. by intros _ clock [=]. }
  destruct (foldl run_typing_op ([], []) before) as [p sent]. cbn [fst snd].
  destruct (should_send p target phase now) eqn:Hs; cbn [snd].
  2: { intros E. left. rw -{1}(app_nil_r sent) in E. by apply app_inv_head in E. }
  intros E%app_inv_head. right. subst after. split; [done|]. unfold should_send in Hs. unfold paced.
  destruct (Hok target) as [H1 H2]. cbn [fst snd] in *. case_decide as Hp; [done|]. split; [done|].
  destruct (last_sent target sent) as [[phase' at_]|].
  - destruct (H1 phase' at_ eq_refl) as (clock & Hc & Ha & Hph). rw Hc in Hs.
    repeat case_match; try done. simplify_eq. split; [lia|]. intros ->.
    destruct (decide (last_phase clock = Active)) as [E|E]; [done|].
    rw (bool_decide_eq_false_2 _ E) in H0. by rw bool_decide_eq_true_2 in H0.
  - destruct (bt_get target p) as [clock|]; [|by apply bool_decide_eq_true in Hs].
    destruct (H2 eq_refl clock eq_refl) as [_ Hd]. rw Hd in Hs. destruct phase; done.
Qed.

Lemma typing_pace_witness :
  let ops := [TypingAttempt (lit "#a") Active 0] in
  typing_sent (ops ++ [TypingAttempt (lit "#a") Done (from_millis 4000)])
    = typing_sent ops ++ [(lit "#a", Done, from_millis 4000)] /\
  paced (typing_sent ops) (lit "#a") Done (from_millis 4000).
Proof.
  intros ops. split; [vm_compute; reflexivity|].
  destruct (typing_pace ops (lit "#a") Done (from_millis 4000) [(lit "#a", Done, from_millis 4000)]) as [H|[_ H]];
    [vm_compute; reflexivity|discriminate H|exact H].
Defined.
