(* ===== verification/SessionCore.v ===== *)
(** * SessionCore: the state of a session and the operations everything else is built on
    (src/client/src/session/session.rs, send.rs, timers.rs, labels.rs, watchdog.rs, clock.rs)

    [Core] is everything the state machine mutates. One entry point runs on it, appending to
    [events] what its owner will read and to [effects] what its transport will be asked. The
    wall clock, the transport's state and the random bytes are read while an entry point runs:
    [now], [transport_state] and [entropy] hold the values it reads. [clock] is the list of
    the callbacks armed with [Clock::after] that neither fired nor were stopped. *)

From S2P Require Import Prelude Text Message Parser Framer CaseMapping ServerFeatures Capability CommandBuilder Scram.
From S2P Require Import OrdMap SessionTypes Platform Connection Sts Metadata Typing.

(** ** The parts of the state *)

(** *** Timers (timers.rs) *)
Inductive TimerSlot := SlotReconnect | SlotCapability | SlotRegistration | SlotPing | SlotLabel.
#[export] Instance TimerSlot_eq_dec : EqDecision TimerSlot.
Proof. solve_decision. Defined.

(** [self as usize] *)
Definition slot_index (slot : TimerSlot) : nat :=
  match slot with
  | SlotReconnect => 0 | SlotCapability => 1 | SlotRegistration => 2 | SlotPing => 3 | SlotLabel => 4
  end.

(** A callback waiting in the clock: an expiry of a slot, or the retry of a metadata sync. *)
Inductive Callback := SlotTimer (slot : TimerSlot) (id : N) | MetadataSync (target : str).
#[export] Instance Callback_eq_dec : EqDecision Callback.
Proof. solve_decision. Defined.
Record ClockEntry := mkEntry { entry_callback : Callback; entry_delay : Duration }.

(** *** The ping watchdog (watchdog.rs) *)
Inductive PingState := PingOff | PingWatching | PingProbing.
#[export] Instance PingState_eq_dec : EqDecision PingState.
Proof. solve_decision. Defined.
Inductive PingExpiry := ExpiryProbe | ExpiryTimeout | ExpiryNothing.
Definition PING_WATCHDOG_TOKEN : str := lit "omairc-watchdog".

Definition is_watching (p : PingState) : bool := bool_decide (p = PingWatching).
Definition answers_probe (p : PingState) (message : IrcMessage) : bool :=
  bool_decide (p = PingProbing)
  && match last (msg_params message) with
     | Some token => str_eqb token (as_bytes PING_WATCHDOG_TOKEN)
     | None => false
     end.
Definition expire (p : PingState) : PingState * PingExpiry :=
  match p with
  | PingWatching => (PingProbing, ExpiryProbe)
  | PingProbing => (PingProbing, ExpiryTimeout)
  | PingOff => (PingOff, ExpiryNothing)
  end.

(** *** SASL (caps.rs) *)
Record SaslState := mkSasl {
  sasl_requested : bool;
  sasl_pending : bool;
  sasl_succeeded : bool;
  sasl_mechanism : option str;
  exchange_started : bool;
  sasl_scram : option ScramExchange;
}.
#[export] Instance sasl_eta : Eta SaslState := fun s =>
  mkSasl (sasl_requested s) (sasl_pending s) (sasl_succeeded s) (sasl_mechanism s) (exchange_started s) (sasl_scram s).
Definition new_sasl : SaslState := mkSasl false false false None false None.

Definition scram_unverified (s : SaslState) : bool :=
  bool_decide (sasl_mechanism s = Some SCRAM_SHA_256)
  && negb (match sasl_scram s with Some exchange => is_verified exchange | None => false end).

(** *** Batches and history (batch.rs, history.rs) *)
Inductive HistoryRequestKind := Latest | Before | After | AfterTail.
#[export] Instance HistoryRequestKind_eq_dec : EqDecision HistoryRequestKind.
Proof. solve_decision. Defined.

Record OpenBatch := mkOpenBatch {
  replay_root : str;
  open_kind : option HistoryKind;
  collected : HistoryBatch;
  generation : N;
  batch_request_label : str;
  history_ended : bool;
  history_request : option HistoryRequestKind;
}.
#[export] Instance open_batch_eta : Eta OpenBatch := fun b =>
  mkOpenBatch (replay_root b) (open_kind b) (collected b) (generation b) (batch_request_label b)
    (history_ended b) (history_request b).
Definition new_open_batch : OpenBatch := mkOpenBatch [] None empty_batch 0 [] false None.

Record BatchLedger := mkLedger { open : btree OpenBatch; ignored : bset }.
#[export] Instance ledger_eta : Eta BatchLedger := fun l => mkLedger (open l) (ignored l).
Definition new_ledger : BatchLedger := mkLedger [] [].

Record HistoryCursor := mkCursor { cursor_msgid : str; cursor_when : option Time }.
Definition empty_cursor : HistoryCursor := mkCursor [] None.

Record HistoryLedger := mkHistory {
  generations : btree N;
  asked : bset;
  pending : btree N;
  pending_before : bset;
  pending_kind : btree HistoryRequestKind;
  exhausted : bset;
  after_pages : btree N;
  after_cursor : btree HistoryCursor;
  after_page_cap : N;
  targets_pending : bool;
}.
#[export] Instance history_eta : Eta HistoryLedger := fun h =>
  mkHistory (generations h) (asked h) (pending h) (pending_before h) (pending_kind h) (exhausted h)
    (after_pages h) (after_cursor h) (after_page_cap h) (targets_pending h).
(** [HistoryLedger::new] and [reset] *)
Definition new_history (cap : N) : HistoryLedger := mkHistory [] [] [] [] [] [] [] [] cap false.
Definition reset_history (h : HistoryLedger) : HistoryLedger := new_history (after_page_cap h).

(** *** Read markers (readmarker.rs) *)
Record ReadMarkerQueue := mkQueue { queue_target : str; queue_timestamp : Time }.
Record ReadMarkerLedger := mkMarkers {
  marker_pending : btree ReadMarkerQueue;
  in_flight : btree Time;
  last_known : btree Time;
}.
#[export] Instance markers_eta : Eta ReadMarkerLedger := fun m =>
  mkMarkers (marker_pending m) (in_flight m) (last_known m).
Definition new_markers : ReadMarkerLedger := mkMarkers [] [] [].

(** ** The state ([Core]) *)
Record Core := mkCore {
  config : SessionConfig;
  now : Time;
  transport_state : ConnectionState;
  entropy : option bytes;
  clock : list ClockEntry;

  port : N;
  tls_enabled : bool;
  nickname : str;
  session_channel_types : str;
  features : IrcServerFeatures;
  history_limit : N;

  autojoin_channels : list str;
  autojoin_keys : btree str;
  pending_join_keys : btree str;

  caps : IrcCapabilityNegotiation;
  read_marker_token : option str;
  metadata : MetadataCapability;
  published_caps : IrcCapabilitySet;

  typing : TypingPublisher;
  framer : IrcFramer;
  batches : BatchLedger;
  history : HistoryLedger;
  read_markers : ReadMarkerLedger;

  pending_labels : btree Time;
  next_request_label : N;
  ctcp_reply_clock : btree Time;

  ping : PingState;
  connection : Connection;

  registration_sent : bool;
  registration_nick : RegistrationNick;
  sasl : SaslState;

  capability_negotiation_ended : bool;
  capability_list_seen : bool;
  pending_sts : option StsAdvertisement;
  sts_duration : option Z;
  sts : StsStore;

  state : SessionState;
  ignore_filter : option (IrcMessage -> str -> str -> bool);
  pending_invite : option PendingInvite;
  history_resume : option (str -> IrcCaseMapping -> option Time);

  timers : list (option N);
  timer_sequence : N;
  events : list SessionEvent;
  effects : list Effect;
  received_log : option (list IrcMessage);
}.
#[export] Instance core_eta : Eta Core := fun c =>
  mkCore (config c) (now c) (transport_state c) (entropy c) (clock c)
    (port c) (tls_enabled c) (nickname c) (session_channel_types c) (features c) (history_limit c)
    (autojoin_channels c) (autojoin_keys c) (pending_join_keys c)
    (caps c) (read_marker_token c) (metadata c) (published_caps c)
    (typing c) (framer c) (batches c) (history c) (read_markers c)
    (pending_labels c) (next_request_label c) (ctcp_reply_clock c)
    (ping c) (connection c)
    (registration_sent c) (registration_nick c) (sasl c)
    (capability_negotiation_ended c) (capability_list_seen c) (pending_sts c) (sts_duration c) (sts c)
    (state c) (ignore_filter c) (pending_invite c) (history_resume c)
    (timers c) (timer_sequence c) (events c) (effects c) (received_log c).

(** [Core::new], with the policy cache its manager shares. *)
Definition new_core (config : SessionConfig) (sts : StsStore) : Core :=
  mkCore config 0 TrIdle None []
    (config_port config) (config_tls_enabled config) (config_nick config) [] new_features HISTORY_LIMIT
    (config_autojoin_channels config) (config_autojoin_keys config) []
    (new_negotiation (negb (is_empty (sasl_secret config)))) None default_metadata 0
    [] new_framer new_ledger (new_history HISTORY_AFTER_PAGE_CAP) new_markers
    [] 0 [] PingOff new_connection
    false NickConfigured new_sasl
    false false None None sts
    StIdle None None None
    (replicate 5 None) 0 [] [] None.

(** ** Names *)

Definition nicks_equal (c : Core) (left right : str) : bool := equals (case_mapping (features c)) left right.

Definition is_self (c : Core) (nick : str) : bool := negb (is_empty nick) && nicks_equal c nick (nickname c).

(** [wire_text(normalize(channel).as_bytes())] *)
Definition fold_channel (c : Core) (channel : str) : str :=
  wire_text (as_bytes (normalize (case_mapping (features c)) channel)).

Definition is_valid_privmsg_target (target : str) : bool :=
  negb (is_empty target)
  && negb (match target with mark :: _ => mark =? chr ":" | [] => false end)
  && negb (existsb (fun c => is_whitespace c || is_control c) target).

(** ** Events, lines and timers *)

Definition emit (c : Core) (event : SessionEvent) : Core := c <| events := events c ++ [event] |>.

Definition push_effect (c : Core) (effect : Effect) : Core := c <| effects := effects c ++ [effect] |>.

(** send.rs, [send_line] *)
Definition send_line (c : Core) (line : bytes) : Core :=
  if is_empty line then c
  else push_effect (emit c (Outbound (network_id (config c)) line (session_channel_types c) (now c))) (Write line).

Definition is_tag_safe_label (label : str) : bool :=
  negb (is_empty label) && (str_len label <=? 64)
  && forallb (fun b => is_ascii_alphanumeric b || (b =? chr "-") || (b =? chr "_")) (as_bytes label).

(** send.rs, [send_command] *)
Definition send_command (c : Core) (command request_label : str) : Core * bool :=
  if negb (bool_decide (state c = StRegistered)) then (c, false)
  else if negb (is_empty request_label) && negb (is_tag_safe_label request_label) then (c, false)
  else
    let wire := if is_empty request_label then command
                else lit "@label=" ++ request_label ++ lit " " ++ command in
    match line wire (features c) with
    | Ok l => (send_line c (as_bytes l), true)
    | Err _ => (c, false)
    end.

(** The loop of [send_trailing_body]: it stops at the first refusal. *)
Fixpoint send_chunks (c : Core) (prefix suffix request_label : str) (chunks : list str) : Core * bool :=
  match chunks with
  | [] => (c, true)
  | chunk :: chunks =>
      let '(c, sent) := send_command c (prefix ++ chunk ++ suffix) request_label in
      if sent then send_chunks c prefix suffix request_label chunks else (c, false)
  end.

(** send.rs, [send_trailing_body] *)
Definition send_trailing_body (c : Core) (prefix body suffix request_label : str) : Core * bool :=
  let chunks := split_trailing_param prefix body suffix (features c) in
  if is_empty chunks then (c, false)
  else if negb (is_empty request_label) && negb (length chunks =? 1)%nat then (c, false)
  else send_chunks c prefix suffix request_label chunks.

(** timers.rs, [cancel_timer]: the handle's [stop] takes the callback off the clock. *)
Definition cancel_timer (c : Core) (slot : TimerSlot) : Core :=
  match timers c !! slot_index slot with
  | Some (Some id) =>
      c <| timers := <[slot_index slot := None]> (timers c) |>
        <| clock := base.filter (fun e => entry_callback e <> SlotTimer slot id) (clock c) |>
  | _ => c
  end.

(** timers.rs, [arm_timer] *)
Definition arm_timer (c : Core) (slot : TimerSlot) (delay : Duration) : Core :=
  let c := cancel_timer c slot in
  let id := timer_sequence c + 1 in
  c <| timer_sequence := id |>
    <| clock := clock c ++ [mkEntry (SlotTimer slot id) delay] |>
    <| timers := <[slot_index slot := Some id]> (timers c) |>.

(** ** Labels (labels.rs) *)

(** [values().min()] *)
Definition earliest_deadline (labels : btree Time) : option Time :=
  foldr (fun t acc => match acc with Some m => Some (Z.min t m) | None => Some t end) None (bt_values labels).

Definition arm_label_timer (c : Core) : Core :=
  match earliest_deadline (pending_labels c) with
  | None => cancel_timer c SlotLabel
  | Some earliest => arm_timer c SlotLabel (Z.max 0 (earliest - now c))
  end.

Definition begin_labeled_request (c : Core) : Core * str :=
  let n := next_request_label c + 1 in
  let label := lit "lr" ++ show n in
  let deadline := (now c + from_millis (N.min (labeled_response_timeout_ms (config c)) (Z.to_N i64_max)))%Z in
  let c := c <| next_request_label := n |> <| pending_labels := bt_insert label deadline (pending_labels c) |> in
  (arm_label_timer c, label).

Definition has_pending_request_label (c : Core) (label : str) : bool :=
  negb (is_empty label) && bt_contains label (pending_labels c).

Definition drop_request_label (c : Core) (label : str) : Core :=
  if is_empty label || negb (bt_contains label (pending_labels c)) then c
  else arm_label_timer (c <| pending_labels := bt_remove label (pending_labels c) |>).

Definition finish_request_label (c : Core) (label : str) : Core :=
  if is_empty label || negb (bt_contains label (pending_labels c)) then c
  else
    let c := arm_label_timer (c <| pending_labels := bt_remove label (pending_labels c) |>) in
    emit c (RequestLabelFinished (network_id (config c)) label).

Definition emit_finished (c : Core) (label : str) : Core :=
  emit c (RequestLabelFinished (network_id (config c)) label).

Definition clear_pending_request_labels (c : Core) (notify : bool) : Core :=
  let labels := bt_keys (pending_labels c) in
  let c := cancel_timer (c <| pending_labels := [] |>) SlotLabel in
  if negb notify then c else foldl emit_finished c labels.

Definition on_label_timer_fired (c : Core) : Core :=
  let expired := (base.filter (fun e => (e.2 <= now c)%Z) (pending_labels c)).*1 in
  let c := c <| pending_labels := foldl (fun m label => bt_remove label m) (pending_labels c) expired |> in
  arm_label_timer (foldl emit_finished c expired).

(** ** The lifecycle (session.rs, watchdog.rs) *)

Definition set_state (c : Core) (new : SessionState) : Core :=
  if decide (state c = new) then c
  else
    let c := if decide (state c = StRegistered /\ new <> StRegistered) then c <| pending_invite := None |> else c in
    let c := c <| state := new |> in
    emit c (StateChanged (network_id (config c)) new).

Definition connect_transport (c : Core) : Core := push_effect c (Connect (host (config c)) (port c) (tls_enabled c)).

Definition arm_ping_watchdog (c : Core) : Core :=
  if negb (bool_decide (state c = StRegistered)) then c
  else arm_timer (c <| ping := PingWatching |>) SlotPing (from_millis (ping_timeout_ms (config c))).

Definition cancel_ping_watchdog (c : Core) : Core := cancel_timer (c <| ping := PingOff |>) SlotPing.

Definition schedule_reconnect (c : Core) : Core :=
  if negb (reconnect_enabled (config c)) then set_state c StFailed
  else if decide (state c = StReconnecting) then c
  else
    let '(conn, attempt) := count_scheduled_reconnect (connection c) in
    let c := c <| connection := conn |> in
    let delay := next_delay (connection c) (config c) in
    let c := set_state c StReconnecting in
    let c := arm_timer c SlotReconnect (from_millis delay) in
    emit c (ReconnectScheduled (network_id (config c)) delay attempt).

(** Whether the transport still has to report its disconnect. *)
Definition transport_is_live (t : ConnectionState) : bool :=
  match t with TrConnecting | TrConnected | TrEncrypted | TrClosing => true | _ => false end.

Definition fail (c : Core) (kind : ErrorKind) (message : str) (reconnect : bool) : Core :=
  let c := cancel_timer c SlotRegistration in
  let c := cancel_ping_watchdog c in
  let c := clear_pending_request_labels c true in
  let error := ErrorOccurred (network_id (config c)) kind message in
  if reconnect then
    let '(conn, first) := first_report_of (connection c) kind in
    let c := c <| connection := conn |> in
    let c := if first then emit c error else c in
    if transport_is_live (transport_state c)
    then push_effect (c <| connection := reconnect_on_disconnect (connection c) |>) Shutdown
    else schedule_reconnect c
  else
    let c := emit c error in
    let c := c <| connection := end_on_disconnect (connection c) |> in
    let c := cancel_timer c SlotReconnect in
    push_effect (set_state c StFailed) Shutdown.

Definition on_ping_watchdog_fired (c : Core) : Core :=
  if negb (bool_decide (state c = StRegistered)) then c
  else
    let '(p, expiry) := expire (ping c) in
    let c := c <| ping := p |> in
    match expiry with
    | ExpiryProbe =>
        arm_timer (send_line c (lit "PING :" ++ PING_WATCHDOG_TOKEN ++ CRLF)) SlotPing
          (from_millis (ping_timeout_ms (config c)))
    | ExpiryTimeout => fail c ErrNetwork (lit "Ping timeout") true
    | ExpiryNothing => c
    end.

(** caps.rs, [publish_capabilities] *)
Definition publish_capabilities (c : Core) : Core :=
  let set := enabled (caps c) in
  if decide (set = published_caps c) then c
  else emit (c <| published_caps := set |>) (CapabilitiesChanged (network_id (config c)) set).

Definition reset_for_connection (c : Core) : Core :=
  let c := c <| framer := new_framer |> <| batches := new_ledger |>
    <| history := reset_history (history c) |> <| history_limit := HISTORY_LIMIT |>
    <| features := new_features |> <| nickname := config_nick (config c) |>
    <| registration_sent := false |> <| registration_nick := NickConfigured |> <| sasl := new_sasl |>
    <| capability_negotiation_ended := false |> <| capability_list_seen := false |>
    <| pending_sts := None |> <| pending_invite := None |> <| pending_join_keys := [] |>
    <| session_channel_types := [] |> in
  let c := cancel_timer c SlotCapability in
  let c := cancel_timer c SlotRegistration in
  let c := cancel_ping_watchdog c in
  let c := clear_pending_request_labels c true in
  let c := c <| caps := reset_negotiation (caps c) (negb (is_empty (sasl_secret (config c)))) |>
    <| read_marker_token := None |>
    <| read_markers := (read_markers c) <| in_flight := [] |> <| marker_pending := [] |> |>
    <| metadata := default_metadata |> <| typing := [] |> in
  publish_capabilities c.

Definition emit_message_received (c : Core) (message : IrcMessage) : Core :=
  let c := c <| received_log := (fun log => log ++ [message]) <$> received_log c |> in
  emit c (MessageReceived (network_id (config c)) message).
