(* ===== verification/SessionOutbound.v ===== *)
(** * SessionOutbound: what the session writes
    (src/client/src/session/outbound.rs, ctcp.rs, typing.rs, metadata.rs, autojoin.rs, wire.rs)

    A writer returns the new state and whether the line went out. *)

From S2P Require Import Prelude Text Message CaseMapping ServerFeatures Capability CommandBuilder JoinTarget Scram.
From S2P Require Import OrdMap SessionTypes Platform Connection Sts Ctcp Metadata Typing SessionCore.

(** ** Readers of a parsed line (wire.rs) *)

Definition capability_tokens (message : IrcMessage) (subcommand_index : nat) : list str :=
  if (length (msg_params message) <=? subcommand_index + 1)%nat then []
  else match last (msg_params message) with
       | Some raw => base.filter (fun field => field <> []) (split_on (N.eqb (chr " ")) (wire_text raw))
       | None => []
       end.

Definition claimed_nick (message : IrcMessage) : str :=
  match msg_prefix message with
  | None => []
  | Some prefix =>
      if negb (is_empty (prefix_nick_bytes prefix)) then wire_text (prefix_nick_bytes prefix)
      else wire_text (prefix_raw prefix)
  end.

Definition ctcp_reply_host (message : IrcMessage) : str :=
  match msg_prefix message with
  | None => []
  | Some prefix =>
      if negb (is_empty (prefix_host prefix)) then wire_text (prefix_host prefix)
      else if is_empty (prefix_nick_bytes prefix) then wire_text (prefix_raw prefix)
      else []
  end.

Definition self_prefixed (c : Core) (message : IrcMessage) : bool := is_self c (claimed_nick message).

(** ** Messages *)

Definition note_message_sent (c : Core) (target : str) : Core :=
  c <| typing := publisher_message_sent (typing c) target |>.

Definition send_privmsg_locked (c : Core) (target body : str) : Core * bool :=
  if negb (is_valid_privmsg_target target) || is_empty body then (c, false)
  else
    let '(c, sent) := send_trailing_body c (lit "PRIVMSG " ++ target ++ lit " :") body [] [] in
    (if sent then note_message_sent c target else c, sent).

Definition send_notice (c : Core) (target body : str) : Core * bool :=
  if is_empty target || is_empty body then (c, false)
  else send_trailing_body c (lit "NOTICE " ++ target ++ lit " :") body [] [].

Definition send_action (c : Core) (target body : str) : Core * bool :=
  if negb (is_valid_privmsg_target target) || is_empty body then (c, false)
  else
    let '(c, sent) :=
      send_trailing_body c (lit "PRIVMSG " ++ target ++ lit " :" ++ [1] ++ lit "ACTION ") body [1] [] in
    (if sent then note_message_sent c target else c, sent).

Definition send_channel_mode (c : Core) (request : IrcChannelModeRequest) : Core * bool :=
  if mode_query request then send_command c (lit "MODE " ++ mode_channel request) []
  else send_command c
         (join_with (lit " ") ([lit "MODE"; mode_channel request; mode_modes request] ++ mode_parameters request)) [].

(** ** Channels *)

Definition join_locked (c : Core) (target : IrcJoinTarget) : Core * bool :=
  if negb (bool_decide (state c = StRegistered)) then (c, false)
  else
    let channel := join_channel target in
    let key := default [] (join_key target) in
    match join channel key (features c) with
    | Err _ => (c, false)
    | Ok l =>
        let c := if has_key target
                 then c <| pending_join_keys := bt_insert (fold_channel c channel) key (pending_join_keys c) |>
                 else c in
        (send_line c (as_bytes l), true)
    end.

Definition part (c : Core) (channel : str) : Core * bool :=
  if is_empty channel then (c, false) else send_command c (lit "PART " ++ channel) [].

Definition kick (c : Core) (channel nick reason : str) : Core * bool :=
  if is_empty channel || is_empty nick then (c, false)
  else
    let command := lit "KICK " ++ channel ++ lit " " ++ nick in
    send_command c (if is_empty reason then command else command ++ lit " :" ++ reason) [].

Definition kickban (c : Core) (channel mask nick reason : str) : Core * bool :=
  if is_empty channel || is_empty mask || is_empty nick then (c, false)
  else
    let '(c, sent) := send_channel_mode c (mkModeRequest channel (lit "+b") [mask] false) in
    if negb sent then (c, false) else kick c channel nick reason.

Definition invite (c : Core) (nick channel : str) : Core * bool :=
  if is_empty nick || is_empty channel then (c, false)
  else send_command c (lit "INVITE " ++ nick ++ lit " " ++ channel) [].

Definition set_topic (c : Core) (channel topic : str) : Core * bool :=
  if is_empty channel || is_empty topic then (c, false)
  else send_command c (lit "TOPIC " ++ channel ++ lit " :" ++ topic) [].

Definition set_away_locked (c : Core) (reason : str) : Core * bool :=
  let trimmed := trim reason in
  if is_empty trimmed then send_command c (lit "AWAY") [] else send_command c (lit "AWAY :" ++ trimmed) [].

Definition mark_away (c : Core) (reason : str) : Core * bool :=
  let trimmed := trim reason in
  if is_empty trimmed then send_command c (lit "AWAY :") [] else send_command c (lit "AWAY :" ++ trimmed) [].

Definition change_nick (c : Core) (nick : str) : Core * bool :=
  if is_empty nick then (c, false) else send_command c (lit "NICK " ++ nick) [].

Definition whois (c : Core) (nick request_label : str) : Core * bool :=
  let trimmed := trim nick in
  if is_empty trimmed then (c, false)
  else send_command c (lit "WHOIS " ++ trimmed ++ lit " " ++ trimmed) request_label.

Definition list_channels (c : Core) (mask : str) : Core * bool :=
  let trimmed := trim mask in
  if existsb (fun m => (m =? 13) || (m =? 10)) trimmed then (c, false)
  else if is_empty trimmed then send_command c (lit "LIST") []
  else send_command c (lit "LIST " ++ trimmed) [].

Definition start_labeled_request (c : Core) : Core * str :=
  if negb (contains (enabled (caps c)) LabeledResponse) then (c, []) else begin_labeled_request c.

(** *** MONITOR *)

Definition monitor_line (mark : char) (nicks : list str) : str :=
  lit "MONITOR " ++ [mark] ++ lit " " ++ join_with (lit ",") nicks.

(** The packing loop: [None] is the early refusal, otherwise the batch left to send. *)
Fixpoint monitor_loop (c : Core) (mark : char) (batch nicks : list str) : Core * option (list str) :=
  match nicks with
  | [] => (c, Some batch)
  | nick :: nicks =>
      if is_empty nick then (c, None)
      else if MAX_CLASSIC_FRAME_BYTES <? str_len (monitor_line mark (batch ++ [nick])) + 2 then
        if is_empty batch then (c, None)
        else
          let '(c, sent) := send_command c (monitor_line mark batch) [] in
          if negb sent then (c, None)
          else if MAX_CLASSIC_FRAME_BYTES <? str_len (lit "MONITOR " ++ [mark] ++ lit " ") + str_len nick + 2
          then (c, None)
          else monitor_loop c mark [nick] nicks
      else monitor_loop c mark (batch ++ [nick]) nicks
  end.

Definition send_monitor_locked (c : Core) (modifier : char) (nicks : list str) : Core * bool :=
  let mark := to_ascii_uppercase modifier in
  if (mark =? chr "C") || (mark =? chr "L") || (mark =? chr "S") then
    if negb (is_empty nicks) then (c, false) else send_command c (lit "MONITOR " ++ [mark]) []
  else if negb ((mark =? chr "+") || (mark =? chr "-")) then (c, false)
  else if is_empty nicks then (c, false)
  else
    let '(c, batch) := monitor_loop c mark [] nicks in
    match batch with
    | None => (c, false)
    | Some batch => if is_empty batch then (c, false) else send_command c (monitor_line mark batch) []
    end.

(** ** Typing (typing.rs) *)

Definition send_typing (c : Core) (target : str) (phase : TypingPhase) : Core * bool :=
  if negb (bool_decide (state c = StRegistered)) then (c, false)
  else if negb (contains (enabled (caps c)) MessageTags) then (c, false)
  else if negb (should_send (typing c) target phase (now c)) then (c, false)
  else match typing_tagmsg target phase with
       | None => (c, false)
       | Some l =>
           let c := push_effect c (Write (as_bytes l)) in
           (c <| typing := record_sent (typing c) target phase (now c) |>, true)
       end.

(** ** Metadata (metadata.rs) *)

Definition metadata_enabled (c : Core) : bool :=
  contains (enabled (caps c)) MemberMetadata && contains (enabled (caps c)) Batch.

Definition subscribe_to_member_metadata (c : Core) : Core :=
  if negb (metadata_enabled c) then c
  else
    let keys := subscription_keys (max_subs (metadata c)) in
    if is_empty keys then c
    else send_line c (as_bytes (lit "METADATA * SUB " ++ join_with (lit " ") keys ++ CRLF)).

Definition set_own_metadata (c : Core) (key value : str) : Core * option str :=
  if negb (bool_decide (state c = StRegistered)) then (c, None)
  else if negb (metadata_enabled c) then (c, None)
  else if is_empty key || negb (is_known_key key) then (c, None)
  else match canonical_key key with
  | None => (c, None)
  | Some stored =>
      if is_empty value then
        let '(c, sent) := send_command c (lit "METADATA * SET " ++ stored) [] in
        (c, if sent then Some [] else None)
      else
        let prefix := lit "METADATA * SET " ++ stored ++ lit " :" in
        let wire_budget := MAX_CLASSIC_FRAME_BYTES - str_len prefix - 2 in
        let max_bytes := N.min (effective_max_value_bytes (max_value_bytes (metadata c))) wire_budget in
        if max_bytes =? 0 then (c, None)
        else
          let clamped := clamped_to value max_bytes in
          if is_empty clamped then (c, None)
          else
            let '(c, sent) := send_command c (prefix ++ clamped) [] in
            (c, if sent then Some clamped else None)
  end.

(** The retry of a 774: [clamp(0, 60)] seconds from now. *)
Definition handle_metadata_sync_later (c : Core) (message : IrcMessage) : Core :=
  let target := text_param message 1 in
  if is_empty target then c
  else
    let retry_after := Z.max 0 (Z.min 60 (default 0%Z (parse_i64 (trim (text_param message 2))))) in
    c <| clock := clock c ++ [mkEntry (MetadataSync target) (from_secs (Z.to_N retry_after))] |>.

(** ** Autojoin (autojoin.rs) *)

Definition lookup_autojoin_key (keys : btree str) (mapping : IrcCaseMapping) (channel : str) : option str :=
  snd <$> List.find (fun e => equals mapping e.1 channel) keys.

(** The stored keys without the first that names [channel], and whether there was one. *)
Definition erase_autojoin_key (keys : btree str) (mapping : IrcCaseMapping) (channel : str) : btree str * bool :=
  match List.find (fun e => equals mapping e.1 channel) keys with
  | Some e => (bt_remove e.1 keys, true)
  | None => (keys, false)
  end.

Definition emit_autojoin_changed (c : Core) : Core :=
  emit c (AutojoinChannelsChanged (network_id (config c)) (autojoin_channels c) (autojoin_keys c)).

(** [Vec::remove] *)
Definition remove_index {A} (i : nat) (l : list A) : list A := take i l ++ drop (S i) l.

(** The branch of [record_autojoin] for a self JOIN: the new state and whether anything changed. *)
Definition record_joined (c : Core) (channel : str) (found_index : option nat) : Core * bool :=
  let mapping := case_mapping (features c) in
  let '(c, (listed, name_changed)) :=
    match found_index with
    | None => (c <| autojoin_channels := autojoin_channels c ++ [channel] |>, (channel, true))
    | Some index => (c, (default channel (autojoin_channels c !! index), false))
    end in
  let folded := fold_channel c channel in
  let waiting := default [] (bt_get folded (pending_join_keys c)) in
  let c := c <| pending_join_keys := bt_remove folded (pending_join_keys c) |> in
  if is_empty waiting then (c, name_changed)
  else
    let existing := lookup_autojoin_key (autojoin_keys c) mapping listed in
    if decide (existing = Some waiting) then (c, name_changed)
    else
      let '(keys, _) := erase_autojoin_key (autojoin_keys c) mapping listed in
      (c <| autojoin_keys := bt_insert listed waiting keys |>, true).

Definition record_left (c : Core) (channel : str) (found_index : option nat) : Core * bool :=
  let '(keys, had_key) := erase_autojoin_key (autojoin_keys c) (case_mapping (features c)) channel in
  let c := c <| autojoin_keys := keys |> in
  let c := c <| pending_join_keys := bt_remove (fold_channel c channel) (pending_join_keys c) |> in
  match found_index with
  | None => (c, had_key)
  | Some index => (c <| autojoin_channels := remove_index index (autojoin_channels c) |>, true)
  end.

Definition record_autojoin (c : Core) (channel : str) (joined : bool) : Core :=
  if is_empty channel then c
  else
    let found_index :=
      position (fun existing => equals (case_mapping (features c)) existing channel) (autojoin_channels c) in
    let '(c, changed) :=
      if joined then record_joined c channel found_index else record_left c channel found_index in
    if changed then emit_autojoin_changed c else c.

Definition drop_stored_autojoin_key (c : Core) (channel : str) : Core :=
  if is_empty channel then c
  else
    let c := c <| pending_join_keys := bt_remove (fold_channel c channel) (pending_join_keys c) |> in
    let '(keys, erased) := erase_autojoin_key (autojoin_keys c) (case_mapping (features c)) channel in
    if negb erased then c else emit_autojoin_changed (c <| autojoin_keys := keys |>).

Definition autojoin_key_for (c : Core) (channel : str) : option str :=
  lookup_autojoin_key (autojoin_keys c) (case_mapping (features c)) channel.

(** ** CTCP (ctcp.rs) *)
Section Ctcp.
Context `{platform : Platform}.

Definition allow_ctcp_reply (c : Core) (nick : str) : Core * bool :=
  let key := to_lowercase nick in
  let allowed :=
    match bt_get key (ctcp_reply_clock c) with
    | Some last => negb (now c - last <? CTCP_REPLY_INTERVAL)%Z
    | None => true
    end in
  if negb allowed then (c, false)
  else (c <| ctcp_reply_clock := bt_insert key (now c) (ctcp_reply_clock c) |>, true).

(** The payload that answers a query, [None] for one that gets no answer. *)
Definition ctcp_answer (c : Core) (request : CtcpRequest) : option str :=
  if str_eqb (ctcp_command request) (lit "PING") then
    if CTCP_PING_PAYLOAD_MAX_BYTES <? str_len (argument request) then None
    else Some (ctcp_payload (mkCtcp (lit "PING") (argument request)))
  else if str_eqb (ctcp_command request) (lit "TIME") then
    Some (ctcp_payload (mkCtcp (lit "TIME") (chrono_format_local (now c) (lit "%a, %d %b %Y %H:%M:%S %z"))))
  else if str_eqb (ctcp_command request) (lit "VERSION") then
    Some (ctcp_payload (mkCtcp (lit "VERSION") ctcp_version_reply_text))
  else None.

Definition answer_ctcp (c : Core) (message : IrcMessage) : Core * bool :=
  match parse_ctcp_request (text_param message 1) with
  | None => (c, false)
  | Some request =>
      if str_eqb (ctcp_command request) (lit "ACTION") then (c, false)
      else
        let sender := prefix_nick message in
        if is_empty sender || is_service_identity sender (ctcp_reply_host message) (session_channel_types c)
        then (c, true)
        else match ctcp_answer c request with
        | None => (c, true)
        | Some payload =>
            let '(c, allowed) := allow_ctcp_reply c sender in
            if negb allowed then (c, true)
            else ((send_trailing_body c (lit "NOTICE " ++ sender ++ lit " :") payload [] []).1, true)
        end
  end.

Definition send_ctcp (c : Core) (target command argument request_label : str) : Core * bool :=
  let verb := to_uppercase (trim command) in
  if negb (is_valid_privmsg_target target) || is_empty verb || existsb (N.eqb (chr " ")) verb then (c, false)
  else send_trailing_body c (lit "PRIVMSG " ++ target ++ lit " :") (ctcp_payload (mkCtcp verb argument)) [] request_label.
End Ctcp.
