(* ===== verification/SessionMarkers.v ===== *)
(** * SessionMarkers: read markers
    (src/client/src/session/readmarker.rs)

    One marker per target is in flight; a newer one waits behind it. *)

From S2P Require Import Prelude Text Message CaseMapping ServerFeatures Capability OrdMap SessionTypes Platform.
From S2P Require Import SessionCore SessionOutbound.

(** ** The ledger *)

Definition read_marker_command (c : Core) : str := read_marker_command_for (read_marker_token c).

Definition fold_read_marker_target (c : Core) (target : str) : str :=
  if is_empty target then []
  else if is_channel (features c) target then fold_channel c target
  else normalize (case_mapping (features c)) target.

Definition update_markers (f : ReadMarkerLedger -> ReadMarkerLedger) (c : Core) : Core :=
  c <| read_markers := f (read_markers c) |>.

Definition drop_marker_pending (folded : str) (m : ReadMarkerLedger) : ReadMarkerLedger :=
  m <| marker_pending := bt_remove folded (marker_pending m) |>.
Definition drop_in_flight (folded : str) (m : ReadMarkerLedger) : ReadMarkerLedger :=
  m <| in_flight := bt_remove folded (in_flight m) |>.

Definition advance_last_known (c : Core) (folded : str) (when : Time) : Core :=
  let advance := update_markers (fun m => m <| last_known := bt_insert folded when (last_known m) |>) c in
  match bt_get folded (last_known (read_markers c)) with
  | Some known => if negb (read_marker_time_after when known) then c else advance
  | None => advance
  end.

Section Markers.
Context `{platform : Platform}.

Definition marker_line (command : str) (queued : ReadMarkerQueue) : str :=
  command ++ lit " " ++ queue_target queued ++ lit " timestamp=" ++ format_read_marker_time (queue_timestamp queued).

Definition flush_read_marker_set (c : Core) (folded : str) : Core :=
  if bt_contains folded (in_flight (read_markers c)) then c
  else
    let?? queued := bt_get folded (marker_pending (read_markers c)) else c in
    let caught_up :=
      match bt_get folded (last_known (read_markers c)) with
      | Some known => negb (read_marker_time_after (queue_timestamp queued) known)
      | None => false
      end in
    if caught_up then update_markers (drop_marker_pending folded) c
    else
      let command := read_marker_command c in
      let c := update_markers (drop_marker_pending folded) c in
      if is_empty command then c
      else
        let '(c, sent) := send_command c (marker_line command queued) [] in
        if negb sent then c
        else update_markers (fun m => m <| in_flight := bt_insert folded (queue_timestamp queued) (in_flight m) |>) c.

Definition emit_marker (c : Core) (target : str) (marker : option Time) : Core :=
  emit c (ReadMarkerReceived (network_id (config c)) target marker).

(** An echo at or past the marker in flight releases the next one. *)
Definition settle_in_flight (c : Core) (folded : str) (echoed : Time) : Core :=
  let?? flying := bt_get folded (in_flight (read_markers c)) else c in
  if read_marker_time_after flying echoed then c
  else
    let c := update_markers (drop_in_flight folded) c in
    let c := match bt_get folded (marker_pending (read_markers c)) with
             | Some queued =>
                 if negb (read_marker_time_after (queue_timestamp queued) echoed)
                 then update_markers (drop_marker_pending folded) c else c
             | None => c
             end in
    flush_read_marker_set c folded.

Definition deliver_read_marker (c : Core) (message : IrcMessage) : Core * bool :=
  if negb (str_eqb (msg_command message) (lit "MARKREAD")) && negb (str_eqb (msg_command message) (lit "READ"))
  then (c, false)
  else if is_empty (msg_params message) then (c, true)
  else
    let target := text_param message 0 in
    if is_empty target then (c, true)
    else
      let folded := fold_read_marker_target c target in
      if (length (msg_params message) <? 2)%nat then (emit_marker c target None, true)
      else match parse_read_marker_parameter (text_param message 1) with
      | None =>
          let c := flush_read_marker_set (update_markers (drop_in_flight folded) c) folded in
          (emit_marker c target None, true)
      | Some None => (emit_marker c target None, true)
      | Some (Some marker) =>
          let echoed := read_marker_time_millis marker in
          let c := advance_last_known c folded echoed in
          let c := emit_marker c target (Some echoed) in
          (settle_in_flight c folded echoed, true)
      end.

Definition handle_read_marker_fail (c : Core) (message : IrcMessage) : Core :=
  let command := text_param message 0 in
  if negb (eq_ignore_ascii_case command (lit "MARKREAD")) && negb (eq_ignore_ascii_case command (lit "READ"))
  then c
  else if (length (msg_params message) <? 4)%nat then
    let keys := bt_keys (in_flight (read_markers c)) in
    let c := foldl (fun c key => flush_read_marker_set (update_markers (drop_in_flight key) c) key) c keys in
    emit_marker c [] None
  else
    let target := text_param message 2 in
    let folded := fold_read_marker_target c target in
    if is_empty folded then c
    else
      let c := flush_read_marker_set (update_markers (drop_in_flight folded) c) folded in
      emit_marker c target None.

Definition request_read_marker_get (c : Core) (target : str) : Core * bool :=
  if is_empty target then (c, false)
  else
    let command := read_marker_command c in
    if is_empty command then (c, false) else send_command c (command ++ lit " " ++ target) [].

(** Whether [when] is newer than what is stored, if anything is. *)
Definition newer_than (when : Time) (stored : option Time) : bool :=
  match stored with Some t => read_marker_time_after when t | None => true end.

Definition queue_read_marker_set (c : Core) (target : str) (when : Time) : Core :=
  if is_empty target || is_empty (read_marker_command c) then c
  else
    let folded := fold_read_marker_target c target in
    if is_empty folded then c
    else
      let when := read_marker_time_millis when in
      let m := read_markers c in
      if negb (newer_than when (bt_get folded (last_known m))) then c
      else if negb (newer_than when (bt_get folded (in_flight m))) then c
      else if negb (newer_than when (queue_timestamp <$> bt_get folded (marker_pending m))) then c
      else
        let c := update_markers (fun m =>
          m <| marker_pending := bt_insert folded (mkQueue target when) (marker_pending m) |>) c in
        flush_read_marker_set c folded.
End Markers.
