(* ===== verification/SessionHistory.v ===== *)
(** * SessionHistory: batches and CHATHISTORY
    (src/client/src/session/batch.rs, history.rs, and [replay_kind_for] of session.rs)

    A [BATCH] opens a reference, tagged lines are collected into its root, and closing it
    delivers one [HistoryBatchReceived]. *)

From S2P Require Import Prelude Text Message CaseMapping ServerFeatures Capability OrdMap SessionTypes Platform.
From S2P Require Import SessionCore.

Section History.
Context `{platform : Platform}.

(** ** Times *)

Definition format_chat_history_timestamp (when : Time) : str :=
  chrono_format when (lit "%Y-%m-%dT%H:%M:%S%.3fZ").

(** ** Which batches replay history *)

Definition replay_kind_for (batch_type : str) : option HistoryKind :=
  let lower := to_lowercase batch_type in
  if str_eqb lower (lit "chathistory") || str_eqb lower (lit "draft/chathistory") then Some Chat
  else if str_eqb lower (lit "draft/chathistory-targets") then Some Targets
  else if str_eqb lower (lit "znc.in/playback") then Some BouncerPlayback
  else None.

Definition replay_enabled (c : Core) (kind : HistoryKind) : bool :=
  if negb (contains (enabled (caps c)) Batch) then false
  else if decide (kind = BouncerPlayback) then true
  else contains (enabled (caps c)) ChatHistory.

(** ** The ledgers *)

Definition update_history (f : HistoryLedger -> HistoryLedger) (c : Core) : Core :=
  c <| history := f (history c) |>.

Definition history_generation (c : Core) (channel : str) : N :=
  default 0 (bt_get (fold_channel c channel) (generations (history c))).

(** The three pending entries of one folded name. *)
Definition drop_pending (folded : str) (h : HistoryLedger) : HistoryLedger :=
  h <| pending := bt_remove folded (pending h) |>
    <| pending_before := bs_remove folded (pending_before h) |>
    <| pending_kind := bt_remove folded (pending_kind h) |>.

Definition bump_history_generation (c : Core) (channel : str) : Core :=
  let folded := fold_channel c channel in
  let next := history_generation c channel + 1 in
  update_history (fun h => drop_pending folded (h <| generations := bt_insert folded next (generations h) |>)) c.

(** The pending request of [channel] is of its current generation. *)
Definition pending_is_current (c : Core) (channel : str) : bool :=
  match bt_get (fold_channel c channel) (pending (history c)) with
  | Some generation => generation =? history_generation c channel
  | None => false
  end.

Definition history_inflight (c : Core) (target : str) : bool :=
  if is_empty target then false else pending_is_current c target.

Definition has_open_current_history_batch (c : Core) (channel : str) : bool :=
  let folded := fold_channel c channel in
  let g := history_generation c channel in
  existsb (fun e =>
      str_eqb (replay_root e.2) e.1 && bool_decide (open_kind e.2 = Some Chat)
      && str_eqb (fold_channel c (batch_target (collected e.2))) folded && (generation e.2 =? g))
    (open (batches c)).

Definition answers_pending_history (c : Core) (channel : str) : bool :=
  if is_empty channel then false
  else pending_is_current c channel && negb (has_open_current_history_batch c channel).

Definition clear_history_pending (c : Core) (channel : str) : Core :=
  let folded := fold_channel c channel in update_history (drop_pending folded) c.

(** batch.rs, [ignore_batch]: at the ceiling a new reference is not remembered. *)
Definition ignore_batch (c : Core) (reference : str) : Core :=
  if is_empty reference then c
  else
    let l := batches c in
    let l := l <| open := bt_remove reference (open l) |> in
    let c := c <| batches := l |> in
    if bs_contains reference (ignored l) then c
    else if (MAX_IGNORED_BATCHES <=? length (ignored l))%nat then c
    else c <| batches := l <| ignored := bs_insert reference (ignored l) |> |>.

Definition drop_history_batches (c : Core) (channel : str) : Core :=
  let folded := fold_channel c channel in
  let roots := (base.filter (fun e =>
      replay_root e.2 = e.1 /\ fold_channel c (batch_target (collected e.2)) = folded) (open (batches c))).*1 in
  if is_empty roots then c
  else
    let gone := (base.filter (fun e => e.1 ∈ roots \/ replay_root e.2 ∈ roots) (open (batches c))).*1 in
    let l := batches c in
    let c := c <| batches := l <| open := foldl (fun m r => bt_remove r m) (open l) gone |> |> in
    foldl ignore_batch c gone.

Definition forget_channel_history (c : Core) (channel : str) : Core :=
  let folded := fold_channel c channel in
  let c := update_history (fun h =>
    (drop_pending folded h) <| asked := bs_remove folded (asked h) |>
      <| exhausted := bs_remove folded (exhausted h) |>
      <| after_pages := bt_remove folded (after_pages h) |>
      <| after_cursor := bt_remove folded (after_cursor h) |>) c in
  drop_history_batches c channel.

Definition abandon_history_requests (c : Core) : Core :=
  let targets := bs_from_list ((fun e => batch_target (collected e.2)) <$>
    base.filter (fun e => replay_root e.2 = e.1 /\ batch_target (collected e.2) <> []) (open (batches c))) in
  let c := foldl drop_history_batches c (bs_elements targets) in
  update_history (fun h => h <| pending := [] |> <| pending_before := [] |> <| pending_kind := [] |>
    <| targets_pending := false |> <| after_pages := [] |> <| after_cursor := [] |>) c.

(** ** Requests *)

Definition history_selector (cursor : HistoryCursor) : option str :=
  if negb (is_empty (cursor_msgid cursor)) then Some (lit "msgid=" ++ cursor_msgid cursor)
  else (fun when => lit "timestamp=" ++ format_chat_history_timestamp when) <$> cursor_when cursor.

(** Marks a request of [kind] pending on [key]. *)
Definition note_pending (key : str) (generation : N) (kind : HistoryRequestKind) (h : HistoryLedger) : HistoryLedger :=
  h <| pending := bt_insert key generation (pending h) |> <| pending_kind := bt_insert key kind (pending_kind h) |>.

Definition chat_history_command (verb target selector : str) (limit : N) : str :=
  lit "CHATHISTORY " ++ verb ++ lit " " ++ target ++ lit " " ++ selector ++ lit " " ++ show limit.

Definition request_history_latest (c : Core) (target : str) : Core * bool :=
  if is_empty target || negb (replay_enabled c Chat) then (c, false)
  else
    let key := fold_channel c target in
    if bs_contains key (asked (history c)) || history_inflight c target then (c, false)
    else
      let generation := history_generation c target in
      let c := update_history (fun h =>
        note_pending key generation Latest (h <| asked := bs_insert key (asked h) |>)) c in
      let '(c, sent) := send_command c (chat_history_command (lit "LATEST") target (lit "*") (history_limit c)) [] in
      if negb sent then
        (update_history (fun h => h <| asked := bs_remove key (asked h) |>
           <| pending := bt_remove key (pending h) |> <| pending_kind := bt_remove key (pending_kind h) |>) c, false)
      else (c, true).

Definition clear_history_after_attempt (c : Core) (key : str) : Core :=
  update_history (fun h => h <| pending := bt_remove key (pending h) |>
    <| pending_kind := bt_remove key (pending_kind h) |> <| asked := bs_remove key (asked h) |>
    <| after_pages := bt_remove key (after_pages h) |> <| after_cursor := bt_remove key (after_cursor h) |>) c.

(** [send_history_after] and [send_history_latest_bound]: one page from [cursor]. *)
Definition send_history_page (c : Core) (kind : HistoryRequestKind) (verb target : str) (cursor : HistoryCursor) : Core * bool :=
  match history_selector cursor with
  | None => (c, false)
  | Some selector =>
      let key := fold_channel c target in
      let generation := history_generation c target in
      let c := update_history (note_pending key generation kind) c in
      let '(c, sent) := send_command c (chat_history_command verb target selector (history_limit c)) [] in
      if negb sent then (clear_history_after_attempt c key, false) else (c, true)
  end.

Definition send_history_after (c : Core) (target : str) (cursor : HistoryCursor) : Core * bool :=
  send_history_page c After (lit "AFTER") target cursor.

Definition send_history_latest_bound (c : Core) (target : str) (cursor : HistoryCursor) : Core * bool :=
  send_history_page c AfterTail (lit "LATEST") target cursor.

Definition request_history_after (c : Core) (target : str) (after : Time) : Core * bool :=
  if is_empty target || negb (replay_enabled c Chat) then (c, false)
  else if history_inflight c target then (c, false)
  else
    let key := fold_channel c target in
    let cursor := mkCursor [] (Some after) in
    let c := update_history (fun h => h <| asked := bs_insert key (asked h) |>
      <| after_pages := bt_insert key 1 (after_pages h) |>
      <| after_cursor := bt_insert key cursor (after_cursor h) |>) c in
    send_history_after c target cursor.

Definition request_channel_history (c : Core) (channel : str) : Core :=
  if is_empty channel || negb (replay_enabled c Chat) then c
  else
    let key := fold_channel c channel in
    if bs_contains key (asked (history c)) then c
    else
      let resumed := let? resume := history_resume c in resume channel (case_mapping (features c)) in
      match resumed with
      | Some when =>
          let '(c, sent) := request_history_after c channel when in
          if sent then c else (request_history_latest c channel).1
      | None => (request_history_latest c channel).1
      end.

(** The cursor of the next AFTER page. *)
Definition cursor_from_after_page (lines : list IrcMessage) : HistoryCursor :=
  match last lines with
  | None => empty_cursor
  | Some tail =>
      let last_msgid := default [] (last (base.filter (fun id => id <> []) (msgid <$> lines))) in
      if negb (is_empty (msgid tail)) then mkCursor (msgid tail) None
      else if negb (is_empty last_msgid) then mkCursor last_msgid None
      else match server_time_of tail with
           | Some when => mkCursor [] (Some when)
           | None => match head (omap server_time_of (rev lines)) with
                     | Some when => mkCursor [] (Some when)
                     | None => empty_cursor
                     end
           end
  end.

(** A bound by time that does not move past the previous one. *)
Definition cursor_stalls (previous next : HistoryCursor) : bool :=
  match cursor_when previous, cursor_when next with
  | Some previous_when, Some next_when => (next_when <=? previous_when)%Z
  | _, _ => false
  end.

Definition maybe_chain_history_after (c : Core) (target : str) (batch : HistoryBatch) (history_ended : bool) : Core :=
  if is_empty target || history_ended || (blen (batch_lines batch) <? history_limit c) then c
  else
    let next := cursor_from_after_page (batch_lines batch) in
    if is_empty (cursor_msgid next) && bool_decide (cursor_when next = None) then c
    else
      let key := fold_channel c target in
      let pages := N.max 1 (default 1 (bt_get key (after_pages (history c)))) in
      let cap := if after_page_cap (history c) =? 0 then HISTORY_AFTER_PAGE_CAP else after_page_cap (history c) in
      if cap <=? pages then (send_history_latest_bound c target next).1
      else if is_empty (cursor_msgid next)
              && cursor_stalls (default empty_cursor (bt_get key (after_cursor (history c)))) next then c
      else
        let c := update_history (fun h => h <| after_pages := bt_insert key (pages + 1) (after_pages h) |>
          <| after_cursor := bt_insert key next (after_cursor h) |>) c in
        (send_history_after c target next).1.

Definition request_history_targets (c : Core) (from until : Time) : Core * bool :=
  if negb (replay_enabled c Chat) || targets_pending (history c) then (c, false)
  else if (until <=? from)%Z then (c, false)
  else
    let command := lit "CHATHISTORY TARGETS timestamp=" ++ format_chat_history_timestamp from
      ++ lit " timestamp=" ++ format_chat_history_timestamp until ++ lit " " ++ show (history_limit c) in
    let '(c, sent) := send_command c command [] in
    if negb sent then (c, false) else (update_history (fun h => h <| targets_pending := true |>) c, true).

Definition request_older_history (c : Core) (target msgid : str) (timestamp : option Time) : Core * bool :=
  if is_empty target || negb (replay_enabled c Chat) then (c, false)
  else
    let key := fold_channel c target in
    if bs_contains key (exhausted (history c)) || history_inflight c target then (c, false)
    else if is_channel (features c) target && negb (bs_contains key (asked (history c))) then (c, false)
    else match history_selector (mkCursor msgid timestamp) with
    | None => (c, false)
    | Some cursor =>
        let generation := history_generation c target in
        let c := update_history (fun h =>
          note_pending key generation Before (h <| pending_before := bs_insert key (pending_before h) |>)) c in
        let '(c, sent) := send_command c (chat_history_command (lit "BEFORE") target cursor (history_limit c)) [] in
        if negb sent then (update_history (drop_pending key) c, false) else (c, true)
    end.

(** ** FAIL CHATHISTORY *)

(** The first argument that names a pending request answers it. *)
Definition fail_history_target (c : Core) (channel : str) : Core :=
  let folded := fold_channel c channel in
  let h := history c in
  let before := bs_contains folded (pending_before h) in
  let kind := default Latest (bt_get folded (pending_kind h)) in
  let c := update_history (drop_pending folded) c in
  let c := if negb (bool_decide (kind = After)) && negb (bool_decide (kind = AfterTail))
           then update_history (fun h => h <| exhausted := bs_insert folded (exhausted h) |>) c else c in
  let c := emit c (ChatHistoryRequestFinished (network_id (config c)) channel true before) in
  if decide (kind = After) then emit c (ChatHistoryFailed (network_id (config c)) (lit "AFTER") channel) else c.

Definition handle_chat_history_fail (c : Core) (message : IrcMessage) : Core :=
  if negb (eq_ignore_ascii_case (text_param message 0) (lit "CHATHISTORY")) then c
  else if (length (msg_params message) <? 4)%nat then c
  else if eq_ignore_ascii_case (text_param message 2) (lit "TARGETS") then
    emit (update_history (fun h => h <| targets_pending := false |>) c)
      (ChatHistoryFailed (network_id (config c)) (lit "TARGETS") [])
  else
    let named := text_param message <$> seq 2 (length (msg_params message) - 1 - 2) in
    match List.find (answers_pending_history c) named with
    | Some channel => fail_history_target c channel
    | None => c
    end.

(** ** BATCH *)

Definition history_targets_from (lines : list IrcMessage) : list HistoryTarget :=
  omap (fun line =>
      if eq_ignore_ascii_case (msg_command line) (lit "CHATHISTORY")
         && eq_ignore_ascii_case (text_param line 0) (lit "TARGETS")
         && negb (is_empty (text_param line 1))
      then Some (mkHistoryTarget (text_param line 1) (parse_history_target_time (text_param line 2)))
      else None) lines.

(** Whether a batch is a replay batch or sits inside one. *)
Definition is_history_batch (c : Core) (batch_type parent : str) : bool :=
  if bool_decide (is_Some (replay_kind_for batch_type)) then true
  else if is_empty parent then false
  else if bs_contains parent (ignored (batches c)) then true
  else match bt_get parent (open (batches c)) with
       | Some batch => negb (is_empty (replay_root batch))
       | None => false
       end.

Definition capture_in_batch (c : Core) (message : IrcMessage) : Core * bool :=
  let batch := default [] (tag_text message (lit "batch")) in
  if is_empty batch then (c, false)
  else if bs_contains batch (ignored (batches c)) then (c, true)
  else match bt_get batch (open (batches c)) with
  | None => (c, false)
  | Some found =>
      if is_empty (replay_root found) then (c, false)
      else match bt_get (replay_root found) (open (batches c)) with
      | None => (c, false)
      | Some root =>
          let lines := batch_lines (collected root) in
          let lines := if (HISTORY_BUFFER_CEILING <=? length lines)%nat then drop 1 lines else lines in
          let root' := root <| collected := (collected root) <| batch_lines := lines ++ [message] |> |> in
          let l := batches c in
          (c <| batches := l <| open := bt_insert (replay_root found) root' (open l) |> |>, true)
      end
  end.

(** The frame a new batch opens with. *)
Definition new_frame (c : Core) (message : IrcMessage) (reference : str) (kind : option HistoryKind) : OpenBatch :=
  let parent := default [] (tag_text message (lit "batch")) in
  let target_arg := text_param message 2 in
  let labeled_response := eq_ignore_ascii_case (text_param message 1) (lit "labeled-response") in
  let frame := if labeled_response
               then new_open_batch <| batch_request_label := default [] (tag_text message (lit "label")) |>
               else new_open_batch in
  let parent_root := default [] (replay_root <$> bt_get parent (open (batches c))) in
  let frame := if negb (is_empty parent_root) then frame <| replay_root := parent_root |>
               else if bool_decide (is_Some kind) then frame <| replay_root := reference |>
               else frame in
  if str_eqb (replay_root frame) reference then
    let frame := frame <| open_kind := kind |>
      <| history_ended := has_tag message (lit "draft/chathistory-end") |>
      <| collected := (collected frame) <| batch_target := target_arg |> |>
      <| generation := history_generation c target_arg |> in
    if bool_decide (kind = Some Chat) && answers_pending_history c target_arg
    then match bt_get (fold_channel c target_arg) (pending_kind (history c)) with
         | Some request => frame <| history_request := Some request |>
         | None => frame
         end
    else frame
  else frame.

(** The opening half of [handle_batch]. *)
Definition open_batch (c : Core) (message : IrcMessage) (reference : str) : Core :=
  let parent := default [] (tag_text message (lit "batch")) in
  let batch_type := text_param message 1 in
  let carried_label := default [] (tag_text message (lit "label")) in
  let labeled_response := eq_ignore_ascii_case batch_type (lit "labeled-response") in
  if bt_contains reference (open (batches c)) then c
  else
    let kind := replay_kind_for batch_type in
    if match kind with Some kind => negb (replay_enabled c kind) | None => false end
    then ignore_batch c reference
    else
      let target_arg := text_param message 2 in
      let solicited :=
        (bool_decide (kind = Some Targets) && targets_pending (history c))
        || (bool_decide (kind = Some Chat) && answers_pending_history c target_arg) in
      let pending_labeled_response := labeled_response && has_pending_request_label c carried_label in
      let over_open_cap :=
        negb solicited && negb pending_labeled_response && (MAX_OPEN_BATCHES <=? length (open (batches c)))%nat in
      let was_ignored := bs_contains reference (ignored (batches c)) in
      let parent_ignored := negb (is_empty parent) && bs_contains parent (ignored (batches c)) in
      if was_ignored || parent_ignored || (over_open_cap && is_history_batch c batch_type parent) then
        let c := ignore_batch c reference in
        let c := if decide (kind = Some Chat) then clear_history_pending c target_arg else c in
        if decide (kind = Some Targets) then update_history (fun h => h <| targets_pending := false |>) c else c
      else if over_open_cap then c
      else
        let frame := new_frame c message reference kind in
        let l := batches c in
        c <| batches := l <| open := bt_insert reference frame (open l) |> |>.

(** The delivery of a closed replay root with a target. *)
Definition deliver_batch (c : Core) (frame : OpenBatch) : Core :=
  let target := batch_target (collected frame) in
  let current := generation frame =? history_generation c target in
  let folded := fold_channel c target in
  let after := bool_decide (history_request frame = Some After) in
  let after_tail := bool_decide (history_request frame = Some AfterTail) in
  let chat := bool_decide (open_kind frame = Some Chat) in
  let c :=
    if current && chat && bool_decide (is_Some (history_request frame)) then
      let c := update_history (fun h => h <| pending := bt_remove folded (pending h) |>
        <| pending_kind := bt_remove folded (pending_kind h) |>) c in
      if is_empty (batch_lines (collected frame)) && negb after && negb after_tail
      then update_history (fun h => h <| exhausted := bs_insert folded (exhausted h) |>) c else c
    else c in
  if negb (bool_decide (open_kind frame = Some BouncerPlayback)) && negb current then c
  else
    let batch := (collected frame) <| batch_kind := open_kind frame |> in
    let '(c, batch) :=
      if chat then
        let batch := batch <| older_page := bool_decide (history_request frame = Some Before) |> in
        let c := update_history (fun h => h <| pending_before := bs_remove folded (pending_before h) |>) c in
        let c := if current && after then maybe_chain_history_after c target batch (history_ended frame) else c in
        (c, batch <| after_request := current && after |> <| batch_history_ended := history_ended frame |>)
      else (c, batch) in
    emit c (HistoryBatchReceived (network_id (config c)) batch).

(** [close_batch], once the reference was found open. *)
Definition close_frame (c : Core) (reference : str) (frame : OpenBatch) : Core :=
  let children := (base.filter (fun e => replay_root e.2 = reference) (open (batches c))).*1 in
  let c := foldl ignore_batch c children in
  let c := if is_empty (batch_request_label frame) then c else finish_request_label c (batch_request_label frame) in
  let is_root := str_eqb (replay_root frame) reference in
  if is_root && bool_decide (open_kind frame = Some Targets) then
    let c := update_history (fun h => h <| targets_pending := false |>) c in
    let batch := empty_batch <| batch_kind := Some Targets |> <| batch_history_ended := history_ended frame |>
      <| batch_targets := history_targets_from (batch_lines (collected frame)) |> in
    emit c (HistoryBatchReceived (network_id (config c)) batch)
  else if negb (is_root && negb (is_empty (batch_target (collected frame)))) then c
  else deliver_batch c frame.

Definition close_batch (c : Core) (reference : str) : Core :=
  let l := batches c in
  if bs_contains reference (ignored l) then c <| batches := l <| ignored := bs_remove reference (ignored l) |> |>
  else match bt_get reference (open l) with
       | None => c
       | Some frame =>
           close_frame (c <| batches := l <| open := bt_remove reference (open l) |> |>) reference frame
       end.

Definition handle_batch (c : Core) (message : IrcMessage) : Core :=
  if is_empty (msg_params message) then c
  else
    let token := text_param message 0 in
    if str_len token <? 2 then c
    else match token with
         | sign :: reference =>
             if negb ((sign =? chr "+") || (sign =? chr "-")) then c
             else if is_empty reference then c
             else if sign =? chr "-" then close_batch c reference
             else open_batch c message reference
         | [] => c
         end.
End History.
