(* ===== verification/SessionNegotiation.v ===== *)
(** * SessionNegotiation: STS, registration and capabilities
    (src/client/src/session/stsflow.rs, registration.rs, caps.rs)

    From the open socket to the welcome: CAP LS, the STS upgrade, the capability requests,
    SASL, the PASS, NICK and USER burst, and what 001 starts. *)

From S2P Require Import Prelude Text Message ServerFeatures Capability CommandBuilder JoinTarget Scram OrdMap.
From S2P Require Import SessionTypes Platform Connection Sts Metadata SessionCore SessionOutbound SessionHistory.

Section Negotiation.
Context `{platform : Platform} `{crypto : Crypto}.

(** ** STS (stsflow.rs) *)

Definition apply_cached_sts (c : Core) : Core :=
  let '(store, cached) := sts_lookup (sts c) (host (config c)) (now c) in
  let c := c <| sts := store |> in
  let?? cached := cached else c in
  c <| port := cached_port cached |> <| tls_enabled := true |>.

Definition begin_sts_upgrade (c : Core) (new_port : N) : Core :=
  let c := c <| port := new_port |> <| tls_enabled := true |> in
  let c := set_state c StStsUpgrading in
  let text := lit "Upgraded to TLS on port " ++ show new_port in
  let c := emit c (Lifecycle (network_id (config c)) Info (lit "sts") text (now c)) in
  push_effect c Shutdown.

Definition handle_sts_advertisement (c : Core) (advertisement : option StsAdvertisement) : Core :=
  let?? advertisement := advertisement else c in
  if negb (tls_enabled c) then
    let?? new_port := adv_port advertisement else c in
    if negb (bool_decide (state c = StStsUpgrading)) then begin_sts_upgrade c new_port else c
  else
    let?? duration := duration_seconds advertisement else c in
    if (duration =? 0)%Z then c <| sts := sts_clear (sts c) (host (config c)) |> <| sts_duration := None |>
    else c <| sts := sts_store (sts c) (host (config c)) (port c) duration (now c) |>
           <| sts_duration := Some duration |>.

Definition finish_sts_upgrade (c : Core) : Core := connect_transport (reset_for_connection c).

Definition reschedule_sts_expiry (c : Core) : Core :=
  if negb (tls_enabled c) then c
  else
    let?? duration := sts_duration c else c in
    c <| sts_duration := None |> <| sts := sts_refresh (sts c) (host (config c)) duration (now c) |>.

(** ** Registration (registration.rs) *)

Definition REGISTRATION_TIMEOUT_MESSAGE : str := lit "The server didn't respond".

Definition send_registration (c : Core) : Core :=
  if registration_sent c then c
  else
    let cfg := config c in
    let send_pass := negb (is_empty (password cfg))
      && (negb (sasl_requested (sasl c)) || negb (is_empty (nickserv_password cfg))) in
    let pass_line := if send_pass then Some (pass (password cfg) (features c)) else None in
    let nick_line := nick (config_nick cfg) (features c) in
    let user_line := user (username cfg) (realname cfg) (features c) in
    let burst (pass_bytes : option str) (n u : str) : Core :=
      let c := match pass_bytes with Some p => send_line c (as_bytes p) | None => c end in
      let c := send_line c (as_bytes n) in
      let c := send_line c (as_bytes u) in
      set_state (c <| registration_sent := true |>) StRegistering in
    match pass_line, nick_line, user_line with
    | None, Ok n, Ok u => burst None n u
    | Some (Ok p), Ok n, Ok u => burst (Some p) n u
    | _, _, _ => fail c ErrRegistration (lit "IRC registration fields contain invalid characters") false
    end.

Definition try_registration_nick_fallback (c : Core) : Core * bool :=
  if negb (registration_sent c) then (c, false)
  else
    let fallback := match registration_nick c with
      | NickConfigured => Some (config_nick (config c) ++ lit "_", NickUnderscore)
      | NickUnderscore => Some (config_nick (config c) ++ lit "2", NickDigit)
      | NickDigit => None
      end in
    match fallback with
    | None => (c, false)
    | Some (fallback, next) =>
        match nick fallback (features c) with
        | Err _ => (c, false)
        | Ok l => (send_line (c <| registration_nick := next |> <| nickname := fallback |>) (as_bytes l), true)
        end
    end.

(** One token of a 005 line. *)
Definition isupport_token (c : Core) (token : str) : Core :=
  let c := c <| features := apply_token (features c) token |> in
  match strip_prefix (lit "CHANTYPES=") token with
  | Some value => c <| session_channel_types := value |>
  | None =>
      match strip_prefix (lit "CHATHISTORY=") token with
      | None => c
      | Some value =>
          match parse_i64 value with
          | None => c
          | Some maximum =>
              c <| history_limit := if (0 <? maximum)%Z then N.min HISTORY_LIMIT (Z.to_N maximum) else HISTORY_LIMIT |>
          end
      end
  end.

Definition apply_isupport (c : Core) (message : IrcMessage) : Core :=
  if negb (str_eqb (msg_command message) (lit "005")) || (length (msg_params message) <=? 2)%nat then c
  else foldl isupport_token c (text_param message <$> seq 1 (length (msg_params message) - 2)).

(** 001 while a SCRAM exchange is outstanding is not success. *)
Definition scram_outstanding (c : Core) : bool :=
  bool_decide (sasl_mechanism (sasl c) = Some SCRAM_SHA_256) && negb (sasl_succeeded (sasl c))
  && (sasl_pending (sasl c) || bool_decide (state c = StSasl) || exchange_started (sasl c)).

(** NickServ IDENTIFY after the welcome, with a warning when it goes out in clear text. *)
Definition identify (c : Core) : Core :=
  if negb (is_empty (nickserv_password (config c))) && negb (sasl_succeeded (sasl c))
     && negb (bool_decide (sasl_mechanism (sasl c) = Some SCRAM_SHA_256))
  then
    let c := if tls_enabled c then c
             else emit c (Lifecycle (network_id (config c)) Alert (lit "identify")
                            (lit "NickServ identify will be sent in clear text") (now c)) in
    (send_privmsg_locked c (lit "NickServ") (lit "IDENTIFY " ++ nickserv_password (config c))).1
  else c.

Definition autojoin_channel (c : Core) (channel : str) : Core :=
  let key := autojoin_key_for c channel in
  let '(c, joined) :=
    match make_join_target channel key new_features with
    | Some target => join_locked c target
    | None => (c, false)
    end in
  if joined then c else emit c (ErrorOccurred (network_id (config c)) ErrProtocol (lit "Invalid autojoin channel")).

Definition handle_welcome (c : Core) (message : IrcMessage) : Core :=
  if bool_decide (state c = StRegistered) || bool_decide (state c = StFailed) then c
  else if scram_outstanding c then fail c ErrAuthentication (lit "SASL authentication failed") false
  else
    let assigned := text_param message 0 in
    let c := if is_empty assigned then c else c <| nickname := assigned |> in
    let c := c <| connection := reset_retries (connection c) |> in
    let c := cancel_timer c SlotCapability in
    let c := cancel_timer c SlotRegistration in
    let c := c <| caps := (abandon_outstanding (caps c)).1 |> in
    let c := set_state c StRegistered in
    let c := emit c (RegisteredEvent (network_id (config c))) in
    let c := arm_ping_watchdog c in
    let c := subscribe_to_member_metadata c in
    let c := identify c in
    foldl autojoin_channel c (autojoin_channels c).

Definition on_registration_timeout (c : Core) : Core :=
  if bool_decide (state c = StRegistered) || bool_decide (state c = StFailed) then c
  else fail c ErrNetwork REGISTRATION_TIMEOUT_MESSAGE true.

(** ** Capabilities (caps.rs) *)

Definition begin_capability_negotiation (c : Core) : Core :=
  let c := set_state c StCapLs in
  let c := send_line c (lit "CAP LS 302" ++ CRLF) in
  arm_timer c SlotRegistration (from_millis (registration_timeout_ms (config c))).

Definition end_capability_negotiation (c : Core) : Core :=
  if capability_negotiation_ended c || bool_decide (state c = StRegistered) then c
  else if negb (registration_sent c) || negb (settled (caps c)) || sasl_pending (sasl c) then c
  else
    let c := cancel_timer (c <| capability_negotiation_ended := true |>) SlotCapability in
    send_line c (lit "CAP END" ++ CRLF).

Definition send_cap_req (c : Core) (line : str) : Core :=
  send_line c (as_bytes (lit "CAP REQ :" ++ line ++ CRLF)).

Definition request_capabilities (c : Core) : Core :=
  let '(negotiation, request) := take_request (caps c) in
  let c := c <| caps := negotiation |> in
  let c := if requests_sasl request then
             let s := (sasl c) <| sasl_requested := true |> <| sasl_pending := true |> in
             c <| sasl := if exchange_started s then s else s <| sasl_mechanism := request_mechanism request |> |>
           else c in
  let c := if is_empty (request_lines request) then c
           else
             let c := if registration_sent c then c else set_state c StCapReq in
             let c := foldl send_cap_req c (request_lines request) in
             arm_timer c SlotCapability (from_millis (capability_timeout_ms (config c))) in
  end_capability_negotiation (send_registration c).

Definition on_capability_timeout (c : Core) : Core :=
  let '(negotiation, abandoned) := abandon_outstanding (caps c) in
  let c := c <| caps := negotiation |> in
  let c := if contains abandoned Sasl then c <| sasl := (sasl c) <| sasl_pending := false |> |> else c in
  end_capability_negotiation (publish_capabilities c).

(** [Some metadata] replaces the limits. *)
Definition note_metadata (c : Core) (tokens : list str) : Core :=
  match parse_metadata_capability tokens with
  | Some m => c <| metadata := m |>
  | None => c
  end.

Definition cap_ls (c : Core) (message : IrcMessage) (ls_index : nat) : Core :=
  let c := c <| capability_list_seen := true |> in
  let tokens := capability_tokens message ls_index in
  let c := c <| caps := advertise (caps c) tokens |> in
  let c := match parse_sts_advertisement tokens with
           | Some advertisement => c <| pending_sts := Some advertisement |>
           | None => c
           end in
  let c := note_metadata c tokens in
  let continuation := (ls_index + 1 <? length (msg_params message))%nat
    && str_eqb (text_param message (ls_index + 1)) (lit "*") in
  if continuation then c
  else
    let c := handle_sts_advertisement c (pending_sts c) in
    if decide (state c = StStsUpgrading) then c else request_capabilities c.

Definition cap_new (c : Core) (message : IrcMessage) (new_index : nat) : Core :=
  let tokens := capability_tokens message new_index in
  let c := c <| caps := advertise (caps c) tokens |> in
  let c := match parse_sts_advertisement tokens with
           | Some advertisement => handle_sts_advertisement c (Some advertisement)
           | None => c
           end in
  let c := note_metadata c tokens in
  if decide (state c = StStsUpgrading) then c else request_capabilities c.

Definition cap_del (c : Core) (message : IrcMessage) (del_index : nat) : Core :=
  let tokens := capability_tokens message del_index in
  let c := c <| caps := withdraw (caps c) tokens |> in
  let c := match read_marker_token c with
           | Some token => if existsb (str_eqb token) tokens then c <| read_marker_token := None |> else c
           | None => c
           end in
  let c := publish_capabilities c in
  let c := if contains (enabled (caps c)) MemberMetadata then c else c <| metadata := default_metadata |> in
  let c := if replay_enabled c Chat then c else abandon_history_requests c in
  request_capabilities c.

Definition note_read_marker_ack (c : Core) (tokens : list str) (granted : IrcCapabilitySet) : Core :=
  if negb (contains granted ReadMarker) || bool_decide (is_Some (read_marker_token c)) then c
  else match List.find (fun t => str_eqb t (lit "draft/read-marker") || str_eqb t (lit "soju.im/read")) tokens with
       | Some token => c <| read_marker_token := Some token |>
       | None => c
       end.

Definition cap_ack (c : Core) (message : IrcMessage) (ack_index : nat) : Core :=
  let tokens := capability_tokens message ack_index in
  let '(negotiation, granted) := acknowledge (caps c) tokens in
  let c := c <| caps := negotiation |> in
  let c := note_read_marker_ack c tokens granted in
  let c := match parse_metadata_capability tokens with
           | Some m => if bool_decide (is_Some (max_subs m)) || bool_decide (is_Some (max_value_bytes m))
                       then c <| metadata := m |> else c
           | None => c
           end in
  let c := publish_capabilities c in
  if contains granted Sasl && negb (exchange_started (sasl c)) then
    let c := c <| sasl := (sasl c) <| exchange_started := true |> |> in
    let c := set_state c StSasl in
    if decide (sasl_mechanism (sasl c) = Some SCRAM_SHA_256) then
      let c := c <| sasl := (sasl c) <| sasl_scram := Some new_exchange |> |> in
      send_line c (lit "AUTHENTICATE SCRAM-SHA-256" ++ CRLF)
    else send_line c (lit "AUTHENTICATE PLAIN" ++ CRLF)
  else
    let c := if decide (state c = StRegistered) then subscribe_to_member_metadata c else c in
    end_capability_negotiation c.

Definition cap_nak (c : Core) (message : IrcMessage) (nak_index : nat) : Core :=
  let tokens := capability_tokens message nak_index in
  let '(negotiation, refused) := reject (caps c) tokens in
  let c := c <| caps := negotiation |> in
  if contains refused Sasl then
    fail (c <| sasl := (sasl c) <| sasl_pending := false |> |>) ErrAuthentication
      (lit "Server rejected the SASL capability") false
  else request_capabilities c.

Definition handle_cap (c : Core) (message : IrcMessage) : Core :=
  match param_index message (lit "LS") with
  | Some ls_index => cap_ls c message ls_index
  | None =>
      if negb (capability_list_seen c) then c
      else match param_index message (lit "NEW") with
      | Some new_index => cap_new c message new_index
      | None =>
          match param_index message (lit "DEL") with
          | Some del_index => cap_del c message del_index
          | None =>
              match param_index message (lit "ACK") with
              | Some ack_index => cap_ack c message ack_index
              | None =>
                  match param_index message (lit "NAK") with
                  | Some nak_index => cap_nak c message nak_index
                  | None => c
                  end
              end
          end
      end
  end.

(** ** SASL (caps.rs) *)

Definition send_sasl_response (c : Core) (raw : bytes) : Core := foldl send_line c (encode_sasl_frames raw).

Definition handle_scram_authenticate (c : Core) (payload : bytes) : Core :=
  match sasl_scram (sasl c) with
  | None => c
  | Some exchange =>
      let '(exchange, reply) :=
        take_payload exchange payload (sasl_account_name (config c)) (sasl_secret (config c)) (entropy c) in
      let c := c <| sasl := (sasl c) <| sasl_scram := Some exchange |> |> in
      match reply with
      | Send raw => send_sasl_response c raw
      | Continue => c
      | ReplyFail => fail c ErrAuthentication (lit "SASL authentication failed") false
      end
  end.

(** The PLAIN credential: account, account and secret between NULs. *)
Definition plain_credential (cfg : SessionConfig) : bytes :=
  as_bytes (sasl_account_name cfg) ++ [0] ++ as_bytes (sasl_account_name cfg) ++ [0] ++ as_bytes (sasl_secret cfg).

Definition handle_authenticate (c : Core) (message : IrcMessage) : Core :=
  if negb (bool_decide (state c = StSasl)) || is_empty (msg_params message) then c
  else
    let front := text_param message 0 in
    if str_eqb front (lit "*") then fail c ErrAuthentication (lit "Server aborted SASL authentication") false
    else if decide (sasl_mechanism (sasl c) = Some SCRAM_SHA_256) then handle_scram_authenticate c (as_bytes front)
    else if negb (str_eqb front (lit "+")) then c
    else send_sasl_response c (plain_credential (config c)).

Definition handle_sasl_success (c : Core) : Core :=
  if negb (bool_decide (state c = StSasl)) then c
  else if negb (sasl_pending (sasl c)) then c
  else if scram_unverified (sasl c) then fail c ErrAuthentication (lit "SASL authentication failed") false
  else
    let c := c <| sasl := (sasl c) <| sasl_pending := false |> <| sasl_succeeded := true |> |> in
    set_state (end_capability_negotiation c) StRegistering.
End Negotiation.
