(* ===== verification/SessionDispatch.v ===== *)
(** * SessionDispatch: inbound lines, the transport's callbacks and the public entry points
    (src/client/src/session/dispatch.rs, malformed.rs, sink.rs, timers.rs, session.rs, outbound.rs)

    [session_step] is the whole session as one function: what an entry point, called with the
    clock, transport state and random bytes of that moment, does to the state. *)

From S2P Require Import Prelude Text Message Parser Framer CaseMapping ServerFeatures Capability CommandBuilder.
From S2P Require Import JoinTarget Scram OrdMap SessionTypes Platform Connection Sts Ctcp Metadata Typing SessionCore.
From S2P Require Import SessionOutbound SessionMarkers SessionHistory SessionNegotiation.

(** ** Malformed frames (malformed.rs) *)
Section Malformed.
Context `{policy : SecretPolicy}.

Definition is_shown (b : byte) : bool := (b =? 9) || ((0x20 <=? b) && (b <? 0x7F)).

Definition preview_wire (preview : bytes) (byte_count : N) (channel_types : str) : str :=
  let display := (fun b => if is_shown b then b else chr "?") <$> preview in
  let spaced := (fun b => if is_shown b then b else chr " ") <$> preview in
  let stripped := base.filter (fun b => is_shown b = true) preview in
  let result :=
    match redact_preview_line (wire_text stripped) channel_types with
    | Some safe => safe
    | None =>
        match redact_preview_line (wire_text spaced) channel_types with
        | Some safe => safe
        | None => wire_text display
        end
    end in
  if blen preview <? byte_count then result ++ [0x2026] else result.

Definition describe_malformed (kind : str) (error : IrcError) (preview : bytes) (byte_count : N)
    (channel_types : str) : str :=
  let text := lit "Malformed IRC " ++ kind ++ lit ": " ++ error_name error ++ lit " (" ++ show byte_count ++ lit " bytes)" in
  let shown := preview_wire preview byte_count channel_types in
  if is_empty shown then text else text ++ lit ". Preview: " ++ shown.

Definition registration_sentence (message : IrcMessage) : option str :=
  let count := length (msg_params message) in
  let named command := str_eqb (msg_command message) command in
  let minimum :=
    if named (lit "432") || named (lit "433") || named (lit "436") || named (lit "437") then 3%nat
    else if named (lit "451") || named (lit "462") || named (lit "465") then 2%nat
    else 1%nat in
  if (count <? minimum)%nat then None
  else let? raw := last (msg_params message) in
       let reason := trim (wire_text raw) in
       if is_empty reason then None else Some reason.

(** dispatch.rs, [server_sentence_or] *)
Definition server_sentence_or (c : Core) (message : IrcMessage) (fallback : str) : str :=
  match registration_sentence message with
  | None => fallback
  | Some reason =>
      if negb (allows_transcript reason (session_channel_types c)) then fallback
      else if bool_decide (is_Some (redact_preview_line reason (session_channel_types c))) then fallback
      else reason
  end.

Definition emit_protocol_error (c : Core) (kind : str) (error : IrcError) (preview : bytes) (byte_count : N) : Core :=
  let message := describe_malformed kind error preview byte_count (session_channel_types c) in
  emit c (ErrorOccurred (network_id (config c)) ErrProtocol message).
End Malformed.

(** ** Dispatch (dispatch.rs) *)

Definition registration_handshake (c : Core) : bool :=
  match state c with
  | StConnecting | StStsUpgrading | StCapLs | StCapReq | StSasl | StRegistering => true
  | _ => false
  end.

Definition is_registration_refusal (command : str) : bool :=
  existsb (str_eqb command)
    [lit "432"; lit "433"; lit "436"; lit "437"; lit "451"; lit "462"; lit "465"].

Definition probe_channel_away (c : Core) (channel : str) : Core :=
  if is_empty channel || negb (contains (enabled (caps c)) AwayNotify) then c
  else (send_command c (lit "WHO " ++ channel) []).1.

(** The label that correlates a line with a request: its own, or its batch's. *)
Definition correlation_label (c : Core) (message : IrcMessage) : str :=
  let label := default [] (tag_text message (lit "label")) in
  if negb (is_empty label) then label
  else
    let batch := default [] (tag_text message (lit "batch")) in
    if is_empty batch then []
    else default [] (batch_request_label <$> bt_get batch (open (batches c))).

(** An INVITE is remembered until the channel is joined. *)
Definition note_invite (c : Core) (message : IrcMessage) : Core :=
  if str_eqb (msg_command message) (lit "INVITE") && (2 <=? length (msg_params message))%nat then
    let nick := prefix_nick message in
    let channel := text_param message (length (msg_params message) - 1) in
    if negb (is_empty nick) && negb (is_empty channel)
    then c <| pending_invite := Some (mkInvite nick channel) |> else c
  else c.

Definition emit_inbound (c : Core) (message : IrcMessage) : Core :=
  emit c (Inbound (network_id (config c)) message (correlation_label c message) (nickname c)
            (session_channel_types c) (now c)).

Definition answer_ping (c : Core) (message : IrcMessage) : Core :=
  match last (msg_params message) with
  | None => emit c (ErrorOccurred (network_id (config c)) ErrProtocol (lit "PING message has no token"))
  | Some token => send_line c (lit "PONG :" ++ token ++ CRLF)
  end.

Section Dispatch.
Context `{platform : Platform} `{crypto : Crypto} `{policy : SecretPolicy}.

Definition note_self_join (c : Core) (channel : str) : Core :=
  if is_empty channel then c
  else
    let c := bump_history_generation c channel in
    let c := request_channel_history c channel in
    let c := record_autojoin c channel true in
    match pending_invite c with
    | Some invite =>
        if str_eqb (fold_channel c channel) (fold_channel c (invite_channel invite))
        then c <| pending_invite := None |> else c
    | None => c
    end.

Definition note_self_leave (c : Core) (channel : str) : Core :=
  if is_empty channel then c
  else
    let c := bump_history_generation c channel in
    let c := forget_channel_history c channel in
    record_autojoin c channel false.

Definition note_nick_change (c : Core) (message : IrcMessage) : Core :=
  if str_eqb (msg_command message) (lit "NICK") then
    let old_nick := claimed_nick message in
    let new_nick := text_param message 0 in
    if negb (is_empty old_nick) && negb (is_empty new_nick) && nicks_equal c old_nick (nickname c)
    then c <| nickname := new_nick |> else c
  else c.

(** The line survived every earlier stage: it reaches the translator. *)
Definition deliver_message (c : Core) (message : IrcMessage) : Core :=
  let command := msg_command message in
  let c := note_nick_change c message in
  let c := if str_eqb command (lit "FAIL")
           then handle_read_marker_fail (handle_chat_history_fail c message) message else c in
  let c := if str_eqb command (lit "366") && (2 <=? length (msg_params message))%nat
           then probe_channel_away c (text_param message 1) else c in
  let c := emit_message_received c message in
  let c :=
    if str_eqb command (lit "JOIN") && self_prefixed c message then note_self_join c (text_param message 0)
    else if str_eqb command (lit "PART") && self_prefixed c message then note_self_leave c (text_param message 0)
    else if str_eqb command (lit "KICK") && is_self c (text_param message 1)
    then note_self_leave c (text_param message 0)
    else if str_eqb command (lit "475") && (2 <=? length (msg_params message))%nat
    then drop_stored_autojoin_key c (text_param message 1)
    else c in
  let carried_label := default [] (tag_text message (lit "label")) in
  if is_empty carried_label then c else finish_request_label c carried_label.

Definition refuse_registration (c : Core) (message : IrcMessage) : Core :=
  let command := msg_command message in
  let '(c, retried) :=
    if str_eqb command (lit "433") then try_registration_nick_fallback c else (c, false) in
  if retried then c
  else
    let fallback := lit "IRC registration was refused (" ++ wire_text (as_bytes command) ++ lit ")" in
    fail c ErrRegistration (server_sentence_or c message fallback) false.

Definition server_error_line (c : Core) (message : IrcMessage) : Core :=
  let c := emit_message_received c message in
  let text := server_sentence_or c message (lit "IRC server reported an error") in
  if registration_handshake c then fail c ErrRegistration text false else fail c ErrNetwork text true.

(** The commands the connection machine answers itself, [None] for the others. *)
Definition dispatch_command (c : Core) (message : IrcMessage) : option Core :=
  let named command := str_eqb (msg_command message) (lit command) in
  if named "CAP"%string then Some (handle_cap c message)
  else if named "AUTHENTICATE"%string then Some (handle_authenticate c message)
  else if named "001"%string then Some (handle_welcome c message)
  else if named "903"%string then Some (handle_sasl_success c)
  else if named "774"%string then Some (handle_metadata_sync_later c message)
  else if named "904"%string || named "905"%string
  then Some (fail c ErrAuthentication (lit "SASL authentication failed") false)
  else if named "421"%string && bool_decide (is_Some (param_index message (lit "CAP"))) && bool_decide (state c = StCapLs)
  then Some (send_registration (cancel_timer (c <| capability_negotiation_ended := true |>) SlotCapability))
  else if named "464"%string
  then Some (fail c ErrAuthentication (lit "Server password or authentication was rejected") false)
  else None.

(** Everything after the batch and label routing. *)
Definition handle_routed (c : Core) (message : IrcMessage) : Core :=
  let command := msg_command message in
  if str_eqb command (lit "ACK") then finish_request_label c (default [] (tag_text message (lit "label")))
  else if str_eqb command (lit "PING") then answer_ping c message
  else if str_eqb command (lit "PONG") && answers_probe (ping c) message then arm_ping_watchdog c
  else
    let '(c, consumed) := deliver_read_marker c message in
    if consumed then c
    else
      let '(c, consumed) :=
        if str_eqb command (lit "PRIVMSG") && (2 <=? length (msg_params message))%nat
           && nicks_equal c (text_param message 0) (nickname c)
        then answer_ctcp c message else (c, false) in
      if consumed then c
      else match dispatch_command c message with
      | Some c => c
      | None =>
          if is_registration_refusal command && negb (bool_decide (state c = StRegistered))
          then refuse_registration c message
          else if str_eqb command (lit "ERROR") then server_error_line c message
          else deliver_message c message
      end.

Definition handle_message (c : Core) (message : IrcMessage) : Core :=
  let filtered :=
    match ignore_filter c with
    | Some filter => filter message (network_id (config c)) (nickname c)
    | None => false
    end in
  if filtered then c
  else
    let command := msg_command message in
    let c := note_invite c message in
    let c := emit_inbound c message in
    let c := apply_isupport c message in
    let c := if str_eqb command (lit "376") || str_eqb command (lit "422")
             then c <| features := mark_case_mapping_known (features c) |> else c in
    if str_eqb command (lit "BATCH") then handle_batch c message
    else
      let '(c, captured) := capture_in_batch c message in
      if captured then c else handle_routed c message.

(** One frame, once the loop of [handle_bytes] has checked that no upgrade is under way. *)
Definition handle_frame (c : Core) (frame : bytes) : Core :=
  if decide (state c = StStsUpgrading) then c
  else match parse frame with
       | Ok message => handle_message c message
       | Err error => emit_protocol_error c (lit "message") error frame (blen frame)
       end.

Definition report_fault (c : Core) (fault : IrcFrameFault) : Core :=
  emit_protocol_error c (lit "frame") (fault_error fault) (fault_preview fault) (fault_byte_count fault).

Definition handle_bytes (c : Core) (incoming : bytes) : Core :=
  let c := if is_watching (ping c) then arm_ping_watchdog c else c in
  let '(fr, result) := feed (framer c) incoming in
  let c := c <| framer := fr |> in
  let c := foldl report_fault c (faults result) in
  foldl handle_frame c (frames result).

(** ** The lifecycle (session.rs) *)

Definition start (c : Core) : Core :=
  if negb (bool_decide (state c = StIdle)) && negb (bool_decide (state c = StFailed)) then c
  else
    let cfg := config c in
    if is_empty (network_id cfg) || is_empty (host cfg) || (config_port cfg =? 0)
       || is_empty (config_nick cfg) || is_empty (username cfg) || is_empty (realname cfg)
    then fail c ErrRegistration (lit "IRC session configuration is incomplete") false
    else
      let c := c <| connection := begin_start (connection c) |> in
      let c := c <| port := config_port cfg |> <| tls_enabled := config_tls_enabled cfg |> <| sts_duration := None |> in
      let c := apply_cached_sts c in
      let c := reset_for_connection c in
      let c := set_state c StConnecting in
      connect_transport c.

Definition stop (c : Core) : Core :=
  let c := reschedule_sts_expiry c in
  let c := c <| connection := begin_stop (connection c) |> in
  let c := cancel_timer c SlotReconnect in
  let c := cancel_timer c SlotCapability in
  let c := cancel_timer c SlotRegistration in
  let c := cancel_ping_watchdog c in
  let c := clear_pending_request_labels c true in
  if decide (state c = StIdle) then c
  else if decide (state c = StReconnecting \/ state c = StFailed) then set_state c StIdle
  else push_effect (push_effect (set_state c StClosing) Shutdown) SettleStop.

Definition quit (c : Core) (reason : str) : Core * bool :=
  if decide (state c = StIdle) then (c, false)
  else if decide (state c = StRegistered) then
    let command := if is_empty reason then lit "QUIT" else lit "QUIT :" ++ reason in
    let '(c, sent) := send_command c command [] in
    if negb sent then (c, false) else (stop c, true)
  else (stop c, true).

Definition begin_reconnect_attempt (c : Core) : Core :=
  if negb (bool_decide (state c = StReconnecting)) then c
  else
    let c := cancel_timer c SlotReconnect in
    let c := apply_cached_sts c in
    let c := reset_for_connection c in
    let c := set_state c StConnecting in
    connect_transport c.

(** [run_effects] of [SettleStop]: the transport settled after a stop. *)
Definition settle_stop (c : Core) : Core :=
  match transport_state c with
  | TrIdle | TrDisconnected | TrFailed => set_state c StIdle
  | _ => c
  end.

(** ** The transport's callbacks (sink.rs) *)

Definition awaiting_socket (c : Core) : bool :=
  match state c with StConnecting | StStsUpgrading => true | _ => false end.

Definition on_connected (c : Core) : Core :=
  if negb (tls_enabled c) && awaiting_socket c then begin_capability_negotiation c else c.

Definition on_encrypted (c : Core) : Core :=
  if tls_enabled c && awaiting_socket c then begin_capability_negotiation c else c.

Definition on_disconnected (c : Core) : Core :=
  let '(conn, outcome) := on_disconnect (connection c) (state c) in
  let c := c <| connection := conn |> in
  if decide (outcome = FinishStsUpgrade) then finish_sts_upgrade c
  else
    let c := reschedule_sts_expiry c in
    match outcome with
    | ScheduleReconnect => schedule_reconnect c
    | SettleIdle => set_state c StIdle
    | FailUnexpected => fail c ErrNetwork (lit "Connection closed by the server") true
    | Ignore | FinishStsUpgrade => c
    end.

Definition error_occurred (c : Core) (error : TransportError) : Core :=
  if is_stopping (connection c) then c
  else
    let kind := match transport_kind error with
      | TransportTls | TransportCertificate => ErrTls
      | TransportResolve | TransportNetwork | TransportTimeout => ErrNetwork
      end in
    fail c kind (transport_message error) true.

(** timers.rs, [timer_fired]: the expiry of [id] on [slot]. *)
Definition timer_fired (c : Core) (slot : TimerSlot) (id : N) : Core :=
  if negb (bool_decide (timers c !! slot_index slot = Some (Some id))) then c
  else
    let c := c <| timers := <[slot_index slot := None]> (timers c) |> in
    match slot with
    | SlotReconnect => begin_reconnect_attempt c
    | SlotCapability => on_capability_timeout c
    | SlotRegistration => on_registration_timeout c
    | SlotPing => on_ping_watchdog_fired c
    | SlotLabel => on_label_timer_fired c
    end.

(** A callback the clock runs: it leaves the clock first. *)
Fixpoint remove_callback (callback : Callback) (l : list ClockEntry) : list ClockEntry :=
  match l with
  | [] => []
  | e :: l => if decide (entry_callback e = callback) then l else e :: remove_callback callback l
  end.

Definition run_callback (c : Core) (callback : Callback) : Core :=
  let c := c <| clock := remove_callback callback (clock c) |> in
  match callback with
  | SlotTimer slot id => timer_fired c slot id
  | MetadataSync target => (send_command c (lit "METADATA " ++ target ++ lit " SYNC") []).1
  end.
End Dispatch.
