(* ===== verification/Session.v ===== *)
(** * Session: the session as a state machine

    Every entry point of the session, from its owner, its transport and its clock, is an
    input; [session_step] is what one of them does. Between two inputs the world moves on:
    a [Moment] is the wall clock, the transport's state, the random bytes the system would
    give, and the policy cache other sessions share. *)

From S2P Require Import Prelude Text Message CaseMapping ServerFeatures Capability JoinTarget Scram OrdMap SessionTypes.
From S2P Require Import Platform Connection Sts Ctcp Metadata Typing SessionCore SessionOutbound SessionMarkers.
From S2P Require Import SessionHistory SessionNegotiation SessionDispatch.

(** What the owner can ask for (outbound.rs). *)
Inductive Request :=
| SendPrivmsg (target body : str)
| SendNotice (target body : str)
| SendAction (target body : str)
| SendCtcp (target command argument request_label : str)
| SendTyping (target : str) (phase : TypingPhase)
| SendChannelMode (request : IrcChannelModeRequest)
| Join (target : IrcJoinTarget)
| Part (channel : str)
| Kick (channel nick reason : str)
| Kickban (channel mask nick reason : str)
| Invite (nick channel : str)
| SetTopic (channel topic : str)
| SetAway (reason : str)
| MarkAway (reason : str)
| ClearAway
| SetOwnMetadata (key value : str)
| ClearOwnMetadata (key : str)
| ChangeNick (nick : str)
| Whois (nick request_label : str)
| StartLabeledRequest
| CancelRequestLabel (label : str)
| SendMonitor (modifier : char) (nicks : list str)
| ListChannels (mask : str)
| SendRaw (line : str)
| RequestOlderHistory (target msgid : str) (timestamp : option Time)
| RequestHistoryAfter (target : str) (after : Time)
| RequestHistoryLatest (target : str)
| RequestHistoryTargets (from until : Time)
| RequestReadMarkerGet (target : str)
| QueueReadMarkerSet (target : str) (when : Time).

Inductive Input :=
| Start
| Stop
| Quit (reason : str)
| NotifyReachable
| SetIgnoreFilter (filter : option (IrcMessage -> str -> str -> bool))
| SetHistoryResume (resume : option (str -> IrcCaseMapping -> option Time))
| Owner (request : Request)
| TransportConnected
| TransportEncrypted
| TransportDisconnected
| TransportBytes (incoming : bytes)
| TransportFailed (error : TransportError)
| TransportSettled
| ClockFires (callback : Callback).

Record Moment := mkMoment {
  moment_now : Time;
  moment_transport : ConnectionState;
  moment_entropy : option bytes;
  moment_sts : StsStore;
}.

Definition at_moment (c : Core) (m : Moment) : Core :=
  c <| now := moment_now m |> <| transport_state := moment_transport m |>
    <| entropy := moment_entropy m |> <| sts := moment_sts m |>.

Section Session.
Context `{platform : Platform} `{crypto : Crypto} `{policy : SecretPolicy}.

Definition run_request (c : Core) (request : Request) : Core :=
  match request with
  | SendPrivmsg target body => (send_privmsg_locked c target body).1
  | SendNotice target body => (send_notice c target body).1
  | SendAction target body => (send_action c target body).1
  | SendCtcp target command argument label => (send_ctcp c target command argument label).1
  | SendTyping target phase => (send_typing c target phase).1
  | SendChannelMode request => (send_channel_mode c request).1
  | Join target => (join_locked c target).1
  | Part channel => (part c channel).1
  | Kick channel nick reason => (kick c channel nick reason).1
  | Kickban channel mask nick reason => (kickban c channel mask nick reason).1
  | Invite nick channel => (invite c nick channel).1
  | SetTopic channel topic => (set_topic c channel topic).1
  | SetAway reason => (set_away_locked c reason).1
  | MarkAway reason => (mark_away c reason).1
  | ClearAway => (set_away_locked c []).1
  | SetOwnMetadata key value => (set_own_metadata c key value).1
  | ClearOwnMetadata key => (set_own_metadata c key []).1
  | ChangeNick nick => (change_nick c nick).1
  | Whois nick label => (whois c nick label).1
  | StartLabeledRequest => (start_labeled_request c).1
  | CancelRequestLabel label => drop_request_label c label
  | SendMonitor modifier nicks => (send_monitor_locked c modifier nicks).1
  | ListChannels mask => (list_channels c mask).1
  | SendRaw line => (send_command c line []).1
  | RequestOlderHistory target msgid timestamp => (request_older_history c target msgid timestamp).1
  | RequestHistoryAfter target after => (request_history_after c target after).1
  | RequestHistoryLatest target => (request_history_latest c target).1
  | RequestHistoryTargets from until => (request_history_targets c from until).1
  | RequestReadMarkerGet target => (request_read_marker_get c target).1
  | QueueReadMarkerSet target when => queue_read_marker_set c target when
  end.

Definition run_input (c : Core) (input : Input) : Core :=
  match input with
  | Start => start c
  | Stop => stop c
  | Quit reason => (quit c reason).1
  | NotifyReachable => begin_reconnect_attempt c
  | SetIgnoreFilter filter => c <| ignore_filter := filter |>
  | SetHistoryResume resume => c <| history_resume := resume |>
  | Owner request => run_request c request
  | TransportConnected => on_connected c
  | TransportEncrypted => on_encrypted c
  | TransportDisconnected => on_disconnected c
  | TransportBytes incoming => handle_bytes c incoming
  | TransportFailed error => error_occurred c error
  | TransportSettled => settle_stop c
  | ClockFires callback => run_callback c callback
  end.

Definition session_step (c : Core) (step : Moment * Input) : Core := run_input (at_moment c step.1) step.2.

Definition session_run (c : Core) (steps : list (Moment * Input)) : Core := foldl session_step c steps.
End Session.
