(* ===== verification/SessionInvariants.v ===== *)
(** * SessionInvariants: proving that the whole session preserves a property

    The session changes its state through a few primitive moves: it emits an event, queues an
    effect, arms or cancels a timer, moves the state machine, touches the batch ledger or the
    SASL record, and sets fields nothing else depends on. [Stable P] says that [P] survives
    each of them; [Restartable P] that it survives the moves that begin a connection. From
    these, every operation and every input preserves [P]. *)

From S2P Require Import Prelude Text Message Parser Framer CaseMapping ServerFeatures Capability JoinTarget Scram.
From S2P Require Import OrdMap SessionTypes Platform Connection Sts Ctcp Metadata Typing SessionCore SessionOutbound.
From S2P Require Import SessionMarkers SessionHistory SessionNegotiation SessionDispatch Session.

Create HintDb stable.

(** The fields a property may read; the others are quiet. *)
Definition loud (c : Core) :=
  (config c, state c, tls_enabled c, sasl c, connection c, timers c, timer_sequence c, clock c,
   (pending_labels c, next_request_label c, events c, effects c, batches c)).

Definition is_label_event (e : SessionEvent) : bool :=
  match e with RequestLabelFinished _ _ => true | _ => false end.

(** No open batch holds more lines than the buffer's ceiling. *)
Definition lines_bounded (b : OpenBatch) : Prop := (length (batch_lines (collected b)) <= HISTORY_BUFFER_CEILING)%nat.
Definition ledger_lines_ok (l : BatchLedger) : Prop := Forall (fun e => lines_bounded e.2) (open l).

(** What an operation may do to the batch ledger. *)
Inductive ledger_move : relation BatchLedger :=
| LedgerDrop l r : ledger_move l (l <| open := bt_remove r (open l) |>)
| LedgerIgnore l r :
    (length (ignored l) < MAX_IGNORED_BATCHES)%nat -> ledger_move l (l <| ignored := bs_insert r (ignored l) |>)
| LedgerForget l r : ledger_move l (l <| ignored := bs_remove r (ignored l) |>)
| LedgerPut l r b :
    (ledger_lines_ok l -> lines_bounded b) -> ledger_move l (l <| open := bt_insert r b (open l) |>).

(** What an operation may do to the SASL record without beginning a connection. *)
Inductive sasl_move `{Crypto} (c : Core) : SaslState -> Prop :=
| SaslRequest s :
    exchange_started s = exchange_started (sasl c) -> sasl_succeeded s = sasl_succeeded (sasl c) ->
    sasl_scram s = sasl_scram (sasl c) ->
    (exchange_started (sasl c) = true -> sasl_mechanism s = sasl_mechanism (sasl c)) -> sasl_move c s
| SaslAdvance x payload :
    sasl_scram (sasl c) = Some x ->
    sasl_move c ((sasl c) <| sasl_scram := Some
      (take_payload x payload (sasl_account_name (config c)) (sasl_secret (config c)) (entropy c)).1 |>)
| SaslSuccess :
    state c = StSasl -> scram_unverified (sasl c) = false ->
    sasl_move c ((sasl c) <| sasl_pending := false |> <| sasl_succeeded := true |>).

(** The exchange a granted [sasl] begins (caps.rs, the ACK branch of [handle_cap]). *)
Definition begin_exchange (c : Core) : Core :=
  let c := set_state (c <| sasl := (sasl c) <| exchange_started := true |> |>) StSasl in
  if decide (sasl_mechanism (sasl c) = Some SCRAM_SHA_256)
  then c <| sasl := (sasl c) <| sasl_scram := Some new_exchange |> |> else c.

(** No SCRAM exchange that was started is short of success. *)
Definition welcome_ok (c : Core) : Prop :=
  sasl_mechanism (sasl c) = Some SCRAM_SHA_256 -> exchange_started (sasl c) = true -> sasl_succeeded (sasl c) = true.

(** A queued connect carries the session's own address and security. *)
Definition effect_ok (c : Core) (e : Effect) : Prop :=
  match e with Connect h p t => h = host (config c) /\ p = port c /\ t = tls_enabled c | _ => True end.

(** The moves that leave a scheduled reconnect alone. *)
Record Moves `{Crypto} (P : Core -> Prop) : Prop := {
  st_quiet c c' : loud c' = loud c -> P c -> P c';
  st_emit c e : is_label_event e = false -> P c -> P (emit c e);
  st_effect c e : effect_ok c e -> P c -> P (push_effect c e);
  st_arm c slot delay : P c -> P (arm_timer c slot delay);
  st_fires c callback :
    (forall slot id, callback = SlotTimer slot id -> timers c !! slot_index slot <> Some (Some id)) -> P c ->
    P (c <| clock := remove_callback callback (clock c) |>);
  st_sync c target delay : P c -> P (c <| clock := clock c ++ [mkEntry (MetadataSync target) delay] |>);
  st_registered c : welcome_ok c -> P c -> P (set_state c StRegistered);
  st_exchange c : exchange_started (sasl c) = false -> P c -> P (begin_exchange c);
  st_tls c : P c -> P (c <| tls_enabled := true |>);
  st_connection c conn : P c -> P (c <| connection := conn |>);
  st_sasl c s : sasl_move c s -> P c -> P (c <| sasl := s |>);
  st_ledger c l : rtc ledger_move (batches c) l -> P c -> P (c <| batches := l |>);
  st_begin_label c : P c -> P (begin_labeled_request c).1;
  st_drop_label c label : P c -> P (drop_request_label c label);
  st_finish_label c label : P c -> P (finish_request_label c label);
  st_clear_labels c : P c -> P (clear_pending_request_labels c true);
  st_expire_labels c : P c -> P (on_label_timer_fired c);
}.

(** An expiry of [slot] leaves the clock and its slot. *)
Definition release (c : Core) (slot : TimerSlot) (id : N) : Core :=
  c <| clock := remove_callback (SlotTimer slot id) (clock c) |> <| timers := <[slot_index slot := None]> (timers c) |>.

(** A property any timer and any state but the two of the handshake may change under. *)
Record Stable `{Crypto} (P : Core -> Prop) : Prop := {
  sb_moves :> Moves P;
  sb_cancel c slot : P c -> P (cancel_timer c slot);
  sb_expired c slot id : timers c !! slot_index slot = Some (Some id) -> P c -> P (release c slot id);
  sb_state c s : s <> StRegistered -> s <> StSasl -> P c -> P (set_state c s);
}.

(** A property that may depend on the reconnect timer and on its state: they change together,
    by scheduling a reconnect or giving up. *)
Record Steady `{Crypto} (P : Core -> Prop) : Prop := {
  sd_moves :> Moves P;
  st_cancel c slot : slot <> SlotReconnect -> P c -> P (cancel_timer c slot);
  st_expired c slot id :
    slot <> SlotReconnect -> timers c !! slot_index slot = Some (Some id) -> P c -> P (release c slot id);
  st_state c s : s <> StRegistered -> s <> StSasl -> s <> StReconnecting -> P c -> P (set_state c s);
  st_schedule c : P c -> P (schedule_reconnect c);
  st_give_up c : P c -> P (set_state (cancel_timer c SlotReconnect) StFailed);
}.

(** The operations that end a scheduled reconnect: the owner's stop, and the attempt. *)
Definition Retries `{platform : Platform} `{crypto : Crypto} `{policy : SecretPolicy} (P : Core -> Prop) : Prop :=
  (forall c, P c -> P (stop c)) /\
  (forall c, P c -> P (begin_reconnect_attempt c)) /\
  (forall c id, timers c !! slot_index SlotReconnect = Some (Some id) -> P c ->
    P (begin_reconnect_attempt (release c SlotReconnect id))).

Record Restartable (P : Core -> Prop) : Prop := {
  rs_ledger c : P c -> P (c <| batches := new_ledger |>);
  rs_sasl c : state c <> StSasl -> P c -> P (c <| sasl := new_sasl |>);
}.

Section Stability.
Context `{platform : Platform} `{crypto : Crypto} `{policy : SecretPolicy}.
Context (P : Core -> Prop) (HP : Steady P).

Lemma let_core (X : Core) (body : Core -> Core) : P X -> (forall c, P c -> P (body c)) -> P (let c := X in body c).
Proof using Type. intros. cbv zeta. auto. Qed.

(** The same, when what follows still needs to know the SASL record. *)
Lemma let_core_sasl s (X : Core) (body : Core -> Core) :
  P X -> sasl X = s -> (forall c, P c -> sasl c = s -> P (body c)) -> P (let c := X in body c).
Proof using Type. intros. cbv zeta. auto. Qed.

Lemma let_core_fst {A} (X : Core) (body : Core -> Core * A) :
  P X -> (forall c, P c -> P (body c).1) -> P (let c := X in body c).1.
Proof using Type. intros. cbv zeta. auto. Qed.

Lemma pair_core {A} (X : Core * A) (body : Core -> A -> Core) :
  P X.1 -> (forall c a, P c -> P (body c a)) -> P (let '(c, a) := X in body c a).
Proof using Type. destruct X. cbn. auto. Qed.

Lemma pair_core_fst {A B} (X : Core * A) (body : Core -> A -> Core * B) :
  P X.1 -> (forall c a, P c -> P (body c a).1) -> P (let '(c, a) := X in body c a).1.
Proof using Type. destruct X. cbn. auto. Qed.

Lemma stable_fold {A} (f : Core -> A -> Core) l c : (forall c x, P c -> P (f c x)) -> P c -> P (foldl f c l).
Proof using Type. intros Hf. apply (foldl_invariant f P). auto. Qed.

Ltac sasl_side := apply SaslRequest; repeat case_match; cbn in *; congruence || done.

(** An assignment of a quiet field, checked on a variable so that nested ones stay cheap. *)
Ltac quiet_update :=
  lazymatch goal with
  | |- P (@update _ ?T ?proj ?upd ?f ?c) =>
      let H := fresh in
      assert (H : forall c0, loud (@update Core T proj upd f c0) = loud c0) by reflexivity;
      apply (st_quiet P HP c _ (H c)); clear H
  end.

(** One step of the walk along a definition: its bindings and tests, then the operation or the
    field it ends with. *)
Ltac walk_step :=
  lazymatch goal with
  | |- P (let x := cancel_timer ?c SlotReconnect in @?B x) => change (P (B (cancel_timer c SlotReconnect))); cbv beta
  | |- P (let x := ?X in @?B x) =>
      lazymatch type of X with
      | Core => refine (let_core X B _ _); [|let c := fresh "c" in intros c ?; cbv beta]
      | _ => change (P (B X)); cbv beta
      end
  | |- P (fst (let x := ?X in @?B x)) =>
      lazymatch type of X with
      | Core => refine (let_core_fst X B _ _); [|let c := fresh "c" in intros c ?; cbv beta]
      | _ => change (P (fst (B X))); cbv beta
      end
  | |- P (match ?X with _ => _ end) =>
      lazymatch type of X with
      | (Core * _)%type => apply (pair_core X); [|let c := fresh "c" in intros c ? ?; cbv beta]
      | option Core => let E := fresh "Eo" in destruct X eqn:E
      | _ => destruct X
      end
  | |- P (fst (match ?X with _ => _ end)) =>
      lazymatch type of X with
      | (Core * _)%type => apply (pair_core_fst X); [|let c := fresh "c" in intros c ? ?; cbv beta]
      | _ => destruct X
      end
  | |- P (fst (_, _)) => cbn [fst]
  | |- P (foldl _ _ _) => apply stable_fold; [intros ? ? ?; cbv beta|]
  | |- P (emit _ _) => apply (st_emit P HP); [reflexivity|]
  | |- P (push_effect _ _) => apply (st_effect P HP); [first [exact I|by split_and!]|]
  | |- P (arm_timer _ _ _) => apply (st_arm P HP)
  | |- P (cancel_timer _ _) => apply (st_cancel P HP); [discriminate|]
  | |- P (set_state (cancel_timer _ SlotReconnect) StFailed) => apply (st_give_up P HP)
  | |- P (schedule_reconnect _) => apply (st_schedule P HP)
  | |- P (set_state _ _) => apply (st_state P HP); [discriminate|discriminate|discriminate|]
  | |- P (finish_request_label _ _) => apply (st_finish_label P HP)
  | |- P (clear_pending_request_labels _ true) => apply (st_clear_labels P HP)
  | |- P (@update _ _ sasl _ _ _) => apply (st_sasl P HP); [sasl_side|]
  | |- P (@update _ _ connection _ _ _) => apply (st_connection P HP)
  | |- P (@update _ _ _ _ _ _) => quiet_update
  end.
Ltac walk := intros; repeat first [assumption | walk_step | solve [auto with stable nocore]].
(** Unfolds a definition without its [let]s, then walks along it. *)
Tactic Notation "walk_in" reference(f) := cbv beta delta [f]; walk.

(** ** The primitive moves, as hints *)

Lemma stable_arm c slot delay : P c -> P (arm_timer c slot delay).
Proof using HP. apply (st_arm P HP). Qed.
Lemma stable_cancel c slot : slot <> SlotReconnect -> P c -> P (cancel_timer c slot).
Proof using HP. apply (st_cancel P HP). Qed.
Lemma stable_tls c : P c -> P (c <| tls_enabled := true |>).
Proof using HP. apply (st_tls P HP). Qed.
Lemma stable_drop_label c label : P c -> P (drop_request_label c label).
Proof using HP. apply (st_drop_label P HP). Qed.
Lemma stable_finish_label c label : P c -> P (finish_request_label c label).
Proof using HP. apply (st_finish_label P HP). Qed.
Lemma stable_clear_labels c : P c -> P (clear_pending_request_labels c true).
Proof using HP. apply (st_clear_labels P HP). Qed.
Lemma stable_begin_label c : P c -> P (begin_labeled_request c).1.
Proof using HP. apply (st_begin_label P HP). Qed.
Lemma stable_expire_labels c : P c -> P (on_label_timer_fired c).
Proof using HP. apply (st_expire_labels P HP). Qed.
#[local] Hint Resolve stable_arm stable_cancel stable_tls stable_drop_label stable_finish_label stable_clear_labels stable_begin_label stable_expire_labels : stable.

#[local] Hint Extern 2 (P _) => walk_step : stable.

(** ** Lines and requests *)

Lemma stable_send_line c l : P c -> P (send_line c l).
Proof using HP. walk_in send_line. Qed.
#[local] Hint Resolve stable_send_line : stable.
Lemma stable_send_command c command label : P c -> P (send_command c command label).1.
Proof using HP. walk_in send_command. Qed.
#[local] Hint Resolve stable_send_command : stable.
Lemma stable_send_chunks c prefix suffix label chunks : P c -> P (send_chunks c prefix suffix label chunks).1.
Proof using HP. revert c. induction chunks as [|chunk chunks IH]; intros c Hc; cbn [send_chunks]; [done|]. walk. Qed.
#[local] Hint Resolve stable_send_chunks : stable.
Lemma stable_send_trailing_body c prefix body suffix label :
  P c -> P (send_trailing_body c prefix body suffix label).1.
Proof using HP. walk_in send_trailing_body. Qed.
#[local] Hint Resolve stable_send_trailing_body : stable.


(** ** Lifecycle *)

Lemma stable_cancel_ping_watchdog c : P c -> P (cancel_ping_watchdog c).
Proof using HP. walk_in cancel_ping_watchdog. Qed.
#[local] Hint Resolve stable_cancel_ping_watchdog : stable.
Lemma stable_arm_ping_watchdog c : P c -> P (arm_ping_watchdog c).
Proof using HP. walk_in arm_ping_watchdog. Qed.
#[local] Hint Resolve stable_arm_ping_watchdog : stable.
Lemma stable_connect_transport c : P c -> P (connect_transport c).
Proof using HP. walk_in connect_transport. Qed.
#[local] Hint Resolve stable_connect_transport : stable.
Lemma stable_schedule_reconnect c : P c -> P (schedule_reconnect c).
Proof using HP. apply (st_schedule P HP). Qed.
#[local] Hint Resolve stable_schedule_reconnect : stable.
Lemma stable_publish_capabilities c : P c -> P (publish_capabilities c).
Proof using HP. walk_in publish_capabilities. Qed.
#[local] Hint Resolve stable_publish_capabilities : stable.
Lemma stable_emit_message_received c m : P c -> P (emit_message_received c m).
Proof using HP. walk_in emit_message_received. Qed.
#[local] Hint Resolve stable_emit_message_received : stable.
Lemma stable_fail c kind message reconnect : P c -> P (fail c kind message reconnect).
Proof using HP. walk_in fail. Qed.
#[local] Hint Resolve stable_fail : stable.
Lemma stable_on_ping_watchdog_fired c : P c -> P (on_ping_watchdog_fired c).
Proof using HP. walk_in on_ping_watchdog_fired. Qed.
#[local] Hint Resolve stable_on_ping_watchdog_fired : stable.

(** ** Writers *)

Lemma stable_note_message_sent c target : P c -> P (note_message_sent c target).
Proof using HP. walk_in note_message_sent. Qed.
#[local] Hint Resolve stable_note_message_sent : stable.
Lemma stable_send_privmsg_locked c target body : P c -> P (send_privmsg_locked c target body).1.
Proof using HP. walk_in send_privmsg_locked. Qed.
#[local] Hint Resolve stable_send_privmsg_locked : stable.
Lemma stable_send_notice c target body : P c -> P (send_notice c target body).1.
Proof using HP. walk_in send_notice. Qed.
#[local] Hint Resolve stable_send_notice : stable.
Lemma stable_send_action c target body : P c -> P (send_action c target body).1.
Proof using HP. walk_in send_action. Qed.
#[local] Hint Resolve stable_send_action : stable.
Lemma stable_send_channel_mode c request : P c -> P (send_channel_mode c request).1.
Proof using HP. walk_in send_channel_mode. Qed.
#[local] Hint Resolve stable_send_channel_mode : stable.
Lemma stable_join_locked c target : P c -> P (join_locked c target).1.
Proof using HP. walk_in join_locked. Qed.
#[local] Hint Resolve stable_join_locked : stable.
Lemma stable_part c channel : P c -> P (part c channel).1.
Proof using HP. walk_in part. Qed.
#[local] Hint Resolve stable_part : stable.
Lemma stable_kick c channel nick reason : P c -> P (kick c channel nick reason).1.
Proof using HP. walk_in kick. Qed.
#[local] Hint Resolve stable_kick : stable.
Lemma stable_kickban c channel mask nick reason : P c -> P (kickban c channel mask nick reason).1.
Proof using HP. walk_in kickban. Qed.
#[local] Hint Resolve stable_kickban : stable.
Lemma stable_invite c nick channel : P c -> P (invite c nick channel).1.
Proof using HP. walk_in invite. Qed.
#[local] Hint Resolve stable_invite : stable.
Lemma stable_set_topic c channel topic : P c -> P (set_topic c channel topic).1.
Proof using HP. walk_in set_topic. Qed.
#[local] Hint Resolve stable_set_topic : stable.
Lemma stable_set_away_locked c reason : P c -> P (set_away_locked c reason).1.
Proof using HP. walk_in set_away_locked. Qed.
#[local] Hint Resolve stable_set_away_locked : stable.
Lemma stable_mark_away c reason : P c -> P (mark_away c reason).1.
Proof using HP. walk_in mark_away. Qed.
#[local] Hint Resolve stable_mark_away : stable.
Lemma stable_change_nick c nick : P c -> P (change_nick c nick).1.
Proof using HP. walk_in change_nick. Qed.
#[local] Hint Resolve stable_change_nick : stable.
Lemma stable_whois c nick label : P c -> P (whois c nick label).1.
Proof using HP. walk_in whois. Qed.
#[local] Hint Resolve stable_whois : stable.
Lemma stable_list_channels c mask : P c -> P (list_channels c mask).1.
Proof using HP. walk_in list_channels. Qed.
#[local] Hint Resolve stable_list_channels : stable.
Lemma stable_start_labeled_request c : P c -> P (start_labeled_request c).1.
Proof using HP. walk_in start_labeled_request. Qed.
#[local] Hint Resolve stable_start_labeled_request : stable.
Lemma stable_monitor_loop c mark batch nicks : P c -> P (monitor_loop c mark batch nicks).1.
Proof using HP. revert c batch. induction nicks as [|nick nicks IH]; intros c batch Hc; cbn [monitor_loop]; [done|]. walk. Qed.
#[local] Hint Resolve stable_monitor_loop : stable.
Lemma stable_send_monitor_locked c modifier nicks : P c -> P (send_monitor_locked c modifier nicks).1.
Proof using HP. walk_in send_monitor_locked. Qed.
#[local] Hint Resolve stable_send_monitor_locked : stable.
Lemma stable_send_typing c target phase : P c -> P (send_typing c target phase).1.
Proof using HP. walk_in send_typing. Qed.
#[local] Hint Resolve stable_send_typing : stable.
Lemma stable_subscribe_to_member_metadata c : P c -> P (subscribe_to_member_metadata c).
Proof using HP. walk_in subscribe_to_member_metadata. Qed.
#[local] Hint Resolve stable_subscribe_to_member_metadata : stable.
Lemma stable_set_own_metadata c key value : P c -> P (set_own_metadata c key value).1.
Proof using HP. walk_in set_own_metadata. Qed.
#[local] Hint Resolve stable_set_own_metadata : stable.
Lemma stable_handle_metadata_sync_later c message : P c -> P (handle_metadata_sync_later c message).
Proof using HP. walk_in handle_metadata_sync_later. by apply (st_sync P HP). Qed.
#[local] Hint Resolve stable_handle_metadata_sync_later : stable.
Lemma stable_emit_autojoin_changed c : P c -> P (emit_autojoin_changed c).
Proof using HP. walk_in emit_autojoin_changed. Qed.
#[local] Hint Resolve stable_emit_autojoin_changed : stable.
Lemma stable_record_joined c channel found : P c -> P (record_joined c channel found).1.
Proof using HP. walk_in record_joined. Qed.
#[local] Hint Resolve stable_record_joined : stable.
Lemma stable_record_left c channel found : P c -> P (record_left c channel found).1.
Proof using HP. walk_in record_left. Qed.
#[local] Hint Resolve stable_record_left : stable.
Lemma stable_record_autojoin c channel joined : P c -> P (record_autojoin c channel joined).
Proof using HP. walk_in record_autojoin. Qed.
#[local] Hint Resolve stable_record_autojoin : stable.
Lemma stable_drop_stored_autojoin_key c channel : P c -> P (drop_stored_autojoin_key c channel).
Proof using HP. walk_in drop_stored_autojoin_key. Qed.
#[local] Hint Resolve stable_drop_stored_autojoin_key : stable.
Lemma stable_allow_ctcp_reply c nick : P c -> P (allow_ctcp_reply c nick).1.
Proof using HP. walk_in allow_ctcp_reply. Qed.
#[local] Hint Resolve stable_allow_ctcp_reply : stable.
Lemma stable_answer_ctcp c message : P c -> P (answer_ctcp c message).1.
Proof using HP. walk_in answer_ctcp. Qed.
#[local] Hint Resolve stable_answer_ctcp : stable.
Lemma stable_send_ctcp c target command argument label : P c -> P (send_ctcp c target command argument label).1.
Proof using HP. walk_in send_ctcp. Qed.
#[local] Hint Resolve stable_send_ctcp : stable.

(** ** Read markers *)

Lemma stable_update_markers c f : P c -> P (update_markers f c).
Proof using HP. walk_in update_markers. Qed.
#[local] Hint Resolve stable_update_markers : stable.
Lemma stable_advance_last_known c folded when : P c -> P (advance_last_known c folded when).
Proof using HP. walk_in advance_last_known. Qed.
#[local] Hint Resolve stable_advance_last_known : stable.
Lemma stable_flush_read_marker_set c folded : P c -> P (flush_read_marker_set c folded).
Proof using HP. walk_in flush_read_marker_set. Qed.
#[local] Hint Resolve stable_flush_read_marker_set : stable.
Lemma stable_emit_marker c target marker : P c -> P (emit_marker c target marker).
Proof using HP. walk_in emit_marker. Qed.
#[local] Hint Resolve stable_emit_marker : stable.
Lemma stable_settle_in_flight c folded echoed : P c -> P (settle_in_flight c folded echoed).
Proof using HP. walk_in settle_in_flight. Qed.
#[local] Hint Resolve stable_settle_in_flight : stable.
Lemma stable_deliver_read_marker c message : P c -> P (deliver_read_marker c message).1.
Proof using HP. walk_in deliver_read_marker. Qed.
#[local] Hint Resolve stable_deliver_read_marker : stable.
Lemma stable_handle_read_marker_fail c message : P c -> P (handle_read_marker_fail c message).
Proof using HP. walk_in handle_read_marker_fail. Qed.
#[local] Hint Resolve stable_handle_read_marker_fail : stable.
Lemma stable_request_read_marker_get c target : P c -> P (request_read_marker_get c target).1.
Proof using HP. walk_in request_read_marker_get. Qed.
#[local] Hint Resolve stable_request_read_marker_get : stable.
Lemma stable_queue_read_marker_set c target when : P c -> P (queue_read_marker_set c target when).
Proof using HP. walk_in queue_read_marker_set. Qed.
#[local] Hint Resolve stable_queue_read_marker_set : stable.


(** ** Batches and history *)

Lemma stable_update_history c f : P c -> P (update_history f c).
Proof using HP. walk_in update_history. Qed.
#[local] Hint Resolve stable_update_history : stable.
Lemma stable_bump_history_generation c channel : P c -> P (bump_history_generation c channel).
Proof using HP. walk_in bump_history_generation. Qed.
#[local] Hint Resolve stable_bump_history_generation : stable.
Lemma stable_clear_history_pending c channel : P c -> P (clear_history_pending c channel).
Proof using HP. walk_in clear_history_pending. Qed.
#[local] Hint Resolve stable_clear_history_pending : stable.
Lemma stable_ledger c l : rtc ledger_move (batches c) l -> P c -> P (c <| batches := l |>).
Proof using HP. apply (st_ledger P HP). Qed.

Lemma ledger_remove_all l refs : rtc ledger_move l (l <| open := foldl (fun m r => bt_remove r m) (open l) refs |>).
Proof using Type.
  revert l. induction refs as [|r refs IH]; intros l; cbn [foldl]; [by destruct l|].
  eapply rtc_l; [apply (LedgerDrop l r)|exact (IH (l <| open := bt_remove r (open l) |>))].
Qed.

Lemma stable_ignore_batch c reference : P c -> P (ignore_batch c reference).
Proof using HP. intros Hc. cbv beta delta [ignore_batch]. destruct (is_empty reference); [done|]. cbv zeta.
  assert (Hdrop : P (c <| batches := (batches c) <| open := bt_remove reference (open (batches c)) |> |>)).
  { apply stable_ledger; [|done]. apply rtc_once, LedgerDrop. }
  destruct (bs_contains _ _); [exact Hdrop|].
  case_match eqn:Hfull; [exact Hdrop|]. apply Nat.leb_gt in Hfull.
  apply (stable_ledger (c <| batches := _ |>)); [|done]. apply rtc_once, (LedgerIgnore _ reference). done.
 Qed.
#[local] Hint Resolve stable_ignore_batch : stable.
Lemma stable_drop_history_batches c channel : P c -> P (drop_history_batches c channel).
Proof using HP. intros Hc. cbv beta delta [drop_history_batches]. cbv zeta. destruct (is_empty _); [done|].
  apply stable_fold; [intros; by apply stable_ignore_batch|]. apply stable_ledger; [|done]. apply ledger_remove_all.
 Qed.
#[local] Hint Resolve stable_drop_history_batches : stable.
Lemma stable_forget_channel_history c channel : P c -> P (forget_channel_history c channel).
Proof using HP. walk_in forget_channel_history. Qed.
#[local] Hint Resolve stable_forget_channel_history : stable.
Lemma stable_abandon_history_requests c : P c -> P (abandon_history_requests c).
Proof using HP. walk_in abandon_history_requests. Qed.
#[local] Hint Resolve stable_abandon_history_requests : stable.
Lemma stable_request_history_latest c target : P c -> P (request_history_latest c target).1.
Proof using HP. walk_in request_history_latest. Qed.
#[local] Hint Resolve stable_request_history_latest : stable.
Lemma stable_clear_history_after_attempt c key : P c -> P (clear_history_after_attempt c key).
Proof using HP. walk_in clear_history_after_attempt. Qed.
#[local] Hint Resolve stable_clear_history_after_attempt : stable.
Lemma stable_send_history_page c kind verb target cursor : P c -> P (send_history_page c kind verb target cursor).1.
Proof using HP. walk_in send_history_page. Qed.
#[local] Hint Resolve stable_send_history_page : stable.
Lemma stable_send_history_after c target cursor : P c -> P (send_history_after c target cursor).1.
Proof using HP. walk_in send_history_after. Qed.
#[local] Hint Resolve stable_send_history_after : stable.
Lemma stable_send_history_latest_bound c target cursor : P c -> P (send_history_latest_bound c target cursor).1.
Proof using HP. walk_in send_history_latest_bound. Qed.
#[local] Hint Resolve stable_send_history_latest_bound : stable.
Lemma stable_request_history_after c target after : P c -> P (request_history_after c target after).1.
Proof using HP. walk_in request_history_after. Qed.
#[local] Hint Resolve stable_request_history_after : stable.
Lemma stable_request_channel_history c channel : P c -> P (request_channel_history c channel).
Proof using HP. walk_in request_channel_history. Qed.
#[local] Hint Resolve stable_request_channel_history : stable.
Lemma stable_maybe_chain_history_after c target batch history_ended : P c -> P (maybe_chain_history_after c target batch history_ended).
Proof using HP. walk_in maybe_chain_history_after. Qed.
#[local] Hint Resolve stable_maybe_chain_history_after : stable.
Lemma stable_request_history_targets c from until : P c -> P (request_history_targets c from until).1.
Proof using HP. walk_in request_history_targets. Qed.
#[local] Hint Resolve stable_request_history_targets : stable.
Lemma stable_request_older_history c target msgid timestamp : P c -> P (request_older_history c target msgid timestamp).1.
Proof using HP. walk_in request_older_history. Qed.
#[local] Hint Resolve stable_request_older_history : stable.
Lemma stable_fail_history_target c channel : P c -> P (fail_history_target c channel).
Proof using HP. walk_in fail_history_target. Qed.
#[local] Hint Resolve stable_fail_history_target : stable.
Lemma stable_handle_chat_history_fail c message : P c -> P (handle_chat_history_fail c message).
Proof using HP. walk_in handle_chat_history_fail. Qed.
#[local] Hint Resolve stable_handle_chat_history_fail : stable.
Lemma stable_capture_in_batch c message : P c -> P (capture_in_batch c message).1.
Proof using HP. intros Hc. cbv beta delta [capture_in_batch]. cbv zeta. destruct (is_empty _); [done|]. destruct (bs_contains _ _); [done|].
  destruct (bt_get _ (open (batches c))) as [found|]; [|done]. destruct (is_empty _); [done|].
  destruct (bt_get (replay_root found) _) as [root|] eqn:Hroot; [|done]. cbn [fst].
  apply stable_ledger; [|done]. apply rtc_once, LedgerPut. intros Hl. unfold lines_bounded. cbn [collected update batch_lines].
  assert (lines_bounded root). { apply bt_get_elem in Hroot. by apply (proj1 (Forall_forall _ _) Hl _ Hroot). }
  unfold lines_bounded in *. rw length_app. destruct (Nat.leb_spec HISTORY_BUFFER_CEILING (length (batch_lines (collected root)))).
  - rw length_drop. cbn. unfold HISTORY_BUFFER_CEILING in *. lia.
  - cbn. lia.
 Qed.
#[local] Hint Resolve stable_capture_in_batch : stable.
Lemma new_frame_lines c message reference kind : batch_lines (collected (new_frame c message reference kind)) = [].
Proof using Type. unfold new_frame. by repeat case_match. Qed.

Lemma stable_open_batch c message reference : P c -> P (open_batch c message reference).
Proof using HP.
  walk_in open_batch.
  all: apply stable_ledger; [|done]; apply rtc_once, LedgerPut; intros _;
    unfold lines_bounded; rw new_frame_lines; cbn; lia.
Qed.
#[local] Hint Resolve stable_open_batch : stable.
Lemma stable_deliver_batch c frame : P c -> P (deliver_batch c frame).
Proof using HP. walk_in deliver_batch. Qed.
#[local] Hint Resolve stable_deliver_batch : stable.
Lemma stable_close_frame c reference frame : P c -> P (close_frame c reference frame).
Proof using HP. walk_in close_frame. Qed.
#[local] Hint Resolve stable_close_frame : stable.
Lemma stable_close_batch c reference : P c -> P (close_batch c reference).
Proof using HP. intros Hc. cbv beta delta [close_batch]. cbv zeta. destruct (bs_contains _ _).
  { apply stable_ledger; [|done]. apply rtc_once, LedgerForget. }
  destruct (bt_get _ _); [|done]. apply stable_close_frame, stable_ledger; [|done]. apply rtc_once, LedgerDrop.
 Qed.
#[local] Hint Resolve stable_close_batch : stable.
Lemma stable_handle_batch c message : P c -> P (handle_batch c message).
Proof using HP. walk_in handle_batch. Qed.
#[local] Hint Resolve stable_handle_batch : stable.


(** ** Negotiation *)

Lemma stable_apply_cached_sts c : P c -> P (apply_cached_sts c).
Proof using HP. walk_in apply_cached_sts. Qed.
#[local] Hint Resolve stable_apply_cached_sts : stable.
Lemma stable_begin_sts_upgrade c new_port : P c -> P (begin_sts_upgrade c new_port).
Proof using HP. walk_in begin_sts_upgrade. Qed.
#[local] Hint Resolve stable_begin_sts_upgrade : stable.
Lemma stable_handle_sts_advertisement c advertisement : P c -> P (handle_sts_advertisement c advertisement).
Proof using HP. walk_in handle_sts_advertisement. Qed.
#[local] Hint Resolve stable_handle_sts_advertisement : stable.
Lemma stable_reschedule_sts_expiry c : P c -> P (reschedule_sts_expiry c).
Proof using HP. walk_in reschedule_sts_expiry. Qed.
#[local] Hint Resolve stable_reschedule_sts_expiry : stable.
Lemma stable_send_registration c : P c -> P (send_registration c).
Proof using HP. walk_in send_registration. Qed.
#[local] Hint Resolve stable_send_registration : stable.
Lemma stable_try_registration_nick_fallback c : P c -> P (try_registration_nick_fallback c).1.
Proof using HP. walk_in try_registration_nick_fallback. Qed.
#[local] Hint Resolve stable_try_registration_nick_fallback : stable.
Lemma stable_isupport_token c token : P c -> P (isupport_token c token).
Proof using HP. walk_in isupport_token. Qed.
#[local] Hint Resolve stable_isupport_token : stable.
Lemma stable_apply_isupport c message : P c -> P (apply_isupport c message).
Proof using HP. walk_in apply_isupport. Qed.
#[local] Hint Resolve stable_apply_isupport : stable.
Lemma stable_identify c : P c -> P (identify c).
Proof using HP. walk_in identify. Qed.
#[local] Hint Resolve stable_identify : stable.
Lemma stable_autojoin_channel c channel : P c -> P (autojoin_channel c channel).
Proof using HP. walk_in autojoin_channel. Qed.
#[local] Hint Resolve stable_autojoin_channel : stable.
Lemma sasl_cancel_timer c slot : sasl (cancel_timer c slot) = sasl c.
Proof using Type. unfold cancel_timer. by repeat case_match. Qed.

Lemma not_outstanding c : scram_outstanding c = false -> welcome_ok c.
Proof using Type.
  unfold scram_outstanding, welcome_ok. intros H Hm Hs. rw bool_decide_eq_true_2 // in H. rw Hs in H.
  destruct (sasl_succeeded (sasl c)); [done|]. by rw orb_true_r in H.
Qed.

Lemma welcome_ok_same c c' : sasl c' = sasl c -> welcome_ok c -> welcome_ok c'.
Proof using Type. unfold welcome_ok. by intros ->. Qed.

Ltac next_let s := lazymatch goal with
  | |- P (let x := ?X in @?B x) => refine (let_core_sasl s X B _ _ _); [| |let c := fresh "c" in intros c ? ?; cbv beta]
  end.

Lemma stable_handle_welcome c message : P c -> P (handle_welcome c message).
Proof using HP.
  intros Hc. cbv beta delta [handle_welcome]. destruct (_ || _); [done|].
  destruct (scram_outstanding c) eqn:Hs; [walk|]. apply not_outstanding in Hs.
  lazymatch goal with |- P (let x := ?X in @?B x) => change (P (B X)); cbv beta end.
  next_let (sasl c); [walk|by case_match|]. next_let (sasl c); [walk|done|].
  next_let (sasl c); [walk|by rw sasl_cancel_timer|]. next_let (sasl c); [walk|by rw sasl_cancel_timer|].
  next_let (sasl c); [walk|done|].
  lazymatch goal with |- P (let x := ?X in @?B x) => refine (let_core X B _ _) end.
  - apply (st_registered P HP); [|done]. by eapply welcome_ok_same.
  - intros ? ?. cbv beta. walk.
Qed.
#[local] Hint Resolve stable_handle_welcome : stable.
Lemma stable_on_registration_timeout c : P c -> P (on_registration_timeout c).
Proof using HP. walk_in on_registration_timeout. Qed.
#[local] Hint Resolve stable_on_registration_timeout : stable.
Lemma stable_begin_capability_negotiation c : P c -> P (begin_capability_negotiation c).
Proof using HP. walk_in begin_capability_negotiation. Qed.
#[local] Hint Resolve stable_begin_capability_negotiation : stable.
Lemma stable_end_capability_negotiation c : P c -> P (end_capability_negotiation c).
Proof using HP. walk_in end_capability_negotiation. Qed.
#[local] Hint Resolve stable_end_capability_negotiation : stable.
Lemma stable_send_cap_req c l : P c -> P (send_cap_req c l).
Proof using HP. walk_in send_cap_req. Qed.
#[local] Hint Resolve stable_send_cap_req : stable.
Lemma stable_request_capabilities c : P c -> P (request_capabilities c).
Proof using HP. walk_in request_capabilities. Qed.
#[local] Hint Resolve stable_request_capabilities : stable.
Lemma stable_on_capability_timeout c : P c -> P (on_capability_timeout c).
Proof using HP. walk_in on_capability_timeout. Qed.
#[local] Hint Resolve stable_on_capability_timeout : stable.
Lemma stable_note_metadata c toks : P c -> P (note_metadata c toks).
Proof using HP. walk_in note_metadata. Qed.
#[local] Hint Resolve stable_note_metadata : stable.
Lemma stable_cap_ls c message i : P c -> P (cap_ls c message i).
Proof using HP. walk_in cap_ls. Qed.
#[local] Hint Resolve stable_cap_ls : stable.
Lemma stable_cap_new c message i : P c -> P (cap_new c message i).
Proof using HP. walk_in cap_new. Qed.
#[local] Hint Resolve stable_cap_new : stable.
Lemma stable_cap_del c message i : P c -> P (cap_del c message i).
Proof using HP. walk_in cap_del. Qed.
#[local] Hint Resolve stable_cap_del : stable.
Lemma stable_note_read_marker_ack c toks granted : P c -> P (note_read_marker_ack c toks granted).
Proof using HP. walk_in note_read_marker_ack. Qed.
#[local] Hint Resolve stable_note_read_marker_ack : stable.
Lemma stable_cap_ack c message i : P c -> P (cap_ack c message i).
Proof using HP.
  intros Hc. cbv beta delta [cap_ack]. do 2 walk_step. do 4 (walk_step; [walk|]).
  destruct (contains _ Sasl && _) eqn:Hg; [|walk]. apply andb_true_iff in Hg as [_ Hstart%negb_true_iff].
  match goal with H : P ?c, Hs : exchange_started (sasl ?c) = false |- _ =>
    pose proof (st_exchange P HP c Hs H) as Hx end.
  unfold begin_exchange in Hx. cbv zeta in *. destruct (decide _); by apply stable_send_line.
Qed.
#[local] Hint Resolve stable_cap_ack : stable.
Lemma stable_cap_nak c message i : P c -> P (cap_nak c message i).
Proof using HP. walk_in cap_nak. Qed.
#[local] Hint Resolve stable_cap_nak : stable.
Lemma stable_handle_cap c message : P c -> P (handle_cap c message).
Proof using HP. walk_in handle_cap. Qed.
#[local] Hint Resolve stable_handle_cap : stable.
Lemma stable_send_sasl_response c raw : P c -> P (send_sasl_response c raw).
Proof using HP. walk_in send_sasl_response. Qed.
#[local] Hint Resolve stable_send_sasl_response : stable.
Lemma stable_handle_scram_authenticate c payload : P c -> P (handle_scram_authenticate c payload).
Proof using HP.
  intros Hc. cbv beta delta [handle_scram_authenticate]. destruct (sasl_scram (sasl c)) as [x|] eqn:Hx; [|done].
  pose proof (st_sasl P HP c _ (SaslAdvance c x payload Hx) Hc) as Hadv.
  destruct (take_payload x payload _ _ _) as [x' reply]. cbn [fst] in Hadv. cbv zeta. destruct reply; auto with stable.
Qed.
#[local] Hint Resolve stable_handle_scram_authenticate : stable.
Lemma stable_handle_authenticate c message : P c -> P (handle_authenticate c message).
Proof using HP. walk_in handle_authenticate. Qed.
#[local] Hint Resolve stable_handle_authenticate : stable.
Lemma stable_handle_sasl_success c : P c -> P (handle_sasl_success c).
Proof using HP.
  intros Hc. cbv beta delta [handle_sasl_success]. case_bool_decide as Hst; cbn [negb]; [|done].
  destruct (sasl_pending (sasl c)); cbn [negb]; [|done].
  destruct (scram_unverified (sasl c)) eqn:Hu; [walk|].
  pose proof (st_sasl P HP c _ (SaslSuccess c Hst Hu) Hc). cbv zeta.
  apply (st_state P HP); [done..|]. by apply stable_end_capability_negotiation.
Qed.
#[local] Hint Resolve stable_handle_sasl_success : stable.

(** ** Dispatch *)

Lemma stable_emit_protocol_error c kind error preview n : P c -> P (emit_protocol_error c kind error preview n).
Proof using HP. walk_in emit_protocol_error. Qed.
#[local] Hint Resolve stable_emit_protocol_error : stable.
Lemma stable_probe_channel_away c channel : P c -> P (probe_channel_away c channel).
Proof using HP. walk_in probe_channel_away. Qed.
#[local] Hint Resolve stable_probe_channel_away : stable.
Lemma stable_note_invite c message : P c -> P (note_invite c message).
Proof using HP. walk_in note_invite. Qed.
#[local] Hint Resolve stable_note_invite : stable.
Lemma stable_emit_inbound c message : P c -> P (emit_inbound c message).
Proof using HP. walk_in emit_inbound. Qed.
#[local] Hint Resolve stable_emit_inbound : stable.
Lemma stable_answer_ping c message : P c -> P (answer_ping c message).
Proof using HP. walk_in answer_ping. Qed.
#[local] Hint Resolve stable_answer_ping : stable.
Lemma stable_note_self_join c channel : P c -> P (note_self_join c channel).
Proof using HP. walk_in note_self_join. Qed.
#[local] Hint Resolve stable_note_self_join : stable.
Lemma stable_note_self_leave c channel : P c -> P (note_self_leave c channel).
Proof using HP. walk_in note_self_leave. Qed.
#[local] Hint Resolve stable_note_self_leave : stable.
Lemma stable_note_nick_change c message : P c -> P (note_nick_change c message).
Proof using HP. walk_in note_nick_change. Qed.
#[local] Hint Resolve stable_note_nick_change : stable.
Lemma stable_deliver_message c message : P c -> P (deliver_message c message).
Proof using HP. walk_in deliver_message. Qed.
#[local] Hint Resolve stable_deliver_message : stable.
Lemma stable_refuse_registration c message : P c -> P (refuse_registration c message).
Proof using HP. walk_in refuse_registration. Qed.
#[local] Hint Resolve stable_refuse_registration : stable.
Lemma stable_server_error_line c message : P c -> P (server_error_line c message).
Proof using HP. walk_in server_error_line. Qed.
#[local] Hint Resolve stable_server_error_line : stable.
Lemma stable_dispatch_command c message c' : P c -> dispatch_command c message = Some c' -> P c'.
Proof using HP.
  intros Hc Hd. cbv beta zeta delta [dispatch_command] in Hd.
  repeat (lazymatch type of Hd with (if ?test then _ else _) = _ =>
    destruct test; [apply (inj Some) in Hd; rw -Hd; walk|] end). done.
Qed.

Lemma stable_handle_routed c message : P c -> P (handle_routed c message).
Proof using HP. walk_in handle_routed. by eapply stable_dispatch_command. Qed.
#[local] Hint Resolve stable_handle_routed : stable.
Lemma stable_handle_message c message : P c -> P (handle_message c message).
Proof using HP. walk_in handle_message. Qed.
#[local] Hint Resolve stable_handle_message : stable.
Lemma stable_handle_frame c frame : P c -> P (handle_frame c frame).
Proof using HP. walk_in handle_frame. Qed.
#[local] Hint Resolve stable_handle_frame : stable.
Lemma stable_report_fault c fault : P c -> P (report_fault c fault).
Proof using HP. walk_in report_fault. Qed.
#[local] Hint Resolve stable_report_fault : stable.
Lemma stable_handle_bytes c incoming : P c -> P (handle_bytes c incoming).
Proof using HP. walk_in handle_bytes. Qed.
#[local] Hint Resolve stable_handle_bytes : stable.
Context (HT : Retries P).

Lemma stable_stop c : P c -> P (stop c).
Proof using HT. apply HT. Qed.
#[local] Hint Resolve stable_stop : stable.
Lemma stable_settle_stop c : P c -> P (settle_stop c).
Proof using HP. walk_in settle_stop. Qed.
#[local] Hint Resolve stable_settle_stop : stable.
Lemma stable_on_connected c : P c -> P (on_connected c).
Proof using HP. walk_in on_connected. Qed.
#[local] Hint Resolve stable_on_connected : stable.
Lemma stable_on_encrypted c : P c -> P (on_encrypted c).
Proof using HP. walk_in on_encrypted. Qed.
#[local] Hint Resolve stable_on_encrypted : stable.
Lemma stable_error_occurred c error : P c -> P (error_occurred c error).
Proof using HP. walk_in error_occurred. Qed.
#[local] Hint Resolve stable_error_occurred : stable.
Lemma stable_quit c reason : P c -> P (quit c reason).1.
Proof using HP HT. walk_in quit. Qed.
#[local] Hint Resolve stable_quit : stable.
Lemma stable_run_request c request : P c -> P (run_request c request).
Proof using HP. destruct request; cbn [run_request]; auto with stable. Qed.
#[local] Hint Resolve stable_run_request : stable.

(** ** Inputs *)

Lemma stable_at_moment c m : P c -> P (at_moment c m).
Proof using HP. walk_in at_moment. Qed.

Lemma stable_timer_fired c slot id : P c -> P (run_callback c (SlotTimer slot id)).
Proof using HP HT.
  intros Hc. cbv beta iota zeta delta [run_callback timer_fired].
  case_bool_decide as Hid; cbn [negb]; [|by apply (st_fires P HP); [intros ? ? [= <- <-]|]].
  destruct (decide (slot = SlotReconnect)) as [->|Hslot].
  - destruct HT as (_ & _ & Hfired). exact (Hfired c id Hid Hc).
  - pose proof (st_expired P HP c slot id Hslot Hid Hc) as Hx. unfold release in Hx.
    destruct slot; [done| | | |]; auto with stable.
Qed.

Lemma stable_run_callback c callback : P c -> P (run_callback c callback).
Proof using HP HT.
  intros Hc. destruct callback as [slot id|target]; [by apply stable_timer_fired|].
  cbv beta iota zeta delta [run_callback]. apply stable_send_command. by apply (st_fires P HP).
Qed.

(** ** Inputs that may begin a connection *)
Context (HR : Restartable P).

Lemma stable_new_ledger c : P c -> P (c <| batches := new_ledger |>).
Proof using HR. apply (rs_ledger P HR). Qed.
Lemma stable_new_sasl c : state c <> StSasl -> P c -> P (c <| sasl := new_sasl |>).
Proof using HR. apply (rs_sasl P HR). Qed.

Lemma state_cancel_timer c slot : state (cancel_timer c slot) = state c.
Proof using Type. unfold cancel_timer. by repeat case_match. Qed.

Lemma state_apply_cached_sts c : state (apply_cached_sts c) = state c.
Proof using Type. unfold apply_cached_sts. destruct (sts_lookup _ _ _) as [store cached]. by destruct cached. Qed.

Ltac fresh_fields := repeat lazymatch goal with
  | |- P (@update _ _ batches _ _ _) => apply stable_new_ledger
  | |- P (@update _ _ sasl _ _ _) => apply stable_new_sasl; [assumption|]
  | |- P (@update _ _ _ _ _ ?c) => quiet_update
  end.

Lemma stable_reset_for_connection c : state c <> StSasl -> P c -> P (reset_for_connection c).
Proof using HP HR.
  intros Hst Hc. cbv beta delta [reset_for_connection].
  lazymatch goal with |- P (let x := ?X in @?B x) => refine (let_core X B _ _) end;
    [by fresh_fields|intros c' Hc'; cbv beta; walk].
Qed.

Lemma stable_finish_sts_upgrade c : state c <> StSasl -> P c -> P (finish_sts_upgrade c).
Proof using HP HR. intros. apply stable_connect_transport. by apply stable_reset_for_connection. Qed.

(** What an attempt does once its timer is gone. *)
Lemma stable_open_connection c :
  state c <> StSasl -> P c -> P (connect_transport (set_state (reset_for_connection (apply_cached_sts c)) StConnecting)).
Proof using HP HR.
  intros Hst Hc. apply stable_connect_transport, (st_state P HP); [done..|]. apply stable_reset_for_connection.
  - by rw state_apply_cached_sts.
  - by apply stable_apply_cached_sts.
Qed.

Lemma stable_on_disconnected c : P c -> P (on_disconnected c).
Proof using HP HR.
  intros Hc. cbv beta delta [on_disconnected].
  destruct (on_disconnect (connection c) (state c)) as [conn outcome] eqn:E.
  assert (outcome = FinishStsUpgrade -> state c <> StSasl).
  { intros ->. unfold on_disconnect in E. destruct (intent (connection c)); simplify_eq; repeat case_decide; congruence. }
  cbv zeta. pose proof (st_connection P HP c conn Hc). case_decide.
  - apply stable_finish_sts_upgrade; auto.
  - pose proof (stable_reschedule_sts_expiry (c <| connection := conn |>)). by destruct outcome; auto with stable.
Qed.

Lemma stable_start c : (forall c b, P c -> P (c <| tls_enabled := b |>)) -> P c -> P (start c).
Proof using HP HR.
  intros Htls Hc. cbv beta zeta delta [start].
  destruct (negb _ && negb _) eqn:Hst; [done|]. destruct (_ || _); [walk|].
  apply stable_open_connection.
  - change (state c <> StSasl). intros E. by rw E in Hst.
  - quiet_update. apply Htls. quiet_update. by apply (st_connection P HP).
Qed.

Lemma stable_step c step :
  step.2 <> Start \/ (forall c b, P c -> P (c <| tls_enabled := b |>)) -> P c -> P (session_step c step).
Proof using HP HR HT.
  intros Hstart Hc. unfold session_step. pose proof (stable_at_moment c step.1 Hc) as Hm.
  destruct (step.2); cbn [run_input]; try (by auto with stable).
  - destruct Hstart as [|Htls]; [done|]. by apply stable_start.
  - destruct HT as (_ & Hattempt & _). by apply Hattempt.
  - by apply stable_on_disconnected.
  - by apply stable_run_callback.
Qed.

Lemma stable_run c steps :
  Forall (fun step => step.2 <> Start) steps \/ (forall c b, P c -> P (c <| tls_enabled := b |>)) ->
  P c -> P (session_run c steps).
Proof using HP HR HT.
  intros Hs Hc. apply (foldl_invariant session_step P); [|done]. intros s step Hstep. apply stable_step.
  destruct Hs as [Hs|]; [left|by right]. by apply (proj1 (Forall_forall _ _) Hs).
Qed.
End Stability.

(** ** Properties that any timer may change under *)
Section Unrestricted.
Context `{platform : Platform} `{crypto : Crypto} `{policy : SecretPolicy}.
Context (P : Core -> Prop) (HP : Stable P).

Lemma stable_steady : Steady P.
Proof using HP.
  constructor; [apply HP|intros; by apply (sb_cancel P HP)|intros; by apply (sb_expired P HP)|intros; by apply (sb_state P HP)| |].
  - intros c Hc. cbv beta delta [schedule_reconnect]. destruct (negb _); [by apply (sb_state P HP)|].
    case_decide; [done|]. destruct (count_scheduled_reconnect _) as [conn attempt]. cbv zeta.
    apply (st_emit P HP); [done|]. apply (st_arm P HP), (sb_state P HP); [done..|]. by apply (st_connection P HP).
  - intros c Hc. apply (sb_state P HP); [done..|]. by apply (sb_cancel P HP).
Qed.

Lemma stable_retries : Restartable P -> Retries P.
Proof using HP.
  intros HR.
  assert (Hattempt : forall c, P c -> P (begin_reconnect_attempt c)).
  { intros c Hc. cbv beta delta [begin_reconnect_attempt]. case_bool_decide as Hst; cbn [negb]; [|done].
    apply (stable_open_connection P stable_steady HR); [by rw state_cancel_timer Hst|]. by apply (sb_cancel P HP). }
  split_and!; [|done|].
  - intros c Hc. cbv beta delta [stop].
    assert (H : P (reschedule_sts_expiry c)) by by apply (stable_reschedule_sts_expiry P stable_steady).
    do 7 (lazymatch goal with |- P (let x := ?X in @?B x) => refine (let_core P X B _ _) end;
      [first [assumption|by apply (st_connection P HP)|by apply (sb_cancel P HP)|by apply (st_clear_labels P HP)
        |by apply (stable_cancel_ping_watchdog P stable_steady)]|intros ? ?; cbv beta]).
    case_decide; [done|]. case_decide; [by apply (sb_state P HP)|].
    do 2 (apply (st_effect P HP); [done|]). by apply (sb_state P HP).
  - intros c id Hid Hc. apply Hattempt. by apply (sb_expired P HP).
Qed.

Lemma stable_run_unrestricted c steps :
  Restartable P ->
  Forall (fun step => step.2 <> Start) steps \/ (forall c b, P c -> P (c <| tls_enabled := b |>)) ->
  P c -> P (session_run c steps).
Proof using HP. intros HR. apply stable_run; [apply stable_steady|by apply stable_retries|done]. Qed.
End Unrestricted.
