(* ===== verification/SessionProperties.v ===== *)
(** * SessionProperties: what holds of every run of the session *)

From S2P Require Import Prelude Text Message Parser Framer CaseMapping ServerFeatures Capability JoinTarget Scram.
From S2P Require Import OrdMap SessionTypes Platform Connection Sts Ctcp Metadata Typing SessionCore SessionOutbound.
From S2P Require Import SessionMarkers SessionHistory SessionNegotiation SessionDispatch Session SessionInvariants.

(** ** Properties that timers, labels and events do not touch *)

Definition calm (c : Core) :=
  (config c, state c, tls_enabled c, sasl c, connection c, effects c, batches c).

Lemma calm_emit c e : calm (emit c e) = calm c.
Proof. done. Qed.

Lemma calm_cancel c slot : calm (cancel_timer c slot) = calm c.
Proof. unfold cancel_timer. by repeat case_match. Qed.

Lemma calm_arm c slot delay : calm (arm_timer c slot delay) = calm c.
Proof. unfold arm_timer. cbv zeta. by rw -(calm_cancel c slot). Qed.

Lemma calm_arm_label c : calm (arm_label_timer c) = calm c.
Proof. unfold arm_label_timer. case_match; [apply calm_arm|apply calm_cancel]. Qed.

Lemma calm_emit_finished labels c : calm (foldl emit_finished c labels) = calm c.
Proof. revert c. induction labels as [|label labels IH]; intros c; [done|]. cbn [foldl]. by rw IH. Qed.

Lemma calm_finish c label : calm (finish_request_label c label) = calm c.
Proof.
  unfold finish_request_label. case_match; [done|]. cbv zeta. by rw calm_emit calm_arm_label.
Qed.

Lemma calm_drop c label : calm (drop_request_label c label) = calm c.
Proof. unfold drop_request_label. case_match; [done|]. by rw calm_arm_label. Qed.

Lemma calm_clear c : calm (clear_pending_request_labels c true) = calm c.
Proof. unfold clear_pending_request_labels. cbn [negb]. cbv zeta. by rw calm_emit_finished calm_cancel. Qed.

Lemma calm_begin c : calm (begin_labeled_request c).1 = calm c.
Proof. unfold begin_labeled_request. cbn [fst]. by rw calm_arm_label. Qed.

Lemma calm_expire c : calm (on_label_timer_fired c) = calm c.
Proof. unfold on_label_timer_fired. cbv zeta. by rw calm_arm_label calm_emit_finished. Qed.

Record Calm `{crypto : Crypto} (P : Core -> Prop) : Prop := {
  cl_calm c c' : calm c' = calm c -> P c -> P c';
  cl_effect c e : effect_ok c e -> P c -> P (push_effect c e);
  cl_state c s : s <> StRegistered -> s <> StSasl -> P c -> P (set_state c s);
  cl_registered c : welcome_ok c -> P c -> P (set_state c StRegistered);
  cl_exchange c : exchange_started (sasl c) = false -> P c -> P (begin_exchange c);
  cl_tls c : P c -> P (c <| tls_enabled := true |>);
  cl_connection c conn : P c -> P (c <| connection := conn |>);
  cl_sasl c s : sasl_move c s -> P c -> P (c <| sasl := s |>);
  cl_ledger c l : rtc ledger_move (batches c) l -> P c -> P (c <| batches := l |>);
}.

Lemma calm_stable `{crypto : Crypto} P : Calm P -> Stable P.
Proof.
  intros HP. pose proof (cl_calm P HP) as Hcalm. constructor; [constructor| | |]; try (by apply HP).
  - intros c c' E. apply Hcalm. unfold loud, calm in *. congruence.
  - intros c e _. by apply Hcalm.
  - intros c slot delay. apply Hcalm, calm_arm.
  - intros c callback _. by apply Hcalm.
  - intros c target delay. by apply Hcalm.
  - intros c. apply Hcalm, calm_begin.
  - intros c label. apply Hcalm, calm_drop.
  - intros c label. apply Hcalm, calm_finish.
  - intros c. apply Hcalm, calm_clear.
  - intros c. apply Hcalm, calm_expire.
  - intros c slot. apply Hcalm, calm_cancel.
  - intros c slot id _. by apply Hcalm.
Qed.

(** ** TLS *)

(** Every connect queued after [before] is over TLS. *)
Definition secure_since (before : list Effect) (c : Core) : Prop :=
  tls_enabled c = true /\
  exists later, effects c = before ++ later /\
    Forall (fun e => match e with Connect _ _ tls => tls = true | _ => True end) later.

Lemma secure_calm `{crypto : Crypto} before : Calm (secure_since before).
Proof.
  constructor.
  - intros c c' E. unfold calm in E. assert (Ht : tls_enabled c' = tls_enabled c) by congruence.
    assert (He : effects c' = effects c) by congruence. unfold secure_since. by rw Ht He.
  - intros c e He [H1 (later & E & Hl)]. split; [done|]. exists (later ++ [e]).
    unfold push_effect. cbn. rw E app_assoc. split; [done|]. apply Forall_app. split; [done|].
    constructor; [|done]. destruct e; try done. destruct He as (_ & _ & ->). done.
  - intros c s _ _ H. unfold set_state. by repeat case_match.
  - intros c _ H. unfold set_state. by repeat case_match.
  - intros c _ H. unfold begin_exchange, set_state. by repeat case_match.
  - intros c [_ H]. by split.
  - done.
  - done.
  - done.
Qed.

Lemma secure_restartable before : Restartable (secure_since before).
Proof. by constructor. Qed.

(** ** SCRAM *)

Record scram_inv `{crypto : Crypto} (cfg : SessionConfig) (st : SessionState) (s : SaslState) : Prop := {
  si_exchange x : sasl_scram s = Some x -> exchange_ok (sasl_account_name cfg) (sasl_secret cfg) x;
  si_started : sasl_succeeded s = true -> exchange_started s = true;
  si_dialogue : st = StSasl -> exchange_started s = true;
  si_verified : sasl_succeeded s = true -> sasl_mechanism s = Some SCRAM_SHA_256 ->
    exists x, sasl_scram s = Some x /\ is_verified x = true;
  si_registered : st = StRegistered -> sasl_mechanism s = Some SCRAM_SHA_256 -> exchange_started s = true ->
    sasl_succeeded s = true;
}.

Definition scram_ok `{crypto : Crypto} (cfg : SessionConfig) (c : Core) : Prop :=
  config c = cfg /\ scram_inv cfg (state c) (sasl c).

Lemma verified_stays `{crypto : Crypto} x payload account secret random :
  is_verified x = true -> (take_payload x payload account secret random).1 = x.
Proof.
  unfold is_verified, take_payload. intros Hv%bool_decide_eq_true. rw Hv. by destruct x; cbn in *; subst.
Qed.

Lemma scram_inv_move `{crypto : Crypto} cfg c s :
  scram_ok cfg c -> sasl_move c s -> scram_inv cfg (state c) s.
Proof.
  intros [<- H] [s' Hst Hsu Hsc Hm|x payload Hx|Hdial Hu].
  - constructor; rw ?Hst ?Hsu ?Hsc; try apply H.
    + intros Hs Hmech. apply (si_verified _ _ _ H Hs).
      transitivity (sasl_mechanism s'); [symmetry; apply Hm; by apply (si_started _ _ _ H)|done].
    + intros Hr Hmech Hs. apply (si_registered _ _ _ H Hr); [|done].
      transitivity (sasl_mechanism s'); [symmetry; by apply Hm|done].
  - constructor; cbn; try apply H.
    + intros x' [= <-]. apply take_payload_ok. by apply (si_exchange _ _ _ H).
    + intros Hs Hm. destruct (si_verified _ _ _ H Hs Hm) as (y & Hy & Hv). simplify_eq.
      eexists. split; [done|]. by rw verified_stays.
  - constructor; cbn; try apply H; try done.
    + intros _. by apply (si_dialogue _ _ _ H).
    + intros _ Hm. unfold scram_unverified in Hu.
      assert (Hd : bool_decide (sasl_mechanism (sasl c) = Some SCRAM_SHA_256) = true)
        by (apply bool_decide_eq_true_2; exact Hm).
      rw Hd in Hu. destruct (sasl_scram (sasl c)) as [x|]; [|done]. exists x. split; [done|]. by apply negb_false_iff.
Qed.

Lemma scram_inv_begin `{crypto : Crypto} cfg c :
  scram_ok cfg c -> exchange_started (sasl c) = false -> scram_ok cfg (begin_exchange c).
Proof.
  intros [Hc H] Hstart.
  assert (Hsu : sasl_succeeded (sasl c) = false).
  { destruct (sasl_succeeded (sasl c)) eqn:E; [|done]. apply (si_started _ _ _ H) in E. congruence. }
  assert (Hstate : state (begin_exchange c) = StSasl) by (unfold begin_exchange, set_state; by repeat case_decide).
  assert (Hcfg : config (begin_exchange c) = config c) by (unfold begin_exchange, set_state; by repeat case_decide).
  assert (Hsasl : exists x, sasl (begin_exchange c) = (sasl c) <| exchange_started := true |> <| sasl_scram := x |> /\
    (x = sasl_scram (sasl c) \/ x = Some new_exchange)).
  { unfold begin_exchange, set_state. cbv zeta.
    repeat case_decide;
      (exists (Some new_exchange); split; [by destruct (sasl c)|by eauto]) ||
      (exists (sasl_scram (sasl c)); split; [by destruct (sasl c)|by eauto]). }
  destruct Hsasl as (x & Hsasl & Hx). split; [by rw Hcfg|].
  rw Hstate Hsasl. constructor; try done.
  - intros y Hy. change (x = Some y) in Hy. subst x.
    destruct Hx as [Hx|[= ->]]; [by apply (si_exchange _ _ _ H)|]. by split.
  - intros Hs. exfalso. change (sasl_succeeded (sasl c) = true) in Hs. congruence.
Qed.

Lemma scram_calm `{crypto : Crypto} cfg : Calm (scram_ok cfg).
Proof.
  constructor; try done.
  - intros c c' E. unfold calm in E. assert (Hc : config c' = config c) by congruence.
    assert (Hst : state c' = state c) by congruence. assert (Hs : sasl c' = sasl c) by congruence.
    unfold scram_ok. by rw Hc Hst Hs.
  - intros c s H1 H2 [Hc H]. unfold set_state. cbv zeta. destruct (decide (state c = s)); [done|].
    assert (scram_inv cfg s (sasl c)) by (destruct H; constructor; auto; done). by case_decide.
  - intros c Hw [Hc H]. unfold set_state. cbv zeta. destruct (decide (state c = StRegistered)); [done|].
    assert (scram_inv cfg StRegistered (sasl c)) by (destruct H; constructor; auto; done). by case_decide.
  - intros c Hs H. by apply scram_inv_begin.
  - intros c s Hm H. split; [by apply H|]. exact (scram_inv_move cfg c s H Hm).
Qed.

Lemma scram_restartable `{crypto : Crypto} cfg : Restartable (scram_ok cfg).
Proof. constructor; [done|]. intros c Hst [Hc H]. split; [done|]. by constructor. Qed.

Lemma scram_new `{crypto : Crypto} cfg store : scram_ok cfg (new_core cfg store).
Proof. split; [done|]. by constructor. Qed.

(** ** Request labels *)

Definition finished (c : Core) : list str :=
  omap (fun e => match e with RequestLabelFinished _ label => Some label | _ => None end) (events c).

(** Every label that waits or has finished, with the counter they came from. *)
Definition labels_of (c : Core) : list str := bt_keys (pending_labels c) ++ finished c.
Definition issued_label (c : Core) (label : str) : Prop :=
  exists n, label = lit "lr" ++ show n /\ 1 <= n <= next_request_label c.
Definition labels_ok (c : Core) : Prop := NoDup (labels_of c) /\ Forall (issued_label c) (labels_of c).
Definition label_view (c : Core) := (pending_labels c, next_request_label c, finished c).

Lemma labels_ok_view c c' : label_view c' = label_view c -> labels_ok c -> labels_ok c'.
Proof. intros [= E1 E2 E3]. unfold labels_ok, issued_label, labels_of. by rw E1 E2 E3. Qed.

Lemma labels_ok_submseteq c c' :
  next_request_label c' = next_request_label c -> labels_of c' ⊆+ labels_of c -> labels_ok c -> labels_ok c'.
Proof.
  intros E [rest Hp]%submseteq_Permutation [Hn Hf]. rw Hp in Hn. rw Hp in Hf.
  apply NoDup_app in Hn as [Hn _]. apply Forall_app in Hf as [Hf _]. split; [done|].
  eapply Forall_impl; [done|]. intros label. unfold issued_label. by rw E.
Qed.

Lemma finished_emit c e : finished (emit c e) = finished c ++ omap (fun e => match e with RequestLabelFinished _ label => Some label | _ => None end) [e].
Proof. unfold finished. cbn. by rw omap_app. Qed.

Lemma view_cancel c slot : label_view (cancel_timer c slot) = label_view c.
Proof. unfold cancel_timer. by repeat case_match. Qed.

Lemma view_arm c slot delay : label_view (arm_timer c slot delay) = label_view c.
Proof. unfold arm_timer. cbv zeta. by rw -(view_cancel c slot). Qed.

Lemma view_arm_label c : label_view (arm_label_timer c) = label_view c.
Proof. unfold arm_label_timer. case_match; [apply view_arm|apply view_cancel]. Qed.

Lemma view_state c s : label_view (set_state c s) = label_view c.
Proof.
  unfold set_state. cbv zeta. case_decide; [done|]. unfold label_view. rw finished_emit. cbn.
  case_decide; by rw app_nil_r.
Qed.

Lemma view_labels_of c c' : label_view c' = label_view c -> labels_of c' = labels_of c.
Proof. intros [= E1 E2 E3]. unfold labels_of. by rw E1 E3. Qed.

Lemma view_next c c' : label_view c' = label_view c -> next_request_label c' = next_request_label c.
Proof. by intros [= E1 E2 E3]. Qed.

Lemma finished_fold labels c :
  finished (foldl emit_finished c labels) = finished c ++ labels /\
  pending_labels (foldl emit_finished c labels) = pending_labels c /\
  next_request_label (foldl emit_finished c labels) = next_request_label c.
Proof.
  revert c. induction labels as [|label labels IH]; intros c; cbn [foldl]; [by rw app_nil_r|].
  destruct (IH (emit_finished c label)) as (-> & -> & ->). split; [|done].
  unfold emit_finished. rw finished_emit. cbn. by rw -app_assoc.
Qed.

Lemma bt_remove_all_perm {V} labels (m : btree V) :
  NoDup labels -> NoDup (bt_keys m) -> Forall (fun label => label ∈ bt_keys m) labels ->
  bt_keys m ≡ₚ labels ++ bt_keys (foldl (fun m label => bt_remove label m) m labels).
Proof.
  revert m. induction labels as [|label labels IH]; intros m Hl Hm Hin; [done|]. cbn [foldl app].
  apply NoDup_cons in Hl as [Hnew Hl]. apply Forall_cons in Hin as [Hin Hrest].
  destruct (bt_get label m) as [v|] eqn:Hget; [|by apply bt_get_None_keys in Hget].
  pose proof (bt_keys_remove_perm _ _ _ Hm Hget) as Hp. rw Hp in Hm. apply NoDup_cons in Hm as [_ Hm].
  rw {1}Hp. apply Permutation_skip, IH; [done..|]. apply Forall_forall. intros other Hother.
  pose proof (proj1 (Forall_forall _ _) Hrest other Hother) as Hm'. rw Hp in Hm'.
  by apply elem_of_cons in Hm' as [->|].
Qed.

Lemma fresh_label c : labels_ok c -> ~ (begin_labeled_request c).2 ∈ labels_of c.
Proof.
  intros [_ Hf] Hin. apply (proj1 (Forall_forall _ _) Hf) in Hin as (k & E & Hk).
  change (lit "lr" ++ show (next_request_label c + 1) = lit "lr" ++ show k) in E.
  apply app_inv_head, show_inj in E. lia.
Qed.

Lemma labels_begin c : labels_ok c -> labels_ok (begin_labeled_request c).1.
Proof.
  intros [Hn Hf]. unfold begin_labeled_request. cbv zeta. cbn [fst].
  eapply labels_ok_view; [apply view_arm_label|]. set (n := next_request_label c + 1).
  assert (Hfresh : lit "lr" ++ show n ∉ labels_of c) by by apply (fresh_label c).
  assert (Hnone : bt_get (lit "lr" ++ show n) (pending_labels c) = None).
  { apply bt_get_None_keys. intros Hin. apply Hfresh. apply elem_of_app. by left. }
  assert (Hp : forall d, bt_keys (bt_insert (lit "lr" ++ show n) d (pending_labels c)) ++ finished c
    ≡ₚ (lit "lr" ++ show n) :: labels_of c) by (intros d; by rw bt_keys_insert_perm).
  split.
  - unfold labels_of. cbn. rw Hp. by apply NoDup_cons.
  - unfold labels_of. cbn [pending_labels update]. eapply Permutation_Forall; [symmetry; apply Hp|].
    constructor; [exists n; split; [done|]; unfold n; cbn; lia|].
    eapply Forall_impl; [exact Hf|]. intros label (k & -> & Hk). exists k. split; [done|]. cbn. lia.
Qed.

Lemma bt_contains_false {V} k (m : btree V) : k ∉ bt_keys m -> bt_contains k m = false.
Proof. intros H. apply not_true_is_false. intros [v Hv]%bt_contains_spec. apply bt_get_None_keys in H. congruence. Qed.

Lemma labels_drop c label : labels_ok c -> labels_ok (drop_request_label c label).
Proof.
  intros H. unfold drop_request_label. case_match; [done|].
  eapply labels_ok_view; [apply view_arm_label|]. apply (labels_ok_submseteq c); [| |exact H]; [done|].
  unfold labels_of. cbn. apply submseteq_skips_r, sublist_submseteq. apply fmap_sublist, bt_remove_sublist.
Qed.

Lemma labels_finish c label : labels_ok c -> labels_ok (finish_request_label c label).
Proof.
  intros H. unfold finish_request_label. case_match eqn:E; [done|]. cbv zeta.
  apply orb_false_iff in E as [_ E%negb_false_iff]. apply bt_contains_spec in E as [v Hv].
  set (cleared := c <| pending_labels := bt_remove label (pending_labels c) |>).
  pose proof (view_arm_label cleared) as Hview. apply (labels_ok_submseteq c); [| |exact H].
  - cbn. by rw (view_next _ _ Hview).
  - injection Hview as E1 _ E3. unfold labels_of. rw finished_emit. cbn [pending_labels emit update].
    rw E1 E3. cbn. rw (bt_keys_remove_perm label v (pending_labels c)) //.
    + destruct H as [[Hn _]%NoDup_app _]. done.
    + fold (finished c). by rw (Permutation_app_comm (finished c)) -Permutation_middle.
Qed.

Lemma labels_clear c : labels_ok c -> labels_ok (clear_pending_request_labels c true).
Proof.
  intros H. unfold clear_pending_request_labels. cbn [negb]. cbv zeta.
  set (cleared := cancel_timer _ _).
  assert (Hview : label_view cleared = ([], next_request_label c, finished c)) by apply view_cancel.
  injection Hview as E1 E2 E3. destruct (finished_fold (bt_keys (pending_labels c)) cleared) as (F1 & F2 & F3).
  apply (labels_ok_submseteq c); [by rw F3| |exact H]. unfold labels_of. rw F1 F2 E1 E3. cbn. by rw Permutation_app_comm.
Qed.

Lemma labels_expire c : labels_ok c -> labels_ok (on_label_timer_fired c).
Proof.
  intros H. unfold on_label_timer_fired. cbv zeta. eapply labels_ok_view; [apply view_arm_label|].
  set (expired := (base.filter (fun e => (e.2 <= now c)%Z) (pending_labels c)).*1).
  destruct (finished_fold expired (c <| pending_labels := foldl (fun m label => bt_remove label m) (pending_labels c) expired |>))
    as (F1 & F2 & F3).
  apply (labels_ok_submseteq c); [by rw F3| |exact H]. unfold labels_of. rw F1 F2. cbn.
  destruct H as [[Hn _]%NoDup_app _].
  assert (Hsub : sublist expired (bt_keys (pending_labels c))) by apply fmap_sublist, sublist_filter.
  change (bt_keys (foldl (fun m label => bt_remove label m) (pending_labels c) expired) ++ finished c ++ expired
    ⊆+ bt_keys (pending_labels c) ++ finished c).
  assert (Hp := bt_remove_all_perm expired (pending_labels c)). rw {}Hp; [by eapply sublist_NoDup|done| |].
  - apply Forall_forall. intros label Hin. by eapply elem_of_sublist.
  - rw (Permutation_app_comm (finished c)) app_assoc. by rw (Permutation_app_comm expired).
Qed.

Lemma labels_stable `{crypto : Crypto} : Stable labels_ok.
Proof.
  constructor; [constructor| | |]; try (intros; done).
  - intros c c' E. apply labels_ok_view. unfold loud in E. unfold label_view, finished.
    assert (pending_labels c' = pending_labels c) by congruence.
    assert (next_request_label c' = next_request_label c) by congruence.
    assert (events c' = events c) by congruence. congruence.
  - intros c e He. apply labels_ok_view. unfold label_view. rw finished_emit. destruct e; cbn; by rw ?app_nil_r.
  - intros c slot delay. apply labels_ok_view, view_arm.
  - intros c _. apply labels_ok_view, view_state.
  - intros c _. apply labels_ok_view. unfold begin_exchange. cbv zeta.
    case_decide; exact (view_state (c <| sasl := (sasl c) <| exchange_started := true |> |>) StSasl).
  - intros c. apply labels_begin.
  - intros c label. apply labels_drop.
  - intros c label. apply labels_finish.
  - intros c. apply labels_clear.
  - intros c. apply labels_expire.
  - intros c slot. apply labels_ok_view, view_cancel.
  - intros c s _ _. apply labels_ok_view, view_state.
Qed.

Lemma labels_restartable : Restartable labels_ok.
Proof. by constructor. Qed.

(** ** Timers *)

(** The expiries on the clock, as slots and generations. *)
Definition expiries (l : list ClockEntry) : list (TimerSlot * N) :=
  omap (fun e => match entry_callback e with SlotTimer slot id => Some (slot, id) | MetadataSync _ => None end) l.

Record timers_ok (c : Core) : Prop := {
  to_slots : length (timers c) = 5%nat;
  to_armed slot id : timers c !! slot_index slot = Some (Some id) <-> (slot, id) ∈ expiries (clock c);
  to_one : NoDup (expiries (clock c)).*1;
}.

Definition timer_view (c : Core) := (timers c, expiries (clock c)).

Lemma timers_ok_view c c' : timer_view c' = timer_view c -> timers_ok c -> timers_ok c'.
Proof. intros [= E1 E2] [H1 H2 H3]. constructor; by rw ?E1 ?E2. Qed.

Lemma slot_index_lt slot : (slot_index slot < 5)%nat.
Proof. destruct slot; cbn; lia. Qed.

Lemma slot_index_inj s s' : slot_index s = slot_index s' -> s = s'.
Proof. by destruct s, s'. Qed.

Lemma timer_set c slot value slot' : timers_ok c ->
  <[slot_index slot := value]> (timers c) !! slot_index slot' =
  if decide (slot' = slot) then Some value else timers c !! slot_index slot'.
Proof.
  intros H. case_decide as E; [subst; apply list_lookup_insert_eq; rw (to_slots _ H); apply slot_index_lt|].
  apply list_lookup_insert_ne. intros E'. by apply slot_index_inj in E'.
Qed.

Lemma expiries_timer slot id delay l : expiries (mkEntry (SlotTimer slot id) delay :: l) = (slot, id) :: expiries l.
Proof. done. Qed.

Lemma expiries_sync target delay l : expiries (mkEntry (MetadataSync target) delay :: l) = expiries l.
Proof. done. Qed.

Lemma expiries_filter slot id l :
  expiries (base.filter (fun e => entry_callback e <> SlotTimer slot id) l)
  = base.filter (fun x => x <> (slot, id)) (expiries l).
Proof.
  induction l as [|[[slot' id'|target] delay] l IH]; [done| |].
  - rw expiries_timer !filter_cons. cbn [entry_callback]. repeat case_decide; rw ?expiries_timer ?IH; naive_solver.
  - rw expiries_sync filter_cons_True; [done|]. by rw expiries_sync.
Qed.

Lemma expiries_remove slot id l :
  NoDup (expiries l).*1 ->
  expiries (remove_callback (SlotTimer slot id) l) = base.filter (fun x => x <> (slot, id)) (expiries l).
Proof.
  induction l as [|[[slot' id'|target] delay] l IH]; [done| |]; cbn [remove_callback entry_callback].
  - rw expiries_timer fmap_cons. intros [Hn Hd]%NoDup_cons. case_decide as E.
    + injection E as -> ->. rw filter_cons_False; [naive_solver|]. symmetry. apply list_filter_all.
      apply Forall_forall. intros [s i] Hin [= -> ->]. apply Hn. by apply (list_elem_of_fmap_2' fst _ (slot, id)).
    + rw filter_cons_True; [naive_solver|]. by rw expiries_timer IH.
  - rw expiries_sync. intros Hd. by apply IH.
Qed.

Lemma expiries_remove_sync target l : expiries (remove_callback (MetadataSync target) l) = expiries l.
Proof.
  induction l as [|[[slot' id'|target'] delay] l IH]; [done| |]; cbn [remove_callback entry_callback].
  - by rw !expiries_timer IH.
  - case_decide; [by rw expiries_sync|]. by rw !expiries_sync.
Qed.

(** Taking a slot's expiry off the clock and emptying the slot. *)
Lemma timers_ok_release c slot id l seq :
  timers c !! slot_index slot = Some (Some id) ->
  expiries l = base.filter (fun x => x <> (slot, id)) (expiries (clock c)) ->
  timers_ok c -> timers_ok (c <| clock := l |> <| timers := <[slot_index slot := None]> (timers c) |> <| timer_sequence := seq |>).
Proof.
  intros Hslot El H. constructor; cbn [timers clock update].
  - cbn. rw length_insert. apply H.
  - cbn. intros slot' id'. rw (timer_set _ _ _ _ H) El list_elem_of_filter. case_decide as E; [subst|].
    + split; [done|]. intros [Hne Hin%(to_armed _ H)]. congruence.
    + rw (to_armed _ H). naive_solver.
  - cbn. rw El. eapply sublist_NoDup; [apply (to_one _ H)|]. apply fmap_sublist, sublist_filter.
Qed.

Lemma timers_cancel c slot : timers_ok c ->
  timers_ok (cancel_timer c slot) /\ forall id, timers (cancel_timer c slot) !! slot_index slot <> Some (Some id).
Proof.
  intros H. unfold cancel_timer. case_match eqn:E; [case_match; subst|]; try (split; [done|congruence]).
  split; [by apply (timers_ok_release _ _ _ _ (timer_sequence c) E (expiries_filter _ _ _))|].
  cbn. intros id. by rw (timer_set _ _ _ _ H) decide_True.
Qed.

Lemma timers_arm c slot delay : timers_ok c -> timers_ok (arm_timer c slot delay).
Proof.
  intros H. destruct (timers_cancel c slot H) as [Hc Hfree]. unfold arm_timer. cbv zeta.
  set (c' := cancel_timer c slot) in *. set (id := timer_sequence c' + 1).
  assert (Happ : expiries (clock c' ++ [mkEntry (SlotTimer slot id) delay]) = expiries (clock c') ++ [(slot, id)])
    by (unfold expiries; by rw omap_app).
  constructor.
  - cbn. rw length_insert. apply Hc.
  - cbn [timers clock update]. intros slot' id'. rw Happ (timer_set _ _ _ _ Hc) elem_of_app list_elem_of_singleton.
    rw -(to_armed _ Hc). case_decide as E; [subst|naive_solver].
    split; [intros [= ->]; by right|]. by intros [?%Hfree|[= ->]].
  - cbn [timers clock update]. rw Happ fmap_app. apply NoDup_app. split_and!.
    + apply Hc.
    + intros s [[s' i] [-> Hin]]%list_elem_of_fmap Hs. apply list_elem_of_singleton in Hs. cbn in Hs. subst.
      apply (to_armed _ Hc) in Hin. by apply Hfree in Hin.
    + apply NoDup_singleton.
Qed.

Lemma timers_arm_label c : timers_ok c -> timers_ok (arm_label_timer c).
Proof. intros H. unfold arm_label_timer. case_match; [by apply timers_arm|by apply timers_cancel]. Qed.

Lemma timers_emit_finished labels c : timer_view (foldl emit_finished c labels) = timer_view c.
Proof. revert c. induction labels as [|label labels IH]; intros c; [done|]. cbn [foldl]. by rw IH. Qed.

Lemma timers_state c s : timer_view (set_state c s) = timer_view c.
Proof. unfold set_state. by repeat case_decide. Qed.

Ltac same_timers :=
  match goal with H : timers_ok ?c |- _ => apply (timers_ok_view c); [reflexivity|exact H] end.

Lemma timers_stable `{crypto : Crypto} : Stable timers_ok.
Proof.
  constructor; [constructor| | |]; try (intros; same_timers).
  - intros c c' E. apply timers_ok_view. unfold loud in E. unfold timer_view. congruence.
  - intros c slot delay. apply timers_arm.
  - intros c callback Hcb H. eapply timers_ok_view; [|exact H]. unfold timer_view. cbn [timers clock update]. f_equal.
    change (expiries (remove_callback callback (clock c)) = expiries (clock c)). destruct callback as [slot id|target]; [|apply expiries_remove_sync].
    rw (expiries_remove _ _ _ (to_one _ H)). apply list_filter_all, Forall_forall.
    intros x Hx ->. apply (to_armed _ H) in Hx. by eapply Hcb.
  - intros c target delay. apply timers_ok_view. unfold timer_view. cbn [timers clock update].
    unfold expiries. by rw omap_app app_nil_r.
  - intros c _. apply timers_ok_view, timers_state.
  - intros c _. apply timers_ok_view. unfold begin_exchange. cbv zeta.
    case_decide; exact (timers_state (c <| sasl := (sasl c) <| exchange_started := true |> |>) StSasl).
  - intros c H. unfold begin_labeled_request. cbv zeta. cbn [fst]. apply timers_arm_label. same_timers.
  - intros c label H. unfold drop_request_label. case_match; [done|]. apply timers_arm_label. same_timers.
  - intros c label H. unfold finish_request_label. case_match; [done|]. cbv zeta.
    apply (timers_ok_view (arm_label_timer (c <| pending_labels := bt_remove label (pending_labels c) |>))); [done|].
    apply timers_arm_label. same_timers.
  - intros c H. unfold clear_pending_request_labels. cbn [negb]. cbv zeta.
    eapply timers_ok_view; [apply timers_emit_finished|]. apply timers_cancel. same_timers.
  - intros c H. unfold on_label_timer_fired. cbv zeta. apply timers_arm_label.
    eapply timers_ok_view; [apply timers_emit_finished|]. same_timers.
  - intros c slot H. by apply timers_cancel.
  - intros c slot id Hslot H.
    exact (timers_ok_release _ _ _ _ (timer_sequence c) Hslot (expiries_remove _ _ _ (to_one _ H)) H).
  - intros c s _ _. apply timers_ok_view, timers_state.
Qed.

Lemma timers_restartable : Restartable timers_ok.
Proof. constructor; intros; same_timers. Qed.

(** ** Batches *)

Definition batches_ok (c : Core) : Prop :=
  ledger_lines_ok (batches c) /\ (length (ignored (batches c)) <= MAX_IGNORED_BATCHES)%nat.

Lemma batches_move l l' :
  rtc ledger_move l l' -> ledger_lines_ok l /\ (length (ignored l) <= MAX_IGNORED_BATCHES)%nat ->
  ledger_lines_ok l' /\ (length (ignored l') <= MAX_IGNORED_BATCHES)%nat.
Proof.
  induction 1 as [|l l1 l' Hmove _ IH]; [done|]. intros [Hl Hi]. apply IH.
  destruct Hmove as [l r|l r Hr|l r|l r b Hb]; cbn; (split; [|try done]); try done.
  - by apply bt_remove_Forall.
  - pose proof (bt_insert_length r tt (ignored l)). unfold bs_insert. lia.
  - pose proof (bt_remove_length r (ignored l)). unfold bs_remove. lia.
  - apply bt_insert_Forall; [by apply Hb|done].
Qed.

Lemma batches_calm `{crypto : Crypto} : Calm batches_ok.
Proof.
  constructor; try done.
  - intros c c' E. assert (batches c' = batches c) as Hb by (unfold calm in E; congruence).
    unfold batches_ok. by rw Hb.
  - intros c s _ _ H. unfold set_state. by repeat case_decide.
  - intros c _ H. unfold set_state. by repeat case_decide.
  - intros c _ H. unfold begin_exchange, set_state. by repeat case_decide.
  - intros c l. apply batches_move.
Qed.

Lemma batches_restartable : Restartable batches_ok.
Proof. constructor; [|done]. intros c _. split; [by constructor|]. cbn. lia. Qed.

(** ** Stopping *)

Definition free_slot (c : Core) (slot : TimerSlot) : Prop :=
  forall id, timers c !! slot_index slot <> Some (Some id).

Definition frame (c : Core) := (label_view c, connection c, state c, effects c).

(** What a cancellation leaves: its own slot and those already free. *)
Lemma cancel_spec c slot (free : TimerSlot -> Prop) :
  timers_ok c /\ (forall s, free s -> free_slot c s) ->
  (timers_ok (cancel_timer c slot) /\ forall s, free s \/ s = slot -> free_slot (cancel_timer c slot) s) /\
  frame (cancel_timer c slot) = frame c.
Proof.
  intros [H Hfree]. pose proof (timers_cancel c slot H) as [Hok Hslot]. split_and!; [done| |].
  - intros s [Hs| ->]; [|done]. revert Hok Hslot. unfold cancel_timer, free_slot.
    case_match; [case_match; subst|]; intros _ _; try by apply Hfree.
    cbn. intros id. rw (timer_set _ _ _ _ H). case_decide; [done|by apply Hfree].
  - unfold frame. rw view_cancel. unfold cancel_timer. by repeat case_match.
Qed.

Lemma set_state_frame c s :
  timer_view (set_state c s) = timer_view c /\ frame (set_state c s) = (label_view c, connection c, s, effects c).
Proof.
  split; [apply timers_state|]. unfold frame. rw view_state. unfold set_state. by repeat (case_decide; subst).
Qed.

Lemma no_expiries c : timers_ok c -> (forall slot, free_slot c slot) -> expiries (clock c) = [].
Proof.
  intros H Hfree. destruct (expiries (clock c)) as [|[slot id] l] eqn:E; [done|]. exfalso.
  apply (Hfree slot id), (to_armed _ H). rw E. by left.
Qed.

(** The expiries of one slot, when no slot has two. *)
Lemma filter_slot slot (l : list (TimerSlot * N)) value :
  NoDup l.*1 -> (forall id, value = Some id <-> (slot, id) ∈ l) ->
  base.filter (fun x => x.1 = slot) l = match value with Some id => [(slot, id)] | None => [] end.
Proof.
  induction l as [|[s i] l IH] in value |- *; cbn [fmap list_fmap].
  - intros _ Hv. destruct value as [id|]; [|done]. by destruct (proj1 (elem_of_nil _) (proj1 (Hv id) eq_refl)).
  - intros [Hn Hd]%NoDup_cons Hv. rw filter_cons. cbn [fst]. case_decide as E.
    + subst. assert (Hi : value = Some i) by (apply Hv; by left). subst. f_equal.
      apply (IH None Hd). intros id. split; [done|]. intros Hin. destruct Hn. by apply (list_elem_of_fmap_2' fst _ (slot, id)).
    + apply IH; [done|]. intros id. rw Hv elem_of_cons. naive_solver.
Qed.

Section Stopping.
Context `{platform : Platform} `{crypto : Crypto} `{policy : SecretPolicy}.

(** What [stop] does before it moves the state machine. *)
Definition stop_prefix (c : Core) : Core :=
  let c := reschedule_sts_expiry c in
  let c := c <| connection := begin_stop (connection c) |> in
  let c := cancel_timer c SlotReconnect in
  let c := cancel_timer c SlotCapability in
  let c := cancel_timer c SlotRegistration in
  let c := cancel_ping_watchdog c in
  clear_pending_request_labels c true.

Definition stop_tail (c : Core) : Core :=
  if decide (state c = StIdle) then c
  else if decide (state c = StReconnecting \/ state c = StFailed) then set_state c StIdle
  else push_effect (push_effect (set_state c StClosing) Shutdown) SettleStop.

Lemma stop_is_prefix c : stop c = stop_tail (stop_prefix c).
Proof. unfold stop, stop_prefix, stop_tail. reflexivity. Qed.

Lemma stop_tail_spec p next done_labels conn st queued :
  expiries (clock p) = [] -> frame p = (([], next, done_labels), conn, st, queued) ->
  expiries (clock (stop_tail p)) = [] /\ pending_labels (stop_tail p) = [] /\
  finished (stop_tail p) = done_labels /\ connection (stop_tail p) = conn /\
  ((state (stop_tail p) = StIdle /\ effects (stop_tail p) = queued) \/
   (state (stop_tail p) = StClosing /\ effects (stop_tail p) = queued ++ [Shutdown; SettleStop])).
Proof.
  intros Hnone F. unfold frame, label_view in F. injection F as Fp Fn Ff Fc Fs Fe.
  assert (Hset : forall s, expiries (clock (set_state p s)) = [] /\
    frame (set_state p s) = (([], next, done_labels), conn, s, queued)).
  { intros s. destruct (set_state_frame p s) as [[= _ ->] ->]. unfold label_view. by rw Fp Fn Ff Fc Fe. }
  unfold stop_tail. case_decide as Hidle; [|case_decide].
  - split_and!; [done..|left]. by split.
  - destruct (Hset StIdle) as [H1 [= H2 _ H3 H4 H5 H6]]. split_and!; [done..|left]. by split.
  - destruct (Hset StClosing) as [H1 [= H2 _ H3 H4 H5 H6]]. unfold push_effect.
    split_and!; [done..|right]. split; [exact H5|]. cbn. by rw H6 -app_assoc.
Qed.

Lemma clear_spec c :
  frame (clear_pending_request_labels c true)
  = (([], next_request_label c, finished c ++ bt_keys (pending_labels c)), connection c, state c, effects c).
Proof.
  unfold clear_pending_request_labels. cbn [negb]. cbv zeta.
  set (cleared := cancel_timer _ _).
  assert (Hf : frame cleared = (([], next_request_label c, finished c), connection c, state c, effects c)).
  { unfold cleared, frame. rw view_cancel. unfold cancel_timer. by repeat case_match. }
  destruct (finished_fold (bt_keys (pending_labels c)) cleared) as (F1 & F2 & F3).
  pose proof (calm_emit_finished (bt_keys (pending_labels c)) cleared) as Hcalm. unfold calm in Hcalm.
  unfold frame, label_view in *. rw F1 F2 F3.
  injection Hf as -> -> -> E1 E2 E3. injection Hcalm as _ -> _ _ -> -> _. by rw E1 E2 E3.
Qed.

Lemma stop_prefix_spec c : timers_ok c ->
  (timers_ok (stop_prefix c) /\ forall slot, free_slot (stop_prefix c) slot) /\
  frame (stop_prefix c) =
    (([], next_request_label c, finished c ++ bt_keys (pending_labels c)), begin_stop (connection c), state c, effects c).
Proof.
  intros H. unfold stop_prefix, cancel_ping_watchdog. cbv zeta.
  set (c1 := (reschedule_sts_expiry c) <| connection := begin_stop (connection (reschedule_sts_expiry c)) |>).
  assert (H1 : timers_ok c1 /\ (forall s, False -> free_slot c1 s)).
  { split; [|done]. apply (timers_ok_view c); [|done]. unfold c1, reschedule_sts_expiry. by repeat case_match. }
  assert (F1 : frame c1 = (label_view c, begin_stop (connection c), state c, effects c)).
  { unfold c1, reschedule_sts_expiry. by repeat case_match. }
  apply (cancel_spec _ SlotReconnect) in H1 as [H2 F2]. apply (cancel_spec _ SlotCapability) in H2 as [H3 F3].
  apply (cancel_spec _ SlotRegistration) in H3 as [H4 F4]. set (c4 := cancel_timer _ SlotRegistration) in *.
  assert (H4' : timers_ok (c4 <| ping := PingOff |>) /\ forall s, ((((False \/ s = SlotReconnect) \/ s = SlotCapability) \/ s = SlotRegistration)) ->
    free_slot (c4 <| ping := PingOff |>) s).
  { destruct H4 as [Ht Hs]. split; [same_timers|exact Hs]. }
  apply (cancel_spec _ SlotPing) in H4' as [H5 F5]. set (c5 := cancel_timer _ SlotPing) in *.
  assert (F : frame c5 = (label_view c, begin_stop (connection c), state c, effects c)).
  { rw F5. change (frame c4 = (label_view c, begin_stop (connection c), state c, effects c)). by rw F4 F3 F2. }
  split.
  - unfold clear_pending_request_labels. cbn [negb]. cbv zeta.
    set (c6 := c5 <| pending_labels := [] |>).
    assert (H6 : timers_ok c6 /\ forall s, s <> SlotLabel -> free_slot c6 s).
    { destruct H5 as [Ht Hs]. split; [same_timers|]. intros s Hne. apply Hs. destruct s; tauto. }
    apply (cancel_spec _ SlotLabel) in H6 as [[H7 Hs7] _].
    pose proof (timers_emit_finished (bt_keys (pending_labels c5)) (cancel_timer c6 SlotLabel)) as Hview.
    split; [exact (timers_ok_view _ _ Hview H7)|]. intros s. unfold free_slot. injection Hview as -> _.
    apply Hs7. destruct (decide (s = SlotLabel)); tauto.
  - rw clear_spec. unfold frame, label_view in F. by injection F as -> -> -> -> -> ->.
Qed.

End Stopping.

Section Runs.
Context `{platform : Platform} `{crypto : Crypto} `{policy : SecretPolicy}.

(** C9: once a session is on TLS, because its profile says so, by an STS upgrade or by a cached
    policy, it never goes back to plaintext before the owner starts it again: whatever the
    server, the clock and the owner do, TLS stays on and every connect asks for it. *)
Theorem tls_never_downgrades c steps :
  tls_enabled c = true -> Forall (fun step => step.2 <> Start) steps ->
  secure_since (effects c) (session_run c steps).
Proof.
  intros Htls Hsteps. apply stable_run_unrestricted.
  - apply calm_stable, secure_calm.
  - apply secure_restartable.
  - by left.
  - split; [done|]. exists []. by rw app_nil_r.
Qed.


Lemma run_stable P cfg store steps :
  Stable P -> Restartable P -> (forall c b, P c -> P (c <| tls_enabled := b |>)) ->
  P (new_core cfg store) -> P (session_run (new_core cfg store) steps).
Proof. intros HP HR Htls Hnew. apply stable_run_unrestricted; [done|done|by right|done]. Qed.

Lemma run_timers_ok cfg store steps : timers_ok (session_run (new_core cfg store) steps).
Proof.
  apply run_stable; [apply timers_stable|apply timers_restartable|intros; same_timers|].
  constructor; cbn; [done| |constructor]. intros slot id. destruct slot; (split; [done|by intros ?%elem_of_nil]).
Qed.


(** A timer slot never loses or duplicates its timer: after any run, a slot that is armed with
    a generation has exactly that one expiry on the clock, and a slot that is not has none, so
    no cancelled or replaced timer can fire. *)
Theorem timers_consistent cfg store steps slot :
  let c := session_run (new_core cfg store) steps in
  base.filter (fun x => x.1 = slot) (expiries (clock c)) =
  match timers c !! slot_index slot with Some (Some id) => [(slot, id)] | _ => [] end.
Proof.
  intros c. pose proof (run_timers_ok cfg store steps) as H. fold c in H.
  pose proof (to_one _ H) as Hone. pose proof (to_armed _ H slot) as Harmed.
  rw (filter_slot slot _ (mjoin (timers c !! slot_index slot)) Hone).
  - intros id. rw -Harmed. destruct (timers c !! slot_index slot) as [[id'|]|]; cbn; naive_solver.
  - by destruct (timers c !! slot_index slot) as [[id|]|].
Qed.

(** Whatever the server opens, nests and floods, no batch the session collects holds more than
    256 lines, and it remembers at most 32 batches to ignore. *)
Theorem batches_bounded cfg store steps :
  batches_ok (session_run (new_core cfg store) steps).
Proof.
  apply run_stable; [apply calm_stable, batches_calm|apply batches_restartable|done|].
  split; [by constructor|]. cbn. lia.
Qed.

(** [stop] leaves nothing behind, whatever went before: no timer is armed or on the clock, no
    label is pending and each that was is told finished, the next disconnect is expected, the
    state is idle or closing, and closing asks the transport to shut down and to settle. *)
Theorem stop_quiesces cfg store steps :
  let c := session_run (new_core cfg store) steps in
  expiries (clock (stop c)) = [] /\ pending_labels (stop c) = [] /\
  finished (stop c) = finished c ++ bt_keys (pending_labels c) /\
  is_stopping (connection (stop c)) = true /\
  ((state (stop c) = StIdle /\ effects (stop c) = effects c) \/
   (state (stop c) = StClosing /\ effects (stop c) = effects c ++ [Shutdown; SettleStop])).
Proof.
  intros c. pose proof (run_timers_ok cfg store steps) as H. fold c in H.
  destruct (stop_prefix_spec c H) as [[Hok Hfree] F]. rw stop_is_prefix.
  destruct (stop_tail_spec _ _ _ _ _ _ (no_expiries _ Hok Hfree) F) as (H1 & H2 & H3 & H4 & H5). by rw H4.
Qed.
End Runs.

(** ** Runs *)

Definition demo_config : SessionConfig :=
  (with_defaults (lit "n") (lit "N") (lit "irc.example") (lit "me")) <| password := lit "pw" |>.
Definition demo_moment : Moment := mkMoment 0 TrEncrypted (Some [1; 2]) [].
Definition demo_line (s : str) : Moment * Input := (demo_moment, TransportBytes (as_bytes s ++ [13; 10])).
Definition demo_scram : list (Moment * Input) :=
  let encode := @base64_encode toy_crypto in
  let nonce := encode [1; 2] in
  let first := lit "r=" ++ nonce ++ lit "s,s=" ++ encode [9] ++ lit ",i=4096" in
  let verifier := (as_bytes (lit "pw") ++ [9]) ++ lit "Server Key"
    ++ (lit "n=me,r=" ++ nonce ++ lit "," ++ first ++ lit ",c=biws,r=" ++ nonce ++ lit "s") in
  let final := encode (lit "v=" ++ encode verifier) in
  let auth payload := demo_line (lit "AUTHENTICATE " ++ payload) in
  [(demo_moment, Start); (demo_moment, TransportEncrypted);
   demo_line (lit ":s CAP * LS :sasl=SCRAM-SHA-256"); demo_line (lit ":s CAP * ACK :sasl");
   auth (lit "+"); auth (encode first); auth (take 400 final); auth (take 400 (drop 400 final));
   auth (take 400 (drop 800 final)); auth (drop 1200 final);
   demo_line (lit ":s 903 me :ok"); demo_line (lit ":s 001 me :hi")].

Lemma tls_never_downgrades_witness :
  let c := new_core demo_config [] in
  let steps := [(demo_moment, TransportDisconnected); (demo_moment, NotifyReachable)] in
  tls_enabled c = true /\ secure_since (effects c) (@session_run toy_platform toy_crypto toy_policy c steps).
Proof.
  intros c steps. split; [reflexivity|].
  apply (@tls_never_downgrades toy_platform toy_crypto toy_policy c steps); [reflexivity|by repeat constructor].
Defined.


Definition demo_text (s : str) : bytes := as_bytes s ++ [13; 10].
Definition demo_run (cfg : SessionConfig) (inputs : list Input) : Core :=
  @session_run toy_platform toy_crypto toy_policy (new_core cfg []) ((fun input => (demo_moment, input)) <$> inputs).

(** A fatal reply does not end the read it came in: the frames behind it are still handled, and
    a capability list moves the session from failed back to registering, where the disconnect
    that follows is ignored and a new start is refused. *)
Example frames_after_failure_example :
  let c := demo_run demo_config
    [Start; TransportEncrypted; TransportBytes (demo_text (lit ":s 464 me :bad") ++ demo_text (lit ":s CAP * LS :"))] in
  let c' := demo_run demo_config
    [Start; TransportEncrypted; TransportBytes (demo_text (lit ":s 464 me :bad") ++ demo_text (lit ":s CAP * LS :"));
     TransportDisconnected; Start] in
  state c = StRegistering /\ state c' = StRegistering /\ length (effects c') = length (effects c).
Proof. vm_compute. done. Qed.

(** SASL offered after registration takes the session out of the registered state; it comes back
    only with another welcome, and until then refuses to send. *)
Example late_sasl_example :
  let inputs := [Start; TransportEncrypted; TransportBytes (demo_text (lit ":s CAP * LS :cap-notify"));
     TransportBytes (demo_text (lit ":s CAP * ACK :cap-notify")); TransportBytes (demo_text (lit ":s 001 me :hi"));
     TransportBytes (demo_text (lit ":s CAP me NEW :sasl=PLAIN")); TransportBytes (demo_text (lit ":s CAP me ACK :sasl"));
     TransportBytes (demo_text (lit "AUTHENTICATE +")); TransportBytes (demo_text (lit ":s 903 me :ok"))] in
  let c := demo_run demo_config inputs in
  let c' := demo_run demo_config (inputs ++ [Owner (SendPrivmsg (lit "#a") (lit "hi"))]) in
  state c = StRegistering /\ effects c' = effects c.
Proof. vm_compute. done. Qed.

(** A [sasl] requested and withdrawn before its answer stays pending: neither the other answers nor
    the capability timeout end the negotiation, and no CAP END is sent. *)
Example withdrawn_sasl_example :
  let c := demo_run demo_config
    [Start; TransportEncrypted; TransportBytes (demo_text (lit ":s CAP * LS :cap-notify sasl=PLAIN"));
     TransportBytes (demo_text (lit ":s CAP * ACK :cap-notify")); TransportBytes (demo_text (lit ":s CAP * DEL :sasl"))] in
  let expiry := SlotTimer SlotCapability (default 0 (mjoin (timers c !! slot_index SlotCapability))) in
  let c' := @session_step toy_platform toy_crypto toy_policy c (demo_moment, ClockFires expiry) in
  settled (caps c) = true /\ sasl_pending (sasl c') = true /\ state c' = StRegistering /\
  existsb (fun e => match e with Write l => bool_decide (l = demo_text (lit "CAP END")) | _ => false end) (effects c') = false.
Proof. vm_compute. done. Qed.
