(* ===== verification/SessionReconnect.v ===== *)
(** * SessionReconnect: a session that lost its connection tries again
    (src/client/src/session/session.rs, timers.rs, connection.rs)

    Safety says what a session never does; here is what it is sure to do. A reconnecting session
    always has its timer on the clock, and the expiry of that timer asks for a connection. *)

From S2P Require Import Prelude Text Message Parser Framer CaseMapping ServerFeatures Capability JoinTarget Scram.
From S2P Require Import OrdMap SessionTypes Platform Connection Sts Ctcp Metadata Typing SessionCore SessionOutbound.
From S2P Require Import SessionMarkers SessionHistory SessionNegotiation SessionDispatch Session SessionInvariants SessionProperties.

(** ** The reconnect slot *)

Definition reconnect_slot (c : Core) : option (option N) := timers c !! slot_index SlotReconnect.

Definition armed (c : Core) : Prop := exists id, reconnect_slot c = Some (Some id).

(** The slots are sound, and a reconnecting session's is armed. *)
Definition reconnect_ok (c : Core) : Prop := timers_ok c /\ (state c = StReconnecting -> armed c).

Lemma slot_cancel c slot : slot <> SlotReconnect -> reconnect_slot (cancel_timer c slot) = reconnect_slot c.
Proof.
  intros Hne. unfold reconnect_slot, cancel_timer. case_match; [case_match|]; [|done..].
  apply list_lookup_insert_ne. intros E. by apply slot_index_inj in E.
Qed.

Lemma slot_arm c slot delay : slot <> SlotReconnect -> reconnect_slot (arm_timer c slot delay) = reconnect_slot c.
Proof.
  intros Hne. rw -(slot_cancel c slot Hne). apply list_lookup_insert_ne. intros E. by apply slot_index_inj in E.
Qed.

Lemma armed_arm c delay : timers_ok c -> armed (arm_timer c SlotReconnect delay).
Proof.
  intros H. destruct (timers_cancel c SlotReconnect H) as [Hc _]. eexists.
  unfold reconnect_slot, arm_timer. cbn [timers update]. apply list_lookup_insert_eq. rw (to_slots _ Hc). apply slot_index_lt.
Qed.

Lemma armed_emit c e : armed c -> armed (emit c e).
Proof. done. Qed.

Definition reconnect_view (c : Core) := (state c, reconnect_slot c).

Lemma view_cancel_other c slot : slot <> SlotReconnect -> reconnect_view (cancel_timer c slot) = reconnect_view c.
Proof. intros Hne. unfold reconnect_view. by rw slot_cancel // state_cancel_timer. Qed.

Lemma view_arm_other c slot delay : slot <> SlotReconnect -> reconnect_view (arm_timer c slot delay) = reconnect_view c.
Proof.
  intros Hne. unfold reconnect_view. rw slot_arm //. f_equal. exact (state_cancel_timer c slot).
Qed.

Lemma view_labels c : reconnect_view (arm_label_timer c) = reconnect_view c.
Proof. unfold arm_label_timer. case_match; [by apply view_arm_other|by apply view_cancel_other]. Qed.

Lemma view_emit_finished labels c : reconnect_view (foldl emit_finished c labels) = reconnect_view c.
Proof. revert c. induction labels as [|label labels IH]; intros c; [done|]. cbn [foldl]. by rw IH. Qed.

Lemma armed_view c c' :
  reconnect_view c' = reconnect_view c -> (state c = StReconnecting -> armed c) -> state c' = StReconnecting -> armed c'.
Proof. unfold armed. by intros [= -> ->]. Qed.

Lemma slot_state c s : reconnect_slot (set_state c s) = reconnect_slot c /\ state (set_state c s) = s.
Proof. unfold set_state. by repeat (case_decide; subst). Qed.

(** Any property the timers keep, and the view, is kept. *)
Lemma reconnect_ok_view c c' :
  timers_ok c' -> reconnect_view c' = reconnect_view c -> reconnect_ok c -> reconnect_ok c'.
Proof. intros Ht Hv [_ H]. split; [done|]. by apply (armed_view c). Qed.

(** A session in another state needs no timer. *)
Lemma reconnect_ok_elsewhere c : timers_ok c -> state c <> StReconnecting -> reconnect_ok c.
Proof. by split. Qed.

Section Reconnect.
Context `{platform : Platform} `{crypto : Crypto} `{policy : SecretPolicy}.

Let timers_moves : Moves timers_ok := sb_moves _ timers_stable.

Lemma state_begin_exchange c : state (begin_exchange c) = StSasl.
Proof using Type. unfold begin_exchange. cbv zeta. case_decide; apply slot_state. Qed.

Lemma reconnect_moves : Moves reconnect_ok.
Proof using Type.
  constructor.
  - intros c c' E H. apply (reconnect_ok_view c); [by apply (st_quiet _ timers_moves c), H| |done].
    unfold loud in E. unfold reconnect_view, reconnect_slot. congruence.
  - intros c e He H. apply (reconnect_ok_view c); [by apply (st_emit _ timers_moves), H|done|done].
  - intros c e He H. apply (reconnect_ok_view c); [by apply (st_effect _ timers_moves), H|done|done].
  - intros c slot delay [Ht H]. destruct (decide (slot = SlotReconnect)) as [->|Hne].
    + split; [by apply timers_arm|]. intros _. by apply armed_arm.
    + apply (reconnect_ok_view c); [by apply timers_arm|by apply view_arm_other|done].
  - intros c callback Hcb H. apply (reconnect_ok_view c); [by apply (st_fires _ timers_moves), H|done|done].
  - intros c target delay H. apply (reconnect_ok_view c); [by apply (st_sync _ timers_moves), H|done|done].
  - intros c Hw H. apply reconnect_ok_elsewhere; [by apply (st_registered _ timers_moves), H|].
    by rw (proj2 (slot_state _ _)).
  - intros c Hx H. apply reconnect_ok_elsewhere; [by apply (st_exchange _ timers_moves), H|].
    by rw state_begin_exchange.
  - intros c H. apply (reconnect_ok_view c); [by apply (st_tls _ timers_moves), H|done|done].
  - intros c conn H. apply (reconnect_ok_view c); [by apply (st_connection _ timers_moves), H|done|done].
  - intros c s Hs H. apply (reconnect_ok_view c); [by apply (st_sasl _ timers_moves), H|done|done].
  - intros c l Hl H. apply (reconnect_ok_view c); [by apply (st_ledger _ timers_moves), H|done|done].
  - intros c H. apply (reconnect_ok_view c); [by apply (st_begin_label _ timers_moves), H| |done].
    unfold begin_labeled_request. cbv zeta. cbn [fst]. by rw view_labels.
  - intros c label H. apply (reconnect_ok_view c); [by apply (st_drop_label _ timers_moves), H| |done].
    unfold drop_request_label. case_match; [done|]. by rw view_labels.
  - intros c label H. apply (reconnect_ok_view c); [by apply (st_finish_label _ timers_moves), H| |done].
    unfold finish_request_label. case_match; [done|]. cbv zeta.
    exact (view_labels (c <| pending_labels := bt_remove label (pending_labels c) |>)).
  - intros c H. apply (reconnect_ok_view c); [by apply (st_clear_labels _ timers_moves), H| |done].
    unfold clear_pending_request_labels. cbn [negb]. cbv zeta. by rw view_emit_finished view_cancel_other.
  - intros c H. apply (reconnect_ok_view c); [by apply (st_expire_labels _ timers_moves), H| |done].
    unfold on_label_timer_fired. cbv zeta. by rw view_labels view_emit_finished.
Qed.

Lemma reconnect_steady : Steady reconnect_ok.
Proof using Type.
  pose proof (stable_steady _ timers_stable) as Ht. constructor; [apply reconnect_moves|..].
  - intros c slot Hne H. apply (reconnect_ok_view c); [by apply (st_cancel _ Ht), H|by apply view_cancel_other|done].
  - intros c slot id Hne Hid H. apply (reconnect_ok_view c); [by apply (st_expired _ Ht), H| |done].
    unfold reconnect_view, release, reconnect_slot. cbn [state timers update]. f_equal.
    apply list_lookup_insert_ne. intros E. by apply slot_index_inj in E.
  - intros c s H1 H2 H3 H. apply reconnect_ok_elsewhere; [by apply (st_state _ Ht), H|].
    by rw (proj2 (slot_state _ _)).
  - intros c H. split; [by apply (st_schedule _ Ht), H|]. unfold schedule_reconnect.
    destruct (negb _); [by rw (proj2 (slot_state _ _))|]. case_decide; [by apply H|].
    destruct (count_scheduled_reconnect _) as [conn attempt]. cbv zeta. intros _.
    apply armed_emit, armed_arm. apply (timers_ok_view c); [exact (timers_state _ _)|apply H].
  - intros c H. apply reconnect_ok_elsewhere; [by apply (st_give_up _ Ht), H|]. by rw (proj2 (slot_state _ _)).
Qed.

Lemma state_stop c : timers_ok c -> state (stop c) <> StReconnecting.
Proof using Type.
  intros H. destruct (stop_prefix_spec c H) as [[Hok Hfree] F]. rw stop_is_prefix.
  destruct (stop_tail_spec _ _ _ _ _ _ (no_expiries _ Hok Hfree) F) as (_ & _ & _ & _ & [[-> _]|[-> _]]); done.
Qed.

Lemma state_connect_transport c : state (connect_transport c) = state c.
Proof using Type. done. Qed.

(** What an attempt is, for a reconnecting session. *)
Lemma attempt_is c :
  state c = StReconnecting ->
  begin_reconnect_attempt c = connect_transport (set_state (reset_for_connection (apply_cached_sts (cancel_timer c SlotReconnect))) StConnecting).
Proof using Type. intros Hst. cbv beta zeta delta [begin_reconnect_attempt]. by rw bool_decide_eq_true_2. Qed.

Lemma attempt_skips c : state c <> StReconnecting -> begin_reconnect_attempt c = c.
Proof using Type. intros Hst. cbv beta delta [begin_reconnect_attempt]. by rw bool_decide_eq_false_2. Qed.

Lemma attempt_state c : state c = StReconnecting -> state (begin_reconnect_attempt c) = StConnecting.
Proof using Type.
  intros Hst. rw (attempt_is c Hst) state_connect_transport. apply slot_state.
Qed.

Lemma attempt_ok c : timers_ok (begin_reconnect_attempt c) -> reconnect_ok c -> reconnect_ok (begin_reconnect_attempt c).
Proof using Type.
  intros Ht H. destruct (decide (state c = StReconnecting)) as [E|E].
  - apply reconnect_ok_elsewhere; [done|]. by rw attempt_state.
  - by rw attempt_skips.
Qed.

Lemma reconnect_retries : Retries reconnect_ok.
Proof using Type.
  destruct (stable_retries _ timers_stable timers_restartable) as (Hstop & Hattempt & Hfired). split_and!.
  - intros c H. apply reconnect_ok_elsewhere; [by apply Hstop, H|]. apply state_stop, H.
  - intros c H. apply attempt_ok; [by apply Hattempt, H|done].
  - intros c id Hid H. destruct (decide (state c = StReconnecting)) as [E|E].
    + apply reconnect_ok_elsewhere; [by apply Hfired, H|]. by rw attempt_state.
    + rw attempt_skips //.
      apply reconnect_ok_elsewhere; [|done]. by apply (sb_expired _ timers_stable), H.
Qed.

(** ** What the attempt asks for *)

Definition sent (c : Core) := (config c, effects c).

Lemma sent_calm c c' : calm c' = calm c -> sent c' = sent c.
Proof using Type. unfold calm, sent. congruence. Qed.

Lemma sent_state c s : sent (set_state c s) = sent c.
Proof using Type. unfold set_state. by repeat case_decide. Qed.

Lemma sent_publish c : sent (publish_capabilities c) = sent c.
Proof using Type. unfold publish_capabilities. cbv zeta. by case_decide. Qed.

Lemma sent_reset c : sent (reset_for_connection c) = sent c.
Proof using Type.
  cbv beta delta [reset_for_connection].
  do 6 (lazymatch goal with |- sent (let x := ?X in @?B x) = _ => refine (let_core (fun c' => sent c' = sent c) X B _ _) end;
    [first [reflexivity|by rw (sent_calm _ _ (calm_cancel _ _))|by rw (sent_calm _ _ (calm_clear _))
      |unfold cancel_ping_watchdog; by rw (sent_calm _ _ (calm_cancel _ _))|assumption]|intros ? ?; cbv beta]).
  by rw sent_publish.
Qed.

Lemma sent_cached_sts c : sent (apply_cached_sts c) = sent c.
Proof using Type. unfold apply_cached_sts. destruct (sts_lookup _ _ _) as [store cached]. by destruct cached. Qed.

Lemma attempt_connects c :
  state c = StReconnecting ->
  let c' := begin_reconnect_attempt c in
  state c' = StConnecting /\ effects c' = effects c ++ [Connect (host (config c)) (port c') (tls_enabled c')].
Proof using Type.
  intros Hst c'. split; [by apply attempt_state|]. unfold c'. rw (attempt_is c Hst).
  set (r := set_state _ _). assert (E : sent r = sent c).
  { unfold r. rw sent_state sent_reset sent_cached_sts. apply sent_calm, calm_cancel. }
  clearbody r. unfold connect_transport, push_effect. cbn [effects port tls_enabled update].
  injection E as -> ->. done.
Qed.

(** ** Runs *)

Lemma run_reconnect_ok cfg store steps : reconnect_ok (session_run (new_core cfg store) steps).
Proof using Type.
  apply stable_run; [apply reconnect_steady|apply reconnect_retries| | |].
  - constructor; [intros c [Ht H]|intros c _ [Ht H]]; (split; [by apply (timers_ok_view c)|exact H]).
  - right. intros c b H. apply (reconnect_ok_view c); [|done|done]. by apply (timers_ok_view c), H.
  - split; [|done]. by apply (run_timers_ok cfg store []).
Qed.

Lemma run_config cfg store steps : config (session_run (new_core cfg store) steps) = cfg.
Proof using Type.
  apply (stable_run_unrestricted (scram_ok cfg)); [apply calm_stable, scram_calm|apply scram_restartable|by right|apply scram_new].
Qed.

Lemma expiry_attempts c id :
  reconnect_slot c = Some (Some id) ->
  run_callback c (SlotTimer SlotReconnect id) = begin_reconnect_attempt (release c SlotReconnect id).
Proof using Type.
  intros Hid. cbv beta iota zeta delta [run_callback timer_fired]. rewrite bool_decide_eq_true_2; [exact Hid|].
  cbn [negb]. exact eq_refl.
Qed.

Lemma session_run_snoc c steps step : session_run c (steps ++ [step]) = session_step (session_run c steps) step.
Proof using Type. exact (foldl_app _ _ _ _). Qed.

(** The expiry the slot waits for, and what it does whenever it comes. *)
Lemma reconnecting_connects c :
  reconnect_ok c -> state c = StReconnecting ->
  exists id, (SlotReconnect, id) ∈ expiries (clock c) /\
    forall moment, let c' := session_step c (moment, ClockFires (SlotTimer SlotReconnect id)) in
    state c' = StConnecting /\ effects c' = effects c ++ [Connect (host (config c)) (port c') (tls_enabled c')].
Proof using Type.
  intros [Ht H] Hst. destruct (H Hst) as [id Hid]. exists id. split; [by apply (to_armed _ Ht)|]. intros moment c'.
  assert (E : c' = begin_reconnect_attempt (release (at_moment c moment) SlotReconnect id))
    by exact (expiry_attempts (at_moment c moment) id Hid).
  rw E. exact (attempt_connects (release (at_moment c moment) SlotReconnect id) Hst).
Qed.

(** C10: a session that waits to reconnect will: in every reachable reconnecting state the expiry of
    the reconnect slot is on the clock, and whenever the clock runs it the session is connecting
    and the one thing it asked of its transport is a connection to its own host; nothing the
    server, the owner or the other timers did on the way can have lost it. *)
Theorem reconnecting_session_connects cfg store steps :
  let c := session_run (new_core cfg store) steps in
  state c = StReconnecting ->
  exists id, (SlotReconnect, id) ∈ expiries (clock c) /\
    forall moment, let c' := session_step c (moment, ClockFires (SlotTimer SlotReconnect id)) in
    state c' = StConnecting /\ effects c' = effects c ++ [Connect (host cfg) (port c') (tls_enabled c')].
Proof using Type.
  intros c Hst. destruct (reconnecting_connects c (run_reconnect_ok cfg store steps) Hst) as (id & Hid & H).
  exists id. split; [done|]. intros moment. pose proof (run_config cfg store steps) as E. fold c in E. rw -E. apply H.
Qed.

(** *** Losing a connection *)

Definition settings (c : Core) := (config c, transport_state c).

Lemma settings_cancel c slot : settings (cancel_timer c slot) = settings c.
Proof using Type. unfold cancel_timer. by repeat case_match. Qed.

Lemma settings_emit_finished labels c : settings (foldl emit_finished c labels) = settings c.
Proof using Type. revert c. induction labels as [|label labels IH]; intros c; [done|]. cbn [foldl]. by rw IH. Qed.

Lemma settings_clear c : settings (clear_pending_request_labels c true) = settings c.
Proof using Type.
  unfold clear_pending_request_labels. cbn [negb]. cbv zeta. by rw settings_emit_finished settings_cancel.
Qed.

Lemma schedule_reconnects c : reconnect_enabled (config c) = true -> state (schedule_reconnect c) = StReconnecting.
Proof using Type.
  intros Hr. unfold schedule_reconnect. rw Hr. cbn [negb]. case_decide as E; [done|].
  destruct (count_scheduled_reconnect _) as [conn attempt]. cbv zeta.
  lazymatch goal with |- state (emit (arm_timer ?c ?slot ?delay) _) = _ =>
    transitivity (state c); [exact (state_cancel_timer c slot)|] end. apply slot_state.
Qed.

Lemma fail_reconnects c kind message :
  reconnect_enabled (config c) = true -> transport_is_live (transport_state c) = false ->
  state (fail c kind message true) = StReconnecting.
Proof using Type.
  intros Hr Hlive. cbv beta zeta delta [fail].
  set (c1 := clear_pending_request_labels _ true). assert (E : settings c1 = settings c).
  { unfold c1, cancel_ping_watchdog. rw settings_clear settings_cancel. exact (settings_cancel c SlotRegistration). }
  clearbody c1. injection E as E1 E2.
  destruct (first_report_of (connection c1) kind) as [conn first].
  set (c2 := if first then _ else _). assert (E : settings c2 = settings c1) by (unfold c2; by destruct first).
  clearbody c2. injection E as E3 E4. rw E4 E2 Hlive. apply schedule_reconnects. by rw E3 E1.
Qed.

(** C11: a lost connection is retried: when the transport reports an error and is no longer live,
    a session whose profile reconnects and whose owner did not stop it waits with its timer on
    the clock, whatever state it was in and whatever was reported before, and the expiry of
    that timer asks for a connection. *)
Theorem lost_connection_retried cfg store steps moment error :
  let before := session_run (new_core cfg store) steps in
  let c := session_step before (moment, TransportFailed error) in
  reconnect_enabled cfg = true -> is_stopping (connection before) = false ->
  transport_is_live (moment_transport moment) = false ->
  state c = StReconnecting /\
  exists id, (SlotReconnect, id) ∈ expiries (clock c) /\
    forall later, let c' := session_step c (later, ClockFires (SlotTimer SlotReconnect id)) in
    state c' = StConnecting /\ effects c' = effects c ++ [Connect (host cfg) (port c') (tls_enabled c')].
Proof using Type.
  intros before c Hr Hstop Hlive. pose proof (run_config cfg store steps) as Hcfg. fold before in Hcfg.
  assert (Hst : state c = StReconnecting).
  { unfold c, session_step. cbn [fst snd run_input]. unfold error_occurred.
    change (is_stopping (connection (at_moment before moment))) with (is_stopping (connection before)). rw Hstop.
    apply fail_reconnects; [by rw -Hr -Hcfg|done]. }
  split; [done|].
  pose proof (eq_sym (session_run_snoc (new_core cfg store) steps (moment, TransportFailed error))) as Hc.
  fold before in Hc. fold c in Hc.
  pose proof (run_config cfg store (steps ++ [(moment, TransportFailed error)])) as Hcfg'. rewrite <- Hc in Hcfg'.
  pose proof (run_reconnect_ok cfg store (steps ++ [(moment, TransportFailed error)])) as Hok. rewrite <- Hc in Hok.
  destruct (reconnecting_connects c Hok Hst) as (id & Hid & H). exists id. split; [done|].
  intros later. rw -Hcfg'. apply H.
Qed.
End Reconnect.

(** *** Witnesses *)

Definition lost_moment : Moment := mkMoment 0 TrFailed None [].
Definition lost_error : TransportError := mkTransportError TransportNetwork (lit "reset by peer").

Lemma lost_connection_retried_witness :
  let before := @session_run toy_platform toy_crypto toy_policy (new_core demo_config []) [(demo_moment, Start)] in
  state (@session_step toy_platform toy_crypto toy_policy before (lost_moment, TransportFailed lost_error)) = StReconnecting.
Proof.
  intros before. refine (proj1 (@lost_connection_retried toy_platform toy_crypto toy_policy demo_config []
    [(demo_moment, Start)] lost_moment lost_error _ _ _)); vm_compute; reflexivity.
Defined.

Lemma reconnecting_session_connects_witness :
  let run := @session_run toy_platform toy_crypto toy_policy (new_core demo_config [])
    [(demo_moment, Start); (lost_moment, TransportFailed lost_error)] in
  exists id, (SlotReconnect, id) ∈ expiries (clock run) /\
    state (@session_step toy_platform toy_crypto toy_policy run (demo_moment, ClockFires (SlotTimer SlotReconnect id))) = StConnecting.
Proof.
  intros run. destruct (@reconnecting_session_connects toy_platform toy_crypto toy_policy demo_config []
    [(demo_moment, Start); (lost_moment, TransportFailed lost_error)] ltac:(vm_compute; reflexivity)) as (id & Hid & H).
  exists id. split; [exact Hid|]. exact (proj1 (H demo_moment)).
Defined.
