(* ===== verification/SessionMessages.v ===== *)
(** * SessionMessages: a message goes out whole or not at all
    (src/client/src/session/send.rs, outbound.rs)

    A body that is too long for one line is sent in pieces. The sender either writes every
    piece, or refuses and leaves the session as it was. *)

From S2P Require Import Prelude Text Message CaseMapping ServerFeatures Parser CommandBuilder OrdMap SessionTypes Platform.
From S2P Require Import Connection SessionCore SessionOutbound.

(** The frame of one piece. *)
Definition piece_frame (prefix suffix chunk : str) : Effect := Write (as_bytes (prefix ++ chunk ++ suffix ++ CRLF)).

(** A piece the line builder accepts. *)
Definition sendable (f : IrcServerFeatures) (prefix suffix chunk : str) : Prop :=
  line (prefix ++ chunk ++ suffix) f = Ok (prefix ++ chunk ++ suffix ++ CRLF).

(** What a send is allowed to come to: the whole body in frames of the server's length, or an
    untouched session and a reason. *)
Definition whole_or_nothing (c : Core) (prefix body suffix : str) (refused : Prop) (outcome : Core * bool) : Prop :=
  if outcome.2 then
    state c = StRegistered /\ ~ refused /\
    exists chunks, chunks <> [] /\ pieces body chunks /\
      Forall (fun chunk => chunk <> [] /\ str_len (prefix ++ chunk ++ suffix ++ CRLF) <= line_length (features c)) chunks /\
      effects outcome.1 = effects c ++ (piece_frame prefix suffix <$> chunks)
  else
    outcome.1 = c /\
    (state c <> StRegistered \/ refused \/ body = [] \/
     contains_forbidden (as_bytes (prefix ++ body ++ suffix)) = true \/
     line_length (features c) < str_len prefix + str_len suffix + 6).

Section Messages.
Context `{platform : Platform}.

Lemma send_line_frame c l : l <> [] -> effects (send_line c l) = effects c ++ [Write l].
Proof using Type. by destruct l. Qed.

Lemma send_line_keeps c l : state (send_line c l) = state c /\ features (send_line c l) = features c.
Proof using Type. unfold send_line. by case_match. Qed.

Lemma line_frame_length command f l : line command f = Ok l -> str_len l <= line_length f.
Proof using Type.
  unfold line. repeat (case_match; try discriminate). intros [= <-]. rw str_len_app.
  change (str_len CRLF) with CRLF_BYTES. lia.
Qed.

Lemma send_chunks_all c prefix suffix chunks :
  state c = StRegistered -> Forall (sendable (features c) prefix suffix) chunks ->
  (send_chunks c prefix suffix [] chunks).2 = true /\
  effects (send_chunks c prefix suffix [] chunks).1 = effects c ++ (piece_frame prefix suffix <$> chunks).
Proof using Type.
  revert c. induction chunks as [|chunk chunks IH]; intros c Hst Hok; cbn [send_chunks]; [by rw app_nil_r|].
  apply Forall_cons in Hok as [Hline Hok].
  assert (E : send_command c (prefix ++ chunk ++ suffix) []
    = (send_line c (as_bytes (prefix ++ chunk ++ suffix ++ CRLF)), true)).
  { unfold send_command. rw (bool_decide_eq_true_2 _ Hst). cbn [negb is_empty andb]. unfold sendable in Hline.
    rw Hline. done. }
  rw E. set (c1 := send_line c _).
  destruct (send_line_keeps c (as_bytes (prefix ++ chunk ++ suffix ++ CRLF))) as [Hs Hf]. fold c1 in Hs, Hf.
  destruct (IH c1) as [H1 H2]; [congruence|by rw Hf|]. split; [exact H1|].
  rw H2 fmap_cons. unfold c1. rw send_line_frame; [|by rw -app_assoc].
  rw !as_bytes_app. intros [_ [_ [_ H]%app_eq_nil]%app_eq_nil]%app_eq_nil.
  vm_compute in H. discriminate H.
Qed.

(** [send_trailing_body], unlabeled. *)
Lemma trailing_body_whole c prefix body suffix :
  forallb is_scalar body = true ->
  whole_or_nothing c prefix body suffix False (send_trailing_body c prefix body suffix []).
Proof using Type.
  intros Hs. destruct (split_trailing_param_spec prefix body suffix (features c) Hs) as [Hsome Hnone].
  unfold send_trailing_body, whole_or_nothing. cbv zeta.
  destruct (split_trailing_param prefix body suffix (features c)) as [|chunk chunks] eqn:E; cbn [is_empty negb andb].
  { split; [done|]. naive_solver. }
  destruct Hsome as [Hpieces Hall]; [done|].
  assert (Hok : Forall (sendable (features c) prefix suffix) (chunk :: chunks)).
  { eapply Forall_impl; [exact Hall|]. by intros ? (_ & _ & ?). }
  destruct (decide (state c = StRegistered)) as [Hst|Hst].
  - destruct (send_chunks_all c prefix suffix (chunk :: chunks) Hst Hok) as [-> Heff].
    split_and!; [exact Hst|by intros []|]. exists (chunk :: chunks). split_and!; [done|done| |exact Heff].
    eapply Forall_impl; [exact Hall|]. intros piece (Hne & _ & Hline). split; [done|]. by eapply line_frame_length.
  - cbn [send_chunks]. unfold send_command. rw (bool_decide_eq_false_2 _ Hst). cbn. split; [done|]. by left.
Qed.

(** A sender that checks its target and body first, and notes what it sent. *)
Lemma guarded_whole c prefix body suffix refused outcome (reported : Core -> Core) :
  (forall c, effects (reported c) = effects c) ->
  forall guard : bool, (guard = true <-> refused) ->
  whole_or_nothing c prefix body suffix False outcome ->
  whole_or_nothing c prefix body suffix refused
    (if guard then (c, false) else (if outcome.2 then reported outcome.1 else outcome.1, outcome.2)).
Proof using Type.
  intros Hrep guard Hguard. unfold whole_or_nothing. destruct guard; cbn [fst snd].
  { intros _. split; [done|]. right. left. by apply Hguard. }
  assert (~ refused) by (intros H%Hguard; done).
  destruct outcome as [c' [|]]; cbn [fst snd]; [rw Hrep|]; naive_solver.
Qed.

(** C13: a message is sent whole or not at all: when a PRIVMSG, a NOTICE or an ACTION is reported
    sent, the session is registered, the target is one it can address, and what was queued is
    exactly one frame per piece of the body, in order, each within the server's line length and
    the pieces giving the body back but for one space per cut; when it is reported refused,
    nothing about the session changed, and it was not registered, the target or the body was
    not sendable, or the frame has no room beside the wrapper. *)
Theorem message_whole_or_not_at_all c target body :
  forallb is_scalar body = true ->
  let invalid := is_valid_privmsg_target target = false \/ body = [] in
  whole_or_nothing c (lit "PRIVMSG " ++ target ++ lit " :") body [] invalid (send_privmsg_locked c target body) /\
  whole_or_nothing c (lit "NOTICE " ++ target ++ lit " :") body [] (target = [] \/ body = []) (send_notice c target body) /\
  whole_or_nothing c (lit "PRIVMSG " ++ target ++ lit " :" ++ [1] ++ lit "ACTION ") body [1] invalid (send_action c target body).
Proof using Type.
  intros Hs invalid.
  pose proof (fun prefix suffix => trailing_body_whole c prefix body suffix Hs) as Hwhole.
  assert (Hinvalid : negb (is_valid_privmsg_target target) || is_empty body = true <-> invalid).
  { unfold invalid. destruct (is_valid_privmsg_target target), body; cbn; naive_solver. }
  assert (Hempty : is_empty target || is_empty body = true <-> target = [] \/ body = []).
  { destruct target, body; cbn; naive_solver. }
  split_and!.
  - pose proof (guarded_whole c _ _ _ _ _ (fun c => note_message_sent c target) ltac:(done) _ Hinvalid (Hwhole (lit "PRIVMSG " ++ target ++ lit " :") [])) as H.
    unfold send_privmsg_locked. by destruct (send_trailing_body _ _ _ _ _).
  - pose proof (guarded_whole c _ _ _ _ _ id ltac:(done) _ Hempty (Hwhole (lit "NOTICE " ++ target ++ lit " :") [])) as H.
    unfold send_notice. destruct (send_trailing_body _ _ _ _ _) as [c' [|]]; exact H.
  - pose proof (guarded_whole c _ _ _ _ _ (fun c => note_message_sent c target) ltac:(done) _ Hinvalid
      (Hwhole (lit "PRIVMSG " ++ target ++ lit " :" ++ [1] ++ lit "ACTION ") [1])) as H.
    unfold send_action. by destruct (send_trailing_body _ _ _ _ _).
Qed.
End Messages.

(** A registered session whose server takes twenty-byte lines. *)
Definition narrow_session : Core :=
  (new_core (with_defaults (lit "n") (lit "N") (lit "irc.example") (lit "me")) [])
    <| state := StRegistered |> <| features := new_features <| line_length := 20 |> |>.

Lemma message_whole_or_not_at_all_witness :
  let sent := send_privmsg_locked narrow_session (lit "#c") (lit "hello world") in
  sent.2 = true /\
  whole_or_nothing narrow_session (lit "PRIVMSG #c :") (lit "hello world") []
    (is_valid_privmsg_target (lit "#c") = false \/ lit "hello world" = []) sent.
Proof.
  split; [vm_compute; reflexivity|].
  exact (proj1 (message_whole_or_not_at_all narrow_session (lit "#c") (lit "hello world") ltac:(vm_compute; reflexivity))).
Defined.

Example narrow_message :
  effects (send_privmsg_locked narrow_session (lit "#c") (lit "hello world")).1
  = [piece_frame (lit "PRIVMSG #c :") [] (lit "hello"); piece_frame (lit "PRIVMSG #c :") [] (lit "world")].
Proof. vm_compute. reflexivity. Qed.
