(* ===== verification/Secrets.v ===== *)
(** * Secrets: the redaction of passwords and keys (src/client/src/irc/secretpolicy.rs)

    A wire line that would reveal a credential comes back masked. The file models the rule
    table, the tokenizer, the masks, the near-miss search and the entry points; [secret_policy]
    is the instance of [Platform.SecretPolicy] the session is given. *)

From S2P Require Import Prelude Text SessionTypes Platform Ctcp.

Record MaskedCommand := mkMasked { masked_verb : str; masked_parameters : list str }.

Inductive SecretShape := TailAfterParameters | KeyedModeTail | ServiceRequestBody.
#[export] Instance SecretShape_eq_dec : EqDecision SecretShape.
Proof. solve_decision. Defined.

Record SecretRule := mkRule { rule_verb : str; rule_shape : SecretShape; visible_parameters : nat }.

Definition SECRET_MAP : list SecretRule := [
  mkRule (lit "PASS") TailAfterParameters 0;
  mkRule (lit "AUTHENTICATE") TailAfterParameters 0;
  mkRule (lit "OPER") TailAfterParameters 1;
  mkRule (lit "JOIN") TailAfterParameters 1;
  mkRule (lit "MODE") KeyedModeTail 2;
  mkRule (lit "324") KeyedModeTail 3;
  mkRule (lit "PRIVMSG") ServiceRequestBody 1;
  mkRule (lit "NOTICE") ServiceRequestBody 1].

Definition SERVICE_PASSWORD_COMMANDS : list str :=
  [lit "IDENTIFY"; lit "REGISTER"; lit "GHOST"; lit "RECOVER"; lit "RELEASE"; lit "REGAIN"; lit "SETPASS"].

(** The checks of the source's const assertion, row by row. *)
Fixpoint map_rows_well_formed (earlier : list str) (rules : list SecretRule) : bool :=
  match rules with
  | [] => true
  | rule :: rules =>
      negb (is_empty (rule_verb rule))
      && forallb (fun b => negb (is_ascii_lowercase b)) (as_bytes (rule_verb rule))
      && match rule_shape rule with
         | ServiceRequestBody => (visible_parameters rule =? 1)%nat
         | KeyedModeTail => (2 <=? visible_parameters rule)%nat
         | TailAfterParameters => true
         end
      && forallb (fun verb => negb (str_eqb verb (rule_verb rule))) earlier
      && map_rows_well_formed (earlier ++ [rule_verb rule]) rules
  end.
Definition secret_map_is_well_formed : bool := map_rows_well_formed [] SECRET_MAP.

(** [alnum_only_upper] *)
Definition alnum_only_upper (token : str) : str :=
  to_ascii_uppercase <$> base.filter (fun b => is_ascii_alphanumeric b = true) (as_bytes token).

(** ** Edit distance

    One row of the table from the row above it: [above] is the rest of the previous row, [diagonal]
    the cell before it, [before] the cell just computed. *)
Fixpoint distance_cells (word_byte : byte) (diagonal before : nat) (above : list nat) (target : bytes) : list nat :=
  match target, above with
  | target_byte :: target, up :: above =>
      let cost := if word_byte =? target_byte then 0%nat else 1%nat in
      let cell := Nat.min (Nat.min (before + 1) (up + 1)) (diagonal + cost) in
      cell :: distance_cells word_byte up cell above target
  | _, _ => []
  end.

Definition distance_row (target : bytes) (row : nat) (previous : list nat) (word_byte : byte) : list nat :=
  (row + 1)%nat :: distance_cells word_byte (default 0%nat (head previous)) (row + 1) (tail previous) target.

Fixpoint distance_rows (target : bytes) (row : nat) (previous : list nat) (word : bytes) : list nat :=
  match word with
  | [] => previous
  | word_byte :: word => distance_rows target (row + 1) (distance_row target row previous word_byte) word
  end.

Definition letter_distance (word target : bytes) : nat :=
  match word, target with
  | [], _ => length target
  | _, [] => length word
  | _, _ => default 0%nat (last (distance_rows target 0 (seq 0 (length target + 1)) word))
  end.

Definition secret_rule_for (verb : str) : option SecretRule :=
  head (base.filter (fun rule => rule_verb rule = verb) SECRET_MAP).

(** The loop both near-miss searches share: the best row so far and its distance; a tie forgets
    the row. *)
Definition nearest_step {A} (verb_of : A -> str) (alnum : str) (found : option A * nat) (row : A) : option A * nat :=
  let '(best, best_distance) := found in
  let distance := letter_distance alnum (as_bytes (verb_of row)) in
  if (distance <? best_distance)%nat then (Some row, distance)
  else if (distance =? best_distance)%nat then (None, best_distance) else found.

Definition nearest {A} (verb_of : A -> str) (rows : list A) (alnum : str) : option A :=
  let '(best, best_distance) := foldl (nearest_step verb_of alnum) (None, 2%nat) rows in
  if (best_distance <=? 1)%nat then best else None.

Definition nearest_service_password (word : str) : option str :=
  let alnum := alnum_only_upper word in
  if (length alnum <? 4)%nat then None else nearest id SERVICE_PASSWORD_COMMANDS alnum.

Definition nearest_secret_rule (verb : str) : option SecretRule :=
  let alnum := alnum_only_upper verb in
  if (length alnum <? 3)%nat then None else nearest rule_verb SECRET_MAP alnum.

(** ** Tokens *)

Record WireCommand := mkWire { wire_verb : str; wire_parameters : list str }.

Definition is_field_space (c : char) : bool := (c =? chr " ") || (c =? 9).
Definition skip_field_spaces (text : str) : str := skip_while is_field_space text.
Definition field_break (text : str) : option nat := position is_field_space text.

Definition drop_leading_word (text : str) : option str :=
  let? space := field_break text in
  let rest := skip_field_spaces (drop (space + 1) text) in
  if is_empty rest then None else Some rest.

Definition starts_with_char (mark : char) (text : str) : bool :=
  match text with c :: _ => c =? mark | [] => false end.

(** The parameter loop of [tokenize]; every round takes at least one character. *)
Fixpoint tokenize_parameters (fuel : nat) (rest : str) : list str :=
  match fuel with
  | O => []
  | S fuel =>
      if is_empty rest then []
      else match strip_prefix (lit ":") rest with
           | Some trailing => [trailing]
           | None =>
               match field_break rest with
               | Some end_ => take end_ rest :: tokenize_parameters fuel (skip_field_spaces (drop (end_ + 1) rest))
               | None => [rest]
               end
           end
  end.

Section Policy.
Context `{platform : Platform}.

(** [simple_upper]: a character whose upper case is more than one character stays. *)
Definition simple_upper (text : str) : str :=
  (fun mark => match to_uppercase [mark] with [single] => single | _ => mark end) <$> text.

Definition tokenize (line : str) : option WireCommand :=
  let rest := skip_field_spaces line in
  if is_empty rest then None
  else
    let? rest := (if starts_with_char (chr "@") rest then drop_leading_word rest else Some rest) in
    let? rest := (if starts_with_char (chr ":") rest then drop_leading_word rest else Some rest) in
    let '(verb_text, rest) :=
      match field_break rest with
      | Some end_ => (take end_ rest, skip_field_spaces (drop (end_ + 1) rest))
      | None => (rest, [])
      end in
    let verb := simple_upper verb_text in
    if is_empty verb then None
    else Some (mkWire verb (tokenize_parameters (S (length rest)) rest)).

Definition trailing_separator (trailing : str) : str :=
  if is_empty trailing || starts_with_char (chr ":") trailing || existsb (N.eqb (chr " ")) trailing
  then lit " :" else lit " ".

Definition format_line (command : WireCommand) : str :=
  match last (wire_parameters command) with
  | None => wire_verb command
  | Some trailing =>
      let head := removelast (wire_parameters command) in
      wire_verb command ++ (if is_empty head then [] else lit " " ++ join_with (lit " ") head)
        ++ trailing_separator trailing ++ trailing
  end.

(** ** Masks *)

Definition STARS : str := lit "***".

Definition mask_tail_after_parameters (command : WireCommand) (visible : nat) : option WireCommand :=
  if (length (wire_parameters command) <=? visible)%nat then None
  else Some (mkWire (wire_verb command) (take visible (wire_parameters command) ++ [STARS])).

Definition mode_letter_consumes_parameter (letter : byte) (adding : bool) : bool :=
  (letter =? chr "k") || (letter =? chr "o") || (letter =? chr "v") || (letter =? chr "b")
  || ((letter =? chr "l") && adding).

Definition is_rfc_default_mode_letter (letter : byte) (adding : bool) : bool :=
  mode_letter_consumes_parameter letter adding
  || (letter =? chr "i") || (letter =? chr "m") || (letter =? chr "n") || (letter =? chr "p")
  || (letter =? chr "s") || (letter =? chr "t").

(** The first loop: the direction, whether a key is named, whether a letter is unknown. *)
Definition scan_mode (st : bool * bool * bool) (letter : byte) : bool * bool * bool :=
  let '(adding, has_key, ambiguous) := st in
  if letter =? chr "+" then (true, has_key, ambiguous)
  else if letter =? chr "-" then (false, has_key, ambiguous)
  else if letter =? chr "k" then (adding, true, ambiguous)
  else if negb (is_rfc_default_mode_letter letter adding) then (adding, has_key, true)
  else st.

(** The second loop: each letter that takes a parameter steps [argument], a key masks it. *)
Fixpoint mask_keys (modes : bytes) (adding : bool) (argument : nat) (parameters : list str) (masked : bool)
    : list str * bool :=
  match modes with
  | [] => (parameters, masked)
  | letter :: modes =>
      if letter =? chr "+" then mask_keys modes true argument parameters masked
      else if letter =? chr "-" then mask_keys modes false argument parameters masked
      else if negb (mode_letter_consumes_parameter letter adding) then mask_keys modes adding argument parameters masked
      else if (length parameters <=? argument)%nat then (parameters, masked)
      else if letter =? chr "k"
      then mask_keys modes adding (argument + 1) (<[argument := STARS]> parameters) true
      else mask_keys modes adding (argument + 1) parameters masked
  end.

Definition mask_keyed_mode_tail (command : WireCommand) (visible : nat) : option WireCommand :=
  if (visible <? 2)%nat || (length (wire_parameters command) <=? visible)%nat then None
  else
    let modes := as_bytes (default [] (wire_parameters command !! (visible - 1)%nat)) in
    let '(_, has_key, ambiguous) := foldl scan_mode (true, false, false) modes in
    if negb has_key then None
    else if ambiguous then mask_tail_after_parameters command visible
    else
      let '(parameters, masked) := mask_keys modes true visible (wire_parameters command) false in
      if negb masked then None else Some (mkWire (wire_verb command) parameters).

Definition has_private_recipient (targets channel_types : str) : bool :=
  existsb (fun piece => negb (looks_like_channel piece channel_types)) (split_on (N.eqb (chr ",")) targets).

Definition service_body_tokens (body : str) : list str :=
  let normalized := trim body in
  let normalized := default normalized (strip_prefix [1] normalized) in
  let normalized := default normalized (strip_suffix [1] normalized) in
  let normalized := trim normalized in
  base.filter (fun token => is_empty token = false) (split_on is_field_space normalized).

Definition matched_service_command (tokens : list str) : option str :=
  match tokens with
  | first :: second :: more =>
      let first := simple_upper first in
      match head (base.filter (fun command => command = first) SERVICE_PASSWORD_COMMANDS) with
      | Some command => Some command
      | None =>
          match nearest_service_password first with
          | Some near => Some near
          | None =>
              if negb (is_empty more) && str_eqb first (lit "SET") then
                let second := alnum_only_upper second in
                if str_eqb second (lit "PASSWORD") || (letter_distance second (as_bytes (lit "PASSWORD")) =? 1)%nat
                then Some (lit "SET PASSWORD") else None
              else None
          end
      end
  | _ => None
  end.

Definition mask_service_request_body (command : WireCommand) (channel_types : str) : option WireCommand :=
  match wire_parameters command with
  | target :: first :: more =>
      if negb (has_private_recipient target channel_types) then None
      else
        let? word := matched_service_command (service_body_tokens (join_with (lit " ") (first :: more))) in
        Some (mkWire (wire_verb command) [target; word ++ lit " ***"])
  | _ => None
  end.

Definition secret_mask (command : WireCommand) (channel_types : str) : option WireCommand :=
  let? rule := secret_rule_for (wire_verb command) in
  match rule_shape rule with
  | TailAfterParameters => mask_tail_after_parameters command (visible_parameters rule)
  | KeyedModeTail => mask_keyed_mode_tail command (visible_parameters rule)
  | ServiceRequestBody => mask_service_request_body command channel_types
  end.

Definition near_miss_mask (parsed : WireCommand) (channel_types : str) : option str :=
  if is_empty (wire_parameters parsed) then None
  else
    let? rule := nearest_secret_rule (wire_verb parsed) in
    format_line <$> secret_mask (mkWire (rule_verb rule) (wire_parameters parsed)) channel_types.

Definition conservative_step (alnum : str) (found : option SecretRule * N) (rule : SecretRule) : option SecretRule * N :=
  if (3 <=? str_len (rule_verb rule)) && bool_decide (is_Some (strip_prefix (rule_verb rule) alnum))
     && (found.2 <? str_len (rule_verb rule))
  then (Some rule, str_len (rule_verb rule)) else found.

Definition conservative_preview_mask (line : str) : option str :=
  let alnum := alnum_only_upper line in
  let '(best, best_length) := foldl (conservative_step alnum) (None, 0) SECRET_MAP in
  let? rule := best in
  if best_length <? blen alnum then Some (rule_verb rule ++ lit " ***") else None.

Definition preview_mask_at (fragment channel_types : str) : option str :=
  let conservative := conservative_preview_mask fragment in
  match tokenize fragment with
  | None => conservative
  | Some parsed =>
      match secret_mask parsed channel_types with
      | Some masked => Some (format_line masked)
      | None => match near_miss_mask parsed channel_types with Some near => Some near | None => conservative end
      end
  end.

(** The loop of [later_command_preview_mask]; every round drops a word. *)
Fixpoint later_loop (fuel : nat) (rest channel_types : str) : option str :=
  match fuel with
  | O => None
  | S fuel =>
      let? break_at := field_break rest in
      let rest := skip_field_spaces (drop (break_at + 1) rest) in
      if is_empty rest then None
      else match preview_mask_at rest channel_types with
           | Some safe => Some safe
           | None => later_loop fuel rest channel_types
           end
  end.

Definition later_command_preview_mask (line channel_types : str) : option str :=
  later_loop (S (length line)) (skip_field_spaces line) channel_types.

(** ** The entry points *)

Definition redact_wire_line (line channel_types : str) : option str :=
  let? parsed := tokenize line in
  let? masked := secret_mask parsed channel_types in
  Some (format_line masked).

Definition redact_preview (line channel_types : str) : option str :=
  match redact_wire_line line channel_types with
  | Some safe => Some safe
  | None =>
      match (let? parsed := tokenize line in near_miss_mask parsed channel_types) with
      | Some near => Some near
      | None =>
          match later_command_preview_mask line channel_types with
          | Some later => Some later
          | None => conservative_preview_mask line
          end
      end
  end.

Definition redact_message (command : str) (parameters : list str) (channel_types : str) : option MaskedCommand :=
  let verb := simple_upper command in
  let? rule := secret_rule_for verb in
  let refused :=
    match rule_shape rule with
    | ServiceRequestBody =>
        (length parameters <? 2)%nat || negb (has_private_recipient (default [] (head parameters)) channel_types)
    | _ => str_eqb verb (lit "JOIN") || (length parameters <=? visible_parameters rule)%nat
    end in
  if refused then None
  else
    let? masked := secret_mask (mkWire verb parameters) channel_types in
    Some (mkMasked (wire_verb masked) (wire_parameters masked)).

Definition transcript_allowed (text channel_types : str) : bool :=
  if is_empty text then true
  else if bool_decide (is_Some (redact_wire_line text channel_types)) then false
  else bool_decide (redact_message (lit "PRIVMSG") [lit "NickServ"; text] channel_types = None).

Definition secret_policy : SecretPolicy := {|
  redact_preview_line := redact_preview;
  allows_transcript := transcript_allowed;
|}.
End Policy.

(** ** the redaction hides what it should

    [letter_distance] is the least number of edits; the rule verbs are far enough apart that a
    near miss has one reading; and a masked line says nothing of the secret it masks. *)

(** ** Edit scripts *)

Inductive edits : bytes -> bytes -> nat -> Prop :=
| edits_nil : edits [] [] 0
| edits_keep b x y n : edits x y n -> edits (b :: x) (b :: y) n
| edits_change b c x y n : edits x y n -> edits (b :: x) (c :: y) (S n)
| edits_drop b x y n : edits x y n -> edits (b :: x) y (S n)
| edits_add c x y n : edits x y n -> edits x (c :: y) (S n).
#[local] Hint Constructors edits : core.

Lemma edits_app x y n x' y' m : edits x y n -> edits x' y' m -> edits (x ++ x') (y ++ y') (n + m).
Proof. induction 1; cbn; auto. Qed.

Lemma edits_rev x y n : edits x y n -> edits (rev x) (rev y) n.
Proof.
  induction 1 as [|b x y n _ IH|b c x y n _ IH|b x y n _ IH|c x y n _ IH]; cbn; [done|..].
  - rw -(Nat.add_0_r n). apply edits_app; auto.
  - rw -Nat.add_1_r. apply edits_app; auto.
  - rw -Nat.add_1_r -{1}(app_nil_r (rev y)). apply edits_app; auto.
  - rw -Nat.add_1_r -{1}(app_nil_r (rev x)). apply edits_app; auto.
Qed.

Lemma edits_sym x y n : edits x y n -> edits y x n.
Proof. induction 1; auto. Qed.

(** Extends a composed script by the edit at hand, when it costs one and when it is free. *)
Ltac compose IH H :=
  let k := fresh "k" in
  destruct (IH _ _ H) as (k & ? & ?);
  ((exists k; split; [lia|by auto]) || (exists (S k); split; [lia|by auto])).

Lemma edits_trans x y z n m : edits x y n -> edits y z m -> exists k, (k <= n + m)%nat /\ edits x z k.
Proof.
  intros H. revert z m. induction H as [|b x y n H IH|b c x y n H IH|b x y n H IH|c x y n H IH]; intros z m Hz;
    try solve [exists m; auto | compose IH Hz].
  all: match type of Hz with edits ?w _ _ => remember w as w0 eqn:Ew end.
  all: induction Hz as [|b' w z m Hz _|b' c' w z m Hz _|b' w z m Hz _|c' w z m Hz IHz]; simplify_eq;
    try solve [compose IH Hz].
  all: destruct (IHz eq_refl) as (k & Hk & He); exists (S k); split; [lia|auto].
Qed.

(** ** The distance by recursion, and the table that computes it *)

Definition cost (b c : byte) : nat := if b =? c then 0%nat else 1%nat.

Fixpoint lev (x y : bytes) : nat :=
  match x with
  | [] => length y
  | b :: x' =>
      (fix against y :=
         match y with
         | [] => length x
         | c :: y' => Nat.min (Nat.min (against y' + 1) (lev x' y + 1)) (lev x' y' + cost b c)
         end) y
  end.

Lemma lev_nil x : lev x [] = length x.
Proof. by destruct x. Qed.

Lemma lev_cons b x c y :
  lev (b :: x) (c :: y) = Nat.min (Nat.min (lev (b :: x) y + 1) (lev x (c :: y) + 1)) (lev x y + cost b c).
Proof. done. Qed.

Lemma lev_edits x y : edits x y (lev x y).
Proof.
  revert y. induction x as [|b x IHx]; intros y.
  - cbn. induction y; cbn; auto.
  - induction y as [|c y IHy].
    + rw lev_nil. specialize (IHx []). rw lev_nil in IHx. cbn. auto.
    + rw lev_cons. destruct (Nat.min_spec (Nat.min (lev (b :: x) y + 1) (lev x (c :: y) + 1)) (lev x y + cost b c)) as [[_ ->]|[_ ->]].
      * destruct (Nat.min_spec (lev (b :: x) y + 1) (lev x (c :: y) + 1)) as [[_ ->]|[_ ->]]; rw Nat.add_1_r; auto.
      * unfold cost. destruct (N.eqb_spec b c) as [->|_]; [rw Nat.add_0_r|rw Nat.add_1_r]; auto.
Qed.

Lemma edits_lev x y n : edits x y n -> (lev x y <= n)%nat.
Proof.
  induction 1 as [|b x y n _ IH|b c x y n _ IH|b x y n _ IH|c x y n _ IH]; [done|..].
  - rw lev_cons. unfold cost. rw N.eqb_refl. lia.
  - rw lev_cons. unfold cost. case_match; lia.
  - destruct y as [|c y]; [rw !lev_nil in IH |- *; cbn; lia|]. rw lev_cons. lia.
  - destruct x as [|b x]; [cbn in *; lia|]. rw lev_cons. lia.
Qed.

(** The row of the table for a reversed prefix [acc] of the word, from the reversed prefix
    [done_] of the target on. *)
Fixpoint cells (acc done_ target : bytes) : list nat :=
  lev acc done_ :: match target with [] => [] | c :: target => cells acc (c :: done_) target end.

Lemma distance_cells_spec b acc done_ target :
  distance_cells b (lev acc done_) (lev (b :: acc) done_) (tail (cells acc done_ target)) target
  = tail (cells (b :: acc) done_ target).
Proof.
  revert done_. induction target as [|c target IH]; intros done_; [done|].
  cbn [cells tail]. specialize (IH (c :: done_)).
  destruct target as [|c' target]; cbn [cells tail distance_cells] in *; by rw lev_cons ?IH.
Qed.

Lemma distance_rows_spec target acc word :
  distance_rows target (length acc) (cells acc [] target) word = cells (rev word ++ acc) [] target.
Proof.
  revert acc. induction word as [|b word IH]; intros acc; [done|]. cbn [distance_rows].
  assert (Hrow : distance_row target (length acc) (cells acc [] target) b = cells (b :: acc) [] target).
  { unfold distance_row. rw Nat.add_1_r.
    replace (default 0%nat (head (cells acc [] target))) with (lev acc []) by by destruct target.
    replace (S (length acc)) with (lev (b :: acc) []) by done. rw distance_cells_spec. by destruct target. }
  rw Hrow Nat.add_1_r. change (S (length acc)) with (length (b :: acc)). rw IH. cbn. by rw -app_assoc.
Qed.

Lemma cells_nil done_ target : cells [] done_ target = seq (length done_) (length target + 1).
Proof. revert done_. induction target as [|c target IH]; intros done_; cbn; [done|]. by rw IH. Qed.

Lemma cells_last acc done_ target : last (cells acc done_ target) = Some (lev acc (rev target ++ done_)).
Proof.
  revert done_. induction target as [|c target IH]; intros done_; [done|]. cbn [rev]. rw -app_assoc. cbn [app].
  rw -(IH (c :: done_)). by destruct target.
Qed.

Lemma letter_distance_lev word target : letter_distance word target = lev (rev word) (rev target).
Proof.
  unfold letter_distance. destruct word as [|b word]; [by cbn; rw length_rev|].
  destruct target as [|c target]; [by rw lev_nil length_rev|].
  pose proof (distance_rows_spec (c :: target) [] (b :: word)) as H. rw app_nil_r in H.
  rw -(cells_nil [] (c :: target)). cbn [length] in H. rw H cells_last app_nil_r. done.
Qed.

Lemma letter_distance_edits word target :
  edits word target (letter_distance word target) /\
  forall n, edits word target n -> (letter_distance word target <= n)%nat.
Proof.
  rw letter_distance_lev. split.
  - rw -{1}(rev_involutive word) -{1}(rev_involutive target). apply edits_rev, lev_edits.
  - intros n H. by apply edits_lev, edits_rev.
Qed.

(** the distance the near-miss search computes row by row is the true edit distance: some
    sequence of that many insertions, deletions and replacements turns the word into the
    target, and no shorter one does. *)
Theorem letter_distance_least word target :
  edits word target (letter_distance word target) /\
  forall n, edits word target n -> (letter_distance word target <= n)%nat.
Proof. apply letter_distance_edits. Qed.

(** ** Near misses have one reading *)

Lemma distance_triangle x y z n :
  edits x y n -> (letter_distance y z <= n + letter_distance x z)%nat.
Proof.
  intros H. destruct (letter_distance_edits x z) as [Hxz _].
  destruct (edits_trans _ _ _ _ _ (edits_sym _ _ _ H) Hxz) as (k & Hk & He).
  apply (proj2 (letter_distance_edits y z)) in He. lia.
Qed.

Section Nearest.
Context {A : Type} (verb_of : A -> str) (alnum : str).

Lemma nearest_far l best distance :
  (distance <= 2)%nat -> (distance = 2%nat -> best = None) ->
  Forall (fun other => (2 <= letter_distance alnum (as_bytes (verb_of other)))%nat) l ->
  foldl (nearest_step verb_of alnum) (best, distance) l = (best, distance).
Proof.
  intros Hd Hb. induction 1 as [|other l Hfar _ IH]; [done|]. cbn [foldl nearest_step].
  destruct (Nat.ltb_spec (letter_distance alnum (as_bytes (verb_of other))) distance); [lia|].
  destruct (Nat.eqb_spec (letter_distance alnum (as_bytes (verb_of other))) distance) as [E|]; [|done].
  rw Hb; [lia|]. rw Hb in IH; [lia|done].
Qed.

Lemma nearest_unique before row after :
  (letter_distance alnum (as_bytes (verb_of row)) <= 1)%nat ->
  Forall (fun other => (2 <= letter_distance alnum (as_bytes (verb_of other)))%nat) (before ++ after) ->
  nearest verb_of (before ++ row :: after) alnum = Some row.
Proof.
  intros Hrow [Hb Ha]%Forall_app. unfold nearest. rw foldl_app (nearest_far _ _ _ (le_n 2)) //. cbn [foldl].
  unfold nearest_step at 2. destruct (Nat.ltb_spec (letter_distance alnum (as_bytes (verb_of row))) 2); [|lia].
  rw nearest_far; [lia|lia|done|]. destruct (Nat.leb_spec (letter_distance alnum (as_bytes (verb_of row))) 1); [done|lia].
Qed.

(** Rows at distance three from each other leave room for one edit. *)
Definition rows_apart (rows : list A) : bool :=
  forallb (fun i => match rows !! i with
    | Some row => forallb (fun other => 3 <=? letter_distance (as_bytes (verb_of row)) (as_bytes (verb_of other)))%nat
        (delete i rows)
    | None => true end) (seq 0 (length rows)).

Lemma nearest_apart rows row n :
  rows_apart rows = true -> row ∈ rows -> edits alnum (as_bytes (verb_of row)) n -> (n <= 1)%nat ->
  nearest verb_of rows alnum = Some row.
Proof.
  intros Hapart [i Hi]%list_elem_of_lookup He Hn. rw -(take_drop_middle rows i row Hi).
  apply nearest_unique; [by pose proof (proj2 (letter_distance_edits _ _) _ He); lia|].
  rw -delete_take_drop. apply Forall_forall. intros other Hother.
  assert (Hin : i ∈ seq 0 (length rows)) by (apply elem_of_seq; apply lookup_lt_Some in Hi; lia).
  pose proof (proj1 (List.forallb_forall _ _) Hapart i (proj1 (list_elem_of_In _ _) Hin)) as H. cbv beta in H. rw Hi in H.
  pose proof (proj1 (List.forallb_forall _ _) H other (proj1 (list_elem_of_In _ _) Hother)) as H'.
  cbv beta in H'. apply Nat.leb_le in H'. pose proof (distance_triangle _ _ (as_bytes (verb_of other)) _ (edits_sym _ _ _ He)) as Ht.
  pose proof (distance_triangle _ _ (as_bytes (verb_of other)) _ He). lia.
Qed.
End Nearest.

Lemma secret_map_apart : rows_apart rule_verb SECRET_MAP = true.
Proof. by vm_compute. Qed.

Lemma service_passwords_apart : rows_apart id SERVICE_PASSWORD_COMMANDS = true.
Proof. by vm_compute. Qed.

Lemma secret_rule_for_spec verb rule : secret_rule_for verb = Some rule <-> rule ∈ SECRET_MAP /\ rule_verb rule = verb.
Proof.
  split.
  - intros H. unfold secret_rule_for in H. destruct (base.filter _ _) as [|r l] eqn:E; [done|]. injection H as ->.
    assert (Hin : rule ∈ base.filter (fun rule => rule_verb rule = verb) SECRET_MAP) by (rw E; by left).
    apply list_elem_of_filter in Hin. tauto.
  - intros [Hin <-]. revert rule Hin. apply Forall_forall. by repeat constructor.
Qed.

(** A verb of the table is its own reading. *)
Lemma verb_alnum rule : rule ∈ SECRET_MAP -> alnum_only_upper (rule_verb rule) = as_bytes (rule_verb rule).
Proof. revert rule. apply Forall_forall. by repeat constructor. Qed.

Lemma edits_refl x : edits x x 0.
Proof. induction x; auto. Qed.

Section Masks.
Context `{platform : Platform}.

Lemma secret_mask_parameters command types masked :
  secret_mask command types = Some masked -> wire_parameters command <> [].
Proof.
  intros H E. unfold secret_mask, mask_tail_after_parameters, mask_keyed_mode_tail, mask_service_request_body in H.
  rw E in H. destruct (secret_rule_for _) as [rule|]; [|done]. destruct (rule_shape rule); [done| |done].
  destruct ((visible_parameters rule <? 2)%nat || _); done.
Qed.

(** The parameters the key letters of a mode string take. *)
Fixpoint key_arguments (modes : bytes) (adding : bool) (argument : nat) : list nat :=
  match modes with
  | [] => []
  | letter :: modes =>
      if letter =? chr "+" then key_arguments modes true argument
      else if letter =? chr "-" then key_arguments modes false argument
      else if negb (mode_letter_consumes_parameter letter adding) then key_arguments modes adding argument
      else if letter =? chr "k" then argument :: key_arguments modes adding (argument + 1)
      else key_arguments modes adding (argument + 1)
  end.

(** Two commands that differ only in what a rule calls secret, and do hold a secret. *)
Inductive same_public (types : str) : WireCommand -> WireCommand -> Prop :=
| PublicTail verb public secret secret' :
    secret_rule_for verb = Some (mkRule verb TailAfterParameters (length public)) ->
    secret <> [] -> secret' <> [] ->
    same_public types (mkWire verb (public ++ secret)) (mkWire verb (public ++ secret'))
| PublicKey verb visible modes parameters parameters' key adding :
    secret_rule_for verb = Some (mkRule verb KeyedModeTail visible) ->
    parameters !! (visible - 1)%nat = Some modes -> parameters' !! (visible - 1)%nat = Some modes ->
    foldl scan_mode (true, false, false) (as_bytes modes) = (adding, true, false) ->
    key ∈ key_arguments (as_bytes modes) true visible -> (key < length parameters)%nat ->
    length parameters' = length parameters ->
    (forall i, i ∉ key_arguments (as_bytes modes) true visible -> parameters !! i = parameters' !! i) ->
    same_public types (mkWire verb parameters) (mkWire verb parameters')
| PublicUnknownKey verb modes public secret secret' adding :
    secret_rule_for verb = Some (mkRule verb KeyedModeTail (length (public ++ [modes]))) -> public <> [] ->
    foldl scan_mode (true, false, false) (as_bytes modes) = (adding, true, true) ->
    secret <> [] -> secret' <> [] ->
    same_public types (mkWire verb (public ++ [modes] ++ secret)) (mkWire verb (public ++ [modes] ++ secret'))
| PublicBody verb target body body' word :
    secret_rule_for verb = Some (mkRule verb ServiceRequestBody 1) ->
    has_private_recipient target types = true ->
    matched_service_command (service_body_tokens (join_with (lit " ") body)) = Some word ->
    matched_service_command (service_body_tokens (join_with (lit " ") body')) = Some word ->
    same_public types (mkWire verb (target :: body)) (mkWire verb (target :: body')).

Lemma key_arguments_ge modes adding argument i : i ∈ key_arguments modes adding argument -> (argument <= i)%nat.
Proof.
  revert adding argument. induction modes as [|letter modes IH]; intros adding argument; cbn.
  - by intros ?%elem_of_nil.
  - repeat case_match; intros Hin; try (by apply IH in Hin); try (apply IH in Hin; lia).
    apply elem_of_cons in Hin as [->|Hin]; [done|]. apply IH in Hin. lia.
Qed.

(** Parameters that agree everywhere but at the keys still to come are masked alike, and a key
    within reach is masked. *)
Lemma mask_keys_public modes adding argument ps ps' masked :
  length ps' = length ps ->
  (forall i, i ∉ key_arguments modes adding argument -> ps !! i = ps' !! i) ->
  mask_keys modes adding argument ps masked = mask_keys modes adding argument ps' masked /\
  (masked = true \/ (exists i, i ∈ key_arguments modes adding argument /\ (i < length ps)%nat) ->
   (mask_keys modes adding argument ps masked).2 = true).
Proof.
  revert adding argument ps ps' masked. induction modes as [|letter modes IH]; intros adding argument ps ps' masked Hl Ha.
  { split; [|intros [->|(i & ?%elem_of_nil & _)]; done]. f_equal. apply list_eq. intros i. apply Ha. by intros ?%elem_of_nil. }
  cbn [mask_keys key_arguments] in *. rw Hl.
  destruct (letter =? chr "+"); [by apply IH|]. destruct (letter =? chr "-"); [by apply IH|].
  destruct (negb _); [by apply IH|].
  destruct (Nat.leb_spec (length ps) argument) as [Hle|Hlt].
  - assert (Hsame : ps = ps').
    { apply list_eq. intros i. destruct (decide (i < length ps)%nat) as [Hi|Hi].
      - apply Ha. intros Hin. enough (argument <= i)%nat by lia. destruct (letter =? chr "k").
        + apply elem_of_cons in Hin as [->|Hin]; [done|]. apply key_arguments_ge in Hin. lia.
        + apply key_arguments_ge in Hin. lia.
      - rw !lookup_ge_None_2 //; lia. }
    split; [by subst|]. intros [->|(i & Hin & Hi)]; [done|]. exfalso. destruct (letter =? chr "k").
    + apply elem_of_cons in Hin as [->|Hin]; [lia|]. apply key_arguments_ge in Hin. lia.
    + apply key_arguments_ge in Hin. lia.
  - destruct (letter =? chr "k").
    + destruct (IH adding (argument + 1)%nat (<[argument := STARS]> ps) (<[argument := STARS]> ps') true) as [H1 H2].
      * by rw !length_insert.
      * intros i Hi. destruct (decide (i = argument)) as [->|Hne].
        { rw !list_lookup_insert_eq //; lia. }
        rw !list_lookup_insert_ne //. apply Ha. rw not_elem_of_cons. done.
      * split; [exact H1|]. intros _. apply H2. by left.
    + by apply IH.
Qed.

Lemma same_public_mask types command command' :
  same_public types command command' ->
  exists masked, secret_mask command types = Some masked /\ secret_mask command' types = Some masked.
Proof.
  unfold secret_mask. destruct 1 as [verb public secret secret' Hr Hs Hs'
    |verb visible modes ps ps' key adding Hr Hm Hm' Hscan Hkey Hlt Hlen Ha
    |verb modes public secret secret' adding Hr Hpub Hscan Hs Hs'|verb target body body' word Hr Hp Hw Hw'];
    cbn [wire_verb]; rw Hr; cbn [rule_shape visible_parameters].
  - unfold mask_tail_after_parameters. cbn [wire_parameters wire_verb]. rw !length_app !take_app_length.
    destruct secret, secret'; try done. cbn [length].
    rw !(proj2 (Nat.leb_gt _ _)); [lia|lia|]. by eexists.
  - unfold mask_keyed_mode_tail. cbn [wire_parameters wire_verb].
    pose proof (key_arguments_ge _ _ _ _ Hkey) as Hge. rw Hlen Hm Hm'. change (default [] (Some modes)) with modes. rw Hscan. cbn [negb].
    assert (Hv : (visible <? 2)%nat = false).
    { apply secret_rule_for_spec in Hr as [Hin _]. apply Nat.ltb_ge.
      enough (H : Forall (fun r => rule_shape r = KeyedModeTail -> (2 <= visible_parameters r)%nat) SECRET_MAP)
        by by apply (proj1 (Forall_forall _ _) H _ Hin).
      repeat constructor; cbn; done || (intros; lia). }
    rw Hv (proj2 (Nat.leb_gt _ _)); [lia|]. cbn [orb].
    destruct (mask_keys_public (as_bytes modes) true visible ps ps' false Hlen Ha) as [<- Hmasked].
    specialize (Hmasked (or_intror (ex_intro _ key (conj Hkey Hlt)))).
    destruct (mask_keys _ _ _ _ _) as [out masked]. cbn in Hmasked. subst masked. by eexists.
  - assert (Hmode : forall rest, (public ++ [modes] ++ rest) !! (length (public ++ [modes]) - 1)%nat = Some modes).
    { intros rest. apply list_lookup_middle. rw length_app. cbn [length]. lia. }
    unfold mask_keyed_mode_tail, mask_tail_after_parameters. cbn [wire_parameters wire_verb]. rw !Hmode. change (default [] (Some modes)) with modes.
    rw Hscan. cbn [negb]. rw (app_assoc public [modes] secret) (app_assoc public [modes] secret') !take_app_length !length_app. destruct secret, secret', public; try done.
    cbn [length]. eexists. split; (rw (proj2 (Nat.ltb_ge _ _)); [lia|]); (rw (proj2 (Nat.leb_gt _ _)); [cbn; lia|]); reflexivity.
  - unfold mask_service_request_body. cbn [wire_parameters wire_verb].
    destruct body as [|first more]; [done|]. destruct body' as [|first' more']; [done|].
    rw Hp Hw Hw'. cbn [negb]. by eexists.
Qed.

(** Masking hides the secret: two wire lines that differ only in a password, an operator's
    password, a channel key or the rest of a service command, whatever their length, are both
    masked, and to the very same text. *)
Theorem redaction_hides_secret types line line' command command' :
  tokenize line = Some command -> tokenize line' = Some command' -> same_public types command command' ->
  exists shown, redact_wire_line line types = Some shown /\ redact_wire_line line' types = Some shown.
Proof.
  intros H H' Hsame. destruct (same_public_mask _ _ _ Hsame) as (masked & Hm & Hm').
  exists (format_line masked). unfold redact_wire_line. by rw H H' Hm Hm'.
Qed.

(** a line whose verb is one typing slip away from a secret verb is shown as that verb's line
    would be, with its secret masked: no verb has two readings, and none is let through. *)
Theorem near_miss_masked line types parsed rule n masked :
  tokenize line = Some parsed -> rule ∈ SECRET_MAP ->
  (3 <= length (alnum_only_upper (wire_verb parsed)))%nat ->
  edits (alnum_only_upper (wire_verb parsed)) (as_bytes (rule_verb rule)) n -> (n <= 1)%nat ->
  secret_mask (mkWire (rule_verb rule) (wire_parameters parsed)) types = Some masked ->
  redact_preview line types = Some (format_line masked).
Proof.
  intros Htok Hrule Hlen He Hn Hmask. unfold redact_preview, redact_wire_line. rw Htok.
  pose proof (nearest_apart rule_verb _ _ _ _ secret_map_apart Hrule He Hn) as Hnear.
  pose proof (secret_mask_parameters _ _ _ Hmask) as Hparams. cbn [wire_parameters] in Hparams.
  destruct (secret_mask parsed types) as [masked'|] eqn:Hown.
  - assert (Hverb : rule_verb rule = wire_verb parsed).
    { pose proof Hown as Hown'. unfold secret_mask in Hown'.
      destruct (secret_rule_for (wire_verb parsed)) as [rule'|] eqn:Hr; [|done].
      apply secret_rule_for_spec in Hr as [Hin Hv]. rw -Hv in Hnear. rw verb_alnum // in Hnear.
      rw (nearest_apart rule_verb _ _ _ _ secret_map_apart Hin (edits_refl _)) in Hnear; [lia|]. congruence. }
    destruct parsed as [verb parameters]. cbn in *. subst. congruence.
  - unfold near_miss_mask. destruct (wire_parameters parsed) as [|param params] eqn:Hp; [done|]. cbn [is_empty].
    unfold nearest_secret_rule. destruct (Nat.ltb_spec (length (alnum_only_upper (wire_verb parsed))) 3); [lia|].
    rw Hnear Hmask. done.
Qed.
End Masks.

Example letter_distance_example : letter_distance (lit "IDENTIF") (lit "IDENTIFY") = 1%nat.
Proof. by vm_compute. Qed.

Lemma near_miss_masked_witness :
  tokenize (platform := toy_platform) (lit "PSS hunter2") = Some (mkWire (lit "PSS") [lit "hunter2"]) /\
  redact_preview (platform := toy_platform) (lit "PSS hunter2") [] = Some (lit "PASS ***").
Proof.
  split; [vm_compute; reflexivity|].
  apply (@near_miss_masked toy_platform (lit "PSS hunter2") [] (mkWire (lit "PSS") [lit "hunter2"])
    (mkRule (lit "PASS") TailAfterParameters 0) 1 (mkWire (lit "PASS") [lit "***"])).
  - vm_compute. reflexivity.
  - by left.
  - vm_compute. lia.
  - change (edits (lit "PSS") (lit "PASS") 1). by repeat constructor.
  - done.
  - vm_compute. reflexivity.
Defined.

Lemma redaction_hides_secret_witness :
  let line := lit "OPER admin s3cret" in
  let line' := lit "OPER admin another much longer one" in
  @same_public toy_platform [] (mkWire (lit "OPER") ([lit "admin"] ++ [lit "s3cret"]))
    (mkWire (lit "OPER") ([lit "admin"] ++ [lit "another"; lit "much"; lit "longer"; lit "one"])) /\
  exists shown, @redact_wire_line toy_platform line [] = Some shown /\ @redact_wire_line toy_platform line' [] = Some shown.
Proof.
  intros line line'.
  assert (H : @same_public toy_platform [] (mkWire (lit "OPER") ([lit "admin"] ++ [lit "s3cret"]))
    (mkWire (lit "OPER") ([lit "admin"] ++ [lit "another"; lit "much"; lit "longer"; lit "one"])))
    by (apply PublicTail; done).
  split; [exact H|].
  apply (@redaction_hides_secret toy_platform [] line line' _ _ eq_refl eq_refl H).
Defined.
