(* ===== verification/Presence.v ===== *)
(** * Presence: what is known about the nicks of a network (the second half of
    src/client/src/irc/presence.rs)

    Away state, metadata, the services account, the real name and the operator flag of each
    nick. [NetworkPresence] keeps an entry only for a nick with a fact worth keeping; the last
    theorem shows that, read through [lookup_presence], it is the total function from nicks to
    facts that the operations describe. *)

From S2P Require Import Prelude Text SessionTypes Platform Metadata.

Record Away := mkAway { away_reason : str }.
#[export] Instance Away_eq_dec : EqDecision Away.
Proof. solve_decision. Defined.

Record NickPresence := mkPresence {
  away : option Away;
  keys : gmap str str;
  account : str;
  account_known : bool;
  realname : str;
  server_operator : bool;
}.
#[export] Instance presence_eta : Eta NickPresence := fun p =>
  mkPresence (away p) (keys p) (account p) (account_known p) (realname p) (server_operator p).
#[export] Instance NickPresence_eq_dec : EqDecision NickPresence.
Proof. solve_decision. Defined.

Definition default_presence : NickPresence := mkPresence None ∅ [] false [] false.

(** [NickPresence::metadata] *)
Definition presence_metadata (p : NickPresence) (key : str) : str :=
  match canonical_key key with
  | Some stored => default [] (keys p !! stored)
  | None => []
  end.

(** [NickPresence::is_bot] *)
Definition is_bot (p : NickPresence) : bool :=
  let raw := presence_metadata p BOT_KEY in
  if is_empty raw then false
  else negb (existsb (eq_ignore_ascii_case (trim raw)) [lit "0"; lit "false"; lit "no"]).

(** [NickPresence::status], [NickPresence::avatar] *)
Definition presence_status (p : NickPresence) : str := presence_metadata p STATUS_KEY.
Definition presence_avatar (p : NickPresence) : str := presence_metadata p AVATAR_KEY.

(** [NickPresence::is_default] *)
Definition is_default (p : NickPresence) : bool :=
  bool_decide (away p = None) && bool_decide (keys p = ∅) && is_empty (account p)
  && negb (account_known p) && is_empty (realname p) && negb (server_operator p).

Definition PLACEHOLDERS : list str := [lit "realname"; lit "unknown"; lit "fullname"].

Section Names.
Context `{platform : Platform}.

Definition meaningful_realname (realname nick : str) : bool :=
  if is_empty realname || str_eqb realname nick then false
  else negb (existsb (str_eqb (to_lowercase realname)) PLACEHOLDERS).

Definition displayed_realname (realname nick : str) : str :=
  let trimmed := trim realname in
  if is_empty trimmed || eq_ignore_ascii_case trimmed nick then []
  else if existsb (str_eqb (to_lowercase trimmed)) PLACEHOLDERS then [] else trimmed.
End Names.

(** [presence::peer_fact_labels] *)
Definition fact_labels (facts : NickPresence) (account_matches_nick : bool) : list str :=
  (if negb (is_empty (account facts)) && negb account_matches_nick then [account facts]
   else if account_known facts && is_empty (account facts) then [lit "unauthenticated"] else [])
  ++ (if server_operator facts then [lit "server operator"] else [])
  ++ (if is_bot facts then [lit "bot"] else []).

(** ** The store of a network *)

Abbreviation NetworkPresence := (gmap str NickPresence) (only parsing).

(** [self.nicks.entry(nick).or_default()] followed by a write to the entry. *)
Definition update_entry (f : NickPresence -> NickPresence) (nick : str) (p : NetworkPresence) : NetworkPresence :=
  <[nick := f (default default_presence (p !! nick))]> p.

Definition erase_if_default (nick : str) (p : NetworkPresence) : NetworkPresence :=
  if decide (is_default <$> p !! nick = Some true) then delete nick p else p.

Definition set_away (nick : str) (value : option Away) (p : NetworkPresence) : NetworkPresence :=
  if is_empty nick then p
  else p ▷ update_entry (fun e => e <| away := value |>) nick ▷ erase_if_default nick.

Definition set_metadata (nick key value : str) (p : NetworkPresence) : NetworkPresence :=
  if is_empty nick then p
  else let?? stored := canonical_key key else p in
    if is_empty value then
      (match p !! nick with
       | Some e => <[nick := e <| keys := delete stored (keys e) |>]> p
       | None => p
       end) ▷ erase_if_default nick
    else update_entry (fun e => e <| keys := <[stored := value]> (keys e) |>) nick p.

Definition stored_account (value : str) : str := if is_empty value || str_eqb value (lit "*") then [] else value.

Definition set_account (nick value : str) (p : NetworkPresence) : NetworkPresence :=
  if is_empty nick then p
  else p ▷ update_entry (fun e => (e <| account_known := true |>) <| account := stored_account value |>) nick
         ▷ erase_if_default nick.

Definition set_server_operator (nick : str) (operator : bool) (p : NetworkPresence) : NetworkPresence :=
  if is_empty nick then p
  else p ▷ update_entry (fun e => e <| server_operator := operator |>) nick ▷ erase_if_default nick.

Definition set_realname (nick value : str) (p : NetworkPresence) : NetworkPresence :=
  if is_empty nick then p
  else if is_empty value then
    (match p !! nick with
     | Some e => <[nick := e <| realname := [] |>]> p
     | None => p
     end) ▷ erase_if_default nick
  else update_entry (fun e => e <| realname := value |>) nick p.

Definition rekey (from to : str) (p : NetworkPresence) : NetworkPresence :=
  if decide (from = to) then p
  else
    let p := delete to p in
    match p !! from with
    | Some presence => <[to := presence]> (delete from p)
    | None => p
    end.

Definition forget (nick : str) (p : NetworkPresence) : NetworkPresence := delete nick p.
Definition clear_presence (p : NetworkPresence) : NetworkPresence := ∅.

(** [self.nicks.retain(...)]: write to every entry, keep those that are not default. *)
Definition retain_entries (f : NickPresence -> NickPresence) (p : NetworkPresence) : NetworkPresence :=
  omap (fun e => let e := f e in if is_default e then None else Some e) p.

Definition clear_away (p : NetworkPresence) : NetworkPresence := retain_entries (fun e => e <| away := None |>) p.
Definition clear_metadata (p : NetworkPresence) : NetworkPresence := retain_entries (fun e => e <| keys := ∅ |>) p.

Definition knows (nick : str) (p : NetworkPresence) : bool := bool_decide (is_Some (p !! nick)).
Definition lookup_presence (nick : str) (p : NetworkPresence) : NickPresence := default default_presence (p !! nick).

(** ** The facts of one nick over several channels *)
Record NickFacts := mkFacts { fact_account : str; fact_realname : str; fact_bot : bool; fact_avatar : option str }.
Definition default_facts : NickFacts := mkFacts [] [] false None.

Definition absorb (f : NickFacts) (record : str * str * bool * option str) : NickFacts :=
  let '(account, realname, bot, avatar) := record in
  mkFacts (if is_empty (fact_account f) then account else fact_account f)
    (if is_empty (fact_realname f) then realname else fact_realname f)
    (fact_bot f || bot)
    (match fact_avatar f with None => avatar | Some avatar => Some avatar end).

(** ** The specification: a total function from nicks to facts *)

Inductive presence_op :=
| SetAway (nick : str) (value : option Away)
| SetMetadata (nick key value : str)
| SetAccount (nick value : str)
| SetServerOperator (nick : str) (operator : bool)
| SetRealname (nick value : str)
| Rekey (from to : str)
| Forget (nick : str)
| Clear
| ClearAway
| ClearMetadata.

Definition run_presence_op (p : NetworkPresence) (op : presence_op) : NetworkPresence :=
  match op with
  | SetAway nick value => set_away nick value p
  | SetMetadata nick key value => set_metadata nick key value p
  | SetAccount nick value => set_account nick value p
  | SetServerOperator nick operator => set_server_operator nick operator p
  | SetRealname nick value => set_realname nick value p
  | Rekey from to => rekey from to p
  | Forget nick => forget nick p
  | Clear => clear_presence p
  | ClearAway => clear_away p
  | ClearMetadata => clear_metadata p
  end.

Definition facts_of : Type := str -> NickPresence.

(** One nick's facts change; the empty nick never has any. *)
Definition at_nick (nick : str) (f : NickPresence -> NickPresence) (facts : facts_of) : facts_of :=
  fun n => if decide (n = nick /\ nick <> []) then f (facts n) else facts n.

Definition presence_spec (facts : facts_of) (op : presence_op) : facts_of :=
  match op with
  | SetAway nick value => at_nick nick (fun e => e <| away := value |>) facts
  | SetMetadata nick key value =>
      match canonical_key key with
      | Some stored =>
          at_nick nick (fun e =>
            e <| keys := if is_empty value then delete stored (keys e) else <[stored := value]> (keys e) |>) facts
      | None => facts
      end
  | SetAccount nick value =>
      at_nick nick (fun e => (e <| account_known := true |>) <| account := stored_account value |>) facts
  | SetServerOperator nick operator => at_nick nick (fun e => e <| server_operator := operator |>) facts
  | SetRealname nick value => at_nick nick (fun e => e <| realname := value |>) facts
  | Rekey from to =>
      if decide (from = to) then facts
      else fun n => if decide (n = to) then facts from else if decide (n = from) then default_presence else facts n
  | Forget nick => fun n => if decide (n = nick) then default_presence else facts n
  | Clear => fun _ => default_presence
  | ClearAway => fun n => (facts n) <| away := None |>
  | ClearMetadata => fun n => (facts n) <| keys := ∅ |>
  end.

(** ** The store keeps no default entry and refines the specification *)

Implicit Types (p : NetworkPresence) (nick : str) (e : NickPresence) (f : NickPresence -> NickPresence).

Definition store_ok (p : NetworkPresence) : Prop := map_Forall (fun _ e => is_default e = false) p.

Lemma is_default_spec e : is_default e = true <-> e = default_presence.
Proof.
  unfold is_default, default_presence. destruct e as [a k acc known real op]. cbn. split.
  - rw !andb_true_iff !bool_decide_eq_true !negb_true_iff. intros [[[[[-> ->] H1] ->] H2] ->].
    by destruct acc, real.
  - by intros [= -> -> -> -> -> ->].
Qed.

Lemma lookup_update_entry f nick n p :
  lookup_presence n (update_entry f nick p) = if decide (n = nick) then f (lookup_presence nick p) else lookup_presence n p.
Proof.
  unfold lookup_presence, update_entry. case_decide as E; [subst; by rw lookup_insert_eq|by rw lookup_insert_ne].
Qed.

Lemma lookup_erase nick n p : lookup_presence n (erase_if_default nick p) = lookup_presence n p.
Proof.
  unfold lookup_presence, erase_if_default. case_decide as E; [|done].
  destruct (decide (n = nick)) as [->|]; [|by rw lookup_delete_ne].
  rw lookup_delete_eq. destruct (p !! nick) as [e|]; [|done]. cbn in *. simplify_eq.
  symmetry. by apply is_default_spec.
Qed.

(** Forgetting a default entry restores the invariant when only that entry could break it. *)
Lemma erase_ok nick p : store_ok (delete nick p) -> store_ok (erase_if_default nick p).
Proof.
  unfold erase_if_default. intros H. case_decide as E; [done|]. intros n e He.
  destruct (decide (n = nick)) as [->|Hne].
  - rw He in E. cbn in E. by destruct (is_default e).
  - apply (H n). by rw lookup_delete_ne.
Qed.

Lemma delete_update_entry f nick p : delete nick (update_entry f nick p) = delete nick p.
Proof. apply delete_insert_eq. Qed.

Lemma update_entry_ok f nick p :
  is_default (f (lookup_presence nick p)) = false -> store_ok p -> store_ok (update_entry f nick p).
Proof. intros Hf Hp. by apply map_Forall_insert_2. Qed.

(** An entry that is only written when it is present. *)
Lemma lookup_alter_entry f nick n p :
  f default_presence = default_presence ->
  lookup_presence n (match p !! nick with Some e => <[nick := f e]> p | None => p end) =
  if decide (n = nick) then f (lookup_presence nick p) else lookup_presence n p.
Proof.
  intros Hf. unfold lookup_presence. case_decide as E.
  - subst. destruct (p !! nick) eqn:E; rw ?lookup_insert_eq ?E //=.
  - destruct (p !! nick); rw ?lookup_insert_ne //.
Qed.

Lemma delete_alter_entry f nick p :
  delete nick (match p !! nick with Some e => <[nick := f e]> p | None => p end) = delete nick p.
Proof. destruct (p !! nick); [apply delete_insert_eq|done]. Qed.

Lemma store_ok_delete nick p : store_ok p -> store_ok (delete nick p).
Proof. apply map_Forall_delete. Qed.
#[local] Hint Resolve store_ok_delete : core.

Lemma lookup_retain_entries f n p :
  retain_entries f p !! n = match p !! n with Some e => if is_default (f e) then None else Some (f e) | None => None end.
Proof. apply lookup_omap. Qed.

Lemma lookup_retain f n p :
  f default_presence = default_presence -> lookup_presence n (retain_entries f p) = f (lookup_presence n p).
Proof.
  intros Hf. unfold lookup_presence. rw lookup_retain_entries. case: (p !! n) => [e|]; [|by rw Hf].
  destruct (is_default (f e)) eqn:E; [|done]. symmetry. by apply is_default_spec.
Qed.

Lemma retain_ok f p : store_ok (retain_entries f p).
Proof.
  intros n e. rw lookup_retain_entries. case: (p !! n) => [e'|//].
  destruct (is_default (f e')) eqn:E; [done|]. by intros [= <-].
Qed.

Lemma change_nick_nil f facts n : at_nick [] f facts n = facts n.
Proof. unfold at_nick. case_decide; naive_solver. Qed.

Lemma change_nick_cons nick f facts n :
  is_empty nick = false -> at_nick nick f facts n = if decide (n = nick) then f (facts nick) else facts n.
Proof. unfold at_nick. intros. repeat case_decide; destruct nick; naive_solver. Qed.

Lemma run_presence_op_ok p op : store_ok p -> store_ok (run_presence_op p op).
Proof.
  intros H. destruct op; cbn [run_presence_op].
  - unfold set_away. case_match; [done|]. apply erase_ok. rw delete_update_entry. auto.
  - unfold set_metadata. case_match; [done|]. case_match; [|done]. case_match eqn:Hv.
    + apply erase_ok. rw delete_alter_entry. auto.
    + apply update_entry_ok; [|done]. apply not_true_iff_false. rw is_default_spec.
      intros E. apply (f_equal keys) in E. cbn in E. by apply insert_non_empty in E.
  - unfold set_account. case_match; [done|]. apply erase_ok. rw delete_update_entry. auto.
  - unfold set_server_operator. case_match; [done|]. apply erase_ok. rw delete_update_entry. auto.
  - unfold set_realname. case_match; [done|]. case_match eqn:Hv.
    + apply erase_ok. rw (delete_alter_entry (fun e => e <| realname := [] |>)). auto.
    + apply update_entry_ok; [|done]. apply not_true_iff_false. rw is_default_spec.
      intros E. apply (f_equal realname) in E. cbn in E. by subst.
  - unfold rekey. case_decide; [done|]. destruct (delete to p !! from) as [e|] eqn:E; [|auto].
    apply map_Forall_insert_2; [|by apply store_ok_delete, store_ok_delete].
    apply lookup_delete_Some in E as [_ E]. by apply (H from).
  - by apply store_ok_delete.
  - apply map_Forall_empty.
  - apply retain_ok.
  - apply retain_ok.
Qed.

Lemma run_presence_op_lookup p op n :
  lookup_presence n (run_presence_op p op) = presence_spec (fun n => lookup_presence n p) op n.
Proof.
  destruct op as [nick value|nick key value|nick value|nick operator|nick value|from to|nick| | |]; cbn [run_presence_op presence_spec].
  - unfold set_away. destruct (is_empty nick) eqn:E; [destruct nick; [by rw change_nick_nil|done]|].
    by rw change_nick_cons // lookup_erase lookup_update_entry.
  - unfold set_metadata. destruct (is_empty nick) eqn:E; destruct (canonical_key key) as [stored|]; try done.
    + destruct nick; [by rw change_nick_nil|done].
    + rw change_nick_cons //. destruct (is_empty value).
      * rw lookup_erase (lookup_alter_entry (fun e => e <| keys := delete stored (keys e) |>)) //.
      * by rw lookup_update_entry.
  - unfold set_account. destruct (is_empty nick) eqn:E; [destruct nick; [by rw change_nick_nil|done]|].
    by rw change_nick_cons // lookup_erase lookup_update_entry.
  - unfold set_server_operator. destruct (is_empty nick) eqn:E; [destruct nick; [by rw change_nick_nil|done]|].
    by rw change_nick_cons // lookup_erase lookup_update_entry.
  - unfold set_realname. destruct (is_empty nick) eqn:E; [destruct nick; [by rw change_nick_nil|done]|].
    rw change_nick_cons //. destruct value; cbn [is_empty].
    + rw lookup_erase (lookup_alter_entry (fun e => e <| realname := [] |>)) //.
    + by rw lookup_update_entry.
  - unfold rekey. case_decide; [done|]. unfold lookup_presence. rw lookup_delete_ne //.
    destruct (p !! from) as [e|] eqn:E; repeat case_decide; subst; try done.
    all: rw ?lookup_insert_eq ?lookup_insert_ne ?lookup_delete_eq ?lookup_delete_ne ?E //.
  - unfold forget, lookup_presence. case_decide; [subst; by rw lookup_delete_eq|by rw lookup_delete_ne].
  - done.
  - by apply lookup_retain.
  - by apply lookup_retain.
Qed.

Lemma presence_spec_ext facts facts' op :
  (forall n, facts n = facts' n) -> forall n, presence_spec facts op n = presence_spec facts' op n.
Proof. intros H n. destruct op; cbn; unfold at_nick; repeat case_match; by rw ?H. Qed.

Lemma run_presence_ops_ok ops p : store_ok p -> store_ok (foldl run_presence_op p ops).
Proof. intros H. apply foldl_invariant; [|done]. intros. by apply run_presence_op_ok. Qed.

Lemma presence_specs_ext ops facts facts' :
  (forall n, facts n = facts' n) -> forall n, foldl presence_spec facts ops n = foldl presence_spec facts' ops n.
Proof. revert facts facts'. induction ops as [|op ops IH]; intros facts facts' H; [done|]. apply IH, presence_spec_ext, H. Qed.

Lemma run_presence_ops_lookup ops p n :
  lookup_presence n (foldl run_presence_op p ops) = foldl presence_spec (fun n => lookup_presence n p) ops n.
Proof.
  revert p. induction ops as [|op ops IH]; intros p; [done|]. cbn [foldl]. rw IH.
  apply presence_specs_ext. intros. apply run_presence_op_lookup.
Qed.

(** The sparse presence store of a network implements the total map from nicks to facts:
    after any sequence of operations a lookup gives what the pointwise specification gives, an
    entry is stored exactly for the nicks that have a fact, and none is stored for the others. *)
Theorem network_presence_refines ops nick :
  let stored := foldl run_presence_op ∅ ops in
  let facts := foldl presence_spec (fun _ => default_presence) ops in
  lookup_presence nick stored = facts nick
  /\ knows nick stored = negb (bool_decide (facts nick = default_presence)).
Proof.
  cbn zeta. assert (H : lookup_presence nick (foldl run_presence_op ∅ ops)
    = foldl presence_spec (fun _ => default_presence) ops nick).
  { rw run_presence_ops_lookup. by apply presence_specs_ext. }
  split; [done|]. rw -H. unfold knows, lookup_presence.
  destruct (foldl run_presence_op ∅ ops !! nick) as [e|] eqn:E; cbn; [|by rw bool_decide_eq_true_2].
  rw bool_decide_eq_false_2 //. rw -is_default_spec. apply not_true_iff_false.
  by apply (run_presence_ops_ok ops ∅ (map_Forall_empty _) nick).
Qed.

Example presence_example :
  let p := foldl run_presence_op ∅
    [SetAway (lit "bob") (Some (mkAway (lit "tea"))); SetMetadata (lit "bob") (lit "BOT") (lit "Sopel");
     Rekey (lit "bob") (lit "rob"); ClearAway; SetAccount (lit "bob") (lit "*"); SetMetadata (lit "amy") (lit "bot") []] in
  knows (lit "amy") p = false /\ is_bot (lookup_presence (lit "rob") p) = true
  /\ away (lookup_presence (lit "rob") p) = None
  /\ fact_labels (lookup_presence (lit "bob") p) false = [lit "unauthenticated"].
Proof. by vm_compute. Qed.
