(* ===== verification/Events.v ===== *)
(** * Events: the translated facts (src/client/src/irc/event.rs)

    One constructor of [Event] per alternative of the Rust enum, one record per payload struct.
    The Rust [MessageEvent], [NoticeEvent] and [ActionEvent] have the same fields, so they share
    the record [ChatEvent] behind three constructors. *)

From S2P Require Import Prelude Text ServerFeatures OrdMap SessionTypes Typing Presence.

(** A network and a normalized target; the derived order is network first. *)
Record ConversationKey := mkKey { network_id : str; normalized_target : str }.
#[export] Instance ConversationKey_eq_dec : EqDecision ConversationKey.
Proof. solve_decision. Defined.
#[export] Instance ConversationKey_countable : Countable ConversationKey.
Proof.
  refine (inj_countable' (fun k => (network_id k, normalized_target k)) (fun p => mkKey p.1 p.2) _).
  by intros [].
Defined.
#[export] Instance ConversationKey_ord : OrdKey ConversationKey := fun a b =>
  key_ltb (network_id a, normalized_target a) (network_id b, normalized_target b).
#[export] Instance ConversationKey_ord_laws : OrdKeyLaws ConversationKey.
Proof.
  constructor; unfold key_ltb, ConversationKey_ord; intros; [apply key_ltb_irrefl|by eapply key_ltb_trans].
Qed.

(** An IRCv3 message id, empty when the server sent none. *)
Abbreviation MsgId := str (only parsing).

Inductive MessageKindTag := TagChat | TagEmote | TagEvent.
#[export] Instance MessageKindTag_eq_dec : EqDecision MessageKindTag.
Proof. solve_decision. Defined.

Inductive IrcConversationCause := QuietSend | InboundSelf | UserOpen | ChannelState_ | InboundOther | Restore.

Inductive InboxKind := InboxMention | InboxHighlight | InboxDirect | InboxInvite | InboxMonitorOnline | InboxKick.

Record WelcomeEvent := mkWelcome { welcome_network : str; welcome_nick : str }.

Record ChatEvent := mkChat {
  chat_conversation : ConversationKey;
  chat_author : str;
  chat_body : str;
  chat_timestamp : Time;
  chat_server_time : option Time;
  chat_target : str;
  chat_msgid : MsgId;
  chat_only_visible : bool;
}.

Record JoinEvent := mkJoin {
  join_network : str; join_to : str; join_nick : str; join_account : option str; join_realname : option str }.
Record PartEvent := mkPart { part_network : str; part_channel : str; part_nick : str; part_reason : str }.
Record QuitEvent := mkQuit { quit_network : str; quit_nick : str; quit_reason : str }.
Record NickEvent := mkNick { nick_network : str; old_nick : str; new_nick : str }.
Record KickEvent := mkKick {
  kick_network : str; kick_channel : str; kick_target : str; kick_author : str; kick_reason : str }.
Record TopicEvent := mkTopic {
  topic_network : str; topic_channel : str; topic_text : str; topic_author : str; keep_existing_topic : bool }.

Record Name := mkName { name_nick : str; name_ranks : IrcPrefixSet }.
Record NamesEvent := mkNames {
  names_network : str; names_channel : str; names_entries : list Name; names_complete : bool }.
Record ModeEvent := mkMode {
  mode_network : str; mode_target : str; mode_author : str; mode_text : str; mode_arguments : list str }.

Record AwayEvent := mkAwayEvent {
  away_network : str; away_nick : str; away_value : option Away; away_realname : option str; realname_only : bool }.
Record SelfAwayEvent := mkSelfAway { self_away_network : str; self_away_value : bool }.
Record MemberMetadataEvent := mkMemberMetadata {
  metadata_network : str; metadata_nick : str; metadata_key : str; metadata_value : str }.
Record AccountEvent := mkAccount { account_network : str; account_nick : str; account_name : str }.
Record TypingEvent := mkTyping {
  typing_conversation : ConversationKey; typing_nick : str; typing_phase : TypingPhase; typing_received_at : Time }.

Record ReplayLine := mkReplay {
  replay_author : str;
  replay_body : str;
  replay_timestamp : Time;
  replay_kind : MessageKindTag;
  replay_msgid : MsgId;
  replay_server_time : option Time;
  replay_only_visible : bool;
}.
Record HistoryEvent := mkHistory {
  history_conversation : ConversationKey;
  history_target : str;
  history_lines : list ReplayLine;
  history_kind : HistoryKind;
  history_older_page : bool;
}.
#[export] Instance history_event_eta : Eta HistoryEvent := fun h =>
  mkHistory (history_conversation h) (history_target h) (history_lines h) (history_kind h) (history_older_page h).

Record WhoisTranscriptEvent := mkWhoisTranscript { whois_destination : ConversationKey; whois_body : str }.
Record ChannelErrorEvent := mkChannelError { error_network : str; error_channel : str; error_body : str }.
Record NickFactsEvent := mkNickFacts {
  facts_network : str; facts_nick : str; facts_realname : option str; facts_operator : option bool }.

Inductive Event :=
| EvWelcome (e : WelcomeEvent)
| EvMessage (e : ChatEvent)
| EvNotice (e : ChatEvent)
| EvAction (e : ChatEvent)
| EvJoin (e : JoinEvent)
| EvPart (e : PartEvent)
| EvQuit (e : QuitEvent)
| EvNick (e : NickEvent)
| EvKick (e : KickEvent)
| EvTopic (e : TopicEvent)
| EvNames (e : NamesEvent)
| EvMode (e : ModeEvent)
| EvAway (e : AwayEvent)
| EvSelfAway (e : SelfAwayEvent)
| EvMemberMetadata (e : MemberMetadataEvent)
| EvAccount (e : AccountEvent)
| EvTyping (e : TypingEvent)
| EvHistory (e : HistoryEvent)
| EvWhoisTranscript (e : WhoisTranscriptEvent)
| EvChannelError (e : ChannelErrorEvent)
| EvNickFacts (e : NickFactsEvent).

(** What a fold hands to the controller. *)
Record KeptReplay := mkKept { kept_network : str; kept_target : str; kept_server_time : Time }.
Record RememberedQuery := mkRemembered { remembered_network : str; remembered_target : str }.
Record MentionArrival := mkMention {
  mention_author : str; mention_body : str; mention_network : str; mention_target : str; mention_msgid : MsgId }.
Record InboxArrival := mkInbox {
  inbox_kind : InboxKind; inbox_actor : str; inbox_body : str; inbox_network : str; inbox_target : str;
  inbox_msgid : MsgId }.
