(* ===== verification/Conversation.v ===== *)
(** * Conversation: ids, causes and neighbours (src/client/src/irc/conversation.rs)

    The stable text of a conversation key, the table of causes that decides when a row may be
    created, and the row to select after one is dropped. *)

From S2P Require Import Prelude Text ServerFeatures OrdMap SessionTypes Platform Ctcp Events.

(** The character between the two parts of an id. *)
Definition NEWLINE : char := 10.

Definition conversation_id (key : ConversationKey) : str := network_id key ++ [NEWLINE] ++ normalized_target key.

Definition parse_conversation_id (id : str) : option ConversationKey :=
  let? (network, target) := split_once (N.eqb NEWLINE) id in
  if is_empty network || is_empty target || existsb (N.eqb NEWLINE) target then None
  else Some (mkKey network target).

Definition target_looks_like_service `{Platform} (target : str) (features : IrcServerFeatures) : bool :=
  is_service_identity target [] (channel_types features).

(** [IrcConversationCause::inserts] *)
Definition inserts (cause : IrcConversationCause) (target_is_channel looks_like_service : bool) : bool :=
  match cause with
  | UserOpen => negb target_is_channel
  | ChannelState_ => target_is_channel
  | InboundOther => target_is_channel || negb looks_like_service
  | Restore => negb target_is_channel && negb looks_like_service
  | QuietSend | InboundSelf => false
  end.

Definition neighbor_after_drop (ordered : list ConversationKey) (dropping : ConversationKey) : option ConversationKey :=
  let same_network key := str_eqb (network_id key) (network_id dropping) in
  match position (fun key => bool_decide (key = dropping)) ordered with
  | Some index =>
      let next := ordered !! S index in
      let previous := match index with O => None | S before => ordered !! before end in
      match next, previous with
      | Some after, Some before =>
          if same_network after then Some after else if same_network before then Some before else Some after
      | Some after, None => Some after
      | None, before => before
      end
  | None => last ordered
  end.

(** A conversation id names one conversation: every key with no newline in it is read back
    from its id, and an id that is accepted is the id of the key it is read as. *)
Theorem conversation_id_roundtrip key id :
  (network_id key <> [] -> normalized_target key <> [] ->
   forallb (fun c => negb (NEWLINE =? c)) (network_id key ++ normalized_target key) = true ->
   parse_conversation_id (conversation_id key) = Some key)
  /\ (parse_conversation_id id = Some key -> conversation_id key = id).
Proof.
  unfold parse_conversation_id, conversation_id. destruct key as [network target]. cbn [network_id normalized_target]. split.
  - intros Hn Ht H. rw forallb_app in H. apply andb_true_iff in H as [H1 H2].
    rw split_once_position position_here //. cbn [fmap option_fmap option_map].
    rw take_app_length (drop_app_ge _ _ (S _)); [lia|].
    replace (S (length network) - length network)%nat with 1%nat by lia. cbn [drop].
    rw (proj2 (existsb_false_forallb _ _) H2). by destruct network, target.
  - rw split_once_position. destruct (position (N.eqb NEWLINE) id) as [i|] eqn:E; [|done].
    cbn [fmap option_fmap option_map]. case_match; [done|]. intros [= <- <-].
    apply position_Some in E as (x & Hid & Hx & _). apply N.eqb_eq in Hx as <-. by rw {3}Hid.
Qed.

(** The row selected after a drop is another listed row, and there is one whenever another
    row is listed. *)
Lemma neighbor_after_drop_other ordered dropping :
  NoDup ordered ->
  match neighbor_after_drop ordered dropping with
  | Some key => key ∈ ordered /\ key <> dropping
  | None => forall key, key ∈ ordered -> key = dropping
  end.
Proof.
  intros Hd. unfold neighbor_after_drop. destruct (position _ ordered) as [i|] eqn:E.
  - apply position_lookup in E as (x & Hi & Hx%bool_decide_eq_true). subst x.
    assert (Hne : forall j key, ordered !! j = Some key -> j <> i -> key ∈ ordered /\ key <> dropping).
    { intros j key Hj Hji. split; [by apply list_elem_of_lookup_2 in Hj|]. intros ->. by eapply Hji, NoDup_lookup. }
    destruct (ordered !! S i) as [after|] eqn:Ea.
    + pose proof (Hne _ _ Ea). destruct i as [|i]; [naive_solver lia|].
      destruct (ordered !! i) as [before|] eqn:Eb; [|naive_solver lia].
      pose proof (Hne _ _ Eb). repeat case_match; naive_solver lia.
    + destruct i as [|i].
      * intros key (j & Hj)%list_elem_of_lookup. destruct j; [congruence|].
        apply lookup_ge_None in Ea. apply lookup_lt_Some in Hj. lia.
      * destruct (ordered !! i) as [before|] eqn:Eb; [by apply (Hne i); [|lia]|].
        apply lookup_ge_None in Eb. apply lookup_lt_Some in Hi. lia.
  - apply position_None in E.
    assert (Hno : forall key, key ∈ ordered -> key <> dropping).
    { intros key Hk ->. rw forallb_forall in E. apply list_elem_of_In in Hk. specialize (E _ Hk). by rw bool_decide_eq_true_2 in E. }
    destruct (last ordered) as [key|] eqn:El; [|apply last_None in El as ->; by intros key ?%elem_of_nil].
    apply last_Some_elem_of in El. auto.
Qed.

Lemma conversation_id_roundtrip_witness :
  parse_conversation_id (conversation_id (mkKey (lit "oftc") (lit "#omarchy"))) = Some (mkKey (lit "oftc") (lit "#omarchy"))
  /\ conversation_id (mkKey (lit "a") (lit "b")) = [97; 10; 98].
Proof.
  split.
  - apply (conversation_id_roundtrip (mkKey (lit "oftc") (lit "#omarchy")) []); by vm_compute.
  - apply conversation_id_roundtrip. by vm_compute.
Defined.

(** The table of causes over a channel, a person and a service. *)
Example inserts_table :
  (fun cause => (inserts cause true false, inserts cause false false, inserts cause false true))
    <$> [QuietSend; InboundSelf; UserOpen; ChannelState_; InboundOther; Restore]
  = [(false, false, false); (false, false, false); (false, true, true);
     (true, false, false); (true, true, false); (false, true, false)].
Proof. done. Qed.

Example neighbor_example :
  let key n t := mkKey (lit n) (lit t) in
  let ordered := [key "a" "#one"; key "a" "#two"; key "a" "alice"; key "b" "#x"]%string in
  neighbor_after_drop ordered (key "a" "#two")%string = Some (key "a" "alice")%string
  /\ neighbor_after_drop ordered (key "a" "alice")%string = Some (key "a" "#two")%string
  /\ neighbor_after_drop ordered (key "b" "#x")%string = Some (key "a" "alice")%string
  /\ neighbor_after_drop (take 1 ordered) (key "a" "#one")%string = None
  /\ neighbor_after_drop ordered (key "c" "#z")%string = Some (key "b" "#x")%string.
Proof. by vm_compute. Qed.
