(* ===== verification/MembershipNoise.v ===== *)
(** * MembershipNoise: join, part, quit and nick lines (src/client/src/irc/membershipnoise.rs)

    How membership lines show, the text of one line, and the fold of a line into the caption
    above it. The fold works on caption text: [parse_clauses] takes a caption apart, and a
    caption it cannot read merges as plain text. *)

From S2P Require Import Prelude Text SessionTypes Platform.

Inductive MembershipNoise := Folded | Every | Hidden.
#[export] Instance MembershipNoise_eq_dec : EqDecision MembershipNoise.
Proof. solve_decision. Defined.

Definition ALL_NOISE : list MembershipNoise := [Folded; Every; Hidden].

(** [MembershipNoise::token] *)
Definition noise_token (level : MembershipNoise) : str :=
  match level with Folded => lit "folded" | Every => lit "every" | Hidden => lit "hidden" end.

(** [MembershipNoise::from_token] *)
Definition noise_from_token `{Platform} (token : str) : option MembershipNoise :=
  let folded := to_lowercase (trim token) in
  List.find (fun level => str_eqb (noise_token level) folded) ALL_NOISE.

Definition shown_account (same_as_nick : bool) (account : str) : str :=
  if is_empty account || str_eqb account (lit "*") || same_as_nick then [] else account.

Definition join_line (nick shown_account : str) : str :=
  if is_empty shown_account then nick ++ lit " joined"
  else nick ++ lit " (" ++ shown_account ++ lit ") joined".
Definition part_line (nick : str) : str := nick ++ lit " left".
Definition quit_line (nick : str) : str := nick ++ lit " quit".
Definition nick_line (old_nick new_nick : str) : str := old_nick ++ lit " is now " ++ new_nick.

(** ** Searching text *)

(** [text.find(needle)] *)
Fixpoint find_str (needle text : str) : option nat :=
  match strip_prefix needle text with
  | Some _ => Some 0%nat
  | None => match text with [] => None | _ :: text => S <$> find_str needle text end
  end.

(** [text.split(separator)]; a piece takes at least one character with its separator. *)
Fixpoint split_str_fuel (fuel : nat) (separator text : str) : list str :=
  match fuel with
  | O => [text]
  | S fuel =>
      match find_str separator text with
      | None => [text]
      | Some at_ => take at_ text :: split_str_fuel fuel separator (drop (at_ + length separator) text)
      end
  end.
Definition split_str (separator text : str) : list str := split_str_fuel (length text) separator text.

(** ** Captions as clauses *)

Inductive Clause :=
| Joined (tokens : list str)
| Left (tokens : list str)
| Quit (tokens : list str)
| NickChange (old new : str).

Inductive Verb := VerbJoined | VerbLeft | VerbQuit | VerbNick.

Definition VERBS : list (str * Verb) :=
  [(lit " joined", VerbJoined); (lit " left", VerbLeft); (lit " quit", VerbQuit); (lit " is now ", VerbNick)].

Definition SEPARATOR : str := lit ", ".

Definition render_clause (clause : Clause) : str :=
  match clause with
  | Joined tokens => join_with SEPARATOR tokens ++ lit " joined"
  | Left tokens => join_with SEPARATOR tokens ++ lit " left"
  | Quit tokens => join_with SEPARATOR tokens ++ lit " quit"
  | NickChange old new => nick_line old new
  end.
Definition render_clauses (clauses : list Clause) : str := join_with SEPARATOR (render_clause <$> clauses).

Definition split_tokens (text : str) : list str :=
  base.filter (fun token => is_empty token = false) (split_str SEPARATOR text).

(** The verb found earliest in the text: [filter_map] over the verbs, then [min_by_key]. *)
Definition earliest_step (rest : str) (found : option (nat * Verb * nat)) (entry : str * Verb) :=
  let '(suffix, verb) := entry in
  match find_str suffix rest, found with
  | Some at_, Some (best, _, _) => if (at_ <? best)%nat then Some (at_, verb, length suffix) else found
  | Some at_, None => Some (at_, verb, length suffix)
  | None, _ => found
  end.
Definition earliest_verb (rest : str) : option (nat * Verb * nat) := foldl (earliest_step rest) None VERBS.

(** One round of the loop of [parse_clauses]: a clause and the text behind it. *)
Definition parse_clause (rest : str) : option (Clause * str) :=
  let? (at_verb, len) := earliest_verb rest in
  let '(at_, verb) := at_verb in
  if (at_ =? 0)%nat then None
  else
    match verb with
    | VerbNick =>
        let tail := drop (at_ + len) rest in
        let new := take (default (length tail) (position (N.eqb (chr ",")) tail)) tail in
        if is_empty new || existsb (N.eqb (chr " ")) new then None
        else Some (NickChange (take at_ rest) new, drop (length new) tail)
    | _ =>
        let tokens := split_tokens (take at_ rest) in
        if is_empty tokens then None
        else Some (match verb with VerbJoined => Joined tokens | VerbLeft => Left tokens | _ => Quit tokens end,
                   drop (at_ + len) rest)
    end.

Fixpoint parse_loop (fuel : nat) (rest : str) : option (list Clause) :=
  match fuel with
  | O => None
  | S fuel =>
      let? (clause, rest) := parse_clause rest in
      if is_empty rest then Some [clause]
      else
        let? rest := strip_prefix SEPARATOR rest in
        if is_empty rest then None
        else let? clauses := parse_loop fuel rest in Some (clause :: clauses)
  end.

Definition parse_clauses (body : str) : option (list Clause) :=
  if is_empty body then None
  else
    let? clauses := parse_loop (S (length body)) body in
    if str_eqb (render_clauses clauses) body then Some clauses else None.

Definition membership_nick (token : str) : str :=
  match strip_suffix (lit ")") token with
  | Some _ =>
      match find_str (lit " (") token with
      | Some at_ => if (0 <? at_)%nat then take at_ token else token
      | None => token
      end
  | None => token
  end.

(** ** The fold *)

Inductive FoldKind := Merge | Cancel | Chain.
#[export] Instance FoldKind_eq_dec : EqDecision FoldKind.
Proof. solve_decision. Defined.

Record MembershipFold := mkFold { fold_kind : FoldKind; drop_row : bool; fold_body : str }.

Definition collapse_suffix (existing incoming suffix : str) : option str :=
  let? head := strip_suffix suffix existing in
  let? tail := strip_suffix suffix incoming in
  Some (head ++ SEPARATOR ++ tail ++ suffix).

Definition collapse_event_body (existing incoming : str) : str :=
  default (existing ++ SEPARATOR ++ incoming)
    (head (omap (collapse_suffix existing incoming) [lit " joined"; lit " left"; lit " quit"])).

Definition merge (existing incoming : str) : MembershipFold := mkFold Merge false (collapse_event_body existing incoming).

Definition fold_decision (same : str -> str -> bool) (last_clause : option Clause) (incoming : Clause) : FoldKind :=
  match last_clause, incoming with
  | Some (Left tokens), Joined [joined] | Some (Quit tokens), Joined [joined] =>
      match last tokens with
      | Some nick => if same (membership_nick nick) (membership_nick joined) then Cancel else Merge
      | None => Merge
      end
  | Some (NickChange _ new), NickChange old _ => if same new old then Chain else Merge
  | _, _ => Merge
  end.

(** [tokens.pop()] on the last clause, which goes when it is left empty. *)
Definition pop_departure (clauses : list Clause) : list Clause :=
  let rest := removelast clauses in
  match last clauses with
  | Some (Left tokens) => match removelast tokens with [] => rest | tokens => rest ++ [Left tokens] end
  | Some (Quit tokens) => match removelast tokens with [] => rest | tokens => rest ++ [Quit tokens] end
  | _ => clauses
  end.

Definition chain_nick (clauses : list Clause) (incoming : Clause) : list Clause :=
  match last clauses, incoming with
  | Some (NickChange old _), NickChange _ new => removelast clauses ++ [NickChange old new]
  | _, _ => clauses
  end.

Definition fold_membership (existing incoming : str) (same : str -> str -> bool) : MembershipFold :=
  match parse_clauses existing, parse_clauses incoming with
  | Some clauses, Some [incoming_clause] =>
      match fold_decision same (last clauses) incoming_clause with
      | Cancel =>
          let clauses := pop_departure clauses in
          if is_empty clauses then mkFold Cancel true [] else mkFold Cancel false (render_clauses clauses)
      | Chain => mkFold Chain false (render_clauses (chain_nick clauses incoming_clause))
      | Merge => merge existing incoming
      end
  | _, _ => merge existing incoming
  end.

Section Examples.
Let fold a b := let f := fold_membership (lit a) (lit b) eq_ignore_ascii_case in (fold_kind f, drop_row f, fold_body f).

Example fold_examples :
  fold "sol left" "sol joined" = (Cancel, true, [])
  /\ fold "nora quit, sol joined" "nora joined" = (Merge, false, lit "nora quit, sol, nora joined")
  /\ fold "sol joined, nora quit" "nora joined" = (Cancel, false, lit "sol joined")
  /\ fold "anna joined, sol left, nora quit" "nora joined" = (Cancel, false, lit "anna joined, sol left")
  /\ fold "sol left" "sol (acct) joined" = (Cancel, true, [])
  /\ fold "a is now b" "b is now c" = (Chain, false, lit "a is now c")
  /\ fold "sol joined" "nora left" = (Merge, false, lit "sol joined, nora left").
Proof. by vm_compute. Qed.

Example parse_examples :
  (parse_clauses ∘ lit) <$> [""; "sol"; "sol joined, "; " joined"; "a is now b c"] = [None; None; None; None; None]
  /\ render_clauses <$> parse_clauses (lit "anna joined, sol left, nora quit, a is now b")
     = Some (lit "anna joined, sol left, nora quit, a is now b")
  /\ (membership_nick ∘ lit) <$> ["sol (acct)"; "sol"; " (acct)"] = [lit "sol"; lit "sol"; lit " (acct)"].
Proof. by vm_compute. Qed.

(** A nick that begins with the word of a verb hides the caption from the parser, so the
    departure behind it is not cancelled when its nick comes back. *)
Example verb_nick_example :
  fold "bob, alice quit" "alice joined" = (Cancel, false, lit "bob quit")
  /\ parse_clauses (lit "bob, leftie quit") = None
  /\ fold "bob, leftie quit" "leftie joined" = (Merge, false, lit "bob, leftie quit, leftie joined").
Proof. by vm_compute. Qed.
End Examples.

(** ** The loops end *)

Lemma find_str_lt needle text at_ : find_str needle text = Some at_ -> (at_ + length needle <= length text)%nat.
Proof.
  revert at_. induction text as [|c text IH]; intros at_; cbn [find_str].
  - destruct needle; [|done]. by intros [= <-].
  - case_match eqn:E; [|by destruct (find_str needle text) as [i|]; [intros [= <-]; specialize (IH i eq_refl); cbn; lia|]].
    intros [= <-]. revert E. generalize (c :: text) as s. clear. induction needle as [|d needle IH]; intros s; cbn; [lia|].
    destruct s as [|c s]; [done|]. case_match; [|done]. intros E. specialize (IH _ E). cbn. lia.
Qed.

Lemma strip_prefix_length prefix s rest : strip_prefix prefix s = Some rest -> length s = (length prefix + length rest)%nat.
Proof.
  revert s. induction prefix as [|c prefix IH]; intros s; cbn; [by intros [= <-]|].
  destruct s as [|d s]; [done|]. case_match; [|done]. intros E. cbn. f_equal. by apply IH.
Qed.

Lemma earliest_verb_spec rest at_ verb len :
  earliest_verb rest = Some (at_, verb, len) -> (0 < len /\ at_ + len <= length rest)%nat.
Proof.
  unfold earliest_verb.
  assert (H : forall entries found,
    (forall suffix verb, (suffix, verb) ∈ entries -> suffix <> []) ->
    (forall at_ verb len, found = Some (at_, verb, len) -> (0 < len /\ at_ + len <= length rest)%nat) ->
    forall at_ verb len, foldl (earliest_step rest) found entries = Some (at_, verb, len) ->
    (0 < len /\ at_ + len <= length rest)%nat).
  { induction entries as [|[suffix v] entries IH]; intros found Hne Hf; cbn [foldl]; [apply Hf|].
    apply IH; [intros s w Hin; apply (Hne s w); by right|]. unfold earliest_step.
    assert (suffix <> []) by (apply (Hne suffix v); by left).
    intros a w l. destruct (find_str suffix rest) eqn:E; [|apply Hf]. apply find_str_lt in E.
    assert (0 < length suffix)%nat by (destruct suffix; cbn; [done|lia]).
    destruct found as [[[best bv] bl]|]; [|by intros [= <- <- <-]; lia].
    case_match; [by intros [= <- <- <-]; lia|]. apply Hf. }
  apply H; [|done]. intros suffix v Hin.
  repeat (apply elem_of_cons in Hin as [[= -> ->]|Hin]; [done|]). by apply elem_of_nil in Hin.
Qed.

Lemma parse_clause_shorter rest clause rest' :
  parse_clause rest = Some (clause, rest') -> (length rest' < length rest)%nat.
Proof.
  unfold parse_clause. destruct (earliest_verb rest) as [[[at_ verb] len]|] eqn:E; [|done].
  apply earliest_verb_spec in E as [Hl Ha]. case_match; [done|].
  destruct verb; cbn zeta; case_match; try done; intros [= _ <-]; rw ?length_drop; lia.
Qed.

(** The caption parser ends: every round reads a clause and leaves a shorter text, so any
    fuel beyond the length of the text gives the result the parser uses. *)
Theorem parse_loop_terminates rest fuel :
  (length rest < fuel)%nat -> parse_loop fuel rest = parse_loop (S (length rest)) rest.
Proof.
  assert (H : forall n rest fuel fuel', (length rest < n)%nat -> (length rest < fuel)%nat -> (length rest < fuel')%nat ->
    parse_loop fuel rest = parse_loop fuel' rest).
  { clear. induction n as [|n IH]; intros rest fuel fuel' Hn H1 H2; [lia|].
    destruct fuel as [|fuel], fuel' as [|fuel']; [lia..|]. cbn [parse_loop].
    destruct (parse_clause rest) as [[clause rest']|] eqn:E; [|done]. apply parse_clause_shorter in E.
    case_match; [done|]. destruct (strip_prefix SEPARATOR rest') as [rest''|] eqn:E'; [|done].
    apply strip_prefix_length in E'. case_match; [done|]. rw (IH rest'' fuel fuel') //; cbn in E'; lia. }
  intros Hf. apply (H (S (length rest))); lia.
Qed.

Lemma parse_loop_terminates_witness :
  parse_loop 100 (lit "a joined, b left") = parse_loop 17 (lit "a joined, b left")
  /\ parse_loop 17 (lit "a joined, b left") = Some [Joined [lit "a"]; Left [lit "b"]].
Proof.
  split; [|by vm_compute]. apply (parse_loop_terminates (lit "a joined, b left") 100). vm_compute. lia.
Defined.
