(* ===== verification/Translator.v ===== *)
(** * Translator: events from parsed lines (src/client/src/irc/translator/)

    One inbound line becomes the events the reducer folds, and one completed batch becomes one
    history event. [now] is a parameter, and so is the lookup that confirms a sender is a member
    of a joined channel. *)

From S2P Require Import Prelude Text Message CaseMapping ServerFeatures OrdMap SessionTypes Platform Ctcp Metadata Typing.
From S2P Require Import Presence Events Conversation MembershipNoise.

(** [JoinedMemberLookup] *)
Abbreviation JoinedMemberLookup := (str -> str -> option str) (only parsing).

(** ** What every handler reads (context.rs) *)

(** [ircKey]; the name [key] is taken by parameters below. *)
Definition target_key (network : str) (target : str) (features : IrcServerFeatures) : ConversationKey :=
  mkKey network (normalize (case_mapping features) target).

Definition same (features : IrcServerFeatures) (left right : str) : bool := equals (case_mapping features) left right.

Definition author (message : IrcMessage) : str := prefix_nick message.

Definition routable_source (message : IrcMessage) : bool :=
  match msg_prefix message with
  | Some prefix => if is_empty (prefix_nick_bytes prefix) then true else nick_is_routable (wire_text (prefix_nick_bytes prefix))
  | None => true
  end.

Definition prefix_is_user (message : IrcMessage) : bool :=
  match msg_prefix message with Some prefix => is_user prefix | None => false end.

Definition present_tag_value (message : IrcMessage) (name : str) : option str :=
  let? tag := List.find (fun tag => str_eqb (tag_name tag) name) (msg_tags message) in
  Some (default [] (wire_text <$> tag_value tag)).

Section Translator.
Context `{platform : Platform}.

Definition conversation_for (network target : str) (message : IrcMessage) (current_nick : str)
    (features : IrcServerFeatures) : option ConversationKey :=
  if negb (routable_source message) then None
  else if is_channel features target then Some (target_key network target features)
  else if is_network_notice_target target || negb (prefix_is_user message) || is_service_source message features then None
  else
    let sender := author message in
    if is_empty sender then None
    else if same features target current_nick then Some (target_key network sender features)
    else if same features sender current_nick then Some (target_key network target features)
    else None.

Definition timestamp_for (message : IrcMessage) (now : Time) : Time := default now (server_time_of message).

Record Inbound := mkInbound {
  in_command : str;
  in_network : str;
  in_nick : str;
  in_features : IrcServerFeatures;
  in_message : IrcMessage;
  in_joined : option JoinedMemberLookup;
  in_sender : str;
  in_timestamp : Time;
  in_server_time : option Time;
}.

(** ** Chat lines (messages.rs) *)

Definition CHANNEL_CONTEXT_LIMIT : nat := 50.
Definition ACTION_PREFIX : str := [1] ++ lit "ACTION ".

Record ChannelDelivery := mkDelivery { delivery_channel : str; delivery_only_visible : bool }.

Definition action_text (body : str) : option str :=
  if bool_decide (is_Some (strip_prefix ACTION_PREFIX body)) && bool_decide (is_Some (strip_suffix [1] body))
  then Some (drop (length ACTION_PREFIX) (take (length body - 1) body)) else None.

Definition channel_context_text (value : str) (features : IrcServerFeatures) : bool :=
  (2 <=? length value)%nat && (length value <=? CHANNEL_CONTEXT_LIMIT)%nat && is_channel features value
  && forallb (fun c => negb ((c <? 0x20) || (c =? 0x7F) || is_whitespace c || (c =? chr ",") || (c =? chr ":"))) value.

Definition CONTEXT_TAGS : list str := [lit "+draft/channel-context"; lit "draft/channel-context"].

Definition channel_context_channel (message : IrcMessage) (features : IrcServerFeatures) : option str :=
  List.find (fun value => channel_context_text value features) (omap (tag_text message) CONTEXT_TAGS).

Definition nick_targeted_channel_delivery (wire_target : str) (i : Inbound) : option ChannelDelivery :=
  let features := in_features i in
  let? context := channel_context_channel (in_message i) features in
  if is_channel features wire_target || negb (same features wire_target (in_nick i)) then None
  else if is_empty (in_sender i) || same features context (in_nick i) then None
  else
    let? lookup := in_joined i in
    let? canonical := lookup context (in_sender i) in
    if is_empty canonical || negb (is_channel features canonical) then None
    else Some (mkDelivery canonical true).

Definition in_conversation (i : Inbound) (target : str) : option ConversationKey :=
  conversation_for (in_network i) target (in_message i) (in_nick i) (in_features i).

(** The channel, or the peer of a direct message. *)
Definition shown_target (i : Inbound) (wire_target : str) : str :=
  if negb (is_channel (in_features i) wire_target) && negb (same (in_features i) (in_sender i) (in_nick i))
  then in_sender i else wire_target.

Definition chat_event (i : Inbound) (conversation : ConversationKey) (body target : str) (only_visible : bool) : ChatEvent :=
  mkChat conversation (in_sender i) body (in_timestamp i) (in_server_time i) target (msgid (in_message i)) only_visible.

Definition notice (i : Inbound) : list Event :=
  let message := in_message i in
  let features := in_features i in
  let body := text_param message 1 in
  if bool_decide (is_Some (parse_ctcp_request body)) then []
  else
    let wire_target := text_param message 0 in
    match nick_targeted_channel_delivery wire_target i with
    | Some delivery =>
        [EvNotice (chat_event i (target_key (in_network i) (delivery_channel delivery) features) body
          (delivery_channel delivery) (delivery_only_visible delivery))]
    | None =>
        if is_channel features wire_target then []
        else if existsb (has_tag message) CONTEXT_TAGS then []
        else
          let?? conversation := in_conversation i wire_target else [] in
          let display_target := shown_target i wire_target in
          if is_network_notice_target display_target || target_looks_like_service display_target features then []
          else [EvNotice (chat_event i conversation body display_target false)]
    end.

(** A chat line or, when the body is one, an emote. *)
Definition chat_or_action (body : str) (action : option str) (event : str -> ChatEvent) : list Event :=
  match action with
  | Some text => [EvAction (event text)]
  | None => [EvMessage (event body)]
  end.

Definition privmsg (i : Inbound) : list Event :=
  let message := in_message i in
  let features := in_features i in
  let wire_target := text_param message 0 in
  let body := text_param message 1 in
  let other_ctcp :=
    match parse_ctcp_request body with
    | Some ctcp => negb (str_eqb (ctcp_command ctcp) (lit "ACTION"))
    | None => false
    end in
  if other_ctcp then []
  else
    let action := action_text body in
    match nick_targeted_channel_delivery wire_target i with
    | Some delivery =>
        chat_or_action body action (fun text =>
          chat_event i (target_key (in_network i) (delivery_channel delivery) features) text
            (delivery_channel delivery) (delivery_only_visible delivery))
    | None =>
        let?? conversation := in_conversation i wire_target else [] in
        chat_or_action body action (fun text => chat_event i conversation text (shown_target i wire_target) false)
    end.

Definition tagmsg (i : Inbound) : list Event :=
  let message := in_message i in
  let?? value := tag_text message (lit "+typing") else [] in
  if is_empty (in_sender i) then []
  else
    let?? phase := typing_phase_from_tag value else [] in
    let?? conversation := in_conversation i (text_param message 0) else [] in
    [EvTyping (mkTyping conversation (in_sender i) phase (in_timestamp i))].

(** ** Membership and channel state (membership.rs) *)

Definition param_at_least (m : IrcMessage) (count : nat) : bool := (count <=? length (msg_params m))%nat.

Definition join (i : Inbound) : list Event :=
  let message := in_message i in
  [EvJoin (mkJoin (in_network i) (text_param message 0) (in_sender i)
    (if param_at_least message 2 then Some (text_param message 1) else None)
    (if param_at_least message 3 then Some (text_param message 2) else None))].

(** [account], [part], [quit], [nick], [kick], [topic], [mode] and [away]: one event each. *)
Definition account_line (i : Inbound) : list Event :=
  [EvAccount (mkAccount (in_network i) (in_sender i)
    (if is_empty (msg_params (in_message i)) then [] else text_param (in_message i) 0))].

Definition part (i : Inbound) : list Event :=
  [EvPart (mkPart (in_network i) (text_param (in_message i) 0) (in_sender i) (text_param (in_message i) 1))].

Definition quit (i : Inbound) : list Event :=
  [EvQuit (mkQuit (in_network i) (in_sender i) (text_param (in_message i) 0))].

Definition nick (i : Inbound) : list Event :=
  [EvNick (mkNick (in_network i) (in_sender i) (text_param (in_message i) 0))].

Definition kick (i : Inbound) : list Event :=
  let message := in_message i in
  [EvKick (mkKick (in_network i) (text_param message 0) (text_param message 1) (in_sender i) (text_param message 2))].

Definition topic (i : Inbound) : list Event :=
  [EvTopic (mkTopic (in_network i) (text_param (in_message i) 0) (text_param (in_message i) 1) (in_sender i) false)].

Definition topic_reply (i : Inbound) : list Event :=
  [EvTopic (mkTopic (in_network i) (text_param (in_message i) 1) (text_param (in_message i) 2) [] false)].

Definition topic_who_time (i : Inbound) : list Event :=
  [EvTopic (mkTopic (in_network i) (text_param (in_message i) 1) [] (text_param (in_message i) 2) true)].

Definition names (i : Inbound) : list Event :=
  let message := in_message i in
  let tokens := base.filter (fun token => is_empty token = false) (split_on (N.eqb (chr " ")) (text_param message 3)) in
  let entries := omap (parse_names_token (in_features i)) tokens in
  [EvNames (mkNames (in_network i) (text_param message 2)
    ((fun parsed => mkName (parsed_nick parsed) (parsed_ranks parsed)) <$> entries) false)].

Definition names_end (i : Inbound) : list Event :=
  [EvNames (mkNames (in_network i) (text_param (in_message i) 1) [] true)].

Definition remaining_params (message : IrcMessage) (start : nat) : list str :=
  text_param message <$> seq start (length (msg_params message) - start).

Definition mode (i : Inbound) : list Event :=
  let message := in_message i in
  [EvMode (mkMode (in_network i) (text_param message 0) (in_sender i) (text_param message 1) (remaining_params message 2))].

Definition away_line (i : Inbound) : list Event :=
  let message := in_message i in
  let value := if is_empty (msg_params message) then None else Some (mkAway (text_param message 0)) in
  [EvAway (mkAwayEvent (in_network i) (in_sender i) value None false)].

Definition self_away (i : Inbound) (away : bool) : list Event := [EvSelfAway (mkSelfAway (in_network i) away)].

(** ** Numerics and metadata (numerics.rs) *)

Definition is_go_int (value : str) : bool := bool_decide (is_Some (parse_i64 value)).
Definition all_digits (value : str) : bool := negb (is_empty value) && forallb is_ascii_digit (as_bytes value).

(** [who_reply_realname] and [realname_from_who] differ in what counts as a hop count. *)
Definition realname_behind (is_hop : str -> bool) (trailing : str) : str :=
  let trimmed := trim trailing in
  if is_empty trimmed then []
  else
    match split_once (N.eqb (chr " ")) trimmed with
    | None => if is_hop trimmed then [] else trimmed
    | Some (hop, rest) => if is_hop hop then trim rest else trimmed
    end.
Definition who_reply_realname (trailing : str) : str := realname_behind is_go_int trailing.
Definition realname_from_who (trailing : str) : str := realname_behind all_digits trailing.

Definition who_reply (i : Inbound) : list Event :=
  let message := in_message i in
  let nick := text_param message 5 in
  let flags := text_param message 6 in
  if is_empty nick then []
  else
    let trailing := text_param message 7 in
    let realname := who_reply_realname trailing in
    let realname := if is_empty realname then realname_from_who trailing else realname in
    [EvAway (mkAwayEvent (in_network i) nick
       (if bool_decide (head flags = Some (chr "G")) then Some (mkAway []) else None)
       (if is_empty realname then None else Some realname) false);
     EvNickFacts (mkNickFacts (in_network i) nick None (Some (existsb (N.eqb (chr "*")) flags)))].

Definition whois_realname (i : Inbound) : list Event :=
  let nick := text_param (in_message i) 1 in
  let realname := trim (text_param (in_message i) 5) in
  if is_empty nick || is_empty realname then []
  else [EvAway (mkAwayEvent (in_network i) nick None (Some realname) true)].

Definition whois_operator (i : Inbound) : list Event :=
  let nick := text_param (in_message i) 1 in
  if is_empty nick then [] else [EvNickFacts (mkNickFacts (in_network i) nick None (Some true))].

Definition whois_account (i : Inbound) : list Event :=
  let nick := text_param (in_message i) 1 in
  if is_empty nick then [] else [EvAccount (mkAccount (in_network i) nick (text_param (in_message i) 2))].

Definition member_metadata (network : str) (message : IrcMessage) (target_index : nat) (features : IrcServerFeatures)
    : option Event :=
  if negb (param_at_least message (target_index + 3)) then None
  else
    let target := text_param message target_index in
    let key_text := text_param message (target_index + 1) in
    if is_empty target || is_channel features target then None
    else
      let? canonical := canonical_key key_text in
      let value := clamped (text_param message (target_index + 3)) in
      if is_empty value then None else Some (EvMemberMetadata (mkMemberMetadata network target canonical value)).

Definition key_not_set_event (network : str) (message : IrcMessage) (features : IrcServerFeatures) : option Event :=
  if negb (param_at_least message 3) then None
  else
    let target := text_param message 1 in
    let key_text := text_param message 2 in
    if is_empty target || is_channel features target then None
    else
      let? canonical := canonical_key key_text in
      Some (EvMemberMetadata (mkMemberMetadata network target canonical [])).

Definition metadata (i : Inbound) (target_index : nat) : list Event :=
  option_list (member_metadata (in_network i) (in_message i) target_index (in_features i)).
Definition key_not_set (i : Inbound) : list Event :=
  option_list (key_not_set_event (in_network i) (in_message i) (in_features i)).

Definition one_of (words : list string) (command : str) : bool := existsb (fun word => str_eqb (lit word) command) words.
Definition is_join_failure_numeric (command : str) : bool :=
  one_of ["403"; "405"; "448"; "471"; "473"; "474"; "475"; "476"; "477"; "479"; "489"; "520"]%string command.
Definition is_ambiguous_join_failure_numeric (command : str) : bool := one_of ["437"; "480"; "485"]%string command.
Definition is_join_failure (command : str) : bool :=
  is_join_failure_numeric command || is_ambiguous_join_failure_numeric command.

Definition join_failure (i : Inbound) : list Event :=
  let channel := text_param (in_message i) 1 in
  if is_ambiguous_join_failure_numeric (in_command i) && negb (is_channel (in_features i) channel) then []
  else [EvChannelError (mkChannelError (in_network i) channel (text_param (in_message i) 2))].

(** ** The dispatch (mod.rs) *)

(** One arm per command; the first whose name and guard fit. *)
Definition dispatch (i : Inbound) : list Event :=
  let message := in_message i in
  let verb command := str_eqb (in_command i) (lit command) in
  let has count := param_at_least message count in
  if verb "NOTICE"%string && has 2%nat then notice i
  else if verb "PRIVMSG"%string && has 2%nat then privmsg i
  else if verb "TAGMSG"%string && has 1%nat then tagmsg i
  else if verb "JOIN"%string && has 1%nat then join i
  else if verb "ACCOUNT"%string && negb (is_empty (in_sender i)) then account_line i
  else if verb "330"%string && has 3%nat then whois_account i
  else if verb "PART"%string && has 1%nat then part i
  else if verb "QUIT"%string then quit i
  else if verb "NICK"%string && has 1%nat then nick i
  else if verb "KICK"%string && has 2%nat then kick i
  else if verb "TOPIC"%string && has 2%nat then topic i
  else if verb "332"%string && has 3%nat then topic_reply i
  else if verb "333"%string && has 3%nat then topic_who_time i
  else if verb "353"%string && has 4%nat then names i
  else if verb "366"%string && has 2%nat then names_end i
  else if verb "MODE"%string && has 2%nat then mode i
  else if verb "AWAY"%string && negb (is_empty (in_sender i)) then away_line i
  else if verb "306"%string then self_away i true
  else if verb "305"%string then self_away i false
  else if verb "352"%string && has 7%nat then who_reply i
  else if verb "311"%string && has 6%nat then whois_realname i
  else if verb "313"%string && has 2%nat then whois_operator i
  else if verb "CHGHOST"%string then []
  else if verb "METADATA"%string then metadata i 0
  else if verb "761"%string then metadata i 1
  else if verb "766"%string then key_not_set i
  else if is_join_failure (in_command i) && has 3%nat then join_failure i
  else [].

(** The account tag names the sender, whatever the command. *)
Definition account_tag (network : str) (message : IrcMessage) : list Event :=
  let sender := author message in
  match present_tag_value message (lit "account") with
  | Some value =>
      if prefix_is_user message && negb (is_empty sender) then [EvAccount (mkAccount network sender value)] else []
  | None => []
  end.

Definition inbound (network current_nick : str) (features : IrcServerFeatures) (message : IrcMessage) (now : Time)
    (joined : option JoinedMemberLookup) : Inbound :=
  mkInbound (ascii_upper (msg_command message)) network current_nick features message joined
    (author message) (timestamp_for message now) (server_time_of message).

Definition translate (network current_nick : str) (features : IrcServerFeatures) (message : IrcMessage) (now : Time)
    (joined : option JoinedMemberLookup) : list Event :=
  account_tag network message ++ dispatch (inbound network current_nick features message now joined).

(** ** Batch replay (history.rs) *)

(** [channel_membership_replay_line]: the first event of a join, part, quit or nick decides. *)
Fixpoint membership_body (batch_target : str) (features : IrcServerFeatures) (translated : list Event) : option str :=
  match translated with
  | [] => None
  | EvJoin e :: _ =>
      if is_empty (join_nick e) || negb (same features (join_to e) batch_target) then None
      else
        let shown :=
          match join_account e with
          | Some account => shown_account (same features account (join_nick e)) account
          | None => []
          end in
        Some (join_line (join_nick e) shown)
  | EvPart e :: _ =>
      if is_empty (part_nick e) || negb (same features (part_channel e) batch_target) then None
      else Some (part_line (part_nick e))
  | EvQuit e :: _ => if is_empty (quit_nick e) then None else Some (quit_line (quit_nick e))
  | EvNick e :: _ =>
      if is_empty (old_nick e) || is_empty (new_nick e) then None else Some (nick_line (old_nick e) (new_nick e))
  | _ :: translated => membership_body batch_target features translated
  end.

Definition channel_membership_replay_line (batch_target : str) (features : IrcServerFeatures) (message : IrcMessage)
    (translated : list Event) (server_time : option Time) (now : Time) : option ReplayLine :=
  if negb (is_channel features batch_target) then None
  else
    let? body := membership_body batch_target features translated in
    Some (mkReplay [] body (timestamp_for message now) TagEvent (msgid message) server_time false).

Definition bouncer_query_replay_line (batch_target : str) (features : IrcServerFeatures) (message : IrcMessage)
    (server_time : option Time) (now : Time) : option ReplayLine :=
  if negb (str_eqb (ascii_upper (msg_command message)) (lit "PRIVMSG")) || negb (param_at_least message 2) then None
  else if negb (routable_source message) then None
  else
    let wire_target := text_param message 0 in
    if is_channel features wire_target || is_network_notice_target wire_target
       || negb (prefix_is_user message) || is_service_source message features then None
    else
      let sender := author message in
      if is_empty sender || (negb (same features sender batch_target) && negb (same features wire_target batch_target))
      then None
      else
        let body := text_param message 1 in
        let other_ctcp :=
          match parse_ctcp_request body with
          | Some ctcp => negb (str_eqb (ctcp_command ctcp) (lit "ACTION"))
          | None => false
          end in
        if other_ctcp then None
        else
          let '(kind, body) := match action_text body with Some text => (TagEmote, text) | None => (TagChat, body) end in
          Some (mkReplay sender body (timestamp_for message now) kind (msgid message) server_time false).

(** The chat and emote events of the batch's own conversation. *)
Definition replay_event (conversation : ConversationKey) (server_time : option Time) (e : Event) : option ReplayLine :=
  let line value kind :=
    if decide (chat_conversation value = conversation)
    then Some (mkReplay (chat_author value) (chat_body value) (chat_timestamp value) kind (chat_msgid value)
                 server_time (chat_only_visible value))
    else None in
  match e with
  | EvMessage value => line value TagChat
  | EvAction value => line value TagEmote
  | _ => None
  end.

Definition replay_lines (network current_nick : str) (features : IrcServerFeatures) (target : str) (bouncer_query : bool)
    (now : Time) (joined : option JoinedMemberLookup) (message : IrcMessage) : list ReplayLine :=
  let server_time := server_time_of message in
  let translated := translate network current_nick features message now joined in
  match omap (replay_event (target_key network target features) server_time) translated with
  | [] =>
      match channel_membership_replay_line target features message translated server_time now with
      | Some membership => [membership]
      | None =>
          if bouncer_query then option_list (bouncer_query_replay_line target features message server_time now) else []
      end
  | kept => kept
  end.

Definition translate_history (network current_nick : str) (features : IrcServerFeatures) (batch : HistoryBatch)
    (now : Time) (joined : option JoinedMemberLookup) : option HistoryEvent :=
  if decide (batch_kind batch = Some Targets) then None
  else if is_empty (batch_target batch) then None
  else
    let channel_batch := is_channel features (batch_target batch) in
    let history_lookup := if channel_batch then joined else None in
    let bouncer_query := bool_decide (batch_kind batch = Some BouncerPlayback) && negb channel_batch in
    let lines :=
      mbind (replay_lines network current_nick features (batch_target batch) bouncer_query now history_lookup)
        (batch_lines batch) in
    Some (mkHistory (target_key network (batch_target batch) features) (batch_target batch) lines
            (default Chat (batch_kind batch)) (older_page batch)).
End Translator.

(** ** Channel context is confirmed *)

Definition chat_of (e : Event) : option ChatEvent :=
  match e with EvMessage c | EvNotice c | EvAction c => Some c | _ => None end.

(** A handler that makes no chat line. *)
Definition no_chat (events : list Event) : Prop := Forall (fun e => chat_of e = None) events.

Ltac no_chat := repeat (case_match; try apply Forall_nil_2); repeat (constructor; [done|]); try apply Forall_nil_2.

Section Context.
Context `{platform : Platform}.

Lemma dispatch_chat i e c : e ∈ dispatch i -> chat_of e = Some c -> e ∈ notice i \/ e ∈ privmsg i.
Proof.
  intros He Hc. unfold dispatch in He.
  assert (Hno : forall events, no_chat events -> e ∈ events -> e ∈ notice i \/ e ∈ privmsg i).
  { intros events H Hin. eapply Forall_forall in H; [|exact Hin]. congruence. }
  case_match; [by left|]. case_match; [by right|].
  repeat (case_match; [eapply Hno; [|exact He]; clear|]); last by apply elem_of_nil in He.
  all: unfold no_chat, tagmsg, join, account_line, part, quit, nick, kick, topic, topic_reply, topic_who_time, names,
    names_end, mode, away_line, self_away, who_reply, whois_realname, whois_operator, whois_account, metadata,
    member_metadata, key_not_set, key_not_set_event, join_failure; cbn zeta.
  all: no_chat.
Qed.

(** What a confirmed delivery says: the line names us, its context is one channel name, and the
    lookup places the sender in the channel it answers. *)
Definition confirmed (i : Inbound) (channel : str) : Prop :=
  exists lookup context,
    in_joined i = Some lookup /\ lookup context (in_sender i) = Some channel /\ in_sender i <> []
    /\ channel_context_text context (in_features i) = true /\ is_channel (in_features i) channel = true
    /\ same (in_features i) (text_param (in_message i) 0) (in_nick i) = true
    /\ is_channel (in_features i) (text_param (in_message i) 0) = false.

Lemma delivery_confirmed i d :
  nick_targeted_channel_delivery (text_param (in_message i) 0) i = Some d -> confirmed i (delivery_channel d).
Proof.
  unfold nick_targeted_channel_delivery, confirmed, channel_context_channel.
  destruct (List.find _ _) as [context|] eqn:E; [|done]. apply List.find_some in E as [_ E].
  destruct (is_channel (in_features i) (text_param _ 0)) eqn:E1; [done|].
  destruct (same (in_features i) (text_param _ 0) (in_nick i)) eqn:E2; [|done]. cbn [negb orb].
  destruct (in_sender i) as [|s sender]; [done|]. cbn [is_empty orb]. case_match; [done|].
  destruct (in_joined i) as [lookup|]; [|done]. destruct (lookup context (s :: sender)) as [canonical|] eqn:E3; [|done].
  destruct canonical as [|x canonical]; [done|]. cbn [is_empty orb].
  destruct (is_channel (in_features i) (x :: canonical)) eqn:E4; [|done]. intros [= <-].
  exists lookup, context. auto 8.
Qed.

Definition delivered (i : Inbound) (c : ChatEvent) : Prop :=
  chat_author c = in_sender i /\ (chat_only_visible c = true ->
    confirmed i (chat_target c) /\ chat_conversation c = target_key (in_network i) (chat_target c) (in_features i)).

Lemma chat_or_action_delivered i body action f e c :
  (forall text, delivered i (f text)) -> e ∈ chat_or_action body action f -> chat_of e = Some c -> delivered i c.
Proof.
  intros Hf. unfold chat_or_action. case_match; intros ->%list_elem_of_singleton [= <-]; apply Hf.
Qed.

Lemma notice_privmsg_delivered i e c : e ∈ notice i \/ e ∈ privmsg i -> chat_of e = Some c -> delivered i c.
Proof.
  intros [H|H]; revert H; unfold notice, privmsg; cbn zeta.
  - case_match; [by intros ?%elem_of_nil|].
    destruct (nick_targeted_channel_delivery _ i) as [d|] eqn:E.
    + intros ->%list_elem_of_singleton [= <-]. split; [done|]. intros _. split; [by apply delivery_confirmed|done].
    + repeat (case_match; [by intros ?%elem_of_nil|]). case_match; [|by intros ?%elem_of_nil].
      case_match; [by intros ?%elem_of_nil|]. by intros ->%list_elem_of_singleton [= <-].
  - destruct (match parse_ctcp_request _ with Some _ => _ | None => _ end); [by intros ?%elem_of_nil|].
    destruct (nick_targeted_channel_delivery _ i) as [d|] eqn:E.
    + apply chat_or_action_delivered. intros text. split; [done|]. intros _. split; [by apply delivery_confirmed|done].
    + case_match; [|by intros ?%elem_of_nil]. by apply chat_or_action_delivered.
Qed.

(** A chat line is attributed to the nick that sent it, and it is moved out of the direct
    messages into a channel only when the caller confirmed it: the line was addressed to us by
    nick, its context tag is one channel name, and the lookup placed the sender in the channel
    where the line is filed. *)
Theorem translated_chat_confirmed network current_nick features message now joined e c :
  e ∈ translate network current_nick features message now joined -> chat_of e = Some c ->
  chat_author c = author message
  /\ (chat_only_visible c = true -> exists lookup context,
        joined = Some lookup /\ lookup context (author message) = Some (chat_target c)
        /\ channel_context_text context features = true
        /\ is_channel features (chat_target c) = true
        /\ same features (text_param message 0) current_nick = true
        /\ chat_conversation c = target_key network (chat_target c) features).
Proof.
  unfold translate. intros [He|He]%elem_of_app Hc.
  - exfalso. revert He. unfold account_tag. repeat (case_match; try by intros ?%elem_of_nil). intros ->%list_elem_of_singleton. done.
  - eapply notice_privmsg_delivered in Hc; [|by eapply dispatch_chat]. destruct Hc as [Ha Hv]. split; [exact Ha|].
    intros Hvis. destruct (Hv Hvis) as [(lookup & context & H1 & H2 & _ & H3 & H4 & H5 & _) Hk].
    exists lookup, context. auto 8.
Qed.

Lemma replay_lines_query network current_nick features target bouncer_query now message :
  is_channel features target = false ->
  Forall (fun l => replay_only_visible l = false /\ replay_kind l <> TagEvent)
    (replay_lines network current_nick features target bouncer_query now None message).
Proof.
  intros Hch. unfold replay_lines. cbn zeta. destruct (omap _ _) as [|l ls] eqn:E.
  - unfold channel_membership_replay_line. rw Hch. cbn [negb]. destruct bouncer_query; [|by constructor].
    unfold bouncer_query_replay_line. cbn zeta. do 4 (case_match; [by constructor|]). case_match; [by constructor|].
    destruct (action_text _); by repeat constructor.
  - rw -E. apply Forall_forall. intros x (e & He & Hx)%list_elem_of_omap.
    assert (Hvis : forall c, chat_of e = Some c -> chat_only_visible c = false).
    { intros c Hc. eapply translated_chat_confirmed in Hc as [_ Hc]; [|exact He]. apply not_true_iff_false.
      intros (lookup & context & Hl & _)%Hc. done. }
    destruct e; cbn in Hx; try done; case_decide; simplify_eq/=; by split; [apply Hvis|].
Qed.

(** replaying the batch of a direct conversation never moves a line elsewhere: its lines are
    chat or emotes, none is marked as visible only to us, whatever context tags they carry and
    whatever the caller's lookup would answer. *)
Theorem query_replay_stays network current_nick features batch now joined event :
  translate_history network current_nick features batch now joined = Some event ->
  is_channel features (batch_target batch) = false ->
  history_conversation event = target_key network (batch_target batch) features
  /\ Forall (fun l => replay_only_visible l = false /\ replay_kind l <> TagEvent) (history_lines event).
Proof.
  unfold translate_history. case_decide; [done|]. case_match; [done|]. intros H1 Hch. rw Hch in H1. simplify_eq/=.
  split; [done|]. apply Forall_bind, Forall_true. intros m. by apply replay_lines_query.
Qed.
End Context.

(** ** At work *)
Definition sample_text (s : string) : bytes := lit s.
Definition sample_from (tags : list IrcTag) (who command : string) (params : list string) : IrcMessage :=
  mkMessage tags (Some (mkPrefix (sample_text who) (sample_text who) (sample_text "u") (sample_text "h"))) (lit command) (sample_text <$> params).
Definition sample_tag (name value : string) : IrcTag := mkTag (lit name) (Some (sample_text value)).
Definition sample_lookup : JoinedMemberLookup := fun channel sender => if str_eqb sender (lit "alice") then Some channel else None.
Definition sample_run (m : IrcMessage) := @translate toy_platform (lit "net") (lit "me") new_features m 7%Z (Some sample_lookup).
Definition sample_shown (e : Event) := (fun c => (normalized_target (chat_conversation c), chat_author c, chat_body c, chat_only_visible c)) <$> chat_of e.

Example translate_examples :
  sample_shown <$> sample_run (sample_from [] "alice" "PRIVMSG" ["me"; "hi"]) = [Some (lit "alice", lit "alice", lit "hi", false)]
  /\ sample_shown <$> sample_run (sample_from [] "me" "PRIVMSG" ["bob"; "hi"]) = [Some (lit "bob", lit "me", lit "hi", false)]
  /\ sample_shown <$> sample_run (sample_from [sample_tag "+draft/channel-context" "#room"] "alice" "PRIVMSG" ["me"; "hi"])
     = [Some (lit "#room", lit "alice", lit "hi", true)]
  /\ sample_shown <$> sample_run (sample_from [sample_tag "+draft/channel-context" "#room"] "mallory" "PRIVMSG" ["me"; "hi"])
     = [Some (lit "mallory", lit "mallory", lit "hi", false)]
  /\ sample_run (sample_from [] "NickServ" "PRIVMSG" ["me"; "hi"]) = []
  /\ sample_run (sample_from [sample_tag "account" "al"] "alice" "NICK" ["al"])
     = [EvAccount (mkAccount (lit "net") (lit "alice") (lit "al")); EvNick (mkNick (lit "net") (lit "alice") (lit "al"))]
  /\ sample_run (sample_from [] "s" "352" ["me"; "#r"; "u"; "h"; "s"; "bob"; "G*"; "0 Bob B"])
     = [EvAway (mkAwayEvent (lit "net") (lit "bob") (Some (mkAway [])) (Some (lit "Bob B")) false);
        EvNickFacts (mkNickFacts (lit "net") (lit "bob") None (Some true))]
  /\ sample_run (sample_from [] "s" "437" ["me"; "nick"; "busy"]) = []
  /\ sample_run (sample_from [] "s" "437" ["me"; "#room"; "busy"]) = [EvChannelError (mkChannelError (lit "net") (lit "#room") (lit "busy"))].
Proof. by vm_compute. Qed.

Definition sample_context_line : IrcMessage := sample_from [sample_tag "+draft/channel-context" "#room"] "alice" "PRIVMSG" ["me"; "hi"].
Definition sample_context_chat : ChatEvent :=
  mkChat (mkKey (lit "net") (lit "#room")) (lit "alice") (lit "hi") 7%Z None (lit "#room") [] true.

Lemma translated_chat_confirmed_witness :
  author sample_context_line = lit "alice" /\ exists found context,
    Some sample_lookup = Some found /\ found context (author sample_context_line) = Some (lit "#room")
    /\ channel_context_text context new_features = true /\ is_channel new_features (lit "#room") = true
    /\ same new_features (text_param sample_context_line 0) (lit "me") = true
    /\ mkKey (lit "net") (lit "#room") = target_key (lit "net") (lit "#room") new_features.
Proof.
  destruct (@translated_chat_confirmed toy_platform (lit "net") (lit "me") new_features sample_context_line 7%Z (Some sample_lookup)
    (EvMessage sample_context_chat) sample_context_chat) as [Ha Hv].
  - vm_compute. by left.
  - done.
  - split; [by vm_compute|]. by apply Hv.
Defined.

Definition sample_batch : HistoryBatch :=
  mkHistoryBatch (lit "alice") [sample_context_line; sample_from [] "alice" "JOIN" ["#room"]; sample_from [] "alice" "PRIVMSG" ["old"; "psst"]]
    (Some BouncerPlayback) false false false [].
Definition sample_replayed : HistoryEvent :=
  mkHistory (mkKey (lit "net") (lit "alice")) (lit "alice")
    [mkReplay (lit "alice") (lit "hi") 7%Z TagChat [] None false; mkReplay (lit "alice") (lit "psst") 7%Z TagChat [] None false]
    BouncerPlayback false.

Lemma query_replay_stays_witness :
  @translate_history toy_platform (lit "net") (lit "me") new_features sample_batch 7%Z (Some sample_lookup) = Some sample_replayed
  /\ Forall (fun l => replay_only_visible l = false /\ replay_kind l <> TagEvent) (history_lines sample_replayed).
Proof.
  assert (H : @translate_history toy_platform (lit "net") (lit "me") new_features sample_batch 7%Z (Some sample_lookup) = Some sample_replayed)
    by (vm_compute; reflexivity).
  split; [exact H|].
  apply (@query_replay_stays toy_platform (lit "net") (lit "me") new_features sample_batch 7%Z (Some sample_lookup) sample_replayed H).
  vm_compute. reflexivity.
Defined.
