(* ===== verification/ReducerState.v ===== *)
(** * ReducerState: what the reducer keeps
    (src/client/src/irc/world.rs, irc/reducer/state.rs, log.rs, facts.rs)

    A conversation is a transcript of rows with its live state; [Facts] is what is known about
    the networks. The transcript log and the list of closed channels live behind the traits
    [ConversationLog] and [ClosedStore]; here they are the class [Stores], so the reducer is
    proved for every implementation of them. Their writes go through a shared handle in Rust
    and are the new value of the handle here; the success flags the reducer ignores are left out.

    64-bit counters ([usize], [u64], [i64]) count admitted rows and are not wrapped; the 32-bit
    badges are. *)

From S2P Require Import Prelude Text CaseMapping ServerFeatures OrdMap SessionTypes Platform Typing.
From S2P Require Import Presence Events MembershipNoise.

(** ** Rows (world.rs) *)

Inductive MessageKind := KindMessage | KindNotice | KindAction | KindEvent | KindError | KindWhois.
#[export] Instance MessageKind_eq_dec : EqDecision MessageKind.
Proof. solve_decision. Defined.

Inductive Origin := Live | FromReplay.
#[export] Instance Origin_eq_dec : EqDecision Origin.
Proof. solve_decision. Defined.

(** [world::Message] *)
Record Row := mkRow {
  kind : MessageKind;
  row_author : str;
  body : str;
  time : Time;
  server_time : option Time;
  row_msgid : MsgId;
  origin : Origin;
  mentioned : bool;
  collapsible : bool;
  sequence : Z;
  only_visible_to_you : bool;
}.
#[export] Instance row_eta : Eta Row := fun r =>
  mkRow (kind r) (row_author r) (body r) (time r) (server_time r) (row_msgid r) (origin r) (mentioned r)
    (collapsible r) (sequence r) (only_visible_to_you r).

(** ** The transcript log and the closed list (log.rs, conversations.rs) *)

Record TranscriptLine := mkLine {
  line_timestamp : Time;
  line_author : str;
  line_kind : str;
  line_body : str;
  line_msgid : str;
  line_only_visible : bool;
}.

Class Stores := {
  Log : Type;
  log_append : Log -> str -> str -> IrcCaseMapping -> TranscriptLine -> Log;
  log_prepend : Log -> str -> str -> IrcCaseMapping -> list TranscriptLine -> Log;
  log_read_tail : Log -> str -> str -> IrcCaseMapping -> nat -> list TranscriptLine;
  Closed : Type;
  closed_contains : Closed -> str -> str -> IrcCaseMapping -> bool;
  closed_add : Closed -> str -> str -> IrcCaseMapping -> Closed;
  closed_remove : Closed -> str -> str -> IrcCaseMapping -> Closed;
}.

(** ** Conversations (state.rs) *)

Definition MAX_MESSAGES : nat := 2000.
Definition STALE_NAMES_SYNC_MS : N := 30000.

Record MemberState := mkMember { member_nick : str; ranks : IrcPrefixSet }.

(** [Option<TranscriptAnchor>] is the anchor's sequence. *)
Record ChannelState := mkChannel {
  members : gmap str MemberState;
  topic : str;
  joined : bool;
  names_syncing : bool;
  names_sync_started : option Time;
  history_anchor : option Z;
}.
#[export] Instance channel_eta : Eta ChannelState := fun c =>
  mkChannel (members c) (topic c) (joined c) (names_syncing c) (names_sync_started c) (history_anchor c).
Definition new_channel : ChannelState := mkChannel ∅ [] false false None None.

Record ConversationState := mkConversation {
  conv_key : ConversationKey;
  conv_target : str;
  messages : list Row;
  typing : btree TypingHint;
  unread : N;
  mentions : N;
  unread_mark : option Z;
  read_marker : option Time;
  muted : bool;
  trimmed : nat;
  message_ids : gset MsgId;
  splice_epoch : N;
  next_sequence : Z;
  history_page_cap_tail : bool;
  channel : option ChannelState;
}.
#[export] Instance conversation_eta : Eta ConversationState := fun c =>
  mkConversation (conv_key c) (conv_target c) (messages c) (typing c) (unread c) (mentions c) (unread_mark c)
    (read_marker c) (muted c) (trimmed c) (message_ids c) (splice_epoch c) (next_sequence c)
    (history_page_cap_tail c) (channel c).

(** [ConversationState::new] *)
Definition new_conversation (key : ConversationKey) (target : str) : ConversationState :=
  mkConversation key target [] [] 0 0 None None false 0 ∅ 0 0 false None.

(** [ConversationState::is_channel] *)
Definition conv_is_channel (c : ConversationState) : bool := bool_decide (is_Some (channel c)).

(** A write to the channel half, when there is one. *)
Definition update_channel (f : ChannelState -> ChannelState) (c : ConversationState) : ConversationState :=
  c <| channel := f <$> channel c |>.

Definition Store : Type := tree ConversationKey ConversationState.

(** [u32] addition. *)
Definition add_u32 (a b : N) : N := (a + b) mod 2 ^ 32.

(** [Option<T>::is_none] and the like, on whatever type. *)
Definition is_none {A} (o : option A) : bool := match o with None => true | Some _ => false end.

Section Facts.
Context `{stores : Stores}.

(** ** The facts of the networks (facts.rs) *)

Record Facts := mkNetFacts {
  net_features : gmap str IrcServerFeatures;
  current_nicks : gmap str str;
  self_nicks : gmap str bset;
  highlight_words : gmap str (list str);
  presence : gmap str NetworkPresence;
  self_away : gset str;
  selected : option ConversationKey;
  window_inactive : bool;
  membership_noise : MembershipNoise;
  muted_keys : gset ConversationKey;
  log : option Log;
  pending_playback : tree ConversationKey HistoryEvent;
  kept_playback_channel : gset ConversationKey;
  kept_replay : list KeptReplay;
  remembered_queries : list RememberedQuery;
  query_restore_pending : gset str;
  closed_channels : gset ConversationKey;
  closed_store : option Closed;
  mention_arrival : option MentionArrival;
  inbox_arrival : option InboxArrival;
  channel_context_msgids : gmap MsgId ConversationKey;
}.
#[export] Instance facts_eta : Eta Facts := fun f =>
  mkNetFacts (net_features f) (current_nicks f) (self_nicks f) (highlight_words f) (presence f) (self_away f)
    (selected f) (window_inactive f) (membership_noise f) (muted_keys f) (log f) (pending_playback f)
    (kept_playback_channel f) (kept_replay f) (remembered_queries f) (query_restore_pending f) (closed_channels f)
    (closed_store f) (mention_arrival f) (inbox_arrival f) (channel_context_msgids f).

Definition new_facts : Facts :=
  mkNetFacts ∅ ∅ ∅ ∅ ∅ ∅ None false Folded ∅ None [] ∅ [] [] ∅ ∅ None None None ∅.

(** ** Channel-context claims *)

Definition claim_channel_context (home : ConversationKey) (is_channel : bool) (msgid : MsgId) (only_visible : bool)
    (f : Facts) : Facts :=
  if is_empty msgid || negb is_channel || negb only_visible then f
  else f <| channel_context_msgids := <[msgid := home]> (channel_context_msgids f) |>.

Definition release_channel_context (home : ConversationKey) (msgid : MsgId) (f : Facts) : Facts :=
  if is_empty msgid then f
  else if decide (channel_context_msgids f !! msgid = Some home)
  then f <| channel_context_msgids := delete msgid (channel_context_msgids f) |> else f.

Definition channel_context_blocks_dm (f : Facts) (key : ConversationKey) (is_channel : bool) (msgid : MsgId) : bool :=
  if is_channel || is_empty msgid then false
  else match channel_context_msgids f !! msgid with
       | Some home => str_eqb (network_id home) (network_id key)
       | None => false
       end.

Definition clear_channel_context_network (network : str) (f : Facts) : Facts :=
  f <| channel_context_msgids := base.filter (fun e => network_id e.2 <> network) (channel_context_msgids f) |>.

Definition clear_channel_context_home (home : ConversationKey) (f : Facts) : Facts :=
  f <| channel_context_msgids := base.filter (fun e => e.2 <> home) (channel_context_msgids f) |>.

(** ** Identity *)

Definition features_of (f : Facts) (network : str) : IrcServerFeatures := default new_features (net_features f !! network).
Definition mapping_of (f : Facts) (network : str) : IrcCaseMapping := case_mapping (features_of f network).
Definition normalize_in (f : Facts) (network identifier : str) : str := normalize (mapping_of f network) identifier.
Definition equals_in (f : Facts) (network left right : str) : bool := equals (mapping_of f network) left right.

Definition is_self (f : Facts) (network nick : str) : bool :=
  match current_nicks f !! network with Some current => equals_in f network current nick | None => false end.

Definition is_channel_in (f : Facts) (network normalized_target : str) : bool :=
  is_channel (features_of f network) normalized_target.

(** ** Mentions *)

Section Mentions.
Context `{platform : Platform}.

Definition is_identifier_char (c : char) : bool :=
  is_alphabetic c || is_numeric c || existsb (N.eqb c) (lit "-_[]\`^{}|~").

(** Whether [word] stands at [position] of [body] between characters of no identifier. *)
Definition word_at (body word : str) (position : nat) : bool :=
  let stop := (position + length word)%nat in
  str_eqb (take (length word) (drop position body)) word
  && match position with
     | O => true
     | S before => negb (match body !! before with Some c => is_identifier_char c | None => false end)
     end
  && negb (match body !! stop with Some c => is_identifier_char c | None => false end).

Definition contains_word (body word : str) : bool :=
  if is_empty word then false
  else if (length body <? length word)%nat then false
  else existsb (word_at body word) (seq 0 (length body - length word + 1)).

Definition is_nick_mention (f : Facts) (network body : str) : bool :=
  match current_nicks f !! network with
  | Some current => contains_word (normalize_in f network body) (normalize_in f network current)
  | None => false
  end.

Definition is_highlight_hit (f : Facts) (network body : str) : bool :=
  match highlight_words f !! network with
  | Some words => existsb (fun word => contains_word (normalize_in f network body) (normalize_in f network word)) words
  | None => false
  end.

Definition is_mention (f : Facts) (network body : str) : bool :=
  is_nick_mention f network body || is_highlight_hit f network body.

Definition transcript_highlight (f : Facts) (network author : str) (kind : MessageKind) (body : str) : bool :=
  match kind with
  | KindMessage | KindAction => if is_self f network author then false else is_mention f network body
  | _ => false
  end.
End Mentions.

(** ** Presence *)

Definition presence_of (f : Facts) (network normalized_nick : str) : NickPresence :=
  lookup_presence normalized_nick (default ∅ (presence f !! network)).

Definition nick_presence (f : Facts) (network nick : str) : NickPresence :=
  if is_empty network || is_empty nick then default_presence
  else presence_of f network (normalize_in f network nick).

Definition display_account (f : Facts) (network nick : str) : str :=
  let value := account (nick_presence f network nick) in
  if is_empty value || is_empty nick then [] else if equals_in f network value nick then [] else value.

Definition peer_fact_labels (f : Facts) (network nick : str) : list str :=
  let facts := nick_presence f network nick in
  fact_labels facts (negb (is_empty (account facts)) && equals_in f network (account facts) nick).

(** [self.presence.entry(network).or_default()] and one write to it: the five setters and the rekey. *)
Definition update_presence (write : NetworkPresence -> NetworkPresence) (network : str) (f : Facts) : Facts :=
  f <| presence := <[network := write (default ∅ (presence f !! network))]> (presence f) |>.

(** ** Replay batches *)

Definition bouncer_query_own_line (f : Facts) (event : HistoryEvent) (author : str) : bool :=
  if negb (bool_decide (history_kind event = BouncerPlayback)) || is_empty author then false
  else
    let conversation := history_conversation event in
    if is_channel_in f (network_id conversation) (normalized_target conversation) then false
    else negb (equals_in f (network_id conversation) author (history_target event)).

Definition bouncer_channel_own_line (f : Facts) (event : HistoryEvent) (author : str) : bool :=
  if negb (bool_decide (history_kind event = BouncerPlayback)) || is_empty author then false
  else
    let network := network_id (history_conversation event) in
    if negb (is_channel_in f network (normalized_target (history_conversation event))) then false
    else match self_nicks f !! network with
         | Some nicks => existsb (fun own => equals (mapping_of f network) own author) (bs_elements nicks)
         | None => false
         end.

Definition replay_from_peer (f : Facts) (event : HistoryEvent) : bool :=
  let network := network_id (history_conversation event) in
  let bouncer_query := bool_decide (history_kind event = BouncerPlayback)
    && negb (is_channel_in f network (normalized_target (history_conversation event))) in
  existsb (fun line =>
    if is_empty (replay_author line) then false
    else if bouncer_query then negb (bouncer_query_own_line f event (replay_author line))
    else negb (is_self f network (replay_author line))) (history_lines event).

Definition replay_only_repeats_persisted_ids (f : Facts) (event : HistoryEvent) : bool :=
  match log f with
  | None => false
  | Some stored_log =>
      if is_empty (history_lines event) || existsb (fun line => is_empty (replay_msgid line)) (history_lines event) then false
      else
        let network := network_id (history_conversation event) in
        let stored := log_read_tail stored_log network (normalized_target (history_conversation event))
          (mapping_of f network) MAX_MESSAGES in
        forallb (fun line => existsb (fun saved => str_eqb (line_msgid saved) (replay_msgid line)) stored) (history_lines event)
  end.

Definition is_closed (f : Facts) (key : ConversationKey) : bool := bool_decide (key ∈ closed_channels f).

Definition remember_self_nick (network nick : str) (f : Facts) : Facts :=
  if is_empty network || is_empty nick then f
  else f <| self_nicks := <[network := bs_insert nick (default [] (self_nicks f !! network))]> (self_nicks f) |>.

(** Whether a normalized nick is a member of any channel of the network. *)
Definition is_visible (store : Store) (network normalized_nick : str) : bool :=
  existsb (fun conversation =>
    str_eqb (network_id (conv_key conversation)) network
    && match channel conversation with
       | Some channel => bool_decide (is_Some (members channel !! normalized_nick))
       | None => false
       end) (bt_values store).
End Facts.
