(* ===== verification/ReducerTranscript.v ===== *)
(** * ReducerTranscript: rows, the cap, the log and arrivals
    (src/client/src/irc/reducer/transcript.rs, and the marker test of readmarker.rs)

    A function that mutates the facts and a conversation together maps a pair of them to a
    pair. *)

From S2P Require Import Prelude Text CaseMapping ServerFeatures OrdMap SessionTypes Platform Typing.
From S2P Require Import Presence Events MembershipNoise ReducerState.

(** [covered]: a line sent at [server_time] is already read under [marker]. *)
Definition covered (marker server_time : option Time) : bool :=
  match marker, server_time with
  | Some marker, Some server_time => negb (read_marker_time_after server_time marker)
  | _, _ => false
  end.

Definition covered_by_read_marker (c : ConversationState) (server_time : option Time) : bool :=
  covered (read_marker c) server_time.

Definition admit_message (row : Row) (c : ConversationState) : ConversationState :=
  c <| messages := messages c ++ [row <| sequence := next_sequence c |>] |>
    <| next_sequence := (next_sequence c + 1)%Z |>.

(** Rows that are written to the log, and their tokens. *)
Definition persistable_kind (kind : MessageKind) : bool :=
  match kind with KindMessage | KindNotice | KindAction | KindEvent => true | _ => false end.

Definition kind_token (kind : MessageKind) : str :=
  match kind with
  | KindAction => lit "action"
  | KindEvent | KindError => lit "event"
  | KindWhois => lit "whois"
  | KindNotice => lit "notice"
  | KindMessage => lit "message"
  end.

Definition kind_from_token (token : str) : option MessageKind :=
  if str_eqb token (lit "action") then Some KindAction
  else if str_eqb token (lit "event") then Some KindEvent
  else if str_eqb token (lit "notice") then Some KindNotice
  else if str_eqb token (lit "message") then Some KindMessage
  else None.

Definition transcript_line (row : Row) : TranscriptLine :=
  mkLine (time row) (row_author row) (kind_token (kind row)) (body row) (row_msgid row) (only_visible_to_you row).

Inductive ChatLineReason := NickMention | Highlight | Direct.
#[export] Instance ChatLineReason_eq_dec : EqDecision ChatLineReason.
Proof. solve_decision. Defined.

(** [(reason, true)] is [Some reason]; the reason of a pair with [false] is never read. *)
Definition classify_chat_line (is_channel : bool) (kind : MessageKind) (self_author nick_hit highlight_hit : bool)
    : option ChatLineReason :=
  match kind with
  | KindMessage | KindAction =>
      if self_author then None
      else if nick_hit then Some NickMention
      else if highlight_hit then Some Highlight
      else if negb is_channel then Some Direct else None
  | _ => None
  end.

Definition inbox_kind_for (reason : ChatLineReason) : InboxKind :=
  match reason with NickMention => InboxMention | Highlight => InboxHighlight | Direct => InboxDirect end.

(** A mention or a highlight, which the badge counts. *)
Definition counts_as_mention (reason : option ChatLineReason) : bool :=
  match reason with Some NickMention | Some Highlight => true | _ => false end.

Section Transcript.
Context `{platform : Platform} `{stores : Stores}.

Abbreviation St := (Facts * ConversationState)%type (only parsing).

(** ** The cap *)

Definition forget_transcript_msgid (st : St) (msgid : MsgId) : St :=
  let '(f, c) := st in
  if is_empty msgid then st
  else (release_channel_context (conv_key c) msgid f, c <| message_ids := message_ids c ∖ {[msgid]} |>).

Definition forget_rows (rows : list Row) (st : St) : St := foldl forget_transcript_msgid st (row_msgid <$> rows).

(** [capMessages]: the oldest rows go. *)
Definition cap_messages (st : St) : St :=
  let extra := (length (messages st.2) - MAX_MESSAGES)%nat in
  if (length (messages st.2) <=? MAX_MESSAGES)%nat then st
  else
    let '(f, c) := forget_rows (take extra (messages st.2)) st in
    let c := c <| messages := drop extra (messages c) |> <| trimmed := (trimmed c + extra)%nat |> in
    (f, update_channel (fun channel =>
          match history_anchor channel with
          | Some anchor => if (anchor <? Z.of_nat (trimmed c))%Z then channel <| history_anchor := None |> else channel
          | None => channel
          end) c).

(** The tail-first trim of an older page. *)
Definition cap_messages_prefer_tail (st : St) : St :=
  let start := MAX_MESSAGES in
  if (length (messages st.2) <=? MAX_MESSAGES)%nat then st
  else
    let '(f, c) := forget_rows (drop start (messages st.2)) st in
    (f, c <| messages := take start (messages c) |>).

(** A row at [index] went: an anchor past it moves with the rows. *)
Definition shift_anchor_down (removed_index : nat) (c : ConversationState) : ConversationState :=
  update_channel (fun channel =>
    match history_anchor channel with
    | Some anchor =>
        if (Z.of_nat removed_index <? anchor - Z.of_nat (trimmed c))%Z
        then channel <| history_anchor := Some (anchor - 1)%Z |> else channel
    | None => channel
    end) c.

Definition drop_last_transcript_row (st : St) : St :=
  match last (messages st.2) with
  | None => st
  | Some row =>
      let removed_index := (length (messages st.2) - 1)%nat in
      let '(f, c) := forget_transcript_msgid st (row_msgid row) in
      (f, shift_anchor_down removed_index (c <| messages := removelast (messages c) |>))
  end.

(** ** The log *)

Definition persist_message (c : ConversationState) (row : Row) (f : Facts) : Facts :=
  match log f with
  | Some stored =>
      if negb (persistable_kind (kind row)) then f
      else
        let network := network_id (conv_key c) in
        f <| log := Some (log_append stored network (normalized_target (conv_key c)) (mapping_of f network) (transcript_line row)) |>
  | None => f
  end.

Definition persist_messages_prepend (c : ConversationState) (rows : list Row) (f : Facts) : Facts :=
  match log f with
  | Some stored =>
      let lines := transcript_line <$> base.filter (fun row => persistable_kind (kind row) = true) rows in
      if is_empty lines then f
      else
        let network := network_id (conv_key c) in
        f <| log := Some (log_prepend stored network (normalized_target (conv_key c)) (mapping_of f network) lines) |>
  | None => f
  end.

(** One stored line of the tail, unless its kind is unknown or its msgid is there already. *)
Definition hydrate_line (st : St) (line : TranscriptLine) : St :=
  let '(f, c) := st in
  let?? row_kind := kind_from_token (line_kind line) else st in
  let msgid := line_msgid line in
  let is_channel := conv_is_channel c in
  if negb (is_empty msgid)
     && (bool_decide (msgid ∈ message_ids c) || channel_context_blocks_dm f (conv_key c) is_channel msgid) then st
  else
    let c := if is_empty msgid then c else c <| message_ids := {[msgid]} ∪ message_ids c |> in
    let mentioned := transcript_highlight f (network_id (conv_key c)) (line_author line) row_kind (line_body line) in
    let c := admit_message (mkRow row_kind (line_author line) (line_body line) (line_timestamp line) None msgid
      FromReplay mentioned false 0 (line_only_visible line)) c in
    (claim_channel_context (conv_key c) is_channel msgid (line_only_visible line) f, c).

Definition hydrate_from_log (st : St) : St :=
  let '(f, c) := st in
  match log f with
  | None => st
  | Some stored =>
      let network := network_id (conv_key c) in
      let lines := log_read_tail stored network (normalized_target (conv_key c)) (mapping_of f network) MAX_MESSAGES in
      cap_messages (foldl hydrate_line st lines)
  end.

(** ** Arrivals *)

Record ChatArrival := mkArrival {
  arrival_author : str;
  arrival_body : str;
  arrival_kind : MessageKind;
  arrival_msgid : MsgId;
  arrival_sequence : Z;
  arrival_server_time : option Time;
  arrival_origin : Origin;
  arrival_history : option HistoryEvent;
}.

(** The badges of one line that is not ours and not covered by the marker. The recount from a
    read marker does the same to every row, so both use it. *)
Definition count_line (is_selected live window_inactive : bool) (reason : option ChatLineReason) (sequence : Z)
    (c : ConversationState) : ConversationState :=
  if (is_selected && live && negb window_inactive) || (is_selected && negb live && window_inactive) then c
  else
    let hold_focused_replay_mark := is_selected && negb live && negb (is_none (unread_mark c)) in
    let c := if (unread c =? 0) && negb hold_focused_replay_mark then c <| unread_mark := Some sequence |> else c in
    if is_selected && negb live then c
    else
      let c := c <| unread := add_u32 (unread c) 1 |> in
      if counts_as_mention reason && negb (muted c) then c <| mentions := add_u32 (mentions c) 1 |> else c.

Definition note_chat_arrival (key : ConversationKey) (a : ChatArrival) (st : St) : St :=
  let '(f, c) := st in
  if match arrival_history a with Some history => history_older_page history | None => false end then st
  else
    let network := network_id key in
    let self_author := is_self f network (arrival_author a)
      || match arrival_history a with
         | Some history => bouncer_query_own_line f history (arrival_author a) || bouncer_channel_own_line f history (arrival_author a)
         | None => false
         end in
    let nick_hit := is_nick_mention f network (arrival_body a) in
    let highlight_hit := negb nick_hit && is_highlight_hit f network (arrival_body a) in
    let reason := classify_chat_line (conv_is_channel c) (arrival_kind a) self_author nick_hit highlight_hit in
    if self_author then st
    else if covered_by_read_marker c (arrival_server_time a) then st
    else
      let is_selected := bool_decide (selected f = Some key) in
      let live := bool_decide (arrival_origin a = Live) in
      let f := match reason with
        | Some _ => if muted c then f
            else f <| mention_arrival :=
              Some (mkMention (arrival_author a) (arrival_body a) (network_id key) (conv_target c) (arrival_msgid a)) |>
        | None => f
        end in
      let f := match reason with
        | Some reason =>
            if live && negb (muted c) && negb is_selected && negb (bool_decide (reason = Direct))
            then f <| inbox_arrival := Some (mkInbox (inbox_kind_for reason) (arrival_author a) (arrival_body a)
                        (network_id key) (conv_target c) (arrival_msgid a)) |>
            else f
        | None => f
        end in
      (f, count_line is_selected live (window_inactive f) reason (arrival_sequence a) c).

(** ** Event, whois and error rows *)

Definition zero_time : Time := MIN_UTC.

Definition local_row (kind : MessageKind) (body : str) (collapsible : bool) : Row :=
  mkRow kind [] body zero_time None [] Live false collapsible 0 false.

(** Admit, persist and cap. *)
Definition admit_persisted (row : Row) (st : St) : St :=
  let '(f, c) := st in
  let c := admit_message row c in
  let f := match last (messages c) with Some row => persist_message c row f | None => f end in
  cap_messages (f, c).

(** The body of the newest row is replaced. *)
Definition set_last_body (body' : str) (c : ConversationState) : ConversationState :=
  c <| messages := alter (fun row => row <| body := body' |>) (length (messages c) - 1)%nat (messages c) |>.

Definition append_event (body' : str) (collapsible' membership : bool) (st : St) : St :=
  let '(f, c) := st in
  let noise := membership_noise f in
  if membership && bool_decide (noise = Hidden) then st
  else
    let collapsible' := if membership && bool_decide (noise = Every) then false else collapsible' in
    let admitted := admit_persisted (local_row KindEvent body' collapsible') st in
    match last (messages c) with
    | Some last_row =>
        if membership && bool_decide (noise = Folded) && bool_decide (kind last_row = KindEvent) && collapsible last_row then
          let folded := fold_membership (body last_row) body' (equals_in f (network_id (conv_key c))) in
          if decide (fold_kind folded = Cancel) then
            if drop_row folded then drop_last_transcript_row st else (f, set_last_body (fold_body folded) c)
          else if collapsible' then (f, set_last_body (fold_body folded) c)
          else admitted
        else admitted
    | None => admitted
    end.

Definition append_whois (body' : str) (st : St) : St :=
  cap_messages (st.1, admit_message (local_row KindWhois body' false) st.2).

Definition append_error (body' : str) (st : St) : St :=
  cap_messages (st.1, admit_message (local_row KindError body' false) st.2).

(** ** Replayed membership lines *)

Record ReplayMembership := mkReplayMembership {
  membership_text : str;
  membership_timestamp : Time;
  membership_msgid : MsgId;
  membership_server_time : option Time;
}.

(** What [fold_into] does to a row: nothing, because it is no caption, a new body, or removal. *)
Inductive RowFold := NoCaption | NewBody (body : str) | RowDropped.

Definition fold_into (f : Facts) (network : str) (row : Row) (line_body : str) : RowFold :=
  if negb (bool_decide (kind row = KindEvent)) || negb (collapsible row) then NoCaption
  else
    let folded := fold_membership (body row) line_body (equals_in f network) in
    if bool_decide (fold_kind folded = Cancel) && drop_row folded then RowDropped else NewBody (fold_body folded).

(** [MembershipReplayResult]: a new row, a folded line, or a folded line that removed a row. *)
Inductive MembershipReplayResult := AddedRow (sequence : Z) | FoldedAway | DroppedRow (sequence : Z).

(** The run being built and the place it will be spliced at. *)
Record Splice := mkSplice { facts : Facts; conv : ConversationState; run : list Row; at_ : nat }.
#[export] Instance splice_eta : Eta Splice := fun s => mkSplice (facts s) (conv s) (run s) (at_ s).

Definition set_body (body' : str) (row : Row) : Row := row <| body := body' |>.

(** The row the line meets: the last of the run, or the one above the splice point when the run
    is empty. *)
Definition fold_in_run (line : ReplayMembership) (s : Splice) : option (Splice * MembershipReplayResult) :=
  let? row := last (run s) in
  match fold_into (facts s) (network_id (conv_key (conv s))) row (membership_text line) with
  | NoCaption => None
  | NewBody body' => Some (s <| run := alter (set_body body') (length (run s) - 1)%nat (run s) |>, FoldedAway)
  | RowDropped =>
      let '(f, c) := forget_transcript_msgid (facts s, conv s) (row_msgid row) in
      Some (mkSplice f c (removelast (run s)) (at_ s), DroppedRow (sequence row))
  end.

Definition fold_above (line : ReplayMembership) (s : Splice) : option (Splice * MembershipReplayResult) :=
  if negb (is_empty (run s)) || (at_ s =? 0)%nat then None
  else
    let index := (at_ s - 1)%nat in
    let? row := messages (conv s) !! index in
    match fold_into (facts s) (network_id (conv_key (conv s))) row (membership_text line) with
    | NoCaption => None
    | NewBody body' =>
        Some (s <| conv := (conv s) <| messages := alter (set_body body') index (messages (conv s)) |> |>, FoldedAway)
    | RowDropped =>
        let '(f, c) := forget_transcript_msgid (facts s, conv s) (row_msgid row) in
        let c := shift_anchor_down index (c <| messages := delete index (messages c) |>) in
        Some (mkSplice f c (run s) index, DroppedRow (sequence row))
    end.

Definition admit_membership_replay (line : ReplayMembership) (s : Splice) : Splice * MembershipReplayResult :=
  let noise := membership_noise (facts s) in
  if decide (noise = Hidden) then (s, FoldedAway)
  else
    let show_each := bool_decide (noise = Every) in
    let folded := if show_each then None else
      match fold_in_run line s with Some folded => Some folded | None => fold_above line s end in
    match folded with
    | Some folded => folded
    | None =>
        let c := conv s in
        let sequence := next_sequence c in
        let row := mkRow KindEvent [] (membership_text line) (membership_timestamp line) (membership_server_time line)
          (membership_msgid line) FromReplay false (negb show_each) sequence false in
        ((s <| conv := c <| next_sequence := (sequence + 1)%Z |> |>) <| run := run s ++ [row] |>, AddedRow sequence)
    end.
End Transcript.
