(* ===== verification/ReducerSplice.v ===== *)
(** * ReducerSplice: a replay batch meets a transcript (src/client/src/irc/reducer/splice.rs)

    Where a batch lands, what it duplicates, and the merge itself. The queue of held batches is
    in Reducer, which owns the conversations. *)

From S2P Require Import Prelude Text CaseMapping ServerFeatures OrdMap SessionTypes Platform Typing.
From S2P Require Import Presence Events MembershipNoise ReducerState ReducerTranscript.

Inductive AnchorUse := Consume | Keep.
#[export] Instance AnchorUse_eq_dec : EqDecision AnchorUse.
Proof. solve_decision. Defined.

(** The position an anchor names, if it is still inside the transcript. *)
Definition anchor_index (c : ConversationState) (anchor : Z) : option nat :=
  let index := (anchor - Z.of_nat (trimmed c))%Z in
  if (index <? 0)%Z || (Z.of_nat (length (messages c)) <? index)%Z then None else Some (Z.to_nat index).

Definition peek_splice_index (c : ConversationState) : option nat :=
  match channel c with
  | None => Some (length (messages c))
  | Some half =>
      match history_anchor half with
      | None => if joined half then Some (length (messages c)) else None
      | Some anchor => anchor_index c anchor
      end
  end.

(** An anchor that no longer names a row is dropped. *)
Definition take_splice_index (c : ConversationState) : ConversationState * option nat :=
  match channel c with
  | None => (c, Some (length (messages c)))
  | Some half =>
      match history_anchor half with
      | None => (c, None)
      | Some anchor =>
          match anchor_index c anchor with
          | Some index => (c, Some index)
          | None => (update_channel (fun half => half <| history_anchor := None |>) c, None)
          end
      end
  end.

Definition matched_sequence (c : ConversationState) (run : list Row) (predicate : Row -> bool) : option Z :=
  sequence <$> List.find predicate (messages c ++ run).

Section Splice.
Context `{platform : Platform} `{stores : Stores}.

Definition same_replay_line (row : Row) (line : ReplayLine) (line_kind : MessageKind) (mapping : IrcCaseMapping) : bool :=
  if negb (bool_decide (kind row = line_kind)) || negb (str_eqb (body row) (replay_body line)) then false
  else if (time row =? zero_time)%Z || (replay_timestamp line =? zero_time)%Z then false
  else if negb (timestamp_millis (time row) =? timestamp_millis (replay_timestamp line))%Z then false
  else equals mapping (row_author row) (replay_author line).

Record PendingNote := mkNote { note_sequence : Z; note_server_time : option Time; keep_without_row : bool }.

(** A row that lost its place keeps the note of its line. *)
Definition keep_dropped (dropped : Z) (note : PendingNote) : PendingNote :=
  if (note_sequence note =? dropped)%Z then mkNote (note_sequence note) (note_server_time note) true else note.

Definition replay_row_kind (tag : MessageKindTag) : MessageKind :=
  if decide (tag = TagEmote) then KindAction else KindMessage.

Definition insert_id (msgid : MsgId) (c : ConversationState) : ConversationState :=
  if is_empty msgid then c else c <| message_ids := {[msgid]} ∪ message_ids c |>.

(** The loop body of [splice_history]. *)
Definition splice_line (event : HistoryEvent) (mapping : IrcCaseMapping) (st : Splice * list PendingNote) (line : ReplayLine)
    : Splice * list PendingNote :=
  let '(s, notes) := st in
  let f := facts s in
  let c := conv s in
  let msgid := replay_msgid line in
  let note sequence := mkNote sequence (replay_server_time line) false in
  if negb (is_empty msgid) && bool_decide (msgid ∈ message_ids c) then
    match matched_sequence c (run s) (fun row => str_eqb (row_msgid row) msgid) with
    | Some sequence => (s, notes ++ [note sequence])
    | None => st
    end
  else if channel_context_blocks_dm f (conv_key c) (conv_is_channel c) msgid then st
  else if decide (replay_kind line = TagEvent) then
    let s := s <| conv := insert_id msgid c |> in
    let '(s, result) := admit_membership_replay
      (mkReplayMembership (replay_body line) (replay_timestamp line) msgid (replay_server_time line)) s in
    match result with
    | AddedRow sequence => (s, notes ++ [note sequence])
    | FoldedAway => (s, notes ++ [mkNote 0 (replay_server_time line) true])
    | DroppedRow dropped => (s, (keep_dropped dropped <$> notes) ++ [mkNote 0 (replay_server_time line) true])
    end
  else
    let row_kind := replay_row_kind (replay_kind line) in
    let duplicate := matched_sequence c (run s) (fun row =>
      if negb (is_empty msgid) && negb (is_empty (row_msgid row)) && negb (str_eqb (row_msgid row) msgid) then false
      else same_replay_line row line row_kind mapping) in
    match duplicate with
    | Some sequence => (s, notes ++ [note sequence])
    | None =>
        let network := network_id (history_conversation event) in
        let c := insert_id msgid c in
        let sequence := next_sequence c in
        let row := mkRow row_kind (replay_author line) (replay_body line) (replay_timestamp line) (replay_server_time line)
          msgid FromReplay (transcript_highlight f network (replay_author line) row_kind (replay_body line)) false sequence
          (replay_only_visible line) in
        (mkSplice (claim_channel_context (conv_key c) (conv_is_channel c) msgid (replay_only_visible line) f)
           (c <| next_sequence := (sequence + 1)%Z |>) (run s ++ [row]) (at_ s),
         notes ++ [note sequence])
    end.

(** The arrival of one row of the run; membership rows make none. *)
Definition note_run_row (event : HistoryEvent) (st : Facts * ConversationState) (row : Row) : Facts * ConversationState :=
  if decide (kind row = KindEvent) then st
  else note_chat_arrival (history_conversation event)
         (mkArrival (row_author row) (body row) (kind row) (row_msgid row) (sequence row) (server_time row) FromReplay (Some event)) st.

(** The run goes in at [insert_at]: the log, the anchor, the epoch, the cap and the arrivals. *)
Definition insert_run (event : HistoryEvent) (previous_size : nat) (s : Splice) : Facts * ConversationState :=
  let c := conv s in
  let insert_at := Nat.min (at_ s) (length (messages c)) in
  let c := c <| messages := take insert_at (messages c) ++ run s ++ drop insert_at (messages c) |> in
  let f :=
    if (at_ s =? 0)%nat then persist_messages_prepend c (run s) (facts s)
    else foldl (fun f row => persist_message c row f) (facts s) (run s) in
  let c := update_channel (fun half =>
    half <| history_anchor := (fun anchor => anchor + Z.of_nat (length (run s)))%Z <$> history_anchor half |>) c in
  let c := if (at_ s =? previous_size)%nat then c else c <| splice_epoch := splice_epoch c + 1 |> in
  let capped :=
    if history_page_cap_tail c && bool_decide (history_kind event = Chat)
    then cap_messages_prefer_tail (f, c <| history_page_cap_tail := false |>)
    else cap_messages (f, c) in
  foldl (note_run_row event) capped (run s).

(** The lines that were kept, and the bouncer channel they were kept for. *)
Definition note_is_kept (c : ConversationState) (note : PendingNote) : bool :=
  keep_without_row note || existsb (fun row => (sequence row =? note_sequence note)%Z) (messages c).

Definition record_kept (event : HistoryEvent) (notes : list PendingNote) (st : Facts * ConversationState)
    : Facts * ConversationState :=
  let '(f, c) := st in
  let kept := base.filter (fun note => note_is_kept c note = true) notes in
  let network := network_id (history_conversation event) in
  let f := f <| kept_replay := kept_replay f ++
    ((fun server_time => mkKept network (history_target event) server_time) <$> omap note_server_time kept) |> in
  let f := if negb (is_empty kept) && bool_decide (history_kind event = BouncerPlayback) && conv_is_channel c
    then f <| kept_playback_channel := {[conv_key c]} ∪ kept_playback_channel f |> else f in
  (f, c).

(** Where the batch lands: the head for an older page, else the anchor. *)
Definition splice_index (event : HistoryEvent) (anchor_use : AnchorUse) (c : ConversationState)
    : ConversationState * option nat :=
  match anchor_use with
  | Consume =>
      if bool_decide (history_kind event = Chat) && history_older_page event then (c, Some 0%nat) else take_splice_index c
  | Keep => (c, peek_splice_index c)
  end.

Definition splice_history (event : HistoryEvent) (anchor_use : AnchorUse) (st : Facts * ConversationState)
    : Facts * ConversationState :=
  let '(f, c) := st in
  let older := bool_decide (history_kind event = Chat) && history_older_page event in
  let '(c, found) := splice_index event anchor_use c in
  let?? start := found else (f, c) in
  let previous_size := length (messages c) in
  let network := network_id (history_conversation event) in
  let '(s, notes) := foldl (splice_line event (mapping_of f network)) (mkSplice f c [] start, []) (history_lines event) in
  let saw_self := existsb (fun line => bouncer_query_own_line f event (replay_author line)) (history_lines event) in
  let membership_page := negb (is_empty (history_lines event))
    && forallb (fun line => bool_decide (replay_kind line = TagEvent)) (history_lines event) in
  let s := if saw_self
    then s <| facts := (facts s) <| remembered_queries := remembered_queries (facts s) ++
           [mkRemembered network (if is_empty (history_target event) then conv_target (conv s) else history_target event)] |> |>
    else s in
  let st :=
    if negb (is_empty (run s)) then insert_run event previous_size s
    else
      (facts s,
       if bool_decide (history_kind event = Chat) && (history_page_cap_tail (conv s) || older) && negb membership_page
       then (conv s) <| history_page_cap_tail := false |> else conv s) in
  record_kept event notes st.
End Splice.
