(* ===== verification/Reducer.v ===== *)
(** * Reducer: the fold of events into conversations
    (src/client/src/irc/reducer.rs and irc/reducer/: conversations.rs, handlers.rs, readmarker.rs
    and the held batches of splice.rs)

    One handler per event, in the order the code mutates, and the operations the controller
    calls between events. *)

From S2P Require Import Prelude Text CaseMapping ServerFeatures OrdMap SessionTypes Platform Typing.
From S2P Require Import Presence Events Conversation MembershipNoise ReducerState ReducerTranscript ReducerSplice.

Section Reducer.
Context `{platform : Platform} `{stores : Stores}.

Record EventReducer := mkReducer { conversations : Store; net_facts : Facts }.
#[export] Instance reducer_eta : Eta EventReducer := fun r => mkReducer (conversations r) (net_facts r).

Definition new_reducer : EventReducer := mkReducer [] new_facts.

Implicit Types r : EventReducer.

Definition set_facts (f : Facts -> Facts) r : EventReducer := r <| net_facts := f (net_facts r) |>.

(** [self.conversations.get_mut(&key)] and a mutation of the row and the facts. *)
Definition with_conversation (key : ConversationKey) (f : Facts * ConversationState -> Facts * ConversationState) r
    : EventReducer :=
  match bt_get key (conversations r) with
  | Some c => let '(facts, c) := f (net_facts r, c) in mkReducer (bt_insert key c (conversations r)) facts
  | None => r
  end.

Definition update_conversation (key : ConversationKey) (f : ConversationState -> ConversationState) r : EventReducer :=
  with_conversation key (fun st => (st.1, f st.2)) r.

(** A loop over [self.conversations.values_mut()] that skips the other networks. *)
Definition each_of_network (network : str) (f : Facts * ConversationState -> Facts * ConversationState) r : EventReducer :=
  let step facts c := if str_eqb (network_id (conv_key c)) network then f (facts, c) else (facts, c) in
  let '(facts, store) := bt_traverse step (net_facts r) (conversations r) in mkReducer store facts.

(** ** Creating, finding and dropping conversations *)

Definition conversation_key r (network target : str) : ConversationKey :=
  mkKey network (normalize_in (net_facts r) network target).

Definition find r (key : ConversationKey) : option ConversationState := bt_get key (conversations r).

Definition persisted_closed r (key : ConversationKey) : bool :=
  match closed_store (net_facts r) with
  | Some store =>
      if is_empty (network_id key) || is_empty (normalized_target key) then false
      else closed_contains store (network_id key) (normalized_target key) (mapping_of (net_facts r) (network_id key))
  | None => false
  end.

Definition ensure_key (key : ConversationKey) (display_target : str) (cause : IrcConversationCause) r : EventReducer * bool :=
  if bt_contains key (conversations r) then (r, true)
  else
    let features := features_of (net_facts r) (network_id key) in
    let target_is_channel := is_channel features (normalized_target key) in
    let looks_like_service := target_looks_like_service display_target features in
    if negb (inserts cause target_is_channel looks_like_service) then (r, false)
    else if target_is_channel && (is_closed (net_facts r) key || persisted_closed r key) then (r, false)
    else
      let c := (new_conversation key display_target) <| muted := bool_decide (key ∈ muted_keys (net_facts r)) |> in
      let c := if target_is_channel then c <| channel := Some new_channel |> else c in
      let '(f, c) := hydrate_from_log (net_facts r, c) in
      (mkReducer (bt_insert key c (conversations r)) f, true).

Definition ensure_conversation (key : ConversationKey) (display_target : str) (cause : IrcConversationCause) r
    : EventReducer * option ConversationState :=
  let '(r, exists_) := ensure_key key display_target cause r in
  (r, if exists_ then find r key else None).

Definition remove_conversation (key : ConversationKey) r : EventReducer :=
  let r := if decide (selected (net_facts r) = Some key) then set_facts (fun f => f <| selected := None |>) r else r in
  let r := set_facts (clear_channel_context_home key) r in
  r <| conversations := bt_remove key (conversations r) |>.

Definition drop_direct_message (key : ConversationKey) r : EventReducer * bool :=
  match find r key with
  | Some c => if conv_is_channel c then (r, false) else (remove_conversation key r, true)
  | None => (r, false)
  end.

Definition drop_channel (key : ConversationKey) r : EventReducer * bool :=
  match find r key with
  | Some c => if conv_is_channel c then (remove_conversation key r, true) else (r, false)
  | None => (r, false)
  end.

(** The close marks, and the persisted list beside them. *)
Definition update_closed_store (f : Closed -> str -> str -> IrcCaseMapping -> Closed) (key : ConversationKey) r : EventReducer :=
  match closed_store (net_facts r) with
  | Some store =>
      set_facts (fun facts => facts <| closed_store :=
        Some (f store (network_id key) (normalized_target key) (mapping_of facts (network_id key))) |>) r
  | None => r
  end.

Definition note_closed (key : ConversationKey) r : EventReducer :=
  if is_empty (network_id key) || is_empty (normalized_target key) then r
  else r ▷ set_facts (fun f => f <| closed_channels := {[key]} ∪ closed_channels f |>) ▷ update_closed_store closed_add key.

Definition clear_closed (key : ConversationKey) r : EventReducer :=
  r ▷ set_facts (fun f => f <| closed_channels := closed_channels f ∖ {[key]} |>) ▷ update_closed_store closed_remove key.

Definition clear_closed_network (network : str) r : EventReducer :=
  if is_empty network then r
  else set_facts (fun f => f <| closed_channels := base.filter (fun key => network_id key <> network) (closed_channels f) |>) r.

(** ** NAMES *)

Definition start_names_sync (now : Time) (half : ChannelState) : ChannelState :=
  ((half <| members := ∅ |>) <| names_syncing := true |>) <| names_sync_started := Some now |>.

Definition stop_names_sync (half : ChannelState) : ChannelState :=
  (half <| names_syncing := false |>) <| names_sync_started := None |>.

(** Our own leave: no members, no anchor, no sync. *)
Definition leave_channel (half : ChannelState) : ChannelState :=
  stop_names_sync (((half <| joined := false |>) <| history_anchor := None |>) <| members := ∅ |>).

Definition mark_channel_left (key : ConversationKey) r : EventReducer * bool :=
  match find r key with
  | Some c =>
      if conv_is_channel c then
        (update_conversation key (fun c =>
           ((update_channel leave_channel c) <| history_page_cap_tail := false |>) <| typing := [] |>) r, true)
      else (r, false)
  | None => (r, false)
  end.

Definition release_stale_names_sync (key : option ConversationKey) (now : Time) r : EventReducer * bool :=
  let?? key := key else (r, false) in
  let?? c := find r key else (r, false) in
  let?? half := channel c else (r, false) in
  if negb (names_syncing half) then (r, false)
  else if match names_sync_started half with
          | Some started => (now - started <? from_millis STALE_NAMES_SYNC_MS)%Z
          | None => false
          end then (r, false)
  else (update_conversation key (update_channel stop_names_sync) r, true).

(** ** Held batches (splice.rs) *)

Definition drop_pending_playback (network : str) r : EventReducer :=
  if is_empty network then r
  else set_facts (fun f => f <| pending_playback :=
    bt_retain (fun key _ => negb (str_eqb (network_id key) network)) (pending_playback f) |>) r.

Definition drop_kept_playback (network : str) r : EventReducer :=
  if is_empty network then r
  else set_facts (fun f => f <| kept_playback_channel :=
    base.filter (fun key => network_id key <> network) (kept_playback_channel f) |>) r.

Definition splice_into (key : ConversationKey) (event : HistoryEvent) (anchor_use : AnchorUse) r : EventReducer :=
  with_conversation key (splice_history event anchor_use) r.

Definition extend_batch (lines : list ReplayLine) (held : HistoryEvent) : HistoryEvent :=
  held <| history_lines := history_lines held ++ lines |>.

Definition hold_pending_playback (event : HistoryEvent) r : EventReducer :=
  if is_empty (history_lines event) then r
  else
    let key := history_conversation event in
    let held := match bt_get key (pending_playback (net_facts r)) with
      | Some held => extend_batch (history_lines event) held
      | None => event
      end in
    set_facts (fun f => f <| pending_playback := bt_insert key held (pending_playback f) |>) r.

Definition forget_pending (key : ConversationKey) r : EventReducer :=
  set_facts (fun f => f <| pending_playback := bt_remove key (pending_playback f) |>) r.

(** [None]: no batch is held, and the event was not handled. *)
Definition absorb_pending_query_playback (event : HistoryEvent) r : option EventReducer :=
  let key := history_conversation event in
  let network := network_id key in
  let? held := bt_get key (pending_playback (net_facts r)) in
  let held := extend_batch (history_lines event) held in
  let r := set_facts (fun f => f <| pending_playback := bt_insert key held (pending_playback f) |>) r in
  let restoring := bool_decide (network ∈ query_restore_pending (net_facts r)) in
  let finish r := if restoring then r else forget_pending key r in
  let deliver r := splice_into key held Consume (forget_pending key r) in
  Some (
    if negb (replay_from_peer (net_facts r) held) then finish r
    else if bt_contains key (conversations r) then deliver r
    else if replay_only_repeats_persisted_ids (net_facts r) held then finish r
    else
      let '(r, exists_) := ensure_key key (history_target held) InboundOther r in
      if exists_ then deliver r else r).

Definition release_pending_playback (key : ConversationKey) r : EventReducer :=
  match bt_get key (pending_playback (net_facts r)) with
  | Some event => splice_into key event Keep (forget_pending key r)
  | None => r
  end.

(** One key of the loop of [release_pending_query_playback]. *)
Definition release_query (st : EventReducer * bool) (key : ConversationKey) : EventReducer * bool :=
  let '(r, changed) := st in
  match bt_get key (pending_playback (net_facts r)) with
  | None => st
  | Some event =>
      let r := forget_pending key r in
      if bt_contains key (conversations r) then (splice_into key event Consume r, true)
      else if negb (replay_from_peer (net_facts r) event) then (r, changed)
      else if replay_only_repeats_persisted_ids (net_facts r) event then (r, changed)
      else
        let '(r, exists_) := ensure_key key (history_target event) InboundOther r in
        if exists_ then (splice_into key event Consume r, true) else (r, changed)
  end.

Definition release_pending_query_playback (network : str) r : EventReducer * bool :=
  if is_empty network then (r, false)
  else
    let r := set_facts (fun f => f <| query_restore_pending := query_restore_pending f ∖ {[network]} |>) r in
    let keys := base.filter (fun key => str_eqb (network_id key) network
      && negb (is_channel_in (net_facts r) network (normalized_target key)) = true) (bt_keys (pending_playback (net_facts r))) in
    foldl release_query (r, false) keys.

Definition reduce_history (event : HistoryEvent) r : EventReducer :=
  let key := history_conversation event in
  let network := network_id key in
  let bouncer := bool_decide (history_kind event = BouncerPlayback) in
  let channel_target := is_channel_in (net_facts r) network (normalized_target key) in
  if bouncer && channel_target then
    let is_joined := match find r key with
      | Some c => match channel c with Some half => joined half | None => false end
      | None => false
      end in
    if is_joined then splice_into key event Keep r else hold_pending_playback event r
  else
    match (if bouncer then absorb_pending_query_playback event r else None) with
    | Some r => r
    | None =>
        if bt_contains key (conversations r) then splice_into key event Consume r
        else if channel_target || bool_decide (history_kind event = Chat) then r
        else if negb (replay_from_peer (net_facts r) event) then
          if bouncer && bool_decide (network ∈ query_restore_pending (net_facts r)) then hold_pending_playback event r else r
        else if replay_only_repeats_persisted_ids (net_facts r) event then r
        else
          let '(r, exists_) := ensure_key key (history_target event) InboundOther r in
          if exists_ then splice_into key event Consume r else r
    end.

(** ** What the controller sets *)

Definition network_facts_forgotten (network : str) (f : Facts) : Facts :=
  let f := f <| net_features := delete network (net_features f) |> in
  let f := f <| current_nicks := delete network (current_nicks f) |> in
  let f := f <| self_nicks := delete network (self_nicks f) |> in
  let f := f <| highlight_words := delete network (highlight_words f) |> in
  let f := f <| presence := delete network (presence f) |> in
  let f := f <| self_away := self_away f ∖ {[network]} |> in
  let f := f <| muted_keys := base.filter (fun key => network_id key <> network) (muted_keys f) |> in
  match selected f with
  | Some key => if str_eqb (network_id key) network then f <| selected := None |> else f
  | None => f
  end.

Definition forget_network (network : str) r : EventReducer :=
  if is_empty network then r
  else
    let r := r ▷ drop_pending_playback network ▷ drop_kept_playback network in
    let r := set_facts (fun f => f <| query_restore_pending := query_restore_pending f ∖ {[network]} |>) r in
    let r := r ▷ clear_closed_network network ▷ set_facts (clear_channel_context_network network) in
    let r := r <| conversations := bt_retain (fun key _ => negb (str_eqb (network_id key) network)) (conversations r) |> in
    set_facts (network_facts_forgotten network) r.

Definition clear_messages (key : ConversationKey) r : EventReducer :=
  update_conversation key (fun c =>
    let c := c <| trimmed := (trimmed c + length (messages c))%nat |> in
    let c := c <| messages := [] |> in
    let c := c <| splice_epoch := splice_epoch c + 1 |> in
    update_channel (fun half => half <| history_anchor := None |>) c) r.

Definition set_muted (key : ConversationKey) (value : bool) r : EventReducer :=
  if is_empty (network_id key) || is_empty (normalized_target key) then r
  else
    let r := set_facts (fun f => f <| muted_keys :=
      if value then {[key]} ∪ muted_keys f else muted_keys f ∖ {[key]} |>) r in
    update_conversation key (fun c =>
      let c := c <| muted := value |> in if value then c <| mentions := 0 |> else c) r.

Definition clear_badges (c : ConversationState) : ConversationState := (c <| unread := 0 |>) <| mentions := 0 |>.

Definition mark_selected (key : ConversationKey) r : EventReducer :=
  if decide (selected (net_facts r) = Some key) then r
  else
    r ▷ set_facts (fun f => f <| selected := Some key |>)
      ▷ update_conversation key (fun c =>
          clear_badges (if unread c =? 0 then c <| unread_mark := None |> else c)).

Definition mark_read (key : ConversationKey) r : EventReducer * bool :=
  match find r key with
  | Some c =>
      if (unread c =? 0) && (mentions c =? 0) then (r, false) else (update_conversation key clear_badges r, true)
  | None => (r, false)
  end.

Definition mark_all_read r : EventReducer * bool :=
  let step changed c :=
    if (unread c =? 0) && (mentions c =? 0) then (changed, c) else (true, clear_badges c) in
  let '(changed, store) := bt_traverse step false (conversations r) in
  (r <| conversations := store |>, changed).

(** The flags and handles the controller hands over. *)
Definition clear_selection r : EventReducer := set_facts (fun f => f <| selected := None |>) r.
Definition set_membership_noise (noise : MembershipNoise) r : EventReducer :=
  set_facts (fun f => f <| membership_noise := noise |>) r.
Definition set_window_active (active : bool) r : EventReducer :=
  set_facts (fun f => f <| window_inactive := negb active |>) r.
Definition set_conversation_log (stored : option Log) r : EventReducer := set_facts (fun f => f <| log := stored |>) r.
Definition set_closed_persistence (store : Closed) r : EventReducer :=
  set_facts (fun f => f <| closed_store := Some store |>) r.

(** What the controller takes out of the facts. *)
Definition take_mention_arrival r : EventReducer * option MentionArrival :=
  (set_facts (fun f => f <| mention_arrival := None |>) r, mention_arrival (net_facts r)).
Definition take_inbox_arrival r : EventReducer * option InboxArrival :=
  (set_facts (fun f => f <| inbox_arrival := None |>) r, inbox_arrival (net_facts r)).
Definition take_remembered_queries r : EventReducer * list RememberedQuery :=
  (set_facts (fun f => f <| remembered_queries := [] |>) r, remembered_queries (net_facts r)).
Definition take_kept_replay r : EventReducer * list KeptReplay :=
  (set_facts (fun f => f <| kept_replay := [] |>) r, kept_replay (net_facts r)).

Definition set_history_page_cap_tail (value : bool) (key : ConversationKey) r : EventReducer :=
  update_conversation key (fun c => c <| history_page_cap_tail := value |>) r.

Definition refresh_row (f : Facts) (network : str) (row : Row) : Row :=
  row <| mentioned := transcript_highlight f network (row_author row) (kind row) (body row) |>.

Definition refresh_mentions (network : str) r : EventReducer :=
  each_of_network network (fun st =>
    (st.1, (st.2) <| messages := refresh_row st.1 network <$> messages st.2 |>)) r.

Definition set_server_features (network : str) (features : IrcServerFeatures) r : EventReducer :=
  r ▷ set_facts (fun f => f <| net_features := <[network := features]> (net_features f) |>) ▷ refresh_mentions network.

Definition set_highlight_words (network : str) (words : list str) r : EventReducer :=
  if is_empty network then r
  else
    r ▷ set_facts (fun f => f <| highlight_words :=
          if is_empty words then delete network (highlight_words f) else <[network := words]> (highlight_words f) |>)
      ▷ refresh_mentions network.

Definition clear_typing_facts (network : str) r : EventReducer :=
  each_of_network network (fun st => (st.1, (st.2) <| typing := [] |>)) r.

Definition clear_presence_facts (network : str) (away metadata : bool) r : EventReducer :=
  match presence (net_facts r) !! network with
  | None => r
  | Some known =>
      let known := if away then clear_away known else known in
      let known := if metadata then clear_metadata known else known in
      set_facts (fun f => f <| presence := <[network := known]> (presence f) |>) r
  end.

(** ** The server's read marker (readmarker.rs) *)

(** The time a row is read by: a replayed row without a server time keeps its stored one. *)
Definition read_time (row : Row) : option Time :=
  match server_time row with
  | Some t => Some t
  | None => if bool_decide (origin row = FromReplay) && negb (time row =? zero_time)%Z then Some (time row) else None
  end.

Definition is_chat_kind (kind : MessageKind) : bool :=
  match kind with KindMessage | KindAction | KindNotice => true | _ => false end.

Definition recount_row (f : Facts) (key : ConversationKey) (c : ConversationState) (row : Row) : ConversationState :=
  let network := network_id key in
  if negb (is_chat_kind (kind row)) then c
  else if is_self f network (row_author row) then c
  else if covered (read_marker c) (read_time row) then c
  else
    let nick_hit := is_nick_mention f network (body row) in
    let highlight_hit := negb nick_hit && is_highlight_hit f network (body row) in
    let reason := classify_chat_line (conv_is_channel c) (kind row) false nick_hit highlight_hit in
    count_line (bool_decide (selected f = Some key)) (bool_decide (origin row = Live)) (window_inactive f) reason
      (sequence row) c.

Definition recount_unread_from_read_marker (f : Facts) (key : ConversationKey) (c : ConversationState) : ConversationState :=
  foldl (recount_row f key) (clear_badges c <| unread_mark := None |>) (messages c).

Definition apply_server_read_marker (key : ConversationKey) (marker : option Time) r : EventReducer * bool :=
  let?? marker := marker else (r, false) in
  let marker := read_marker_time_millis marker in
  let?? c := find r key else (r, false) in
  if match read_marker c with Some current => negb (read_marker_time_after marker current) | None => false end
  then (r, false)
  else
    (with_conversation key (fun st =>
       (st.1, recount_unread_from_read_marker st.1 key ((st.2) <| read_marker := Some marker |>))) r, true).

Definition latest_server_message_time (c : ConversationState) : option Time :=
  head (omap (fun row =>
    let? t := server_time row in if is_chat_kind (kind row) then Some (read_marker_time_millis t) else None)
    (rev (messages c))).

(** ** Live chat (transcript.rs) *)

Record ChatLine := mkChatLine {
  chat_key : ConversationKey;
  chat_display_target : str;
  chat_event : ChatEvent;
  chat_kind : MessageKind;
}.

Definition admit_chat (line : ChatLine) (st : Facts * ConversationState) : Facts * ConversationState :=
  let '(f, c) := st in
  let e := chat_event line in
  let key := chat_key line in
  let msgid := chat_msgid e in
  let is_channel := conv_is_channel c in
  if negb (is_empty msgid)
     && (bool_decide (msgid ∈ message_ids c) || channel_context_blocks_dm f key is_channel msgid) then st
  else
    let c := insert_id msgid c in
    let mentioned := transcript_highlight f (network_id key) (chat_author e) (chat_kind line) (chat_body e) in
    let row := mkRow (chat_kind line) (chat_author e) (chat_body e) (chat_timestamp e) (chat_server_time e) msgid Live
      mentioned false (next_sequence c) (chat_only_visible e) in
    let c := admit_message row c in
    let f := claim_channel_context key is_channel msgid (chat_only_visible e) f in
    let f := persist_message c row f in
    let '(f, c) := cap_messages (f, c) in
    let c := c <| typing := bt_remove (normalize_in f (network_id key) (chat_author e)) (typing c) |> in
    note_chat_arrival key (mkArrival (chat_author e) (chat_body e) (chat_kind line) msgid (sequence row) (server_time row)
      Live None) (f, c).

Definition append_chat (line : ChatLine) r : EventReducer :=
  let key := chat_key line in
  let self_author := is_self (net_facts r) (network_id key) (chat_author (chat_event line)) in
  let cause := if self_author then InboundSelf else InboundOther in
  let '(r, exists_) := ensure_key key (chat_display_target line) cause r in
  if exists_ then with_conversation key (admit_chat line) r else r.

(** ** The handlers (handlers.rs) *)

Definition display_target (key : ConversationKey) (target : str) : str :=
  if is_empty target then normalized_target key else target.

Definition reduce_chat (kind : MessageKind) (e : ChatEvent) r : EventReducer :=
  let key := chat_conversation e in
  append_chat (mkChatLine key (display_target key (chat_target e)) e kind) r.

(** What a welcome does to one conversation of the network. *)
Definition welcome_conversation (c : ConversationState) : ConversationState :=
  let reset half :=
    stop_names_sync (((half <| members := ∅ |>) <| joined := false |>) <| history_anchor := None |>) in
  ((update_channel reset c) <| history_page_cap_tail := false |>) <| typing := [] |>.

Definition welcome_facts (e : WelcomeEvent) (f : Facts) : Facts :=
  let network := welcome_network e in
  let f := f <| query_restore_pending := {[network]} ∪ query_restore_pending f |> in
  let f := match current_nicks f !! network with Some current => remember_self_nick network current f | None => f end in
  let f := remember_self_nick network (welcome_nick e) f in
  let f := f <| current_nicks := <[network := welcome_nick e]> (current_nicks f) |> in
  let f := f <| presence := alter (fun _ => ∅) network (presence f) |> in
  f <| self_away := self_away f ∖ {[network]} |>.

Definition reduce_welcome (e : WelcomeEvent) r : EventReducer :=
  let network := welcome_network e in
  r ▷ drop_pending_playback network ▷ drop_kept_playback network ▷ clear_closed_network network
    ▷ set_facts (welcome_facts e)
    ▷ each_of_network network (fun st => (st.1, welcome_conversation st.2))
    ▷ refresh_mentions network.

(** The member of a JOIN keeps the ranks a NAMES list gave it; our own join plants the anchor. *)
Definition join_channel (e : JoinEvent) (normalized : str) (self_join : bool) (body : str)
    (st : Facts * ConversationState) : Facts * ConversationState :=
  let '(f, c) := st in
  match channel c with
  | None => st
  | Some half =>
      let kept := default 0 (ranks <$> members half !! normalized) in
      let half := half <| members := <[normalized := mkMember (join_nick e) kept]> (members half) |> in
      let half := if self_join
        then (half <| joined := true |>) <| history_anchor := Some (Z.of_nat (trimmed c) + Z.of_nat (length (messages c)))%Z |>
        else half in
      append_event body (negb self_join) true (f, c <| channel := Some half |>)
  end.

Definition reduce_join (e : JoinEvent) r : EventReducer :=
  let network := join_network e in
  let normalized := normalize_in (net_facts r) network (join_nick e) in
  let r := match join_account e with
    | Some value => if is_empty normalized then r else set_facts (update_presence (set_account normalized value) network) r
    | None => r
    end in
  let r := match join_realname e with
    | Some value =>
        if is_empty value || is_empty normalized then r
        else set_facts (update_presence (set_realname normalized value) network) r
    | None => r
    end in
  let key := conversation_key r network (join_to e) in
  let '(r, exists_) := ensure_key key (join_to e) ChannelState_ r in
  if negb exists_ then r
  else
    let self_join := is_self (net_facts r) network (join_nick e) in
    let shown := match join_account e with Some _ => display_account (net_facts r) network (join_nick e) | None => [] end in
    let has_channel := match find r key with Some c => conv_is_channel c | None => false end in
    let r := with_conversation key (join_channel e normalized self_join (join_line (join_nick e) shown)) r in
    if self_join && has_channel then release_pending_playback key r else r.

(** Presence goes with the last shared channel. *)
Definition forget_unseen (network : str) (normalized_nicks : list str) r : EventReducer :=
  match presence (net_facts r) !! network with
  | None => r
  | Some known =>
      let step known nick :=
        if knows nick known && negb (is_visible (conversations r) network nick) then forget nick known else known in
      set_facts (fun f => f <| presence := <[network := foldl step known normalized_nicks]> (presence f) |>) r
  end.

(** PART and KICK share the membership half: the leaver goes, and with ourselves everybody. *)
Definition depart (normalized : str) (self_leaves : bool) (c : ConversationState) : ConversationState * list str :=
  match channel c with
  | None => (c, [])
  | Some half =>
      let half := half <| members := delete normalized (members half) |> in
      if self_leaves
      then ((c <| channel := Some (leave_channel half) |>) <| history_page_cap_tail := false |>,
            normalized :: (map_to_list (members half)).*1)
      else (c <| channel := Some half |>, [normalized])
  end.

Definition clear_typing_of (normalized : str) (everyone : bool) (c : ConversationState) : ConversationState :=
  c <| typing := if everyone then [] else bt_remove normalized (typing c) |>.

(** The leave of [normalized] from the channel [key], with its transcript line; [after] is what
    only a KICK does to the facts. *)
Definition depart_channel (network : str) (key : ConversationKey) (normalized : str) (self_leaves : bool)
    (line : Facts * ConversationState -> Facts * ConversationState) (after : Facts -> Facts) r : EventReducer :=
  match find r key with
  | None => r
  | Some c =>
      if negb (conv_is_channel c) then r
      else
        let '(c, departed) := depart normalized self_leaves c in
        let r := r <| conversations := bt_insert key c (conversations r) |> in
        let r := forget_unseen network departed r in
        with_conversation key (fun st =>
          let '(f, c) := line st in (after f, clear_typing_of normalized self_leaves c)) r
  end.

Definition reduce_part (e : PartEvent) r : EventReducer :=
  let network := part_network e in
  depart_channel network (conversation_key r network (part_channel e)) (normalize_in (net_facts r) network (part_nick e))
    (is_self (net_facts r) network (part_nick e)) (append_event (part_line (part_nick e)) true true) id r.

Definition kick_arrival (e : KickEvent) : InboxArrival :=
  mkInbox InboxKick (kick_author e) (if is_empty (kick_reason e) then lit "You were kicked" else kick_reason e)
    (kick_network e) (kick_channel e) [].

Definition reduce_kick (e : KickEvent) r : EventReducer :=
  let network := kick_network e in
  let self_kick := is_self (net_facts r) network (kick_target e) in
  depart_channel network (conversation_key r network (kick_channel e)) (normalize_in (net_facts r) network (kick_target e))
    self_kick (append_event (kick_target e ++ lit " was kicked") false false)
    (fun f => if self_kick then f <| inbox_arrival := Some (kick_arrival e) |> else f) r.

Definition quit_channel (normalized body : str) (st : Facts * ConversationState) : Facts * ConversationState :=
  let '(f, c) := st in
  match channel c with
  | Some half =>
      match members half !! normalized with
      | Some _ => append_event body true true (f, c <| channel := Some (half <| members := delete normalized (members half) |>) |>)
      | None => st
      end
  | None => st
  end.

Definition clear_typing_everywhere (network normalized : str) r : EventReducer :=
  each_of_network network (fun st => (st.1, clear_typing_of normalized false st.2)) r.

Definition reduce_quit (e : QuitEvent) r : EventReducer :=
  let network := quit_network e in
  let normalized := normalize_in (net_facts r) network (quit_nick e) in
  r ▷ each_of_network network (quit_channel normalized (quit_line (quit_nick e)))
    ▷ forget_unseen network [normalized]
    ▷ clear_typing_everywhere network normalized.

Definition rekey_typing (old new display : str) (c : ConversationState) : ConversationState :=
  match bt_get old (typing c) with
  | Some hint => c <| typing := bt_insert new (hint <| display_nick := display |>) (bt_remove old (typing c)) |>
  | None => c
  end.

Definition rename_member (old new display body : str) (st : Facts * ConversationState) : Facts * ConversationState :=
  let '(f, c) := st in
  match channel c with
  | Some half =>
      match members half !! old with
      | Some member =>
          let members' := <[new := mkMember display (ranks member)]> (delete old (members half)) in
          append_event body true true (f, c <| channel := Some (half <| members := members' |>) |>)
      | None => st
      end
  | None => st
  end.

(** One row of the moved conversation joins the one that holds the new name. *)
Definition merge_row (moved_mark : option Z) (existing : ConversationState) (row : Row) : ConversationState :=
  if negb (is_empty (row_msgid row)) && bool_decide (row_msgid row ∈ message_ids existing) then existing
  else
    let existing := insert_id (row_msgid row) existing in
    let new_sequence := next_sequence existing in
    let existing := existing <| next_sequence := (new_sequence + 1)%Z |> in
    let existing :=
      if is_none (unread_mark existing) && bool_decide (moved_mark = Some (sequence row))
      then existing <| unread_mark := Some new_sequence |> else existing in
    existing <| messages := messages existing ++ [row <| sequence := new_sequence |>] |>.

Definition merge_conversation (moved : ConversationState) (display : str) (st : Facts * ConversationState)
    : Facts * ConversationState :=
  let '(f, existing) := st in
  let '(f, existing) := cap_messages (f, foldl (merge_row (unread_mark moved)) existing (messages moved)) in
  let existing := existing <| unread := add_u32 (unread existing) (unread moved) |> in
  let existing := existing <| mentions := add_u32 (mentions existing) (mentions moved) |> in
  let existing := existing <| muted := muted existing || muted moved |> in
  let existing := existing <| typing := foldl (fun typing e => bt_insert e.1 e.2 typing) (typing existing) (typing moved) |> in
  (f, existing <| conv_target := display |>).

(** The direct conversation of a renamed peer moves to its new key. *)
Definition move_direct (old_key new_key : ConversationKey) (display : str) r : EventReducer :=
  match find r old_key with
  | None => r
  | Some moved =>
      let r := r <| conversations := bt_remove old_key (conversations r) |> in
      let moved := (moved <| conv_key := new_key |>) <| conv_target := display |> in
      let r := if decide (old_key ∈ muted_keys (net_facts r))
        then set_facts (fun f => f <| muted_keys := {[new_key]} ∪ (muted_keys f ∖ {[old_key]}) |>) r else r in
      let r := if bt_contains new_key (conversations r)
        then with_conversation new_key (merge_conversation moved display) r
        else r <| conversations := bt_insert new_key moved (conversations r) |> in
      if decide (selected (net_facts r) = Some old_key) then set_facts (fun f => f <| selected := Some new_key |>) r else r
  end.

Definition reduce_nick (e : NickEvent) r : EventReducer :=
  let network := nick_network e in
  let old := normalize_in (net_facts r) network (old_nick e) in
  let new := normalize_in (net_facts r) network (new_nick e) in
  let r := if is_self (net_facts r) network (old_nick e)
    then r ▷ set_facts (remember_self_nick network (old_nick e))
           ▷ set_facts (fun f => f <| current_nicks := <[network := new_nick e]> (current_nicks f) |>)
           ▷ refresh_mentions network
    else r in
  let r := set_facts (update_presence (rekey old new) network) r in
  let r := each_of_network network (fun st => (st.1, rekey_typing old new (new_nick e) st.2)) r in
  let body := nick_line (old_nick e) (new_nick e) in
  let r := each_of_network network (rename_member old new (new_nick e) body) r in
  let old_key := mkKey network old in
  let new_key := mkKey network new in
  match find r old_key with
  | Some direct =>
      if conv_is_channel direct then r
      else
        let r := with_conversation old_key (fun st =>
          append_event body true true (st.1, (st.2) <| conv_target := new_nick e |>)) r in
        if decide (old_key = new_key) then r else move_direct old_key new_key (new_nick e) r
  | None => r
  end.

Definition reduce_topic (e : TopicEvent) r : EventReducer :=
  let key := conversation_key r (topic_network e) (topic_channel e) in
  let '(r, exists_) := ensure_key key (topic_channel e) ChannelState_ r in
  if negb exists_ || keep_existing_topic e then r
  else update_conversation key (update_channel (fun half => half <| topic := topic_text e |>)) r.

Definition names_channel_half (f : Facts) (e : NamesEvent) (now : Time) (half : ChannelState) : ChannelState :=
  let half := if names_syncing half then half else start_names_sync now half in
  let insert half name :=
    half <| members := <[normalize_in f (names_network e) (name_nick name) := mkMember (name_nick name) (name_ranks name)]> (members half) |> in
  let half := foldl insert half (names_entries e) in
  if names_complete e then stop_names_sync half else half.

Definition reduce_names (e : NamesEvent) (now : Time) r : EventReducer :=
  let key := conversation_key r (names_network e) (names_channel e) in
  let '(r, exists_) := ensure_key key (names_channel e) ChannelState_ r in
  if exists_ then update_conversation key (update_channel (names_channel_half (net_facts r) e now)) r else r.

Definition mode_caption (e : ModeEvent) : str :=
  mode_author e ++ lit " set mode " ++ mode_text e
  ++ (if is_empty (mode_arguments e) then [] else lit " " ++ join_with (lit " ") (mode_arguments e)).

(** One rank change, of a member that is there. *)
Definition change_rank (f : Facts) (network : str) (half : ChannelState) (change : IrcPrefixChange) : ChannelState :=
  half <| members := alter (fun member => mkMember (member_nick member) (apply_change (ranks member) change))
    (normalize_in f network (change_nick change)) (members half) |>.

Definition mode_channel (e : ModeEvent) (changes : list IrcPrefixChange) (st : Facts * ConversationState)
    : Facts * ConversationState :=
  let '(f, c) := append_event (mode_caption e) false false st in
  (f, update_channel (fun half => foldl (change_rank f (mode_network e)) half changes) c).

Definition reduce_mode (e : ModeEvent) r : EventReducer :=
  let network := mode_network e in
  let key := conversation_key r network (mode_target e) in
  if negb (is_channel_in (net_facts r) network (normalized_target key)) then r
  else
    let '(r, exists_) := ensure_key key (mode_target e) ChannelState_ r in
    if negb exists_ then r
    else with_conversation key (mode_channel e (prefix_changes (features_of (net_facts r) network) (mode_text e) (mode_arguments e))) r.

Definition reduce_away (e : AwayEvent) r : EventReducer :=
  let network := away_network e in
  let normalized := normalize_in (net_facts r) network (away_nick e) in
  let r := if realname_only e then r else set_facts (update_presence (set_away normalized (away_value e)) network) r in
  match away_realname e with
  | None => r
  | Some incoming =>
      let stored := realname (nick_presence (net_facts r) network (away_nick e)) in
      if meaningful_realname incoming (away_nick e) || negb (meaningful_realname stored (away_nick e))
      then set_facts (update_presence (set_realname normalized incoming) network) r else r
  end.

Definition reduce_self_away (e : SelfAwayEvent) r : EventReducer :=
  set_facts (fun f => f <| self_away :=
    if self_away_value e then {[self_away_network e]} ∪ self_away f else self_away f ∖ {[self_away_network e]} |>) r.

Definition reduce_member_metadata (e : MemberMetadataEvent) r : EventReducer :=
  let normalized := normalize_in (net_facts r) (metadata_network e) (metadata_nick e) in
  set_facts (update_presence (set_metadata normalized (metadata_key e) (metadata_value e)) (metadata_network e)) r.

Definition reduce_account (e : AccountEvent) r : EventReducer :=
  let normalized := normalize_in (net_facts r) (account_network e) (account_nick e) in
  if is_empty normalized then r
  else set_facts (update_presence (set_account normalized (account_name e)) (account_network e)) r.

Definition reduce_nick_facts (e : NickFactsEvent) r : EventReducer :=
  let network := facts_network e in
  let normalized := normalize_in (net_facts r) network (facts_nick e) in
  if is_empty normalized then r
  else
    let r := match facts_realname e with
      | Some value => set_facts (update_presence (set_realname normalized value) network) r | None => r end in
    match facts_operator e with
    | Some operator => set_facts (update_presence (set_server_operator normalized operator) network) r
    | None => r
    end.

Definition typing_conversation_half (e : TypingEvent) (normalized : str) (self_nick : bool) (c : ConversationState)
    : ConversationState :=
  match (if self_nick then None else stored_typing_hint (typing_phase e) (typing_received_at e) (typing_nick e)) with
  | None => c <| typing := bt_remove normalized (typing c) |>
  | Some hint =>
      c <| typing := bt_insert normalized hint
        (bt_retain (fun _ existing => typing_hint_retained existing (typing_received_at e)) (typing c)) |>
  end.

Definition reduce_typing (e : TypingEvent) r : EventReducer :=
  let network := network_id (typing_conversation e) in
  update_conversation (typing_conversation e)
    (typing_conversation_half e (normalize_in (net_facts r) network (typing_nick e)) (is_self (net_facts r) network (typing_nick e))) r.

Definition reduce_whois_transcript (e : WhoisTranscriptEvent) r : EventReducer :=
  with_conversation (whois_destination e) (append_whois (whois_body e)) r.

Definition reduce_channel_error (e : ChannelErrorEvent) r : EventReducer :=
  with_conversation (conversation_key r (error_network e) (error_channel e)) (append_error (error_body e)) r.

(** [EventReducer::reduce] *)
Definition reduce (event : Event) (now : Time) r : EventReducer :=
  match event with
  | EvWelcome e => reduce_welcome e r
  | EvMessage e => reduce_chat KindMessage e r
  | EvNotice e => reduce_chat KindNotice e r
  | EvAction e => reduce_chat KindAction e r
  | EvJoin e => reduce_join e r
  | EvPart e => reduce_part e r
  | EvQuit e => reduce_quit e r
  | EvNick e => reduce_nick e r
  | EvKick e => reduce_kick e r
  | EvTopic e => reduce_topic e r
  | EvNames e => reduce_names e now r
  | EvMode e => reduce_mode e r
  | EvAway e => reduce_away e r
  | EvSelfAway e => reduce_self_away e r
  | EvMemberMetadata e => reduce_member_metadata e r
  | EvAccount e => reduce_account e r
  | EvTyping e => reduce_typing e r
  | EvHistory e => reduce_history e r
  | EvWhoisTranscript e => reduce_whois_transcript e r
  | EvChannelError e => reduce_channel_error e r
  | EvNickFacts e => reduce_nick_facts e r
  end.

(** The fold of [EventReducer::apply]; the surfaces it reports are [classify_view_notify]. *)
Definition apply_event (event : Event) (now : Time) r : EventReducer :=
  r ▷ set_facts (fun f => (f <| mention_arrival := None |>) <| inbox_arrival := None |>) ▷ reduce event now.
End Reducer.
