(* ===== verification/ReducerViews.v ===== *)
(** * ReducerViews: what the reducer answers
    (src/client/src/irc/viewnotify.rs, irc/reducer/notify.rs, sidebar.rs and the reads of
    conversations.rs)

    The surfaces an event dirtied, the order of the sidebar, and the reads the window draws
    from. None of them changes the state. *)

From Stdlib Require Import Sorting.Sorted.
From stdpp Require Import sorting.
From S2P Require Import Prelude Text CaseMapping ServerFeatures OrdMap SessionTypes Platform Metadata Typing.
From S2P Require Import Presence Events MembershipNoise ReducerState ReducerTranscript Reducer.

(** ** Surfaces (viewnotify.rs) *)

Inductive ViewNotify :=
| Conversations | Messages | MemberReset | MemberRow (nick : str) | Selection | TypingSurface | RearmTyping
| Status | Inbox | Sent (key : ConversationKey).
#[export] Instance ViewNotify_eq_dec : EqDecision ViewNotify.
Proof. solve_decision. Defined.

Definition reset_all : list ViewNotify := [Conversations; Messages; MemberReset; Selection; TypingSurface; RearmTyping].
Definition names_complete_views : list ViewNotify := base.filter (fun surface => surface <> RearmTyping) reset_all.
Definition chat_views : list ViewNotify := [Conversations; Messages; TypingSurface; RearmTyping].
Definition topic_views : list ViewNotify := [Selection; TypingSurface; RearmTyping].
Definition member_row (normalized_nick : str) : list ViewNotify := [MemberRow normalized_nick].
Definition member_reset : list ViewNotify := [MemberReset].
Definition typing_only : list ViewNotify := [TypingSurface; RearmTyping].
Definition transcript_views : list ViewNotify := [Messages].
Definition membership_views : list ViewNotify := [Conversations; Messages; MemberReset; Selection; TypingSurface].

Definition is_member_surface (surface : ViewNotify) : bool :=
  match surface with MemberReset | MemberRow _ | Selection => true | _ => false end.
Definition without_member_refresh (notifies : list ViewNotify) : list ViewNotify :=
  base.filter (fun surface => is_member_surface surface = false) notifies.

Definition merge_views (into more : list ViewNotify) : list ViewNotify :=
  foldl (fun into surface => if bool_decide (surface ∈ into) then into else into ++ [surface]) into more.

(** ** Reads (conversations.rs) *)

Inductive PeerPresence := PeerUnknown | PeerOnline | PeerAway.
#[export] Instance PeerPresence_eq_dec : EqDecision PeerPresence.
Proof. solve_decision. Defined.

Record MemberView := mkMemberView {
  view_nick : str;
  view_label : str;
  view_ranks : IrcPrefixSet;
  view_away : option Away;
  view_status : str;
  view_avatar : str;
  view_bot : bool;
  view_display_name : str;
  view_pronouns : str;
  view_homepage : str;
  view_color : str;
  view_account : str;
  view_realname : str;
  view_labels : list str;
}.

Record OrderedMember := mkOrdered { ordered_nick : str; priority : nat }.

Definition compare_members (a b : OrderedMember) : comparison :=
  then_with (Nat.compare (priority a) (priority b)) (str_compare (ordered_nick a) (ordered_nick b)).

Section Views.
Context `{platform : Platform} `{stores : Stores}.
Implicit Types r : EventReducer.

Definition peer_presence r (network normalized_nick : str) : PeerPresence :=
  if is_empty normalized_nick || negb (is_visible (conversations r) network normalized_nick) then PeerUnknown
  else match presence (net_facts r) !! network with
       | None => PeerOnline
       | Some known => match away (lookup_presence normalized_nick known) with Some _ => PeerAway | None => PeerOnline end
       end.

Definition joined_member_channel r (network channel_name sender : str) : option str :=
  if is_empty network || is_empty channel_name || is_empty sender then None
  else
    let? c := find r (conversation_key r network channel_name) in
    let? half := channel c in
    if negb (joined half) then None
    else
      let normalized := normalize_in (net_facts r) network sender in
      if is_empty normalized || negb (bool_decide (is_Some (members half !! normalized))) then None
      else Some (conv_target c).

Definition member_view r (key : ConversationKey) (normalized_nick : str) : option MemberView :=
  let? c := find r key in
  let? half := channel c in
  let? member := members half !! normalized_nick in
  let f := net_facts r in
  let network := network_id key in
  let stored := presence_of f network normalized_nick in
  let nick := member_nick member in
  let own_away := bool_decide (network ∈ self_away f) && is_self f network nick in
  Some (mkMemberView nick (member_label (features_of f network) (ranks member) nick) (ranks member)
    (match away stored with Some value => Some value | None => if own_away then Some (mkAway []) else None end)
    (presence_status stored) (presence_avatar stored) (is_bot stored)
    (presence_metadata stored DISPLAY_NAME_KEY) (presence_metadata stored PRONOUNS_KEY)
    (presence_metadata stored HOMEPAGE_KEY) (presence_metadata stored COLOR_KEY)
    (display_account f network nick) (displayed_realname (realname stored) nick) (peer_fact_labels f network nick)).

Definition ordered_members r (key : ConversationKey) : list OrderedMember :=
  let?? c := find r key else [] in
  let?? half := channel c else [] in
  let features := features_of (net_facts r) (network_id key) in
  sort_by compare_members
    ((fun '(nick, member) => mkOrdered nick (rank_priority features (ranks member))) <$> map_to_list (members half)).

Definition typing_nicks r (key : ConversationKey) (now : Time) : list str :=
  let?? c := find r key else [] in
  display_nick <$> base.filter (fun hint => negb (is_self (net_facts r) (network_id key) (display_nick hint))
    && typing_shows_indicator hint now = true) (bt_values (typing c)).

Definition direct_peer_is_typing r (key : ConversationKey) (now : Time) : bool :=
  match find r key with
  | Some c =>
      if conv_is_channel c then false
      else match bt_get (normalized_target key) (typing c) with
           | Some hint => typing_shows_indicator hint now
           | None => false
           end
  | None => false
  end.

Definition playback_batch_kept r (network target : str) : bool :=
  if is_empty network || is_empty target then false
  else bool_decide (conversation_key r network target ∈ kept_playback_channel (net_facts r)).

(** ** The surfaces of an event (notify.rs) *)

Definition direct_row r (key : ConversationKey) : bool :=
  match find r key with Some c => negb (conv_is_channel c) | None => false end.

Definition classify_unchecked (event : Event) r : list ViewNotify :=
  let key := conversation_key r in
  match event with
  | EvWelcome _ => reset_all
  | EvMessage _ | EvNotice _ | EvAction _ => chat_views
  | EvJoin _ | EvPart _ | EvQuit _ | EvNick _ | EvKick _ | EvMode _ => membership_views
  | EvTopic _ => topic_views
  | EvNames e => if names_complete e then names_complete_views else []
  | EvAway e =>
      if realname_only e then []
      else
        let key := key (away_network e) (away_nick e) in
        let notify := member_row (normalized_target key) in
        let shared := negb (bool_decide (peer_presence r (away_network e) (normalized_target key) = PeerUnknown)) in
        if direct_row r key || shared then merge_views notify [Conversations] else notify
  | EvAccount e =>
      merge_views (member_row (normalized_target (key (account_network e) (account_nick e)))) [Messages]
  | EvMemberMetadata e =>
      let key := key (metadata_network e) (metadata_nick e) in
      let notify := member_row (normalized_target key) in
      let canonical := canonical_key (metadata_key e) in
      if bool_decide (canonical = Some AVATAR_KEY) || bool_decide (canonical = Some BOT_KEY) then
        let notify := merge_views notify [Messages] in
        if direct_row r key then merge_views notify [Conversations] else notify
      else notify
  | EvSelfAway _ => member_reset
  | EvTyping _ => typing_only
  | EvHistory _ => merge_views transcript_views [Conversations]
  | EvWhoisTranscript _ | EvChannelError _ => transcript_views
  | EvNickFacts e => member_row (normalized_target (key (facts_network e) (facts_nick e)))
  end.

Definition channel_names_syncing r (key : option ConversationKey) : bool :=
  match key with
  | Some key =>
      match find r key with
      | Some c => match channel c with Some half => names_syncing half | None => false end
      | None => false
      end
  | None => false
  end.

Definition classify_view_notify (event : Event) r : list ViewNotify :=
  let notifies := classify_unchecked event r in
  if channel_names_syncing r (selected (net_facts r)) then without_member_refresh notifies else notifies.

(** [EventReducer::apply] *)
Definition apply (event : Event) (now : Time) r : EventReducer * list ViewNotify :=
  let r := apply_event event now r in (r, classify_view_notify event r).

(** ** The sidebar (sidebar.rs) *)

Definition network_rank (network : str) (order : list str) : nat :=
  default (length order) (position (str_eqb network) order).

Definition group_rank (c : option ConversationState) : nat :=
  match c with Some c => if conv_is_channel c then 0 else 2 | None => 2 end%nat.

Definition compare_case_insensitive (left right : str) : comparison := str_compare (to_lowercase left) (to_lowercase right).

Definition compare_keys (a b : ConversationKey) : comparison :=
  then_with (str_compare (network_id a) (network_id b)) (str_compare (normalized_target a) (normalized_target b)).

Definition compare_sidebar r (order : list str) (a b : ConversationKey) : comparison :=
  let target key := match find r key with Some c => conv_target c | None => normalized_target key end in
  then_with (Nat.compare (network_rank (network_id a) order) (network_rank (network_id b) order))
    (then_with (str_compare (network_id a) (network_id b))
      (then_with (Nat.compare (group_rank (find r a)) (group_rank (find r b)))
        (then_with (compare_case_insensitive (target a) (target b)) (compare_keys a b)))).

Definition sidebar_networks r (network_order : list str) : list str :=
  match network_order with
  | [] =>
      sort_by str_compare
        (foldl (fun order key => if bool_decide (network_id key ∈ order) then order else order ++ [network_id key]) []
          (bt_keys (conversations r)))
  | _ => network_order
  end.

Definition sidebar_order_with_networks r (network_order : list str) : list ConversationKey :=
  sort_by (compare_sidebar r (sidebar_networks r network_order)) (bt_keys (conversations r)).
End Views.
