(* ===== verification/ReducerRows.v ===== *)
(** * ReducerRows: the rows of a transcript stay well formed

    Sequences are fresh and distinct, a nonempty message id stands on at most one row and is
    known to its conversation, and a channel-context claim points at a channel that knows the
    id. Every function of ReducerTranscript and ReducerSplice preserves this; the relation
    [steps] says so and composes. *)

From S2P Require Import Prelude Text CaseMapping ServerFeatures OrdMap SessionTypes Platform Typing.
From S2P Require Import Presence Events MembershipNoise ReducerState ReducerTranscript ReducerSplice.

(** ** The tags of rows: a sequence and a message id *)

Definition tag (row : Row) : Z * MsgId := (sequence row, row_msgid row).
Definition ids_of (l : list (Z * MsgId)) : list MsgId := base.filter (fun id => id <> []) l.*2.

Record tags_ok (l : list (Z * MsgId)) (ids : gset MsgId) (next : Z) : Prop := {
  tags_next : (0 <= next)%Z;
  tags_fresh : Forall (fun t => 0 <= t.1 < next)%Z l;
  tags_distinct : NoDup l.*1;
  tags_ids_distinct : NoDup (ids_of l);
  tags_known : Forall (fun id => id ∈ ids) (ids_of l);
}.

Implicit Types (l : list (Z * MsgId)) (ids : gset MsgId).

Lemma ids_of_app l1 l2 : ids_of (l1 ++ l2) = ids_of l1 ++ ids_of l2.
Proof. unfold ids_of. by rw fmap_app filter_app. Qed.

#[export] Instance ids_of_proper : Proper (Permutation ==> Permutation) ids_of.
Proof. intros l1 l2 H. unfold ids_of. by rw H. Qed.

Lemma tags_ok_perm l1 l2 ids next : l1 ≡ₚ l2 -> tags_ok l1 ids next -> tags_ok l2 ids next.
Proof. intros H [H0 H1 H2 H3 H4]. by constructor; rw -?H. Qed.

Lemma tags_ok_nil ids next : (0 <= next)%Z -> tags_ok [] ids next.
Proof. intros. constructor; try done; constructor. Qed.

Lemma tags_ok_mono l ids ids' next : ids ⊆ ids' -> tags_ok l ids next -> tags_ok l ids' next.
Proof. intros H [H0 H1 H2 H3 H4]. constructor; try done. eapply Forall_impl; [exact H4|]. set_solver. Qed.

Lemma tags_ok_next l ids next next' : (next <= next')%Z -> tags_ok l ids next -> tags_ok l ids next'.
Proof. intros H [H0 H1 H2 H3 H4]. constructor; try done; [lia|]. eapply Forall_impl; [exact H1|]. cbn. lia. Qed.

(** Rows that go take their ids with them, and no row that stays carries one of those. *)
Lemma tags_ok_drop l1 l2 ids next :
  tags_ok (l1 ++ l2) ids next -> tags_ok l2 (ids ∖ list_to_set (ids_of l1)) next.
Proof.
  intros [H0 H1 H2 H3 H4]. rw ids_of_app in H3. rw ids_of_app in H4. rw fmap_app in H2.
  apply NoDup_app in H2 as (_ & _ & H2). apply NoDup_app in H3 as (_ & Hdis & H3).
  apply Forall_app in H1 as [_ H1]. apply Forall_app in H4 as [_ H4].
  constructor; try done. apply Forall_forall. intros id Hid. apply elem_of_difference. split.
  - by eapply (proj1 (Forall_forall _ _) H4).
  - rw elem_of_list_to_set. intros Hin. by apply (Hdis id Hin).
Qed.

(** A new row takes the next sequence and an id no row has. *)
Lemma tags_ok_add l ids next id :
  tags_ok l ids next -> (id <> [] -> id ∉ ids) ->
  tags_ok (l ++ [(next, id)]) (if is_empty id then ids else {[id]} ∪ ids) (next + 1).
Proof.
  intros [H0 H1 H2 H3 H4] Hid. assert (Hout : id <> [] -> id ∉ ids_of l).
  { intros Hne Hin. apply (Hid Hne). by eapply (proj1 (Forall_forall _ _) H4). }
  constructor.
  - lia.
  - apply Forall_app. split; [eapply Forall_impl; [exact H1|]; cbn; lia|]. repeat constructor; cbn; lia.
  - rw fmap_app. apply NoDup_app. split; [done|]. split; [|apply NoDup_singleton].
    intros s Hs Heq%list_elem_of_singleton. cbn in Heq. subst s. apply list_elem_of_fmap in Hs as (t & Heq & Ht).
    apply (proj1 (Forall_forall _ _) H1) in Ht. lia.
  - rw ids_of_app. unfold ids_of at 2. cbn. case_decide as E; [|by rw app_nil_r].
    apply NoDup_app. split; [done|]. split; [|apply NoDup_singleton]. intros i Hi ->%list_elem_of_singleton. by apply Hout.
  - rw ids_of_app. apply Forall_app. split.
    + eapply Forall_impl; [exact H4|]. destruct id; cbn; set_solver.
    + unfold ids_of. cbn. case_decide as E; [|constructor]. destruct id; [done|]. repeat constructor. cbn. set_solver.
Qed.

Lemma tags_alter_body b (i : nat) (rows : list Row) : tag <$> alter (set_body b) i rows = tag <$> rows.
Proof. rw (list_fmap_alter _ _ id); [by apply Forall_true|]. by apply list_alter_id. Qed.

(** ** Conversations *)

Section Steps.
Context `{platform : Platform} `{stores : Stores}.

Abbreviation St := (Facts * ConversationState)%type (only parsing).
Implicit Types (f : Facts) (c : ConversationState) (st : Facts * ConversationState) (s : Splice).

Definition claims f : gmap MsgId ConversationKey := channel_context_msgids f.
#[local] Arguments claims : simpl never.
#[local] Arguments release_channel_context : simpl never.
#[local] Arguments claim_channel_context : simpl never.

(** The rows of a conversation and of a run beside it, and the claims that point at it. *)
Record well_formed f c (run : list Row) : Prop := {
  wf_tags : tags_ok (tag <$> messages c ++ run) (message_ids c) (next_sequence c);
  wf_claims : forall id, claims f !! id = Some (conv_key c) -> conv_is_channel c = true /\ id ∈ message_ids c;
}.

(** What a step keeps of the conversation it runs on, and of the claims on the others. *)
Record keeps f c f' c' : Prop := {
  keeps_key : conv_key c' = conv_key c;
  keeps_channel : conv_is_channel c' = conv_is_channel c;
  keeps_claims : forall id home, claims f' !! id = Some home -> home <> conv_key c -> claims f !! id = Some home;
}.

Lemma keeps_refl f c : keeps f c f c.
Proof. by constructor. Qed.

Lemma keeps_trans f c f' c' f'' c'' : keeps f c f' c' -> keeps f' c' f'' c'' -> keeps f c f'' c''.
Proof.
  intros [H1 H2 H3] [H1' H2' H3']. constructor; [congruence..|]. intros id home H Hne.
  apply H3; [apply H3'; [done|congruence]|done].
Qed.

Definition steps st st' : Prop :=
  keeps st.1 st.2 st'.1 st'.2 /\ (well_formed st.1 st.2 [] -> well_formed st'.1 st'.2 []).

#[export] Instance steps_refl : Reflexive steps.
Proof. intros st. split; [apply keeps_refl|done]. Qed.
#[export] Instance steps_trans : Transitive steps.
Proof. intros st st' st'' [H1 H2] [H3 H4]. split; [by eapply keeps_trans|auto]. Qed.

(** The same for a run under construction. *)
Definition splice_steps s s' : Prop :=
  keeps (facts s) (conv s) (facts s') (conv s') /\
  (well_formed (facts s) (conv s) (run s) -> well_formed (facts s') (conv s') (run s')).

#[export] Instance splice_steps_refl : Reflexive splice_steps.
Proof. intros s. split; [apply keeps_refl|done]. Qed.
#[export] Instance splice_steps_trans : Transitive splice_steps.
Proof. intros s s' s'' [H1 H2] [H3 H4]. split; [by eapply keeps_trans|auto]. Qed.

(** A write that touches no row, id, key or channel half, and no claim. *)
Lemma untouched f c f' c' run run' :
  conv_key c' = conv_key c -> conv_is_channel c' = conv_is_channel c -> claims f' = claims f ->
  tag <$> messages c' ++ run' ≡ₚ tag <$> messages c ++ run ->
  message_ids c ⊆ message_ids c' -> (next_sequence c <= next_sequence c')%Z ->
  keeps f c f' c' /\ (well_formed f c run -> well_formed f' c' run').
Proof.
  intros H1 H2 H3 H4 H5 H6. split; [constructor; [done..|by rw H3]|]. intros [Ht Hc]. constructor.
  - eapply tags_ok_perm; [symmetry; exact H4|]. by eapply tags_ok_next, tags_ok_mono.
  - intros id. rw H1 H2 H3. intros Hid. destruct (Hc id Hid). auto.
Qed.

Lemma steps_untouched st st' :
  conv_key st'.2 = conv_key st.2 -> conv_is_channel st'.2 = conv_is_channel st.2 -> claims st'.1 = claims st.1 ->
  messages st'.2 = messages st.2 -> message_ids st'.2 = message_ids st.2 -> next_sequence st'.2 = next_sequence st.2 ->
  steps st st'.
Proof. intros H1 H2 H3 H4 H5 H6. apply untouched; try done; rw ?H4 ?H5 ?H6 //. Qed.

Lemma update_channel_is_channel g c : conv_is_channel (update_channel g c) = conv_is_channel c.
Proof. unfold conv_is_channel, update_channel. cbn. by destruct (channel c). Qed.

(** ** Claims *)

Lemma claims_claim home is_channel id visible f id' home' :
  claims (claim_channel_context home is_channel id visible f) !! id' = Some home' ->
  (id' = id /\ home' = home /\ id <> [] /\ is_channel = true) \/ claims f !! id' = Some home'.
Proof.
  unfold claim_channel_context. destruct id as [|x id], is_channel, visible; cbn [is_empty negb orb]; auto.
  intros H. change (<[x :: id := home]> (claims f) !! id' = Some home') in H.
  destruct (decide (id' = x :: id)) as [->|Hne].
  - rw lookup_insert_eq in H. injection H as <-. by left.
  - rw lookup_insert_ne // in H. by right.
Qed.

Lemma claims_release home id id' f :
  claims (release_channel_context home id f) !! id' =
  if decide (id = id' /\ id <> [] /\ claims f !! id = Some home) then None else claims f !! id'.
Proof.
  unfold release_channel_context, claims. destruct id as [|x id]; cbn [is_empty].
  - case_decide as E; [naive_solver|done].
  - case_decide as E; cbn.
    + case_decide as E'; [destruct E' as (-> & _ & _); by rw lookup_delete_eq|].
      rw lookup_delete_ne //. intros <-. by apply E'.
    + case_decide as E'; [naive_solver|done].
Qed.

(** ** Forgetting rows *)

Lemma forget_rows_spec rows st :
  exists f, forget_rows rows st = (f, (st.2) <| message_ids := message_ids st.2 ∖ list_to_set (ids_of (tag <$> rows)) |>)
  /\ forall id, claims f !! id =
       if decide (id ∈ ids_of (tag <$> rows) /\ claims st.1 !! id = Some (conv_key st.2)) then None else claims st.1 !! id.
Proof.
  unfold forget_rows. revert st. induction rows as [|row rows IH]; intros [f c].
  - exists f. split.
    + cbn. f_equal. destruct c. cbn. f_equal. unfold ids_of. cbn. set_solver.
    + intros id. case_decide as E; [|done]. destruct E as [E _]. by apply elem_of_nil in E.
  - cbn [fmap list_fmap foldl]. destruct (IH (forget_transcript_msgid (f, c) (row_msgid row))) as (f' & E & Hf').
    exists f'. rw E. unfold forget_transcript_msgid in *. destruct (row_msgid row) as [|x id] eqn:Hid; cbn [is_empty] in *.
    + unfold ids_of. cbn. rw Hid. cbn. split; [done|]. apply Hf'.
    + unfold ids_of. cbn. rw Hid. cbn. split.
      * f_equal. destruct c. cbn. f_equal. set_solver.
      * intros id'. rw Hf'. cbn. rw claims_release. repeat case_decide; try done; set_solver.
Qed.

(** Rows [gone] leave a transcript that keeps [kept]. *)
Lemma forget_well_formed f c run gone kept f' :
  (messages c ++ run ≡ₚ gone ++ kept) ->
  (forall id, claims f' !! id = if decide (id ∈ ids_of (tag <$> gone) /\ claims f !! id = Some (conv_key c)) then None else claims f !! id) ->
  well_formed f c run ->
  tags_ok (tag <$> kept) (message_ids c ∖ list_to_set (ids_of (tag <$> gone))) (next_sequence c)
  /\ forall id, claims f' !! id = Some (conv_key c) ->
       conv_is_channel c = true /\ id ∈ message_ids c ∖ list_to_set (ids_of (tag <$> gone)).
Proof.
  intros Hp Hf [Ht Hc]. split.
  - apply tags_ok_drop. rw -fmap_app. eapply tags_ok_perm; [|exact Ht]. by rw Hp.
  - intros id. rw Hf. case_decide as E; [done|]. intros Hid. destruct (Hc id Hid). split; [done|].
    apply elem_of_difference. split; [done|]. rw elem_of_list_to_set. tauto.
Qed.

Lemma forget_keeps f c gone f' :
  (forall id, claims f' !! id = if decide (id ∈ ids_of (tag <$> gone) /\ claims f !! id = Some (conv_key c)) then None else claims f !! id) ->
  forall id home, claims f' !! id = Some home -> home <> conv_key c -> claims f !! id = Some home.
Proof. intros Hf id home. rw Hf. by case_decide. Qed.

(** A conversation whose rows [gone] were forgotten and removed. *)
Lemma forgotten_steps f c f' c' run run' gone :
  messages c ++ run ≡ₚ gone ++ messages c' ++ run' ->
  forget_rows gone (f, c) = (f', c <| message_ids := message_ids c' |>) ->
  conv_key c' = conv_key c -> conv_is_channel c' = conv_is_channel c -> next_sequence c' = next_sequence c ->
  keeps f c f' c' /\ (well_formed f c run -> well_formed f' c' run').
Proof.
  intros Hp Hf H1 H2 H3. destruct (forget_rows_spec gone (f, c)) as (f2 & E & Hc). rw E in Hf. cbn in Hf, Hc.
  injection Hf as -> Hids. split.
  - constructor; [done..|]. by apply (forget_keeps f c gone f').
  - intros Hwf. destruct (forget_well_formed f c run gone (messages c' ++ run') f' Hp Hc Hwf) as [Ht Hcl].
    constructor; rw ?H1 ?H2 ?H3 -?Hids //.
Qed.

Lemma forget_rows_eq rows f c :
  exists f', forget_rows rows (f, c) = (f', c <| message_ids := message_ids c ∖ list_to_set (ids_of (tag <$> rows)) |>).
Proof. destruct (forget_rows_spec rows (f, c)) as (f' & E & _). by exists f'. Qed.

Lemma cap_messages_steps st : steps st (cap_messages st).
Proof.
  destruct st as [f c]. unfold cap_messages. case_match; [done|]. cbn [snd].
  destruct (forget_rows_eq (take (length (messages c) - MAX_MESSAGES) (messages c)) f c) as (f' & E). rw E.
  apply (forgotten_steps f c f' _ [] [] (take (length (messages c) - MAX_MESSAGES) (messages c)));
    [|exact E|done|by rw update_channel_is_channel|done].
  unfold update_channel. cbn. rw !app_nil_r. by rw take_drop.
Qed.

Lemma cap_messages_prefer_tail_steps st : steps st (cap_messages_prefer_tail st).
Proof.
  destruct st as [f c]. unfold cap_messages_prefer_tail. case_match; [done|]. cbn [snd].
  destruct (forget_rows_eq (drop MAX_MESSAGES (messages c)) f c) as (f' & E). rw E.
  apply (forgotten_steps f c f' _ [] [] (drop MAX_MESSAGES (messages c))); [|exact E|done..].
  cbn. rw !app_nil_r. rw -{1}(take_drop MAX_MESSAGES (messages c)). apply Permutation_app_comm.
Qed.

Definition bounded c : Prop := (length (messages c) <= MAX_MESSAGES)%nat.

Lemma cap_messages_bounded st : bounded (cap_messages st).2.
Proof.
  unfold cap_messages, bounded. destruct (Nat.leb_spec (length (messages st.2)) MAX_MESSAGES); [done|].
  destruct st as [f c]. cbn [snd] in *. destruct (forget_rows_eq (take (length (messages c) - MAX_MESSAGES) (messages c)) f c) as (f' & E).
  rw E. cbn -[MAX_MESSAGES]. rw length_drop. lia.
Qed.

Lemma cap_messages_prefer_tail_bounded st : bounded (cap_messages_prefer_tail st).2.
Proof.
  unfold cap_messages_prefer_tail, bounded. destruct (Nat.leb_spec (length (messages st.2)) MAX_MESSAGES); [done|].
  destruct st as [f c]. cbn [snd] in *. destruct (forget_rows_eq (drop MAX_MESSAGES (messages c)) f c) as (f' & E).
  rw E. cbn -[MAX_MESSAGES]. rw length_take. lia.
Qed.

Lemma shift_anchor_steps i f c : steps (f, c) (f, shift_anchor_down i c).
Proof. apply steps_untouched; try done. apply update_channel_is_channel. Qed.

Lemma forget_one st row : forget_transcript_msgid st (row_msgid row) = forget_rows [row] st.
Proof. done. Qed.

Lemma drop_last_steps st : steps st (drop_last_transcript_row st).
Proof.
  destruct st as [f c]. unfold drop_last_transcript_row. cbn [snd]. destruct (last (messages c)) as [row|] eqn:Hl; [|done].
  rw forget_one. destruct (forget_rows_eq [row] f c) as (f' & E). rw E. etrans; [|apply shift_anchor_steps].
  apply (forgotten_steps f c f' _ [] [] [row]); [|exact E|done..]. cbn. rw !app_nil_r.
  apply last_Some in Hl as [rows ->]. by rw removelast_last Permutation_app_comm.
Qed.

Lemma drop_last_length st : (length (messages (drop_last_transcript_row st).2) <= length (messages st.2))%nat.
Proof.
  destruct st as [f c]. unfold drop_last_transcript_row. cbn [snd]. destruct (last (messages c)) as [row|] eqn:Hl; [|done].
  rw forget_one. destruct (forget_rows_eq [row] f c) as (f' & E). rw E. cbn.
  apply last_Some in Hl as [rows ->]. rw removelast_last length_app. lia.
Qed.

(** ** Admitting a row *)

Lemma admit_tags row c : tag <$> messages (admit_message row c) = (tag <$> messages c) ++ [(next_sequence c, row_msgid row)].
Proof. cbn. by rw fmap_app. Qed.

(** A new row with a fresh id, which its conversation learns. [visible] is the claim it makes. *)
Lemma admit_steps f c row visible :
  (row_msgid row <> [] -> row_msgid row ∉ message_ids c) ->
  steps (f, c) (claim_channel_context (conv_key c) (conv_is_channel c) (row_msgid row) visible f,
                admit_message row (insert_id (row_msgid row) c)).
Proof.
  intros Hid.
  assert (Hkey : conv_key (insert_id (row_msgid row) c) = conv_key c) by (unfold insert_id; by case_match).
  assert (Hch : conv_is_channel (insert_id (row_msgid row) c) = conv_is_channel c) by (unfold insert_id; by case_match).
  assert (Hids : message_ids (insert_id (row_msgid row) c) =
    if is_empty (row_msgid row) then message_ids c else {[row_msgid row]} ∪ message_ids c) by (unfold insert_id; by case_match).
  assert (Htags : tag <$> messages (admit_message row (insert_id (row_msgid row) c))
    = (tag <$> messages c) ++ [(next_sequence c, row_msgid row)])
    by (rw admit_tags; unfold insert_id; by case_match).
  split.
  - constructor; [done..|]. intros id home. cbn. intros [(_ & -> & _)|H]%claims_claim Hne; done.
  - intros [Ht Hc]. cbn [fst snd] in *. rw app_nil_r in Ht. constructor; cbn [fst snd].
    + rw app_nil_r Htags. change (message_ids (admit_message _ _)) with (message_ids (insert_id (row_msgid row) c)).
      replace (next_sequence (admit_message row (insert_id (row_msgid row) c))) with (next_sequence c + 1)%Z
        by (unfold insert_id; by case_match).
      rw Hids. by apply tags_ok_add.
    + change (conv_key (admit_message row (insert_id (row_msgid row) c))) with (conv_key (insert_id (row_msgid row) c)).
      change (conv_is_channel (admit_message row (insert_id (row_msgid row) c))) with (conv_is_channel (insert_id (row_msgid row) c)).
      change (message_ids (admit_message row (insert_id (row_msgid row) c))) with (message_ids (insert_id (row_msgid row) c)).
      intros id. rw Hkey Hch Hids. intros [(-> & _ & Hne & ->)|H]%claims_claim.
      * split; [done|]. destruct (row_msgid row); [done|]. cbn [is_empty]. set_solver.
      * destruct (Hc _ H) as [-> Hin]. split; [done|]. case_match; set_solver.
Qed.

(** Rows without an id: events, whois and errors. *)
Lemma admit_local_steps f c row : row_msgid row = [] -> steps (f, c) (f, admit_message row c).
Proof. intros Hr. pose proof (admit_steps f c row false) as H. unfold insert_id in H. rw Hr in H. by apply H. Qed.

Lemma persist_message_claims c row f : claims (persist_message c row f) = claims f.
Proof. unfold persist_message. by repeat case_match. Qed.
Lemma persist_prepend_claims c rows f : claims (persist_messages_prepend c rows f) = claims f.
Proof. unfold persist_messages_prepend. by repeat case_match. Qed.

Lemma facts_steps f f' c : claims f' = claims f -> steps (f, c) (f', c).
Proof. intros H. by apply steps_untouched. Qed.

Lemma admit_persisted_steps row st : row_msgid row = [] -> steps st (admit_persisted row st) /\ bounded (admit_persisted row st).2.
Proof.
  intros Hr. destruct st as [f c]. unfold admit_persisted. split; [|apply cap_messages_bounded].
  etrans; [by apply (admit_local_steps f c row)|]. etrans; [|apply cap_messages_steps].
  apply facts_steps. case_match; [apply persist_message_claims|done].
Qed.

Lemma append_local_steps row st :
  row_msgid row = [] ->
  steps st (cap_messages (st.1, admit_message row st.2)) /\ bounded (cap_messages (st.1, admit_message row st.2)).2.
Proof.
  intros Hr. destruct st as [f c]. split; [|apply cap_messages_bounded].
  etrans; [by apply (admit_local_steps f c row)|]. apply cap_messages_steps.
Qed.

Lemma set_last_body_steps f c b : steps (f, c) (f, set_last_body b c).
Proof.
  apply (untouched f c f (set_last_body b c)); try done. unfold set_last_body. cbn. rw !app_nil_r. rw tags_alter_body //.
Qed.

Lemma append_event_steps b collapsible' membership st :
  steps st (append_event b collapsible' membership st)
  /\ (bounded st.2 -> bounded (append_event b collapsible' membership st).2).
Proof.
  destruct st as [f c]. unfold append_event. case_match; [done|].
  generalize (if membership && bool_decide (membership_noise f = Every) then false else collapsible') as col. intros col.
  destruct (admit_persisted_steps (local_row KindEvent b col) (f, c) eq_refl) as [H1 H2].
  destruct (last (messages c)) as [row|]; [|done].
  destruct (_ && collapsible row); [|done]. destruct (decide (fold_kind _ = Cancel)); [destruct (drop_row _)|destruct col].
  - split; [apply drop_last_steps|]. unfold bounded. pose proof (drop_last_length (f, c)). cbn in *. lia.
  - split; [apply set_last_body_steps|]. unfold bounded. cbn. by rw length_alter.
  - split; [apply set_last_body_steps|]. unfold bounded. cbn. by rw length_alter.
  - done.
Qed.

Lemma hydrate_line_steps st line : steps st (hydrate_line st line).
Proof.
  destruct st as [f c]. unfold hydrate_line. case_match; [|done]. case_match eqn:Hb; [done|].
  set (row := mkRow _ _ _ _ _ _ _ _ _ _ _).
  replace (if is_empty (line_msgid line) then c else c <| message_ids := {[line_msgid line]} ∪ message_ids c |>)
    with (insert_id (row_msgid row) c) by done.
  replace (conv_key (admit_message row (insert_id (row_msgid row) c))) with (conv_key c) by (unfold insert_id; by case_match).
  apply (admit_steps f c row (line_only_visible line)). cbn. intros Hne. apply andb_false_iff in Hb as [Hb|Hb]; [by destruct (line_msgid line)|].
  apply orb_false_iff in Hb as [Hb _]. by apply bool_decide_eq_false in Hb.
Qed.

Lemma hydrate_from_log_steps st :
  steps st (hydrate_from_log st) /\ (bounded st.2 -> bounded (hydrate_from_log st).2).
Proof.
  destruct st as [f c]. unfold hydrate_from_log. case_match; [|done]. split; [|intros _; apply cap_messages_bounded].
  etrans; [|apply cap_messages_steps]. apply (foldl_relation hydrate_line id steps). intros. apply hydrate_line_steps.
Qed.

(** ** Arrivals touch badges and notices only *)

Lemma count_line_same is_selected live inactive reason seq c :
  let c' := count_line is_selected live inactive reason seq c in
  conv_key c' = conv_key c /\ channel c' = channel c /\ messages c' = messages c
  /\ message_ids c' = message_ids c /\ next_sequence c' = next_sequence c /\ read_marker c' = read_marker c.
Proof. cbn zeta. unfold count_line. by repeat case_match. Qed.

Lemma count_line_steps f f' c is_selected live inactive reason seq :
  claims f' = claims f -> steps (f, c) (f', count_line is_selected live inactive reason seq c).
Proof.
  intros H. destruct (count_line_same is_selected live inactive reason seq c) as (H1 & H2 & H3 & H4 & H5 & _).
  apply steps_untouched; try done. unfold conv_is_channel. cbn. by rw H2.
Qed.

Lemma note_chat_arrival_steps key a st :
  steps st (note_chat_arrival key a st) /\ messages (note_chat_arrival key a st).2 = messages st.2
  /\ message_ids (note_chat_arrival key a st).2 = message_ids st.2.
Proof.
  destruct st as [f c]. unfold note_chat_arrival.
  do 3 lazymatch goal with |- context [if ?b then (f, c) else _] => destruct b; [done|] end.
  split; [|split; apply count_line_same]. apply count_line_steps. by repeat case_match.
Qed.
End Steps.
