(* ===== verification/ReducerSteps.v ===== *)
(** * ReducerSteps: splices and handlers keep rows well formed

    The replay splice, the live admission and the per-conversation half of every handler are
    [safe]: they keep the rows and claims of ReducerRows, and a bounded transcript stays
    bounded. *)

From S2P Require Import Prelude Text CaseMapping ServerFeatures OrdMap SessionTypes Platform Typing.
From S2P Require Import Presence Events Conversation MembershipNoise ReducerState ReducerTranscript ReducerSplice Reducer ReducerRows.

Section Safe.
Context `{platform : Platform} `{stores : Stores}.

Abbreviation St := (Facts * ConversationState)%type (only parsing).
Implicit Types (f : Facts) (c : ConversationState) (st : Facts * ConversationState) (s : Splice).

Definition safe st st' : Prop := steps st st' /\ (bounded st.2 -> bounded st'.2).

#[export] Instance safe_refl : Reflexive safe.
Proof. intros st. split; [reflexivity|done]. Qed.
#[export] Instance safe_trans : Transitive safe.
Proof. intros st st' st'' [H1 H2] [H3 H4]. split; [by etrans|auto]. Qed.

Lemma safe_untouched st st' :
  conv_key st'.2 = conv_key st.2 -> conv_is_channel st'.2 = conv_is_channel st.2 -> claims st'.1 = claims st.1 ->
  messages st'.2 = messages st.2 -> message_ids st'.2 = message_ids st.2 -> next_sequence st'.2 = next_sequence st.2 ->
  safe st st'.
Proof. intros. split; [by apply steps_untouched|]. unfold bounded. congruence. Qed.

(** A change of the channel half, where there is one. *)
Lemma safe_channel f c half half' : channel c = Some half -> safe (f, c) (f, c <| channel := Some half' |>).
Proof. intros H. apply safe_untouched; try done. unfold conv_is_channel. cbn. by rw H. Qed.

Lemma safe_update_channel f c g : safe (f, c) (f, update_channel g c).
Proof. apply safe_untouched; try done. apply update_channel_is_channel. Qed.

Lemma foldl_safe {A} (g : St -> A -> St) l st : (forall st a, safe st (g st a)) -> safe st (foldl g st l).
Proof. intros H. revert st. induction l as [|a l IH]; intros st; cbn; [reflexivity|]. etrans; [apply H|apply IH]. Qed.

(** ** The run of a splice *)

Definition splice_safe s s' : Prop :=
  splice_steps s s' /\ (length (messages (conv s')) <= length (messages (conv s)))%nat.

#[export] Instance splice_safe_refl : Reflexive splice_safe.
Proof. intros s. split; [reflexivity|done]. Qed.
#[export] Instance splice_safe_trans : Transitive splice_safe.
Proof. intros s s' s'' [H1 H2] [H3 H4]. split; [by etrans|lia]. Qed.

Lemma fold_in_run_safe line s s' result : fold_in_run line s = Some (s', result) -> splice_safe s s'.
Proof.
  destruct s as [f c rows i]. unfold fold_in_run. cbn [ReducerTranscript.run facts conv]. destruct (last rows) as [row|] eqn:Hl; [|done].
  destruct (fold_into _ _ _ _); [done|..].
  - intros [= <- <-]. split; [|done]. apply untouched; try done. cbn. by rw !fmap_app tags_alter_body.
  - apply last_Some in Hl as [rest ->]. destruct (forget_rows_eq [row] f c) as (f' & E). rw forget_one E.
    intros [= <- <-]. split; [|done]. unfold splice_steps. cbn. rw removelast_last.
    apply (forgotten_steps f c f' _ _ _ [row]); [|exact E|done..]. cbn. by rw app_assoc Permutation_app_comm.
Qed.

Lemma fold_above_safe line s s' result : fold_above line s = Some (s', result) -> splice_safe s s'.
Proof.
  destruct s as [f c rows i]. unfold fold_above. cbn [ReducerTranscript.run facts conv at_]. destruct rows; [|done].
  destruct (i =? 0)%nat eqn:Hi; cbn; [done|]. destruct (messages c !! (i - 1)%nat) as [row|] eqn:Hrow; [|done].
  destruct (fold_into _ _ _ _); [done|..].
  - intros [= <- <-]. split; [|cbn; by rw length_alter]. apply untouched; try done. cbn. by rw !app_nil_r tags_alter_body.
  - change (if is_empty (row_msgid row) then _ else _) with (forget_transcript_msgid (f, c) (row_msgid row)).
    destruct (forget_rows_eq [row] f c) as (f' & E). rw forget_one E.
    intros [= <- <-]. split; [|cbn; rw length_delete //; lia]. unfold splice_steps. cbn [facts conv ReducerTranscript.run].
    apply (forgotten_steps f c f' _ _ _ [row]); [|exact E|done| |done]; [|by rw /shift_anchor_down update_channel_is_channel].
    cbn. rw !app_nil_r. by apply delete_Permutation.
Qed.

Lemma wf_insert f c run id : well_formed f c run -> well_formed f (insert_id id c) run.
Proof.
  intros Hwf. unfold insert_id. case_match; [done|].
  apply (untouched f c f (c <| message_ids := {[id]} ∪ message_ids c |>) run run); try done. cbn. set_solver.
Qed.

Lemma insert_id_same id c :
  conv_key (insert_id id c) = conv_key c /\ channel (insert_id id c) = channel c /\ messages (insert_id id c) = messages c
  /\ next_sequence (insert_id id c) = next_sequence c
  /\ message_ids (insert_id id c) = if is_empty id then message_ids c else {[id]} ∪ message_ids c.
Proof. unfold insert_id. by case_match. Qed.

(** A row with a fresh id joins the end of the run. *)
Lemma run_row_steps f c run row visible :
  (row_msgid row <> [] -> row_msgid row ∉ message_ids c) -> sequence row = next_sequence c ->
  let f' := claim_channel_context (conv_key c) (conv_is_channel c) (row_msgid row) visible f in
  let c' := (insert_id (row_msgid row) c) <| next_sequence := (next_sequence c + 1)%Z |> in
  keeps f c f' c' /\ (well_formed f c run -> well_formed f' c' (run ++ [row])).
Proof.
  intros Hid Hseq f' c'. destruct (insert_id_same (row_msgid row) c) as (Hk & Hc & Hm & _ & Hids).
  assert (Hk' : conv_key c' = conv_key c) by exact Hk.
  assert (Hc' : conv_is_channel c' = conv_is_channel c) by (unfold conv_is_channel, c'; cbn; by rw Hc).
  split.
  - constructor; [done..|]. by intros id home [(_ & -> & _)|H]%claims_claim Hne.
  - intros [Ht Hcl]. constructor.
    + change (messages c') with (messages (insert_id (row_msgid row) c)).
      change (message_ids c') with (message_ids (insert_id (row_msgid row) c)).
      change (next_sequence c') with (next_sequence c + 1)%Z. rw Hm Hids app_assoc fmap_app. cbn.
      unfold tag at 2. rw Hseq. by apply tags_ok_add.
    + rw Hk' Hc'. change (message_ids c') with (message_ids (insert_id (row_msgid row) c)). rw Hids.
      intros id [(-> & _ & Hne & ->)|H]%claims_claim.
      * split; [done|]. destruct (row_msgid row); [done|]. cbn [is_empty]. set_solver.
      * destruct (Hcl _ H) as [-> Hin]. split; [done|]. case_match; set_solver.
Qed.

Lemma claim_invisible home b id f : claim_channel_context home b id false f = f.
Proof. unfold claim_channel_context. by destruct (is_empty id), b. Qed.

Lemma insert_id_safe s id : splice_safe s (s <| conv := insert_id id (conv s) |>).
Proof.
  destruct s as [f c rows i]. destruct (insert_id_same id c) as (Hk & Hc & Hm & Hn & Hids).
  split; [|cbn; by rw Hm]. apply untouched; cbn; rw ?Hm ?Hids ?Hn //; [by rw /conv_is_channel Hc|case_match; set_solver].
Qed.

Lemma run_row_safe s row visible :
  (row_msgid row <> [] -> row_msgid row ∉ message_ids (conv s)) -> sequence row = next_sequence (conv s) ->
  splice_safe s (mkSplice
    (claim_channel_context (conv_key (conv s)) (conv_is_channel (conv s)) (row_msgid row) visible (facts s))
    ((insert_id (row_msgid row) (conv s)) <| next_sequence := (next_sequence (conv s) + 1)%Z |>) (run s ++ [row]) (at_ s)).
Proof.
  intros Hid Hseq. split; [by apply run_row_steps|]. cbn. by rw (proj1 (proj2 (proj2 (insert_id_same _ _)))).
Qed.

Lemma admit_membership_safe line s :
  let id := membership_msgid line in
  (id <> [] -> id ∉ message_ids (conv s)) ->
  splice_safe s (admit_membership_replay line (s <| conv := insert_id id (conv s) |>)).1.
Proof.
  intros id Hid. destruct s as [f c rows i]. unfold admit_membership_replay. cbn [facts conv].
  case_decide; [apply insert_id_safe|].
  match goal with |- context [match ?o with Some p => p | None => _ end] => destruct o as [[s' result]|] eqn:Hf end.
  - etrans; [apply (insert_id_safe _ id)|]. case_match; [done|]. case_match eqn:Hr.
    + injection Hf as ->. by eapply fold_in_run_safe.
    + by eapply fold_above_safe.
  - cbn [fst]. destruct (insert_id_same id c) as (_ & _ & _ & Hn & _). cbn in Hn |- *. rw Hn.
    match goal with |- context [rows ++ [?row]] => pose proof (run_row_safe (mkSplice f c rows i) row false) as H2 end.
    rw claim_invisible in H2. by apply H2.
Qed.

Lemma splice_line_safe event mapping s notes line : splice_safe s (splice_line event mapping (s, notes) line).1.
Proof.
  destruct s as [f c rows i]. unfold splice_line. cbn [facts conv ReducerTranscript.run at_]. case_match eqn:Hb; [by case_match|].
  assert (Hid : replay_msgid line <> [] -> replay_msgid line ∉ message_ids c).
  { intros Hne. apply andb_false_iff in Hb as [Hb|Hb]; [by destruct (replay_msgid line)|]. by apply bool_decide_eq_false in Hb. }
  destruct (channel_context_blocks_dm f (conv_key c) (conv_is_channel c) (replay_msgid line)); [done|].
  destruct (decide (replay_kind line = TagEvent)).
  - pose proof (admit_membership_safe
      (mkReplayMembership (replay_body line) (replay_timestamp line) (replay_msgid line) (replay_server_time line))
      (mkSplice f c rows i) Hid) as Hs. cbn [membership_msgid] in Hs.
    destruct (admit_membership_replay _ _) as [s' result]. by destruct result.
  - destruct (matched_sequence _ _ _); [done|]. destruct (insert_id_same (replay_msgid line) c) as (Hk & Hc & Hm & Hn & Hids).
    match goal with |- context [rows ++ [?row]] =>
      pose proof (run_row_safe (mkSplice f c rows i) row (replay_only_visible line)) as H2 end.
    cbn [fst]. unfold conv_is_channel in *. rw Hk Hc Hn. rw Hn in H2. by apply H2.
Qed.

Lemma splice_lines_safe event mapping s notes lines : splice_safe s (foldl (splice_line event mapping) (s, notes) lines).1.
Proof.
  revert s notes. induction lines as [|line lines IH]; intros s notes; [reflexivity|]. cbn [foldl].
  pose proof (splice_line_safe event mapping s notes line) as H. destruct (splice_line event mapping (s, notes) line) as [s' notes'].
  etrans; [exact H|apply IH].
Qed.

(** ** The end of a splice *)

Lemma arrival_safe key a st : safe st (note_chat_arrival key a st).
Proof. destruct (note_chat_arrival_steps key a st) as (H1 & H2 & _). split; [done|]. unfold bounded. by rw H2. Qed.

Lemma cap_safe st : safe st (cap_messages st).
Proof. split; [apply cap_messages_steps|intros _; apply cap_messages_bounded]. Qed.

Lemma note_run_row_safe event st row : safe st (note_run_row event st row).
Proof. unfold note_run_row. case_decide; [reflexivity|apply arrival_safe]. Qed.

Definition ends s st' : Prop :=
  keeps (facts s) (conv s) st'.1 st'.2 /\ (well_formed (facts s) (conv s) (run s) -> well_formed st'.1 st'.2 []).

Lemma ends_steps s st st' : ends s st -> steps st st' -> ends s st'.
Proof. intros [H1 H2] [H3 H4]. split; [by eapply keeps_trans|auto]. Qed.

Lemma persist_all_claims c rows f : claims (foldl (fun f row => persist_message c row f) f rows) = claims f.
Proof. revert f. induction rows as [|row rows IH]; intros f; cbn; [done|]. by rw IH persist_message_claims. Qed.

Lemma insert_run_ends event previous_size s :
  ends s (insert_run event previous_size s) /\ bounded (insert_run event previous_size s).2.
Proof.
  destruct s as [f c rows i]. unfold insert_run. cbn [facts conv ReducerTranscript.run at_].
  set (c1 := c <| messages := take (Nat.min i (length (messages c))) (messages c) ++ rows
              ++ drop (Nat.min i (length (messages c))) (messages c) |>).
  set (f1 := if (i =? 0)%nat then _ else _). set (c2 := update_channel _ c1).
  set (c3 := if (i =? previous_size)%nat then c2 else _). set (capped := if _ && _ then _ else _).
  assert (Hc3 : steps (f1, c1) (f1, c3)).
  { transitivity (f1, c2); [apply safe_update_channel|]. unfold c3. case_match; [reflexivity|]. by apply steps_untouched. }
  assert (Hcap : steps (f1, c1) capped /\ bounded capped.2).
  { unfold capped. case_match; (split; [etrans; [exact Hc3|]|]).
    - etrans; [|apply cap_messages_prefer_tail_steps]. by apply steps_untouched.
    - apply cap_messages_prefer_tail_bounded.
    - apply cap_messages_steps.
    - apply cap_messages_bounded. }
  assert (Hnotes : safe capped (foldl (note_run_row event) capped rows)) by (apply foldl_safe; intros; apply note_run_row_safe).
  split; [|by apply Hnotes, Hcap]. apply (ends_steps _ (f1, c1)).
  - apply untouched; try done; cbn.
    + unfold f1. case_match; [apply persist_prepend_claims|apply persist_all_claims].
    + rw app_nil_r (Permutation_app_comm rows) app_assoc take_drop //.
  - etrans; [apply Hcap|apply Hnotes].
Qed.

Lemma record_kept_safe event notes st : safe st (record_kept event notes st).
Proof. destruct st as [f c]. unfold record_kept. apply safe_untouched; try done. cbn. by case_match. Qed.

Lemma splice_index_safe event use f c : safe (f, c) (f, (splice_index event use c).1).
Proof.
  unfold splice_index, take_splice_index. destruct use; [|reflexivity].
  destruct (_ && _); [reflexivity|]. destruct (channel c) as [half|] eqn:Hc; [|reflexivity].
  destruct (history_anchor half) as [anchor|]; [|reflexivity]. destruct (anchor_index c anchor); [reflexivity|].
  apply safe_update_channel.
Qed.

Theorem splice_history_safe event use st : safe st (splice_history event use st).
Proof.
  destruct st as [f c]. unfold splice_history. pose proof (splice_index_safe event use f c) as Hi.
  destruct (splice_index event use c) as [c0 [start|]]; [|exact Hi]. cbn [fst] in Hi. etrans; [exact Hi|]. clear Hi.
  match goal with |- context [foldl ?g ?a ?l] => pose proof (splice_lines_safe event (mapping_of f (network_id (history_conversation event)))
    (mkSplice f c0 [] start) [] l) as [Hl Hb]; destruct (foldl g a l) as [s notes] end.
  cbn [fst] in Hl, Hb. etrans; [|apply record_kept_safe].
  match goal with |- context [if existsb ?p ?l then ?x else s] => set (s' := if existsb p l then x else s) end.
  assert (Hs' : splice_safe (mkSplice f c0 [] start) s').
  { etrans; [by split; [exact Hl|exact Hb]|]. unfold s'. case_match; [|reflexivity].
    split; [|done]. by apply untouched. }
  clearbody s'. clear Hl Hb s. rename s' into s. destruct (is_empty (run s)) eqn:Hr; cbn [negb].
  - assert (Hrun : run s = []) by by destruct (run s). destruct Hs' as [[Hk Hw] Hb]. cbn in Hw, Hb, Hk.
    transitivity (facts s, conv s); [|case_match; [by apply safe_untouched|reflexivity]].
    split; [split; [done|by rw -{2}Hrun]|]. unfold bounded. cbn. lia.
  - destruct (insert_run_ends event (length (messages c0)) s) as [[Hk Hw] Hbound]. destruct Hs' as [[Hk' Hw'] Hb].
    split; [|done]. split; [by eapply keeps_trans|]. cbn. auto.
Qed.

(** ** Live rows *)

Lemma append_event_safe b col membership st : safe st (append_event b col membership st).
Proof. apply append_event_steps. Qed.

Lemma append_whois_safe b st : safe st (append_whois b st).
Proof. destruct (append_local_steps (local_row KindWhois b false) st eq_refl). by split. Qed.

Lemma append_error_safe b st : safe st (append_error b st).
Proof. destruct (append_local_steps (local_row KindError b false) st eq_refl). by split. Qed.

Lemma hydrate_safe st : safe st (hydrate_from_log st).
Proof. apply hydrate_from_log_steps. Qed.

Lemma admit_chat_safe line f c : conv_key c = chat_key line -> safe (f, c) (admit_chat line (f, c)).
Proof.
  intros Hkey. unfold admit_chat. case_match eqn:Hb; [reflexivity|].
  set (e := chat_event line) in *. destruct (insert_id_same (chat_msgid e) c) as (Hk & Hc & Hm & Hn & Hids).
  set (row := mkRow _ _ _ _ _ _ _ _ _ _ _).
  pose proof (admit_steps f c row (chat_only_visible e)) as Hadmit.
  set (f1 := claim_channel_context (chat_key line) _ _ _ f). set (c1 := admit_message row _).
  assert (H1 : steps (f, c) (f1, c1)).
  { unfold f1, c1. rw -Hkey. apply Hadmit. cbn. intros Hne.
    apply andb_false_iff in Hb as [Hb|Hb]; [by destruct (chat_msgid e)|].
    apply orb_false_iff in Hb as [Hb _]. by apply bool_decide_eq_false in Hb. }
  assert (H2 : steps (f, c) (cap_messages (persist_message c1 row f1, c1)) /\
               bounded (cap_messages (persist_message c1 row f1, c1)).2).
  { split; [|apply cap_messages_bounded]. etrans; [exact H1|]. etrans; [|apply cap_messages_steps].
    apply facts_steps, persist_message_claims. }
  destruct (cap_messages _) as [f2 c2]. destruct H2 as [H2 Hbound].
  etrans; [|apply arrival_safe]. split; [|done]. etrans; [exact H2|]. by apply steps_untouched.
Qed.

(** ** Badges, captions and the channel half *)

Lemma recount_safe f key c : safe (f, c) (f, recount_unread_from_read_marker f key c).
Proof.
  unfold recount_unread_from_read_marker. transitivity (f, clear_badges c <| unread_mark := None |>); [by apply safe_untouched|].
  generalize (clear_badges c <| unread_mark := None |>) as c0. induction (messages c) as [|row rows IH]; intros c0; [reflexivity|].
  cbn [foldl]. etrans; [|apply IH]. unfold recount_row. do 3 (case_match; [reflexivity|]).
  match goal with |- safe _ (_, count_line ?a ?b ?w ?d ?e _) => pose proof (count_line_same a b w d e c0) as (Hk & Hch & Hm & Hids & Hn & _) end.
  apply safe_untouched; try done. unfold conv_is_channel. cbn. by rw Hch.
Qed.

Lemma refresh_safe network f c : safe (f, c) (f, c <| messages := refresh_row f network <$> messages c |>).
Proof.
  split; [|unfold bounded; cbn; by rw length_fmap]. apply untouched; try done. cbn. rw !app_nil_r -list_fmap_compose.
  erewrite list_fmap_ext; [done|]. done.
Qed.

Lemma clear_messages_safe f c epoch trimmed' : safe (f, c)
  (f, update_channel (fun half => half <| history_anchor := None |>)
        (((c <| trimmed := trimmed' |>) <| messages := [] |>) <| splice_epoch := epoch |>)).
Proof.
  etrans; [|apply safe_update_channel]. split; [|unfold bounded; cbn; lia].
  split; [by constructor|]. intros [Ht Hc]. constructor; [|done]. cbn. apply tags_ok_nil, (tags_next _ _ _ Ht).
Qed.

Lemma clear_typing_of_safe f normalized everyone c : safe (f, c) (f, clear_typing_of normalized everyone c).
Proof. by apply safe_untouched. Qed.

Lemma welcome_safe f c : safe (f, c) (f, welcome_conversation c).
Proof. unfold welcome_conversation. etrans; [apply safe_update_channel|]. by apply safe_untouched. Qed.

Lemma join_channel_safe e normalized self_join b st : safe st (join_channel e normalized self_join b st).
Proof.
  destruct st as [f c]. unfold join_channel. destruct (channel c) as [half|] eqn:Hc; [|reflexivity].
  etrans; [|apply append_event_safe]. by eapply safe_channel.
Qed.

Lemma depart_safe normalized self_leaves f c : safe (f, c) (f, (depart normalized self_leaves c).1).
Proof.
  unfold depart. destruct (channel c) as [half|] eqn:Hc; [|reflexivity]. destruct self_leaves; [|by eapply safe_channel].
  apply safe_untouched; try done. unfold conv_is_channel. cbn. by rw Hc.
Qed.

Lemma quit_channel_safe normalized b st : safe st (quit_channel normalized b st).
Proof.
  destruct st as [f c]. unfold quit_channel. destruct (channel c) as [half|] eqn:Hc; [|reflexivity].
  destruct (members half !! normalized); [|reflexivity]. etrans; [|apply append_event_safe]. by eapply safe_channel.
Qed.

Lemma rekey_typing_safe old new display f c : safe (f, c) (f, rekey_typing old new display c).
Proof. unfold rekey_typing. case_match; [by apply safe_untouched|reflexivity]. Qed.

Lemma rename_member_safe old new display b st : safe st (rename_member old new display b st).
Proof.
  destruct st as [f c]. unfold rename_member. destruct (channel c) as [half|] eqn:Hc; [|reflexivity].
  destruct (members half !! old); [|reflexivity]. etrans; [|apply append_event_safe]. by eapply safe_channel.
Qed.

Lemma mode_channel_safe e changes st : safe st (mode_channel e changes st).
Proof.
  unfold mode_channel. pose proof (append_event_safe (mode_caption e) false false st) as H.
  destruct (append_event _ _ _ st) as [f c]. etrans; [exact H|apply safe_update_channel].
Qed.

(** ** Merging a renamed conversation *)

Lemma merge_row_steps mark f existing row : steps (f, existing) (f, merge_row mark existing row).
Proof.
  unfold merge_row. case_match eqn:Hb; [reflexivity|]. destruct (insert_id_same (row_msgid row) existing) as (Hk & Hc & Hm & Hn & Hids).
  set (row' := row <| sequence := _ |>). pose proof (admit_steps f existing row' false) as H. rw claim_invisible in H.
  etrans; [apply H|].
  - cbn. intros Hne. apply andb_false_iff in Hb as [Hb|Hb]; [by destruct (row_msgid row)|]. by apply bool_decide_eq_false in Hb.
  - match goal with |- context [if ?b then _ else _] => destruct b end; by apply steps_untouched.
Qed.

Lemma merge_conversation_safe moved display st : safe st (merge_conversation moved display st).
Proof.
  destruct st as [f c]. unfold merge_conversation.
  set (c1 := foldl _ c (messages moved)).
  assert (Hc1 : steps (f, c) (f, c1)).
  { unfold c1. generalize c. induction (messages moved) as [|row rows IH]; intros c0; [reflexivity|]. cbn [foldl].
    etrans; [apply merge_row_steps|apply IH]. }
  pose proof (cap_messages_steps (f, c1)) as Hs. pose proof (cap_messages_bounded (f, c1)) as Hb.
  destruct (cap_messages (f, c1)) as [f2 c2]. split; [|intros _; exact Hb].
  etrans; [exact Hc1|]. etrans; [exact Hs|]. by apply steps_untouched.
Qed.
End Safe.
