(* ===== verification/ReducerInvariants.v ===== *)
(** * ReducerInvariants: what every reachable reducer state satisfies

    [store_ok] is the invariant of the table of conversations and the claims beside it. Every
    event and every operation of the controller preserves it; [reachable] is their closure. *)

From S2P Require Import Prelude Text CaseMapping ServerFeatures OrdMap SessionTypes Platform Typing.
From S2P Require Import Presence Events Conversation MembershipNoise ReducerState ReducerTranscript ReducerSplice Reducer ReducerRows ReducerSteps.

Section Invariants.
Context `{platform : Platform} `{stores : Stores}.

Implicit Types (f : Facts) (c : ConversationState) (m : Store) (r : EventReducer) (key : ConversationKey).

(** One entry of the table: under its own key, with well formed and bounded rows. *)
Definition entry_ok (e : ConversationKey * ConversationState) : Prop :=
  conv_key e.2 = e.1 /\ tags_ok (tag <$> messages e.2) (message_ids e.2) (next_sequence e.2) /\ bounded e.2.

Record store_ok f m : Prop := {
  ok_ordered : ordered m;
  ok_keys : NoDup (bt_keys m);
  ok_entries : Forall entry_ok m;
  ok_claims : forall id home, claims f !! id = Some home ->
    exists c, (home, c) ∈ m /\ conv_is_channel c = true /\ id ∈ message_ids c;
}.

Lemma entry_unique m key c c' : NoDup (bt_keys m) -> (key, c) ∈ m -> (key, c') ∈ m -> c = c'.
Proof.
  unfold bt_keys. induction m as [|[k0 c0] m IH]; cbn; [by intros _ ?%elem_of_nil|]. intros [Hn Hd]%NoDup_cons.
  assert (Hout : forall x, (k0, x) ∉ m) by (intros x Hx; apply Hn, list_elem_of_fmap; by exists (k0, x)).
  rw !elem_of_cons. intros [H1|H1] [H2|H2]; simplify_eq; naive_solver.
Qed.

Lemma store_well_formed f m key c : store_ok f m -> (key, c) ∈ m -> conv_key c = key /\ well_formed f c [] /\ bounded c.
Proof.
  intros [_ Hk He Hc] Hin. pose proof (proj1 (Forall_forall _ _) He _ Hin) as (Hkey & Ht & Hb). cbn in Hkey, Ht, Hb.
  split; [done|]. split; [|done]. constructor; [by rw app_nil_r|].
  intros id Hid. rw Hkey in Hid. destruct (Hc _ _ Hid) as (c' & Hin' & H'). by rw (entry_unique _ _ _ _ Hk Hin Hin').
Qed.

(** A safe step on one entry, in place. *)
Lemma store_ok_replace f f' pre key c c' post :
  store_ok f (pre ++ (key, c) :: post) -> safe (f, c) (f', c') -> store_ok f' (pre ++ (key, c') :: post).
Proof.
  intros Hok [[[Hkey Hch Hcl] Hwf] Hb]. cbn in Hkey, Hch, Hcl, Hwf, Hb.
  destruct (store_well_formed f _ key c Hok) as (Hk & Hw & Hbound); [set_solver|].
  destruct (Hwf Hw) as [Ht Hc]. rw app_nil_r in Ht. destruct Hok as [Ho Hn He Hclaims].
  assert (Hkeys : bt_keys (pre ++ (key, c') :: post) = bt_keys (pre ++ (key, c) :: post)) by (unfold bt_keys; by rw !fmap_app).
  constructor.
  - unfold ordered. by rw Hkeys.
  - by rw Hkeys.
  - apply Forall_app in He as [He1 He2]. apply Forall_cons in He2 as [He0 He2]. apply Forall_app. split; [done|].
    constructor; [|done]. split; [cbn; congruence|]. split; [done|]. by apply Hb.
  - intros id home Hid. destruct (decide (home = key)) as [->|Hne].
    + exists c'. split; [set_solver|]. apply Hc. congruence.
    + destruct (Hclaims id home) as (c0 & Hin & H0); [apply Hcl; congruence|]. exists c0. split; [|done]. set_solver.
Qed.

Definition reducer_ok r : Prop := store_ok (net_facts r) (conversations r).

(** ** How an operation touches the table *)

Lemma get_split m key c :
  ordered m -> bt_get key m = Some c ->
  exists pre post, m = pre ++ (key, c) :: post /\ forall c', bt_insert key c' m = pre ++ (key, c') :: post.
Proof. apply bt_insert_split. Qed.

Lemma with_conversation_ok key g r :
  (forall c, bt_get key (conversations r) = Some c -> conv_key c = key -> safe (net_facts r, c) (g (net_facts r, c))) ->
  reducer_ok r -> reducer_ok (with_conversation key g r).
Proof.
  intros Hg Hok. unfold with_conversation. destruct (bt_get key (conversations r)) as [c|] eqn:Hget; [|done].
  destruct (get_split _ _ _ (ok_ordered _ _ Hok) Hget) as (pre & post & Hm & Hins).
  assert (Hkey : conv_key c = key) by (eapply store_well_formed; [exact Hok|by apply bt_get_elem]).
  specialize (Hg c eq_refl Hkey). destruct (g (net_facts r, c)) as [f' c']. unfold reducer_ok. cbn. rw Hins.
  eapply store_ok_replace; [|exact Hg]. by rw -Hm.
Qed.

Lemma update_conversation_ok key g r :
  (forall f c, safe (f, c) (f, g c)) -> reducer_ok r -> reducer_ok (update_conversation key g r).
Proof. intros Hg. apply with_conversation_ok. auto. Qed.

(** The state of the loop carries the facts, perhaps unchanged. *)
Lemma traverse_ok {S} (facts_of : S -> Facts) (g : S -> ConversationState -> S * ConversationState) :
  (forall s c, safe (facts_of s, c) (facts_of (g s c).1, (g s c).2)) ->
  forall m pre s, store_ok (facts_of s) (pre ++ m) ->
  store_ok (facts_of (bt_traverse g s m).1) (pre ++ (bt_traverse g s m).2).
Proof.
  intros Hg. induction m as [|[key c] m IH]; intros pre s Hok; [done|]. cbn.
  pose proof (Hg s c) as Hs. destruct (g s c) as [s' c']. pose proof (store_ok_replace _ _ _ _ _ _ _ Hok Hs) as Hok'.
  specialize (IH (pre ++ [(key, c')]) s'). destruct (bt_traverse g s' m) as [s2 m2]. cbn in *.
  rw -!app_assoc in IH. by apply IH.
Qed.

Lemma each_of_network_ok network g r :
  (forall st, safe st (g st)) -> reducer_ok r -> reducer_ok (each_of_network network g r).
Proof.
  intros Hg Hok. unfold each_of_network, reducer_ok.
  match goal with |- context [bt_traverse ?s _ _] => pose proof (traverse_ok id s) as H end.
  specialize (H ltac:(intros f c; cbn beta; case_match; [destruct (g (f, c)) eqn:E; rw -E; apply Hg|reflexivity]) (conversations r) [] (net_facts r) Hok).
  by destruct (bt_traverse _ _ _).
Qed.

(** Facts whose claims are among the old ones, and still name a conversation. *)
Lemma store_ok_facts f f' m :
  (forall id home, claims f' !! id = Some home -> claims f !! id = Some home) -> store_ok f m -> store_ok f' m.
Proof. intros H [H1 H2 H3 H4]. constructor; try done. intros id home Hid. by apply (H4 id home), H. Qed.

Lemma set_facts_ok g r :
  (forall f, claims (g f) = claims f) -> reducer_ok r -> reducer_ok (set_facts g r).
Proof. intros H. apply store_ok_facts. intros id home. by rw H. Qed.

(** A new conversation, under a key that is free. *)
Lemma store_ok_insert f f' m key c c' :
  store_ok f m -> bt_get key m = None -> conv_key c = key -> well_formed f c [] -> bounded c ->
  safe (f, c) (f', c') -> store_ok f' (bt_insert key c' m).
Proof.
  intros [Ho Hn He Hc] Hget Hkey Hw Hb [[[Hk Hch Hcl] Hwf] Hbound]. cbn in *.
  destruct (Hwf Hw) as [Ht Hc']. rw app_nil_r in Ht. constructor.
  - by apply ordered_insert.
  - rw bt_keys_insert_perm //. apply NoDup_cons. split; [by apply bt_get_None_keys|done].
  - apply bt_insert_Forall; [|done]. split; [cbn; congruence|]. split; [done|]. by apply Hbound.
  - assert (Hin' : forall e, e ∈ (key, c') :: m -> e ∈ bt_insert key c' m) by (intros e; by rw bt_insert_perm).
    intros id home Hid. destruct (decide (home = key)) as [->|Hne].
    + exists c'. split; [set_solver|]. apply Hc'. congruence.
    + destruct (Hc id home) as (c0 & Hin & H0); [apply Hcl; congruence|]. exists c0. split; [set_solver|done].
Qed.

(** Entries leave; no claim names one of them. *)
Lemma store_ok_sublist f f' m m' :
  sublist m' m -> (forall id home, claims f' !! id = Some home -> claims f !! id = Some home) ->
  (forall id home c, claims f' !! id = Some home -> (home, c) ∈ m -> (home, c) ∈ m') ->
  store_ok f m -> store_ok f' m'.
Proof.
  intros Hsub Hcl Hin [Ho Hn He Hc]. constructor.
  - by eapply ordered_sublist.
  - eapply sublist_NoDup; [exact Hn|]. by apply fmap_sublist.
  - apply Forall_forall. intros e Hm'. eapply (proj1 (Forall_forall _ _) He). by eapply elem_of_sublist.
  - intros id home Hid. destruct (Hc id home) as (c & Hc' & H); [by apply Hcl|]. exists c. split; [by eapply Hin|done].
Qed.

(** ** Creating and dropping conversations *)

Lemma new_well_formed f m c :
  store_ok f m -> bt_get (conv_key c) m = None -> messages c = [] -> (0 <= next_sequence c)%Z -> well_formed f c [].
Proof.
  intros [_ _ _ Hc] Hget Hm Hn. constructor; [rw Hm; by apply tags_ok_nil|]. intros id Hid.
  destruct (Hc _ _ Hid) as (c' & Hin & _). exfalso. apply (proj1 (bt_get_None_keys _ m) Hget).
  apply list_elem_of_fmap. by exists (conv_key c, c').
Qed.

Lemma ensure_key_ok key target cause r : reducer_ok r -> reducer_ok (ensure_key key target cause r).1.
Proof.
  intros Hok. unfold ensure_key. destruct (bt_contains key (conversations r)) eqn:Hin; [done|].
  assert (Hget : bt_get key (conversations r) = None).
  { apply eq_None_not_Some. intros H. apply bt_contains_spec in H. congruence. }
  do 2 (case_match; [done|]).
  set (c := if is_channel _ _ then _ else _).
  assert (Hc : conv_key c = key /\ messages c = [] /\ next_sequence c = 0%Z) by (unfold c; by destruct (is_channel _ _)).
  clearbody c. destruct Hc as (Hkey & Hm & Hn). pose proof (hydrate_safe (net_facts r, c)) as Hs.
  destruct (hydrate_from_log _) as [f' c']. unfold reducer_ok. cbn.
  eapply store_ok_insert; [exact Hok|done|exact Hkey| | |exact Hs].
  - eapply new_well_formed; [exact Hok|by rw Hkey|done|by rw Hn].
  - unfold bounded. rw Hm. cbn. lia.
Qed.

Lemma ensure_conversation_ok key target cause r : reducer_ok r -> reducer_ok (ensure_conversation key target cause r).1.
Proof.
  intros Hok. unfold ensure_conversation. pose proof (ensure_key_ok key target cause r Hok) as H.
  by destruct (ensure_key key target cause r).
Qed.

Lemma remove_elem key m home c : (home, c) ∈ m -> home <> key -> (home, c) ∈ bt_remove key m.
Proof.
  intros Hin Hne. induction m as [|[k v] m IH]; [by apply elem_of_nil in Hin|]. unfold bt_remove in *. cbn.
  apply elem_of_cons in Hin as [[= <- <-]|Hin].
  - rw key_eqb_ne //. by left.
  - case_match; [by apply IH|right; by apply IH].
Qed.

Lemma claims_filter (P : MsgId * ConversationKey -> Prop) `{!forall e, Decision (P e)} f id home :
  base.filter P (channel_context_msgids f) !! id = Some home -> claims f !! id = Some home /\ P (id, home).
Proof. apply map_lookup_filter_Some. Qed.

Lemma remove_conversation_ok key r : reducer_ok r -> reducer_ok (remove_conversation key r).
Proof.
  intros Hok. unfold remove_conversation.
  assert (H : forall r0, claims (net_facts r0) = claims (net_facts r) -> conversations r0 = conversations r ->
    reducer_ok (set_facts (clear_channel_context_home key) r0 <| conversations := bt_remove key (conversations r0) |>)).
  { intros r0 Hc Hm. unfold reducer_ok. cbn. rw Hm. eapply store_ok_sublist; [apply bt_remove_sublist| | |exact Hok].
    - intros id home [H _]%claims_filter. congruence.
    - intros id home c [_ H]%claims_filter Hin. by apply remove_elem. }
  case_decide; by apply H.
Qed.

Lemma drop_direct_message_ok key r : reducer_ok r -> reducer_ok (drop_direct_message key r).1.
Proof. intros Hok. unfold drop_direct_message. do 2 (case_match; try done). by apply remove_conversation_ok. Qed.

Lemma drop_channel_ok key r : reducer_ok r -> reducer_ok (drop_channel key r).1.
Proof. intros Hok. unfold drop_channel. do 2 (case_match; try done). by apply remove_conversation_ok. Qed.

Lemma network_facts_forgotten_claims network f : claims (network_facts_forgotten network f) = claims f.
Proof. unfold network_facts_forgotten. by repeat case_match. Qed.

Lemma forget_network_ok network r : reducer_ok r -> reducer_ok (forget_network network r).
Proof.
  intros Hok. unfold forget_network. case_match; [done|]. apply set_facts_ok; [apply network_facts_forgotten_claims|].
  unfold drop_pending_playback, drop_kept_playback, clear_closed_network. rw H. unfold reducer_ok. cbn.
  eapply store_ok_sublist; [apply sublist_filter| | |exact Hok].
  - by intros id home [Hc _]%claims_filter.
  - intros id home c [_ Hc]%claims_filter Hin. apply list_elem_of_filter. split; [cbn; by rw str_eqb_ne|done].
Qed.

(** ** The other operations of the controller *)

Lemma update_closed_store_ok g key r : reducer_ok r -> reducer_ok (update_closed_store g key r).
Proof. intros Hok. unfold update_closed_store. case_match; [by apply set_facts_ok|done]. Qed.

Lemma note_closed_ok key r : reducer_ok r -> reducer_ok (note_closed key r).
Proof. intros Hok. unfold note_closed. case_match; [done|]. by apply update_closed_store_ok, set_facts_ok. Qed.

Lemma clear_closed_ok key r : reducer_ok r -> reducer_ok (clear_closed key r).
Proof. intros Hok. by apply update_closed_store_ok, set_facts_ok. Qed.

Lemma clear_closed_network_ok network r : reducer_ok r -> reducer_ok (clear_closed_network network r).
Proof. intros Hok. unfold clear_closed_network. case_match; [done|]. by apply set_facts_ok. Qed.

Lemma drop_pending_playback_ok network r : reducer_ok r -> reducer_ok (drop_pending_playback network r).
Proof. intros Hok. unfold drop_pending_playback. case_match; [done|]. by apply set_facts_ok. Qed.

Lemma drop_kept_playback_ok network r : reducer_ok r -> reducer_ok (drop_kept_playback network r).
Proof. intros Hok. unfold drop_kept_playback. case_match; [done|]. by apply set_facts_ok. Qed.

Lemma mark_channel_left_ok key r : reducer_ok r -> reducer_ok (mark_channel_left key r).1.
Proof.
  intros Hok. unfold mark_channel_left. do 2 (case_match; try done). apply update_conversation_ok; [|done].
  intros f c0. etrans; [apply safe_update_channel|]. by apply safe_untouched.
Qed.

Lemma release_stale_names_sync_ok (chosen : option ConversationKey) now r :
  reducer_ok r -> reducer_ok (release_stale_names_sync chosen now r).1.
Proof.
  intros Hok. unfold release_stale_names_sync. repeat (case_match; try done);
    (apply update_conversation_ok; [intros; apply safe_update_channel|done]).
Qed.

Lemma clear_messages_ok key r : reducer_ok r -> reducer_ok (clear_messages key r).
Proof. apply update_conversation_ok. intros f c. apply clear_messages_safe. Qed.

Lemma set_muted_ok key value r : reducer_ok r -> reducer_ok (set_muted key value r).
Proof.
  intros Hok. unfold set_muted. case_match; [done|]. apply update_conversation_ok; [|by apply set_facts_ok].
  intros f c. destruct value; by apply safe_untouched.
Qed.

Lemma mark_selected_ok key r : reducer_ok r -> reducer_ok (mark_selected key r).
Proof.
  intros Hok. unfold mark_selected. case_decide; [done|]. apply update_conversation_ok; [|by apply set_facts_ok].
  intros f c. case_match; by apply safe_untouched.
Qed.

Lemma mark_read_ok key r : reducer_ok r -> reducer_ok (mark_read key r).1.
Proof.
  intros Hok. unfold mark_read. do 2 (case_match; try done). apply update_conversation_ok; [|done].
  intros f c0. by apply safe_untouched.
Qed.

Lemma update_key_ok key g r : (forall c, safe (net_facts r, c) (net_facts r, g c)) ->
  reducer_ok r -> reducer_ok (update_conversation key g r).
Proof. intros Hg. apply with_conversation_ok. auto. Qed.

Lemma refresh_mentions_ok network r : reducer_ok r -> reducer_ok (refresh_mentions network r).
Proof. apply each_of_network_ok. intros [f c]. apply refresh_safe. Qed.

Lemma set_server_features_ok network features r : reducer_ok r -> reducer_ok (set_server_features network features r).
Proof. intros Hok. by apply refresh_mentions_ok, set_facts_ok. Qed.

Lemma set_highlight_words_ok network words r : reducer_ok r -> reducer_ok (set_highlight_words network words r).
Proof. intros Hok. unfold set_highlight_words. case_match; [done|]. by apply refresh_mentions_ok, set_facts_ok. Qed.

Lemma clear_typing_facts_ok network r : reducer_ok r -> reducer_ok (clear_typing_facts network r).
Proof. apply each_of_network_ok. intros [f c]. by apply safe_untouched. Qed.

Lemma clear_presence_facts_ok network away metadata r : reducer_ok r -> reducer_ok (clear_presence_facts network away metadata r).
Proof. intros Hok. unfold clear_presence_facts. case_match; [by apply set_facts_ok|done]. Qed.

Lemma apply_server_read_marker_ok key marker r : reducer_ok r -> reducer_ok (apply_server_read_marker key marker r).1.
Proof.
  intros Hok. unfold apply_server_read_marker. repeat (case_match; try done);
    (apply with_conversation_ok; [|done]; intros c0 _ _; etrans; [|apply recount_safe]; by apply safe_untouched).
Qed.

Lemma mark_all_read_ok r : reducer_ok r -> reducer_ok (mark_all_read r).1.
Proof.
  intros Hok. unfold mark_all_read.
  match goal with |- context [bt_traverse ?g _ _] => pose proof (traverse_ok (fun _ => net_facts r) g) as H end.
  specialize (H ltac:(intros s c; cbn beta; case_match; by apply safe_untouched) (conversations r) [] false Hok).
  by destruct (bt_traverse _ _ _).
Qed.

(** ** Replay batches *)

Lemma forget_pending_ok key r : reducer_ok r -> reducer_ok (forget_pending key r).
Proof. by apply set_facts_ok. Qed.

Lemma splice_into_ok key event use r : reducer_ok r -> reducer_ok (splice_into key event use r).
Proof. apply with_conversation_ok. intros c _ _. apply splice_history_safe. Qed.

Lemma hold_pending_playback_ok event r : reducer_ok r -> reducer_ok (hold_pending_playback event r).
Proof. intros Hok. unfold hold_pending_playback. case_match; [done|]. by apply set_facts_ok. Qed.

(** A batch goes into a conversation that may have to be created. *)
Lemma ensure_then_ok key target cause g r :
  (forall r, reducer_ok r -> reducer_ok (g r)) -> reducer_ok r ->
  reducer_ok (let '(r, exists_) := ensure_key key target cause r in if exists_ then g r else r).
Proof.
  intros Hg Hok. pose proof (ensure_key_ok key target cause r Hok) as H.
  destruct (ensure_key key target cause r) as [r' []]; [by apply Hg|done].
Qed.

Lemma absorb_ok event r r' : reducer_ok r -> absorb_pending_query_playback event r = Some r' -> reducer_ok r'.
Proof.
  intros Hok. unfold absorb_pending_query_playback.
  destruct (bt_get _ _) as [held|]; [|done]. intros [= <-].
  set (r1 := set_facts _ r). assert (Hok1 : reducer_ok r1) by by apply set_facts_ok.
  clearbody r1. case_match; [case_match; [done|by apply forget_pending_ok]|].
  case_match; [by apply splice_into_ok, forget_pending_ok|].
  case_match; [case_match; [done|by apply forget_pending_ok]|].
  apply ensure_then_ok; [|done]. intros r2 H2. by apply splice_into_ok, forget_pending_ok.
Qed.

Lemma release_pending_playback_ok key r : reducer_ok r -> reducer_ok (release_pending_playback key r).
Proof.
  intros Hok. unfold release_pending_playback. case_match; [|done]. by apply splice_into_ok, forget_pending_ok.
Qed.

Lemma release_query_ok st key : reducer_ok st.1 -> reducer_ok (release_query st key).1.
Proof.
  destruct st as [r changed]. intros Hok. unfold release_query. destruct (bt_get key _) as [event|]; [|done].
  assert (Hf : reducer_ok (forget_pending key r)) by by apply forget_pending_ok.
  case_match; [by apply splice_into_ok|]. do 2 (case_match; [done|]).
  pose proof (ensure_key_ok key (history_target event) InboundOther _ Hf) as H'.
  destruct (ensure_key _ _ _ _) as [r' []]; [by apply splice_into_ok|done].
Qed.

Lemma release_pending_query_playback_ok network r :
  reducer_ok r -> reducer_ok (release_pending_query_playback network r).1.
Proof.
  intros Hok. unfold release_pending_query_playback. case_match; [done|].
  set (r1 := set_facts _ r). assert (Hok1 : reducer_ok (r1, false).1) by by apply set_facts_ok.
  generalize (base.filter (fun key => str_eqb (network_id key) network
    && negb (is_channel_in (net_facts r1) network (normalized_target key)) = true) (bt_keys (pending_playback (net_facts r1)))) as keys.
  intros keys. revert Hok1. generalize (r1, false) as st. induction keys as [|key keys IH]; intros st Hst; [done|].
  cbn [foldl]. by apply IH, release_query_ok.
Qed.

Lemma reduce_history_ok event r : reducer_ok r -> reducer_ok (reduce_history event r).
Proof.
  intros Hok. unfold reduce_history. destruct (_ && _).
  - destruct (match find _ _ with Some _ => _ | None => _ end); [by apply splice_into_ok|by apply hold_pending_playback_ok].
  - match goal with |- context [match ?o with Some p => p | None => _ end] => destruct o as [r'|] eqn:Ha end.
    + destruct (bool_decide _) in Ha; [by eapply absorb_ok|done].
    + destruct (bt_contains _ _); [by apply splice_into_ok|]. destruct (_ || _); [done|].
      destruct (negb _); [destruct (_ && _); [by apply hold_pending_playback_ok|done]|].
      destruct (replay_only_repeats_persisted_ids _ _); [done|]. apply ensure_then_ok; [|done].
      intros r2 H2. by apply splice_into_ok.
Qed.

(** ** The handlers *)

Lemma reduce_chat_ok k e r : reducer_ok r -> reducer_ok (reduce_chat k e r).
Proof.
  intros Hok. unfold reduce_chat, append_chat. apply ensure_then_ok; [|done]. intros r'. apply with_conversation_ok.
  intros c _ Hkey. by apply admit_chat_safe.
Qed.

Lemma remember_self_nick_claims network nick f : claims (remember_self_nick network nick f) = claims f.
Proof. unfold remember_self_nick. by case_match. Qed.

Lemma welcome_facts_claims e f : claims (welcome_facts e f) = claims f.
Proof.
  unfold welcome_facts.
  match goal with |- claims ((?x <| self_away := _ |>)) = _ => change (claims x = claims f) end.
  match goal with |- claims (?x <| presence := _ |>) = _ => change (claims x = claims f) end.
  match goal with |- claims (?x <| current_nicks := _ |>) = _ => change (claims x = claims f) end.
  rw remember_self_nick_claims. case_match; [by rw remember_self_nick_claims|done].
Qed.

Lemma reduce_welcome_ok e r : reducer_ok r -> reducer_ok (reduce_welcome e r).
Proof.
  intros Hok. apply refresh_mentions_ok, each_of_network_ok; [intros [f c]; apply welcome_safe|].
  apply set_facts_ok; [apply welcome_facts_claims|].
  by apply clear_closed_network_ok, drop_kept_playback_ok, drop_pending_playback_ok.
Qed.

Lemma update_presence_ok write network r : reducer_ok r -> reducer_ok (set_facts (update_presence write network) r).
Proof. by apply set_facts_ok. Qed.

Lemma reduce_join_ok e r : reducer_ok r -> reducer_ok (reduce_join e r).
Proof.
  intros Hok. unfold reduce_join.
  set (r1 := match join_account e with Some value => _ | None => r end).
  assert (H1 : reducer_ok r1) by (unfold r1; repeat case_match; by try apply set_facts_ok). clearbody r1.
  set (r2 := match join_realname e with Some value => _ | None => r1 end).
  assert (H2 : reducer_ok r2) by (unfold r2; repeat case_match; by try apply set_facts_ok). clearbody r2.
  pose proof (ensure_key_ok (conversation_key r2 (join_network e) (join_to e)) (join_to e) ChannelState_ r2 H2) as H3.
  destruct (ensure_key _ _ _ _) as [r3 []]; [|done]. cbn [negb fst] in *.
  match goal with |- context [with_conversation ?k ?g r3] =>
    assert (H4 : reducer_ok (with_conversation k g r3)) by (apply with_conversation_ok; [intros; apply join_channel_safe|done]) end.
  destruct (_ && _); [by apply release_pending_playback_ok|done].
Qed.

Lemma forget_unseen_ok network nicks r : reducer_ok r -> reducer_ok (forget_unseen network nicks r).
Proof. intros Hok. unfold forget_unseen. case_match; [by apply set_facts_ok|done]. Qed.

Lemma insert_safe_ok key c c' r :
  reducer_ok r -> bt_get key (conversations r) = Some c -> safe (net_facts r, c) (net_facts r, c') ->
  reducer_ok (r <| conversations := bt_insert key c' (conversations r) |>).
Proof.
  intros Hok Hget Hs.
  assert (H : with_conversation key (fun st => (st.1, c')) r = r <| conversations := bt_insert key c' (conversations r) |>)
    by (unfold with_conversation; by rw Hget).
  rw -H. apply with_conversation_ok; [|done]. intros c0 Hc0 _. rw Hget in Hc0. by injection Hc0 as <-.
Qed.

Lemma depart_channel_ok network key normalized self_leaves line after r :
  (forall st, safe st (line st)) -> (forall f, claims (after f) = claims f) ->
  reducer_ok r -> reducer_ok (depart_channel network key normalized self_leaves line after r).
Proof.
  intros Hline Hafter Hok. unfold depart_channel. destruct (find r key) as [c|] eqn:Hf; [|done]. case_match; [done|].
  pose proof (depart_safe normalized self_leaves (net_facts r) c) as Hd. destruct (depart _ _ _) as [c' departed].
  apply with_conversation_ok; [|by eapply forget_unseen_ok, insert_safe_ok].
  intros c2 _ _. match goal with |- safe ?st _ => pose proof (Hline st) as Hl; destruct (line st) as [f3 c3] end.
  etrans; [exact Hl|]. apply safe_untouched; try done. apply Hafter.
Qed.

Lemma reduce_quit_ok e r : reducer_ok r -> reducer_ok (reduce_quit e r).
Proof.
  intros Hok. apply each_of_network_ok; [intros [f c]; apply clear_typing_of_safe|].
  apply forget_unseen_ok, each_of_network_ok; [|done]. intros st. apply quit_channel_safe.
Qed.

(** A direct conversation moves to a free key, or into the conversation that holds it. *)
Lemma direct_removed_ok key c r :
  reducer_ok r -> bt_get key (conversations r) = Some c -> conv_is_channel c = false ->
  reducer_ok (r <| conversations := bt_remove key (conversations r) |>).
Proof.
  intros Hok Hget Hch. unfold reducer_ok. cbn. eapply store_ok_sublist; [apply bt_remove_sublist|done| |exact Hok].
  intros id home c0 Hid Hin. apply remove_elem; [done|]. intros ->.
  destruct (ok_claims _ _ Hok id key Hid) as (c1 & Hin1 & Hch1 & _).
  assert (c1 = c) as -> by (eapply (entry_unique _ _ _ _ (ok_keys _ _ Hok)); [done|by apply bt_get_elem]). congruence.
Qed.

Lemma moved_ok new_key display c r m :
  reducer_ok r -> (exists old_key, (old_key, c) ∈ m /\ store_ok (net_facts r) m) ->
  bt_get new_key (conversations r) = None -> conv_is_channel c = false ->
  reducer_ok (r <| conversations := bt_insert new_key ((c <| conv_key := new_key |>) <| conv_target := display |>) (conversations r) |>).
Proof.
  intros Hok (old_key & Hin & Hm) Hget Hch. destruct (store_well_formed _ _ _ _ Hm Hin) as (_ & [Ht _] & Hb).
  unfold reducer_ok. cbn. eapply store_ok_insert; [exact Hok|done| | | |reflexivity]; try done.
  constructor; [exact Ht|]. cbn. intros id Hid. destruct (ok_claims _ _ Hok _ _ Hid) as (c1 & Hin1 & _).
  exfalso. apply (proj1 (bt_get_None_keys _ _) Hget). apply list_elem_of_fmap. by exists (new_key, c1).
Qed.

Lemma with_conversation_get key g r c :
  bt_get key (conversations r) = Some c ->
  bt_get key (conversations (with_conversation key g r)) = Some (g (net_facts r, c)).2.
Proof. intros H. unfold with_conversation. rw H. destruct (g (net_facts r, c)). by apply bt_get_insert. Qed.

Lemma move_direct_ok old_key new_key display c r :
  reducer_ok r -> bt_get old_key (conversations r) = Some c -> conv_is_channel c = false ->
  reducer_ok (move_direct old_key new_key display r).
Proof.
  intros Hok Hget Hch. unfold move_direct, find. rw Hget.
  pose proof (direct_removed_ok _ _ _ Hok Hget Hch) as H1.
  set (r1 := r <| conversations := bt_remove old_key (conversations r) |>) in *.
  set (r2 := if decide (old_key ∈ _) then _ else r1).
  assert (H2 : reducer_ok r2 /\ claims (net_facts r2) = claims (net_facts r)) by (unfold r2; case_decide; (split; [by try apply set_facts_ok|done])).
  clearbody r2. destruct H2 as [H2 Hcl].
  assert (H3 : reducer_ok (if bt_contains new_key (conversations r2)
    then with_conversation new_key (merge_conversation ((c <| conv_key := new_key |>) <| conv_target := display |>) display) r2
    else r2 <| conversations := bt_insert new_key ((c <| conv_key := new_key |>) <| conv_target := display |>) (conversations r2) |>)).
  { destruct (bt_contains new_key (conversations r2)) eqn:Hin.
    - apply with_conversation_ok; [|done]. intros c0 _ _. apply merge_conversation_safe.
    - apply (moved_ok _ _ _ _ (conversations r)); [done| | |done].
      + exists old_key. split; [by apply bt_get_elem|]. eapply store_ok_facts; [|exact Hok]. intros id home. by rw Hcl.
      + apply eq_None_not_Some. intros H. apply bt_contains_spec in H. congruence. }
  match goal with |- context [if bt_contains new_key (conversations r2) then ?a else ?b] =>
    set (r3 := if bt_contains new_key (conversations r2) then a else b) in * end.
  clearbody r3. case_decide; [by apply set_facts_ok|done].
Qed.

Lemma reduce_nick_ok e r : reducer_ok r -> reducer_ok (reduce_nick e r).
Proof.
  intros Hok. unfold reduce_nick. cbv zeta.
  match goal with |- context [if is_self (net_facts r) (nick_network e) (old_nick e) then ?a else r] =>
    set (r1 := if is_self (net_facts r) (nick_network e) (old_nick e) then a else r) end.
  assert (H1 : reducer_ok r1).
  { unfold r1. case_match; [|done]. apply refresh_mentions_ok, set_facts_ok; [done|]. apply set_facts_ok; [|done].
    apply remember_self_nick_claims. }
  clearbody r1.
  match goal with |- context [each_of_network (nick_network e) (rename_member ?a ?b ?n ?d) ?r2] =>
    set (r3 := each_of_network (nick_network e) (rename_member a b n d) r2) end.
  assert (H3 : reducer_ok r3).
  { apply each_of_network_ok; [intros; apply rename_member_safe|]. apply each_of_network_ok; [intros [f c]; apply rekey_typing_safe|].
    by apply update_presence_ok. }
  clearbody r3. destruct (find r3 _) as [direct|] eqn:Hf; [|done]. destruct (conv_is_channel direct) eqn:Hch; [done|].
  match goal with |- context [with_conversation ?k ?g r3] => assert (Hsafe : forall st, safe st (g st)) end.
  { intros [f c]. etrans; [|apply append_event_safe]. by apply safe_untouched. }
  case_decide; [by apply with_conversation_ok|].
  eapply move_direct_ok; [by apply with_conversation_ok|by apply with_conversation_get|].
  rw (keeps_channel _ _ _ _ (proj1 (proj1 (Hsafe (net_facts r3, direct))))). done.
Qed.

Lemma reduce_topic_ok e r : reducer_ok r -> reducer_ok (reduce_topic e r).
Proof.
  intros Hok. unfold reduce_topic.
  pose proof (ensure_key_ok (conversation_key r (topic_network e) (topic_channel e)) (topic_channel e) ChannelState_ r Hok) as H.
  destruct (ensure_key _ _ _ _) as [r' exists_]. case_match; [done|].
  apply update_conversation_ok; [|done]. intros f c. apply safe_update_channel.
Qed.

Lemma reduce_names_ok e now r : reducer_ok r -> reducer_ok (reduce_names e now r).
Proof.
  intros Hok. apply ensure_then_ok; [|done]. intros r' H. apply update_conversation_ok; [|done].
  intros f c. apply safe_update_channel.
Qed.

Lemma reduce_mode_ok e r : reducer_ok r -> reducer_ok (reduce_mode e r).
Proof.
  intros Hok. unfold reduce_mode. case_match; [done|].
  pose proof (ensure_key_ok (conversation_key r (mode_network e) (mode_target e)) (mode_target e) ChannelState_ r Hok) as H'.
  destruct (ensure_key _ _ _ _) as [r' []]; [|done]. cbn [negb]. apply with_conversation_ok; [|done].
  intros c _ _. apply mode_channel_safe.
Qed.

Lemma reduce_away_ok e r : reducer_ok r -> reducer_ok (reduce_away e r).
Proof.
  intros Hok. unfold reduce_away. set (r1 := if realname_only e then r else _).
  assert (H1 : reducer_ok r1) by (unfold r1; case_match; [done|by apply update_presence_ok]). clearbody r1.
  destruct (away_realname e); [|done]. destruct (_ || _); [by apply update_presence_ok|done].
Qed.

Lemma reduce_account_ok e r : reducer_ok r -> reducer_ok (reduce_account e r).
Proof. intros Hok. unfold reduce_account. case_match; [done|by apply update_presence_ok]. Qed.

Lemma reduce_nick_facts_ok e r : reducer_ok r -> reducer_ok (reduce_nick_facts e r).
Proof.
  intros Hok. unfold reduce_nick_facts. case_match; [done|]. destruct (facts_realname e), (facts_operator e); try done;
    repeat apply update_presence_ok; done.
Qed.

Lemma reduce_typing_ok e r : reducer_ok r -> reducer_ok (reduce_typing e r).
Proof.
  apply update_conversation_ok. intros f c. unfold typing_conversation_half.
  match goal with |- context [match ?o with Some _ => _ | None => _ end] => destruct o end; by apply safe_untouched.
Qed.

Lemma reduce_ok event now r : reducer_ok r -> reducer_ok (reduce event now r).
Proof.
  intros Hok. destruct event as [e|e|e|e|e|e|e|e|e|e|e|e|e|e|e|e|e|e|e|e|e]; cbn [reduce].
  - by apply reduce_welcome_ok.
  - by apply reduce_chat_ok.
  - by apply reduce_chat_ok.
  - by apply reduce_chat_ok.
  - by apply reduce_join_ok.
  - apply depart_channel_ok; [intros; apply append_event_safe|done|done].
  - by apply reduce_quit_ok.
  - by apply reduce_nick_ok.
  - apply depart_channel_ok; [intros; apply append_event_safe|intros f; by case_match|done].
  - by apply reduce_topic_ok.
  - by apply reduce_names_ok.
  - by apply reduce_mode_ok.
  - by apply reduce_away_ok.
  - by apply set_facts_ok.
  - by apply update_presence_ok.
  - by apply reduce_account_ok.
  - by apply reduce_typing_ok.
  - by apply reduce_history_ok.
  - apply with_conversation_ok; [|done]. intros c _ _. apply append_whois_safe.
  - apply with_conversation_ok; [|done]. intros c _ _. apply append_error_safe.
  - by apply reduce_nick_facts_ok.
Qed.

Lemma apply_event_ok event now r : reducer_ok r -> reducer_ok (apply_event event now r).
Proof. intros Hok. by apply reduce_ok, set_facts_ok. Qed.

(** ** Every reachable state *)

(** An event, or a call of the controller. *)
Inductive Operation :=
| OpApply (event : Event) (now : Time)
| OpEnsure (key : ConversationKey) (display_target : str) (cause : IrcConversationCause)
| OpDropDirect (key : ConversationKey)
| OpDropChannel (key : ConversationKey)
| OpNoteClosed (key : ConversationKey)
| OpClearClosed (key : ConversationKey)
| OpMarkLeft (key : ConversationKey)
| OpReleaseStaleNames (chosen : option ConversationKey) (now : Time)
| OpReleaseQueries (network : str)
| OpForgetNetwork (network : str)
| OpClearMessages (key : ConversationKey)
| OpSetMuted (key : ConversationKey) (value : bool)
| OpMarkSelected (key : ConversationKey)
| OpMarkRead (key : ConversationKey)
| OpMarkAllRead
| OpPageCapTail (value : bool) (key : ConversationKey)
| OpSetFeatures (network : str) (features : IrcServerFeatures)
| OpSetHighlight (network : str) (words : list str)
| OpClearTyping (network : str)
| OpClearPresence (network : str) (away metadata : bool)
| OpReadMarker (key : ConversationKey) (marker : option Time)
| OpClearSelection
| OpSetNoise (noise : MembershipNoise)
| OpSetWindowActive (active : bool)
| OpSetLog (stored : option Log)
| OpSetClosedStore (store : Closed)
| OpTakeMention
| OpTakeInbox
| OpTakeQueries
| OpTakeReplay.

Definition perform (op : Operation) r : EventReducer :=
  match op with
  | OpApply event now => apply_event event now r
  | OpEnsure key target cause => (ensure_conversation key target cause r).1
  | OpDropDirect key => (drop_direct_message key r).1
  | OpDropChannel key => (drop_channel key r).1
  | OpNoteClosed key => note_closed key r
  | OpClearClosed key => clear_closed key r
  | OpMarkLeft key => (mark_channel_left key r).1
  | OpReleaseStaleNames chosen now => (release_stale_names_sync chosen now r).1
  | OpReleaseQueries network => (release_pending_query_playback network r).1
  | OpForgetNetwork network => forget_network network r
  | OpClearMessages key => clear_messages key r
  | OpSetMuted key value => set_muted key value r
  | OpMarkSelected key => mark_selected key r
  | OpMarkRead key => (mark_read key r).1
  | OpMarkAllRead => (mark_all_read r).1
  | OpPageCapTail value key => set_history_page_cap_tail value key r
  | OpSetFeatures network features => set_server_features network features r
  | OpSetHighlight network words => set_highlight_words network words r
  | OpClearTyping network => clear_typing_facts network r
  | OpClearPresence network away metadata => clear_presence_facts network away metadata r
  | OpReadMarker key marker => (apply_server_read_marker key marker r).1
  | OpClearSelection => clear_selection r
  | OpSetNoise noise => set_membership_noise noise r
  | OpSetWindowActive active => set_window_active active r
  | OpSetLog stored => set_conversation_log stored r
  | OpSetClosedStore store => set_closed_persistence store r
  | OpTakeMention => (take_mention_arrival r).1
  | OpTakeInbox => (take_inbox_arrival r).1
  | OpTakeQueries => (take_remembered_queries r).1
  | OpTakeReplay => (take_kept_replay r).1
  end.

Lemma perform_ok op r : reducer_ok r -> reducer_ok (perform op r).
Proof.
  intros Hok. destruct op; cbn [perform].
  - by apply apply_event_ok.
  - by apply ensure_conversation_ok.
  - by apply drop_direct_message_ok.
  - by apply drop_channel_ok.
  - by apply note_closed_ok.
  - by apply clear_closed_ok.
  - by apply mark_channel_left_ok.
  - by apply release_stale_names_sync_ok.
  - by apply release_pending_query_playback_ok.
  - by apply forget_network_ok.
  - by apply clear_messages_ok.
  - by apply set_muted_ok.
  - by apply mark_selected_ok.
  - by apply mark_read_ok.
  - by apply mark_all_read_ok.
  - apply update_conversation_ok; [|done]. intros f c. by apply safe_untouched.
  - by apply set_server_features_ok.
  - by apply set_highlight_words_ok.
  - by apply clear_typing_facts_ok.
  - by apply clear_presence_facts_ok.
  - by apply apply_server_read_marker_ok.
  - by apply set_facts_ok.
  - by apply set_facts_ok.
  - by apply set_facts_ok.
  - by apply set_facts_ok.
  - by apply set_facts_ok.
  - by apply set_facts_ok.
  - by apply set_facts_ok.
  - by apply set_facts_ok.
  - by apply set_facts_ok.
Qed.

(** The states a controller can bring a fresh reducer to. *)
Inductive reachable : EventReducer -> Prop :=
| reachable_new : reachable new_reducer
| reachable_step r op : reachable r -> reachable (perform op r).

Lemma new_reducer_ok : reducer_ok new_reducer.
Proof. by constructor; repeat constructor. Qed.

Lemma reachable_ok r : reachable r -> reducer_ok r.
Proof. induction 1; [apply new_reducer_ok|by apply perform_ok]. Qed.
End Invariants.
