(* ===== verification/ReducerProperties.v ===== *)
(** * ReducerProperties: what the reducer promises

    The transcript invariant, the channel-context claims, redelivered lines, the read marker,
    and who is left in a channel after PART, KICK, QUIT and NICK. *)

From stdpp Require Import sorting.
From S2P Require Import Prelude Text CaseMapping ServerFeatures OrdMap SessionTypes Platform Typing.
From S2P Require Import Presence Events Conversation MembershipNoise ReducerState ReducerTranscript ReducerSplice Reducer ReducerRows ReducerSteps ReducerInvariants ReducerViews.

Section Properties.
Context `{platform : Platform} `{stores : Stores}.

Implicit Types (f : Facts) (c : ConversationState) (r : EventReducer) (key : ConversationKey).

(** ** Distinct ids, by position *)

Lemma ids_distinct_lookup (rows : list Row) (i j : nat) row row' :
  NoDup (ids_of (tag <$> rows)) -> rows !! i = Some row -> rows !! j = Some row' ->
  row_msgid row = row_msgid row' -> row_msgid row <> [] -> i = j.
Proof.
  revert i j. induction rows as [|row0 rows IH]; intros i j; [by rw lookup_nil|].
  assert (Hin : forall k x, rows !! k = Some x -> row_msgid x <> [] -> row_msgid x ∈ ids_of (tag <$> rows)).
  { intros k x Hx Hne. apply list_elem_of_filter. split; [done|]. rw -list_fmap_compose. apply list_elem_of_fmap.
    exists x. split; [done|]. by eapply list_elem_of_lookup_2. }
  change (tag <$> row0 :: rows) with ([tag row0] ++ (tag <$> rows)). rw ids_of_app.
  intros (_ & Hdis & Hd)%NoDup_app.
  assert (Hhead : row_msgid row0 <> [] -> row_msgid row0 ∈ ids_of [tag row0]).
  { intros Hne. apply list_elem_of_filter. split; [done|]. cbn. by left. }
  destruct i as [|i], j as [|j]; cbn; try done.
  - intros [= ->] Hj Heq Hne. exfalso. apply (Hdis (row_msgid row)); [by apply Hhead|]. rw Heq. eapply Hin; [done|congruence].
  - intros Hi [= ->] Heq Hne. exfalso. apply (Hdis (row_msgid row)); [|by eapply Hin]. rw Heq. apply Hhead. congruence.
  - intros Hi Hj Heq Hne. f_equal. by eapply IH.
Qed.

(** ** Reads of the table *)

Lemma find_elem r key c : find r key = Some c -> (key, c) ∈ conversations r.
Proof. apply bt_get_elem. Qed.

Lemma insert_same r key c :
  reducer_ok r -> find r key = Some c -> bt_insert key c (conversations r) = conversations r.
Proof. intros Hok Hf. by destruct (get_split _ _ _ (ok_ordered _ _ Hok) Hf) as (pre & post & -> & ->). Qed.

(** A mutation that leaves both halves alone leaves the reducer alone. *)
Lemma with_conversation_id key g r c :
  reducer_ok r -> find r key = Some c -> g (net_facts r, c) = (net_facts r, c) -> with_conversation key g r = r.
Proof.
  intros Hok Hf Hg. unfold with_conversation. unfold find in Hf. rw Hf Hg (insert_same r key c) //. by destruct r.
Qed.

Lemma traverse_get {S} (g : S -> ConversationState -> S * ConversationState) s (m : Store) key c' :
  bt_get key (bt_traverse g s m).2 = Some c' -> exists s0 c, bt_get key m = Some c /\ c' = (g s0 c).2.
Proof.
  unfold bt_get. revert s. induction m as [|[k c] m IH]; intros s; cbn; [done|].
  destruct (g s c) as [s1 c1] eqn:Hg. destruct (bt_traverse g s1 m) as [s2 m2] eqn:Ht. cbn.
  destruct (key_eqb k key) eqn:E.
  - intros [= <-]. exists s, c. by rw Hg.
  - intros H. apply (IH s1). by rw Ht.
Qed.

Lemma each_of_network_find network g r key c' :
  find (each_of_network network g r) key = Some c' ->
  exists f c, find r key = Some c /\
    c' = if str_eqb (network_id (conv_key c)) network then (g (f, c)).2 else c.
Proof.
  unfold each_of_network, find. destruct (bt_traverse _ _ _) as [f m] eqn:Ht. cbn. intros H.
  match type of Ht with bt_traverse ?h ?s ?l = _ => destruct (traverse_get h s l key c') as (s0 & c & Hc & ->) end; [by rw Ht|].
  exists s0, c. split; [done|]. by case_match.
Qed.

(** ** The transcript and the claims *)

(** C3: In every reachable state a conversation sits under its own key, its transcript holds at
    most MAX_MESSAGES rows, every row has its own sequence number below the next one, no two
    rows share a nonempty message id, and the conversation knows the id of every row. *)
Theorem transcript_invariant r key c :
  reachable r -> find r key = Some c ->
  conv_key c = key
  /\ (length (messages c) <= MAX_MESSAGES)%nat
  /\ NoDup (sequence <$> messages c)
  /\ Forall (fun row => 0 <= sequence row < next_sequence c)%Z (messages c)
  /\ (forall i j row row', messages c !! i = Some row -> messages c !! j = Some row' ->
        row_msgid row = row_msgid row' -> row_msgid row <> [] -> i = j)
  /\ Forall (fun row => row_msgid row <> [] -> row_msgid row ∈ message_ids c) (messages c).
Proof.
  intros Hr Hf. destruct (store_well_formed _ _ _ _ (reachable_ok r Hr) (find_elem r key c Hf)) as (Hk & [[H0 H1 H2 H3 H4] _] & Hb).
  rw app_nil_r in H1 H2 H3 H4. rw -list_fmap_compose in H2. split_and!; try done.
  - by apply Forall_fmap in H1.
  - intros i j row row'. by apply ids_distinct_lookup.
  - apply Forall_forall. intros row Hrow Hne. apply (proj1 (Forall_forall _ _) H4).
    apply list_elem_of_filter. split; [done|]. rw -list_fmap_compose. apply list_elem_of_fmap. by exists row.
Qed.

(** A channel-context claim never dangles: in every reachable state the claim of a message id
    names a conversation that exists, is a channel, and knows the id. *)
Theorem claims_point_at_channels r id home :
  reachable r -> channel_context_msgids (net_facts r) !! id = Some home ->
  exists c, find r home = Some c /\ conv_is_channel c = true /\ id ∈ message_ids c.
Proof.
  intros Hr Hid. pose proof (reachable_ok r Hr) as Hok. destruct (ok_claims _ _ Hok id home Hid) as (c & Hin & Hc).
  exists c. split; [|done]. unfold find. destruct (bt_get home (conversations r)) as [c'|] eqn:Hget.
  - f_equal. eapply (entry_unique _ _ _ _ (ok_keys _ _ Hok)); [by apply bt_get_elem|done].
  - exfalso. apply (proj1 (bt_get_None_keys _ _) Hget). apply list_elem_of_fmap. by exists (home, c).
Qed.

(** ** A line delivered twice *)

(** A row that enters the transcript with an id of its own keeps it under the cap. *)
Lemma cap_keeps_last f c row :
  (row_msgid row <> [] -> row_msgid row ∉ ids_of (tag <$> messages c)) ->
  row_msgid row ∈ message_ids c ->
  row_msgid row ∈ message_ids (cap_messages (f, c <| messages := messages c ++ [row] |>)).2.
Proof.
  intros Hout Hin. set (c1 := c <| messages := messages c ++ [row] |>). unfold cap_messages. cbn [snd].
  destruct (Nat.leb_spec (length (messages c1)) MAX_MESSAGES) as [|Hlen]; [done|].
  set (gone := take (length (messages c1) - MAX_MESSAGES) (messages c1)).
  destruct (forget_rows_eq gone f c1) as (f' & ->). cbn [snd update_channel message_ids].
  apply elem_of_difference. split; [done|]. rw elem_of_list_to_set. intros Hid.
  assert (Hne : row_msgid row <> []) by by apply list_elem_of_filter in Hid as [H _].
  apply (Hout Hne). unfold gone in Hid. change (messages c1) with (messages c ++ [row]) in Hid, Hlen.
  rw length_app in Hid. rw length_app in Hlen. cbn [length] in Hid, Hlen.
  assert (Hle : (length (messages c) + 1 - MAX_MESSAGES <= length (messages c))%nat) by (unfold MAX_MESSAGES; lia).
  rw (take_app_le _ _ _ Hle) in Hid.
  rw -(take_drop (length (messages c) + 1 - MAX_MESSAGES) (messages c)) fmap_app ids_of_app. by apply elem_of_app; left.
Qed.

Lemma admit_chat_knows line f c :
  well_formed f c [] -> conv_key c = chat_key line -> let id := chat_msgid (chat_event line) in id <> [] ->
  admit_chat line (f, c) = (f, c) \/ id ∈ message_ids (admit_chat line (f, c)).2.
Proof.
  intros [Ht _] Hkey id Hne. unfold admit_chat. case_match eqn:Hb; [by left|]. right.
  apply andb_false_iff in Hb as [Hb|Hb]; [by destruct (chat_msgid (chat_event line))|].
  apply orb_false_iff in Hb as [Hb%bool_decide_eq_false _].
  destruct (insert_id_same id c) as (_ & _ & Hm & Hn & Hids).
  match goal with |- context [cap_messages (?f1, admit_message ?row (insert_id ?i c))] =>
    pose proof (cap_keeps_last f1 ((insert_id id c) <| next_sequence := (next_sequence (insert_id id c) + 1)%Z |>)
      (row <| sequence := next_sequence (insert_id id c) |>)) as Hcap;
    change (cap_messages (f1, admit_message row (insert_id i c)))
      with (cap_messages (f1, ((insert_id id c) <| next_sequence := (next_sequence (insert_id id c) + 1)%Z |>)
        <| messages := messages (insert_id id c) ++ [row <| sequence := next_sequence (insert_id id c) |>] |>)) end.
  specialize (Hcap ltac:(cbn; rw Hm; intros _ Hin; apply Hb; rw app_nil_r in Ht; by eapply (proj1 (Forall_forall _ _) (tags_known _ _ _ Ht)))).
  specialize (Hcap ltac:(cbn; rw Hids; destruct (is_empty id) eqn:E; [by destruct id|set_solver])).
  cbn [messages row_msgid] in Hcap |- *.
  match goal with |- context [cap_messages ?x] => destruct (cap_messages x) as [f2 c2] eqn:Hc2 end.
  match type of Hcap with context [cap_messages ?x] => change (cap_messages x = (f2, c2)) in Hc2; rw Hc2 in Hcap end.
  match goal with |- context [note_chat_arrival ?k ?a ?st] => destruct (note_chat_arrival_steps k a st) as (_ & _ & ->) end.
  exact Hcap.
Qed.

Lemma admit_chat_again line f c :
  well_formed f c [] -> conv_key c = chat_key line -> chat_msgid (chat_event line) <> [] ->
  admit_chat line (admit_chat line (f, c)) = admit_chat line (f, c).
Proof.
  intros Hw Hkey Hne. destruct (admit_chat_knows line f c Hw Hkey Hne) as [H|Hin]; [by rw !H|].
  destruct (admit_chat line (f, c)) as [f' c']. cbn in Hin. unfold admit_chat at 1.
  destruct (is_empty _) eqn:E; [by destruct (chat_msgid (chat_event line))|]. by rw bool_decide_eq_true_2.
Qed.

Lemma ensure_key_result key target cause r r' exists_ :
  ensure_key key target cause r = (r', exists_) ->
  if exists_ then bt_contains key (conversations r') = true else r' = r.
Proof.
  unfold ensure_key. destruct (bt_contains key _) eqn:E; [by intros [= <- <-]|].
  do 2 (case_match; [by intros [= <- <-]|]). destruct (hydrate_from_log _) as [f c]. intros [= <- <-].
  apply bt_contains_spec. cbn. rw bt_get_insert. by eexists.
Qed.

Lemma ensure_key_present key target cause r :
  bt_contains key (conversations r) = true -> ensure_key key target cause r = (r, true).
Proof. intros H. unfold ensure_key. by rw H. Qed.

(** C12: A chat line that carries a message id is counted once: delivering the same line again
    (a bouncer replay, an echo, a second copy from the server) leaves the whole reducer as the
    first delivery left it. *)
Theorem redelivered_chat_changes_nothing r k e :
  reachable r -> chat_msgid e <> [] -> reduce_chat k e (reduce_chat k e r) = reduce_chat k e r.
Proof.
  intros Hr Hne. pose proof (reachable_ok r Hr) as Hok. unfold reduce_chat at 2 3. unfold append_chat.
  cbn [chat_key chat_display_target chat_event].
  set (line := mkChatLine _ _ _ _). set (key := chat_conversation e) in *.
  pose proof (ensure_key_ok key (display_target key (chat_target e))
    (if is_self (net_facts r) (network_id key) (chat_author e) then InboundSelf else InboundOther) r Hok) as H1.
  destruct (ensure_key key _ _ r) as [r1 b] eqn:He. pose proof (ensure_key_result _ _ _ _ _ _ He) as Hres. cbn [fst] in H1.
  destruct b.
  - apply bt_contains_spec in Hres as [c Hc].
    destruct (store_well_formed _ _ _ _ H1 (find_elem r1 key c Hc)) as (Hkey & Hw & _).
    assert (H2 : reducer_ok (with_conversation key (admit_chat line) r1)).
    { apply with_conversation_ok; [|done]. intros c0 _ Hk0. by apply admit_chat_safe. }
    assert (Hget : find (with_conversation key (admit_chat line) r1) key = Some (admit_chat line (net_facts r1, c)).2)
      by by apply with_conversation_get.
    assert (Hfacts : net_facts (with_conversation key (admit_chat line) r1) = (admit_chat line (net_facts r1, c)).1).
    { unfold with_conversation. rw Hc. by destruct (admit_chat line _). }
    unfold reduce_chat, append_chat. cbn [chat_key chat_display_target chat_event]. fold key line.
    rw ensure_key_present; [apply bt_contains_spec; by eexists|].
    eapply with_conversation_id; [done|exact Hget|]. rw Hfacts -surjective_pairing. by apply admit_chat_again.
  - subst r1. unfold reduce_chat, append_chat. cbn [chat_key chat_display_target chat_event]. fold key. by rw He.
Qed.

(** ** The server's read marker *)

(** A row the badge counts: chat of somebody else, sent after the marker. *)
Definition counts_as_unread f key (marker : option Time) (row : Row) : bool :=
  is_chat_kind (kind row) && negb (is_self f (network_id key) (row_author row)) && negb (covered marker (read_time row)).

Lemma recount_row_unselected f key c row :
  selected f <> Some key -> unread c + 1 < 2 ^ 32 -> mentions c <= unread c ->
  let c' := recount_row f key c row in
  unread c' = unread c + (if counts_as_unread f key (read_marker c) row then 1 else 0)
  /\ mentions c' <= unread c' /\ read_marker c' = read_marker c /\ messages c' = messages c.
Proof.
  intros Hsel Hlt Hm. cbv zeta. unfold recount_row, counts_as_unread.
  destruct (is_chat_kind (kind row)); cbn [negb andb]; [|split_and!; try done; lia].
  destruct (is_self f (network_id key) (row_author row)); cbn [negb andb]; [split_and!; try done; lia|].
  destruct (covered (read_marker c) (read_time row)); cbn [negb andb]; [split_and!; try done; lia|].
  unfold count_line. rw bool_decide_eq_false_2 //. cbn [andb]. rw andb_true_r. unfold add_u32.
  assert (Hmod : forall n, n <= unread c -> (n + 1) mod 2 ^ 32 = n + 1) by (intros; apply N.mod_small; lia).
  destruct (unread c =? 0) eqn:Hz; destruct (_ && negb (muted _)); cbn; rw !Hmod //; split_and!; try done; lia.
Qed.

Lemma recount_unselected f key rows c :
  selected f <> Some key -> unread c + N.of_nat (length rows) < 2 ^ 32 -> mentions c <= unread c ->
  let c' := foldl (recount_row f key) c rows in
  unread c' = unread c + N.of_nat (length (base.filter (fun row => counts_as_unread f key (read_marker c) row = true) rows))
  /\ mentions c' <= unread c' /\ read_marker c' = read_marker c /\ messages c' = messages c.
Proof.
  intros Hsel. revert c. induction rows as [|row rows IH]; intros c Hlt Hm; cbn zeta; [cbn; split_and!; try done; lia|].
  cbn [foldl length] in *. destruct (recount_row_unselected f key c row Hsel ltac:(lia) Hm) as (H1 & H2 & H3 & H4).
  destruct (IH (recount_row f key c row)) as (H5 & H6 & H7 & H8); [|done|].
  { rw H1. case_match; lia. }
  cbv zeta in *. split; [|split; [exact H6|split; congruence]]. rw H5 H1 H3 filter_cons.
  destruct (counts_as_unread f key (read_marker c) row); case_decide; try done; cbn [length]; lia.
Qed.

(** A read marker from the server only moves forward. One that is not later than the stored
    marker changes nothing; a later one is stored, keeps every row, and recounts the badge of a
    conversation that is not on screen to exactly the chat rows of others sent after it. *)
Theorem read_marker_moves_forward r key c (marker : Time) :
  reachable r -> find r key = Some c -> selected (net_facts r) <> Some key ->
  let at_ := read_marker_time_millis marker in
  let later := match read_marker c with Some current => read_marker_time_after at_ current | None => true end in
  let '(r', moved) := apply_server_read_marker key (Some marker) r in
  moved = later
  /\ (moved = false -> r' = r)
  /\ (moved = true -> exists c', find r' key = Some c' /\ read_marker c' = Some at_ /\ messages c' = messages c
        /\ unread c' = N.of_nat (length (base.filter (fun row => counts_as_unread (net_facts r) key (Some at_) row = true) (messages c)))
        /\ mentions c' <= unread c').
Proof.
  intros Hr Hf Hsel at_ later. unfold apply_server_read_marker. rw Hf. fold at_.
  assert (Hmove : match read_marker c with Some current => negb (read_marker_time_after at_ current) | None => false end = negb later)
    by (unfold later; by destruct (read_marker c)).
  rw Hmove. destruct later; cbn [negb]; [|by split]. split; [done|]. split; [done|]. intros _.
  set (c0 := c <| read_marker := Some at_ |>).
  exists (recount_unread_from_read_marker (net_facts r) key c0). split.
  { unfold find. by rw (with_conversation_get _ _ _ _ Hf). }
  destruct (store_well_formed _ _ _ _ (reachable_ok r Hr) (find_elem r key c Hf)) as (_ & _ & Hb). unfold bounded, MAX_MESSAGES in Hb.
  unfold recount_unread_from_read_marker.
  destruct (recount_unselected (net_facts r) key (messages c0) (clear_badges c0 <| unread_mark := None |>) Hsel) as (H1 & H2 & H3 & H4);
    [cbn; lia|done|]. cbv zeta in *. by split_and!.
Qed.

(** ** Who is in a channel *)

(** The channel half without its anchor, which the rows move. *)
Definition standing c : option ChannelState := (fun half => half <| history_anchor := None |>) <$> channel c.

Lemma standing_update g c :
  (forall half, (g half) <| history_anchor := None |> = half <| history_anchor := None |>) ->
  standing (update_channel g c) = standing c.
Proof. intros H. unfold standing, update_channel. cbn. destruct (channel c) as [half|]; [exact (f_equal Some (H half))|done]. Qed.

Lemma cap_standing f c : standing (cap_messages (f, c)).2 = standing c.
Proof.
  unfold cap_messages. case_match; [done|]. cbn [snd].
  match goal with |- context [forget_rows ?rows (f, c)] => destruct (forget_rows_eq rows f c) as (f' & ->) end.
  cbn [snd]. rw standing_update; [intros half; by repeat case_match|done].
Qed.

Lemma drop_last_standing f c : standing (drop_last_transcript_row (f, c)).2 = standing c.
Proof.
  unfold drop_last_transcript_row. cbn [snd]. destruct (last (messages c)) as [row|]; [|done].
  rw forget_one. destruct (forget_rows_eq [row] f c) as (f' & ->). unfold shift_anchor_down. cbn [snd].
  rw standing_update; [intros half; by repeat case_match|done].
Qed.

Lemma admit_persisted_standing row f c : standing (admit_persisted row (f, c)).2 = standing c.
Proof. unfold admit_persisted. by rw cap_standing. Qed.

Lemma append_event_standing b col membership f c : standing (append_event b col membership (f, c)).2 = standing c.
Proof.
  unfold append_event. case_match; [done|].
  generalize (if membership && bool_decide (membership_noise f = Every) then false else col) as col'. intros col'.
  destruct (last (messages c)) as [row|]; [|apply admit_persisted_standing].
  destruct (_ && collapsible row); [|apply admit_persisted_standing].
  destruct (decide (fold_kind _ = Cancel)); [destruct (drop_row _)|destruct col'];
    [apply drop_last_standing|done|done|apply admit_persisted_standing].
Qed.

Lemma standing_half c c' half : standing c' = standing c -> channel c' = Some half ->
  exists half0, channel c = Some half0 /\ members half = members half0 /\ joined half = joined half0
    /\ names_syncing half = names_syncing half0 /\ topic half = topic half0.
Proof.
  unfold standing. intros H Hc. rw Hc in H. destruct (channel c) as [half0|]; [|done]. injection H as H1 H2 H3 H4 H5.
  by exists half0.
Qed.

(** Who leaves which channel with an event, and whether it is ourselves. *)
Definition leaver r (event : Event) : option (ConversationKey * str * bool) :=
  let leave network channel nick :=
    Some (conversation_key r network channel, normalize_in (net_facts r) network nick, is_self (net_facts r) network nick) in
  match event with
  | EvPart e => leave (part_network e) (part_channel e) (part_nick e)
  | EvKick e => leave (kick_network e) (kick_channel e) (kick_target e)
  | _ => None
  end.

Lemma forget_unseen_conversations network nicks r : conversations (forget_unseen network nicks r) = conversations r.
Proof. unfold forget_unseen. by case_match. Qed.

Definition left_half (self : bool) (nick : str) (half half' : ChannelState) (c' : ConversationState) : Prop :=
  if self then members half' = ∅ /\ joined half' = false /\ names_syncing half' = false /\ typing c' = []
  else members half' = delete nick (members half) /\ joined half' = joined half /\ bt_get nick (typing c') = None.

Lemma depart_channel_find network key nick self b col membership after r c half :
  find r key = Some c -> channel c = Some half ->
  exists c' half', find (depart_channel network key nick self (append_event b col membership) after r) key = Some c'
    /\ channel c' = Some half' /\ left_half self nick half half' c'.
Proof.
  intros Hf Hc. unfold depart_channel. rw Hf. unfold conv_is_channel. rw Hc bool_decide_eq_true_2; [by eexists|]. cbn [negb].
  destruct (depart nick self c) as [c1 departed] eqn:Hd.
  match goal with |- context [with_conversation key ?g ?r1] =>
    assert (Hget : bt_get key (conversations r1) = Some c1) by (rw forget_unseen_conversations; apply bt_get_insert);
    pose proof (with_conversation_get key g r1 c1 Hget) as Hfind; generalize dependent r1 end.
  intros r1 Hget Hfind. unfold find. rw Hfind. cbv beta.
  pose proof (append_event_standing b col membership (net_facts r1) c1) as Hs.
  destruct (append_event _ _ _ _) as [f2 c2]. cbn [snd] in Hs |- *.
  assert (Hc1 : exists half1, channel c1 = Some half1 /\
    if self then half1 = leave_channel (half <| members := delete nick (members half) |>)
    else half1 = half <| members := delete nick (members half) |>).
  { unfold depart in Hd. rw Hc in Hd. destruct self; injection Hd as <- _; by eexists. }
  destruct Hc1 as (half1 & Hc1 & Hhalf). destruct (channel c2) as [half2|] eqn:Hc2.
  - destruct (standing_half _ _ _ Hs Hc2) as (half0 & Hc0 & Hm & Hj & Hn & _). rw Hc1 in Hc0. injection Hc0 as <-.
    exists (clear_typing_of nick self c2), half2. split; [done|]. split; [exact Hc2|]. unfold left_half, clear_typing_of.
    destruct self; subst half1; rw Hm ?Hj ?Hn; cbn; split_and!; try done. apply bt_get_remove.
  - unfold standing in Hs. by rw Hc1 Hc2 in Hs.
Qed.

(** A PART or KICK leaves the channel's row in place. Another's leave takes exactly that nick
    out of the members, and its typing; our own empties the member list, unmarks the channel as
    joined, ends a NAMES listing and clears all typing. *)
Theorem leave_updates_members r event now key nick self c half :
  leaver r event = Some (key, nick, self) -> find r key = Some c -> channel c = Some half ->
  exists c' half', find (apply_event event now r) key = Some c' /\ channel c' = Some half' /\ left_half self nick half half' c'.
Proof.
  intros Hl Hf Hc. unfold apply_event. set (r0 := set_facts _ r).
  assert (Hf0 : find r0 key = Some c) by exact Hf.
  destruct event; try done; injection Hl as <- <- <-;
    exact (depart_channel_find _ _ _ _ _ _ _ _ r0 c half Hf0 Hc).
Qed.

Lemma find_intro r key c : reducer_ok r -> (key, c) ∈ conversations r -> find r key = Some c.
Proof.
  intros Hok Hin. unfold find. destruct (bt_get key (conversations r)) as [c'|] eqn:Hget.
  - f_equal. eapply (entry_unique _ _ _ _ (ok_keys _ _ Hok)); [by apply bt_get_elem|done].
  - exfalso. apply (proj1 (bt_get_None_keys _ _) Hget). apply list_elem_of_fmap. by exists (key, c).
Qed.

Lemma traverse_state {S} (g : S -> ConversationState -> S * ConversationState) s (m : Store) :
  (forall c, (g s c).1 = s) -> (bt_traverse g s m).1 = s.
Proof.
  intros Hg. induction m as [|[k c] m IH]; cbn; [done|]. specialize (Hg c). destruct (g s c) as [s1 c1]. cbn in Hg. subst s1.
  by destruct (bt_traverse g s m).
Qed.

Lemma clear_typing_everywhere_facts network nick r : net_facts (clear_typing_everywhere network nick r) = net_facts r.
Proof.
  unfold clear_typing_everywhere, each_of_network.
  match goal with |- context [bt_traverse ?g ?s ?m] => pose proof (traverse_state g s m) as H; destruct (bt_traverse g s m) end.
  apply H. intros c. by case_match.
Qed.

Lemma quit_channel_members nick b f c half :
  channel (quit_channel nick b (f, c)).2 = Some half -> members half !! nick = None.
Proof.
  unfold quit_channel. destruct (channel c) as [half0|] eqn:Hc; [|cbn; congruence].
  destruct (members half0 !! nick) eqn:Hm; [|cbn; rw Hc; by intros [= <-]].
  intros Hc'. pose proof (append_event_standing b true true f (c <| channel := Some (half0 <| members := delete nick (members half0) |>) |>)) as Hs.
  destruct (standing_half _ _ _ Hs Hc') as (half1 & Hc1 & -> & _). injection Hc1 as <-. apply lookup_delete_eq.
Qed.

(** Nobody lists the nick once every channel of the network has taken its quit. *)
Lemma quit_unseen network nick b r key c half :
  reducer_ok r -> find (each_of_network network (quit_channel nick b) r) key = Some c -> network_id key = network ->
  channel c = Some half -> members half !! nick = None.
Proof.
  intros Hok Hf Hn Hc. destruct (each_of_network_find _ _ _ _ _ Hf) as (f & c0 & Hf0 & ->).
  destruct (store_well_formed _ _ _ _ Hok (find_elem r key c0 Hf0)) as (Hk & _). rw Hk in Hc.
  unfold str_eqb in Hc. rw bool_decide_eq_true_2 // in Hc. by eapply quit_channel_members.
Qed.

Lemma quit_invisible network nick b r :
  reducer_ok r -> is_visible (conversations (each_of_network network (quit_channel nick b) r)) network nick = false.
Proof.
  intros Hok. assert (Hok' : reducer_ok (each_of_network network (quit_channel nick b) r))
    by (apply each_of_network_ok; [intros; apply quit_channel_safe|done]).
  apply not_true_is_false. intros [c [Hin Hb]]%existsb_exists. apply andb_true_iff in Hb as [Hn%bool_decide_eq_true Hm].
  apply list_elem_of_In in Hin. apply list_elem_of_fmap in Hin as ([key c'] & -> & Hin). cbn in Hn, Hm.
  destruct (store_well_formed _ _ _ _ Hok' Hin) as (Hk & _). rw Hk in Hn.
  destruct (channel c') as [half|] eqn:Hc; [|done]. apply bool_decide_eq_true in Hm.
  rw (quit_unseen network nick b r key c' half Hok (find_intro _ _ _ Hok' Hin) Hn Hc) in Hm. by destruct Hm.
Qed.

(** C37: After a QUIT no channel of the network lists the nick, no conversation shows it typing,
    and nothing is remembered of its presence. *)
Theorem quit_leaves_no_trace r e now :
  reachable r ->
  let network := quit_network e in
  let nick := normalize_in (net_facts r) network (quit_nick e) in
  let r' := apply_event (EvQuit e) now r in
  (forall key c, find r' key = Some c -> network_id key = network ->
     bt_get nick (typing c) = None /\ forall half, channel c = Some half -> members half !! nick = None)
  /\ knows nick (default ∅ (presence (net_facts r') !! network)) = false.
Proof.
  intros Hr network nick r'. pose proof (reachable_ok r Hr) as Hok. unfold r', apply_event. cbn [reduce]. unfold reduce_quit.
  set (r0 := set_facts _ r). assert (Hok0 : reducer_ok r0) by by apply set_facts_ok.
  change (normalize_in (net_facts r0) (quit_network e) (quit_nick e)) with nick. fold network.
  set (r1 := each_of_network network (quit_channel nick (quit_line (quit_nick e))) r0).
  assert (Hok1 : reducer_ok r1) by (apply each_of_network_ok; [intros; apply quit_channel_safe|done]).
  split.
  - intros key c Hf Hn. destruct (each_of_network_find _ _ _ _ _ Hf) as (f & c1 & Hf1 & ->).
    unfold find in Hf1. rw forget_unseen_conversations in Hf1.
    destruct (store_well_formed _ _ _ _ Hok1 (find_elem r1 key c1 Hf1)) as (Hk & _). rw Hk.
    unfold str_eqb. rw bool_decide_eq_true_2 //. cbn. split; [apply bt_get_remove|]. intros half Hc.
    by eapply (quit_unseen network nick _ r0 key c1 half).
  - rw clear_typing_everywhere_facts. unfold forget_unseen. destruct (presence (net_facts r1) !! network) as [known|] eqn:Hp.
    + cbn. rw lookup_insert_eq quit_invisible //. cbn. rw andb_true_r. destruct (knows nick known) eqn:Hk; [|done].
      unfold knows, forget. by rw lookup_delete_eq.
    + by rw Hp.
Qed.

(** ** A nick change *)

Lemma traverse_get_forward {S} (g : S -> ConversationState -> S * ConversationState) s (m : Store) key c :
  bt_get key m = Some c -> exists s0, bt_get key (bt_traverse g s m).2 = Some (g s0 c).2.
Proof.
  unfold bt_get. revert s. induction m as [|[k c0] m IH]; intros s; cbn; [done|].
  destruct (g s c0) as [s1 c1] eqn:Hg. destruct (bt_traverse g s1 m) as [s2 m2] eqn:Ht. cbn.
  destruct (key_eqb k key); [intros [= ->]; exists s; by rw Hg|]. intros H. destruct (IH s1 H) as (s0 & Hs0). exists s0. by rw Ht in Hs0.
Qed.

Lemma each_of_network_find_forward network g r key c :
  find r key = Some c -> network_id (conv_key c) = network ->
  exists f, find (each_of_network network g r) key = Some (g (f, c)).2.
Proof.
  intros Hf Hn. unfold each_of_network.
  match goal with |- context [bt_traverse ?h ?s ?m] => destruct (traverse_get_forward h s m key c Hf) as (f & H); destruct (bt_traverse h s m) end.
  exists f. unfold find. cbn in *. rw H. unfold str_eqb. by rw bool_decide_eq_true_2.
Qed.

Lemma with_conversation_find_ne key key' g r : key <> key' -> find (with_conversation key g r) key' = find r key'.
Proof.
  intros Hne. unfold with_conversation, find. destruct (bt_get key (conversations r)); [|done].
  destruct (g _). cbn. by rw bt_get_insert_ne.
Qed.

(** What the table of a sound state shows of a channel. *)
Definition shows r key (half : option ChannelState) : Prop :=
  reducer_ok r /\ exists c, find r key = Some c /\ conv_key c = key /\ standing c = half.

Lemma shows_each network g r key half half' :
  (forall st, safe st (g st)) -> network_id key = network ->
  (forall f c, standing c = half -> standing (g (f, c)).2 = half') ->
  shows r key half -> shows (each_of_network network g r) key half'.
Proof.
  intros Hg Hn Hstep (Hok & c & Hf & Hk & Hs). split; [by apply each_of_network_ok|].
  destruct (each_of_network_find_forward network g r key c Hf) as (f & H); [by rw Hk|].
  exists (g (f, c)).2. split; [done|]. split; [|by apply Hstep]. by rw (keeps_key _ _ _ _ (proj1 (proj1 (Hg (f, c))))).
Qed.

Lemma shows_facts g r key half : (forall f, claims (g f) = claims f) -> shows r key half -> shows (set_facts g r) key half.
Proof. intros Hg [Hok Hs]. split; [by apply set_facts_ok|exact Hs]. Qed.

Lemma shows_other key' g r key half :
  (forall st, safe st (g st)) -> key <> key' -> shows r key half -> shows (with_conversation key' g r) key half.
Proof.
  intros Hg Hne (Hok & c & Hf & H). split; [by apply with_conversation_ok|]. exists c. by rw with_conversation_find_ne.
Qed.

Lemma merge_standing moved display f c : standing (merge_conversation moved display (f, c)).2 = standing c.
Proof.
  unfold merge_conversation. set (c1 := foldl _ c (messages moved)).
  assert (Hc1 : standing c1 = standing c).
  { unfold c1. generalize c. induction (messages moved) as [|row rows IH]; intros c0; [done|]. cbn [foldl]. rw IH.
    unfold merge_row. case_match; [done|]. unfold insert_id. by repeat case_match. }
  pose proof (cap_standing f c1) as H. destruct (cap_messages (f, c1)) as [f2 c2].
  change (standing c2 = standing c). by rw -Hc1 -H.
Qed.

Lemma shows_move old_key new_key display r key half direct :
  find r old_key = Some direct -> conv_is_channel direct = false -> key <> old_key ->
  shows r key half -> shows (move_direct old_key new_key display r) key half.
Proof.
  intros Hd Hch Hne (Hok & c & Hf & Hk & Hs). split; [by eapply move_direct_ok|]. unfold move_direct. rw Hd.
  set (r1 := r <| conversations := bt_remove old_key (conversations r) |>).
  set (r2 := if decide (old_key ∈ _) then _ else r1).
  assert (H2 : find r2 key = Some c).
  { assert (H1 : find r1 key = Some c) by (unfold find, r1; cbn; by rw bt_get_remove_ne). unfold r2. by case_decide. }
  clearbody r2. match goal with |- context [if bt_contains new_key (conversations r2) then ?a else ?b] =>
    set (r3 := if bt_contains new_key (conversations r2) then a else b) end.
  assert (H3 : exists c', find r3 key = Some c' /\ conv_key c' = key /\ standing c' = half).
  { unfold r3. destruct (bt_contains new_key (conversations r2)) eqn:Hin; destruct (decide (key = new_key)) as [->|Hnew].
    - exists (merge_conversation (direct <| conv_key := new_key |> <| conv_target := display |>) display (net_facts r2, c)).2.
      split; [unfold find; by rw (with_conversation_get _ _ _ _ H2)|].
      split; [|by rw merge_standing]. rw -{2}Hk. apply (keeps_key _ _ _ _ (proj1 (proj1 (merge_conversation_safe _ display (net_facts r2, c))))).
    - exists c. by rw with_conversation_find_ne.
    - exfalso. assert (Hc : bt_contains new_key (conversations r2) = true) by (apply bt_contains_spec; by eexists). congruence.
    - exists c. unfold find. cbn. by rw bt_get_insert_ne. }
  clearbody r3. by case_decide.
Qed.

(** The end of a nick change: the direct conversation of the peer, which is no channel. *)
Lemma shows_direct e old new b r key half :
  half <> None -> shows r key half ->
  shows (match find r (mkKey (nick_network e) old) with
         | Some direct =>
             if conv_is_channel direct then r
             else
               let r := with_conversation (mkKey (nick_network e) old) (fun st =>
                 append_event b true true (st.1, (st.2) <| conv_target := new_nick e |>)) r in
               if decide (mkKey (nick_network e) old = mkKey (nick_network e) new) then r
               else move_direct (mkKey (nick_network e) old) (mkKey (nick_network e) new) (new_nick e) r
         | None => r
         end) key half.
Proof.
  intros Hhalf Hshow. destruct (find r (mkKey (nick_network e) old)) as [direct|] eqn:Hd; [|done].
  destruct (conv_is_channel direct) eqn:Hch; [done|]. set (g := fun st => append_event _ _ _ _).
  assert (Hg : forall st, safe st (g st)) by (intros [f c]; etrans; [|apply append_event_safe]; by apply safe_untouched).
  assert (Hne : key <> mkKey (nick_network e) old).
  { intros ->. destruct Hshow as (_ & c & Hf & _ & Hs). rw Hd in Hf. injection Hf as <-.
    unfold standing in Hs. unfold conv_is_channel in Hch. by destruct (channel direct). }
  assert (Hshow' : shows (with_conversation (mkKey (nick_network e) old) g r) key half) by by apply shows_other.
  cbv zeta. case_decide; [done|]. eapply shows_move; [by apply with_conversation_get| |exact Hne|exact Hshow'].
  by rw (keeps_channel _ _ _ _ (proj1 (proj1 (Hg (net_facts r, direct))))).
Qed.

Lemma rename_member_standing old new display b half member f c :
  standing c = Some half -> members half !! old = Some member ->
  standing (rename_member old new display b (f, c)).2
    = Some (half <| members := <[new := mkMember display (ranks member)]> (delete old (members half)) |>).
Proof.
  intros Hs Hm. unfold rename_member. unfold standing in Hs. destruct (channel c) as [half0|] eqn:Hc; [|done].
  injection Hs as <-. change (members (half0 <| history_anchor := None |>)) with (members half0) in *.
  rw Hm append_event_standing. done.
Qed.

Lemma standing_channel c half : channel c = Some half -> standing c = Some (half <| history_anchor := None |>).
Proof. intros H. unfold standing. by rw H. Qed.

(** A nick change moves the member of every channel of the network that lists it: the old
    nick goes, the new one is there with the same ranks, and every other member stays. *)
Theorem nick_change_keeps_ranks r e now key c half member :
  reachable r -> find r key = Some c -> network_id key = nick_network e -> channel c = Some half ->
  let old := normalize_in (net_facts r) (nick_network e) (old_nick e) in
  let new := normalize_in (net_facts r) (nick_network e) (new_nick e) in
  members half !! old = Some member ->
  exists c' half', find (apply_event (EvNick e) now r) key = Some c' /\ channel c' = Some half'
    /\ members half' = <[new := mkMember (new_nick e) (ranks member)]> (delete old (members half)).
Proof.
  intros Hr Hf Hn Hc old new Hm. pose proof (reachable_ok r Hr) as Hok.
  assert (Hkey : conv_key c = key) by (eapply store_well_formed; [exact Hok|by apply find_elem]).
  set (h0 := half <| history_anchor := None |>).
  set (h1 := h0 <| members := <[new := mkMember (new_nick e) (ranks member)]> (delete old (members half)) |>).
  enough (Hshow : shows (apply_event (EvNick e) now r) key (Some h1)).
  { destruct Hshow as (_ & c' & Hf' & _ & Hs'). unfold standing in Hs'. destruct (channel c') as [half'|] eqn:Hc'; [|done].
    exists c', half'. split_and!; try done. by injection Hs' as ->. }
  unfold apply_event. cbn [reduce]. set (r0 := set_facts _ r).
  assert (H0 : shows r0 key (Some h0)).
  { apply shows_facts; [done|]. split; [done|]. exists c. split_and!; [done..|by apply standing_channel]. }
  unfold reduce_nick. cbv zeta.
  change (normalize_in (net_facts r0) (nick_network e) (old_nick e)) with old.
  change (normalize_in (net_facts r0) (nick_network e) (new_nick e)) with new.
  apply shows_direct; [done|].
  apply (shows_each _ _ _ _ (Some h0)); [intros; apply rename_member_safe|done| |].
  { intros f0 c0 Hs. by apply (rename_member_standing _ _ _ _ h0). }
  apply (shows_each _ _ _ _ (Some h0)); [intros [f0 c0]; apply rekey_typing_safe|done| |].
  { intros f0 c0 <-. unfold rekey_typing. cbn. by case_match. }
  apply shows_facts; [done|]. case_match; [|done].
  apply (shows_each _ _ _ _ (Some h0)); [intros [f0 c0]; apply refresh_safe|done|done|].
  apply shows_facts; [done|]. apply shows_facts; [|done]. apply remember_self_nick_claims.
Qed.

(** ** The sidebar *)

(** The sidebar lists every conversation exactly once, whatever order of the networks the
    caller gives. *)
Theorem sidebar_lists_every_conversation r order key :
  reachable r ->
  NoDup (sidebar_order_with_networks r order)
  /\ (key ∈ sidebar_order_with_networks r order <-> is_Some (find r key)).
Proof.
  intros Hr. pose proof (reachable_ok r Hr) as Hok. unfold sidebar_order_with_networks, sort_by.
  rw merge_sort_Permutation. split; [apply (ok_keys _ _ Hok)|]. unfold find. split.
  - intros Hin. destruct (bt_get key (conversations r)) eqn:Hget; [by eexists|]. by apply bt_get_None_keys in Hget.
  - intros [c Hc]. apply list_elem_of_fmap. exists (key, c). split; [done|by apply bt_get_elem].
Qed.

(** Runs from the start. *)
Definition run_operations (ops : list Operation) : EventReducer := foldl (fun r op => perform op r) new_reducer ops.

Lemma reachable_run ops : reachable (run_operations ops).
Proof.
  unfold run_operations. assert (H : reachable new_reducer) by constructor. revert H. generalize new_reducer as r.
  induction ops as [|op ops IH]; intros r Hr; [done|]. apply IH. by constructor.
Qed.
End Properties.

(** ** A concrete run *)

(** A log and a closed list kept in memory. *)
Definition toy_stores : Stores := {|
  Log := list (str * str * TranscriptLine);
  log_append l n t _ line := l ++ [(n, t, line)];
  log_prepend l n t _ lines := ((fun line => (n, t, line)) <$> lines) ++ l;
  log_read_tail l n t _ k :=
    let mine := (fun e => e.2) <$> base.filter (fun e => e.1 = (n, t)) l in drop (length mine - k) mine;
  Closed := list (str * str);
  closed_contains c n t _ := bool_decide ((n, t) ∈ c);
  closed_add c n t _ := (n, t) :: c;
  closed_remove c n t _ := base.filter (fun e => e <> (n, t)) c;
|}.

Definition toy_run (ops : list (@Operation toy_stores)) : @EventReducer toy_stores := @run_operations toy_platform toy_stores ops.

Definition room_key : ConversationKey := mkKey (lit "net") (lit "#room").
Definition amy_key : ConversationKey := mkKey (lit "net") (lit "amy").
Definition room_chat (author text id : str) (only_visible : bool) : ChatEvent :=
  mkChat room_key author text 7%Z (Some 7%Z) (lit "#room") id only_visible.
Definition direct_chat (author text id : str) (sent : Time) : ChatEvent :=
  mkChat (mkKey (lit "net") author) author text sent (Some sent) author id false.

Definition room_operations : list (@Operation toy_stores) :=
  @OpSetLog toy_stores (Some []) ::
  ((fun e => @OpApply toy_stores e 7%Z) <$> [
    EvWelcome (mkWelcome (lit "net") (lit "me"));
    EvJoin (mkJoin (lit "net") (lit "#room") (lit "me") None None);
    EvNames (mkNames (lit "net") (lit "#room") [mkName (lit "me") 0; mkName (lit "amy") 1; mkName (lit "bob") 0] true);
    EvMessage (room_chat (lit "amy") (lit "hi me") (lit "m1") false);
    EvMessage (room_chat (lit "bob") (lit "psst") (lit "m2") true);
    EvMessage (direct_chat (lit "amy") (lit "one") (lit "d1") 1000000000%Z);
    EvMessage (direct_chat (lit "amy") (lit "two") (lit "d2") 9000000000%Z)]).
Definition room_run : @EventReducer toy_stores := toy_run room_operations.

Example room_run_rows :
  (fun e => (normalized_target e.1, body <$> messages e.2, unread e.2, mentions e.2)) <$> conversations room_run =
  [(lit "#room", [lit "me joined"; lit "hi me"; lit "psst"], 2, 1); (lit "amy", [lit "one"; lit "two"], 2, 0)].
Proof. by vm_compute. Qed.

Definition found (r : @EventReducer toy_stores) (key : ConversationKey) : ConversationState :=
  default (new_conversation key []) (@find toy_stores r key).
Definition found_half (r : @EventReducer toy_stores) (key : ConversationKey) : ChannelState :=
  default new_channel (channel (found r key)).

Lemma transcript_invariant_witness :
  (length (messages (found room_run room_key)) = 3)%nat /\ (length (messages (found room_run room_key)) <= MAX_MESSAGES)%nat.
Proof.
  split; [by vm_compute|].
  apply (@transcript_invariant toy_platform toy_stores room_run room_key (found room_run room_key) (reachable_run _)).
  by vm_compute.
Defined.

Lemma claims_point_at_channels_witness :
  exists c, @find toy_stores room_run room_key = Some c /\ conv_is_channel c = true /\ lit "m2" ∈ message_ids c.
Proof. apply (@claims_point_at_channels toy_platform toy_stores room_run (lit "m2") room_key (reachable_run _)). by vm_compute. Defined.

Lemma redelivered_chat_changes_nothing_witness :
  let again := @reduce_chat toy_platform toy_stores KindMessage (room_chat (lit "bob") (lit "me?") (lit "m3") true) in
  again (again room_run) = again room_run /\ length (messages (found (again room_run) room_key)) = 4%nat.
Proof.
  split; [|by vm_compute].
  by apply (@redelivered_chat_changes_nothing toy_platform toy_stores room_run KindMessage
    (room_chat (lit "bob") (lit "me?") (lit "m3") true) (reachable_run _)).
Defined.

Lemma read_marker_moves_forward_witness :
  let '(r', moved) := @apply_server_read_marker toy_platform toy_stores amy_key (Some 1000000000%Z) room_run in
  moved = true /\ exists c', @find toy_stores r' amy_key = Some c' /\ unread c' = 1.
Proof.
  pose proof (@read_marker_moves_forward toy_platform toy_stores room_run amy_key (found room_run amy_key) 1000000000%Z
    (reachable_run _) ltac:(by vm_compute) ltac:(by vm_compute)) as H. cbv zeta in H.
  destruct (@apply_server_read_marker toy_platform toy_stores amy_key (Some 1000000000%Z) room_run) as [r' moved].
  destruct H as (Hmoved & _ & H). assert (moved = true) as Hm by (rw Hmoved; by vm_compute). split; [done|].
  destruct (H Hm) as (c' & Hf & _ & _ & Hu & _). exists c'. split; [done|]. rw Hu. by vm_compute.
Defined.

Lemma leave_updates_members_witness :
  exists c' half', @find toy_stores (@apply_event toy_platform toy_stores (EvPart (mkPart (lit "net") (lit "#Room") (lit "Amy") [])) 8%Z room_run) room_key = Some c'
    /\ channel c' = Some half' /\ members half' = delete (lit "amy") (members (found_half room_run room_key)).
Proof.
  destruct (@leave_updates_members toy_platform toy_stores room_run (EvPart (mkPart (lit "net") (lit "#Room") (lit "Amy") [])) 8%Z
    room_key (lit "amy") false (found room_run room_key) (found_half room_run room_key)) as (c' & half' & Hf & Hc & Hm & _);
    [by vm_compute..|]. exists c', half'. split; [exact Hf|]. split; [exact Hc|exact Hm].
Defined.

Lemma quit_leaves_no_trace_witness :
  let r' := @apply_event toy_platform toy_stores (EvQuit (mkQuit (lit "net") (lit "Amy") [])) 8%Z room_run in
  @find toy_stores r' room_key = Some (found r' room_key) /\ bt_get (lit "amy") (typing (found r' room_key)) = None.
Proof.
  split; [by vm_compute|].
  apply (@quit_leaves_no_trace toy_platform toy_stores room_run (mkQuit (lit "net") (lit "Amy") []) 8%Z (reachable_run _)) with (key := room_key);
    by vm_compute.
Defined.

Lemma nick_change_keeps_ranks_witness :
  exists c' half', @find toy_stores (@apply_event toy_platform toy_stores (EvNick (mkNick (lit "net") (lit "Amy") (lit "Eve"))) 8%Z room_run) room_key = Some c'
    /\ channel c' = Some half' /\ members half' !! lit "eve" = Some (mkMember (lit "Eve") 1).
Proof.
  destruct (@nick_change_keeps_ranks toy_platform toy_stores room_run (mkNick (lit "net") (lit "Amy") (lit "Eve")) 8%Z room_key
    (found room_run room_key) (found_half room_run room_key) (mkMember (lit "amy") 1) (reachable_run _)) as (c' & half' & Hf & Hc & Hm);
    [by vm_compute..|]. exists c', half'. split; [exact Hf|]. split; [exact Hc|]. rw Hm. by vm_compute.
Defined.

Lemma sidebar_lists_every_conversation_witness :
  @sidebar_order_with_networks toy_platform toy_stores room_run [] = [room_key; amy_key]
  /\ NoDup (@sidebar_order_with_networks toy_platform toy_stores room_run []).
Proof.
  split; [by vm_compute|].
  apply (@sidebar_lists_every_conversation toy_platform toy_stores room_run [] room_key (reachable_run _)).
Defined.

(** A peer takes a nick the user muted while its conversation was closed: the conversation
    arrives unmuted under a key that stays in the muted set. *)
Example renamed_onto_muted_example :
  let r := toy_run (room_operations ++ [@OpSetMuted toy_stores (mkKey (lit "net") (lit "eve")) true;
    @OpApply toy_stores (EvNick (mkNick (lit "net") (lit "amy") (lit "eve"))) 8%Z]) in
  muted (found r (mkKey (lit "net") (lit "eve"))) = false
  /\ bool_decide (mkKey (lit "net") (lit "eve") ∈ muted_keys (net_facts r)) = true.
Proof. by vm_compute. Qed.
