(* ===== verification/SettingsIni.v ===== *)
(** * SettingsIni: the INI format of the settings files (src/client/src/storage/settings_ini.rs)

    Qt's [QSettings] writes these files and so does the program: a scanner that cuts the bytes
    into logical lines, the escapes of keys and of values with their inverses, and the parsers
    of a whole file. Quotes are code 34 throughout. A loop over an index of the bytes is a loop
    over what is left of them beside that index. *)

From S2P Require Import Prelude Text Utf OrdMap SessionTypes Sts.

(** settings.rs, [IniValue]: a string, another QVariant kept verbatim, a list, or [@Invalid]. *)
Inductive IniValue :=
| IniText (text : str)
| IniVariant (text : str)
| IniList (items : list str)
| IniInvalid.
#[export] Instance IniValue_eq_dec : EqDecision IniValue.
Proof. solve_decision. Defined.

Definition quote : char := 34.

(** ** Lines ([IniLines]) *)

Record IniLine := mkIniLine { line_start : nat; line_len : nat; line_equals : option nat }.

Definition ini_space (ch : byte) : bool := (ch =? 32) || (ch =? 9) || (ch =? 10) || (ch =? 13).
Definition is_newline (ch : byte) : bool := (ch =? 10) || (ch =? 13).
Definition ini_special (ch : byte) : bool :=
  is_newline ch || (ch =? quote) || (ch =? chr ";") || (ch =? chr "=") || (ch =? chr "\").

(** The rest of a comment, with the blank space behind it. *)
Definition after_comment (rest : bytes) : bytes := skip_while ini_space (skip_while (fun ch => negb (is_newline ch)) rest).

(** What a backslash takes with it: the next byte, and the second half of a line end. *)
Definition after_backslash (rest : bytes) : bytes :=
  match rest with
  | escaped :: next :: rest' =>
      if ((escaped =? 10) && (next =? 13)) || ((escaped =? 13) && (next =? 10)) then rest' else next :: rest'
  | _ => []
  end.

(** The inner loop of [IniLines::next] at index [i], where [rest] is [data[i..]]: the index it
    stops at, the bytes there, the start of the line and its first separator. *)
Fixpoint scan_line (fuel : nat) (rest : bytes) (i start : nat) (in_quotes : bool) (equals : option nat)
  : nat * bytes * nat * option nat :=
  match fuel, rest with
  | S fuel, ch :: rest' =>
      let at_start := (i =? start)%nat in
      let skip_to (r : bytes) := (i + (length rest - length r))%nat in
      if negb (ini_special ch) then
        if at_start && (ch =? chr "#")
        then let r := after_comment rest' in scan_line fuel r (skip_to r) (skip_to r) in_quotes equals
        else scan_line fuel rest' (S i) start in_quotes equals
      else if ch =? chr "=" then
        scan_line fuel rest' (S i) start in_quotes
          (if negb in_quotes && bool_decide (equals = None) then Some i else equals)
      else if is_newline ch then
        if at_start then scan_line fuel rest' (S i) (S start) in_quotes equals
        else if negb in_quotes then (i, rest, start, equals)
        else scan_line fuel rest' (S i) start in_quotes equals
      else if ch =? chr "\" then
        let r := after_backslash rest' in scan_line fuel r (skip_to r) start in_quotes equals
      else if ch =? quote then scan_line fuel rest' (S i) start (negb in_quotes) equals
      else if at_start then
        let r := after_comment rest' in scan_line fuel r (skip_to r) (skip_to r) in_quotes equals
      else if negb in_quotes then (i, rest, start, equals)
      else scan_line fuel rest' (S i) start in_quotes equals
  | _, _ => (i, rest, start, equals)
  end.

(** [IniLines::next] at [pos]: the line, if it is not empty, and where the next one begins. *)
Definition next_line (rest : bytes) (pos : nat) : option (IniLine * bytes * nat) :=
  let body := skip_while ini_space rest in
  let from := (pos + (length rest - length body))%nat in
  let '(i, rest', start, equals) := scan_line (S (length body)) body from from false None in
  if (start <? i)%nat then Some (mkIniLine start (i - start) equals, rest', i) else None.

(** The lines in order, until there is none. *)
Fixpoint lines_from (fuel : nat) (rest : bytes) (pos : nat) : list IniLine :=
  match fuel with
  | O => []
  | S fuel =>
      match next_line rest pos with
      | None => []
      | Some (line, rest, pos) => line :: lines_from fuel rest pos
      end
  end.
Definition ini_lines (data : bytes) : list IniLine := lines_from (S (length data)) data 0.

Definition line_text (data : bytes) (line : IniLine) : bytes := take (line_len line) (drop (line_start line) data).

Definition strip_bom (data : bytes) : bytes :=
  match data with
  | a :: b :: c :: rest => if (a =? 0xEF) && (b =? 0xBB) && (c =? 0xBF) then rest else data
  | _ => data
  end.

(** ** Digits *)

Definition hex_value (ch : N) : option N :=
  if is_ascii_digit ch then Some (ch - 48)
  else if within 97 102 ch then Some (ch - 97 + 10)
  else if within 65 70 ch then Some (ch - 65 + 10)
  else None.
Definition is_ascii_hexdigit (ch : char) : bool := bool_decide (is_Some (hex_value ch)).
Definition oct_value (ch : N) : option N := if within 48 55 ch then Some (ch - 48) else None.

Definition hex_upper (nibble : N) : char := let n := N.land nibble 0xF in if n <? 10 then 48 + n else 55 + n.
(** [format!("{:x}", ch)]; every character formatted here is below 256. *)
Definition hex_lower (n : N) : str := if n <? 16 then [hex_digit n] else [hex_digit (n / 16); hex_digit (n mod 16)].

(** ** Keys *)

Definition escape_unit (unit : N) : str :=
  if unit =? 0x2F then [chr "\"]
  else if is_ascii_alphanumeric unit || (unit =? chr "-") || (unit =? chr ".") || (unit =? chr "_") then [unit]
  else if unit <=? 0xFF then [chr "%"; hex_upper (N.shiftr unit 4); hex_upper (N.land unit 0xF)]
  else [chr "%"; chr "U"; hex_upper (N.land (N.shiftr unit 12) 0xF); hex_upper (N.land (N.shiftr unit 8) 0xF);
        hex_upper (N.land (N.shiftr unit 4) 0xF); hex_upper (N.land unit 0xF)].

Definition ini_escaped_key (key : str) : str := mbind escape_unit (encode_utf16 key).

(** [u8::try_from(unit).ok().and_then(hex_value)], over all the digits of one escape. *)
Definition hex_units (units : list N) : option N :=
  foldl (fun acc unit => let? value := acc in let? digit := hex_value unit in Some (value * 16 + digit)) (Some 0) units.

Fixpoint unescape_units (fuel : nat) (units : list N) : list N :=
  match fuel, units with
  | S fuel, ch :: rest =>
      if ch =? chr "\" then 0x2F :: unescape_units fuel rest
      else if negb (ch =? chr "%") || is_empty rest then ch :: unescape_units fuel rest
      else
        let '(from, digits) := match rest with
          | u :: rest' => if u =? chr "U" then (rest', 4%nat) else (rest, 2%nat)
          | [] => (rest, 2%nat)
          end in
        if (length from <? digits)%nat then ch :: unescape_units fuel rest
        else match hex_units (take digits from) with
             | Some value => value :: unescape_units fuel (drop digits from)
             | None => ch :: unescape_units fuel rest
             end
  | _, _ => []
  end.

Definition ini_unescaped_key (key : bytes) : str :=
  let units := encode_utf16 (from_utf8_lossy key) in from_utf16_lossy (unescape_units (length units) units).

(** ** Strings *)

(** What one character is written as, and whether a digit behind it must be escaped too. *)
Definition escape_piece (escape_next : bool) (ch : char) : str * bool :=
  if escape_next && is_ascii_hexdigit ch then (lit "\x" ++ hex_lower ch, true)
  else if ch =? 0 then (lit "\0", true)
  else if ch =? 7 then (lit "\a", false)
  else if ch =? 8 then (lit "\b", false)
  else if ch =? 12 then (lit "\f", false)
  else if ch =? 10 then (lit "\n", false)
  else if ch =? 13 then (lit "\r", false)
  else if ch =? 9 then (lit "\t", false)
  else if ch =? 11 then (lit "\v", false)
  else if (ch =? quote) || (ch =? chr "\") then ([chr "\"; ch], false)
  else if ch <=? 0x1F then (lit "\x" ++ hex_lower ch, true)
  else ([ch], false).

Fixpoint escape_chars (escape_next : bool) (text : str) : str :=
  match text with
  | [] => []
  | ch :: text => let '(piece, next) := escape_piece escape_next ch in piece ++ escape_chars next text
  end.

Definition ini_escaped_string (text : str) : str :=
  let out := escape_chars false text in
  let needs_quotes := existsb (fun ch => (ch =? chr ";") || (ch =? chr ",") || (ch =? chr "=")) text in
  if needs_quotes || bool_decide (head out = Some (chr " ")) || bool_decide (last out = Some (chr " "))
  then [quote] ++ out ++ [quote] else out.

Definition INVALID : str := lit "@Invalid()".

Definition ini_escaped_string_list (items : list str) : str :=
  match items with [] => INVALID | _ => join_with (lit ", ") (ini_escaped_string <$> items) end.

(** *** Reading one value ([ini_unescaped_string_list]) *)

Inductive Step := SkipSpaces | Normal | HexEscape | OctEscape.

Record Reading := mkReading {
  buf : bytes;
  items : list str;
  is_list : bool;
  in_quotes : bool;
  current_quoted : bool;
  chop_limit : nat;
  escape_val : N;
}.
#[export] Instance reading_eta : Eta Reading := fun r =>
  mkReading (buf r) (items r) (is_list r) (in_quotes r) (current_quoted r) (chop_limit r) (escape_val r).
Definition new_reading : Reading := mkReading [] [] false false false 0 0.

Definition chop (l : bytes) (limit : nat) : bytes :=
  take limit l ++ skip_while_end (fun b => (b =? 32) || (b =? 9)) (drop limit l).

(** [char::from_u32], or U+FFFD *)
Definition code_char (code : N) : char := if is_scalar code then code else REPLACEMENT.
Definition push_code_point (l : bytes) (code : N) : bytes := l ++ utf8_char (code_char code).

Definition escape_code (ch : byte) : option N :=
  if ch =? chr "a" then Some 0x07 else if ch =? chr "b" then Some 0x08 else if ch =? chr "f" then Some 0x0C
  else if ch =? chr "n" then Some 0x0A else if ch =? chr "r" then Some 0x0D else if ch =? chr "t" then Some 0x09
  else if ch =? chr "v" then Some 0x0B else if ch =? quote then Some 0x22 else if ch =? chr "?" then Some 0x3F
  else if ch =? chr "'" then Some 0x27 else if ch =? chr "\" then Some 0x5C else None.

Definition push_char (r : Reading) (code : N) : Reading := r <| buf := push_code_point (buf r) code |>.
(** Entering [Step::Normal], and what an ignored escape does. *)
Definition mark (r : Reading) : Reading := r <| chop_limit := length (buf r) |>.
Definition end_text (r : Reading) : Reading :=
  if current_quoted r then r else r <| buf := chop (buf r) (chop_limit r) |>.

(** An unquoted comma ends an item. *)
Definition end_item (r : Reading) : Reading :=
  let r := end_text r in
  let kept := if is_list r then items r else [] in
  r <| is_list := true |> <| items := kept ++ [from_utf8_lossy (buf r)] |> <| buf := [] |> <| current_quoted := false |>.

(** One step of the machine per unit of fuel; in [Step::Normal] a step takes one byte or one
    escape. The machine stops where it has no more to read. *)
Fixpoint read_value (fuel : nat) (step : Step) (rest : bytes) (r : Reading) : Reading :=
  match fuel with
  | O => r
  | S fuel =>
      match step with
      | SkipSpaces => read_value fuel Normal (skip_while (fun b => (b =? 32) || (b =? 9)) rest) (mark r)
      | Normal =>
          match rest with
          | [] => end_text r
          | b :: rest =>
              if b =? chr "\" then
                match rest with
                | [] => r
                | escaped :: rest =>
                    match escape_code escaped with
                    | Some decoded => read_value fuel Normal rest (mark (push_char r decoded))
                    | None =>
                        if escaped =? chr "x" then
                          match rest with
                          | [] => r <| escape_val := 0 |>
                          | digit :: _ =>
                              if is_ascii_hexdigit digit
                              then read_value fuel HexEscape rest (r <| escape_val := 0 |>)
                              else read_value fuel Normal rest (mark (r <| escape_val := 0 |>))
                          end
                        else match oct_value escaped with
                             | Some octal => read_value fuel OctEscape rest (r <| escape_val := octal |>)
                             | None =>
                                 let rest := match rest with
                                   | following :: rest' =>
                                       if is_newline escaped && is_newline following && negb (following =? escaped)
                                       then rest' else rest
                                   | [] => rest
                                   end in
                                 read_value fuel Normal rest (mark r)
                             end
                    end
                end
              else if b =? quote then
                let closing := in_quotes r in
                let r := r <| current_quoted := true |> <| in_quotes := negb (in_quotes r) |> in
                read_value fuel (if closing then SkipSpaces else Normal) rest r
              else if (b =? chr ",") && negb (in_quotes r) then read_value fuel SkipSpaces rest (end_item r)
              else read_value fuel Normal rest (r <| buf := buf r ++ [b] |>)
          end
      | HexEscape =>
          match rest with
          | [] => push_char r (escape_val r)
          | b :: rest' =>
              match hex_value b with
              | Some digit => read_value fuel HexEscape rest' (r <| escape_val := (escape_val r * 16 + digit) mod 2 ^ 32 |>)
              | None => read_value fuel Normal rest (mark (push_char r (escape_val r)))
              end
          end
      | OctEscape =>
          match rest with
          | [] => push_char r (escape_val r)
          | b :: rest' =>
              match oct_value b with
              | Some digit => read_value fuel OctEscape rest' (r <| escape_val := (escape_val r * 8 + digit) mod 2 ^ 32 |>)
              | None => read_value fuel Normal rest (mark (push_char r (escape_val r)))
              end
          end
      end
  end.

(** The sentinels of a value that is not a list. *)
Definition read_text (text : str) : IniValue :=
  if str_eqb text INVALID then IniInvalid
  else match text with
       | c :: rest =>
           if c =? chr "@" then
             match rest with
             | c' :: rest' => if c' =? chr "@" then IniText (chr "@" :: rest') else IniVariant text
             | [] => IniVariant text
             end
           else IniText text
       | [] => IniText text
       end.

Definition read_result (r : Reading) : IniValue :=
  let text := from_utf8_lossy (buf r) in
  if is_list r then IniList (items r ++ [text]) else read_text text.

Definition ini_unescaped_string_list (value : bytes) : IniValue :=
  read_result (read_value (2 + 2 * length value) SkipSpaces value new_reading).

(** ** Files *)

(** [trim_ascii] *)
Definition is_ascii_whitespace (b : byte) : bool := (b =? 32) || (b =? 9) || (b =? 10) || (b =? 12) || (b =? 13).
Definition trim_ascii (l : bytes) : bytes := skip_while_end is_ascii_whitespace (skip_while is_ascii_whitespace l).

Definition section_prefix (line : bytes) : str :=
  let inner := drop 1 line in
  let inner := match position (N.eqb (chr "]")) inner with Some close => take close inner | None => inner end in
  let inner := trim_ascii inner in
  if eq_ignore_ascii_case inner (lit "general") then []
  else if eq_ignore_ascii_case inner (lit "%general") then from_utf8_lossy (drop 1 inner) ++ lit "/"
  else ini_unescaped_key inner ++ lit "/".

(** The separator of a line, relative to its start: [equals_at.checked_sub(line.start)], when it
    lies within the line. *)
Definition separator (line : IniLine) (text : bytes) : option nat :=
  let? equals_at := line_equals line in
  if (equals_at <? line_start line)%nat then None
  else let equals := (equals_at - line_start line)%nat in
       if (length text <=? equals)%nat then None else Some equals.

Definition entry_key (section : str) (text : bytes) (equals : nat) : str :=
  section ++ ini_unescaped_key (trim_ascii (take equals text)).
Definition entry_value (text : bytes) (equals : nat) : IniValue := ini_unescaped_string_list (drop (S equals) text).

Definition opens_section (text : bytes) : bool := match text with b :: _ => b =? chr "[" | [] => false end.

(** One line of [parse_settings_ini]: the section prefix and the values. *)
Definition parse_line (data : bytes) (st : str * btree IniValue) (line : IniLine) : str * btree IniValue :=
  let '(section, values) := st in
  let text := line_text data line in
  if opens_section text then (section_prefix text, values)
  else match separator line text with
       | None => st
       | Some equals => (section, bt_insert (entry_key section text equals) (entry_value text equals) values)
       end.

Definition parse_settings_ini (data : bytes) : btree IniValue :=
  let raw := strip_bom data in (foldl (parse_line raw) ([], []) (ini_lines raw)).2.

(** One line of [parse_sts_ini]: after a bad line a key that is set stays as it is. *)
Definition parse_sts_line (data : bytes) (st : str * btree IniValue * bool) (line : IniLine) : str * btree IniValue * bool :=
  let '(section, values, after_bad) := st in
  let text := line_text data line in
  if opens_section text then (section_prefix text, values, false)
  else match line_equals line with
       | None => (section, values, after_bad || negb (match text with b :: _ => b =? chr ";" | [] => false end))
       | Some _ =>
           match separator line text with
           | None => st
           | Some equals =>
               let path := entry_key section text equals in
               if after_bad && bt_contains path values then st
               else (section, bt_insert path (entry_value text equals) values, after_bad)
           end
       end.

Definition parse_sts_ini (data : bytes) : btree IniValue :=
  let raw := strip_bom data in (foldl (parse_sts_line raw) ([], [], false) (ini_lines raw)).1.2.

(** A section that is not closed on its line, or a line that is neither a comment nor an entry. *)
Definition line_is_malformed (raw : bytes) (line : IniLine) : bool :=
  let first := default 0 (raw !! line_start line) in
  if first =? chr "[" then
    negb (match position (N.eqb (chr "]")) (drop (line_start line) raw) with
          | Some close => (close <? line_len line)%nat
          | None => false
          end)
  else bool_decide (line_equals line = None) && negb (first =? chr ";").

Definition ini_bytes_are_malformed (data : bytes) : bool :=
  let raw := strip_bom data in existsb (line_is_malformed raw) (ini_lines raw).

Example parse_settings_example :
  parse_settings_ini (lit "[networks]" ++ [10] ++ lit "abc\host=x; y" ++ [10; 10] ++ lit "# note" ++ [10] ++ lit "k=a, b")
  = [(lit "networks/abc/host", IniText (lit "x")); (lit "networks/k", IniList [lit "a"; lit "b"])].
Proof. vm_compute. reflexivity. Qed.

Example value_example :
  ini_escaped_string ([0] ++ lit "1;" ++ [34; 1] ++ lit "az" ++ [9]) = [quote] ++ lit "\0\x31;\" ++ [34] ++ lit "\x1\x61z\t" ++ [quote].
Proof. vm_compute. reflexivity. Qed.
