(* ===== verification/SettingsValues.v ===== *)
(** * SettingsValues: keys and values are read back as they were written
    (src/client/src/storage/settings_ini.rs) *)

From S2P Require Import Prelude Text Utf OrdMap SessionTypes Sts SettingsIni.

(** ** The machine without its fuel *)

Definition need (step : Step) (rest : bytes) : nat := (2 * length rest + match step with Normal => 1 | _ => 2 end)%nat.

Lemma after_pair_length (a b : byte) (rest : bytes) (p : bool) :
  (length (if p then rest else b :: rest) <= S (length rest))%nat.
Proof. destruct p; cbn; lia. Qed.

(** Fuel beyond what the bytes need changes nothing. *)
Lemma read_value_fuel fuel fuel' step rest r :
  (need step rest <= fuel)%nat -> (need step rest <= fuel')%nat ->
  read_value fuel step rest r = read_value fuel' step rest r.
Proof.
  revert fuel' step rest r. induction fuel as [|fuel IH]; intros fuel' step rest r H H'.
  { unfold need in H. destruct step; lia. }
  destruct fuel' as [|fuel']; [unfold need in H'; destruct step; lia|]. cbn [read_value]. unfold need in *.
  destruct step.
  - apply IH; pose proof (skip_while_length (fun b => (b =? 32) || (b =? 9)) rest); lia.
  - destruct rest as [|b rest]; [done|]. cbn [length] in *.
    destruct (b =? chr "\").
    + destruct rest as [|escaped rest]; [done|]. cbn [length] in *.
      destruct (escape_code escaped); [apply IH; lia|]. destruct (escaped =? chr "x").
      * destruct rest as [|digit rest]; [done|]. cbn [length] in *. destruct (is_ascii_hexdigit digit); apply IH; cbn [length]; lia.
      * destruct (oct_value escaped); [apply IH; lia|].
        destruct rest as [|following rest]; [apply IH; cbn [length] in *; lia|].
        destruct (_ && _); apply IH; cbn [length] in *; lia.
    + destruct (b =? quote); [destruct (in_quotes r); apply IH; lia|]. destruct (_ && _); apply IH; lia.
  - destruct rest as [|b rest]; [done|]. cbn [length] in *. destruct (hex_value b); apply IH; cbn [length]; lia.
  - destruct rest as [|b rest]; [done|]. cbn [length] in *. destruct (oct_value b); apply IH; cbn [length]; lia.
Qed.

Definition read (step : Step) (rest : bytes) (r : Reading) : Reading := read_value (2 + 2 * length rest) step rest r.

Lemma read_is fuel step rest r : (need step rest <= fuel)%nat -> read_value fuel step rest r = read step rest r.
Proof. intros H. apply read_value_fuel; [done|]. unfold need. destruct step; lia. Qed.

(** *** Its steps *)

Ltac open_read :=
  unfold read at 1;
  lazymatch goal with |- context [read_value (2 + ?n) ?step ?rest ?r] =>
    let f := fresh "f" in
    set (f := (1 + n)%nat); change (read_value (2 + n) step rest r) with (read_value (S f) step rest r);
    cbn [read_value]; subst f
  end.
Ltac close_read := apply read_is; unfold need; cbn [length]; lia.

Lemma read_skip rest r :
  (forall b l, rest = b :: l -> (b =? 32) || (b =? 9) = false) -> read SkipSpaces rest r = read Normal rest (mark r).
Proof. intros H. open_read. rw skip_while_id //. close_read. Qed.

Lemma read_byte b rest r :
  b <> chr "\" -> b <> quote -> (b = chr "," -> in_quotes r = true) ->
  read Normal (b :: rest) r = read Normal rest (r <| buf := buf r ++ [b] |>).
Proof.
  intros H1 H2 H3. open_read. rw (proj2 (N.eqb_neq _ _) H1) (proj2 (N.eqb_neq _ _) H2).
  destruct (N.eqb_spec b (chr ",")) as [E|E]; [rw (H3 E)|]; cbn [negb andb]; close_read.
Qed.

Lemma read_escape escaped code rest r :
  escape_code escaped = Some code -> read Normal (chr "\" :: escaped :: rest) r = read Normal rest (mark (push_char r code)).
Proof. intros H. open_read. rw N.eqb_refl H. close_read. Qed.

Lemma read_open_quote rest r :
  in_quotes r = false ->
  read Normal (quote :: rest) r = read Normal rest (r <| current_quoted := true |> <| in_quotes := true |>).
Proof. intros H. open_read. rw H. close_read. Qed.

Lemma read_close_quote rest r :
  in_quotes r = true ->
  read Normal (quote :: rest) r = read SkipSpaces rest (r <| current_quoted := true |> <| in_quotes := false |>).
Proof. intros H. open_read. rw H. close_read. Qed.

Lemma read_comma rest r :
  in_quotes r = false -> read Normal (chr "," :: rest) r = read SkipSpaces rest (end_item r).
Proof. intros H. open_read. rw H. close_read. Qed.

Lemma read_hex digit rest r :
  is_ascii_hexdigit digit = true ->
  read Normal (chr "\" :: chr "x" :: digit :: rest) r = read HexEscape (digit :: rest) (r <| escape_val := 0 |>).
Proof. intros H. open_read. cbn [N.eqb]. open_read. rw H. close_read. Qed.

Lemma read_hex_digit b digit rest r :
  hex_value b = Some digit ->
  read HexEscape (b :: rest) r = read HexEscape rest (r <| escape_val := (escape_val r * 16 + digit) mod 2 ^ 32 |>).
Proof. intros H. open_read. rw H. close_read. Qed.

(** The bytes behind an escape cannot extend it. *)
Definition no_hex (rest : bytes) : Prop := match rest with b :: _ => is_ascii_hexdigit b = false | [] => True end.

Lemma no_hex_value b rest : no_hex (b :: rest) -> hex_value b = None.
Proof. intros H. apply bool_decide_eq_false in H. destruct (hex_value b); [|done]. by destruct H. Qed.

Lemma oct_is_hex b digit : oct_value b = Some digit -> hex_value b <> None.
Proof. unfold oct_value, hex_value, within, is_ascii_digit. repeat case_match; try done; lia. Qed.

(** Behind an escape the machine goes on as if nothing could be chopped. *)
Lemma escape_result step rest r :
  step = HexEscape \/ step = OctEscape -> no_hex rest ->
  read_result (read step rest r) = read_result (read Normal rest (mark (push_char r (escape_val r)))).
Proof.
  intros Hstep Hno. destruct rest as [|b rest].
  - assert (read step [] r = push_char r (escape_val r)) as -> by (by destruct Hstep as [->| ->]).
    change (read Normal [] (mark (push_char r (escape_val r)))) with (end_text (mark (push_char r (escape_val r)))).
    unfold end_text, chop, mark. cbn. destruct (current_quoted r); [done|]. unfold read_result. cbn.
    by rw firstn_all drop_all app_nil_r.
  - f_equal. pose proof (no_hex_value _ _ Hno) as Hh. destruct Hstep as [->| ->]; open_read; [rw Hh; close_read|].
    destruct (oct_value b) as [digit|] eqn:Eo; [by apply oct_is_hex in Eo|]. close_read.
Qed.

(** ** One character *)

(** What reading a character does to the machine, whatever way it was written: the end of the
    text can be chopped only behind a plain one. *)
Definition reads_as (r : Reading) (text : str) (chopped : Prop) (r' : Reading) : Prop :=
  buf r' = buf r ++ as_bytes text /\ items r' = items r /\ is_list r' = is_list r /\
  in_quotes r' = in_quotes r /\ current_quoted r' = current_quoted r /\
  (chopped -> chop (buf r') (chop_limit r') = buf r').

Lemma chop_marked l : chop l (length l) = l.
Proof. unfold chop. by rw firstn_all drop_all app_nil_r. Qed.

Lemma chop_solid l b limit : (b =? 32) || (b =? 9) = false -> chop (l ++ [b]) limit = l ++ [b].
Proof.
  intros Hb. unfold chop. destruct (decide (limit <= length l)%nat) as [Hle|Hgt].
  - rw take_app_le // drop_app_le //. unfold skip_while_end. rw rev_app_distr /= Hb /= rev_involutive.
    rw app_assoc take_drop //.
  - rw take_ge; [rw length_app /=; lia|]. rw drop_ge; [rw length_app /=; lia|]. by rw app_nil_r.
Qed.

Lemma code_char_scalar c : is_scalar c = true -> code_char c = c.
Proof. unfold code_char. by intros ->. Qed.

Lemma as_bytes_single c : as_bytes [c] = utf8_char c.
Proof. unfold as_bytes. cbn. apply app_nil_r. Qed.

Lemma push_char_reads r c :
  is_scalar c = true -> reads_as r [c] True (mark (push_char r c)).
Proof.
  intros Hc. unfold reads_as, mark, push_char, push_code_point. cbn. rw (code_char_scalar c Hc) as_bytes_single.
  split_and!; try done. intros _. apply chop_marked.
Qed.

Lemma hex_digit_value n : n < 16 -> hex_value (hex_digit n) = Some n.
Proof.
  intros Hn. unfold hex_value, hex_digit, within, is_ascii_digit. destruct (N.ltb_spec n 10).
  - case_match; [f_equal; lia|lia].
  - case_match; [lia|]. case_match; [f_equal; lia|lia].
Qed.

Lemma hex_digit_is_hex n : n < 16 -> is_ascii_hexdigit (hex_digit n) = true.
Proof. intros Hn. apply bool_decide_eq_true. by rw hex_digit_value. Qed.

(** A hexadecimal escape. *)
Lemma read_hex_escape c rest r :
  c < 128 -> no_hex rest ->
  exists r', reads_as r [c] True r' /\
    read_result (read Normal (lit "\x" ++ hex_lower c ++ rest) r) = read_result (read Normal rest r').
Proof.
  intros Hc Hno. assert (Hs : is_scalar c = true) by (unfold is_scalar; lia).
  exists (mark (push_char (r <| escape_val := c |>) c)). split.
  { pose proof (push_char_reads (r <| escape_val := c |>) c Hs) as H. unfold reads_as in *. exact H. }
  change (lit "\x" ++ hex_lower c ++ rest) with (chr "\" :: chr "x" :: hex_lower c ++ rest).
  unfold hex_lower. destruct (N.ltb_spec c 16); cbn [app].
  - rw read_hex; [by apply hex_digit_is_hex|]. rw (read_hex_digit _ c); [by apply hex_digit_value|].
    rw escape_result; [by left|done|]. cbn [escape_val update]. cbn. by rw (N.mod_small c); [lia|].
  - assert (Hd : c / 16 < 16) by (apply N.Div0.div_lt_upper_bound; lia).
    pose proof (N.mod_lt c 16 ltac:(done)) as Hm. pose proof (N.div_mod c 16 ltac:(done)) as Hdm.
    rw read_hex; [by apply hex_digit_is_hex|]. rw (read_hex_digit _ (c / 16)); [by apply hex_digit_value|].
    rw (read_hex_digit _ (c mod 16)); [by apply hex_digit_value|].
    rw escape_result; [by left|done|]. cbn [escape_val update]. cbn.
    rw (N.mod_small (c / 16)); [lia|]. rw (N.mod_small (_ + _)); [lia|].
    replace (c / 16 * 16 + c mod 16) with c by lia. done.
Qed.

Definition plain_byte (quoted : bool) (b : byte) : Prop := b <> chr "\" /\ b <> quote /\ (b = chr "," -> quoted = true).

Lemma read_bytes l rest r :
  Forall (plain_byte (in_quotes r)) l -> read Normal (l ++ rest) r = read Normal rest (r <| buf := buf r ++ l |>).
Proof.
  revert r. induction l as [|b l IH]; intros r.
  - intros _. cbn. rw app_nil_r. by destruct r.
  - intros [(H1 & H2 & H3) Hl]%Forall_cons. cbn [app]. rw read_byte //. rw IH //. f_equal. cbn. by rw -app_assoc.
Qed.

(** The bytes of a character that is not ASCII are not. *)
Lemma utf8_char_high c : is_scalar c = true -> 0x80 <= c -> Forall (fun b => 0x80 <= b) (utf8_char c).
Proof. intros Hs Hc. unfold utf8_char. repeat case_match; repeat constructor; lia. Qed.

Lemma utf8_char_ends c : is_scalar c = true -> exists l b, utf8_char c = l ++ [b] /\ (b = c \/ 0x80 <= b).
Proof.
  intros Hs. destruct (N.ltb_spec c 0x80) as [Hlt|Hge].
  - exists [], c. unfold utf8_char. rw (proj2 (N.ltb_lt _ _) Hlt). by auto.
  - pose proof (utf8_char_high c Hs Hge) as Hall. destruct (utf8_char c) as [|b l] eqn:E using rev_ind.
    { by destruct (utf8_char_cons c) as (? & ? & E'); rw E in E'. }
    exists l, b. split; [done|]. right. by apply Forall_app in Hall as [_ [? _]%Forall_cons].
Qed.

Lemma plain_char quoted c :
  is_scalar c = true -> c <> chr "\" -> c <> quote -> (c = chr "," -> quoted = true) ->
  Forall (plain_byte quoted) (utf8_char c).
Proof.
  intros Hs H1 H2 H3. destruct (N.ltb_spec c 0x80) as [Hlt|Hge].
  - unfold utf8_char. rw (proj2 (N.ltb_lt _ _) Hlt). by repeat constructor.
  - eapply Forall_impl; [by apply utf8_char_high|]. intros b Hb. unfold plain_byte, quote. chars.
    cbn in Hb. split_and!; intros; lia.
Qed.

Lemma read_plain c rest r :
  is_scalar c = true -> c <> chr "\" -> c <> quote -> (c = chr "," -> in_quotes r = true) -> c <> 9 ->
  exists r', reads_as r [c] (c <> chr " ") r' /\ read Normal (as_bytes [c] ++ rest) r = read Normal rest r'.
Proof.
  intros Hs H1 H2 H3 H4. exists (r <| buf := buf r ++ utf8_char c |>). rw as_bytes_single. split.
  - unfold reads_as. cbn. rw as_bytes_single. split_and!; try done. intros Hsp.
    destruct (utf8_char_ends c Hs) as (l & b & E & Hb). rw E app_assoc. apply chop_solid. chars. destruct Hb; lia.
  - apply read_bytes. by apply plain_char.
Qed.

Lemma read_named c rest r :
  is_scalar c = true ->
  exists r', reads_as r [c] True r' /\
    (forall escaped, escape_code escaped = Some c -> read Normal (chr "\" :: escaped :: rest) r = read Normal rest r').
Proof.
  intros Hs. exists (mark (push_char r c)). split; [by apply push_char_reads|]. intros escaped. apply read_escape.
Qed.

(** The escape of NUL is read as an octal one. *)
Lemma read_nul rest r :
  no_hex rest ->
  exists r', reads_as r [0] True r' /\ read_result (read Normal (lit "\0" ++ rest) r) = read_result (read Normal rest r').
Proof.
  intros Hno. exists (mark (push_char (r <| escape_val := 0 |>) 0)). split.
  { pose proof (push_char_reads (r <| escape_val := 0 |>) 0 eq_refl) as H. unfold reads_as in *. exact H. }
  change (lit "\0" ++ rest) with (chr "\" :: chr "0" :: rest).
  assert (read Normal (chr "\" :: chr "0" :: rest) r = read OctEscape rest (r <| escape_val := 0 |>)) as ->.
  { open_read. cbn [N.eqb]. close_read. }
  rw escape_result //. by right.
Qed.

Lemma reads_as_weaken r text (P Q : Prop) r' : (Q -> P) -> reads_as r text P r' -> reads_as r text Q r'.
Proof. unfold reads_as. naive_solver. Qed.

Lemma hex_lower_ascii c : c < 256 -> forallb is_ascii (hex_lower c) = true.
Proof.
  intros Hc. assert (Hd : forall n, n < 16 -> is_ascii (hex_digit n) = true).
  { intros n Hn. unfold is_ascii, hex_digit. case_match; lia. }
  unfold hex_lower. destruct (N.ltb_spec c 16); cbn [forallb]; rw !Hd //; [by apply N.Div0.div_lt_upper_bound; lia|by apply N.mod_lt].
Qed.

Lemma hex_value_small c v : hex_value c = Some v -> c < 128.
Proof.
  unfold hex_value, within, is_ascii_digit. intros H. do 3 (case_match; [lia|]). done.
Qed.

Lemma read_piece escape_next c piece next rest r :
  escape_piece escape_next c = (piece, next) -> is_scalar c = true -> (c = chr "," -> in_quotes r = true) ->
  (next = true -> no_hex rest) ->
  exists r', reads_as r [c] (last piece <> Some (chr " ")) r' /\
    read_result (read Normal (as_bytes piece ++ rest) r) = read_result (read Normal rest r').
Proof.
  intros E Hs Hcomma Hno. unfold escape_piece in E.
  assert (Hhex : piece = lit "\x" ++ hex_lower c -> c < 128 -> next = true ->
    exists r', reads_as r [c] (last piece <> Some (chr " ")) r' /\
    read_result (read Normal (as_bytes piece ++ rest) r) = read_result (read Normal rest r')).
  { intros -> Hc Hn. destruct (read_hex_escape c rest r Hc (Hno Hn)) as (r' & H1 & H2).
    exists r'. split; [by eapply reads_as_weaken; [|exact H1]|]. rw -H2 as_bytes_ascii; [|by rw -app_assoc].
    rw forallb_app hex_lower_ascii //. lia. }
  destruct (escape_next && is_ascii_hexdigit c) eqn:Eh.
  { injection E as <- <-. apply Hhex; [done| |done]. apply andb_true_iff in Eh as [_ Eh].
    apply bool_decide_eq_true in Eh as [v Hv]. by apply hex_value_small in Hv. }
  clear Eh. destruct (N.eqb_spec c 0) as [->|H0].
  { injection E as <- <-. destruct (read_nul rest r (Hno eq_refl)) as (r' & H1 & H2). exists r'.
    split; [by eapply reads_as_weaken; [|exact H1]|exact H2]. }
  destruct (read_named c rest r Hs) as (r' & H1 & H2).
  assert (Hnamed : forall escaped, piece = [chr "\"; escaped] -> is_ascii escaped = true -> escape_code escaped = Some c ->
    exists r', reads_as r [c] (last piece <> Some (chr " ")) r' /\
    read_result (read Normal (as_bytes piece ++ rest) r) = read_result (read Normal rest r')).
  { intros escaped -> Ha Hcode. exists r'. split; [by eapply reads_as_weaken; [|exact H1]|]. f_equal. rw -(H2 _ Hcode).
    rw as_bytes_ascii //. cbn. by rw Ha. }
  destruct (N.eqb_spec c 7) as [->|_]; [injection E as <- <-; by apply (Hnamed (chr "a"))|].
  destruct (N.eqb_spec c 8) as [->|_]; [injection E as <- <-; by apply (Hnamed (chr "b"))|].
  destruct (N.eqb_spec c 12) as [->|_]; [injection E as <- <-; by apply (Hnamed (chr "f"))|].
  destruct (N.eqb_spec c 10) as [->|_]; [injection E as <- <-; by apply (Hnamed (chr "n"))|].
  destruct (N.eqb_spec c 13) as [->|_]; [injection E as <- <-; by apply (Hnamed (chr "r"))|].
  destruct (N.eqb_spec c 9) as [->|H9]; [injection E as <- <-; by apply (Hnamed (chr "t"))|].
  destruct (N.eqb_spec c 11) as [->|_]; [injection E as <- <-; by apply (Hnamed (chr "v"))|].
  destruct (N.eqb_spec c quote) as [->|Hq]; cbn [orb] in E; [injection E as <- <-; by apply (Hnamed quote)|].
  destruct (N.eqb_spec c (chr "\")) as [->|Hb]; [injection E as <- <-; by apply (Hnamed (chr "\"))|].
  destruct (N.leb_spec c 0x1F); injection E as <- <-; [apply Hhex; [done|lia|done]|].
  destruct (read_plain c rest r Hs Hb Hq Hcomma H9) as (r1 & Hr & Heq). exists r1. rw Heq. split; [|done].
  eapply reads_as_weaken; [|exact Hr]. cbn. congruence.
Qed.

(** ** A text *)

Lemma first_byte c : is_scalar c = true -> exists b l, utf8_char c = b :: l /\ (b = c \/ 0x80 <= b).
Proof.
  intros Hs. destruct (N.ltb_spec c 0x80) as [Hlt|Hge].
  - exists c, []. unfold utf8_char. rw (proj2 (N.ltb_lt _ _) Hlt). by auto.
  - pose proof (utf8_char_high c Hs Hge) as Hall. destruct (utf8_char_cons c) as (b & l & E). rw E in Hall.
    exists b, l. split; [done|]. right. by apply Forall_cons in Hall as [? _].
Qed.

Lemma hex_value_high b : 0x80 <= b -> is_ascii_hexdigit b = false.
Proof.
  intros Hb. apply bool_decide_eq_false. intros [v Hv%hex_value_small]. lia.
Qed.

Lemma as_bytes_piece_cons piece s c rest : piece = c :: rest -> exists b l, utf8_char c = b :: l /\ as_bytes (piece ++ s) = b :: l ++ as_bytes (rest ++ s).
Proof. intros ->. destruct (utf8_char_cons c) as (b & l & E). exists b, l. split; [done|]. cbn [app]. by rw as_bytes_cons E. Qed.

(** A piece begins with a backslash, or with the character it stands for. *)
Lemma piece_head escape_next c :
  (exists l, (escape_piece escape_next c).1 = chr "\" :: l) \/
  ((escape_piece escape_next c).1 = [c] /\ (escape_next = true -> is_ascii_hexdigit c = false)).
Proof.
  unfold escape_piece. destruct (escape_next && is_ascii_hexdigit c) eqn:E; [left; by eexists|].
  repeat (case_match; [left; by eexists|]). right. split; [done|]. intros ->. done.
Qed.

Lemma escaped_no_hex text rest :
  forallb is_scalar text = true -> no_hex rest -> no_hex (as_bytes (escape_chars true text) ++ rest).
Proof.
  destruct text as [|c text]; [done|]. cbn [forallb escape_chars]. intros [Hs _]%andb_true_iff _.
  destruct (piece_head true c) as [[l E]|[E Hno]]; destruct (escape_piece true c) as [piece next]; cbn [fst] in E; subst.
  - rw as_bytes_app. done.
  - cbn [app]. rw as_bytes_cons. destruct (first_byte c Hs) as (b & l & E & Hb). rw E. cbn.
    destruct Hb as [->|Hb]; [by apply Hno|by apply hex_value_high].
Qed.

Lemma piece_nonempty escape_next c : (escape_piece escape_next c).1 <> [].
Proof. destruct (piece_head escape_next c) as [[l E]|[E _]]; by rw E. Qed.

Lemma escape_chars_nil escape_next text : escape_chars escape_next text = [] -> text = [].
Proof.
  destruct text as [|c text]; [done|]. cbn [escape_chars]. pose proof (piece_nonempty escape_next c) as Hne.
  destruct (escape_piece escape_next c) as [piece next]. by intros [? _]%app_eq_nil.
Qed.

Definition chop_safe (r : Reading) : Prop := chop (buf r) (chop_limit r) = buf r.

(** Everything a text is written as is read back before what follows is looked at. *)
Lemma read_chars escape_next text rest r :
  forallb is_scalar text = true -> (In (chr ",") text -> in_quotes r = true) -> no_hex rest ->
  exists r', reads_as r text (last (escape_chars escape_next text) <> Some (chr " ") /\ (text = [] -> chop_safe r)) r' /\
    read_result (read Normal (as_bytes (escape_chars escape_next text) ++ rest) r) = read_result (read Normal rest r').
Proof.
  revert escape_next r. induction text as [|c text IH]; intros escape_next r; cbn [forallb escape_chars].
  { intros _ _ _. exists r. unfold reads_as. change (as_bytes []) with (@nil N). rw app_nil_r. naive_solver. }
  intros [Hc Hs]%andb_true_iff Hcomma Hno. destruct (escape_piece escape_next c) as [piece next] eqn:E.
  destruct (read_piece escape_next c piece next (as_bytes (escape_chars next text) ++ rest) r E Hc) as (r1 & H1 & E1).
  { intros ->. apply Hcomma. by left. }
  { intros ->. by apply escaped_no_hex. }
  destruct (IH next r1 Hs) as (r2 & H2 & E2); [|done|].
  { destruct H1 as (_ & _ & _ & -> & _). intros Hin. apply Hcomma. by right. }
  exists r2. rw as_bytes_app -app_assoc E1 E2. split; [|done].
  destruct H1 as (B1 & I1 & L1 & Q1 & C1 & K1), H2 as (B2 & I2 & L2 & Q2 & C2 & K2).
  split_and!; [by rw B2 B1 (as_bytes_cons c text) as_bytes_single -app_assoc|congruence..|]. intros [Hlast _].
  apply K2. destruct (decide (text = [])) as [->|Hne].
  - cbn [escape_chars] in *. rw app_nil_r in Hlast. split; [done|]. intros _. by apply K1.
  - split; [|done]. assert (Hx : escape_chars next text <> []) by by intros H%escape_chars_nil.
    destruct (escape_chars next text) as [|x l] using rev_ind; [done|]. by rw app_assoc !last_snoc in Hlast |- *.
Qed.

(** ** A value *)

(** A machine about to read an item. *)
Definition at_item (r : Reading) : Prop := buf r = [] /\ in_quotes r = false /\ current_quoted r = false.

Definition item_end (rest : bytes) : Prop := match rest with b :: _ => b = chr "," | [] => True end.

Lemma item_end_no_hex rest : item_end rest -> no_hex rest.
Proof. destruct rest as [|b rest]; [done|]. cbn. by intros ->. Qed.

Lemma item_end_skip rest r : item_end rest -> read SkipSpaces rest r = read Normal rest (mark r).
Proof. intros H. apply read_skip. intros b l ->. cbn in H. by subst. Qed.

Lemma plain_piece_not_tab escape_next c : (escape_piece escape_next c).1 = [c] -> c <> 9.
Proof. intros H ->. by destruct escape_next. Qed.

(** An unquoted text has no blank in front to skip. *)
Lemma unquoted_skip text rest r :
  forallb is_scalar text = true -> item_end rest -> head (escape_chars false text) <> Some (chr " ") ->
  let data := as_bytes (escape_chars false text) ++ rest in
  read SkipSpaces data r = read Normal data (mark r).
Proof.
  intros Hs Hend Hhead data. destruct text as [|c text]; [by apply item_end_skip|].
  apply read_skip. unfold data. cbn [escape_chars forallb] in *. apply andb_true_iff in Hs as [Hc _].
  pose proof (piece_head false c) as Hp. pose proof (plain_piece_not_tab false c) as Htab.
  destruct (escape_piece false c) as [piece next]. cbn [fst] in *.
  destruct Hp as [[p ->]|[-> _]]; cbn [app].
  - rw as_bytes_cons. by intros b l [= <- _].
  - rw as_bytes_cons. destruct (first_byte c Hc) as (b & l & E & Hb). rw E. intros b' l' [= <- _].
    assert (c <> 32) by (intros ->; by apply Hhead). specialize (Htab eq_refl).
    destruct (N.eqb_spec b 32), (N.eqb_spec b 9); try done; lia.
Qed.

Lemma read_item text rest r :
  forallb is_scalar text = true -> at_item r -> item_end rest ->
  exists r', buf (end_text r') = as_bytes text /\ items r' = items r /\ is_list r' = is_list r /\ in_quotes r' = false /\
    read_result (read SkipSpaces (as_bytes (ini_escaped_string text) ++ rest) r) = read_result (read Normal rest r').
Proof.
  intros Hs (Hbuf & Hq & Hcq) Hend. unfold ini_escaped_string. cbv zeta.
  destruct (existsb _ text || _ || _) eqn:Hquotes.
  - rw !as_bytes_app -!app_assoc. change (as_bytes [quote]) with [quote]. cbn [app].
    rw read_skip; [by intros b l [= <- _]|]. rw read_open_quote //.
    destruct (read_chars false text (quote :: rest) ((mark r) <| current_quoted := true |> <| in_quotes := true |>) Hs)
      as (r1 & (B & I & L & Q & C & _) & E); [done|done|].
    exists (mark (r1 <| current_quoted := true |> <| in_quotes := false |>)). rw E read_close_quote // item_end_skip //.
    split_and!; [|exact I|exact L|done|done]. unfold end_text, mark. cbn. rw B. cbn. by rw Hbuf.
  - apply orb_false_iff in Hquotes as [[Hn Hh]%orb_false_iff Hl].
    apply bool_decide_eq_false in Hh. apply bool_decide_eq_false in Hl. rw unquoted_skip //.
    destruct (read_chars false text rest (mark r) Hs) as (r1 & (B & I & L & Q & C & K) & E).
    { intros Hin. exfalso. apply not_true_iff_false in Hn. apply Hn. apply existsb_exists. exists (chr ","). by split. }
    { by apply item_end_no_hex. }
    exists r1. rw E. split_and!; [|exact I|exact L|by rw Q|done]. unfold end_text. rw C. cbn. rw Hcq. cbn.
    rw K; [|by rw B /= Hbuf]. split; [exact Hl|]. intros _. apply chop_marked.
Qed.

(** A string is read back, up to the sentinels. *)
Lemma read_string text :
  forallb is_scalar text = true -> ini_unescaped_string_list (as_bytes (ini_escaped_string text)) = read_text text.
Proof.
  intros Hs. destruct (read_item text [] new_reading Hs) as (r & B & I & L & Q & E); [done|done|].
  rw app_nil_r in E. change (read_result (read SkipSpaces (as_bytes (ini_escaped_string text)) new_reading) = read_text text).
  rw E. change (read Normal [] r) with (end_text r). unfold read_result. rw B.
  assert (is_list (end_text r) = false) as ->; [unfold end_text; by case_match|]. by rw from_utf8_lossy_as_bytes.
Qed.

Lemma read_skip_all rest r :
  read SkipSpaces rest r = read Normal (skip_while (fun b => (b =? 32) || (b =? 9)) rest) (mark r).
Proof.
  open_read. apply read_is. unfold need. pose proof (skip_while_length (fun b => (b =? 32) || (b =? 9)) rest). lia.
Qed.

Lemma end_text_keeps r :
  items (end_text r) = items r /\ is_list (end_text r) = is_list r /\ in_quotes (end_text r) = in_quotes r.
Proof. unfold end_text. by case_match. Qed.

(** The items a reading has when it is a list. *)
Definition kept_items (r : Reading) : list str := if is_list r then items r else [].

Lemma read_items texts r :
  Forall (fun t => forallb is_scalar t = true) texts -> at_item r ->
  (2 <= length texts)%nat \/ (texts <> [] /\ is_list r = true) ->
  read_result (read SkipSpaces (as_bytes (join_with (lit ", ") (ini_escaped_string <$> texts))) r)
  = IniList (kept_items r ++ texts).
Proof.
  intros Hall. revert r. induction Hall as [|text texts Hs Hall IH]; intros r Hat Hlist.
  { cbn in Hlist. exfalso. destruct Hlist as [|[? _]]; [lia|done]. }
  destruct texts as [|text' texts].
  - destruct Hlist as [Hlist|[_ Hlist]]; [cbn in Hlist; lia|]. cbn [fmap list_fmap join_with].
    destruct (read_item text [] r Hs Hat) as (r1 & B & I & L & Q & E); [done|].
    rw app_nil_r in E. rw E. change (read Normal [] r1) with (end_text r1). unfold read_result, kept_items.
    destruct (end_text_keeps r1) as (-> & -> & _). by rw B from_utf8_lossy_as_bytes // L I Hlist.
  - change (ini_escaped_string <$> text :: text' :: texts)
      with (ini_escaped_string text :: (ini_escaped_string <$> text' :: texts)).
    rw join_with_cons; [done|]. rw !as_bytes_app. change (as_bytes (lit ", ")) with [chr ","; chr " "].
    set (more := as_bytes (join_with _ _)) in *.
    destruct (read_item text ([chr ","; chr " "] ++ more) r Hs Hat) as (r1 & B & I & L & Q & E); [done|].
    rw E. cbn [app]. rw read_comma //.
    assert (read SkipSpaces (chr " " :: more) (end_item r1) = read SkipSpaces more (end_item r1)) as ->
      by by rw !read_skip_all.
    destruct (end_text_keeps r1) as (K1 & K2 & K3).
    rw IH.
    + split_and!; [done|unfold end_item; cbn; by rw K3|done].
    + right. by split.
    + f_equal. unfold kept_items. cbn. rw K1 K2 I L B from_utf8_lossy_as_bytes // -app_assoc. done.
Qed.

(** What a value is once it was written and read: an empty list is the invalid QVariant, and a
    list of one item is read as that item. *)
Definition reread (value : IniValue) : IniValue :=
  match value with
  | IniText text => IniText text
  | IniVariant text => read_text text
  | IniList [] => IniInvalid
  | IniList [text] => read_text text
  | IniList texts => IniList texts
  | IniInvalid => IniInvalid
  end.

Definition scalar_value (value : IniValue) : bool :=
  match value with
  | IniText text | IniVariant text => forallb is_scalar text
  | IniList texts => forallb (forallb is_scalar) texts
  | IniInvalid => true
  end.

(** ** Keys *)

Lemma nibble_mod n : N.land n 0xF = n mod 16.
Proof. exact (N.land_ones n 4). Qed.

Lemma hex_upper_value n : hex_value (hex_upper n) = Some (n mod 16).
Proof.
  unfold hex_upper. cbv zeta. rw nibble_mod. pose proof (N.mod_lt n 16 ltac:(done)) as Hm.
  unfold hex_value, within, is_ascii_digit. destruct (N.ltb_spec (n mod 16) 10).
  - case_match; [f_equal; lia|lia].
  - do 2 (case_match; [lia|]). case_match; [f_equal; lia|lia].
Qed.

Lemma hex_upper_ascii n : is_ascii (hex_upper n) = true.
Proof. pose proof (hex_value_small _ _ (hex_upper_value n)). unfold is_ascii. lia. Qed.

Lemma hex_units_app a b : hex_units (a ++ [b]) = let? value := hex_units a in let? digit := hex_value b in Some (value * 16 + digit).
Proof. unfold hex_units. by rw foldl_app. Qed.

Lemma hex_units_two a b : hex_units [hex_upper a; hex_upper b] = Some (a mod 16 * 16 + b mod 16).
Proof. unfold hex_units. cbn [foldl]. rw !hex_upper_value. done. Qed.

Lemma hex_units_four a b c d :
  hex_units [hex_upper a; hex_upper b; hex_upper c; hex_upper d]
  = Some (((a mod 16 * 16 + b mod 16) * 16 + c mod 16) * 16 + d mod 16).
Proof. unfold hex_units. cbn [foldl]. rw !hex_upper_value. done. Qed.

Lemma hex_upper_not_U n : (hex_upper n =? chr "U") = false.
Proof.
  pose proof (N.mod_lt n 16 ltac:(done)). unfold hex_upper. rw nibble_mod. chars. case_match; lia.
Qed.

Lemma literal_unit u :
  is_ascii_alphanumeric u || (u =? chr "-") || (u =? chr ".") || (u =? chr "_") = true ->
  (u =? chr "\") = false /\ (u =? chr "%") = false /\ is_ascii u = true.
Proof.
  unfold is_ascii_alphanumeric, is_ascii_alphabetic, is_ascii_uppercase, is_ascii_lowercase, is_ascii_digit, is_ascii. chars. lia.
Qed.

Lemma byte_nibbles u : u <= 0xFF -> N.shiftr u 4 mod 16 * 16 + N.land u 0xF mod 16 = u.
Proof.
  intros Hu. rw nibble_mod N.shiftr_div_pow2. change (2 ^ 4) with 16. rw N.Div0.mod_mod (N.mod_small (u / 16)).
  - apply N.Div0.div_lt_upper_bound. lia.
  - pose proof (N.div_mod u 16 ltac:(done)). lia.
Qed.

Lemma unit_nibbles u :
  u < 0x10000 ->
  ((N.land (N.shiftr u 12) 0xF mod 16 * 16 + N.land (N.shiftr u 8) 0xF mod 16) * 16
    + N.land (N.shiftr u 4) 0xF mod 16) * 16 + N.land u 0xF mod 16 = u.
Proof.
  intros Hu. rw !nibble_mod !N.shiftr_div_pow2 !N.Div0.mod_mod.
  change (2 ^ 12) with 4096. change (2 ^ 8) with 256. change (2 ^ 4) with 16.
  pose proof (N.div_mod u 16 ltac:(done)). pose proof (N.div_mod (u / 16) 16 ltac:(done)).
  pose proof (N.div_mod (u / 256) 16 ltac:(done)).
  assert (u / 16 / 16 = u / 256) as E1 by by rw N.Div0.div_div.
  assert (u / 256 / 16 = u / 4096) as E2 by by rw N.Div0.div_div.
  rw E1 in H0. rw E2 in H1. rw (N.mod_small (u / 4096)); [|lia]. apply N.Div0.div_lt_upper_bound. lia.
Qed.

Lemma unescape_unit fuel u rest :
  u < 0x10000 -> unescape_units (S fuel) (escape_unit u ++ rest) = u :: unescape_units fuel rest.
Proof.
  intros Hu. unfold escape_unit. destruct (N.eqb_spec u 0x2F) as [->|_]; [done|].
  destruct (is_ascii_alphanumeric u || _ || _ || _) eqn:Elit.
  - apply literal_unit in Elit as (H1 & H2 & _). cbn [app unescape_units]. by rw H1 H2.
  - destruct (N.leb_spec u 0xFF).
    + cbn [app unescape_units]. cbn [is_empty negb orb]. rw hex_upper_not_U. cbn [length Nat.ltb Nat.leb].
      cbn [take drop]. rw hex_units_two byte_nibbles //.
    + cbn [app unescape_units]. cbn [is_empty negb orb]. rw (N.eqb_refl (chr "U")). cbn [length Nat.ltb Nat.leb take drop].
      rw hex_units_four unit_nibbles //.
Qed.

Lemma unescape_units_all fuel units :
  Forall (fun u => u < 0x10000) units -> (length units <= fuel)%nat -> unescape_units fuel (mbind escape_unit units) = units.
Proof.
  intros Hall. revert fuel. induction Hall as [|u units Hu Hall IH]; intros fuel Hfuel; [by destruct fuel|].
  destruct fuel as [|fuel]; [cbn in Hfuel; lia|]. change (mbind escape_unit (u :: units)) with (escape_unit u ++ mbind escape_unit units).
  rw unescape_unit // IH //. cbn in Hfuel. lia.
Qed.

(** What a key is written with: never a byte the scanner or the parser looks for. *)
Definition key_byte (b : byte) : bool :=
  is_ascii_alphanumeric b || (b =? chr "-") || (b =? chr ".") || (b =? chr "_") || (b =? chr "\") || (b =? chr "%").

Lemma hex_upper_key n : key_byte (hex_upper n) = true.
Proof.
  pose proof (N.mod_lt n 16 ltac:(done)). unfold key_byte, hex_upper, is_ascii_alphanumeric, is_ascii_alphabetic,
    is_ascii_uppercase, is_ascii_lowercase, is_ascii_digit. rw nibble_mod. chars. case_match; lia.
Qed.

Lemma escape_unit_key u : forallb key_byte (escape_unit u) = true.
Proof.
  unfold escape_unit. case_match; [done|]. case_match eqn:E; [|by case_match; cbn [forallb]; rw ?hex_upper_key].
  cbn. unfold key_byte. by rw E.
Qed.

Lemma escape_unit_nonempty u : escape_unit u <> [].
Proof. unfold escape_unit. by repeat case_match. Qed.

Lemma escaped_key_bytes key : forallb key_byte (ini_escaped_key key) = true.
Proof.
  unfold ini_escaped_key. induction (encode_utf16 key) as [|u units IH]; [done|].
  change (mbind escape_unit (u :: units)) with (escape_unit u ++ mbind escape_unit units). by rw forallb_app escape_unit_key IH.
Qed.

Lemma key_byte_ascii b : key_byte b = true -> is_ascii b = true.
Proof.
  unfold key_byte, is_ascii_alphanumeric, is_ascii_alphabetic, is_ascii_uppercase, is_ascii_lowercase, is_ascii_digit, is_ascii.
  chars. lia.
Qed.

Lemma escaped_key_ascii key : forallb is_ascii (ini_escaped_key key) = true.
Proof. eapply forallb_impl; [apply key_byte_ascii|apply escaped_key_bytes]. Qed.

Lemma encode_utf16_ascii s : forallb is_ascii s = true -> encode_utf16 s = s.
Proof.
  unfold encode_utf16. induction s as [|c s IH]; [done|]. cbn [forallb]. intros [Hc Hs]%andb_true_iff.
  change (mbind utf16_char (c :: s)) with (utf16_char c ++ mbind utf16_char s). rw IH //. unfold utf16_char, is_ascii in *.
  by case_match; [|lia].
Qed.

Lemma escape_units_length units : (length units <= length (mbind escape_unit units))%nat.
Proof.
  induction units as [|u units IH]; [done|]. change (mbind escape_unit (u :: units)) with (escape_unit u ++ mbind escape_unit units).
  rw length_app. pose proof (escape_unit_nonempty u). destruct (escape_unit u); [done|]. cbn. lia.
Qed.

(** A key is read back. *)
Lemma read_key key : forallb is_scalar key = true -> ini_unescaped_key (ini_escaped_key key) = key.
Proof.
  intros Hs. unfold ini_unescaped_key. pose proof (escaped_key_ascii key) as Ha.
  assert (from_utf8_lossy (ini_escaped_key key) = ini_escaped_key key) as ->.
  { rw -{1}(as_bytes_ascii _ Ha) from_utf8_lossy_as_bytes //. by apply ascii_scalar. }
  rw encode_utf16_ascii //. cbv zeta. unfold ini_escaped_key at 2. rw unescape_units_all.
  - by apply encode_utf16_units.
  - apply escape_units_length.
  - by apply from_utf16_lossy_encode.
Qed.
