(* ===== verification/Settings.v ===== *)
(** * Settings: the key and value store over one INI file
    (src/client/src/storage/settings.rs, settings_snapshot.rs)

    A store is a table of full key paths. It is loaded from the bytes of a file and written back
    whole. The file system is a [Node], what the path names when an operation looks; an atomic
    write either lands or leaves the node alone, which the operation is told. *)

From S2P Require Import Prelude Text Utf OrdMap SessionTypes Platform Sts SettingsIni.

Inductive IniProbe := ProbeOk | Malformed | Unreadable.
#[export] Instance IniProbe_eq_dec : EqDecision IniProbe.
Proof. solve_decision. Defined.
Inductive Status := Written | Absent | AccessError | FormatError.
#[export] Instance Status_eq_dec : EqDecision Status.
Proof. solve_decision. Defined.

Record Settings := mkSettings {
  values : btree IniValue;
  dirty : bool;
  on_disk : option bytes;
  preserve_file_mode : bool;
}.
#[export] Instance settings_eta : Eta Settings := fun s =>
  mkSettings (values s) (dirty s) (on_disk s) (preserve_file_mode s).

(** ** Paths and encoding *)

Definition settings_key (group key : str) : str := if is_empty group then key else group ++ lit "/" ++ key.

(** The section and the key of a path, cut at its first slash. *)
Definition split_section (path : str) : str * str :=
  match split_once (N.eqb (chr "/")) path with Some parts => parts | None => ([], path) end.

Definition section_header (section : str) : str :=
  let escaped := ini_escaped_key section in
  if is_empty escaped then lit "[General]"
  else if eq_ignore_ascii_case escaped (lit "general") then lit "[%General]"
  else lit "[" ++ escaped ++ lit "]".

Definition starts_at (text : str) : bool := match text with c :: _ => c =? chr "@" | [] => false end.

Definition encode_value (value : IniValue) : str :=
  match value with
  | IniList texts => ini_escaped_string_list texts
  | IniInvalid => INVALID
  | IniVariant encoded => ini_escaped_string encoded
  | IniText text => ini_escaped_string (if starts_at text then chr "@" :: text else text)
  end.

Definition Sections : Type := btree (list (str * IniValue)).

(** [sections.entry(section).or_default().push((key, value))] *)
Definition push_entry (sections : Sections) (entry : str * IniValue) : Sections :=
  let '(section, key) := split_section entry.1 in
  bt_insert section (default [] (bt_get section sections) ++ [(key, entry.2)]) sections.

Definition encode_entry (entry : str * IniValue) : str := ini_escaped_key entry.1 ++ lit "=" ++ encode_value entry.2 ++ [10].

Definition by_key (a b : str * IniValue) : comparison := str_compare a.1 b.1.

Definition encode_section (section : str * list (str * IniValue)) : str :=
  section_header section.1 ++ [10] ++ mbind encode_entry (sort_by by_key section.2).

(** A blank line stands before every section but the first. *)
Definition encode_sections (sections : Sections) : str := join_with [10] (encode_section <$> sections).

Definition encode (s : Settings) : bytes := as_bytes (encode_sections (foldl push_entry [] (values s))).

(** ** Reads *)

Definition text_value (s : Settings) (group key : str) : option str :=
  match bt_get (settings_key group key) (values s) with
  | Some (IniText text) | Some (IniVariant text) => Some text
  | _ => None
  end.

Definition value (s : Settings) (group key : str) : str := default [] (text_value s group key).
Definition contains_key (s : Settings) (group key : str) : bool := bt_contains (settings_key group key) (values s).

Definition uint_value (s : Settings) (group key : str) (fallback : N) : N :=
  default fallback (let? text := text_value s group key in parse_unsigned usize_max (trim text)).
Definition int_value (s : Settings) (group key : str) (fallback : Z) : Z :=
  default fallback (let? text := text_value s group key in parse_i64 (trim text)).

Definition string_list (s : Settings) (group key : str) : option (list str) :=
  match bt_get (settings_key group key) (values s) with
  | None => None
  | Some (IniList texts) => Some texts
  | Some IniInvalid => Some []
  | Some (IniText text) | Some (IniVariant text) => Some (if is_empty text then [] else [text])
  end.

Section Folding.
Context `{platform : Platform}.
Definition bool_value (s : Settings) (group key : str) (fallback : bool) : bool :=
  match to_lowercase <$> text_value s group key with
  | Some text =>
      if str_eqb text (lit "true") || str_eqb text (lit "1") then true
      else if str_eqb text (lit "false") || str_eqb text (lit "0") then false
      else fallback
  | None => fallback
  end.
End Folding.

(** ** Writes *)

Definition put (s : Settings) (path : str) (v : IniValue) : Settings :=
  s <| values := bt_insert path v (values s) |> <| dirty := true |>.
Definition set_value (s : Settings) (group key v : str) : Settings := put s (settings_key group key) (IniText v).
Definition set_variant (s : Settings) (group key encoded : str) : Settings := put s (settings_key group key) (IniVariant encoded).
Definition set_bool (s : Settings) (group key : str) (v : bool) : Settings :=
  set_value s group key (if v then lit "true" else lit "false").
Definition set_uint (s : Settings) (group key : str) (v : N) : Settings := set_value s group key (show v).
(** [i64::to_string] *)
Definition show_int (z : Z) : str := if (z <? 0)%Z then chr "-" :: show (Z.to_N (- z)) else show (Z.to_N z).
Definition set_int (s : Settings) (group key : str) (v : Z) : Settings := set_value s group key (show_int v).
Definition set_string_list (s : Settings) (group key : str) (texts : list str) : Settings :=
  put s (settings_key group key) (IniList texts).

Definition remove_key (s : Settings) (group key : str) : Settings :=
  let path := settings_key group key in
  if bt_contains path (values s) then s <| values := bt_remove path (values s) |> <| dirty := true |> else s.

Definition in_group (group path : str) : bool :=
  str_eqb path group || bool_decide (is_Some (strip_prefix (group ++ lit "/") path)).

Definition remove_group (s : Settings) (group : str) : Settings :=
  let kept := if is_empty group then [] else bt_retain (fun path _ => negb (in_group group path)) (values s) in
  s <| values := kept |> <| dirty := dirty s || negb (length kept =? length (values s))%nat |>.

Definition child_groups (s : Settings) (group : str) : list str :=
  let prefix := if is_empty group then [] else group ++ lit "/" in
  bs_elements (foldl (fun seen path =>
      match strip_prefix prefix path with
      | Some rest =>
          match split_once (N.eqb (chr "/")) rest with Some (child, _) => bs_insert child seen | None => seen end
      | None => seen
      end) [] (bt_keys (values s))).

Definition mark_dirty (s : Settings) : Settings := s <| dirty := true |>.

(** ** The file *)

(** What the path names: nothing, something whose metadata cannot be read, a folder, or a file
    with its bytes and whether it can be read, opened for writing, and is marked read-only. *)
Inductive Node :=
| Missing
| NoMetadata
| Directory
| File (contents : bytes) (readable writable read_only : bool).

Definition read_ini_bytes (node : Node) : option bytes :=
  match node with File contents true _ _ => Some contents | _ => None end.
Definition node_exists (node : Node) : bool := match node with Missing | NoMetadata => false | _ => true end.

Definition probe_ini (node : Node) : IniProbe :=
  match node with
  | Missing => ProbeOk
  | NoMetadata | Directory => Unreadable
  | File contents readable _ _ =>
      if readable then if ini_bytes_are_malformed contents then Malformed else ProbeOk else Unreadable
  end.

Definition file_not_writable (node : Node) : bool :=
  match node with
  | Missing | NoMetadata => false
  | Directory => true
  | File _ _ writable read_only => read_only || negb writable
  end.

Definition write_blocked (node : Node) : Status :=
  match probe_ini node with
  | Malformed => FormatError
  | Unreadable => AccessError
  | ProbeOk => if file_not_writable node then AccessError else Written
  end.

(** settings_snapshot.rs, [finish_load] and the two ways to load. *)
Definition finish_load (loaded : btree IniValue) (file_read preserve : bool) : Settings :=
  let s := mkSettings loaded false None preserve in
  if file_read then s <| on_disk := Some (encode s) |> else s.

Definition load (parse : bytes -> btree IniValue) (preserve : bool) (node : Node) : Settings :=
  let file_bytes := read_ini_bytes node in
  finish_load (default [] (parse <$> file_bytes)) (bool_decide (is_Some file_bytes)) preserve.
Definition open_settings : Node -> Settings := load parse_settings_ini true.
Definition open_sts : Node -> Settings := load parse_sts_ini false.
Definition in_memory : Settings := finish_load [] false true.

Definition encoded_matches_disk (node : Node) (known : option bytes) (encoded : bytes) : bool :=
  match known with
  | Some held => bool_decide (held = encoded)
  | None => negb (node_exists node) && is_empty encoded
  end.

(** The file an atomic write leaves. *)
Definition written_node (contents : bytes) : Node := File contents true true false.

(** [sync]; [lands] is whether the atomic write succeeds. *)
Definition sync (s : Settings) (node : Node) (lands : bool) : Settings * Node * Status :=
  let blocked := write_blocked node in
  if negb (bool_decide (blocked = Written)) then (s, node, blocked)
  else if negb (dirty s) then (s, node, Written)
  else
    let encoded := encode s in
    if encoded_matches_disk node (on_disk s) encoded then (s <| dirty := false |>, node, Written)
    else if lands then (s <| on_disk := Some encoded |> <| dirty := false |>, written_node encoded, Written)
    else (s, node, AccessError).

Example encode_example :
  let s := set_string_list (set_value (set_value in_memory (lit "networks/a") (lit "host") (lit "x y ")) [] (lit "top") (lit "1"))
    (lit "highlights") (lit "words") [lit "a"; lit "b;c"] in
  encode s = lit "[General]" ++ [10] ++ lit "top=1" ++ [10; 10] ++ lit "[highlights]" ++ [10] ++ lit "words=a, " ++ [34]
    ++ lit "b;c" ++ [34; 10; 10] ++ lit "[networks]" ++ [10] ++ lit "a\host=" ++ [34] ++ lit "x y " ++ [34; 10].
Proof. vm_compute. reflexivity. Qed.
