(* ===== verification/SettingsAccess.v ===== *)
(** * SettingsAccess: what the reads of a store see
    (src/client/src/storage/settings.rs)

    A value set is the value read, under its key and no other; numbers and switches are read
    back; and a group is removed and listed exactly. *)

From S2P Require Import Prelude Text OrdMap SessionTypes Platform Sts SettingsIni Settings.

(** ** Keys *)

Definition slash_free (s : str) : bool := forallb (fun c => negb (chr "/" =? c)) s.

Lemma split_settings_key group key :
  group <> [] -> slash_free group = true -> split_section (settings_key group key) = (group, key).
Proof.
  intros Hne Hs. unfold split_section, settings_key. destruct group as [|c group]; [done|]. cbn [is_empty].
  change ((c :: group) ++ lit "/" ++ key) with ((c :: group) ++ chr "/" :: key). by rw split_once_at.
Qed.

Lemma settings_key_inj group group' key key' :
  group <> [] -> group' <> [] -> slash_free group = true -> slash_free group' = true ->
  settings_key group key = settings_key group' key' -> group = group' /\ key = key'.
Proof.
  intros H1 H2 H3 H4 E. pose proof (split_settings_key group key H1 H3) as E'. rw E split_settings_key // in E'. by injection E' as -> ->.
Qed.

(** ** Reads after writes *)

Definition text_of (v : option IniValue) : option str :=
  match v with Some (IniText text) | Some (IniVariant text) => Some text | _ => None end.

Lemma text_value_is s group key : text_value s group key = text_of (bt_get (settings_key group key) (values s)).
Proof. done. Qed.

Lemma put_get s path v path' : bt_get path' (values (put s path v)) = if str_eqb path path' then Some v else bt_get path' (values s).
Proof.
  unfold put. cbn. unfold str_eqb. case_bool_decide as E; [subst; apply bt_get_insert|by apply bt_get_insert_ne].
Qed.

Lemma trim_solid s : forallb (fun c => negb (is_whitespace c)) s = true -> trim s = s.
Proof.
  intros Hs. assert (Hw : forall x l' l0, l0 = x :: l' -> forallb (fun c => negb (is_whitespace c)) l0 = true -> is_whitespace x = false).
  { intros x l' l0 -> [Hx%negb_true_iff _]%andb_true_iff. done. }
  unfold trim, skip_while_end. rw (skip_while_id _ s); [by intros; eapply Hw|]. rw skip_while_id ?rev_involutive //.
  intros x l' E. apply (Hw x l' (rev s) E). apply forallb_forall. intros y Hy. apply in_rev in Hy.
  exact (proj1 (forallb_forall _ _) Hs y Hy).
Qed.

Lemma digit_solid c : is_ascii_digit c = true -> negb (is_whitespace c) = true.
Proof. unfold is_ascii_digit, is_whitespace. intros H. apply negb_true_iff. lia. Qed.

Lemma trim_show n : trim (show n) = show n.
Proof. apply trim_solid. eapply forallb_impl; [apply digit_solid|apply show_digits]. Qed.

Lemma trim_show_int z : trim (show_int z) = show_int z.
Proof.
  apply trim_solid. unfold show_int. case_match; cbn [forallb]; [apply andb_true_iff; split; [done|]|];
    (eapply forallb_impl; [apply digit_solid|apply show_digits]).
Qed.

Lemma parse_i64_show_int z : (i64_min <= z <= i64_max)%Z -> parse_i64 (show_int z) = Some z.
Proof.
  intros Hz. unfold parse_i64, show_int. destruct (Z.ltb_spec z 0) as [Hneg|Hpos].
  - change (chr "-" =? chr "+") with false. rw N.eqb_refl. pose proof (show_nonempty (Z.to_N (- z))) as Hne.
    pose proof (digits_value_show (Z.to_N (- z))) as Hv. destruct (show _) as [|d l]; [done|]. rw Hv. cbn.
    rw (Z2N.id (- z)); [lia|]. rw Z.opp_involutive. destruct (Z.leb_spec i64_min z), (Z.leb_spec z i64_max); done || lia.
  - pose proof (show_nonempty (Z.to_N z)) as Hne. pose proof (show_digits (Z.to_N z)) as Hd.
    pose proof (digits_value_show (Z.to_N z)) as Hv. destruct (show _) as [|d l]; [done|].
    apply andb_true_iff in Hd as [Hd _]. unfold is_ascii_digit in Hd. chars.
    rw (proj2 (N.eqb_neq d 43)); [lia|]. rw (proj2 (N.eqb_neq d 45)); [lia|]. rw Hv. cbn.
    rw (Z2N.id z); [lia|]. destruct (Z.leb_spec i64_min z), (Z.leb_spec z i64_max); done || lia.
Qed.

Section Numbers.
Context (s : Settings) (group key : str).

Lemma uint_value_of fallback n :
  text_value s group key = Some (show n) -> n <= usize_max -> uint_value s group key fallback = n.
Proof using Type. intros E Hn. unfold uint_value. rw E. cbn [mbind option_bind]. by rw trim_show parse_unsigned_show. Qed.

Lemma int_value_of fallback z :
  text_value s group key = Some (show_int z) -> (i64_min <= z <= i64_max)%Z -> int_value s group key fallback = z.
Proof using Type. intros E Hz. unfold int_value. rw E. cbn [mbind option_bind]. by rw trim_show_int parse_i64_show_int. Qed.
End Numbers.

(** ** Groups *)

Lemma in_group_spec group path : in_group group path = true <-> path = group \/ exists rest, path = group ++ lit "/" ++ rest.
Proof.
  unfold in_group. rw orb_true_iff str_eqb_eq bool_decide_eq_true. split; (intros [H|H]; [by left|right]).
  - destruct H as [rest H%strip_prefix_Some]. exists rest. by rw H -app_assoc.
  - destruct H as [rest ->]. exists rest. apply strip_prefix_Some. by rw -app_assoc.
Qed.

Lemma bt_get_filter {V} (p : str -> bool) (m : btree V) path :
  bt_get path (bt_retain (fun path _ => p path) m) = if p path then bt_get path m else None.
Proof.
  unfold bt_retain, bt_get. induction m as [|[k v] m IH]; [by case_match|]. rw filter_cons. cbn [fst snd].
  destruct (decide (p k = true)) as [E|E]; cbn.
  - unfold key_eqb. case_bool_decide as Ek; [subst; by rw E|exact IH].
  - unfold key_eqb. case_bool_decide as Ek; [subst|exact IH]. apply not_true_is_false in E. rw E in IH |- *. exact IH.
Qed.

Lemma remove_group_get s group path :
  group <> [] -> bt_get path (values (remove_group s group)) = if in_group group path then None else bt_get path (values s).
Proof.
  intros Hg. unfold remove_group. cbn. destruct group as [|c group]; [done|]. cbn [is_empty].
  rw (bt_get_filter (fun path => negb (in_group (c :: group) path))). by destruct (in_group (c :: group) path).
Qed.

Definition group_prefix (group : str) : str := if is_empty group then [] else group ++ lit "/".

Lemma bs_insert_elem (k k' : str) (seen : bset) : k' ∈ bs_elements (bs_insert k seen) <-> k' = k \/ k' ∈ bs_elements seen.
Proof.
  assert (Hin : forall (x : str) (m : bset), x ∈ bt_keys m <-> is_Some (bt_get x m)).
  { intros x m. rw -not_eq_None_Some bt_get_None_keys. destruct (decide (x ∈ bt_keys m)); naive_solver. }
  unfold bs_elements, bs_insert. rw !Hin. destruct (decide (k = k')) as [<-|Hne].
  - rw bt_get_insert. naive_solver.
  - rw bt_get_insert_ne //. naive_solver.
Qed.

Lemma split_once_slash (l a b : str) : split_once (N.eqb (chr "/")) l = Some (a, b) <-> slash_free a = true /\ l = a ++ lit "/" ++ b.
Proof.
  split; [|intros [Ha ->]; by apply split_once_at]. revert a. induction l as [|x l IH]; intros a; [done|]. cbn [split_once].
  destruct (N.eqb_spec (chr "/") x) as [<-|Hne]; [by intros [= <- <-]|].
  destruct (split_once _ l) as [[a' b']|]; [|done]. cbn [mbind option_bind]. intros [= <- <-]. destruct (IH a' eq_refl) as [Ha ->].
  split; [|done]. cbn. apply N.eqb_neq in Hne. by rw Hne.
Qed.

(** The direct child groups are the first segments below the group, each once. *)
Lemma child_groups_elem s group child :
  child ∈ child_groups s group <->
  slash_free child = true /\ exists rest, group_prefix group ++ child ++ lit "/" ++ rest ∈ bt_keys (values s).
Proof.
  unfold child_groups. cbv zeta. change (if is_empty group then [] else group ++ lit "/") with (group_prefix group).
  assert (Hgen : forall paths (seen : bset),
    child ∈ bs_elements (foldl (fun seen path => match strip_prefix (group_prefix group) path with
      | Some rest => match split_once (N.eqb (chr "/")) rest with Some (child, _) => bs_insert child seen | None => seen end
      | None => seen end) seen paths)
    <-> child ∈ bs_elements seen \/ slash_free child = true /\ exists rest, group_prefix group ++ child ++ lit "/" ++ rest ∈ paths).
  { induction paths as [|path paths IH]; intros seen; cbn [foldl].
    { split; [by left|]. intros [?|[_ [rest ?%elem_of_nil]]]; done. }
    rw IH. clear IH. destruct (strip_prefix _ path) as [below|] eqn:Ep.
    - apply strip_prefix_Some in Ep as ->. destruct (split_once _ below) as [[c r]|] eqn:Es.
      + apply split_once_slash in Es as Hc. destruct Hc as [Hc ->]. rw bs_insert_elem. setoid_rewrite elem_of_cons. split.
        * intros [[->|?]|[? [rest ?]]]; [right|by left|right]; eauto.
        * intros [?|[Hs [rest [Hp|Hp]]]]; [by left; right| |by right; eauto]. left. left.
          apply app_inv_head in Hp. assert (E2 : split_once (N.eqb (chr "/")) (child ++ lit "/" ++ rest) = Some (child, rest)) by by apply split_once_slash.
          rw Hp Es in E2. by injection E2.
      + setoid_rewrite elem_of_cons. split; [naive_solver|]. intros [?|[Hs [rest [Hp|Hp]]]]; [by left| |by right; eauto].
        exfalso. apply app_inv_head in Hp. assert (E2 : split_once (N.eqb (chr "/")) (child ++ lit "/" ++ rest) = Some (child, rest)) by by apply split_once_slash.
        by rw Hp Es in E2.
    - setoid_rewrite elem_of_cons. split; [naive_solver|]. intros [?|[Hs [rest [Hp|Hp]]]]; [by left| |by right; eauto].
      exfalso. assert (E2 : strip_prefix (group_prefix group) path = Some (child ++ lit "/" ++ rest)) by by apply strip_prefix_Some.
      by rw Ep in E2. }
  rw Hgen. split; [intros [H|H]; [by apply elem_of_nil in H|done]|by right].
Qed.
