(* ===== verification/SettingsLines.v ===== *)
(** * SettingsLines: the scanner on the lines a file is written with
    (src/client/src/storage/settings_ini.rs)

    The scanner without its fuel and its steps; the stretches of a line it goes through; and a
    file of rows, each blank space, a text and a line end, is cut back into those rows. *)

From S2P Require Import Prelude Text Utf OrdMap SessionTypes Sts SettingsIni SettingsValues.

(** ** The scanner on one line *)

Lemma after_comment_length rest : (length (after_comment rest) <= length rest)%nat.
Proof. unfold after_comment. etrans; [apply skip_while_length|]. apply skip_while_length. Qed.

Lemma after_backslash_length rest : (length (after_backslash rest) <= length rest)%nat.
Proof.
  unfold after_backslash. destruct rest as [|escaped [|next rest]]; [done|cbn; lia|]. case_match; cbn; lia.
Qed.

Lemma scan_line_fuel fuel fuel' rest i start q eq :
  (length rest <= fuel)%nat -> (length rest <= fuel')%nat ->
  scan_line fuel rest i start q eq = scan_line fuel' rest i start q eq.
Proof.
  revert fuel' rest i start q eq. induction fuel as [|fuel IH]; intros fuel' rest i start q eq H H'.
  { destruct rest; [by destruct fuel'|cbn in H; lia]. }
  destruct fuel' as [|fuel']; [destruct rest; [done|cbn in H'; lia]|].
  destruct rest as [|ch rest]; [done|]. cbn [scan_line length] in *.
  pose proof (after_comment_length rest). pose proof (after_backslash_length rest).
  repeat (case_match; try done); apply IH; lia.
Qed.

Definition scan (rest : bytes) (i start : nat) (q : bool) (eq : option nat) : nat * bytes * nat * option nat :=
  scan_line (length rest) rest i start q eq.

Lemma scan_is fuel rest i start q eq : (length rest <= fuel)%nat -> scan_line fuel rest i start q eq = scan rest i start q eq.
Proof. intros H. by apply scan_line_fuel. Qed.

(** *** Its steps behind the first byte of a line *)

Ltac open_scan :=
  lazymatch goal with |- context [scan ?rest ?i ?start ?q ?eq] =>
    let f := fresh "f" in
    set (f := pred (length rest));
    change (scan rest i start q eq) with (scan_line (S f) rest i start q eq);
    cbn [scan_line]; subst f
  end.
Ltac close_scan := apply scan_is; cbn [length Nat.pred]; lia.

Lemma scan_plain ch rest i start q eq :
  ini_special ch = false -> (i = start -> ch <> chr "#") ->
  scan (ch :: rest) i start q eq = scan rest (S i) start q eq.
Proof.
  intros Hs Hh. open_scan. rw Hs. cbn [negb]. destruct (Nat.eqb_spec i start) as [E|E]; cbn [andb].
  - rw (proj2 (N.eqb_neq _ _) (Hh E)). close_scan.
  - close_scan.
Qed.

Lemma scan_separator rest i start q eq :
  scan (chr "=" :: rest) i start q eq
  = scan rest (S i) start q (if negb q && bool_decide (eq = None) then Some i else eq).
Proof. done. Qed.

Lemma scan_backslash x rest i start q eq :
  is_newline x = false -> scan (chr "\" :: x :: rest) i start q eq = scan rest (2 + i) start q eq.
Proof.
  intros Hx. unfold is_newline in Hx. apply orb_false_iff in Hx as [H1 H2]. open_scan.
  change (ini_special (chr "\")) with true. cbn [negb].
  change (chr "\" =? chr "=") with false. change (is_newline (chr "\")) with false. rw N.eqb_refl.
  assert (after_backslash (x :: rest) = rest) as ->.
  { destruct rest as [|y rest]; [done|]. cbn [after_backslash]. by rw H1 H2. }
  rw scan_is; [cbn [length Nat.pred]; lia|]. f_equal. cbn [length]. lia.
Qed.

Lemma scan_quote rest i start q eq : scan (quote :: rest) i start q eq = scan rest (S i) start (negb q) eq.
Proof. done. Qed.

Lemma scan_quoted_semicolon rest i start eq :
  i <> start -> scan (chr ";" :: rest) i start true eq = scan rest (S i) start true eq.
Proof.
  intros Hi. open_scan. rw (proj2 (Nat.eqb_neq _ _) Hi). close_scan.
Qed.

Lemma scan_newline rest i start eq :
  i <> start -> scan (10 :: rest) i start false eq = (i, 10 :: rest, start, eq).
Proof. intros Hi. open_scan. by rw (proj2 (Nat.eqb_neq _ _) Hi). Qed.

(** The quotes a stretch of a line leaves open, if nothing in it ends the line. *)
Fixpoint walk (q : bool) (l : bytes) : option bool :=
  match l with
  | [] => Some q
  | ch :: l =>
      if ch =? chr "\" then
        match l with
        | x :: l => if is_newline x then None else walk q l
        | [] => None
        end
      else if is_newline ch then None
      else if ch =? quote then walk (negb q) l
      else if ch =? chr ";" then if q then walk q l else None
      else walk q l
  end.

Lemma walk_app q q' a b : walk q a = Some q' -> walk q (a ++ b) = walk q' b.
Proof.
  revert q. induction a as [a IH] using (induction_ltof1 _ (@length N)); unfold ltof in IH. intros q.
  destruct a as [|ch a]; [by intros [= ->]|]. cbn [walk app].
  destruct (ch =? chr "\").
  { destruct a as [|x a]; [done|]. cbn [app]. destruct (is_newline x); [done|]. apply IH. cbn. lia. }
  destruct (is_newline ch); [done|]. destruct (ch =? quote); [apply IH; cbn; lia|].
  destruct (ch =? chr ";"); [destruct q; [apply IH; cbn; lia|done]|]. apply IH. cbn. lia.
Qed.

(** The scanner goes through such a stretch. *)
Lemma scan_walk l rest i start q q' eq :
  walk q l = Some q' -> chr "=" ∉ l \/ eq <> None ->
  (i = start -> q = false /\ head l <> Some (chr "#")) -> (start <= i)%nat ->
  scan (l ++ rest) i start q eq = scan rest (i + length l) start q' eq.
Proof.
  revert q i. induction l as [l IH] using (induction_ltof1 _ (@length N)); unfold ltof in IH. intros q i Hw Heq Hfirst Hle.
  destruct l as [|ch l].
  { injection Hw as ->. cbn. by rw Nat.add_0_r. }
  cbn [walk] in Hw. cbn [app].
  assert (Hrest : forall l' q1 k, (length l' < length (ch :: l))%nat -> (forall x, x ∈ l' -> x ∈ ch :: l) -> walk q1 l' = Some q' ->
    (0 < k)%nat -> (k + length l' = length (ch :: l))%nat ->
    scan (l' ++ rest) (k + i) start q1 eq = scan rest (i + length (ch :: l)) start q' eq).
  { intros l' q1 k Hlen Hin Hw' Hk Hsum. rw (IH l' Hlen q1 (k + i)%nat Hw').
    - destruct Heq as [Heq|Heq]; [left; by intros ?%Hin|by right].
    - intros E. lia.
    - lia.
    - f_equal. lia. }
  destruct (N.eqb_spec ch (chr "\")) as [->|Hb].
  { destruct l as [|x l]; [done|]. destruct (is_newline x) eqn:Ex; [done|]. cbn [app]. rw scan_backslash //.
    apply (Hrest l q 2%nat); [cbn; lia|set_solver|done|lia|cbn; lia]. }
  destruct (is_newline ch) eqn:En; [done|].
  destruct (N.eqb_spec ch quote) as [->|Hq].
  { rw scan_quote. apply (Hrest l (negb q) 1%nat); [cbn; lia|set_solver|done|lia|cbn; lia]. }
  destruct (N.eqb_spec ch (chr ";")) as [->|Hs].
  { destruct q; [|done]. rw scan_quoted_semicolon; [intros E; by destruct (Hfirst E)|].
    apply (Hrest l true 1%nat); [cbn; lia|set_solver|done|lia|cbn; lia]. }
  destruct (N.eqb_spec ch (chr "=")) as [->|He].
  - rw scan_separator. destruct Heq as [Heq|Heq]; [exfalso; apply Heq; by left|]. rw (bool_decide_eq_false_2 _ Heq) andb_false_r.
    apply (Hrest l q 1%nat); [cbn; lia|set_solver|done|lia|cbn; lia].
  - rw scan_plain.
    + unfold ini_special. rw En (proj2 (N.eqb_neq _ _) Hq) (proj2 (N.eqb_neq _ _) Hs) (proj2 (N.eqb_neq _ _) He).
      by rw (proj2 (N.eqb_neq _ _) Hb).
    + intros E ->. by destruct (Hfirst E) as [_ []].
    + apply (Hrest l q 1%nat); [cbn; lia|set_solver|done|lia|cbn; lia].
Qed.

(** ** A file of rows *)

(** A line as it is written: the blank space in front, the text and its first separator. *)
Record Row := mkRow { row_space : bytes; row_text : bytes; row_equals : option nat }.

Definition row_bytes (row : Row) : bytes := row_space row ++ row_text row ++ [10].
Definition rows_bytes (rows : list Row) : bytes := mbind row_bytes rows.

(** The scanner finds the text of the row, whatever comes behind it. *)
Definition good_row (row : Row) : Prop :=
  forallb ini_space (row_space row) = true /\
  (exists b l, row_text row = b :: l /\ ini_space b = false) /\
  (forall e, row_equals row = Some e -> (e < length (row_text row))%nat) /\
  (forall rest i, scan (row_text row ++ 10 :: rest) i i false None
     = ((i + length (row_text row))%nat, 10 :: rest, i, (fun e => i + e)%nat <$> row_equals row)).

(** The line of [data] that a row was written as. *)
Definition line_of (data : bytes) (line : IniLine) (row : Row) : Prop :=
  exists a b, data = a ++ row_text row ++ 10 :: b /\
    line = mkIniLine (length a) (length (row_text row)) ((fun e => length a + e)%nat <$> row_equals row).

Lemma skip_space_app a l : forallb ini_space a = true -> skip_while ini_space (a ++ l) = skip_while ini_space l.
Proof. induction a as [|b a IH]; [done|]. cbn. by intros [-> ?]%andb_true_iff; auto. Qed.

Lemma next_line_row lead row more pos :
  forallb ini_space lead = true -> good_row row ->
  next_line (lead ++ row_bytes row ++ more) pos
  = Some (mkIniLine (pos + length (lead ++ row_space row)) (length (row_text row))
            ((fun e => pos + length (lead ++ row_space row) + e)%nat <$> row_equals row),
          10 :: more, (pos + length (lead ++ row_space row) + length (row_text row))%nat).
Proof.
  intros Hl (Hs & (b & l & E & Hb) & _ & Hscan). unfold next_line, row_bytes.
  assert (Hbody : skip_while ini_space (lead ++ (row_space row ++ row_text row ++ [10]) ++ more) = row_text row ++ 10 :: more).
  { rw skip_space_app // -!app_assoc skip_space_app //. cbn [app]. rw E. cbn. by rw Hb. }
  rw Hbody. rw scan_is; [lia|]. rw Hscan.
  assert (length (lead ++ (row_space row ++ row_text row ++ [10%N]) ++ more) - length (row_text row ++ 10%N :: more)
    = length (lead ++ row_space row))%nat as -> by (rw !length_app /=; lia).
  rw (proj2 (Nat.ltb_lt _ _)); [rw E /=; lia|]. do 4 f_equal. lia.
Qed.

Lemma lines_of_rows rows pre lead fuel :
  forallb ini_space lead = true -> Forall good_row rows -> (length (lead ++ rows_bytes rows) < fuel)%nat ->
  Forall2 (line_of (pre ++ lead ++ rows_bytes rows)) (lines_from fuel (lead ++ rows_bytes rows) (length pre)) rows.
Proof.
  intros Hl Hall. revert pre lead fuel Hl. induction Hall as [|row rows Hrow Hall IH]; intros pre lead fuel Hl Hfuel.
  - change (rows_bytes []) with (@nil N). destruct fuel as [|fuel]; [lia|]. cbn [lines_from]. unfold next_line.
    rw skip_space_app //. cbn [skip_while scan_line length]. rw Nat.ltb_irrefl. constructor.
  - change (rows_bytes (row :: rows)) with (row_bytes row ++ rows_bytes rows) in *.
    destruct fuel as [|fuel]; [lia|]. cbn [lines_from]. rw next_line_row //.
    set (start := length (lead ++ row_space row)).
    constructor.
    + exists (pre ++ lead ++ row_space row), (rows_bytes rows). split; [unfold row_bytes; by rw -!app_assoc|].
      unfold start. by rw !length_app.
    + specialize (IH (pre ++ lead ++ row_space row ++ row_text row) [10] fuel eq_refl).
      replace (pre ++ lead ++ row_bytes row ++ rows_bytes rows)
        with ((pre ++ lead ++ row_space row ++ row_text row) ++ [10] ++ rows_bytes rows)
        by (unfold row_bytes; by rw -!app_assoc).
      replace (length pre + start + length (row_text row))%nat with (length (pre ++ lead ++ row_space row ++ row_text row))
        by (unfold start; rw !length_app; lia).
      apply IH. destruct Hrow as (_ & (b & l & E & _) & _). unfold row_bytes in Hfuel. rw E in Hfuel.
      rw !length_app /= in Hfuel |- *. lia.
Qed.

Lemma ini_lines_rows rows : Forall good_row rows -> Forall2 (line_of (rows_bytes rows)) (ini_lines (rows_bytes rows)) rows.
Proof. intros H. apply (lines_of_rows rows [] []); [done|done|]. cbn. lia. Qed.

(** ** What the parsers make of a row *)

Definition parse_row (st : str * btree IniValue) (row : Row) : str * btree IniValue :=
  let '(section, values) := st in
  if opens_section (row_text row) then (section_prefix (row_text row), values)
  else match row_equals row with
       | None => st
       | Some equals => (section, bt_insert (entry_key section (row_text row) equals) (entry_value (row_text row) equals) values)
       end.

Lemma line_of_text data line row : line_of data line row -> line_text data line = row_text row.
Proof. intros (a & b & -> & ->). unfold line_text. cbn. by rw drop_app_length take_app_length. Qed.

Lemma line_of_separator data line row :
  good_row row -> line_of data line row -> separator line (row_text row) = row_equals row.
Proof.
  intros (_ & _ & He & _) (a & b & _ & ->). unfold separator. cbn [line_equals line_start].
  destruct (row_equals row) as [e|]; [|done]. cbn [fmap option_fmap option_map mbind option_bind]. specialize (He e eq_refl).
  rw (proj2 (Nat.ltb_ge _ _)); [lia|]. rw Nat.add_comm Nat.add_sub. by rw (proj2 (Nat.leb_gt _ _)).
Qed.

Lemma parse_rows data lines rows st :
  Forall good_row rows -> Forall2 (line_of data) lines rows -> foldl (parse_line data) st lines = foldl parse_row st rows.
Proof.
  intros Hg H. revert st Hg. induction H as [|line row lines rows Hline H IH]; intros st; [done|].
  intros [Hrow Hg]%Forall_cons. cbn [foldl]. rw IH //. f_equal. destruct st as [section values]. unfold parse_line, parse_row.
  rw (line_of_text _ _ _ Hline) (line_of_separator _ _ _ Hrow Hline). done.
Qed.

Lemma parse_settings_rows rows :
  Forall good_row rows -> strip_bom (rows_bytes rows) = rows_bytes rows ->
  parse_settings_ini (rows_bytes rows) = (foldl parse_row ([], []) rows).2.
Proof.
  intros Hg Hbom. unfold parse_settings_ini. rw Hbom. f_equal. apply parse_rows; [done|]. by apply ini_lines_rows.
Qed.

(** A section closed on its row and an entry are well formed. *)
Definition well_formed_row (row : Row) : Prop :=
  (head (row_text row) = Some (chr "[") /\ chr "]" ∈ row_text row) \/
  (head (row_text row) <> Some (chr "[") /\ row_equals row <> None).

Lemma position_lt_app (p : byte -> bool) l rest x :
  x ∈ l -> p x = true -> exists i, position p (l ++ rest) = Some i /\ (i < length l)%nat.
Proof.
  intros Hin Hp. induction l as [|y l IH]; [by apply elem_of_nil in Hin|]. cbn [app position].
  destruct (p y) eqn:Ey; [exists 0%nat; cbn; split; [done|lia]|].
  destruct IH as (i & -> & Hi); [apply elem_of_cons in Hin as [->|?]; [congruence|done]|].
  exists (S i). cbn. split; [done|lia].
Qed.

Lemma row_not_malformed data line row :
  good_row row -> well_formed_row row -> line_of data line row -> line_is_malformed data line = false.
Proof.
  intros (_ & (c & l & E & _) & _) Hw (a & b & -> & ->). unfold line_is_malformed. cbn [line_start line_len line_equals].
  rw drop_app_length. rw lookup_app_r // Nat.sub_diag E. unfold well_formed_row in Hw. rw E in Hw.
  cbn [head] in Hw. change (default 0 (((c :: l) ++ 10 :: b) !! 0%nat)) with c.
  destruct Hw as [[[= ->] Hin]|[Hne He]].
  - rw N.eqb_refl. destruct (position_lt_app (N.eqb (chr "]")) (chr "[" :: l) (10 :: b) (chr "]") Hin eq_refl) as (i & Hp & Hi).
    rw Hp. by rw (proj2 (Nat.ltb_lt _ _) Hi).
  - rw (proj2 (N.eqb_neq _ _)); [congruence|]. rw bool_decide_eq_false_2 //. by destruct (row_equals row).
Qed.

Lemma rows_not_malformed rows :
  Forall good_row rows -> Forall well_formed_row rows -> strip_bom (rows_bytes rows) = rows_bytes rows ->
  ini_bytes_are_malformed (rows_bytes rows) = false.
Proof.
  intros Hg Hw Hbom. unfold ini_bytes_are_malformed. rw Hbom. cbv zeta. pose proof (ini_lines_rows rows Hg) as H.
  revert H. generalize (rows_bytes rows). intros data. clear Hbom.
  generalize (ini_lines data). intros lines H. induction H as [|line row lines rows Hline H IH]; [done|].
  apply Forall_cons in Hg as [? ?]. apply Forall_cons in Hw as [? ?]. cbn [existsb]. rw (row_not_malformed _ _ row) //. by apply IH.
Qed.

(** The parser of the policy file reads well formed rows like the other one: no line is bad. *)
Lemma parse_sts_lines data lines rows section m :
  Forall good_row rows -> Forall well_formed_row rows -> Forall2 (line_of data) lines rows ->
  foldl (parse_sts_line data) (section, m, false) lines = (foldl parse_row (section, m) rows, false).
Proof.
  intros Hg Hw H. revert section m Hg Hw. induction H as [|line row lines rows Hline H IH]; intros section m; [done|].
  intros [Hrow Hg]%Forall_cons [Hwf Hw]%Forall_cons. cbn [foldl].
  assert (parse_sts_line data (section, m, false) line = (parse_row (section, m) row, false)) as ->.
  { unfold parse_sts_line, parse_row. rw (line_of_text _ _ _ Hline) (line_of_separator _ _ _ Hrow Hline).
    destruct (opens_section (row_text row)) eqn:Eo; [done|]. destruct Hline as (a & b & _ & ->). cbn [line_equals].
    destruct Hwf as [[Hh _]|[_ He]].
    - unfold opens_section in Eo. destruct (row_text row); [done|]. injection Hh as ->. done.
    - by destruct (row_equals row). }
  destruct (parse_row (section, m) row) as [section' m']. by apply IH.
Qed.

Lemma parse_sts_rows rows :
  Forall good_row rows -> Forall well_formed_row rows -> strip_bom (rows_bytes rows) = rows_bytes rows ->
  parse_sts_ini (rows_bytes rows) = (foldl parse_row ([], []) rows).2.
Proof.
  intros Hg Hw Hbom. unfold parse_sts_ini. rw Hbom. cbv zeta. rw (parse_sts_lines _ _ rows) //. by apply ini_lines_rows.
Qed.
