(* ===== verification/SettingsFile.v ===== *)
(** * SettingsFile: what is saved is loaded
    (src/client/src/storage/settings.rs, settings_ini.rs)

    A file the store writes is cut back into the lines it was written as, its sections and keys
    are read back, and so are its values; and it is never malformed, so it can be written again. *)

From stdpp Require Import sorting.
From S2P Require Import Prelude Text Utf OrdMap SessionTypes Sts SettingsIni SettingsValues Settings SettingsLines.

(** ** A value in its line *)

Definition inert (b : byte) : bool := negb (is_newline b || (b =? quote) || (b =? chr ";") || (b =? chr "\")).

Lemma walk_inert q l : forallb inert l = true -> walk q l = Some q.
Proof.
  induction l as [|b l IH]; [done|]. cbn [forallb]. intros [Hb Hl]%andb_true_iff. unfold inert in Hb. cbn [walk].
  apply negb_true_iff, orb_false_iff in Hb as [[[Hn Hq]%orb_false_iff Hs]%orb_false_iff Hbs]. rw Hbs Hn Hq Hs. by apply IH.
Qed.

Lemma inert_char c : is_scalar c = true -> c <> 10 -> c <> 13 -> c <> quote -> c <> chr ";" -> c <> chr "\" -> forallb inert (utf8_char c) = true.
Proof.
  intros Hs H1 H2 H3 H4 H5. apply forallb_forall. intros b Hb. apply list_elem_of_In in Hb.
  assert (b = c \/ 0x80 <= b) as [->|Hhigh].
  { destruct (N.ltb_spec c 0x80) as [Hlt|Hge].
    - unfold utf8_char in Hb. rw (proj2 (N.ltb_lt _ _) Hlt) in Hb. left. by apply list_elem_of_singleton in Hb.
    - right. exact (proj1 (Forall_forall _ _) (utf8_char_high c Hs Hge) b Hb). }
  - unfold inert, is_newline. rw !(proj2 (N.eqb_neq _ _)) //.
  - unfold inert, is_newline, quote. chars. lia.
Qed.

Lemma hex_lower_inert c : c < 256 -> forallb inert (hex_lower c) = true.
Proof.
  intros Hc. assert (Hd : forall n, n < 16 -> inert (hex_digit n) = true).
  { intros n Hn. unfold inert, is_newline, hex_digit, quote. chars. case_match; lia. }
  unfold hex_lower. destruct (N.ltb_spec c 16); cbn [forallb]; rw !Hd //; [by apply N.Div0.div_lt_upper_bound; lia|by apply N.mod_lt].
Qed.

Lemma walk_hex q c : c < 128 -> walk q (as_bytes (lit "\x" ++ hex_lower c)) = Some q.
Proof.
  intros Hc. rw as_bytes_ascii; [rw forallb_app hex_lower_ascii //; lia|].
  change (walk q (hex_lower c) = Some q). apply walk_inert, hex_lower_inert. lia.
Qed.

Lemma walk_piece escape_next c q :
  is_scalar c = true -> (c = chr ";" -> q = true) -> walk q (as_bytes (escape_piece escape_next c).1) = Some q.
Proof.
  intros Hs Hsemi. unfold escape_piece. destruct (escape_next && is_ascii_hexdigit c) eqn:Eh.
  { apply walk_hex. apply andb_true_iff in Eh as [_ Eh]. apply bool_decide_eq_true in Eh as [v Hv]. by apply hex_value_small in Hv. }
  do 8 (case_match; [done|]). destruct (N.eqb_spec c quote) as [->|Hq]; [done|].
  destruct (N.eqb_spec c (chr "\")) as [->|Hb]; [done|]. cbn [orb].
  destruct (N.leb_spec c 0x1F); [apply walk_hex; lia|]. cbn [fst]. rw as_bytes_single.
  destruct (N.eqb_spec c (chr ";")) as [->|Hsc]; [by rw Hsemi|].
  apply walk_inert, inert_char; lia || done.
Qed.

Lemma walk_chars escape_next text q :
  forallb is_scalar text = true -> (chr ";" ∈ text -> q = true) -> walk q (as_bytes (escape_chars escape_next text)) = Some q.
Proof.
  revert escape_next. induction text as [|c text IH]; intros escape_next; [done|]. cbn [forallb escape_chars].
  intros [Hc Hs]%andb_true_iff Hsemi. pose proof (walk_piece escape_next c q Hc) as Hp.
  destruct (escape_piece escape_next c) as [piece next]. cbn [fst] in Hp. rw as_bytes_app (walk_app q q).
  - apply Hp. intros ->. apply Hsemi. by left.
  - apply IH; [done|]. intros Hin. apply Hsemi. by right.
Qed.

Lemma walk_string text : forallb is_scalar text = true -> walk false (as_bytes (ini_escaped_string text)) = Some false.
Proof.
  intros Hs. unfold ini_escaped_string. cbv zeta. destruct (existsb _ text || _ || _) eqn:Hquotes.
  - rw !as_bytes_app. change (as_bytes [quote]) with [quote]. change (walk true (as_bytes (escape_chars false text) ++ [quote]) = Some false).
    by rw (walk_app true true); [apply walk_chars|].
  - apply orb_false_iff in Hquotes as [[Hn _]%orb_false_iff _]. apply walk_chars; [done|]. intros Hin. exfalso.
    apply not_true_iff_false in Hn. apply Hn. apply existsb_exists. exists (chr ";"). by split; [apply list_elem_of_In|].
Qed.

Lemma walk_list texts :
  forallb (forallb is_scalar) texts = true -> walk false (as_bytes (join_with (lit ", ") (ini_escaped_string <$> texts))) = Some false.
Proof.
  induction texts as [|text texts IH]; [done|]. cbn [forallb]. intros [Ht Hs]%andb_true_iff.
  destruct texts as [|text' texts]; [by apply walk_string|]. cbn [fmap list_fmap]. rw join_with_cons //.
  rw as_bytes_app (walk_app false false); [by apply walk_string|]. rw as_bytes_app. by apply IH.
Qed.

Lemma walk_value v : scalar_value v = true -> walk false (as_bytes (encode_value v)) = Some false.
Proof.
  destruct v as [text|text|texts|]; cbn [scalar_value encode_value]; intros Hs; [..|done].
  - apply walk_string. by case_match.
  - by apply walk_string.
  - destruct texts as [|text texts]; [done|]. by apply walk_list.
Qed.

(** ** What a value is read as *)

Lemma read_text_at text : starts_at text = false -> read_text text = IniText text.
Proof.
  unfold read_text. destruct text as [|c text]; [done|]. cbn [starts_at]. intros Hc. rw Hc.
  unfold str_eqb. rw bool_decide_eq_false_2 //. intros [= -> _]. by rw N.eqb_refl in Hc.
Qed.

Lemma read_encoded v : scalar_value v = true -> ini_unescaped_string_list (as_bytes (encode_value v)) = reread v.
Proof.
  destruct v as [text|text|texts|]; cbn [scalar_value encode_value]; intros Hs.
  - destruct (starts_at text) eqn:Ha; [|by rw read_string // read_text_at]. rw read_string; [done|].
    destruct text as [|c text]; [done|]. cbn [starts_at] in Ha. apply N.eqb_eq in Ha as ->. done.
  - by rw read_string.
  - destruct texts as [|text [|text' texts]]; [reflexivity|..].
    + cbn [forallb] in Hs. apply andb_true_iff in Hs as [Hs _]. cbn [ini_escaped_string_list fmap list_fmap join_with reread]. by rw read_string.
    + change (ini_unescaped_string_list (as_bytes (ini_escaped_string_list (text :: text' :: texts))))
        with (read_result (read SkipSpaces (as_bytes (join_with (lit ", ") (ini_escaped_string <$> text :: text' :: texts))) new_reading)).
      rw read_items; [|done|left; cbn; lia|done]. apply Forall_forall. intros t Ht. apply list_elem_of_In in Ht.
      exact (proj1 (forallb_forall _ _) Hs _ Ht).
  - reflexivity.
Qed.

(** ** Keys and sections in their lines *)

Lemma key_inert b : key_byte b = true -> b <> chr "\" -> inert b = true.
Proof.
  unfold key_byte, is_ascii_alphanumeric, is_ascii_alphabetic, is_ascii_uppercase, is_ascii_lowercase, is_ascii_digit,
    inert, is_newline, quote. chars. lia.
Qed.

Lemma key_not_newline b : key_byte b = true -> is_newline b = false.
Proof.
  unfold key_byte, is_ascii_alphanumeric, is_ascii_alphabetic, is_ascii_uppercase, is_ascii_lowercase, is_ascii_digit, is_newline.
  chars. lia.
Qed.

Lemma inert_not_newline b : inert b = true -> is_newline b = false.
Proof. unfold inert. by intros [[[-> _]%orb_false_iff _]%orb_false_iff _]%negb_true_iff%orb_false_iff. Qed.

(** The byte behind a run of key bytes is taken as itself or behind their last backslash. *)
Lemma walk_key l x : forallb key_byte l = true -> inert x = true -> walk false (l ++ [x]) = Some false.
Proof.
  intros Hl Hx. induction l as [l IH] using (induction_ltof1 _ (@length N)); unfold ltof in IH.
  destruct l as [|b l]; [by apply walk_inert; cbn; rw Hx|]. cbn [forallb] in Hl. apply andb_true_iff in Hl as [Hb Hl].
  cbn [app walk]. destruct (N.eqb_spec b (chr "\")) as [->|Hne].
  - destruct l as [|y l]; cbn [app]; [by rw inert_not_newline|]. cbn [forallb] in Hl. apply andb_true_iff in Hl as [Hy Hl].
    rw key_not_newline //. apply IH; [cbn; lia|done].
  - pose proof (key_inert b Hb Hne) as Hi. unfold inert in Hi.
    apply negb_true_iff, orb_false_iff in Hi as [[[-> ->]%orb_false_iff ->]%orb_false_iff _]. apply IH; [cbn; lia|done].
Qed.

Lemma walk_key_closed l : forallb key_byte l = true -> last l <> Some (chr "\") -> walk false l = Some false.
Proof.
  destruct l as [|x l _] using rev_ind; [done|]. rw forallb_app last_snoc. cbn [forallb].
  intros [Hl [Hx _]%andb_true_iff]%andb_true_iff Hlast. apply walk_key; [done|]. apply key_inert; congruence.
Qed.

Lemma escape_unit_last u : last (escape_unit u) = Some (chr "\") -> u = 0x2F.
Proof.
  assert (Hhex : forall n, hex_upper n <> chr "\").
  { intros n. pose proof (N.mod_lt n 16 ltac:(done)). unfold hex_upper. rw nibble_mod. chars. case_match; lia. }
  unfold escape_unit. destruct (N.eqb_spec u 0x2F) as [->|_]; [done|]. destruct (is_ascii_alphanumeric u || _ || _ || _) eqn:E.
  - intros [= ->]. by apply literal_unit in E as [? _].
  - case_match; cbn; intros [= Hx]; by apply Hhex in Hx.
Qed.

Lemma escaped_key_app a b : ini_escaped_key (a ++ b) = ini_escaped_key a ++ ini_escaped_key b.
Proof. unfold ini_escaped_key, encode_utf16. by rw !bind_app. Qed.

Lemma escaped_key_last key : last key <> Some (chr "/") -> last (ini_escaped_key key) <> Some (chr "\").
Proof.
  destruct key as [|c key _] using rev_ind; [done|]. rw last_snoc escaped_key_app. intros Hc.
  assert (Hu : forall l u, last (l ++ escape_unit u) = Some (chr "\") -> u = 0x2F).
  { intros l u. pose proof (escape_unit_nonempty u) as Hne. pose proof (escape_unit_last u) as Hlast.
    destruct (escape_unit u) as [|x l' _] using rev_ind; [done|]. rw app_assoc !last_snoc in Hlast |- *. done. }
  unfold ini_escaped_key at 2, encode_utf16. cbn. rw app_nil_r. unfold utf16_char. destruct (c <? 0x10000).
  - cbn. rw app_nil_r. intros ->%Hu. by apply Hc.
  - cbn. rw app_nil_r. rw app_assoc. intros H%Hu. lia.
Qed.

(** *** Which paths a file can hold *)

Definition full_path (section key : str) : str := if is_empty section then key else section ++ lit "/" ++ key.

(** A section that would be written under the name of another. *)
Definition reserved (section : str) : bool :=
  eq_ignore_ascii_case section (lit "general") && negb (str_eqb section (lit "General")).

Definition storable (path : str) : bool :=
  forallb is_scalar path && negb (bool_decide (head path = Some (chr "/"))) && negb (bool_decide (last path = Some (chr "/")))
  && negb (reserved (split_section path).1).

Lemma split_once_Some p (l a b : str) : split_once p l = Some (a, b) -> exists x, p x = true /\ l = a ++ x :: b.
Proof.
  revert a. induction l as [|x l IH]; intros a; [done|]. cbn. destruct (p x) eqn:Ex; [intros [= <- <-]; by exists x|].
  destruct (split_once p l) as [[a' b']|]; [|done]. cbn. intros [= <- <-]. destruct (IH a' eq_refl) as (y & Hy & ->). by exists y.
Qed.

(** A path is its section and its key. *)
Lemma storable_parts path :
  storable path = true ->
  let '(section, key) := split_section path in
  full_path section key = path /\ forallb is_scalar section = true /\ forallb is_scalar key = true /\
  last key <> Some (chr "/") /\ reserved section = false.
Proof.
  unfold storable. intros [[[Hs Hh%negb_true_iff%bool_decide_eq_false]%andb_true_iff Hl%negb_true_iff%bool_decide_eq_false]%andb_true_iff
    Hr%negb_true_iff]%andb_true_iff.
  unfold split_section in *. destruct (split_once _ path) as [[section key]|] eqn:E; [|by split_and!].
  apply split_once_Some in E as (x & Hx & ->). apply N.eqb_eq in Hx as <-. cbn in Hr.
  rw forallb_app in Hs. apply andb_true_iff in Hs as [Hs1 [_ Hs2]%andb_true_iff]. split_and!; try done.
  - unfold full_path. destruct section; [by destruct Hh|done].
  - destruct key as [|y key _] using rev_ind; [done|]. intros Hk. apply Hl.
    change (chr "/" :: key ++ [y]) with ([chr "/"] ++ key ++ [y]). by rw !app_assoc last_snoc -Hk last_snoc.
Qed.

(** *** A section header *)

Lemma section_header_body section :
  exists body, section_header section = [chr "["] ++ body ++ [chr "]"] /\ forallb key_byte body = true.
Proof.
  unfold section_header. cbv zeta. pose proof (escaped_key_bytes section). destruct (is_empty _); [by exists (lit "General")|].
  destruct (eq_ignore_ascii_case _ _); [by exists (lit "%General")|]. by exists (ini_escaped_key section).
Qed.

Lemma key_byte_facts b :
  key_byte b = true -> (b =? chr "]") = false /\ is_ascii_whitespace b = false /\ ini_space b = false /\ b <> chr "#" /\
  b <> chr "=" /\ b <> chr "[".
Proof.
  unfold key_byte, is_ascii_alphanumeric, is_ascii_alphabetic, is_ascii_uppercase, is_ascii_lowercase, is_ascii_digit,
    is_ascii_whitespace, ini_space. chars. lia.
Qed.

Lemma trim_ascii_key l : forallb key_byte l = true -> trim_ascii l = l.
Proof.
  intros Hl. assert (Hw : forall x l' l0, l0 = x :: l' -> forallb key_byte l0 = true -> is_ascii_whitespace x = false).
  { intros x l' l0 -> [Hx _]%andb_true_iff. by apply key_byte_facts. }
  unfold trim_ascii, skip_while_end. rw (skip_while_id _ l); [by intros; eapply Hw|]. rw skip_while_id ?rev_involutive //.
  intros x l' E. apply (Hw x l' (rev l) E). apply forallb_forall. intros y Hy. apply in_rev in Hy.
  exact (proj1 (forallb_forall _ _) Hl y Hy).
Qed.

(** A name whose escapes spell plain letters is those letters. *)
Lemma escaped_letters key : forallb is_ascii_alphabetic (ini_escaped_key key) = true -> ini_escaped_key key = key.
Proof.
  assert (Hu : forall u, forallb is_ascii_alphabetic (escape_unit u) = true -> escape_unit u = [u] /\ u < 0x80).
  { intros u. unfold escape_unit. destruct (N.eqb_spec u 0x2F); [done|]. destruct (is_ascii_alphanumeric u || _ || _ || _) eqn:E.
    - intros _. apply literal_unit in E as (_ & _ & E). unfold is_ascii in E. split; [done|lia].
    - by case_match. }
  induction key as [|c key IH]; [done|]. change (c :: key) with ([c] ++ key). rw escaped_key_app forallb_app.
  intros [Hc Hk]%andb_true_iff. rw (IH Hk). f_equal. unfold ini_escaped_key, encode_utf16 in *. cbn in *. rw app_nil_r in Hc |- *.
  unfold utf16_char in *. destruct (N.ltb_spec c 0x10000); cbn in *; rw ?app_nil_r in Hc |- *; [by apply Hu|].
  rw forallb_app in Hc. apply andb_true_iff in Hc as [[_ Hc]%Hu _]. lia.
Qed.

Lemma lower_letters s word :
  ascii_lower s = word -> forallb is_ascii_lowercase word = true -> forallb is_ascii_alphabetic s = true.
Proof.
  intros <-. unfold ascii_lower. induction s as [|c s IH]; [done|]. cbn. intros [Hc Hs]%andb_true_iff. rw IH // andb_true_r.
  unfold to_ascii_lowercase, is_ascii_alphabetic in *. by case_match; [|rw Hc orb_true_r].
Qed.

Lemma escaped_general section :
  eq_ignore_ascii_case (ini_escaped_key section) (lit "general") = true -> ini_escaped_key section = section.
Proof. intros H%str_eqb_eq. apply escaped_letters. by eapply lower_letters. Qed.

Lemma escaped_not_percent_general section : eq_ignore_ascii_case (ini_escaped_key section) (lit "%general") = false.
Proof.
  apply not_true_is_false. intros H%str_eqb_eq. change (ascii_lower (lit "%general")) with (lit "%general") in H.
  unfold ini_escaped_key in H. destruct (encode_utf16 section) as [|u units]; [done|].
  change (mbind escape_unit (u :: units)) with (escape_unit u ++ mbind escape_unit units) in H.
  assert (Hg : forall n, to_ascii_lowercase (hex_upper n) <> chr "g").
  { intros n. pose proof (N.mod_lt n 16 ltac:(done)). unfold to_ascii_lowercase, hex_upper, is_ascii_uppercase. rw nibble_mod. chars.
    case_match; case_match; lia. }
  unfold escape_unit in H. destruct (N.eqb_spec u 0x2F); [done|]. destruct (is_ascii_alphanumeric u || _ || _ || _) eqn:E.
  - apply literal_unit in E as (_ & Hp & _). cbn in H. injection H as H _. revert H. unfold to_ascii_lowercase, is_ascii_uppercase.
    apply N.eqb_neq in Hp. chars. case_match; lia.
  - case_match; [|done]. cbn in H. injection H as H _. by apply Hg in H.
Qed.

Definition section_path (section : str) : str := if is_empty section then [] else section ++ lit "/".

Lemma is_empty_nil {A} (l : list A) : is_empty l = true -> l = [].
Proof. by destruct l. Qed.

Lemma escaped_key_nil key : ini_escaped_key key = [] -> forallb is_scalar key = true -> key = [].
Proof. intros E Hs. by rw -(read_key key Hs) E. Qed.

(** A section is read back. *)
Lemma section_prefix_header section :
  forallb is_scalar section = true -> reserved section = false ->
  section_prefix (section_header section) = section_path section.
Proof.
  intros Hs Hr. unfold section_header. cbv zeta. destruct (is_empty (ini_escaped_key section)) eqn:Ee.
  { apply is_empty_nil in Ee. by rw (escaped_key_nil _ Ee Hs). }
  destruct (eq_ignore_ascii_case (ini_escaped_key section) (lit "general")) eqn:Eg.
  { pose proof (escaped_general _ Eg) as Ei. rw Ei in Eg. unfold reserved in Hr. rw Eg in Hr. cbn in Hr. apply negb_false_iff, str_eqb_eq in Hr as ->. done. }
  unfold section_prefix. change (drop 1 (lit "[" ++ ini_escaped_key section ++ lit "]")) with (ini_escaped_key section ++ [chr "]"]).
  rw position_here //.
  { eapply forallb_impl; [|apply escaped_key_bytes]. intros b Hb. apply negb_true_iff. rw N.eqb_sym. by apply key_byte_facts. }
  rw take_app_length trim_ascii_key ?escaped_key_bytes // Eg escaped_not_percent_general read_key //.
  unfold section_path. destruct section; done.
Qed.

(** ** The rows a store is written as *)

Definition entry_text (e : str * IniValue) : bytes := ini_escaped_key e.1 ++ [chr "="] ++ as_bytes (encode_value e.2).
Definition entry_row (e : str * IniValue) : Row := mkRow [] (entry_text e) (Some (length (ini_escaped_key e.1))).
Definition header_row (lead : bytes) (section : str) : Row := mkRow lead (section_header section) None.
Definition section_rows (lead : bytes) (section : str * list (str * IniValue)) : list Row :=
  header_row lead section.1 :: (entry_row <$> sort_by by_key section.2).
Fixpoint rows_of (lead : bytes) (sections : Sections) : list Row :=
  match sections with
  | [] => []
  | section :: sections => section_rows lead section ++ rows_of [10] sections
  end.

Lemma section_header_ascii section : as_bytes (section_header section) = section_header section.
Proof.
  apply as_bytes_ascii. destruct (section_header_body section) as (body & -> & Hb). rw !forallb_app.
  rw (forallb_impl key_byte is_ascii body key_byte_ascii Hb). done.
Qed.

Lemma rows_bytes_app a b : rows_bytes (a ++ b) = rows_bytes a ++ rows_bytes b.
Proof. apply bind_app. Qed.

Lemma encode_entry_row e : as_bytes (encode_entry e) = row_bytes (entry_row e).
Proof.
  unfold encode_entry, row_bytes, entry_row, entry_text. cbn [row_space row_text app]. rw !as_bytes_app.
  rw (as_bytes_ascii (ini_escaped_key e.1)) ?escaped_key_ascii // -!app_assoc. done.
Qed.

Lemma encode_section_rows lead section :
  lead ++ as_bytes (encode_section section) = rows_bytes (section_rows lead section).
Proof.
  unfold encode_section, section_rows. rw !as_bytes_app section_header_ascii.
  change (rows_bytes (?x :: ?l)) with (row_bytes x ++ rows_bytes l). unfold row_bytes at 1. cbn [row_space row_text header_row].
  rw -!app_assoc. do 2 f_equal. change (as_bytes [10]) with [10]. cbn [app]. f_equal.
  generalize (sort_by by_key section.2). intros l.
  induction l as [|e l IH]; [done|]. change (mbind encode_entry (e :: l)) with (encode_entry e ++ mbind encode_entry l).
  by rw as_bytes_app IH encode_entry_row.
Qed.

Lemma encode_rows sections lead :
  sections <> [] -> lead ++ as_bytes (encode_sections sections) = rows_bytes (rows_of lead sections).
Proof.
  unfold encode_sections. revert lead. induction sections as [|section sections IH]; intros lead; [done|]. intros _. cbn [rows_of].
  rw rows_bytes_app -encode_section_rows. destruct sections as [|section' sections].
  - cbn. by rw app_nil_r.
  - change (encode_section <$> section :: section' :: sections) with (encode_section section :: (encode_section <$> section' :: sections)).
    rw join_with_cons // (as_bytes_app (encode_section section)) (as_bytes_app [10]) -app_assoc. do 2 f_equal. exact (IH [10] ltac:(done)).
Qed.

(** ** Each row is found again *)

Definition good_entry (e : str * IniValue) : Prop :=
  forallb is_scalar e.1 = true /\ last e.1 <> Some (chr "/") /\ scalar_value e.2 = true.

Lemma no_separator l : forallb key_byte l = true -> chr "=" ∉ l.
Proof.
  intros Hl Hin. apply list_elem_of_In in Hin. pose proof (proj1 (forallb_forall _ _) Hl _ Hin) as H. apply key_byte_facts in H as (_ & _ & _ & _ & Hne & _). by apply Hne.
Qed.

Lemma entry_row_good e : good_entry e -> good_row (entry_row e).
Proof.
  intros (Hk & Hl & Hv). unfold good_row, entry_row, entry_text. cbn [row_space row_text row_equals].
  pose proof (escaped_key_bytes e.1) as Hb. pose proof (escaped_key_last _ Hl) as Hlast. revert Hb Hlast.
  generalize (ini_escaped_key e.1). intros key Hb Hlast. split_and!; [done| | |].
  - destruct key as [|b key]; [by exists (chr "="), (as_bytes (encode_value e.2))|]. eexists b, _. split; [done|].
    apply andb_true_iff in Hb as [Hb _]. by apply key_byte_facts.
  - intros ? [= <-]. rw !length_app. cbn. lia.
  - intros rest i. rw -!app_assoc. rw (scan_walk key _ i i false false None).
    + by apply walk_key_closed.
    + left. by apply no_separator.
    + intros _. split; [done|]. destruct key as [|b key]; [done|]. intros [= ->].
      apply andb_true_iff in Hb as [Hb _]. by apply key_byte_facts in Hb as (_ & _ & _ & ? & _).
    + done.
    + cbn [app]. rw scan_separator. cbn [negb andb]. rw (scan_walk (as_bytes (encode_value e.2)) _ _ _ false false).
      * by apply walk_value.
      * by right.
      * intros E. lia.
      * lia.
      * rw scan_newline; [lia|]. rw !length_app. cbn. repeat f_equal. lia.
Qed.

Lemma header_row_good lead section : forallb ini_space lead = true -> good_row (header_row lead section).
Proof.
  intros Hl. unfold good_row, header_row. cbn [row_space row_text row_equals].
  destruct (section_header_body section) as (body & -> & Hb). split_and!; [done|by eexists _, _|done|].
  intros rest i. rw (scan_walk _ _ i i false false None).
  - change (walk false (body ++ [chr "]"]) = Some false). by apply walk_key.
  - left. cbn [app]. intros [?|[?|?%list_elem_of_singleton]%elem_of_app]%elem_of_cons; [done| |done]. by apply (no_separator body).
  - intros _. by split.
  - done.
  - rw scan_newline //. rw !length_app. cbn. lia.
Qed.

Lemma header_row_well_formed lead section : well_formed_row (header_row lead section).
Proof.
  left. cbn. destruct (section_header_body section) as (body & -> & _). split; [done|]. cbn [app].
  right. apply elem_of_app. right. by left.
Qed.

Lemma entry_row_well_formed e : well_formed_row (entry_row e).
Proof.
  right. split; [|done]. cbn. unfold entry_text. pose proof (escaped_key_bytes e.1) as Hb.
  destruct (ini_escaped_key e.1) as [|b key]; [done|]. intros [= ->].
  apply andb_true_iff in Hb as [Hb _]. by apply key_byte_facts in Hb as (_ & _ & _ & _ & _ & ?).
Qed.

Lemma sort_by_perm {A} (compare : A -> A -> comparison) (l : list A) : sort_by compare l ≡ₚ l.
Proof. apply merge_sort_Permutation. Qed.

Lemma rows_of_all (P : Row -> Prop) lead sections :
  forallb ini_space lead = true ->
  (forall lead section, forallb ini_space lead = true -> P (header_row lead section)) ->
  (forall e, e ∈ mbind snd sections -> P (entry_row e)) -> Forall P (rows_of lead sections).
Proof.
  intros Hlead Hh. revert lead Hlead. induction sections as [|section sections IH]; intros lead Hlead He; [constructor|].
  cbn [rows_of]. apply Forall_app. split.
  - constructor; [by apply Hh|]. apply Forall_fmap, Forall_forall. intros e Hin. apply He. rw sort_by_perm in Hin.
    change (e ∈ section.2 ++ mbind snd sections). apply elem_of_app. by left.
  - apply IH; [done|]. intros e Hin. apply He. change (e ∈ section.2 ++ mbind snd sections). apply elem_of_app. by right.
Qed.

(** ** What is read from the rows *)

Definition read_entry (section : str) (e : str * IniValue) : str * IniValue := (section_path section ++ e.1, reread e.2).
Definition flat (sections : Sections) : list (str * IniValue) :=
  mbind (fun section => read_entry section.1 <$> sort_by by_key section.2) sections.

Lemma parse_entry_row prefix m e :
  good_entry e -> parse_row (prefix, m) (entry_row e) = (prefix, bt_insert (prefix ++ e.1) (reread e.2) m).
Proof.
  intros (Hk & _ & Hv). unfold parse_row, entry_row. cbn [row_text row_equals].
  assert (opens_section (entry_text e) = false) as ->.
  { destruct (entry_row_well_formed e) as [[H _]|[H _]]; cbn in H.
    - unfold entry_text in *. pose proof (escaped_key_bytes e.1) as Hb. destruct (ini_escaped_key e.1) as [|b key]; [done|].
      injection H as ->. done.
    - unfold opens_section. destruct (entry_text e) as [|b l]; [done|]. apply N.eqb_neq. intros ->. by apply H. }
  unfold entry_key, entry_value, entry_text. rw take_app_length trim_ascii_key ?escaped_key_bytes // read_key //.
  do 2 f_equal. assert (drop (S (length (ini_escaped_key e.1))) (ini_escaped_key e.1 ++ [chr "="] ++ as_bytes (encode_value e.2))
    = as_bytes (encode_value e.2)) as ->; [|by apply read_encoded].
  rw app_assoc drop_app_length' //. rw length_app /=. lia.
Qed.

Lemma parse_entry_rows prefix m l :
  Forall good_entry l ->
  foldl parse_row (prefix, m) (entry_row <$> l) = (prefix, bt_inserts ((fun e => (prefix ++ e.1, reread e.2)) <$> l) m).
Proof.
  intros H. revert m. induction H as [|e l He H IH]; intros m; [done|]. cbn [fmap list_fmap foldl].
  rw parse_entry_row //.
Qed.

Definition good_section (section : str * list (str * IniValue)) : Prop :=
  forallb is_scalar section.1 = true /\ reserved section.1 = false /\ Forall good_entry section.2.

Lemma parse_rows_of lead sections st m :
  Forall good_section sections ->
  (foldl parse_row (st, m) (rows_of lead sections)).2 = bt_inserts (flat sections) m.
Proof.
  intros H. revert lead st m. induction H as [|section sections (Hs & Hr & He) H IH]; intros lead st m; [done|].
  cbn [rows_of]. rw foldl_app. change (flat (section :: sections)) with ((read_entry section.1 <$> sort_by by_key section.2) ++ flat sections).
  unfold bt_inserts at 1. rw foldl_app. unfold section_rows. cbn [foldl].
  assert (parse_row (st, m) (header_row lead section.1) = (section_path section.1, m)) as ->.
  { rw -(section_prefix_header _ Hs Hr). unfold parse_row, header_row. cbn [row_text].
    destruct (section_header_body section.1) as (body & E & _). rw E. done. }
  rw parse_entry_rows; [by rw sort_by_perm|]. by rw IH.
Qed.
