(* ===== verification/SettingsProperties.v ===== *)
(** * SettingsProperties: what the settings store promises
    (src/client/src/storage/settings.rs, settings_snapshot.rs)

    The store keeps its paths in order and each once; what it saves it loads again, up to the
    way a value is written; and a file that is malformed, unreadable or not writable is never
    written over. *)

From S2P Require Import Prelude Text Utf OrdMap SessionTypes Sts SettingsIni SettingsValues Settings SettingsLines SettingsFile.

(** ** The table of a store *)

Definition store_table (s : Settings) : Prop := table (values s).

Lemma parse_settings_table data : table (parse_settings_ini data).
Proof.
  unfold parse_settings_ini. apply (foldl_invariant _ (fun st : str * btree IniValue => table st.2)); [|apply table_nil].
  intros [section m] line _ H. cbn in *. unfold parse_line. case_match; [done|]. case_match; [by apply table_insert|done].
Qed.

Lemma parse_sts_table data : table (parse_sts_ini data).
Proof.
  unfold parse_sts_ini. apply (foldl_invariant _ (fun st : str * btree IniValue * bool => table st.1.2)); [|apply table_nil].
  intros [[section m] bad] line _ H. cbn in *. unfold parse_sts_line.
  repeat (case_match; try done). by apply table_insert.
Qed.

Lemma load_table parse preserve node : (forall data, table (parse data)) -> store_table (load parse preserve node).
Proof.
  intros Hp. unfold load, finish_load, store_table. destruct (read_ini_bytes node); cbn; [apply Hp|apply table_nil].
Qed.

Lemma put_table s path v : store_table s -> store_table (put s path v).
Proof. apply table_insert. Qed.

Lemma remove_key_table s group key : store_table s -> store_table (remove_key s group key).
Proof. unfold remove_key. case_match; [apply table_remove|done]. Qed.

Lemma remove_group_table s group : store_table s -> store_table (remove_group s group).
Proof. unfold remove_group, store_table. case_match; [intros _; apply table_nil|apply table_retain]. Qed.

Lemma sync_values s node lands : values (sync s node lands).1.1 = values s.
Proof. unfold sync. by repeat case_match. Qed.

(** ** What is pushed into the sections is there *)

Definition good_value (e : str * IniValue) : Prop := storable e.1 = true /\ scalar_value e.2 = true.
Definition good_store (s : Settings) : Prop := store_table s /\ Forall good_value (values s).

Definition contents (sections : Sections) : list (str * IniValue) :=
  mbind (fun section => (fun e => (full_path section.1 e.1, e.2)) <$> section.2) sections.

Lemma contents_insert section l sections :
  bt_get section sections = None ->
  contents (bt_insert section l sections) ≡ₚ ((fun e => (full_path section e.1, e.2)) <$> l) ++ contents sections.
Proof. intros H. unfold contents. by rw (bt_insert_perm _ _ _ H). Qed.

Lemma push_contents sections e :
  ordered sections -> storable e.1 = true -> contents (push_entry sections e) ≡ₚ e :: contents sections.
Proof.
  intros Ho Hp. unfold push_entry. pose proof (storable_parts e.1 Hp) as H. destruct (split_section e.1) as [section key].
  destruct H as (Hfull & _). destruct (bt_get section sections) as [l|] eqn:E; cbn [default from_option].
  - destruct (bt_insert_split _ _ _ Ho E) as (pre & post & -> & Hins). rw Hins. unfold contents. rw !bind_app.
    cbn. rw fmap_app. cbn. rw Hfull. destruct e. cbn. solve_Permutation.
  - rw contents_insert //. cbn. rw Hfull. by destruct e.
Qed.

Lemma push_good sections e :
  table sections -> Forall good_section sections -> good_value e -> Forall good_section (push_entry sections e).
Proof.
  intros Ht Hg [Hp Hv]. unfold push_entry. pose proof (storable_parts e.1 Hp) as H. destruct (split_section e.1) as [section key].
  destruct H as (_ & Hs & Hk & Hl & Hr). apply bt_insert_Forall; [|done]. split_and!; [done|done|]. cbn [snd].
  apply Forall_app. split; [|by repeat constructor]. destruct (bt_get section sections) as [l|] eqn:E; [|constructor]. cbn.
  apply bt_get_elem in E. by apply (proj1 (Forall_forall _ _) Hg) in E as (_ & _ & ?).
Qed.

Lemma pushed_all l sections :
  table sections -> Forall good_section sections -> Forall good_value l ->
  table (foldl push_entry sections l) /\ Forall good_section (foldl push_entry sections l) /\
  contents (foldl push_entry sections l) ≡ₚ l ++ contents sections.
Proof.
  intros Ht Hg Hl. revert sections Ht Hg. induction Hl as [|e l He Hl IH]; intros sections Ht Hg; [done|]. cbn [foldl].
  destruct (IH (push_entry sections e)) as (H1 & H2 & H3).
  - unfold push_entry. case_match. by apply table_insert.
  - by apply push_good.
  - split_and!; [done|done|]. rw H3 push_contents; [apply Ht|apply He|]. by rw -Permutation_middle.
Qed.

Lemma section_path_key section key : section_path section ++ key = full_path section key.
Proof. unfold section_path, full_path. destruct section; [done|]. by rw -app_assoc. Qed.

Lemma flat_contents sections : flat sections ≡ₚ prod_map id reread <$> contents sections.
Proof.
  induction sections as [|section sections IH]; [done|].
  change (flat (section :: sections)) with ((read_entry section.1 <$> sort_by by_key section.2) ++ flat sections).
  change (contents (section :: sections)) with (((fun e => (full_path section.1 e.1, e.2)) <$> section.2) ++ contents sections).
  rw fmap_app IH sort_by_perm. apply Permutation_app_tail. rw -list_fmap_compose. apply reflexive_eq, list_fmap_ext.
  intros i e _. unfold read_entry. cbn. by rw section_path_key.
Qed.

(** ** Saving and loading *)

Lemma strip_bom_id data : head data <> Some 0xEF -> strip_bom data = data.
Proof.
  intros H. unfold strip_bom. destruct data as [|a [|b [|c data]]]; try done.
  rw (proj2 (N.eqb_neq a 0xEF)); [by intros ->; apply H|done].
Qed.

Lemma rows_of_bom sections : strip_bom (rows_bytes (rows_of [] sections)) = rows_bytes (rows_of [] sections).
Proof.
  apply strip_bom_id. destruct sections as [|section sections]; [done|]. cbn [rows_of section_rows app].
  change (rows_bytes (?x :: ?l)) with (row_bytes x ++ rows_bytes l). unfold row_bytes. cbn [row_space row_text header_row app].
  destruct (section_header_body section.1) as (body & -> & _). done.
Qed.

Lemma encode_is_rows s : encode s = rows_bytes (rows_of [] (foldl push_entry [] (values s))).
Proof.
  unfold encode. destruct (foldl push_entry [] (values s)) as [|section sections] eqn:E; [done|]. by apply (encode_rows _ []).
Qed.

Lemma saved_sections s :
  good_store s ->
  Forall good_section (foldl push_entry [] (values s)) /\ contents (foldl push_entry [] (values s)) ≡ₚ values s.
Proof.
  intros [Ht Hg]. destruct (pushed_all (values s) [] table_nil) as (_ & H & Hc); [constructor|done|].
  split; [done|]. by rw Hc app_nil_r.
Qed.

Lemma saved_rows_good s :
  good_store s -> Forall good_row (rows_of [] (foldl push_entry [] (values s))).
Proof.
  intros Hs. destruct (saved_sections s Hs) as [H _]. apply rows_of_all; [done|by intros; apply header_row_good|].
  intros e (section & He & Hin)%list_elem_of_bind. apply entry_row_good. apply (proj1 (Forall_forall _ _) H) in Hin as (_ & _ & Hall).
  by apply (proj1 (Forall_forall _ _) Hall).
Qed.

Lemma saved_permutation s :
  good_store s -> parse_settings_ini (encode s) ≡ₚ prod_map id reread <$> values s.
Proof.
  intros Hs. destruct (saved_sections s Hs) as [Hg Hc]. rw encode_is_rows. rw parse_settings_rows.
  - by apply saved_rows_good.
  - apply rows_of_bom.
  - rw parse_rows_of //. assert (Hp : flat (foldl push_entry [] (values s)) ≡ₚ prod_map id reread <$> values s) by by rw flat_contents Hc.
    rw bt_inserts_perm; [|by rw app_nil_r]. rw app_nil_r Hp -list_fmap_compose. by destruct Hs as [[_ ?] _].
Qed.

Lemma saved_lookup s path :
  good_store s -> bt_get path (parse_settings_ini (encode s)) = reread <$> bt_get path (values s).
Proof.
  intros Hs. rw (bt_get_perm path _ _ _ (saved_permutation s Hs)); [by destruct (parse_settings_table (encode s))|].
  induction (values s) as [|[p v] l IH]; [done|]. unfold bt_get in *. cbn. by case_match.
Qed.

Lemma saved_rows_well_formed s : Forall well_formed_row (rows_of [] (foldl push_entry [] (values s))).
Proof. apply rows_of_all; [done|intros; apply header_row_well_formed|intros; apply entry_row_well_formed]. Qed.

Lemma saved_well_formed s : good_store s -> ini_bytes_are_malformed (encode s) = false.
Proof.
  intros Hs. rw encode_is_rows. apply rows_not_malformed; [by apply saved_rows_good|apply saved_rows_well_formed|apply rows_of_bom].
Qed.

Lemma saved_sts s : good_store s -> parse_sts_ini (encode s) = parse_settings_ini (encode s).
Proof.
  intros Hs. rw encode_is_rows. pose proof (saved_rows_good s Hs) as Hg.
  rw parse_settings_rows ?rows_of_bom // parse_sts_rows ?rows_of_bom //. apply saved_rows_well_formed.
Qed.

(** C20: what the store saves it loads: every path of the file holds what the store holds under
    it, up to the way values are written (an empty list comes back as the invalid value, a list
    of one item as that item), no other path is there, and the file is not malformed, so a later
    save is not refused. *)
Theorem saved_is_loaded s :
  good_store s ->
  (forall path, bt_get path (parse_settings_ini (encode s)) = reread <$> bt_get path (values s)) /\
  ini_bytes_are_malformed (encode s) = false.
Proof. intros Hs. split; [by intros; apply saved_lookup|by apply saved_well_formed]. Qed.

Definition toy_store : Settings :=
  set_string_list (set_value (set_value in_memory (lit "networks/a") (lit "host") (lit "x; " ++ [34; 0x1F600])) [] (lit "top") (lit "@1"))
    (lit "highlights") (lit "words") [lit "a"; lit "b,c"].

Lemma toy_store_good : good_store toy_store.
Proof.
  split; [|by repeat constructor]. unfold toy_store, set_string_list, set_value. do 3 apply put_table. apply table_nil.
Defined.

Lemma saved_is_loaded_witness :
  bt_get (lit "networks/a/host") (parse_settings_ini (encode toy_store)) = Some (IniText (lit "x; " ++ [34; 0x1F600])).
Proof.
  destruct (saved_is_loaded toy_store) as [H _]; [exact toy_store_good|]. rw (H (lit "networks/a/host")). reflexivity.
Defined.

(** ** A second generation is exact *)

Lemma read_text_reread text : reread (read_text text) = read_text text.
Proof.
  unfold read_text. case_match eqn:Ei; [done|]. destruct text as [|c text]; [done|]. destruct (c =? chr "@") eqn:Ec; [|done].
  destruct text as [|c' text]; [|destruct (c' =? chr "@") eqn:Ec'; [done|]]; cbn [reread]; unfold read_text; rw Ei Ec ?Ec'; done.
Qed.

Lemma reread_idempotent v : reread (reread v) = reread v.
Proof. destruct v as [text|text|[|text [|text' texts]]|]; try done; apply read_text_reread. Qed.

Lemma read_text_scalar text : forallb is_scalar text = true -> scalar_value (read_text text) = true.
Proof.
  intros Hs. unfold read_text. destruct (str_eqb text INVALID); [done|]. destruct text as [|c [|c' text]]; try done; [by case_match|].
  destruct (c =? chr "@"); [|done]. destruct (c' =? chr "@"); [|done]. cbn in *. by apply andb_true_iff in Hs as [_ [_ Hs]%andb_true_iff].
Qed.

Lemma reread_scalar v : scalar_value v = true -> scalar_value (reread v) = true.
Proof.
  destruct v as [text|text|[|text [|text' texts]]|]; cbn [scalar_value reread forallb]; try done; [apply read_text_scalar|].
  rw andb_true_r. apply read_text_scalar.
Qed.

(** ** The file *)

Lemma blocked_not_written s node lands : write_blocked node <> Written -> sync s node lands = (s, node, write_blocked node).
Proof. intros H. unfold sync. by rw bool_decide_eq_false_2. Qed.

(** What [write_blocked] lets through. *)
Lemma write_blocked_written node :
  write_blocked node = Written <->
  node = Missing \/ exists contents, node = File contents true true false /\ ini_bytes_are_malformed contents = false.
Proof.
  unfold write_blocked, probe_ini, file_not_writable. split.
  - destruct node as [| | |contents readable writable read_only]; [by left|done|done|]. destruct readable; [|done].
    destruct (ini_bytes_are_malformed contents) eqn:E; [done|]. destruct writable, read_only; try done. intros _. right.
    by exists contents.
  - intros [->|(contents & -> & E)]; [done|]. by rw E.
Qed.

(** A save fails closed. A file that is malformed, cannot be read or cannot be written, a
    folder, or a path whose metadata cannot be read is never written over: the store stays as
    it is, with what it has still to save, and the caller is told; so is a store whose write
    does not land. Only a save that is reported as written changes anything. *)
Theorem sync_fails_closed s node lands :
  let '(s', node', status) := sync s node lands in
  (status <> Written -> s' = s /\ node' = node) /\
  (status = Written -> dirty s' = false /\ write_blocked node = Written) /\
  (node' <> node -> status = Written /\ dirty s = true /\ lands = true /\ node' = written_node (encode s)) /\
  (forall path, bt_get path (values s') = bt_get path (values s)).
Proof.
  unfold sync. cbv zeta. destruct (bool_decide (write_blocked node = Written)) eqn:Eb; cbn [negb].
  2: { apply bool_decide_eq_false in Eb. by split_and!. }
  apply bool_decide_eq_true in Eb. destruct (dirty s) eqn:Ed; cbn [negb]; [|by split_and!].
  destruct (encoded_matches_disk node (on_disk s) (encode s)); [by split_and!|]. destruct lands; by split_and!.
Qed.

(** A store saved and opened again is the store that was saved: after a save that was
    reported as written, the file at the path reads as the values of the store, it is not
    blocked for the next save, and opening it yields a store whose next save has nothing to
    write. *)
Theorem saved_then_opened s node s' node' :
  good_store s -> dirty s = true -> on_disk s <> Some (encode s) -> sync s node true = (s', node', Written) ->
  (forall path, bt_get path (values (open_settings node')) = reread <$> bt_get path (values s)) /\
  write_blocked node' = Written /\ dirty s' = false /\ (forall lands, sync (open_settings node') node' lands = (open_settings node', node', Written)).
Proof.
  intros Hs Hd Hdisk. unfold sync at 1. cbv zeta. destruct (bool_decide (write_blocked node = Written)) eqn:Eb; cbn [negb]; [|by apply bool_decide_eq_false in Eb; intros [= _ _ ?]].
  apply bool_decide_eq_true in Eb. rw Hd. cbn [negb].
  assert (Hnext : forall node, write_blocked node = Written -> forall lands, sync (open_settings node) node lands = (open_settings node, node, Written)).
  { intros n Hn lands. unfold sync. rw bool_decide_eq_true_2 //. unfold open_settings, load, finish_load. by destruct (read_ini_bytes n). }
  destruct (encoded_matches_disk node (on_disk s) (encode s)) eqn:Em.
  - intros [= <- <-]. unfold encoded_matches_disk in Em. destruct (on_disk s) as [held|].
    { apply bool_decide_eq_true in Em. congruence. }
    apply andb_true_iff in Em as [Hn He%is_empty_nil]. split_and!; [|done|done|by apply Hnext]. intros path.
    rw -saved_lookup // He. apply write_blocked_written in Eb as [->|(contents & -> & _)]; done.
  - intros [= <- <-]. assert (Hw : write_blocked (written_node (encode s)) = Written).
    { apply write_blocked_written. right. exists (encode s). split; [done|]. by apply saved_well_formed. }
    split_and!; [|done|done|by apply Hnext]. intros path. exact (saved_lookup s path Hs).
Qed.

Lemma saved_then_opened_witness :
  bt_get (lit "highlights/words") (values (open_settings (sync toy_store Missing true).1.2)) = Some (IniList [lit "a"; lit "b,c"]).
Proof.
  destruct (saved_then_opened toy_store Missing (sync toy_store Missing true).1.1 (sync toy_store Missing true).1.2) as [H _];
    [exact toy_store_good|reflexivity|discriminate|reflexivity|]. rw (H (lit "highlights/words")). reflexivity.
Defined.

(** ** What is loaded is settled: reading it again changes nothing *)

Definition list_has_items (r : Reading) : Prop := is_list r = true -> items r <> [].

Lemma read_value_items fuel step rest r : list_has_items r -> list_has_items (read_value fuel step rest r).
Proof.
  assert (Hend : forall r, list_has_items r -> list_has_items (end_text r)) by (intros ? H; unfold end_text; by case_match).
  assert (Hitem : forall r, list_has_items (end_item r)).
  { intros r' _ E. unfold end_item in E. cbn in E. by apply app_eq_nil in E as [_ ?]. }
  revert step rest r. induction fuel as [|fuel IH]; intros step rest r H; [done|]. cbn [read_value].
  destruct step; [by apply IH| | |]; (destruct rest as [|b rest]; [done || by apply Hend|]).
  - repeat (case_match; try done); apply IH; done || by apply Hitem.
  - case_match; by apply IH.
  - case_match; by apply IH.
Qed.

Lemma read_settled data : reread (ini_unescaped_string_list data) = ini_unescaped_string_list data.
Proof.
  unfold ini_unescaped_string_list. pose proof (read_value_items (2 + 2 * length data) SkipSpaces data new_reading) as H.
  destruct (read_value _ _ _ _) as [b l lst q cq lim e]. unfold read_result. cbn. destruct lst; [|apply read_text_reread].
  specialize (H ltac:(done) eq_refl). cbn in H. destruct l as [|t [|t' l]]; done.
Qed.

Definition settled (m : btree IniValue) : Prop := Forall (fun e => reread e.2 = e.2) m.

Lemma settled_get m path : settled m -> reread <$> bt_get path m = bt_get path m.
Proof.
  intros H. destruct (bt_get path m) as [v|] eqn:E; [|done]. apply bt_get_elem in E. cbn. f_equal.
  exact (proj1 (Forall_forall _ _) H _ E).
Qed.

Lemma parse_settings_settled data : settled (parse_settings_ini data).
Proof.
  unfold parse_settings_ini. apply (foldl_invariant _ (fun st : str * btree IniValue => settled st.2)); [|constructor].
  intros [section m] line _ H. cbn in *. unfold parse_line. case_match; [done|]. case_match; [|done].
  apply bt_insert_Forall; [apply read_settled|done].
Qed.

Lemma parse_sts_settled data : settled (parse_sts_ini data).
Proof.
  unfold parse_sts_ini. apply (foldl_invariant _ (fun st : str * btree IniValue * bool => settled st.1.2)); [|constructor].
  intros [[section m] bad] line _ H. cbn in *. unfold parse_sts_line. repeat (case_match; try done).
  apply bt_insert_Forall; [apply read_settled|done].
Qed.

(** What was loaded is saved exactly: from the second generation on a file reads as the very
    values of the store, whatever program wrote it. *)
Theorem loaded_is_saved_exactly node path :
  good_store (open_settings node) ->
  bt_get path (parse_settings_ini (encode (open_settings node))) = bt_get path (values (open_settings node)).
Proof.
  intros Hs. rw saved_lookup //. apply settled_get. unfold open_settings, load, finish_load.
  destruct (read_ini_bytes node); cbn; [apply parse_settings_settled|constructor].
Qed.

Lemma loaded_is_saved_exactly_witness :
  let node := File (lit "[a]" ++ [10] ++ lit "b=x , y" ++ [10] ++ lit "c=@Rect(1)") true true false in
  bt_get (lit "a/b") (parse_settings_ini (encode (open_settings node))) = Some (IniList [lit "x"; lit "y"]).
Proof.
  intros node. rw (loaded_is_saved_exactly node (lit "a/b")); [|reflexivity].
  split; [apply parse_settings_table|by repeat constructor].
Defined.

(** ** A write and the reader behind it *)

(** What both ways to open a file have in common. *)
Record Reader (opened : Node -> Settings) : Prop := {
  rd_missing : values (opened Missing) = [] /\ on_disk (opened Missing) = None;
  rd_file contents : on_disk (opened (written_node contents)) = Some (encode (opened (written_node contents)));
  rd_written s path : good_store s -> bt_get path (values (opened (written_node (encode s)))) = reread <$> bt_get path (values s);
  rd_settled node : settled (values (opened node));
  rd_table node : store_table (opened node);
}.

Lemma open_settings_reader : Reader open_settings.
Proof.
  split; [done|done|by intros; apply saved_lookup| |by intros; apply load_table, parse_settings_table].
  intros node. unfold open_settings, load, finish_load. destruct (read_ini_bytes node); [apply parse_settings_settled|constructor].
Qed.

Lemma open_sts_reader : Reader open_sts.
Proof.
  split; [done|done| | |by intros; apply load_table, parse_sts_table].
  - intros s path Hs. cbn. by rw saved_sts // saved_lookup.
  - intros node. unfold open_sts, load, finish_load. destruct (read_ini_bytes node); [apply parse_sts_settled|constructor].
Qed.

(** A table under change: unsaved, with the snapshot of the file it was loaded from. *)
Definition pending_in (opened : Node -> Settings) (node : Node) (s : Settings) : Prop :=
  dirty s = true /\ on_disk s = on_disk (opened node).

(** A write of what was loaded and changed leaves a file that opens as the change. *)
Lemma sync_reopens opened s node :
  Reader opened -> good_store s -> pending_in opened node s -> good_store (opened node) -> write_blocked node = Written ->
  exists s' node', sync s node true = (s', node', Written) /\ write_blocked node' = Written /\
    forall path, bt_get path (values (opened node')) = reread <$> bt_get path (values s).
Proof.
  intros Hr Hs [Hd Hdisk] Ho Hb. unfold sync. rw bool_decide_eq_true_2 // Hd. cbn [negb].
  destruct (encoded_matches_disk node (on_disk s) (encode s)) eqn:Em.
  - eexists _, _. split_and!; [done|done|]. intros path. rw -saved_lookup //. rw Hdisk in Em.
    apply write_blocked_written in Hb as [->|(contents & -> & _)].
    + destruct (rd_missing _ Hr) as [-> E]. rw E in Em. apply andb_true_iff in Em as [_ ->%is_empty_nil]. done.
    + rw (rd_file _ Hr contents) in Em. apply bool_decide_eq_true in Em. rw -Em saved_lookup //. symmetry. apply settled_get, Hr.
  - eexists _, _. split_and!; [done| |by intros; apply Hr].
    apply write_blocked_written. right. eexists. split; [done|]. by apply saved_well_formed.
Qed.

(** ** What edits keep *)

(** A table that can be saved and comes back as it is. *)
Definition steady_store (s : Settings) : Prop := good_store s /\ settled (values s).

Lemma put_steady s path v :
  storable path = true -> scalar_value v = true -> reread v = v -> steady_store s -> steady_store (put s path v).
Proof.
  intros Hp Hv Hr [[Ht Hg] Hs]. split; [split; [by apply put_table|by apply bt_insert_Forall]|by apply bt_insert_Forall].
Qed.

Lemma show_scalar n : forallb is_scalar (show n) = true.
Proof. apply ascii_scalar. eapply forallb_impl; [apply digit_ascii|apply show_digits]. Qed.

Lemma show_int_scalar z : forallb is_scalar (show_int z) = true.
Proof. unfold show_int. case_match; cbn [forallb]; by rw show_scalar. Qed.

Lemma remove_group_steady s group : steady_store s -> steady_store (remove_group s group).
Proof.
  intros [[Ht Hg] Hs]. split; [split; [by apply remove_group_table|]|]; unfold remove_group; cbn; (case_match; [constructor|]);
    apply Forall_forall; intros e [_ He]%list_elem_of_filter; [exact (proj1 (Forall_forall _ _) Hg _ He)|exact (proj1 (Forall_forall _ _) Hs _ He)].
Qed.

(** Two tables with the same answers. *)
Definition same_answers (s s' : Settings) : Prop := forall path, bt_get path (values s') = bt_get path (values s).

Lemma same_good s s' : same_answers s s' -> store_table s' -> good_store s -> good_store s'.
Proof.
  intros H Ht [_ Hg]. split; [done|]. apply Forall_forall. intros [path v] Hin. destruct Ht as [_ Hd].
  apply (bt_elem_get _ _ _ Hd) in Hin. rw H in Hin. apply bt_get_elem in Hin. exact (proj1 (Forall_forall _ _) Hg _ Hin).
Qed.

(** ** What is not read back *)

Definition saved_and_opened (s : Settings) : Settings := open_settings (sync s Missing true).1.2.

(** A list of one item that starts with two @ signs loses one: [encode_value] escapes the sign
    of a text and not that of an item. *)
Example single_item_loses_sign :
  string_list (saved_and_opened (set_string_list in_memory (lit "g") (lit "k") [lit "@@secret"])) (lit "g") (lit "k")
  = Some [lit "@secret"].
Proof. vm_compute. reflexivity. Qed.

(** The list that holds one empty string reads back as the empty list. *)
Example empty_item_is_lost :
  string_list (saved_and_opened (set_string_list in_memory (lit "g") (lit "k") [[]])) (lit "g") (lit "k") = Some [] /\
  string_list (saved_and_opened (set_string_list in_memory (lit "g") (lit "k") [])) (lit "g") (lit "k") = Some [].
Proof. vm_compute. split; reflexivity. Qed.

(** A group named general in small letters is read back under the name General. *)
Example small_general_is_renamed :
  let s := saved_and_opened (set_value in_memory (lit "general") (lit "k") (lit "v")) in
  value s (lit "general") (lit "k") = [] /\ value s (lit "General") (lit "k") = lit "v".
Proof. vm_compute. split; reflexivity. Qed.

(** A key that ends with a slash makes the file malformed, and the next save is refused. *)
Example trailing_slash_blocks :
  let node := (sync (set_value in_memory (lit "g") (lit "k/") (lit "v")) Missing true).1.2 in
  write_blocked node = FormatError.
Proof. vm_compute. reflexivity. Qed.
