(* ===== verification/StsStore.v ===== *)
(** * StsStore: the STS policies on disk (src/client/src/storage/stspolicies.rs)

    One group per host in an INI file, and a layer in memory for policies whose write failed.
    A policy in memory is marked unsaved while the file does not hold it; beside it stands the
    view of the file it was recorded against, and an unsaved policy answers lookups until the
    file moves on from that view. The state is the layer and what the path names ([sts_file]);
    whether the write of an operation lands is its last argument. *)

From S2P Require Import Prelude Text OrdMap SessionTypes Platform Scram Sts SettingsIni Settings.

#[export] Instance StsCached_eq_dec : EqDecision StsCached.
Proof. solve_decision. Defined.

Definition PORT_KEY : str := lit "port".
Definition DURATION_KEY : str := lit "duration".
Definition EXPIRY_KEY : str := lit "expiry".

(** ** Views of the file *)

Inductive FileView :=
| ViewUnreadable
| ViewUnknown
| ViewClear
| ViewPolicy (cached : StsCached).
#[export] Instance FileView_eq_dec : EqDecision FileView.
Proof. solve_decision. Defined.

Definition known (view : FileView) : option (option StsCached) :=
  match view with
  | ViewUnreadable | ViewUnknown => None
  | ViewClear => Some None
  | ViewPolicy cached => Some (Some cached)
  end.

(** [known().flatten()] *)
Definition policy (view : FileView) : option StsCached := let? found := known view in found.

(** [u16::try_from(n).ok()] *)
Definition u16_of (n : N) : option N := if n <=? u16_max then Some n else None.

Definition read_policy (s : Settings) (key : str) : option StsCached :=
  let? port := u16_of (uint_value s key PORT_KEY 0) in
  if negb (1 <=? port) then None
  else
    let duration := int_value s key DURATION_KEY 0 in
    let expiry := int_value s key EXPIRY_KEY 0 in
    if (1 <=? duration)%Z && (1 <=? expiry)%Z then Some (mkCached port duration expiry) else None.

(** [child_groups("").iter().any(|group| group == key)] *)
Definition has_group (s : Settings) (key : str) : bool := existsb (str_eqb key) (child_groups s []).

Definition file_view (node : Node) (s : Settings) (key : str) : FileView :=
  let probe := probe_ini node in
  if bool_decide (probe = Unreadable) then ViewUnreadable
  else match read_policy s key with
       | Some cached => ViewPolicy cached
       | None =>
           if bool_decide (probe = ProbeOk) && negb (has_group s key) && node_exists node then ViewClear else ViewUnknown
       end.

Definition is_live (cached : StsCached) (now_unix : Z) : bool := (now_unix <? expiry_epoch_seconds cached)%Z.
Definition identity (found : option StsCached) : option (N * Z) := (fun c => (cached_port c, cached_duration c)) <$> found.

Definition file_moved (recorded now : FileView) (now_unix : Z) : bool :=
  match known recorded, known now with
  | Some before, Some after =>
      if bool_decide (identity before = identity after) then false
      else match after with
           | Some cached => is_live cached now_unix
           | None => match before with Some cached => is_live cached now_unix | None => false end
           end
  | _, _ => false
  end.

(** ** The store *)

Record Remembered := mkRemembered { held_cached : StsCached; unsaved : option FileView }.
#[export] Instance remembered_eta : Eta Remembered := fun h => mkRemembered (held_cached h) (unsaved h).

Record IniStsStore := mkIniStsStore { memory : btree Remembered; sts_file : Node }.
#[export] Instance ini_sts_store_eta : Eta IniStsStore := fun c => mkIniStsStore (memory c) (sts_file c).

Definition new_sts_store (node : Node) : IniStsStore := mkIniStsStore [] node.

Definition is_unsaved (held : Remembered) : bool := bool_decide (is_Some (unsaved held)).

(** What [open] makes of one entry of the layer. *)
Definition settle_view (node : Node) (s : Settings) (now_unix : Z) (entry : str * Remembered) : str * Remembered :=
  let '(key, held) := entry in
  match unsaved held with
  | None => entry
  | Some recorded =>
      let file := file_view node s key in
      if file_moved recorded file now_unix then (key, held <| unsaved := None |>)
      else if bool_decide (file = ViewUnreadable) then entry
      else (key, held <| unsaved := Some file |>)
  end.

(** [IniStsStore::open] *)
Definition open_store (c : IniStsStore) (now_unix : Z) : Settings * IniStsStore :=
  let settings := open_sts (sts_file c) in
  (settings, c <| memory := settle_view (sts_file c) settings now_unix <$> memory c |>).

Definition remember (c : IniStsStore) (key : str) (cached : StsCached) (view : option FileView) : IniStsStore :=
  c <| memory := bt_insert key (mkRemembered cached view) (memory c) |>.

Definition merge_sts_policy (s : Settings) (key : str) (incoming : StsCached) : Settings :=
  let s := set_uint s key PORT_KEY (cached_port incoming) in
  let s := set_value s key DURATION_KEY (show_int (cached_duration incoming)) in
  set_value s key EXPIRY_KEY (show_int (expiry_epoch_seconds incoming)).

Definition drop_group (s : Settings) (group : str) : Settings :=
  if negb (is_sts_group_key group) || bool_decide (read_policy s group = None) then remove_group s group else s.

Definition drop_invalid_groups (s : Settings) : Settings := foldl drop_group s (child_groups s []).

Definition merge_held (now_unix : Z) (recovery : bool) (s : Settings) (entry : str * Remembered) : Settings :=
  let '(key, held) := entry in
  let cached := held_cached held in
  if (cached_port cached <? 1) || negb (is_live cached now_unix) then s
  else
    let disk_is_live := match read_policy s key with Some disk => is_live disk now_unix | None => false end in
    if negb (is_unsaved held) && (negb recovery || disk_is_live) then s
    else merge_sts_policy s key cached.

Definition merge_memory_into_settings (s : Settings) (held : btree Remembered) (now_unix : Z) (recovery : bool) : Settings :=
  foldl (merge_held now_unix recovery) s held.

Definition settle_held (now_unix : Z) (held : Remembered) : Remembered :=
  if is_live (held_cached held) now_unix then held <| unsaved := None |> else held.

Definition settle_written (c : IniStsStore) (now_unix : Z) : IniStsStore :=
  c <| memory := (fun entry => (entry.1, settle_held now_unix entry.2)) <$> memory c |>.

(** In the recovery of a malformed file the new bytes are renamed over it once the old ones are
    linked to a backup; a failure at any step leaves the file as it is. *)
Definition persist_sts_settings (s : Settings) (c : IniStsStore) (now_unix : Z) (lands : bool) : IniStsStore :=
  let s := drop_invalid_groups s in
  match write_blocked (sts_file c) with
  | AccessError => c
  | FormatError =>
      if file_not_writable (sts_file c) then c
      else
        let s := merge_memory_into_settings s (memory c) now_unix true in
        if lands then settle_written (c <| sts_file := written_node (encode s) |>) now_unix else c
  | Written | Absent =>
      let s := merge_memory_into_settings s (memory c) now_unix false in
      let '(_, node, status) := sync s (sts_file c) lands in
      let c := c <| sts_file := node |> in
      if bool_decide (status = Written) then settle_written c now_unix else c
  end.

(** [IniStsStore::remove] *)
Definition remove_policy (c : IniStsStore) (key : str) (now_unix : Z) (lands : bool) : IniStsStore :=
  let c := c <| memory := bt_remove key (memory c) |> in
  let '(settings, c) := open_store c now_unix in
  if negb (has_group settings key) then c
  else persist_sts_settings (remove_group settings key) c now_unix lands.

Definition live_held (held : option Remembered) (now_unix : Z) : option StsCached :=
  let? held := held in if is_live (held_cached held) now_unix then Some (held_cached held) else None.
Definition unsaved_entry (c : IniStsStore) (key : str) : option Remembered :=
  let? held := bt_get key (memory c) in if is_unsaved held then Some held else None.

Section Operations.
Context `{platform : Platform} `{crypto : Crypto}.

(** [lookup] *)
Definition ini_lookup (c : IniStsStore) (host : str) (now : Time) (lands : bool) : IniStsStore * option StsCached :=
  let?? key := sts_group_key host else (c, None) in
  let now_unix := timestamp now in
  let '(settings, c) := open_store c now_unix in
  match live_held (unsaved_entry c key) now_unix with
  | Some cached => (c, Some cached)
  | None =>
      let from_file := let? cached := policy (file_view (sts_file c) settings key) in
                       if is_live cached now_unix then Some cached else None in
      match from_file with
      | Some cached => (remember c key cached None, Some cached)
      | None =>
          match live_held (bt_get key (memory c)) now_unix with
          | Some cached => (c, Some cached)
          | None =>
              if contains_key settings key PORT_KEY && contains_key settings key EXPIRY_KEY
              then (remove_policy c key now_unix lands, None)
              else (c, None)
          end
      end
  end.

(** [clear]; [clock] is [Utc::now()] when it is called. *)
Definition ini_clear (c : IniStsStore) (host : str) (clock : Time) (lands : bool) : IniStsStore :=
  let?? key := sts_group_key host else c in remove_policy c key (timestamp clock) lands.

(** [store] *)
Definition ini_store (c : IniStsStore) (host : str) (port : N) (duration : Z) (now clock : Time) (lands : bool) : IniStsStore :=
  if (duration =? 0)%Z then ini_clear c host clock lands
  else let?? key := sts_group_key host else c in
       if port =? 0 then c
       else
         let now_unix := timestamp now in
         let incoming := mkCached port duration (saturating_add now_unix duration) in
         let '(settings, c) := open_store c now_unix in
         let file := file_view (sts_file c) settings key in
         let settings := merge_sts_policy settings key incoming in
         let c := remember c key incoming (Some file) in
         persist_sts_settings settings c now_unix lands.

(** [refresh] *)
Definition ini_refresh (c : IniStsStore) (host : str) (duration : Z) (now : Time) (lands : bool) : IniStsStore :=
  let?? key := sts_group_key host else c in
  let now_unix := timestamp now in
  let '(settings, c) := open_store c now_unix in
  let file := file_view (sts_file c) settings key in
  let held := unsaved_entry c key in
  let?? cached := match held_cached <$> held with Some cached => Some cached | None => policy file end else c in
  if negb (cached_duration cached =? duration)%Z then c
  else
    let refreshed := cached <| expiry_epoch_seconds := saturating_add now_unix duration |> in
    let settings := merge_sts_policy settings key refreshed in
    let recorded := default file (let? held := held in unsaved held) in
    persist_sts_settings settings (remember c key refreshed (Some recorded)) now_unix lands.
End Operations.
