(* ===== verification/StsStoreProperties.v ===== *)
(** * StsStoreProperties: what the policy file promises (src/client/src/storage/stspolicies.rs)

    A policy that was stored answers until it lapses, whether or not it could be written; while
    every write lands the file behaves as the cache of the session does; and a file that cannot
    be replaced is left alone. *)

From S2P Require Import Prelude Text OrdMap SessionTypes Platform Scram Sts SettingsIni SettingsValues Settings SettingsAccess SettingsLines SettingsFile SettingsProperties StsStore.

#[local] Arguments is_live : simpl never.

(** ** Group names *)

Lemma utf8_char_ascii_inv c : forallb is_ascii (utf8_char c) = true -> is_ascii c = true.
Proof. unfold utf8_char, is_ascii. repeat (case_match; cbn [forallb]); lia. Qed.

Lemma ascii_from_bytes s : forallb is_ascii (as_bytes s) = true -> forallb is_ascii s = true.
Proof.
  induction s as [|c s IH]; [done|]. rw as_bytes_cons forallb_app. intros [Hc Hs]%andb_true_iff. cbn [forallb].
  by rw (utf8_char_ascii_inv c Hc) IH.
Qed.

Record group_name (key : str) : Prop := {
  gn_nonempty : key <> [];
  gn_slash_free : slash_free key = true;
  gn_scalar : forallb is_scalar key = true;
  gn_reserved : reserved key = false;
}.

Lemma sts_key_name key : is_sts_group_key key = true -> group_name key.
Proof.
  unfold is_sts_group_key, str_len, blen. intros [Hlen%N.eqb_eq Hhex]%andb_true_iff.
  assert (Ha : forallb is_ascii key = true).
  { apply ascii_from_bytes. eapply forallb_impl; [|exact Hhex]. intros b. unfold is_hex, is_ascii_digit, is_ascii. chars. lia. }
  rw as_bytes_ascii // in Hlen Hhex. split.
  - by intros ->.
  - eapply forallb_impl; [|exact Hhex]. intros c. unfold is_hex, is_ascii_digit. chars. lia.
  - by apply ascii_scalar.
  - unfold reserved, eq_ignore_ascii_case, str_eqb. rw bool_decide_eq_false_2 //. intros E. apply (f_equal length) in E.
    unfold ascii_lower in E. rw length_fmap in E. cbn in E. lia.
Qed.

Lemma settings_key_neq group k k' : k <> k' -> settings_key group k <> settings_key group k'.
Proof.
  unfold settings_key. intros Hne. case_match; [done|]. intros E. apply app_inv_head in E. by injection E.
Qed.

(** The three paths of a group can be saved. *)
Lemma policy_path_storable key k :
  group_name key -> forallb is_scalar k = true -> last k <> Some (chr "/") -> k <> [] -> storable (settings_key key k) = true.
Proof.
  intros [Hne Hs Hsc Hr] Hk Hl Hk0. unfold storable. rw split_settings_key // Hr. unfold settings_key.
  destruct key as [|c key]; [done|]. cbn [is_empty]. rw forallb_app forallb_app Hsc Hk. cbn [forallb andb head app].
  assert (last (c :: key ++ lit "/" ++ k) = last k) as ->.
  { destruct k as [|x k _] using rev_ind; [done|]. by rw !app_assoc app_comm_cons !last_snoc. }
  rw !bool_decide_eq_false_2 //. intros [= ->]. done.
Qed.

(** ** One policy in a table *)

Definition cached_ok (c : StsCached) : Prop :=
  1 <= cached_port c <= u16_max /\ (1 <= cached_duration c <= i64_max)%Z /\ (1 <= expiry_epoch_seconds c <= i64_max)%Z.

Lemma read_policy_ext s s' key :
  (forall k, text_value s key k = text_value s' key k) -> read_policy s key = read_policy s' key.
Proof. intros H. unfold read_policy, uint_value, int_value. by rw !H. Qed.

Lemma text_value_put s path v group key :
  text_value (put s path v) group key = if str_eqb path (settings_key group key) then text_of (Some v) else text_value s group key.
Proof. rw text_value_is put_get. by case_match. Qed.

Lemma merge_other s key key' k c :
  group_name key -> group_name key' -> key <> key' -> text_value (merge_sts_policy s key c) key' k = text_value s key' k.
Proof.
  intros H1 H2 Hne. unfold merge_sts_policy, set_uint, set_value. rw !text_value_put.
  assert (Hk : forall a, str_eqb (settings_key key a) (settings_key key' k) = false).
  { intros a. apply str_eqb_ne. intros [? _]%settings_key_inj; [done|apply H1|apply H2|apply H1|apply H2]. }
  by rw !Hk.
Qed.

Lemma read_policy_merge_ne s key key' c :
  group_name key -> group_name key' -> key <> key' -> read_policy (merge_sts_policy s key c) key' = read_policy s key'.
Proof. intros H1 H2 Hne. apply read_policy_ext. intros k. by apply merge_other. Qed.

Lemma merge_texts s key c :
  let s' := merge_sts_policy s key c in
  text_value s' key PORT_KEY = Some (show (cached_port c)) /\ text_value s' key DURATION_KEY = Some (show_int (cached_duration c)) /\
  text_value s' key EXPIRY_KEY = Some (show_int (expiry_epoch_seconds c)).
Proof.
  cbn. unfold merge_sts_policy, set_uint, set_value. rw !text_value_put !str_eqb_refl.
  rw !(str_eqb_ne (settings_key key _) (settings_key key _)); try by apply settings_key_neq. done.
Qed.

(** A group that spells a policy is read as that policy. *)
Lemma read_policy_texts s key c :
  cached_ok c -> text_value s key PORT_KEY = Some (show (cached_port c)) ->
  text_value s key DURATION_KEY = Some (show_int (cached_duration c)) ->
  text_value s key EXPIRY_KEY = Some (show_int (expiry_epoch_seconds c)) -> read_policy s key = Some c.
Proof.
  intros (Hp & Hd & He) E1 E2 E3. unfold read_policy. unfold u16_max, i64_max in *.
  rw (uint_value_of _ _ _ _ _ E1); [unfold usize_max; lia|]. unfold u16_of, u16_max. rw (proj2 (N.leb_le _ 65535)); [lia|].
  cbn [mbind option_bind]. rw (proj2 (N.leb_le 1 _)); [lia|]. cbn [negb].
  rw (int_value_of _ _ _ _ _ E2); [unfold i64_min, i64_max; lia|]. rw (int_value_of _ _ _ _ _ E3); [unfold i64_min, i64_max; lia|].
  rw (proj2 (Z.leb_le 1 _)); [lia|]. rw (proj2 (Z.leb_le 1 _)); [lia|]. by destruct c.
Qed.

Lemma read_policy_merge s key c : cached_ok c -> read_policy (merge_sts_policy s key c) key = Some c.
Proof. intros Hc. destruct (merge_texts s key c) as (H1 & H2 & H3). by apply read_policy_texts. Qed.

Lemma int_value_range s group key fallback :
  (i64_min <= fallback <= i64_max)%Z -> (i64_min <= int_value s group key fallback <= i64_max)%Z.
Proof.
  intros Hf. unfold int_value. destruct (text_value s group key) as [text|]; [|done]. cbn [mbind option_bind].
  destruct (parse_i64 _) as [z|] eqn:E; [|done]. by apply parse_i64_range in E.
Qed.

Lemma read_policy_ok s key c : read_policy s key = Some c -> cached_ok c.
Proof.
  unfold read_policy. assert (H0 : (i64_min <= 0 <= i64_max)%Z) by (unfold i64_min, i64_max; lia).
  pose proof (int_value_range s key DURATION_KEY 0 H0) as Hd. pose proof (int_value_range s key EXPIRY_KEY 0 H0) as He. unfold u16_of. destruct (N.leb_spec (uint_value s key PORT_KEY 0) u16_max) as [Hp|]; [|done].
  cbn [mbind option_bind]. destruct (N.leb_spec 1 (uint_value s key PORT_KEY 0)); [|done]. cbn [negb].
  destruct (Z.leb_spec 1 (int_value s key DURATION_KEY 0)), (Z.leb_spec 1 (int_value s key EXPIRY_KEY 0)); try done.
  intros [= <-]. unfold cached_ok. cbn [cached_port cached_duration expiry_epoch_seconds]. lia.
Qed.

Lemma contains_text s group key text : text_value s group key = Some text -> contains_key s group key = true.
Proof.
  rw text_value_is. unfold contains_key, bt_contains. intros H. apply bool_decide_eq_true. destruct (bt_get _ _); [done|done].
Qed.

Lemma read_policy_contains s key c :
  read_policy s key = Some c -> contains_key s key PORT_KEY = true /\ contains_key s key EXPIRY_KEY = true.
Proof.
  intros H. assert (Hp : text_value s key PORT_KEY <> None).
  { intros E. unfold read_policy, uint_value in H. by rw E in H. }
  assert (He : text_value s key EXPIRY_KEY <> None).
  { intros E. assert (E0 : int_value s key EXPIRY_KEY 0 = 0%Z) by (unfold int_value; by rw E).
    unfold read_policy in H. rw E0 in H. destruct (u16_of _); [|done]. cbn [mbind option_bind] in H. destruct (1 <=? _); [|done].
    by rw andb_false_r in H. }
  destruct (text_value s key PORT_KEY) eqn:E1; [|done]. destruct (text_value s key EXPIRY_KEY) eqn:E2; [|done].
  by split; eapply contains_text.
Qed.

(** *** Groups *)

Lemma contains_has_group s key k : group_name key -> contains_key s key k = true -> key ∈ child_groups s [].
Proof.
  intros Hn H. apply child_groups_elem. split; [by apply gn_slash_free|]. exists k. cbn [group_prefix is_empty app].
  unfold contains_key, bt_contains, settings_key in H. apply bool_decide_eq_true in H. destruct key as [|c key]; [by destruct (gn_nonempty _ Hn)|].
  cbn [is_empty] in H. destruct (decide ((c :: key) ++ lit "/" ++ k ∈ bt_keys (values s))) as [Hin|Hin]; [exact Hin|].
  apply bt_get_None_keys in Hin. rw Hin in H. by destruct H.
Qed.

Lemma read_policy_has_group s key c : group_name key -> read_policy s key = Some c -> key ∈ child_groups s [].
Proof. intros Hn [Hp _]%read_policy_contains. by eapply contains_has_group. Qed.

Lemma has_group_spec s key : has_group s key = true <-> key ∈ child_groups s [].
Proof.
  unfold has_group. rw existsb_exists. setoid_rewrite str_eqb_eq. split.
  - intros (x & Hin & ->). by apply list_elem_of_In.
  - intros Hin. exists key. split; [by apply list_elem_of_In|done].
Qed.

Lemma remove_group_text s group key k :
  group <> [] -> text_value (remove_group s group) key k = if in_group group (settings_key key k) then None else text_value s key k.
Proof. intros Hg. rw text_value_is remove_group_get //. by case_match. Qed.

Lemma in_group_key group key k : group_name key -> group <> [] -> slash_free group = true -> in_group group (settings_key key k) = str_eqb group key.
Proof.
  intros Hn Hg Hs. apply eq_bool_prop_intro. rw !Is_true_true in_group_spec str_eqb_eq.
  assert (Hk : forall rest, settings_key key k = group ++ lit "/" ++ rest -> group = key).
  { intros rest E. assert (E' : settings_key key k = settings_key group rest) by (rw E; by destruct group).
    apply settings_key_inj in E' as [-> _]; try done; apply Hn. }
  split.
  - intros [E|[rest E]]; [|by eapply Hk]. exfalso. pose proof (f_equal slash_free E) as Es. rw Hs in Es.
    unfold settings_key in Es. destruct key; [by destruct (gn_nonempty _ Hn)|]. cbn [is_empty] in Es. unfold slash_free in Es.
    rw !forallb_app in Es. cbn in Es. by rw andb_false_r in Es.
  - intros ->. right. exists k. unfold settings_key. by destruct key; [destruct (gn_nonempty _ Hn)|].
Qed.

Lemma read_policy_remove_ne s group key :
  group_name key -> group <> [] -> slash_free group = true -> group <> key -> read_policy (remove_group s group) key = read_policy s key.
Proof.
  intros Hn Hg Hs Hne. apply read_policy_ext. intros k. rw remove_group_text // in_group_key // (str_eqb_ne group key) //.
Qed.

Lemma read_policy_removed s key : group_name key -> read_policy (remove_group s key) key = None.
Proof.
  intros Hn. unfold read_policy, uint_value. rw remove_group_text; [apply Hn|]. rw in_group_key //; [apply Hn|apply Hn|]. by rw str_eqb_refl.
Qed.

(** ** The file after a write *)

Lemma open_sts_table node : store_table (open_sts node).
Proof. apply (rd_table _ open_sts_reader). Qed.

Lemma open_sts_settled node : settled (values (open_sts node)).
Proof. apply (rd_settled _ open_sts_reader). Qed.

Lemma open_sts_written s path :
  good_store s -> bt_get path (values (open_sts (written_node (encode s)))) = reread <$> bt_get path (values s).
Proof. apply (rd_written _ open_sts_reader). Qed.

(** ** What the steps of a write keep *)

Lemma merge_steady s key c : group_name key -> steady_store s -> steady_store (merge_sts_policy s key c).
Proof.
  intros Hn Hs. unfold merge_sts_policy, set_uint, set_value.
  repeat apply put_steady; try done; try apply show_scalar; try apply show_int_scalar; by apply policy_path_storable.
Qed.

Lemma drop_invalid_steady s : steady_store s -> steady_store (drop_invalid_groups s).
Proof.
  intros Hs. unfold drop_invalid_groups. apply (foldl_invariant _ steady_store); [|done]. intros s' group _ H.
  unfold drop_group. case_match; [by apply remove_group_steady|done].
Qed.

Abbreviation pending := (pending_in open_sts).

Lemma drop_invalid_pending node s : pending node s -> pending node (drop_invalid_groups s).
Proof.
  intros Hs. unfold drop_invalid_groups. apply (foldl_invariant _ (pending node)); [|done]. intros s' group _ [Hd Ho].
  unfold drop_group, pending_in. case_match; [|done]. unfold remove_group. cbn. by rw Hd.
Qed.

Lemma merge_pending node s key c : on_disk s = on_disk (open_sts node) -> pending node (merge_sts_policy s key c).
Proof. done. Qed.

(** No path that can be saved lies in a group without a name. *)
Lemma good_groups s group : good_store s -> group ∈ child_groups s [] -> group <> [] /\ slash_free group = true.
Proof.
  intros [_ Hg] [Hs [rest Hin]]%child_groups_elem. split; [|done]. intros ->. cbn in Hin.
  apply list_elem_of_fmap in Hin as ([path v] & E & Hin). cbn in E. subst path.
  apply (proj1 (Forall_forall _ _) Hg) in Hin as [Hp _]. unfold storable in Hp. cbn [fst app] in Hp.
  rw (bool_decide_eq_true_2 (head _ = _)) in Hp; [done|]. by rw andb_false_r in Hp.
Qed.

Lemma drop_invalid_keeps s key c :
  good_store s -> is_sts_group_key key = true -> read_policy s key = Some c -> read_policy (drop_invalid_groups s) key = Some c.
Proof.
  intros Hs Hk Hr. unfold drop_invalid_groups. apply (foldl_invariant _ (fun s => read_policy s key = Some c)); [|done].
  intros s' group [Hg Hsf]%good_groups H; [|done]. unfold drop_group. destruct (decide (group = key)) as [->|Hne].
  - rw Hk bool_decide_eq_false_2; [by rw H|done].
  - case_match; [|done]. rw read_policy_remove_ne //. by apply sts_key_name.
Qed.

(** *** The memory *)

Definition memory_ok (m : btree Remembered) : Prop := table m /\ Forall (fun e => is_sts_group_key e.1 = true) m.

Lemma merge_held_cases now recovery s e :
  merge_held now recovery s e = s \/ merge_held now recovery s e = merge_sts_policy s e.1 (held_cached e.2).
Proof. destruct e as [key held]. unfold merge_held. repeat (case_match; auto). Qed.

Section MergeMemory.
Context (m : btree Remembered) (now : Z) (recovery : bool) (Hm : memory_ok m).

Lemma merge_memory_steady s : steady_store s -> steady_store (merge_memory_into_settings s m now recovery).
Proof using Hm.
  intros Hs. unfold merge_memory_into_settings. apply (foldl_invariant _ steady_store); [|done]. intros s' e Hin H.
  destruct (merge_held_cases now recovery s' e) as [->| ->]; [done|]. apply merge_steady; [|done]. apply sts_key_name.
  exact (proj1 (Forall_forall _ _) (proj2 Hm) _ Hin).
Qed.

Lemma merge_memory_pending node s : pending node s -> pending node (merge_memory_into_settings s m now recovery).
Proof using Type.
  intros Hs. unfold merge_memory_into_settings. apply (foldl_invariant _ (pending node)); [|done]. intros s' e _ H.
  destruct (merge_held_cases now recovery s' e) as [->| ->]; [done|]. apply merge_pending, H.
Qed.

(** A policy that the memory holds too stays what it is. *)
Lemma merge_memory_keeps s key c view :
  is_sts_group_key key = true -> cached_ok c -> bt_get key m = Some (mkRemembered c view) -> read_policy s key = Some c ->
  read_policy (merge_memory_into_settings s m now recovery) key = Some c.
Proof using Hm.
  intros Hk Hc Hget Hr. unfold merge_memory_into_settings. apply (foldl_invariant _ (fun s => read_policy s key = Some c)); [|done].
  intros s' e Hin H. destruct (merge_held_cases now recovery s' e) as [->| ->]; [done|]. destruct Hm as [[_ Hd] Hall].
  destruct (decide (e.1 = key)) as [E|Hne].
  - assert (e.2 = mkRemembered c view) as E2.
    { destruct e as [k held]. cbn in *. subst k. apply (bt_elem_get _ _ _ Hd) in Hin. congruence. }
    rw E E2. by apply read_policy_merge.
  - rw read_policy_merge_ne //; [|by apply sts_key_name]. apply sts_key_name. exact (proj1 (Forall_forall _ _) Hall _ Hin).
Qed.
End MergeMemory.

(** ** A policy goes to the file or stays in the memory *)

Lemma reopened_policy s s' key :
  settled (values s) -> (forall path, bt_get path (values s') = reread <$> bt_get path (values s)) ->
  read_policy s' key = read_policy s key.
Proof. intros Hs H. apply read_policy_ext. intros k. by rw !text_value_is H settled_get. Qed.

Lemma bt_get_map {V} (f : str -> V -> V) (m : btree V) key :
  bt_get key ((fun e => (e.1, f e.1 e.2)) <$> m) = f key <$> bt_get key m.
Proof.
  unfold bt_get. induction m as [|[k v] m IH]; [done|]. cbn. unfold key_eqb. case_bool_decide as E; [by subst|exact IH].
Qed.

Lemma bt_keys_map {V} (f : str -> V -> V) (m : btree V) : bt_keys ((fun e => (e.1, f e.1 e.2)) <$> m) = bt_keys m.
Proof. unfold bt_keys. induction m as [|[k v] m IH]; [done|]. cbn. by f_equal. Qed.

Lemma settle_written_get c now key : bt_get key (memory (settle_written c now)) = settle_held now <$> bt_get key (memory c).
Proof. apply (bt_get_map (fun _ => settle_held now)). Qed.

(** Where the policy [cached] of [key] is to be found: in the memory, unsaved, or in the file. *)
Definition landed (c : IniStsStore) (key : str) (cached : StsCached) : Prop :=
  (forall held, bt_get key (memory c) = Some held -> unsaved held = None) /\
  probe_ini (sts_file c) <> Unreadable /\ read_policy (open_sts (sts_file c)) key = Some cached.

Lemma written_probe node : write_blocked node = Written -> probe_ini node <> Unreadable.
Proof. unfold write_blocked. by destruct (probe_ini node). Qed.

Lemma persist_lands s c now lands key cached view :
  memory_ok (memory c) -> good_store (open_sts (sts_file c)) -> steady_store s -> pending (sts_file c) s ->
  is_sts_group_key key = true -> cached_ok cached -> is_live cached now = true ->
  bt_get key (memory c) = Some (mkRemembered cached view) -> read_policy s key = Some cached ->
  persist_sts_settings s c now lands = c \/ landed (persist_sts_settings s c now lands) key cached.
Proof.
  intros Hm Ho Hs Hp Hk Hc Hlive Hget Hr. unfold persist_sts_settings. cbv zeta.
  assert (Hmerged : forall recovery, let merged := merge_memory_into_settings (drop_invalid_groups s) (memory c) now recovery in
    steady_store merged /\ pending (sts_file c) merged /\ read_policy merged key = Some cached).
  { intros recovery. cbn. split_and!.
    - by apply merge_memory_steady, drop_invalid_steady.
    - by apply merge_memory_pending, drop_invalid_pending.
    - eapply merge_memory_keeps; try done. apply drop_invalid_keeps; [apply Hs|done|done]. }
  assert (Hsettle : forall node held, bt_get key (memory (settle_written (c <| sts_file := node |>) now)) = Some held -> unsaved held = None).
  { intros node held. rw settle_written_get Hget. cbn. intros [= <-]. unfold settle_held. cbn [held_cached]. by rw Hlive. }
  destruct (write_blocked (sts_file c)) eqn:Eb.
  - destruct (Hmerged false) as ([Hg Hse] & [Hd Hdisk] & Hr'). set (merged := merge_memory_into_settings _ _ _ _) in *. destruct lands.
    + destruct (sync_reopens open_sts merged (sts_file c) open_sts_reader) as (s' & node' & -> & Hb' & Hopen); [done..|].
      rw bool_decide_eq_true_2 //. right. split_and!; [apply Hsettle|by apply written_probe|]. cbn. by rw (reopened_policy merged).
    + unfold sync. rw Eb. cbn [negb]. rw bool_decide_eq_true_2 // Hd. cbn [negb].
      destruct (encoded_matches_disk _ _ _) eqn:Em.
      * destruct (sync_reopens open_sts merged (sts_file c) open_sts_reader) as (s' & node' & E & Hb' & Hopen); [done..|].
        unfold sync in E. rw Eb bool_decide_eq_true_2 // Hd Em in E. cbn [negb] in E. injection E as <- <-.
        rw bool_decide_eq_true_2 //. right. split_and!; [apply Hsettle|by apply written_probe|]. cbn. by rw (reopened_policy merged).
      * left. rw bool_decide_eq_false_2 //. by destruct c.
  - unfold write_blocked in Eb. repeat (case_match; try done).
  - by left.
  - destruct (file_not_writable (sts_file c)); [by left|]. destruct lands; [|by left]. destruct (Hmerged true) as ([Hg Hse] & _ & Hr').
    right. split_and!; [apply Hsettle| |].
    + apply written_probe, write_blocked_written. right. eexists. split; [done|]. by apply saved_well_formed.
    + cbn [sts_file settle_written]. rw (reopened_policy (merge_memory_into_settings (drop_invalid_groups s) (memory c) now true)) //.
      intros path. by apply open_sts_written.
Qed.

(** ** Looking up *)

Lemma file_moved_same view now : file_moved view view now = false.
Proof. unfold file_moved. destruct (known view); [|done]. by rw bool_decide_eq_true_2. Qed.

Lemma settle_view_key node s now e : settle_view node s now e = (e.1, (settle_view node s now (e.1, e.2)).2).
Proof. destruct e as [key held]. unfold settle_view. cbn [fst snd]. destruct (unsaved held); [|done]. destruct (file_moved _ _ _); [done|]. by destruct (bool_decide _). Qed.

Lemma open_memory c now :
  memory (open_store c now).2
  = (fun e => (e.1, (settle_view (sts_file c) (open_sts (sts_file c)) now (e.1, e.2)).2)) <$> memory c.
Proof.
  change (memory (open_store c now).2) with (settle_view (sts_file c) (open_sts (sts_file c)) now <$> memory c).
  apply list_fmap_ext. intros i e _. exact (settle_view_key _ _ _ e).
Qed.

Lemma open_get c now key :
  bt_get key (memory (open_store c now).2)
  = (fun held => (settle_view (sts_file c) (open_sts (sts_file c)) now (key, held)).2) <$> bt_get key (memory c).
Proof. rw open_memory. apply (bt_get_map (fun key held => (settle_view _ _ now (key, held)).2)). Qed.

Lemma memory_ok_keys (m m' : btree Remembered) : bt_keys m = bt_keys m' -> memory_ok m -> memory_ok m'.
Proof.
  intros E [[Ho Hd] Hk]. split; [split; [unfold ordered; by rw -E|by rw -E]|]. unfold bt_keys in E.
  rw Forall_forall in Hk. apply Forall_forall. intros e He.
  assert (Hin : e.1 ∈ m.*1) by (rw E; by apply list_elem_of_fmap_2). by apply list_elem_of_fmap in Hin as (e' & -> & ?%Hk).
Qed.

Lemma open_memory_ok c now : memory_ok (memory c) -> memory_ok (memory (open_store c now).2).
Proof. apply memory_ok_keys. rw open_memory. by rw (bt_keys_map (fun key held => (settle_view _ _ now (key, held)).2)). Qed.

Lemma remember_ok c key cached view :
  is_sts_group_key key = true -> memory_ok (memory c) -> memory_ok (memory (remember c key cached view)).
Proof. intros Hk [Ht Hf]. split; [by apply table_insert|by apply bt_insert_Forall]. Qed.

Section Lookups.
Context `{platform : Platform} `{crypto : Crypto}.
Context (host key : str) (Hhost : sts_group_key host = Some key).

Lemma lookup_landed c cached later lands :
  landed c key cached -> is_live cached (timestamp later) = true -> (ini_lookup c host later lands).2 = Some cached.
Proof using Hhost.
  intros (Hmem & Hprobe & Hr) Hlive. unfold ini_lookup. rw Hhost. destruct (open_store c (timestamp later)) as [s c1] eqn:Eo.
  assert (Hc1 : c1 = (open_store c (timestamp later)).2) by by rw Eo. injection Eo as <- _.
  assert (unsaved_entry c1 key = None) as ->.
  { unfold unsaved_entry. rw Hc1 open_get. destruct (bt_get key (memory c)) as [held|] eqn:E; [|done].
    cbn [fmap option_fmap option_map mbind option_bind]. unfold settle_view. rw (Hmem held eq_refl). cbn [snd]. unfold is_unsaved.
    rw (Hmem held eq_refl). done. }
  cbn [live_held mbind option_bind]. assert (sts_file c1 = sts_file c) as -> by by rw Hc1.
  unfold file_view. rw bool_decide_eq_false_2 // Hr. cbn [policy known mbind option_bind]. by rw Hlive.
Qed.

Lemma lookup_unsaved c cached view later lands :
  bt_get key (memory c) = Some (mkRemembered cached (Some view)) ->
  file_moved view (file_view (sts_file c) (open_sts (sts_file c)) key) (timestamp later) = false ->
  is_live cached (timestamp later) = true -> (ini_lookup c host later lands).2 = Some cached.
Proof using Hhost.
  intros Hget Hmoved Hlive. unfold ini_lookup. rw Hhost. destruct (open_store c (timestamp later)) as [s c1] eqn:Eo.
  assert (Hc1 : c1 = (open_store c (timestamp later)).2) by by rw Eo.
  assert (live_held (unsaved_entry c1 key) (timestamp later) = Some cached) as ->; [|done].
  unfold unsaved_entry. rw Hc1 open_get Hget. cbn [fmap option_fmap option_map mbind option_bind].
  unfold settle_view. cbn [unsaved]. rw Hmoved. destruct (bool_decide (_ = ViewUnreadable)); cbn [snd];
    (lazymatch goal with |- context [is_unsaved ?held] => change (is_unsaved held) with true end); unfold live_held; cbn; by rw Hlive.
Qed.
End Lookups.

Section Protection.
Context `{platform : Platform} `{crypto : Crypto}.

Lemma stored_policy_found c host host' key port duration now clock lands later lands' :
  memory_ok (memory c) -> good_store (open_sts (sts_file c)) ->
  sts_group_key host = Some key -> sts_group_key host' = Some key -> is_sts_group_key key = true ->
  1 <= port <= u16_max -> (1 <= duration <= i64_max)%Z -> (0 <= timestamp now)%Z ->
  let expiry := saturating_add (timestamp now) duration in
  (timestamp now < expiry)%Z -> (timestamp later < expiry)%Z ->
  (ini_lookup (ini_store c host port duration now clock lands) host' later lands').2 = Some (mkCached port duration expiry).
Proof.
  intros Hm Ho Hh Hh' Hk Hp Hd Hnow expiry Hfresh Hlater. unfold ini_store.
  rw (proj2 (Z.eqb_neq duration 0)) ?Hh; [lia|]. rw (proj2 (N.eqb_neq port 0)); [lia|].
  set (incoming := mkCached port duration expiry). cbv zeta. fold expiry. fold incoming.
  destruct (open_store c (timestamp now)) as [s c1] eqn:Eo.
  assert (Hc1 : c1 = (open_store c (timestamp now)).2) by by rw Eo. injection Eo as <- _.
  set (view := file_view (sts_file c1) (open_sts (sts_file c)) key). set (c2 := remember c1 key incoming (Some view)).
  assert (Hfile : sts_file c2 = sts_file c) by (unfold c2; by rw Hc1).
  assert (Hget : bt_get key (memory c2) = Some (mkRemembered incoming (Some view))) by apply bt_get_insert.
  assert (Hok : cached_ok incoming).
  { unfold incoming, cached_ok. cbn. pose proof (saturating_add_range (timestamp now) duration). unfold expiry in *. lia. }
  assert (Hlive : forall t, (t < expiry)%Z -> is_live incoming t = true) by (intros t Ht; by apply Z.ltb_lt).
  assert (Hname : group_name key) by by apply sts_key_name.
  destruct (persist_lands (merge_sts_policy (open_sts (sts_file c)) key incoming) c2 (timestamp now) lands key incoming (Some view))
    as [->|Hl].
  - unfold c2. apply remember_ok; [done|]. rw Hc1. by apply open_memory_ok.
  - by rw Hfile.
  - apply merge_steady; [done|]. split; [done|]. apply open_sts_settled.
  - apply merge_pending. by rw Hfile.
  - done.
  - done.
  - by apply Hlive.
  - done.
  - by apply read_policy_merge.
  - apply (lookup_unsaved host' key Hh' c2 incoming view); [done| |by apply Hlive].
    rw Hfile. unfold view. rw Hc1. apply file_moved_same.
  - apply (lookup_landed host' key Hh'); [done|by apply Hlive].
Qed.
End Protection.

(** A hash of 32 bytes, to evaluate the store with. *)
Definition digest_crypto : Crypto := {|
  sha256 l := take 32 ((fun b => b mod 256) <$> (l ++ replicate 32 0));
  hmac_sha256 key message := key ++ message;
  pbkdf2_hmac_sha256 password salt count := password ++ salt;
  base64_encode := mbind (fun b => [65; 65; 65 + b / 16; 65 + b mod 16]);
  base64_decode := toy_decode;
|}.

Definition Digest32 `{crypto : Crypto} : Prop := forall l, length (sha256 l) = 32%nat /\ Forall (fun b => b < 256) (sha256 l).

Lemma digest_crypto_32 : @Digest32 digest_crypto.
Proof.
  intros l. cbn. split; [rw length_take length_fmap length_app; cbn [length]; lia|].
  apply Forall_take, Forall_fmap, Forall_forall. intros b _. by apply N.mod_lt.
Qed.

(** ** While every write lands, the file is the cache of the session *)

Definition every_group_valid (s : Settings) : Prop :=
  forall group, group ∈ child_groups s [] -> is_sts_group_key group = true /\ read_policy s group <> None.

Record mirrors (c : IniStsStore) (m : StsStore) : Prop := {
  mi_memory : memory_ok (memory c);
  mi_saved : forall key held, bt_get key (memory c) = Some held ->
    unsaved held = None /\ read_policy (open_sts (sts_file c)) key = Some (held_cached held);
  mi_writable : write_blocked (sts_file c) = Written;
  mi_good : good_store (open_sts (sts_file c));
  mi_groups : every_group_valid (open_sts (sts_file c));
  mi_policies : forall key, is_sts_group_key key = true -> bt_get key m = read_policy (open_sts (sts_file c)) key;
}.

Lemma drop_invalid_none s : every_group_valid s -> drop_invalid_groups s = s.
Proof.
  intros H. unfold drop_invalid_groups. unfold every_group_valid in H. revert H. generalize (child_groups s []). intros groups.
  induction groups as [|group groups IH]; [done|]. intros H. cbn [foldl]. destruct (H group) as [Hk Hr]; [by left|].
  assert (drop_group s group = s) as ->; [unfold drop_group; by rw Hk bool_decide_eq_false_2|].
  apply IH. intros g Hg. apply H. by right.
Qed.

Lemma child_groups_get s group :
  group ∈ child_groups s [] <-> slash_free group = true /\ exists rest, is_Some (bt_get (group ++ lit "/" ++ rest) (values s)).
Proof.
  rw child_groups_elem. cbn [group_prefix is_empty app]. assert (Hin : forall x, x ∈ bt_keys (values s) <-> is_Some (bt_get x (values s))).
  { intros x. rw -not_eq_None_Some bt_get_None_keys. destruct (decide (x ∈ bt_keys (values s))); naive_solver. }
  by setoid_rewrite Hin.
Qed.

Lemma same_policy s s' key : same_answers s s' -> read_policy s' key = read_policy s key.
Proof. intros H. apply read_policy_ext. intros k. by rw !text_value_is H. Qed.

Lemma same_groups s s' : same_answers s s' -> every_group_valid s -> every_group_valid s'.
Proof.
  intros H Hg group Hin. rw (same_policy s s') //. apply Hg. apply child_groups_get in Hin as [Hs [rest Hin]].
  apply child_groups_get. split; [done|]. exists rest. by rw -H.
Qed.

Lemma merge_group s key c group : group_name key -> group ∈ child_groups (merge_sts_policy s key c) [] -> group ∈ child_groups s [] \/ group = key.
Proof.
  intros Hn [Hs [rest Hin]]%child_groups_get. destruct (decide (group = key)) as [->|Hne]; [by right|]. left. apply child_groups_get.
  split; [done|]. exists rest. revert Hin. unfold merge_sts_policy, set_uint, set_value. rw !put_get.
  assert (Hk : forall k, str_eqb (settings_key key k) (group ++ lit "/" ++ rest) = false).
  { intros k. apply str_eqb_ne. intros E. pose proof (split_settings_key key k (gn_nonempty _ Hn) (gn_slash_free _ Hn)) as E'.
    rw E in E'. unfold split_section in E'. rw (proj2 (split_once_slash (group ++ lit "/" ++ rest) group rest)) in E'; [done|]. by injection E'. }
  by rw !Hk.
Qed.

Lemma merge_groups s key c : is_sts_group_key key = true -> cached_ok c -> every_group_valid s -> every_group_valid (merge_sts_policy s key c).
Proof.
  intros Hk Hc Hg group Hin. pose proof (sts_key_name key Hk) as Hn. destruct (decide (group = key)) as [->|Hne].
  - by rw read_policy_merge.
  - apply merge_group in Hin as [Hin|?]; [|done|done]. destruct (Hg group Hin) as [H1 H2]. split; [done|].
    rw read_policy_merge_ne //. by apply sts_key_name.
Qed.

(** What the memory holds too is merged without effect on any policy. *)
Lemma merge_memory_policies s m now :
  Forall (fun e => is_sts_group_key e.1 = true) m -> (forall e, e ∈ m -> read_policy s e.1 = Some (held_cached e.2)) -> every_group_valid s ->
  let merged := merge_memory_into_settings s m now false in
  every_group_valid merged /\ forall key, is_sts_group_key key = true -> read_policy merged key = read_policy s key.
Proof.
  intros Hm Hr Hg. cbn. unfold merge_memory_into_settings.
  apply (foldl_invariant _ (fun s' => every_group_valid s' /\ forall key, is_sts_group_key key = true -> read_policy s' key = read_policy s key)); [|done].
  intros s' e Hin [Hg' Hr']. destruct (merge_held_cases now false s' e) as [->| ->]; [done|].
  pose proof (proj1 (Forall_forall _ _) Hm _ Hin) as Hk. pose proof (Hr e Hin) as He. pose proof (read_policy_ok _ _ _ He) as Hc.
  split; [by apply merge_groups|]. intros key Hkey. destruct (decide (e.1 = key)) as [<-|Hne]; [by rw read_policy_merge|].
  rw read_policy_merge_ne; [by apply sts_key_name|by apply sts_key_name|done|by apply Hr'].
Qed.

Lemma persist_mirrors s c now m :
  memory_ok (memory c) -> write_blocked (sts_file c) = Written -> good_store (open_sts (sts_file c)) ->
  steady_store s -> pending (sts_file c) s -> every_group_valid s ->
  (forall key held, bt_get key (memory c) = Some held ->
     read_policy s key = Some (held_cached held) /\ (unsaved held = None \/ is_live (held_cached held) now = true)) ->
  (forall key, is_sts_group_key key = true -> bt_get key m = read_policy s key) ->
  mirrors (persist_sts_settings s c now true) m.
Proof.
  intros Hm Hb Ho Hs Hp Hg Hmem Hpol. unfold persist_sts_settings. cbv zeta. rw Hb drop_invalid_none //.
  assert (Hr : forall e, e ∈ memory c -> read_policy s e.1 = Some (held_cached e.2)).
  { intros [key held] Hin. apply (Hmem key held). apply bt_elem_get; [apply Hm|done]. }
  destruct (merge_memory_policies s (memory c) now (proj2 Hm) Hr Hg) as [Hg' Hr'].
  pose proof (merge_memory_steady (memory c) now false Hm s Hs) as Hs'. pose proof (merge_memory_pending (memory c) now false _ s Hp) as [Hd' Ho'].
  set (merged := merge_memory_into_settings s (memory c) now false) in *.
  destruct (sync_reopens open_sts merged (sts_file c) open_sts_reader) as (s2 & node' & -> & Hb' & Hopen); [by destruct Hs'|done..|].
  rw bool_decide_eq_true_2 //.
  assert (Hsame : same_answers merged (open_sts node')) by (intros path; rw Hopen; apply settled_get, Hs').
  assert (Hread : forall key, is_sts_group_key key = true -> read_policy (open_sts node') key = read_policy s key).
  { intros key Hk. rw (same_policy merged) //. by apply Hr'. }
  split.
  - eapply memory_ok_keys; [|exact Hm]. symmetry. apply (bt_keys_map (fun _ => settle_held now)).
  - intros key held. rw settle_written_get. cbn [sts_file settle_written]. intros E.
    destruct (bt_get key (memory c)) as [held0|] eqn:E0.
    2: { cbn in E. by rw E0 in E. }
    assert (held = settle_held now held0) as ->. { cbn in E. rw E0 in E. cbn in E. congruence. }
    destruct (Hmem key held0 E0) as [Hr0 Hu]. change (sts_file _) with node'.
    assert (held_cached (settle_held now held0) = held_cached held0) as -> by (unfold settle_held; by case_match).
    split; [unfold settle_held; destruct Hu as [Hu| ->]; [by case_match|done]|]. rw Hread //.
    apply bt_get_elem in E0. exact (proj1 (Forall_forall _ _) (proj2 Hm) _ E0).
  - exact Hb'.
  - apply (same_good merged); [done|apply open_sts_table|by destruct Hs'].
  - by apply (same_groups merged).
  - intros key Hk. change (sts_file _) with node'. rw Hread //. by apply Hpol.
Qed.

(** *** The operations *)

Lemma mirrors_unsaved c m e : mirrors c m -> e ∈ memory c -> unsaved e.2 = None.
Proof.
  intros Hc Hin. destruct e as [key held]. apply (mi_saved _ _ Hc key held). apply bt_elem_get; [apply (mi_memory _ _ Hc)|done].
Qed.

(** Nothing is unsaved, so opening the file settles nothing. *)
Lemma open_settled c now : (forall e, e ∈ memory c -> unsaved e.2 = None) -> open_store c now = (open_sts (sts_file c), c).
Proof.
  intros H. unfold open_store. f_equal. destruct c as [mem node]. cbn [memory sts_file] in *.
  assert (fmap (M:=list) (settle_view node (open_sts node) now) mem = mem) as E; [|by cbn; rw E].
  transitivity (fmap (M:=list) id mem); [|apply list_fmap_id]. apply list_fmap_ext. intros i [key held] Hin%list_elem_of_lookup_2.
  specialize (H _ Hin). cbn in H. unfold settle_view. by rw H.
Qed.

Lemma mirrors_open c m now : mirrors c m -> open_store c now = (open_sts (sts_file c), c).
Proof. intros Hc. apply open_settled. intros e. by apply (mirrors_unsaved _ m). Qed.

Lemma remove_group_dirty s key : key <> [] -> key ∈ child_groups s [] -> dirty (remove_group s key) = true.
Proof.
  intros Hne [_ [rest Hin]]%child_groups_elem. unfold remove_group. destruct key as [|c key]; [done|]. cbn [is_empty dirty update].
  apply orb_true_iff. right. apply negb_true_iff, Nat.eqb_neq. cbn [group_prefix is_empty app] in Hin.
  apply list_elem_of_fmap in Hin as ([path v] & E & Hin). cbn in E. unfold bt_retain.
  pose proof (length_filter_lt (fun e : str * IniValue => negb (in_group (c :: key) e.1) = true) _ _ Hin) as Hlt.
  apply Nat.lt_neq, Hlt. cbn [fst]. rw negb_true_iff not_false_iff_true. apply in_group_spec. right. exists rest. by rw -E.
Qed.

Lemma remove_group_child s group key : group <> [] -> key ∈ child_groups (remove_group s group) [] -> key ∈ child_groups s [].
Proof.
  intros Hg [Hs [rest Hin]]%child_groups_get. apply child_groups_get. split; [done|]. exists rest. rw remove_group_get // in Hin.
  case_match; [by destruct Hin|done].
Qed.

Lemma read_policy_remove_key s key key' :
  is_sts_group_key key = true -> is_sts_group_key key' = true -> key <> key' -> read_policy (remove_group s key) key' = read_policy s key'.
Proof.
  intros Hk%sts_key_name Hk'%sts_key_name Hne. apply read_policy_remove_ne; [done|apply Hk|apply Hk|done].
Qed.

Lemma mirrors_remove c m key now :
  mirrors c m -> is_sts_group_key key = true -> mirrors (remove_policy c key now true) (bt_remove key m).
Proof.
  intros Hc Hk. pose proof (sts_key_name key Hk) as Hn. unfold remove_policy. cbv zeta.
  set (c1 := c <| memory := bt_remove key (memory c) |>).
  assert (Hmem : memory_ok (memory c1)).
  { destruct (mi_memory _ _ Hc) as [Ht Hf]. split; [by apply table_remove|by apply bt_remove_Forall]. }
  assert (Hget : forall k held, bt_get k (memory c1) = Some held -> k <> key /\ unsaved held = None /\ read_policy (open_sts (sts_file c)) k = Some (held_cached held)).
  { intros k held E. change (memory c1) with (bt_remove key (memory c)) in E. split; [intros ->; by rw bt_get_remove in E|].
    apply bt_get_remove_Some in E. by apply (mi_saved _ _ Hc). }
  rw open_settled. { intros [k held] Hin. apply (Hget k held). apply bt_elem_get; [apply Hmem|done]. }
  change (sts_file c1) with (sts_file c). destruct (has_group (open_sts (sts_file c)) key) eqn:Eg; cbn [negb].
  - apply has_group_spec in Eg. apply persist_mirrors; try done.
    + apply Hc.
    + apply Hc.
    + apply remove_group_steady. split; [apply Hc|apply open_sts_settled].
    + split; [apply remove_group_dirty; [apply Hn|done]|done].
    + intros group Hin. assert (Hne : key <> group).
      { intros <-. apply child_groups_get in Hin as [_ [rest Hin]]. rw remove_group_get in Hin; [apply Hn|].
        rw (proj2 (in_group_spec _ _)) in Hin; [by right; exists rest|by destruct Hin]. }
      apply remove_group_child in Hin; [|apply Hn]. destruct (mi_groups _ _ Hc group Hin) as [H1 H2]. split; [done|].
      by rw read_policy_remove_key.
    + intros k held E. destruct (Hget k held E) as (Hne & Hu & Hr). split; [|by left]. apply bt_get_elem in E.
      pose proof (proj1 (Forall_forall _ _) (proj2 Hmem) _ E) as Hkk. cbn in Hkk.
      rw read_policy_remove_key //.
    + intros k Hkk. destruct (decide (key = k)) as [<-|Hne]; [by rw bt_get_remove read_policy_removed|].
      rw bt_get_remove_ne // read_policy_remove_key //. by apply (mi_policies _ _ Hc).
  - split; try done; try apply Hc.
    + intros k held E. by destruct (Hget k held E) as (_ & ? & ?).
    + intros k Hkk. destruct (decide (key = k)) as [<-|Hne].
      * rw bt_get_remove. symmetry. destruct (read_policy _ key) as [c0|] eqn:E; [|done].
        exfalso. apply (read_policy_has_group _ _ _ Hn) in E. apply has_group_spec in E. change (sts_file c1) with (sts_file c) in E. congruence.
      * rw bt_get_remove_ne //. by apply (mi_policies _ _ Hc).
Qed.

Lemma mirrors_set c m key cached view now :
  mirrors c m -> is_sts_group_key key = true -> cached_ok cached -> is_live cached now = true ->
  mirrors (persist_sts_settings (merge_sts_policy (open_sts (sts_file c)) key cached) (remember c key cached view) now true)
    (bt_insert key cached m).
Proof.
  intros Hc Hk Hok Hlive. pose proof (sts_key_name key Hk) as Hn. apply persist_mirrors.
  - apply remember_ok; [done|apply Hc].
  - apply Hc.
  - apply Hc.
  - apply merge_steady; [done|]. split; [apply Hc|apply open_sts_settled].
  - by apply merge_pending.
  - apply merge_groups; [done|done|apply Hc].
  - intros k held. change (memory (remember c key cached view)) with (bt_insert key (mkRemembered cached view) (memory c)).
    destruct (decide (key = k)) as [<-|Hne].
    + rw bt_get_insert. intros [= <-]. split; [by apply read_policy_merge|by right].
    + rw bt_get_insert_ne //. intros E. destruct (mi_saved _ _ Hc k held E) as [Hu Hr]. split; [|by left].
      apply bt_get_elem in E. pose proof (proj1 (Forall_forall _ _) (proj2 (mi_memory _ _ Hc)) _ E) as Hkk. cbn in Hkk.
      rw read_policy_merge_ne //; by apply sts_key_name.
  - intros k Hkk. destruct (decide (key = k)) as [<-|Hne]; [by rw bt_get_insert read_policy_merge|].
    rw bt_get_insert_ne // read_policy_merge_ne //; [by apply sts_key_name|]. by apply (mi_policies _ _ Hc).
Qed.

(** The calls a session makes of its store. *)
Inductive StsOp :=
| OpStore (host : str) (port : N) (duration : Z) (now clock : Time)
| OpRefresh (host : str) (duration : Z) (now : Time)
| OpClear (host : str) (clock : Time)
| OpLookup (host : str) (now : Time).

(** The types of the arguments, and a clock that has not run out. *)
Definition op_ok (op : StsOp) : Prop :=
  match op with
  | OpStore _ port duration now _ => port <= u16_max /\ (0 <= duration <= i64_max)%Z /\ (0 <= timestamp now < i64_max)%Z
  | OpRefresh _ _ now => (0 <= timestamp now < i64_max)%Z
  | OpClear _ _ | OpLookup _ _ => True
  end.

Section Refinement.
Context `{platform : Platform} `{crypto : Crypto}.

Definition mem_op (m : StsStore) (op : StsOp) : StsStore * option StsCached :=
  match op with
  | OpStore host port duration now _ => (sts_store m host port duration now, None)
  | OpRefresh host duration now => (sts_refresh m host duration now, None)
  | OpClear host _ => (sts_clear m host, None)
  | OpLookup host now => sts_lookup m host now
  end.

Definition ini_op (lands : bool) (c : IniStsStore) (op : StsOp) : IniStsStore * option StsCached :=
  match op with
  | OpStore host port duration now clock => (ini_store c host port duration now clock lands, None)
  | OpRefresh host duration now => (ini_refresh c host duration now lands, None)
  | OpClear host clock => (ini_clear c host clock lands, None)
  | OpLookup host now => ini_lookup c host now lands
  end.

(** The answers of a run of calls. *)
Fixpoint answers {S} (step : S -> StsOp -> S * option StsCached) (s : S) (ops : list StsOp) : list (option StsCached) :=
  match ops with
  | [] => []
  | op :: ops => let '(s, answer) := step s op in answer :: answers step s ops
  end.

Context (Hdigest : Digest32).

Lemma host_key host key : sts_group_key host = Some key -> is_sts_group_key key = true.
Proof using Hdigest. apply sts_group_key_accepted. exact Hdigest. Qed.

Lemma clear_mirrors c m host clock : mirrors c m -> mirrors (ini_clear c host clock true) (sts_clear m host).
Proof using Hdigest.
  intros Hc. unfold ini_clear, sts_clear. destruct (sts_group_key host) as [key|] eqn:E; [|done].
  apply mirrors_remove; [done|by eapply host_key].
Qed.

Lemma fresh_policy now duration :
  (0 <= timestamp now < i64_max)%Z -> (1 <= duration <= i64_max)%Z ->
  (timestamp now < saturating_add (timestamp now) duration)%Z /\ (1 <= saturating_add (timestamp now) duration <= i64_max)%Z.
Proof using Type. unfold saturating_add, i64_min, i64_max. lia. Qed.

Lemma store_mirrors c m host port duration now clock :
  mirrors c m -> op_ok (OpStore host port duration now clock) ->
  mirrors (ini_store c host port duration now clock true) (sts_store m host port duration now).
Proof using Hdigest.
  intros Hc (Hp & Hd & Ht). unfold ini_store, sts_store. destruct (Z.eqb_spec duration 0) as [|Hd0]; [by apply clear_mirrors|].
  destruct (sts_group_key host) as [key|] eqn:E; [|done]. destruct (N.eqb_spec port 0) as [|Hp0]; [done|]. cbv zeta.
  rw (mirrors_open _ m _ Hc). destruct (fresh_policy now duration) as [H1 H2]; [done|lia|]. apply mirrors_set; [done|by eapply host_key| |].
  - unfold cached_ok. cbn [cached_port cached_duration expiry_epoch_seconds]. lia.
  - by apply Z.ltb_lt.
Qed.

Lemma mirrors_no_unsaved c m key : mirrors c m -> unsaved_entry c key = None.
Proof using Type.
  intros Hc. unfold unsaved_entry. destruct (bt_get key (memory c)) as [held|] eqn:E; [|done].
  destruct (mi_saved _ _ Hc key held E) as [Hu _]. cbn. unfold is_unsaved. by rw Hu.
Qed.

Lemma mirrors_view c m key : mirrors c m -> policy (file_view (sts_file c) (open_sts (sts_file c)) key) = read_policy (open_sts (sts_file c)) key.
Proof using Type.
  intros Hc. unfold file_view. rw bool_decide_eq_false_2; [apply written_probe, Hc|]. destruct (read_policy _ key); [done|]. by case_match.
Qed.

Lemma refresh_mirrors c m host duration now :
  mirrors c m -> op_ok (OpRefresh host duration now) -> mirrors (ini_refresh c host duration now true) (sts_refresh m host duration now).
Proof using Hdigest.
  intros Hc Ht. unfold ini_refresh, sts_refresh. destruct (sts_group_key host) as [key|] eqn:E; [|done]. cbv zeta.
  rw (mirrors_open _ m _ Hc) (mirrors_no_unsaved _ m) // (mirrors_view _ m) //. cbn [fmap option_fmap option_map].
  pose proof (host_key host key E) as Hk. rw (mi_policies _ _ Hc key Hk).
  destruct (read_policy _ key) as [cached|] eqn:Er; [|done]. destruct (Z.eqb_spec (cached_duration cached) duration) as [<-|]; cbn [negb]; [|done].
  destruct (read_policy_ok _ _ _ Er) as (Hp & Hd & He). destruct (fresh_policy now (cached_duration cached)) as [H1 H2]; [done|done|].
  apply mirrors_set; [done|done| |by apply Z.ltb_lt]. unfold cached_ok. cbn. lia.
Qed.

Lemma lookup_mirrors c m host now :
  mirrors c m -> mirrors (ini_lookup c host now true).1 (sts_lookup m host now).1 /\ (ini_lookup c host now true).2 = (sts_lookup m host now).2.
Proof using Hdigest.
  intros Hc. unfold ini_lookup, sts_lookup. destruct (sts_group_key host) as [key|] eqn:E; [|done]. cbv zeta.
  rw (mirrors_open _ m _ Hc) (mirrors_no_unsaved _ m) // (mirrors_view _ m) //. cbn [live_held mbind option_bind].
  pose proof (host_key host key E) as Hk. rw (mi_policies _ _ Hc key Hk).
  destruct (read_policy (open_sts (sts_file c)) key) as [cached|] eqn:Er.
  - assert (Hl : (expiry_epoch_seconds cached <=? timestamp now)%Z = negb (is_live cached (timestamp now))).
    { unfold is_live. by rw Z.leb_antisym. }
    rw Hl. cbn [mbind option_bind]. destruct (is_live cached (timestamp now)) eqn:Elive; cbn [negb].
    + split; [|done]. destruct Hc. split; try done; cbn [fst].
      * by apply remember_ok.
      * intros k held. change (memory (remember c key cached None)) with (bt_insert key (mkRemembered cached None) (memory c)).
        destruct (decide (key = k)) as [<-|Hne]; [rw bt_get_insert; by intros [= <-]|]. rw bt_get_insert_ne //. apply mi_saved0.
    + assert (live_held (bt_get key (memory c)) (timestamp now) = None) as ->.
      { destruct (bt_get key (memory c)) as [held|] eqn:Eg; [|done]. destruct (mi_saved _ _ Hc key held Eg) as [_ Hr].
        assert (held_cached held = cached) as E2 by congruence. cbn [live_held mbind option_bind]. by rw E2 Elive. }
      destruct (read_policy_contains _ _ _ Er) as [-> ->]. cbn [andb fst snd]. split; [by apply mirrors_remove|done].
  - cbn [mbind option_bind]. assert (live_held (bt_get key (memory c)) (timestamp now) = None) as ->.
    { destruct (bt_get key (memory c)) as [held|] eqn:Eg; [|done]. destruct (mi_saved _ _ Hc key held Eg) as [_ Hr]. congruence. }
    destruct (contains_key _ key PORT_KEY) eqn:Ep; cbn [andb]; [|done]. exfalso.
    apply contains_has_group in Ep; [|by apply sts_key_name]. by apply (mi_groups _ _ Hc) in Ep as [_ ?].
Qed.

Lemma mirrors_new : mirrors (new_sts_store Missing) [].
Proof using Type.
  split.
  - split; [apply table_nil|constructor].
  - done.
  - done.
  - split; [apply table_nil|constructor].
  - intros group Hin. by apply elem_of_nil in Hin.
  - done.
Qed.

(** C19: while every write lands, the policy file answers as the in-memory cache of the session
    does: whatever calls are made in whatever order, at whatever times, every lookup gets the
    same answer from both. *)
Theorem sts_file_refines_cache ops :
  Forall op_ok ops -> answers (ini_op true) (new_sts_store Missing) ops = answers mem_op [] ops.
Proof using Hdigest.
  assert (Hgen : forall c m, mirrors c m -> Forall op_ok ops -> answers (ini_op true) c ops = answers mem_op m ops); [|by apply Hgen, mirrors_new].
  induction ops as [|op ops IH]; intros c m Hc; [done|]. intros [Hop Hops]%Forall_cons. cbn [answers].
  assert (Hstep : mirrors (ini_op true c op).1 (mem_op m op).1 /\ (ini_op true c op).2 = (mem_op m op).2).
  { destruct op; cbn [ini_op mem_op fst snd].
    - split; [by apply store_mirrors|done].
    - split; [by apply refresh_mirrors|done].
    - split; [by apply clear_mirrors|done].
    - by apply lookup_mirrors. }
  destruct (ini_op true c op) as [c' a], (mem_op m op) as [m' a']. cbn in Hstep. destruct Hstep as [Hm ->]. f_equal. by apply IH.
Qed.
End Refinement.

Lemma sts_file_refines_cache_witness :
  let ops := [OpStore (lit "irc.example") 6697 60 0 0; OpRefresh (lit "irc.example") 60 (from_secs 30); OpLookup (lit "irc.example") (from_secs 80);
    OpLookup (lit "irc.example") (from_secs 90)] in
  answers (@ini_op toy_platform digest_crypto true) (new_sts_store Missing) ops = [None; None; Some (mkCached 6697 60 90); None].
Proof.
  intros ops. etransitivity; [apply (@sts_file_refines_cache toy_platform digest_crypto digest_crypto_32 ops)|reflexivity].
  repeat constructor; by vm_compute.
Defined.

(** ** Whatever becomes of the writes *)

(** What every call keeps: the names of the memory, and a file whose values can be saved. *)
Definition store_ok (c : IniStsStore) : Prop := memory_ok (memory c) /\ good_store (open_sts (sts_file c)).

Lemma persist_file s c now lands :
  sts_file (persist_sts_settings s c now lands) = sts_file c \/
  write_blocked (sts_file c) <> AccessError /\ lands = true /\ exists recovery,
    sts_file (persist_sts_settings s c now lands)
    = written_node (encode (merge_memory_into_settings (drop_invalid_groups s) (memory c) now recovery)).
Proof.
  unfold persist_sts_settings. cbv zeta. assert (Hsync : forall merged, write_blocked (sts_file c) <> AccessError ->
    let '(_, node, status) := sync merged (sts_file c) lands in node = sts_file c \/ lands = true /\ node = written_node (encode merged)).
  { intros merged _. unfold sync. cbv zeta. destruct lands; repeat case_match; simplify_eq; auto. }
  destruct (write_blocked (sts_file c)) eqn:Eb; [| |by left|].
  3: { destruct (file_not_writable _); [by left|]. destruct lands; [right|by left]. split_and!; [done|done|by exists true]. }
  all: specialize (Hsync (merge_memory_into_settings (drop_invalid_groups s) (memory c) now false) ltac:(done));
    destruct (sync _ _ _) as [[s' node] status]; case_match; cbn;
    (destruct Hsync as [->|[-> ->]]; [by left|right; split_and!; [done|done|by exists false]]).
Qed.

Lemma persist_keys s c now lands : bt_keys (memory (persist_sts_settings s c now lands)) = bt_keys (memory c).
Proof.
  assert (Hset : forall c', memory c' = memory c -> bt_keys (memory (settle_written c' now)) = bt_keys (memory c)).
  { intros c' <-. apply (bt_keys_map (fun _ => settle_held now)). }
  unfold persist_sts_settings. cbv zeta. destruct (write_blocked (sts_file c)); [| |done|].
  3: { destruct (file_not_writable _); [done|]. destruct lands; [by apply Hset|done]. }
  all: destruct (sync _ _ _) as [[s' node] status]; case_match; [by apply Hset|done].
Qed.

Lemma persist_ok s c now lands : store_ok c -> steady_store s -> store_ok (persist_sts_settings s c now lands).
Proof.
  intros [Hm Ho] Hs. split; [by eapply memory_ok_keys; [symmetry; apply persist_keys|]|].
  destruct (persist_file s c now lands) as [->|(_ & _ & recovery & ->)]; [done|].
  pose proof (merge_memory_steady (memory c) now recovery Hm _ (drop_invalid_steady s Hs)) as [Hg Hse].
  apply (same_good (merge_memory_into_settings (drop_invalid_groups s) (memory c) now recovery)); [|apply open_sts_table|done].
  intros path. rw open_sts_written //. by apply settled_get.
Qed.

Section Reachable.
Context `{platform : Platform} `{crypto : Crypto}.
Context (Hdigest : Digest32).

Lemma open_ok c now : store_ok c -> store_ok (open_store c now).2.
Proof using Type. intros [Hm Ho]. split; [by apply open_memory_ok|done]. Qed.

Lemma remember_store_ok c key cached view : is_sts_group_key key = true -> store_ok c -> store_ok (remember c key cached view).
Proof using Type. intros Hk [Hm Ho]. split; [by apply remember_ok|done]. Qed.

Lemma open_steady c : store_ok c -> steady_store (open_sts (sts_file c)).
Proof using Type. intros [_ Ho]. split; [done|apply open_sts_settled]. Qed.

(** A call leaves the file alone, or ends in a write of a table that can be read back. *)
Inductive call_result (lands : bool) (c : IniStsStore) : IniStsStore -> Prop :=
| call_keeps c' : store_ok c' -> sts_file c' = sts_file c -> call_result lands c c'
| call_writes s c1 now :
    steady_store s -> store_ok c1 -> sts_file c1 = sts_file c -> call_result lands c (persist_sts_settings s c1 now lands).

Lemma remove_policy_result c key now lands : store_ok c -> call_result lands c (remove_policy c key now lands).
Proof using Type.
  intros Hc. unfold remove_policy. cbv zeta. set (c1 := c <| memory := bt_remove key (memory c) |>).
  assert (H1 : store_ok c1).
  { destruct Hc as [[Ht Hf] Ho]. split; [|done]. split; [by apply table_remove|by apply bt_remove_Forall]. }
  pose proof (open_ok c1 now H1) as H2. destruct (open_store c1 now) as [s c2] eqn:Eo. cbn [snd] in H2.
  assert (Hfile : sts_file c2 = sts_file c) by by injection Eo as _ <-. injection Eo as <- _.
  case_match; [by apply call_keeps|]. apply call_writes; [|done|done]. by apply remove_group_steady, open_steady.
Qed.

Lemma set_policy_result c c1 key cached view now lands :
  is_sts_group_key key = true -> store_ok c -> store_ok c1 -> sts_file c1 = sts_file c ->
  call_result lands c (persist_sts_settings (merge_sts_policy (open_sts (sts_file c)) key cached) (remember c1 key cached view) now lands).
Proof using Type.
  intros Hk Hc H1 Hfile. apply call_writes; [|by apply remember_store_ok|done].
  apply merge_steady; [by apply sts_key_name|by apply open_steady].
Qed.

Lemma ini_op_result lands c op : store_ok c -> call_result lands c (ini_op lands c op).1.
Proof using Hdigest.
  intros Hc. assert (Hclear : forall host clock, call_result lands c (ini_clear c host clock lands)).
  { intros host clock. unfold ini_clear. case_match; [by apply remove_policy_result|by apply call_keeps]. }
  assert (Hopen : forall now, (open_store c now).1 = open_sts (sts_file c) /\ store_ok (open_store c now).2 /\ sts_file (open_store c now).2 = sts_file c).
  { intros now. split_and!; [done|by apply open_ok|done]. }
  destruct op as [host port duration now clock|host duration now|host clock|host now]; cbn [ini_op fst]; [| |done|].
  - unfold ini_store. case_match; [apply Hclear|]. destruct (sts_group_key host) as [key|] eqn:E; [|by apply call_keeps].
    case_match; [by apply call_keeps|]. cbv zeta. pose proof (host_key Hdigest host key E) as Hk.
    destruct (Hopen (timestamp now)) as (H1 & H2 & H3). destruct (open_store c (timestamp now)) as [s c1]. cbn [fst snd] in *. subst s.
    by apply set_policy_result.
  - unfold ini_refresh. destruct (sts_group_key host) as [key|] eqn:E; [|by apply call_keeps]. cbv zeta.
    pose proof (host_key Hdigest host key E) as Hk.
    destruct (Hopen (timestamp now)) as (H1 & H2 & H3). destruct (open_store c (timestamp now)) as [s c1]. cbn [fst snd] in *. subst s.
    destruct (held_cached <$> unsaved_entry c1 key) as [cached|]; [|destruct (policy _) as [cached|]; [|by apply call_keeps]];
      (case_match; [by apply call_keeps|by apply set_policy_result]).
  - unfold ini_lookup. destruct (sts_group_key host) as [key|] eqn:E; [|by apply call_keeps]. cbv zeta.
    pose proof (host_key Hdigest host key E) as Hk.
    destruct (Hopen (timestamp now)) as (H1 & H2 & H3). destruct (open_store c (timestamp now)) as [s c1]. cbn [fst snd] in *. subst s.
    assert (Hremove : call_result lands c (remove_policy c1 key (timestamp now) lands)).
    { destruct (remove_policy_result c1 key (timestamp now) lands H2) as [c' Hc' E'|s c2 t Hs Hc2 E2].
      - apply call_keeps; [done|congruence].
      - apply call_writes; [done|done|congruence]. }
    repeat (case_match; try exact Hremove); try (by apply call_keeps); (apply call_keeps; [by apply remember_store_ok|done]).
Qed.

Lemma ini_op_ok lands c op : store_ok c -> store_ok (ini_op lands c op).1.
Proof using Hdigest. intros Hc. destruct (ini_op_result lands c op Hc); [done|by apply persist_ok]. Qed.

(** A history of calls, each with what became of its write. *)
Definition run_ops (c : IniStsStore) (history : list (StsOp * bool)) : IniStsStore :=
  foldl (fun c call => (ini_op call.2 c call.1).1) c history.

Lemma run_ops_ok c history : store_ok c -> store_ok (run_ops c history).
Proof using Hdigest. intros Hc. apply (foldl_invariant _ store_ok); [|done]. intros c' call _. by apply ini_op_ok. Qed.


End Reachable.



(** A key of the file that begins with a slash makes a group without a name; dropping that group
    clears the table, and the next write takes every policy out of the file. *)
Example nameless_group_drops_policies :
  let stored := (@ini_op toy_platform digest_crypto true (new_sts_store Missing) (OpStore (lit "irc.example") 6697 60 0 0)).1 in
  let line := [10] ++ lit "[General]" ++ [10] ++ lit "\x=1" ++ [10] in
  let edited := match sts_file stored with File contents r w o => File (contents ++ line) r w o | node => node end in
  let c := new_sts_store edited in
  (@ini_lookup toy_platform digest_crypto c (lit "irc.example") 0 true).2 = Some (mkCached 6697 60 60) /\
  let c' := (@ini_op toy_platform digest_crypto true c (OpStore (lit "irc.other") 6697 60 0 0)).1 in
  (@ini_lookup toy_platform digest_crypto c' (lit "irc.example") 0 true).2 = None.
Proof. vm_compute. split; reflexivity. Qed.
