(* ===== verification/Lists.v ===== *)
(** * Lists: where a store is kept, and the per-network lists
    (src/client/src/storage/mod.rs, lists.rs, opendirect.rs)

    The settings file, or nothing at all. Every store reads the file afresh and edits it as a
    whole; whether the write of an edit lands is its last argument.

    Ignored and monitored nicks, mutes, highlight words, closed channels and open queries: an
    insertion-ordered list per network, compared through the network's case mapping. A store
    saves its lists to a [ListBacking] after each change; the one of the settings file writes
    one string list per network. *)

From S2P Require Import Prelude Text OrdMap SessionTypes CaseMapping SettingsIni SettingsValues Settings SettingsAccess SettingsLines SettingsFile SettingsProperties.

(** ** The backing *)

(** [Disk] holds what the path names. *)
Inductive Backing := Disk (node : Node) | Ephemeral.

Definition is_ephemeral (b : Backing) : bool := match b with Ephemeral => true | Disk _ => false end.

Definition backing_settings (b : Backing) : Settings :=
  match b with Disk node => open_settings node | Ephemeral => open_settings Missing end.

(** [Backing::edit] *)
Definition edit (b : Backing) (change : Settings -> Settings) (lands : bool) : Backing * Status :=
  let settings := change (backing_settings b) in
  match b with
  | Ephemeral => (b, Written)
  | Disk node => let '(_, node, status) := sync settings node lands in (Disk node, status)
  end.

(** *** An edit of the settings file (src/client/src/storage/mod.rs)

    An edit is a sequence of writes to the table that was loaded. When its write lands, the file
    opens as the edited table; when it is refused, nothing has changed. *)

(** The table after some writes: it can be saved, and it is marked when it has changed. *)
Definition edited (loaded s : Settings) : Prop :=
  good_store s /\ on_disk s = on_disk loaded /\ (dirty s = true \/ same_answers loaded s).

Lemma edited_refl s : good_store s -> edited s s.
Proof. intros Hs. split_and!; [done|done|by right]. Qed.

Lemma edited_put loaded s path v : storable path = true -> scalar_value v = true -> edited loaded s -> edited loaded (put s path v).
Proof.
  intros Hp Hv ([Ht Hg] & Hd & _). split_and!; [split; [by apply put_table|by apply bt_insert_Forall]|done|by left].
Qed.

Lemma good_filter s (p : str -> bool) :
  good_store s -> good_store (s <| values := bt_retain (fun path _ => p path) (values s) |>).
Proof.
  intros [Ht Hg]. split; [by apply table_retain|]. apply Forall_forall. intros e [_ He]%list_elem_of_filter.
  exact (proj1 (Forall_forall _ _) Hg _ He).
Qed.

Lemma filter_same_length {A} (P : A -> Prop) `{!forall x, Decision (P x)} (l : list A) :
  length (base.filter P l) = length l -> base.filter P l = l.
Proof.
  intros E. apply list_filter_all, Forall_forall. intros x Hx. destruct (decide (P x)) as [|Hn]; [done|].
  pose proof (length_filter_lt P l x Hx Hn). lia.
Qed.

Lemma edited_remove_group loaded s group : group <> [] -> edited loaded s -> edited loaded (remove_group s group).
Proof.
  intros Hne (Hg & Hd & Hor). unfold remove_group. destruct group as [|c group]; [done|]. cbn [is_empty].
  set (p := fun path : str => negb (in_group (c :: group) path)). split_and!.
  - exact (good_filter s p Hg).
  - done.
  - cbn [dirty values update]. destruct Hor as [->|Hsame]; [by left|].
    destruct (Nat.eqb_spec (length (bt_retain (fun path _ => p path) (values s))) (length (values s))) as [E|E].
    + right. intros path. cbn. unfold bt_retain in *. apply filter_same_length in E. fold p. rw E. apply Hsame.
    + left. cbn. fold p. rw (proj2 (Nat.eqb_neq _ _) E). apply orb_true_r.
Qed.

Lemma edited_remove_key loaded s group key : edited loaded s -> edited loaded (remove_key s group key).
Proof.
  intros (Hg & Hd & Hor). unfold remove_key. cbv zeta. case_match; [|done]. split_and!; [|done|by left]. destruct Hg as [Ht Hf].
  split; [by apply table_remove|by apply bt_remove_Forall].
Qed.

(** A write that lands leaves a file that opens as the edited table. *)
Lemma edit_lands node change :
  good_store (open_settings node) -> write_blocked node = Written -> edited (open_settings node) (change (open_settings node)) ->
  exists node', edit (Disk node) change true = (Disk node', Written) /\ write_blocked node' = Written /\ good_store (open_settings node') /\
    forall path, bt_get path (values (open_settings node')) = reread <$> bt_get path (values (change (open_settings node))).
Proof.
  intros Ho Hb (Hg & Hd & Hor). unfold edit. cbn [backing_settings]. set (s := change (open_settings node)) in *.
  assert (Hfin : forall node', write_blocked node' = Written ->
    (forall path, bt_get path (values (open_settings node')) = reread <$> bt_get path (values s)) -> good_store (open_settings node')).
  { intros node' _ H. destruct (rd_table _ open_settings_reader node') as [Hord Hnd]. split; [done|]. apply Forall_forall.
    intros [path v] Hin. apply (bt_elem_get _ _ _ Hnd) in Hin. rw H in Hin. destruct (bt_get path (values s)) as [v0|] eqn:E; [|done].
    cbn in Hin. injection Hin as <-. apply bt_get_elem in E. pose proof (proj1 (Forall_forall _ _) (proj2 Hg) _ E) as [H1 H2].
    split; [done|]. by apply reread_scalar. }
  destruct (dirty s) eqn:Edirty.
  - destruct (sync_reopens open_settings s node open_settings_reader) as (s' & node' & -> & Hb' & H); [done..|].
    exists node'. split_and!; [done|done| |done]. by apply Hfin.
  - destruct Hor as [|Hsame]; [done|]. unfold sync. rw bool_decide_eq_true_2 // Edirty. cbn [negb]. exists node.
    split_and!; [done|done|done|]. intros path. rw Hsame. symmetry. apply settled_get, (rd_settled _ open_settings_reader).
Qed.

(** ** The lists *)


(** [Backed] is the backing a store owns, [Kept] what it is kept in: several stores share it. *)
Class ListBacking := {
  Backed : Type;
  Kept : Type;
  backing_load : Backed -> Kept -> btree (list str);
  backing_save : Backed -> btree (list str) -> Kept -> Kept;
}.

(** Whether any of [values] equals [value] under the mapping. *)
Definition contains_value (values : list str) (value : str) (mapping : IrcCaseMapping) : bool :=
  existsb (fun candidate => equals mapping candidate value) values.

Section Store.
Context `{list_backing : ListBacking}.

Record CaseListStore := mkCaseListStore { lists : btree (list str); backed : Backed }.
#[export] Instance case_list_store_eta : Eta CaseListStore := fun s => mkCaseListStore (lists s) (backed s).

Definition new_list_store (b : Backed) (kept : Kept) : CaseListStore := mkCaseListStore (backing_load b kept) b.

Definition persist (s : CaseListStore) (kept : Kept) : Kept := backing_save (backed s) (lists s) kept.

(** The store with other lists, saved. *)
Definition changed (s : CaseListStore) (l : btree (list str)) (kept : Kept) : CaseListStore * Kept * bool :=
  let s := s <| lists := l |> in (s, persist s kept, true).

Definition entries (s : CaseListStore) (network : str) : list str :=
  if is_empty network then [] else default [] (bt_get network (lists s)).

Definition list_once (mapping : IrcCaseMapping) (unique : list str) (value : str) : list str :=
  if contains_value unique value mapping then unique else unique ++ [value].

Definition listed (s : CaseListStore) (network : str) (mapping : IrcCaseMapping) : list str :=
  foldl (list_once mapping) [] (entries s network).

Definition list_contains (s : CaseListStore) (network value : str) (mapping : IrcCaseMapping) : bool :=
  if is_empty network || is_empty value then false else contains_value (entries s network) value mapping.

Definition list_add (s : CaseListStore) (network value : str) (mapping : IrcCaseMapping) (kept : Kept) : CaseListStore * Kept * bool :=
  if is_empty network || is_empty value then (s, kept, false)
  else
    let current := default [] (bt_get network (lists s)) in
    if contains_value current value mapping then (s, kept, false)
    else changed s (bt_insert network (current ++ [value]) (lists s)) kept.

Definition list_remove (s : CaseListStore) (network value : str) (mapping : IrcCaseMapping) (kept : Kept) : CaseListStore * Kept * bool :=
  if is_empty network || is_empty value then (s, kept, false)
  else
    let?? current := bt_get network (lists s) else (s, kept, false) in
    let rest := base.filter (fun candidate => equals mapping candidate value = false) current in
    if (length rest =? length current)%nat then (s, kept, false)
    else changed s (if is_empty rest then bt_remove network (lists s) else bt_insert network rest (lists s)) kept.

Definition list_forget (s : CaseListStore) (network : str) (kept : Kept) : CaseListStore * Kept :=
  if is_empty network then (s, kept)
  else if bt_contains network (lists s) then (changed s (bt_remove network (lists s)) kept).1 else (s, kept).

Definition list_rekey (s : CaseListStore) (network old new : str) (mapping : IrcCaseMapping) (kept : Kept) : CaseListStore * Kept * bool :=
  if is_empty network || is_empty old || is_empty new then (s, kept, false)
  else
    let?? current := bt_get network (lists s) else (s, kept, false) in
    let?? index := position (fun candidate => equals mapping candidate old) current else (s, kept, false) in
    let held := default [] (current !! index) in
    if equals mapping held new then
      if str_eqb held new then (s, kept, false)
      else changed s (bt_insert network (<[index := new]> current) (lists s)) kept
    else
      let rest := delete index current in
      let rest := if contains_value rest new mapping then rest else rest ++ [new] in
      changed s (bt_insert network rest (lists s)) kept.

(** ** The open and the closed queries (opendirect.rs) *)

Record OpenDirectStore := mkOpenDirectStore { open_list : CaseListStore; dismissed_list : CaseListStore }.
#[export] Instance open_direct_eta : Eta OpenDirectStore := fun d => mkOpenDirectStore (open_list d) (dismissed_list d).

Definition on_open (f : CaseListStore -> Kept -> CaseListStore * Kept * bool) (d : OpenDirectStore) (kept : Kept) : OpenDirectStore * Kept * bool :=
  let '(l, kept, changed) := f (open_list d) kept in (d <| open_list := l |>, kept, changed).
Definition on_dismissed (f : CaseListStore -> Kept -> CaseListStore * Kept * bool) (d : OpenDirectStore) (kept : Kept) : OpenDirectStore * Kept * bool :=
  let '(l, kept, changed) := f (dismissed_list d) kept in (d <| dismissed_list := l |>, kept, changed).

Definition direct_listed (d : OpenDirectStore) (network : str) (mapping : IrcCaseMapping) : list str := listed (open_list d) network mapping.
Definition dismissed_listed (d : OpenDirectStore) (network : str) (mapping : IrcCaseMapping) : list str := listed (dismissed_list d) network mapping.
Definition direct_add (network target : str) (mapping : IrcCaseMapping) := on_open (fun l => list_add l network target mapping).
Definition direct_remove (network target : str) (mapping : IrcCaseMapping) := on_open (fun l => list_remove l network target mapping).
Definition direct_rekey (network old new : str) (mapping : IrcCaseMapping) := on_open (fun l => list_rekey l network old new mapping).
Definition dismiss (network target : str) (mapping : IrcCaseMapping) := on_dismissed (fun l => list_add l network target mapping).
Definition undismiss (network target : str) (mapping : IrcCaseMapping) := on_dismissed (fun l => list_remove l network target mapping).
Definition rekey_dismissed (network old new : str) (mapping : IrcCaseMapping) := on_dismissed (fun l => list_rekey l network old new mapping).
Definition direct_forget (network : str) (d : OpenDirectStore) (kept : Kept) : OpenDirectStore * Kept :=
  let '(open, kept) := list_forget (open_list d) network kept in
  let '(dismissed, kept) := list_forget (dismissed_list d) network kept in
  (mkOpenDirectStore open dismissed, kept).
End Store.

(** ** The settings file *)

(** Where in the settings file the lists are. *)
Record IniListBacking := mkIniListBacking { ini_group : str; ini_key : str }.

(** The backing every list of a client shares, and which of the coming writes land. *)
Record SharedFile := mkSharedFile { shared_backing : Backing; shared_lands : list bool }.

Definition load_list (s : Settings) (group key : str) (loaded : btree (list str)) (network : str) : btree (list str) :=
  let found := default [] (string_list s (group ++ lit "/" ++ network) key) in
  if is_empty found then loaded else bt_insert network found loaded.

Definition ini_load (b : IniListBacking) (file : SharedFile) : btree (list str) :=
  let settings := backing_settings (shared_backing file) in
  foldl (load_list settings (ini_group b) (ini_key b)) [] (child_groups settings (ini_group b)).

Definition save_list (group key : str) (s : Settings) (entry : str * list str) : Settings :=
  if is_empty entry.2 then s else set_string_list s (group ++ lit "/" ++ entry.1) key entry.2.

Definition write_lists (group key : str) (l : btree (list str)) (s : Settings) : Settings :=
  foldl (save_list group key) (remove_group s group) l.

Definition ini_save (b : IniListBacking) (l : btree (list str)) (file : SharedFile) : SharedFile :=
  let '(backing, _) := edit (shared_backing file) (write_lists (ini_group b) (ini_key b) l) (default true (head (shared_lands file))) in
  mkSharedFile backing (tail (shared_lands file)).

Definition ini_list_backing : ListBacking := {|
  Backed := IniListBacking;
  Kept := SharedFile;
  backing_load := ini_load;
  backing_save := ini_save;
|}.

Definition OPEN_DIRECTS_GROUP : str := lit "openDirects".
Definition DISMISSED_DIRECTS_GROUP : str := lit "dismissedDirects".
Definition TARGETS_KEY : str := lit "targets".

Definition new_open_direct_store (file : SharedFile) : @OpenDirectStore ini_list_backing :=
  @mkOpenDirectStore ini_list_backing
    (@new_list_store ini_list_backing (mkIniListBacking OPEN_DIRECTS_GROUP TARGETS_KEY) file)
    (@new_list_store ini_list_backing (mkIniListBacking DISMISSED_DIRECTS_GROUP TARGETS_KEY) file).

Example lists_example :
  let file := mkSharedFile (Disk Missing) [] in
  let store := new_open_direct_store file in
  let '(store, file, _) := @direct_add ini_list_backing (lit "net") (lit "Anna") Rfc1459 store file in
  let '(store, file, _) := @dismiss ini_list_backing (lit "net") (lit "bob") Rfc1459 store file in
  let '(store, file, _) := @direct_add ini_list_backing (lit "net") (lit "anna") Rfc1459 store file in
  let '(store, file, _) := @direct_add ini_list_backing (lit "net") (lit "dax") Rfc1459 store file in
  let restarted := new_open_direct_store file in
  @direct_listed ini_list_backing restarted (lit "net") Rfc1459 = [lit "Anna"; lit "dax"] /\
  @dismissed_listed ini_list_backing restarted (lit "net") Rfc1459 = [lit "bob"].
Proof. vm_compute. by split. Qed.
