(* ===== verification/ListsProperties.v ===== *)
(** * ListsProperties: what the per-network lists promise
    (src/client/src/storage/lists.rs)

    Under a case mapping a list is a set of folded names with an order of insertion: every
    operation is the one of that set. Every list has a group of its own in the one settings file:
    an operation whose write lands leaves a file from which the list is built again as it is in
    memory, and every other list as it was. *)

From S2P Require Import Prelude Text OrdMap SessionTypes CaseMapping Sts SettingsIni SettingsValues Settings SettingsAccess SettingsLines SettingsFile SettingsProperties Lists.

(** ** Folded names *)

Definition folded (mapping : IrcCaseMapping) (l : list str) : list str := normalize mapping <$> l.

Lemma equals_folded mapping a b : equals mapping a b = true <-> normalize mapping a = normalize mapping b.
Proof. apply str_eqb_eq. Qed.

Lemma contains_folded mapping l v : contains_value l v mapping = bool_decide (normalize mapping v ∈ folded mapping l).
Proof.
  unfold contains_value, folded. apply eq_true_iff_eq. rw bool_decide_eq_true existsb_exists. split.
  - intros (x & Hin & E%equals_folded). apply list_elem_of_fmap. exists x. split; [done|]. by apply list_elem_of_In.
  - intros (x & Hx & Hin)%list_elem_of_fmap. exists x. split; [by apply list_elem_of_In|]. by apply equals_folded.
Qed.

Lemma is_empty_false {A} (l : list A) : l <> [] -> is_empty l = false.
Proof. by destruct l. Qed.

Section Sets.
Context `{list_backing : ListBacking} (network : str) (mapping : IrcCaseMapping) (Hnetwork : network <> []).

(** The set of a network's names. *)
Definition names (s : CaseListStore) : gset str := list_to_set (folded mapping (entries s network)).

(** Each name once. *)
Definition distinct (s : CaseListStore) : Prop := NoDup (folded mapping (entries s network)).

Definition same_elsewhere (s s' : CaseListStore) : Prop := forall other, other <> network -> entries s' other = entries s other.

Lemma entries_is s : entries s network = default [] (bt_get network (lists s)).
Proof using Hnetwork. unfold entries. by rw is_empty_false. Qed.

(** The store with other entries for the network. *)
Definition put_entries (s : CaseListStore) (l : list str) : CaseListStore := s <| lists := bt_insert network l (lists s) |>.

Lemma put_entries_here s l : entries (put_entries s l) network = l.
Proof using Hnetwork. rw entries_is. cbn. by rw bt_get_insert. Qed.

Lemma put_entries_elsewhere s l : same_elsewhere s (put_entries s l).
Proof using Type. intros other Hne. unfold entries. cbn. by rw bt_get_insert_ne. Qed.

(** What an operation leaves: a change is saved, and an operation that reports none is none. *)
Definition saves (s : CaseListStore) (kept : Kept) (s' : CaseListStore) (kept' : Kept) (flag : bool) : Prop :=
  same_elsewhere s s' /\ backed s' = backed s /\ if flag then kept' = persist s' kept else s' = s /\ kept' = kept.

Lemma contains_set s value : value <> [] -> list_contains s network value mapping = bool_decide (normalize mapping value ∈ names s).
Proof using Hnetwork.
  intros Hv. unfold list_contains. rw !is_empty_false // contains_folded. cbn [orb]. apply bool_decide_ext. unfold names.
  by rw elem_of_list_to_set.
Qed.

Lemma entries_elem s value : normalize mapping value ∈ names s <-> normalize mapping value ∈ folded mapping (entries s network).
Proof using Type. unfold names. by rw elem_of_list_to_set. Qed.

Lemma add_set s value kept :
  value <> [] ->
  let '(s', kept', added) := list_add s network value mapping kept in
  names s' = {[normalize mapping value]} ∪ names s /\ added = bool_decide (normalize mapping value ∉ names s) /\
  (distinct s -> distinct s') /\ saves s kept s' kept' added.
Proof using Hnetwork.
  intros Hv. unfold list_add. rw !is_empty_false // contains_folded -entries_is. cbn [orb]. cbv zeta.
  pose proof (entries_elem s value) as Hin. case_bool_decide as E.
  - split_and!; [set_solver|by rw bool_decide_eq_false_2; [naive_solver|]|done|done].
  - unfold changed. change (s <| lists := _ |>) with (put_entries s (entries s network ++ [value])).
    split_and!; [|by rw bool_decide_eq_true_2; [naive_solver|]| |by split; [apply put_entries_elsewhere|]].
    + unfold names. rw put_entries_here. unfold folded. rw fmap_app list_to_set_app_L. cbn. set_solver.
    + unfold distinct. rw put_entries_here. unfold folded. rw fmap_app. intros Hd. apply NoDup_app. split_and!; [done| |apply NoDup_singleton].
      intros x Hx ->%list_elem_of_singleton. done.
Qed.

Lemma remove_set s value kept :
  value <> [] ->
  let '(s', kept', removed) := list_remove s network value mapping kept in
  names s' = names s ∖ {[normalize mapping value]} /\ removed = bool_decide (normalize mapping value ∈ names s) /\
  (distinct s -> distinct s') /\ saves s kept s' kept' removed.
Proof using Hnetwork.
  intros Hv. unfold list_remove. rw !is_empty_false //. cbn [orb]. destruct (bt_get network (lists s)) as [current|] eqn:Eg.
  2: { assert (entries s network = []) as E by by rw entries_is Eg. unfold names. rw E. cbn.
       split_and!; [set_solver|by rw bool_decide_eq_false_2; [set_solver|]|done|done]. }
  cbv zeta. assert (Hent : entries s network = current) by by rw entries_is Eg. unfold names, distinct. rw Hent.
  set (rest := base.filter (fun candidate => equals mapping candidate value = false) current).
  assert (Hrest : forall x, x ∈ folded mapping rest <-> x ∈ folded mapping current /\ x <> normalize mapping value).
  { intros x. unfold folded. rw !list_elem_of_fmap. unfold rest. setoid_rewrite list_elem_of_filter. split.
    - intros (y & -> & Hy & Hin). split; [eauto|]. intros E%equals_folded. congruence.
    - intros [(y & -> & Hin) Hne]. exists y. split_and!; [done| |done]. apply not_true_is_false. by intros ?%equals_folded. }
  destruct (Nat.eqb_spec (length rest) (length current)) as [El|El].
  - apply filter_same_length in El. fold rest in El.
    assert (Hnot : normalize mapping value ∉ folded mapping current).
    { intros Hin. rw -El in Hin. by apply Hrest in Hin as [_ ?]. }
    rw Hent. split_and!; [|by rw bool_decide_eq_false_2; [rw elem_of_list_to_set|]|done|done].
    apply set_eq. intros x. rw elem_of_difference elem_of_singleton elem_of_list_to_set. naive_solver.
  - unfold changed. set (s' := s <| lists := _ |>).
    assert (Hs' : entries s' network = rest /\ same_elsewhere s s').
    { unfold s'. destruct rest as [|k rest'] eqn:Ek; cbn [is_empty].
      - split; [rw entries_is; cbn; by rw bt_get_remove|]. intros other Hne. unfold entries. cbn. by rw bt_get_remove_ne.
      - split; [apply put_entries_here|apply put_entries_elsewhere]. }
    destruct Hs' as [-> Helse]. split_and!; [| | |by split].
    + apply set_eq. intros x. rw elem_of_difference elem_of_singleton !elem_of_list_to_set. apply Hrest.
    + rw bool_decide_eq_true_2 //. rw elem_of_list_to_set. apply dec_stable. intros Hn. apply El. f_equal.
      apply list_filter_all, Forall_forall. intros x Hx. apply not_true_is_false. intros E%equals_folded. apply Hn. rw -E.
      by apply list_elem_of_fmap_2.
    + intros Hd. eapply sublist_NoDup; [exact Hd|]. apply fmap_sublist, sublist_filter.
Qed.

Lemma forget_set s kept :
  let '(s', kept') := list_forget s network kept in
  names s' = ∅ /\ distinct s' /\ saves s kept s' kept' (bt_contains network (lists s)).
Proof using Hnetwork.
  unfold list_forget. rw is_empty_false //. destruct (bt_contains network (lists s)) eqn:E.
  - unfold changed. cbn [fst]. set (s' := s <| lists := _ |>). assert (He : entries s' network = []).
    { rw entries_is. cbn. by rw bt_get_remove. }
    unfold names, distinct. rw He. split_and!; [done|constructor|]. split; [|done]. intros other Hne. unfold entries. cbn. by rw bt_get_remove_ne.
  - assert (He : entries s network = []).
    { rw entries_is. destruct (bt_get network (lists s)) as [l|] eqn:Eg; [|done].
      assert (bt_contains network (lists s) = true) by (apply bt_contains_spec; by rw Eg). congruence. }
    unfold names, distinct. rw He. split_and!; [done|by apply NoDup_nil_2|by split_and!].
Qed.
(** One name of a list taken out. *)
Lemma delete_one l index held :
  l !! index = Some held -> folded mapping l ≡ₚ normalize mapping held :: folded mapping (delete index l).
Proof using Type.
  intros Hl. destruct (list_elem_of_split_length _ _ _ Hl) as (l1 & l2 & -> & ->). rw delete_middle. unfold folded.
  rw !fmap_app fmap_cons. solve_Permutation.
Qed.

Lemma rekey_set s old new kept :
  old <> [] -> new <> [] -> distinct s ->
  let '(s', kept', rekeyed) := list_rekey s network old new mapping kept in
  names s' = (if decide (normalize mapping old ∈ names s) then {[normalize mapping new]} ∪ names s ∖ {[normalize mapping old]} else names s) /\
  distinct s' /\ saves s kept s' kept' rekeyed.
Proof using Hnetwork.
  intros Ho Hn Hd. unfold list_rekey. rw !is_empty_false //. cbn [orb].
  assert (Hout : normalize mapping old ∉ folded mapping (entries s network) ->
    names s = (if decide (normalize mapping old ∈ names s) then {[normalize mapping new]} ∪ names s ∖ {[normalize mapping old]} else names s) /\
    distinct s /\ saves s kept s kept false).
  { intros Hnot. rw decide_False; [by rw entries_elem|]. by split. }
  destruct (bt_get network (lists s)) as [current|] eqn:Eg; [|by apply Hout; rw entries_is Eg; apply not_elem_of_nil].
  assert (Hent : entries s network = current) by by rw entries_is Eg.
  destruct (position _ current) as [index|] eqn:Ep.
  2: { apply Hout. rw Hent. intros (x & E & Hx)%list_elem_of_fmap. rw position_None forallb_forall in Ep.
       apply list_elem_of_In, Ep, negb_true_iff in Hx. symmetry in E. apply equals_folded in E. congruence. }
  destruct (position_lookup _ _ _ Ep) as (held & Hl & Hheld%equals_folded). cbv zeta. rw Hl. change (default [] (Some held)) with held.
  assert (Hin : normalize mapping old ∈ names s).
  { rw entries_elem Hent -Hheld. apply list_elem_of_fmap_2. by eapply list_elem_of_lookup_2. }
  rw decide_True //. destruct (equals mapping held new) eqn:Enew.
  - apply equals_folded in Enew. assert (Hsame : names s = {[normalize mapping new]} ∪ names s ∖ {[normalize mapping old]}).
    { rw -Enew Hheld. by apply union_difference_singleton_L. }
    destruct (str_eqb held new); [by split_and!|]. unfold changed. change (s <| lists := _ |>) with (put_entries s (<[index:=new]> current)).
    assert (Hf : folded mapping (entries (put_entries s (<[index:=new]> current)) network) = folded mapping (entries s network)).
    { rw put_entries_here Hent. unfold folded. rw list_fmap_insert. apply list_insert_id. rw list_lookup_fmap Hl. cbn. by rw Enew. }
    unfold names, distinct in *. rw Hf. split_and!; [done|done|by split; [apply put_entries_elsewhere|]].
  - set (rest := delete index current). unfold changed. change (s <| lists := _ |>) with (put_entries s (if contains_value rest new mapping then rest else rest ++ [new])).
    pose proof (delete_one current index held Hl) as Hperm. fold rest in Hperm. rw Hheld in Hperm.
    assert (Hdd := Hd). unfold distinct in Hdd. rw Hent Hperm in Hdd. apply NoDup_cons in Hdd as [Hold Hrest].
    assert (Hset : list_to_set (folded mapping rest) = names s ∖ {[normalize mapping old]}).
    { unfold names. apply set_eq. intros x. rw elem_of_difference elem_of_singleton !elem_of_list_to_set Hent Hperm elem_of_cons.
      split; [|naive_solver]. intros Hx. split; [by right|]. by intros ->. }
    unfold names at 1, distinct. rw put_entries_here. split_and!; [| |by split; [apply put_entries_elsewhere|]].
    + rw contains_folded. case_bool_decide as E; [rw Hset; rw -(elem_of_list_to_set (C:=gset str)) Hset in E; set_solver|].
      unfold folded. rw fmap_app list_to_set_app_L. cbn. rw -Hset. set_solver.
    + rw contains_folded. case_bool_decide as E; [done|]. unfold folded. rw fmap_app. apply NoDup_app. split_and!; [done| |apply NoDup_singleton].
      intros x Hx ->%list_elem_of_singleton. done.
Qed.

Lemma listed_once s : names s = list_to_set (folded mapping (listed s network mapping)) /\ NoDup (folded mapping (listed s network mapping)).
Proof using Hnetwork.
  unfold listed, names. assert (H : forall l unique, NoDup (folded mapping unique) ->
    (list_to_set (folded mapping unique) ∪ list_to_set (folded mapping l) : gset str) = list_to_set (folded mapping (foldl (list_once mapping) unique l)) /\
    NoDup (folded mapping (foldl (list_once mapping) unique l))).
  { induction l as [|v l IH]; intros unique Hu; cbn [foldl]; [split; [set_solver|done]|]. unfold list_once at 2 4. rw contains_folded.
    case_bool_decide as E.
    - destruct (IH unique Hu) as [<- ?]. split; [|done]. cbn. rw -(elem_of_list_to_set (C:=gset str)) in E. set_solver.
    - destruct (IH (unique ++ [v])) as [<- ?].
      + unfold folded. rw fmap_app. apply NoDup_app. split_and!; [done| |apply NoDup_singleton]. intros x Hx ->%list_elem_of_singleton. done.
      + split; [|done]. unfold folded. rw fmap_app list_to_set_app_L. cbn. set_solver. }
  destruct (H (entries s network) []) as [<- ?]; [by apply NoDup_nil_2|]. split; [cbn; set_solver|done].
Qed.
(** The operations on the network's list, and the set operations they are. *)
Inductive ListOp := Add (value : str) | Remove (value : str) | Rekey (old new : str) | Forget.

Definition named (op : ListOp) : Prop :=
  match op with Add value | Remove value => value <> [] | Rekey old new => old <> [] /\ new <> [] | Forget => True end.

Definition on_list (op : ListOp) (s : CaseListStore) (kept : Kept) : CaseListStore * Kept :=
  match op with
  | Add value => (list_add s network value mapping kept).1
  | Remove value => (list_remove s network value mapping kept).1
  | Rekey old new => (list_rekey s network old new mapping kept).1
  | Forget => list_forget s network kept
  end.

Definition on_set (op : ListOp) (held : gset str) : gset str :=
  let fold := normalize mapping in
  match op with
  | Add value => {[fold value]} ∪ held
  | Remove value => held ∖ {[fold value]}
  | Rekey old new => if decide (fold old ∈ held) then {[fold new]} ∪ held ∖ {[fold old]} else held
  | Forget => ∅
  end.

Lemma case_list_refines op s kept :
  named op -> distinct s ->
  let '(s', kept') := on_list op s kept in names s' = on_set op (names s) /\ distinct s' /\ exists flag, saves s kept s' kept' flag.
Proof using Hnetwork.
  intros Hop Hd. destruct op as [value|value|old new|]; cbn [on_list on_set named] in *.
  - pose proof (add_set s value kept Hop) as H. destruct (list_add _ _ _ _ _) as [[s' kept'] f]. cbn. naive_solver.
  - pose proof (remove_set s value kept Hop) as H. destruct (list_remove _ _ _ _ _) as [[s' kept'] f]. cbn. naive_solver.
  - destruct Hop as [Ho Hn]. pose proof (rekey_set s old new kept Ho Hn Hd) as H. destruct (list_rekey _ _ _ _ _ _) as [[s' kept'] f]. cbn. naive_solver.
  - pose proof (forget_set s kept) as H. destruct (list_forget _ _ _) as [s' kept']. naive_solver.
Qed.

(** C21: under a network's case mapping its list is a set of names. Adding, removing, following a
    nick change and forgetting are those operations of the set of folded names, whatever the
    spellings; a list that names each once goes on naming each once, the lists of the other
    networks stay, and what the operation leaves is either saved whole or is what was there
    before; membership is the set's; and the list that is shown is that set with each name
    once. *)
Theorem case_list_refines_set op s kept :
  named op -> distinct s ->
  let '(s', kept') := on_list op s kept in
  names s' = on_set op (names s) /\ distinct s' /\ (exists flag, saves s kept s' kept' flag) /\
  (forall value, value <> [] -> list_contains s' network value mapping = bool_decide (normalize mapping value ∈ on_set op (names s))) /\
  names s' = list_to_set (folded mapping (listed s' network mapping)) /\ NoDup (folded mapping (listed s' network mapping)).
Proof using Hnetwork.
  intros Hop Hd. pose proof (case_list_refines op s kept Hop Hd) as H.
  destruct (on_list op s kept) as [s' kept']. destruct H as (Hs & Hd' & Hf). split_and!; [done|done|done| |apply listed_once|apply listed_once].
  intros value Hv. rw contains_set // Hs. done.
Qed.
End Sets.

Definition toy_lists : @CaseListStore ini_list_backing :=
  @mkCaseListStore ini_list_backing [(lit "net", [lit "Anna"; lit "dax"])] (mkIniListBacking (lit "ignores") (lit "nicks")).

Lemma case_list_refines_set_witness :
  let file := mkSharedFile (Disk Missing) [] in
  let '(s', file') := @on_list ini_list_backing (lit "net") Rfc1459 (Rekey (lit "ANNA") (lit "Dax")) toy_lists file in
  @names ini_list_backing (lit "net") Rfc1459 s' = {[lit "dax"]}.
Proof.
  intros file. pose proof (@case_list_refines_set ini_list_backing (lit "net") Rfc1459 ltac:(discriminate) (Rekey (lit "ANNA") (lit "Dax")) toy_lists file) as H.
  destruct (on_list _ _ _ _ _) as [s' file']. destruct H as [-> _]; [done|by repeat constructor; vm_compute; set_solver|]. vm_compute. reflexivity.
Defined.

(** ** kept in the settings file
    (src/client/src/storage/lists.rs, opendirect.rs, mod.rs) *)

(** ** Where a list is *)

(** A group and a key that the file can hold. *)
Definition good_place (b : IniListBacking) : bool :=
  negb (is_empty (ini_group b)) && slash_free (ini_group b) && forallb is_scalar (ini_group b) && negb (reserved (ini_group b))
  && negb (is_empty (ini_key b)) && forallb is_scalar (ini_key b) && negb (bool_decide (last (ini_key b) = Some (chr "/"))).

Definition list_path (b : IniListBacking) (network : str) : str := settings_key (ini_group b ++ lit "/" ++ network) (ini_key b).

Lemma good_place_parts b :
  good_place b = true ->
  ini_group b <> [] /\ slash_free (ini_group b) = true /\ forallb is_scalar (ini_group b) = true /\ reserved (ini_group b) = false /\
  ini_key b <> [] /\ forallb is_scalar (ini_key b) = true /\ last (ini_key b) <> Some (chr "/").
Proof.
  unfold good_place. rw !andb_true_iff !negb_true_iff bool_decide_eq_false. intros [[[[[[Hg ?] ?] ?] Hk] ?] ?].
  split_and!; try done; [by destruct (ini_group b)|by destruct (ini_key b)].
Qed.

Lemma list_path_is b network : good_place b = true -> list_path b network = ini_group b ++ chr "/" :: network ++ chr "/" :: ini_key b.
Proof.
  intros (H & _)%good_place_parts. unfold list_path, settings_key. destruct (ini_group b) as [|c group]; [done|]. cbn [app is_empty].
  by rw -app_assoc.
Qed.

Lemma list_path_inj b network network' :
  good_place b = true -> slash_free network = true -> slash_free network' = true -> list_path b network = list_path b network' -> network = network'.
Proof.
  intros Hb H1 H2. rw !list_path_is // => /app_inv_head [=] E.
  assert (A : split_once (N.eqb (chr "/")) (network ++ chr "/" :: ini_key b) = Some (network, ini_key b)) by by apply split_once_slash.
  assert (B : split_once (N.eqb (chr "/")) (network' ++ chr "/" :: ini_key b) = Some (network', ini_key b)) by by apply split_once_slash.
  rw E B in A. by injection A.
Qed.

Lemma list_path_section b network : good_place b = true -> split_section (list_path b network) = (ini_group b, network ++ chr "/" :: ini_key b).
Proof.
  intros Hb. rw list_path_is //. destruct (good_place_parts b Hb) as (Hne & Hsl & _). unfold split_section. by rw split_once_at.
Qed.

Lemma list_path_group b b' network :
  good_place b = true -> good_place b' = true -> in_group (ini_group b) (list_path b' network) = bool_decide (ini_group b = ini_group b').
Proof.
  intros Hb Hb'. apply eq_true_iff_eq. rw bool_decide_eq_true in_group_spec. split.
  - intros H. pose proof (list_path_section b' network Hb') as Hs. destruct (good_place_parts b Hb) as (Hne & Hsl & _).
    destruct H as [H|[rest H]]; rw H in Hs.
    + unfold split_section in Hs. destruct (split_once _ (ini_group b)) as [[x y]|] eqn:E; [|injection Hs as Hs _; by apply good_place_parts in Hb' as [? _]].
      apply split_once_slash in E as [_ E]. rw E in Hsl. unfold slash_free in Hsl. rw forallb_app in Hsl. cbn in Hsl. by rw andb_false_r in Hsl.
    + unfold split_section in Hs. change (lit "/" ++ rest) with (chr "/" :: rest) in Hs. rw split_once_at // in Hs. by injection Hs.
  - intros E. right. exists (network ++ chr "/" :: ini_key b'). by rw list_path_is // E.
Qed.

(** ** What a list reads and writes *)

Definition list_of (v : option IniValue) : list str :=
  match v with
  | Some (IniList texts) => texts
  | Some (IniText text) | Some (IniVariant text) => if is_empty text then [] else [text]
  | _ => []
  end.

Definition found_list (v : option IniValue) : option (list str) := let found := list_of v in if is_empty found then None else Some found.

Lemma string_list_is s group key : default [] (string_list s group key) = list_of (bt_get (settings_key group key) (values s)).
Proof. unfold string_list. by destruct (bt_get _ _) as [[]|]. Qed.

Lemma load_lists_get s b children loaded network :
  bt_get network (foldl (load_list s (ini_group b) (ini_key b)) loaded children) =
  if decide (network ∈ children) then match found_list (bt_get (list_path b network) (values s)) with Some l => Some l | None => bt_get network loaded end
  else bt_get network loaded.
Proof.
  revert loaded. induction children as [|child children IH]; intros loaded; cbn [foldl]; [by case_decide as Hin; [apply elem_of_nil in Hin|]|].
  rw IH. assert (Hone : bt_get network (load_list s (ini_group b) (ini_key b) loaded child) =
    if decide (network = child) then match found_list (bt_get (list_path b network) (values s)) with Some l => Some l | None => bt_get network loaded end
    else bt_get network loaded).
  { unfold load_list. cbv zeta. rw string_list_is. change (settings_key (ini_group b ++ lit "/" ++ child) (ini_key b)) with (list_path b child).
    unfold found_list. cbv zeta. destruct (decide (network = child)) as [->|Hne].
    - destruct (is_empty _); [done|apply bt_get_insert].
    - destruct (is_empty _); [done|]. apply bt_get_insert_ne. congruence. }
  rw Hone. destruct (decide (network = child)) as [<-|Hne].
  - rw (decide_True (P:=network ∈ network :: children)); [by left|]. case_decide; [|done]. by destruct (found_list _).
  - destruct (decide (network ∈ children)) as [Hin|Hn].
    + rw (decide_True (P:=network ∈ child :: children)); [by right|]. done.
    + rw (decide_False (P:=network ∈ child :: children)) //. by intros [?|?]%elem_of_cons.
Qed.

(** What is built from a file. *)
Lemma ini_load_get b file network :
  good_place b = true ->
  bt_get network (ini_load b file) =
  if slash_free network then found_list (bt_get (list_path b network) (values (backing_settings (shared_backing file)))) else None.
Proof.
  intros Hb. unfold ini_load. cbv zeta. rw load_lists_get. set (s := backing_settings _). case_decide as Hin.
  - apply child_groups_elem in Hin as [-> _]. by case_match.
  - cbn. destruct (slash_free network) eqn:Hs; [|done]. destruct (bt_get (list_path b network) (values s)) as [v|] eqn:E; [|done].
    exfalso. apply Hin, child_groups_elem. split; [done|]. exists (ini_key b).
    assert (Hp : list_path b network ∈ bt_keys (values s)).
    { apply bt_get_elem in E. by apply (list_elem_of_fmap_2' fst _ (list_path b network, v)). }
    unfold group_prefix. destruct (good_place_parts b Hb) as (Hne & _). rw is_empty_false //. rw list_path_is // in Hp. by rw -app_assoc.
Qed.

(** A value that is read back from a list of one. *)
Definition tidy_value (text : str) : bool := negb (is_empty text) && negb (starts_at text) && forallb is_scalar text.

Definition tidy_entry (entry : str * list str) : bool :=
  slash_free entry.1 && forallb is_scalar entry.1 && negb (is_empty entry.2) && forallb tidy_value entry.2.

(** Lists the file can hold. *)
Definition tidy (l : btree (list str)) : Prop := table l /\ Forall (fun entry => tidy_entry entry = true) l.

Lemma tidy_insert network l m :
  slash_free network = true -> forallb is_scalar network = true -> l <> [] -> forallb tidy_value l = true -> tidy m -> tidy (bt_insert network l m).
Proof.
  intros H1 H2 H3 H4 [Ht Hm]. split; [by apply table_insert|]. apply bt_insert_Forall; [|done]. unfold tidy_entry. cbn [fst snd].
  rw H1 H2 H4. by destruct l.
Qed.

Lemma tidy_remove network m : tidy m -> tidy (bt_remove network m).
Proof. intros [Ht Hm]. split; [by apply table_remove|by apply bt_remove_Forall]. Qed.

Lemma tidy_get network l m :
  tidy m -> bt_get network m = Some l ->
  slash_free network = true /\ forallb is_scalar network = true /\ l <> [] /\ forallb tidy_value l = true.
Proof.
  intros [_ Hm] E%bt_get_elem. pose proof (proj1 (Forall_forall _ _) Hm _ E) as H. unfold tidy_entry in H. cbn [fst snd] in H.
  rw !andb_true_iff negb_true_iff in H. destruct H as [[[? ?] Hne] ?]. split_and!; try done. by destruct l.
Qed.

Lemma tidy_scalar l : forallb tidy_value l = true -> scalar_value (IniList l) = true.
Proof. cbn. apply forallb_impl. by intros text [_ ?]%andb_true_iff. Qed.

Lemma tidy_found l : l <> [] -> forallb tidy_value l = true -> found_list (reread <$> Some (IniList l)) = Some l.
Proof.
  intros Hne Ht. destruct l as [|text [|text' l]]; [done| |done]. cbn in Ht. rw andb_true_r in Ht. unfold tidy_value in Ht.
  rw !andb_true_iff !negb_true_iff in Ht. destruct Ht as [[He Hs] _]. cbn. unfold read_text.
  unfold str_eqb. rw bool_decide_eq_false_2; [by intros ->|]. destruct text as [|c text]; [done|]. cbn in Hs. by rw Hs.
Qed.

Section Write.
Context (b : IniListBacking) (Hb : good_place b = true).
Implicit Types (s : Settings) (l : btree (list str)).

Lemma list_path_storable network : slash_free network = true -> forallb is_scalar network = true -> storable (list_path b network) = true.
Proof using Hb.
  intros Hn Hs. unfold storable. rw list_path_section // list_path_is //. destruct (good_place_parts b Hb) as (Hne & Hsl & Hg & Hr & Hk & Hks & Hl).
  cbn [fst]. rw Hr !forallb_app Hg. cbn. rw forallb_app Hs. cbn. rw Hks. apply andb_true_iff. split; [|done]. apply andb_true_iff. split; apply negb_true_iff, bool_decide_eq_false_2.
  - destruct (ini_group b) as [|c group]; [done|]. cbn. intros [= ->]. by cbn in Hsl.
  - rw last_app last_cons last_app last_cons. by destruct (last (ini_key b)) eqn:E; [|apply last_None in E].
Qed.

Lemma save_lists_get s l network :
  slash_free network = true -> tidy l ->
  bt_get (list_path b network) (values (foldl (save_list (ini_group b) (ini_key b)) s l)) =
  match bt_get network l with Some texts => Some (IniList texts) | None => bt_get (list_path b network) (values s) end.
Proof using Hb.
  intros Hn. revert s. induction l as [|[other texts] l IH]; intros s Hl; [done|]. destruct Hl as [Ht Hf].
  assert (Htidy : tidy l).
  { split; [|by apply Forall_inv_tail in Hf]. eapply table_sublist; [|exact Ht]. by apply sublist_cons. }
  cbn [foldl]. rw IH //. apply Forall_inv in Hf. unfold tidy_entry in Hf. cbn [fst snd] in Hf. rw !andb_true_iff negb_true_iff in Hf.
  destruct Hf as [[[Ho _] He] _]. unfold save_list. cbn [fst snd]. rw He.
  change (settings_key (ini_group b ++ lit "/" ++ other) (ini_key b)) with (list_path b other).
  unfold set_string_list. change (settings_key (ini_group b ++ lit "/" ++ other) (ini_key b)) with (list_path b other).
  rw put_get. unfold bt_get at 3. cbn. destruct (decide (other = network)) as [->|Hne].
  - rw key_eqb_refl str_eqb_refl. destruct Ht as [_ [Hnot _]%NoDup_cons]. change (network ∉ bt_keys l) in Hnot.
    by rw (proj2 (bt_get_None_keys network l)).
  - rw (key_eqb_ne other network) //. rw str_eqb_ne; [|done]. intros E. apply Hne. by apply (list_path_inj b).
Qed.

Lemma save_lists_outside s l path :
  in_group (ini_group b) path = false -> bt_get path (values (foldl (save_list (ini_group b) (ini_key b)) s l)) = bt_get path (values s).
Proof using Hb.
  intros Hp. revert s. induction l as [|[other texts] l IH]; intros s; [done|]. cbn [foldl]. rw IH. unfold save_list. cbn [fst snd].
  case_match; [done|]. unfold set_string_list. change (settings_key (ini_group b ++ lit "/" ++ other) (ini_key b)) with (list_path b other).
  rw put_get str_eqb_ne //. intros <-. rw list_path_group // in Hp. by rw bool_decide_eq_true_2 in Hp.
Qed.

Lemma save_lists_edited loaded s l : tidy l -> edited loaded s -> edited loaded (foldl (save_list (ini_group b) (ini_key b)) s l).
Proof using Hb.
  intros [_ Hl]. revert s. induction Hl as [|[other texts] l He Hl IH]; intros s Hs; [done|]. cbn [foldl]. apply IH.
  unfold save_list. cbn [fst snd]. unfold tidy_entry in He. cbn [fst snd] in He. rw !andb_true_iff in He. destruct He as [[[Ho Hsc] _] Ht].
  case_match; [done|]. apply edited_put; [by apply list_path_storable|by apply tidy_scalar|done].
Qed.
End Write.

(** ** Restart *)

#[local] Existing Instance ini_list_backing.

(** The store that the next start of the client builds. *)
Definition restarted (s : CaseListStore) (file : SharedFile) : CaseListStore := new_list_store (backed s) file.

(** A settings file that can be written. *)
Definition usable (file : SharedFile) : Prop :=
  exists node, shared_backing file = Disk node /\ write_blocked node = Written /\ good_store (open_settings node).

(** The file holds the store. *)
Record held_in (s : CaseListStore) (file : SharedFile) : Prop := {
  held_place : good_place (backed s) = true;
  held_tidy : tidy (lists s);
  held_same network : bt_get network (lists (restarted s file)) = bt_get network (lists s);
}.

Lemma persist_held s file :
  good_place (backed s) = true -> tidy (lists s) -> usable file -> default true (head (shared_lands file)) = true ->
  usable (persist s file) /\ held_in s (persist s file) /\
  forall other, good_place (backed other) = true -> ini_group (backed other) <> ini_group (backed s) -> held_in other file -> held_in other (persist s file).
Proof.
  intros Hb Ht (node & Hn & Hw & Hg) Hl. set (write := write_lists (ini_group (backed s)) (ini_key (backed s)) (lists s)).
  destruct (good_place_parts _ Hb) as (Hne & _).
  destruct (edit_lands node write) as (node' & He & Hw' & Hg' & Hv); [done|done| |].
  { apply save_lists_edited; [done|done|]. apply edited_remove_group; [done|]. by apply edited_refl. }
  assert (Hp : persist s file = mkSharedFile (Disk node') (tail (shared_lands file))).
  { unfold persist. cbn. unfold ini_save. fold write. by rw Hn Hl He. }
  rw Hp. split_and!; [by exists node'| |].
  - split; [done|done|]. intros network. cbn. rw ini_load_get //. cbn [shared_backing backing_settings]. destruct (slash_free network) eqn:Hs.
    + rw Hv. unfold write, write_lists. rw save_lists_get // remove_group_get // list_path_group // bool_decide_eq_true_2 //.
      destruct (bt_get network (lists s)) as [l|] eqn:E; [|done]. destruct (tidy_get _ _ _ Ht E) as (_ & _ & ? & ?). by apply tidy_found.
    + destruct (bt_get network (lists s)) as [l|] eqn:E; [|done]. destruct (tidy_get _ _ _ Ht E) as (? & _). congruence.
  - intros other Ho Hgr [_ Hto Hsame]. split; [done|done|]. intros network. rw -Hsame. cbn. rw !ini_load_get // Hn.
    cbn [shared_backing backing_settings]. destruct (slash_free network); [|done]. f_equal. rw Hv. unfold write, write_lists.
    assert (Hout : in_group (ini_group (backed s)) (list_path (backed other) network) = false).
    { rw list_path_group //. apply bool_decide_eq_false_2. congruence. }
    rw save_lists_outside // remove_group_get // Hout. apply settled_get, (rd_settled _ open_settings_reader).
Qed.

(** ** Operations *)

Section Operations.
Context (network : str) (mapping : IrcCaseMapping) (Hne : network <> []) (Hs : slash_free network = true) (Hsc : forallb is_scalar network = true).
Implicit Types (s : CaseListStore) (file : SharedFile).

(** An operation with values that are read back. *)
Definition tidy_op (op : ListOp) : bool :=
  match op with Add value => tidy_value value | Remove value => tidy_value value | Rekey old new => tidy_value old && tidy_value new | Forget => true end.

Lemma tidy_named op : tidy_op op = true -> named op.
Proof using Type.
  assert (H : forall v, tidy_value v = true -> v <> []) by by intros [|c v].
  destruct op; cbn; [apply H|apply H| |done]. intros [? ?]%andb_true_iff. split; by apply H.
Qed.

Lemma tidy_entries s : tidy (lists s) -> forallb tidy_value (default [] (bt_get network (lists s))) = true.
Proof using Type. intros Ht. destruct (bt_get network (lists s)) as [l|] eqn:E; [|done]. by apply (tidy_get network l) in E as (_ & _ & _ & ?). Qed.

Lemma forallb_filter {A} (p : A -> bool) (P : A -> Prop) `{!forall x, Decision (P x)} l : forallb p l = true -> forallb p (base.filter P l) = true.
Proof using Type. rw !forallb_forall. intros Hall x Hx. apply Hall. apply list_elem_of_In in Hx. apply list_elem_of_In. by apply list_elem_of_filter in Hx as [_ ?]. Qed.

Lemma op_tidy op s file : tidy_op op = true -> tidy (lists s) -> tidy (lists (on_list network mapping op s file).1).
Proof using Hs Hsc.
  intros Hop Ht. pose proof (tidy_entries s Ht) as Hcur.
  assert (Hadd : forall l v, forallb tidy_value l = true -> tidy_value v = true -> tidy (bt_insert network (l ++ [v]) (lists s))).
  { intros l v Hl Hv. apply tidy_insert; [done|done|by destruct l| |done]. rw forallb_app Hl. cbn. by rw Hv. }
  destruct op as [value|value|old new|]; cbn [on_list tidy_op] in *.
  - unfold list_add. case_match; [done|]. cbv zeta. case_match; [done|]. by apply Hadd.
  - unfold list_remove. case_match; [done|]. destruct (bt_get network (lists s)) as [current|] eqn:E; [|done]. cbv zeta. case_match; [done|].
    cbn in Hcur |- *. case_match eqn:Ee; [by apply tidy_remove|]. apply tidy_insert; [done|done|by intros Ee'; rw Ee' in Ee|by apply forallb_filter|done].
  - apply andb_true_iff in Hop as [_ Hnew]. unfold list_rekey. case_match; [done|].
    destruct (bt_get network (lists s)) as [current|] eqn:E; [|done]. cbn in Hcur. destruct (position _ current) as [index|] eqn:Ep; [|done]. cbv zeta.
    assert (Hdel : forallb tidy_value (delete index current) = true).
    { rw delete_take_drop forallb_app forallb_take // forallb_drop //. }
    destruct (equals mapping _ new).
    + case_match; [done|]. cbn. destruct (tidy_get network current (lists s) Ht E) as (_ & _ & Hc & _).
      apply tidy_insert; [done|done| | |done].
      * intros E'%(f_equal length). rw length_insert in E'. by destruct current.
      * rw insert_take_drop; [by eapply position_lt|]. rw forallb_app forallb_take //. cbn. by rw Hnew forallb_drop.
    + cbn. case_match eqn:Ec; [|by apply Hadd]. apply tidy_insert; [done|done|by intros E'; rw E' in Ec|done|done].
  - unfold list_forget. case_match; [done|]. case_match; [by apply tidy_remove|done].
Qed.

(** What a landing operation leaves. *)
Lemma saved_held s file s' file' flag :
  usable file -> default true (head (shared_lands file)) = true -> held_in s file -> tidy (lists s') -> saves network s file s' file' flag ->
  held_in s' file' /\ usable file' /\
  forall store, good_place (backed store) = true -> ini_group (backed store) <> ini_group (backed s) -> held_in store file -> held_in store file'.
Proof using Type.
  intros Hu Hl Hh Ht (_ & Hbk & Hkept). destruct flag; [|by destruct Hkept as [-> ->]]. cbn in Hkept. subst file'.
  destruct (persist_held s' file) as (? & Hhold & Hothers); [rw Hbk; apply Hh|exact Ht|exact Hu|exact Hl|]. by rw Hbk in Hothers.
Qed.

Lemma held_entries s file other : held_in s file -> entries (restarted s file) other = entries s other.
Proof using Type. intros [_ _ Hsame]. unfold entries. destruct (is_empty other); [done|]. by rw Hsame. Qed.

End Operations.

(** Two stores of one file. *)
Definition toy_file : SharedFile := mkSharedFile (Disk (File (lit "[networks]" ++ [10] ++ lit "1\host=h" ++ [10]) true true false)) [].
Definition toy_opens : CaseListStore := open_list (new_open_direct_store toy_file).

Lemma toy_file_usable : usable toy_file.
Proof. eexists. split_and!; [done|done|]. split; [apply parse_settings_table|by repeat constructor]. Defined.

Lemma toy_held group : good_place (mkIniListBacking group TARGETS_KEY) = true -> lists (new_list_store (mkIniListBacking group TARGETS_KEY) toy_file) = [] ->
  held_in (new_list_store (mkIniListBacking group TARGETS_KEY) toy_file) toy_file.
Proof. intros Hp E. split; [done| |done]. rw E. split; [apply table_nil|constructor]. Defined.

