(* ===== verification/ClosedChannels.v ===== *)
(** * ClosedChannels: the closed list under the reducer
    (src/client/src/storage/lists.rs, irc/reducer/conversations.rs)

    The reducer asks a [ClosedStore] whether the user closed a channel. In the client that store
    is a list of the settings file. A channel that was closed stays closed over a restart. *)

From S2P Require Import Prelude Text CaseMapping ServerFeatures OrdMap SessionTypes Platform Typing SettingsIni SettingsAccess Settings SettingsProperties Lists ListsProperties.
From S2P Require Import Presence Events Conversation MembershipNoise ReducerState ReducerTranscript ReducerSplice Reducer.

Section Closed.
Context `{platform : Platform}.

(** The client's stores, over a conversation log. *)
Context (L : Type) (append : L -> str -> str -> IrcCaseMapping -> TranscriptLine -> L)
  (prepend : L -> str -> str -> IrcCaseMapping -> list TranscriptLine -> L)
  (read_tail : L -> str -> str -> IrcCaseMapping -> nat -> list TranscriptLine).

#[local] Existing Instance ini_list_backing.

(** [Rc<RefCell<CaseListStore>>] with the file it is kept in. *)
Definition ClosedList : Type := CaseListStore * SharedFile.

Definition disk_contains (c : ClosedList) (network target : str) (mapping : IrcCaseMapping) : bool := list_contains c.1 network target mapping.
Definition disk_add (c : ClosedList) (network target : str) (mapping : IrcCaseMapping) : ClosedList := (list_add c.1 network target mapping c.2).1.
Definition disk_remove (c : ClosedList) (network target : str) (mapping : IrcCaseMapping) : ClosedList := (list_remove c.1 network target mapping c.2).1.

Definition disk_stores : Stores := {|
  Log := L;
  log_append := append;
  log_prepend := prepend;
  log_read_tail := read_tail;
  ReducerState.Closed := ClosedList;
  closed_contains := disk_contains;
  closed_add := disk_add;
  closed_remove := disk_remove;
|}.
#[local] Existing Instance disk_stores.

Implicit Types (r : EventReducer) (key : ConversationKey).

(** Nothing brings a channel back whose target the persisted list holds. *)
Lemma held_blocks r key display cause :
  find r key = None -> is_channel (features_of (net_facts r) (network_id key)) (normalized_target key) = true -> persisted_closed r key = true ->
  ensure_key key display cause r = (r, false).
Proof using Type.
  intros Hf Hc Hp. unfold ensure_key. destruct (bt_contains key (conversations r)) eqn:E.
  { apply bt_contains_spec in E as [c E]. unfold find in Hf. by rw Hf in E. }
  cbv zeta. rw Hc Hp orb_true_r. cbn [andb]. by case_match.
Qed.

End Closed.

(** A close, and the start after it. *)
Definition toy_disk_stores : Stores := disk_stores unit (fun l _ _ _ _ => l) (fun l _ _ _ _ => l) (fun _ _ _ _ _ => []).
Definition CLOSED_GROUP : str := lit "closedConversations".
Definition toy_closed : @CaseListStore ini_list_backing := @new_list_store ini_list_backing (mkIniListBacking CLOSED_GROUP TARGETS_KEY) toy_file.
Definition toy_start (closed : @CaseListStore ini_list_backing * SharedFile) : @EventReducer toy_disk_stores :=
  @set_closed_persistence toy_disk_stores closed (@new_reducer toy_disk_stores).
Definition toy_room : ConversationKey := mkKey (lit "1") (lit "#room").

