(* ===== verification/StoragePath.v ===== *)
(** * StoragePath: names of files from names of networks and conversations
    (src/client/src/irc/storagepath.rs)

    A segment of a path is made from the bytes of a text: lower case letters, digits and a few
    signs stand for themselves, every other byte is percent-encoded, and what is too long for a
    file name is hashed. *)

From S2P Require Import Prelude Text Utf ServerFeatures CommandBuilder Scram OrdMap SessionTypes Sts StsStoreProperties.

Definition is_safe_storage_byte (byte_value : byte) (is_last_byte : bool) : bool :=
  if is_ascii_lowercase byte_value then true
  else if is_ascii_digit byte_value then true
  else if byte_value =? chr "." then negb is_last_byte
  else existsb (N.eqb byte_value) (lit "#&+-_{}~[]^").

Definition percent_encode_byte (byte_value : byte) : str :=
  [chr "%"; hex_digit (N.shiftr byte_value 4); hex_digit (N.land byte_value 0x0f)].

Fixpoint encode_storage_bytes (utf8 : bytes) : str :=
  match utf8 with
  | [] => []
  | current :: rest =>
      (if is_safe_storage_byte current (is_empty rest) then [current] else percent_encode_byte current) ++ encode_storage_bytes rest
  end.

Definition encode_with_leading_escape (utf8 : bytes) : str :=
  match utf8 with [] => [] | first :: rest => percent_encode_byte first ++ encode_storage_bytes rest end.

Definition is_space_or_dot (c : char) : bool := (c =? chr " ") || (c =? chr ".").
Definition trim_trailing_spaces_and_dots (text : str) : str := skip_while_end is_space_or_dot text.

Definition device_base_token (full_name : str) : str :=
  let trimmed := trim_trailing_spaces_and_dots full_name in
  match split_once (N.eqb (chr ".")) trimmed with Some (base, _) => base | None => trimmed end.

Definition device_base_matches (stem : str) : bool :=
  let stem := trim_trailing_spaces_and_dots stem in
  if is_empty stem then false
  else
    let lowered := ascii_lower stem in
    if existsb (str_eqb lowered) [lit "con"; lit "prn"; lit "aux"; lit "nul"] then true
    else
      match lowered with
      | [a; b; c; suffix] =>
          let prefix := [a; b; c] in
          if negb (str_eqb prefix (lit "com")) && negb (str_eqb prefix (lit "lpt")) then false
          else is_ascii_digit suffix || existsb (N.eqb suffix) [0xb9; 0xb2; 0xb3]
      | _ => false
      end.

Definition is_win32_device_name (text extension : str) : bool := device_base_matches (device_base_token (text ++ extension)).

Definition is_lower_hex (c : char) : bool := is_ascii_digit c || ((97 <=? c) && (c <=? 102)).

(** [h] and the 64 digits of a digest. *)
Definition storage_segment_is_hash (segment : str) : bool :=
  match as_bytes segment with
  | h :: digits => (length digits =? 64)%nat && (h =? chr "h") && forallb is_lower_hex digits
  | [] => false
  end.

Section Segments.
Context `{crypto : Crypto}.

Definition hash_long_segment (utf8 : bytes) : str := chr "h" :: mbind hex_byte (sha256 utf8).

Definition is_dots (text : str) : bool := is_empty text || str_eqb text (lit ".") || str_eqb text (lit "..").

Definition storage_segment (text : str) (extension_for_device_check : option str) : str :=
  let extension := default [] extension_for_device_check in
  if is_dots text then lit "_"
  else
    let utf8 := as_bytes text in
    let segment := if is_win32_device_name text extension then encode_with_leading_escape utf8 else encode_storage_bytes utf8 in
    if 255 <? str_len segment + str_len extension then hash_long_segment utf8
    else if storage_segment_is_hash segment then percent_encode_byte (chr "h") ++ tail segment
    else segment.

Definition wire_storage_segment (text : str) (extension_for_device_check : option str) : str :=
  storage_segment (wire_text (as_bytes text)) extension_for_device_check.
End Segments.

(** [str::replace] of a character. *)
Definition replace_char (c : char) (by_ : str) (text : str) : str := mbind (fun x => if x =? c then by_ else [x]) text.

Definition legacy_storage_segment (text : str) : str :=
  let text := replace_char 0 (lit "%00") (replace_char (chr "\") (lit "%5c") (replace_char (chr "/") (lit "%2f") (replace_char (chr "%") (lit "%25") text))) in
  if is_dots text then lit "_" else text.

Definition hex_byte_value (high low : byte) : option byte :=
  let? high := hex_value high in
  let? low := hex_value low in
  Some (N.lor (N.shiftl high 4) low).

Fixpoint decode_bytes (segment : bytes) : bytes :=
  match segment with
  | [] => []
  | b :: rest =>
      match rest with
      | high :: low :: after =>
          match (if b =? chr "%" then hex_byte_value high low else None) with
          | Some v => v :: decode_bytes after
          | None => b :: decode_bytes rest
          end
      | _ => b :: decode_bytes rest
      end
  end.

(** [char::from(byte)] of each byte. *)
Definition latin1_bytes_to_string (raw : bytes) : str := raw.

Definition decode_storage_segment (segment : str) : str :=
  if storage_segment_is_hash segment then segment
  else
    let decoded_bytes := decode_bytes (as_bytes segment) in
    let decoded := from_utf8_lossy decoded_bytes in
    if is_empty decoded && negb (is_empty decoded_bytes) then latin1_bytes_to_string decoded_bytes else decoded.

Example segments_example :
  let segment text := @storage_segment digest_crypto text None in
  segment (lit "#a|b") = lit "#a%7cb" /\ segment (lit "..") = lit "_" /\ segment (lit "con.txt.") = lit "%63on.txt%2e" /\
  segment (lit "COM" ++ [0xb9]) = lit "%43%4f%4d%c2%b9" /\ segment (lit "tail ") = lit "tail%20" /\ segment (lit "lpt9") = lit "%6cpt9" /\
  segment (chr "h" :: repeat (chr "a") 64) = lit "%68" ++ repeat (chr "a") 64.
Proof. vm_compute. by split_and!. Qed.

(** ** what a segment of a path promises
    (src/client/src/irc/storagepath.rs)

    A segment is the name of one file wherever it is used: it has no separator, it is neither a
    dot name nor a device, it fits a directory entry, and two texts share one only when their
    digests do. *)

(** ** Bytes and digits *)

Lemma below (p : N -> bool) (n : nat) : forallb p (N.of_nat <$> seq 0 n) = true -> forall b, b < N.of_nat n -> p b = true.
Proof.
  intros Hall b Hb. apply (proj1 (forallb_forall _ _) Hall), list_elem_of_In, list_elem_of_fmap. exists (N.to_nat b).
  split; [lia|]. apply elem_of_seq. lia.
Qed.

Lemma percent_value b : b < 256 -> hex_byte_value (hex_digit (N.shiftr b 4)) (hex_digit (N.land b 0x0f)) = Some b.
Proof.
  intros Hb. apply (below (fun b => bool_decide (hex_byte_value (hex_digit (N.shiftr b 4)) (hex_digit (N.land b 0x0f)) = Some b)) 256) in Hb.
  - by apply bool_decide_eq_true in Hb.
  - vm_compute. reflexivity.
Qed.

(** What a segment is made of. *)
Definition segment_char (c : char) : bool :=
  is_ascii_lowercase c || is_ascii_digit c || existsb (N.eqb c) (lit "#&+-_{}~[]^.%").

Lemma safe_segment_char b last : is_safe_storage_byte b last = true -> segment_char b = true /\ b <> chr "%".
Proof. unfold is_safe_storage_byte, segment_char, is_ascii_lowercase, is_ascii_digit. chars. cbn [existsb lit]. repeat case_match; cbn; chars; lia. Qed.

Lemma hex_digit_segment n : n < 16 -> segment_char (hex_digit n) = true /\ is_lower_hex (hex_digit n) = true.
Proof. intros Hn. unfold segment_char, is_lower_hex, hex_digit, is_ascii_lowercase, is_ascii_digit. destruct (N.ltb_spec n 10); split; lia. Qed.

Lemma nibbles b : b < 256 -> N.shiftr b 4 < 16 /\ N.land b 0x0f < 16.
Proof.
  intros Hb. split; [rw N.shiftr_div_pow2; apply N.Div0.div_lt_upper_bound; lia|].
  change 0x0f with (N.ones 4). rw N.land_ones. by apply N.mod_lt.
Qed.

Lemma percent_segment b : b < 256 -> forallb segment_char (percent_encode_byte b) = true.
Proof. intros [H1 H2]%nibbles. cbn [percent_encode_byte forallb]. by rw (proj1 (hex_digit_segment _ H1)) (proj1 (hex_digit_segment _ H2)). Qed.

Lemma encode_segment l : Forall (fun b => b < 256) l -> forallb segment_char (encode_storage_bytes l) = true.
Proof.
  induction 1 as [|b l Hb Hl IH]; [done|]. cbn [encode_storage_bytes]. rw forallb_app IH andb_true_r. case_match eqn:E.
  - cbn. by rw (proj1 (safe_segment_char _ _ E)).
  - by apply percent_segment.
Qed.

Lemma segment_char_ascii c : segment_char c = true -> is_ascii c = true.
Proof. unfold segment_char, is_ascii, is_ascii_lowercase, is_ascii_digit. chars. cbn [existsb lit]. cbn. chars. lia. Qed.

Lemma segment_bytes s : forallb segment_char s = true -> as_bytes s = s.
Proof. intros H. apply as_bytes_ascii. eapply forallb_impl; [apply segment_char_ascii|done]. Qed.

(** ** Decoding *)

Lemma decode_plain b rest : b <> chr "%" -> decode_bytes (b :: rest) = b :: decode_bytes rest.
Proof. intros Hb. destruct rest as [|high [|low after]]; try done. cbn [decode_bytes]. by rw (proj2 (N.eqb_neq b (chr "%")) Hb). Qed.

Lemma decode_percent b rest : b < 256 -> decode_bytes (percent_encode_byte b ++ rest) = b :: decode_bytes rest.
Proof.
  intros Hb. cbn [percent_encode_byte app decode_bytes]. rw N.eqb_refl percent_value //.
Qed.

Lemma decode_encode l : Forall (fun b => b < 256) l -> decode_bytes (encode_storage_bytes l) = l.
Proof.
  induction 1 as [|b l Hb Hl IH]; [done|]. cbn [encode_storage_bytes]. case_match eqn:E.
  - cbn [app]. rw decode_plain ?IH //. by eapply safe_segment_char.
  - by rw decode_percent // IH.
Qed.

Lemma decode_leading l : Forall (fun b => b < 256) l -> decode_bytes (encode_with_leading_escape l) = l.
Proof. destruct 1 as [|b l Hb Hl]; [done|]. cbn [encode_with_leading_escape]. by rw decode_percent // decode_encode. Qed.

(** ** What a segment is *)

Lemma hash_shape s : storage_segment_is_hash s = true -> exists digits, as_bytes s = chr "h" :: digits /\ length digits = 64%nat /\ forallb is_lower_hex digits = true.
Proof.
  unfold storage_segment_is_hash. destruct (as_bytes s) as [|h digits]; [done|]. rw !andb_true_iff Nat.eqb_eq N.eqb_eq.
  intros [[? ->] ?]. by exists digits.
Qed.

(** ** Device names *)

Definition dot_free (s : str) : bool := forallb (fun c => negb (is_space_or_dot c)) s.

Lemma trim_suffix (s rest : str) : dot_free s = true -> s <> [] -> trim_trailing_spaces_and_dots (s ++ rest) = s ++ trim_trailing_spaces_and_dots rest.
Proof.
  intros Hs Hne. unfold trim_trailing_spaces_and_dots, skip_while_end. rw rev_app_distr.
  assert (Hlast : exists x l, rev s = x :: l /\ is_space_or_dot x = false).
  { destruct (rev s) as [|x l] eqn:E; [by rw -(rev_involutive s) E in Hne|]. exists x, l. split; [done|].
    apply negb_true_iff. apply (proj1 (forallb_forall _ _) Hs), in_rev. rw E. by left. }
  destruct Hlast as (x & l & E & Hx). rw E.
  assert (Hskip : forall m, skip_while is_space_or_dot (m ++ x :: l) = skip_while is_space_or_dot m ++ x :: l).
  { induction m as [|y m IH]; cbn; [by rw Hx|]. by case_match. }
  rw Hskip rev_app_distr -E rev_involutive. done.
Qed.

Lemma trim_prefix s : exists cut, s = trim_trailing_spaces_and_dots s ++ cut.
Proof.
  unfold trim_trailing_spaces_and_dots, skip_while_end. destruct (skip_while_suffix is_space_or_dot (rev s)) as (pre & E & _).
  exists (rev pre). rw -rev_app_distr -E rev_involutive. done.
Qed.

Lemma trim_dot_free s : dot_free s = true -> trim_trailing_spaces_and_dots s = s.
Proof. intros Hs. destruct s as [|c s]; [done|]. rw -{1}(app_nil_r (c :: s)) trim_suffix // app_nil_r. done. Qed.

(** Nothing, or a dot and more. *)
Definition dotted (rest : str) : Prop := rest = [] \/ exists more, rest = chr "." :: more.

Lemma dotted_app rest extension : dotted rest -> dotted extension -> dotted (rest ++ extension).
Proof. intros [->|[more ->]] H; [done|]. right. by exists (more ++ extension). Qed.

Lemma dotted_prefix rest pre cut : dotted rest -> rest = pre ++ cut -> dotted pre.
Proof. intros [->|[more ->]] E; [symmetry in E; apply app_nil in E as [-> _]; by left|]. destruct pre as [|c pre]; [by left|]. injection E as <- _. right. by exists pre. Qed.

Lemma base_token s rest : dot_free s = true -> s <> [] -> dotted rest -> device_base_token (s ++ rest) = s.
Proof.
  intros Hs Hne Hrest. unfold device_base_token. rw trim_suffix //. destruct (trim_prefix rest) as [cut E].
  assert (Hno : forall l, forallb (fun c => negb (chr "." =? c)) s = true -> split_once (N.eqb (chr ".")) (s ++ chr "." :: l) = Some (s, l)).
  { clear. induction s as [|c s IH]; intros l H; [done|]. cbn [app split_once]. apply andb_true_iff in H as [H1%negb_true_iff H2]. rw H1 IH //. }
  assert (Hd : forallb (fun c => negb (chr "." =? c)) s = true).
  { eapply forallb_impl; [|exact Hs]. intros c. unfold is_space_or_dot. chars. lia. }
  destruct (dotted_prefix _ _ _ Hrest E) as [->|[more ->]]; [rw app_nil_r|by rw Hno].
  assert (Hnone : split_once (N.eqb (chr ".")) s = None).
  { clear -Hd. induction s as [|c s IH]; [done|]. cbn [forallb] in Hd. apply andb_true_iff in Hd as [H1%negb_true_iff H2]. cbn. rw H1 IH //. }
  by rw Hnone.
Qed.

(** The letters of a device name. *)
Definition device_char (c : char) : bool := is_ascii_lowercase c || is_ascii_uppercase c || is_ascii_digit c || existsb (N.eqb c) [0xb9; 0xb2; 0xb3].

Lemma lower_device c : device_char (to_ascii_lowercase c) = true -> device_char c = true.
Proof. unfold device_char, to_ascii_lowercase, is_ascii_lowercase, is_ascii_uppercase, is_ascii_digit. cbn [existsb]. case_match; lia. Qed.

Lemma device_shape s : dot_free s = true -> device_base_matches s = true -> s <> [] /\ (length s <= 4)%nat /\ forallb device_char s = true.
Proof.
  intros Hs. unfold device_base_matches. rw trim_dot_free //. destruct s as [|c s]; [done|]. cbn [is_empty]. intros H.
  assert (Hlow : (length (ascii_lower (c :: s)) <= 4)%nat /\ forallb device_char (ascii_lower (c :: s)) = true).
  { destruct (existsb _ _) eqn:Ex in H.
    - apply existsb_exists in Ex as (name & Hin & E%str_eqb_eq). rw E. cbn in Hin.
      clear E. destruct Hin as [<-|[<-|[<-|[<-|[]]]]]; (split; [cbn; lia|reflexivity]).
    - destruct (ascii_lower (c :: s)) as [|x [|y [|z [|w [|]]]]]; try done. split; [cbn; lia|].
      assert (Hw : is_ascii_digit w || existsb (N.eqb w) [0xb9; 0xb2; 0xb3] = true -> device_char w = true).
      { intros [H1|H1]%orb_true_iff; unfold device_char; by rw H1 ?orb_true_r. }
      destruct (str_eqb [x; y; z] (lit "com")) eqn:E1.
      + apply str_eqb_eq in E1. injection E1 as -> -> ->. apply Hw in H. cbn [forallb]. by rw H.
      + destruct (str_eqb [x; y; z] (lit "lpt")) eqn:E2; [|done]. apply str_eqb_eq in E2. injection E2 as -> -> ->. apply Hw in H. cbn [forallb]. by rw H. }
  destruct Hlow as [Hl Hc]. unfold ascii_lower in *. rw length_fmap in Hl. split_and!; [done|done|].
  apply forallb_forall. intros x Hx. apply lower_device. apply (proj1 (forallb_forall _ _) Hc). apply in_map. exact Hx.
Qed.

(** What stands in a segment before its first dot. *)
Definition stem_of (s : str) : str * str := match split_once (N.eqb (chr ".")) s with Some (base, more) => (base, chr "." :: more) | None => (s, []) end.

Lemma stem_split s : forallb segment_char s = true -> let '(stem, rest) := stem_of s in s = stem ++ rest /\ dot_free stem = true /\ dotted rest.
Proof.
  assert (Hchars : forall l, forallb segment_char l = true -> forallb (fun c => negb (chr "." =? c)) l = true -> dot_free l = true).
  { intros l Hl Hd. apply forallb_forall. intros c Hc. pose proof (proj1 (forallb_forall _ _) Hl c Hc) as H1.
    pose proof (proj1 (forallb_forall _ _) Hd c Hc) as H2. cbn beta in H2. unfold is_space_or_dot. rw orb_comm N.eqb_sym. apply negb_true_iff in H2. rw H2. cbn [orb].
    apply negb_true_iff, N.eqb_neq. intros ->. by vm_compute in H1. }
  intros Hs. unfold stem_of. destruct (split_once _ s) as [[base more]|] eqn:E.
  - assert (Hsplit : s = base ++ chr "." :: more /\ forallb (fun c => negb (chr "." =? c)) base = true).
    { clear Hs Hchars. revert base E. induction s as [|c s IH]; intros base E; [done|]. cbn [split_once] in E.
      destruct (N.eqb_spec (chr ".") c) as [<-|Hne]; [by injection E as <- <-|]. destruct (split_once _ s) as [[b m]|] eqn:E'; [|done].
      cbn [mbind option_bind] in E. injection E as <- <-. destruct (IH b eq_refl) as [-> H]. split; [done|]. cbn [forallb]. rw H andb_true_r.
      by apply negb_true_iff, N.eqb_neq. }
    destruct Hsplit as [-> H]. rw forallb_app in Hs. apply andb_true_iff in Hs as [Hs _]. split_and!; [done|by apply Hchars|right; by exists more].
  - split_and!; [by rw app_nil_r| |by left]. apply Hchars; [done|]. clear Hs Hchars. induction s as [|c s IH]; [done|]. cbn [split_once] in E.
    destruct (chr "." =? c) eqn:Ec; [done|]. destruct (split_once _ s) as [[]|] eqn:E'; [done|]. cbn [forallb]. rw Ec. cbn. by apply IH.
Qed.

(** A name that is long or begins with a percent sign is no device's. *)
Lemma no_device s extension :
  forallb segment_char s = true -> dotted extension -> (head s = Some (chr "%") \/ (4 < length (stem_of s).1)%nat) ->
  is_win32_device_name s extension = false.
Proof.
  intros Hs He Hor. apply not_true_is_false. intros Hd. unfold is_win32_device_name in Hd. pose proof (stem_split s Hs) as H.
  destruct (stem_of s) as [stem rest]. cbn [fst] in Hor. destruct H as (-> & Hf & Hr).
  assert (Hne : stem <> []).
  { destruct Hor as [Hh|Hl]; [|by intros ->; cbn in Hl; lia]. intros ->. cbn in Hh. destruct Hr as [->|[more ->]]; done. }
  rw -app_assoc base_token // in Hd; [by apply dotted_app|]. apply device_shape in Hd as (_ & Hl & Hc); [|done].
  destruct Hor as [Hh|Hl']; [|lia]. destruct stem as [|c stem]; [done|]. injection Hh as ->. by vm_compute in Hc.
Qed.

(** Letters and digits before a dot stand for themselves. *)
Lemma encode_stem stem rest l :
  Forall (fun b => b < 256) l -> forallb device_char stem = true -> encode_storage_bytes l = stem ++ rest -> dotted rest ->
  exists l', l = stem ++ l' /\ dotted l'.
Proof.
  assert (Hstep : forall b l c s, encode_storage_bytes (b :: l) = c :: s -> c <> chr "%" -> b = c /\ encode_storage_bytes l = s).
  { intros b l0 c s E Hc. cbn [encode_storage_bytes] in E. case_match; cbn [app percent_encode_byte] in E; injection E as E1 E2; [done|congruence]. }
  revert l. induction stem as [|c stem IH]; intros l Hl Hs E Hr.
  - exists l. split; [done|]. destruct Hr as [->|[more ->]]; (destruct l as [|b l]; [by left|]).
    + exfalso. cbn [app encode_storage_bytes] in E. case_match; done.
    + apply Hstep in E as [-> _]; [|done]. right. by exists l.
  - cbn [forallb] in Hs. apply andb_true_iff in Hs as [Hc Hs]. destruct l as [|b l]; [done|]. cbn [app] in E. apply Hstep in E as [-> E].
    + apply Forall_cons in Hl as [_ Hl]. destruct (IH l Hl Hs E Hr) as (l' & -> & Hd). by exists l'.
    + intros ->. by vm_compute in Hc.
Qed.

Lemma bytes_stem text stem l :
  forallb is_scalar text = true -> forallb is_ascii stem = true -> as_bytes text = stem ++ l -> exists text', text = stem ++ text' /\ as_bytes text' = l.
Proof.
  revert text. induction stem as [|c stem IH]; intros text Hs Ha E; [by exists text|]. cbn [forallb] in Ha. apply andb_true_iff in Ha as [Hc Ha].
  destruct (as_bytes_cons_inv text c (stem ++ l) Hs E) as [_ H]. destruct (H Hc) as (text' & -> & E'). cbn [forallb] in Hs.
  apply andb_true_iff in Hs as [_ Hs]. destruct (IH text' Hs Ha E') as (text'' & -> & ?). by exists text''.
Qed.

(** What the encoding leaves of a text is a device only if the text is one. *)
Lemma encode_device text extension :
  forallb is_scalar text = true -> dotted extension -> is_win32_device_name text extension = false ->
  is_win32_device_name (encode_storage_bytes (as_bytes text)) extension = false.
Proof.
  intros Hs He Hd. apply not_true_is_false. intros Hseg. apply (eq_true_false_abs _) in Hd; [done|]. clear Hd.
  pose proof (as_bytes_octets text Hs) as Hb. pose proof (stem_split _ (encode_segment _ Hb)) as Hstem. unfold is_win32_device_name in *.
  destruct (stem_of _) as [stem rest]. destruct Hstem as (E & Hf & Hr). rw E -app_assoc in Hseg. destruct stem as [|c stem].
  { exfalso. destruct (dotted_app _ _ Hr He) as [E2|[more E2]]; cbn [app] in Hseg; rw E2 in Hseg; [done|].
    unfold device_base_token in Hseg. destruct (trim_prefix (chr "." :: more)) as [cut Hcut].
    destruct (dotted_prefix (chr "." :: more) _ _ (or_intror (ex_intro _ more eq_refl)) Hcut) as [E3|[more' E3]]; rw E3 in Hseg; done. }
  rw base_token // in Hseg; [by apply dotted_app|]. pose proof (device_shape _ Hf Hseg) as (_ & _ & Hc).
  destruct (encode_stem _ _ _ Hb Hc E Hr) as (l' & El & Hl').
  assert (Hascii : forallb is_ascii (c :: stem) = true).
  { assert (Hseg' : forallb segment_char (c :: stem) = true) by (pose proof (encode_segment _ Hb) as H; rw E forallb_app in H; by apply andb_true_iff in H as [H _]).
    eapply forallb_impl; [apply segment_char_ascii|exact Hseg']. }
  destruct (bytes_stem _ _ _ Hs Hascii El) as (text' & -> & El'). rw -app_assoc base_token //. apply dotted_app; [|done].
  destruct Hl' as [->|[more ->]].
  - destruct text' as [|c' text']; [by left|]. exfalso. apply as_bytes_nonempty in El'; [done|].
    rw forallb_app in Hs. by apply andb_true_iff in Hs as [_ Hs].
  - rw forallb_app in Hs. apply andb_true_iff in Hs as [_ Hs]. destruct (as_bytes_cons_inv _ _ _ Hs El') as [_ H].
    destruct (H eq_refl) as (t & -> & _). right. by exists t.
Qed.

Section Segment.
Context `{crypto : Crypto} (Hdigest : Digest32).
Implicit Types (text : str) (ext : option str).

Lemma hex_bytes l : Forall (fun b => b < 256) l -> forallb is_lower_hex (mbind hex_byte l) = true /\ length (mbind hex_byte l) = (2 * length l)%nat.
Proof using Type.
  induction 1 as [|b l Hb Hl [IH1 IH2]]; [done|]. cbn [mbind list_bind]. rw forallb_app length_app IH1 IH2. split; [|cbn; lia].
  cbn [hex_byte forallb]. rw (proj2 (hex_digit_segment (b / 16) _)); [apply N.Div0.div_lt_upper_bound; lia|].
  by rw (proj2 (hex_digit_segment (b mod 16) _)); [apply N.mod_lt|].
Qed.

Lemma hashed_is_hash l : storage_segment_is_hash (hash_long_segment l) = true /\ forallb segment_char (hash_long_segment l) = true.
Proof using Hdigest.
  destruct (Hdigest l) as [Hlen Hall]. destruct (hex_bytes _ Hall) as [Hhex Hl]. unfold hash_long_segment.
  assert (Hseg : forallb segment_char (chr "h" :: mbind hex_byte (sha256 l)) = true).
  { cbn [forallb]. apply andb_true_iff. split; [done|]. eapply forallb_impl; [|exact Hhex].
    intros c. unfold is_lower_hex, segment_char, is_ascii_lowercase, is_ascii_digit. lia. }
  split; [|done]. unfold storage_segment_is_hash. rw segment_bytes // Hl Hlen Hhex. done.
Qed.

(** The ways a segment is made. *)
Inductive made text (extension segment : str) : Prop :=
| made_dots : is_dots text = true -> segment = lit "_" -> made text extension segment
| made_hash : is_dots text = false -> segment = hash_long_segment (as_bytes text) -> made text extension segment
| made_plain :
    is_dots text = false -> is_win32_device_name text extension = false -> segment = encode_storage_bytes (as_bytes text) ->
    str_len segment + str_len extension <= 255 -> storage_segment_is_hash segment = false -> made text extension segment
| made_escaped first rest :
    is_dots text = false -> as_bytes text = first :: rest -> segment = percent_encode_byte first ++ encode_storage_bytes rest ->
    (str_len segment + str_len extension <= 255 \/ length segment = 67%nat) -> made text extension segment.

Lemma segment_made text ext : forallb is_scalar text = true -> made text (default [] ext) (storage_segment text ext).
Proof using Type.
  intros Hs. pose proof (as_bytes_octets text Hs) as Hb. unfold storage_segment. destruct (is_dots text) eqn:Ed; [by apply made_dots|]. cbv zeta.
  set (extension := default [] ext). set (utf8 := as_bytes text) in *.
  set (segment := if is_win32_device_name text extension then _ else _). destruct (N.ltb_spec 255 (str_len segment + str_len extension)) as [|Hlen]; [by apply made_hash|].
  assert (Hne : utf8 <> []) by by intros E%as_bytes_nonempty; [subst text|].
  destruct (storage_segment_is_hash segment) eqn:Eh.
  - destruct utf8 as [|b rest] eqn:Eu; [done|]. apply Forall_cons in Hb as [Hb Hrest].
    assert (Hseg : forallb segment_char segment = true).
    { unfold segment. case_match; [cbn [encode_with_leading_escape]; rw forallb_app percent_segment // encode_segment //|].
      apply encode_segment. by constructor. }
    destruct (hash_shape _ Eh) as (digits & E & Hd & _). rw segment_bytes // in E.
    assert (Hplain : segment = chr "h" :: encode_storage_bytes rest /\ b = chr "h").
    { unfold segment in *. case_match; [by cbn in E|]. cbn [encode_storage_bytes] in *. case_match; [|by cbn in E]. cbn [app] in *.
      injection E as ->. done. }
    destruct Hplain as [Eseg ->]. apply (made_escaped _ _ _ (chr "h") rest); [done|by unfold utf8 in Eu|by rw Eseg|]. right.
    rw E. cbn [tail]. rw length_app Hd. done.
  - unfold segment in *. destruct (is_win32_device_name text extension) eqn:Ew; [|by apply made_plain].
    destruct utf8 as [|b rest] eqn:Eu; [done|]. apply (made_escaped _ _ _ b rest); [done|by unfold utf8 in Eu|done|by left].
Qed.

(** A segment is read back: decoding the name of a file gives the text it was made from,
    unless the text was hashed for its length or is one of the dot names. *)
Theorem segment_decodes text ext :
  forallb is_scalar text = true -> is_dots text = false -> storage_segment_is_hash (storage_segment text ext) = false ->
  decode_storage_segment (storage_segment text ext) = text.
Proof using Hdigest.
  intros Hs Hd Hh. pose proof (as_bytes_octets text Hs) as Hb. unfold decode_storage_segment. rw Hh.
  assert (Hdec : decode_bytes (as_bytes (storage_segment text ext)) = as_bytes text).
  { destruct (segment_made text ext Hs) as [?|_ E|_ _ E _ _|first rest _ E1 E2 _]; [congruence| | |].
    - destruct (hashed_is_hash (as_bytes text)). congruence.
    - rw E segment_bytes; [by apply encode_segment|]. by apply decode_encode.
    - rw E1 in Hb. rw E2 E1. apply Forall_cons in Hb as [Hf Hr]. rw segment_bytes; [rw forallb_app percent_segment // encode_segment //|].
      rw decode_percent // decode_encode //. }
  rw Hdec from_utf8_lossy_as_bytes //. destruct text as [|c text]; [done|]. done.
Qed.
Lemma encode_last l : l <> [] -> Forall (fun b => b < 256) l -> last (encode_storage_bytes l) <> Some (chr ".").
Proof using Type.
  intros Hne Hl. induction Hl as [|b l Hb Hl IH]; [done|]. cbn [encode_storage_bytes]. destruct l as [|b' l].
  - cbn [is_empty encode_storage_bytes]. rw app_nil_r. case_match eqn:E; [|].
    + intros [= ->]. vm_compute in E. done.
    + intros [= H]. destruct (nibbles b Hb) as [_ Hn]. destruct (hex_digit_segment _ Hn) as [_ Hd]. rw H in Hd. done.
  - rw last_app. destruct (last (encode_storage_bytes (b' :: l))) as [c|] eqn:E; [by apply IH|]. apply last_None in E.
    exfalso. cbn [encode_storage_bytes] in E. case_match; done.
Qed.

Lemma escaped_last b l : b < 256 -> Forall (fun b => b < 256) l -> last (percent_encode_byte b ++ encode_storage_bytes l) <> Some (chr ".").
Proof using Type.
  intros Hb Hl. rw last_app. destruct l as [|b' l]; [|destruct (last _) eqn:E; [rw -E; by apply encode_last|]].
  - cbn. intros [= H]. destruct (nibbles b Hb) as [_ Hn]. destruct (hex_digit_segment _ Hn) as [_ Hd]. rw H in Hd. done.
  - apply last_None in E. exfalso. cbn [encode_storage_bytes] in E. case_match; done.
Qed.

Lemma no_dot_stem s : forallb is_lower_hex (tail s) = true -> head s = Some (chr "h") -> stem_of s = (s, []).
Proof using Type.
  intros Hs Hh. unfold stem_of. assert (Hnone : split_once (N.eqb (chr ".")) s = None); [|by rw Hnone].
  destruct s as [|c s]; [done|]. injection Hh as ->. cbn [tail] in Hs. cbn [split_once]. change (chr "." =? chr "h") with false. cbv iota.
  assert (H : split_once (N.eqb (chr ".")) s = None); [|by rw H]. induction s as [|c s IH]; [done|]. cbn [forallb] in Hs. apply andb_true_iff in Hs as [Hc Hs].
  cbn [split_once]. destruct (N.eqb_spec (chr ".") c) as [<-|_]; [by vm_compute in Hc|]. by rw IH.
Qed.

(** C28: a segment is a file name on every system the client runs on, whatever a server calls a
    channel or a nick: it is not empty, it has only lower case letters, digits and the signs of
    the list (no separator, no control, no colon, no space), it does not end with a dot, so it
    is neither the folder nor its parent, it is not the name of a device, and with its extension
    it fits the 255 bytes of a directory entry. *)
Theorem segment_is_file_name text ext :
  forallb is_scalar text = true -> dotted (default [] ext) -> str_len (default [] ext) <= 188 ->
  let segment := storage_segment text ext in
  segment <> [] /\ forallb segment_char segment = true /\ last segment <> Some (chr ".") /\
  is_win32_device_name segment (default [] ext) = false /\ str_len segment + str_len (default [] ext) <= 255.
Proof using Hdigest.
  intros Hs He Hl segment. pose proof (as_bytes_octets text Hs) as Hb. pose proof (segment_made text ext Hs) as H. fold segment in H.
  assert (Hne : is_dots text = false -> as_bytes text <> []) by by intros Hd E%as_bytes_nonempty; [subst text|].
  destruct H as [_ E|Hd E|Hd Hw E Hlen _|first rest Hd Eb E Hlen].
  - rw E. split_and!; [done|done|done|by unfold is_win32_device_name; rw base_token|]. change (str_len (lit "_")) with 1. lia.
  - rw E. destruct (hashed_is_hash (as_bytes text)) as [Hh Hseg]. destruct (hash_shape _ Hh) as (digits & Ed & Hld & Hhex). rw segment_bytes // in Ed.
    assert (Hlast : last (hash_long_segment (as_bytes text)) <> Some (chr ".")).
    { rw Ed. intros Hlast. destruct (last digits) as [c|] eqn:Ec; [|by apply last_None in Ec; subst digits].
      rw (last_cons (chr "h") digits) Ec in Hlast. injection Hlast as ->. apply last_Some in Ec as [l ->]. rw forallb_app in Hhex.
      by apply andb_true_iff in Hhex as [_ Hhex]. }
    split_and!; [done|done|done| |].
    + apply no_device; [done|done|]. right. rw no_dot_stem; [by rw Ed|by rw Ed|]. rw Ed. cbn [fst length]. lia.
    + unfold str_len, blen. rw segment_bytes // Ed. cbn [length]. rw Hld. unfold str_len, blen in Hl. lia.
  - rw E. split_and!; [|by apply encode_segment|by apply encode_last; [apply Hne|]|by apply encode_device|by rw -E].
    destruct (as_bytes text) as [|b l]; [by apply Hne in Hd|]. cbn [encode_storage_bytes]. by case_match.
  - rw Eb in Hb. apply Forall_cons in Hb as [Hf Hr].
    assert (Hseg : forallb segment_char segment = true) by by rw E forallb_app percent_segment // encode_segment //.
    split_and!; [by rw E|done|by rw E; apply escaped_last| |].
    + apply no_device; [done|done|]. left. by rw E.
    + destruct Hlen as [?|Hlen]; [done|]. unfold str_len at 1, blen. rw segment_bytes // Hlen. lia.
Qed.

Lemma hex_digit_inj a b : a < 16 -> b < 16 -> hex_digit a = hex_digit b -> a = b.
Proof using Type. unfold hex_digit. destruct (N.ltb_spec a 10), (N.ltb_spec b 10); lia. Qed.

Lemma hex_inj l l' : Forall (fun b => b < 256) l -> Forall (fun b => b < 256) l' -> mbind hex_byte l = mbind hex_byte l' -> l = l'.
Proof using Type.
  intros Hl. revert l'. induction Hl as [|b l Hb Hl IH]; intros [|b' l'] Hl' E; [done|done|done|]. apply Forall_cons in Hl' as [Hb' Hl'].
  cbn [mbind list_bind hex_byte app] in E. injection E as E1 E2 E.
  apply hex_digit_inj in E1; [|apply N.Div0.div_lt_upper_bound; lia|apply N.Div0.div_lt_upper_bound; lia].
  apply hex_digit_inj in E2; [|by apply N.mod_lt|by apply N.mod_lt]. f_equal; [|by apply IH].
  rw (N.div_mod' b 16) (N.div_mod' b' 16) E1 E2. done.
Qed.

Lemma segment_hashed text ext :
  forallb is_scalar text = true -> is_dots text = false -> storage_segment_is_hash (storage_segment text ext) = true ->
  storage_segment text ext = hash_long_segment (as_bytes text).
Proof using Type.
  intros Hs Hd Hh. destruct (segment_made text ext Hs) as [?|_ E|_ _ _ _ ?|first rest _ Eb E _]; [congruence|done|congruence|].
  apply hash_shape in Hh as (digits & Eh & _). pose proof (as_bytes_octets text Hs) as Hb. rw Eb in Hb. apply Forall_cons in Hb as [Hf Hr].
  rw E segment_bytes in Eh; [by rw forallb_app percent_segment // encode_segment //|done].
Qed.

End Segment.

Lemma segment_decodes_witness :
  decode_storage_segment (@storage_segment digest_crypto (lit "#Caf" ++ [0xe9] ++ lit "/..") None) = lit "#Caf" ++ [0xe9] ++ lit "/..".
Proof. apply (@segment_decodes digest_crypto digest_crypto_32); reflexivity. Defined.

Lemma segment_is_file_name_witness : forallb segment_char (@storage_segment digest_crypto (lit "../../CON") (Some (lit ".log"))) = true.
Proof.
  destruct (@segment_is_file_name digest_crypto digest_crypto_32 (lit "../../CON") (Some (lit ".log"))) as (_ & H & _);
    [reflexivity|right; by exists (lit "log")|vm_compute; discriminate|exact H].
Defined.

