(* ===== verification/ConversationLog.v ===== *)
(** * ConversationLog: transcripts on disk (src/client/src/storage/conversationlog.rs)

    One file per network and conversation, one JSON record per line, oldest first. A line is
    appended, older lines are put in front with an atomic write, and the newest lines are read
    from the end in chunks. The folder is a table of folders of files; how the operations of
    the file system turn out is an argument. *)

From S2P Require Import Prelude Text Utf OrdMap SettingsIni SessionTypes CaseMapping CommandBuilder ServerFeatures Platform Sts Scram StoragePath.
From S2P Require Import Presence Events Conversation MembershipNoise ReducerState ReducerTranscript.

(** ** Records (serde_json writes and reads them) *)

Record ConversationLogRecord := mkRecord {
  record_timestamp : str;
  record_author : str;
  record_kind : str;
  record_body : str;
  record_msgid : str;
  record_only_visible_to_you : bool;
}.

(** [serde_json::to_vec] and [serde_json::from_slice] of a record. *)
Class LogJson := {
  json_of_record : ConversationLogRecord -> bytes;
  record_of_json : bytes -> option ConversationLogRecord;
}.

(** ** The folder of the transcripts *)

Definition LogTree : Type := gmap str (gmap str bytes).

(** A file below the root: its folder and its name. *)
Abbreviation LogPath := (str * str)%type (only parsing).

(** How the file system answers one call: whether folders can be made and renames and atomic
    writes land, after how many bytes a plain write fails, which names lead to one folder
    behind a link, and the time. *)
Record Outcome := mkOutcome {
  dirs_made : bool;
  moves_land : bool;
  write_fails_after : option nat;
  paths_same_file : str -> str -> bool;
  clock_now : Time;
}.

Definition dir_exists (t : LogTree) (dir : str) : bool := bool_decide (is_Some (t !! dir)).
Definition file_at (t : LogTree) (path : LogPath) : option bytes := let? files := t !! path.1 in files !! path.2.
Definition file_exists (t : LogTree) (path : LogPath) : bool := bool_decide (is_Some (file_at t path)).

Definition make_dir (t : LogTree) (dir : str) : LogTree := <[dir := default ∅ (t !! dir)]> t.
Definition put_file (t : LogTree) (path : LogPath) (contents : bytes) : LogTree := <[path.1 := <[path.2 := contents]> (default ∅ (t !! path.1))]> t.
Definition drop_file (t : LogTree) (path : LogPath) : LogTree := alter (delete path.2) path.1 t.

(** [std::fs::rename] of a folder to a name that is free, and of a file. *)
Definition rename_dir (t : LogTree) (old new : str) : LogTree := <[new := default ∅ (t !! old)]> (delete old t).
Definition rename_file (t : LogTree) (old new : LogPath) : LogTree := put_file (drop_file t old) new (default [] (file_at t old)).

Definition prepare_tree (t : LogTree) (path : LogPath) (o : Outcome) : LogTree * bool :=
  if dirs_made o then (make_dir t path.1, true) else (t, false).

Section Log.
Context `{platform : Platform} `{policy : SecretPolicy} `{crypto : Crypto} `{json : LogJson}.

(** ** Lines *)

Definition channel_types_default : str := channel_types new_features.

Definition trim_bytes (raw : bytes) : bytes := skip_while_end is_ascii_whitespace (skip_while is_ascii_whitespace raw).

Definition flatten_text (text : str) : str := (fun ch => if (ch =? 10) || (ch =? 13) then 32 else ch) <$> text.

Definition iso_date_with_ms (when : Time) : str := chrono_format when (lit "%Y-%m-%dT%H:%M:%S%.3fZ").

Definition format_line (line : TranscriptLine) (now : Time) : bytes :=
  let when := if (line_timestamp line =? zero_time)%Z then now else line_timestamp line in
  json_of_record (mkRecord (iso_date_with_ms when) (flatten_text (line_author line)) (line_kind line) (flatten_text (line_body line))
    (line_msgid line) (line_only_visible line)) ++ [10].

Definition parse_timestamp (text : str) : Time :=
  match parse_from_rfc3339 text with
  | Some parsed => parsed
  | None => default 0%Z (parse_from_str text (lit "%Y-%m-%dT%H:%M:%S%.3fZ"))
  end.

Definition parse_line (raw : bytes) : option TranscriptLine :=
  let? record := record_of_json raw in
  if is_empty (record_kind record) then None
  else Some (mkLine (parse_timestamp (record_timestamp record)) (record_author record) (record_kind record) (record_body record)
    (record_msgid record) (record_only_visible_to_you record)).
Definition allowed_in_log (author body : str) : bool := allows_transcript body channel_types_default && allows_transcript author channel_types_default.

(** ** Where a conversation is *)

Definition dir_segments_share_location (o : Outcome) (left_segment right_segment : str) : bool :=
  str_eqb left_segment right_segment || paths_same_file o left_segment right_segment.

(** The closure [try_migrate_file], over the tree and the path resolved so far. *)
Definition try_migrate_file (new_path : LogPath) (o : Outcome) (st : LogTree * LogPath) (legacy_path : LogPath) : LogTree * LogPath :=
  let '(t, resolved) := st in
  if negb (file_exists t legacy_path) then st
  else if file_exists t new_path || bool_decide (legacy_path = new_path) then st
  else
    let '(t, made) := prepare_tree t new_path o in
    if made && moves_land o then (rename_file t legacy_path new_path, resolved)
    else if file_exists t legacy_path then (t, legacy_path)
    else (t, resolved).

(** The folder of the network, renamed if it can be. *)
Definition resolve_network_dir (t : LogTree) (legacy_network_dir new_network_dir : str) (o : Outcome) : LogTree * str :=
  let legacy_network_dir_exists := dir_exists t legacy_network_dir in
  let new_network_dir_exists := dir_exists t new_network_dir in
  if negb (str_eqb legacy_network_dir new_network_dir) then
    let shared := dir_segments_share_location o legacy_network_dir new_network_dir in
    if negb shared && legacy_network_dir_exists && negb new_network_dir_exists then
      if moves_land o then (rename_dir t legacy_network_dir new_network_dir, new_network_dir) else (t, legacy_network_dir)
    else if new_network_dir_exists then (t, new_network_dir)
    else (t, legacy_network_dir)
  else if new_network_dir_exists then (t, new_network_dir)
  else (t, legacy_network_dir).

Definition migrate_legacy_transcript_path (t : LogTree) (network target : str) (new_path : LogPath) (o : Outcome) : LogTree * LogPath :=
  let legacy_network_dir := legacy_storage_segment network in
  let new_network_dir := storage_segment network None in
  let legacy_network_dir_exists := dir_exists t legacy_network_dir in
  let '(t, network_dir) := resolve_network_dir t legacy_network_dir new_network_dir o in
  let st := try_migrate_file new_path o (t, new_path) (network_dir, legacy_storage_segment target) in
  if negb (str_eqb legacy_network_dir new_network_dir) && legacy_network_dir_exists
  then try_migrate_file new_path o st (legacy_network_dir, legacy_storage_segment target)
  else st.

Definition path_for (t : LogTree) (network target : str) (o : Outcome) : LogTree * LogPath :=
  migrate_legacy_transcript_path t network target (storage_segment network None, wire_storage_segment target None) o.

(** ** Writing *)

(** [append_bytes]; a write that fails leaves what it has written. *)
Definition append_bytes (t : LogTree) (path : LogPath) (line : bytes) (o : Outcome) : LogTree * bool :=
  let '(t, made) := prepare_tree t path o in
  if negb made then (t, false)
  else
    let written := match write_fails_after o with Some n => take n line | None => line end in
    (put_file t path (default [] (file_at t path) ++ written), bool_decide (write_fails_after o = None)).

Definition prepend_bytes (t : LogTree) (path : LogPath) (lines : list bytes) (o : Outcome) : LogTree * bool :=
  let '(t, made) := prepare_tree t path o in
  if negb made then (t, false)
  else
    let existing := default [] (file_at t path) in
    if moves_land o then (put_file t path (concat lines ++ existing), true) else (t, false).

Definition append (t : LogTree) (network target : str) (mapping : IrcCaseMapping) (line : TranscriptLine) (o : Outcome) : LogTree * bool :=
  if is_empty (line_kind line) || is_empty (line_body line) then (t, true)
  else if negb (allowed_in_log (line_author line) (line_body line)) then (t, true)
  else
    let '(t, path) := path_for t network target o in
    append_bytes t path (format_line line (clock_now o)) o.

Definition logged (line : TranscriptLine) : bool :=
  negb (is_empty (line_kind line)) && negb (is_empty (line_body line)) && allowed_in_log (line_author line) (line_body line).

Definition prepend (t : LogTree) (network target : str) (mapping : IrcCaseMapping) (lines : list TranscriptLine) (o : Outcome) : LogTree * bool :=
  let encoded := (fun line => format_line line (clock_now o)) <$> base.filter (fun line => logged line = true) lines in
  if is_empty encoded then (t, true)
  else
    let '(t, path) := path_for t network target o in
    prepend_bytes t path encoded o.

(** ** Reading from the end *)

Definition CHUNK_SIZE : nat := 4096.

(** [accept_tail_line]: the lines found so far, newest first, and whether they are enough. *)
Definition accept_tail_line (raw : bytes) (lines : list TranscriptLine) (max_lines : nat) : list TranscriptLine * bool :=
  let raw := trim_bytes raw in
  if is_empty raw then (lines, false)
  else
    let?? parsed := parse_line raw else (lines, false) in
    if negb (allowed_in_log (line_author parsed) (line_body parsed)) then (lines, false)
    else let lines := lines ++ [parsed] in (lines, (length lines =? max_lines)%nat).

(** The loop over the newlines of what is pending. *)
Fixpoint pending_loop (fuel : nat) (pending : bytes) (lines : list TranscriptLine) (max_lines : nat) : bytes * list TranscriptLine :=
  match fuel with
  | O => (pending, lines)
  | S fuel =>
      let?? newline := rposition (N.eqb 10) pending else (pending, lines) in
      let raw := drop (S newline) pending in
      let pending := take newline pending in
      let '(lines, enough) := accept_tail_line raw lines max_lines in
      if enough then (pending, lines) else pending_loop fuel pending lines max_lines
  end.

(** The loop over the chunks of the file, from its end. *)
Fixpoint chunk_loop (fuel : nat) (contents : bytes) (position : nat) (pending : bytes) (lines : list TranscriptLine) (max_lines : nat)
    : nat * bytes * list TranscriptLine :=
  match fuel with
  | O => (position, pending, lines)
  | S fuel =>
      if (0 <? position)%nat && (length lines <? max_lines)%nat then
        let bytes_to_read := Nat.min position CHUNK_SIZE in
        let position := (position - bytes_to_read)%nat in
        let chunk := take bytes_to_read (drop position contents) in
        let pending := chunk ++ pending in
        let '(pending, lines) := pending_loop (S (length pending)) pending lines max_lines in
        chunk_loop fuel contents position pending lines max_lines
      else (position, pending, lines)
  end.

Definition read_tail_file (contents : bytes) (max_lines : nat) : list TranscriptLine :=
  let size := length contents in
  let '(position, pending, lines) := chunk_loop (S size) contents size [] [] max_lines in
  let lines :=
    if (position =? 0)%nat && (length lines <? max_lines)%nat then (accept_tail_line pending lines max_lines).1 else lines in
  rev lines.

Definition read_tail (t : LogTree) (network target : str) (mapping : IrcCaseMapping) (max_lines : nat) (o : Outcome) : LogTree * list TranscriptLine :=
  if (max_lines =? 0)%nat then (t, [])
  else
    let '(t, path) := path_for t network target o in
    (t, match file_at t path with Some contents => read_tail_file contents max_lines | None => [] end).
End Log.
