(* ===== verification/ConversationLogProperties.v ===== *)
(** * ConversationLogProperties: what the transcripts on disk promise
    (src/client/src/storage/conversationlog.rs)

    The chunks in which a file is read do not matter: the tail is the last lines of the file. A
    file is the list of its records, in order, whatever is appended or put in front. Moving a
    file to its new name loses none. *)

From S2P Require Import Prelude Text Utf OrdMap SettingsIni SessionTypes CaseMapping CommandBuilder ServerFeatures Platform Sts Scram StoragePath.
From S2P Require Import Presence Events Conversation MembershipNoise ReducerState ReducerTranscript StsStoreProperties ConversationLog.

(** ** Newlines from the end *)

Section Runs.
Context {A : Type} (p : A -> bool).
Implicit Types l : list A.

Definition unmatched l : bool := forallb (fun y => negb (p y)) l.

Lemma rposition_split l i : rposition p l = Some i -> exists x, p x = true /\ l = take i l ++ x :: drop (S i) l /\ unmatched (drop (S i) l) = true.
Proof using Type.
  unfold rposition. destruct (position p (rev l)) as [j|] eqn:E; [|done]. intros [= <-]. pose proof (position_lt _ _ _ E) as Hj.
  apply position_Some in E as (x & E & Hx & Hall). exists x. split; [done|]. set (a := take j (rev l)) in *. set (b := drop (S j) (rev l)) in *.
  assert (El : l = rev b ++ x :: rev a).
  { rw -(rev_involutive l) E rev_app_distr. cbn. by rw -app_assoc. }
  assert (Ha : length a = j) by (unfold a; rw length_take; lia).
  assert (Hi : (length l - 1 - j)%nat = length (rev b)).
  { rw El length_app. cbn. rw !length_rev Ha. lia. }
  rw Hi. assert (Hd : drop (S (length (rev b))) l = rev a) by by rw El drop_app_ge; [lia|]; replace (S (length (rev b)) - length (rev b))%nat with 1%nat by lia.
  rw Hd. split; [by rw {2}El take_app_length|]. apply forallb_forall. intros y Hy. apply in_rev in Hy. exact (proj1 (forallb_forall _ _) Hall y Hy).
Qed.

Lemma rposition_None l : rposition p l = None -> unmatched l = true.
Proof using Type.
  unfold rposition. destruct (position p (rev l)) eqn:E; [done|]. intros _. apply position_None in E. apply forallb_forall. intros y Hy.
  apply in_rev in Hy. exact (proj1 (forallb_forall _ _) E y Hy).
Qed.

Lemma split_on_end l x run : p x = true -> unmatched run = true -> split_on p (l ++ x :: run) = split_on p l ++ [run].
Proof using Type.
  intros Hx Hr. induction l as [|y l IH].
  - cbn [app split_on]. by rw Hx split_on_id.
  - cbn [app split_on]. rw IH. destruct (p y); [done|]. destruct (split_on p l) as [|r rs] eqn:E; [by apply split_on_nonempty in E|done].
Qed.
End Runs.

(** The last [n] of a list. *)
Definition last_n {A} (n : nat) (l : list A) : list A := drop (length l - n) l.

Lemma last_n_all {A} n (l : list A) : (length l <= n)%nat -> last_n n l = l.
Proof. intros H. unfold last_n. by replace (length l - n)%nat with 0%nat by lia. Qed.

Lemma last_n_app {A} n (l l' : list A) : length l' = n -> last_n n (l ++ l') = l'.
Proof. intros H. unfold last_n. rw length_app H. replace (length l + n - n)%nat with (length l) by lia. apply drop_app_length. Qed.

Section Tail.
Context `{platform : Platform} `{policy : SecretPolicy} `{json : LogJson}.

(** The line of a run of bytes, if it is one. *)
Definition accepted (raw : bytes) : option TranscriptLine :=
  let raw := trim_bytes raw in
  if is_empty raw then None
  else let? parsed := parse_line raw in if allowed_in_log (line_author parsed) (line_body parsed) then Some parsed else None.

(** The lines of a file, oldest first. *)
Definition lines_of (contents : bytes) : list TranscriptLine := omap accepted (split_on (N.eqb 10) contents).

Lemma accept_is raw lines n :
  accept_tail_line raw lines n =
  match accepted raw with Some parsed => (lines ++ [parsed], (length (lines ++ [parsed]) =? n)%nat) | None => (lines, false) end.
Proof using Type.
  unfold accept_tail_line, accepted. cbv zeta. destruct (is_empty _); [done|]. destruct (parse_line _) as [parsed|]; [|done].
  cbn [mbind option_bind]. by destruct (allowed_in_log _ _).
Qed.

Lemma omap_rev {B C} (f : B -> option C) (l : list B) : omap f (rev l) = rev (omap f l).
Proof using Type.
  induction l as [|x l IH]; [done|]. cbn [rev]. rw omap_app IH. cbn. destruct (f x); [done|]. by rw app_nil_r.
Qed.

(** What the loops have taken: [raws] are the runs behind [pending], newest first. *)
Definition taken (n : nat) (before pending : bytes) (lines : list TranscriptLine) (whole raws : list bytes) : Prop :=
  whole = split_on (N.eqb 10) (before ++ pending) ++ rev raws /\ lines = omap accepted raws /\ (length lines <= n)%nat /\
  (length lines < n -> unmatched (N.eqb 10) pending = true)%nat.

Lemma pending_loop_taken fuel n before pending lines whole raws :
  (length pending < fuel)%nat -> whole = split_on (N.eqb 10) (before ++ pending) ++ rev raws -> lines = omap accepted raws -> (length lines < n)%nat ->
  let '(pending', lines') := pending_loop fuel pending lines n in exists raws', taken n before pending' lines' whole raws'.
Proof using Type.
  revert pending lines raws. induction fuel as [|fuel IH]; intros pending lines raws Hf Hw Hl Hn; [lia|]. cbn [pending_loop].
  destruct (rposition (N.eqb 10) pending) as [newline|] eqn:Er.
  2: { exists raws. split_and!; [done|done|lia|]. intros _. by apply rposition_None. }
  apply rposition_split in Er as Hsplit. destruct Hsplit as (x & Hx & Ep & Hu). set (raw := drop (S newline) pending) in *.
  set (rest := take newline pending) in *. rw accept_is. cbv zeta.
  assert (Hw' : whole = split_on (N.eqb 10) (before ++ rest) ++ rev (raws ++ [raw])).
  { rw Hw Ep app_assoc split_on_end // rev_app_distr -app_assoc. done. }
  assert (Hlen : (length rest < fuel)%nat).
  { apply (f_equal length) in Ep. rw length_app in Ep. cbn in Ep. lia. }
  destruct (accepted raw) as [parsed|] eqn:Ea.
  - assert (Hl' : lines ++ [parsed] = omap accepted (raws ++ [raw])) by by rw Hl omap_app; cbn; rw Ea.
    destruct (Nat.eqb_spec (length (lines ++ [parsed])) n) as [E|E].
    + exists (raws ++ [raw]). split_and!; [done|done|lia|lia].
    + apply (IH rest (lines ++ [parsed]) (raws ++ [raw])); [done|done|done|]. rw length_app in E |- *. cbn in *. lia.
  - apply (IH rest lines (raws ++ [raw])); [done|done| |done]. rw Hl omap_app. cbn. by rw Ea app_nil_r.
Qed.

Lemma chunk_loop_taken fuel n contents position pending lines whole raws :
  (position < fuel)%nat -> (position <= length contents)%nat -> taken n (take position contents) pending lines whole raws ->
  let '(position', pending', lines') := chunk_loop fuel contents position pending lines n in
  (exists raws', taken n (take position' contents) pending' lines' whole raws') /\ (position' = 0 \/ length lines' = n)%nat.
Proof using Type.
  revert position pending lines raws. induction fuel as [|fuel IH]; intros position pending lines raws Hf Hp Ht; [lia|]. cbn [chunk_loop].
  destruct (Nat.ltb_spec 0 position) as [Hpos|Hpos], (Nat.ltb_spec (length lines) n) as [Hn|Hn]; cbn [andb];
    try (split; [by exists raws|]; destruct Ht as (_ & _ & ? & _); lia).
  set (size := Nat.min position CHUNK_SIZE). assert (Hsize : (0 < size <= position)%nat) by (unfold size, CHUNK_SIZE; lia).
  set (chunk := take size (drop (position - size) contents)).
  assert (Hcut : take position contents = take (position - size) contents ++ chunk).
  { unfold chunk. rw -{1}(take_drop (position - size) contents) take_app take_take length_take. f_equal; [f_equal; lia|]. f_equal. lia. }
  destruct Ht as (Hw & Hl & _ & _). rw Hcut -app_assoc in Hw. cbv zeta.
  pose proof (pending_loop_taken (S (length (chunk ++ pending))) n (take (position - size) contents) (chunk ++ pending) lines whole raws ltac:(lia) Hw Hl Hn) as H.
  destruct (pending_loop _ _ _ _) as [pending' lines']. destruct H as [raws' Ht']. apply (IH (position - size)%nat pending' lines' raws'); [lia|lia|done].
Qed.

(** C26: the tail of a transcript is the last lines of its file. Whatever the file holds and
    wherever its chunks fall, reading it backwards 4096 bytes at a time gives the same as
    cutting the whole file into lines, dropping what is no record or may not be shown, and
    keeping the last ones, oldest first. *)
Theorem tail_is_last_lines contents n : (0 < n)%nat -> read_tail_file contents n = last_n n (lines_of contents).
Proof using Type.
  intros Hn. unfold read_tail_file. cbv zeta. unfold lines_of. set (whole := split_on (N.eqb 10) contents).
  pose proof (chunk_loop_taken (S (length contents)) n contents (length contents) [] [] whole []) as H.
  destruct (chunk_loop _ _ _ _ _ _) as [[position pending] lines]. destruct H as ([raws (Hw & Hl & Hle & Hu)] & Hend); [lia|lia| |].
  { split_and!; [by rw firstn_all !app_nil_r|done|cbn; lia|done]. }
  destruct (Nat.eqb_spec position 0) as [->|Hpos], (Nat.ltb_spec (length lines) n) as [Hlt|Hge]; cbn [andb].
  - rw take_0 split_on_id in Hw; [by apply Hu|]. rw accept_is. assert (E : whole = rev (raws ++ [pending])) by (rw rev_app_distr; exact Hw).
    rw E omap_rev omap_app -Hl. cbn. destruct (accepted pending) as [parsed|]; cbn [fst].
    + rw last_n_all // length_rev length_app. cbn. lia.
    + rw app_nil_r last_n_all // length_rev. lia.
  - rw Hw omap_app omap_rev -Hl. rw last_n_app // length_rev. lia.
  - destruct Hend; lia.
  - rw Hw omap_app omap_rev -Hl. rw last_n_app // length_rev. lia.
Qed.
End Tail.

(** ** Records and lines *)

(** What serde_json does with a record of text: it reads back what it writes, on one line that
    begins and ends with a brace. *)
Class LogJsonLaws `{json : LogJson} : Prop := {
  json_reads r :
    forallb is_scalar (record_author r ++ record_kind r ++ record_body r ++ record_msgid r ++ record_timestamp r) = true ->
    record_of_json (json_of_record r) = Some r;
  json_one_line r : forallb (fun b => negb (10 =? b)) (json_of_record r) = true;
  json_braces r : exists body, json_of_record r = chr "{" :: body ++ [chr "}"];
}.

Section Files.
Context `{platform : Platform} `{policy : SecretPolicy} `{json : LogJson} `{laws : !LogJsonLaws}.

(** A line as the file keeps it: one line of text, and the time to the precision printed. *)
Definition stored_line (line : TranscriptLine) (now : Time) : TranscriptLine :=
  let when := if (line_timestamp line =? zero_time)%Z then now else line_timestamp line in
  mkLine (parse_timestamp (iso_date_with_ms when)) (flatten_text (line_author line)) (line_kind line) (flatten_text (line_body line))
    (line_msgid line) (line_only_visible line).

(** What is read of a line that was written. *)
Definition kept_line (now : Time) (line : TranscriptLine) : option TranscriptLine :=
  if logged line && allowed_in_log (flatten_text (line_author line)) (flatten_text (line_body line)) then Some (stored_line line now) else None.

Definition scalar_line (line : TranscriptLine) (now : Time) : Prop :=
  forallb is_scalar (line_author line ++ line_kind line ++ line_body line ++ line_msgid line) = true /\
  forall when, forallb is_scalar (iso_date_with_ms when) = true.

Lemma flatten_scalar text : forallb is_scalar text = true -> forallb is_scalar (flatten_text text) = true.
Proof using Type.
  intros Hs. unfold flatten_text. apply forallb_forall. intros c (x & <- & Hx)%in_map_iff. case_match; [done|]. exact (proj1 (forallb_forall _ _) Hs x Hx).
Qed.

Lemma trim_braces body : trim_bytes (chr "{" :: body ++ [chr "}"]) = chr "{" :: body ++ [chr "}"].
Proof using Type.
  unfold trim_bytes, skip_while_end. cbn [skip_while]. change (is_ascii_whitespace (chr "{")) with false. cbv iota.
  change (chr "{" :: body ++ [chr "}"]) with ((chr "{" :: body) ++ [chr "}"]). rw rev_app_distr. cbn [rev app skip_while].
  change (is_ascii_whitespace (chr "}")) with false. cbv iota. change (chr "}" :: rev body ++ [chr "{"]) with ([chr "}"] ++ rev (chr "{" :: body)).
  by rw rev_app_distr rev_involutive.
Qed.

Lemma accepted_json r :
  forallb is_scalar (record_author r ++ record_kind r ++ record_body r ++ record_msgid r ++ record_timestamp r) = true -> record_kind r <> [] ->
  accepted (json_of_record r) =
  let line := mkLine (parse_timestamp (record_timestamp r)) (record_author r) (record_kind r) (record_body r) (record_msgid r) (record_only_visible_to_you r) in
  if allowed_in_log (record_author r) (record_body r) then Some line else None.
Proof using laws.
  intros Hs Hk. unfold accepted. destruct (json_braces r) as [body E]. assert (Et : trim_bytes (json_of_record r) = json_of_record r) by by rw E trim_braces.
  rw Et. cbv zeta. rw {1}E. cbn [is_empty]. unfold parse_line. rw json_reads //. cbn [mbind option_bind].
  destruct (record_kind r) eqn:Ek; [done|]. cbn [is_empty]. done.
Qed.

(** Whole lines: the file is empty or ends with a newline. *)
Definition whole_lines (contents : bytes) : Prop := contents = [] \/ last contents = Some 10.

Lemma lines_of_app contents more : whole_lines contents -> lines_of (contents ++ more) = lines_of contents ++ lines_of more.
Proof using Type.
  assert (Hgen : forall l, split_on (N.eqb 10) (l ++ 10 :: more) = split_on (N.eqb 10) l ++ split_on (N.eqb 10) more).
  { induction l as [|y l IH]; [done|]. cbn [app split_on]. rw IH. destruct (10 =? y); [done|]. destruct (split_on (N.eqb 10) l) as [|r rs] eqn:E; [by apply split_on_nonempty in E|done]. }
  intros [->|[l ->]%last_Some]; [done|]. unfold lines_of. rw -app_assoc. cbn [app]. rw Hgen split_on_end // !omap_app. cbn. by rw app_nil_r.
Qed.

Lemma format_line_lines line now :
  scalar_line line now -> logged line = true -> lines_of (format_line line now) = option_list (kept_line now line).
Proof using laws.
  intros [Hs Ht] Hl. unfold lines_of, format_line. set (r := mkRecord _ _ _ _ _ _). rw split_on_app; [apply json_one_line|done|]. cbn [split_on].
  assert (Hk : record_kind r <> []).
  { unfold logged in Hl. intros E. change (line_kind line = []) in E. by rw E in Hl. }
  cbn [omap list_omap]. rw accepted_json //.
  { cbn [record_author record_kind record_body record_msgid record_timestamp r]. rw !forallb_app !andb_true_iff in Hs. destruct Hs as (Ha & Hkind & Hbody & Hid).
    by rw !forallb_app !flatten_scalar // Hkind Hid Ht. }
  unfold kept_line. rw Hl. cbn [andb]. cbv zeta. change (accepted []) with (@None TranscriptLine). unfold r. cbn [record_author record_body]. by destruct (allowed_in_log _ _).
Qed.
Lemma format_line_whole line now : whole_lines (format_line line now).
Proof using Type. right. apply last_snoc. Qed.

Lemma whole_app contents more : whole_lines more -> more <> [] -> whole_lines (contents ++ more).
Proof using Type. intros [->|H] Hne; [done|]. right. by rw last_app H. Qed.

Lemma encoded_lines now lines :
  Forall (fun line => scalar_line line now) lines ->
  let encoded := concat ((fun line => format_line line now) <$> base.filter (fun line => logged line = true) lines) in
  whole_lines encoded /\ lines_of encoded = omap (kept_line now) lines.
Proof using laws.
  intros Hs. cbv zeta. induction Hs as [|line lines Hline Hs [IH1 IH2]]; [by split; [left|]|]. rw filter_cons. case_decide as Hl.
  - rw fmap_cons. cbn [concat]. split.
    + destruct (concat _) as [|b l] eqn:E; [rw app_nil_r; apply format_line_whole|]. by apply whole_app.
    + rw lines_of_app; [apply format_line_whole|]. rw format_line_lines // IH2. cbn [omap list_omap]. by destruct (kept_line now line).
  - split; [done|]. rw IH2. cbn [omap list_omap]. assert (E : kept_line now line = None); [|by rw E]. unfold kept_line.
    apply not_true_is_false in Hl. by rw Hl.
Qed.

(** A write that stops leaves the lines there were, and perhaps more. *)
Lemma torn_write contents piece : whole_lines contents -> exists more, lines_of (contents ++ piece) = lines_of contents ++ more.
Proof using Type. intros H. exists (lines_of piece). by apply lines_of_app. Qed.
End Files.

(** ** The folder *)

Lemma file_at_put t path contents path' : file_at (put_file t path contents) path' = if decide (path = path') then Some contents else file_at t path'.
Proof.
  destruct path as [d f], path' as [d' f']. unfold file_at, put_file. cbn [fst snd]. destruct (decide (d = d')) as [<-|Hd].
  - rw lookup_insert_eq. cbn [mbind option_bind]. case_decide as E; [injection E as <-; by rw lookup_insert_eq|].
    rw lookup_insert_ne; [congruence|]. by destruct (t !! d).
  - rw lookup_insert_ne // decide_False //. congruence.
Qed.

Lemma file_at_make_dir t dir path : file_at (make_dir t dir) path = file_at t path.
Proof.
  unfold file_at, make_dir. destruct (decide (dir = path.1)) as [->|Hd]; [|by rw lookup_insert_ne].
  rw lookup_insert_eq. by destruct (t !! path.1).
Qed.

Lemma file_at_drop t path path' : file_at (drop_file t path) path' = if decide (path = path') then None else file_at t path'.
Proof.
  destruct path as [d f], path' as [d' f']. unfold file_at, drop_file. cbn [fst snd]. destruct (decide (d = d')) as [<-|Hd].
  - rw lookup_alter_eq. destruct (t !! d) as [files|] eqn:E; rw E; cbn; [|by destruct (decide _)]. destruct (decide ((d, f) = (d, f'))) as [E'|E'];
      [injection E' as <-; apply lookup_delete_eq|]. apply lookup_delete_ne. congruence.
  - rw lookup_alter_ne // decide_False //. congruence.
Qed.

Section Folder.
Context `{platform : Platform} `{policy : SecretPolicy} `{crypto : Crypto} `{json : LogJson} `{laws : !LogJsonLaws}.
Context (network target : str).

(** The file of a conversation, and its lines. *)
Definition log_path : str * str := (storage_segment network None, wire_storage_segment target None).
Definition history (t : LogTree) : list TranscriptLine := lines_of (default [] (file_at t log_path)).

(** Nothing is left under an old name. *)
Definition settled_log (t : LogTree) : Prop :=
  (legacy_storage_segment network = storage_segment network None \/ dir_exists t (legacy_storage_segment network) = false) /\
  (legacy_storage_segment target = wire_storage_segment target None \/
   file_exists t (storage_segment network None, legacy_storage_segment target) = false).

Lemma try_nothing new_path o t resolved legacy : file_exists t legacy = false \/ legacy = new_path -> try_migrate_file new_path o (t, resolved) legacy = (t, resolved).
Proof using Type.
  unfold try_migrate_file. intros [-> | ->]; [done|]. destruct (file_exists t new_path); [|done]. done.
Qed.

Lemma no_dir_no_file t dir file : dir_exists t dir = false -> file_exists t (dir, file) = false.
Proof using Type.
  unfold dir_exists, file_exists, file_at. rw !bool_decide_eq_false -!eq_None_not_Some. cbn. by intros ->.
Qed.

Lemma settled_path t o : settled_log t -> path_for t network target o = (t, log_path).
Proof using Type.
  intros [Hd Hf]. unfold path_for, migrate_legacy_transcript_path. fold log_path. cbv zeta.
  assert (Htry : try_migrate_file log_path o (t, log_path) (storage_segment network None, legacy_storage_segment target) = (t, log_path)).
  { apply try_nothing. destruct Hf as [E|E]; [right; unfold log_path; by rw E|by left]. }
  unfold resolve_network_dir. cbv zeta. destruct (str_eqb (legacy_storage_segment network) (storage_segment network None)) eqn:E; cbn [negb andb].
  - apply str_eqb_eq in E. rw E. destruct (dir_exists t (storage_segment network None)); exact Htry.
  - destruct Hd as [Hd|Hd]; [rw Hd str_eqb_refl in E; done|]. rw Hd !andb_false_r. cbn [andb]. destruct (dir_exists t (storage_segment network None)); [exact Htry|].
    apply try_nothing. left. by apply no_dir_no_file.
Qed.

Lemma settled_put t contents : settled_log t -> settled_log (put_file t log_path contents).
Proof using Type.
  intros [Hd Hf]. split.
  - destruct Hd as [Hd|Hd]; [by left|]. destruct (decide (legacy_storage_segment network = storage_segment network None)) as [|Hne]; [by left|]. right.
    unfold dir_exists, put_file in *. cbn. by rw lookup_insert_ne.
  - destruct Hf as [Hf|Hf]; [by left|]. destruct (decide (legacy_storage_segment target = wire_storage_segment target None)) as [|Hne]; [by left|]. right.
    unfold file_exists in *. rw file_at_put decide_False //. unfold log_path. congruence.
Qed.

Lemma settled_same t t' : (forall dir, dir <> storage_segment network None -> dir_exists t' dir = dir_exists t dir) -> (forall path, file_at t' path = file_at t path) -> settled_log t -> settled_log t'.
Proof using Type.
  intros H1 H2 [Hd Hf]. split.
  - destruct (decide (legacy_storage_segment network = storage_segment network None)) as [|Hne]; [by left|]. right. destruct Hd as [?|Hd]; [done|]. by rw H1.
  - destruct Hf as [Hf|Hf]; [by left|right]. unfold file_exists in *. by rw H2.
Qed.
(** The operations that write, and what they are on the list of lines. *)
Inductive LogOp := LogAppend (line : TranscriptLine) | LogPrepend (lines : list TranscriptLine).

Definition on_log (op : LogOp) (mapping : IrcCaseMapping) (o : Outcome) (t : LogTree) : LogTree * bool :=
  match op with LogAppend line => append t network target mapping line o | LogPrepend lines => prepend t network target mapping lines o end.

Definition on_lines (op : LogOp) (now : Time) (lines : list TranscriptLine) : list TranscriptLine :=
  match op with
  | LogAppend line => lines ++ option_list (kept_line now line)
  | LogPrepend older => omap (kept_line now) older ++ lines
  end.

Definition scalar_op (op : LogOp) (now : Time) : Prop :=
  match op with LogAppend line => scalar_line line now | LogPrepend lines => Forall (fun line => scalar_line line now) lines end.

Definition lands (o : Outcome) : bool := dirs_made o && moves_land o && bool_decide (write_fails_after o = None).

(** The file holds whole lines under its name. *)
Definition good_log (t : LogTree) : Prop := settled_log t /\ whole_lines (default [] (file_at t log_path)).

Definition others_stay (t t' : LogTree) : Prop := forall path, path <> log_path -> file_at t' path = file_at t path.

(** A write to the file of the conversation. *)
Lemma put_log t contents :
  settled_log t -> let t' := put_file (make_dir t (storage_segment network None)) log_path contents in
  settled_log t' /\ others_stay t t' /\ file_at t' log_path = Some contents.
Proof using Type.
  intros Hs t'. assert (Hm : settled_log (make_dir t (storage_segment network None))).
  { apply (settled_same t); [|by intros; apply file_at_make_dir|done]. intros dir Hd. unfold dir_exists, make_dir. by rw lookup_insert_ne. }
  split_and!; [by apply settled_put| |].
  - intros path Hp. unfold t'. rw file_at_put decide_False //. apply file_at_make_dir.
  - unfold t'. by rw file_at_put decide_True.
Qed.

Lemma made_dir_stays t : settled_log t -> let t' := make_dir t (storage_segment network None) in settled_log t' /\ others_stay t t' /\ history t' = history t.
Proof using Type.
  intros Hs t'. split_and!; [|by intros path _; apply file_at_make_dir|unfold history, t'; by rw file_at_make_dir].
  apply (settled_same t); [|by intros; apply file_at_make_dir|done]. intros dir Hd. unfold t', dir_exists, make_dir. by rw lookup_insert_ne.
Qed.

Lemma not_logged_not_kept line now : logged line = false -> kept_line now line = None.
Proof using Type. intros H. unfold kept_line. by rw H. Qed.

Lemma log_append t mapping line o :
  good_log t -> scalar_line line (clock_now o) ->
  let '(t', ok) := append t network target mapping line o in
  settled_log t' /\ others_stay t t' /\
  (lands o = true -> ok = true /\ good_log t' /\ history t' = history t ++ option_list (kept_line (clock_now o) line)) /\
  exists more, history t' = history t ++ more.
Proof using laws.
  intros [Hs Hw] Hline. unfold append. assert (Hl : logged line = negb (is_empty (line_kind line) || is_empty (line_body line)) && allowed_in_log (line_author line) (line_body line)).
  { unfold logged. by rw negb_orb. }
  assert (Hskip : logged line = false -> settled_log t /\ others_stay t t /\
    (lands o = true -> true = true /\ good_log t /\ history t = history t ++ option_list (kept_line (clock_now o) line)) /\ exists more, history t = history t ++ more).
  { intros H. rw not_logged_not_kept // app_nil_r. split_and!; [done|done|done|]. exists []. by rw app_nil_r. }
  destruct (is_empty (line_kind line) || is_empty (line_body line)); [by apply Hskip|].
  destruct (allowed_in_log (line_author line) (line_body line)); [|by apply Hskip]. cbn [negb andb] in *. clear Hskip.
  rw settled_path //. unfold append_bytes, prepare_tree. destruct (dirs_made o) eqn:Ed; cbn [negb].
  2: { split_and!; [done|done|unfold lands; by rw Ed|]. exists []. by rw app_nil_r. }
  cbn [fst]. set (written := match write_fails_after o with Some _ => _ | None => _ end).
  rw file_at_make_dir. destruct (put_log t (default [] (file_at t log_path) ++ written) Hs) as (Hs' & Ho & Hf).
  change (fst log_path) with (storage_segment network None).
  set (t' := put_file _ _ _) in *. assert (Hh : history t' = history t ++ lines_of written).
  { unfold history. rw Hf. cbn [default from_option]. unfold id. by apply lines_of_app. }
  split_and!; [done|done| |by exists (lines_of written)]. intros Hla. unfold lands in Hla. rw !andb_true_iff bool_decide_eq_true in Hla.
  destruct Hla as [_ Hn]. unfold written in *. rw Hn in Hh Hf |- *. split_and!; [done| |by rw Hh format_line_lines].
  split; [done|]. rw Hf. cbn [default from_option]. unfold id. apply whole_app; [apply format_line_whole|]. unfold format_line. by destruct (json_of_record _).
Qed.

Lemma log_prepend t mapping lines o :
  good_log t -> Forall (fun line => scalar_line line (clock_now o)) lines ->
  let '(t', ok) := prepend t network target mapping lines o in
  settled_log t' /\ others_stay t t' /\
  (lands o = true -> ok = true /\ good_log t' /\ history t' = omap (kept_line (clock_now o)) lines ++ history t) /\
  (lands o = false -> history t' = history t \/ history t' = omap (kept_line (clock_now o)) lines ++ history t).
Proof using laws.
  intros [Hs Hw] Hlines. unfold prepend. destruct (encoded_lines (clock_now o) lines Hlines) as [Hwhole Henc]. cbv zeta.
  set (encoded := (fun line => format_line line (clock_now o)) <$> base.filter (fun line => logged line = true) lines) in *.
  destruct encoded as [|e es] eqn:Ee; cbn [is_empty].
  { rw -Henc. cbn. split_and!; [done|done|done|by left]. }
  rw settled_path //. unfold prepend_bytes, prepare_tree. destruct (dirs_made o) eqn:Ed; cbn [negb fst].
  2: { split_and!; [done|done|unfold lands; by rw Ed|by left]. }
  rw file_at_make_dir. change (fst log_path) with (storage_segment network None). destruct (moves_land o) eqn:Em.
  - destruct (put_log t (concat (e :: es) ++ default [] (file_at t log_path)) Hs) as (Hs' & Ho & Hf). set (t' := put_file _ _ _) in *.
    assert (Hh : history t' = omap (kept_line (clock_now o)) lines ++ history t).
    { unfold history. rw Hf. cbn [default from_option]. unfold id. by rw lines_of_app // Henc. }
    assert (Hg : good_log t').
    { split; [done|]. rw Hf. cbn [default from_option]. unfold id. destruct (from_option _ _ (file_at t log_path)) as [|b bs]; [by rw app_nil_r|].
      by apply whole_app. }
    split_and!; [done|done|done|by right].
  - destruct (made_dir_stays t Hs) as (H1 & H2 & H3). split_and!; [done|done|unfold lands; by rw Em andb_false_r|by left].
Qed.

End Folder.

(** ** Old names *)

Lemma exists_put t path contents path' : file_exists (put_file t path contents) path' = bool_decide (path = path') || file_exists t path'.
Proof.
  unfold file_exists. rw file_at_put. destruct (decide (path = path')) as [->|Hne].
  - rw (bool_decide_eq_true_2 (path' = path')) //.
  - rw (bool_decide_eq_false_2 (path = path')) //.
Qed.

Lemma exists_drop t path path' : path <> path' -> file_exists (drop_file t path) path' = file_exists t path'.
Proof. intros Hne. unfold file_exists. by rw file_at_drop decide_False. Qed.

Section Moves.
Context (new : str * str) (o : Outcome).

(** Whether a file can be moved to its new name. *)
Definition blocked : Prop := dirs_made o && moves_land o = false.

Lemma try_keeps t r legacy path contents :
  file_at t path = Some contents ->
  exists path', file_at (try_migrate_file new o (t, r) legacy).1 path' = Some contents /\ (path' = path \/ path = legacy /\ path' = new /\ file_at t new = None).
Proof using Type.
  intros Hf. unfold try_migrate_file. destruct (file_exists t legacy) eqn:El; cbn [negb]; [|by exists path; split; [|left]].
  destruct (file_exists t new) eqn:En; [by exists path; split; [|left]|]. cbn [orb].
  destruct (decide (legacy = new)) as [E|Hne]; [rw bool_decide_eq_true_2 //; by exists path; split; [|left]|]. rw bool_decide_eq_false_2 //.
  assert (Hnew : file_at t new = None) by by apply bool_decide_eq_false, eq_None_not_Some in En.
  unfold prepare_tree. destruct (dirs_made o); cbn [andb].
  - destruct (moves_land o); cbn [fst].
    + unfold rename_file. destruct (decide (path = legacy)) as [->|Hp].
      * exists new. split; [|by right]. by rw file_at_put decide_True // file_at_make_dir Hf.
      * exists path. split; [|by left]. rw file_at_put. rw decide_False; [by intros <-; congruence|]. by rw file_at_drop decide_False // file_at_make_dir.
    + exists path. split; [|by left]. case_match; cbn [fst]; by rw file_at_make_dir.
  - exists path. split; [|by left]. by case_match.
Qed.

Lemma exists_make_dir t dir path : file_exists (make_dir t dir) path = file_exists t path.
Proof using Type. unfold file_exists. by rw file_at_make_dir. Qed.

(** What a try does to the path resolved so far. *)
Lemma try_resolves t r legacy :
  let '(t', r') := try_migrate_file new o (t, r) legacy in
  ((r = new \/ blocked) -> file_exists t r = true -> file_exists t' r' = true) /\
  (r = new -> file_exists t legacy = true -> file_exists t' r' = true) /\
  (r = new -> r' = new \/ blocked /\ file_exists t' r' = true) /\
  (forall path, path <> legacy -> file_exists t path = true -> file_exists t' path = true).
Proof using Type.
  unfold try_migrate_file. destruct (file_exists t legacy) eqn:El; cbn [negb]; [|split_and!; try done; by left].
  destruct (file_exists t new) eqn:En; cbn [orb]; [split_and!; try done; [by intros ->|by left]|].
  destruct (decide (legacy = new)) as [->|Hne]; [congruence|]. rw bool_decide_eq_false_2 //.
  unfold prepare_tree. destruct (dirs_made o) eqn:Ed; cbn [andb].
  - destruct (moves_land o) eqn:Em.
    + unfold rename_file. assert (Hput : forall path, path <> legacy -> file_exists (put_file (drop_file (make_dir t new.1) legacy) new (default [] (file_at (make_dir t new.1) legacy))) path = bool_decide (new = path) || file_exists t path).
      { intros path Hp. by rw exists_put exists_drop // exists_make_dir. }
      assert (Hnew : file_exists (put_file (drop_file (make_dir t new.1) legacy) new (default [] (file_at (make_dir t new.1) legacy))) new = true).
      { rw exists_put bool_decide_eq_true_2 //. }
      split_and!.
      * intros [->|Hb] Hr; [done|]. unfold blocked in Hb. by rw Ed Em in Hb.
      * by intros ->.
      * by left.
      * intros path Hp Hpath. rw Hput // Hpath. apply orb_true_r.
    + rw exists_make_dir El. unfold blocked. rw Ed Em. split_and!; try (by intros; rw exists_make_dir).
      intros _. right. by rw exists_make_dir.
  - rw El. split_and!; try done. intros _. right. unfold blocked. by rw Ed.
Qed.
End Moves.

Lemma rename_dir_keeps t old new path contents :
  old <> new -> dir_exists t new = false -> file_at t path = Some contents ->
  file_at (rename_dir t old new) (if decide (path.1 = old) then (new, path.2) else path) = Some contents.
Proof.
  intros Hne Hn Hf. unfold rename_dir, file_at in *. destruct path as [d f]. cbn [fst snd] in *.
  destruct (decide (d = old)) as [->|Hd]; cbn [fst snd].
  - rw lookup_insert_eq. cbn. destruct (t !! old); done.
  - destruct (decide (d = new)) as [->|Hd'].
    + apply bool_decide_eq_false in Hn. destruct (t !! new); [|done]. by destruct Hn.
    + rw lookup_insert_ne // lookup_delete_ne //.
Qed.

Section Migration.
Context `{crypto : Crypto}.

(** Finding the folder keeps every file, and leaves the conversation's where it is looked for. *)
Lemma network_dir_resolved t old_dir new_dir file target_file o :
  let '(t1, dir1) := resolve_network_dir t old_dir new_dir o in
  let new := (new_dir, target_file) in
  (forall place contents, file_at t place = Some contents -> exists place', file_at t1 place' = Some contents /\ (place = new -> place' = new)) /\
  (file_exists t new = true \/ file_exists t (new_dir, file) = true \/ file_exists t (old_dir, file) = true ->
   file_exists t1 new = true \/ file_exists t1 (dir1, file) = true \/
   str_eqb old_dir new_dir = false /\ dir_exists t old_dir = true /\ file_exists t1 (old_dir, file) = true /\ dir1 <> old_dir).
Proof using Type.
  unfold resolve_network_dir. cbv zeta. set (new := (new_dir, target_file)).
  destruct (str_eqb old_dir new_dir) eqn:E; cbn [negb].
  - apply str_eqb_eq in E as Heq. assert (Hsame : forall dir1, dir1 = new_dir -> file_exists t new = true \/ file_exists t (new_dir, file) = true \/ file_exists t (old_dir, file) = true ->
      file_exists t new = true \/ file_exists t (dir1, file) = true \/ (true = false /\ dir_exists t old_dir = true /\ file_exists t (old_dir, file) = true /\ dir1 <> old_dir)).
    { intros dir1 ->. rw Heq. tauto. }
    destruct (dir_exists t new_dir); (split; [by eauto|by apply Hsame]).
  - unfold dir_segments_share_location. rw E. cbn [negb andb orb]. assert (Hne : old_dir <> new_dir) by (intros E'; by rw E' str_eqb_refl in E).
    assert (Hnot : dir_exists t new_dir = false -> file_exists t (new_dir, file) = true -> False) by by intros H; rw no_dir_no_file.
    destruct (dir_exists t new_dir) eqn:En; cbn [negb andb]; rw ?andb_false_r ?andb_true_r.
    + split_and!; [by eauto|]. intros [H|[H|H]]; [by left|by right; left|right; right]. split_and!; [done| |done|done].
      apply not_false_is_true. intros Hd. by rw no_dir_no_file in H.
    + destruct (negb (paths_same_file o old_dir new_dir) && dir_exists t old_dir) eqn:Eo; cbn [andb].
      * destruct (moves_land o).
        -- assert (Hk := rename_dir_keeps t old_dir new_dir). split.
           ++ intros place contents Hp. eexists. split; [by apply Hk|]. intros ->. cbn. by rw decide_False.
           ++ intros [H|[H|H]]; [left|by destruct (Hnot eq_refl H)|right; left]; apply bool_decide_eq_true in H as [c Hc]; specialize (Hk _ c Hne En Hc); cbn in Hk.
              ** rw decide_False // in Hk. by apply bool_decide_eq_true.
              ** rw decide_True // in Hk. apply bool_decide_eq_true. by exists c.
        -- split_and!; [by eauto|]. intros [H|[H|H]]; [by left|by destruct (Hnot eq_refl H)|by right; left].
      * split_and!; [by eauto|]. intros [H|[H|H]]; [by left|by destruct (Hnot eq_refl H)|by right; left].
Qed.

(** C30: giving a transcript its new name loses none. Wherever the older client left its files
    and however the renames turn out, every file of the folder is still there with its bytes,
    one that has its new name stays under it; and the path that is resolved names a file when
    the conversation had one under its new name, or under the old one in either folder. *)
Theorem path_loses_no_transcript t network target o :
  let new := (storage_segment network None, wire_storage_segment target None) in
  let legacy dir := (dir, legacy_storage_segment target) in
  let '(t', path) := path_for t network target o in
  (forall place contents, file_at t place = Some contents -> exists place', file_at t' place' = Some contents /\ (place = new -> place' = new)) /\
  (file_exists t new = true \/ file_exists t (legacy (storage_segment network None)) = true \/ file_exists t (legacy (legacy_storage_segment network)) = true ->
   file_exists t' path = true).
Proof using Type.
  intros new legacy. unfold path_for, migrate_legacy_transcript_path. cbv zeta. fold new.
  set (old_dir := legacy_storage_segment network). set (new_dir := storage_segment network None). fold (legacy old_dir).
  pose proof (network_dir_resolved t old_dir new_dir (legacy_storage_segment target) (wire_storage_segment target None) o) as Hdir.
  destruct (resolve_network_dir t old_dir new_dir o) as [t1 dir1]. destruct Hdir as (Hkeep & Hfound). fold new (legacy dir1) (legacy old_dir) (legacy new_dir) in Hkeep, Hfound |- *.
  pose proof (try_keeps new o t1 new (legacy dir1)) as Hk1. pose proof (try_resolves new o t1 new (legacy dir1)) as Hr1.
  destruct (try_migrate_file new o (t1, new) (legacy dir1)) as [t2 r2]. destruct Hr1 as (HA1 & HB1 & HC1 & HD1). cbn [fst] in Hk1.
  assert (Hkeep2 : forall place contents, file_at t place = Some contents -> exists place', file_at t2 place' = Some contents /\ (place = new -> place' = new)).
  { intros place contents Hp. destruct (Hkeep _ _ Hp) as (p1 & H1 & Hn1). destruct (Hk1 _ _ H1) as (p2 & H2 & [->|(-> & -> & Hnone)]); [by exists p1|by exists new]. }
  assert (Hr2 : r2 = new \/ blocked o) by (destruct (HC1 eq_refl) as [?|[? _]]; [by left|by right]).
  assert (Hfound2 : file_exists t1 new = true \/ file_exists t1 (legacy dir1) = true -> file_exists t2 r2 = true).
  { intros [H|H]; [by apply HA1; [left|]|by apply HB1]. }
  pose proof (try_keeps new o t2 r2 (legacy old_dir)) as Hk2. pose proof (try_resolves new o t2 r2 (legacy old_dir)) as H2.
  destruct (negb (str_eqb old_dir new_dir) && dir_exists t old_dir) eqn:Esecond.
  - destruct (try_migrate_file new o (t2, r2) (legacy old_dir)) as [t3 r3]. destruct H2 as (HA2 & HB2 & _ & _). cbn [fst] in Hk2. split.
    + intros place contents Hp. destruct (Hkeep2 _ _ Hp) as (p2 & H2 & Hn2). destruct (Hk2 _ _ H2) as (p3 & H3 & [->|(-> & -> & Hnone)]); [by exists p2|by exists new].
    + intros H. destruct (Hfound H) as [H1|[H1|(_ & _ & H1 & Hdir1)]]; [by apply HA2; [|by apply Hfound2; left]|by apply HA2; [|by apply Hfound2; right]|].
      destruct (HC1 eq_refl) as [Hr|[Hb Hf]]; [|by apply HA2; [right|]]. apply HB2; [done|]. apply HD1; [|done]. unfold legacy. congruence.
  - split; [done|]. intros H. destruct (Hfound H) as [H1|[H1|(E1 & E2 & _)]]; [by apply Hfound2; left|by apply Hfound2; right|]. by rw E1 E2 in Esecond.
Qed.
End Migration.

(** ** An encoding to evaluate the log with *)

(** A field is its characters, moved past the punctuation, and a comma. *)
Definition toy_field (text : str) : bytes := (N.add 64 <$> text) ++ [44].
Definition toy_text (field : bytes) : str := (fun b => b - 64) <$> field.

Definition toy_json : LogJson := {|
  json_of_record r :=
    chr "{" :: (toy_field (record_timestamp r) ++ toy_field (record_author r) ++ toy_field (record_kind r) ++ toy_field (record_body r)
    ++ toy_field (record_msgid r) ++ (if record_only_visible_to_you r then [116] else [])) ++ [chr "}"];
  record_of_json raw :=
    match split_on (N.eqb 44) (tail raw) with
    | [timestamp; author; kind; body; msgid; flag] =>
        Some (mkRecord (toy_text timestamp) (toy_text author) (toy_text kind) (toy_text body) (toy_text msgid) (bool_decide (length flag = 2%nat)))
    | _ => None
    end;
|}.

Lemma toy_field_plain text (c : N) : c < 64 -> forallb (fun b => negb (c =? b)) (N.add 64 <$> text) = true.
Proof. intros Hc. apply forallb_forall. intros b (x & <- & _)%in_map_iff. apply negb_true_iff, N.eqb_neq. lia. Qed.

Lemma toy_text_field text : toy_text (N.add 64 <$> text) = text.
Proof. unfold toy_text. rw -list_fmap_compose. transitivity (id <$> text); [|apply list_fmap_id]. apply list_fmap_ext. intros i b _. cbn. lia. Qed.

Lemma toy_split text rest : split_on (N.eqb 44) ((N.add 64 <$> text) ++ [44] ++ rest) = (N.add 64 <$> text) :: split_on (N.eqb 44) rest.
Proof. by apply split_on_app; [apply toy_field_plain|]. Qed.

Lemma toy_json_laws : @LogJsonLaws toy_json.
Proof.
  split.
  - intros [timestamp author kind body msgid flag] _. cbn -[split_on toy_text]. rw -!app_assoc !toy_split. destruct flag; cbn -[toy_text]; by rw !toy_text_field.
  - intros [timestamp author kind body msgid flag]. cbn [json_of_record toy_json record_timestamp record_author record_kind record_body record_msgid record_only_visible_to_you].
    unfold toy_field. cbn [forallb]. rw !forallb_app !toy_field_plain //. by destruct flag.
  - intros r. eexists. reflexivity.
Qed.

Definition toy_outcome : Outcome := mkOutcome true true None (fun _ _ => false) 5%Z.
Definition toy_line (author body : str) : TranscriptLine := mkLine 7%Z author (lit "message") body [] false.

Lemma tail_is_last_lines_witness :
  let raw body := @format_line toy_platform toy_json (toy_line (lit "amy") body) 5%Z in
  line_body <$> @read_tail_file toy_platform toy_policy toy_json (raw (lit "one") ++ raw (lit "two") ++ [10] ++ raw (lit "three")) 2 = [lit "two"; lit "three"].
Proof.
  cbv zeta. rw (@tail_is_last_lines toy_platform toy_policy toy_json _ 2 ltac:(lia)). vm_compute. reflexivity.
Defined.

Lemma toy_scalar author body : forallb is_scalar (author ++ body) = true -> @scalar_line toy_platform (toy_line author body) 5%Z.
Proof.
  rw forallb_app => /andb_true_iff [Ha Hb]. split; [cbn [toy_line line_author line_kind line_body line_msgid]; by rw !forallb_app Ha Hb|].
  intros when. unfold iso_date_with_ms. cbn. eapply forallb_impl; [|apply show_digits]. intros c. unfold is_ascii_digit, is_scalar. lia.
Qed.

