(* ===== verification/StatusEntry.v ===== *)
(** * StatusEntry: the lines of the Status console (src/client/src/irc/statusentry/)

    One wire line becomes the entries Status shows for it: what the server sent, classified and
    with its secrets masked, and what the client sent. The keep table decides which lines reach
    Status at all. *)

From S2P Require Import Prelude Text Message Parser CaseMapping ServerFeatures JoinTarget OrdMap SessionTypes Platform Ctcp Secrets Events Conversation Translator.

Definition OUTCOME_LABEL : str := lit "command".
Definition CTCP_LABEL : str := lit "CTCP".
Definition NOTICE_LABEL : str := lit "NOTICE".

Inductive LogSource := FromServer | FromClient | FromLocal.
Inductive LogSeverity := SeverityTrace | SeverityInfo | SeverityAlert.
#[export] Instance LogSeverity_eq_dec : EqDecision LogSeverity.
Proof. solve_decision. Defined.
Inductive WhoisProgress := WhoisDetail | WhoisTerminal | WhoisFailed.
#[export] Instance WhoisProgress_eq_dec : EqDecision WhoisProgress.
Proof. solve_decision. Defined.

Record WhoisLine := mkWhoisLine { whois_line_nick : str; whois_line_text : str; whois_line_progress : WhoisProgress }.
Definition whois_is_terminal (line : WhoisLine) : bool := negb (bool_decide (whois_line_progress line = WhoisDetail)).

Record ListModeLine := mkListModeLine {
  list_line_channel : str;
  list_line_text : str;
  list_line_kind : ListMaskKind;
  list_line_progress : WhoisProgress;
}.
Definition list_is_terminal (line : ListModeLine) : bool := negb (bool_decide (list_line_progress line = WhoisDetail)).

Record CtcpReplyLine := mkCtcpReply { ctcp_reply_nick : str; ctcp_reply_command : str }.

Record StatusEntry := mkStatus {
  entry_network_id : str;
  entry_timestamp : Time;
  entry_source : LogSource;
  entry_severity : LogSeverity;
  entry_label : str;
  entry_request_label : str;
  entry_text : str;
  entry_whois_line : option WhoisLine;
  entry_list_mode_line : option ListModeLine;
  entry_ctcp_reply : option CtcpReplyLine;
}.
#[export] Instance status_entry_eta : Eta StatusEntry := fun e =>
  mkStatus (entry_network_id e) (entry_timestamp e) (entry_source e) (entry_severity e) (entry_label e) (entry_request_label e)
    (entry_text e) (entry_whois_line e) (entry_list_mode_line e) (entry_ctcp_reply e).

(** [StatusEntry::new] *)
Definition new_status (network : str) (now : Time) (source : LogSource) (severity : LogSeverity) (label text : str) : StatusEntry :=
  mkStatus network now source severity label [] text None None None.

Definition set_request_label (e : StatusEntry) (request_label : str) : StatusEntry := e <| entry_request_label := request_label |>.

Definition lifecycle (network : str) (severity : LogSeverity) (label text : str) (now : Time) : StatusEntry :=
  new_status network now FromLocal severity label text.

Definition status_outcome (network text : str) (now : Time) : StatusEntry :=
  new_status network now FromLocal SeverityInfo OUTCOME_LABEL text.

(** ** Fields of a line (incoming.rs) *)

Definition parameters_text (message : IrcMessage) : list str := wire_text <$> msg_params message.
Definition trailing_text (message : IrcMessage) : str := default [] (wire_text <$> last (msg_params message)).
Definition parameter_at (parameters : list str) (index : nat) : str := default [] (parameters !! index).
Definition split_fields (text : str) : list str := base.filter (fun field => field <> []) (split_on (N.eqb (chr " ")) text).

(** The bytes of the prefix stand at the start, whatever their case. *)
Definition has_prefix_fold (text prefix : str) : bool :=
  let b := as_bytes text in
  (length (as_bytes prefix) <=? length b)%nat && eq_ignore_ascii_case (take (length (as_bytes prefix)) b) (as_bytes prefix).

Definition is_numeric_command (command : str) : bool := (str_len command =? 3) && forallb is_ascii_digit (as_bytes command).

Definition is_one_of (command : str) (names : list str) : bool := existsb (str_eqb command) names.

Definition is_standard_reply (command : str) : bool := is_one_of command [lit "FAIL"; lit "WARN"; lit "NOTE"].

(** [matches!(command.as_bytes()[0], b'4' | b'5')] *)
Definition starts_four_or_five (command : str) : bool := match as_bytes command with b :: _ => (b =? chr "4") || (b =? chr "5") | [] => false end.

Definition severity_for (command : str) : LogSeverity :=
  if is_one_of command [lit "PING"; lit "PONG"; lit "AUTHENTICATE"] then SeverityTrace
  else if is_one_of command [lit "FAIL"; lit "ERROR"] then SeverityAlert
  else if is_one_of command [lit "WARN"; lit "NOTE"] then SeverityInfo
  else if is_numeric_command command && starts_four_or_five command then SeverityAlert
  else SeverityInfo.

(** [command.parse().unwrap_or(0)] *)
Definition numeric_code (command : str) : N := default 0 (parse_unsigned u32_max command).

Definition code_in (code : N) (codes : list N) : bool := existsb (N.eqb code) codes.

Definition trailing_body_only (command : str) : bool :=
  if is_standard_reply command then true
  else if is_one_of command [lit "PRIVMSG"; lit "PING"; lit "PONG"; lit "ERROR"] then true
  else if negb (is_numeric_command command) then false
  else code_in (numeric_code command) [1; 2; 3; 372; 375; 376; 422].

Definition cap_tokens (message : IrcMessage) (subcommand_index : nat) : list str :=
  if (length (msg_params message) <=? subcommand_index + 1)%nat then [] else split_fields (trailing_text message).

Definition CAP_PREFIXES : list (str * str) :=
  [(lit "LS", lit "Server supports"); (lit "ACK", lit "Acknowledged"); (lit "NAK", lit "Rejected");
   (lit "NEW", lit "Server added"); (lit "DEL", lit "Server removed")].

Definition format_incoming_cap (message : IrcMessage) : option str :=
  if (length (msg_params message) <? 2)%nat then None
  else
    let subcommand := text_param message 1 in
    let? entry := list_find (fun entry => eq_ignore_ascii_case subcommand entry.1 = true) CAP_PREFIXES in
    let prefix := entry.2.2 in
    let tokens := cap_tokens message 1 in
    Some (if is_empty tokens then prefix ++ lit ":" else prefix ++ lit ": " ++ join_with (lit " | ") tokens).

Definition format_lusers (code : N) (parameters : list str) : option str :=
  let rest := tail parameters in
  let? first := head rest in
  let? last_ := last rest in
  if code_in code [252; 253; 254] then Some (if (2 <=? length rest)%nat then first ++ lit " " ++ last_ else first)
  else if code_in code [20; 42; 221; 250; 251; 255; 265; 266; 396] then Some last_
  else None.

Definition is_nick_refusal (command : str) : bool :=
  is_one_of command [lit "ERROR"; lit "432"; lit "433"; lit "436"; lit "437"; lit "451"; lit "462"; lit "465"].

Definition nick_refusal_sentence_present (command : str) (count : nat) : bool :=
  if is_one_of command [lit "432"; lit "433"; lit "436"; lit "437"] then (3 <=? count)%nat
  else if is_one_of command [lit "451"; lit "462"; lit "465"] then (2 <=? count)%nat
  else (1 <=? count)%nat.

(** ** WHOIS replies (whois.rs) *)

Inductive WhoisLayout :=
| LayoutUser | LayoutChannels | LayoutServer | LayoutAway | LayoutIdle | LayoutEnd | LayoutNickRest | LayoutAccount
| LayoutNoSuchNick | LayoutNoSuchServer.

Record WhoisSpec := mkSpec { spec_code : N; spec_label : str; spec_layout : WhoisLayout }.

Definition WHOIS_NUMERICS : list WhoisSpec :=
  let whois code layout := mkSpec code (lit "whois") layout in
  [whois 311 LayoutUser; whois 319 LayoutChannels; whois 312 LayoutServer; whois 301 LayoutAway; whois 317 LayoutIdle;
   whois 318 LayoutEnd; whois 276 LayoutNickRest; whois 307 LayoutNickRest; whois 313 LayoutNickRest; whois 320 LayoutNickRest;
   whois 330 LayoutAccount; whois 338 LayoutNickRest; whois 378 LayoutNickRest; whois 379 LayoutNickRest; whois 671 LayoutNickRest;
   mkSpec 401 [] LayoutNoSuchNick; mkSpec 402 [] LayoutNoSuchServer].

Definition whois_spec (code : N) : option WhoisSpec := snd <$> list_find (fun spec => spec_code spec = code) WHOIS_NUMERICS.

Record FormattedWhois := mkFormatted { formatted_label : str; formatted_text : str; formatted_nick : str; formatted_progress : WhoisProgress }.

(** How many parameters a layout needs. *)
Definition layout_needs (layout : WhoisLayout) : nat :=
  match layout with
  | LayoutUser => 6
  | LayoutServer => 4
  | LayoutEnd | LayoutNoSuchNick | LayoutNoSuchServer => 2
  | LayoutChannels | LayoutAway | LayoutIdle | LayoutNickRest | LayoutAccount => 3
  end%nat.

Definition layout_text (layout : WhoisLayout) (parameters : list str) : str :=
  let at_ := parameter_at parameters in
  match layout with
  | LayoutUser => at_ 1%nat ++ lit " is " ++ at_ 2%nat ++ lit "@" ++ at_ 3%nat ++ lit " (" ++ at_ 5%nat ++ lit ")"
  | LayoutChannels => at_ 1%nat ++ lit " is on " ++ at_ 2%nat
  | LayoutServer => at_ 1%nat ++ lit " using " ++ at_ 2%nat ++ lit " (" ++ at_ 3%nat ++ lit ")"
  | LayoutAway => at_ 1%nat ++ lit " is away: " ++ at_ 2%nat
  | LayoutIdle =>
      at_ 1%nat ++ lit " idle " ++ at_ 2%nat ++ lit "s"
      ++ (if (5 <=? length parameters)%nat && negb (is_empty (at_ 3%nat)) then lit ", signon " ++ at_ 3%nat else [])
  | LayoutEnd => lit "End of WHOIS for " ++ at_ 1%nat
  | LayoutNickRest => at_ 1%nat ++ lit " " ++ join_with (lit " ") (drop 2 parameters)
  | LayoutAccount => at_ 1%nat ++ lit " is logged in as " ++ at_ 2%nat
  | LayoutNoSuchNick => lit "No such nick: " ++ at_ 1%nat
  | LayoutNoSuchServer => lit "No such server: " ++ at_ 1%nat
  end.

Section Status.
Context `{platform : Platform}.
Implicit Types (message : IrcMessage) (network channel_types : str) (now : Time).

Definition command_of message : str := to_uppercase (msg_command message).

Definition format_whois message : option FormattedWhois :=
  let command := command_of message in
  if negb (str_len command =? 3) then None
  else
    let? code := parse_unsigned u32_max command in
    let? spec := whois_spec code in
    let parameters := parameters_text message in
    if (length parameters <? layout_needs (spec_layout spec))%nat then None
    else
      let progress := if code =? 318 then WhoisTerminal else if code_in code [401; 402] then WhoisFailed else WhoisDetail in
      let label := if is_empty (spec_label spec) then command else spec_label spec in
      Some (mkFormatted label (layout_text (spec_layout spec) parameters) (parameter_at parameters 1) progress).

(** ** Ban and quiet lists (listmode.rs) *)

(** The text of a mask: who set it when the line says so. *)
Definition mask_text (what : str) (parameters : list str) (mask channel : str) (setter : nat) : str :=
  let by_ := parameter_at parameters setter in
  what ++ mask ++ lit " on " ++ channel ++ (if (setter <? length parameters)%nat && negb (is_empty by_) then lit " by " ++ by_ else []).

Definition format_list_mode message : option (str * ListModeLine) :=
  let command := command_of message in
  if negb (str_len command =? 3) then None
  else
    let? code := parse_unsigned u32_max command in
    let parameters := parameters_text message in
    let count := length parameters in
    let channel := parameter_at parameters 1 in
    let? (needs, label, kind, progress, text) :=
      if code =? 367 then Some (3%nat, lit "banlist", Ban, WhoisDetail, mask_text (lit "ban ") parameters (parameter_at parameters 2) channel 3)
      else if code =? 368 then Some (2%nat, lit "banlist", Ban, WhoisTerminal, lit "End of ban list for " ++ channel)
      else if code =? 728 then Some (4%nat, lit "quietlist", Quiet, WhoisDetail, mask_text (lit "quiet ") parameters (parameter_at parameters 3) channel 4)
      else if code =? 729 then Some (2%nat, lit "quietlist", Quiet, WhoisTerminal, lit "End of quiet list for " ++ channel)
      else None in
    if (count <? needs)%nat then None
    else if is_empty channel || is_empty text then None
    else Some (label, mkListModeLine channel text kind progress).

Definition keeps_list_mode_numeric (code : N) : bool := code_in code [367; 368; 728; 729].

(** ** Notices and invites (notice.rs) *)

Inductive NoticeCopy := Wrapped (speaker body : str) | Bare (body : str).

Definition notice_text (copy : NoticeCopy) : str :=
  match copy with Wrapped speaker body => lit "-" ++ speaker ++ lit "- " ++ body | Bare body => body end.

Definition notice_speaker (token : str) : option str :=
  let trimmed := trim token in
  if is_empty trimmed || eq_ignore_ascii_case trimmed (lit "*") then None else Some trimmed.

Record NoticeWire := mkNotice { wire_prefix_nick : option str; wire_prefix_raw : option str; wire_target : str; wire_body : str }.

Definition parse_incoming_notice message : option NoticeWire :=
  if negb (str_eqb (command_of message) (lit "NOTICE")) || is_empty (msg_params message) then None
  else
    let part (get : IrcPrefix -> bytes) :=
      let? prefix := msg_prefix message in if is_empty (get prefix) then None else Some (wire_text (get prefix)) in
    let body := if (2 <=? length (msg_params message))%nat then trailing_text message else [] in
    Some (mkNotice (part prefix_nick_bytes) (part prefix_raw) (text_param message 0) body).

Definition present_notice (parts : NoticeWire) : NoticeCopy :=
  let first := let? nick := wire_prefix_nick parts in notice_speaker nick in
  let second := let? raw := wire_prefix_raw parts in notice_speaker raw in
  match (match first with Some s => Some s | None => match second with Some s => Some s | None => notice_speaker (wire_target parts) end end) with
  | Some speaker => Wrapped speaker (wire_body parts)
  | None => Bare (wire_body parts)
  end.

Definition present_invite message : option str :=
  if negb (str_eqb (command_of message) (lit "INVITE")) || (length (msg_params message) <? 2)%nat then None
  else
    let nick := prefix_nick message in
    let channel := trailing_text message in
    if is_empty nick || is_empty channel then None else Some (nick ++ lit " invited you to " ++ channel).

(** ** What the client sent (outgoing.rs) *)

Definition first_token (line : str) : str :=
  let trimmed := trim line in
  let end_ := default (length trimmed) (position (fun c => (c =? chr " ") || (c =? 9)) trimmed) in
  if is_empty trimmed then [] else to_uppercase (take end_ trimmed).

Definition format_outgoing_cap_req (display : str) : option str :=
  let trimmed := trim display in
  if negb (has_prefix_fold trimmed (lit "CAP")) then None
  else
    let rest := trim (drop 3 trimmed) in
    if negb (has_prefix_fold rest (lit "REQ")) then None
    else
      let rest := trim (drop 3 rest) in
      let rest := default rest (strip_prefix (lit ":") rest) in
      let tokens := split_fields rest in
      Some (if is_empty tokens then lit "Requesting:" else lit "Requesting: " ++ join_with (lit " | ") tokens).

Definition strip_line_end (line : bytes) : bytes :=
  match strip_suffix [13; 10] line with
  | Some stripped => stripped
  | None => default line (strip_suffix [10] line)
  end.

Definition outgoing network (line : bytes) channel_types now : StatusEntry :=
  let display := wire_text (strip_line_end line) in
  let verb := first_token display in
  let text :=
    match format_outgoing_cap_req display with
    | Some cap_req => cap_req
    | None => default display (redact_wire_line display channel_types)
    end in
  new_status network now FromClient (severity_for verb) verb text.

(** ** What the server sent (incoming.rs) *)

(** The reason of a refusal and whether to leave it out. *)
Definition nick_refusal_tail (raw channel_types : str) : str * bool :=
  let reason := trim raw in
  if is_empty reason then ([], true)
  else
    match redact_preview reason channel_types with
    | Some masked => (masked, false)
    | None => if negb (transcript_allowed reason channel_types) then ([], true) else (reason, false)
    end.

(** [*parts.last_mut() = tail] *)
Definition replace_last (parts : list str) (tail_ : str) : list str :=
  match parts with [] => [] | _ => take (length parts - 1) parts ++ [tail_] end.

Definition incoming_text message (command : str) (redacted : bool) channel_types : str :=
  let count := length (msg_params message) in
  if is_empty (msg_params message) then command
  else if redacted && (count =? 1)%nat && str_eqb (text_param message 0) (lit "***") && negb (trailing_body_only command) then command ++ lit " ***"
  else
    let trailing := trailing_text message in
    if trailing_body_only command then
      if negb (is_nick_refusal command) then trailing
      else let '(tail_, omit) := nick_refusal_tail trailing channel_types in if omit then command else tail_
    else
      let parts := parameters_text message in
      let numbered := match as_bytes command with b :: _ => is_ascii_digit b | [] => false end in
      let parts := if numbered && (2 <=? length parts)%nat then tail parts else parts in
      if is_nick_refusal command then
        if negb (nick_refusal_sentence_present command count) then command
        else
          let '(tail_, omit) := nick_refusal_tail trailing channel_types in
          if omit then command else join_with (lit " ") (replace_last parts tail_)
      else join_with (lit " ") parts.

Definition sender_of message : str :=
  match msg_prefix message with
  | Some prefix => if is_empty (prefix_nick_bytes prefix) then lit "unknown" else wire_text (prefix_nick_bytes prefix)
  | None => lit "unknown"
  end.

(** The line as it is shown: masked when the policy masks it, and whether it was. *)
Definition display_of message channel_types : IrcMessage * bool :=
  match redact_message (msg_command message) (parameters_text message) channel_types with
  | Some masked =>
      (mkMessage (msg_tags message) (msg_prefix message) (masked_verb masked) (as_bytes <$> masked_parameters masked), true)
  | None => (message, false)
  end.

(** [command == verb && params.len() >= 2], and the CTCP of the last parameter. *)
Definition ctcp_of (display : IrcMessage) (verb : str) : option CtcpRequest :=
  if str_eqb (command_of display) verb && (2 <=? length (msg_params display))%nat then parse_ctcp_request (trailing_text display) else None.

Definition build_default_incoming network message channel_types now : StatusEntry :=
  let command := command_of message in
  let entry severity label text := new_status network now FromServer severity label text in
  match format_whois message with
  | Some formatted =>
      let whois := if negb (is_empty (formatted_nick formatted)) && negb (is_empty (formatted_text formatted))
        then Some (mkWhoisLine (formatted_nick formatted) (formatted_text formatted) (formatted_progress formatted)) else None in
      (entry (severity_for command) (formatted_label formatted) (formatted_text formatted)) <| entry_whois_line := whois |>
  | None =>
  match format_list_mode message with
  | Some (label, line) => (entry (severity_for command) label (list_line_text line)) <| entry_list_mode_line := Some line |>
  | None =>
  let '(display, overlaid) := display_of message channel_types in
  let display_command := command_of display in
  match ctcp_of display (lit "PRIVMSG") with
  | Some request =>
      let text := if is_empty (argument request) then ctcp_command request else ctcp_command request ++ lit " " ++ argument request in
      entry SeverityInfo CTCP_LABEL (text ++ lit " from " ++ sender_of display)
  | None =>
  match (let? request := ctcp_of display (lit "NOTICE") in if str_eqb (ctcp_command request) (lit "ACTION") then None else Some request) with
  | Some request =>
      let sender := sender_of display in
      (entry SeverityInfo CTCP_LABEL (format_ctcp_reply_text (ctcp_command request) sender (argument request) (timestamp_millis now)))
        <| entry_ctcp_reply := Some (mkCtcpReply sender (ctcp_command request)) |>
  | None =>
  match parse_incoming_notice display with
  | Some parts => entry (severity_for command) NOTICE_LABEL (notice_text (present_notice parts))
  | None =>
  match present_invite display with
  | Some invite => entry (severity_for command) (lit "INVITE") invite
  | None => entry (severity_for command) command (incoming_text display display_command overlaid channel_types)
  end end end end end end.

(** The fields of a 004, up to the first one that is missing. *)
Definition MYINFO_FIELDS : list (str * nat) :=
  [(lit "Host", 1%nat); (lit "IRCd", 2%nat); (lit "User modes", 3%nat); (lit "Channel modes", 4%nat); (lit "Parametric channel modes", 5%nat)].

Fixpoint myinfo_entries (fields : list (str * nat)) (parameters : list str) (make : str -> StatusEntry) : list StatusEntry :=
  match fields with
  | [] => []
  | (label, index) :: fields =>
      if (length parameters <=? index)%nat || ((index =? 5)%nat && (length parameters <=? 5)%nat) then []
      else make (label ++ lit ": " ++ parameter_at parameters index) :: myinfo_entries fields parameters make
  end.

Definition incoming_all network message channel_types now : list StatusEntry :=
  let command := command_of message in
  let parameters := parameters_text message in
  let entry label text := new_status network now FromServer (severity_for command) label text in
  let myinfo := if str_eqb command (lit "004") then myinfo_entries MYINFO_FIELDS parameters (entry (lit "004")) else [] in
  if negb (is_empty myinfo) then myinfo
  else
    match (if str_eqb command (lit "CAP") then format_incoming_cap message else None) with
    | Some text => [entry (lit "CAP") text]
    | None =>
        match (if is_numeric_command command then format_lusers (numeric_code command) parameters else None) with
        | Some text => [entry command text]
        | None => [build_default_incoming network message channel_types now]
        end
    end.
(** ** The keep table (keep.rs) *)

Inductive Keep := KeepDrop | KeepKeep | KeepIncomingPrivmsg.

Record KeepRow := mkKeepRow { keep_command : str; keep_incoming : Keep; keep_outgoing : Keep }.

Definition KEEP_ROWS : list KeepRow :=
  let dropped command := mkKeepRow command KeepDrop KeepDrop in
  let kept command := mkKeepRow command KeepKeep KeepDrop in
  [dropped (lit "PING"); dropped (lit "PONG"); kept (lit "CAP"); dropped (lit "AUTHENTICATE"); dropped (lit "JOIN"); dropped (lit "PART");
   dropped (lit "QUIT"); dropped (lit "NICK"); dropped (lit "KICK"); dropped (lit "TOPIC"); dropped (lit "MODE"); dropped (lit "BATCH");
   dropped (lit "TAGMSG"); dropped (lit "AWAY"); dropped (lit "CHATHISTORY"); dropped (lit "MARKREAD"); dropped (lit "READ");
   mkKeepRow (lit "PRIVMSG") KeepIncomingPrivmsg KeepDrop; kept (lit "NOTICE"); kept (lit "FAIL"); kept (lit "WARN"); kept (lit "NOTE");
   kept (lit "ERROR"); kept (lit "INVITE"); mkKeepRow (lit "PASS") KeepDrop KeepKeep].

Definition keep_row (command : str) : option KeepRow := snd <$> list_find (fun row => keep_command row = command) KEEP_ROWS.

Definition features_for_channel_types channel_types : IrcServerFeatures :=
  if is_empty channel_types then new_features else apply_token new_features (lit "CHANTYPES=" ++ channel_types).

Definition conversation_engaged message (target current_nick : str) (features : IrcServerFeatures) : bool :=
  let unroutable := match msg_prefix message with
    | Some prefix => negb (is_empty (prefix_nick_bytes prefix)) && negb (nick_is_routable (wire_text (prefix_nick_bytes prefix)))
    | None => false
    end in
  if unroutable then false
  else if is_channel features target then true
  else if is_network_notice_target target || negb (match msg_prefix message with Some prefix => is_user prefix | None => false end)
      || is_service_source message features then false
  else
    let sender := prefix_nick message in
    if is_empty sender then false
    else equals (case_mapping features) target current_nick || equals (case_mapping features) sender current_nick.

Definition KEPT_NUMERICS : list N :=
  [20; 42; 221; 250; 251; 252; 253; 254; 255; 263; 265; 266; 396; 372; 375; 376; 422; 764; 767; 769; 903; 904; 905].

Definition keeps_numeric (command : str) : bool :=
  if negb (is_numeric_command command) then false
  else
    let code := numeric_code command in
    if code_in code [1; 2; 3; 4] then true
    else if code_in code KEPT_NUMERICS then true
    else if bool_decide (is_Some (whois_spec code)) then true
    else if keeps_list_mode_numeric code then true
    else starts_four_or_five command.

Definition keeps_privmsg message (current_nick channel_types : str) : bool :=
  let other_ctcp :=
    if (2 <=? length (msg_params message))%nat then
      match parse_ctcp_request (trailing_text message) with
      | Some request => negb (str_eqb (ctcp_command request) (lit "ACTION"))
      | None => false
      end
    else false in
  if other_ctcp then true
  else
    let features := features_for_channel_types channel_types in
    let types := ServerFeatures.channel_types features in
    let target := default [] (wire_text <$> head (msg_params message)) in
    if is_channel features target then false
    else
      let '(sender, host) := match msg_prefix message with
        | Some prefix => (wire_text (prefix_nick_bytes prefix), wire_text (prefix_host prefix))
        | None => ([], [])
        end in
      if is_service_identity sender host types || is_service_identity target [] types then true
      else negb (conversation_engaged message target current_nick features).

Definition keeps_incoming message (current_nick channel_types : str) : bool :=
  let command := command_of message in
  match keep_row command with
  | Some row =>
      match keep_incoming row with
      | KeepKeep => true
      | KeepDrop => false
      | KeepIncomingPrivmsg => keeps_privmsg message current_nick channel_types
      end
  | None => keeps_numeric command
  end.

Definition keeps_outgoing (line : bytes) : bool :=
  let display := wire_text (strip_line_end line) in
  let verb := first_token display in
  if is_empty verb then false
  else
    match keep_row verb with
    | None => false
    | Some row =>
        match keep_outgoing row with
        | KeepKeep => true
        | _ =>
            if str_eqb verb (lit "CAP") then
              let trimmed := trim display in
              if 3 <? str_len trimmed then has_prefix_fold (trim (drop 3 trimmed)) (lit "REQ") else false
            else false
        end
    end.
End Status.

(** ** Examples *)

Definition toy_message (line : string) : IrcMessage := match Parser.parse (lit line) with Ok m => m | Err _ => mkMessage [] None [] [] end.
Definition toy_texts (line : string) : list (str * str) :=
  (fun e => (entry_label e, entry_text e)) <$> @incoming_all toy_platform (lit "net") (toy_message line) [] 0%Z.

Example status_example :
  toy_texts ":irc 311 me anna u host * :Anna" = [(lit "whois", lit "anna is u@host (Anna)")] /\
  toy_texts ":irc 004 me host ircd o b" = [(lit "004", lit "Host: host"); (lit "004", lit "IRCd: ircd"); (lit "004", lit "User modes: o"); (lit "004", lit "Channel modes: b")] /\
  toy_texts ":anna!u@h NOTICE me :hi" = [(lit "NOTICE", lit "-anna- hi")] /\
  toy_texts ":irc 433 * nick :PASS hunter2" = [(lit "433", lit "nick PASS ***")] /\
  entry_text (@outgoing toy_platform (lit "net") (lit "PASS hunter2" ++ [13; 10]) [] 0%Z) = lit "PASS ***" /\
  entry_text (@outgoing toy_platform (lit "net") (lit "CAP REQ :a b") [] 0%Z) = lit "Requesting: a | b".
Proof. vm_compute. by split_and!. Qed.

(** ** what the Status console promises
    (src/client/src/irc/statusentry/)

    What the policy masks is in no entry, sent or received; every line the server sends has an
    entry; and a private line the conversations do not take reaches Status. *)

Section Properties.
Context `{platform : Platform} `{laws : !AsciiLaws}.
Implicit Types (message : IrcMessage) (network types : str) (now : Time).

(** ** Verbs *)

Lemma simple_upper_ascii s : forallb is_ascii s = true -> simple_upper s = ascii_upper s.
Proof using laws.
  unfold simple_upper, ascii_upper. induction s as [|c s IH]; [done|]. cbn [forallb]. intros [Hc Hs]%andb_true_iff. rw !fmap_cons IH //.
  f_equal. rw to_uppercase_ascii; [by cbn; rw Hc|]. done.
Qed.

Lemma command_is_verb message : forallb is_ascii (msg_command message) = true -> command_of message = simple_upper (msg_command message).
Proof using laws. intros H. unfold command_of. by rw to_uppercase_ascii // simple_upper_ascii. Qed.

(** A verb whose line is neither counted, listed nor a WHOIS reply. *)
Definition plain_line (command : str) : bool :=
  negb (str_eqb command (lit "004")) && negb (str_eqb command (lit "CAP"))
  && negb (is_numeric_command command && code_in (numeric_code command) [252; 253; 254; 20; 42; 221; 250; 251; 255; 265; 266; 396])
  && match parse_unsigned u32_max command with
     | Some code => negb (bool_decide (is_Some (whois_spec code))) && negb (keeps_list_mode_numeric code)
     | None => true
     end.

Lemma secret_verbs_plain verb rule : secret_rule_for verb = Some rule -> plain_line verb = true.
Proof using Type.
  intros [Hin <-]%secret_rule_for_spec. assert (Hall : forallb (fun rule => plain_line (rule_verb rule)) SECRET_MAP = true) by (vm_compute; reflexivity).
  apply (proj1 (forallb_forall _ _) Hall). by apply list_elem_of_In.
Qed.

Lemma plain_no_whois message : plain_line (command_of message) = true -> format_whois message = None.
Proof using Type.
  unfold plain_line, format_whois. rw !andb_true_iff. intros [_ H]. cbv zeta. destruct (negb _); [done|]. destruct (parse_unsigned u32_max (command_of message)) as [code|]; [|done].
  cbn [mbind option_bind]. apply andb_true_iff in H as [H%negb_true_iff%bool_decide_eq_false _]. destruct (whois_spec code); [by destruct H; eexists|done].
Qed.

Lemma plain_no_list message : plain_line (command_of message) = true -> format_list_mode message = None.
Proof using Type.
  unfold plain_line, format_list_mode. rw !andb_true_iff. intros [_ H]. cbv zeta. destruct (negb _); [done|]. destruct (parse_unsigned u32_max (command_of message)) as [code|]; [|done].
  cbn [mbind option_bind]. apply andb_true_iff in H as [_ H%negb_true_iff]. unfold keeps_list_mode_numeric, code_in in H. cbn [existsb] in H.
  rw !orb_false_iff in H. destruct H as (-> & -> & -> & -> & _). done.
Qed.

Lemma plain_incoming network message types now :
  plain_line (command_of message) = true -> incoming_all network message types now = [build_default_incoming network message types now].
Proof using Type.
  unfold plain_line. rw !andb_true_iff !negb_true_iff. intros [[[H1 H2] H3] _]. unfold incoming_all. cbv zeta. rw H1 H2. cbn [is_empty negb].
  assert (Hl : (if is_numeric_command (command_of message) then format_lusers (numeric_code (command_of message)) (parameters_text message) else None) = None); [|by rw Hl].
  destruct (is_numeric_command _); [|done]. cbn [andb] in H3. unfold format_lusers. destruct (head (tail _)); [|done]. cbn [mbind option_bind].
  destruct (last (tail _)); [|done]. cbn [mbind option_bind]. unfold code_in in *. cbn [existsb] in *. rw !orb_false_iff in H3.
  destruct H3 as (-> & -> & -> & -> & -> & -> & -> & -> & -> & -> & -> & -> & _). done.
Qed.

(** ** Masks *)

Lemma redact_same types command parameters parameters' :
  simple_upper command <> lit "JOIN" -> same_public types (mkWire (simple_upper command) parameters) (mkWire (simple_upper command) parameters') ->
  exists masked, redact_message command parameters types = Some masked /\ redact_message command parameters' types = Some masked.
Proof using Type.
  intros Hj Hsame. destruct (same_public_mask _ _ _ Hsame) as (masked & Hm & Hm'). exists (mkMasked (wire_verb masked) (wire_parameters masked)).
  unfold redact_message. cbv zeta. set (verb := simple_upper command) in *. apply str_eqb_ne in Hj.
  assert (H : forall rule refused refused', secret_rule_for verb = Some rule -> refused = false -> refused' = false ->
    (if refused then None else let? masked := secret_mask (mkWire verb parameters) types in Some (mkMasked (wire_verb masked) (wire_parameters masked)))
      = Some (mkMasked (wire_verb masked) (wire_parameters masked)) /\
    (if refused' then None else let? masked := secret_mask (mkWire verb parameters') types in Some (mkMasked (wire_verb masked) (wire_parameters masked)))
      = Some (mkMasked (wire_verb masked) (wire_parameters masked))).
  { intros rule refused refused' _ -> ->. by rw Hm Hm'. }
  inversion Hsame as [v public secret secret' Hr Hs Hs' E1 E2|v visible modes ps ps' key adding Hr Hmo Hmo' Hscan Hkey Hlt Hlen Ha E1 E2
    |v modes public secret secret' adding Hr Hpub Hscan Hs Hs' E1 E2|v target body body' word Hr Hp Hw Hw' E1 E2]; subst; rw Hr; cbn [mbind option_bind rule_shape visible_parameters];
    apply (H _ _ _ Hr); rw ?Hj; cbn [orb]; try (apply Nat.leb_gt; rw !length_app; destruct secret, secret'; cbn [length]; done || lia).
  - apply Nat.leb_gt. pose proof (key_arguments_ge _ _ _ _ Hkey). lia.
  - apply Nat.leb_gt. pose proof (key_arguments_ge _ _ _ _ Hkey). lia.
  - cbn [head default from_option id]. rw Hp. destruct body; [by vm_compute in Hw|done].
  - cbn [head default from_option id]. rw Hp. destruct body'; [by vm_compute in Hw'|done].
Qed.
(** ** Received lines *)

(** Two received lines that differ only in what a rule calls secret. *)
Record same_but_secret (types : str) (message message' : IrcMessage) : Prop := {
  same_tags : msg_tags message' = msg_tags message;
  same_prefix : msg_prefix message' = msg_prefix message;
  same_command : msg_command message' = msg_command message;
  ascii_command : forallb is_ascii (msg_command message) = true;
  not_a_join : command_of message <> lit "JOIN";
  same_parameters : same_public types (mkWire (command_of message) (parameters_text message)) (mkWire (command_of message) (parameters_text message'));
}.

Lemma same_public_rule types verb parameters verb' parameters' : same_public types (mkWire verb parameters) (mkWire verb' parameters') -> exists rule, secret_rule_for verb = Some rule.
Proof using Type. inversion 1; subst; by eexists. Qed.

(** C34: what the policy masks is in no entry of the Status console. Two lines of the server that
    differ only in a password, an operator's password, the key of a channel mode or the rest of
    a request to a service have the very same entries, whatever the secret and its length. *)
Theorem received_secret_not_shown network message message' types now :
  same_but_secret types message message' -> incoming_all network message types now = incoming_all network message' types now.
Proof using laws.
  intros [Ht Hp Hc Ha Hj Hs]. destruct (same_public_rule _ _ _ _ _ Hs) as [rule Hr]. pose proof (secret_verbs_plain _ _ Hr) as Hplain.
  assert (Hc' : command_of message' = command_of message) by (unfold command_of; by rw Hc). rw !plain_incoming // ?Hc' //. f_equal.
  unfold build_default_incoming. cbv zeta. rw !plain_no_whois ?Hc' // !plain_no_list ?Hc' //.
  rw command_is_verb // in Hj Hs. destruct (redact_same _ _ _ _ Hj Hs) as (masked & Hm & Hm').
  unfold display_of. rw Hc Hm Hm' Ht Hp. done.
Qed.

(** ** Sent lines *)

Lemma upper_c c : is_ascii c = true -> to_ascii_lowercase c = chr "c" -> to_ascii_uppercase c = chr "C".
Proof using Type. unfold is_ascii, to_ascii_lowercase, to_ascii_uppercase, is_ascii_uppercase, is_ascii_lowercase. chars. repeat case_match; lia. Qed.

Lemma secret_not_cap verb rule c rest : secret_rule_for verb = Some rule -> verb = c :: rest -> c <> chr "C".
Proof using Type.
  intros [Hin <-]%secret_rule_for_spec E ->.
  assert (Hall : forallb (fun rule => negb (bool_decide (head (rule_verb rule) = Some (chr "C")))) SECRET_MAP = true) by (vm_compute; reflexivity).
  apply list_elem_of_In in Hin. pose proof (proj1 (forallb_forall _ _) Hall _ Hin) as H. cbn beta in H. rw E in H. done.
Qed.

(** A line that begins with a verb is no CAP REQ when its verb has a rule. *)
Lemma verb_not_cap c line command rule :
  is_ascii c = true -> is_whitespace c = false -> tokenize (c :: line) = Some command -> secret_rule_for (wire_verb command) = Some rule ->
  format_outgoing_cap_req (c :: line) = None.
Proof using laws.
  intros Hc Hw Htok Hr. unfold format_outgoing_cap_req. cbv zeta. assert (Htrim : exists rest, trim (c :: line) = c :: rest).
  { unfold trim. cbn [skip_while]. rw Hw. unfold skip_while_end. cbn [rev]. assert (H : forall l, exists m, skip_while is_whitespace (l ++ [c]) = m ++ [c]).
    { induction l as [|x l [m IH]]; cbn; [rw Hw; by exists []|]. case_match; [by exists m|]. by exists (x :: l). }
    destruct (H (rev line)) as [m ->]. rw rev_app_distr. by eexists. }
  destruct Htrim as [rest ->]. assert (Hf : has_prefix_fold (c :: rest) (lit "CAP") = false); [|by rw Hf].
  apply not_true_is_false. unfold has_prefix_fold. rw as_bytes_cons. intros [_ H]%andb_true_iff.
  assert (Hlow : to_ascii_lowercase c = chr "c").
  { unfold utf8_char in H. unfold is_ascii in Hc. rw Hc in H. cbn [app length lit] in H. unfold eq_ignore_ascii_case in H. apply str_eqb_eq in H. cbn in H. by injection H. }
  apply (secret_not_cap (wire_verb command) rule (chr "C") (tail (wire_verb command))); [done| |done].
  assert (Hup := upper_c c Hc Hlow). assert (Hcase : c = chr "c" \/ c = chr "C").
  { unfold to_ascii_lowercase, is_ascii_uppercase in Hlow. chars. case_match; lia. }
  unfold tokenize in Htok. assert (Hsp : is_field_space c = false) by (by destruct Hcase as [-> | ->]).
  unfold skip_field_spaces in Htok. cbn [skip_while] in Htok. rw Hsp in Htok. cbn [is_empty] in Htok.
  assert (Hs : starts_with_char (chr "@") (c :: line) = false /\ starts_with_char (chr ":") (c :: line) = false) by (by destruct Hcase as [-> | ->]).
  destruct Hs as [Hs1 Hs2]. rw Hs1 in Htok. cbn [mbind option_bind] in Htok. rw Hs2 in Htok. cbn [mbind option_bind] in Htok.
  assert (Hverb : forall text, text = c :: tail text -> simple_upper text = chr "C" :: tail (simple_upper text)).
  { intros text ->. unfold simple_upper. rw fmap_cons. cbn [tail]. f_equal. rw to_uppercase_ascii; [cbn; by rw Hc|]. cbn. exact Hup. }
  unfold field_break in Htok. cbn [position] in Htok. rw Hsp in Htok. destruct (position is_field_space line) as [i|]; cbn [fmap option_fmap option_map take] in Htok; rw Hverb // in Htok; cbn [is_empty] in Htok; by injection Htok as <-.
Qed.

(** C35: nor is it in the entry of a line the client sends: two lines that begin with their verb
    and differ only in a secret have entries with the same text, and that text is masked. *)
Theorem sent_secret_not_shown network types now line line' c c' rest rest' command command' :
  wire_text (strip_line_end line) = c :: rest -> wire_text (strip_line_end line') = c' :: rest' ->
  is_ascii c = true -> is_whitespace c = false -> is_ascii c' = true -> is_whitespace c' = false ->
  tokenize (c :: rest) = Some command -> tokenize (c' :: rest') = Some command' -> same_public types command command' ->
  exists shown, entry_text (outgoing network line types now) = shown /\ entry_text (outgoing network line' types now) = shown /\
    redact_wire_line (c :: rest) types = Some shown.
Proof using laws.
  intros E E' Hc Hw Hc' Hw' Ht Ht' Hsame. destruct (same_public_mask _ _ _ Hsame) as (masked & Hm & Hm').
  destruct command as [verb parameters], command' as [verb' parameters'].
  destruct (same_public_rule _ _ _ _ _ Hsame) as [rule Hr].
  assert (Hr' : secret_rule_for verb' = Some rule) by (inversion Hsame; by subst).
  exists (format_line masked). unfold outgoing. rw E E'.
  rw (verb_not_cap c rest (mkWire verb parameters) rule) // (verb_not_cap c' rest' (mkWire verb' parameters') rule) //.
  unfold redact_wire_line. by rw Ht Ht' Hm Hm'.
Qed.

(** ** What reaches Status *)

Lemma every_line_has_an_entry network message types now : incoming_all network message types now <> [].
Proof using Type.
  unfold incoming_all. cbv zeta. destruct (negb (is_empty _)) eqn:E; [by intros H; rw H in E|].
  repeat (case_match; try done).
Qed.

Lemma engaged_is_conversation network message target current_nick features :
  conversation_engaged message target current_nick features = bool_decide (is_Some (conversation_for network target message current_nick features)).
Proof using Type.
  unfold conversation_engaged, conversation_for. cbv zeta.
  assert (Hroute : routable_source message = negb (match msg_prefix message with
    | Some prefix => negb (is_empty (prefix_nick_bytes prefix)) && negb (nick_is_routable (wire_text (prefix_nick_bytes prefix))) | None => false end)).
  { unfold routable_source. destruct (msg_prefix message) as [prefix|]; [|done]. destruct (is_empty (prefix_nick_bytes prefix)); [done|]. cbn. by rw negb_involutive. }
  rw Hroute. destruct (match msg_prefix message with Some _ => _ | None => _ end); [done|]. cbn [negb].
  destruct (is_channel features target); [done|]. unfold prefix_is_user, author, same. destruct (_ || _ || _); [done|]. destruct (is_empty (prefix_nick message)); [done|].
  destruct (equals (case_mapping features) target current_nick); [done|]. by destruct (equals (case_mapping features) (prefix_nick message) current_nick).
Qed.

End Properties.

(** ** Concrete instances *)

Lemma oper_differs : @same_public toy_platform [] (mkWire (lit "OPER") ([lit "admin"] ++ [lit "s3cret"])) (mkWire (lit "OPER") ([lit "admin"] ++ [lit "another"; lit "longer"])).
Proof. by apply PublicTail. Qed.

Lemma received_secret_not_shown_witness :
  let message := toy_message ":irc OPER admin s3cret" in let message' := toy_message ":irc OPER admin another longer" in
  @incoming_all toy_platform (lit "net") message [] 0%Z = @incoming_all toy_platform (lit "net") message' [] 0%Z /\
  (entry_text <$> @incoming_all toy_platform (lit "net") message [] 0%Z) = [lit "admin ***"].
Proof.
  intros message message'. split; [|by vm_compute]. apply (@received_secret_not_shown toy_platform toy_ascii_laws).
  split; [reflexivity|reflexivity|reflexivity|by vm_compute|by vm_compute|exact oper_differs].
Defined.

Lemma sent_secret_not_shown_witness :
  exists shown, entry_text (@outgoing toy_platform (lit "net") (lit "OPER admin s3cret" ++ [13; 10]) [] 0%Z) = shown /\
    entry_text (@outgoing toy_platform (lit "net") (lit "OPER admin another longer" ++ [13; 10]) [] 0%Z) = shown /\
    @redact_wire_line toy_platform (lit "OPER admin s3cret") [] = Some shown.
Proof.
  apply (@sent_secret_not_shown toy_platform toy_ascii_laws) with (c' := chr "O") (rest' := lit "PER admin another longer")
    (command := mkWire (lit "OPER") ([lit "admin"] ++ [lit "s3cret"])) (command' := mkWire (lit "OPER") ([lit "admin"] ++ [lit "another"; lit "longer"]));
    [reflexivity..|exact oper_differs].
Defined.


(** A line whose first character is white space that no field ends at is kept, and not masked. *)
Example vertical_tab_not_masked :
  let line := [11] ++ lit "PASS hunter2" in
  @keeps_outgoing toy_platform line = true /\ entry_text (@outgoing toy_platform (lit "net") line [] 0%Z) = line.
Proof. vm_compute. done. Qed.
