(* ===== verification/Command.v ===== *)
(** * Command: the composer's slash commands (src/client/src/irc/command/, pref.rs, colorpalette.rs)

    One line of the composer is plain text, blank, a verb of the catalog with its argument
    shaped by the verb, or an unknown word. [parse] reads it, [spec_for] is the catalog row of a
    verb, [allowed_on] the surfaces it runs on. [Preferences] are what /pref reads and sets. *)

From S2P Require Import Prelude Text Message Parser CaseMapping ServerFeatures CommandBuilder JoinTarget SessionTypes Platform Sts MembershipNoise.

(** ** The catalog (command/verbs.rs) *)

Inductive ComposerSurface := OnConversation | OnStatus.
#[export] Instance ComposerSurface_eq_dec : EqDecision ComposerSurface.
Proof. solve_decision. Defined.

(** [NO_CONVERSATION_TEXT], [COMMAND_REFUSED_TEXT], [NOT_SUPPORTED_TEXT] *)
Definition NO_CONVERSATION_TEXT : str := lit "Select a connected conversation first".
Definition COMMAND_REFUSED_TEXT : str := lit "Command was refused".
Definition NOT_SUPPORTED_TEXT : str := lit "That command is not supported".

Inductive VerbScope := ScopeConversation | ScopeEither.
#[export] Instance VerbScope_eq_dec : EqDecision VerbScope.
Proof. solve_decision. Defined.

Inductive Verb :=
  | VAction | VJoin | VPart | VNick | VDisconnect | VClear | VClose | VQuery | VMsg | VTopic | VNotice | VAway | VBack | VAutoaway | VPref
  | VStatus | VAvatar | VWhois | VPing | VTime | VVersion | VMode | VKick | VInvite | VIgnore | VUnignore | VIgnored | VMonitor
  | VUnmonitor | VMonitored | VMute | VUnmute | VMuted | VHighlight | VUnhighlight | VHighlights | VOp | VDeop | VVoice | VDevoice | VBan
  | VKickban | VUnban | VQuiet | VUnquiet | VBans | VQuiets | VNs | VCs | VZnc | VRaw | VHelp | VList.
#[export] Instance Verb_eq_dec : EqDecision Verb.
Proof. solve_decision. Defined.

Record VerbSpec := mkVerbSpec {
  spec_verb : Verb;
  spec_name : str;
  spec_aliases : list str;
  spec_usage : str;
  spec_scope : VerbScope;
  spec_wrong_scope_text : str;
}.
#[export] Instance VerbSpec_eq_dec : EqDecision VerbSpec.
Proof. solve_decision. Defined.

(** [VerbSpec::allowed_on] *)
Definition spec_allowed_on (spec : VerbSpec) (surface : ComposerSurface) : bool :=
  match spec_scope spec with
  | ScopeConversation => bool_decide (surface = OnConversation)
  | ScopeEither => true
  end.

Definition wrong_scope_message (spec : VerbSpec) : str :=
  if is_empty (spec_wrong_scope_text spec) then NO_CONVERSATION_TEXT else spec_wrong_scope_text spec.

Definition VERB_TABLE : list VerbSpec :=
  [mkVerbSpec VAction (lit "me") [] (lit "/me <text>") ScopeConversation (lit "");
   mkVerbSpec VJoin (lit "join") [lit "j"] (lit "/join [channel] [key][, ...]") ScopeEither (lit "");
   mkVerbSpec VPart (lit "part") [lit "leave"] (lit "/part [channel]") ScopeEither (lit "Part applies to channels");
   mkVerbSpec VNick (lit "nick") [] (lit "/nick <nickname>") ScopeEither (lit "");
   mkVerbSpec VDisconnect (lit "disconnect") [lit "quit"] (lit "/disconnect [reason]") ScopeEither (lit "");
   mkVerbSpec VClear (lit "clear") [] (lit "/clear") ScopeEither (lit "");
   mkVerbSpec VClose (lit "close") [] (lit "/close") ScopeConversation (lit "Close applies to direct messages and channels you have left");
   mkVerbSpec VQuery (lit "query") [] (lit "/query <nick> [text]") ScopeEither (lit "");
   mkVerbSpec VMsg (lit "msg") [] (lit "/msg <nick> <text>") ScopeEither (lit "");
   mkVerbSpec VTopic (lit "topic") [] (lit "/topic [text]") ScopeConversation (lit "Topic applies to channels");
   mkVerbSpec VNotice (lit "notice") [] (lit "/notice <target> <text>") ScopeEither (lit "");
   mkVerbSpec VAway (lit "away") [] (lit "/away [reason]") ScopeEither (lit "");
   mkVerbSpec VBack (lit "back") [] (lit "/back") ScopeEither (lit "");
   mkVerbSpec VAutoaway (lit "autoaway") [] (lit "/autoaway [off|on|duration [reason]|reason [text]]") ScopeEither (lit "");
   mkVerbSpec VPref (lit "pref") [] (lit "/pref [directs|avatars|unread|colors] [on|off] | joins [folded|every|hidden] | palette [classic|vivid]") ScopeEither (lit "");
   mkVerbSpec VStatus (lit "status") [] (lit "/status [text]") ScopeEither (lit "");
   mkVerbSpec VAvatar (lit "avatar") [] (lit "/avatar [url|email]") ScopeEither (lit "");
   mkVerbSpec VWhois (lit "whois") [] (lit "/whois [nick]") ScopeEither (lit "Name a nick");
   mkVerbSpec VPing (lit "ping") [] (lit "/ping [nick]") ScopeEither (lit "Name a nick");
   mkVerbSpec VTime (lit "time") [] (lit "/time [nick]") ScopeEither (lit "Name a nick");
   mkVerbSpec VVersion (lit "version") [] (lit "/version [nick]") ScopeEither (lit "Name a nick");
   mkVerbSpec VMode (lit "mode") [] (lit "/mode <channel> [[+|-]modechars [parameters]]") ScopeEither (lit "");
   mkVerbSpec VKick (lit "kick") [] (lit "/kick [channel] <nick> [reason]") ScopeEither (lit "Kick applies to channels");
   mkVerbSpec VInvite (lit "invite") [] (lit "/invite <nick> [channel]") ScopeEither (lit "Invite applies to channels");
   mkVerbSpec VIgnore (lit "ignore") [] (lit "/ignore <nick>") ScopeEither (lit "");
   mkVerbSpec VUnignore (lit "unignore") [] (lit "/unignore <nick>") ScopeEither (lit "");
   mkVerbSpec VIgnored (lit "ignored") [] (lit "/ignored") ScopeEither (lit "");
   mkVerbSpec VMonitor (lit "monitor") [] (lit "/monitor <nick>") ScopeEither (lit "");
   mkVerbSpec VUnmonitor (lit "unmonitor") [] (lit "/unmonitor <nick>") ScopeEither (lit "");
   mkVerbSpec VMonitored (lit "monitored") [] (lit "/monitored") ScopeEither (lit "");
   mkVerbSpec VMute (lit "mute") [] (lit "/mute [target]") ScopeEither (lit "Mute applies to conversations");
   mkVerbSpec VUnmute (lit "unmute") [] (lit "/unmute [target]") ScopeEither (lit "Mute applies to conversations");
   mkVerbSpec VMuted (lit "muted") [] (lit "/muted") ScopeEither (lit "");
   mkVerbSpec VHighlight (lit "highlight") [] (lit "/highlight <word>") ScopeEither (lit "");
   mkVerbSpec VUnhighlight (lit "unhighlight") [] (lit "/unhighlight <word>") ScopeEither (lit "");
   mkVerbSpec VHighlights (lit "highlights") [] (lit "/highlights") ScopeEither (lit "");
   mkVerbSpec VOp (lit "op") [] (lit "/op <nick>") ScopeConversation (lit "Op applies to channels");
   mkVerbSpec VDeop (lit "deop") [] (lit "/deop <nick>") ScopeConversation (lit "Deop applies to channels");
   mkVerbSpec VVoice (lit "voice") [] (lit "/voice <nick>") ScopeConversation (lit "Voice applies to channels");
   mkVerbSpec VDevoice (lit "devoice") [] (lit "/devoice <nick>") ScopeConversation (lit "Devoice applies to channels");
   mkVerbSpec VBan (lit "ban") [] (lit "/ban <mask>") ScopeConversation (lit "Ban applies to channels");
   mkVerbSpec VKickban (lit "kickban") [lit "kb"] (lit "/kickban [channel] <nick> [reason]") ScopeConversation (lit "Kickban applies to channels");
   mkVerbSpec VUnban (lit "unban") [] (lit "/unban <mask>") ScopeConversation (lit "Unban applies to channels");
   mkVerbSpec VQuiet (lit "quiet") [] (lit "/quiet <mask>") ScopeConversation (lit "Quiet applies to channels");
   mkVerbSpec VUnquiet (lit "unquiet") [] (lit "/unquiet <mask>") ScopeConversation (lit "Unquiet applies to channels");
   mkVerbSpec VBans (lit "bans") [] (lit "/bans") ScopeConversation (lit "Bans applies to channels");
   mkVerbSpec VQuiets (lit "quiets") [] (lit "/quiets") ScopeConversation (lit "Quiets applies to channels");
   mkVerbSpec VNs (lit "ns") [] (lit "/ns <text>") ScopeEither (lit "");
   mkVerbSpec VCs (lit "cs") [] (lit "/cs <text>") ScopeEither (lit "");
   mkVerbSpec VZnc (lit "znc") [] (lit "/znc <text>") ScopeEither (lit "");
   mkVerbSpec VRaw (lit "raw") [lit "quote"] (lit "/raw <line>") ScopeEither (lit "");
   mkVerbSpec VHelp (lit "help") [] (lit "/help") ScopeEither (lit "");
   mkVerbSpec VList (lit "list") [] (lit "/list [mask]") ScopeEither (lit "")].

(** [spec_for]: the row of the verb; [default] stands where the code expects a row. *)
Definition spec_for (verb : Verb) : VerbSpec :=
  default (mkVerbSpec verb [] [] [] ScopeEither []) (snd <$> list_find (fun spec => spec_verb spec = verb) VERB_TABLE).

Definition lookup_verb `{Platform} (token : str) : option VerbSpec :=
  let folded := to_lowercase token in
  snd <$> list_find (fun spec => spec_name spec = folded \/ folded ∈ spec_aliases spec) VERB_TABLE.

Definition visible_on (surface : ComposerSurface) : list VerbSpec := base.filter (fun spec => spec_allowed_on spec surface = true) VERB_TABLE.

(** ** Color palettes (colorpalette.rs) *)

Inductive ColorPaletteId := Classic | Vivid.
#[export] Instance ColorPaletteId_eq_dec : EqDecision ColorPaletteId.
Proof. solve_decision. Defined.

Definition ALL_PALETTES : list ColorPaletteId := [Classic; Vivid].
Definition palette_token (id : ColorPaletteId) : str := match id with Classic => lit "classic" | Vivid => lit "vivid" end.
Definition palette_from_token `{Platform} (token : str) : option ColorPaletteId :=
  let folded := to_lowercase (trim token) in List.find (fun id => str_eqb (palette_token id) folded) ALL_PALETTES.
(** [ColorPaletteId::next] *)
Definition next_palette (id : ColorPaletteId) : ColorPaletteId :=
  let index := default 0%nat (fst <$> list_find (fun other => other = id) ALL_PALETTES) in
  default id (ALL_PALETTES !! ((index + 1) mod length ALL_PALETTES)%nat).

(** ** Preferences (pref.rs) *)

Inductive PrefName := PrefDirects | PrefAvatars | PrefUnread | PrefColors | PrefJoins | PrefPalette.
#[export] Instance PrefName_eq_dec : EqDecision PrefName.
Proof. solve_decision. Defined.

Inductive PrefValueKind := KindToggle | KindNoise | KindPalette.

Record PrefSpec := mkPrefSpec { pref_name : PrefName; pref_token : str; pref_label : str; pref_value_kind : PrefValueKind }.

Definition PREF_CATALOG : list PrefSpec :=
  [mkPrefSpec PrefDirects (lit "directs") (lit "Reopen direct messages on startup") KindToggle;
   mkPrefSpec PrefAvatars (lit "avatars") (lit "Show peer avatars") KindToggle;
   mkPrefSpec PrefUnread (lit "unread") (lit "Open conversations at unread") KindToggle;
   mkPrefSpec PrefColors (lit "colors") (lit "Show mIRC colors") KindToggle;
   mkPrefSpec PrefJoins (lit "joins") (lit "Join, part, quit, and nick lines") KindNoise;
   mkPrefSpec PrefPalette (lit "palette") (lit "Color palette") KindPalette].

(** [PrefName::spec], whose fallback is the first row *)
Definition pref_spec (name : PrefName) : PrefSpec :=
  default (mkPrefSpec PrefDirects (lit "directs") (lit "Reopen direct messages on startup") KindToggle)
    (snd <$> list_find (fun spec => pref_name spec = name) PREF_CATALOG).
Definition label_of_pref (name : PrefName) : str := pref_label (pref_spec name).

Definition pref_find (token : str) : option PrefSpec :=
  let folded := ascii_lower token in snd <$> list_find (fun spec => pref_token spec = folded) PREF_CATALOG.

Definition pref_avatar_note : str := lit "Turn off to keep avatar hosts from seeing your IP on busy channels.".

Definition format_pref_state (name : PrefName) (enabled : bool) : str :=
  label_of_pref name ++ lit ": " ++ (if enabled then lit "on" else lit "off").

Definition format_pref_query (name : PrefName) (enabled : bool) : str :=
  let text := format_pref_state name enabled in
  if bool_decide (name = PrefAvatars) then text ++ [10] ++ pref_avatar_note else text.

Definition format_pref_noise (noise : MembershipNoise) : str := label_of_pref PrefJoins ++ lit ": " ++ noise_token noise.
Definition format_pref_palette (palette : ColorPaletteId) : str := label_of_pref PrefPalette ++ lit ": " ++ palette_token palette.

Definition format_pref_list (directs avatars unread colors : bool) (noise : MembershipNoise) (palette : ColorPaletteId) : str :=
  join_with [10]
    [format_pref_state PrefDirects directs; format_pref_state PrefAvatars avatars; format_pref_state PrefUnread unread;
     format_pref_state PrefColors colors; format_pref_noise noise; format_pref_palette palette].

Inductive PrefKind := QueryAll | QueryOne | SetPref | PrefUsage.

Record PrefRequest := mkPref {
  request_kind : PrefKind;
  request_name : PrefName;
  request_enabled : bool;
  request_noise : MembershipNoise;
  request_palette : ColorPaletteId;
}.

Definition parse_pref_argument `{Platform} (argument : str) : PrefRequest :=
  let request kind name := mkPref kind name false Folded Classic in
  match base.filter (fun part => part <> []) (split_on is_whitespace argument) with
  | [] => request QueryAll PrefDirects
  | [first] => match pref_find first with Some spec => request QueryOne (pref_name spec) | None => request PrefUsage PrefDirects end
  | [first; second] =>
      match pref_find first with
      | None => request PrefUsage PrefDirects
      | Some spec =>
          let name := pref_name spec in
          let value := ascii_lower second in
          match pref_value_kind spec with
          | KindNoise =>
              match noise_from_token value with
              | Some noise => mkPref SetPref name false noise Classic
              | None => request PrefUsage name
              end
          | KindPalette =>
              match palette_from_token value with
              | Some palette => mkPref SetPref name false Folded palette
              | None => request PrefUsage name
              end
          | KindToggle =>
              if str_eqb value (lit "on") then mkPref SetPref name true Folded Classic
              else if str_eqb value (lit "off") then mkPref SetPref name false Folded Classic
              else request PrefUsage name
          end
      end
  | _ => request PrefUsage PrefDirects
  end.

Inductive PrefValue := ToggleValue (on : bool) | NoiseValue (level : MembershipNoise) | PaletteValue (id : ColorPaletteId).

Record Preferences := mkPrefs {
  directs : bool;
  avatars : bool;
  unread_mark : bool;
  colors : bool;
  joins : MembershipNoise;
  palette : ColorPaletteId;
}.
#[export] Instance preferences_eta : Eta Preferences := fun p =>
  mkPrefs (directs p) (avatars p) (unread_mark p) (colors p) (joins p) (palette p).

(** [Preferences::default] *)
Definition default_preferences : Preferences := mkPrefs true true true true Folded Classic.

Definition pref_enabled (prefs : Preferences) (name : PrefName) : bool :=
  match name with
  | PrefDirects => directs prefs
  | PrefAvatars => avatars prefs
  | PrefUnread => unread_mark prefs
  | PrefColors => colors prefs
  | PrefJoins | PrefPalette => false
  end.

Definition next_value (prefs : Preferences) (name : PrefName) : PrefValue :=
  match pref_value_kind (pref_spec name) with
  | KindToggle => ToggleValue (negb (pref_enabled prefs name))
  | KindPalette => PaletteValue (next_palette (palette prefs))
  | KindNoise => NoiseValue (joins prefs)
  end.

Definition choice_token (prefs : Preferences) (name : PrefName) : option str :=
  match name with PrefPalette => Some (palette_token (palette prefs)) | _ => None end.

(** [Preferences::set] *)
Definition set_pref (prefs : Preferences) (name : PrefName) (value : PrefValue) : Preferences * bool :=
  match name, value with
  | PrefDirects, ToggleValue on => (prefs <| directs := on |>, true)
  | PrefAvatars, ToggleValue on => (prefs <| avatars := on |>, true)
  | PrefUnread, ToggleValue on => (prefs <| unread_mark := on |>, true)
  | PrefColors, ToggleValue on => (prefs <| colors := on |>, true)
  | PrefJoins, NoiseValue level => (prefs <| joins := level |>, true)
  | PrefPalette, PaletteValue id => (prefs <| palette := id |>, true)
  | _, _ => (prefs, false)
  end.

(** ** One line of the composer (command/mod.rs, command/parse.rs) *)

Record Words := mkWords { words_first : str; words_rest : str }.

Definition split_words (argument : str) : Words :=
  match split_once (N.eqb (chr " ")) argument with
  | Some (first, rest) => mkWords first (trim rest)
  | None => mkWords argument []
  end.

(** [joined] of the dispatcher *)
Definition joined (words : Words) : str :=
  if is_empty (words_rest words) then words_first words else words_first words ++ lit " " ++ words_rest words.

Inductive Command :=
| CmdEmpty
| CmdSay (text : str)
| CmdUnknown (word : str)
| CmdAction (argument : str) | CmdJoin (argument : str) | CmdPart (words : Words) | CmdNick (argument : str)
| CmdDisconnect (argument : str) | CmdClear | CmdClose | CmdQuery (words : Words) | CmdMsg (words : Words) | CmdTopic (argument : str)
| CmdNotice (words : Words) | CmdAway (argument : str) | CmdBack | CmdAutoaway (argument : str) | CmdPref (request : PrefRequest)
| CmdStatus (argument : str) | CmdAvatar (argument : str) | CmdWhois (words : Words) | CmdPing (words : Words) | CmdTime (words : Words)
| CmdVersion (words : Words) | CmdMode (argument : str) | CmdKick (words : Words) | CmdInvite (words : Words) | CmdIgnore (words : Words)
| CmdUnignore (words : Words) | CmdIgnored (argument : str) | CmdMonitor (words : Words) | CmdUnmonitor (words : Words)
| CmdMonitored (argument : str) | CmdMute (words : Words) | CmdUnmute (words : Words) | CmdMuted (argument : str)
| CmdHighlight (words : Words) | CmdUnhighlight (words : Words) | CmdHighlights (argument : str) | CmdOp (words : Words)
| CmdDeop (words : Words) | CmdVoice (words : Words) | CmdDevoice (words : Words) | CmdBan (words : Words) | CmdKickban (words : Words)
| CmdUnban (words : Words) | CmdQuiet (words : Words) | CmdUnquiet (words : Words) | CmdBans (argument : str) | CmdQuiets (argument : str)
| CmdNs (argument : str) | CmdCs (argument : str) | CmdZnc (argument : str) | CmdRaw (argument : str) | CmdHelp | CmdList (argument : str).

(** [Command::verb] *)
Definition command_verb (command : Command) : option Verb :=
  match command with
  | CmdEmpty | CmdSay _ | CmdUnknown _ => None
  | CmdAction _ => Some VAction | CmdJoin _ => Some VJoin | CmdPart _ => Some VPart | CmdNick _ => Some VNick
  | CmdDisconnect _ => Some VDisconnect | CmdClear => Some VClear | CmdClose => Some VClose | CmdQuery _ => Some VQuery
  | CmdMsg _ => Some VMsg | CmdTopic _ => Some VTopic | CmdNotice _ => Some VNotice | CmdAway _ => Some VAway | CmdBack => Some VBack
  | CmdAutoaway _ => Some VAutoaway | CmdPref _ => Some VPref | CmdStatus _ => Some VStatus | CmdAvatar _ => Some VAvatar
  | CmdWhois _ => Some VWhois | CmdPing _ => Some VPing | CmdTime _ => Some VTime | CmdVersion _ => Some VVersion | CmdMode _ => Some VMode
  | CmdKick _ => Some VKick | CmdInvite _ => Some VInvite | CmdIgnore _ => Some VIgnore | CmdUnignore _ => Some VUnignore
  | CmdIgnored _ => Some VIgnored | CmdMonitor _ => Some VMonitor | CmdUnmonitor _ => Some VUnmonitor | CmdMonitored _ => Some VMonitored
  | CmdMute _ => Some VMute | CmdUnmute _ => Some VUnmute | CmdMuted _ => Some VMuted | CmdHighlight _ => Some VHighlight
  | CmdUnhighlight _ => Some VUnhighlight | CmdHighlights _ => Some VHighlights | CmdOp _ => Some VOp | CmdDeop _ => Some VDeop
  | CmdVoice _ => Some VVoice | CmdDevoice _ => Some VDevoice | CmdBan _ => Some VBan | CmdKickban _ => Some VKickban
  | CmdUnban _ => Some VUnban | CmdQuiet _ => Some VQuiet | CmdUnquiet _ => Some VUnquiet | CmdBans _ => Some VBans
  | CmdQuiets _ => Some VQuiets | CmdNs _ => Some VNs | CmdCs _ => Some VCs | CmdZnc _ => Some VZnc | CmdRaw _ => Some VRaw
  | CmdHelp => Some VHelp | CmdList _ => Some VList
  end.

Definition is_live_message (command : Command) : bool := match command with CmdSay _ | CmdAction _ => true | _ => false end.

(** [Command::allowed_on] *)
Definition allowed_on (command : Command) (surface : ComposerSurface) : bool :=
  match command_verb command with
  | Some verb => spec_allowed_on (spec_for verb) surface
  | None => match command with CmdSay _ => bool_decide (surface = OnConversation) | _ => true end
  end.

Inductive CommandOutcome := Sent | NotConnected | Refused | Unsupported | WrongScope.
#[export] Instance CommandOutcome_eq_dec : EqDecision CommandOutcome.
Proof. solve_decision. Defined.

Definition command_outcome_text (outcome : CommandOutcome) (command : Command) : str :=
  match outcome with
  | Sent => []
  | NotConnected => lit "Not connected"
  | Refused => COMMAND_REFUSED_TEXT
  | Unsupported => match command with CmdUnknown word => lit "Unknown command: " ++ word | _ => NOT_SUPPORTED_TEXT end
  | WrongScope =>
      match command_verb command with
      | Some verb => wrong_scope_message (spec_for verb)
      | None => NO_CONVERSATION_TEXT
      end
  end.

Definition help_text : str :=
  lit "Commands: " ++ join_with (lit ", ") ((fun spec => lit "/" ++ spec_name spec) <$> VERB_TABLE)
  ++ lit ". Empty /join joins the latest invite.".

Record PrefReply := mkPrefReply { pref_reply_text : str; pref_changed : bool }.

(** The reply to a request, and the preferences after it. *)
Definition pref_reply (request : PrefRequest) (prefs : Preferences) : Preferences * PrefReply :=
  let name := request_name request in
  match request_kind request with
  | PrefUsage => (prefs, mkPrefReply (spec_usage (spec_for VPref)) false)
  | QueryAll =>
      (prefs, mkPrefReply (format_pref_list (directs prefs) (avatars prefs) (unread_mark prefs) (colors prefs) (joins prefs) (palette prefs)) false)
  | QueryOne =>
      (prefs, mkPrefReply match name with
        | PrefJoins => format_pref_noise (joins prefs)
        | PrefPalette => format_pref_palette (palette prefs)
        | _ => format_pref_query name (pref_enabled prefs name)
        end false)
  | SetPref =>
      let value := match name with
        | PrefJoins => NoiseValue (request_noise request)
        | PrefPalette => PaletteValue (request_palette request)
        | _ => ToggleValue (request_enabled request)
        end in
      let prefs := (set_pref prefs name value).1 in
      (prefs, mkPrefReply match name with
        | PrefJoins => format_pref_noise (joins prefs)
        | PrefPalette => format_pref_palette (palette prefs)
        | _ => format_pref_state name (pref_enabled prefs name)
        end true)
  end.

Section Parse.
Context `{platform : Platform}.

Definition command_for (verb : Verb) (argument : str) : Command :=
  match verb with
  | VAction => CmdAction argument | VJoin => CmdJoin argument | VPart => CmdPart (split_words argument) | VNick => CmdNick argument
  | VDisconnect => CmdDisconnect argument | VClear => CmdClear | VClose => CmdClose | VQuery => CmdQuery (split_words argument)
  | VMsg => CmdMsg (split_words argument) | VTopic => CmdTopic argument | VNotice => CmdNotice (split_words argument)
  | VAway => CmdAway argument | VBack => CmdBack | VAutoaway => CmdAutoaway argument | VPref => CmdPref (parse_pref_argument argument)
  | VStatus => CmdStatus argument | VAvatar => CmdAvatar argument | VWhois => CmdWhois (split_words argument)
  | VPing => CmdPing (split_words argument) | VTime => CmdTime (split_words argument) | VVersion => CmdVersion (split_words argument)
  | VMode => CmdMode argument | VKick => CmdKick (split_words argument) | VInvite => CmdInvite (split_words argument)
  | VIgnore => CmdIgnore (split_words argument) | VUnignore => CmdUnignore (split_words argument) | VIgnored => CmdIgnored argument
  | VMonitor => CmdMonitor (split_words argument) | VUnmonitor => CmdUnmonitor (split_words argument) | VMonitored => CmdMonitored argument
  | VMute => CmdMute (split_words argument) | VUnmute => CmdUnmute (split_words argument) | VMuted => CmdMuted argument
  | VHighlight => CmdHighlight (split_words argument) | VUnhighlight => CmdUnhighlight (split_words argument)
  | VHighlights => CmdHighlights argument | VOp => CmdOp (split_words argument) | VDeop => CmdDeop (split_words argument)
  | VVoice => CmdVoice (split_words argument) | VDevoice => CmdDevoice (split_words argument) | VBan => CmdBan (split_words argument)
  | VKickban => CmdKickban (split_words argument) | VUnban => CmdUnban (split_words argument) | VQuiet => CmdQuiet (split_words argument)
  | VUnquiet => CmdUnquiet (split_words argument) | VBans => CmdBans argument | VQuiets => CmdQuiets argument | VNs => CmdNs argument
  | VCs => CmdCs argument | VZnc => CmdZnc argument | VRaw => CmdRaw argument | VHelp => CmdHelp | VList => CmdList argument
  end.

(** [parse] *)
Definition parse_command (input : str) : Command :=
  let trimmed := trim input in
  match trimmed with
  | [] => CmdEmpty
  | first :: after =>
      if negb (first =? chr "/") then CmdSay trimmed
      else if starts_with_char (chr "/") after then CmdSay after
      else
        let '(word, argument) := match split_once (N.eqb (chr " ")) trimmed with
          | Some (word, rest) => (word, trim rest)
          | None => (trimmed, [])
          end in
        match lookup_verb (tail word) with
        | Some spec => command_for (spec_verb spec) argument
        | None => CmdUnknown word
        end
  end.
End Parse.

(** ** Examples *)

Example command_example :
  @parse_command toy_platform (lit "  /KB bob  being rude ") = CmdKickban (mkWords (lit "bob") (lit "being rude")) /\
  @parse_command toy_platform (lit "//shrug") = CmdSay (lit "/shrug") /\
  @parse_command toy_platform (lit "/nope x") = CmdUnknown (lit "/nope") /\
  @parse_command toy_platform (lit "/pref joins hidden") = CmdPref (mkPref SetPref PrefJoins false Hidden Classic) /\
  command_outcome_text WrongScope (CmdTopic []) = lit "Topic applies to channels" /\
  allowed_on (CmdSay (lit "hi")) OnStatus = false.
Proof. vm_compute. by split_and!. Qed.

(** ** what the composer's parser promises (src/client/src/irc/command/)

    A slash line is the verb its word spells, in any letters and under any of its names, with
    the argument of the verb; whatever text is meant can be said; and splitting an argument
    that was split and joined again changes nothing. *)

(** ** Trimmed text *)

Abbreviation blank s := (forallb is_whitespace s = true).

(** Text that neither begins nor ends with white space. *)
Record tight (s : str) : Prop := {
  tight_head c rest : s = c :: rest -> is_whitespace c = false;
  tight_last c rest : s = rest ++ [c] -> is_whitespace c = false;
}.

Lemma skip_blank before l : blank before -> skip_while is_whitespace (before ++ l) = skip_while is_whitespace l.
Proof. induction before as [|c before IH]; [done|]. cbn. intros [-> H]%andb_true_iff. by apply IH. Qed.

Lemma blank_rev s : blank s -> blank (rev s).
Proof. intros H. apply forallb_forall. intros c Hc%in_rev. by apply (proj1 (forallb_forall _ _) H). Qed.

Lemma trim_around before s after : blank before -> blank after -> tight s -> trim (before ++ s ++ after) = s.
Proof.
  intros Hb Ha [Hhead Hlast]. unfold trim. rw skip_blank //. unfold skip_while_end.
  destruct s as [|c s].
  - cbn. assert (Hn : skip_while is_whitespace after = []); [|by rw Hn].
    rw -(app_nil_r after) skip_blank //.
  - rw (skip_while_id _ ((c :: s) ++ after)); [by intros x l H; injection H as <- _; apply (Hhead c s)|]. rw rev_app_distr skip_blank; [by apply blank_rev|].
    rw skip_while_id; [|apply rev_involutive]. intros x l H. apply (Hlast x (rev l)).
    by rw -(rev_involutive (c :: s)) H.
Qed.

Lemma trim_tight s : tight (trim s).
Proof.
  split; [intros c rest H; by eapply trim_nonempty_head|]. intros c rest H. unfold trim, skip_while_end in H.
  apply (f_equal (@rev N)) in H. rw rev_involutive rev_app_distr in H. cbn in H. by apply skip_while_head in H.
Qed.

Lemma trim_parts s : exists before after, blank before /\ blank after /\ s = before ++ trim s ++ after.
Proof.
  destruct (skip_while_suffix is_whitespace s) as (before & E & Hb).
  destruct (skip_while_suffix is_whitespace (rev (skip_while is_whitespace s))) as (after & E' & Ha).
  exists before, (rev after). split_and!; [done|by apply blank_rev|]. rw {1}E. f_equal.
  apply (f_equal (@rev N)) in E'. rw rev_involutive rev_app_distr in E'. exact E'.
Qed.

Lemma tight_between c mid t : is_whitespace c = false -> t <> [] -> tight t -> tight (c :: mid ++ t).
Proof.
  intros Hc Hn Ht. split; [by intros ? ? [= <- _]|]. intros x l. destruct t as [|y t] using rev_ind; [done|]. clear IHt.
  rw app_comm_cons app_assoc. intros [_ <-]%app_inj_tail. by apply (tight_last _ Ht y t).
Qed.

Lemma tight_trim s : tight s -> trim s = s.
Proof. intros H. rewrite <- (app_nil_r s) at 1. by apply (trim_around [] s []). Qed.

(** ** The catalog *)

Abbreviation names spec := (spec_name spec :: spec_aliases spec).

Lemma catalog_names_distinct : NoDup (concat ((fun spec => names spec) <$> VERB_TABLE)).
Proof. apply (bool_decide_unpack _). vm_compute. exact I. Qed.

(** Every verb has its row: the [expect] of the code never fails. *)
Lemma spec_for_row verb : spec_for verb ∈ VERB_TABLE /\ spec_verb (spec_for verb) = verb.
Proof.
  assert (H : existsb (fun spec => bool_decide (spec_verb spec = verb)) VERB_TABLE = true) by (by destruct verb).
  apply existsb_exists in H as (row & Hin & Hv%bool_decide_eq_true). unfold spec_for.
  destruct (list_find _ VERB_TABLE) as [[i found]|] eqn:E; cbn.
  - apply list_find_Some in E as (Hl & Hf & _). split; [by eapply list_elem_of_lookup_2|done].
  - apply list_find_None in E. apply list_elem_of_In in Hin. by eapply (proj1 (Forall_forall _ _) E) in Hin.
Qed.

Lemma row_of_name name spec spec' : spec ∈ VERB_TABLE -> spec' ∈ VERB_TABLE -> name ∈ names spec -> name ∈ names spec' -> spec = spec'.
Proof.
  pose proof catalog_names_distinct as H. revert H. generalize VERB_TABLE. intros l. induction l as [|row l IH]; [by intros _ ?%elem_of_nil|].
  rw fmap_cons. change (concat (?a :: ?b)) with (a ++ concat b). intros (_ & Hdis & Hl)%NoDup_app Hs Hs' Hn Hn'.
  assert (Hin : forall other, other ∈ l -> name ∈ names other -> name ∈ names row -> False).
  { intros other Ho Hno Hnr. apply (Hdis name Hnr). apply list_elem_of_In, in_concat. exists (names other).
    split; [|by apply list_elem_of_In]. apply list_elem_of_In, list_elem_of_fmap. by exists other. }
  apply elem_of_cons in Hs as [-> | Hs], Hs' as [-> | Hs']; [done| | |by apply IH].
  - by destruct (Hin spec').
  - by destruct (Hin spec).
Qed.

Section Lines.
Context `{platform : Platform} `{laws : !AsciiLaws}.

Lemma lookup_verb_row word spec :
  forallb is_ascii word = true -> spec ∈ VERB_TABLE -> ascii_lower word ∈ names spec -> lookup_verb word = Some spec.
Proof using laws.
  intros Ha Hin Hn. unfold lookup_verb. cbv zeta. rw to_lowercase_ascii //. destruct (list_find _ VERB_TABLE) as [[i found]|] eqn:E.
  - cbn. f_equal. apply list_find_Some in E as (Hl & Hf & _). apply (row_of_name (ascii_lower word)); [by eapply list_elem_of_lookup_2|done| |done].
    apply elem_of_cons. naive_solver.
  - apply list_find_None in E. eapply Forall_forall in E; [|done]. destruct E. apply elem_of_cons in Hn. naive_solver.
Qed.

Lemma lookup_verb_none word :
  forallb is_ascii word = true -> (forall spec, spec ∈ VERB_TABLE -> ascii_lower word ∉ names spec) -> lookup_verb word = None.
Proof using laws.
  intros Ha Hn. unfold lookup_verb. cbv zeta. rw to_lowercase_ascii //. destruct (list_find _ VERB_TABLE) as [[i found]|] eqn:E; [|done].
  apply list_find_Some in E as (Hl & Hf & _). apply list_elem_of_lookup_2 in Hl. destruct (Hn _ Hl). apply elem_of_cons. naive_solver.
Qed.

(** ** Slash lines *)

Lemma command_for_verb verb argument : command_verb (command_for verb argument) = Some verb.
Proof using Type. by destruct verb. Qed.

(** Words with no white space in them. *)
Definition one_word (word : str) : Prop := forallb (fun c => negb (is_whitespace c)) word = true.

Lemma one_word_last word c rest : one_word word -> word = rest ++ [c] -> is_whitespace c = false.
Proof using Type. intros H ->. unfold one_word in H. rw forallb_app in H. apply andb_true_iff in H as [_ H]. cbn in H. by rw andb_true_r negb_true_iff in H. Qed.

Lemma one_word_no_space word : one_word word -> forallb (fun c => negb (chr " " =? c)) word = true.
Proof using Type. apply forallb_impl. intros c Hc. destruct (N.eqb_spec (chr " ") c) as [<-|]; [|done]. by vm_compute in Hc. Qed.

Lemma parse_slash before word argument :
  blank before -> one_word word -> starts_with_char (chr "/") word = false ->
  parse_command (before ++ lit "/" ++ word ++ lit " " ++ argument)
    = match lookup_verb word with
      | Some spec => command_for (spec_verb spec) (trim argument)
      | None => CmdUnknown (lit "/" ++ word)
      end.
Proof using Type.
  intros Hb Hw Hs. destruct (trim_parts argument) as (left & right & Hl & Hr & E). unfold parse_command. cbv zeta.
  assert (Hline : trim (before ++ lit "/" ++ word ++ lit " " ++ argument)
    = chr "/" :: word ++ (if is_empty (trim argument) then [] else lit " " ++ left ++ trim argument)).
  { rw {1}E. destruct (trim argument) as [|c rest] eqn:Ht; cbn [is_empty].
    - rw app_nil_r. apply (trim_around before (chr "/" :: word) (lit " " ++ left ++ right)); [done|by rw !forallb_app Hl Hr|].
      split; [by intros ? ? [= <- _]|]. intros c rest. destruct word as [|w word] using rev_ind.
      + destruct rest as [|r rest]; [by intros [= <-]|]. by destruct rest.
      + rw app_comm_cons. intros [_ <-]%app_inj_tail. by apply (one_word_last (word ++ [w]) w word).
    - rw -Ht. assert (Hshape : before ++ lit "/" ++ word ++ lit " " ++ left ++ trim argument ++ right
        = before ++ (chr "/" :: (word ++ lit " " ++ left) ++ trim argument) ++ right) by (cbn; by rw -!app_assoc).
      rw Hshape trim_around //; [|by rw -!app_assoc]. apply tight_between; [done|by rw Ht|apply trim_tight]. }
  rw Hline. assert (Hslash : (chr "/" =? chr "/") = true) by done. rw Hslash. cbn [negb].
  destruct (trim argument) as [|c rest] eqn:Ht; cbn [is_empty].
  - rw app_nil_r Hs. assert (Hno : split_once (N.eqb (chr " ")) (chr "/" :: word) = None); [|by rw Hno].
    rw split_once_position (proj2 (position_None _ _)); [|done]. cbn. by rw one_word_no_space.
  - assert (Hs' : starts_with_char (chr "/") (word ++ lit " " ++ left ++ c :: rest) = false) by (by destruct word).
    rw Hs'. rw app_comm_cons (split_once_at (chr " ") (chr "/" :: word) (left ++ c :: rest)); [cbn; by rw one_word_no_space|].
    cbn [tail]. assert (Htr : trim (left ++ c :: rest) = c :: rest); [|by rw Htr].
    rewrite <- (app_nil_r (left ++ c :: rest)), <- app_assoc. apply trim_around; [done|done|]. rw -Ht. apply trim_tight.
Qed.

(** A slash line is read as the verb its word names. Whatever blanks stand around it, in
    whatever letters the word is spelled and under whichever of the verb's names, the command is
    that verb's and carries the trimmed text after the word as the verb splits it; a word in no
    row of the catalog is reported as unknown, with its slash. *)
Theorem slash_line_read before word argument :
  blank before -> one_word word -> forallb is_ascii word = true -> starts_with_char (chr "/") word = false ->
  let command := parse_command (before ++ lit "/" ++ word ++ lit " " ++ argument) in
  (forall verb, ascii_lower word ∈ names (spec_for verb) -> command = command_for verb (trim argument) /\ command_verb command = Some verb) /\
  ((forall verb, ascii_lower word ∉ names (spec_for verb)) -> command = CmdUnknown (lit "/" ++ word)).
Proof using laws.
  intros Hb Hw Ha Hs command. unfold command. rw parse_slash //. split.
  - intros verb Hn. destruct (spec_for_row verb) as [Hin Hv]. rw (lookup_verb_row word (spec_for verb)) // Hv. split; [done|apply command_for_verb].
  - intros Hn. rw lookup_verb_none //. intros spec Hin Hname. apply (Hn (spec_verb spec)).
    destruct (spec_for_row (spec_verb spec)) as [Hin' Hv]. assert (Hsame : spec_for (spec_verb spec) = spec); [|by rw Hsame].
    apply list_elem_of_In in Hin, Hin'. clear -Hin Hin' Hv. revert Hin Hin' Hv. generalize (spec_for (spec_verb spec)). intros other.
    assert (H : NoDup (spec_verb <$> VERB_TABLE)) by (apply (bool_decide_unpack _); vm_compute; exact I). revert H. generalize VERB_TABLE. intros l.
    intros H Hin Hin' Hv. apply list_elem_of_In, list_elem_of_lookup in Hin as [i Hi]. apply list_elem_of_In, list_elem_of_lookup in Hin' as [j Hj].
    assert (Hij : i = j); [|congruence]. eapply NoDup_lookup; [exact H| |]; rw list_lookup_fmap ?Hi ?Hj /=; [done|by rw Hv].
Qed.

(** Anything can be said. Trimmed text that is not empty is sent as it is, with one more
    slash in front when it begins with a slash. *)
Theorem anything_can_be_said before text after :
  blank before -> blank after -> tight text -> text <> [] ->
  parse_command (before ++ (if starts_with_char (chr "/") text then lit "/" ++ text else text) ++ after) = CmdSay text.
Proof using Type.
  intros Hb Ha Ht Hn. unfold parse_command. cbv zeta. destruct text as [|c text]; [done|]. cbn [starts_with_char].
  destruct (c =? chr "/") eqn:Hc.
  - assert (Hslash : tight (lit "/" ++ c :: text)) by by apply (tight_between (chr "/") [] (c :: text)).
    rw (trim_around before (lit "/" ++ c :: text) after) //. change (lit "/" ++ c :: text) with (chr "/" :: c :: text). cbn [starts_with_char]. by rw Hc.
  - rw trim_around //. by rw Hc.
Qed.

(** ** Words *)

(** The argument of a verb, split once, joined and split again, is the same two words: the
    dispatcher joins what the parser split. *)
Lemma split_words_joined argument : split_words (joined (split_words argument)) = split_words argument.
Proof using Type.
  unfold split_words at 2 3. rw split_once_position. destruct (position _ argument) as [i|] eqn:Hp; cbn [fmap option_fmap option_map].
  - unfold joined. cbn [words_rest words_first]. assert (Hfree : forallb (fun c => negb (chr " " =? c)) (take i argument) = true).
    { by apply position_Some in Hp as (? & _ & _ & ?). }
    destruct (is_empty (trim _)) eqn:He.
    + unfold split_words. rw split_once_position (proj2 (position_None _ _)) //. cbn. by destruct (trim (drop (S i) argument)).
    + unfold split_words. change (lit " " ++ ?x) with (chr " " :: x). rw split_once_at //. f_equal. apply tight_trim, trim_tight.
  - unfold joined, split_words. cbn [words_rest words_first is_empty]. by rw split_once_position Hp.
Qed.
End Lines.

(** ** Preferences *)

(** What a name holds. *)
Definition pref_value (prefs : Preferences) (name : PrefName) : PrefValue :=
  match pref_value_kind (pref_spec name) with
  | KindToggle => ToggleValue (pref_enabled prefs name)
  | KindNoise => NoiseValue (joins prefs)
  | KindPalette => PaletteValue (palette prefs)
  end.

(** A preference that is set holds the value, the others keep theirs, and a value of another
    kind changes nothing. *)
Lemma set_pref_spec prefs name value :
  match set_pref prefs name value with
  | (after, true) => pref_value after name = value /\ forall other, other <> name -> pref_value after other = pref_value prefs other
  | (after, false) => after = prefs /\ forall before, pref_value before name <> value
  end.
Proof.
  destruct name, value; cbn; split; try done; intros other H; by destruct other.
Qed.

(** ** Concrete instances *)

Lemma slash_line_read_witness :
  @parse_command toy_platform (lit "  " ++ lit "/" ++ lit "KB" ++ lit " " ++ lit " bob  being rude ")
    = @command_for toy_platform VKickban (trim (lit " bob  being rude ")).
Proof.
  apply (proj1 (@slash_line_read toy_platform toy_ascii_laws (lit "  ") (lit "KB") (lit " bob  being rude ") eq_refl eq_refl eq_refl eq_refl) VKickban).
  right. left.
Defined.

Lemma anything_can_be_said_witness : @parse_command toy_platform (lit " //etc is a folder") = CmdSay (lit "/etc is a folder").
Proof.
  apply (@anything_can_be_said toy_platform (lit " ") (lit "/etc is a folder") [] eq_refl eq_refl); [|done].
  change (tight (trim (lit "/etc is a folder"))). apply trim_tight.
Defined.
