(* ===== verification/Autoaway.v ===== *)
(** * Autoaway: the /autoaway argument and its texts (src/client/src/irc/autoaway.rs)

    The duration is a decimal number of minutes, seconds or hours that the code reads as a
    floating-point number; [F64] is what of the type it needs: a value that is not negative,
    with the 53 bits of its significand. *)

From S2P Require Import Prelude Text Message Parser CaseMapping ServerFeatures OrdMap SessionTypes Platform Sts SettingsIni Settings Command.

(** ** Floating-point numbers that are not negative *)

(** [significand * 2 ^ exponent], or what is too large for the type. *)
Inductive F64 := Finite (significand : N) (exponent : Z) | Infinity.

(** The quotient, rounded to the nearest [F64], halves to the even significand. *)
Definition round_ratio (n d : N) : F64 :=
  if n =? 0 then Finite 0 0
  else
    let scaled e := (n * 2 ^ Z.to_N (- e), d * 2 ^ Z.to_N e) in
    let first := (Z.of_N (N.log2 n) - Z.of_N (N.log2 d) - 52)%Z in
    let short := let '(num, den) := scaled first in num / den <? 2 ^ 52 in
    let exponent := Z.max (if short then first - 1 else first)%Z (-1074)%Z in
    let '(num, den) := scaled exponent in
    let below := num / den in
    let rest := num mod den in
    let significand := if (den <? 2 * rest) || ((2 * rest =? den) && N.odd below) then below + 1 else below in
    if (971 <? exponent)%Z || ((exponent =? 971)%Z && (significand =? 2 ^ 53)) then Infinity else Finite significand exponent.

(** The value as a fraction. *)
Definition fraction (significand : N) (exponent : Z) : N * N := (significand * 2 ^ Z.to_N exponent, 2 ^ Z.to_N (- exponent)).

Definition f64_mul (x : F64) (k : N) : F64 :=
  match x with
  | Finite m e => let '(n, d) := fraction m e in round_ratio (n * k) d
  | Infinity => Infinity
  end.

(** [x > k], [x < k] *)
Definition f64_gt (x : F64) (k : N) : bool := match x with Finite m e => let '(n, d) := fraction m e in k * d <? n | Infinity => true end.
Definition f64_lt (x : F64) (k : N) : bool := match x with Finite m e => let '(n, d) := fraction m e in n <? k * d | Infinity => false end.

(** [x.round()], halves away from zero *)
Definition f64_round (x : F64) : N := match x with Finite m e => let '(n, d) := fraction m e in (2 * n + d) / (2 * d) | Infinity => 0 end.

(** ** Durations *)

Definition AUTOAWAY_MIN_TIMEOUT_SECONDS : Z := 30.
Definition AUTOAWAY_MAX_TIMEOUT_SECONDS : Z := 2147483.

(** The digits at the start, and what follows them. *)
Fixpoint leading_digits (s : bytes) : bytes * bytes :=
  match s with
  | b :: rest => if is_ascii_digit b then let '(digits, after) := leading_digits rest in (b :: digits, after) else ([], s)
  | [] => ([], [])
  end.

(** [number.parse::<f64>()] for digits with an optional fraction *)
Definition parse_decimal (whole part : bytes) : F64 := round_ratio (default 0 (digits_value 0 (whole ++ part))) (10 ^ blen part).

Definition parse_autoaway_duration (token : str) : option Z :=
  let '(whole, after) := leading_digits (as_bytes token) in
  if is_empty whole then None
  else
    let? (part, suffix) := match after with
      | b :: rest =>
          if b =? chr "." then let '(part, after) := leading_digits rest in if is_empty part then None else Some (part, after)
          else Some ([], after)
      | [] => Some ([], after)
      end in
    let? unit := match suffix with
      | [] => Some 60
      | [b] =>
          let letter := to_ascii_lowercase b in
          if letter =? chr "s" then Some 1 else if letter =? chr "m" then Some 60 else if letter =? chr "h" then Some 3600 else None
      | _ => None
      end in
    let value := parse_decimal whole part in
    let seconds := if unit =? 1 then value else f64_mul value unit in
    if f64_gt seconds (Z.to_N AUTOAWAY_MAX_TIMEOUT_SECONDS) || f64_lt seconds (Z.to_N AUTOAWAY_MIN_TIMEOUT_SECONDS) then None
    else
      let rounded := Z.of_N (f64_round seconds) in
      if (rounded <=? AUTOAWAY_MAX_TIMEOUT_SECONDS)%Z then Some rounded else None.

(** ** The argument *)

Inductive AutoawayKind := AutoawayQuery | AutoawayDisable | AutoawayEnableOn | AutoawaySetTimeout | AutoawaySetDefaultReason | AutoawayClearDefaultReason | AutoawayUsage.
#[export] Instance AutoawayKind_eq_dec : EqDecision AutoawayKind.
Proof. solve_decision. Defined.

Record AutoawayRequest := mkAutoaway { away_kind : AutoawayKind; away_timeout : Z; away_text : str }.

(** [AutoawayRequest::of] *)
Definition autoaway_of (kind : AutoawayKind) : AutoawayRequest := mkAutoaway kind 0 [].

Record AutoawayConfig := mkAutoawayConfig {
  away_enabled : bool;
  timeout_seconds : Z;
  default_reason : str;
  one_shot_reason : str;
}.
#[export] Instance autoaway_config_eta : Eta AutoawayConfig := fun c =>
  mkAutoawayConfig (away_enabled c) (timeout_seconds c) (default_reason c) (one_shot_reason c).

Definition first_space_token (argument : str) : str :=
  match split_once (N.eqb (chr " ")) argument with Some (token, _) => token | None => argument end.
Definition rest_after_first_space_token (argument : str) : str :=
  match split_once (N.eqb (chr " ")) argument with Some (_, rest) => trim rest | None => [] end.

Definition parse_autoaway_argument `{Platform} (argument : str) : AutoawayRequest :=
  let trimmed := trim argument in
  if is_empty trimmed then autoaway_of AutoawayQuery
  else
    let token := first_space_token trimmed in
    let rest := rest_after_first_space_token trimmed in
    let word := to_lowercase token in
    if str_eqb word (lit "off") || str_eqb word (lit "0") then
      autoaway_of (if is_empty rest then AutoawayDisable else AutoawayUsage)
    else if str_eqb word (lit "on") then autoaway_of (if is_empty rest then AutoawayEnableOn else AutoawayUsage)
    else if str_eqb word (lit "reason") then
      if is_empty rest then autoaway_of AutoawayClearDefaultReason else mkAutoaway AutoawaySetDefaultReason 0 rest
    else
      match parse_autoaway_duration token with
      | Some seconds => if (AUTOAWAY_MIN_TIMEOUT_SECONDS <=? seconds)%Z then mkAutoaway AutoawaySetTimeout seconds rest else autoaway_of AutoawayUsage
      | None => autoaway_of AutoawayUsage
      end.

(** ** Texts *)

(** The [%] of Rust keeps the sign of the dividend; only whether it is zero is read. *)
Definition format_autoaway_duration (seconds : Z) : str :=
  if (3600 <=? seconds)%Z && (Z.rem seconds 3600 =? 0)%Z then
    let hours := Z.quot seconds 3600 in if (hours =? 1)%Z then lit "1 hour" else show_int hours ++ lit " hours"
  else if (60 <=? seconds)%Z && (Z.rem seconds 60 =? 0)%Z then
    let minutes := Z.quot seconds 60 in if (minutes =? 1)%Z then lit "1 minute" else show_int minutes ++ lit " minutes"
  else if (seconds =? 1)%Z then lit "1 second"
  else show_int seconds ++ lit " seconds".

Definition reason_suffix (reason : str) : str := if is_empty reason then [] else lit ", reason: " ++ reason.

Definition format_enabled (config : AutoawayConfig) (include_default_with_one_shot : bool) : str :=
  if negb (is_empty (one_shot_reason config)) then
    lit "Auto-away in " ++ format_autoaway_duration (timeout_seconds config) ++ lit ": " ++ one_shot_reason config ++ lit " (this time only)"
    ++ (if include_default_with_one_shot then reason_suffix (default_reason config) else [])
  else lit "Auto-away " ++ format_autoaway_duration (timeout_seconds config) ++ reason_suffix (default_reason config).

Definition format_disabled (config : AutoawayConfig) (include_timeout : bool) : str :=
  lit "Auto-away off"
  ++ (if include_timeout && (0 <? timeout_seconds config)%Z then lit ", " ++ format_autoaway_duration (timeout_seconds config) else [])
  ++ (if negb (is_empty (one_shot_reason config)) then lit ": " ++ one_shot_reason config ++ lit " (this time only)" else [])
  ++ reason_suffix (default_reason config).

Definition format_autoaway_query (config : AutoawayConfig) : str :=
  if negb (away_enabled config) then format_disabled config true else format_enabled config true.
Definition format_autoaway_confirmation (config : AutoawayConfig) : str :=
  if negb (away_enabled config) then format_disabled config false else format_enabled config false.

Definition format_autoaway_tripped_status (reason : str) : str :=
  let trimmed := trim reason in
  if is_empty trimmed then lit "Auto-away triggered." else lit "Auto-away triggered: " ++ trimmed.
(** The dash is U+2014. *)
Definition format_autoaway_cleared_status : str := lit "Auto-away cleared " ++ [8212] ++ lit " back online.".

Definition autoaway_grace_seconds (timeout : Z) : Z := (if timeout <=? 0 then 0 else Z.min (Z.max (Z.quot timeout 20) 5) 10)%Z.

(** ** Examples *)

Example autoaway_example :
  parse_autoaway_duration <$> [lit "1."; lit ".5"; lit "1h30"; lit "29"; lit "29s"; lit "30S"; lit "1.5m"; lit "0.5m"; lit "1.5h"; lit "35791"; lit "35792"]
    = [None; None; None; Some 1740%Z; None; Some 30%Z; Some 90%Z; Some 30%Z; Some 5400%Z; Some 2147460%Z; None] /\
  @parse_autoaway_argument toy_platform (lit "30s  meeting now") = mkAutoaway AutoawaySetTimeout 30 (lit "meeting now") /\
  format_autoaway_query (mkAutoawayConfig false 600 (lit "afk") []) = lit "Auto-away off, 10 minutes, reason: afk".
Proof. vm_compute. by split_and!. Qed.

(** More than one digit after the point is read too. *)
Example two_decimals : parse_autoaway_duration (lit "1.25m") = Some 75%Z.
Proof. by vm_compute. Qed.

(** ** the durations of /autoaway (src/client/src/irc/autoaway.rs)

    A duration that is read is within the range, and a whole number of seconds, minutes or
    hours is read as exactly that, although the code computes with floating-point numbers. *)

(** ** Exact values *)

(** The number stands for [k]. *)
Definition stands_for (x : F64) (k : N) : Prop := exists shift, x = Finite (k * 2 ^ shift) (- Z.of_N shift).

Lemma log2_lt k e : 0 < k -> k < 2 ^ e -> N.log2 k < e.
Proof. intros Hk H. by apply N.log2_lt_pow2. Qed.

Lemma round_exact k d : k < 2 ^ 51 -> 0 < d -> stands_for (round_ratio (k * d) d) k.
Proof.
  intros Hk Hd. destruct (N.eq_dec k 0) as [->|Hk0]; [by exists 0|]. assert (Hpos : 0 < k) by lia.
  unfold round_ratio. assert (Hn : (k * d =? 0) = false) by (apply N.eqb_neq; nia). rw Hn. cbv zeta.
  set (first := (Z.of_N (N.log2 (k * d)) - Z.of_N (N.log2 d) - 52)%Z).
  assert (Hfirst : (first <= -1)%Z).
  { unfold first. assert (Hlog : N.log2 (k * d) <= N.log2 k + N.log2 d + 1) by (apply N.log2_mul_above; lia). pose proof (log2_lt k 51 Hpos Hk). lia. }
  set (exponent := Z.max _ _). assert (He : (exponent <= 0)%Z) by (unfold exponent; case_match; lia).
  assert (Hup : Z.to_N exponent = 0) by lia. rw Hup N.pow_0_r N.mul_1_r.
  set (shift := Z.to_N (- exponent)). assert (Hq : k * d * 2 ^ shift = k * 2 ^ shift * d) by lia.
  rw Hq N.div_mul; [lia|]. rw N.Div0.mod_mul N.mul_0_r.
  assert (Hr : (d <? 0) = false) by (by apply N.ltb_ge; lia). assert (Hr' : (0 =? d) = false) by (apply N.eqb_neq; lia). rw Hr Hr'. cbn [andb orb].
  assert (Hinf : (971 <? exponent)%Z = false /\ (exponent =? 971)%Z = false) by lia. destruct Hinf as [-> ->]. cbn [andb orb].
  exists shift. f_equal. unfold shift. lia.
Qed.

Lemma fraction_exact k shift : fraction (k * 2 ^ shift) (- Z.of_N shift) = (k * 2 ^ shift, 2 ^ shift).
Proof.
  unfold fraction. rw Z.opp_involutive N2Z.id. assert (H : Z.to_N (- Z.of_N shift) = 0) by lia. by rw H N.pow_0_r N.mul_1_r.
Qed.

Lemma pow_pos shift : 0 < 2 ^ shift.
Proof. apply N.neq_0_lt_0, N.pow_nonzero. lia. Qed.

Lemma mul_exact x k u : stands_for x k -> k * u < 2 ^ 51 -> stands_for (f64_mul x u) (k * u).
Proof.
  intros [shift ->] Hk. unfold f64_mul. rw fraction_exact.
  assert (E : k * 2 ^ shift * u = k * u * 2 ^ shift) by lia. rw E. apply round_exact; [done|apply pow_pos].
Qed.

Lemma compare_exact x k c : stands_for x k -> f64_gt x c = (c <? k) /\ f64_lt x c = (k <? c) /\ f64_round x = k.
Proof.
  intros [shift ->]. unfold f64_gt, f64_lt, f64_round. rw fraction_exact. pose proof (pow_pos shift) as Hp. split_and!.
  - destruct (N.ltb_spec c k), (N.ltb_spec (c * 2 ^ shift) (k * 2 ^ shift)); nia.
  - destruct (N.ltb_spec k c), (N.ltb_spec (k * 2 ^ shift) (c * 2 ^ shift)); nia.
  - symmetry. apply (N.div_unique _ _ _ (2 ^ shift)); nia.
Qed.

(** ** Durations *)

Lemma leading_show digits suffix :
  forallb is_ascii_digit digits = true -> (forall b rest, suffix = b :: rest -> is_ascii_digit b = false) -> leading_digits (digits ++ suffix) = (digits, suffix).
Proof.
  intros Hd Hs. induction digits as [|b digits IH]; cbn in *.
  - destruct suffix as [|b rest]; [done|]. cbn. by rw (Hs b rest eq_refl).
  - apply andb_true_iff in Hd as [-> Hd]. by rw IH.
Qed.

Lemma duration_in_range token seconds :
  parse_autoaway_duration token = Some seconds -> (AUTOAWAY_MIN_TIMEOUT_SECONDS <= seconds <= AUTOAWAY_MAX_TIMEOUT_SECONDS)%Z.
Proof.
  unfold parse_autoaway_duration. destruct (leading_digits _) as [whole after]. destruct (is_empty whole); [done|].
  destruct (match after with [] => _ | _ => _ end) as [[part suffix]|]; [|done]. cbn [mbind option_bind].
  destruct (match suffix with [] => _ | _ => _ end) as [unit|]; [|done]. cbn [mbind option_bind]. cbv zeta.
  set (x := if unit =? 1 then _ else _). destruct (f64_gt x _ || f64_lt x _) eqn:Hr; [done|]. apply orb_false_iff in Hr as [Hgt Hlt].
  destruct (Z.leb_spec (Z.of_N (f64_round x)) AUTOAWAY_MAX_TIMEOUT_SECONDS) as [Hmax|]; [|done]. intros [= <-]. split; [|done].
  unfold AUTOAWAY_MIN_TIMEOUT_SECONDS in *. destruct x as [m e|]; [|done]. unfold f64_lt, f64_round in *. destruct (fraction m e) as [n d] eqn:Hf.
  assert (Hd : 0 < d) by (unfold fraction in Hf; injection Hf as <- <-; apply pow_pos). change (Z.to_N 30) with 30 in Hlt. apply N.ltb_ge in Hlt.
  assert (H : 30 <= (2 * n + d) / (2 * d)) by (apply N.div_le_lower_bound; lia). lia.
Qed.

(** The suffixes and their seconds. *)
Definition UNITS : list (str * N) := [([], 60); (lit "s", 1); (lit "m", 60); (lit "h", 3600)].

(** What the code makes of a number of seconds. *)
Definition accepted (x : F64) : option Z :=
  if f64_gt x (Z.to_N AUTOAWAY_MAX_TIMEOUT_SECONDS) || f64_lt x (Z.to_N AUTOAWAY_MIN_TIMEOUT_SECONDS) then None
  else let rounded := Z.of_N (f64_round x) in if (rounded <=? AUTOAWAY_MAX_TIMEOUT_SECONDS)%Z then Some rounded else None.

Lemma accepted_exact x k : stands_for x k -> accepted x = if (30 <=? k) && (k <=? 2147483) then Some (Z.of_N k) else None.
Proof.
  intros H. unfold accepted. destruct (compare_exact x k (Z.to_N AUTOAWAY_MAX_TIMEOUT_SECONDS) H) as (-> & _ & ->).
  destruct (compare_exact x k (Z.to_N AUTOAWAY_MIN_TIMEOUT_SECONDS) H) as (_ & -> & _).
  change (Z.to_N AUTOAWAY_MAX_TIMEOUT_SECONDS) with 2147483. change (Z.to_N AUTOAWAY_MIN_TIMEOUT_SECONDS) with 30. unfold AUTOAWAY_MAX_TIMEOUT_SECONDS.
  destruct (N.ltb_spec 2147483 k), (N.ltb_spec k 30), (N.leb_spec 30 k), (N.leb_spec k 2147483); cbn [orb andb]; try lia; try done.
  destruct (Z.leb_spec (Z.of_N k) 2147483); [done|lia].
Qed.

(** A whole duration is exact. A decimal number with its unit, a bare number being minutes,
    is read as so many seconds when that is within the range, and refused when it is not; and
    nothing that is read is outside it. *)
Theorem duration_exact n suffix unit :
  (suffix, unit) ∈ UNITS -> n < 2 ^ 32 ->
  parse_autoaway_duration (show n ++ suffix) =
    if (30 <=? n * unit) && (n * unit <=? 2147483) then Some (Z.of_N (n * unit)) else None.
Proof.
  intros Hin Hn.
  assert (Hvalue : stands_for (parse_decimal (show n) []) n).
  { unfold parse_decimal. rw app_nil_r digits_value_show. change (10 ^ blen []) with 1. rewrite <- (N.mul_1_r n) at 1. apply round_exact; lia. }
  assert (Hmul : forall u, u <= 3600 -> stands_for (f64_mul (parse_decimal (show n) []) u) (n * u)).
  { intros u Hu. apply mul_exact; [done|]. change (2 ^ 51) with (4294967296 * 524288). change (2 ^ 32) with 4294967296 in Hn. nia. }
  assert (Hd : forallb is_ascii (show n) = true).
  { apply forallb_forall. intros c Hc. apply (proj1 (forallb_forall _ _) (show_digits n)) in Hc. unfold is_ascii_digit, is_ascii in *. lia. }
  assert (Hne : is_empty (show n) = false) by (pose proof (show_nonempty n); by destruct (show n)).
  unfold UNITS in Hin. rw !elem_of_cons elem_of_nil in Hin.
  assert (Hparse : parse_autoaway_duration (show n ++ suffix) = accepted (if unit =? 1 then parse_decimal (show n) [] else f64_mul (parse_decimal (show n) []) unit)).
  { unfold parse_autoaway_duration. rw as_bytes_ascii; [rw forallb_app Hd; by destruct Hin as [[= -> ->] | [[= -> ->] | [[= -> ->] | [[= -> ->] | []]]]]|].
    rw leading_show; [apply show_digits|by destruct Hin as [[= -> ->] | [[= -> ->] | [[= -> ->] | [[= -> ->] | []]]]]; intros b rest; intros [= <- _]|].
    rw Hne. by destruct Hin as [[= -> ->] | [[= -> ->] | [[= -> ->] | [[= -> ->] | []]]]]. }
  rw Hparse. apply accepted_exact. destruct Hin as [[= -> ->] | [[= -> ->] | [[= -> ->] | [[= -> ->] | []]]]]; cbn [N.eqb Pos.eqb]; try (by apply Hmul). by rw N.mul_1_r.
Qed.

Lemma duration_exact_witness : 90 < 2 ^ 32 /\ parse_autoaway_duration (show 90 ++ lit "m") = Some 5400%Z.
Proof.
  split; [reflexivity|]. rw (duration_exact 90 (lit "m") 60); [by do 2 right; left|reflexivity|reflexivity].
Defined.
