(* ===== verification/Inbox.v ===== *)
(** * Inbox: what waits for the user (src/client/src/irc/inbox.rs)

    Mentions, highlights, private messages, invites, monitored nicks that came online and kicks,
    newest first and at most fifty. *)

From Stdlib Require Import Sorted.
From S2P Require Import Prelude Text Message CaseMapping SessionTypes Platform OrdMap ServerFeatures Typing Conversation Events.

Definition MAX_INBOX_ITEMS : nat := 50.

Definition is_conversation_kind (kind : InboxKind) : bool :=
  match kind with InboxMention | InboxHighlight | InboxDirect | InboxKick => true | InboxInvite | InboxMonitorOnline => false end.

Record InboxIdentity := mkIdentity {
  identity_kind : InboxKind;
  identity_network : str;
  identity_actor : str;
  identity_target : str;
  identity_msgid : MsgId;
  identity_timestamp : Time;
}.

Record InboxItem := mkItem {
  item_kind : InboxKind;
  item_timestamp : Time;
  item_network : str;
  item_actor : str;
  item_target : str;
  item_preview : str;
  item_msgid : MsgId;
}.

Definition identity (item : InboxItem) : InboxIdentity :=
  mkIdentity (item_kind item) (item_network item) (item_actor item) (item_target item) (item_msgid item) (item_timestamp item).

(** [InboxItem::label] *)
Definition inbox_label (item : InboxItem) : str :=
  match item_kind item with
  | InboxMention => item_actor item ++ lit " mentioned you in " ++ item_target item
  | InboxHighlight => lit "Highlight in " ++ item_target item
  | InboxDirect => lit "Message from " ++ item_actor item
  | InboxInvite => item_actor item ++ lit " invited you to " ++ item_target item
  | InboxMonitorOnline => item_actor item ++ lit " is online"
  | InboxKick => lit "You were kicked from " ++ item_target item
  end.

#[export] Instance InboxKind_eq_dec : EqDecision InboxKind.
Proof. solve_decision. Defined.
#[export] Instance InboxIdentity_eq_dec : EqDecision InboxIdentity.
Proof. solve_decision. Defined.

(** [Inbox], newest first *)
Definition Inbox : Type := list InboxItem.

(** The closure [replaces] of [append]. *)
Definition replaces (mapping : IrcCaseMapping) (item existing : InboxItem) : bool :=
  str_eqb (item_network existing) (item_network item)
  && match item_kind item with
     | InboxInvite => bool_decide (item_kind existing = InboxInvite) && equals mapping (item_target existing) (item_target item)
     | InboxMonitorOnline => bool_decide (item_kind existing = InboxMonitorOnline) && equals mapping (item_actor existing) (item_actor item)
     | _ => false
     end.

(** [Inbox::append] *)
Definition inbox_append (inbox : Inbox) (item : InboxItem) (mapping : IrcCaseMapping) : Inbox :=
  let items := match position (replaces mapping item) inbox with Some index => delete index inbox | None => inbox end in
  take MAX_INBOX_ITEMS (item :: items).

(** [Inbox::remove_at] *)
Definition inbox_remove_at (inbox : Inbox) (index : nat) : Inbox * option InboxItem :=
  match inbox !! index with Some item => (delete index inbox, Some item) | None => (inbox, None) end.

Definition inbox_remove_identity (inbox : Inbox) (id : InboxIdentity) : Inbox * option InboxItem :=
  match position (fun item => bool_decide (identity item = id)) inbox with
  | Some index => inbox_remove_at inbox index
  | None => (inbox, None)
  end.

Definition consume_matching (matches : InboxItem -> bool) (inbox : Inbox) : Inbox := base.filter (fun item => matches item = false) inbox.

Definition consume_conversation (inbox : Inbox) (network target : str) (mapping : IrcCaseMapping) : Inbox :=
  consume_matching (fun item => str_eqb (item_network item) network && is_conversation_kind (item_kind item) && equals mapping (item_target item) target) inbox.

Definition consume_invite (inbox : Inbox) (network channel : str) (mapping : IrcCaseMapping) : Inbox :=
  consume_matching (fun item => bool_decide (item_kind item = InboxInvite) && str_eqb (item_network item) network && equals mapping (item_target item) channel) inbox.

Definition consume_monitor (inbox : Inbox) (network nick : str) (mapping : IrcCaseMapping) : Inbox :=
  consume_matching (fun item => bool_decide (item_kind item = InboxMonitorOnline) && str_eqb (item_network item) network && equals mapping (item_actor item) nick) inbox.

Definition purge_network (inbox : Inbox) (network : str) : Inbox := consume_matching (fun item => str_eqb (item_network item) network) inbox.

(** ** What may happen to the list *)

Inductive InboxOp :=
| OpAppend (item : InboxItem)
| OpRemoveAt (index : nat)
| OpRemoveIdentity (id : InboxIdentity)
| OpConsumeConversation (network target : str)
| OpConsumeInvite (network channel : str)
| OpConsumeMonitor (network nick : str)
| OpPurge (network : str).

Section Inbox.
(** The case mapping of each network. *)
Context (mapping_of : str -> IrcCaseMapping).
Implicit Types (inbox : Inbox) (item : InboxItem).

Definition inbox_step inbox (op : InboxOp) : Inbox :=
  match op with
  | OpAppend item => inbox_append inbox item (mapping_of (item_network item))
  | OpRemoveAt index => (inbox_remove_at inbox index).1
  | OpRemoveIdentity id => (inbox_remove_identity inbox id).1
  | OpConsumeConversation network target => consume_conversation inbox network target (mapping_of network)
  | OpConsumeInvite network channel => consume_invite inbox network channel (mapping_of network)
  | OpConsumeMonitor network nick => consume_monitor inbox network nick (mapping_of network)
  | OpPurge network => purge_network inbox network
  end.

(** Two rows for the same invite, or for the same nick online. *)
Definition same_row (newer older : InboxItem) : bool := replaces (mapping_of (item_network newer)) newer older.

Record waiting inbox : Prop := {
  rows_bounded : (length inbox <= MAX_INBOX_ITEMS)%nat;
  rows_distinct : StronglySorted (fun newer older => same_row newer older = false) inbox;
}.

Lemma distinct_sublist inbox inbox' : sublist inbox inbox' -> waiting inbox' -> waiting inbox.
Proof using Type.
  intros Hs [Hb Hd]. split; [apply sublist_length in Hs; lia|]. by eapply StronglySorted_sublist.
Qed.

Lemma same_row_trans a x y : same_row a x = true -> same_row a y = true -> same_row x y = true.
Proof using Type.
  unfold same_row, replaces. rw !andb_true_iff. intros [Hx Hkx] [Hy Hky]. apply str_eqb_eq in Hx, Hy. rw Hx Hy. split; [by apply str_eqb_eq|].
  destruct (item_kind a); try done; apply andb_true_iff in Hkx as [Kx Ex], Hky as [Ky Ey]; apply bool_decide_eq_true in Kx, Ky;
    rw Kx Ky; apply andb_true_iff; (split; [by apply bool_decide_eq_true|]);
    unfold equals in *; apply str_eqb_eq in Ex, Ey; apply str_eqb_eq; congruence.
Qed.

(** At most one row waits for an invite or a nick, so removing the first that an arrival
    replaces removes every one. *)
Lemma replaced_gone inbox item :
  waiting inbox ->
  Forall (fun older => same_row item older = false)
    match position (same_row item) inbox with Some index => delete index inbox | None => inbox end.
Proof using Type.
  intros [_ Hd]. destruct (position (same_row item) inbox) as [index|] eqn:Hp.
  - apply position_Some in Hp as (x & E & Hx & Hbefore). rw delete_take_drop. apply Forall_app. split.
    + apply Forall_forall. intros y Hy. apply list_elem_of_In in Hy. apply (proj1 (forallb_forall _ _) Hbefore) in Hy. by apply negb_true_iff in Hy.
    + rw E in Hd. apply Forall_forall. intros y Hy. destruct (same_row item y) eqn:Hs; [|done].
      assert (Hxy : same_row x y = false).
      { clear -Hd Hy. induction (take index inbox) as [|z l IH]; cbn in Hd; apply StronglySorted_inv in Hd as [Hd Hf]; [|by apply IH].
        by eapply (proj1 (Forall_forall _ _) Hf). }
      by rw (same_row_trans item x y) in Hxy.
  - apply position_None in Hp. apply Forall_forall. intros y Hy. apply list_elem_of_In in Hy. apply (proj1 (forallb_forall _ _) Hp) in Hy. by apply negb_true_iff in Hy.
Qed.

Lemma append_waiting inbox item : waiting inbox -> waiting (inbox_append inbox item (mapping_of (item_network item))).
Proof using Type.
  intros Hw. pose proof (replaced_gone inbox item Hw) as Hgone. unfold inbox_append. cbv zeta. change (replaces (mapping_of (item_network item)) item) with (same_row item).
  split; [rw length_take; lia|]. eapply StronglySorted_sublist; [apply sublist_take|]. constructor; [|done].
  destruct (position (same_row item) inbox) as [index|]; [|apply Hw]. eapply StronglySorted_sublist; [apply sublist_delete|apply Hw].
Qed.

Lemma inbox_step_waiting inbox op : waiting inbox -> waiting (inbox_step inbox op).
Proof using Type.
  intros Hw. destruct op; cbn [inbox_step]; try (by apply append_waiting); try (eapply distinct_sublist; [apply sublist_filter|done]).
  - unfold inbox_remove_at. destruct (inbox !! index); [|done]. eapply distinct_sublist; [apply sublist_delete|done].
  - unfold inbox_remove_identity. destruct (position _ inbox); [|done]. unfold inbox_remove_at. destruct (inbox !! _); [|done].
    eapply distinct_sublist; [apply sublist_delete|done].
Qed.

End Inbox.

