(* ===== verification/Console.v ===== *)
(** * Console: the lines of the Status console (src/client/src/controller/console.rs)

    Each network's lines are kept in a ring, with a sequence that says which were seen. The ring
    is shown to be the end of a [Journal], which forgets nothing. *)

From S2P Require Import Prelude Text Message Parser CaseMapping ServerFeatures OrdMap SessionTypes Platform JoinTarget Ctcp StatusEntry.

Definition DEFAULT_CAPACITY : nat := 2000.

Definition state_label (state : SessionState) : str :=
  match state with
  | StIdle => lit "offline"
  | StConnecting | StStsUpgrading => lit "connecting"
  | StCapLs | StCapReq | StSasl => lit "negotiating"
  | StRegistering => lit "registering"
  | StRegistered => lit "registered"
  | StClosing => lit "closing"
  | StReconnecting => lit "reconnecting"
  | StFailed => lit "failed"
  end.

Definition log_severity (severity : Severity) : LogSeverity := match severity with Info => SeverityInfo | Alert => SeverityAlert end.

Definition state_text (state : SessionState) : str :=
  match state with
  | StIdle => lit "Disconnected"
  | StConnecting | StStsUpgrading => lit "Connecting"
  | StCapLs => lit "Capability discovery"
  | StCapReq => lit "Requesting capabilities"
  | StSasl => lit "Authenticating"
  | StRegistering => lit "Registering"
  | StRegistered => lit "Registered"
  | StClosing => lit "Disconnecting"
  | StReconnecting => lit "Reconnecting"
  | StFailed => lit "Connection failed"
  end.

Record NetworkLog := mkNetworkLog { log_entries : list StatusEntry; next_sequence : N; last_seen : N }.
#[export] Instance network_log_eta : Eta NetworkLog := fun l => mkNetworkLog (log_entries l) (next_sequence l) (last_seen l).
Definition new_network_log : NetworkLog := mkNetworkLog [] 0 0.

Definition first_sequence (l : NetworkLog) : N := next_sequence l - blen (log_entries l).

Record StatusConsole := mkConsole { capacity : nat; console_logs : btree NetworkLog }.
#[export] Instance console_eta : Eta StatusConsole := fun c => mkConsole (capacity c) (console_logs c).

(** [StatusConsole::new] *)
Definition new_console (capacity : nat) : StatusConsole := mkConsole (if (capacity =? 0)%nat then DEFAULT_CAPACITY else capacity) [].

(** [while buffer.entries.len() > capacity { buffer.entries.pop_front() }] *)
Definition keep_last (capacity : nat) (entries : list StatusEntry) : list StatusEntry := drop (length entries - capacity) entries.

Definition append_entry (capacity : nat) (entry : StatusEntry) (l : NetworkLog) : NetworkLog :=
  let next := if next_sequence l =? 0 then 1 else next_sequence l in
  mkNetworkLog (keep_last capacity (log_entries l ++ [entry])) (next + 1) (last_seen l).

(** [StatusConsole::append] *)
Definition console_append (c : StatusConsole) (entry : StatusEntry) : StatusConsole :=
  let network := entry_network_id entry in
  if is_empty network then c
  else c <| console_logs := bt_insert network (append_entry (capacity c) entry (default new_network_log (bt_get network (console_logs c)))) (console_logs c) |>.

(** [StatusConsole::lines] *)
Definition console_lines (c : StatusConsole) (network : str) : list StatusEntry :=
  match bt_get network (console_logs c) with Some l => log_entries l | None => [] end.

Definition is_alert (entry : StatusEntry) : bool := match entry_severity entry with SeverityAlert => true | _ => false end.

Definition unseen_alert (first seen : N) (entry : nat * StatusEntry) : bool := (seen <? first + N.of_nat entry.1) && is_alert entry.2.

Definition alerts_since_seen (c : StatusConsole) (network : str) : nat :=
  match bt_get network (console_logs c) with
  | None => 0
  | Some l =>
      if is_empty (log_entries l) then 0
      else length (base.filter (fun entry => unseen_alert (first_sequence l) (last_seen l) entry = true) (imap pair (log_entries l)))
  end%nat.

Definition see_all (l : NetworkLog) : NetworkLog := if 0 <? next_sequence l then l <| last_seen := next_sequence l - 1 |> else l.

(** [buffer = self.lines.get_mut(network_id)] *)
Definition on_log (network : str) (f : NetworkLog -> NetworkLog) (c : StatusConsole) : StatusConsole :=
  match bt_get network (console_logs c) with
  | Some l => c <| console_logs := bt_insert network (f l) (console_logs c) |>
  | None => c
  end.

Definition mark_seen (c : StatusConsole) (network : str) : StatusConsole := on_log network see_all c.

(** [StatusConsole::network_ids], [clear] and [forget] *)
Definition console_networks (c : StatusConsole) : list str := bt_keys (console_logs c).
Definition console_clear (c : StatusConsole) (network : str) : StatusConsole :=
  on_log network (fun l => if is_empty (log_entries l) then l else see_all (l <| log_entries := [] |>)) c.
Definition console_forget (c : StatusConsole) (network : str) : StatusConsole :=
  c <| console_logs := bt_remove network (console_logs c) |>.

(** ** The journal of a network *)

Inductive ConsoleOp := OpRecord (entry : StatusEntry) | OpSeen (network : str) | OpClear (network : str) | OpForget (network : str).

Definition console_step (c : StatusConsole) (op : ConsoleOp) : StatusConsole :=
  match op with
  | OpRecord entry => console_append c entry
  | OpSeen network => mark_seen c network
  | OpClear network => console_clear c network
  | OpForget network => console_forget c network
  end.

(** Every line recorded, how many were cleared, and how many were seen. *)
Record Journal := mkJournal { recorded : list StatusEntry; cleared : nat; seen : nat }.
Definition empty_journal : Journal := mkJournal [] 0 0.

Definition journal_step (network : str) (j : Journal) (op : ConsoleOp) : Journal :=
  let all := length (recorded j) in
  match op with
  | OpRecord entry => if str_eqb (entry_network_id entry) network then mkJournal (recorded j ++ [entry]) (cleared j) (seen j) else j
  | OpSeen id => if str_eqb id network then mkJournal (recorded j) (cleared j) all else j
  | OpClear id => if str_eqb id network then mkJournal (recorded j) all (if (cleared j <? all)%nat then all else seen j) else j
  | OpForget id => if str_eqb id network then empty_journal else j
  end.

(** What a ring of the capacity shows of it: the lines since the last clear, at most so many. *)
Definition shown_from (capacity : nat) (j : Journal) : nat := Nat.max (cleared j) (length (recorded j) - capacity).
Definition shown (capacity : nat) (j : Journal) : list StatusEntry := drop (shown_from capacity j) (recorded j).
Definition unseen (capacity : nat) (j : Journal) : list StatusEntry := drop (Nat.max (shown_from capacity j) (seen j)) (recorded j).

(** The ring of a network beside its journal. *)
Record ring_of (capacity : nat) (l : NetworkLog) (j : Journal) : Prop := {
  ring_entries : log_entries l = shown capacity j;
  ring_sequence : next_sequence l = if is_empty (recorded j) then 0 else 1 + blen (recorded j);
  ring_seen : last_seen l = N.of_nat (seen j);
  ring_cleared : (cleared j <= length (recorded j))%nat;
  ring_seen_bound : (seen j <= length (recorded j))%nat;
}.

Lemma new_ring capacity : ring_of capacity new_network_log empty_journal.
Proof. by split. Qed.

Lemma append_ring capacity entry l j :
  (0 < capacity)%nat -> ring_of capacity l j -> ring_of capacity (append_entry capacity entry l) (mkJournal (recorded j ++ [entry]) (cleared j) (seen j)).
Proof.
  intros Hcap [He Hs Hl Hc Hb]. unfold append_entry. split; cbn [log_entries next_sequence last_seen recorded cleared seen]; rw ?length_app; cbn [length]; [| |done|lia|lia].
  - unfold keep_last, shown, shown_from in *. cbn [recorded cleared]. rw He. rw ?length_app length_drop. cbn [length].
    rw -(drop_app_le _ [entry]); [lia|]. rw drop_drop. f_equal. lia.
  - rw Hs. destruct (recorded j) as [|first rest] eqn:Hj; [done|]. cbn [is_empty app]. unfold blen. cbn [length]. rw length_app. cbn [length]. destruct (N.eqb_spec (1 + N.of_nat (S (length rest))) 0); lia.
Qed.

Lemma see_ring capacity l j : ring_of capacity l j -> ring_of capacity (see_all l) (mkJournal (recorded j) (cleared j) (length (recorded j))).
Proof.
  intros [He Hs Hl Hc Hb]. unfold see_all. rw Hs. destruct (recorded j) as [|first rest] eqn:Hj; cbn [is_empty].
  - assert (Hz : seen j = 0%nat) by (cbn in Hb; lia). split; cbn [recorded cleared seen]; rw ?Hj //.
    + by rw He; unfold shown, shown_from; rw Hj.
    + by rw Hl Hz.
  - assert (Hpos : (0 <? 1 + blen (first :: rest)) = true) by (unfold blen; cbn [length]; lia). rw Hpos.
    split; cbn [log_entries next_sequence last_seen recorded cleared seen]; [by rw He; unfold shown, shown_from; rw Hj|done|unfold blen; cbn [length]; change (last_seen _) with (1 + N.of_nat (S (length rest)) - 1); lia|done|done].
Qed.

Lemma clear_ring capacity l j :
  (0 < capacity)%nat -> ring_of capacity l j ->
  ring_of capacity (if is_empty (log_entries l) then l else see_all (l <| log_entries := [] |>))
    (mkJournal (recorded j) (length (recorded j)) (if (cleared j <? length (recorded j))%nat then length (recorded j) else seen j)).
Proof.
  intros Hcap H. pose proof H as [He Hs Hl Hc Hb].
  assert (Hnil : is_empty (log_entries l) = true <-> (shown_from capacity j >= length (recorded j))%nat).
  { rw He. unfold shown. split; intros Hx; [|by rw drop_ge]. destruct (drop _ _) eqn:Hd; [|done].
    apply (f_equal length) in Hd. rw length_drop in Hd. cbn in Hd. lia. }
  destruct (is_empty (log_entries l)) eqn:Hempty.
  - pose proof (proj1 Hnil eq_refl) as Hx. unfold shown_from in Hx.
    assert (Hcl : cleared j = length (recorded j) \/ recorded j = []).
    { destruct (recorded j) as [|x rest] eqn:Hj; [by right|]. left. cbn [length] in *. lia. }
    assert (Hf : (cleared j <? length (recorded j))%nat = false) by (apply Nat.ltb_ge; destruct Hcl as [-> | ->]; cbn; lia).
    rw Hf. split; cbn [recorded cleared seen]; try done.
    all: rw ?He; unfold shown, shown_from; cbn [recorded cleared]; rw ?drop_ge; try done; lia.
  - assert (Hlt : (cleared j <? length (recorded j))%nat = true).
    { apply Nat.ltb_lt. destruct (decide (cleared j < length (recorded j))%nat) as [|Hn]; [done|]. assert (false = true) by (apply Hnil; unfold shown_from; lia). done. }
    rw Hlt. assert (Hr : ring_of capacity (l <| log_entries := [] |>) (mkJournal (recorded j) (length (recorded j)) (seen j))).
    { split; cbn [recorded cleared seen]; try done. unfold shown, shown_from. cbn [recorded cleared]. rw drop_ge //. lia. }
    apply see_ring in Hr. exact Hr.
Qed.

(** The console beside the journals of its networks. *)
Definition tracks (c : StatusConsole) (journal : str -> Journal) : Prop :=
  forall network, network <> [] -> ring_of (capacity c) (default new_network_log (bt_get network (console_logs c))) (journal network).

Lemma step_tracks c journal op :
  (0 < capacity c)%nat -> tracks c journal ->
  capacity (console_step c op) = capacity c /\ tracks (console_step c op) (fun network => journal_step network (journal network) op).
Proof.
  intros Hcap Ht.
  assert (Hput : forall network f (j : Journal -> Journal),
    (network <> [] -> ring_of (capacity c) (f (default new_network_log (bt_get network (console_logs c)))) (j (journal network))) ->
    forall other, other <> [] ->
      ring_of (capacity c) (default new_network_log (bt_get other (bt_insert network (f (default new_network_log (bt_get network (console_logs c)))) (console_logs c))))
        (if str_eqb network other then j (journal other) else journal other)).
  { intros network f j Hf other Ho. destruct (str_eqb network other) eqn:E.
    - apply str_eqb_eq in E as <-. rw bt_get_insert. by apply Hf.
    - apply bool_decide_eq_false in E. rw bt_get_insert_ne //. by apply Ht. }
  assert (Hon : forall network f (j : Journal -> Journal),
    (forall l j0, ring_of (capacity c) l j0 -> ring_of (capacity c) (f l) (j j0)) -> f new_network_log = new_network_log ->
    capacity (on_log network f c) = capacity c /\
    tracks (on_log network f c) (fun other => if str_eqb network other then j (journal other) else journal other)).
  { intros network f j Hf Hnew. unfold on_log. destruct (bt_get network (console_logs c)) as [l|] eqn:Hg; (split; [done|]); intros other Ho.
    - pose proof (Hput network f j) as H. rw Hg in H. apply H; [|done]. intros Hn. cbn. apply Hf. pose proof (Ht network Hn) as Hx. by rw Hg in Hx.
    - destruct (str_eqb network other) eqn:E; [|by apply Ht]. apply str_eqb_eq in E as <-. rw Hg. cbn. rw -Hnew. apply Hf.
      pose proof (Ht network Ho) as Hx. by rw Hg in Hx. }
  destruct op as [entry|network|network|network]; cbn [console_step journal_step].
  - unfold console_append. cbv zeta. destruct (is_empty (entry_network_id entry)) eqn:He.
    + split; [done|]. intros other Ho. destruct (str_eqb (entry_network_id entry) other) eqn:E; [|by apply Ht].
      apply str_eqb_eq in E as <-. by destruct (entry_network_id entry).
    + split; [done|]. intros other Ho.
      apply (Hput (entry_network_id entry) (append_entry (capacity c) entry) (fun j => mkJournal (recorded j ++ [entry]) (cleared j) (seen j))); [|done].
      intros Hn. apply append_ring; [done|]. by apply Ht.
  - apply (Hon network see_all (fun j => mkJournal (recorded j) (cleared j) (length (recorded j)))); [|done]. apply see_ring.
  - apply (Hon network _ (fun j => mkJournal (recorded j) (length (recorded j)) (if (cleared j <? length (recorded j))%nat then length (recorded j) else seen j))); [|done].
    intros l j. by apply clear_ring.
  - split; [done|]. intros other Ho. unfold console_forget. cbn. destruct (str_eqb network other) eqn:E.
    + apply str_eqb_eq in E as <-. rw bt_get_remove. apply new_ring.
    + apply bool_decide_eq_false in E. rw bt_get_remove_ne //. by apply Ht.
Qed.

(** The alerts of the ring are those of its lines not seen yet. *)
Lemma count_from (l : list StatusEntry) (off seen : nat) : forall b,
  length (base.filter (fun entry => unseen_alert (1 + N.of_nat off) (N.of_nat seen) entry = true) (imap (fun i e => ((b + i)%nat, e)) l))
    = length (base.filter (fun entry => is_alert entry = true) (drop (seen - (off + b)) l)).
Proof.
  induction l as [|x l IH]; intros b; [by rw drop_nil|]. cbn [imap]. rw filter_cons. rw Nat.add_0_r.
  assert (Hu : unseen_alert (1 + N.of_nat off) (N.of_nat seen) (b, x) = (N.of_nat seen <? 1 + N.of_nat off + N.of_nat b) && is_alert x) by done.
  assert (Hshift : imap ((fun i e => ((b + i)%nat, e)) ∘ S) l = imap (fun i e => ((S b + i)%nat, e)) l).
  { apply imap_ext. intros i e _. cbn. f_equal. lia. }
  rw Hshift. destruct (N.ltb_spec (N.of_nat seen) (1 + N.of_nat off + N.of_nat b)) as [Hk|Hk]; cbn [andb] in Hu.
  - assert (Hz : (seen - (off + b) = 0 /\ seen - (off + S b) = 0)%nat) by lia. destruct Hz as [-> Hz]. cbn [drop]. rw filter_cons.
    specialize (IH (S b)). rw Hz in IH. cbn [drop] in IH. case_decide as Hd; case_decide as Hd'; cbn [length]; rw ?IH ?drop_0; congruence.
  - assert (Hz : (seen - (off + b) = S (seen - (off + S b)))%nat) by lia. rw Hz. cbn [drop]. case_decide; [congruence|]. apply IH.
Qed.

Lemma ring_alerts capacity l j :
  ring_of capacity l j ->
  (if is_empty (log_entries l) then 0%nat
   else length (base.filter (fun entry => unseen_alert (first_sequence l) (last_seen l) entry = true) (imap pair (log_entries l))))
  = length (base.filter (fun entry => is_alert entry = true) (unseen capacity j)).
Proof.
  intros [He Hs Hl Hc Hb]. destruct (is_empty (log_entries l)) eqn:Hempty.
  - unfold unseen. assert (Hlen : (length (shown capacity j) = 0)%nat) by (rw -He; by destruct (log_entries l)).
    unfold shown in Hlen. rw length_drop in Hlen. rw drop_ge //. lia.
  - assert (Hfrom : (shown_from capacity j < length (recorded j))%nat).
    { destruct (decide (shown_from capacity j < length (recorded j))%nat) as [|Hn]; [done|]. rw He in Hempty. unfold shown in Hempty. rw drop_ge // in Hempty. lia. }
    assert (Hlen : blen (log_entries l) = N.of_nat (length (recorded j) - shown_from capacity j)) by (rw He; unfold blen, shown; by rw length_drop).
    assert (Hfirst : first_sequence l = 1 + N.of_nat (shown_from capacity j)).
    { unfold first_sequence. rw Hs Hlen. destruct (recorded j) eqn:Hj; cbn [is_empty]; [cbn in Hfrom; lia|]. unfold blen. lia. }
    assert (Hunseen : unseen capacity j = drop (seen j - (shown_from capacity j + 0)) (log_entries l)).
    { rw He. unfold unseen, shown. rw drop_drop. f_equal. lia. }
    rw Hunseen -count_from Hfirst Hl. done.
Qed.

(** C39: the console is the end of a journal. After any sequence of arrivals, looks, clears and
    removals, the lines a network shows are the last lines recorded since it was cleared, as
    many as the capacity allows, and the alerts it counts are those among the lines not seen. *)
Theorem console_refines_journal size ops network :
  let c := foldl console_step (new_console size) ops in
  let j := foldl (journal_step network) empty_journal ops in
  network <> [] ->
  console_lines c network = shown (capacity c) j /\ (length (console_lines c network) <= capacity c)%nat /\
  alerts_since_seen c network = length (base.filter (fun entry => is_alert entry = true) (unseen (capacity c) j)).
Proof.
  intros c j Hn.
  assert (H : (0 < capacity c)%nat /\ tracks c (fun network => foldl (journal_step network) empty_journal ops)).
  { unfold c. assert (Hstart : (0 < capacity (new_console size))%nat /\ tracks (new_console size) (fun network => foldl (journal_step network) empty_journal [])).
    { split; [unfold new_console; cbn; destruct size; cbn; unfold DEFAULT_CAPACITY; lia|]. intros other _. apply new_ring. }
    induction ops as [|op ops IH] using rev_ind; [exact Hstart|]. destruct IH as [Hcap Ht]. rw foldl_app. cbn [foldl].
    destruct (step_tracks _ _ op Hcap Ht) as [Hc Hstep]. split; [by rw Hc|]. intros other Ho. rw foldl_app. by apply Hstep. }
  destruct H as [Hcap Ht]. pose proof (Ht network Hn) as Hr. fold j in Hr. cbn beta in Hr.
  assert (Hlines : console_lines c network = log_entries (default new_network_log (bt_get network (console_logs c)))).
  { unfold console_lines. by destruct (bt_get network (console_logs c)). }
  rw Hlines. split_and!.
  - apply Hr.
  - rw (ring_entries _ _ _ Hr). unfold shown, shown_from. rw length_drop. lia.
  - rw -(ring_alerts _ _ _ Hr). unfold alerts_since_seen. by destruct (bt_get network (console_logs c)).
Qed.

Lemma console_refines_journal_witness :
  let entry text := new_status (lit "net") 0%Z FromServer SeverityAlert (lit "433") (lit text) in
  let ops := [OpRecord (entry "a"); OpRecord (entry "b"); OpSeen (lit "net"); OpRecord (entry "c")] in
  let c := foldl console_step (new_console 2) ops in
  console_lines c (lit "net") = [entry "b"; entry "c"] /\ alerts_since_seen c (lit "net") = 1%nat.
Proof.
  intros entry ops c. assert (Hn : lit "net" <> []) by done. destruct (console_refines_journal 2 ops (lit "net") Hn) as (H1 & _ & H3).
  split; [exact H1|exact H3].
Defined.
