(* ===== verification/AvatarUrl.v ===== *)
(** * AvatarUrl: which picture may be fetched (src/client/src/irc/avatarurl.rs)

    The value /avatar stores, and the test a URL passes before it is fetched: https, no user,
    no local name, and no address outside the public internet. URLs are parsed by a crate. *)

From S2P Require Import Prelude Text Message CommandBuilder JoinTarget Scram SessionTypes Platform Sts MembershipNoise.

(** The url crate, as far as the program reads a URL. *)
Class UrlCrate := {
  Url : Type;
  url_parse : str -> option Url;
  url_as_str : Url -> str;
  url_scheme : Url -> str;
  url_username : Url -> str;
  url_password : Url -> option str;
  url_host_str : Url -> option str;
  url_port : Url -> option N;
  url_cannot_be_a_base : Url -> bool;
}.

Definition MAXIMUM_AVATAR_URL_LENGTH : N := 2048.

(** Four octets, or eight groups of 16 bits. *)
Inductive IpLiteral := V4 (octets : list N) | V6 (groups : list N).

(** ** IP literals *)

Definition is_ascii_hexdigit (b : byte) : bool :=
  is_ascii_digit b || ((chr "a" <=? b) && (b <=? chr "f")) || ((chr "A" <=? b) && (b <=? chr "F")).
Definition hex_value (b : byte) : N := if is_ascii_digit b then b - 48 else to_ascii_lowercase b - 87.

(** A piece of a dotted address: up to three digits, without a zero in front. *)
Definition parse_octet (part : str) : option N :=
  if is_empty part || negb (forallb is_ascii_digit (as_bytes part)) then None
  else if (3 <? str_len part) || ((1 <? str_len part) && starts_with_char (chr "0") part) then None
  else parse_unsigned 255 part.

Definition parse_v4 (text : str) : option (list N) :=
  let parts := split_on (N.eqb (chr ".")) text in
  if negb (length parts =? 4)%nat then None else mapM parse_octet parts.

Definition parse_group (group : str) : option N :=
  if is_empty group || (4 <? str_len group) || negb (forallb is_ascii_hexdigit (as_bytes group)) then None
  else Some (foldl (fun acc b => 16 * acc + hex_value b) 0 (as_bytes group)).

Definition parse_groups (part : str) : option (list N) :=
  if is_empty part then Some [] else mapM parse_group (split_on (N.eqb (chr ":")) part).

Definition parse_groups_with_v4 (part : str) : option (list N) :=
  if negb (contains_dot part) then parse_groups part
  else
    let '(rest, v4) := match rposition (N.eqb (chr ":")) part with
      | Some index => (take index part, drop (S index) part)
      | None => ([], part)
      end in
    let? groups := parse_groups rest in
    match parse_v4 v4 with
    | Some [a; b; c; d] => Some (groups ++ [N.lor (N.shiftl a 8) b; N.lor (N.shiftl c 8) d])
    | _ => None
    end.

Definition parse_v6 (text : str) : option (list N) :=
  match find_str (lit "::") text with
  | Some index =>
      let head := take index text in
      let tail := drop (index + 2) text in
      if bool_decide (is_Some (find_str (lit "::") tail)) then None
      else
        let? head := parse_groups head in
        let? tail := parse_groups_with_v4 tail in
        if (7 <? length head + length tail)%nat then None
        else Some (head ++ replicate (8 - length head - length tail) 0 ++ tail)
  | None =>
      let? all := parse_groups_with_v4 text in
      if (length all =? 8)%nat then Some all else None
  end.

Definition parse_ip_literal (text : str) : option IpLiteral :=
  match (let? rest := strip_prefix (lit "[") text in strip_suffix (lit "]") rest) with
  | Some inner => V6 <$> parse_v6 inner
  | None => if existsb (N.eqb (chr ":")) text then V6 <$> parse_v6 text else V4 <$> parse_v4 text
  end.

(** ** Which addresses are public *)

Definition within (low high n : N) : bool := (low <=? n) && (n <=? high).

Definition v4_is_unsafe (octets : list N) : bool :=
  match octets with
  | a :: b :: c :: _ =>
      (a =? 0) || (a =? 10) || (a =? 127) || ((a =? 100) && within 64 127 b) || ((a =? 169) && (b =? 254)) || ((a =? 172) && within 16 31 b)
      || ((a =? 192) && (b =? 0) && ((c =? 0) || (c =? 2))) || ((a =? 192) && (b =? 88) && (c =? 99)) || ((a =? 192) && (b =? 168))
      || ((a =? 198) && ((b =? 18) || (b =? 19))) || ((a =? 198) && (b =? 51) && (c =? 100)) || ((a =? 203) && (b =? 0) && (c =? 113)) || (224 <=? a)
  | _ => true
  end.

Definition is_global_v6 (groups : list N) : bool :=
  match groups with
  | g0 :: g1 :: _ =>
      (N.land g0 0xe000 =? 0x2000) && negb ((g0 =? 0x2001) && (g1 =? 0x0db8)) && negb ((g0 =? 0x2001) && (g1 =? 0)) && negb (g0 =? 0x2002)
  | _ => false
  end.

(** The address inside [::ffff:a.b.c.d]. *)
Definition mapped_v4 (groups : list N) : option (list N) :=
  match groups with
  | [g0; g1; g2; g3; g4; g5; g6; g7] =>
      if forallb (N.eqb 0) [g0; g1; g2; g3; g4] && (g5 =? 0xffff)
      then Some [N.shiftr g6 8; g6 mod 256; N.shiftr g7 8; g7 mod 256] else None
  | _ => None
  end.

Definition host_address_is_unsafe (address : IpLiteral) : bool :=
  match address with
  | V4 octets => v4_is_unsafe octets
  | V6 groups => match mapped_v4 groups with Some octets => v4_is_unsafe octets | None => negb (is_global_v6 groups) end
  end.

Definition select_safe_avatar_address (addresses : list IpLiteral) : option IpLiteral :=
  snd <$> list_find (fun address => host_address_is_unsafe address = false) addresses.

(** [str::ends_with] *)
Definition ends_with (suffix s : str) : bool := bool_decide (is_Some (strip_suffix suffix s)).

Definition host_looks_local (host : str) : bool :=
  let lower := ascii_lower host in
  str_eqb lower (lit "localhost") || ends_with (lit ".local") lower || ends_with (lit ".localhost") lower.

Definition avatar_fetch_pixel_size (layout_pixels : Z) : N :=
  if (layout_pixels <=? 0)%Z then 0
  else if (Z.abs (layout_pixels - 32) <=? Z.abs (layout_pixels - 64))%Z then 32 else 64.

(** ** Email addresses *)

Section Avatar.
Context `{platform : Platform} `{crypto : Crypto} `{crate : UrlCrate}.

Definition strip_mailto (text : str) : option str :=
  if eq_ignore_ascii_case (take 7 text) (lit "mailto:") then Some (drop 7 text) else None.

Definition without_mailto (text : str) : str :=
  let trimmed := trim text in match strip_mailto trimmed with Some rest => trim rest | None => trimmed end.

Definition looks_like_avatar_email (input : str) : bool :=
  let trimmed := without_mailto input in
  if bool_decide (is_Some (find_str (lit "://") trimmed)) then false
  else match split_once (N.eqb (chr "@")) trimmed with
       | None => false
       | Some (local, domain) => negb (is_empty local) && negb (is_empty domain) && negb (existsb (N.eqb (chr "@")) domain) && contains_dot domain
       end.

Definition sha256_hex (data : bytes) : str := mbind hex_byte (sha256 data).

Definition gravatar_metadata_url (email : str) : str :=
  lit "https://www.gravatar.com/avatar/" ++ sha256_hex (as_bytes (to_lowercase (without_mailto email))) ++ lit "?s={size}&d=404".

(** ** URLs *)

Definition has_userinfo (text : str) : bool :=
  match find_str (lit "://") text with
  | None => false
  | Some index =>
      let rest := drop (index + 3) text in
      let end_ := default (length rest) (position (fun c => (c =? chr "/") || (c =? chr "?") || (c =? chr "#")) rest) in
      existsb (N.eqb (chr "@")) (take end_ rest)
  end.

(** [text.replace(old, new)] *)
Definition replace_text (old new text : str) : str := join_with new (split_str old text).

Definition resolved_avatar_url (raw : str) (pixel_size : N) : option Url :=
  let trimmed := trim raw in
  if is_empty trimmed then None
  else
    let substituted := replace_text (lit "{size}") (show (N.max pixel_size 16)) trimmed in
    if (MAXIMUM_AVATAR_URL_LENGTH <? str_len substituted) || has_userinfo substituted then None
    else
      let? url := url_parse substituted in
      if url_cannot_be_a_base url || bool_decide (url_host_str url = None) then None else Some url.

Definition avatar_url_is_safe (url : Url) : bool :=
  if negb (str_eqb (url_scheme url) (lit "https")) then false
  else if MAXIMUM_AVATAR_URL_LENGTH <? str_len (url_as_str url) then false
  else if negb (is_empty (url_username url)) || bool_decide (is_Some (url_password url)) then false
  else
    let?? raw_host := url_host_str url else false in
    let host := skip_while_end (N.eqb (chr ".")) raw_host in
    if is_empty host || host_looks_local host then false
    else if match url_port url with Some port => negb (port =? 443) | None => false end then false
    else match parse_ip_literal host with Some address => negb (host_address_is_unsafe address) | None => true end.

Definition avatar_metadata_value (input : str) : option str :=
  let trimmed := trim input in
  if is_empty trimmed then None
  else if looks_like_avatar_email trimmed then Some (gravatar_metadata_url trimmed)
  else let? resolved := resolved_avatar_url trimmed 32 in if avatar_url_is_safe resolved then Some trimmed else None.
End Avatar.

Example literals_example :
  parse_ip_literal (lit "[::ffff:127.0.0.1]") = Some (V6 [0; 0; 0; 0; 0; 65535; 32512; 1]) /\
  parse_ip_literal (lit "2606:4700::6810:85e5") = Some (V6 [9734; 18176; 0; 0; 0; 0; 26640; 34277]) /\
  parse_ip_literal (lit "010.1.1.1") = None.
Proof. split_and!; vm_compute; reflexivity. Qed.

(** ** pictures come from the public internet

    The tests on octets and groups are shown to be the address blocks they stand for, and a URL
    that passes the test names no address inside one. *)

(** ** Address blocks *)

(** An address block: its base and the length of its prefix, of an address of so many bits. *)
Definition in_block (bits n : N) (block : N * N) : bool :=
  n / 2 ^ (bits - block.2) =? block.1 / 2 ^ (bits - block.2).

Definition v4_number (a b c d : N) : N := 2 ^ 24 * a + 2 ^ 16 * b + 2 ^ 8 * c + d.

(** The special blocks of IPv4 (RFC 6890 and its successors). *)
Definition SPECIAL_V4 : list (N * N) :=
  [(v4_number 0 0 0 0, 8); (v4_number 10 0 0 0, 8); (v4_number 127 0 0 0, 8); (v4_number 100 64 0 0, 10); (v4_number 169 254 0 0, 16);
   (v4_number 172 16 0 0, 12); (v4_number 192 0 0 0, 24); (v4_number 192 0 2 0, 24); (v4_number 192 88 99 0, 24); (v4_number 192 168 0 0, 16);
   (v4_number 198 18 0 0, 15); (v4_number 198 51 100 0, 24); (v4_number 203 0 113 0, 24); (v4_number 224 0 0 0, 3)].

(** The first 32 bits of an IPv6 address say in which of its blocks it is: global unicast, and
    in it documentation, Teredo and 6to4. *)
Definition v6_head (g0 g1 : N) : N := 2 ^ 16 * g0 + g1.
Definition GLOBAL_V6 : N * N := (v6_head 0x2000 0, 3).
Definition SPECIAL_V6 : list (N * N) := [(v6_head 0x2001 0x0db8, 32); (v6_head 0x2001 0, 32); (v6_head 0x2002 0, 16)].

Definition public_v4 (octets : list N) : Prop :=
  match octets with
  | [a; b; c; d] => existsb (in_block 32 (v4_number a b c d)) SPECIAL_V4 = false
  | _ => False
  end.

Definition public (address : IpLiteral) : Prop :=
  match address with
  | V4 octets => public_v4 octets
  | V6 groups =>
      match groups with
      | [g0; g1; _; _; _; _; g6; g7] =>
          if decide (take 6 groups = [0; 0; 0; 0; 0; 0xffff]) then public_v4 [g6 / 256; g6 mod 256; g7 / 256; g7 mod 256]
          else in_block 32 (v6_head g0 g1) GLOBAL_V6 = true /\ existsb (in_block 32 (v6_head g0 g1)) SPECIAL_V6 = false
      | _ => False
      end
  end.

(** A number in digits of base [2 ^ k], cut at a digit and inside one. *)
Lemma in_block_8 a b c d x : b < 256 -> c < 256 -> d < 256 -> in_block 32 (v4_number a b c d) (v4_number x 0 0 0, 8) = (a =? x).
Proof.
  intros. unfold in_block, v4_number. cbn [fst snd]. change (2 ^ (32 - 8)) with 16777216.
  apply eq_true_iff_eq. rw !N.eqb_eq. zify. Z.to_euclidean_division_equations. lia.
Qed.

Lemma in_block_16 a b c d x y : b < 256 -> c < 256 -> d < 256 -> y < 256 -> in_block 32 (v4_number a b c d) (v4_number x y 0 0, 16) = (a =? x) && (b =? y).
Proof.
  intros. unfold in_block, v4_number. cbn [fst snd]. change (2 ^ (32 - 16)) with 65536.
  apply eq_true_iff_eq. rw andb_true_iff !N.eqb_eq. zify. Z.to_euclidean_division_equations. lia.
Qed.

Lemma in_block_24 a b c d x y z : b < 256 -> c < 256 -> d < 256 -> y < 256 -> z < 256 ->
  in_block 32 (v4_number a b c d) (v4_number x y z 0, 24) = (a =? x) && (b =? y) && (c =? z).
Proof.
  intros. unfold in_block, v4_number. cbn [fst snd]. change (2 ^ (32 - 24)) with 256.
  apply eq_true_iff_eq. rw !andb_true_iff !N.eqb_eq. zify. Z.to_euclidean_division_equations. lia.
Qed.

Lemma in_block_odd a b c d :
  a < 256 -> b < 256 -> c < 256 -> d < 256 ->
  in_block 32 (v4_number a b c d) (v4_number 100 64 0 0, 10) = (a =? 100) && within 64 127 b /\
  in_block 32 (v4_number a b c d) (v4_number 172 16 0 0, 12) = (a =? 172) && within 16 31 b /\
  in_block 32 (v4_number a b c d) (v4_number 198 18 0 0, 15) = (a =? 198) && ((b =? 18) || (b =? 19)) /\
  in_block 32 (v4_number a b c d) (v4_number 224 0 0 0, 3) = (224 <=? a).
Proof.
  intros. unfold in_block, v4_number, within. cbn [fst snd].
  change (2 ^ (32 - 10)) with 4194304. change (2 ^ (32 - 12)) with 1048576. change (2 ^ (32 - 15)) with 131072. change (2 ^ (32 - 3)) with 536870912.
  split_and!; apply eq_true_iff_eq; rw ?andb_true_iff ?orb_true_iff ?andb_true_iff ?N.eqb_eq ?N.leb_le; zify; Z.to_euclidean_division_equations; lia.
Qed.

(** The test on octets is the list of blocks. *)
Lemma v4_blocks a b c d :
  a < 256 -> b < 256 -> c < 256 -> d < 256 -> v4_is_unsafe [a; b; c; d] = existsb (in_block 32 (v4_number a b c d)) SPECIAL_V4.
Proof.
  intros Ha Hb Hc Hd. destruct (in_block_odd a b c d Ha Hb Hc Hd) as (E1 & E2 & E3 & E4). unfold SPECIAL_V4. cbn [existsb].
  rw E1 E2 E3 E4. rw !in_block_8 // !in_block_16 // !in_block_24 //. unfold v4_is_unsafe.
  rw orb_false_r. apply eq_true_iff_eq. repeat setoid_rewrite orb_true_iff. repeat setoid_rewrite andb_true_iff. repeat setoid_rewrite orb_true_iff. tauto.
Qed.

Lemma v6_blocks g0 g1 rest :
  g0 < 65536 -> g1 < 65536 ->
  is_global_v6 (g0 :: g1 :: rest) = in_block 32 (v6_head g0 g1) GLOBAL_V6 && negb (existsb (in_block 32 (v6_head g0 g1)) SPECIAL_V6).
Proof.
  intros H0 H1. unfold is_global_v6, in_block, GLOBAL_V6, SPECIAL_V6, v6_head. cbn [existsb fst snd].
  change (2 ^ (32 - 3)) with 536870912. change (2 ^ (32 - 32)) with 1. change (2 ^ (32 - 16)) with 65536. unfold in_block. cbn [fst snd].
  change (2 ^ (32 - 32)) with 1. change (2 ^ (32 - 16)) with 65536.
  assert (Hland : (N.land g0 0xe000 =? 0x2000) = (g0 / 8192 =? 1)).
  { assert (E : N.land g0 0xe000 = 8192 * N.land (g0 / 8192) 7).
    { change 0xe000 with (N.shiftl 7 13). apply N.bits_inj_iff. intros i. rw N.land_spec. change 8192 with (2 ^ 13). rw (N.mul_comm (2 ^ 13)) -N.shiftl_mul_pow2.
      destruct (N.lt_ge_cases i 13) as [Hi|Hi]; [rw !N.shiftl_spec_low // andb_false_r //|].
      rw !N.shiftl_spec_high' // N.land_spec -N.shiftr_div_pow2 N.shiftr_spec'. f_equal. f_equal. lia. }
    rw E. assert (Hs : g0 / 8192 < 8) by (apply N.Div0.div_lt_upper_bound; lia). apply eq_true_iff_eq. rw !N.eqb_eq.
    change 7 with (N.ones 3). rw N.land_ones N.mod_small; [exact Hs|]. lia. }
  rw Hland. apply eq_true_iff_eq. rw !andb_true_iff !negb_true_iff orb_false_r !orb_false_iff !andb_false_iff !N.eqb_eq !N.eqb_neq.
  zify. Z.to_euclidean_division_equations. lia.
Qed.

(** An address of eight groups, or of four octets, that passes the test is public. *)
Definition octets (l : list N) : Prop := length l = 4%nat /\ Forall (fun n => n < 256) l.
Definition groups_of_8 (l : list N) : Prop := length l = 8%nat /\ Forall (fun n => n < 65536) l.

Lemma octets_public l : octets l -> v4_is_unsafe l = false -> public_v4 l.
Proof.
  intros [Hl Hf] Hs. destruct l as [|a [|b [|c [|d [|]]]]]; try done. rw !Forall_cons in Hf. destruct Hf as (? & ? & ? & ? & _).
  rw v4_blocks // in Hs.
Qed.

Lemma literal_public address :
  match address with V4 l => octets l | V6 l => groups_of_8 l end -> host_address_is_unsafe address = false -> public address.
Proof.
  destruct address as [l|l]; cbn [host_address_is_unsafe public]; [apply octets_public|].
  intros [Hl Hf] Hs. destruct l as [|g0 [|g1 [|g2 [|g3 [|g4 [|g5 [|g6 [|g7 [|]]]]]]]]]; try done.
  rw !Forall_cons in Hf. destruct Hf as (? & ? & ? & ? & ? & ? & ? & ? & _). unfold mapped_v4 in Hs.
  destruct (decide (take 6 _ = _)) as [E|E].
  - cbn in E. injection E as -> -> -> -> -> ->. cbn [forallb N.eqb Pos.eqb andb] in Hs. rw !N.shiftr_div_pow2 in Hs. apply octets_public; [|exact Hs].
    split; [done|]. rw !Forall_cons. split_and!; try done; try (by apply N.mod_lt); apply N.Div0.div_lt_upper_bound; lia.
  - destruct (forallb (N.eqb 0) [g0; g1; g2; g3; g4] && (g5 =? 0xffff)) eqn:Hm.
    + destruct E. cbn [forallb] in Hm. rw !andb_true_iff !N.eqb_eq in Hm. destruct Hm as ((<- & <- & <- & <- & <- & _) & ->). done.
    + apply negb_false_iff in Hs. rw v6_blocks // andb_true_iff negb_true_iff in Hs. exact Hs.
Qed.

(** ** What a literal parses to *)

Lemma mapM_Forall {A B} (f : A -> option B) (P : B -> Prop) l l' : (forall x y, f x = Some y -> P y) -> mapM f l = Some l' -> length l' = length l /\ Forall P l'.
Proof.
  intros H E. split; [symmetry; by eapply length_mapM|]. apply mapM_Some_1 in E. induction E; constructor; eauto.
Qed.

Lemma parse_v4_octets text l : parse_v4 text = Some l -> octets l.
Proof.
  unfold parse_v4. destruct (length (split_on (N.eqb (chr ".")) text) =? 4)%nat eqn:Hl; [|done]. apply Nat.eqb_eq in Hl.
  intros E. apply (mapM_Forall _ (fun n => n < 256)) in E as [He Hf]; [split; congruence|].
  intros part n Hp. unfold parse_octet in Hp. repeat case_match; try done. apply parse_unsigned_le in Hp. lia.
Qed.

Lemma parse_group_bound group n : parse_group group = Some n -> n < 65536.
Proof.
  unfold parse_group. destruct (is_empty group || (4 <? str_len group) || negb _) eqn:Hg; [done|]. intros [= <-].
  rw !orb_false_iff negb_false_iff N.ltb_ge in Hg. destruct Hg as [[_ Hl] Hx]. unfold str_len, blen in Hl.
  assert (Hdigit : Forall (fun b => hex_value b < 16) (as_bytes group)).
  { apply Forall_forall. intros b Hb. apply list_elem_of_In, (proj1 (forallb_forall _ _) Hx) in Hb.
    unfold is_ascii_hexdigit, hex_value, is_ascii_digit, to_ascii_lowercase, is_ascii_uppercase, chr in *. cbn in *. repeat case_match; lia. }
  clear Hx. revert Hl Hdigit. generalize (as_bytes group). intros l Hl Hdigit. destruct l as [|b1 [|b2 [|b3 [|b4 [|]]]]]; cbn [length foldl] in *; repeat match goal with H : Forall _ (_ :: _) |- _ => apply Forall_cons in H as [? H] end; cbn [foldl]; lia.
Qed.

Lemma parse_groups_bound part l : parse_groups part = Some l -> Forall (fun n => n < 65536) l.
Proof.
  unfold parse_groups. destruct (is_empty part); [by intros [= <-]|]. intros E.
  apply (mapM_Forall _ (fun n => n < 65536)) in E as [_ ?]; [done|]. apply parse_group_bound.
Qed.

Lemma parse_tail_bound part l : parse_groups_with_v4 part = Some l -> Forall (fun n => n < 65536) l.
Proof.
  unfold parse_groups_with_v4. destruct (contains_dot part); [|apply parse_groups_bound]. cbn [negb].
  destruct (match rposition _ part with Some _ => _ | None => _ end) as [rest v4].
  destruct (parse_groups rest) as [groups|] eqn:Hg; [|done]. destruct (parse_v4 v4) as [o|] eqn:Hv; [|done].
  destruct o as [|a [|b [|c [|d [|]]]]]; try done. intros [= <-]. apply parse_v4_octets in Hv as [_ Hv]. rw !Forall_cons in Hv. destruct Hv as (? & ? & ? & ? & _).
  assert (Hpair : forall x y, x < 256 -> y < 256 -> N.lor (N.shiftl x 8) y < 65536).
  { intros x y Hx Hy. assert (Hz : N.shiftr (N.lor (N.shiftl x 8) y) 16 = 0).
    { rw N.shiftr_lor N.shiftr_shiftl_r // !N.shiftr_div_pow2. rw !N.div_small //. lia. }
    rw N.shiftr_div_pow2 in Hz. change (2 ^ 16) with 65536 in Hz. apply N.div_small_iff in Hz; lia. }
  apply Forall_app. split; [by apply parse_groups_bound in Hg|]. rw !Forall_cons. split_and!; auto.
Qed.

Lemma parse_v6_bound text l : parse_v6 text = Some l -> groups_of_8 l.
Proof.
  unfold parse_v6. destruct (find_str _ text) as [index|].
  - case_bool_decide; [done|]. destruct (parse_groups _) as [front|] eqn:Hf; [|done]. destruct (parse_groups_with_v4 _) as [back|] eqn:Hb; [|done].
    destruct (7 <? _)%nat eqn:Hl; [done|]. apply Nat.ltb_ge in Hl. intros [= <-]. apply parse_groups_bound in Hf. apply parse_tail_bound in Hb.
    split; [rw !length_app length_replicate; lia|]. apply Forall_app; split; [done|]. apply Forall_app; split; [|done]. by apply Forall_replicate.
  - destruct (parse_groups_with_v4 text) as [all|] eqn:Ha; [|done]. destruct (length all =? 8)%nat eqn:Hl; [|done]. intros [= <-].
    apply Nat.eqb_eq in Hl. split; [done|]. by apply parse_tail_bound in Ha.
Qed.

Lemma parse_literal_bound text address :
  parse_ip_literal text = Some address -> match address with V4 l => octets l | V6 l => groups_of_8 l end.
Proof.
  unfold parse_ip_literal. intros H. destruct (match strip_prefix _ text with Some _ => _ | None => _ end) as [inner|].
  - destruct (parse_v6 inner) eqn:E; [|done]. injection H as <-. by apply parse_v6_bound in E.
  - destruct (existsb _ text).
    + destruct (parse_v6 text) eqn:E; [|done]. injection H as <-. by apply parse_v6_bound in E.
    + destruct (parse_v4 text) eqn:E; [|done]. injection H as <-. by apply parse_v4_octets in E.
Qed.

Lemma skip_while_end_split (p : char -> bool) s : exists rest, s = skip_while_end p s ++ rest /\ forallb p rest = true.
Proof.
  unfold skip_while_end. induction s as [|c s IH] using rev_ind; [by exists []|]. rw rev_app_distr. cbn [rev app skip_while].
  destruct (p c) eqn:Hc.
  - destruct IH as (rest & E & Hr). exists (rest ++ [c]). split; [by rw app_assoc -E|]. rw forallb_app Hr. cbn. by rw Hc.
  - exists []. split; [|done]. by rw app_nil_r /= rev_involutive.
Qed.

(** ** Texts *)

Definition dotted (a b c d : N) : str := join_with (lit ".") [show a; show b; show c; show d].

Lemma octet_text n : n < 256 -> parse_octet (show n) = Some n.
Proof.
  intros Hn. assert (H : forallb (fun k => bool_decide (parse_octet (show (N.of_nat k)) = Some (N.of_nat k))) (seq 0 256) = true) by (vm_compute; reflexivity).
  rw forallb_forall in H. specialize (H (N.to_nat n)). rw N2Nat.id in H. apply bool_decide_eq_true in H; [done|]. apply in_seq. lia.
Qed.

Lemma show_free p n : (forall c, is_ascii_digit c = true -> p c = false) -> forallb (fun c => negb (p c)) (show n) = true.
Proof. intros Hp. eapply forallb_impl; [|apply show_digits]. intros c Hc. by rw Hp. Qed.

Lemma dotted_text a b c d : a < 256 -> b < 256 -> c < 256 -> d < 256 -> parse_ip_literal (dotted a b c d) = Some (V4 [a; b; c; d]).
Proof.
  intros Ha Hb Hc Hd.
  assert (Hdot : forall n, forallb (fun x => negb (chr "." =? x)) (show n) = true) by (intros n; apply show_free; intros x Hx; unfold is_ascii_digit, chr in *; cbn; lia).
  assert (Hcolon : existsb (N.eqb (chr ":")) (dotted a b c d) = false).
  { apply existsb_false_forallb. unfold dotted. apply forallb_join; [done|]. rw !Forall_cons.
    split_and!; try done; apply show_free; intros x Hx; unfold is_ascii_digit, chr in *; cbn; lia. }
  assert (Hbracket : strip_prefix (lit "[") (dotted a b c d) = None).
  { unfold dotted. destruct (show a) as [|x l] eqn:E; [by destruct (show_nonempty a)|]. pose proof (show_digits a) as Hx. rw E in Hx. cbn [forallb] in Hx.
    rw join_with_cons //. cbn [app strip_prefix lit]. assert (Hne : (chr "[" =? x) = false) by (unfold is_ascii_digit, chr in *; cbn; lia).
    cbn in Hne |- *. by rw Hne. }
  unfold parse_ip_literal. rw Hbracket Hcolon. unfold parse_v4, dotted. change (lit ".") with [chr "."].
  rw split_on_join; [done|done|by repeat constructor|]. cbn [length Nat.eqb negb mapM]. rw !octet_text //.
Qed.


(** A crate for the examples: a URL is its host. *)
Definition toy_urls : UrlCrate := {|
  Url := str;
  url_parse text := Some text;
  url_as_str url := url;
  url_scheme _ := lit "https";
  url_username _ := [];
  url_password _ := None;
  url_host_str url := Some url;
  url_port _ := None;
  url_cannot_be_a_base _ := false;
|}.


(** The addresses of this machine and of its network are refused. *)
Example local_hosts_refused :
  forallb (fun host => negb (@avatar_url_is_safe toy_urls (lit host)))
    ["127.0.0.1"; "10.1.2.3"; "192.168.1.1"; "169.254.169.254"; "[::1]"; "[::ffff:10.0.0.1]"; "[fe80::1]"; "[2002:a00:1::]"; "localhost."; "a.local"]%string = true.
Proof. vm_compute. reflexivity. Qed.
