(* ===== verification/ChannelList.v ===== *)
(** * ChannelList: the /list requests and the overlay that shows them
    (src/client/src/controller/channellist.rs)

    One request per network holds the rows of a LIST answer, with a timer that fails a load the
    server stopped answering; the overlay shows the rows of one network, most users first. The
    handlers of the controller that drive the two are in ControllerLists. *)

From Stdlib Require Import Sorting.Permutation.
From stdpp Require Import sorting.
From S2P Require Import Prelude Text Message CaseMapping SessionTypes Platform OrdMap.

Definition CHANNEL_LIST_MAX_ROWS : N := 8000.
Definition CHANNEL_LIST_IDLE_TIMEOUT : Duration := from_secs 30.
Definition CHANNEL_LIST_TIMEOUT_TEXT : str := lit "Channel list timed out. Try /list again.".

Record ListedChannel := mkListed { listed_name : str; listed_users : N; listed_topic : str }.

Inductive RequestKind := RequestStart | RequestLoading | RequestCached.

Record ChannelListState := mkListState {
  list_mask : str;
  list_rows : list ListedChannel;
  list_complete : bool;
  list_loading : bool;
  list_error : str;
  pending_mask : option str;
  drain_timed_out_end : bool;
}.
#[export] Instance list_state_eta : Eta ChannelListState := fun s =>
  mkListState (list_mask s) (list_rows s) (list_complete s) (list_loading s) (list_error s) (pending_mask s) (drain_timed_out_end s).

(** [clock] holds the timers that run, each with the network and the generation it queues. *)
Record ChannelListRequests := mkListRequests {
  list_states : btree ChannelListState;
  list_timers : btree N;
  list_generation : N;
  list_clock : list (str * N);
  list_expiries : list (str * N);
}.
#[export] Instance list_requests_eta : Eta ChannelListRequests := fun r =>
  mkListRequests (list_states r) (list_timers r) (list_generation r) (list_clock r) (list_expiries r).
Definition new_list_requests : ChannelListRequests := mkListRequests [] [] 0 [] [].

Record FinishResult := mkFinish { finish_completed : bool; finish_pending : option str }.

Record ChannelListView := mkListView {
  view_open : bool;
  view_network : str;
  view_mask : str;
  view_rows : list ListedChannel;
  view_loading : bool;
  view_complete : bool;
  view_cached : bool;
  view_error : str;
}.
#[export] Instance list_view_eta : Eta ChannelListView := fun v =>
  mkListView (view_open v) (view_network v) (view_mask v) (view_rows v) (view_loading v) (view_complete v) (view_cached v) (view_error v).
Definition new_list_view : ChannelListView := mkListView false [] [] [] false false false [].

Section Lists.
Context `{platform : Platform}.
Implicit Types (r : ChannelListRequests) (v : ChannelListView).

Definition same_mask (left right : str) : bool := str_eqb (to_lowercase (trim left)) (to_lowercase (trim right)).

Definition channel_order (left right : ListedChannel) : comparison :=
  then_with (N.compare (listed_users right) (listed_users left)) (str_compare (to_lowercase (listed_name left)) (to_lowercase (listed_name right))).

(** ** The timers *)

Definition list_stop (network : str) r : ChannelListRequests :=
  match bt_get network (list_timers r) with
  | Some generation =>
      r <| list_timers := bt_remove network (list_timers r) |> <| list_clock := base.filter (fun t => t <> (network, generation)) (list_clock r) |>
  | None => r
  end.

Definition list_arm (network : str) r : ChannelListRequests :=
  let r := list_stop network r in
  let generation := list_generation r + 1 in
  r <| list_generation := generation |> <| list_clock := list_clock r ++ [(network, generation)] |>
    <| list_timers := bt_insert network generation (list_timers r) |>.

(** A timer of the clock runs out: its callback queues what it was armed with. *)
Definition list_timer_fired (timer : str * N) r : ChannelListRequests :=
  if bool_decide (timer ∈ list_clock r)
  then r <| list_clock := base.filter (fun t => t <> timer) (list_clock r) |> <| list_expiries := list_expiries r ++ [timer] |> else r.

Fixpoint take_expiries (queue : list (str * N)) (timers : btree N) : list (str * N) * option str :=
  match queue with
  | [] => ([], None)
  | (network, generation) :: queue =>
      if bool_decide (bt_get network timers = Some generation) then (queue, Some network) else take_expiries queue timers
  end.

Definition take_expiry r : ChannelListRequests * option str :=
  let '(queue, network) := take_expiries (list_expiries r) (list_timers r) in
  let r := r <| list_expiries := queue |> in
  match network with
  | Some network => (r <| list_timers := bt_remove network (list_timers r) |>, Some network)
  | None => (r, None)
  end.

(** ** The requests *)

Definition is_loading (network : str) r : bool :=
  match bt_get network (list_states r) with Some entry => list_loading entry | None => false end.

Definition put_state (network : str) (entry : ChannelListState) r : ChannelListRequests :=
  r <| list_states := bt_insert network entry (list_states r) |>.

Definition start_load (network mask : str) r : ChannelListRequests :=
  let drain := match bt_get network (list_states r) with Some entry => drain_timed_out_end entry | None => false end in
  list_arm network (put_state network (mkListState mask [] false true [] None drain) r).

(** [ChannelListRequests::request] *)
Definition list_request (network mask : str) (refresh : bool) r : ChannelListRequests * RequestKind :=
  match bt_get network (list_states r) with
  | Some entry =>
      if list_loading entry then
        (put_state network (entry <| pending_mask := if same_mask (list_mask entry) mask then None else Some mask |>) r, RequestLoading)
      else if negb refresh && list_complete entry && same_mask (list_mask entry) mask then (r, RequestCached)
      else (start_load network mask r, RequestStart)
  | None => (start_load network mask r, RequestStart)
  end.

(** [ChannelListRequests::forget] *)
Definition list_drop (network : str) r : ChannelListRequests :=
  let r := list_stop network r in r <| list_states := bt_remove network (list_states r) |>.

Definition cancel_start (network : str) r : ChannelListRequests := list_drop network r.

Definition same_channel (row existing : ListedChannel) : bool := str_eqb (to_lowercase (listed_name existing)) (to_lowercase (listed_name row)).

Definition upsert_row (rows : list ListedChannel) (row : ListedChannel) : list ListedChannel * bool :=
  match position (same_channel row) rows with
  | Some index => (<[index := row]> rows, true)
  | None => (if blen rows <? CHANNEL_LIST_MAX_ROWS then rows ++ [row] else rows, false)
  end.

(** [ChannelListRequests::row] *)
Definition list_row (network : str) (row : ListedChannel) r : ChannelListRequests * bool :=
  if is_empty (listed_name row) then (r, false)
  else if negb (is_loading network r) then (r, false)
  else
    let r := list_arm network r in
    match bt_get network (list_states r) with
    | None => (r, false)
    | Some entry => let '(rows, replaced) := upsert_row (list_rows entry) row in (put_state network (entry <| list_rows := rows |>) r, replaced)
    end.

(** [ChannelListRequests::activity] *)
Definition list_activity (network : str) r : ChannelListRequests := if is_loading network r then list_arm network r else r.

(** [ChannelListRequests::finish] *)
Definition list_finish (network : str) r : ChannelListRequests * FinishResult :=
  match bt_get network (list_states r) with
  | None => (r, mkFinish false None)
  | Some entry =>
      if negb (list_loading entry) then (put_state network (entry <| drain_timed_out_end := false |>) r, mkFinish false None)
      else if drain_timed_out_end entry then (list_arm network (put_state network (entry <| drain_timed_out_end := false |>) r), mkFinish false None)
      else
        let r := list_stop network r in
        let next := match pending_mask entry with Some pending => if same_mask pending (list_mask entry) then None else Some pending | None => None end in
        (put_state network (entry <| pending_mask := None |> <| list_loading := false |> <| list_complete := true |> <| list_error := [] |>) r, mkFinish true next)
  end.

(** [ChannelListRequests::fail] *)
Definition list_fail (network text : str) (timed_out : bool) r : ChannelListRequests * bool :=
  if negb (is_loading network r) then (r, false)
  else
    let r := list_stop network r in
    match bt_get network (list_states r) with
    | Some entry =>
        (put_state network (entry <| list_loading := false |> <| list_complete := false |> <| pending_mask := None |> <| list_error := text |>
           <| drain_timed_out_end := timed_out || drain_timed_out_end entry |>) r, true)
    | None => (r, true)
    end.

(** ** The overlay *)

(** [ChannelListView::show] *)
Definition view_show (network mask : str) (rows : list ListedChannel) (complete loading cached : bool) (error : str) v : ChannelListView :=
  mkListView (view_open v) network mask (sort_by channel_order (take (N.to_nat CHANNEL_LIST_MAX_ROWS) rows)) loading complete cached error.

(** [ChannelListView::begin_load] *)
Definition view_begin_load (network mask : str) v : ChannelListView := mkListView (view_open v) network mask [] true false false [].

(** [ChannelListView::fail] *)
Definition view_fail (text : str) v : ChannelListView :=
  v <| view_loading := false |> <| view_complete := false |> <| view_cached := false |> <| view_error := text |>.

(** [ChannelListView::append_row] *)
Definition append_row (row : ListedChannel) (replaced : bool) v : ChannelListView :=
  if replaced then
    match position (fun existing => eq_ignore_ascii_case (listed_name existing) (listed_name row)) (view_rows v) with
    | Some index => v <| view_rows := <[index := row]> (view_rows v) |>
    | None => v
    end
  else if CHANNEL_LIST_MAX_ROWS <=? blen (view_rows v) then v
  else v <| view_rows := sort_by channel_order (view_rows v ++ [row]) |>.

(** [ChannelListView::clear] *)
Definition view_clear v : ChannelListView :=
  if is_empty (view_rows v) && is_empty (view_network v) && is_empty (view_error v) && negb (view_loading v) && negb (view_complete v) then v
  else mkListView (view_open v) [] [] [] false false false [].

(** ** What the requests keep *)

#[local] Arguments list_stop _ _ : simpl never.
#[local] Arguments list_arm _ _ : simpl never.

(** A load that runs has its timer on the clock, or its expiry queued. *)
Definition timed (network : str) r : Prop :=
  exists generation, bt_get network (list_timers r) = Some generation /\
    ((network, generation) ∈ list_clock r \/ (network, generation) ∈ list_expiries r).

Record requests_ok r : Prop := {
  rows_capped : Forall (fun entry => blen (list_rows entry.2) <= CHANNEL_LIST_MAX_ROWS) (list_states r);
  loads_timed : forall network, is_loading network r = true -> timed network r;
}.

Lemma timed_stop network other r : other <> network -> timed other r -> timed other (list_stop network r).
Proof using Type.
  intros Hne (generation & Hg & Hq). unfold list_stop. destruct (bt_get network (list_timers r)) as [g|]; [|by exists generation].
  exists generation. cbn. rw bt_get_remove_ne //. split; [done|]. destruct Hq as [Hq|Hq]; [left|by right].
  apply list_elem_of_filter. split; [congruence|done].
Qed.

Lemma timed_arm network other r : timed other r \/ other = network -> timed other (list_arm network r).
Proof using Type.
  intros H. unfold list_arm. cbv zeta. destruct (decide (other = network)) as [->|Hne].
  - eexists. cbn. rw bt_get_insert. split; [done|]. left. set_solver.
  - destruct H as [H|]; [|done]. destruct (timed_stop network other r Hne H) as (g & Hg & Hq).
    exists g. cbn. rw bt_get_insert_ne //. split; [done|]. destruct Hq; [left; set_solver|by right].
Qed.

(** A change of one network's state that caps its rows, under timers that keep the other loads timed. *)
Lemma requests_ok_put network entry r r' :
  requests_ok r -> list_states r' = list_states r -> blen (list_rows entry) <= CHANNEL_LIST_MAX_ROWS ->
  (forall other, other <> network -> is_loading other r = true -> timed other r') -> (list_loading entry = true -> timed network r') ->
  requests_ok (put_state network entry r').
Proof using Type.
  intros [Hrows Hloads] Hs Hentry Hothers Hown. unfold put_state. split; cbn.
  - rw Hs. by apply bt_insert_Forall.
  - intros other. unfold is_loading. cbn. destruct (decide (other = network)) as [->|Hne].
    + rw bt_get_insert. intros H. exact (Hown H).
    + rw bt_get_insert_ne // Hs. intros H. exact (Hothers other Hne H).
Qed.

Lemma states_stop network r : list_states (list_stop network r) = list_states r.
Proof using Type. unfold list_stop. by case_match. Qed.

Lemma requests_ok_rows network entry r : requests_ok r -> bt_get network (list_states r) = Some entry -> blen (list_rows entry) <= CHANNEL_LIST_MAX_ROWS.
Proof using Type. intros [Hrows _] Hg. exact (proj1 (Forall_forall _ _) Hrows _ (bt_get_elem _ _ _ Hg)). Qed.

Lemma requests_ok_arm network r : requests_ok r -> requests_ok (list_arm network r).
Proof using Type.
  intros [Hrows Hloads]. assert (Hs : list_states (list_arm network r) = list_states r) by (unfold list_arm; cbn; apply states_stop).
  split; [by rw Hs|]. intros other. unfold is_loading. rw Hs. intros H. apply timed_arm. left. by apply Hloads.
Qed.

Lemma requests_ok_start network mask r : requests_ok r -> requests_ok (start_load network mask r).
Proof using Type.
  intros Hok. unfold start_load. cbv zeta. set (entry := mkListState _ _ _ _ _ _ _).
  assert (H : forall other, is_loading other (list_arm network (put_state network entry r)) = true -> other <> network -> is_loading other r = true).
  { intros other. unfold is_loading, list_arm. cbn. rw states_stop. cbn. intros H Hne. by rw bt_get_insert_ne in H. }
  destruct Hok as [Hrows Hloads]. split.
  - unfold list_arm. cbn. rw states_stop. cbn. apply bt_insert_Forall; [|done]. cbn. unfold blen, CHANNEL_LIST_MAX_ROWS. cbn. lia.
  - intros other Hl. apply timed_arm. destruct (decide (other = network)) as [->|Hne]; [by right|]. left.
    destruct (Hloads other (H other Hl Hne)) as (g & Hg & Hq). by exists g.
Qed.

Lemma requests_ok_request network mask refresh r : requests_ok r -> requests_ok (list_request network mask refresh r).1.
Proof using Type.
  intros Hok. unfold list_request. destruct (bt_get network (list_states r)) as [entry|] eqn:Hg; [|by apply requests_ok_start].
  destruct (list_loading entry) eqn:Hl.
  - cbn. apply (requests_ok_put network _ r); [done|done|by apply (requests_ok_rows network entry r)|intros other _; apply Hok|].
    intros _. apply Hok. unfold is_loading. by rw Hg.
  - case_match; [done|]. by apply requests_ok_start.
Qed.

Lemma requests_ok_drop network r : requests_ok r -> requests_ok (list_drop network r).
Proof using Type.
  intros [Hrows Hloads]. unfold list_drop. cbv zeta. split; cbn; rw states_stop; [by apply bt_remove_Forall|].
  intros other. unfold is_loading. cbn. destruct (decide (other = network)) as [->|Hne]; [by rw bt_get_remove|].
  rw bt_get_remove_ne //. intros H. exact (timed_stop network other r Hne (Hloads other H)).
Qed.

Lemma upsert_row_capped rows row : blen rows <= CHANNEL_LIST_MAX_ROWS -> blen (upsert_row rows row).1 <= CHANNEL_LIST_MAX_ROWS.
Proof using Type.
  intros H. unfold upsert_row. destruct (position _ rows); cbn; [unfold blen in *; by rw length_insert|].
  destruct (N.ltb_spec (blen rows) CHANNEL_LIST_MAX_ROWS) as [Hlt|]; [|done]. unfold blen in *. rw length_app. cbn. lia.
Qed.

Lemma requests_ok_row network row r : requests_ok r -> requests_ok (list_row network row r).1.
Proof using Type.
  intros Hok. unfold list_row. case_match; [done|]. destruct (is_loading network r) eqn:Hl; cbn [negb]; [|done]. cbv zeta.
  pose proof (requests_ok_arm network r Hok) as Ha.
  destruct (bt_get network (list_states (list_arm network r))) as [entry|] eqn:Hg; [|done].
  destruct (upsert_row (list_rows entry) row) as [rows replaced] eqn:Hu. cbn.
  apply (requests_ok_put network _ (list_arm network r)); [done|done| |intros other _; apply Ha|].
  - cbn. change rows with (rows, replaced).1. rw -Hu. apply upsert_row_capped. by apply (requests_ok_rows network entry (list_arm network r)).
  - intros _. apply timed_arm. by right.
Qed.

Lemma requests_ok_activity network r : requests_ok r -> requests_ok (list_activity network r).
Proof using Type. intros H. unfold list_activity. case_match; [by apply requests_ok_arm|done]. Qed.

Lemma requests_ok_finish network r : requests_ok r -> requests_ok (list_finish network r).1.
Proof using Type.
  intros Hok. unfold list_finish. destruct (bt_get network (list_states r)) as [entry|] eqn:Hg; [|done].
  pose proof (requests_ok_rows network entry r Hok Hg) as Hrows.
  destruct (list_loading entry) eqn:Hl; cbn [negb].
  - destruct (drain_timed_out_end entry); cbn.
    + apply requests_ok_arm, (requests_ok_put network _ r); [done|done|done|intros other _; apply Hok|]. intros _. apply Hok. unfold is_loading. by rw Hg.
    + apply (requests_ok_put network _ r); [done|apply states_stop|done| |done]. intros other Hne Ho. apply timed_stop; [done|by apply Hok].
  - cbn. apply (requests_ok_put network _ r); [done|done|done|intros other _; apply Hok|]. cbn. congruence.
Qed.

Lemma requests_ok_fail network text timed_out r : requests_ok r -> requests_ok (list_fail network text timed_out r).1.
Proof using Type.
  intros Hok. unfold list_fail. destruct (is_loading network r) eqn:Hl; cbn [negb]; [|done]. cbv zeta.
  unfold is_loading in Hl. rw states_stop. destruct (bt_get network (list_states r)) as [entry|] eqn:Hg; [|done]. cbn.
  apply (requests_ok_put network _ r); [done|apply states_stop|by apply (requests_ok_rows network entry r)| |done].
  intros other Hne Ho. apply timed_stop; [done|by apply Hok].
Qed.

Lemma requests_ok_fired timer r : requests_ok r -> requests_ok (list_timer_fired timer r).
Proof using Type.
  intros [Hrows Hloads]. unfold list_timer_fired. case_bool_decide; [|by split]. split; [done|].
  intros network Hl. destruct (Hloads network Hl) as (g & Hg & Hq). exists g. split; [done|]. cbn.
  destruct (decide ((network, g) = timer)) as [<-|Hne]; [right; set_solver|].
  destruct Hq as [Hq|Hq]; [left; by apply list_elem_of_filter|right; set_solver].
Qed.

Lemma take_expiries_keeps queue timers : forall network generation,
  bt_get network timers = Some generation -> (network, generation) ∈ queue ->
  (take_expiries queue timers).2 = Some network \/ (network, generation) ∈ (take_expiries queue timers).1.
Proof using Type.
  induction queue as [|[n g] queue IH]; intros network generation Hg Hin; [by apply elem_of_nil in Hin|]. cbn [take_expiries].
  case_bool_decide as Ht; cbn.
  - apply elem_of_cons in Hin as [Heq|Hin]; [left; congruence|by right].
  - apply elem_of_cons in Hin as [Heq|Hin]; [|by apply IH]. destruct Ht. congruence.
Qed.

(** The expiry that is taken leaves its load without a timer, and the other loads with theirs. *)
Lemma requests_ok_take_expiry r :
  requests_ok r ->
  let '(r', network) := take_expiry r in
  list_states r' = list_states r /\ (forall other, network <> Some other -> is_loading other r = true -> timed other r').
Proof using Type.
  intros [Hrows Hloads]. unfold take_expiry. destruct (take_expiries (list_expiries r) (list_timers r)) as [queue taken] eqn:E.
  assert (Hkeep : forall other, taken <> Some other -> is_loading other r = true ->
    exists g, bt_get other (list_timers r) = Some g /\ ((other, g) ∈ list_clock r \/ (other, g) ∈ queue)).
  { intros other Hne Hl. destruct (Hloads other Hl) as (g & Hg & Hq). exists g. split; [done|]. destruct Hq as [Hq|Hq]; [by left|].
    destruct (take_expiries_keeps _ _ other g Hg Hq) as [H|H]; rw E in H; [done|by right]. }
  destruct taken as [network|]; (split; [done|]); intros other Hne Hl; destruct (Hkeep other Hne Hl) as (g & Hg & Hq); exists g; cbn; (split; [|done]); [|done].
  rw bt_get_remove_ne //. congruence.
Qed.

(** An expiry that is taken ends the load it was armed for. *)
Lemma requests_ok_expire r text :
  requests_ok r ->
  match take_expiry r with
  | (r', Some network) => requests_ok (list_fail network text true r').1
  | (r', None) => requests_ok r'
  end.
Proof using Type.
  intros Hok. pose proof (requests_ok_take_expiry r Hok) as H. destruct (take_expiry r) as [r' [network|]]; destruct H as [Hs Ht].
  - assert (Hloading : forall other, is_loading other r' = is_loading other r) by (intros other; unfold is_loading; by rw Hs).
    unfold list_fail. destruct (is_loading network r') eqn:Hl; cbn [negb].
    + cbv zeta. rw states_stop Hs. rw Hloading in Hl. unfold is_loading in Hl.
      destruct (bt_get network (list_states r)) as [entry|] eqn:Hg; [|done]. cbn.
      apply (requests_ok_put network _ r); [done|by rw states_stop|by apply (requests_ok_rows network entry r)| |done].
      intros other Hne Hother. apply timed_stop; [done|]. apply Ht; [congruence|done].
    + split; [rw Hs; apply Hok|]. intros other Hother. apply Ht; [intros [= <-]|]; [|rw -Hloading //]. cbn [fst] in Hother. by rw Hl in Hother.
  - split; [rw Hs; apply Hok|]. intros other Hother. apply Ht; [done|]. unfold is_loading in *. by rw -Hs.
Qed.

(** Only a timer that runs out adds to the expiries, and only the pump takes from them. *)
Lemma expiries_stop network r : list_expiries (list_stop network r) = list_expiries r.
Proof using Type. unfold list_stop. by case_match. Qed.
Lemma expiries_arm network r : list_expiries (list_arm network r) = list_expiries r.
Proof using Type. unfold list_arm. cbn. apply expiries_stop. Qed.
Lemma expiries_request network mask refresh r : list_expiries (list_request network mask refresh r).1 = list_expiries r.
Proof using Type. unfold list_request, start_load. repeat case_match; cbn [fst]; rw ?expiries_arm //. Qed.
Lemma expiries_drop network r : list_expiries (list_drop network r) = list_expiries r.
Proof using Type. unfold list_drop. cbn. apply expiries_stop. Qed.
Lemma expiries_row network row r : list_expiries (list_row network row r).1 = list_expiries r.
Proof using Type. unfold list_row. cbv zeta. repeat case_match; cbn [fst]; rw -?(expiries_arm network r) //. Qed.
Lemma expiries_activity network r : list_expiries (list_activity network r) = list_expiries r.
Proof using Type. unfold list_activity. case_match; [apply expiries_arm|done]. Qed.
Lemma expiries_finish network r : list_expiries (list_finish network r).1 = list_expiries r.
Proof using Type. unfold list_finish. cbv zeta. repeat case_match; cbn [fst]; rw ?expiries_arm //; cbn; apply expiries_stop. Qed.
Lemma expiries_fail network text timed_out r : list_expiries (list_fail network text timed_out r).1 = list_expiries r.
Proof using Type. unfold list_fail. cbv zeta. repeat case_match; cbn [fst]; try done; cbn; apply expiries_stop. Qed.

Lemma take_expiries_suffix queue timers : exists taken, queue = taken ++ (take_expiries queue timers).1.
Proof using Type.
  induction queue as [|[n g] queue [taken IH]]; [by exists []|]. cbn [take_expiries]. case_bool_decide; [by exists [(n, g)]|].
  exists ((n, g) :: taken). cbn. by rw -IH.
Qed.
Lemma expiries_take r : exists taken, list_expiries r = taken ++ list_expiries (take_expiry r).1.
Proof using Type.
  unfold take_expiry. destruct (take_expiries_suffix (list_expiries r) (list_timers r)) as [taken E]. exists taken.
  destruct (take_expiries _ _) as [queue [network|]]; exact E.
Qed.

(** ** What the overlay keeps *)

Definition view_ok v : Prop := blen (view_rows v) <= CHANNEL_LIST_MAX_ROWS.

Lemma view_ok_show network mask rows complete loading cached error v : view_ok (view_show network mask rows complete loading cached error v).
Proof using Type.
  unfold view_ok, view_show. cbn [view_rows]. unfold blen. rw (Permutation_length (merge_sort_Permutation (not_after channel_order) _)) length_take. lia.
Qed.

Lemma view_ok_append row replaced v : view_ok v -> view_ok (append_row row replaced v).
Proof using Type.
  intros H. unfold append_row. destruct replaced; [destruct (position _ _); [|done]; unfold view_ok in *; cbn; unfold blen in *; by rw length_insert|].
  destruct (N.leb_spec CHANNEL_LIST_MAX_ROWS (blen (view_rows v))); [done|]. unfold view_ok, blen in *. cbn.
  rw (Permutation_length (merge_sort_Permutation (not_after channel_order) _)) length_app. cbn. lia.
Qed.

Lemma view_ok_clear v : view_ok v -> view_ok (view_clear v).
Proof using Type. intros H. unfold view_clear. case_match; [done|]. unfold view_ok, blen, CHANNEL_LIST_MAX_ROWS. cbn. lia. Qed.
End Lists.
