(* ===== verification/PlaybackTime.v ===== *)
(** * PlaybackTime: the newest time of each target (src/client/src/storage/playbacktime.rs)

    Where the playback of a bouncer and a catch-up start from: per network, the newest server
    time each target had a line at. The rows are cached and written to the settings file as
    JSON, which a crate reads and writes. *)

From S2P Require Import Prelude Text Message CaseMapping SessionTypes Platform OrdMap SettingsIni Settings Lists.

Definition PLAYBACK_TIMES_GROUP : str := lit "playbackTimes".
Definition PLAYBACK_TIMES_KEY : str := lit "times".

Record PlaybackTargetTime := mkTargetTime { time_target : str; time_when : Time }.
Record PlaybackEntry := mkPlaybackEntry { playback_target : str; epoch_ms : Z }.
#[export] Instance playback_entry_eta : Eta PlaybackEntry := fun e => mkPlaybackEntry (playback_target e) (epoch_ms e).

(** serde_json: an array of values, each an object with its [target] and [ms] strings or
    something else, and the text of an array of rows; chrono: the instant of so many
    milliseconds. *)
Class TimesJson := {
  datetime_from_millis : Z -> option Time;
  times_from_str : str -> option (list (option (option str * option str)));
  times_to_string : list (str * str) -> str;
}.

(** [cache] is all the store keeps in memory; the file is the one the lists share. *)
Definition PlaybackTimeStore : Type := btree (list PlaybackEntry).

Definition playback_index_of_target (rows : list PlaybackEntry) (target : str) (mapping : IrcCaseMapping) : option nat :=
  position (fun row => equals mapping (playback_target row) target) rows.

Section Times.
Context `{platform : Platform} `{json : TimesJson}.
Implicit Types (s : PlaybackTimeStore) (file : SharedFile).

Definition entry_of (raw : option (option str * option str)) : option PlaybackEntry :=
  let? (target, ms) := raw in
  let target := default [] target in
  if is_empty target then None
  else let? ms := parse_i64 (default [] ms) in Some (mkPlaybackEntry target ms).

(** [DateTime::from_timestamp_millis(ms).unwrap_or_default()] *)
Definition from_timestamp_millis (ms : Z) : Time := default 0%Z (datetime_from_millis ms).

Definition group_of (network : str) : str := PLAYBACK_TIMES_GROUP ++ lit "/" ++ network.

Definition playback_load file (network : str) : list PlaybackEntry :=
  if is_empty network then []
  else
    let stored := value (backing_settings (shared_backing file)) (group_of network) PLAYBACK_TIMES_KEY in
    if is_empty stored then []
    else match times_from_str stored with Some raw => omap entry_of raw | None => [] end.

Definition playback_entries s file (network : str) : PlaybackTimeStore * list PlaybackEntry :=
  if is_empty network then (s, [])
  else match bt_get network s with
       | Some found => (s, found)
       | None => let loaded := playback_load file network in (bt_insert network loaded s, loaded)
       end.

Definition playback_save s (network : str) file : SharedFile :=
  if is_empty network then file
  else
    let rows := default [] (bt_get network s) in
    let change settings :=
      if is_empty rows then remove_group settings (group_of network)
      else set_value settings (group_of network) PLAYBACK_TIMES_KEY (times_to_string ((fun row => (show_int (epoch_ms row), playback_target row)) <$> rows)) in
    let '(backing, _) := edit (shared_backing file) change (default true (head (shared_lands file))) in
    mkSharedFile backing (tail (shared_lands file)).

(** [PlaybackTimeStore::targets] *)
Definition playback_targets s file (network : str) : PlaybackTimeStore * list PlaybackTargetTime :=
  let '(s, rows) := playback_entries s file network in
  (s, (fun row => mkTargetTime (playback_target row) (from_timestamp_millis (epoch_ms row))) <$> rows).

(** [PlaybackTimeStore::noted]. The rows it may load into the cache are the file's. *)
Definition playback_noted s file (network target : str) (mapping : IrcCaseMapping) : option Time :=
  if is_empty network || is_empty target then None
  else
    let rows := (playback_entries s file network).2 in
    let? index := playback_index_of_target rows target mapping in
    let? row := rows !! index in Some (from_timestamp_millis (epoch_ms row)).

Definition noted_rows (rows : list PlaybackEntry) (target : str) (ms : Z) (mapping : IrcCaseMapping) : option (list PlaybackEntry) :=
  match playback_index_of_target rows target mapping with
  | Some index =>
      let? row := rows !! index in
      if (ms <=? epoch_ms row)%Z then None else Some (<[index := row <| epoch_ms := ms |>]> rows)
  | None => Some (rows ++ [mkPlaybackEntry target ms])
  end.

(** [PlaybackTimeStore::note] *)
Definition playback_note s file (network target : str) (when : Time) (mapping : IrcCaseMapping) : PlaybackTimeStore * SharedFile * bool :=
  if is_empty network || is_empty target || (when =? MIN_UTC)%Z then (s, file, false)
  else
    let '(s, rows) := playback_entries s file network in
    match noted_rows rows target (timestamp_millis when) mapping with
    | None => (s, file, false)
    | Some rows => let s := bt_insert network rows s in (s, playback_save s network file, true)
    end.

Definition rekeyed_rows (rows : list PlaybackEntry) (old new : str) (mapping : IrcCaseMapping) : option (list PlaybackEntry) :=
  let? index := playback_index_of_target rows old mapping in
  let? held := rows !! index in
  if equals mapping old new then
    if str_eqb (playback_target held) new then None else Some (<[index := held <| playback_target := new |>]> rows)
  else
    let rest := delete index rows in
    match playback_index_of_target rest new mapping with
    | Some existing =>
        let? row := rest !! existing in
        Some (if (epoch_ms row <? epoch_ms held)%Z then <[existing := row <| epoch_ms := epoch_ms held |>]> rest else rest)
    | None => Some (rest ++ [mkPlaybackEntry new (epoch_ms held)])
    end.

(** [PlaybackTimeStore::rekey] *)
Definition playback_rekey s file (network old new : str) (mapping : IrcCaseMapping) : PlaybackTimeStore * SharedFile * bool :=
  if is_empty network || is_empty old || is_empty new then (s, file, false)
  else
    let '(s, rows) := playback_entries s file network in
    match rekeyed_rows rows old new mapping with
    | None => (s, file, false)
    | Some rows => let s := bt_insert network rows s in (s, playback_save s network file, true)
    end.

(** [PlaybackTimeStore::forget] *)
Definition playback_forget s file (network : str) : PlaybackTimeStore * SharedFile :=
  if is_empty network then (s, file) else let s := bt_remove network s in (s, playback_save s network file).

Definition three_digits (n : N) : str :=
  [chr "0" + n / 100; chr "0" + (n / 10) mod 10; chr "0" + n mod 10].

(** [play_stamp_at] and [play_stamp_with_ok] *)
Definition play_stamp_at (when : Time) (ok : bool) : str :=
  if negb ok || (when =? MIN_UTC)%Z then lit "0"
  else
    let ms := timestamp_millis when in
    let magnitude := Z.to_N (Z.abs ms) in
    (if (ms <? 0)%Z then lit "-" else []) ++ show (magnitude / 1000) ++ lit "." ++ three_digits (magnitude mod 1000).
End Times.

(** ** The newest time of each name *)

Section Newest.
Context (mapping : IrcCaseMapping).
Implicit Types (rows : list PlaybackEntry) (m : gmap str Z).

(** A row as a binding of its folded name. *)
Definition bound (row : PlaybackEntry) : str * Z := (normalize mapping (playback_target row), epoch_ms row).
Definition newest rows : gmap str Z := list_to_map (bound <$> rows).

(** Each name once. *)
Definition once rows : Prop := NoDup ((bound <$> rows).*1).

Definition later (m : gmap str Z) (name : str) (ms : Z) : gmap str Z := <[name := match m !! name with Some held => Z.max held ms | None => ms end]> m.

Definition move_name (m : gmap str Z) (old new : str) : gmap str Z :=
  match m !! old with Some ms => if decide (old = new) then m else later (delete old m) new ms | None => m end.

Lemma index_bound rows target index :
  playback_index_of_target rows target mapping = Some index -> exists row, rows !! index = Some row /\ normalize mapping (playback_target row) = normalize mapping target.
Proof using Type. intros (row & Hl & E%str_eqb_eq)%position_lookup. by exists row. Qed.

Lemma index_none rows target : playback_index_of_target rows target mapping = None -> normalize mapping target ∉ (bound <$> rows).*1.
Proof using Type.
  unfold playback_index_of_target. rw position_None forallb_forall. intros H (b & Eb & (row & -> & Hin)%list_elem_of_fmap)%list_elem_of_fmap.
  apply list_elem_of_In, H, negb_true_iff, not_true_iff_false in Hin. apply Hin, str_eqb_eq. by rw Eb.
Qed.

Lemma newest_swap rows rows' : once rows -> rows ≡ₚ rows' -> newest rows = newest rows' /\ once rows'.
Proof using Type.
  intros Ho Hp. split; [apply list_to_map_proper; [exact Ho|by rw Hp]|]. unfold once in *. by rw -Hp.
Qed.

(** One row in front. *)
Lemma newest_cons row rows :
  once (row :: rows) -> newest (row :: rows) = <[(bound row).1 := epoch_ms row]> (newest rows) /\ newest rows !! (bound row).1 = None /\ once rows.
Proof using Type. unfold once. cbn. intros [Hn Ho]%NoDup_cons. split_and!; [done|by apply not_elem_of_list_to_map_1|done]. Qed.

Lemma once_swap row row' rows : (bound row).1 = (bound row').1 -> once (row :: rows) -> once (row' :: rows).
Proof using Type. unfold once. cbn. by intros ->. Qed.

Lemma insert_at rows index row row' : rows !! index = Some row -> <[index := row']> rows ≡ₚ row' :: delete index rows.
Proof using Type.
  intros Hl. destruct (list_elem_of_split_length _ _ _ Hl) as (l1 & l2 & -> & ->). rw delete_middle.
  replace (length l1) with (length l1 + 0)%nat by lia. rw insert_app_r. cbn. solve_Permutation.
Qed.

(** A row with another time, or another spelling of its name. *)
Lemma newest_insert rows index row row' :
  once rows -> rows !! index = Some row -> (bound row').1 = (bound row).1 ->
  once (<[index := row']> rows) /\ newest (<[index := row']> rows) = <[(bound row).1 := epoch_ms row']> (newest rows).
Proof using Type.
  intros Ho Hl Hk. destruct (newest_swap _ _ Ho (delete_Permutation _ _ _ Hl)) as [E1 Ho1]. rw E1. pose proof (once_swap row row' _ (eq_sym Hk) Ho1) as Ho2.
  destruct (newest_swap (row' :: delete index rows) _ Ho2 (symmetry (insert_at rows index row row' Hl))) as [<- Ho3]. split; [done|].
  rw (proj1 (newest_cons _ _ Ho2)) (proj1 (newest_cons _ _ Ho1)) Hk insert_insert_eq. done.
Qed.

Lemma newest_app rows row : once rows -> (bound row).1 ∉ (bound <$> rows).*1 -> once (rows ++ [row]) /\ newest (rows ++ [row]) = <[(bound row).1 := epoch_ms row]> (newest rows).
Proof using Type.
  intros Ho Hn. assert (H : once (row :: rows)) by (by apply NoDup_cons). destruct (newest_swap _ (rows ++ [row]) H) as [<- Ho']; [solve_Permutation|].
  split; [done|]. apply newest_cons, H.
Qed.

Lemma newest_at rows index row : once rows -> rows !! index = Some row -> newest rows !! (bound row).1 = Some (epoch_ms row).
Proof using Type.
  intros Ho Hl. apply elem_of_list_to_map_1; [exact Ho|]. apply list_elem_of_fmap. exists row. split; [by destruct row|]. by eapply list_elem_of_lookup_2.
Qed.

Lemma newest_out rows target : playback_index_of_target rows target mapping = None -> newest rows !! normalize mapping target = None.
Proof using Type. intros H%index_none. by apply not_elem_of_list_to_map_1. Qed.

Lemma noted_newest rows target ms :
  once rows -> let rows' := default rows (noted_rows rows target ms mapping) in once rows' /\ newest rows' = later (newest rows) (normalize mapping target) ms.
Proof using Type.
  intros Ho. unfold noted_rows, later. destruct (playback_index_of_target rows target mapping) as [index|] eqn:Ei.
  - destruct (index_bound _ _ _ Ei) as (row & Hl & Hk). rw Hl. cbn [mbind option_bind]. pose proof (newest_at _ _ _ Ho Hl) as Hm. cbn [bound fst] in Hm. rw Hk in Hm. rw Hm.
    destruct (Z.leb_spec ms (epoch_ms row)) as [Hle|Hlt]; cbn [from_option]; unfold id.
    + split; [done|]. rw Z.max_l //. by rw insert_id.
    + destruct (newest_insert rows index row (mkPlaybackEntry (playback_target row) ms) Ho Hl eq_refl) as [? E]. cbn [bound fst] in E. rw Hk in E. split; [done|]. rw E Z.max_r; [lia|done].
  - rw (newest_out _ _ Ei). cbn [from_option]; unfold id. apply (newest_app rows (mkPlaybackEntry target ms) Ho). by apply index_none.
Qed.

Lemma rekeyed_newest rows old new :
  once rows -> let rows' := default rows (rekeyed_rows rows old new mapping) in
  once rows' /\ newest rows' = move_name (newest rows) (normalize mapping old) (normalize mapping new).
Proof using Type.
  intros Ho. unfold rekeyed_rows, move_name. destruct (playback_index_of_target rows old mapping) as [index|] eqn:Ei; cbn [mbind option_bind].
  2: { by rw (newest_out _ _ Ei). }
  destruct (index_bound _ _ _ Ei) as (row & Hl & Hk). rw Hl. cbn [mbind option_bind]. pose proof (newest_at _ _ _ Ho Hl) as Hm. cbn [bound fst] in Hm. rw Hk in Hm. rw Hm.
  destruct (equals mapping old new) eqn:En.
  - apply str_eqb_eq in En. rw decide_True //. destruct (str_eqb _ _); cbn [from_option]; unfold id; [done|].
    destruct (newest_insert rows index row (mkPlaybackEntry new (epoch_ms row)) Ho Hl) as [? E]; [cbn [bound fst playback_target]; congruence|]. split; [done|]. rw E. cbn [bound fst epoch_ms]. rw Hk. by apply insert_id.
  - rw decide_False; [intros E%str_eqb_eq; unfold equals in En; congruence|].
    destruct (newest_swap _ _ Ho (delete_Permutation _ _ _ Hl)) as [E1 Ho1]. destruct (newest_cons _ _ Ho1) as (E2 & Hout & Ho2). cbn [bound fst] in E2, Hout. rw Hk in E2, Hout.
    assert (Ed : delete (normalize mapping old) (newest rows) = newest (delete index rows)) by (rw E1 E2; by apply delete_insert_id).
    rw Ed. cbv zeta. unfold later. destruct (playback_index_of_target (delete index rows) new mapping) as [existing|] eqn:Ex; cbn [from_option]; unfold id.
    + destruct (index_bound _ _ _ Ex) as (other & Hl' & Hk'). rw Hl'. cbn [mbind option_bind from_option id]. pose proof (newest_at _ _ _ Ho2 Hl') as Hm'. cbn [bound fst] in Hm'. rw Hk' in Hm'. rw Hm'.
      destruct (Z.ltb_spec (epoch_ms other) (epoch_ms row)).
      * destruct (newest_insert _ existing other (mkPlaybackEntry (playback_target other) (epoch_ms row)) Ho2 Hl' eq_refl) as [? E]. cbn [bound fst] in E. rw Hk' in E. split; [done|]. rw E Z.max_r; [lia|done].
      * split; [done|]. rw Z.max_l; [lia|]. by rw insert_id.
    + rw (newest_out _ _ Ex). apply (newest_app _ (mkPlaybackEntry new (epoch_ms row)) Ho2). by apply index_none.
Qed.
End Newest.

Section Refinement.
Context `{platform : Platform} `{json : TimesJson} (network : str) (mapping : IrcCaseMapping).
Implicit Types (s : PlaybackTimeStore) (file : SharedFile).

(** The network's rows: the cached ones, or the file's. *)
Definition network_rows s file : list PlaybackEntry := (playback_entries s file network).2.

Inductive TimesOp := NoteTime (target : str) (when : Time) | RekeyTime (old new : str).

Definition times_named (op : TimesOp) : Prop :=
  match op with NoteTime target when => target <> [] /\ when <> MIN_UTC | RekeyTime old new => old <> [] /\ new <> [] end.

Definition on_times (op : TimesOp) s file : PlaybackTimeStore * SharedFile :=
  match op with NoteTime target when => (playback_note s file network target when mapping).1 | RekeyTime old new => (playback_rekey s file network old new mapping).1 end.

Definition on_newest (op : TimesOp) (m : gmap str Z) : gmap str Z :=
  match op with
  | NoteTime target when => later m (normalize mapping target) (timestamp_millis when)
  | RekeyTime old new => move_name m (normalize mapping old) (normalize mapping new)
  end.

Lemma rows_cached s file rows file' : network <> [] -> network_rows (bt_insert network rows s) file' = rows.
Proof using Type. intros Hn. unfold network_rows, playback_entries. destruct (is_empty network) eqn:E; [by destruct network|]. by rw bt_get_insert. Qed.

(** Reading the rows puts them in the cache. *)
Lemma entries_read s file : network <> [] ->
  let '(s', rows) := playback_entries s file network in
  rows = network_rows s file /\ bt_get network s' = Some rows /\ forall other, other <> network -> bt_get other s' = bt_get other s.
Proof using Type.
  intros Hn. unfold network_rows, playback_entries. destruct (is_empty network) eqn:E; [by destruct network|].
  destruct (bt_get network s) eqn:Eg; [done|]. split_and!; [done|by rw bt_get_insert|]. intros other Hne. by rw bt_get_insert_ne.
Qed.

(** C17: the store of playback times is a map from the folded names of a network to the newest time
    each had a line at. Noting a line keeps the later of the two times, so a time never moves
    back; a nick change moves a name's time to the new name, which keeps the later of the two;
    each name stays there once, and the cached times of the other networks stay. *)
Theorem playback_times_refine op s file :
  network <> [] -> times_named op -> once mapping (network_rows s file) ->
  let '(s', file') := on_times op s file in
  once mapping (network_rows s' file') /\ newest mapping (network_rows s' file') = on_newest op (newest mapping (network_rows s file)) /\
  forall other, other <> network -> bt_get other s' = bt_get other s.
Proof using Type.
  intros Hn Hop Ho. pose proof (entries_read s file Hn) as Hr. assert (Ee : is_empty network = false) by by destruct network.
  destruct op as [target when|old new]; cbn [on_times on_newest times_named] in *; destruct Hop as [H1 H2].
  - unfold playback_note. rw Ee. destruct target as [|x target]; [done|]. cbn [is_empty orb]. apply Z.eqb_neq in H2 as ->.
    destruct (playback_entries s file network) as [s1 rows]. destruct Hr as (-> & Hg & Hother).
    pose proof (noted_newest mapping (network_rows s file) (x :: target) (timestamp_millis when) Ho) as H. cbv zeta in H.
    destruct (noted_rows _ _ _ _) as [rows'|]; cbn [fst from_option] in *.
    + rw rows_cached //. destruct H. split_and!; [done|done|]. intros other Hne. rw bt_get_insert_ne //. by apply Hother.
    + unfold network_rows at 1 2, playback_entries. rw Ee Hg. destruct H. by split_and!.
  - unfold playback_rekey. rw Ee. destruct old as [|x old]; [done|]. destruct new as [|y new]; [done|]. cbn [is_empty orb].
    destruct (playback_entries s file network) as [s1 rows]. destruct Hr as (-> & Hg & Hother).
    pose proof (rekeyed_newest mapping (network_rows s file) (x :: old) (y :: new) Ho) as H. cbv zeta in H.
    destruct (rekeyed_rows _ _ _ _) as [rows'|]; cbn [fst from_option] in *.
    + rw rows_cached //. destruct H. split_and!; [done|done|]. intros other Hne. rw bt_get_insert_ne //. by apply Hother.
    + unfold network_rows at 1 2, playback_entries. rw Ee Hg. destruct H. by split_and!.
Qed.
End Refinement.

Definition toy_json : TimesJson := {| datetime_from_millis ms := Some (ms * nanos_per_milli)%Z; times_from_str _ := None; times_to_string _ := [] |}.
Definition toy_times : PlaybackTimeStore := [(lit "net", [mkPlaybackEntry (lit "Anna") 5; mkPlaybackEntry (lit "bob") 9])].
Definition toy_times_file : SharedFile := mkSharedFile Ephemeral [].

Lemma playback_times_refine_witness :
  let rows st := @network_rows toy_json (lit "net") st.1 st.2 in
  let '(s', file') := @on_times toy_platform toy_json (lit "net") Rfc1459 (RekeyTime (lit "BOB") (lit "anna")) toy_times toy_times_file in
  once Rfc1459 (rows (s', file')) /\
  newest Rfc1459 (rows (s', file')) = on_newest Rfc1459 (RekeyTime (lit "BOB") (lit "anna")) (newest Rfc1459 (rows (toy_times, toy_times_file))) /\
  forall other, other <> lit "net" -> bt_get other s' = bt_get other toy_times.
Proof.
  apply (@playback_times_refine toy_platform toy_json (lit "net") Rfc1459 (RekeyTime (lit "BOB") (lit "anna")) toy_times toy_times_file); [done|done|].
  vm_compute. repeat constructor; set_solver.
Defined.
