(* ===== verification/Playback.v ===== *)
(** * Playback: what a connection missed (src/client/src/controller/playback.rs)

    The playback of a bouncer and the catch-up of CHATHISTORY, asked for once per connection
    from the times the store noted. The coordinator is given the session it writes to and the
    reducer it reads. *)

From S2P Require Import Prelude Text Message CaseMapping ServerFeatures Capability OrdMap SessionTypes Platform Ctcp Typing SessionCore SessionOutbound SessionHistory Presence Events Conversation MembershipNoise Translator ReducerState ReducerTranscript ReducerSplice Reducer ReducerViews Lists PlaybackTime.

Record CatchUpSent := mkCatchUp {
  sent_targets : bool;
  targets_retried : bool;
  asked_targets : btree bool;
  discovered : btree bool;
  targets_lower : option Time;
  targets_extra_pages : N;
}.
#[export] Instance catch_up_eta : Eta CatchUpSent := fun s =>
  mkCatchUp (sent_targets s) (targets_retried s) (asked_targets s) (discovered s) (targets_lower s) (targets_extra_pages s).
Definition no_catch_up : CatchUpSent := mkCatchUp false false [] [] None 0.

Record ZncPlaybackSent := mkZncSent { znc_all : bool; znc_queries : bool; znc_targets : bset }.
#[export] Instance znc_sent_eta : Eta ZncPlaybackSent := fun s => mkZncSent (znc_all s) (znc_queries s) (znc_targets s).
Definition no_znc_sent : ZncPlaybackSent := mkZncSent false false [].

(** [PlaybackCoordinator]; the times are kept beside it. *)
Record PlaybackCoordinator := mkPlayback {
  playback_snapshot : btree (list PlaybackTargetTime);
  znc_playback_sent : btree ZncPlaybackSent;
  znc_autojoin : btree (list str);
  znc_joined_channels : btree (list str);
  catch_up_sent : btree CatchUpSent;
}.
#[export] Instance playback_eta : Eta PlaybackCoordinator := fun p =>
  mkPlayback (playback_snapshot p) (znc_playback_sent p) (znc_autojoin p) (znc_joined_channels p) (catch_up_sent p).
Definition new_playback : PlaybackCoordinator := mkPlayback [] [] [] [] [].

(** The network a session is for, and whether it is registered. *)
Definition session_network (s : Core) : str := SessionTypes.network_id (config s).
Definition is_registered (s : Core) : bool := bool_decide (state s = StRegistered).

(** [(self.send_znc)(session, target, from)] *)
Definition send_znc (s : Core) (target from : str) : Core * bool :=
  send_command s (lit "ZNC *playback PLAY " ++ target ++ lit " " ++ from) [].

Section Playback.
Context `{platform : Platform} `{stores : Stores} `{json : TimesJson}.
Implicit Types (p : PlaybackCoordinator) (r : EventReducer) (s : Core) (times : PlaybackTimeStore) (file : SharedFile).

Definition features_in r (network : str) : IrcServerFeatures := features_of (net_facts r) network.
Definition mapping_in r (network : str) : IrcCaseMapping := mapping_of (net_facts r) network.

(** ** The life of a connection *)

(** [PlaybackCoordinator::on_registered] *)
Definition playback_on_registered (network : str) (autojoin : list str) times file p : PlaybackCoordinator * PlaybackTimeStore :=
  let '(times, rows) := playback_targets times file network in
  (p <| playback_snapshot := bt_insert network rows (playback_snapshot p) |> <| znc_autojoin := bt_insert network autojoin (znc_autojoin p) |>
     <| znc_joined_channels := bt_remove network (znc_joined_channels p) |>, times).

Definition on_left_registration (network : str) p : PlaybackCoordinator :=
  mkPlayback (bt_remove network (playback_snapshot p)) (bt_remove network (znc_playback_sent p)) (bt_remove network (znc_autojoin p))
    (bt_remove network (znc_joined_channels p)) (bt_remove network (catch_up_sent p)).

Definition drop_snapshot (network : str) p : PlaybackCoordinator := p <| playback_snapshot := bt_remove network (playback_snapshot p) |>.

Definition rekeyed_snapshot (rows : list PlaybackTargetTime) (old new : str) (mapping : IrcCaseMapping) : option (list PlaybackTargetTime) :=
  let? index := position (fun row => equals mapping (time_target row) old) rows in
  let? held := rows !! index in
  if equals mapping old new then Some (<[index := mkTargetTime new (time_when held)]> rows)
  else
    let rest := delete index rows in
    match position (fun row => equals mapping (time_target row) new) rest with
    | Some existing =>
        let? row := rest !! existing in
        Some (if negb (time_when held =? MIN_UTC)%Z && ((time_when row =? MIN_UTC)%Z || (time_when row <? time_when held)%Z)
              then <[existing := mkTargetTime (time_target row) (time_when held)]> rest else rest)
    | None => Some (rest ++ [mkTargetTime new (time_when held)])
    end.

(** [PlaybackCoordinator::rekey] *)
Definition rekey_snapshot r (network old new : str) p : PlaybackCoordinator :=
  match bt_get network (playback_snapshot p) with
  | None => p
  | Some rows =>
      if is_empty old || is_empty new then p
      else match rekeyed_snapshot rows old new (mapping_in r network) with
           | Some rows => p <| playback_snapshot := bt_insert network rows (playback_snapshot p) |>
           | None => p
           end
  end.

(** ** What was asked for *)

Definition playback_snapshot_time_with_mapping p (network target : str) (mapping : IrcCaseMapping) : option Time :=
  let? rows := bt_get network (playback_snapshot p) in
  if is_empty target then None
  else time_when <$> (snd <$> list_find (fun row => equals mapping (time_target row) target = true) rows).

Definition playback_snapshot_time p r (network target : str) : option Time :=
  playback_snapshot_time_with_mapping p network target (mapping_in r network).

Definition newest_snapshot p (network : str) : option Time :=
  let? rows := bt_get network (playback_snapshot p) in
  foldl (fun newest row => if (time_when row =? MIN_UTC)%Z then newest else Some (match newest with Some w => Z.max w (time_when row) | None => time_when row end))
    None rows.

Definition snapshot_taken p (network : str) : bool := bt_contains network (playback_snapshot p).

Definition catch_up_of p (network : str) : CatchUpSent := default no_catch_up (bt_get network (catch_up_sent p)).
Definition update_catch_up (network : str) (f : CatchUpSent -> CatchUpSent) p : PlaybackCoordinator :=
  p <| catch_up_sent := bt_insert network (f (catch_up_of p network)) (catch_up_sent p) |>.

Definition catch_up_asked p (network normalized : str) : bool :=
  match bt_get network (catch_up_sent p) with Some sent => default false (bt_get normalized (asked_targets sent)) | None => false end.
Definition mark_catch_up (network normalized : str) p : PlaybackCoordinator :=
  update_catch_up network (fun sent => sent <| asked_targets := bt_insert normalized true (asked_targets sent) |>) p.
Definition mark_catch_up_targets (network : str) p : PlaybackCoordinator := update_catch_up network (fun sent => sent <| sent_targets := true |>) p.

Definition update_znc (network : str) (f : ZncPlaybackSent -> ZncPlaybackSent) p : PlaybackCoordinator :=
  p <| znc_playback_sent := bt_insert network (f (default no_znc_sent (bt_get network (znc_playback_sent p)))) (znc_playback_sent p) |>.
Definition mark_all (network : str) p : PlaybackCoordinator := update_znc network (fun sent => sent <| znc_all := true |>) p.
Definition mark_queries (network : str) p : PlaybackCoordinator := update_znc network (fun sent => sent <| znc_queries := true |>) p.
Definition mark_target (network normalized : str) p : PlaybackCoordinator :=
  update_znc network (fun sent => sent <| znc_targets := bs_insert normalized (znc_targets sent) |>) p.
Definition znc_playback_covers p (network normalized : str) : bool :=
  match bt_get network (znc_playback_sent p) with
  | Some sent => znc_all sent || znc_queries sent || bs_contains normalized (znc_targets sent)
  | None => false
  end.

(** ** The times *)

Definition may_note_playback_time p r (network target : str) (znc_cap : bool) : bool :=
  if is_empty network || is_empty target then false
  else if negb znc_cap then true
  else znc_playback_covers p network (normalized_target (conversation_key r network target)).

(** [PlaybackCoordinator::note_kept_replay], over the lines taken from the reducer. *)
Definition note_kept_line p r (znc_cap : str -> bool) (st : PlaybackTimeStore * SharedFile) (line : KeptReplay) : PlaybackTimeStore * SharedFile :=
  if negb (may_note_playback_time p r (kept_network line) (kept_target line) (znc_cap (kept_network line))) then st
  else (playback_note st.1 st.2 (kept_network line) (kept_target line) (kept_server_time line) (mapping_in r (kept_network line))).1.

(** What the target of a live line is, when its time is noted (the guards of [note_playback_clock]). *)
Definition clock_target r (network : str) (message : IrcMessage) (current_nick : str) : option (str * bool) :=
  let features := features_in r network in
  let wire_target := text_param message 0 in
  let? _ := conversation_for network wire_target message current_nick features in
  let sender := prefix_nick message in
  let channel := is_channel features wire_target in
  let self_line := equals (case_mapping features) sender current_nick in
  let display_target := if channel || self_line then wire_target else sender in
  if is_empty display_target then None
  else if negb channel && (negb (nick_is_routable display_target) || target_looks_like_service display_target features) then None
  else Some (display_target, self_line).

Definition is_other_ctcp (body : str) : bool :=
  match parse_ctcp_request body with Some ctcp => negb (eq_ignore_ascii_case (ctcp_command ctcp) (lit "ACTION")) | None => false end.

(** [PlaybackCoordinator::note_playback_clock] *)
Definition note_playback_clock p r (network : str) (message : IrcMessage) (current_nick : str) (znc_cap : bool) times file
    : PlaybackTimeStore * SharedFile :=
  let unchanged := (times, file) in
  if is_empty network || negb (str_eqb (msg_command message) (lit "PRIVMSG")) || (length (msg_params message) <? 2)%nat then unchanged
  else
    let?? when := server_time_of message else unchanged in
    if is_other_ctcp (text_param message 1) then unchanged
    else
      let?? (target, self_line) := clock_target r network message current_nick else unchanged in
      if self_line && bool_decide (find r (conversation_key r network target) = None) then unchanged
      else if negb (may_note_playback_time p r network target znc_cap) then unchanged
      else (playback_note times file network target when (mapping_in r network)).1.

Definition after_bound (bound_ms : Z) (line : ReplayLine) : bool :=
  match timestamp_millis <$> replay_server_time line with
  | None => true
  | Some ms => if (bound_ms <? ms)%Z then true else if (ms <? bound_ms)%Z then false else negb (is_empty (replay_msgid line))
  end.

(** [PlaybackCoordinator::trim_bouncer_batch] *)
Definition trim_bouncer_batch p (network : str) r (event : HistoryEvent) : HistoryEvent :=
  match bt_get network (znc_playback_sent p) with
  | Some sent =>
      if negb (znc_queries sent) then event
      else match playback_snapshot_time p r network (history_target event) with
           | None => event
           | Some bound => event <| history_lines := base.filter (fun line => after_bound (timestamp_millis bound) line = true) (history_lines event) |>
           end
  | None => event
  end.

Definition note_joined_channel r (network channel : str) p : PlaybackCoordinator :=
  if is_empty network || is_empty channel then p
  else
    let channels := default [] (bt_get network (znc_joined_channels p)) in
    p <| znc_joined_channels :=
      bt_insert network (if existsb (fun existing => equals (mapping_in r network) existing channel) channels then channels else channels ++ [channel])
        (znc_joined_channels p) |>.

(** The resume point of a channel: the snapshot, or before it is taken what the store holds. *)
Definition history_resume_instant p (network target : str) (mapping : IrcCaseMapping) times file : option Time :=
  match playback_snapshot_time_with_mapping p network target mapping with
  | Some when => Some when
  | None => if snapshot_taken p network then None else playback_noted times file network target mapping
  end.

Definition persistable_direct_target r (network target : str) : bool :=
  if is_empty network || is_empty target then false
  else if is_channel (features_in r network) target then false
  else negb (target_looks_like_service target (features_in r network)).
End Playback.

(** ** what the playback coordinator asks a session for
    (src/client/src/controller/playback.rs)

    Each request is made once per connection: what was asked is marked, and a write the
    session refuses ends the round. *)

Section Requests.
Context `{platform : Platform} `{stores : Stores}.
Implicit Types (p : PlaybackCoordinator) (r : EventReducer) (s : Core).

(** ** The bouncer's playback *)

(** A round over targets: the coordinator, the session, and whether the round goes on. *)
Definition Round : Type := PlaybackCoordinator * Core * bool.

(** Asks for one target, unless the round has ended, the target is left out, or what was asked
    covers it. *)
Definition play_target r (skip : bool) (target from normalized : str) (round : Round) : Round :=
  let '(p, s, go) := round in
  if negb go then round
  else if skip || znc_playback_covers p (session_network s) normalized then round
  else
    let '(s, sent) := send_znc s target from in
    if sent then (mark_target (session_network s) normalized p, s, true) else (p, s, false).

Definition play_row r (round : Round) (row : PlaybackTargetTime) : Round :=
  play_target r false (time_target row) (play_stamp_at (time_when row) true)
    (normalized_target (conversation_key r (session_network round.1.2) (time_target row))) round.

Definition play_direct r (round : Round) (nick : str) : Round :=
  let network := session_network round.1.2 in
  let key := conversation_key r network nick in
  let skip := negb (persistable_direct_target r network nick) || bool_decide (is_Some (playback_snapshot_time round.1.1 r network nick))
    || bool_decide (find r key = None) in
  play_target r skip nick (lit "0") (normalized_target key) round.

Definition play_autojoin r (round : Round) (channel : str) : Round :=
  let network := session_network round.1.2 in
  let skip := is_empty channel || negb (is_channel (features_in r network) channel)
    || bool_decide (is_Some (playback_snapshot_time round.1.1 r network channel)) in
  play_target r skip channel (lit "0") (normalized_target (conversation_key r network channel)) round.

(** The one request for everything else. *)
Definition play_everything (mark : str -> PlaybackCoordinator -> PlaybackCoordinator) (wanted : bool) (round : Round) : Round :=
  let '(p, s, go) := round in
  if negb go || negb wanted then round
  else
    let '(s, sent) := send_znc s (lit "*") (lit "0") in
    if sent then (mark (session_network s) p, s, true) else (p, s, false).

Definition may_play s (znc_cap motd_seen : bool) : bool := is_registered s && motd_seen && znc_cap.

(** [PlaybackCoordinator::request_channel_playback] *)
Definition request_channel_playback r (channel : str) (znc_cap motd_seen : bool) (st : PlaybackCoordinator * Core) : PlaybackCoordinator * Core :=
  let '(p, s) := st in
  let network := session_network s in
  if is_empty channel || negb (may_play s znc_cap motd_seen) then st
  else if negb (is_channel (features_in r network) channel) then st
  else if playback_batch_kept r network channel then st
  else
    let stamp := match playback_snapshot_time p r network channel with Some when => play_stamp_at when true | None => lit "0" end in
    let '(s, sent) := send_znc s channel stamp in
    if sent then (mark_target network (normalized_target (conversation_key r network channel)) p, s) else (p, s).

Definition znc_sent_of p (network : str) : ZncPlaybackSent := default no_znc_sent (bt_get network (znc_playback_sent p)).

(** [PlaybackCoordinator::request] *)
Definition request_playback r (znc_cap motd_seen : bool) (restored_directs : list str) (st : PlaybackCoordinator * Core) : PlaybackCoordinator * Core :=
  let '(p, s) := st in
  let network := session_network s in
  if negb (may_play s znc_cap motd_seen) then st
  else if znc_all (znc_sent_of p network) then st
  else
    let stored := default [] (bt_get network (playback_snapshot p)) in
    let '(p, s, go) :=
      match stored with
      | [] => play_everything mark_all (is_empty (znc_targets (znc_sent_of p network))) (p, s, true)
      | _ =>
          let round := foldl (play_row r) (p, s, true) stored in
          let round := foldl (play_direct r) round restored_directs in
          let round := foldl (play_autojoin r) round (default [] (bt_get network (znc_autojoin round.1.1))) in
          play_everything mark_queries (negb (znc_queries (znc_sent_of round.1.1 network))) round
      end in
    if negb go then (p, s)
    else foldl (fun st channel => request_channel_playback r channel znc_cap motd_seen st) (p, s) (default [] (bt_get network (znc_joined_channels p))).

(** ** The catch-up of CHATHISTORY *)

(** From the snapshot's time of the target, or from its end. *)
Definition request_from_snapshot p r (target : str) s : Core * bool :=
  match playback_snapshot_time p r (session_network s) target with
  | Some when => request_history_after s target when
  | None => request_history_latest s target
  end.

Definition catch_up_direct r (st : PlaybackCoordinator * Core) (nick : str) : PlaybackCoordinator * Core :=
  let '(p, s) := st in
  let network := session_network s in
  let key := conversation_key r network nick in
  if negb (persistable_direct_target r network nick) then st
  else if bool_decide (find r key = None) || catch_up_asked p network (normalized_target key) then st
  else
    let '(s, sent) := request_from_snapshot p r nick s in
    if sent then (mark_catch_up network (normalized_target key) p, s) else (p, s).

(** The year 9999, when the clock stands before the snapshot. *)
Definition FAR_FUTURE : Time := (253370764800 * 1000 * nanos_per_milli)%Z.

(** [PlaybackCoordinator::request_catch_up] *)
Definition request_catch_up r (chat_history motd_seen : bool) (restored_directs : list str) (now : Time) (st : PlaybackCoordinator * Core)
    : PlaybackCoordinator * Core :=
  let '(p, s) := st in
  let network := session_network s in
  if negb (is_registered s && motd_seen && chat_history) then st
  else if sent_targets (catch_up_of p network) then st
  else
    let '(p, s) := foldl (catch_up_direct r) (p, s) restored_directs in
    match newest_snapshot p network with
    | None => (mark_catch_up_targets network p, s)
    | Some newest =>
        if (now =? MIN_UTC)%Z then (mark_catch_up_targets network p, s)
        else
          let lower := (newest - from_secs 1)%Z in
          let upper := (now + from_secs 10)%Z in
          let upper := if (lower <? upper)%Z then upper else FAR_FUTURE in
          let '(s, sent) := request_history_targets s lower upper in
          if sent then (update_catch_up network (fun c => c <| sent_targets := true |> <| targets_lower := Some lower |>) p, s) else (p, s)
    end.

(** ** The rows of a TARGETS answer *)

Definition Discovery : Type := PlaybackCoordinator * Core * EventReducer * nat.

(** A row that names a direct message worth looking at. *)
Definition worth_catching_up p r (features : IrcServerFeatures) (network name current_nick : str) (dismissed : list str) : bool :=
  let mapping := case_mapping features in
  negb (is_empty name || is_channel features name)
  && negb (negb (nick_is_routable name) || target_looks_like_service name features)
  && negb (negb (is_empty current_nick) && equals mapping name current_nick)
  && negb (contains_value dismissed name mapping)
  && negb (catch_up_asked p network (normalized_target (conversation_key r network name))).

(** A query that is not open: it is created, and dropped again when nothing can be asked. *)
Definition discover_new (name : str) (key : ConversationKey) (newest : option Time) (st : Discovery) : Discovery :=
  let '(p, s, r, created) := st in
  let network := session_network s in
  match newest with
  | None => st
  | Some newest =>
      if negb (persistable_direct_target r network name) then st
      else
        let '(r, made) := ensure_conversation key name InboundOther r in
        if is_none made then (p, s, r, created)
        else
          let bound := default (newest - from_secs 1)%Z (playback_snapshot_time p r network name) in
          let '(s, sent) := request_history_after s name bound in
          if negb sent then
            let empty := match find r key with Some c => is_empty (messages c) | None => false end in
            (p, s, if empty then (drop_direct_message key r).1 else r, created)
          else
            let p := mark_catch_up network (normalized_target key) p in
            let p := update_catch_up network (fun c => c <| discovered := bt_insert (normalized_target key) true (discovered c) |>) p in
            (p, s, r, S created)
  end.

Definition discover_row (features : IrcServerFeatures) (current_nick : str) (restored dismissed : list str) (newest : option Time)
    (st : Discovery) (row : HistoryTarget) : Discovery :=
  let '(p, s, r, created) := st in
  let network := session_network s in
  let name := history_target_name row in
  let key := conversation_key r network name in
  if negb (worth_catching_up p r features network name current_nick dismissed) then st
  else if bool_decide (find r key = None) then
    if contains_value restored name (case_mapping features) then st else discover_new name key newest st
  else
    let '(s, sent) := request_from_snapshot p r name s in
    (if sent then mark_catch_up network (normalized_target key) p else p, s, r, created).

(** [PlaybackCoordinator::note_discovered_targets] *)
Definition note_discovered_targets (targets : list HistoryTarget) (current_nick : str) (restored dismissed : list str)
    (st : PlaybackCoordinator * Core * EventReducer) : Discovery :=
  let '(p, s, r) := st in
  if negb (is_registered s) then (p, s, r, 0%nat)
  else
    let network := session_network s in
    foldl (discover_row (features_in r network) current_nick restored dismissed (newest_snapshot p network)) (p, s, r, 0%nat) targets.

Definition oldest_latest (targets : list HistoryTarget) : option Time :=
  foldl (fun oldest row =>
    match latest row, oldest with
    | Some found, Some current => if (found <? current)%Z then Some found else oldest
    | Some found, None => Some found
    | None, _ => oldest
    end) None targets.

(** [PlaybackCoordinator::note_targets_page] *)
Definition note_targets_page (targets : list HistoryTarget) (history_ended : bool) (limit : N) (st : PlaybackCoordinator * Core) : PlaybackCoordinator * Core :=
  let '(p, s) := st in
  let network := session_network s in
  if (limit =? 0) || history_ended || (blen targets <? limit) then st
  else
    let sent := catch_up_of p network in
    match targets_lower sent, oldest_latest targets with
    | Some lower, Some oldest =>
        if negb (targets_extra_pages sent <? 2) || negb (lower <? oldest)%Z then st
        else
          let '(s, asked) := request_history_targets s lower oldest in
          if asked then (update_catch_up network (fun c => c <| targets_extra_pages := targets_extra_pages sent + 1 |>) p, s) else (p, s)
    | _, _ => st
    end.

(** [PlaybackCoordinator::retry_targets] *)
Definition retry_targets (network : str) p : PlaybackCoordinator * bool :=
  match bt_get network (catch_up_sent p) with
  | None => (p, false)
  | Some sent => if targets_retried sent then (p, false) else (update_catch_up network (fun c => c <| targets_retried := true |> <| sent_targets := false |>) p, true)
  end.

Definition was_discovered p r (network target : str) : bool :=
  if is_empty target then false
  else match bt_get network (catch_up_sent p) with
       | Some sent => default false (bt_get (normalized_target (conversation_key r network target)) (discovered sent))
       | None => false
       end.
End Requests.
