(* ===== verification/Profiles.v ===== *)
(** * Profiles: the saved networks and the preferences
    (src/client/src/storage/profilestore.rs, preferences.rs)

    One group of the settings file for each saved network, and one for the preferences, the
    order of the sidebar and auto-away. A store holds no state of its own: it reads the file
    afresh, and a save is one edit of it. What is saved is what the next start loads. *)

From Stdlib Require Import Sorting.Sorted.
From stdpp Require Import sorting.
From S2P Require Import Prelude Text OrdMap SessionTypes Platform Sts SettingsIni SettingsValues Settings SettingsAccess SettingsLines SettingsFile SettingsProperties Lists ListsProperties.
From S2P Require Import MembershipNoise Command Autoaway.

(** ** A profile (profilestore.rs) *)

Definition NETWORKS_GROUP : str := lit "networks".
Definition ICON_COLOR_COUNT : N := 5.
Definition DEFAULT_PORT : N := 6697.

Record Profile := mkProfile {
  profile_id : str;
  profile_name : str;
  profile_host : str;
  profile_port : N;
  profile_tls : bool;
  connect_on_startup : bool;
  secret_saved : bool;
  nickserv_saved : bool;
  profile_nick : str;
  profile_username : str;
  profile_realname : str;
  profile_account : str;
  bouncer_network : str;
  saved_autojoin_channels : list str;
  saved_autojoin_keys : btree str;
  icon_color : option N;
  avatar_url : str;
}.
#[export] Instance profile_eta : Eta Profile := fun p =>
  mkProfile (profile_id p) (profile_name p) (profile_host p) (profile_port p) (profile_tls p) (connect_on_startup p) (secret_saved p) (nickserv_saved p)
    (profile_nick p) (profile_username p) (profile_realname p) (profile_account p) (bouncer_network p) (saved_autojoin_channels p) (saved_autojoin_keys p)
    (icon_color p) (avatar_url p).

#[export] Instance Profile_eq_dec : EqDecision Profile.
Proof. solve_decision. Defined.

Inductive ProfileProblem :=
| MissingHost | InvalidPort | MissingNick | UnsendableIdentity | UnsendableAccount | UnsendableBouncerNetwork | UnsendableChannel.

Definition contains_forbidden (text : str) : bool := existsb (fun c => (c =? 13) || (c =? 10) || (c =? 0)) text.
Definition single_field (text : str) : bool := negb (is_empty text) && negb (contains_forbidden text) && negb (existsb (N.eqb (chr " ")) text).
Definition fits_one_login_field (value : str) : bool := negb (existsb (fun c => is_whitespace c || (c =? 0) || (c =? chr "/")) value).
Definition join_field (text : str) : bool :=
  negb (is_empty text) && negb (bool_decide (head text = Some (chr ":"))) && negb (existsb (fun c => is_whitespace c || (c =? chr ",") || (c =? 0)) text).

Section Profiles.
Implicit Types (p : Profile).

(** [Profile::sasl_account] *)
Definition sasl_account p : str :=
  let account := trim (profile_account p) in
  let name := if is_empty account then trim (profile_nick p) else account in
  let bouncer := trim (bouncer_network p) in
  if is_empty bouncer then name else name ++ lit "/" ++ bouncer.

Definition resolved_name p : str := let name := trim (profile_name p) in if is_empty name then trim (profile_host p) else name.

(** The identity part of [Profile::problem], with the nick the blank names fall back to. *)
Definition identity_problem p : bool :=
  let nick := trim (profile_nick p) in
  let username := trim (profile_username p) in
  let realname := trim (profile_realname p) in
  if is_empty username && is_empty realname then false
  else
    let user := if is_empty username then nick else username in
    let real := if is_empty realname then nick else realname in
    negb (single_field user) || is_empty real || contains_forbidden real.

Definition problem p : option ProfileProblem :=
  let nick := trim (profile_nick p) in
  if is_empty (trim (profile_host p)) then Some MissingHost
  else if profile_port p =? 0 then Some InvalidPort
  else if is_empty nick then Some MissingNick
  else if negb (single_field nick) then Some UnsendableIdentity
  else if identity_problem p then Some UnsendableIdentity
  else if negb (fits_one_login_field (trim (profile_account p))) then Some UnsendableAccount
  else if negb (fits_one_login_field (trim (bouncer_network p))) then Some UnsendableBouncerNetwork
  else if existsb (fun channel => negb (join_field channel)) (saved_autojoin_channels p) then Some UnsendableChannel
  else None.

Definition is_complete p : bool := match problem p with None => true | Some _ => false end.
End Profiles.

(** ** The profile store (profilestore.rs) *)

Definition network_group (id : str) : str := NETWORKS_GROUP ++ lit "/" ++ id.

(** One channel of [load_autojoin_keys]. *)
Definition load_key (names values : list str) (keys : btree str) (channel : str) : btree str :=
  let fits (row : str * str) := negb (is_empty row.1) && negb (is_empty row.2) && eq_ignore_ascii_case row.1 channel in
  match List.find fits (zip names values) with Some (_, value) => bt_insert channel value keys | None => keys end.

Definition load_autojoin_keys (channels names values : list str) : btree str :=
  if negb (length names =? length values)%nat then [] else foldl (load_key names values) [] channels.

(** [Backing::edit] of the file, which takes the next write's answer. *)
Definition edit_file (change : Settings -> Settings) (file : SharedFile) : SharedFile * Status :=
  let '(backing, status) := edit (shared_backing file) change (default true (head (shared_lands file))) in
  (mkSharedFile backing (tail (shared_lands file)), status).

Definition file_settings (file : SharedFile) : Settings := backing_settings (shared_backing file).

Section Store.
Context `{platform : Platform}.

Definition read_profile (s : Settings) (id : str) : Profile :=
  let group := network_group id in
  let host := value s group (lit "host") in
  let stored_name := value s group (lit "name") in
  let port := uint_value s group (lit "port") DEFAULT_PORT in
  let channels := default [] (string_list s group (lit "autojoin")) in
  let key_channels := default [] (string_list s group (lit "autojoinKeyChannels")) in
  let key_values := default [] (string_list s group (lit "autojoinKeyValues")) in
  let icon := int_value s group (lit "iconColor") (-1) in
  mkProfile id (if is_empty (trim stored_name) then host else stored_name) host (if port <=? 65535 then port else DEFAULT_PORT)
    (bool_value s group (lit "tls") true) (bool_value s group (lit "connectOnStartup") false)
    (bool_value s group (lit "secretSaved") false) (bool_value s group (lit "nickServSaved") false)
    (value s group (lit "nick")) (value s group (lit "username")) (value s group (lit "realname")) (value s group (lit "account"))
    (value s group (lit "bouncerNetwork")) channels (load_autojoin_keys channels key_channels key_values)
    (if (0 <=? icon)%Z && (icon <? Z.of_N ICON_COLOR_COUNT)%Z then Some (Z.to_N icon) else None) (value s group (lit "avatarUrl")).

Definition set_when (test : bool) (set : Settings -> Settings) (s : Settings) : Settings := if test then set s else s.

Definition write_profile (group : str) (p : Profile) (s : Settings) : Settings :=
  let s := set_when (negb (is_empty (trim (profile_name p)))) (fun s => set_value s group (lit "name") (profile_name p)) s in
  let s := set_value s group (lit "host") (profile_host p) in
  let s := set_uint s group (lit "port") (profile_port p) in
  let s := set_bool s group (lit "tls") (profile_tls p) in
  let s := set_bool s group (lit "connectOnStartup") (connect_on_startup p) in
  let s := set_bool s group (lit "secretSaved") (secret_saved p) in
  let s := set_bool s group (lit "nickServSaved") (nickserv_saved p) in
  let s := set_value s group (lit "nick") (profile_nick p) in
  let s := set_value s group (lit "username") (profile_username p) in
  let s := set_value s group (lit "realname") (profile_realname p) in
  let s := set_value s group (lit "account") (profile_account p) in
  let s := set_value s group (lit "bouncerNetwork") (bouncer_network p) in
  let s := set_string_list s group (lit "autojoin") (saved_autojoin_channels p) in
  let keys := saved_autojoin_keys p in
  let s := set_when (negb (is_empty keys)) (fun s =>
    set_string_list (set_string_list s group (lit "autojoinKeyChannels") keys.*1) group (lit "autojoinKeyValues") keys.*2) s in
  let s := match icon_color p with
    | Some color => set_when (color <? ICON_COLOR_COUNT) (fun s => set_int s group (lit "iconColor") (Z.of_N color)) s
    | None => s
    end in
  set_when (negb (is_empty (avatar_url p))) (fun s => set_value s group (lit "avatarUrl") (avatar_url p)) s.

(** [ProfileStore::profiles], [save], [preflight_remove] and [remove] *)
Definition profiles (file : SharedFile) : list Profile := read_profile (file_settings file) <$> child_groups (file_settings file) NETWORKS_GROUP.

Definition save_profile (p : Profile) (file : SharedFile) : SharedFile * Status :=
  if is_empty (profile_id p) then (file, Absent)
  else edit_file (fun s => write_profile (network_group (profile_id p)) p (remove_group s (network_group (profile_id p)))) file.

Definition preflight_remove (id : str) (file : SharedFile) : Status :=
  match shared_backing file with
  | Ephemeral => Absent
  | Disk node =>
      if is_empty id || negb (node_exists node) then Absent
      else match probe_ini node with
      | Malformed => FormatError
      | Unreadable => AccessError
      | ProbeOk =>
          if negb (bool_decide (write_blocked node = Written)) then write_blocked node
          else if negb (bool_decide (id ∈ child_groups (open_settings node) NETWORKS_GROUP)) then Absent else Written
      end
  end.

Definition remove_profile (id : str) (file : SharedFile) : SharedFile * Status :=
  match preflight_remove id file with
  | Written =>
      match shared_backing file with
      | Ephemeral => (file, Absent)
      | Disk node =>
          let '(_, node, status) := sync (remove_group (open_settings node) (network_group id)) node (default true (head (shared_lands file))) in
          (mkSharedFile (Disk node) (tail (shared_lands file)), status)
      end
  | status => (file, status)
  end.

(** ** The preferences (preferences.rs) *)

Definition PREFERENCES_GROUP : str := lit "preferences".
Definition REOPEN_DIRECTS_KEY : str := lit "reopenDirectMessages".
Definition LOAD_AVATARS_KEY : str := lit "loadPeerAvatars".
Definition OPEN_AT_UNREAD_KEY : str := lit "openConversationsAtUnread".
Definition SHOW_IRC_COLORS_KEY : str := lit "showIrcColors".
Definition MEMBERSHIP_NOISE_KEY : str := lit "membershipNoise".
Definition COLOR_PALETTE_KEY : str := lit "colorPalette".
Definition NETWORK_ORDER_KEY : str := lit "networkOrder".
Definition COLLAPSED_NETWORKS_KEY : str := lit "collapsedNetworks".
Definition AUTOAWAY_ENABLED_KEY : str := lit "autoawayEnabled".
Definition AUTOAWAY_TIMEOUT_KEY : str := lit "autoawayTimeoutSeconds".
Definition AUTOAWAY_REASON_KEY : str := lit "autoawayDefaultReason".

Definition preferences (s : Settings) : Preferences :=
  let switch key fallback := bool_value s PREFERENCES_GROUP key fallback in
  mkPrefs (switch REOPEN_DIRECTS_KEY (directs default_preferences)) (switch LOAD_AVATARS_KEY (avatars default_preferences))
    (switch OPEN_AT_UNREAD_KEY (unread_mark default_preferences)) (switch SHOW_IRC_COLORS_KEY (colors default_preferences))
    (default (joins default_preferences) (noise_from_token (value s PREFERENCES_GROUP MEMBERSHIP_NOISE_KEY)))
    (default (palette default_preferences) (palette_from_token (value s PREFERENCES_GROUP COLOR_PALETTE_KEY))).

Definition write_preferences (prefs : Preferences) (s : Settings) : Settings :=
  let s := set_bool s PREFERENCES_GROUP REOPEN_DIRECTS_KEY (directs prefs) in
  let s := set_bool s PREFERENCES_GROUP LOAD_AVATARS_KEY (avatars prefs) in
  let s := set_bool s PREFERENCES_GROUP OPEN_AT_UNREAD_KEY (unread_mark prefs) in
  let s := set_bool s PREFERENCES_GROUP SHOW_IRC_COLORS_KEY (colors prefs) in
  let s := set_value s PREFERENCES_GROUP MEMBERSHIP_NOISE_KEY (noise_token (joins prefs)) in
  set_value s PREFERENCES_GROUP COLOR_PALETTE_KEY (palette_token (palette prefs)).
Definition save_preferences (prefs : Preferences) : SharedFile -> SharedFile * Status := edit_file (write_preferences prefs).

(** [PreferenceStore::list], and [network_order] and [collapsed_networks] through it *)
Definition preference_list (s : Settings) (key : str) : list str :=
  base.filter (fun id => is_empty id = false) (default [] (string_list s PREFERENCES_GROUP key)).
Definition saved_network_order (s : Settings) : list str := preference_list s NETWORK_ORDER_KEY.
Definition collapsed_networks (s : Settings) : list str := preference_list s COLLAPSED_NETWORKS_KEY.

Definition apply_preference_list (key : str) (l : list str) (s : Settings) : Settings :=
  if is_empty l then remove_key s PREFERENCES_GROUP key else set_string_list s PREFERENCES_GROUP key l.
Definition save_network_order (ids : list str) : SharedFile -> SharedFile * Status := edit_file (apply_preference_list NETWORK_ORDER_KEY ids).
Definition save_collapsed_networks (ids : list str) : SharedFile -> SharedFile * Status := edit_file (apply_preference_list COLLAPSED_NETWORKS_KEY ids).

(** [PreferenceStore::forget_network]: one write for the profile, the order and the folded networks. *)
Definition forget_saved_network (id : str) (with_profile : bool) (order collapsed : list str) : SharedFile -> SharedFile * Status :=
  edit_file (fun s =>
    let s := set_when (with_profile && negb (is_empty id)) (fun s => remove_group s (network_group id)) s in
    apply_preference_list COLLAPSED_NETWORKS_KEY collapsed (apply_preference_list NETWORK_ORDER_KEY order s)).

Definition saved_autoaway (s : Settings) : AutoawayConfig :=
  mkAutoawayConfig (bool_value s PREFERENCES_GROUP AUTOAWAY_ENABLED_KEY false) (int_value s PREFERENCES_GROUP AUTOAWAY_TIMEOUT_KEY 0)
    (value s PREFERENCES_GROUP AUTOAWAY_REASON_KEY) [].
Definition write_autoaway (config : AutoawayConfig) (s : Settings) : Settings :=
  let s := set_bool s PREFERENCES_GROUP AUTOAWAY_ENABLED_KEY (away_enabled config) in
  let s := set_int s PREFERENCES_GROUP AUTOAWAY_TIMEOUT_KEY (timeout_seconds config) in
  set_value s PREFERENCES_GROUP AUTOAWAY_REASON_KEY (default_reason config).
Definition save_autoaway (config : AutoawayConfig) : SharedFile -> SharedFile * Status := edit_file (write_autoaway config).
End Store.

(** ** Reading a group after it was written *)

Section Puts.
Context (group : str).
Implicit Types (s : Settings) (entries : list (str * IniValue)).

Definition puts entries s : Settings := foldl (fun s entry => put s (settings_key group entry.1) entry.2) s entries.

Fixpoint entry_for (key : str) entries : option IniValue :=
  match entries with
  | [] => None
  | (k, v) :: entries => if str_eqb k key then Some v else entry_for key entries
  end.

Lemma entry_for_app key l l' : entry_for key (l ++ l') = match entry_for key l with Some v => Some v | None => entry_for key l' end.
Proof using Type. induction l as [|[k v] l IH]; [done|]. cbn. by destruct (str_eqb k key). Qed.

Lemma entry_for_out key entries : key ∉ entries.*1 -> entry_for key entries = None.
Proof using Type.
  induction entries as [|[k v] l IH]; [done|]. cbn. intros [Hne Hn]%not_elem_of_cons. rw str_eqb_ne; [congruence|by apply IH].
Qed.

Lemma key_path_inj key key' : group <> [] -> settings_key group key = settings_key group key' -> key = key'.
Proof using Type. intros Hg. unfold settings_key. destruct group; [done|]. cbn [is_empty]. by intros ?%app_inv_head%app_inv_head. Qed.

Lemma puts_get key entries s :
  group <> [] -> NoDup entries.*1 ->
  bt_get (settings_key group key) (values (puts entries s)) =
    match entry_for key entries with Some v => Some v | None => bt_get (settings_key group key) (values s) end.
Proof using Type.
  intros Hg. revert s. induction entries as [|[k v] l IH]; intros s Hd; [done|]. cbn in Hd |- *. apply NoDup_cons in Hd as [Hn Hd]. fold (puts l (put s (settings_key group k) v)).
  rw IH // put_get. destruct (decide (k = key)) as [->|Hne].
  - by rw entry_for_out // !str_eqb_refl.
  - rw (str_eqb_ne k key) // (str_eqb_ne (settings_key group k)) //. intros E. by apply Hne, key_path_inj.
Qed.

Lemma puts_outside path entries s :
  group <> [] -> Forall (fun key => in_group group (settings_key group key) = true) entries.*1 -> in_group group path = false ->
  bt_get path (values (puts entries s)) = bt_get path (values s).
Proof using Type.
  intros Hg He Hp. revert s. induction entries as [|[k v] l IH]; intros s; [done|]. cbn in He |- *. apply Forall_cons in He as [Hk He].
  fold (puts l (put s (settings_key group k) v)). rw IH // put_get str_eqb_ne //. intros <-. congruence.
Qed.

Lemma key_in_group key : group <> [] -> in_group group (settings_key group key) = true.
Proof using Type. intros Hg. apply in_group_spec. right. exists key. unfold settings_key. by destruct group. Qed.

Lemma puts_edited loaded entries s :
  Forall (fun entry => storable (settings_key group entry.1) = true /\ scalar_value entry.2 = true) entries -> edited loaded s -> edited loaded (puts entries s).
Proof using Type. intros He. revert s. induction He as [|[k v] l [H1 H2] He IH]; intros s Hs; [done|]. cbn. apply IH. by apply edited_put. Qed.
End Puts.

(** ** An edit that lands *)

Lemma edit_file_lands change file :
  usable file -> default true (head (shared_lands file)) = true -> edited (file_settings file) (change (file_settings file)) ->
  exists file', edit_file change file = (file', Written) /\ usable file' /\
    forall path, bt_get path (values (file_settings file')) = reread <$> bt_get path (values (change (file_settings file))).
Proof.
  intros (node & Hn & Hw & Hg) Hl He. unfold edit_file, file_settings in *. rw Hl Hn. rw Hn in He. cbn [backing_settings] in He |- *.
  destruct (edit_lands node change) as (node' & -> & Hw' & Hg' & Hv); [done..|].
  eexists. split_and!; [done|by exists node'|done].
Qed.

(** What was in the file reads back as it is. *)
Lemma file_settled file path : usable file -> reread <$> bt_get path (values (file_settings file)) = bt_get path (values (file_settings file)).
Proof. intros (node & Hn & _). unfold file_settings. rw Hn. apply settled_get, (rd_settled _ open_settings_reader). Qed.

Lemma file_good file : usable file -> good_store (file_settings file).
Proof. intros (node & Hn & _ & Hg). unfold file_settings. by rw Hn. Qed.

(** A list that is read back as it was written. *)
Definition read_back (l : list str) : bool := match l with [text] => tidy_value text | _ => forallb (forallb is_scalar) l end.

Lemma read_back_list l : read_back l = true -> list_of (reread <$> Some (IniList l)) = l.
Proof.
  destruct l as [|text [|text' l]]; [done| |done]. intros H. pose proof (tidy_found [text]) as Hf. cbn in H, Hf. rw H in Hf. specialize (Hf ltac:(done) eq_refl).
  cbn in *. unfold found_list in Hf. cbv zeta in Hf. destruct (is_empty _); [done|]. by injection Hf.
Qed.

Lemma read_back_scalar l : read_back l = true -> scalar_value (IniList l) = true.
Proof. destruct l as [|text [|text' l]]; [done| |done]. intros [_ H]%andb_true_iff. cbn in *. by rw H. Qed.

(** ** The map of channel keys *)

Lemma as_bytes_inj a b : forallb is_scalar a = true -> forallb is_scalar b = true -> as_bytes a = as_bytes b -> a = b.
Proof. intros Ha Hb E. apply from_utf8_as_bytes in Ha, Hb. congruence. Qed.

Lemma bytes_ltb_total a b : bytes_ltb a b = false -> bytes_ltb b a = false -> a = b.
Proof.
  revert b. induction a as [|x a IH]; intros [|y b]; [done..|]. cbn. intros H1 H2. assert (x = y) as -> by lia. rw N.eqb_refl in H1, H2. f_equal. apply IH; lia.
Qed.

(** Two tables with the same answers are the same table. *)
Lemma table_ext {V} (m m' : btree V) :
  table m -> table m' -> (forall k v, (k, v) ∈ m -> forallb is_scalar k = true) -> (forall k, bt_get k m = bt_get k m') -> m = m'.
Proof.
  intros [Ho Hd] [Ho' Hd'] Hs He.
  assert (Hnd : forall l : btree V, NoDup (bt_keys l) -> NoDup l) by (intros l; apply NoDup_fmap_1).
  assert (Hp : m ≡ₚ m').
  { apply NoDup_Permutation; [by apply Hnd..|]. intros [k v]. by rw -!bt_get_elem_iff // He. }
  assert (Hsort : forall l : btree V, ordered l -> StronglySorted (fun a b => key_ltb b.1 a.1 = false) l).
  { induction l as [|e l IH]; intros H; [constructor|]. apply StronglySorted_inv in H as [H1 H2]. constructor; [by apply IH|].
    apply Forall_forall. intros e' He'. apply (proj1 (Forall_forall _ _) H2). by apply list_elem_of_fmap_2. }
  eapply StronglySorted_unique_strong; [|by apply Hsort|by apply Hsort|done]. intros [k v] [k' v'] H1 H2 H3 H4. cbn in *. rw -Hp in H2.
  assert (k = k') as ->.
  { apply as_bytes_inj; [by eapply Hs|by eapply Hs|]. by apply bytes_ltb_total. }
  apply bt_elem_get in H1, H2; [|done..]. congruence.
Qed.

(** The keys of a session: each channel once, in a spelling no other channel shares. *)
Record keyed (channels : list str) (keys : btree str) : Prop := {
  keyed_table : table keys;
  keyed_rows channel value : (channel, value) ∈ keys -> channel <> [] /\ value <> [] /\ channel ∈ channels;
  keyed_names channel name : channel ∈ channels -> name ∈ bt_keys keys -> eq_ignore_ascii_case name channel = true -> name = channel;
}.

Lemma find_key (keys : btree str) channel :
  (forall name value, (name, value) ∈ keys -> name <> [] /\ value <> []) ->
  (forall name, name ∈ bt_keys keys -> eq_ignore_ascii_case name channel = true -> name = channel) ->
  List.find (fun row => negb (is_empty row.1) && negb (is_empty row.2) && eq_ignore_ascii_case row.1 channel) keys = pair channel <$> bt_get channel keys.
Proof.
  induction keys as [|[name value] keys IH]; intros Hr Hn; [done|]. unfold bt_get. cbn [List.find fst snd]. fold (bt_get (V:=str) channel keys).
  destruct (Hr name value) as [H1 H2]; [by left|]. rw !is_empty_false //. cbn [negb andb]. destruct (eq_ignore_ascii_case name channel) eqn:E.
  - assert (name = channel) as -> by (apply Hn; [by left|done]). cbn. by rw key_eqb_refl.
  - cbn. rw key_eqb_ne; [intros ->; by rw eq_ignore_ascii_case_refl in E|]. apply IH; [intros; apply Hr; by right|intros; apply Hn; [by right|done]].
Qed.

Lemma load_keys_back channels keys :
  keyed channels keys -> forallb (forallb is_scalar) keys.*1 = true -> load_autojoin_keys channels keys.*1 keys.*2 = keys.
Proof.
  intros [Ht Hr Hn] Hs. unfold load_autojoin_keys. rw !length_fmap Nat.eqb_refl. cbn [negb].
  assert (Hone : forall acc channel, channel ∈ channels -> load_key keys.*1 keys.*2 acc channel = match bt_get channel keys with Some value => bt_insert channel value acc | None => acc end).
  { intros acc channel Hc. unfold load_key. rw zip_fst_snd find_key; [by intros ?? (?&?&?)%Hr|by intros ??; apply Hn|]. by destruct (bt_get channel keys). }
  assert (Hall : forall l acc, (forall c, c ∈ l -> c ∈ channels) -> table acc -> table (foldl (load_key keys.*1 keys.*2) acc l) /\
    forall c, bt_get c (foldl (load_key keys.*1 keys.*2) acc l) = if decide (c ∈ l) then match bt_get c keys with Some v => Some v | None => bt_get c acc end else bt_get c acc).
  { induction l as [|x l IH]; intros acc Hl Hacc; [by split; [|intros c; case_decide as Hc; [by apply elem_of_nil in Hc|]]|]. cbn [foldl]. rw Hone; [apply Hl; by left|].
    assert (Hacc' : table (match bt_get x keys with Some value => bt_insert x value acc | None => acc end)) by (case_match; [by apply table_insert|done]).
    destruct (IH _ (fun c Hc => Hl c (list_elem_of_further _ _ _ Hc)) Hacc') as [H1 H2]. split; [exact H1|]. intros c. rw H2.
    destruct (decide (c = x)) as [->|Hne].
    - rw (decide_True (P:=x ∈ x :: l)); [by left|]. destruct (bt_get x keys) as [v|]; [case_decide; [done|apply bt_get_insert]|by case_decide].
    - assert (Hins : bt_get c (match bt_get x keys with Some value => bt_insert x value acc | None => acc end) = bt_get c acc) by (case_match; [by rw bt_get_insert_ne|done]).
      rw Hins. destruct (decide (c ∈ l)); [rw decide_True //; by right|]. rw decide_False //. by intros [?|?]%elem_of_cons. }
  destruct (Hall channels [] (fun _ H => H) table_nil) as [H1 H2]. apply table_ext; [done|done| |].
  - intros k v Hin%bt_elem_get; [|apply H1]. rw H2 in Hin. case_decide; [|done]. destruct (bt_get k keys) as [v'|] eqn:E; [|done].
    apply (proj1 (forallb_forall _ _) Hs). apply list_elem_of_In. apply bt_get_elem in E. by apply (list_elem_of_fmap_2' fst _ (k, v')).
  - intros k. rw H2. destruct (bt_get k keys) as [v|] eqn:E.
    + rw decide_True //. apply bt_get_elem in E. by apply Hr in E as (_ & _ & ?).
    + by case_decide.
Qed.

(** ** What a saved profile reads back as *)

Definition profile_entries (p : Profile) : list (str * IniValue) :=
  (if is_empty (trim (profile_name p)) then [] else [(lit "name", IniText (profile_name p))])
  ++ [(lit "host", IniText (profile_host p)); (lit "port", IniText (show (profile_port p)));
      (lit "tls", IniText (if profile_tls p then lit "true" else lit "false"));
      (lit "connectOnStartup", IniText (if connect_on_startup p then lit "true" else lit "false"));
      (lit "secretSaved", IniText (if secret_saved p then lit "true" else lit "false"));
      (lit "nickServSaved", IniText (if nickserv_saved p then lit "true" else lit "false"));
      (lit "nick", IniText (profile_nick p)); (lit "username", IniText (profile_username p)); (lit "realname", IniText (profile_realname p));
      (lit "account", IniText (profile_account p)); (lit "bouncerNetwork", IniText (bouncer_network p)); (lit "autojoin", IniList (saved_autojoin_channels p))]
  ++ (if is_empty (saved_autojoin_keys p) then []
      else [(lit "autojoinKeyChannels", IniList (saved_autojoin_keys p).*1); (lit "autojoinKeyValues", IniList (saved_autojoin_keys p).*2)])
  ++ (match icon_color p with Some color => if color <? ICON_COLOR_COUNT then [(lit "iconColor", IniText (show_int (Z.of_N color)))] else [] | None => [] end)
  ++ (if is_empty (avatar_url p) then [] else [(lit "avatarUrl", IniText (avatar_url p))]).

Ltac entry_cases p :=
  unfold profile_entries; destruct (is_empty (trim (profile_name p))), (is_empty (saved_autojoin_keys p)), (is_empty (avatar_url p));
  (destruct (icon_color p) as [color|]; [destruct (color <? ICON_COLOR_COUNT)|]).

Lemma write_profile_puts p s : write_profile (network_group (profile_id p)) p s = puts (network_group (profile_id p)) (profile_entries p) s.
Proof. unfold write_profile, set_when. entry_cases p; reflexivity. Qed.

Lemma entries_distinct p : NoDup (profile_entries p).*1.
Proof. entry_cases p; apply (bool_decide_unpack _); vm_compute; exact I. Qed.

(** A text that is saved, or is left out. *)
Definition kept_text (kept : bool) (text : str) : option IniValue := if kept then Some (IniText text) else None.

Lemma entries_texts p :
  entry_for (lit "name") (profile_entries p) = kept_text (negb (is_empty (trim (profile_name p)))) (profile_name p) /\
  entry_for (lit "host") (profile_entries p) = Some (IniText (profile_host p)) /\
  entry_for (lit "nick") (profile_entries p) = Some (IniText (profile_nick p)) /\
  entry_for (lit "username") (profile_entries p) = Some (IniText (profile_username p)) /\
  entry_for (lit "realname") (profile_entries p) = Some (IniText (profile_realname p)) /\
  entry_for (lit "account") (profile_entries p) = Some (IniText (profile_account p)) /\
  entry_for (lit "bouncerNetwork") (profile_entries p) = Some (IniText (bouncer_network p)) /\
  entry_for (lit "avatarUrl") (profile_entries p) = kept_text (negb (is_empty (avatar_url p))) (avatar_url p).
Proof. split_and!; entry_cases p; reflexivity. Qed.

Lemma entries_values p :
  entry_for (lit "port") (profile_entries p) = Some (IniText (show (profile_port p))) /\
  entry_for (lit "tls") (profile_entries p) = Some (IniText (if profile_tls p then lit "true" else lit "false")) /\
  entry_for (lit "connectOnStartup") (profile_entries p) = Some (IniText (if connect_on_startup p then lit "true" else lit "false")) /\
  entry_for (lit "secretSaved") (profile_entries p) = Some (IniText (if secret_saved p then lit "true" else lit "false")) /\
  entry_for (lit "nickServSaved") (profile_entries p) = Some (IniText (if nickserv_saved p then lit "true" else lit "false")).
Proof. split_and!; entry_cases p; reflexivity. Qed.

Lemma entries_icon p :
  entry_for (lit "iconColor") (profile_entries p) =
    match icon_color p with Some color => if color <? ICON_COLOR_COUNT then Some (IniText (show_int (Z.of_N color))) else None | None => None end.
Proof. entry_cases p; reflexivity. Qed.

Lemma entries_lists p :
  entry_for (lit "autojoin") (profile_entries p) = Some (IniList (saved_autojoin_channels p)) /\
  entry_for (lit "autojoinKeyChannels") (profile_entries p) = (if is_empty (saved_autojoin_keys p) then None else Some (IniList (saved_autojoin_keys p).*1)) /\
  entry_for (lit "autojoinKeyValues") (profile_entries p) = (if is_empty (saved_autojoin_keys p) then None else Some (IniList (saved_autojoin_keys p).*2)).
Proof. split_and!; entry_cases p; reflexivity. Qed.

Section Saved.
Context `{platform : Platform} {laws : AsciiLaws}.
Implicit Types (p : Profile) (s : Settings) (file : SharedFile).

(** A profile the file can hold: an id that is one group, text without surrogates, lists that
    are read back, and keys for channels of the profile. *)
Record holdable p : Prop := {
  hold_id : profile_id p <> [] /\ slash_free (profile_id p) = true /\ forallb is_scalar (profile_id p) = true;
  hold_texts : forallb (forallb is_scalar) [profile_name p; profile_host p; profile_nick p; profile_username p; profile_realname p; profile_account p; bouncer_network p; avatar_url p] = true;
  hold_port : profile_port p <= 65535;
  hold_icon color : icon_color p = Some color -> color < ICON_COLOR_COUNT;
  hold_channels : read_back (saved_autojoin_channels p) = true;
  hold_keys : read_back (saved_autojoin_keys p).*1 = true /\ read_back (saved_autojoin_keys p).*2 = true /\ forallb (forallb is_scalar) (saved_autojoin_keys p).*1 = true;
  hold_keyed : keyed (saved_autojoin_channels p) (saved_autojoin_keys p);
}.

(** The profile as it comes back: a blank name is the host. *)
Definition shown p : Profile := p <| profile_name := if is_empty (trim (profile_name p)) then profile_host p else profile_name p |>.

Lemma bool_value_of s group key fallback (b : bool) :
  bt_get (settings_key group key) (values s) = Some (IniText (if b then lit "true" else lit "false")) -> bool_value s group key fallback = b.
Proof using laws. intros E. unfold bool_value, text_value. rw E. cbn [fmap option_fmap option_map]. rw to_lowercase_ascii; [by destruct b|]. by destruct b. Qed.

Lemma text_of_kept s group key (kept : bool) text :
  bt_get (settings_key group key) (values s) = kept_text kept text -> value s group key = if kept then text else [].
Proof using Type. intros E. unfold value, text_value. rw E. by destruct kept. Qed.

Lemma read_saved_profile p s :
  holdable p -> (forall key, bt_get (settings_key (network_group (profile_id p)) key) (values s) = reread <$> entry_for key (profile_entries p)) ->
  read_profile s (profile_id p) = shown p.
Proof using laws.
  intros Hp H. destruct (entries_texts p) as (T1 & T2 & T3 & T4 & T5 & T6 & T7 & T8). destruct (entries_values p) as (V1 & V2 & V3 & V4 & V5).
  destruct (entries_lists p) as (L1 & L2 & L3). pose proof (entries_icon p) as I1. set (group := network_group (profile_id p)) in *.
  assert (Hk : forall key (kept : bool) text, entry_for key (profile_entries p) = kept_text kept text -> value s group key = if kept then text else []).
  { intros key kept text E. apply text_of_kept. rw H E. by destruct kept. }
  assert (Ht : forall key text, entry_for key (profile_entries p) = Some (IniText text) -> value s group key = text) by (intros key text E; by apply (Hk key true)).
  assert (Hb : forall key fallback (b : bool), entry_for key (profile_entries p) = Some (IniText (if b then lit "true" else lit "false")) -> bool_value s group key fallback = b).
  { intros key fallback b E. apply bool_value_of. by rw H E. }
  assert (Hl : forall key l, entry_for key (profile_entries p) = Some (IniList l) -> read_back l = true -> default [] (string_list s group key) = l).
  { intros key l E Hl. rw string_list_is H E. by apply read_back_list. }
  assert (Hnone : forall key, entry_for key (profile_entries p) = None -> default [] (string_list s group key) = []) by (intros key E; by rw string_list_is H E).
  unfold read_profile, shown. cbv zeta. fold group. rw (Hk _ _ _ T1) (Ht _ _ T2) (Ht _ _ T3) (Ht _ _ T4) (Ht _ _ T5) (Ht _ _ T6) (Ht _ _ T7) (Hk _ _ _ T8).
  rw (Hb _ _ _ V2) (Hb _ _ _ V3) (Hb _ _ _ V4) (Hb _ _ _ V5) (Hl _ _ L1 (hold_channels p Hp)).
  rw (uint_value_of s group (lit "port") _ (profile_port p)); [unfold text_value; by rw H V1|unfold usize_max; pose proof (hold_port p Hp); lia|].
  assert (Ekeys : load_autojoin_keys (saved_autojoin_channels p) (default [] (string_list s group (lit "autojoinKeyChannels"))) (default [] (string_list s group (lit "autojoinKeyValues"))) = saved_autojoin_keys p).
  { destruct (hold_keys p Hp) as (K1 & K2 & K3). destruct (is_empty (saved_autojoin_keys p)) eqn:Ek.
    - rw !Hnone //. pose proof (load_keys_back _ _ (hold_keyed p Hp) K3) as E. by destruct (saved_autojoin_keys p).
    - rw (Hl _ _ L2 K1) (Hl _ _ L3 K2). by apply load_keys_back; [apply Hp|]. }
  rw Ekeys. clear Ekeys.
  assert (Eicon : (let icon := int_value s group (lit "iconColor") (-1) in if (0 <=? icon)%Z && (icon <? Z.of_N ICON_COLOR_COUNT)%Z then Some (Z.to_N icon) else None) = icon_color p).
  { cbv zeta. destruct (icon_color p) as [color|] eqn:Ei.
    - pose proof (hold_icon p Hp color Ei) as Hc. rw (proj2 (N.ltb_lt color ICON_COLOR_COUNT) Hc) in I1. unfold ICON_COLOR_COUNT in *.
      rw (int_value_of s group (lit "iconColor") _ (Z.of_N color)); [unfold text_value; by rw H I1|unfold i64_min, i64_max; lia|].
      rw (proj2 (Z.leb_le 0 (Z.of_N color))); [lia|]. rw (proj2 (Z.ltb_lt (Z.of_N color) (Z.of_N 5))); [lia|]. cbn [andb]. by rw N2Z.id.
    - unfold int_value, text_value. by rw H I1. }
  cbv zeta in Eicon. rw Eicon. rw (proj2 (N.leb_le _ _) (hold_port p Hp)).

  destruct p as [id name host port tls startup secret nickserv nick username realname account bouncer channels keys icon avatar]. cbn -[trim].
  f_equal.
  - by destruct (is_empty (trim name)) eqn:E; cbn [negb]; rw ?E.
  - by destruct avatar.
Qed.
End Saved.

(** ** The store as a map *)

Section ProfileStore.
Context `{platform : Platform} {laws : AsciiLaws}.
Implicit Types (p : Profile) (s : Settings) (file : SharedFile).

(** What a table has for the other groups decides what is read there. *)
Definition agree (group : str) s s' : Prop := forall key, bt_get (settings_key group key) (values s') = bt_get (settings_key group key) (values s).

Lemma read_profile_agree s s' id : agree (network_group id) s s' -> read_profile s' id = read_profile s id.
Proof using Type.
  intros H. unfold read_profile, value, uint_value, int_value, bool_value, text_value, string_list. cbv zeta. by rw !H.
Qed.

(** The preferences, auto-away, the order and the folded networks of the file. *)
Definition remembered s : Preferences * AutoawayConfig * list str * list str := (preferences s, saved_autoaway s, saved_network_order s, collapsed_networks s).

Lemma remembered_agree s s' : agree PREFERENCES_GROUP s s' -> remembered s' = remembered s.
Proof using Type.
  intros H. unfold remembered, preferences, saved_autoaway, saved_network_order, collapsed_networks, preference_list, value, int_value, bool_value, text_value, string_list.
  cbv zeta. by rw !H.
Qed.

(** The profile saved under an id. *)
Definition saved file (id : str) : option Profile :=
  if bool_decide (id ∈ child_groups (file_settings file) NETWORKS_GROUP) then Some (read_profile (file_settings file) id) else None.

Lemma network_group_ne id : network_group id <> [].
Proof using Type. done. Qed.

Lemma network_path id key : settings_key (network_group id) key = NETWORKS_GROUP ++ lit "/" ++ id ++ lit "/" ++ key.
Proof using Type. unfold settings_key, network_group. change (is_empty (NETWORKS_GROUP ++ lit "/" ++ id)) with false. cbv iota. by rw -!app_assoc. Qed.

Lemma saved_group_is file id : id ∈ child_groups (file_settings file) NETWORKS_GROUP <->
  slash_free id = true /\ exists key, is_Some (bt_get (settings_key (network_group id) key) (values (file_settings file))).
Proof using Type.
  rw child_groups_elem. assert (E : forall key, settings_key (network_group id) key = group_prefix NETWORKS_GROUP ++ id ++ lit "/" ++ key) by (intros; by rw network_path).
  assert (Hin : forall path, path ∈ bt_keys (values (file_settings file)) <-> is_Some (bt_get path (values (file_settings file)))).
  { intros path. rw -not_eq_None_Some bt_get_None_keys. destruct (decide (path ∈ bt_keys (values (file_settings file)))); naive_solver. }
  setoid_rewrite Hin. split; intros [Hs [key Hk]]; (split; [done|]); exists key; first [by rw E|by rw -E].
Qed.

(** The group of one network holds no key of another's. *)
Lemma groups_apart id id' key : id <> id' -> slash_free id = true -> slash_free id' = true -> in_group (network_group id) (settings_key (network_group id') key) = false.
Proof using Type.
  intros Hne H1 H2. apply not_true_is_false. intros Hin. apply in_group_spec in Hin. rw network_path in Hin. unfold network_group in Hin. destruct Hin as [E|[rest E]].
  - apply app_inv_head, app_inv_head in E. subst id. unfold slash_free in H1. rw !forallb_app in H1. cbn in H1. by rw andb_false_r in H1.
  - rw -!app_assoc in E. apply app_inv_head, app_inv_head in E.
    assert (A : split_once (N.eqb (chr "/")) (id' ++ lit "/" ++ key) = Some (id', key)) by by apply split_once_slash.
    assert (B : split_once (N.eqb (chr "/")) (id ++ lit "/" ++ rest) = Some (id, rest)) by by apply split_once_slash.
    rw E B in A. by injection A as ->.
Qed.

Lemma preferences_apart id key : in_group (network_group id) (settings_key PREFERENCES_GROUP key) = false.
Proof using Type. apply not_true_is_false. intros [E|[rest E]]%in_group_spec; discriminate E. Qed.

(** What an edit of one network's group leaves of the rest. *)
Lemma saved_elsewhere id s s' file file' :
  slash_free id = true -> usable file -> (forall path, bt_get path (values (file_settings file')) = reread <$> bt_get path (values s')) ->
  s = file_settings file -> (forall path, in_group (network_group id) path = false -> bt_get path (values s') = bt_get path (values s)) ->
  (forall other, other <> id -> slash_free other = true -> saved file' other = saved file other) /\ remembered (file_settings file') = remembered (file_settings file).
Proof using Type.
  intros Hid Hu Hv -> Hout. split.
  - intros other Hne Ho. assert (Ha : agree (network_group other) (file_settings file) (file_settings file')).
    { intros key. rw Hv Hout; [by apply groups_apart; [congruence|..]|]. by apply file_settled. }
    unfold saved. rw (read_profile_agree _ _ _ Ha). rw (bool_decide_ext _ (other ∈ child_groups (file_settings file) NETWORKS_GROUP)) //.
    rw !saved_group_is. split; intros [Hs [key Hk]]; (split; [done|exists key]); [by rw -Ha|by rw Ha].
  - apply remembered_agree. intros key. rw Hv Hout; [apply preferences_apart|]. by apply file_settled.
Qed.

Inductive ProfileOp := SaveIt (p : Profile) | RemoveIt (id : str).
Definition op_id (op : ProfileOp) : str := match op with SaveIt p => profile_id p | RemoveIt id => id end.
Definition op_holds (op : ProfileOp) : Prop := match op with SaveIt p => holdable p | RemoveIt id => id <> [] /\ slash_free id = true end.
Definition on_profiles (op : ProfileOp) file : SharedFile := match op with SaveIt p => (save_profile p file).1 | RemoveIt id => (remove_profile id file).1 end.
Definition on_saved (op : ProfileOp) (id : str) : option Profile := match op with SaveIt p => Some (shown p) | RemoveIt _ => None end.

Lemma profile_path_storable id key :
  forallb is_scalar id = true -> forallb is_scalar key = true -> key <> [] -> last key <> Some (chr "/") -> storable (settings_key (network_group id) key) = true.
Proof using Type.
  intros Hi Hk Hne Hl. unfold storable. rw network_path.
  assert (Es : (split_section (NETWORKS_GROUP ++ lit "/" ++ id ++ lit "/" ++ key)).1 = NETWORKS_GROUP).
  { unfold split_section. by rw (proj2 (split_once_slash (NETWORKS_GROUP ++ lit "/" ++ id ++ lit "/" ++ key) NETWORKS_GROUP (id ++ lit "/" ++ key)) (conj eq_refl eq_refl)). }
  assert (Hlast : forall l, last (l ++ key) = last key).
  { intros l. rw last_app. destruct (last key) eqn:E; [done|by apply last_None in E]. }
  rw Es. apply andb_true_iff. split; [|done]. apply andb_true_iff. split; [apply andb_true_iff; split|]; [by rw !forallb_app Hi Hk|done|].
  apply negb_true_iff, bool_decide_eq_false_2. by rw !app_assoc Hlast.
Qed.

Lemma entries_storable p : holdable p -> Forall (fun entry => storable (settings_key (network_group (profile_id p)) entry.1) = true /\ scalar_value entry.2 = true) (profile_entries p).
Proof using Type.
  intros Hp. destruct (hold_id p Hp) as (_ & _ & Hid). destruct (hold_keys p Hp) as (K1 & K2 & _). pose proof (hold_channels p Hp) as Hc.
  pose proof (hold_texts p Hp) as Ht. cbn [forallb] in Ht. rw !andb_true_iff in Ht. destruct Ht as (T1 & T2 & T3 & T4 & T5 & T6 & T7 & T8 & _).
  assert (Hkeys : Forall (fun entry => storable (settings_key (network_group (profile_id p)) entry.1) = true) (profile_entries p)).
  { apply Forall_forall. intros entry Hin. assert (Hclean : forallb (fun e : str * IniValue => forallb is_scalar e.1 && negb (is_empty e.1) && negb (bool_decide (last e.1 = Some (chr "/")))) (profile_entries p) = true).
    { entry_cases p; vm_compute; reflexivity. }
    apply list_elem_of_In in Hin. pose proof (proj1 (forallb_forall _ _) Hclean _ Hin) as H. rw !andb_true_iff !negb_true_iff in H. destruct H as [[H1 H2] H3%bool_decide_eq_false].
    apply profile_path_storable; [done|done|by destruct (entry.1)|done]. }
  assert (Hvals : Forall (fun entry : str * IniValue => scalar_value entry.2 = true) (profile_entries p)).
  { apply read_back_scalar in K1, K2, Hc. unfold profile_entries. repeat (apply Forall_app; split); repeat case_match; repeat (apply Forall_cons; split); try apply Forall_nil_2; cbn [snd]; try done.
    all: try (by apply show_scalar). all: try (by apply show_int_scalar). all: by case_match. }
  apply Forall_forall. intros entry Hin. split; [exact (proj1 (Forall_forall _ _) Hkeys _ Hin)|exact (proj1 (Forall_forall _ _) Hvals _ Hin)].
Qed.

(** What one operation does to the file, with the operation's own profile [held] afterwards. *)
Definition stored id (held : option Profile) file file' : Prop :=
  usable file' /\ saved file' id = held /\
  (forall other, other <> id -> slash_free other = true -> saved file' other = saved file other) /\ remembered (file_settings file') = remembered (file_settings file).

Lemma save_stores p file : holdable p -> usable file -> default true (head (shared_lands file)) = true ->
  stored (profile_id p) (Some (shown p)) file (save_profile p file).1.
Proof using laws.
  intros Hop Hu Hl. destruct (hold_id p Hop) as (Hne & Hs & _). unfold save_profile. rw is_empty_false //.
  set (write := fun s => write_profile (network_group (profile_id p)) p (remove_group s (network_group (profile_id p)))).
  destruct (edit_file_lands write file Hu Hl) as (file' & -> & Hu' & Hv).
  { unfold write. rw write_profile_puts. apply puts_edited; [by apply entries_storable|]. apply edited_remove_group; [apply network_group_ne|]. by apply edited_refl, file_good. }
  assert (Hget : forall key, bt_get (settings_key (network_group (profile_id p)) key) (values (file_settings file')) = reread <$> entry_for key (profile_entries p)).
  { intros key. rw Hv. unfold write. rw write_profile_puts puts_get; [apply network_group_ne|apply entries_distinct|]. rw remove_group_get; [apply network_group_ne|].
    rw key_in_group; [apply network_group_ne|]. by destruct (entry_for key (profile_entries p)). }
  destruct (saved_elsewhere (profile_id p) (file_settings file) (write (file_settings file)) file file' Hs Hu Hv eq_refl) as [H1 H2].
  { intros path Hp. unfold write. rw write_profile_puts puts_outside; [apply network_group_ne| |done|].
    - apply Forall_forall. intros key _. apply key_in_group, network_group_ne.
    - rw remove_group_get; [apply network_group_ne|]. by rw Hp. }
  split_and!; [done| |intros; by apply H1|done]. unfold saved. rw bool_decide_eq_true_2.
  { apply saved_group_is. split; [done|]. exists (lit "host"). rw Hget. destruct (entries_texts p) as (_ & -> & _). by eexists. }
  f_equal. by apply read_saved_profile.
Qed.

Lemma remove_stores id file : id <> [] /\ slash_free id = true -> usable file -> default true (head (shared_lands file)) = true ->
  stored id None file (remove_profile id file).1.
Proof using laws.
  intros [Hne Hs] Hu Hl. assert (Hout : id ∉ child_groups (file_settings file) NETWORKS_GROUP -> saved file id = None) by (intros H; unfold saved; by rw bool_decide_eq_false_2).
  unfold remove_profile, preflight_remove. pose proof Hu as (node & Hn & Hw & Hg). rw Hn. unfold file_settings in Hout. rw Hn in Hout. cbn [backing_settings] in Hout.
  assert (Hkeep : saved file id = None -> usable file /\ saved file id = None /\ (forall other, other <> id -> slash_free other = true -> saved file other = saved file other) /\
    remembered (file_settings file) = remembered (file_settings file)) by (by intros).
  rw is_empty_false //. cbn [orb]. destruct (node_exists node) eqn:Ex; cbn [negb].
  2: { apply Hkeep, Hout. destruct node; try done; cbn; by intros ?%elem_of_nil. }
  assert (Hprobe : probe_ini node = ProbeOk) by (unfold write_blocked in Hw; by destruct (probe_ini node)). rw Hprobe (bool_decide_eq_true_2 (write_blocked node = Written)) //. cbn [negb].
  case_bool_decide as Hin; cbn [negb]; [|by apply Hkeep, Hout].
  destruct (edit_file_lands (fun s => remove_group s (network_group id)) file Hu Hl) as (file' & E & Hu' & Hv).
  { apply edited_remove_group; [apply network_group_ne|]. by apply edited_refl, file_good. }
  unfold edit_file, edit, file_settings in E. rw Hn in E. cbn [backing_settings] in E. destruct (sync _ node _) as [[s' node'] status]. cbn in E. injection E as <- ->. cbn [fst].
  destruct (saved_elsewhere id (file_settings file) (remove_group (file_settings file) (network_group id)) file _ Hs Hu Hv eq_refl) as [H1 H2].
  { intros path Hp. rw remove_group_get; [apply network_group_ne|]. by rw Hp. }
  split_and!; [done| |done|done]. unfold saved. rw bool_decide_eq_false_2 //. rw saved_group_is. intros [_ [key [v Hk]]]. rw Hv remove_group_get in Hk; [apply network_group_ne|].
  rw key_in_group in Hk; [apply network_group_ne|]. done.
Qed.

End ProfileStore.

(** ** The preferences as a record *)

Section PreferenceStore.
Context `{platform : Platform} {laws : AsciiLaws}.
Implicit Types (s : Settings) (file : SharedFile) (prefs : Preferences) (config : AutoawayConfig).

Inductive PreferenceOp :=
| WritePreferences (prefs : Preferences)
| WriteAutoaway (config : AutoawayConfig)
| WriteOrder (ids : list str)
| WriteCollapsed (ids : list str)
| WriteForget (id : str) (with_profile : bool) (order collapsed : list str).

(** A list of ids the file can hold. *)
Definition ids_hold (ids : list str) : bool := read_back ids && forallb (fun id => negb (is_empty id)) ids.

Definition preference_holds (op : PreferenceOp) : Prop :=
  match op with
  | WritePreferences _ => True
  | WriteAutoaway config => (i64_min <= timeout_seconds config <= i64_max)%Z /\ forallb is_scalar (default_reason config) = true
  | WriteOrder ids | WriteCollapsed ids => ids_hold ids = true
  | WriteForget id _ order collapsed => id <> [] /\ slash_free id = true /\ ids_hold order = true /\ ids_hold collapsed = true
  end.

Definition on_preferences (op : PreferenceOp) file : SharedFile * Status :=
  match op with
  | WritePreferences prefs => save_preferences prefs file
  | WriteAutoaway config => save_autoaway config file
  | WriteOrder ids => save_network_order ids file
  | WriteCollapsed ids => save_collapsed_networks ids file
  | WriteForget id with_profile order collapsed => forget_saved_network id with_profile order collapsed file
  end.

Definition on_remembered (op : PreferenceOp) (held : Preferences * AutoawayConfig * list str * list str) : Preferences * AutoawayConfig * list str * list str :=
  let '(prefs, config, order, collapsed) := held in
  match op with
  | WritePreferences prefs => (prefs, config, order, collapsed)
  | WriteAutoaway config => (prefs, config <| one_shot_reason := [] |>, order, collapsed)
  | WriteOrder ids => (prefs, config, ids, collapsed)
  | WriteCollapsed ids => (prefs, config, order, ids)
  | WriteForget _ _ order collapsed => (prefs, config, order, collapsed)
  end.

Definition forgets (op : PreferenceOp) (id : str) : bool := match op with WriteForget gone true _ _ => bool_decide (id = gone) | _ => false end.

(** What a write sets: the value of a key, or its removal. *)
Definition list_entry (ids : list str) : option IniValue := if is_empty ids then None else Some (IniList ids).
Definition entries_of (op : PreferenceOp) : list (str * option IniValue) :=
  let switch key (on : bool) := (key, Some (IniText (if on then lit "true" else lit "false"))) in
  match op with
  | WritePreferences prefs =>
      [switch REOPEN_DIRECTS_KEY (directs prefs); switch LOAD_AVATARS_KEY (avatars prefs); switch OPEN_AT_UNREAD_KEY (unread_mark prefs);
       switch SHOW_IRC_COLORS_KEY (colors prefs); (MEMBERSHIP_NOISE_KEY, Some (IniText (noise_token (joins prefs))));
       (COLOR_PALETTE_KEY, Some (IniText (palette_token (palette prefs))))]
  | WriteAutoaway config =>
      [switch AUTOAWAY_ENABLED_KEY (away_enabled config); (AUTOAWAY_TIMEOUT_KEY, Some (IniText (show_int (timeout_seconds config))));
       (AUTOAWAY_REASON_KEY, Some (IniText (default_reason config)))]
  | WriteOrder ids => [(NETWORK_ORDER_KEY, list_entry ids)]
  | WriteCollapsed ids => [(COLLAPSED_NETWORKS_KEY, list_entry ids)]
  | WriteForget _ _ order collapsed => [(NETWORK_ORDER_KEY, list_entry order); (COLLAPSED_NETWORKS_KEY, list_entry collapsed)]
  end.

Definition set_entry s (entry : str * option IniValue) : Settings :=
  match entry.2 with Some v => put s (settings_key PREFERENCES_GROUP entry.1) v | None => remove_key s PREFERENCES_GROUP entry.1 end.

(** The table with the profile taken out that the operation forgets. *)
Definition without_forgotten (op : PreferenceOp) s : Settings :=
  match op with WriteForget id with_profile _ _ => if with_profile then remove_group s (network_group id) else s | _ => s end.

Definition written (op : PreferenceOp) s : Settings := foldl set_entry (without_forgotten op s) (entries_of op).

Lemma list_entry_applied key ids s : apply_preference_list key ids s = set_entry s (key, list_entry ids).
Proof using Type. unfold apply_preference_list, set_entry, list_entry. cbn [fst snd]. by destruct (is_empty ids). Qed.

Lemma on_preferences_is op file : preference_holds op -> on_preferences op file = edit_file (written op) file.
Proof using Type.
  intros Hop. destruct op as [prefs|config|ids|ids|id with_profile order collapsed]; [done|done|..]; cbn [on_preferences].
  - unfold save_network_order, edit_file, edit. by rw list_entry_applied.
  - unfold save_collapsed_networks, edit_file, edit. by rw list_entry_applied.
  - destruct Hop as (Hne & _). unfold forget_saved_network, edit_file, edit. cbv zeta. rw !list_entry_applied is_empty_false //. unfold set_when. rw andb_true_r. by destruct with_profile.
Qed.

Fixpoint found (key : str) (entries : list (str * option IniValue)) : option (option IniValue) :=
  match entries with [] => None | (k, v) :: entries => if str_eqb k key then Some v else found key entries end.

Lemma set_entry_get s entry path :
  bt_get path (values (set_entry s entry)) = if str_eqb (settings_key PREFERENCES_GROUP entry.1) path then entry.2 else bt_get path (values s).
Proof using Type.
  destruct entry as [key [v|]]; unfold set_entry; cbn [fst snd]; [apply put_get|]. unfold remove_key. cbv zeta.
  destruct (bt_contains _ _) eqn:E; cbn [values update].
  - unfold str_eqb. case_bool_decide as Ep; [subst; apply bt_get_remove|by apply bt_get_remove_ne].
  - unfold str_eqb. case_bool_decide as Ep; [subst path|done]. destruct (bt_get _ (values s)) eqn:Eg; [|done].
    assert (bt_contains (settings_key PREFERENCES_GROUP key) (values s) = true) by (apply bt_contains_spec; by rw Eg). congruence.
Qed.

Lemma entries_get s entries key :
  NoDup entries.*1 ->
  bt_get (settings_key PREFERENCES_GROUP key) (values (foldl set_entry s entries)) =
    match found key entries with Some v => v | None => bt_get (settings_key PREFERENCES_GROUP key) (values s) end.
Proof using Type.
  revert s. induction entries as [|[k v] l IH]; intros s Hd; [done|]. cbn in Hd |- *. apply NoDup_cons in Hd as [Hn Hd]. rw IH // set_entry_get. cbn [fst snd].
  destruct (decide (k = key)) as [->|Hne].
  - rw !str_eqb_refl. assert (E : found key l = None); [|by rw E]. clear -Hn. induction l as [|[k' v'] l IH]; [done|]. cbn in Hn |- *. apply not_elem_of_cons in Hn as [H1 H2].
    rw str_eqb_ne; [congruence|by apply IH].
  - rw (str_eqb_ne k key) // (str_eqb_ne (settings_key PREFERENCES_GROUP k)) //. intros E. apply Hne. by apply (key_path_inj PREFERENCES_GROUP).
Qed.

Lemma entries_elsewhere s entries path : in_group PREFERENCES_GROUP path = false -> bt_get path (values (foldl set_entry s entries)) = bt_get path (values s).
Proof using Type.
  intros Hp. revert s. induction entries as [|[k v] l IH]; intros s; [done|]. cbn. rw IH set_entry_get str_eqb_ne //. cbn. intros <-.
  rw key_in_group // in Hp.
Qed.


Lemma preference_path_storable key :
  forallb is_scalar key = true -> last key <> Some (chr "/") -> key <> [] -> storable (settings_key PREFERENCES_GROUP key) = true.
Proof using Type.
  intros Hk Hl Hne. change (settings_key PREFERENCES_GROUP key) with (PREFERENCES_GROUP ++ lit "/" ++ key). unfold storable.
  assert (Es : (split_section (PREFERENCES_GROUP ++ lit "/" ++ key)).1 = PREFERENCES_GROUP).
  { unfold split_section. by rw (proj2 (split_once_slash (PREFERENCES_GROUP ++ lit "/" ++ key) PREFERENCES_GROUP key) (conj eq_refl eq_refl)). }
  assert (Hlast : forall l, last (l ++ key) = last key).
  { intros l. rw last_app. destruct (last key) eqn:E; [done|by apply last_None in E]. }
  rw Es. apply andb_true_iff. split; [|done]. apply andb_true_iff. split; [apply andb_true_iff; split|]; [by rw !forallb_app Hk|done|].
  apply negb_true_iff, bool_decide_eq_false_2. by rw !app_assoc Hlast.
Qed.

Definition entry_ok (entry : str * option IniValue) : Prop :=
  forallb is_scalar entry.1 = true /\ last entry.1 <> Some (chr "/") /\ entry.1 <> [] /\ match entry.2 with Some v => scalar_value v = true | None => True end.

Lemma ids_scalar ids v : ids_hold ids = true -> list_entry ids = Some v -> scalar_value v = true.
Proof using Type. unfold list_entry, ids_hold. intros [H _]%andb_true_iff. destruct (is_empty ids); [done|]. intros [= <-]. by apply read_back_scalar. Qed.

Lemma entries_ok op : preference_holds op -> Forall entry_ok (entries_of op).
Proof using Type.
  assert (Hl : forall key ids, ids_hold ids = true -> forallb is_scalar key = true -> last key <> Some (chr "/") -> key <> [] -> entry_ok (key, list_entry ids)).
  { intros key ids Hi ???. split_and!; [done..|]. cbn [snd]. destruct (list_entry ids) eqn:E; [by eapply ids_scalar|done]. }
  destruct op as [prefs|config|ids|ids|id with_profile order collapsed]; cbn [preference_holds entries_of]; intros Hop.
  - destruct prefs as [[] [] [] [] [] []]; repeat (apply Forall_cons; split); try apply Forall_nil_2; by split_and!.
  - destruct Hop as [_ Hr]. destruct (away_enabled config); repeat (apply Forall_cons; split); try apply Forall_nil_2; split_and!; try done; cbn; apply show_int_scalar.
  - apply Forall_singleton. by apply Hl.
  - apply Forall_singleton. by apply Hl.
  - destruct Hop as (_ & _ & H1 & H2). repeat (apply Forall_cons; split); try apply Forall_nil_2; by apply Hl.
Qed.

Lemma written_edited op s : preference_holds op -> good_store s -> edited s (written op s).
Proof using Type.
  intros Hop Hg. assert (Hw : edited s (without_forgotten op s)).
  { destruct op; cbn; try by apply edited_refl. case_match; [|by apply edited_refl]. apply edited_remove_group; [done|by apply edited_refl]. }
  pose proof (entries_ok op Hop) as Hok. unfold written. revert Hw. generalize (without_forgotten op s) as s'. induction Hok as [|[key v] l (H1 & H2 & H3 & H4) Hok IH]; intros s' Hs'; [done|].
  cbn [foldl]. apply IH. cbn [fst snd] in *. unfold set_entry. cbn [fst snd]. destruct v; [apply edited_put; [by apply preference_path_storable|done|done]|by apply edited_remove_key].
Qed.

Lemma entries_of_distinct op : NoDup (entries_of op).*1.
Proof using Type. destruct op as [prefs|config|ids|ids|id with_profile order collapsed]; cbn [entries_of fmap list_fmap fst]; apply (bool_decide_unpack _); vm_compute; exact I. Qed.

Lemma ids_read s ids key :
  ids_hold ids = true -> bt_get (settings_key PREFERENCES_GROUP key) (values s) = reread <$> list_entry ids -> preference_list s key = ids.
Proof using Type.
  intros [H1 H2]%andb_true_iff E. unfold preference_list. rw string_list_is E. assert (El : list_of (reread <$> list_entry ids) = ids).
  { unfold list_entry. destruct (is_empty ids) eqn:Ee; [by destruct ids|]. by apply read_back_list. }
  rw El. apply list_filter_all, Forall_forall. intros x Hx. apply negb_true_iff. apply (proj1 (forallb_forall _ _) H2). by apply list_elem_of_In.
Qed.

Lemma noise_read (noise : MembershipNoise) : noise_from_token (noise_token noise) = Some noise.
Proof using laws. unfold noise_from_token. rw to_lowercase_ascii; by destruct noise. Qed.
Lemma palette_read (palette : ColorPaletteId) : palette_from_token (palette_token palette) = Some palette.
Proof using laws. unfold palette_from_token. rw to_lowercase_ascii; by destruct palette. Qed.

Lemma preferences_read s prefs :
  (forall key v, found key (entries_of (WritePreferences prefs)) = Some v -> bt_get (settings_key PREFERENCES_GROUP key) (values s) = reread <$> v) -> preferences s = prefs.
Proof using laws.
  intros H. unfold preferences. cbv zeta. rw (bool_value_of s _ REOPEN_DIRECTS_KEY _ (directs prefs)); [by rw (H REOPEN_DIRECTS_KEY _ eq_refl)|].
  rw (bool_value_of s _ LOAD_AVATARS_KEY _ (avatars prefs)); [by rw (H LOAD_AVATARS_KEY _ eq_refl)|].
  rw (bool_value_of s _ OPEN_AT_UNREAD_KEY _ (unread_mark prefs)); [by rw (H OPEN_AT_UNREAD_KEY _ eq_refl)|].
  rw (bool_value_of s _ SHOW_IRC_COLORS_KEY _ (colors prefs)); [by rw (H SHOW_IRC_COLORS_KEY _ eq_refl)|].
  rw (text_of_kept s _ MEMBERSHIP_NOISE_KEY true (noise_token (joins prefs))); [by rw (H MEMBERSHIP_NOISE_KEY _ eq_refl)|].
  rw (text_of_kept s _ COLOR_PALETTE_KEY true (palette_token (palette prefs))); [by rw (H COLOR_PALETTE_KEY _ eq_refl)|].
  rw noise_read palette_read. by destruct prefs.
Qed.

Lemma autoaway_read s config :
  (i64_min <= timeout_seconds config <= i64_max)%Z ->
  (forall key v, found key (entries_of (WriteAutoaway config)) = Some v -> bt_get (settings_key PREFERENCES_GROUP key) (values s) = reread <$> v) ->
  saved_autoaway s = config <| one_shot_reason := [] |>.
Proof using laws.
  intros Hz H. unfold saved_autoaway. rw (bool_value_of s _ AUTOAWAY_ENABLED_KEY _ (away_enabled config)); [by rw (H AUTOAWAY_ENABLED_KEY _ eq_refl)|].
  rw (int_value_of s _ AUTOAWAY_TIMEOUT_KEY _ (timeout_seconds config)); [unfold text_value; by rw (H AUTOAWAY_TIMEOUT_KEY _ eq_refl)|done|].
  by rw (text_of_kept s _ AUTOAWAY_REASON_KEY true (default_reason config)); [by rw (H AUTOAWAY_REASON_KEY _ eq_refl)|].
Qed.

(** Keys that were not written read as before. *)
Lemma remembered_kept s s' (touched : list str) :
  (forall key, key ∉ touched -> bt_get (settings_key PREFERENCES_GROUP key) (values s') = bt_get (settings_key PREFERENCES_GROUP key) (values s)) ->
  (forallb (fun key => negb (bool_decide (key ∈ touched))) [REOPEN_DIRECTS_KEY; LOAD_AVATARS_KEY; OPEN_AT_UNREAD_KEY; SHOW_IRC_COLORS_KEY; MEMBERSHIP_NOISE_KEY; COLOR_PALETTE_KEY] = true -> preferences s' = preferences s) /\
  (forallb (fun key => negb (bool_decide (key ∈ touched))) [AUTOAWAY_ENABLED_KEY; AUTOAWAY_TIMEOUT_KEY; AUTOAWAY_REASON_KEY] = true -> saved_autoaway s' = saved_autoaway s) /\
  (NETWORK_ORDER_KEY ∉ touched -> saved_network_order s' = saved_network_order s) /\ (COLLAPSED_NETWORKS_KEY ∉ touched -> collapsed_networks s' = collapsed_networks s).
Proof using Type.
  intros H. assert (Hk : forall key, negb (bool_decide (key ∈ touched)) = true -> bt_get (settings_key PREFERENCES_GROUP key) (values s') = bt_get (settings_key PREFERENCES_GROUP key) (values s)).
  { intros key E. apply H. by apply negb_true_iff, bool_decide_eq_false in E. }
  split_and!.
  - cbn [forallb]. rw !andb_true_iff. intros (H1 & H2 & H3 & H4 & H5 & H6 & _). unfold preferences, bool_value, value, text_value. cbv zeta. by rw !Hk.
  - cbn [forallb]. rw !andb_true_iff. intros (H1 & H2 & H3 & _). unfold saved_autoaway, bool_value, int_value, value, text_value. by rw !Hk.
  - intros Hn. unfold saved_network_order, preference_list, string_list. by rw H.
  - intros Hn. unfold collapsed_networks, preference_list, string_list. by rw H.
Qed.

(** C24: the preferences of the settings file are a record. While its writes land, saving the
    preferences, the auto-away settings, the order of the sidebar or the folded networks sets
    that part to what was saved and leaves the others, the one-shot reason of auto-away being
    left out; forgetting a network writes the order and the folded networks and takes its
    profile out in the same write; every other profile stays, and the file can be written
    again. *)
Theorem preference_store_refines_record op file :
  preference_holds op -> usable file -> default true (head (shared_lands file)) = true ->
  let '(file', status) := on_preferences op file in
  status = Written /\ usable file' /\ remembered (file_settings file') = on_remembered op (remembered (file_settings file)) /\
  forall id, slash_free id = true -> saved file' id = if forgets op id then None else saved file id.
Proof using laws.
  intros Hop Hu Hl. rw on_preferences_is //. destruct (edit_file_lands (written op) file Hu Hl) as (file' & -> & Hu' & Hv); [by apply written_edited, file_good|].
  split_and!; [done|done| |].
  - set (s := file_settings file) in *. set (s' := file_settings file') in *.
    assert (Hpref : forall key, bt_get (settings_key PREFERENCES_GROUP key) (values (without_forgotten op s)) = bt_get (settings_key PREFERENCES_GROUP key) (values s)).
    { intros key. destruct op as [| | | |id [] order collapsed]; try done. cbn [without_forgotten]. by rw remove_group_get // preferences_apart. }
    assert (Hin : forall key v, found key (entries_of op) = Some v -> bt_get (settings_key PREFERENCES_GROUP key) (values s') = reread <$> v).
    { intros key v E. rw Hv. unfold written. rw entries_get; [apply entries_of_distinct|]. by rw E. }
    assert (Hout : forall key, key ∉ (entries_of op).*1 -> bt_get (settings_key PREFERENCES_GROUP key) (values s') = bt_get (settings_key PREFERENCES_GROUP key) (values s)).
    { intros key E. rw Hv. unfold written. rw entries_get; [apply entries_of_distinct|]. assert (En : found key (entries_of op) = None).
      { clear -E. induction (entries_of op) as [|[k v] l IH]; [done|]. cbn in E |- *. apply not_elem_of_cons in E as [? ?]. rw str_eqb_ne; [congruence|by apply IH]. }
      rw En Hpref. by apply file_settled. }
    destruct (remembered_kept s s' _ Hout) as (K1 & K2 & K3 & K4). unfold remembered.
    destruct op as [prefs|config|ids|ids|id with_profile order collapsed]; cbn [on_remembered preference_holds] in *.
    + rw K2 // K3; [by apply (bool_decide_unpack _); vm_compute|]. rw K4; [by apply (bool_decide_unpack _); vm_compute|]. by rw (preferences_read s' prefs Hin).
    + rw K1 // K3; [by apply (bool_decide_unpack _); vm_compute|]. rw K4; [by apply (bool_decide_unpack _); vm_compute|]. by rw (autoaway_read s' config (proj1 Hop) Hin).
    + rw K1 // K2 // K4; [by apply (bool_decide_unpack _); vm_compute|]. unfold saved_network_order at 1. by rw (ids_read s' ids NETWORK_ORDER_KEY Hop (Hin NETWORK_ORDER_KEY _ eq_refl)).
    + rw K1 // K2 // K3; [by apply (bool_decide_unpack _); vm_compute|]. unfold collapsed_networks at 1. by rw (ids_read s' ids COLLAPSED_NETWORKS_KEY Hop (Hin COLLAPSED_NETWORKS_KEY _ eq_refl)).
    + destruct Hop as (_ & _ & H1 & H2). rw K1 // K2 //. unfold saved_network_order at 1. unfold collapsed_networks at 1.
      by rw (ids_read s' order NETWORK_ORDER_KEY H1 (Hin NETWORK_ORDER_KEY _ eq_refl)) (ids_read s' collapsed COLLAPSED_NETWORKS_KEY H2 (Hin COLLAPSED_NETWORKS_KEY _ eq_refl)).
  - intros id Hid. assert (Hget : forall key, bt_get (settings_key (network_group id) key) (values (file_settings file')) =
      if forgets op id then None else bt_get (settings_key (network_group id) key) (values (file_settings file))).
    { intros key. rw Hv. unfold written. rw entries_elsewhere; [apply not_true_is_false; intros [E|[rest E]]%in_group_spec; rw network_path in E; discriminate E|].
      assert (E : bt_get (settings_key (network_group id) key) (values (without_forgotten op (file_settings file))) =
        if forgets op id then None else bt_get (settings_key (network_group id) key) (values (file_settings file))).
      { destruct op as [| | | |gone [] order collapsed]; try done. destruct Hop as (_ & Hg & _). cbn [without_forgotten forgets]. rw remove_group_get //.
        case_bool_decide as Eid; [subst; by rw key_in_group|]. by rw groups_apart. }
      rw E. destruct (forgets op id); [done|]. by apply file_settled. }
    unfold saved. destruct (forgets op id).
    + rw bool_decide_eq_false_2 //. rw saved_group_is. intros [_ [key [v Hk]]]. by rw Hget in Hk.
    + rw (read_profile_agree (file_settings file) (file_settings file') id Hget). rw (bool_decide_ext _ (id ∈ child_groups (file_settings file) NETWORKS_GROUP)) //.
      rw !saved_group_is. split; intros [Hs [key Hk]]; (split; [done|exists key]); [by rw -Hget|by rw Hget].
Qed.
End PreferenceStore.

(** ** Examples *)

Definition toy_profile : Profile :=
  mkProfile (lit "oftc") (lit " ") (lit "irc.oftc.net") 6697 true false true false (lit "me") (lit "@me") [] [] [] [lit "#a"; lit "#b"]
    (bt_insert (lit "#b") (lit "key") []) (Some 3) [].
Definition toy_settings : SharedFile :=
  mkSharedFile (Disk (File (lit "[networks]" ++ [10] ++ lit "1\host=h" ++ [10] ++ lit "[preferences]" ++ [10] ++ lit "networkOrder=1, 2" ++ [10]) true true false)) [].

Lemma toy_settings_usable : usable toy_settings.
Proof. eexists. split_and!; [done|done|]. split; [apply parse_settings_table|by repeat constructor]. Defined.

Lemma toy_profile_holds : holdable toy_profile.
Proof.
  split; [done|done|done|by intros color [= <-]|done|done|]. split; [apply table_insert, table_nil| |].
  - intros channel value [[= -> ->]|?%elem_of_nil]%elem_of_cons; [|done]. split_and!; [done|done|]. right. by left.
  - intros channel name Hc Hn E. apply list_elem_of_singleton in Hn as ->. apply elem_of_cons in Hc as [->|Hc]; [by vm_compute in E|]. by apply list_elem_of_singleton in Hc as ->.
Defined.


Lemma preference_store_refines_record_witness :
  let '(file', status) := @on_preferences (WriteForget (lit "1") true [lit "2"] []) toy_settings in
  status = Written /\ (@remembered toy_platform (file_settings file')).1.2 = [lit "2"] /\ @saved toy_platform file' (lit "1") = None.
Proof.
  pose proof (@preference_store_refines_record toy_platform toy_ascii_laws (WriteForget (lit "1") true [lit "2"] []) toy_settings ltac:(by split_and!) toy_settings_usable eq_refl) as H.
  destruct (on_preferences _ _) as [file' status]. destruct H as (H1 & _ & H2 & H3). split_and!; [exact H1|by rw H2|by rw H3].
Defined.
