(* ===== verification/Credentials.v ===== *)
(** * Credentials: the secrets of the networks
    (src/client/src/storage/credentialstore/mod.rs, pending.rs, defer.rs, controller/persistence.rs)

    A network has a server password and a NickServ password, each in the slot of a keychain that
    its key names: the network, the account and the host. When a saved profile changes one of
    them the secret moves to its new key, and the key left behind is owed a delete until one
    succeeds. The keychain of the platform is a class; the store in memory and the one that reads
    through a worker are instances of it. *)

From S2P Require Import Prelude Text OrdMap SessionTypes Platform Sts Profiles.

(** ** Keys (mod.rs) *)

Definition PURPOSE_PASSWORD : str := [].
Definition LEGACY_PURPOSE_PASSWORD : str := lit "password".
Definition PURPOSE_NICKSERV : str := lit "nickserv".

Record CredentialKey := mkKey { key_network : str; key_username : str; key_host : str; key_purpose : str }.
#[export] Instance CredentialKey_eq_dec : EqDecision CredentialKey.
Proof. solve_decision. Defined.
Definition key_fields (k : CredentialKey) : str * (str * (str * str)) := (key_network k, (key_username k, (key_host k, key_purpose k))).
#[export] Instance credential_key_ord : OrdKey CredentialKey := fun a b => key_ltb (key_fields a) (key_fields b).

(** [CredentialKey::for_profile] *)
Definition key_for_profile (p : Profile) (purpose : str) : CredentialKey :=
  mkKey (profile_id p) (if is_empty (profile_username p) then profile_nick p else profile_username p) (profile_host p) purpose.

Definition length_prefixed (value : str) : str := show (str_len value) ++ lit ":" ++ value.

Definition key_name (k : CredentialKey) : str :=
  let name := lit "omairc/v1/" ++ length_prefixed (key_network k) ++ lit "/" ++ length_prefixed (key_username k) ++ lit "/" ++ length_prefixed (key_host k) in
  if is_empty (key_purpose k) then name else name ++ lit "/" ++ length_prefixed (key_purpose k).

Definition purpose_matches_slot (purpose : str) (k : CredentialKey) : bool :=
  if str_eqb purpose PURPOSE_PASSWORD then str_eqb (key_purpose k) PURPOSE_PASSWORD || str_eqb (key_purpose k) LEGACY_PURPOSE_PASSWORD
  else str_eqb (key_purpose k) purpose.

Definition key_names_for_slot (p : Profile) (purpose : str) : list str :=
  let primary := key_name (key_for_profile p purpose) in
  let legacy := key_name (key_for_profile p LEGACY_PURPOSE_PASSWORD) in
  primary :: (if str_eqb purpose PURPOSE_PASSWORD && negb (str_eqb legacy primary) then [legacy] else []).

(** ** Deletes that are owed (pending.rs) *)

Definition PendingRemovals : Type := tree CredentialKey unit.
Definition owe (k : CredentialKey) (m : PendingRemovals) : PendingRemovals := bt_insert k tt m.
Definition forget_owed (k : CredentialKey) (m : PendingRemovals) : PendingRemovals := bt_remove k m.
Definition owed_slot (network purpose : str) (m : PendingRemovals) : list CredentialKey :=
  base.filter (fun k => (str_eqb (key_network k) network && purpose_matches_slot purpose k) = true) (bt_keys m).
Definition owed_network (network : str) (m : PendingRemovals) : list CredentialKey :=
  base.filter (fun k => str_eqb (key_network k) network = true) (bt_keys m).

(** ** The stores (mod.rs, defer.rs) *)

Inductive CredentialState := CredMissing | SessionOnly | CredAvailable | CredLoading | CredError (message : str).

(** [Result<Option<String>, String>], and a read that may still be under way. *)
Inductive Answer := Answered (secret : option str) | Unreadable (message : str).
Inductive ReadSlot := ReadLoading | ReadReady (answer : Answer).

(** The trait [CredentialStore], its pending deletes apart. A read may start a worker, so it gives
    the store back. *)
Class CredentialStore := {
  Keychain : Type;
  chain_durable : Keychain -> bool;
  chain_read : Keychain -> CredentialKey -> Keychain * ReadSlot;
  chain_poll : Keychain -> Keychain;
  chain_inflight : Keychain -> CredentialKey -> bool;
  chain_write : Keychain -> CredentialKey -> str -> Keychain * CredentialState;
  chain_remove : Keychain -> CredentialKey -> Keychain * CredentialState;
  (** no operation of the program: what a worker that reads a key sends, or that it ended *)
  chain_arrives : Keychain -> CredentialKey -> option Answer -> Keychain;
}.

(** [MemoryCredentialStore] *)
Definition MemoryChain : Type := tree CredentialKey str.
#[export] Instance memory_store : CredentialStore := {|
  Keychain := MemoryChain;
  chain_durable _ := false;
  chain_read secrets k := (secrets, ReadReady (Answered (bt_get k secrets)));
  chain_poll secrets := secrets;
  chain_inflight _ _ := false;
  chain_write secrets k password := (bt_insert k password secrets, SessionOnly);
  chain_remove secrets k := (bt_remove k secrets, CredMissing);
  chain_arrives secrets _ _ := secrets;
|}.

(** *** Reads through a worker (defer.rs) *)

Section Deferring.
Context (inner_store : CredentialStore).

(** What [try_recv] finds on the channel of a worker. *)
Inductive Receiver := StillReading | Arrived (answer : Answer) | Disconnected.

Record DeferringChain := mkDeferring {
  inner : @Keychain inner_store;
  cache : tree CredentialKey Answer;
  failed : tree CredentialKey str;
  inflight : tree CredentialKey Receiver;
}.
#[export] Instance deferring_eta : Eta DeferringChain := fun d => mkDeferring (inner d) (cache d) (failed d) (inflight d).

Definition drop_cached (k : CredentialKey) (d : DeferringChain) : DeferringChain :=
  mkDeferring (inner d) (bt_remove k (cache d)) (bt_remove k (failed d)) (bt_remove k (inflight d)).
Definition record_failed (k : CredentialKey) (message : str) (d : DeferringChain) : DeferringChain :=
  d <| failed := bt_insert k message (failed d) |>.

Definition settle_inflight (k : CredentialKey) (d : DeferringChain) : DeferringChain * option Answer :=
  match bt_get k (inflight d) with
  | None | Some StillReading => (d, None)
  | Some (Arrived answer) =>
      let d := d <| inflight := bt_remove k (inflight d) |> in
      (match answer with Answered _ => d <| cache := bt_insert k answer (cache d) |> | Unreadable _ => d end, Some answer)
  | Some Disconnected => (d <| inflight := bt_remove k (inflight d) |>, Some (Unreadable (lit "the secret service read ended unexpectedly")))
  end.

Definition start_read (k : CredentialKey) (d : DeferringChain) : DeferringChain := d <| inflight := bt_insert k StillReading (inflight d) |>.

Definition settle_read (k : CredentialKey) (d : DeferringChain) : DeferringChain * option Answer :=
  let '(d, answer) := settle_inflight k d in
  (match answer with Some (Unreadable message) => record_failed k message d | _ => d end, answer).

Definition deferring_read (d : DeferringChain) (k : CredentialKey) : DeferringChain * ReadSlot :=
  match bt_get k (cache d), bt_get k (failed d) with
  | Some cached, _ => (d, ReadReady cached)
  | None, Some message => (d, ReadReady (Unreadable message))
  | None, None =>
      let '(d, answer) := settle_read k d in
      match answer with
      | Some answer => (d, ReadReady answer)
      | None => (if bt_contains k (inflight d) then d else start_read k d, ReadLoading)
      end
  end.

Definition poll_reads (d : DeferringChain) : DeferringChain := foldl (fun d k => (settle_read k d).1) d (bt_keys (inflight d)).

Definition retry_read (k : CredentialKey) (d : DeferringChain) : DeferringChain :=
  let d := d <| failed := bt_remove k (failed d) |> in
  if bt_contains k (inflight d) then d else start_read k d.

Definition deferring_write (d : DeferringChain) (k : CredentialKey) (password : str) : DeferringChain * CredentialState :=
  let d := drop_cached k d in
  let '(chain, state) := chain_write (inner d) k password in (d <| inner := chain |>, state).

Definition deferring_remove (d : DeferringChain) (k : CredentialKey) : DeferringChain * CredentialState :=
  let d := drop_cached k d in
  let '(chain, state) := chain_remove (inner d) k in (d <| inner := chain |>, state).

(** The worker's side of the channel that [start_read] opens. *)
Definition worker_sends (k : CredentialKey) (answer : option Answer) (d : DeferringChain) : DeferringChain :=
  match bt_get k (inflight d) with
  | Some StillReading => d <| inflight := bt_insert k (match answer with Some answer => Arrived answer | None => Disconnected end) (inflight d) |>
  | _ => d
  end.

Definition deferring_store : CredentialStore := {|
  Keychain := DeferringChain;
  chain_durable d := chain_durable (inner d);
  chain_read := deferring_read;
  chain_poll := poll_reads;
  chain_inflight d k := bt_contains k (inflight d);
  chain_write := deferring_write;
  chain_remove := deferring_remove;
  chain_arrives d k answer := worker_sends k answer d;
|}.
End Deferring.

(** ** Slots (mod.rs) *)

Section Slots.
Context `{store : CredentialStore}.
Implicit Types (v : Keychain) (p : Profile).

Definition read_slot v p (purpose : str) : Keychain * ReadSlot :=
  let '(v, answer) := chain_read v (key_for_profile p purpose) in
  match answer with
  | ReadReady (Answered None) => if str_eqb purpose PURPOSE_PASSWORD then chain_read v (key_for_profile p LEGACY_PURPOSE_PASSWORD) else (v, answer)
  | _ => (v, answer)
  end.

(** [read_slot_sync] *)
Definition read_slot_sync v p (purpose : str) : Keychain * Answer :=
  let '(v, read) := read_slot v p purpose in
  (v, match read with ReadReady answer => answer | ReadLoading => Unreadable (lit "checking secure storage") end).

(** [slot_write_settled], and [is_settled] of persistence.rs *)
Definition is_settled (state : CredentialState) : bool :=
  match state with CredAvailable | SessionOnly | CredMissing => true | CredLoading | CredError _ => false end.

Definition write_slot v p (purpose password : str) : Keychain * CredentialState :=
  let '(v, state) := chain_write v (key_for_profile p purpose) password in
  if str_eqb purpose PURPOSE_PASSWORD && is_settled state then ((chain_remove v (key_for_profile p LEGACY_PURPOSE_PASSWORD)).1, state) else (v, state).

Definition remove_slot v p (purpose : str) : Keychain * CredentialState :=
  let '(v, state) := chain_remove v (key_for_profile p purpose) in
  if str_eqb purpose PURPOSE_PASSWORD then
    let '(v, legacy) := chain_remove v (key_for_profile p LEGACY_PURPOSE_PASSWORD) in
    (v, match legacy with CredError message => CredError message | _ => state end)
  else (v, state).
End Slots.

(** ** The secrets of a profile (persistence.rs) *)

Section Persistence.
Context `{store : CredentialStore}.

(** The store with the deletes it owes. *)
Record Vault := mkVault { vault_chain : Keychain; vault_owed : PendingRemovals }.
#[export] Instance vault_eta : Eta Vault := fun v => mkVault (vault_chain v) (vault_owed v).
Implicit Types (v : Vault) (p : Profile) (k : CredentialKey).

Definition on_owed (f : PendingRemovals -> PendingRemovals) v : Vault := mkVault (vault_chain v) (f (vault_owed v)).
Definition on_chain {A} (f : Keychain -> Keychain * A) v : Vault * A := let '(chain, a) := f (vault_chain v) in (mkVault chain (vault_owed v), a).

(** [SecretEdits] *)
Record SecretEdits := mkEdits { edit_password : option str; edit_nickserv : option str }.

Definition profile_for_credential_key k : Profile :=
  mkProfile (key_network k) [] (key_host k) DEFAULT_PORT true false false false (key_username k) (key_username k) [] [] [] [] [] None [].

Definition saved_flag (state : CredentialState) (was_saved : bool) : bool :=
  match state with CredAvailable => true | SessionOnly | CredMissing => false | CredLoading | CredError _ => was_saved end.

Definition credential_slot_state_from_read v (read : ReadSlot) : CredentialState :=
  match read with
  | ReadLoading => CredLoading
  | ReadReady (Answered (Some _)) => if chain_durable (vault_chain v) then CredAvailable else SessionOnly
  | ReadReady (Answered None) => CredMissing
  | ReadReady (Unreadable message) => CredError message
  end.

Definition credential_slot_state v p (purpose : str) : Vault * CredentialState :=
  let '(v, read) := on_chain (fun chain => read_slot chain p purpose) v in (v, credential_slot_state_from_read v read).

(** [settled_state] *)
Definition settled_state v k : Vault * CredentialState := credential_slot_state v (profile_for_credential_key k) (key_purpose k).

Definition delete_key k v : Vault * CredentialState :=
  let '(v, state) := on_chain (fun chain => chain_remove chain k) v in
  (on_owed (match state with CredMissing => forget_owed k | _ => owe k end) v, state).

(** One owed key of [retire_obsolete]. *)
Definition retire_key (current : CredentialKey) v k : Vault :=
  if bool_decide (k = current) then on_owed (forget_owed k) v else (delete_key k v).1.

Definition retire_obsolete p (purpose : str) v : Vault :=
  foldl (retire_key (key_for_profile p purpose)) v (owed_slot (profile_id p) purpose (vault_owed v)).

Definition retire_when (settled : bool) p (purpose : str) v : Vault := if settled then retire_obsolete p purpose v else v.

Definition carry_secret (from : CredentialKey) p (purpose : str) v : Vault * CredentialState :=
  let '(v, read) := on_chain (fun chain => read_slot chain (profile_for_credential_key from) (key_purpose from)) v in
  match read with
  | ReadLoading => (v, CredLoading)
  | ReadReady (Answered (Some text)) =>
      let '(v, state) := on_chain (fun chain => write_slot chain p purpose text) v in
      (retire_when (is_settled state) p purpose v, state)
  | ReadReady (Answered None) =>
      let '(v, state) := settled_state v (key_for_profile p purpose) in
      (if is_settled state then (delete_key from v).1 else v, state)
  | ReadReady (Unreadable message) => (v, CredError message)
  end.

(** The key the saved profile had, when it is another one. *)
Definition previous_key (stored : option Profile) p (purpose : str) : option CredentialKey :=
  let? stored := stored in
  let previous := key_for_profile stored purpose in
  if bool_decide (previous = key_for_profile p purpose) then None else Some previous.
Definition owe_previous (stored : option Profile) p (purpose : str) v : Vault :=
  match previous_key stored p purpose with Some previous => on_owed (owe previous) v | None => v end.

Definition store_secret (stored : option Profile) p (purpose : str) (edit : option str) v : Vault * CredentialState :=
  let v := owe_previous stored p purpose v in
  match edit, previous_key stored p purpose with
  | None, Some previous => carry_secret previous p purpose v
  | None, None => settled_state v (key_for_profile p purpose)
  | Some secret, _ =>
      let '(v, state) := on_chain (fun chain => if is_empty secret then remove_slot chain p purpose else write_slot chain p purpose secret) v in
      (retire_when (is_settled state) p purpose v, state)
  end.

(** The secrets of [save_profile], and the profile with the flags it saves. *)
Definition save_secrets (stored : option Profile) p (edits : SecretEdits) v : Vault * Profile * (CredentialState * CredentialState) :=
  let '(v, password) := store_secret stored p PURPOSE_PASSWORD (edit_password edits) v in
  let '(v, nickserv) := store_secret stored p PURPOSE_NICKSERV (edit_nickserv edits) v in
  let was (flag : Profile -> bool) := match stored with Some stored => flag stored | None => false end in
  (v, p <| secret_saved := saved_flag password (was secret_saved) |> <| nickserv_saved := saved_flag nickserv (was nickserv_saved) |>, (password, nickserv)).

Definition queue_slot_removals p (purpose : str) v : Vault :=
  let v := on_owed (owe (key_for_profile p purpose)) v in
  if str_eqb purpose PURPOSE_PASSWORD then on_owed (owe (key_for_profile p LEGACY_PURPOSE_PASSWORD)) v else v.

(** One owed key of [forget_secret], with the last refusal. *)
Definition remove_owed (st : Vault * option str) k : Vault * option str :=
  let '(v, state) := delete_key k st.1 in (v, match state with CredError message => Some message | _ => st.2 end).

(** The secrets of [forget_secret]. *)
Definition forget_slot p (purpose : str) v : Vault * CredentialState :=
  let v := queue_slot_removals p purpose v in
  let '(v, refused) := foldl remove_owed (v, None) (owed_slot (profile_id p) purpose (vault_owed v)) in
  match refused with Some message => (v, CredError message) | None => credential_slot_state v p purpose end.

(** The secrets of [finish_remove_profile] (networks.rs). *)
Definition forget_secrets (network : str) (profile : option Profile) v : Vault :=
  let v := match profile with Some p => queue_slot_removals p PURPOSE_NICKSERV (queue_slot_removals p PURPOSE_PASSWORD v) | None => v end in
  foldl (fun v k => (delete_key k v).1) v (owed_network network (vault_owed v)).

(** *** What a session may start with *)

Definition slot_read_loading v p (purpose : str) : bool :=
  chain_inflight (vault_chain v) (key_for_profile p purpose)
  || (str_eqb purpose PURPOSE_PASSWORD && chain_inflight (vault_chain v) (key_for_profile p LEGACY_PURPOSE_PASSWORD)).

Definition profile_credentials_loading v p : bool :=
  (secret_saved p && slot_read_loading v p PURPOSE_PASSWORD) || (nickserv_saved p && slot_read_loading v p PURPOSE_NICKSERV).

Definition secret_unreadable v p (purpose : str) (saved required : bool) : Vault * bool :=
  let tracked := required || saved in
  if tracked && slot_read_loading v p purpose then (v, true)
  else
    let '(v, state) := credential_slot_state v p purpose in
    (v, match state with
        | CredError _ | CredLoading => tracked
        | CredMissing | SessionOnly => saved
        | CredAvailable => false
        end).

Definition startup_connect_allowed v p : Vault * bool :=
  let '(v, password) := secret_unreadable v p PURPOSE_PASSWORD (secret_saved p) true in
  if password then (v, false)
  else let '(v, nickserv) := secret_unreadable v p PURPOSE_NICKSERV (nickserv_saved p) false in (v, negb nickserv).

Definition connect_allowed_after_save v p (saved : CredentialState * CredentialState) : Vault * bool :=
  match saved with
  | (CredError _, _) | (_, CredError _) => (v, false)
  | (CredLoading, _) | (_, CredLoading) => (v, true)
  | _ => startup_connect_allowed v p
  end.

Definition secret_text v p (purpose : str) : Vault * str :=
  let '(v, answer) := on_chain (fun chain => read_slot_sync chain p purpose) v in
  (v, match answer with Answered secret => default [] secret | Unreadable _ => [] end).

(** [poll_reads] *)
Definition poll_vault v : Vault := mkVault (chain_poll (vault_chain v)) (vault_owed v).
End Persistence.

(** ** What a store promises *)

(** [holds]: the keychain has a secret under the key. A read changes nothing, a write changes its
    own key only, and a delete that answers [CredMissing] is done. *)
Class StoreLaws (store : CredentialStore) := {
  holds : Keychain -> CredentialKey -> Prop;
  read_holds v k k' : holds (chain_read v k).1 k' -> holds v k';
  poll_holds v k' : holds (chain_poll v) k' -> holds v k';
  write_holds v k text k' : holds (chain_write v k text).1 k' -> k' = k \/ holds v k';
  remove_holds v k k' : holds (chain_remove v k).1 k' -> holds v k';
  arrives_holds v k answer k' : holds (chain_arrives v k answer) k' -> holds v k';
  removed v k : (chain_remove v k).2 = CredMissing -> ~ holds (chain_remove v k).1 k;
}.

#[export] Instance memory_laws : StoreLaws memory_store.
Proof.
  refine (@Build_StoreLaws memory_store (fun (secrets : MemoryChain) k => is_Some (bt_get k secrets)) _ _ _ _ _ _); cbn; try done.
  - intros secrets k text k'. destruct (decide (k' = k)) as [->|Hne]; [by left|]. rw bt_get_insert_ne; [done|by right].
  - intros secrets k k' [text H]. by apply bt_get_remove_Some in H.
  - intros secrets k _. rw bt_get_remove. by intros [? ?].
Defined.

(** A store that reads through a worker promises what the store under it does. *)
Lemma settle_read_inner store k d : inner store (settle_read store k d).1 = inner store d.
Proof. unfold settle_read, settle_inflight. destruct (bt_get k _) as [[|[|]|]|]; done. Qed.

#[export] Instance deferring_laws store `{laws : !StoreLaws store} : StoreLaws (deferring_store store).
Proof.
  refine (@Build_StoreLaws (deferring_store store) (fun (d : DeferringChain store) k => holds (inner store d) k) _ _ _ _ _ _); cbn [chain_read chain_poll chain_write chain_remove chain_arrives deferring_store].
  - intros d k k'. unfold deferring_read. pose proof (settle_read_inner store k d) as H. destruct (settle_read store k d) as [d' answer]. cbn in H.
    repeat case_match; cbn; by rw ?H.
  - intros d k'. unfold poll_reads. generalize (bt_keys (inflight store d)) as keys. intros keys. revert d. induction keys as [|k keys IH]; intros d; [done|].
    cbn [foldl]. intros H%IH. by rw settle_read_inner in H.
  - intros d k text k'. unfold deferring_write. cbn. pose proof (write_holds (inner store d) k text k') as H. destruct (chain_write _ k text). exact H.
  - intros d k k'. unfold deferring_remove. cbn. pose proof (remove_holds (inner store d) k k') as H. destruct (chain_remove _ k). exact H.
  - intros d k answer k'. unfold worker_sends. by repeat case_match.
  - intros d k. unfold deferring_remove. cbn. pose proof (removed (inner store d) k) as H. destruct (chain_remove _ k). exact H.
Defined.

(** ** No secret is lost track of *)

Section Tracked.
Context `{store : CredentialStore} `{laws : !StoreLaws store}.
Implicit Types (v : Vault) (p : Profile) (k : CredentialKey) (table : btree Profile).

Definition owed v k : Prop := is_Some (bt_get k (vault_owed v)).
Definition held v k : Prop := holds (vault_chain v) k.

(** What is held afterwards was written now, or was held before and is owed as it was. *)
Definition keeps (fresh : CredentialKey -> Prop) v v' : Prop :=
  forall k, held v' k -> fresh k \/ (held v k /\ (owed v k -> owed v' k)).

#[export] Instance keeps_preorder fresh : PreOrder (keeps fresh).
Proof using Type.
  split; [by right|]. intros v1 v2 v3 H12 H23 k Hk. destruct (H23 k Hk) as [|[Hk2 H2]]; [by left|].
  destruct (H12 k Hk2) as [|[Hk1 H1]]; [by left|]. right. auto.
Qed.

Lemma keeps_chain fresh v v' : vault_owed v' = vault_owed v -> (forall k, held v' k -> fresh k \/ held v k) -> keeps fresh v v'.
Proof using Type. intros Ho Hh k Hk. destruct (Hh k Hk); [by left|right]. split; [done|]. unfold owed. by rw Ho. Qed.

Lemma keeps_owe fresh k v : keeps fresh v (on_owed (owe k) v).
Proof using Type.
  intros k' Hk'. right. split; [done|]. unfold owed, on_owed, owe. cbn. destruct (decide (k = k')) as [->|Hne]; [by rw bt_get_insert|by rw bt_get_insert_ne].
Qed.
Lemma owed_owe k v : owed (on_owed (owe k) v) k.
Proof using Type. unfold owed. cbn. rw bt_get_insert. by eexists. Qed.

Lemma keeps_forget (fresh : CredentialKey -> Prop) k v : (held v k -> fresh k) -> keeps fresh v (on_owed (forget_owed k) v).
Proof using Type.
  intros Hf k' Hk'. destruct (decide (k' = k)) as [->|Hne]; [left; by apply Hf|right]. split; [done|]. unfold owed. cbn. by rw bt_get_remove_ne.
Qed.

Lemma on_chain_is {A} (f : Keychain -> Keychain * A) v : on_chain f v = (mkVault (f (vault_chain v)).1 (vault_owed v), (f (vault_chain v)).2).
Proof using Type. unfold on_chain. by destruct (f _). Qed.

Lemma read_slot_holds chain p purpose k : holds (read_slot chain p purpose).1 k -> holds chain k.
Proof using Type.
  unfold read_slot. pose proof (read_holds chain (key_for_profile p purpose) k) as H. destruct (chain_read chain _) as [chain' [|[[secret|]|message]]]; try exact H.
  case_match; [|exact H]. intros Hk%read_holds. by apply H.
Qed.

Lemma write_slot_holds chain p purpose text k : holds (write_slot chain p purpose text).1 k -> k = key_for_profile p purpose \/ holds chain k.
Proof using Type.
  unfold write_slot. pose proof (write_holds chain (key_for_profile p purpose) text k) as H. destruct (chain_write _ _ _) as [chain' state].
  case_match; cbn [fst] in *; [intros Hk%remove_holds|]; auto.
Qed.

Lemma remove_slot_holds chain p purpose k : holds (remove_slot chain p purpose).1 k -> holds chain k.
Proof using Type.
  unfold remove_slot. pose proof (remove_holds chain (key_for_profile p purpose) k) as H. destruct (chain_remove _ _) as [chain' state].
  case_match; [|exact H]. pose proof (remove_holds chain' (key_for_profile p LEGACY_PURPOSE_PASSWORD) k) as H'. destruct (chain_remove _ _). cbn in *. auto.
Qed.

Lemma keeps_slot_state fresh v p purpose : keeps fresh v (credential_slot_state v p purpose).1.
Proof using Type. unfold credential_slot_state. rw on_chain_is. apply keeps_chain; [done|]. intros k Hk%read_slot_holds. by right. Qed.

Lemma keeps_delete fresh k v : keeps fresh v (delete_key k v).1.
Proof using Type.
  unfold delete_key. rw on_chain_is. cbn [fst]. pose proof (removed (vault_chain v) k) as Hgone. pose proof (remove_holds (vault_chain v) k) as Hkeep.
  destruct (chain_remove _ k) as [chain state]. cbn [fst snd] in *. trans (mkVault chain (vault_owed v)).
  { apply keeps_chain; [done|]. intros k' Hk'. right. by apply Hkeep. }
  destruct state; try apply keeps_owe. apply keeps_forget. intros Hk. by destruct (Hgone eq_refl).
Qed.

Lemma keeps_deletes fresh keys v : keeps fresh v (foldl (fun v k => (delete_key k v).1) v keys).
Proof using Type. revert v. induction keys as [|k keys IH]; intros v; [done|]. cbn [foldl]. trans (delete_key k v).1; [apply keeps_delete|apply IH]. Qed.

Lemma keeps_retire (fresh : CredentialKey -> Prop) settled p purpose v : fresh (key_for_profile p purpose) -> keeps fresh v (retire_when settled p purpose v).
Proof using Type.
  intros Hf. unfold retire_when, retire_obsolete. destruct settled; [|done]. generalize (owed_slot (profile_id p) purpose (vault_owed v)) as keys. intros keys.
  revert v. induction keys as [|k keys IH]; intros v; [done|]. cbn [foldl]. etrans; [|apply IH]. unfold retire_key. case_bool_decide as E; [|apply keeps_delete].
  apply keeps_forget. intros _. by rw E.
Qed.

Lemma keeps_written (fresh : CredentialKey -> Prop) p purpose text v :
  fresh (key_for_profile p purpose) -> keeps fresh v (on_chain (fun chain => write_slot chain p purpose text) v).1.
Proof using Type. intros Hf. rw on_chain_is. apply keeps_chain; [done|]. by intros k [->|Hk]%write_slot_holds; [left|right]. Qed.

Lemma keeps_carry (fresh : CredentialKey -> Prop) from p purpose v : fresh (key_for_profile p purpose) -> keeps fresh v (carry_secret from p purpose v).1.
Proof using Type.
  intros Hf. unfold carry_secret. rw (on_chain_is (fun chain => read_slot chain _ _)).
  set (v1 := mkVault _ (vault_owed v)). assert (H1 : keeps fresh v v1). { apply keeps_chain; [done|]. intros k Hk%read_slot_holds. by right. }
  destruct (read_slot _ _ _).2 as [|[[text|]|message]]; try done.
  - pose proof (keeps_written fresh p purpose text v1 Hf) as H2. destruct (on_chain _ v1) as [v2 state]. cbn [fst] in *. etrans; [exact H1|]. etrans; [exact H2|]. by apply keeps_retire.
  - unfold settled_state. match goal with |- context [credential_slot_state v1 ?q ?r] => pose proof (keeps_slot_state fresh v1 q r) as H2; destruct (credential_slot_state v1 q r) as [v2 state] end.
    cbn [fst] in *. etrans; [exact H1|]. etrans; [exact H2|]. case_match; [apply keeps_delete|done].
Qed.

Lemma keeps_store (fresh : CredentialKey -> Prop) stored p purpose edit v :
  fresh (key_for_profile p purpose) -> keeps fresh (owe_previous stored p purpose v) (store_secret stored p purpose edit v).1.
Proof using Type.
  intros Hf. unfold store_secret. set (v1 := owe_previous _ _ _ _). destruct edit as [secret|].
  - set (f := fun chain => if is_empty secret then remove_slot chain p purpose else write_slot chain p purpose secret).
    assert (H : keeps fresh v1 (on_chain f v1).1).
    { unfold f. destruct (is_empty secret); [|by apply keeps_written]. rw on_chain_is. apply keeps_chain; [done|]. intros k Hk%remove_slot_holds. by right. }
    destruct (on_chain f v1) as [v2 state]. cbn [fst] in *. etrans; [exact H|]. by apply keeps_retire.
  - destruct (previous_key stored p purpose); [by apply keeps_carry|apply keeps_slot_state].
Qed.

Lemma owe_previous_keeps fresh stored p purpose v : keeps fresh v (owe_previous stored p purpose v).
Proof using Type. unfold owe_previous. destruct (previous_key stored p purpose); [apply keeps_owe|done]. Qed.
End Tracked.

Section Orphans.
Context `{store : CredentialStore} `{laws : !StoreLaws store}.
Implicit Types (v : Vault) (p : Profile) (k : CredentialKey) (table : btree Profile).

(** The key of a slot of a saved profile. *)
Definition current table k : Prop := exists p, bt_get (key_network k) table = Some p /\ k = key_for_profile p (key_purpose k).
Definition slot_key k : Prop := key_purpose k = PURPOSE_PASSWORD \/ key_purpose k = PURPOSE_NICKSERV.

(** A secret in the keychain that no profile names and no delete is owed for. *)
Record orphan table v k : Prop := {
  orphan_slot : slot_key k;
  orphan_held : held v k;
  orphan_owed : ~ owed v k;
  orphan_current : ~ current table k;
}.

Lemma orphan_keeps table table' v v' k :
  keeps (fun _ => False) v v' -> (forall k, current table k -> current table' k) -> orphan table' v' k -> orphan table v k.
Proof using Type. intros Hv Ht [Hs Hh Ho Hc]. destruct (Hv k Hh) as [[]|[H1 H2]]. split; auto. Qed.

Lemma current_insert table network p p' k :
  bt_get network table = Some p -> (forall purpose, key_for_profile p' purpose = key_for_profile p purpose) ->
  current table k -> current (bt_insert network p' table) k.
Proof using Type.
  intros Hp Hkeys (q & Hq & Ek). destruct (decide (key_network k = network)) as [E|Hne]; [|exists q; by rw bt_get_insert_ne].
  exists p'. rw E bt_get_insert Hkeys. split; [done|]. rw E Hp in Hq. by simplify_eq.
Qed.

(** Saving a profile, with whatever becomes of the writes. *)
Lemma save_orphans table p edits v k :
  let '(v', p', _) := save_secrets (bt_get (profile_id p) table) p edits v in
  orphan (bt_insert (profile_id p) p' table) v' k -> orphan table v k.
Proof using Type.
  unfold save_secrets. set (stored := bt_get (profile_id p) table). set (fresh := fun k => k = key_for_profile p PURPOSE_PASSWORD \/ k = key_for_profile p PURPOSE_NICKSERV).
  pose proof (keeps_store fresh stored p PURPOSE_PASSWORD (edit_password edits) v ltac:(by left)) as H1. destruct (store_secret stored p PURPOSE_PASSWORD _ v) as [v1 s1]. cbn [fst] in H1.
  pose proof (keeps_store fresh stored p PURPOSE_NICKSERV (edit_nickserv edits) v1 ltac:(by right)) as H2. destruct (store_secret stored p PURPOSE_NICKSERV _ v1) as [v2 s2]. cbn [fst] in H2.
  pose proof (owe_previous_keeps fresh stored p PURPOSE_PASSWORD v) as P1. pose proof (owe_previous_keeps fresh stored p PURPOSE_NICKSERV v1) as P2.
  intros [Hs Hh Ho Hc]. set (p' := p <| secret_saved := _ |> <| nickserv_saved := _ |>) in *.
  assert (Hfresh : ~ fresh k).
  { intros Hf. apply Hc. exists p'. assert (E : key_network k = profile_id p) by (by destruct Hf as [-> | ->]). rw E bt_get_insert. split; [done|]. by destruct Hf as [-> | ->]. }
  destruct (H2 k Hh) as [|[Hh1 Ho1]]; [done|]. destruct (P2 k Hh1) as [|[Hh2 Ho2]]; [done|]. destruct (H1 k Hh2) as [|[Hh3 Ho3]]; [done|]. destruct (P1 k Hh3) as [|[Hh4 Ho4]]; [done|].
  split; [done|done|by auto 10|]. intros (q & Hq & Ek). destruct (decide (key_network k = profile_id p)) as [E|Hne].
  2: { apply Hc. exists q. by rw bt_get_insert_ne. }
  assert (Hprev : forall purpose, key_purpose k = purpose -> ~ fresh k -> k <> key_for_profile p purpose -> previous_key stored p purpose = Some k).
  { intros purpose Ep _ Hne. unfold previous_key, stored. rw -E Hq. cbn. rw -Ep -Ek. rw bool_decide_eq_false_2 //. by rw Ep. }
  destruct Hs as [Ep|Ep].
  - apply Ho, Ho1, Ho2, Ho3. unfold owe_previous. rw (Hprev _ Ep Hfresh) ?owed_owe //; [intros ->; apply Hfresh; by left|]. apply owed_owe.
  - apply Ho, Ho1. unfold owe_previous. rw (Hprev _ Ep Hfresh); [intros ->; apply Hfresh; by right|]. apply owed_owe.
Qed.

Lemma keeps_queue fresh p purpose v : keeps fresh v (queue_slot_removals p purpose v).
Proof using Type. unfold queue_slot_removals. case_match; [etrans|]; apply keeps_owe. Qed.

Lemma keeps_forget_slot fresh p purpose v : keeps fresh v (forget_slot p purpose v).1.
Proof using Type.
  unfold forget_slot. set (v1 := queue_slot_removals p purpose v). assert (H1 : keeps fresh v v1) by apply keeps_queue.
  generalize (owed_slot (profile_id p) purpose (vault_owed v1)) as keys. intros keys.
  assert (H2 : keeps fresh v (foldl remove_owed (v1, None) keys).1).
  { etrans; [exact H1|]. clear H1. clearbody v1. generalize (@None str) as refused. revert v1. induction keys as [|k keys IH]; intros v1 refused; [done|]. cbn [foldl].
    unfold remove_owed at 2. cbn [fst snd]. pose proof (keeps_delete fresh k v1) as Hd. destruct (delete_key k v1) as [v2 state]. cbn [fst] in Hd. etrans; [exact Hd|apply IH]. }
  destruct (foldl remove_owed _ keys) as [v2 [message|]]; [exact H2|]. cbn [fst] in H2. etrans; [exact H2|apply keeps_slot_state].
Qed.

Lemma keeps_slot_text fresh v p purpose : keeps fresh v (secret_text v p purpose).1.
Proof using Type.
  unfold secret_text. rw on_chain_is. apply keeps_chain; [done|]. intros k Hk. right. unfold held in *. cbn in Hk. unfold read_slot_sync in Hk.
  pose proof (read_slot_holds (vault_chain v) p purpose k) as Hread. destruct (read_slot _ _ _). by apply Hread.
Qed.

Lemma keeps_unreadable fresh v p purpose saved required : keeps fresh v (secret_unreadable v p purpose saved required).1.
Proof using Type. unfold secret_unreadable. case_match; [done|]. pose proof (keeps_slot_state fresh v p purpose) as Hst. destruct (credential_slot_state _ _ _). exact Hst. Qed.

Lemma keeps_allowed fresh v p : keeps fresh v (startup_connect_allowed v p).1.
Proof using Type.
  unfold startup_connect_allowed. pose proof (keeps_unreadable fresh v p PURPOSE_PASSWORD (secret_saved p) true) as H1. destruct (secret_unreadable _ _ _ _ _) as [v1 []]; cbn [fst] in *; [done|].
  pose proof (keeps_unreadable fresh v1 p PURPOSE_NICKSERV (nickserv_saved p) false) as H2. destruct (secret_unreadable _ _ _ _ _) as [v2 b]. cbn [fst] in *. by etrans.
Qed.

Lemma keeps_poll fresh v : keeps fresh v (poll_vault v).
Proof using Type. apply keeps_chain; [done|]. intros k Hk%poll_holds. by right. Qed.

Lemma keeps_arrives fresh v k answer : keeps fresh v (mkVault (chain_arrives (vault_chain v) k answer) (vault_owed v)).
Proof using Type. apply keeps_chain; [done|]. intros k' Hk%arrives_holds. by right. Qed.

(** A network's secrets leave the keychain with its profile, or stay owed. *)
Lemma forget_orphans table network v k :
  orphan (bt_remove network table) (forget_secrets network (bt_get network table) v) k -> orphan table v k.
Proof using Type.
  unfold forget_secrets. set (v1 := match bt_get network table with Some p => _ | None => v end). intros [Hs Hh Ho Hc].
  assert (H1 : keeps (fun _ => False) v v1).
  { unfold v1. case_match; [|done]. etrans; apply keeps_queue. }
  pose proof (keeps_deletes (fun _ => False) (owed_network network (vault_owed v1)) v1) as H2.
  destruct (H2 k Hh) as [[]|[Hh1 Ho1]]. destruct (H1 k Hh1) as [[]|[Hh2 Ho2]]. split; [done|done|auto|].
  intros (p & Hp & Ek). destruct (decide (network = key_network k)) as [->|Hne]; [|apply Hc; exists p; by rw bt_get_remove_ne].
  apply Ho, Ho1. unfold v1. rw Hp. unfold queue_slot_removals. cbn [str_eqb PURPOSE_PASSWORD PURPOSE_NICKSERV].
  assert (Hkeep : forall k' w, owed w k -> owed (on_owed (owe k') w) k).
  { intros k' w Hw. unfold owed. cbn. destruct (decide (k' = k)) as [->|?]; [rw bt_get_insert; by eexists|by rw bt_get_insert_ne]. }
  destruct Hs as [Ep|Ep]; rw Ep in Ek.
  - apply Hkeep. cbn. apply Hkeep. rw Ek. apply owed_owe.
  - rw Ek. apply owed_owe.
Qed.
End Orphans.

(** ** The names of the keys *)

Lemma str_len_cons c s : str_len (c :: s) = blen (utf8_char c) + str_len s /\ 0 < blen (utf8_char c).
Proof. unfold str_len, blen. rw as_bytes_cons length_app. split; [lia|]. unfold utf8_char. repeat case_match; cbn [length]; lia. Qed.

Lemma length_prefixed_inj a b s t : length_prefixed a ++ s = length_prefixed b ++ t -> a = b /\ s = t.
Proof.
  unfold length_prefixed. rw -!app_assoc. intros E.
  assert (Hl : show (str_len a) = show (str_len b) /\ a ++ s = b ++ t).
  { pose proof (show_digits (str_len a)) as Ha. pose proof (show_digits (str_len b)) as Hb. revert E Ha Hb.
    generalize (show (str_len a)) as x. generalize (show (str_len b)) as y. intros y x. revert y.
    induction x as [|c x IH]; intros [|d y] E Ha Hb; cbn in E, Ha, Hb.
    - by injection E.
    - injection E as <- _. by vm_compute in Hb.
    - injection E as -> _. by vm_compute in Ha.
    - injection E as -> E. destruct (IH y E) as [-> ?]; [by apply andb_true_iff in Ha as [_ ?]|by apply andb_true_iff in Hb as [_ ?]|done]. }
  destruct Hl as [Hl%show_inj E']. clear E. revert b t Hl E'. induction a as [|c a IH]; intros [|d b] t Hl E'.
  - done.
  - pose proof (str_len_cons d b) as [H1 H2]. change (str_len []) with 0 in Hl. lia.
  - pose proof (str_len_cons c a) as [H1 H2]. change (str_len []) with 0 in Hl. lia.
  - cbn in E'. injection E' as -> E'. pose proof (str_len_cons d a) as [H1 _]. pose proof (str_len_cons d b) as [H2 _].
    destruct (IH b t) as [-> ->]; [lia|done|done].
Qed.

(** C: no two credential keys have the same entry in the keychain: the name of an entry gives back the
    network, the account, the host and the slot, whatever characters they hold, because each is
    preceded by its length in bytes. *)
Theorem credential_names_distinct k k' : key_name k = key_name k' -> k = k'.
Proof.
  destruct k as [n u h p], k' as [n' u' h' p']. unfold key_name. cbn [key_network key_username key_host key_purpose].
  assert (Hsplit : forall n u h (rest : str) n' u' h' rest',
    (lit "omairc/v1/" ++ length_prefixed n ++ lit "/" ++ length_prefixed u ++ lit "/" ++ length_prefixed h) ++ rest =
    (lit "omairc/v1/" ++ length_prefixed n' ++ lit "/" ++ length_prefixed u' ++ lit "/" ++ length_prefixed h') ++ rest' -> n = n' /\ u = u' /\ h = h' /\ rest = rest').
  { clear. intros n u h rest n' u' h' rest' E. rewrite <- !app_assoc in E. apply app_inv_head in E. apply length_prefixed_inj in E as [-> E]. apply app_inv_head in E.
    apply length_prefixed_inj in E as [-> E]. apply app_inv_head in E. by apply length_prefixed_inj in E as [-> ->]. }
  set (tail := fun p : str => if is_empty p then [] else lit "/" ++ length_prefixed p). intros E.
  assert (E' : forall n u h p, (if is_empty p then lit "omairc/v1/" ++ length_prefixed n ++ lit "/" ++ length_prefixed u ++ lit "/" ++ length_prefixed h
    else (lit "omairc/v1/" ++ length_prefixed n ++ lit "/" ++ length_prefixed u ++ lit "/" ++ length_prefixed h) ++ lit "/" ++ length_prefixed p) =
    (lit "omairc/v1/" ++ length_prefixed n ++ lit "/" ++ length_prefixed u ++ lit "/" ++ length_prefixed h) ++ tail p).
  { intros ? ? ? q. unfold tail. destruct (is_empty q); [by rw app_nil_r|done]. }
  rw !E' in E. apply Hsplit in E as (-> & -> & -> & E). f_equal. unfold tail in E. destruct p as [|c p], p' as [|c' p']; cbn [is_empty] in E; try done.
  apply app_inv_head in E. rw -(app_nil_r (length_prefixed (c :: p))) -(app_nil_r (length_prefixed (c' :: p'))) in E. by apply length_prefixed_inj in E as [-> _].
Qed.

(** ** A secret moves with its profile *)

(** A store that answers at once and refuses nothing, as the one in memory: [contents] is what it
    holds. *)
Class AnsweringStore (store : CredentialStore) := {
  contents : Keychain -> CredentialKey -> option str;
  ans_read chain k : chain_read chain k = (chain, ReadReady (Answered (contents chain k)));
  ans_write chain k text :
    is_settled (chain_write chain k text).2 = true /\
    forall k', contents (chain_write chain k text).1 k' = if decide (k' = k) then Some text else contents chain k';
  ans_remove chain k :
    (chain_remove chain k).2 = CredMissing /\
    forall k', contents (chain_remove chain k).1 k' = if decide (k' = k) then None else contents chain k';
}.

#[export] Instance memory_answers : AnsweringStore memory_store.
Proof.
  refine (@Build_AnsweringStore memory_store (fun (secrets : MemoryChain) k => bt_get k secrets) _ _ _); cbn; [done|intros secrets k text|intros secrets k].
  - split; [done|]. intros k'. case_decide as E; [by rw E bt_get_insert|]. by rw bt_get_insert_ne.
  - split; [done|]. intros k'. case_decide as E; [by rw E bt_get_remove|]. by rw bt_get_remove_ne.
Defined.

Section Carried.
Context `{store : CredentialStore} `{answering : !AnsweringStore store}.
Implicit Types (v : Vault) (p : Profile) (k : CredentialKey) (chain : Keychain).

Definition chained v k : option str := contents (vault_chain v) k.

(** What the slot of a profile holds, under its key or the older one. *)
Definition slot_secret chain p (purpose : str) : option str :=
  match contents chain (key_for_profile p purpose) with
  | Some text => Some text
  | None => if str_eqb purpose PURPOSE_PASSWORD then contents chain (key_for_profile p LEGACY_PURPOSE_PASSWORD) else None
  end.

Lemma ans_slot chain p purpose : read_slot chain p purpose = (chain, ReadReady (Answered (slot_secret chain p purpose))).
Proof using Type. unfold read_slot, slot_secret. rw ans_read. destruct (contents chain _); [done|]. case_match; [by rw ans_read|done]. Qed.

Lemma ans_delete k v k' : chained (delete_key k v).1 k' = if decide (k' = k) then None else chained v k'.
Proof using Type. unfold delete_key. rw on_chain_is. exact (proj2 (ans_remove (vault_chain v) k) k'). Qed.

Lemma ans_retire_keys current keys v k' :
  chained (foldl (retire_key current) v keys) k' = if bool_decide (k' ∈ keys /\ k' <> current) then None else chained v k'.
Proof using Type.
  revert v. induction keys as [|k keys IH]; intros v; cbn [foldl].
  { rw bool_decide_eq_false_2 //. by intros [?%elem_of_nil ?]. }
  rw IH. assert (Hk : chained (retire_key current v k) k' = if decide (k' = k /\ k' <> current) then None else chained v k').
  { unfold retire_key. clear IH. case_bool_decide as E.
    - subst. destruct (decide _) as [[H1 H2]|]; [by destruct H2|done].
    - rw ans_delete. destruct (decide (k' = k)) as [Ek|Ek], (decide (k' = k /\ _)) as [[? ?]|Hn]; try done. destruct Hn. split; [done|congruence]. }
  rw Hk. destruct (decide _) as [[-> ?]|Hn].
  - rw (bool_decide_eq_true_2 (k ∈ k :: keys /\ _)); [split; [by left|done]|by case_bool_decide].
  - apply (f_equal (fun b : bool => if b then None else chained v k')), bool_decide_ext. set_solver.
Qed.

Lemma ans_retire settled p purpose v k' :
  chained (retire_when settled p purpose v) k' =
  if settled && bool_decide (k' ∈ owed_slot (profile_id p) purpose (vault_owed v) /\ k' <> key_for_profile p purpose) then None else chained v k'.
Proof using Type. unfold retire_when, retire_obsolete. destruct settled; [|done]. apply ans_retire_keys. Qed.

Lemma ans_write_slot chain p purpose text :
  is_settled (write_slot chain p purpose text).2 = true /\ forall k',
  contents (write_slot chain p purpose text).1 k' =
    if decide (str_eqb purpose PURPOSE_PASSWORD = true /\ k' = key_for_profile p LEGACY_PURPOSE_PASSWORD) then None
    else if decide (k' = key_for_profile p purpose) then Some text else contents chain k'.
Proof using Type.
  unfold write_slot. destruct (ans_write chain (key_for_profile p purpose) text) as [Hs Hw]. destruct (chain_write _ _ _) as [chain' state]. cbn [fst snd] in *. rw Hs.
  destruct (str_eqb purpose PURPOSE_PASSWORD); cbn [andb fst snd]; (split; [done|]); intros k'.
  - rw (proj2 (ans_remove _ _)). destruct (decide (k' = key_for_profile p LEGACY_PURPOSE_PASSWORD)) as [E|E]; [by rw decide_True|].
    by rw (decide_False (P := true = true /\ _)); [intros [_ ?]|].
  - rw Hw. match goal with |- context [decide (false = true /\ ?Q)] => destruct (decide (false = true /\ Q)) as [[? _]|_] end; done.
Qed.

Lemma key_restored p purpose purpose' : key_for_profile (profile_for_credential_key (key_for_profile p purpose)) purpose' = key_for_profile p purpose'.
Proof using Type. unfold key_for_profile, profile_for_credential_key. cbn. by case_match. Qed.

Lemma slot_restored chain p purpose purpose' : slot_secret chain (profile_for_credential_key (key_for_profile p purpose)) purpose' = slot_secret chain p purpose'.
Proof using Type. unfold slot_secret. by rw !key_restored. Qed.

Lemma matches_own p purpose : purpose_matches_slot purpose (key_for_profile p purpose) = true.
Proof using Type. unfold purpose_matches_slot. cbn [key_purpose key_for_profile]. destruct (str_eqb purpose PURPOSE_PASSWORD); [done|apply str_eqb_refl]. Qed.
Lemma matches_legacy p purpose : str_eqb purpose PURPOSE_PASSWORD = true -> purpose_matches_slot purpose (key_for_profile p LEGACY_PURPOSE_PASSWORD) = true.
Proof using Type. intros E. unfold purpose_matches_slot. by rw E. Qed.

(** What the save of one slot, left as it is, does to the keychain. *)
Lemma store_moves stored p purpose v :
  let v' := (store_secret (Some stored) p purpose None v).1 in
  let from := key_for_profile stored purpose in let key := key_for_profile p purpose in
  (forall k, purpose_matches_slot purpose k = false -> chained v' k = chained v k) /\
  (forall text, profile_id p = profile_id stored -> (purpose = PURPOSE_PASSWORD \/ purpose = PURPOSE_NICKSERV) -> slot_secret (vault_chain v) stored purpose = Some text ->
    slot_secret (vault_chain v') p purpose = Some text /\ (from <> key -> chained v' from = None)).
Proof using Type.
  cbv zeta. unfold store_secret, owe_previous, previous_key. cbn [mbind option_bind]. case_bool_decide as E.
  { unfold settled_state, credential_slot_state. rw on_chain_is ans_slot. cbn [fst vault_chain]. split; [done|]. intros text _ Hp Ht. split; [|done].
    rw -Ht. unfold slot_secret. rw E. unfold key_for_profile in E |- *. by injection E as -> -> ->. }
  unfold carry_secret. rw on_chain_is. cbn [vault_chain on_owed]. rw ans_slot slot_restored. cbn [fst snd].
  change (key_purpose (key_for_profile stored purpose)) with purpose. set (v1 := mkVault (vault_chain v) _). cbn beta iota.
  assert (Hv1 : forall k, chained v1 k = chained v k) by done.
  destruct (slot_secret (vault_chain v) stored purpose) as [text|] eqn:Es.
  - rw on_chain_is. destruct (ans_write_slot (vault_chain v1) p purpose text) as [Hset Hw]. destruct (write_slot _ _ _ _) as [chain state]. cbn [fst snd] in *. rw Hset. cbn iota.
    assert (Hmatch : forall k, purpose_matches_slot purpose k = false -> k <> key_for_profile p purpose /\ ~ (str_eqb purpose PURPOSE_PASSWORD = true /\ k = key_for_profile p LEGACY_PURPOSE_PASSWORD)).
    { intros k Hk. split; [intros ->; by rw matches_own in Hk|intros [Ep ->]; by rw (matches_legacy p purpose Ep) in Hk]. }
    split.
    + intros k Hk. destruct (Hmatch k Hk) as [H1 H2]. rw ans_retire bool_decide_eq_false_2.
      { intros [Hin _]. unfold owed_slot in Hin. apply list_elem_of_filter in Hin as [Hin _]. by rw Hk andb_false_r in Hin. }
      cbn. unfold chained at 1. cbn [vault_chain]. rw Hw !decide_False //.
    + intros text' Hid Hp [= ->]. split.
      * assert (Hkey : chained (retire_when true p purpose (mkVault chain (vault_owed v1))) (key_for_profile p purpose) = Some text').
        { rw ans_retire bool_decide_eq_false_2; [by intros [_ ?]|]. cbn. unfold chained. cbn [vault_chain]. rw Hw decide_False; [|by rw decide_True].
          intros [Ep H]. apply str_eqb_eq in Ep. rw Ep in H. unfold key_for_profile in H. by injection H. }
        unfold slot_secret. unfold chained in Hkey. by rw Hkey.
      * intros Hne. rw ans_retire bool_decide_eq_true_2 //. split; [|done]. unfold owed_slot. apply list_elem_of_filter. split.
        { cbn [key_network key_for_profile]. rw Hid str_eqb_refl. cbn [andb]. unfold purpose_matches_slot. destruct Hp as [-> | ->]; done. }
        unfold v1. cbn [vault_owed on_owed]. unfold owe. apply list_elem_of_fmap. exists (key_for_profile stored purpose, tt). split; [done|]. apply bt_get_elem, bt_get_insert.
  - unfold settled_state, credential_slot_state. rw on_chain_is ans_slot. cbn [fst snd]. split; [|done]. intros k Hk.
    assert (Hne : k <> key_for_profile stored purpose) by (intros ->; by rw matches_own in Hk).
    case_match; [rw ans_delete decide_False //|done].
Qed.
End Carried.

Section Renamed.
Context `{store : CredentialStore} `{answering : !AnsweringStore store}.

Lemma slot_same v v' p purpose :
  chained v' (key_for_profile p purpose) = chained v (key_for_profile p purpose) ->
  chained v' (key_for_profile p LEGACY_PURPOSE_PASSWORD) = chained v (key_for_profile p LEGACY_PURPOSE_PASSWORD) ->
  slot_secret (vault_chain v') p purpose = slot_secret (vault_chain v) p purpose.
Proof using Type. unfold chained, slot_secret. by intros -> ->. Qed.

Lemma secret_text_is v p purpose text : slot_secret (vault_chain v) p purpose = Some text -> (secret_text v p purpose).2 = text.
Proof using Type. intros H. unfold secret_text, read_slot_sync. by rw on_chain_is ans_slot H. Qed.

(** C: a password moves with its profile. When the host, the username or the nick of a saved profile
    changes and its passwords are left as they are, a keychain that answers gives the session
    the same password as before, also when an earlier build had stored it under the older
    name, and nothing is left under the key the profile had. *)
Theorem renamed_secret_carried stored p purpose (v : Vault) text :
  profile_id p = profile_id stored -> purpose = PURPOSE_PASSWORD \/ purpose = PURPOSE_NICKSERV -> slot_secret (vault_chain v) stored purpose = Some text ->
  let '(v', p', _) := save_secrets (Some stored) p (mkEdits None None) v in
  (secret_text v' p' purpose).2 = text /\
  (key_for_profile stored purpose <> key_for_profile p purpose -> chained v' (key_for_profile stored purpose) = None).
Proof using Type.
  intros Hid Hp Ht. unfold save_secrets. cbn [edit_password edit_nickserv].
  pose proof (store_moves stored p PURPOSE_PASSWORD v) as [O1 M1]. destruct (store_secret _ p PURPOSE_PASSWORD None v) as [v1 s1]. cbn [fst] in *.
  pose proof (store_moves stored p PURPOSE_NICKSERV v1) as [O2 M2]. destruct (store_secret _ p PURPOSE_NICKSERV None v1) as [v2 s2]. cbn [fst] in *.
  set (p' := p <| secret_saved := _ |> <| nickserv_saved := _ |>). change (slot_secret (vault_chain v2) p purpose) with (slot_secret (vault_chain v2) p' purpose) in M2.
  destruct Hp as [-> | ->].
  - destruct (M1 text Hid ltac:(by left) Ht) as [H1 H2]. split; [|intros Hne; rw O2 //; by apply H2].
    apply secret_text_is. rw -H1. apply (slot_same v1 v2 p'); by apply O2.
  - destruct (M2 text Hid ltac:(by right)) as [H1 H2]; [|split; [by apply secret_text_is|exact H2]]. rw -Ht. unfold slot_secret. fold (chained v1 (key_for_profile stored PURPOSE_NICKSERV)). by rw O1.
Qed.
End Renamed.

(** ** Examples *)

Definition oftc_profile (host : str) : Profile :=
  mkProfile (lit "oftc") [] host DEFAULT_PORT true false true false (lit "me") [] [] [] [] [] [] None [].
Definition memory_vault (k : CredentialKey) : @Vault memory_store := @mkVault memory_store (bt_insert k (lit "pw") []) [].

Lemma renamed_secret_carried_witness :
  let '(v', p', _) := @save_secrets memory_store (Some (oftc_profile (lit "old"))) (oftc_profile (lit "new")) (mkEdits None None)
    (memory_vault (key_for_profile (oftc_profile (lit "old")) PURPOSE_PASSWORD)) in
  (@secret_text memory_store v' p' PURPOSE_PASSWORD).2 = lit "pw" /\ @chained memory_store memory_answers v' (key_for_profile (oftc_profile (lit "old")) PURPOSE_PASSWORD) = None.
Proof.
  pose proof (@renamed_secret_carried memory_store memory_answers (oftc_profile (lit "old")) (oftc_profile (lit "new")) PURPOSE_PASSWORD
    (memory_vault (key_for_profile (oftc_profile (lit "old")) PURPOSE_PASSWORD)) (lit "pw") eq_refl ltac:(by left) ltac:(by vm_compute)) as H.
  destruct (save_secrets _ _ _ _) as [[v' p'] states]. destruct H as [H1 H2]. split; [exact H1|]. apply H2. by vm_compute.
Defined.

(** An entry of the older name stays when the profile is renamed: it is read and moved, but only
    the newer name of the old key is owed a delete. *)
Example legacy_entry_stays :
  let old := oftc_profile (lit "old") in let k := key_for_profile old LEGACY_PURPOSE_PASSWORD in
  let '(v', p', _) := @save_secrets memory_store (Some old) (oftc_profile (lit "new")) (mkEdits None None) (memory_vault k) in
  @chained memory_store memory_answers v' k = Some (lit "pw") /\ (@secret_text memory_store v' p' PURPOSE_PASSWORD).2 = lit "pw" /\
  owed_network (lit "oftc") (vault_owed v') = [] /\ @chained memory_store memory_answers (@forget_secrets memory_store (lit "oftc") (Some p') v') k = Some (lit "pw").
Proof. by vm_compute. Qed.
