(* ===== verification/ControllerState.v ===== *)
(** * ControllerState: what the controller holds (src/client/src/controller/)

    One record for the state the Rust controller mutates (controller.rs), with the parts kept in
    their own structs (autoawayruntime.rs, monitorcoordinator.rs, replyrouter.rs, listmode.rs,
    readmarker.rs), and the access the other files share: a session with its live closures, the
    reducer with the file it shares, Status, the inbox, and the saved lists (stores.rs).

    The sessions, the clock and the transports are those of [Core]; the settings file is one
    [SharedFile] that every list, the profiles and the preferences edit; the secrets are in a
    [Vault]. *)

From S2P Require Import SessionTypes Sts Profiles Credentials.
From S2P Require Import Prelude Text Message Parser CaseMapping ServerFeatures Capability JoinTarget OrdMap SessionTypes Platform Ctcp Metadata Typing.
From S2P Require Import SessionCore SessionOutbound SettingsIni Settings Lists StatusEntry Command Autoaway Inbox Console ChannelList PlaybackTime.
From S2P Require Import Presence Events Conversation MembershipNoise ReducerState ReducerTranscript ReducerSplice Reducer ReducerViews ClosedChannels Playback.

#[export] Existing Instance ini_list_backing.

(** ** The conversation log the reducer writes *)

Class ClientLog := {
  LogFolder : Type;
  folder_append : LogFolder -> str -> str -> IrcCaseMapping -> TranscriptLine -> LogFolder;
  folder_prepend : LogFolder -> str -> str -> IrcCaseMapping -> list TranscriptLine -> LogFolder;
  folder_read_tail : LogFolder -> str -> str -> IrcCaseMapping -> nat -> list TranscriptLine;
}.
#[export] Instance client_stores `{ClientLog} : Stores := disk_stores LogFolder folder_append folder_prepend folder_read_tail.

(** ** Auto-away (autoawayruntime.rs) *)

Inductive Expiry := ExpiryIdle | ExpiryGrace.
#[export] Instance Expiry_eq_dec : EqDecision Expiry.
Proof. solve_decision. Defined.

(** A timer is what its callback queues: an expiry with the generation it was armed under.
    [away_clock] holds those that run, with their intervals. *)
Abbreviation AwayTimer := (Expiry * N)%type (only parsing).

Record AutoawayState := mkAway {
  away_config : AutoawayConfig;
  idle_timer : option AwayTimer;
  grace_timer : option AwayTimer;
  grace_armed : bool;
  tripped : bool;
  generation : N;
  expiries : list AwayTimer;
  auto_away : bset;
  manual_away : bset;
  unaway_sent : bset;
  away_clock : list (AwayTimer * Duration);
}.
#[export] Instance away_eta : Eta AutoawayState := fun a =>
  mkAway (away_config a) (idle_timer a) (grace_timer a) (grace_armed a) (tripped a) (generation a) (expiries a)
    (auto_away a) (manual_away a) (unaway_sent a) (away_clock a).
Definition new_away : AutoawayState := mkAway (mkAutoawayConfig false 0 [] []) None None false false 0 [] [] [] [] [].

(** ** MONITOR (monitorcoordinator.rs) *)

Inductive MonitorPresence := MonitorUnknown | MonitorOnline | MonitorOffline.
#[export] Instance MonitorPresence_eq_dec : EqDecision MonitorPresence.
Proof. solve_decision. Defined.

Inductive MonitorOutcome := MonitorSent | MonitorRefused | MonitorNotConnected.

Record MonitorState := mkMonitor { subscribed : bset; monitor_states : btree (btree MonitorPresence) }.
#[export] Instance monitor_eta : Eta MonitorState := fun m => mkMonitor (subscribed m) (monitor_states m).

(** [MonitorState::forget] *)
Definition monitor_forget (network : str) (m : MonitorState) : MonitorState :=
  mkMonitor (bs_remove network (subscribed m)) (bt_remove network (monitor_states m)).

(** ** The reply watches (replyrouter.rs, listmode.rs) *)

Record WhoisWatch := mkWhoisWatch { whois_destination : option ConversationKey; failed_is_ambiguous : bool; whois_metadata_emitted : bool }.
#[export] Instance whois_watch_eta : Eta WhoisWatch := fun w => mkWhoisWatch (whois_destination w) (failed_is_ambiguous w) (whois_metadata_emitted w).
Record CtcpWatch := mkCtcpWatch { ctcp_destination : option ConversationKey }.
Inductive LabeledKind := LabeledWhois | LabeledCtcp.
#[export] Instance LabeledKind_eq_dec : EqDecision LabeledKind.
Proof. solve_decision. Defined.
Record LabeledWatch := mkLabeledWatch { labeled_kind : LabeledKind; labeled_destination : option ConversationKey; labeled_metadata_emitted : bool }.
#[export] Instance labeled_watch_eta : Eta LabeledWatch := fun w => mkLabeledWatch (labeled_kind w) (labeled_destination w) (labeled_metadata_emitted w).
Record ListModeWatch := mkListWatch { list_destination : ConversationKey; list_kind : ListMaskKind; list_channel : str }.
Inductive OwnMetadataKind := MetadataSet | MetadataClear.
#[export] Instance OwnMetadataKind_eq_dec : EqDecision OwnMetadataKind.
Proof. solve_decision. Defined.
Record OwnMetadataWatch := mkOwnWatch { own_destination : option ConversationKey; own_kind : OwnMetadataKind; own_value : str }.
Record PendingOwnMetadata := mkPendingOwn { pending_network : str; pending_nick : str; pending_key : str; pending_value : str }.

(** A watch of a network, by the nick, by nick and command, or by the label. *)
Record ReplyWatches := mkWatches {
  whois_watches : tree ConversationKey WhoisWatch;
  ctcp_watches : tree (ConversationKey * str) CtcpWatch;
  labeled_watches : tree ConversationKey LabeledWatch;
  list_mode_watches : btree ListModeWatch;
  own_metadata_watches : btree (btree OwnMetadataWatch);
  own_metadata_depth : nat;
  pending_own_metadata : list PendingOwnMetadata;
}.
#[export] Instance watches_eta : Eta ReplyWatches := fun w =>
  mkWatches (whois_watches w) (ctcp_watches w) (labeled_watches w) (list_mode_watches w) (own_metadata_watches w)
    (own_metadata_depth w) (pending_own_metadata w).
Definition new_watches : ReplyWatches := mkWatches [] [] [] [] [] 0 [].

(** ** Read markers (readmarker.rs) *)

Record ReadMarkerState := mkMarkerState { get_sent : gset ConversationKey; awaiting_get : gset ConversationKey }.
#[export] Instance marker_state_eta : Eta ReadMarkerState := fun m => mkMarkerState (get_sent m) (awaiting_get m).

(** ** Arrivals (notify.rs) and applied profiles (persistence.rs) *)

Inductive Arrival := ArrivalMention (mention : MentionArrival) | ArrivalMonitor (display body network : str).

(** The profile and the secrets a session was built from. *)
Record AppliedSession := mkApplied { applied_profile : Profile; applied_password : str; applied_nickserv : str }.
#[export] Instance applied_eta : Eta AppliedSession := fun a => mkApplied (applied_profile a) (applied_password a) (applied_nickserv a).
#[export] Instance applied_eq_dec : EqDecision AppliedSession.
Proof. solve_decision. Defined.

(** ** The controller (controller.rs) *)

Section State.
Context `{platform : Platform} `{client_log : ClientLog} `{json : TimesJson} `{secrets : CredentialStore}.

Record Controller := mkController {
  ctl_now : Time;
  ctl_manager : btree Core;
  ctl_reducer : EventReducer;
  ctl_console : StatusConsole;
  ctl_inbox : Inbox.Inbox;
  ctl_last_errors : btree str;
  ctl_capabilities : btree IrcCapabilitySet;
  ctl_nicks : btree str;
  ctl_selected : option ConversationKey;
  ctl_selected_target : str;
  ctl_console_network : str;
  ctl_console_open : bool;
  ctl_network_order : list str;
  ctl_collapsed : bset;
  ctl_notifications : list ViewNotify;
  ctl_away : AutoawayState;
  ctl_watches : ReplyWatches;
  ctl_lists : ChannelListRequests;
  ctl_list_view : ChannelListView;
  ctl_ignores : CaseListStore;
  ctl_mutes : CaseListStore;
  ctl_highlights : CaseListStore;
  ctl_monitors : CaseListStore;
  ctl_monitor : MonitorState;
  ctl_typing_target : option (str * str);
  ctl_cancelled_joins : gset ConversationKey;
  ctl_prefs : Preferences;
  ctl_profiles : btree Profile;
  ctl_open_directs : OpenDirectStore;
  ctl_motd_seen : bset;
  ctl_applied_avatars : bset;
  ctl_profile_syncs : bset;
  ctl_file : SharedFile;
  ctl_playback : PlaybackCoordinator;
  ctl_times : PlaybackTimeStore;
  ctl_follow_end : bool;
  ctl_focused : bool;
  ctl_markers : ReadMarkerState;
  ctl_arrivals : list Arrival;
  ctl_filters : btree IrcServerFeatures;
  ctl_resumes : bset;
  ctl_pumping : bool;
  ctl_vault : Vault;
  ctl_waiting_sessions : bset;
  ctl_waiting_starts : bset;
  ctl_applied : btree AppliedSession;
  ctl_transports : str -> option str;
  ctl_policies : StsStore;
  ctl_stopped : list Core;
}.
#[export] Instance controller_eta : Eta Controller := fun c =>
  mkController (ctl_now c) (ctl_manager c) (ctl_reducer c) (ctl_console c) (ctl_inbox c) (ctl_last_errors c) (ctl_capabilities c) (ctl_nicks c)
    (ctl_selected c) (ctl_selected_target c) (ctl_console_network c) (ctl_console_open c) (ctl_network_order c) (ctl_collapsed c) (ctl_notifications c) (ctl_away c)
    (ctl_watches c) (ctl_lists c) (ctl_list_view c) (ctl_ignores c) (ctl_mutes c) (ctl_highlights c) (ctl_monitors c) (ctl_monitor c)
    (ctl_typing_target c) (ctl_cancelled_joins c) (ctl_prefs c) (ctl_profiles c) (ctl_open_directs c) (ctl_motd_seen c) (ctl_applied_avatars c)
    (ctl_profile_syncs c) (ctl_file c) (ctl_playback c) (ctl_times c) (ctl_follow_end c) (ctl_focused c) (ctl_markers c) (ctl_arrivals c)
    (ctl_filters c) (ctl_resumes c) (ctl_pumping c) (ctl_vault c) (ctl_waiting_sessions c) (ctl_waiting_starts c) (ctl_applied c) (ctl_transports c)
    (ctl_policies c) (ctl_stopped c).

Definition list_store (group key : str) (file : SharedFile) : CaseListStore := new_list_store (mkIniListBacking group key) file.

(** [Controller::with_backing], over the settings file, the policies its sessions share, the
    keychain, and the factory that opens a transport for a network or says why it cannot. *)
Definition new_controller (now : Time) (file : SharedFile) (policies : StsStore) (chain : Keychain) (transports : str -> option str) : Controller :=
  let closed := list_store (lit "closedConversations") TARGETS_KEY file in
  mkController now [] (set_closed_persistence (closed, file) new_reducer) (new_console 0) [] [] [] [] None [] [] false [] [] [] new_away
    new_watches new_list_requests new_list_view (list_store (lit "ignores") (lit "nicks") file) (list_store (lit "mutes") TARGETS_KEY file)
    (list_store (lit "highlights") (lit "words") file) (list_store (lit "monitors") (lit "nicks") file) (mkMonitor [] []) None ∅ default_preferences
    [] (new_open_direct_store file) [] [] [] file new_playback [] true true (mkMarkerState ∅ ∅) [] [] [] false
    (mkVault chain []) [] [] [] transports policies [].

Implicit Types (c : Controller) (key : ConversationKey).

(** ** Views *)

Definition server_features c (network : str) : IrcServerFeatures := features_of (net_facts (ctl_reducer c)) network.
Definition mapping_for c (network : str) : IrcCaseMapping := case_mapping (server_features c network).
Definition key_for c (network target : str) : ConversationKey := conversation_key (ctl_reducer c) network target.
Definition conversation c key : option ConversationState := find (ctl_reducer c) key.
Definition current_nick c (network : str) : str := default [] (bt_get network (ctl_nicks c)).
Definition network_ids c : list str := bt_keys (ctl_manager c).
Definition caps c (network : str) : IrcCapabilitySet := default 0 (bt_get network (ctl_capabilities c)).

Definition queue (surfaces : list ViewNotify) c : Controller := c <| ctl_notifications := merge_views (ctl_notifications c) surfaces |>.

(** [set_last_error] *)
Definition set_last_error (network : str) (message : option str) c : Controller :=
  match message with
  | Some text => if is_empty text then c <| ctl_last_errors := bt_remove network (ctl_last_errors c) |> else c <| ctl_last_errors := bt_insert network text (ctl_last_errors c) |>
  | None => c <| ctl_last_errors := bt_remove network (ctl_last_errors c) |>
  end.

(** [append_status] *)
Definition append_status (entry : StatusEntry) c : Controller :=
  let network := entry_network_id entry in
  let c := c <| ctl_console := console_append (ctl_console c) entry |> in
  let c := if ctl_console_open c && str_eqb (ctl_console_network c) network then c <| ctl_console := mark_seen (ctl_console c) network |> else c in
  queue [Status] c.

(** [append_inbox] *)
Definition add_to_inbox (item : InboxItem) c : Controller :=
  queue [Inbox] (c <| ctl_inbox := inbox_append (ctl_inbox c) item (mapping_for c (item_network item)) |>).

(** ** The reducer and the settings file *)

(** An edit of the settings file by the profiles or the preferences, and the answer. *)
Definition on_file (edit : SharedFile -> SharedFile * Settings.Status) c : Controller * Settings.Status :=
  let '(file, status) := edit (ctl_file c) in (c <| ctl_file := file |>, status).
Definition save_to_file (edit : SharedFile -> SharedFile * Settings.Status) c : Controller := (on_file edit c).1.

(** The closed list the reducer holds is kept in the same file as the other lists: it is lent the
    file, and gives it back. *)
Definition on_reducer {A} (f : EventReducer -> EventReducer * A) c : Controller * A :=
  let lend r := set_facts (fun facts => facts <| closed_store := (fun closed : ClosedList => (closed.1, ctl_file c)) <$> closed_store facts |>) r in
  let '(r, a) := f (lend (ctl_reducer c)) in
  let file := match closed_store (net_facts r) with Some closed => (closed : ClosedList).2 | None => ctl_file c end in
  (c <| ctl_reducer := r |> <| ctl_file := file |>, a).
Definition map_reducer (f : EventReducer -> EventReducer) c : Controller := (on_reducer (fun r => (f r, tt)) c).1.

Definition on_ignores (f : CaseListStore -> Kept -> CaseListStore * Kept * bool) c : Controller * bool :=
  let '(l, file, changed) := f (ctl_ignores c) (ctl_file c) in (c <| ctl_ignores := l |> <| ctl_file := file |>, changed).
Definition on_mutes (f : CaseListStore -> Kept -> CaseListStore * Kept * bool) c : Controller * bool :=
  let '(l, file, changed) := f (ctl_mutes c) (ctl_file c) in (c <| ctl_mutes := l |> <| ctl_file := file |>, changed).
Definition on_highlights (f : CaseListStore -> Kept -> CaseListStore * Kept * bool) c : Controller * bool :=
  let '(l, file, changed) := f (ctl_highlights c) (ctl_file c) in (c <| ctl_highlights := l |> <| ctl_file := file |>, changed).
Definition on_monitors (f : CaseListStore -> Kept -> CaseListStore * Kept * bool) c : Controller * bool :=
  let '(l, file, changed) := f (ctl_monitors c) (ctl_file c) in (c <| ctl_monitors := l |> <| ctl_file := file |>, changed).
Definition on_directs (f : OpenDirectStore -> Kept -> OpenDirectStore * Kept * bool) c : Controller * bool :=
  let '(d, file, changed) := f (ctl_open_directs c) (ctl_file c) in (c <| ctl_open_directs := d |> <| ctl_file := file |>, changed).
(** [self.closed.borrow_mut()]: the list the reducer shares. *)
Definition on_closed (f : CaseListStore -> Kept -> CaseListStore * Kept * bool) c : Controller :=
  map_reducer (set_facts (fun facts => facts <| closed_store := (fun closed : ClosedList => (f closed.1 closed.2).1) <$> closed_store facts |>)) c.
Definition closed_list c : option CaseListStore := (fun closed : ClosedList => closed.1) <$> closed_store (net_facts (ctl_reducer c)).

(** ** The stores (stores.rs) *)

Definition ignore_nick_is_usable (nick : str) (features : IrcServerFeatures) : bool :=
  if is_empty nick || is_channel features nick then false
  else negb (existsb (fun ch => (ch =? chr "!") || (ch =? chr "@") || (ch =? chr "*") || (ch =? chr ",")) nick).

Definition mute_target_is_usable (target : str) (features : IrcServerFeatures) : bool :=
  if is_empty target then false else if is_channel features target then true else ignore_nick_is_usable target features.

Definition ignore_drops_inbound (message : IrcMessage) (self_nick : str) (nicks : list str) (features : IrcServerFeatures) : bool :=
  let sender := prefix_nick message in
  let mapping := case_mapping features in
  if is_empty sender || is_empty nicks then false
  else if negb (contains_value nicks sender mapping) then false
  else if str_eqb (msg_command message) (lit "NOTICE") || str_eqb (msg_command message) (lit "INVITE") then true
  else if str_eqb (msg_command message) (lit "PRIVMSG") || str_eqb (msg_command message) (lit "TAGMSG") then
    let target := text_param message 0 in
    if is_empty target || is_channel features target then false else equals mapping target self_nick
  else false.

(** ** Sessions *)

(** The closures installed on a session read the lists live, so they are looked up at each use:
    the inbound filter over the ignore list as it is, under the features it was installed with,
    and the resume point over the playback times as they are. The sessions share one store of
    policies: it is lent to each, and taken back. *)
Definition live c (network : str) (s : Core) : Core :=
  let filter := (fun features message (_ self_nick : str) => ignore_drops_inbound message self_nick (entries (ctl_ignores c) network) features)
    <$> bt_get network (ctl_filters c) in
  let resume := if bs_contains network (ctl_resumes c)
    then Some (fun target mapping => history_resume_instant (ctl_playback c) network target mapping (ctl_times c) (ctl_file c)) else None in
  s <| now := ctl_now c |> <| ignore_filter := filter |> <| history_resume := resume |> <| sts := ctl_policies c |>.

(** [Controller::session] *)
Definition session c (network : str) : option Core := live c network <$> bt_get network (ctl_manager c).
Definition put_session (network : str) (s : Core) c : Controller := c <| ctl_manager := bt_insert network s (ctl_manager c) |> <| ctl_policies := sts s |>.
Definition registered_session c (network : str) : option Core :=
  match session c network with Some s => if is_registered s then Some s else None | None => None end.

(** A write of the network's session, and whether it went out. *)
Definition write_session (network : str) (f : Core -> Core * bool) c : Controller * bool :=
  match session c network with Some s => let '(s, sent) := f s in (put_session network s c, sent) | None => (c, false) end.

Definition ignored_nicks c (network : str) : list str := listed (ctl_ignores c) network (mapping_for c network).
Definition ignore_nick (network nick : str) c : Controller * bool := on_ignores (fun l => list_add l network nick (mapping_for c network)) c.
Definition unignore_nick (network nick : str) c : Controller * bool := on_ignores (fun l => list_remove l network nick (mapping_for c network)) c.

Definition apply_mute (network target : str) (value : bool) c : Controller * bool :=
  if is_empty network || is_empty target then (c, false)
  else
    let mapping := mapping_for c network in
    let '(c, changed) := on_mutes (fun l => if value then list_add l network target mapping else list_remove l network target mapping) c in
    (queue [Conversations] (map_reducer (set_muted (key_for c network target) value) c), changed).

Definition highlighted_words c (network : str) : list str := listed (ctl_highlights c) network (mapping_for c network).
Definition sync_highlight_words (network : str) c : Controller :=
  if is_empty network then c else map_reducer (set_highlight_words network (entries (ctl_highlights c) network)) c.
Definition add_highlight_word (network word : str) c : Controller * bool :=
  let '(c, changed) := on_highlights (fun l => list_add l network word (mapping_for c network)) c in (sync_highlight_words network c, changed).
Definition remove_highlight_word (network word : str) c : Controller * bool :=
  let '(c, changed) := on_highlights (fun l => list_remove l network word (mapping_for c network)) c in (sync_highlight_words network c, changed).

Definition install_history_resume (network : str) c : Controller :=
  match session c network with Some _ => c <| ctl_resumes := bs_insert network (ctl_resumes c) |> | None => c end.
Definition install_ignore_filter (network : str) c : Controller :=
  match session c network with
  | Some _ => install_history_resume network (c <| ctl_filters := bt_insert network (server_features c network) (ctl_filters c) |>)
  | None => c
  end.

Definition attach_store_hooks (network : str) c : Controller :=
  let c := install_ignore_filter network c in
  let c := sync_highlight_words network c in
  let c := foldl (fun c target => map_reducer (set_muted (key_for c network target) true) c) c (entries (ctl_mutes c) network) in
  install_history_resume network c.
End State.
