(* ===== verification/ControllerServices.v ===== *)
(** * ControllerServices: the parts of the controller below its handlers
    (src/client/src/controller/: persistence.rs, readmarker.rs, playback.rs, autoawayruntime.rs,
    monitorcoordinator.rs, channellist.rs)

    The queries to reopen, read markers, the playback requests, auto-away, MONITOR and /list.
    [pump] is the pump of the controller, which an intent runs before and after its work. *)

From S2P Require Import SessionTypes Sts Profiles Credentials.
From S2P Require Import Prelude Text Message Parser CaseMapping ServerFeatures Capability JoinTarget OrdMap SessionTypes Platform Ctcp Metadata Typing.
From S2P Require Import SessionCore SessionOutbound SessionMarkers SessionHistory SettingsIni Settings Lists StatusEntry Command Autoaway Inbox Console.
From S2P Require Import ChannelList PlaybackTime Presence Events Conversation MembershipNoise ReducerState ReducerTranscript ReducerSplice Reducer ReducerViews.
From S2P Require Import ClosedChannels Playback ControllerState.

Section Services.
Context `{platform : Platform} `{client_log : ClientLog} `{json : TimesJson} `{secrets : CredentialStore}.
Implicit Types (c : Controller) (key : ConversationKey).

(** ** Queries to reopen (persistence.rs) *)

Definition persistable_direct c (network target : str) : bool := persistable_direct_target (ctl_reducer c) network target.

(** [remember_open_direct] *)
Definition remember_open_direct (network target : str) c : Controller :=
  if negb (persistable_direct c network target) then c
  else
    let key := key_for c network target in
    let found := conversation c key in
    if match found with Some conv => conv_is_channel conv | None => false end then c
    else
      let stored := match found with Some conv => if is_empty (conv_target conv) then target else conv_target conv | None => target end in
      let mapping := mapping_for c network in
      let c := (on_directs (undismiss network stored mapping) c).1 in
      let c := (on_directs (direct_add network stored mapping) c).1 in
      on_closed (fun l => list_remove l network stored mapping) c.

(** [forget_open_direct] *)
Definition forget_open_direct (network target : str) c : Controller :=
  if is_empty network || is_empty target then c
  else
    let mapping := mapping_for c network in
    let c := (on_directs (direct_remove network target mapping) c).1 in
    let c := (on_directs (dismiss network target mapping) c).1 in
    on_closed (fun l => list_add l network target mapping) c.

Definition is_direct c key : bool := match conversation c key with Some conv => negb (conv_is_channel conv) | None => false end.

Definition note_self_authored_direct (network author target : str) c : Controller :=
  if negb (equals (mapping_for c network) author (current_nick c network)) then c
  else if is_direct c (key_for c network target) then remember_open_direct network target c else c.

(** [rekey_nick_lists]; the scroll places are the window's. *)
Definition rekey_nick_lists (network old new : str) c : Controller :=
  let mapping := mapping_for c network in
  let c := (on_directs (direct_rekey network old new mapping) c).1 in
  let c := (on_directs (rekey_dismissed network old new mapping) c).1 in
  let c := on_closed (fun l => list_rekey l network old new mapping) c in
  let '(times, file, _) := playback_rekey (ctl_times c) (ctl_file c) network old new mapping in
  let c := c <| ctl_times := times |> <| ctl_file := file |> in
  c <| ctl_playback := rekey_snapshot (ctl_reducer c) network old new (ctl_playback c) |>.

Definition chat_of (event : Event) : option ChatEvent :=
  match event with EvMessage line | EvNotice line | EvAction line => Some line | _ => None end.

(** [other_reopened_direct] *)
Definition other_reopened_direct (event : Event) c : option (str * str) :=
  let? line := chat_of event in
  let key := chat_conversation line in
  let network := network_id key in
  let mapping := mapping_for c network in
  if is_channel (server_features c network) (normalized_target key) then None
  else if equals mapping (chat_author line) (current_nick c network) then None
  else if bool_decide (is_Some (conversation c key)) then None
  else
    let stored := if is_empty (chat_target line) then normalized_target key else chat_target line in
    let? closed := closed_list c in
    if list_contains closed network stored mapping || list_contains closed network (normalized_target key) mapping then Some (network, stored) else None.

(** One saved query of [restore_open_directs]. *)
Definition restore_direct (network : str) (prune : bool) (st : Controller * bool) (target : str) : Controller * bool :=
  let '(c, created) := st in
  let mapping := mapping_for c network in
  let drop_it c := (on_directs (direct_remove network target mapping) c).1 in
  if negb (persistable_direct c network target) then (if prune then drop_it c else c, created)
  else
    let key := key_for c network target in
    if bool_decide (is_Some (conversation c key)) then st
    else
      let '(c, made) := on_reducer (ensure_conversation key target Restore) c in
      if is_none made then (if prune then drop_it c else c, created) else (c, true).

Definition restore_open_directs (network : str) c : Controller :=
  if negb (directs (ctl_prefs c)) || is_empty network then c
  else
    let prune := bs_contains network (ctl_motd_seen c) in
    let '(c, created) := foldl (restore_direct network prune) (c, false) (direct_listed (ctl_open_directs c) network (mapping_for c network)) in
    if created then queue [Conversations] c else c.

(** ** Playback (playback.rs) *)

Definition znc_playback_cap c (network : str) : bool := contains (caps c network) ZncPlayback.
Definition chat_history_cap c (network : str) : bool := contains (caps c network) ChatHistory && contains (caps c network) Batch.
Definition motd_seen c (network : str) : bool := bs_contains network (ctl_motd_seen c).
Definition restored_directs c (network : str) : list str := direct_listed (ctl_open_directs c) network (mapping_for c network).

(** A request of the coordinator with the network's session. *)
Definition with_playback (network : str) (f : PlaybackCoordinator * Core -> PlaybackCoordinator * Core) c : Controller :=
  match session c network with
  | Some s => let '(p, s) := f (ctl_playback c, s) in put_session network s (c <| ctl_playback := p |>)
  | None => c
  end.

Definition request_znc_playback (network : str) c : Controller :=
  with_playback network (request_playback (ctl_reducer c) (znc_playback_cap c network) (motd_seen c network) (restored_directs c network)) c.
Definition request_chat_history_catch_up (network : str) c : Controller :=
  with_playback network (request_catch_up (ctl_reducer c) (chat_history_cap c network) (motd_seen c network) (restored_directs c network) (ctl_now c)) c.
Definition ask_channel_playback (network channel : str) c : Controller :=
  with_playback network (request_channel_playback (ctl_reducer c) channel (znc_playback_cap c network) (motd_seen c network)) c.

Definition remember_query (c : Controller) (query : RememberedQuery) : Controller :=
  if bool_decide (is_Some (conversation c (key_for c (remembered_network query) (remembered_target query))))
  then remember_open_direct (remembered_network query) (remembered_target query) c else c.

(** [note_kept_replay] *)
Definition note_kept_replay c : Controller :=
  let '(c, lines) := on_reducer take_kept_replay c in
  let '(times, file) := foldl (note_kept_line (ctl_playback c) (ctl_reducer c) (znc_playback_cap c)) (ctl_times c, ctl_file c) lines in
  let c := c <| ctl_times := times |> <| ctl_file := file |> in
  let '(c, queries) := on_reducer take_remembered_queries c in
  foldl remember_query c queries.

Definition note_clock (network : str) (message : IrcMessage) c : Controller :=
  let '(times, file) := note_playback_clock (ctl_playback c) (ctl_reducer c) network message (current_nick c network) (znc_playback_cap c network)
    (ctl_times c) (ctl_file c) in
  c <| ctl_times := times |> <| ctl_file := file |>.

(** [note_open_directs_motd] *)
Definition note_open_directs_motd (network : str) c : Controller :=
  if is_empty network || bs_contains network (ctl_motd_seen c) then c
  else
    let c := c <| ctl_motd_seen := bs_insert network (ctl_motd_seen c) |> in
    let c := restore_open_directs network c in
    let '(c, spliced) := on_reducer (release_pending_query_playback network) c in
    let c := note_kept_replay c in
    let c := if spliced then queue [Conversations; Messages] c else c in
    match session c network with
    | Some _ => request_chat_history_catch_up network (request_znc_playback network c)
    | None => c
    end.

(** ** Read markers (readmarker.rs) *)

Definition update_marker_state (f : ReadMarkerState -> ReadMarkerState) c : Controller := c <| ctl_markers := f (ctl_markers c) |>.
Definition awaits_get c key : bool := bool_decide (key ∈ awaiting_get (ctl_markers c)).

(** [ReadMarkerState]: [forget_network], [forget_conversation], [note_get_sent], [clear_awaiting_get], [clear_awaiting_network] *)
Definition markers_forget_network (network : str) (m : ReadMarkerState) : ReadMarkerState :=
  mkMarkerState (base.filter (fun key => network_id key <> network) (get_sent m)) (base.filter (fun key => network_id key <> network) (awaiting_get m)).
Definition markers_forget_conversation key (m : ReadMarkerState) : ReadMarkerState := mkMarkerState (get_sent m ∖ {[key]}) (awaiting_get m ∖ {[key]}).
Definition note_get_sent key (m : ReadMarkerState) : ReadMarkerState := mkMarkerState ({[key]} ∪ get_sent m) ({[key]} ∪ awaiting_get m).
Definition clear_awaiting_get key c : Controller * bool :=
  (update_marker_state (fun m => m <| awaiting_get := awaiting_get m ∖ {[key]} |>) c, awaits_get c key).
Definition clear_awaiting_network (network : str) c : Controller * bool :=
  let rest := base.filter (fun key => network_id key <> network) (awaiting_get (ctl_markers c)) in
  (update_marker_state (fun m => m <| awaiting_get := rest |>) c, negb (bool_decide (size rest = size (awaiting_get (ctl_markers c))))).

Definition selected_name c (conv : ConversationState) : str := if is_empty (conv_target conv) then ctl_selected_target c else conv_target conv.

(** [sync_read_marker_for_selection] *)
Definition sync_read_marker_for_selection c : Controller :=
  match ctl_selected c with
  | None => c
  | Some key =>
      if ctl_console_open c || negb (ctl_follow_end c) || negb (ctl_focused c) || window_inactive (net_facts (ctl_reducer c)) then c
      else if awaits_get c key then c
      else
        match session c (network_id key), conversation c key with
        | Some s, Some conv =>
            match latest_server_message_time conv with
            | None => c
            | Some when =>
                if match read_marker conv with Some marker => negb (read_marker_time_after when marker) | None => false end then c
                else put_session (network_id key) (queue_read_marker_set s (selected_name c conv) when) c
            end
        | _, _ => c
        end
  end.

(** [note_transcript_viewport] *)
Definition note_transcript_viewport (focused follow_end : bool) c : Controller :=
  sync_read_marker_for_selection (c <| ctl_focused := focused |> <| ctl_follow_end := follow_end |>).

(** The hold of the answered get: under its key, under the selection's key from before the
    case mapping was known, or under any key of the network that folds to it now. *)
Definition answered_get (network target : str) c : Controller * bool :=
  let mapping := mapping_for c network in
  let '(c, awaited) := clear_awaiting_get (key_for c network target) c in
  if awaited then (c, true)
  else
    let '(c, awaited) := match ctl_selected c with
      | Some selected => if str_eqb (network_id selected) network && equals mapping (normalized_target selected) target then clear_awaiting_get selected c else (c, false)
      | None => (c, false)
      end in
    if awaited then (c, true)
    else
      match list_find (fun pending => network_id pending = network /\ equals mapping (normalized_target pending) target = true) (elements (awaiting_get (ctl_markers c))) with
      | Some (_, pending) => clear_awaiting_get pending c
      | None => (c, false)
      end.

(** [read_marker_received] *)
Definition read_marker_received (network target : str) (marker : option Time) c : Controller :=
  if is_empty network then c
  else if is_empty target then
    let '(c, cleared) := clear_awaiting_network network c in if cleared then sync_read_marker_for_selection c else c
  else
    let key := key_for c network target in
    let '(c, awaited) := answered_get network target c in
    let channel := is_channel (server_features c network) target in
    if channel && bool_decide (conversation c key = None) then c
    else if negb channel && is_none marker then (if awaited then sync_read_marker_for_selection c else c)
    else
      let '(c, moved) := on_reducer (apply_server_read_marker key marker) c in
      let c := if moved then queue [Conversations] c else c in
      if awaited then sync_read_marker_for_selection c else c.

(** [request_read_marker_get_with_key] *)
Definition request_read_marker_get_with_key key (target : str) c : Controller :=
  if is_empty target || is_channel (server_features c (network_id key)) target || bool_decide (key ∈ get_sent (ctl_markers c)) then c
  else
    let '(c, sent) := write_session (network_id key) (fun s => request_read_marker_get s target) c in
    if sent then update_marker_state (note_get_sent key) c else c.

Definition read_marker_clear_awaiting_network (network : str) c : Controller :=
  let '(c, cleared) := clear_awaiting_network network c in if cleared then sync_read_marker_for_selection c else c.

Definition request_read_marker_get_for_selected_direct (network : str) c : Controller :=
  match ctl_selected c with
  | None => c
  | Some selected =>
      if negb (str_eqb (network_id selected) network) || is_channel (server_features c network) (normalized_target selected) then c
      else match conversation c selected with
           | None => c
           | Some conv => request_read_marker_get_with_key selected (selected_name c conv) c
           end
  end.
End Services.

(** ** Auto-away (autoawayruntime.rs) *)

Section Away.
Context `{platform : Platform} `{client_log : ClientLog} `{json : TimesJson} `{secrets : CredentialStore}.
Context (pump : Controller -> Controller).
Implicit Types (c : Controller) (a : AutoawayState).

Definition update_away (f : AutoawayState -> AutoawayState) c : Controller := c <| ctl_away := f (ctl_away c) |>.
Definition update_config (f : AutoawayConfig -> AutoawayConfig) c : Controller := update_away (fun a => a <| away_config := f (away_config a) |>) c.

(** [AutoawayState::stop_timers] *)
Definition stop_timers a : AutoawayState :=
  let stopped := base.filter (fun entry => Some entry.1 <> idle_timer a /\ Some entry.1 <> grace_timer a) (away_clock a) in
  a <| generation := generation a + 1 |> <| away_clock := stopped |> <| idle_timer := None |> <| grace_timer := None |> <| grace_armed := false |>.

(** [AutoawayState::reason] *)
Definition away_reason a : str := if is_empty (one_shot_reason (away_config a)) then default_reason (away_config a) else one_shot_reason (away_config a).

Definition within_range a : bool :=
  away_enabled (away_config a) && (AUTOAWAY_MIN_TIMEOUT_SECONDS <=? timeout_seconds (away_config a))%Z
  && (timeout_seconds (away_config a) <=? AUTOAWAY_MAX_TIMEOUT_SECONDS)%Z.

(** A timer of the clock runs out: its callback queues the expiry. *)
Definition away_timer_fired (timer : AwayTimer) a : AutoawayState :=
  if bool_decide (timer ∈ (away_clock a).*1)
  then a <| away_clock := base.filter (fun entry => entry.1 <> timer) (away_clock a) |> <| expiries := expiries a ++ [timer] |> else a.

(** [autoaway_arm_idle] *)
Definition arm_idle a : AutoawayState :=
  let a := stop_timers a in
  if negb (within_range a) then a
  else
    let timer := (ExpiryIdle, generation a) in
    a <| away_clock := away_clock a ++ [(timer, from_secs (Z.to_N (timeout_seconds (away_config a))))] |> <| idle_timer := Some timer |>.

Definition autoaway_record_status (network text : str) c : Controller :=
  if is_empty network || is_empty text then c else append_status (status_outcome network text (ctl_now c)) c.

(** [autoaway_mark_session], for the session of the network *)
Definition autoaway_mark_session (network : str) c : Controller * bool :=
  match registered_session c network with
  | None => (c, false)
  | Some _ =>
      let '(c, sent) := write_session network (fun s => mark_away s (away_reason (ctl_away c))) c in
      if negb sent then (c, false) else (update_away (fun a => a <| auto_away := bs_insert network (auto_away a) |>) c, true)
  end.

Definition is_self_away c (network : str) : bool := bool_decide (network ∈ self_away (net_facts (ctl_reducer c))).

(** One network of [autoaway_trip]. *)
Definition trip_network (status : str) c (network : str) : Controller :=
  if bs_contains network (auto_away (ctl_away c)) || bs_contains network (manual_away (ctl_away c)) || is_self_away c network then c
  else let '(c, marked) := autoaway_mark_session network c in if marked then autoaway_record_status network status c else c.

Definition autoaway_trip c : Controller :=
  if negb (away_enabled (away_config (ctl_away c))) then c
  else
    let c := update_away (fun a => a <| tripped := true |>) c in
    let status := format_autoaway_tripped_status (away_reason (ctl_away c)) in
    update_away stop_timers (foldl (trip_network status) c (network_ids c)).

Definition autoaway_on_grace c : Controller :=
  if negb (grace_armed (ctl_away c)) then c
  else autoaway_trip (update_away (fun a => stop_timers (a <| grace_armed := false |>)) c).

Definition autoaway_on_idle c : Controller :=
  let config := away_config (ctl_away c) in
  if negb (away_enabled config) || (timeout_seconds config <? AUTOAWAY_MIN_TIMEOUT_SECONDS)%Z then c
  else
    let c := update_away (fun a => (stop_timers a) <| grace_armed := true |>) c in
    let grace := autoaway_grace_seconds (timeout_seconds config) in
    if (grace <=? 0)%Z then autoaway_on_grace c
    else
      update_away (fun a =>
        let timer := (ExpiryGrace, generation a) in
        a <| away_clock := away_clock a ++ [(timer, from_secs (Z.to_N grace))] |> <| grace_timer := Some timer |>) c.

(** [run_autoaway_expiry] *)
Definition run_autoaway_expiry c : Controller * bool :=
  match expiries (ctl_away c) with
  | [] => (c, false)
  | (expiry, armed) :: rest =>
      let c := update_away (fun a => a <| expiries := rest |>) c in
      if negb (armed =? generation (ctl_away c)) then (c, true)
      else (match expiry with ExpiryIdle => autoaway_on_idle c | ExpiryGrace => autoaway_on_grace c end, true)
  end.

(** One network of [autoaway_clear_networks]. *)
Definition clear_network (log_cleared : bool) c (network : str) : Controller :=
  match registered_session c network with
  | None => c
  | Some _ =>
      let '(c, sent) := write_session network (fun s => set_away_locked s []) c in
      if negb sent then c
      else
        let c := update_away (fun a => a <| unaway_sent := bs_insert network (unaway_sent a) |>) c in
        if log_cleared then autoaway_record_status network format_autoaway_cleared_status c else c
  end.

Definition autoaway_clear_networks (log_cleared : bool) c : Controller :=
  let networks := bs_elements (auto_away (ctl_away c)) in
  let c := update_away (fun a => a <| tripped := false |> <| auto_away := [] |>) c in
  let c := foldl (clear_network log_cleared) c networks in
  update_config (fun config => config <| one_shot_reason := [] |>) c.

Definition refresh_network (reason : str) c (network : str) : Controller :=
  match registered_session c network with
  | Some _ => (write_session network (fun s => mark_away s reason) c).1
  | None => c
  end.

Definition autoaway_refresh_reason c : Controller :=
  if negb (tripped (ctl_away c)) || negb (away_enabled (away_config (ctl_away c))) then c
  else foldl (refresh_network (away_reason (ctl_away c))) c (bs_elements (auto_away (ctl_away c))).

(** The settings an argument changes, and the reply; [None] for the usage line. *)
Definition autoaway_change (request : AutoawayRequest) c : option (Controller * str) :=
  let confirmed c := Some (c, format_autoaway_confirmation (away_config (ctl_away c))) in
  let arm c := if tripped (ctl_away c) then c else update_away arm_idle c in
  match away_kind request with
  | AutoawayUsage => None
  | AutoawayQuery => Some (c, format_autoaway_query (away_config (ctl_away c)))
  | AutoawayDisable =>
      let c := update_away (fun a => (stop_timers (a <| away_config := (away_config a) <| away_enabled := false |> |>)) <| tripped := false |>) c in
      confirmed (autoaway_clear_networks false c)
  | AutoawayEnableOn =>
      if (timeout_seconds (away_config (ctl_away c)) <? AUTOAWAY_MIN_TIMEOUT_SECONDS)%Z then None
      else confirmed (arm (update_config (fun config => config <| away_enabled := true |>) c))
  | AutoawaySetTimeout =>
      confirmed (arm (update_config (fun config =>
        let config := config <| away_enabled := true |> <| timeout_seconds := away_timeout request |> in
        if is_empty (away_text request) then config else config <| one_shot_reason := away_text request |>) c))
  | AutoawaySetDefaultReason => confirmed (update_config (fun config => config <| default_reason := away_text request |>) c)
  | AutoawayClearDefaultReason => confirmed (update_config (fun config => config <| default_reason := [] |>) c)
  end.

(** [autoaway_command] *)
Definition autoaway_command (request : AutoawayRequest) c : Controller * str :=
  let c := pump c in
  let previous_reason := away_reason (ctl_away c) in
  match autoaway_change request c with
  | None => (c, spec_usage (spec_for VAutoaway))
  | Some (c, text) =>
      let c := match away_kind request with AutoawayQuery => c | _ => save_to_file (save_autoaway (away_config (ctl_away c))) c end in
      let a := ctl_away c in
      let c := if tripped a && away_enabled (away_config a) && negb (str_eqb (away_reason a) previous_reason) then autoaway_refresh_reason c else c in
      (pump c, text)
  end.

(** [note_local_activity] *)
Definition note_local_activity c : Controller :=
  let c := pump c in
  let was_tripped := tripped (ctl_away c) in
  let c := update_away (fun a => a <| tripped := false |>) c in
  let c := if negb (is_empty (auto_away (ctl_away c))) then autoaway_clear_networks true c
    else if was_tripped then update_config (fun config => config <| one_shot_reason := [] |>) c else c in
  pump (if away_enabled (away_config (ctl_away c)) then update_away arm_idle c else c).

Definition note_manual_away (network : str) c : Controller :=
  update_away (fun a => a <| auto_away := bs_remove network (auto_away a) |> <| manual_away := bs_insert network (manual_away a) |>) c.

Definition note_away_cleared (network : str) c : Controller :=
  let was_auto := bs_contains network (auto_away (ctl_away c)) in
  let c := update_away (fun a => a <| auto_away := bs_remove network (auto_away a) |> <| manual_away := bs_remove network (manual_away a) |>) c in
  if was_auto && is_empty (auto_away (ctl_away c)) then update_config (fun config => config <| one_shot_reason := [] |>) c else c.

Definition autoaway_on_registered (network : str) c : Controller :=
  if tripped (ctl_away c) && away_enabled (away_config (ctl_away c)) then (autoaway_mark_session network c).1 else c.

Definition autoaway_forget_network (network : str) c : Controller :=
  update_away (fun a => a <| auto_away := bs_remove network (auto_away a) |> <| manual_away := bs_remove network (manual_away a) |>
    <| unaway_sent := bs_remove network (unaway_sent a) |>) c.

Definition unaway_after_chat (network : str) c : Controller :=
  if negb (is_self_away c network) || bs_contains network (unaway_sent (ctl_away c)) then c
  else
    let '(c, sent) := write_session network (fun s => set_away_locked s []) c in
    if sent then note_away_cleared network (update_away (fun a => a <| unaway_sent := bs_insert network (unaway_sent a) |>) c) else c.

(** [note_chat_sent] *)
Definition note_chat_sent (network : str) c : Controller := pump (unaway_after_chat network (note_local_activity (pump c))).
End Away.

(** ** MONITOR (monitorcoordinator.rs) *)

Section Monitor.
Context `{platform : Platform} `{client_log : ClientLog} `{json : TimesJson} `{secrets : CredentialStore}.
Context (pump : Controller -> Controller).
Implicit Types (c : Controller).

Definition update_monitor (f : MonitorState -> MonitorState) c : Controller := c <| ctl_monitor := f (ctl_monitor c) |>.

(** The states of a network that has any, changed. *)
Definition update_states (network : str) (f : btree MonitorPresence -> btree MonitorPresence) c : Controller :=
  match bt_get network (monitor_states (ctl_monitor c)) with
  | Some states => update_monitor (fun m => m <| monitor_states := bt_insert network (f states) (monitor_states m) |>) c
  | None => c
  end.

Definition presence_label (p : MonitorPresence) : str :=
  match p with MonitorUnknown => lit "unknown" | MonitorOnline => lit "online" | MonitorOffline => lit "offline" end.

Definition first_token (argument : str) : str := match split_once (N.eqb (chr " ")) argument with Some (token, _) => token | None => argument end.
Definition rest_after_first_token (argument : str) : str := match split_once (N.eqb (chr " ")) argument with Some (_, rest) => trim rest | None => [] end.

Definition monitor_target_nick (target : str) : str := trim (match split_once (N.eqb (chr "!")) target with Some (nick, _) => nick | None => target end).
Definition monitor_target_nicks (message : IrcMessage) : list str :=
  if (length (msg_params message) <? 2)%nat then []
  else base.filter (fun nick => nick <> []) (monitor_target_nick <$> split_on (N.eqb (chr ",")) (text_param message (length (msg_params message) - 1))).

Definition monitor_list_full_text (limit targets : str) : str :=
  lit "Monitor list is full" ++ (if is_empty limit then [] else lit " (" ++ limit ++ lit ")")
    ++ (if is_empty targets then [] else lit ": " ++ join_with (lit ", ") (split_on (N.eqb (chr ",")) targets)) ++ lit ".".

Definition monitor_status (network text : str) c : Controller := append_status (status_outcome network text (ctl_now c)) c.

(** [monitor_subscribe] *)
Definition monitor_subscribe (network : str) c : Controller :=
  let features := server_features c network in
  if bs_contains network (subscribed (ctl_monitor c)) || negb (monitor_advertised features) then c
  else match registered_session c network with
  | None => c
  | Some _ =>
      let c := update_monitor (fun m => mkMonitor (bs_insert network (subscribed m)) (bt_remove network (monitor_states m))) c in
      let nicks := listed (ctl_monitors c) network (case_mapping features) in
      let nicks := match monitor_limit features with Some limit => take (N.to_nat limit) nicks | None => nicks end in
      if is_empty nicks then c else pump (write_session network (fun s => send_monitor_locked s (chr "+") nicks) c).1
  end.

Definition monitor_forget_presence (network : str) c : Controller := update_monitor (monitor_forget network) c.

(** [monitor_presence] *)
Definition monitor_presence c (network nick : str) : MonitorPresence :=
  match bt_get network (monitor_states (ctl_monitor c)) with
  | Some states => default MonitorUnknown (bt_get (normalize (mapping_for c network) nick) states)
  | None => MonitorUnknown
  end.

Definition monitor_display_nick c (network nick : str) : str :=
  default nick (snd <$> list_find (fun stored => equals (mapping_for c network) stored nick = true) (entries (ctl_monitors c) network)).

Definition monitor_notify_muted c (network nick : str) : bool :=
  list_contains (ctl_mutes c) network nick (mapping_for c network)
  || match conversation c (key_for c network nick) with Some conv => muted conv | None => false end.

(** One nick of [handle_monitor_presence]. *)
Definition note_presence (network : str) (online : bool) c (nick : str) : Controller :=
  let mapping := mapping_for c network in
  if negb (list_contains (ctl_monitors c) network nick mapping) then c
  else
    let key := normalize mapping nick in
    let next := if online then MonitorOnline else MonitorOffline in
    let states := default [] (bt_get network (monitor_states (ctl_monitor c))) in
    let previous := default MonitorUnknown (bt_get key states) in
    let c := update_monitor (fun m => m <| monitor_states := bt_insert network (bt_insert key next states) (monitor_states m) |>) c in
    if bool_decide (previous = MonitorUnknown) || bool_decide (previous = next) then c
    else
      let display := monitor_display_nick c network nick in
      let body := if online then lit "is online" else lit "is offline" in
      let c := monitor_status network (display ++ lit " " ++ body) c in
      if monitor_notify_muted c network nick then c
      else
        let c := c <| ctl_arrivals := ctl_arrivals c ++ [ArrivalMonitor display body network] |> in
        if online then add_to_inbox (mkItem InboxMonitorOnline (ctl_now c) network display display body []) c else c.

Definition handle_monitor_presence (network : str) (message : IrcMessage) (online : bool) c : Controller :=
  foldl (note_presence network online) c (monitor_target_nicks message).

Definition drop_refused (network : str) c (target : str) : Controller :=
  let nick := monitor_target_nick target in
  let mapping := mapping_for c network in
  if is_empty nick then c
  else update_states network (bt_remove (normalize mapping nick)) (on_monitors (fun l => list_remove l network nick mapping) c).1.

(** [handle_monitor_list_full] *)
Definition handle_monitor_list_full (network : str) (message : IrcMessage) c : Controller :=
  let targets := text_param message 2 in
  let c := foldl (drop_refused network) c (split_on (N.eqb (chr ",")) targets) in
  monitor_status network (monitor_list_full_text (text_param message 1) targets) c.

(** What both commands check: a network, a registered session, one usable nick. *)
Definition monitor_argument c (network argument : str) : MonitorOutcome + str :=
  if is_empty network then inl MonitorRefused
  else match registered_session c network with
  | None => inl MonitorNotConnected
  | Some _ =>
      let nick := first_token argument in
      if negb (is_empty (rest_after_first_token argument)) || negb (ignore_nick_is_usable nick (server_features c network)) then inl MonitorRefused
      else inr nick
  end.

(** [add_monitored] *)
Definition add_monitored (network argument : str) c : Controller * MonitorOutcome :=
  match monitor_argument c network argument with
  | inl outcome => (c, outcome)
  | inr nick =>
      let features := server_features c network in
      let mapping := case_mapping features in
      let say text c := (monitor_status network text c, MonitorSent) in
      if negb (monitor_advertised features) then say (lit "This network does not support MONITOR.") c
      else if list_contains (ctl_monitors c) network nick mapping then say (lit "Already watching " ++ nick) c
      else if match monitor_limit features with Some limit => limit <=? blen (listed (ctl_monitors c) network mapping) | None => false end
      then say (monitor_list_full_text (show (default 0 (monitor_limit features))) nick) c
      else
        let '(c, added) := on_monitors (fun l => list_add l network nick mapping) c in
        if negb added then say (lit "Already watching " ++ nick) c
        else
          let '(c, sent) := write_session network (fun s => send_monitor_locked s (chr "+") [nick]) c in
          if sent then say (lit "Watching " ++ nick) c
          else ((on_monitors (fun l => list_remove l network nick mapping) c).1, MonitorRefused)
  end.

(** [remove_monitored] *)
Definition remove_monitored (network argument : str) c : Controller * MonitorOutcome :=
  match monitor_argument c network argument with
  | inl outcome => (c, outcome)
  | inr nick =>
      let mapping := mapping_for c network in
      let '(c, removed) := on_monitors (fun l => list_remove l network nick mapping) c in
      let c := if removed then (write_session network (fun s => send_monitor_locked s (chr "-") [nick]) (update_states network (bt_remove (normalize mapping nick)) c)).1 else c in
      (monitor_status network ((if removed then lit "No longer watching " else lit "Not watching ") ++ nick) c, MonitorSent)
  end.

Definition monitor_add (network argument : str) c : Controller * MonitorOutcome :=
  let '(c, outcome) := add_monitored network argument (pump c) in (pump c, outcome).
Definition monitor_remove (network argument : str) c : Controller * MonitorOutcome :=
  let '(c, outcome) := remove_monitored network argument (pump c) in (pump c, outcome).

(** [monitor_list] *)
Definition monitor_list (network argument : str) c : Controller * MonitorOutcome :=
  let c := pump c in
  if is_empty network then (c, MonitorRefused)
  else match registered_session c network with
  | None => (c, MonitorNotConnected)
  | Some _ =>
      if negb (is_empty argument) then (c, MonitorRefused)
      else
        let nicks := listed (ctl_monitors c) network (mapping_for c network) in
        let text := if is_empty nicks then lit "Not watching anyone"
          else lit "Watching: " ++ join_with (lit ", ") ((fun nick => nick ++ lit " (" ++ presence_label (monitor_presence c network nick) ++ lit ")") <$> nicks) in
        (monitor_status network text c, MonitorSent)
  end.
End Monitor.

(** ** /list (channellist.rs) *)

Section ChannelLists.
Context `{platform : Platform} `{client_log : ClientLog} `{json : TimesJson} `{secrets : CredentialStore}.
Context (pump : Controller -> Controller).
Implicit Types (c : Controller).

Definition update_view (f : ChannelListView -> ChannelListView) c : Controller := c <| ctl_list_view := f (ctl_list_view c) |>.
Definition list_state c (network : str) : option ChannelListState := bt_get network (list_states (ctl_lists c)).
Definition shows_list c (network : str) : bool := str_eqb (view_network (ctl_list_view c)) network.
Definition open_view : ChannelListView -> ChannelListView := fun v => v <| view_open := true |>.

(** [begin_channel_list_load] *)
Definition begin_channel_list_load (network mask : str) c : Controller * bool :=
  let c := c <| ctl_lists := (list_request network mask true (ctl_lists c)).1 |> in
  let c := update_view (fun v => open_view (view_begin_load network mask v)) c in
  let '(c, sent) := write_session network (fun s => list_channels s mask) c in
  if sent then (c, true)
  else (update_view (fun v => (view_clear v) <| view_open := false |>) (c <| ctl_lists := cancel_start network (ctl_lists c) |>), false).

(** [start_channel_list] *)
Definition start_channel_list (network mask : str) c : Controller * CommandOutcome :=
  if is_empty network then (c, Refused)
  else match registered_session c network with
  | None => (c, NotConnected)
  | Some _ =>
      let mask := trim mask in
      let same := match list_state c network with Some found => same_mask (list_mask found) mask | None => false end in
      let refresh := view_open (ctl_list_view c) && shows_list c network && same in
      let '(lists, kind) := list_request network mask refresh (ctl_lists c) in
      let c := c <| ctl_lists := lists |> in
      match list_state c network with
      | None => (c, Refused)
      | Some found =>
          match kind with
          | RequestLoading => (update_view (fun v => open_view (view_show network (list_mask found) (list_rows found) false true false (list_error found) v)) c, Command.Sent)
          | RequestCached => (update_view (fun v => open_view (view_show network (list_mask found) (list_rows found) true false true [] v)) c, Command.Sent)
          | RequestStart => let '(c, sent) := begin_channel_list_load network mask c in (c, if sent then Command.Sent else Refused)
          end
      end
  end.

(** [Controller::list_channels] *)
Definition ask_channel_list (network mask : str) c : Controller * CommandOutcome :=
  let '(c, outcome) := start_channel_list network mask (pump c) in (pump c, outcome).

Definition dismiss_channel_list c : Controller := update_view (fun v => v <| view_open := false |>) c.

(** [finish_channel_list] *)
Definition finish_channel_list (network : str) c : Controller :=
  let '(lists, result) := list_finish network (ctl_lists c) in
  let c := c <| ctl_lists := lists |> in
  if negb (finish_completed result) then c
  else match list_state c network with
  | None => c
  | Some cache =>
      if list_loading cache then c
      else
        let '(c, started) := match finish_pending result, registered_session c network with
          | Some pending, Some _ => begin_channel_list_load network pending c
          | _, _ => (c, false)
          end in
        if started then c
        else if shows_list c network then update_view (view_show network (list_mask cache) (list_rows cache) true false false []) c else c
  end.

(** [fail_channel_list] *)
Definition fail_channel_list (network text : str) (timed_out : bool) c : Controller * bool :=
  let '(lists, failed) := list_fail network text timed_out (ctl_lists c) in
  let c := c <| ctl_lists := lists |> in
  if negb failed then (c, false) else (if shows_list c network then update_view (view_fail text) c else c, true).

(** The reason a numeric gives for a LIST that failed, when it is one. *)
Definition list_failure (message : IrcMessage) : option str :=
  let command := msg_command message in
  let try_again := str_eqb command (lit "263") in
  let too_many := str_eqb command (lit "416") in
  let error_numeric := match command with first :: _ => (first =? chr "4") || (first =? chr "5") | [] => false end in
  let mentions_list := existsb (fun raw => eq_ignore_ascii_case (wire_text raw) (lit "LIST")) (msg_params message) in
  if negb (str_len command =? 3) || negb (try_again || too_many || error_numeric) then None
  else if (try_again || (error_numeric && negb too_many)) && negb mentions_list then None
  else
    let text := default [] (wire_text <$> last (msg_params message)) in
    Some (if negb (is_empty text) then text
          else if try_again then lit "Server load is too heavy. Try /list again."
          else if too_many then lit "Too many channel matches. Try a narrower /list."
          else lit "Channel list failed. Try /list again.").

(** [fail_channel_list_from_numeric] *)
Definition fail_channel_list_from_numeric (network : str) (message : IrcMessage) c : Controller * bool :=
  if negb (is_loading network (ctl_lists c)) then (c, false)
  else match list_failure message with Some text => fail_channel_list network text false c | None => (c, false) end.

Definition listed_channel (message : IrcMessage) : ListedChannel :=
  mkListed (text_param message 1) (default 0 (parse_unsigned usize_max (text_param message 2))) (text_param message 3).

(** [handle_channel_list_message] *)
Definition handle_channel_list_message (network : str) (message : IrcMessage) c : Controller * bool :=
  let command := msg_command message in
  if str_eqb command (lit "322") then
    if (length (msg_params message) <? 3)%nat then (c, true)
    else
      let row := listed_channel message in
      let '(lists, replaced) := list_row network row (ctl_lists c) in
      let c := c <| ctl_lists := lists |> in
      let v := ctl_list_view c in
      (if view_open v && shows_list c network && view_loading v then update_view (append_row row replaced) c else c, true)
  else if str_eqb command (lit "321") then (c <| ctl_lists := list_activity network (ctl_lists c) |>, true)
  else if str_eqb command (lit "323") then (finish_channel_list network c, true)
  else fail_channel_list_from_numeric network message c.

Definition forget_channel_list (network : str) c : Controller :=
  let c := c <| ctl_lists := list_drop network (ctl_lists c) |> in
  if shows_list c network then update_view (fun v => (view_clear v) <| view_open := false |>) c else c.

(** [run_channel_list_expiry] *)
Definition run_channel_list_expiry c : Controller * bool :=
  let '(lists, network) := take_expiry (ctl_lists c) in
  let c := c <| ctl_lists := lists |> in
  match network with
  | None => (c, false)
  | Some network => ((fail_channel_list network CHANNEL_LIST_TIMEOUT_TEXT true c).1, true)
  end.
End ChannelLists.
