(* ===== verification/ControllerReplies.v ===== *)
(** * ControllerReplies: events folded, and replies routed to who asked
    (src/client/src/controller/: controller.rs [apply], replyrouter.rs, replytext.rs, listmode.rs)

    [apply] folds one event into the reducer and hands on what it raised. A WHOIS, a CTCP query,
    a list inquiry or a METADATA write arms a watch; the reply that matches it is copied to the
    conversation that asked, and ends the watch. *)

From S2P Require Import SessionTypes Sts Profiles Credentials.
From S2P Require Import Prelude Text Message Parser CaseMapping ServerFeatures Capability JoinTarget OrdMap Scram SessionTypes Platform Ctcp Metadata Typing.
From S2P Require Import SessionCore SessionOutbound SessionMarkers SettingsIni Settings Lists StatusEntry Command Autoaway Inbox Console AvatarUrl.
From S2P Require Import ChannelList PlaybackTime Presence Events Conversation MembershipNoise ReducerState ReducerTranscript ReducerSplice Reducer ReducerViews.
From S2P Require Import ClosedChannels Playback ControllerState ControllerServices.

(** ** Texts (replytext.rs) *)

Definition refused_or_wrong_scope (surface : ComposerSurface) : CommandOutcome :=
  match surface with OnConversation => WrongScope | OnStatus => Refused end.

(** [is_clear_alias] *)
Definition is_clear_alias (argument : str) : bool :=
  let words := split_words argument in eq_ignore_ascii_case (words_first words) (lit "clear") && is_empty (words_rest words).

Definition by_key (canonical status avatar : str) : str :=
  if str_eqb canonical STATUS_KEY then status else if str_eqb canonical AVATAR_KEY then avatar else [].
Definition cleared_message (canonical : str) : str := by_key canonical (lit "Standing status cleared.") (lit "Avatar cleared.").
Definition set_message (canonical value : str) : str :=
  by_key canonical (lit "Standing status set to " ++ value ++ lit ".") (lit "Avatar set to " ++ value ++ lit ".").
Definition set_fail_message (canonical reason : str) : str :=
  by_key canonical (lit "Could not set standing status: " ++ reason) (lit "Could not set avatar: " ++ reason).
Definition clear_fail_message (canonical reason : str) : str :=
  by_key canonical (lit "Could not clear standing status: " ++ reason) (lit "Could not clear avatar: " ++ reason).
Definition no_capability_message (key : str) : str :=
  if str_eqb key STATUS_KEY then lit "This network does not support standing status." else lit "This network does not support avatars.".
Definition no_value_message (key : str) : str :=
  if str_eqb key STATUS_KEY then lit "This network does not allow standing status text." else lit "This network does not allow avatar URLs.".
Definition inspect_empty_message (key : str) : str :=
  if str_eqb key STATUS_KEY then lit "No standing status. Use /status <text> or /status clear."
  else lit "No standing avatar. Use /avatar <url|email> or /avatar clear.".
Definition inspect_value_message (key value : str) : str :=
  (if str_eqb key STATUS_KEY then lit "Standing status: " else lit "Standing avatar: ") ++ value.

Definition copies_labeled_standard_reply (label : str) : bool :=
  is_one_of label [lit "FAIL"; lit "WARN"; lit "NOTE"] || (is_numeric_command label && starts_four_or_five label).

(** [format_pair]: the pattern alone is scanned. *)
Fixpoint format_pair (pattern first second : str) : str :=
  match pattern with
  | [] => []
  | c :: rest =>
      if c =? chr "%" then
        match rest with
        | d :: rest' =>
            if d =? chr "1" then first ++ format_pair rest' first second
            else if d =? chr "2" then second ++ format_pair rest' first second
            else c :: format_pair rest first second
        | [] => [c]
        end
      else c :: format_pair rest first second
  end.

#[export] Instance ListMaskKind_eq_dec : EqDecision ListMaskKind.
Proof. solve_decision. Defined.

Section Replies.
Context `{platform : Platform} `{client_log : ClientLog} `{json : TimesJson} `{secrets : CredentialStore}.
Implicit Types (c : Controller) (key : ConversationKey) (surface : ComposerSurface).

(** A question to a network's session. *)
Definition ask_session {A} (network : str) (absent : A) (f : Core -> Core * A) c : Controller * A :=
  match session c network with Some s => let '(s, answer) := f s in (put_session network s c, answer) | None => (c, absent) end.

Definition update_watches (f : ReplyWatches -> ReplyWatches) c : Controller := c <| ctl_watches := f (ctl_watches c) |>.

(** [forget_replies] *)
Definition forget_replies (network : str) (w : ReplyWatches) : ReplyWatches :=
  w <| whois_watches := bt_retain (fun key _ => negb (str_eqb (network_id key) network)) (whois_watches w) |>
    <| ctcp_watches := bt_retain (fun watched _ => negb (str_eqb (network_id watched.1) network)) (ctcp_watches w) |>
    <| labeled_watches := bt_retain (fun key _ => negb (str_eqb (network_id key) network)) (labeled_watches w) |>
    <| list_mode_watches := bt_remove network (list_mode_watches w) |>
    <| own_metadata_watches := bt_remove network (own_metadata_watches w) |>.

(** The keys of the watches: a nick, a nick and a command, and a request label. *)
Definition whois_key c (network nick : str) : option ConversationKey :=
  let trimmed := trim nick in
  if is_empty network || is_empty trimmed then None else Some (mkKey network (normalized_target (key_for c network trimmed))).
Definition ctcp_key c (network nick command : str) : option (ConversationKey * str) :=
  let trimmed := trim nick in
  let verb := to_uppercase (trim command) in
  if is_empty network || is_empty trimmed || is_empty verb then None else Some (mkKey network (normalized_target (key_for c network trimmed)), verb).
Definition labeled_key (network label : str) : ConversationKey := mkKey network label.

(** [note_nick_delivery] *)
Definition note_nick_delivery (network target : str) c : Controller :=
  if is_channel (server_features c network) target then c
  else match whois_key c network target with
  | None => c
  | Some key =>
      match bt_get key (whois_watches (ctl_watches c)) with
      | Some watch => update_watches (fun w => w <| whois_watches := bt_insert key (watch <| failed_is_ambiguous := true |>) (whois_watches w) |>) c
      | None => c
      end
  end.

(** [request_label_finished] *)
Definition request_label_finished (network label : str) c : Controller :=
  if is_empty network || is_empty label then c
  else update_watches (fun w => w <| labeled_watches := bt_remove (labeled_key network label) (labeled_watches w) |>) c.

(** ** Folding an event (controller.rs) *)

(** [claim_first_conversation] *)
Definition claim_first_conversation c : Controller :=
  match conversations (ctl_reducer c) with
  | [] => c
  | (key, conv) :: _ =>
      let c := c <| ctl_selected := Some key |> <| ctl_selected_target := conv_target conv |> in
      let c := (map_reducer (mark_selected key) c) <| ctl_console_open := false |> in
      if conv_is_channel conv then c else request_read_marker_get_with_key key (conv_target conv) c
  end.

(** What an event changes before the reducer takes it. *)
Definition before_apply (event : Event) c : Controller :=
  match event with
  | EvWelcome e =>
      let network := welcome_network e in
      update_marker_state (markers_forget_network network) (update_watches (forget_replies network) (autoaway_forget_network network c))
  | EvSelfAway e => update_away (fun a => a <| unaway_sent := bs_remove (self_away_network e) (unaway_sent a) |>) c
  | _ => c
  end.

(** What the saved lists follow of the event the reducer took. *)
Definition keep_lists (event : Event) (reopened : option (str * str)) c : Controller :=
  let c := match event with EvNick e => rekey_nick_lists (nick_network e) (old_nick e) (new_nick e) c | _ => c end in
  let c := match chat_of event with
    | Some line => note_self_authored_direct (network_id (chat_conversation line)) (chat_author line) (chat_target line) c
    | None => c
    end in
  match reopened with
  | Some (network, target) => if is_direct c (key_for c network target) then remember_open_direct network target c else c
  | None => c
  end.

Definition raise_arrivals c : Controller :=
  let '(c, mention) := on_reducer take_mention_arrival c in
  let c := match mention with Some mention => c <| ctl_arrivals := ctl_arrivals c ++ [ArrivalMention mention] |> | None => c end in
  let '(c, arrival) := on_reducer take_inbox_arrival c in
  match arrival with
  | Some arrival =>
      add_to_inbox (mkItem (inbox_kind arrival) (ctl_now c) (inbox_network arrival) (inbox_actor arrival) (inbox_target arrival) (inbox_body arrival)
        (inbox_msgid arrival)) c
  | None => c
  end.

Definition is_typing (event : Event) : bool := match event with EvTyping _ => true | _ => false end.

(** The fold of an event, once [before_apply] has run, with the route of a METADATA reply. *)
Definition fold_applied (route : MemberMetadataEvent -> Controller -> Controller) (event : Event) c : Controller :=
  let reopened := other_reopened_direct event c in
  let '(c, surfaces) := on_reducer (ReducerViews.apply event (ctl_now c)) c in
  let c := keep_lists event reopened c in
  let c := note_kept_replay c in
  let c := if is_none (ctl_selected c) && negb (is_typing event) then claim_first_conversation c else c in
  let '(c, released) := on_reducer (release_stale_names_sync (ctl_selected c) (ctl_now c)) c in
  let c := queue (if released then merge_views surfaces [Conversations; Messages; MemberReset; Selection] else surfaces) c in
  let c := match event with EvMemberMetadata e => route e c | _ => c end in
  let c := raise_arrivals c in
  let c := match event with
    | EvWelcome e => if is_empty (welcome_network e) then c else request_read_marker_get_for_selected_direct (welcome_network e) c
    | _ => c
    end in
  sync_read_marker_for_selection c.

(** [Controller::apply], with the route of a METADATA reply. *)
Definition apply_with (route : MemberMetadataEvent -> Controller -> Controller) (event : Event) c : Controller :=
  fold_applied route event (before_apply event c).

(** [apply_whois_transcript]: its event is no METADATA reply, so nothing is routed. *)
Definition apply_whois_transcript (destination : ConversationKey) (body : str) c : Controller :=
  apply_with (fun _ c => c) (EvWhoisTranscript (mkWhoisTranscript destination body)) c.

Definition copy_to_destination (destination : option ConversationKey) (text : str) c : Controller :=
  match destination with
  | Some destination => if is_empty text then c else apply_whois_transcript destination text c
  | None => c
  end.

(** ** Own metadata (replyrouter.rs) *)

Definition own_watch c (network canonical : str) : option OwnMetadataWatch :=
  let? watches := bt_get network (own_metadata_watches (ctl_watches c)) in bt_get canonical watches.

(** [arm_own_metadata_watch] *)
Definition arm_own_metadata_watch (network key_name : str) (kind : OwnMetadataKind) (value : str) c : Controller :=
  match canonical_key key_name with
  | None => c
  | Some canonical =>
      let destination := match ctl_selected c with Some selected => if str_eqb (network_id selected) network then Some selected else None | None => None end in
      update_watches (fun w =>
        let watches := default [] (bt_get network (own_metadata_watches w)) in
        w <| own_metadata_watches := bt_insert network (bt_insert canonical (mkOwnWatch destination kind value) watches) (own_metadata_watches w) |>) c
  end.

(** The watches of a network after some ended: a network with none has no entry. *)
Definition keep_own_watches (network : str) (watches : btree OwnMetadataWatch) (w : ReplyWatches) : ReplyWatches :=
  w <| own_metadata_watches := if is_empty watches then bt_remove network (own_metadata_watches w) else bt_insert network watches (own_metadata_watches w) |>.

(** [remove_own_metadata_watch] *)
Definition remove_own_metadata_watch (network canonical : str) c : Controller :=
  match bt_get network (own_metadata_watches (ctl_watches c)) with
  | Some watches => update_watches (keep_own_watches network (bt_remove canonical watches)) c
  | None => c
  end.

(** [echo_own_metadata_outcome] *)
Definition echo_own_metadata_outcome (network : str) (destination : option ConversationKey) (text : str) c : Controller :=
  let to_status c := append_status (status_outcome network text (ctl_now c)) c in
  match destination, ctl_selected c with
  | Some destination, _ => apply_whois_transcript destination text c
  | None, Some selected => if str_eqb (network_id selected) network then apply_whois_transcript selected text c else to_status c
  | None, None => to_status c
  end.

(** [self.applied_sessions.get_mut(network)], whose profile the closure edits. *)
Definition update_applied (network : str) (f : Profile -> Profile) c : Controller :=
  match bt_get network (ctl_applied c) with
  | Some applied => c <| ctl_applied := bt_insert network (mkApplied (f (applied_profile applied)) (applied_password applied) (applied_nickserv applied)) (ctl_applied c) |>
  | None => c
  end.

(** [persist_avatar_url] (persistence.rs) *)
Definition persist_avatar_url (network url : str) c : Controller :=
  if is_empty network then c
  else match bt_get network (ctl_profiles c) with
  | None => c
  | Some profile =>
      if str_eqb (avatar_url profile) url then c
      else
        let profile := profile <| avatar_url := url |> in
        let c := save_to_file (save_profile profile) (c <| ctl_profiles := bt_insert network profile (ctl_profiles c) |>) in
        update_applied network (fun p => p <| avatar_url := url |>) c
  end.
Definition persist_if_avatar (network canonical url : str) c : Controller := if str_eqb canonical AVATAR_KEY then persist_avatar_url network url c else c.

(** [route_own_metadata_reply] *)
Definition route_own_metadata_reply (network nick key_name value : str) c : Controller :=
  if (0 <? own_metadata_depth (ctl_watches c))%nat
  then update_watches (fun w => w <| pending_own_metadata := pending_own_metadata w ++ [mkPendingOwn network nick key_name value] |>) c
  else match canonical_key key_name with
  | None => c
  | Some canonical =>
      match own_watch c network canonical with
      | None => c
      | Some watch =>
          let own := current_nick c network in
          if is_empty own || negb (equals (mapping_for c network) nick own) then c
          else
            let confirm text c := remove_own_metadata_watch network canonical
              (persist_if_avatar network canonical value (echo_own_metadata_outcome network (own_destination watch) text c)) in
            match own_kind watch with
            | MetadataClear => if negb (is_empty value) then c else confirm (cleared_message canonical) c
            | MetadataSet => if is_empty value || negb (str_eqb (own_value watch) value) then c else confirm (set_message canonical value) c
            end
      end
  end.

(** [Controller::apply] *)
Definition apply (event : Event) c : Controller :=
  apply_with (fun e => route_own_metadata_reply (metadata_network e) (metadata_nick e) (metadata_key e) (metadata_value e)) event c.

Definition FAIL_CODES : list str :=
  [lit "KEY_NO_PERMISSION"; lit "VALUE_INVALID"; lit "RATE_LIMITED"; lit "KEY_NOT_SET"; lit "LIMIT_REACHED"; lit "KEY_INVALID"].

(** The keys a METADATA FAIL names, each once: the context between the code and the description. *)
Definition fail_keys (message : IrcMessage) : list str :=
  let tokens := wire_text <$> take (length (msg_params message) - 3) (drop 2 (msg_params message)) in
  foldl (fun found token => match canonical_key token with Some canonical => if bool_decide (canonical ∈ found) then found else found ++ [canonical] | None => found end)
    [] tokens.

Definition fail_reason (code : str) (message : IrcMessage) : str :=
  let description := if is_empty (msg_params message) then code else text_param message (length (msg_params message) - 1) in
  if is_empty description then code else code ++ lit " " ++ description.

(** The refusal of one write. *)
Definition end_refused (network code reason : str) c (ended : str * OwnMetadataWatch) : Controller :=
  let '(canonical, watch) := ended in
  match own_kind watch with
  | MetadataClear =>
      if str_eqb code (lit "KEY_NOT_SET")
      then persist_if_avatar network canonical [] (echo_own_metadata_outcome network (own_destination watch) (cleared_message canonical) c)
      else echo_own_metadata_outcome network (own_destination watch) (clear_fail_message canonical reason) c
  | MetadataSet => echo_own_metadata_outcome network (own_destination watch) (set_fail_message canonical reason) c
  end.

(** [route_own_metadata_fail] *)
Definition route_own_metadata_fail (network : str) (message : IrcMessage) c : Controller :=
  let code := to_uppercase (text_param message 1) in
  let named := fail_keys message in
  if negb (eq_ignore_ascii_case (text_param message 0) (lit "METADATA")) || negb (is_one_of code FAIL_CODES) || is_empty named then c
  else match bt_get network (own_metadata_watches (ctl_watches c)) with
  | None => c
  | Some watches =>
      let taken := omap (fun canonical => pair canonical <$> bt_get canonical watches) named in
      let c := update_watches (keep_own_watches network (foldl (fun m canonical => bt_remove canonical m) watches named)) c in
      foldl (end_refused network code (fail_reason code message)) c taken
  end.

(** [route_own_metadata_error] *)
Definition route_own_metadata_error (entry : StatusEntry) c : Controller :=
  let network := entry_network_id entry in
  if negb (is_one_of (entry_label entry) [lit "764"; lit "767"; lit "769"]) then c
  else match canonical_key (words_first (split_words (entry_text entry))) with
  | None => c
  | Some canonical =>
      match own_watch c network canonical with
      | None => c
      | Some watch =>
          let reason := if is_empty (entry_text entry) then entry_label entry else entry_text entry in
          let text := match own_kind watch with MetadataSet => set_fail_message canonical reason | MetadataClear => clear_fail_message canonical reason end in
          remove_own_metadata_watch network canonical (echo_own_metadata_outcome network (own_destination watch) text c)
      end
  end.

(** ** WHOIS and CTCP (replyrouter.rs) *)

(** [send_whois] *)
Definition send_whois (network nick : str) (destination : option ConversationKey) c : Controller * bool :=
  match whois_key c network nick with
  | None => (c, false)
  | Some key =>
      if match destination with Some d => negb (str_eqb (network_id d) network) | None => false end then (c, false)
      else
        let '(c, label) := ask_session network [] start_labeled_request c in
        if negb (is_empty label) then
          let watch := mkLabeledWatch LabeledWhois destination false in
          let c := update_watches (fun w => w <| labeled_watches := bt_insert (labeled_key network label) watch (labeled_watches w) |>) c in
          let '(c, sent) := write_session network (fun s => whois s nick label) c in
          if sent then (c, true)
          else
            let c := update_watches (fun w => w <| labeled_watches := bt_remove (labeled_key network label) (labeled_watches w) |>) c in
            ((write_session network (fun s => (drop_request_label s label, true)) c).1, false)
        else
          let c := update_watches (fun w => w <| whois_watches := bt_insert key (mkWhoisWatch destination false false) (whois_watches w) |>) c in
          let '(c, sent) := write_session network (fun s => whois s nick []) c in
          if sent then (c, true) else (update_watches (fun w => w <| whois_watches := bt_remove key (whois_watches w) |>) c, false)
  end.

(** [send_ctcp_query] *)
Definition send_ctcp_query (network nick command argument : str) (destination : option ConversationKey) c : Controller * bool :=
  match ctcp_key c network nick command with
  | None => (c, false)
  | Some key =>
      if match destination with Some d => negb (str_eqb (network_id d) network) | None => false end then (c, false)
      else
        let '(c, label) := ask_session network [] start_labeled_request c in
        let labeled := negb (is_empty label) in
        let c := if labeled then update_watches (fun w =>
            w <| labeled_watches := bt_insert (labeled_key network label) (mkLabeledWatch LabeledCtcp destination false) (labeled_watches w) |>) c else c in
        let c := update_watches (fun w => w <| ctcp_watches := bt_insert key (mkCtcpWatch destination) (ctcp_watches w) |>) c in
        let '(c, sent) := write_session network (fun s => send_ctcp s nick command argument label) c in
        if sent then (c, true)
        else
          let c := if labeled then
              (write_session network (fun s => (drop_request_label s label, true))
                (update_watches (fun w => w <| labeled_watches := bt_remove (labeled_key network label) (labeled_watches w) |>) c)).1
            else c in
          (update_watches (fun w => w <| ctcp_watches := bt_remove key (ctcp_watches w) |>) c, false)
  end.

(** [whois_metadata_lines] *)
Definition whois_metadata_lines c (network nick : str) : list str :=
  let facts := nick_presence (net_facts (ctl_reducer c)) network nick in
  let fact (row : str * str) := let value := presence_metadata facts row.1 in if is_empty value then [] else [format_pair row.2 nick value] in
  let software := presence_metadata facts BOT_KEY in
  mbind fact [(DISPLAY_NAME_KEY, lit "%1 is also known as %2"); (PRONOUNS_KEY, lit "%1 pronouns %2"); (STATUS_KEY, lit "%1 status %2")]
  ++ (if is_bot facts then [if is_empty software then nick ++ lit " is a bot" else nick ++ lit " is a bot (" ++ software ++ lit ")"] else [])
  ++ mbind fact [(HOMEPAGE_KEY, lit "%1 homepage %2"); (COLOR_KEY, lit "%1 color %2"); (AVATAR_KEY, lit "%1 avatar %2")].

(** [apply_whois_detail] *)
Definition apply_whois_detail (network : str) (line : WhoisLine) (destination : option ConversationKey) (emit_metadata : bool) c : Controller :=
  let to_destination text c := match destination with Some d => apply_whois_transcript d text c | None => c end in
  let c := to_destination (whois_line_text line) c in
  if negb emit_metadata then c
  else foldl (fun c text => to_destination text (append_status (lifecycle network SeverityInfo (lit "whois") text (ctl_now c)) c))
         c (whois_metadata_lines c network (whois_line_nick line)).

(** [route_whois_line] *)
Definition route_whois_line (network : str) (line : WhoisLine) c : Controller :=
  match whois_key c network (whois_line_nick line) with
  | None => c
  | Some key =>
      match bt_get key (whois_watches (ctl_watches c)) with
      | None => c
      | Some watch =>
          if bool_decide (whois_line_progress line = WhoisFailed) && failed_is_ambiguous watch then c
          else
            let emit := bool_decide (whois_line_progress line = WhoisDetail) && negb (whois_metadata_emitted watch) in
            let c := if emit then update_watches (fun w => w <| whois_watches := bt_insert key (watch <| whois_metadata_emitted := true |>) (whois_watches w) |>) c else c in
            let c := apply_whois_detail network line (whois_destination watch) emit c in
            if whois_is_terminal line then update_watches (fun w => w <| whois_watches := bt_remove key (whois_watches w) |>) c else c
      end
  end.

(** [route_labeled_whois] *)
Definition route_labeled_whois (network label : str) (line : WhoisLine) c : Controller :=
  let key := labeled_key network label in
  match bt_get key (labeled_watches (ctl_watches c)) with
  | None => c
  | Some watch =>
      if negb (bool_decide (labeled_kind watch = LabeledWhois)) then c
      else
        let emit := bool_decide (whois_line_progress line = WhoisDetail) && negb (labeled_metadata_emitted watch) in
        let c := if emit then update_watches (fun w => w <| labeled_watches := bt_insert key (watch <| labeled_metadata_emitted := true |>) (labeled_watches w) |>) c else c in
        let c := apply_whois_detail network line (labeled_destination watch) emit c in
        if whois_is_terminal line then update_watches (fun w => w <| labeled_watches := bt_remove key (labeled_watches w) |>) c else c
  end.

(** [route_labeled_ctcp] *)
Definition route_labeled_ctcp (network label : str) (line : CtcpReplyLine) (text : str) c : Controller :=
  let key := labeled_key network label in
  match bt_get key (labeled_watches (ctl_watches c)) with
  | None => c
  | Some watch =>
      if negb (bool_decide (labeled_kind watch = LabeledCtcp)) then c
      else
        let c := update_watches (fun w => w <| labeled_watches := bt_remove key (labeled_watches w) |>) c in
        let c := match ctcp_key c network (ctcp_reply_nick line) (ctcp_reply_command line) with
          | Some plain => update_watches (fun w => w <| ctcp_watches := bt_remove plain (ctcp_watches w) |>) c
          | None => c
          end in
        copy_to_destination (labeled_destination watch) text c
  end.

(** [route_ctcp_reply] *)
Definition route_ctcp_reply (network : str) (line : CtcpReplyLine) (text : str) c : Controller :=
  match ctcp_key c network (ctcp_reply_nick line) (ctcp_reply_command line) with
  | None => c
  | Some key =>
      match bt_get key (ctcp_watches (ctl_watches c)) with
      | None => c
      | Some watch => copy_to_destination (ctcp_destination watch) text (update_watches (fun w => w <| ctcp_watches := bt_remove key (ctcp_watches w) |>) c)
      end
  end.

(** [route_labeled_standard_reply] *)
Definition route_labeled_standard_reply (entry : StatusEntry) c : Controller :=
  let key := labeled_key (entry_network_id entry) (entry_request_label entry) in
  match bt_get key (labeled_watches (ctl_watches c)) with
  | None => c
  | Some watch =>
      let c := if copies_labeled_standard_reply (entry_label entry) then copy_to_destination (labeled_destination watch) (entry_text entry) c else c in
      if bool_decide (entry_severity entry = SeverityAlert) then update_watches (fun w => w <| labeled_watches := bt_remove key (labeled_watches w) |>) c else c
  end.

(** [route_list_mode_line] (listmode.rs) *)
Definition route_list_mode_line (network : str) (line : ListModeLine) c : Controller :=
  match bt_get network (list_mode_watches (ctl_watches c)) with
  | None => c
  | Some watch =>
      if negb (bool_decide (list_kind watch = list_line_kind line)) || negb (equals (mapping_for c network) (list_channel watch) (list_line_channel line)) then c
      else
        let c := apply_whois_transcript (list_destination watch) (list_line_text line) c in
        if list_is_terminal line then update_watches (fun w => w <| list_mode_watches := bt_remove network (list_mode_watches w) |>) c else c
  end.

(** What a labeled entry answers: the watch of its label decides how it is read. *)
Definition route_labeled (entry : StatusEntry) c : Controller :=
  let network := entry_network_id entry in
  let label := entry_request_label entry in
  match labeled_kind <$> bt_get (labeled_key network label) (labeled_watches (ctl_watches c)) with
  | None => c
  | Some LabeledWhois =>
      match entry_whois_line entry with Some line => route_labeled_whois network label line c | None => route_labeled_standard_reply entry c end
  | Some LabeledCtcp =>
      match entry_ctcp_reply entry with Some line => route_labeled_ctcp network label line (entry_text entry) c | None => route_labeled_standard_reply entry c end
  end.

(** [route_status_entry] *)
Definition route_status_entry (entry : StatusEntry) c : Controller :=
  let network := entry_network_id entry in
  let c := route_own_metadata_error entry c in
  if negb (is_empty (entry_request_label entry)) then route_labeled entry c
  else
    let c := match entry_whois_line entry with Some line => route_whois_line network line c | None => c end in
    let c := match entry_list_mode_line entry with Some line => route_list_mode_line network line c | None => c end in
    match entry_ctcp_reply entry with Some line => route_ctcp_reply network line (entry_text entry) c | None => c end.

(** [Controller::status_entry] *)
Definition status_entry (entry : StatusEntry) c : Controller := route_status_entry entry (append_status entry c).
End Replies.
