(* ===== verification/Controller.v ===== *)
(** * Controller: the selection, the session events and the pump
    (src/client/src/controller/: controller.rs, selection.rs, reads.rs, composertyping.rs, history.rs,
    persistence.rs, sessioncontrol.rs)

    The selection the reader holds, the handler of each session event, and the pump that drains
    every session in turn until none has an event left. The fuel of [pump] bounds its rounds; a
    pump that ran out of it is still [ctl_pumping]. *)

From S2P Require Import SessionTypes Sts Profiles Credentials.
From S2P Require Import Prelude Text Message Parser CaseMapping ServerFeatures Capability JoinTarget OrdMap Scram SessionTypes Platform Ctcp Metadata Typing.
From S2P Require Import SessionCore SessionOutbound SessionMarkers SessionHistory SessionDispatch SettingsIni Settings Lists StatusEntry Command Autoaway Inbox Console AvatarUrl.
From S2P Require Import ChannelList PlaybackTime Presence Events Conversation MembershipNoise Translator ReducerState ReducerTranscript ReducerSplice Reducer ReducerViews.
From S2P Require Import ClosedChannels Playback ControllerState ControllerServices ControllerReplies.

(** ** The selection (selection.rs, reads.rs) *)

Section Selection.
Context `{platform : Platform} `{client_log : ClientLog} `{json : TimesJson} `{secrets : CredentialStore}.
Implicit Types (c : Controller) (key : ConversationKey).

Definition selection_surfaces : list ViewNotify := [Conversations; Messages; MemberReset; Selection].

Definition selected_conversation c : option ConversationState := ctl_selected c ≫= conversation c.

(** [Controller::selected_target] *)
Definition shown_target c : str := match selected_conversation c with Some conv => conv_target conv | None => ctl_selected_target c end.

Definition focused_network_id c : str :=
  if ctl_console_open c then ctl_console_network c else match ctl_selected c with Some key => network_id key | None => ctl_console_network c end.
Definition shows_status c : bool := ctl_console_open c || is_empty (shown_target c).

(** [Controller::is_channel] *)
Definition selects_channel c : bool :=
  match ctl_selected c with Some key => is_channel (server_features c (network_id key)) (shown_target c) | None => false end.

Definition conv_joined (conv : ConversationState) : bool := match channel conv with Some half => joined half | None => false end.
Definition channel_is_joined c key : bool := match conversation c key with Some conv => conv_joined conv | None => false end.
Definition channel_joined c : bool := match ctl_selected c with Some key => channel_is_joined c key | None => false end.

Definition can_close_selection c : bool :=
  match selected_conversation c with Some conv => negb (conv_is_channel conv) || negb (conv_joined conv) | None => false end.

(** [withdraw_typing] (composertyping.rs) *)
Definition withdraw_typing c : Controller :=
  match ctl_typing_target c with
  | None => c
  | Some (network, target) => (write_session network (fun s => send_typing s target Done) (c <| ctl_typing_target := None |>)).1
  end.

(** The conversation left has its page cap lifted, and its typing hint withdrawn. *)
Definition leave_previous key c : Controller :=
  if bool_decide (ctl_selected c = Some key) then c
  else
    let c := match ctl_selected c with Some previous => map_reducer (set_history_page_cap_tail false previous) c | None => c end in
    withdraw_typing c.

(** [Controller::select] *)
Definition select (network target : str) c : Controller :=
  if is_empty network || is_empty target then c
  else
    let c := set_last_error network None c in
    let c := c <| ctl_console_network := network |> <| ctl_console_open := false |> in
    let key := key_for c network target in
    let c := leave_previous key c in
    let c := c <| ctl_selected := Some key |> <| ctl_selected_target := target |> in
    let features := server_features c network in
    let mapping := case_mapping features in
    let channel := is_channel features (normalized_target key) in
    let inbox := consume_conversation (ctl_inbox c) network target mapping in
    let c := c <| ctl_inbox := if channel then inbox else consume_monitor inbox network target mapping |> in
    let c := map_reducer (mark_selected key) c in
    let c := queue (merge_views selection_surfaces [Inbox; Status]) c in
    if channel then c
    else match conversation c key with
    | Some conv => request_read_marker_get_with_key key (if is_empty (conv_target conv) then target else conv_target conv) c
    | None => c
    end.

(** [clear_selected] *)
Definition clear_selected c : Controller :=
  queue selection_surfaces (map_reducer clear_selection (c <| ctl_selected := None |> <| ctl_selected_target := [] |>)).

(** [drop_and_reselect] *)
Definition drop_and_reselect key c : Controller :=
  let channel := match conversation c key with Some conv => conv_is_channel conv | None => false end in
  let was_selected := bool_decide (ctl_selected c = Some key) in
  let next := if was_selected then neighbor_after_drop (sidebar_order_with_networks (ctl_reducer c) (ctl_network_order c)) key else None in
  let c := map_reducer (set_muted key false) c in
  let c := if channel then (on_reducer (drop_channel key) c).1
    else (on_reducer (drop_direct_message key) (update_marker_state (markers_forget_conversation key) c)).1 in
  let c := queue reset_all c in
  if negb was_selected then c
  else match next with
  | Some next =>
      let target := match conversation c next with Some conv => conv_target conv | None => normalized_target next end in
      select (network_id next) target c
  | None => clear_selected c
  end.

(** [dismiss_channel] *)
Definition dismiss_channel (network name : str) c : Controller * bool :=
  if is_empty network || is_empty name then (c, false)
  else
    let key := key_for c network name in
    match conversation c key with
    | Some conv => if conv_is_channel conv then (drop_and_reselect key c, true) else (c, false)
    | None => (c, false)
    end.

(** [close_key] *)
Definition close_key key c : Controller * bool :=
  match conversation c key with
  | Some conv =>
      let name := if is_empty (conv_target conv) then normalized_target key else conv_target conv in
      if conv_is_channel conv then
        if conv_joined conv then (c, false)
        else
          let c := c <| ctl_cancelled_joins := {[key]} ∪ ctl_cancelled_joins c |> in
          dismiss_channel (network_id key) name (map_reducer (note_closed key) c)
      else (drop_and_reselect key (forget_open_direct (network_id key) name c), true)
  | None => (drop_and_reselect key (forget_open_direct (network_id key) (normalized_target key) c), true)
  end.

(** [close_selected] *)
Definition close_selected c : Controller * bool :=
  match ctl_selected c with Some key => close_key key c | None => (c, false) end.

(** [mark_channel_left] (commanddispatcher.rs) *)
Definition note_channel_left (network name : str) c : Controller :=
  if is_empty network || is_empty name then c
  else let '(c, changed) := on_reducer (mark_channel_left (key_for c network name)) c in if changed then queue reset_all c else c.
End Selection.

(** ** The session events (controller.rs, history.rs) *)

Section Handlers.
Context `{platform : Platform} `{client_log : ClientLog} `{json : TimesJson} `{secrets : CredentialStore} `{crypto : Crypto} `{crate : UrlCrate}.
Context (pump : Controller -> Controller).
Implicit Types (c : Controller) (key : ConversationKey).

(** [apply_profile_avatar_on_connect] (persistence.rs) *)
Definition apply_profile_avatar_on_connect (network : str) c : Controller :=
  if is_empty network || bs_contains network (ctl_applied_avatars c) then c
  else
    let url := default [] (bt_get network (ctl_profiles c) ≫= fun profile => avatar_metadata_value (avatar_url profile)) in
    if is_empty url || negb (contains (caps c network) MemberMetadata && contains (caps c network) Batch) then c
    else
      let '(c, sent) := ask_session network None (fun s => set_own_metadata s AVATAR_KEY url) c in
      if is_none sent then c else c <| ctl_applied_avatars := bs_insert network (ctl_applied_avatars c) |>.

(** [persist_autojoin] (persistence.rs) *)
Definition persist_autojoin (network : str) (channels : list str) (keys : btree str) c : Controller :=
  match bt_get network (ctl_profiles c) with
  | None => c
  | Some profile =>
      if bool_decide (saved_autojoin_channels profile = channels) && bool_decide (saved_autojoin_keys profile = keys) then c
      else
        let profile := profile <| saved_autojoin_channels := channels |> <| saved_autojoin_keys := keys |> in
        let c := save_to_file (save_profile profile) (c <| ctl_profiles := bt_insert network profile (ctl_profiles c) |>) in
        let c := update_applied network (fun p => p <| saved_autojoin_channels := channels |> <| saved_autojoin_keys := keys |>) c in
        c <| ctl_profile_syncs := bs_insert network (ctl_profile_syncs c) |>
  end.

(** *** History (history.rs) *)

(** [drop_empty_discovered_direct] *)
Definition drop_empty_discovered_direct (network target : str) c : Controller :=
  if negb (was_discovered (ctl_playback c) (ctl_reducer c) network target) then c
  else if existsb (fun nick => equals (mapping_for c network) nick target) (restored_directs c network) then c
  else
    let key := key_for c network target in
    match conversation c key with
    | Some conv => if is_empty (messages conv) then queue [Conversations; Messages] (on_reducer (drop_direct_message key) c).1 else c
    | None => c
    end.

(** What the rows of a TARGETS answer make of the coordinator, the session and the reducer, and how many queries they made. *)
Definition discover_targets (network : str) (batch : HistoryBatch) c (r : EventReducer) : EventReducer * (PlaybackCoordinator * option Core * nat) :=
  let dismissed := dismissed_listed (ctl_open_directs c) network (mapping_for c network) in
  match session c network with
  | Some s =>
      let '(p, s, r, created) := note_discovered_targets (batch_targets batch) (current_nick c network) (restored_directs c network) dismissed (ctl_playback c, s, r) in
      let '(p, s) := note_targets_page (batch_targets batch) (batch_history_ended batch) (history_limit s) (p, s) in
      (r, (p, Some s, created))
  | None => (r, (ctl_playback c, None, 0%nat))
  end.

(** The answer to a TARGETS request. *)
Definition note_targets (network : str) (batch : HistoryBatch) c : Controller :=
  let '(c, (p, s, created)) := on_reducer (discover_targets network batch c) c in
  let c := c <| ctl_playback := p |> in
  let c := match s with Some s => put_session network s c | None => c end in
  if (0 <? created)%nat then queue [Conversations; Messages] c else c.

Definition joined_lookup c (network : str) : JoinedMemberLookup := joined_member_channel (ctl_reducer c) network.

(** [handle_history_batch] *)
Definition handle_history_batch (network : str) (batch : HistoryBatch) c : Controller :=
  if bool_decide (batch_kind batch = Some Targets) then note_targets network batch c
  else
    let c := if after_request batch && is_empty (batch_lines batch) then drop_empty_discovered_direct network (batch_target batch) c else c in
    match translate_history network (current_nick c network) (server_features c network) batch (ctl_now c) (Some (joined_lookup c network)) with
    | None => c
    | Some event =>
        if bool_decide (history_kind event = BouncerPlayback) then
          let event := trim_bouncer_batch (ctl_playback c) network (ctl_reducer c) event in
          if is_empty (history_lines event) then c else apply (EvHistory event) c
        else apply (EvHistory event) c
    end.

(** [on_chat_history_failed] *)
Definition on_chat_history_failed (network subcommand target : str) c : Controller :=
  if eq_ignore_ascii_case subcommand (lit "TARGETS") then
    let '(p, retry) := retry_targets network (ctl_playback c) in
    let c := c <| ctl_playback := p |> in
    if retry then request_chat_history_catch_up network c else c
  else if eq_ignore_ascii_case subcommand (lit "AFTER") then drop_empty_discovered_direct network target c
  else c.

(** [on_self_join] *)
Definition on_self_join (network name : str) c : Controller :=
  let mapping := mapping_for c network in
  let c := queue [Inbox] (c <| ctl_inbox := consume_invite (ctl_inbox c) network name mapping |>) in
  match session c network with
  | None => c
  | Some s =>
      let c := match pending_invite s with Some pending => if equals mapping name (invite_channel pending) then select network name c else c | None => c end in
      let c := c <| ctl_playback := note_joined_channel (ctl_reducer c) network name (ctl_playback c) |> in
      ask_channel_playback network name c
  end.

(** *** Messages *)

(** [apply_isupport] *)
Definition apply_isupport (network : str) (message : IrcMessage) c : Controller :=
  if (length (msg_params message) <=? 2)%nat then c
  else
    let tokens := take (length (msg_params message) - 2) (drop 1 (msg_params message)) in
    let features := foldl (fun f param => apply_token f (wire_text param)) (server_features c network) tokens in
    let c := map_reducer (set_server_features network features) c in
    queue [Conversations] (monitor_subscribe pump network (install_ignore_filter network c)).

(** [drop_cancelled_join] *)
Definition drop_cancelled_join (network name : str) key c : Controller :=
  let c := (write_session network (fun s => SessionOutbound.part s name) c).1 in
  if is_closed (net_facts (ctl_reducer c)) key then (dismiss_channel network name c).1 else note_channel_left network name c.

(** One event of an inbound message, under the features and the nick the message found. *)
Definition fold_event (network : str) (features : IrcServerFeatures) (own : str) c (event : Event) : Controller :=
  let mapping := case_mapping features in
  let own_join := match event with
    | EvJoin e => if equals mapping (join_nick e) own then Some (join_to e, key_for c network (join_to e)) else None
    | _ => None
    end in
  let c := match event with
    | EvNick e => if equals mapping (old_nick e) own then c <| ctl_nicks := bt_insert network (new_nick e) (ctl_nicks c) |> else c
    | _ => c
    end in
  let c := apply event c in
  match own_join with
  | None => c
  | Some (name, key) =>
      if bool_decide (key ∈ ctl_cancelled_joins c) then drop_cancelled_join network name key (c <| ctl_cancelled_joins := ctl_cancelled_joins c ∖ {[key]} |>)
      else if is_channel features name then on_self_join network name c else c
  end.

(** The end of the MOTD: the case mapping is as known as it gets, and the queries come back. *)
Definition note_motd_end (network : str) c : Controller :=
  let features := server_features c network in
  let c := if case_mapping_known features then c else map_reducer (set_server_features network (features <| case_mapping_known := true |>)) c in
  note_open_directs_motd network c.

Definition translate_and_fold (network : str) (message : IrcMessage) c : Controller :=
  let features := server_features c network in
  let own := current_nick c network in
  foldl (fold_event network features own) c (translate network own features message (ctl_now c) (Some (joined_lookup c network))).

(** [Controller::handle_message] *)
Definition handle_message (network : str) (message : IrcMessage) c : Controller :=
  let command := msg_command message in
  let c := note_clock network message c in
  let c := if str_eqb command (lit "FAIL") then route_own_metadata_fail network message c else c in
  if str_eqb command (lit "005") then apply_isupport network message c
  else if str_eqb command (lit "730") then handle_monitor_presence network message true c
  else if str_eqb command (lit "731") then handle_monitor_presence network message false c
  else if str_eqb command (lit "734") then handle_monitor_list_full network message c
  else
    let '(c, taken) := handle_channel_list_message network message c in
    if taken then c
    else
      let c := if str_eqb command (lit "376") || str_eqb command (lit "422") then note_motd_end network c else c in
      translate_and_fold network message c.

(** [handle_capabilities] *)
Definition handle_capabilities (network : str) (capabilities : IrcCapabilitySet) c : Controller :=
  let previous := caps c network in
  let c := c <| ctl_capabilities := bt_insert network capabilities (ctl_capabilities c) |> in
  let dropped capability := contains previous capability && negb (contains capabilities capability) in
  let away := dropped AwayNotify in
  let metadata := dropped MemberMetadata || dropped Batch in
  let c := if away || metadata then
      let c := queue reset_all (map_reducer (clear_presence_facts network away metadata) c) in
      if metadata then c <| ctl_applied_avatars := bs_remove network (ctl_applied_avatars c) |> else c
    else c in
  let c := if dropped MessageTags then map_reducer (clear_typing_facts network) c else c in
  let c := if dropped ReadMarker then read_marker_clear_awaiting_network network c else c in
  let c := queue [Status] c in
  match registered_session c network with
  | Some _ => request_znc_playback network (apply_profile_avatar_on_connect network c)
  | None => c
  end.

(** [on_registered] *)
Definition on_registered (network : str) c : Controller :=
  match session c network with
  | None => c
  | Some s =>
      let c := set_last_error network None c in
      let '(p, times) := playback_on_registered network (autojoin_channels s) (ctl_times c) (ctl_file c) (ctl_playback c) in
      let c := c <| ctl_playback := p |> <| ctl_times := times |> <| ctl_motd_seen := bs_remove network (ctl_motd_seen c) |>
        <| ctl_nicks := bt_insert network (nickname s) (ctl_nicks c) |> in
      let c := map_reducer (set_server_features network new_features) c in
      let c := monitor_forget_presence network (install_ignore_filter network c) in
      let c := apply (EvWelcome (mkWelcome network (nickname s))) c in
      let c := append_status (lifecycle network SeverityInfo (lit "registered") (lit "Registered as " ++ nickname s) (ctl_now c)) c in
      apply_profile_avatar_on_connect network (autoaway_on_registered network c)
  end.

(** One line of [record_inbound]. *)
Definition record_line (network : str) (message : IrcMessage) (request_label : str) (at_ : Time) c (entry : StatusEntry) : Controller :=
  let entry := if is_empty request_label then entry else set_request_label entry request_label in
  let c := if str_eqb (entry_label entry) (lit "INVITE")
    then add_to_inbox (mkItem InboxInvite at_ network (prefix_nick message) (trailing_text message) (entry_text entry) []) c else c in
  status_entry entry c.

(** [record_inbound] *)
Definition record_inbound (network : str) (message : IrcMessage) (request_label nick channel_types : str) (at_ : Time) c : Controller :=
  if negb (keeps_incoming message nick channel_types) then c
  else foldl (record_line network message request_label at_) c (incoming_all network message channel_types at_).

(** [Controller::handle_session_event] *)
Definition handle_session_event c (event : SessionEvent) : Controller :=
  match event with
  | StateChanged network state =>
      let c := if negb (is_empty network) && negb (bool_decide (state = StRegistered))
        then c <| ctl_playback := on_left_registration network (ctl_playback c) |> <| ctl_applied_avatars := bs_remove network (ctl_applied_avatars c) |> else c in
      append_status (lifecycle network (if bool_decide (state = StFailed) then SeverityAlert else SeverityInfo) (state_label state) (state_text state) (ctl_now c)) c
  | ReconnectScheduled network delay_ms attempt =>
      append_status (lifecycle network SeverityInfo (lit "reconnect") (lit "Reconnect attempt " ++ show attempt ++ lit " in " ++ show delay_ms ++ lit " ms") (ctl_now c)) c
  | ErrorOccurred network _ message =>
      append_status (lifecycle network SeverityAlert (lit "error") message (ctl_now c)) (set_last_error network (Some message) c)
  | RegisteredEvent network => on_registered network c
  | SessionTypes.Inbound network message request_label nick channel_types at_ => record_inbound network message request_label nick channel_types at_ c
  | Outbound network line channel_types at_ => if keeps_outgoing line then status_entry (outgoing network line channel_types at_) c else c
  | Lifecycle network severity kind text at_ => status_entry (lifecycle network (log_severity severity) kind text at_) c
  | MessageReceived network message => handle_message network message c
  | HistoryBatchReceived network batch => handle_history_batch network batch c
  | ChatHistoryRequestFinished network target failed before =>
      if failed && before then map_reducer (set_history_page_cap_tail false (key_for c network target)) c else c
  | ChatHistoryFailed network subcommand target => on_chat_history_failed network subcommand target c
  | CapabilitiesChanged network capabilities => handle_capabilities network capabilities c
  | ReadMarkerReceived network target marker => read_marker_received network target marker c
  | RequestLabelFinished network label => request_label_finished network label c
  | AutojoinChannelsChanged network channels keys => persist_autojoin network channels keys c
  end.

(** *** The pump *)

(** [while step() { drained = true; }], for at most [fuel] steps. *)
Fixpoint run_while (step : Controller -> Controller * bool) (fuel : nat) (c : Controller) : Controller * bool :=
  match fuel with
  | O => (c, false)
  | S fuel => let '(c, ran) := step c in if ran then ((run_while step fuel c).1, true) else (c, false)
  end.

(** The events of one network's session, and whether it had any. *)
Definition drain_network (st : Controller * bool) (network : str) : Controller * bool :=
  let '(c, drained) := st in
  match session c network with
  | None => st
  | Some s =>
      if is_empty (events s) then st
      else (foldl handle_session_event (put_session network (s <| events := [] |>) c) (events s), true)
  end.

(** One round of the loop: the expiries that wait, each bounded by its queue, then each network's events. *)
Definition pump_round c : Controller * bool :=
  let '(c, away) := run_while run_autoaway_expiry (S (length (expiries (ctl_away c)))) c in
  let '(c, lists) := run_while run_channel_list_expiry (S (length (list_expiries (ctl_lists c)))) c in
  foldl drain_network (c, away || lists) (network_ids c).

Fixpoint pump_rounds (fuel : nat) (c : Controller) : Controller * bool :=
  match fuel with
  | O => (c, false)
  | S fuel => let '(c, drained) := pump_round c in if drained then pump_rounds fuel c else (c, true)
  end.
End Handlers.

Section Pump.
Context `{platform : Platform} `{client_log : ClientLog} `{json : TimesJson} `{secrets : CredentialStore} `{crypto : Crypto} `{crate : UrlCrate}.
Implicit Types (c : Controller).

(** [Controller::pump]: a nested call does nothing. *)
Fixpoint pump (fuel : nat) (c : Controller) : Controller :=
  if ctl_pumping c then c
  else match fuel with
  | O => c <| ctl_pumping := true |>
  | S fuel => let '(c, done) := pump_rounds (pump fuel) fuel (c <| ctl_pumping := true |>) in c <| ctl_pumping := negb done |>
  end.

(** [take_notifications], [take_arrivals] (notify.rs) and [take_background_profile_syncs] (persistence.rs) *)
Definition take_notifications c : Controller * list ViewNotify := (c <| ctl_notifications := [] |>, ctl_notifications c).
Definition take_arrivals c : Controller * list Arrival := (c <| ctl_arrivals := [] |>, ctl_arrivals c).
Definition take_background_profile_syncs c : Controller * list str := (c <| ctl_profile_syncs := [] |>, bs_elements (ctl_profile_syncs c)).
End Pump.
