(* ===== verification/ControllerCommands.v ===== *)
(** * ControllerCommands: what the reader asks for
    (src/client/src/controller/: commanddispatcher.rs, listmode.rs, replyrouter.rs, send.rs,
    selection.rs, history.rs, composertyping.rs, sessioncontrol.rs, lines.rs, controller.rs)

    Every slash verb's decision, and the intents of the window and of the CLI. An intent pumps
    before it looks and after it acts. *)

From S2P Require Import SessionTypes Sts Profiles Credentials.
From S2P Require Import Prelude Text Message Parser CaseMapping ServerFeatures Capability JoinTarget OrdMap Scram SessionTypes Platform Ctcp Metadata Typing.
From S2P Require Import SessionCore SessionOutbound SessionMarkers SessionHistory SessionDispatch SettingsIni Settings Lists StatusEntry Command Autoaway Inbox Console AvatarUrl.
From S2P Require Import ChannelList PlaybackTime Presence Events Conversation MembershipNoise ReducerState ReducerTranscript ReducerSplice Reducer ReducerViews.
From S2P Require Import ClosedChannels Playback ControllerState ControllerServices ControllerReplies Controller.

Inductive StoreVerb := StoreAdd | StoreRemove | StoreList.
#[export] Instance StoreVerb_eq_dec : EqDecision StoreVerb.
Proof. solve_decision. Defined.
Inductive Outgoing := OutSay | OutAction | OutNotice.
#[export] Instance Outgoing_eq_dec : EqDecision Outgoing.
Proof. solve_decision. Defined.
Inductive QuietSend_ := QuietMsg | QuietNotice.
#[export] Instance QuietSend_eq_dec : EqDecision QuietSend_.
Proof. solve_decision. Defined.
Record ChannelModeWrapper := mkWrapper { wrapper_modes : str; wrapper_mask : option ListMaskKind }.

Definition outcome_of (sent : bool) : CommandOutcome := if sent then Command.Sent else Refused.

Section Commands.
Context `{platform : Platform} `{client_log : ClientLog} `{json : TimesJson} `{secrets : CredentialStore} `{crypto : Crypto} `{crate : UrlCrate}.
Context (fuel : nat).
Implicit Types (c : Controller) (key : ConversationKey) (surface : ComposerSurface).

(** ** The network of a surface (commanddispatcher.rs) *)

Definition selected_network c : str := match ctl_selected c with Some key => network_id key | None => [] end.
Definition surface_network c surface : str := match surface with OnStatus => ctl_console_network c | OnConversation => selected_network c end.
Definition error_network_id c surface : str :=
  match surface, ctl_selected c with OnConversation, Some key => network_id key | _, _ => ctl_console_network c end.

(** A session is named by its network. *)
Definition session_for c surface : option str :=
  let network := surface_network c surface in
  if is_empty network || is_none (session c network) then None else Some network.
Definition selected_session c : option str :=
  match ctl_selected c with Some key => if is_none (session c (network_id key)) then None else Some (network_id key) | None => None end.
Definition registered c (network : str) : bool := negb (is_none (registered_session c network)).

Definition selected_is_closeable_direct c : bool :=
  match ctl_selected c with
  | Some key => match conversation c key with Some conv => negb (conv_is_channel conv) | None => true end
  | None => false
  end.
Definition selected_channel_left c : bool :=
  match selected_conversation c with Some conv => conv_is_channel conv && negb (conv_joined conv) | None => false end.

(** The channel a verb without one works on: the selection, on the surface's network. *)
Definition selection_scope c (network : str) : option CommandOutcome :=
  if is_none (ctl_selected c) || negb (selects_channel c) then Some WrongScope
  else if negb (str_eqb (selected_network c) network) then Some Refused
  else None.

(** ** Status lines (lines.rs) *)

Definition log_outcome (network text : str) c : Controller :=
  let c := pump fuel c in pump fuel (append_status (status_outcome network text (ctl_now c)) c).

Definition clear_status (network : str) c : Controller :=
  let c := pump fuel c in
  pump fuel (queue [Status] (c <| ctl_console := console_clear (ctl_console c) network |>)).

Definition clear_conversation (network target : str) c : Controller :=
  let c := pump fuel c in
  if is_empty network || is_empty target then c
  else
    let key := key_for c network target in
    if is_none (conversation c key) then c else pump fuel (queue [Messages] (map_reducer (clear_messages key) c)).

(** ** Sending (send.rs) *)

Definition note_accepted_send (network target : str) c : Controller := queue [ReducerViews.Sent (key_for c network target)] c.

Definition refuse_send (network message : str) c : Controller * bool := (queue [Status] (set_last_error network (Some message) c), false).

(** [echo_if_present] *)
Definition echo_if_present (network target body : str) (kind : Outgoing) c : Controller :=
  if contains (caps c network) EchoMessage && negb (bool_decide (kind = OutNotice)) then c
  else
    let key := key_for c network target in
    if is_none (conversation c key) then c
    else
      let author := match session c network with Some s => nickname s | None => [] end in
      let line := mkChat key author body (ctl_now c) None target [] false in
      apply (match kind with OutSay => EvMessage line | OutAction => EvAction line | OutNotice => EvNotice line end) c.

Definition ensure_quiet (network target : str) c : Controller :=
  (on_reducer (ensure_conversation (key_for c network target) target QuietSend) c).1.

Definition write_kind (kind : Outgoing) (target text : str) (s : Core) : Core * bool :=
  match kind with OutSay => send_privmsg_locked s target text | OutAction => send_action s target text | OutNotice => send_notice s target text end.

(** [send_now] *)
Definition send_now (network target text : str) (kind : Outgoing) c : Controller * bool :=
  if is_empty network || is_empty target || is_empty text then refuse_send network (lit "Missing network, target, or text") c
  else match session c network with
  | None => refuse_send network (lit "That network is not configured") c
  | Some s =>
      if negb (is_registered s) then refuse_send network (lit "Not connected") c
      else
        let '(c, written) := write_session network (write_kind kind target text) c in
        if negb written then refuse_send network (lit "Failed to send message") c
        else
          let say := bool_decide (kind = OutSay) in
          let c := note_accepted_send network target c in
          let c := if say then note_nick_delivery network target (remember_open_direct network target c) else c in
          let c := echo_if_present network target text kind (ensure_quiet network target c) in
          let c := if say then note_chat_sent (pump fuel) network c else c in
          (queue [Status] (set_last_error network None c), true)
  end.

Definition send_kind (kind : Outgoing) (network target text : str) c : Controller * bool :=
  let '(c, sent) := send_now network target text kind (pump fuel c) in (pump fuel c, sent).
Definition send_to_target := send_kind OutSay.
Definition send_action_to := send_kind OutAction.
Definition send_notice_to := send_kind OutNotice.

(** [join_channel]: a refusal does not pump again. *)
Definition join_channel_of (network name : str) c : Controller * bool :=
  let c := pump fuel c in
  match session c network with
  | None => refuse_send network (lit "That network is not configured") c
  | Some s =>
      if negb (is_registered s) then refuse_send network (lit "Not connected") c
      else
        let features := server_features c network in
        match make_join_target name None features with
        | None => refuse_send network (lit "That is not a channel name") c
        | Some target =>
            let '(c, sent) := write_session network (fun s => join_locked s target) c in
            if negb sent then refuse_send network (lit "Failed to join channel") c
            else
              let c := c <| ctl_inbox := consume_invite (ctl_inbox c) network name (case_mapping features) |> in
              (pump fuel (queue [Status] (set_last_error network None (select network name c))), true)
        end
  end.

(** [dispatch_quiet_send] *)
Definition dispatch_quiet_send (kind : QuietSend_) (argument : str) surface c : Controller * CommandOutcome :=
  let words := split_words argument in
  let target := words_first words in
  let body := words_rest words in
  let network := surface_network c surface in
  let say := bool_decide (kind = QuietMsg) in
  if is_empty target || is_empty body then (c, Refused)
  else if is_empty network then (c, refused_or_wrong_scope surface)
  else if say && is_channel (server_features c network) target then (c, Refused)
  else if negb (registered c network) then (c, NotConnected)
  else
    let outgoing_kind := if say then OutSay else OutNotice in
    let '(c, sent) := write_session network (write_kind outgoing_kind target body) c in
    if negb sent then (c, Refused)
    else
      let c := note_nick_delivery network target (note_accepted_send network target c) in
      let c := if say then remember_open_direct network target c else c in
      let c := echo_if_present network target body outgoing_kind (ensure_quiet network target c) in
      (if say then note_chat_sent (pump fuel) network c else c, Command.Sent).

(** What [dispatch_action] and [send_selected_message] share: a line to the selected conversation. *)
Definition send_selected (kind : Outgoing) (text : str) c : Controller * CommandOutcome :=
  match selected_session c with
  | None => (c, WrongScope)
  | Some network =>
      if selected_channel_left c then (c, Refused)
      else
        let target := shown_target c in
        let '(c, sent) := write_session network (write_kind kind target text) c in
        if negb sent then (c, Refused)
        else
          let c := note_nick_delivery network target (note_accepted_send network target c) in
          let c := echo_if_present network target text kind c in
          let c := if bool_decide (kind = OutAction) then c <| ctl_typing_target := None |> else c in
          (note_chat_sent (pump fuel) network c, Command.Sent)
  end.
Definition dispatch_action := send_selected OutAction.
Definition send_selected_message := send_selected OutSay.

(** ** WHOIS, CTCP and own metadata (replyrouter.rs) *)

Definition bare_nick_target c : CommandOutcome + str * option str :=
  if selected_is_closeable_direct c then inr (shown_target c, selected_session c)
  else if is_none (ctl_selected c) then inl Refused else inl WrongScope.

Definition destination_for c surface : CommandOutcome + option ConversationKey :=
  match surface with
  | OnStatus => inr None
  | OnConversation => match ctl_selected c with Some selected => inr (Some selected) | None => inl WrongScope end
  end.

(** A nick query: the nick named, or the selected peer, and the reply's destination. *)
Definition query_nick (words : Words) surface (refuses : str -> str -> bool) (send : str -> str -> option ConversationKey -> Controller -> Controller * bool) c
    : Controller * CommandOutcome :=
  let target := if is_empty (words_first words) then bare_nick_target c
    else
      let network := surface_network c surface in
      if is_empty network then inl (refused_or_wrong_scope surface)
      else if refuses network (words_first words) then inl Refused
      else inr (words_first words, session_for c surface) in
  match target with
  | inl outcome => (c, outcome)
  | inr (nick, found) =>
      if is_empty nick then (c, Refused)
      else match found with
      | None => (c, NotConnected)
      | Some network =>
          if negb (registered c network) then (c, NotConnected)
          else match destination_for c surface with
          | inl outcome => (c, outcome)
          | inr destination => let '(c, sent) := send network nick destination c in (c, outcome_of sent)
          end
      end
  end.

Definition dispatch_whois (words : Words) surface c : Controller * CommandOutcome :=
  query_nick words surface (fun _ _ => false) (fun network nick => send_whois network nick) c.

Definition show_z (n : Z) : str := if (n <? 0)%Z then chr "-" :: show (Z.to_N (- n)) else show (Z.to_N n).

Definition dispatch_ctcp (query : str) (words : Words) surface c : Controller * CommandOutcome :=
  if negb (is_empty (words_rest words)) then (c, Refused)
  else
    let argument := if str_eqb query (lit "PING") then show_z (timestamp_millis (ctl_now c)) else [] in
    query_nick words surface (fun network nick => is_channel (server_features c network) nick)
      (fun network nick => send_ctcp_query network nick query argument) c.

(** [echo_metadata_feedback] *)
Definition echo_metadata_feedback surface (network text : str) c : Controller * CommandOutcome :=
  let to_status c := match surface with
    | OnConversation => (c, WrongScope)
    | OnStatus => (append_status (status_outcome network text (ctl_now c)) c, Command.Sent)
    end in
  match ctl_selected c with
  | Some selected => if str_eqb (network_id selected) network then (apply_whois_transcript selected text c, Command.Sent) else to_status c
  | None => to_status c
  end.

Definition begin_own_metadata_dispatch c : Controller := update_watches (fun w => w <| own_metadata_depth := S (own_metadata_depth w) |>) c.

(** [end_own_metadata_dispatch]: the replies that waited are routed when the last write closes. *)
Definition end_own_metadata_dispatch c : Controller :=
  let c := update_watches (fun w => w <| own_metadata_depth := pred (own_metadata_depth w) |>) c in
  if (0 <? own_metadata_depth (ctl_watches c))%nat then c
  else
    let pending := pending_own_metadata (ctl_watches c) in
    let c := update_watches (fun w => w <| pending_own_metadata := [] |>) c in
    foldl (fun c item => route_own_metadata_reply (pending_network item) (pending_nick item) (pending_key item) (pending_value item) c) c pending.

(** [dispatch_own_metadata_clear] and [dispatch_own_metadata_set] *)
Definition write_own_metadata (network key_name : str) (kind : OwnMetadataKind) (value : str) c : Controller * CommandOutcome :=
  let c := begin_own_metadata_dispatch c in
  let '(c, sent) := ask_session network None (fun s => set_own_metadata s key_name value) c in
  match sent with
  | None => (end_own_metadata_dispatch c, Refused)
  | Some wire =>
      if bool_decide (kind = MetadataSet) && is_empty wire then (end_own_metadata_dispatch c, Refused)
      else (end_own_metadata_dispatch (arm_own_metadata_watch network key_name kind wire c), Command.Sent)
  end.

(** [dispatch_own_metadata] *)
Definition dispatch_own_metadata (argument : str) surface (key_name : str) c : Controller * CommandOutcome :=
  match session_for c surface with
  | None =>
      (c, if bool_decide (surface = OnConversation) && is_none (ctl_selected c) && negb (is_empty (network_ids c)) then Refused else NotConnected)
  | Some network =>
      match registered_session c network with
      | None => (c, NotConnected)
      | Some s =>
          let say text := echo_metadata_feedback surface network text c in
          if negb (contains (caps c network) MemberMetadata && contains (caps c network) Batch) then say (no_capability_message key_name)
          else if is_empty argument then
            let presence := nick_presence (net_facts (ctl_reducer c)) network (nickname s) in
            let current := if str_eqb key_name STATUS_KEY then presence_status presence else presence_avatar presence in
            say (if is_empty current then inspect_empty_message key_name else inspect_value_message key_name current)
          else if is_clear_alias argument then write_own_metadata network key_name MetadataClear [] c
          else
            match (if str_eqb key_name AVATAR_KEY then avatar_metadata_value argument else Some argument) with
            | None => say (lit "Avatar must be an HTTPS URL or an email address.")
            | Some value =>
                let budget := effective_max_value_bytes (max_value_bytes (metadata s)) in
                if budget =? 0 then say (no_value_message key_name)
                else
                  let clamped := clamped_to value budget in
                  if is_empty clamped then (c, Refused) else write_own_metadata network key_name MetadataSet clamped c
            end
      end
  end.
Definition dispatch_status (argument : str) surface := dispatch_own_metadata argument surface STATUS_KEY.
Definition dispatch_avatar (argument : str) surface := dispatch_own_metadata argument surface AVATAR_KEY.

(** ** Channel verbs (listmode.rs) *)

(** The channel, the nick and the reason of a kick: a first word that names a channel chooses it. *)
Definition kick_scope (words : Words) surface c : CommandOutcome + str * str * str :=
  let network := surface_network c surface in
  if is_empty (words_first words) then inl Refused
  else if is_channel (server_features c network) (words_first words) then
    let after := split_words (words_rest words) in
    if is_empty (words_first after) then inl Refused else inr (words_first words, words_first after, words_rest after)
  else match selection_scope c network with
  | Some outcome => inl outcome
  | None => inr (shown_target c, words_first words, words_rest words)
  end.

Definition dispatch_kick (network argument : str) surface c : Controller * CommandOutcome :=
  match kick_scope (split_words argument) surface c with
  | inl outcome => (c, outcome)
  | inr (name, nick, reason) =>
      if is_empty name then (c, Refused)
      else let '(c, sent) := write_session network (fun s => kick s name nick reason) c in (c, outcome_of sent)
  end.

Definition dispatch_kickban (network argument : str) surface c : Controller * CommandOutcome :=
  match kick_scope (split_words argument) surface c with
  | inl outcome => (c, outcome)
  | inr (name, token, reason) =>
      let nick := kick_nick_from_mask token in
      if is_empty name || is_empty nick then (c, Refused)
      else let '(c, sent) := write_session network (fun s => kickban s name (expand_list_mask token) nick reason) c in (c, outcome_of sent)
  end.

Definition dispatch_invite (network argument : str) surface c : Controller * CommandOutcome :=
  let words := split_words argument in
  let named := surface_network c surface in
  let features := server_features c named in
  if is_empty (words_first words) then (c, WrongScope)
  else if is_channel features (words_first words) then (c, Refused)
  else
    let scope := if is_empty (words_rest words) then
        if bool_decide (surface = OnStatus) then inl WrongScope
        else match selection_scope c named with Some outcome => inl outcome | None => inr (shown_target c) end
      else
        let target := split_words (words_rest words) in
        if negb (is_channel features (words_first target)) || negb (is_empty (words_rest target)) then inl Refused else inr (words_first target) in
    match scope with
    | inl outcome => (c, outcome)
    | inr name =>
        if is_empty name then (c, Refused)
        else let '(c, sent) := write_session network (fun s => invite s (words_first words) name) c in (c, outcome_of sent)
    end.

Definition dispatch_mode (argument : str) surface c : Controller * CommandOutcome :=
  let network := surface_network c surface in
  if is_empty argument then (c, Refused)
  else if is_empty network then (c, refused_or_wrong_scope surface)
  else match parse_channel_mode_request argument (server_features c network) with
  | None => (c, Refused)
  | Some request =>
      if negb (registered c network) then (c, NotConnected)
      else let '(c, sent) := write_session network (fun s => send_channel_mode s request) c in (c, outcome_of sent)
  end.

Definition network_has_quiets c (network : str) : bool := existsb (N.eqb (chr "q")) (modes_a (chan_modes (server_features c network))).

Definition dispatch_channel_mode_wrapper (wrapper : ChannelModeWrapper) (words : Words) surface c : Controller * CommandOutcome :=
  let network := surface_network c surface in
  match selection_scope c network with
  | Some outcome => (c, outcome)
  | None =>
      if is_empty (words_first words) || negb (is_empty (words_rest words)) then (c, Refused)
      else if bool_decide (wrapper_mask wrapper = Some Quiet) && negb (network_has_quiets c network) then (c, Refused)
      else
        let parameter := if is_none (wrapper_mask wrapper) then words_first words else expand_list_mask (words_first words) in
        dispatch_mode (shown_target c ++ lit " " ++ wrapper_modes wrapper ++ lit " " ++ parameter) surface c
  end.

Definition dispatch_list_mode_inquiry (kind : ListMaskKind) (argument : str) surface c : Controller * CommandOutcome :=
  let network := surface_network c surface in
  let name := shown_target c in
  match ctl_selected c with
  | Some destination =>
      if negb (is_empty argument) then (c, Refused)
      else if negb (bool_decide (surface = OnConversation)) || negb (selects_channel c) || is_empty network then (c, WrongScope)
      else if bool_decide (kind = Quiet) && negb (network_has_quiets c network) then (c, Refused)
      else if is_empty name || negb (is_channel (server_features c network) name) then (c, Refused)
      else if negb (registered c network) then (c, NotConnected)
      else
        let c := update_watches (fun w => w <| list_mode_watches := bt_insert network (mkListWatch destination kind name) (list_mode_watches w) |>) c in
        let '(c, sent) := write_session network (fun s => send_channel_mode s (mkModeRequest name [mode_letter kind] [] false)) c in
        if sent then (c, Command.Sent) else (update_watches (fun w => w <| list_mode_watches := bt_remove network (list_mode_watches w) |>) c, Refused)
  | None => (c, if negb (is_empty argument) then Refused else WrongScope)
  end.

(** ** Joining and leaving (commanddispatcher.rs) *)

(** One target of [dispatch_join]: a refused JOIN puts the close mark and the cancellation back. *)
Definition join_one (network : str) (st : Controller * bool) (target : IrcJoinTarget) : Controller * bool :=
  let '(c, sent) := st in
  let key := key_for c network (JoinTarget.join_channel target) in
  let was_closed := is_closed (net_facts (ctl_reducer c)) key in
  let was_cancelled := bool_decide (key ∈ ctl_cancelled_joins c) in
  let c := (map_reducer (clear_closed key) c) <| ctl_cancelled_joins := ctl_cancelled_joins c ∖ {[key]} |> in
  let '(c, wrote) := write_session network (fun s => join_locked s target) c in
  if wrote then (c, sent)
  else
    let c := if was_closed then map_reducer (note_closed key) c else c in
    (if was_cancelled then c <| ctl_cancelled_joins := {[key]} ∪ ctl_cancelled_joins c |> else c, false).

(** [open_joined_channel] *)
Definition open_joined_channel (network name : str) c : Controller :=
  if is_empty network || is_empty name then c
  else
    let key := key_for c network name in
    let '(c, made) := on_reducer (ensure_conversation key name ChannelState_) (map_reducer (clear_closed key) c) in
    if is_none made then c else select network name (queue [Conversations] c).

(** The targets of a [/join]: those named, or the pending invite's channel. *)
Definition join_targets_of (network argument : str) c : option (list IrcJoinTarget) :=
  let features := server_features c network in
  if is_empty argument then
    let? s := session c network in
    let? pending := pending_invite s in
    let? target := make_join_target (invite_channel pending) None features in
    Some [target]
  else parse_join_targets argument features.

Definition dispatch_join (network argument : str) c : Controller * CommandOutcome :=
  match join_targets_of network argument c with
  | None => (c, Refused)
  | Some targets =>
      let '(c, sent) := foldl (join_one network) (c, true) targets in
      match last targets with
      | Some target => if sent then (open_joined_channel network (JoinTarget.join_channel target) c, Command.Sent) else (c, Refused)
      | None => (c, Refused)
      end
  end.

Definition part_channel (network name : str) c : Controller * bool := write_session network (fun s => SessionOutbound.part s name) c.

Definition dispatch_part (network : str) (words : Words) surface c : Controller * CommandOutcome :=
  let scope := if is_empty (words_first words) then
      match selection_scope c (surface_network c surface) with
      | Some outcome => inl outcome
      | None => if is_empty (shown_target c) then inl Refused else inr (shown_target c)
      end
    else inr (words_first words) in
  match scope with
  | inl outcome => (c, outcome)
  | inr name =>
      let key := key_for c network name in
      match joined <$> (conversation c key ≫= channel) with
      | Some true =>
          let '(c, sent) := part_channel network name c in
          if sent then (note_channel_left network name c, Command.Sent) else (c, Refused)
      | Some false => (c <| ctl_cancelled_joins := {[key]} ∪ ctl_cancelled_joins c |>, Command.Sent)
      | None => let '(c, sent) := part_channel network name c in (c, outcome_of sent)
      end
  end.

Definition dispatch_query (argument : str) surface c : Controller * CommandOutcome :=
  let words := split_words argument in
  let network := surface_network c surface in
  let nick := words_first words in
  if is_empty nick then (c, Refused)
  else if is_empty network then (c, refused_or_wrong_scope surface)
  else if is_channel (server_features c network) nick then (c, Refused)
  else if negb (is_empty (words_rest words)) && negb (registered c network) then (c, NotConnected)
  else
    let '(c, made) := on_reducer (ensure_conversation (key_for c network nick) nick UserOpen) c in
    if is_none made then (c, Refused)
    else
      let c := select network nick (queue [Conversations] (remember_open_direct network nick c)) in
      if is_empty (words_rest words) then (c, Command.Sent) else send_selected_message (words_rest words) c.

Definition dispatch_service_msg (service text : str) surface c : Controller * CommandOutcome :=
  dispatch_quiet_send QuietMsg (if is_empty text then service else service ++ lit " " ++ text) surface c.

Definition dispatch_raw (line : str) surface c : Controller * CommandOutcome :=
  let network := surface_network c surface in
  if is_empty line then (c, Refused)
  else if is_empty network then (c, refused_or_wrong_scope surface)
  else if negb (registered c network) then (c, NotConnected)
  else let '(c, sent) := write_session network (fun s => send_command s line []) c in (c, outcome_of sent).

Definition dispatch_list (mask : str) surface c : Controller * CommandOutcome :=
  let network := surface_network c surface in
  if is_empty network then (c, if bool_decide (surface = OnConversation) && is_none (ctl_selected c) then WrongScope else Refused)
  else ask_channel_list (pump fuel) network mask c.

Definition clear_surface surface c : Controller * CommandOutcome :=
  match surface with
  | OnStatus => if is_empty (ctl_console_network c) then (c, Refused) else (clear_status (ctl_console_network c) c, Command.Sent)
  | OnConversation =>
      match ctl_selected c with
      | Some key => (clear_conversation (network_id key) (shown_target c) c, Command.Sent)
      | None => (c, WrongScope)
      end
  end.

Definition set_selected_topic (text : str) c : Controller * CommandOutcome :=
  if is_none (ctl_selected c) || negb (selects_channel c) then (c, WrongScope)
  else if is_empty text then (c, Command.Sent)
  else match selected_session c with
  | None => (c, NotConnected)
  | Some network =>
      if negb (registered c network) then (c, NotConnected)
      else let '(c, sent) := write_session network (fun s => set_topic s (shown_target c) text) c in (c, outcome_of sent)
  end.

(** ** The saved lists (commanddispatcher.rs) *)

Definition store_refusal c surface : CommandOutcome :=
  if bool_decide (surface = OnConversation) && is_none (ctl_selected c) then WrongScope else Refused.

(** Idle and failed sessions, and networks with none, refuse the store verbs. *)
Definition store_session_down c surface : bool :=
  match session_for c surface ≫= session c with
  | None => true
  | Some s => bool_decide (state s = StIdle) || bool_decide (state s = StFailed)
  end.

(** What the three list verbs share: a network whose session is up, a change or a listing, and its line in Status. *)
Definition dispatch_store (edit : str -> Controller -> Controller * (CommandOutcome + str)) surface c : Controller * CommandOutcome :=
  let network := surface_network c surface in
  if is_empty network then (c, store_refusal c surface)
  else if store_session_down c surface then (c, NotConnected)
  else
    let '(c, result) := edit network c in
    match result with inl outcome => (c, outcome) | inr text => (log_outcome network text c, Command.Sent) end.

Definition listing (found : list str) (none some_ : str) : str := if is_empty found then none else some_ ++ join_with (lit ", ") found.
Definition changed_line (change : Controller * bool) (yes no : str) : Controller * (CommandOutcome + str) :=
  let '(c, changed) := change in (c, inr (if changed then yes else no)).

Definition dispatch_ignore (verb : StoreVerb) (argument : str) surface c : Controller * CommandOutcome :=
  dispatch_store (fun network c =>
    let words := split_words argument in
    let nick := words_first words in
    let usable := is_empty (words_rest words) && ignore_nick_is_usable nick (server_features c network) in
    match verb with
    | StoreList => (c, if is_empty argument then inr (listing (ignored_nicks c network) (lit "Not ignoring anyone") (lit "Ignoring: ")) else inl Refused)
    | StoreAdd =>
        if usable then changed_line (ignore_nick network nick c) (lit "Ignoring " ++ nick) (lit "Already ignoring " ++ nick) else (c, inl Refused)
    | StoreRemove =>
        if usable then changed_line (unignore_nick network nick c) (lit "No longer ignoring " ++ nick) (lit "Not ignoring " ++ nick) else (c, inl Refused)
    end) surface c.

Definition dispatch_mute (verb : StoreVerb) (argument : str) surface c : Controller * CommandOutcome :=
  dispatch_store (fun network c =>
    let features := server_features c network in
    let words := split_words argument in
    let edit value yes no :=
      if negb (is_empty (words_rest words)) then (c, inl Refused)
      else if is_empty (words_first words) && (bool_decide (surface = OnStatus) || is_none (ctl_selected c)) then (c, inl WrongScope)
      else
        let target := if is_empty (words_first words) then shown_target c else words_first words in
        if mute_target_is_usable target features then changed_line (apply_mute network target value c) (yes ++ target) (no ++ target) else (c, inl Refused) in
    match verb with
    | StoreList =>
        (c, if is_empty argument then inr (listing (listed (ctl_mutes c) network (case_mapping features)) (lit "Not muting anything") (lit "Muted: ")) else inl Refused)
    | StoreAdd => edit true (lit "Muted ") (lit "Already muted ")
    | StoreRemove => edit false (lit "No longer muted ") (lit "Not muted ")
    end) surface c.

Definition dispatch_highlight (verb : StoreVerb) (argument : str) surface c : Controller * CommandOutcome :=
  dispatch_store (fun network c =>
    let words := split_words argument in
    let word := words_first words in
    let usable := negb (is_empty word) && is_empty (words_rest words) in
    match verb with
    | StoreList => (c, if is_empty argument then inr (listing (highlighted_words c network) (lit "No highlight words") (lit "Highlights: ")) else inl Refused)
    | StoreAdd =>
        if usable then changed_line (add_highlight_word network word c) (lit "Highlighting " ++ word) (lit "Already highlighting " ++ word) else (c, inl Refused)
    | StoreRemove =>
        if usable then changed_line (remove_highlight_word network word c) (lit "No longer highlighting " ++ word) (lit "Not highlighting " ++ word)
        else (c, inl Refused)
    end) surface c.

Definition dispatch_monitor (verb : StoreVerb) (argument : str) surface c : Controller * CommandOutcome :=
  let network := surface_network c surface in
  if is_empty network then (c, refused_or_wrong_scope surface)
  else
    let '(c, outcome) := match verb with
      | StoreAdd => monitor_add (pump fuel) network argument c
      | StoreRemove => monitor_remove (pump fuel) network argument c
      | StoreList => monitor_list (pump fuel) network argument c
      end in
    (c, match outcome with MonitorSent => Command.Sent | MonitorRefused => Refused | MonitorNotConnected => NotConnected end).

(** ** Replies in the surface (commanddispatcher.rs) *)

(** [dispatch_help] and [echo_autoaway_feedback] *)
Definition echo_in_surface surface (text : str) c : Controller * CommandOutcome :=
  let network := if is_empty (surface_network c surface) then ctl_console_network c else surface_network c surface in
  if is_empty network then (c, Refused)
  else match surface, ctl_selected c with
  | OnConversation, Some key => (apply_whois_transcript key text c, Command.Sent)
  | OnConversation, None => (c, WrongScope)
  | OnStatus, _ => (log_outcome network text c, Command.Sent)
  end.
Definition dispatch_help surface c : Controller * CommandOutcome := echo_in_surface surface help_text c.
Definition dispatch_autoaway (argument : str) surface c : Controller * CommandOutcome :=
  let '(c, text) := autoaway_command (pump fuel) (parse_autoaway_argument argument) c in echo_in_surface surface text c.

(** [after_preference_change] (persistence.rs) *)
Definition after_preference_change (name : PrefName) c : Controller :=
  let c := save_to_file (save_preferences (ctl_prefs c)) c in
  if negb (bool_decide (name = PrefDirects)) || negb (directs (ctl_prefs c)) then c
  else foldl (fun c network => if registered c network then restore_open_directs network c else c) c (network_ids c).

Definition preference_changed (name : PrefName) c : Controller :=
  let c := if bool_decide (name = PrefJoins) then queue [Messages] (map_reducer (set_membership_noise (joins (ctl_prefs c))) c) else c in
  after_preference_change name c.

(** [set_preference] *)
Definition set_preference (name : PrefName) (value : PrefValue) c : Controller * bool :=
  let '(prefs, fits) := set_pref (ctl_prefs c) name value in
  let c := c <| ctl_prefs := prefs |> in if fits then (preference_changed name c, true) else (c, false).

(** [text.lines()], for text without a carriage return. *)
Definition text_lines (text : str) : list str :=
  let pieces := split_on (N.eqb NEWLINE) text in
  match last pieces with Some [] => take (length pieces - 1) pieces | _ => pieces end.

Definition echo_pref_feedback surface (text : str) c : Controller :=
  match surface with
  | OnConversation => match ctl_selected c with Some key => foldl (fun c line => apply_whois_transcript key line c) c (text_lines text) | None => c end
  | OnStatus => if is_empty (ctl_console_network c) then c else foldl (fun c line => log_outcome (ctl_console_network c) line c) c (text_lines text)
  end.

Definition dispatch_pref (request : PrefRequest) surface c : Controller * CommandOutcome :=
  let '(prefs, reply) := pref_reply request (ctl_prefs c) in
  let c := c <| ctl_prefs := prefs |> in
  let c := if pref_changed reply then preference_changed (request_name request) c else c in
  (echo_pref_feedback surface (pref_reply_text reply) c, Command.Sent).

(** ** The routing table (commanddispatcher.rs) *)

(** [disconnect_with_reason] (sessioncontrol.rs) *)
Definition disconnect_with_reason (network reason : str) c : Controller * bool :=
  let c := pump fuel c in
  let '(c, stopped) := write_session network (fun s => SessionDispatch.quit s reason) c in
  if stopped then (pump fuel (queue [Status] c), true) else (c, false).

Definition away_verb (network reason : str) c : Controller * bool :=
  let '(c, sent) := write_session network (fun s => set_away_locked s reason) c in
  if negb sent then (c, false) else (if is_empty (trim reason) then note_away_cleared network c else note_manual_away network c, true).

(** [dispatch_wire] *)
Definition dispatch_wire (command : Command) surface c : Controller * CommandOutcome :=
  match session_for c surface with
  | None => (c, if bool_decide (surface = OnConversation) && is_none (ctl_selected c) && negb (is_empty (network_ids c)) then Refused else NotConnected)
  | Some network =>
      let quitting := match command with CmdDisconnect _ => true | _ => false end in
      if negb (registered c network) && negb quitting then (c, NotConnected)
      else
        let sent (result : Controller * bool) := (result.1, outcome_of result.2) in
        match command with
        | CmdJoin argument => dispatch_join network argument c
        | CmdPart words => dispatch_part network words surface c
        | CmdKick words => dispatch_kick network (Command.joined words) surface c
        | CmdKickban words => dispatch_kickban network (Command.joined words) surface c
        | CmdInvite words => dispatch_invite network (Command.joined words) surface c
        | CmdNick nick => if is_empty nick then (c, Refused) else sent (write_session network (fun s => change_nick s nick) c)
        | CmdDisconnect reason => sent (disconnect_with_reason network reason c)
        | CmdAway reason => sent (away_verb network reason c)
        | CmdBack => sent (away_verb network [] c)
        | _ => (c, Unsupported)
        end
  end.

Definition mode_wrapper (modes : string) (mask : option ListMaskKind) : ChannelModeWrapper := mkWrapper (lit modes) mask.

(** [dispatch_command] *)
Definition dispatch_command (surface : ComposerSurface) (command : Command) c : Controller * CommandOutcome :=
  let wrapped modes mask words := dispatch_channel_mode_wrapper (mode_wrapper modes mask) words surface c in
  match command with
  | CmdEmpty => (c, Command.Sent)
  | CmdUnknown _ => (c, Unsupported)
  | _ =>
      if negb (allowed_on command surface) then (c, WrongScope)
      else match command with
      | CmdSay text => send_selected_message text c
      | CmdAction text => dispatch_action text c
      | CmdQuery words => dispatch_query (Command.joined words) surface c
      | CmdMsg words => dispatch_quiet_send QuietMsg (Command.joined words) surface c
      | CmdNotice words => dispatch_quiet_send QuietNotice (Command.joined words) surface c
      | CmdNs text => dispatch_service_msg (lit "NickServ") text surface c
      | CmdCs text => dispatch_service_msg (lit "ChanServ") text surface c
      | CmdZnc text => dispatch_service_msg (lit "*status") text surface c
      | CmdMode argument => dispatch_mode argument surface c
      | CmdOp words => wrapped "+o"%string None words
      | CmdDeop words => wrapped "-o"%string None words
      | CmdVoice words => wrapped "+v"%string None words
      | CmdDevoice words => wrapped "-v"%string None words
      | CmdBan words => wrapped "+b"%string (Some Ban) words
      | CmdUnban words => wrapped "-b"%string (Some Ban) words
      | CmdQuiet words => wrapped "+q"%string (Some Quiet) words
      | CmdUnquiet words => wrapped "-q"%string (Some Quiet) words
      | CmdBans argument => dispatch_list_mode_inquiry Ban argument surface c
      | CmdQuiets argument => dispatch_list_mode_inquiry Quiet argument surface c
      | CmdRaw line => dispatch_raw line surface c
      | CmdWhois words => dispatch_whois words surface c
      | CmdPing words => dispatch_ctcp (lit "PING") words surface c
      | CmdTime words => dispatch_ctcp (lit "TIME") words surface c
      | CmdVersion words => dispatch_ctcp (lit "VERSION") words surface c
      | CmdClear => clear_surface surface c
      | CmdClose => let '(c, closed) := close_selected c in (c, if closed then Command.Sent else WrongScope)
      | CmdTopic text => set_selected_topic text c
      | CmdIgnore words => dispatch_ignore StoreAdd (Command.joined words) surface c
      | CmdUnignore words => dispatch_ignore StoreRemove (Command.joined words) surface c
      | CmdIgnored argument => dispatch_ignore StoreList argument surface c
      | CmdMonitor words => dispatch_monitor StoreAdd (Command.joined words) surface c
      | CmdUnmonitor words => dispatch_monitor StoreRemove (Command.joined words) surface c
      | CmdMonitored argument => dispatch_monitor StoreList argument surface c
      | CmdMute words => dispatch_mute StoreAdd (Command.joined words) surface c
      | CmdUnmute words => dispatch_mute StoreRemove (Command.joined words) surface c
      | CmdMuted argument => dispatch_mute StoreList argument surface c
      | CmdHighlight words => dispatch_highlight StoreAdd (Command.joined words) surface c
      | CmdUnhighlight words => dispatch_highlight StoreRemove (Command.joined words) surface c
      | CmdHighlights argument => dispatch_highlight StoreList argument surface c
      | CmdHelp => dispatch_help surface c
      | CmdAutoaway argument => dispatch_autoaway argument surface c
      | CmdPref request => dispatch_pref request surface c
      | CmdList mask => dispatch_list mask surface c
      | CmdStatus argument => dispatch_status argument surface c
      | CmdAvatar argument => dispatch_avatar argument surface c
      | CmdEmpty | CmdUnknown _ => (c, Unsupported)
      | _ => dispatch_wire command surface c
      end
  end.

(** [Controller::dispatch] *)
Definition dispatch (surface : ComposerSurface) (command : Command) c : Controller * CommandOutcome :=
  let '(c, outcome) := dispatch_command surface command (pump fuel c) in (pump fuel c, outcome).

Definition outcome_error (outcome : CommandOutcome) (command : Command) c : str :=
  if is_live_message command && selected_channel_left c then lit "You have left this channel" else command_outcome_text outcome command.

(** [Controller::report] *)
Definition report (outcome : CommandOutcome) (command : Command) surface c : Controller * bool :=
  let network := error_network_id c surface in
  let sent := bool_decide (outcome = Command.Sent) in
  (queue [Status] (set_last_error network (if sent then None else Some (outcome_error outcome command c)) c), sent).

(** [Controller::submit] *)
Definition submit (surface : ComposerSurface) (text : str) c : Controller * bool :=
  match parse_command text with
  | CmdEmpty => (c, false)
  | command =>
      let '(c, outcome) := dispatch surface command c in
      match surface with
      | OnConversation => report outcome command surface c
      | OnStatus =>
          if bool_decide (outcome = Command.Sent) then (c, true)
          else
            let network := ctl_console_network c in
            let c := if is_empty network then c else log_outcome network (command_outcome_text outcome command) c in
            (queue [Status] c, true)
      end
  end.

(** ** Intents (selection.rs, history.rs, controller.rs) *)

Definition select_conversation (network target : str) c : Controller := pump fuel (select network target (pump fuel c)).

Definition reveal_conversation (network target : str) c : Controller :=
  let c := pump fuel c in
  if is_empty network || is_empty target then c
  else
    let key := key_for c network target in
    let show_it c :=
      let c := if is_channel (server_features c network) (normalized_target key) then c
        else queue [Inbox] (c <| ctl_inbox := consume_monitor (ctl_inbox c) network target (mapping_for c network) |>) in
      pump fuel (select network target c) in
    if negb (is_none (conversation c key)) then show_it c
    else
      let '(c, made) := on_reducer (ensure_conversation key target UserOpen) c in
      if is_none made then c else show_it (queue [Conversations] (remember_open_direct network target c)).

Definition open_status (network : str) c : Controller :=
  let c := pump fuel c in
  if is_empty network then c
  else
    let c := c <| ctl_console_network := network |> <| ctl_console_open := true |> <| ctl_console := mark_seen (ctl_console c) network |> in
    pump fuel (queue [Selection; Status] c).

Definition leave_status c : Controller :=
  let c := pump fuel c in
  if negb (ctl_console_open c) then c else pump fuel (queue [Selection; Messages; Status] (c <| ctl_console_open := false |>)).

Definition open_direct (nick : str) c : Controller * bool :=
  let c := pump fuel c in
  match ctl_selected c with
  | None => (c, false)
  | Some selected =>
      let network := network_id selected in
      if is_empty nick then (c, false)
      else
        let '(c, made) := on_reducer (ensure_conversation (key_for c network nick) nick UserOpen) c in
        if is_none made then (c, false)
        else (pump fuel (select network nick (queue [Conversations] (remember_open_direct network nick c))), true)
  end.

Definition close_direct c : Controller * bool :=
  let c := pump fuel c in
  let network := focused_network_id c in
  let '(c, closed) := close_selected c in
  if negb closed then (c, false)
  else
    let c := if bt_contains network (ctl_last_errors c) then queue [Status] (set_last_error network None c) else c in
    (pump fuel c, true).

Definition close_conversation (network target : str) c : Controller * bool :=
  let c := pump fuel c in
  if is_empty network || is_empty target then (c, false)
  else
    let key := key_for c network target in
    if is_none (conversation c key) then (c, false) else let '(c, closed) := close_key key c in (pump fuel c, closed).

Definition leave_selected_channel c : Controller * bool := submit OnConversation (lit "/part") c.
Definition join_selected_channel c : Controller * bool :=
  if negb (selects_channel c) || channel_joined c then (c, false) else submit OnConversation (lit "/join " ++ shown_target c) c.

Definition mark_everything_read c : Controller :=
  let '(c, changed) := on_reducer mark_all_read (pump fuel c) in if changed then queue [Conversations] c else c.

Definition set_active (active : bool) c : Controller :=
  let c := map_reducer (set_window_active active) (pump fuel c) in
  if negb active then c <| ctl_focused := false |>
  else
    let c := c <| ctl_focused := true |> <| ctl_follow_end := false |> in
    match ctl_selected c with
    | Some key => let '(c, changed) := on_reducer (mark_read key) c in if changed then queue [Conversations] c else c
    | None => c
    end.

(** [oldest_history_cursor] *)
Definition oldest_history_cursor (rows : list Row) : option (str * option Time) :=
  match list_find (fun row => row_msgid row <> []) rows with
  | Some (_, row) => Some (row_msgid row, Some (time row))
  | None => match list_find (fun row => time row <> MIN_UTC) rows with Some (_, row) => Some ([], Some (time row)) | None => None end
  end.

(** [request_older_transcript_history] *)
Definition request_older_transcript_history c : Controller * bool :=
  match ctl_selected c, selected_conversation c with
  | Some key, Some conv =>
      if shows_status c || is_empty (messages conv) || (conv_is_channel conv && negb (conv_joined conv)) then (c, false)
      else if negb (registered c (network_id key)) || negb (chat_history_cap c (network_id key)) then (c, false)
      else match oldest_history_cursor (messages conv) with
      | None => (c, false)
      | Some (msgid, when) =>
          let target := if is_empty (conv_target conv) then normalized_target key else conv_target conv in
          let c := map_reducer (set_history_page_cap_tail true key) c in
          let '(c, sent) := write_session (network_id key) (fun s => request_older_history s target msgid when) c in
          if sent then (c, true)
          else
            let inflight := match session c (network_id key) with Some s => history_inflight s target | None => false end in
            (if inflight then c else map_reducer (set_history_page_cap_tail false key) c, false)
      end
  | _, _ => (c, false)
  end.

(** [composer_edited] (composertyping.rs) *)
Definition composer_edited (network target text : str) c : Controller :=
  let c := pump fuel c in
  let selected := str_eqb (selected_network c) network && negb (is_none (ctl_selected c)) && str_eqb (ctl_selected_target c) target in
  if ctl_console_open c || negb selected then c
  else if negb (contains (caps c (selected_network c)) MessageTags) then c
  else match session c network with
  | None => c
  | Some _ =>
      if is_live_message (parse_command text)
      then pump fuel ((write_session network (fun s => send_typing s target Active) c).1 <| ctl_typing_target := Some (network, target) |>)
      else if bool_decide (ctl_typing_target c = Some (network, target))
      then pump fuel ((write_session network (fun s => send_typing s target Done) c).1 <| ctl_typing_target := None |>)
      else c
  end.

(** [take_inbox_item] *)
Definition take_inbox_item (index : nat) c : Controller * option InboxItem :=
  let c := pump fuel c in
  let '(inbox, item) := inbox_remove_at (ctl_inbox c) index in
  let c := c <| ctl_inbox := inbox |> in
  (if is_none item then c else queue [Inbox] c, item).
End Commands.
