(* ===== verification/ControllerNetworks.v ===== *)
(** * ControllerNetworks: the networks the reader keeps
    (src/client/src/controller/: persistence.rs, networks.rs, sessionconnect.rs, sessioncontrol.rs,
    demo.rs, controller.rs; session/sessionmanager.rs)

    Loading what was saved, the sessions of the saved profiles with their secrets, starting and
    stopping them, saving a profile, the order and the folds of the sidebar, and forgetting a
    network. *)

From S2P Require Import SessionTypes Sts Profiles Credentials.
From S2P Require Import Prelude Text Message Parser CaseMapping ServerFeatures Capability JoinTarget OrdMap Scram SessionTypes Platform Ctcp Metadata Typing.
From S2P Require Import SessionCore SessionOutbound SessionDispatch SettingsIni Settings Lists StatusEntry Command Autoaway Inbox Console AvatarUrl.
From S2P Require Import ChannelList PlaybackTime Presence Events Conversation MembershipNoise ReducerState ReducerTranscript ReducerSplice Reducer ReducerViews.
From S2P Require Import ClosedChannels Playback ControllerState ControllerServices ControllerReplies Controller ControllerCommands.

Section Networks.
Context `{platform : Platform} `{client_log : ClientLog} `{json : TimesJson} `{secrets : CredentialStore} `{crypto : Crypto} `{crate : UrlCrate}.
Context (fuel : nat).
Implicit Types (c : Controller) (p : Profile) (network : str).

(** ** The manager (sessionmanager.rs) *)

Inductive SessionManagerError := NetworkIdRequired | DuplicateNetworkId (id : str).
Definition manager_error_text (error : SessionManagerError) : str :=
  match error with
  | NetworkIdRequired => lit "session: network id is required"
  | DuplicateNetworkId id => lit "session: network id " ++ id ++ lit " is already registered"
  end.

(** [create]: the session shares the manager's policies. *)
Definition create_session (config : SessionConfig) c : Controller * option SessionManagerError :=
  if is_empty (SessionTypes.network_id config) then (c, Some NetworkIdRequired)
  else if bt_contains (SessionTypes.network_id config) (ctl_manager c) then (c, Some (DuplicateNetworkId (SessionTypes.network_id config)))
  else (put_session (SessionTypes.network_id config) (new_core config (ctl_policies c)) c, None).

Definition session_is_live (s : Core) : bool := negb (bool_decide (state s = StIdle)) && negb (bool_decide (state s = StFailed)).
(** [SessionManager::is_live], and [can_disconnect] of sessioncontrol.rs *)
Definition network_is_live c network : bool := match session c network with Some s => session_is_live s | None => false end.

(** [activate], [stop], [stop_all] and [discard]; a session that was discarded keeps what it still
    asks of its transport. *)
Definition activate_session network c : Controller * bool :=
  match session c network with
  | Some s => let s := start s in (put_session network s c, session_is_live s)
  | None => (c, false)
  end.
Definition stop_session c network : Controller := match session c network with Some s => put_session network (stop s) c | None => c end.
Definition shutdown c : Controller := foldl stop_session c (network_ids c).
Definition discard_session network c : Controller :=
  match session c network with
  | None => c
  | Some s =>
      let s := stop s in
      c <| ctl_manager := bt_remove network (ctl_manager c) |> <| ctl_policies := sts s |> <| ctl_stopped := ctl_stopped c ++ [s] |>
        <| ctl_filters := bt_remove network (ctl_filters c) |> <| ctl_resumes := bs_remove network (ctl_resumes c) |>
  end.

(** [notify_network_reachable] *)
Definition wake_session c network : Controller := match session c network with Some s => put_session network (begin_reconnect_attempt s) c | None => c end.
Definition notify_network_reachable c : Controller := pump fuel (foldl wake_session c (network_ids c)).

(** ** A start that is refused (demo.rs) *)

Definition refuse_with network (message : str) c : Controller :=
  let c := set_last_error network (Some message) c in
  let c := append_status (lifecycle network SeverityAlert (lit "error") message (ctl_now c)) c in
  if is_none (ctl_selected c) then c <| ctl_console_network := network |> else c.

Definition refuse_start network c : Controller :=
  refuse_with network (default (lit "That network is not configured") (ctl_transports c network)) c.

(** ** A session of a profile (persistence.rs) *)

Definition on_vault {A} (f : Vault -> Vault * A) c : Controller * A := let '(v, a) := f (ctl_vault c) in (c <| ctl_vault := v |>, a).

Definition applied_session_for p c : Controller * AppliedSession :=
  let '(c, password) := on_vault (fun v => secret_text v p PURPOSE_PASSWORD) c in
  let '(c, nickserv) := on_vault (fun v => secret_text v p PURPOSE_NICKSERV) c in
  (c, mkApplied p password nickserv).

(** [session_config], with the two secrets it reads. *)
Definition config_of p (server_password nickserv : str) : SessionConfig :=
  let config := with_defaults (profile_id p) (Profiles.resolved_name p) (trim (profile_host p)) (trim (profile_nick p)) in
  let config := config <| config_port := profile_port p |> <| config_tls_enabled := profile_tls p |> in
  let config := if is_empty (trim (profile_username p)) then config else config <| SessionTypes.username := trim (profile_username p) |> in
  let config := if is_empty (trim (profile_realname p)) then config else config <| SessionTypes.realname := trim (profile_realname p) |> in
  config <| password := server_password |> <| nickserv_password := nickserv |> <| sasl_account := Profiles.sasl_account p |>
    <| config_autojoin_channels := saved_autojoin_channels p |> <| config_autojoin_keys := saved_autojoin_keys p |>.
Definition session_config p c : Controller * SessionConfig :=
  let '(c, server_password) := on_vault (fun v => secret_text v p PURPOSE_PASSWORD) c in
  let '(c, nickserv) := on_vault (fun v => secret_text v p PURPOSE_NICKSERV) c in
  (c, config_of p server_password nickserv).

(** [register_session] *)
Definition register_session c p : Controller :=
  let network := profile_id p in
  if bt_contains network (ctl_manager c) then c
  else match ctl_transports c network with
  | Some _ => c
  | None =>
      let '(c, config) := session_config p c in
      let '(c, error) := create_session config c in
      match error with
      | Some _ => c
      | None =>
          let '(c, applied) := applied_session_for p c in
          attach_store_hooks network (c <| ctl_applied := bt_insert network applied (ctl_applied c) |>)
      end
  end.

(** The sessions a start forgets before it builds a new one. *)
Definition drop_session network c : Controller :=
  let c := discard_session network c in
  let c := c <| ctl_applied_avatars := bs_remove network (ctl_applied_avatars c) |> in
  monitor_forget_presence network (autoaway_forget_network network c).

(** The part of [start_profile] that builds the session. *)
Definition rebuild_session network p (candidate : AppliedSession) c : Controller * bool :=
  let c := drop_session network c in
  match ctl_transports c network with
  | Some message => (refuse_with network message (c <| ctl_applied := bt_remove network (ctl_applied c) |>), false)
  | None =>
      let '(c, config) := session_config p c in
      let '(c, error) := create_session config c in
      match error with
      | Some error => (refuse_with network (manager_error_text error) c, false)
      | None => (attach_store_hooks network (c <| ctl_applied := bt_insert network candidate (ctl_applied c) |>), true)
      end
  end.

Definition UNREADABLE_TEXT : str := lit "The saved password could not be read from secure storage.".

(** [start_profile] for a profile that is complete, then for any. *)
Definition start_complete network p c : Controller * bool :=
  if profile_credentials_loading (ctl_vault c) p then (c <| ctl_waiting_starts := bs_insert network (ctl_waiting_starts c) |>, false)
  else
    let '(c, allowed) := on_vault (fun v => startup_connect_allowed v p) c in
    if negb allowed then (refuse_with network UNREADABLE_TEXT c, false)
    else
      let '(c, candidate) := applied_session_for p c in
      let reusable := bool_decide (bt_get network (ctl_applied c) = Some candidate) && bt_contains network (ctl_manager c) in
      let '(c, ready) := if reusable then (c, true) else rebuild_session network p candidate c in
      if negb ready then (c, false) else activate_session network c.
Definition start_profile network c : Controller * bool :=
  match bt_get network (ctl_profiles c) with
  | Some p => if is_complete p then start_complete network p c else (refuse_start network c, false)
  | None => (refuse_start network c, false)
  end.

(** ** Waiting for the keychain (persistence.rs) *)

(** Whether the secrets of a profile have been read and a session may start with them. *)
Definition secrets_ready (v : Vault) p : Vault * bool := if profile_credentials_loading v p then (v, false) else startup_connect_allowed v p.

(** A filter whose test reads the keychain. *)
Definition keep_ready {X} (profile_of : X -> option Profile) (st : Vault * list X) (x : X) : Vault * list X :=
  match profile_of x with
  | Some p => let '(v, ready) := secrets_ready st.1 p in (v, if ready then st.2 ++ [x] else st.2)
  | None => st
  end.
Definition ready_of {X} (profile_of : X -> option Profile) (l : list X) c : Controller * list X := on_vault (fun v => foldl (keep_ready profile_of) (v, []) l) c.

Definition register_named c network : Controller := match bt_get network (ctl_profiles c) with Some p => register_session c p | None => c end.

Definition register_waiting c network : Controller :=
  register_named (c <| ctl_waiting_sessions := bs_remove network (ctl_waiting_sessions c) |>) network.

(** [poll_credential_reads] before the starts that wait. *)
Definition poll_and_register c : Controller :=
  let c := c <| ctl_vault := poll_vault (ctl_vault c) |> in
  let unregistered p := if is_complete p && negb (bt_contains (profile_id p) (ctl_manager c)) then Some p else None in
  let '(c, ready) := ready_of unregistered (bt_values (ctl_profiles c)) c in
  let c := foldl register_named c (profile_id <$> ready) in
  let '(c, waiting) := ready_of (fun network => bt_get network (ctl_profiles c)) (bs_elements (ctl_waiting_sessions c)) c in
  foldl register_waiting c waiting.

(** [start], given [poll_credential_reads]. *)
Definition start_with (poll : Controller -> Controller) network c : Controller * bool :=
  let c := pump fuel (poll c) in
  if is_empty network then (c, false)
  else
    let '(c, started) := start_profile network (set_last_error network None c) in
    (pump fuel (queue [Status] c), started).

(** One network of [poll_credential_reads] that waits to be started. *)
Definition start_waiting (poll : Controller -> Controller) c network : Controller :=
  let dropped := c <| ctl_waiting_starts := bs_remove network (ctl_waiting_starts c) |> in
  match bt_get network (ctl_profiles c) with
  | Some p =>
      if negb (is_complete p) then dropped
      else if profile_credentials_loading (ctl_vault c) p then c
      else
        let '(c, allowed) := on_vault (fun v => startup_connect_allowed v p) dropped in
        if allowed then (start_with poll network c).1 else refuse_with network UNREADABLE_TEXT c
  | None => dropped
  end.

(** [poll_credential_reads]: a start polls again, one network fewer waiting. *)
Fixpoint poll_at (depth : nat) c : Controller :=
  match depth with
  | O => c
  | S depth => let c := poll_and_register c in foldl (start_waiting (poll_at depth)) c (bs_elements (ctl_waiting_starts c))
  end.
Definition poll_credential_reads c : Controller := poll_at (S (length (ctl_waiting_starts c))) c.
Definition start_network network c : Controller * bool := start_with poll_credential_reads network c.

(** [activate_startup] *)
Definition start_at_startup (st : Controller * nat) network : Controller * nat :=
  let '(c, started) := st in
  match bt_get network (ctl_profiles c) with
  | None => st
  | Some p =>
      if profile_credentials_loading (ctl_vault c) p then (c <| ctl_waiting_starts := bs_insert network (ctl_waiting_starts c) |>, started)
      else
        let '(c, allowed) := on_vault (fun v => startup_connect_allowed v p) c in
        if negb allowed then (c, started)
        else let '(c, began) := start_network network c in (c, if began then S started else started)
  end.
Definition activate_startup c : Controller * nat :=
  let c := poll_credential_reads c in
  let wanted := base.filter (fun p => connect_on_startup p && is_complete p = true) (bt_values (ctl_profiles c)) in
  foldl start_at_startup (c, O) (profile_id <$> wanted).

(** ** What was saved (persistence.rs) *)

Definition ephemeral c : bool := is_ephemeral (shared_backing (ctl_file c)).

(** [load_stored], for one complete profile, then whole. *)
Definition load_session c p : Controller :=
  let '(c, ready) := on_vault (fun v => secrets_ready v p) c in
  if ready then register_session c p else c <| ctl_waiting_sessions := bs_insert (profile_id p) (ctl_waiting_sessions c) |>.

Definition load_stored c : Controller :=
  if ephemeral c then c
  else
    let stored := file_settings (ctl_file c) in
    let c := c <| ctl_prefs := preferences stored |> in
    let c := map_reducer (set_membership_noise (joins (ctl_prefs c))) c in
    let c := update_config (fun _ => saved_autoaway stored) c in
    let c := c <| ctl_network_order := saved_network_order stored |> <| ctl_collapsed := bs_from_list (collapsed_networks stored) |> in
    let c := c <| ctl_profiles := foldl (fun table p => bt_insert (profile_id p) p table) (ctl_profiles c) (profiles (ctl_file c)) |> in
    foldl load_session c (base.filter (fun p => is_complete p = true) (bt_values (ctl_profiles c))).

(** [new_user]: a client over the user's files. *)
Definition new_user (now : Time) (file : SharedFile) (policies : StsStore) (chain : Keychain) (transports : str -> option str) : Controller :=
  load_stored (new_controller now file policies chain transports).

(** [save_profile] *)
Definition save_network (p : Profile) (edits : SecretEdits) c : Controller * (Settings.Status * (CredentialState * CredentialState)) :=
  let '(v, p, states) := save_secrets (bt_get (profile_id p) (ctl_profiles c)) p edits (ctl_vault c) in
  let '(c, status) := on_file (save_profile p) (c <| ctl_vault := v |>) in
  (queue [Conversations; Status] (c <| ctl_profiles := bt_insert (profile_id p) p (ctl_profiles c) |>), (status, states)).

Definition unsaved (purpose : str) p : Profile :=
  if str_eqb purpose PURPOSE_PASSWORD then p <| secret_saved := false |>
  else if str_eqb purpose PURPOSE_NICKSERV then p <| nickserv_saved := false |> else p.

(** [forget_secret] *)
Definition forget_secret network (purpose : str) c : Controller * CredentialState :=
  match bt_get network (ctl_profiles c) with
  | None => (c, CredMissing)
  | Some p =>
      let '(c, state) := on_vault (forget_slot p purpose) c in
      match state with
      | CredMissing =>
          let p := unsaved purpose p in
          let c := save_to_file (save_profile p) c in
          (c <| ctl_profiles := bt_insert network p (ctl_profiles c) |>, state)
      | _ => (c, state)
      end
  end.

(** [connect_session] (sessionconnect.rs), with the reason it failed. *)
Definition connect_session (config : SessionConfig) c : Controller * option str :=
  let network := SessionTypes.network_id config in
  if is_empty network then (c, Some (lit "network id is required"))
  else
    let c := if bt_contains network (ctl_manager c)
      then drop_session network (c <| ctl_applied := bt_remove network (ctl_applied c) |>) else c in
    match ctl_transports c network with
    | Some message => (c, Some message)
    | None =>
        let '(c, error) := create_session config c in
        match error with
        | Some error => (c, Some (manager_error_text error))
        | None =>
            let '(c, live) := activate_session network (attach_store_hooks network c) in
            if live then (pump fuel c, None) else (c, Some (lit "session did not become live"))
        end
    end.

(** ** The sidebar (networks.rs) *)

Definition known_network_ids c : list str :=
  bs_elements (bs_from_list (network_ids c ++ base.filter (fun id => is_empty id = false) (bt_keys (ctl_last_errors c))
    ++ console_networks (ctl_console c) ++ bt_keys (ctl_profiles c))).

(** One id of [network_order]: the recorded ones must be known. *)
Definition place_network (test : str -> bool) (st : bset * list str) (id : str) : bset * list str :=
  if bs_contains id st.1 || negb (test id) then st else (bs_insert id st.1, st.2 ++ [id]).
Definition network_order c : list str :=
  let known := known_network_ids c in
  if is_empty (ctl_network_order c) then known
  else
    let placed := foldl (place_network (fun id => bool_decide (id ∈ known))) ([], []) (ctl_network_order c) in
    (foldl (place_network (fun _ => true)) placed known).2.

Definition stored_profiles c : list Profile := omap (fun id => bt_get id (ctl_profiles c)) (network_order c).

Definition is_network_collapsed c network : bool := negb (is_empty network) && bs_contains network (ctl_collapsed c).
Definition collapsed_network_ids c : list str := base.filter (fun id => bs_contains id (ctl_collapsed c) = true) (network_order c).

Definition persist_network_order c : Controller := if ephemeral c then c else save_to_file (save_network_order (ctl_network_order c)) c.
Definition persist_collapsed_networks c : Controller := if ephemeral c then c else save_to_file (save_collapsed_networks (collapsed_network_ids c)) c.

Definition set_network_order (order : list str) c : Controller :=
  if bool_decide (ctl_network_order c = order) then c
  else queue [Conversations] (persist_network_order (c <| ctl_network_order := order |>)).

Definition fold_network (collapsed : bool) (s : bset) (id : str) : bset := if collapsed then bs_insert id s else bs_remove id s.
Definition set_network_collapsed network (collapsed : bool) c : Controller :=
  if is_empty network then c
  else if Bool.eqb (bs_contains network (ctl_collapsed c)) collapsed then c
  else queue [Conversations] (persist_collapsed_networks (c <| ctl_collapsed := fold_network collapsed (ctl_collapsed c) network |>)).
Definition set_all_networks_collapsed (collapsed : bool) c : Controller :=
  let order := network_order c in
  if negb (existsb (fun id => negb (Bool.eqb (bs_contains id (ctl_collapsed c)) collapsed)) order) then c
  else queue [Conversations] (persist_collapsed_networks (c <| ctl_collapsed := foldl (fold_network collapsed) (ctl_collapsed c) order |>)).

Definition is_stored_network c network : bool := negb (is_empty network) && bt_contains network (ctl_profiles c).
Definition is_movable_network c network : bool := is_stored_network c network || (ephemeral c && bt_contains network (ctl_manager c)).

(** The places of [order] that [keep] holds of. *)
Definition positions (keep : str -> bool) (order : list str) : list nat := (imap (fun i id => (i, id)) order ≫= fun e => if keep e.2 then [e.1] else []).

(** [tail.insert(target, tail.remove(index))], then each id into the place of its turn. *)
Definition reinsert {A} (index target : nat) (l : list A) : list A :=
  match l !! index with
  | Some moved => let rest := delete index l in take target rest ++ [moved] ++ drop target rest
  | None => l
  end.
Definition put_at (order : list str) (slot : nat * str) : list str := <[slot.1 := slot.2]> order.

(** The order [move_network] sets, if there is one. *)
Definition moved_order c network (delta : Z) : option (list str) :=
  if negb (is_movable_network c network) then None
  else
    let order := network_order c in
    let movable := base.filter (fun id => is_movable_network c id = true) order in
    let? index := position (str_eqb network) movable in
    let target := (Z.of_nat index + delta)%Z in
    if (delta =? 0)%Z || (target <? 0)%Z || (Z.of_nat (length movable) <=? target)%Z then None
    else Some (foldl put_at order (zip (positions (is_movable_network c) order) (reinsert index (Z.to_nat target) movable))).
Definition move_network network (delta : Z) c : Controller * bool :=
  match moved_order c network delta with Some order => (set_network_order order c, true) | None => (c, false) end.

(** ** Forgetting a network (networks.rs) *)

Definition finish_remove_profile network (profile : option Profile) c : Controller :=
  let c := c <| ctl_applied := bt_remove network (ctl_applied c) |> in
  let c := c <| ctl_vault := forget_secrets network profile (ctl_vault c) |> in
  c <| ctl_profiles := bt_remove network (ctl_profiles c) |>.

(** [persist_forget_network] *)
Definition persist_forget_network network (remove : bool) (order collapsed : list str) c : Controller * Settings.Status :=
  if ephemeral c then (c, Written) else on_file (forget_saved_network network remove order collapsed) c.

Definition network_known c network : bool :=
  bt_contains network (ctl_manager c) || bt_contains network (ctl_profiles c) || negb (is_empty (console_lines (ctl_console c) network))
  || existsb (fun key => str_eqb (network_id key) network) (bt_keys (conversations (ctl_reducer c))).

(** MONITOR is cleared on the server, then the session quits. *)
Definition leave_network network c : Controller :=
  let c := match registered_session c network with
    | Some s => if monitor_advertised (server_features c network)
        then pump fuel (write_session network (fun s => send_monitor_locked s (chr "C") []) c).1 else c
    | None => c
    end in
  if network_is_live c network then (disconnect_with_reason fuel network [] c).1 else c.

(** What is kept of the network outside its session and its profile. *)
Definition forget_state network (order : list str) c : Controller :=
  let c := monitor_forget_presence network (c <| ctl_markers := markers_forget_network network (ctl_markers c) |>) in
  let c := forget_channel_list network c in
  let c := let '(d, file) := direct_forget network (ctl_open_directs c) (ctl_file c) in c <| ctl_open_directs := d |> <| ctl_file := file |> in
  let c := let '(times, file) := playback_forget (ctl_times c) (ctl_file c) network in c <| ctl_times := times |> <| ctl_file := file |> in
  let c := c <| ctl_playback := drop_snapshot network (ctl_playback c) |> in
  let c := on_closed (fun l kept => (list_forget l network kept, true)) c in
  let c := c <| ctl_motd_seen := bs_remove network (ctl_motd_seen c) |> in
  let c := map_reducer (forget_network network) c in
  let c := c <| ctl_cancelled_joins := base.filter (fun key => network_id key <> network) (ctl_cancelled_joins c) |> in
  let c := c <| ctl_console := console_forget (ctl_console c) network |> <| ctl_last_errors := bt_remove network (ctl_last_errors c) |> in
  let c := c <| ctl_capabilities := bt_remove network (ctl_capabilities c) |> <| ctl_applied_avatars := bs_remove network (ctl_applied_avatars c) |> in
  let c := c <| ctl_nicks := bt_remove network (ctl_nicks c) |> in
  let c := c <| ctl_inbox := purge_network (ctl_inbox c) network |> in
  c <| ctl_network_order := order |> <| ctl_collapsed := bs_remove network (ctl_collapsed c) |>.

(** The window leaves the network. *)
Definition leave_window network c : Controller :=
  let c := if str_eqb (ctl_console_network c) network then c <| ctl_console_network := [] |> <| ctl_console_open := false |> else c in
  match ctl_selected c with
  | Some key => if str_eqb (network_id key) network then c <| ctl_selected := None |> <| ctl_selected_target := [] |> else c
  | None => c
  end.

Definition blocked (status : Settings.Status) : bool := bool_decide (status = AccessError) || bool_decide (status = FormatError).

(** [forget_network] after the write that lets it. *)
Definition forget_everything network (order : list str) c : Controller :=
  let profile := bt_get network (ctl_profiles c) in
  let c := discard_session network (leave_network network c) in
  let c := forget_state network order (autoaway_forget_network network c) in
  let c := match profile with Some p => finish_remove_profile network (Some p) c | None => c end in
  let c := leave_window network c in
  pump fuel (queue [Status] (queue reset_all c)).

Definition forget_network_intent network c : Controller * Settings.Status :=
  let c := pump fuel c in
  if is_empty network then (c, Absent)
  else
    let known := network_known c network in
    let had_profile := bt_contains network (ctl_profiles c) in
    let preflight := if had_profile then preflight_remove network (ctl_file c) else Written in
    if blocked preflight then (pump fuel c, preflight)
    else
      let order := base.filter (fun id => id <> network) (ctl_network_order c) in
      let collapsed := base.filter (fun id => id <> network) (collapsed_network_ids c) in
      let '(c, status) := persist_forget_network network had_profile order collapsed c in
      if blocked status then (pump fuel c, status)
      else (forget_everything network order c, if known then Written else Absent).
End Networks.
