(* ===== verification/ControllerInvariants.v ===== *)
(** * ControllerInvariants: what the whole client keeps
    (src/client/src/controller/, over the session, the reducer, the console, the inbox and /list)

    [good] says that the parts the controller holds stay as their own files promise: every
    session satisfies what a session keeps by itself, the reducer is one its operations can
    reach, the inbox, the console and the channel lists stay within their bounds, every list
    that loads is timed, and auto-away stays as [A] says. Every handler and every intent keeps
    it, so it holds after any run. *)

From S2P Require Import SessionTypes Sts Profiles Credentials.
From S2P Require Import Prelude Text Message Parser CaseMapping ServerFeatures Capability JoinTarget OrdMap Scram SessionTypes Platform Ctcp Metadata Typing.
From S2P Require Import SessionCore SessionOutbound SessionMarkers SessionHistory SessionDispatch Session SessionInvariants SessionProperties SessionReconnect.
From S2P Require Import Sts SettingsIni Settings Lists StatusEntry Command Autoaway Inbox Console AvatarUrl.
From S2P Require Import ChannelList PlaybackTime Presence Events Conversation MembershipNoise Translator ReducerState ReducerTranscript ReducerSplice Reducer ReducerViews ReducerSteps ReducerInvariants.
From S2P Require Import ClosedChannels Playback ControllerState ControllerServices ControllerReplies Controller ControllerCommands ControllerNetworks.

Create HintDb good discriminated.
#[export] Hint Constants Opaque : good.

(** ** What each part keeps *)

(** What no run may add to: the secrets nothing names, the networks that wait to be started, and
    the profiles, which may be edited but not in what their keys are made of. *)
Definition same_keys (p p' : Profile) : Prop := forall purpose, key_for_profile p' purpose = key_for_profile p purpose.
Class Baseline := mkBaseline {
  base_orphan : CredentialKey -> Prop;
  base_waiting : bset -> Prop;
  base_profiles : btree Profile -> Prop;
  base_edit network p p' table : bt_get network table = Some p -> same_keys p p' -> base_profiles table -> base_profiles (bt_insert network p' table);
}.

(** What is asked of the parts while the client runs: of the session of each network, of the
    expiries that wait for auto-away and for /list, and of the pump's flag. *)
Record World := mkWorld {
  w_session : str -> Core -> Prop;
  w_expiries : list AwayTimer -> Prop;
  w_queue : list (str * N) -> Prop;
  w_pumping : bool -> Prop;
  w_base : Baseline;
}.

(** The operations the controller asks of a session keep what is asked of it. *)
Class SessionOps `{platform : Platform} `{crypto : Crypto} `{policy : SecretPolicy} (PS : str -> Core -> Prop) : Prop := {
  so_quiet : forall n s s', loud s' = loud s -> PS n s -> PS n s';
  so_drop_label : forall n s label, PS n s -> PS n (drop_request_label s label);
  so_typing : forall n s target phase, PS n s -> PS n (send_typing s target phase).1;
  so_marker_get : forall n s target, PS n s -> PS n (request_read_marker_get s target).1;
  so_marker_set : forall n s target when, PS n s -> PS n (queue_read_marker_set s target when);
  so_mark_away : forall n s reason, PS n s -> PS n (mark_away s reason).1;
  so_set_away : forall n s reason, PS n s -> PS n (set_away_locked s reason).1;
  so_monitor : forall n s modifier nicks, PS n s -> PS n (send_monitor_locked s modifier nicks).1;
  so_list : forall n s mask, PS n s -> PS n (list_channels s mask).1;
  so_metadata : forall n s key value, PS n s -> PS n (set_own_metadata s key value).1;
  so_label : forall n s, PS n s -> PS n (start_labeled_request s).1;
  so_whois : forall n s nick label, PS n s -> PS n (whois s nick label).1;
  so_ctcp : forall n s target command argument label, PS n s -> PS n (send_ctcp s target command argument label).1;
  so_part : forall n s channel, PS n s -> PS n (SessionOutbound.part s channel).1;
  so_join : forall n s target, PS n s -> PS n (join_locked s target).1;
  so_kick : forall n s channel nick reason, PS n s -> PS n (SessionOutbound.kick s channel nick reason).1;
  so_kickban : forall n s channel mask nick reason, PS n s -> PS n (SessionOutbound.kickban s channel mask nick reason).1;
  so_invite : forall n s nick channel, PS n s -> PS n (SessionOutbound.invite s nick channel).1;
  so_mode : forall n s request, PS n s -> PS n (send_channel_mode s request).1;
  so_command : forall n s command label, PS n s -> PS n (send_command s command label).1;
  so_topic : forall n s channel topic, PS n s -> PS n (SessionOutbound.set_topic s channel topic).1;
  so_nick : forall n s nick, PS n s -> PS n (change_nick s nick).1;
  so_older : forall n s target msgid when, PS n s -> PS n (request_older_history s target msgid when).1;
  so_after : forall n s target after, PS n s -> PS n (request_history_after s target after).1;
  so_latest : forall n s target, PS n s -> PS n (request_history_latest s target).1;
  so_targets : forall n s from until, PS n s -> PS n (request_history_targets s from until).1;
  so_privmsg : forall n s target body, PS n s -> PS n (send_privmsg_locked s target body).1;
  so_action : forall n s target body, PS n s -> PS n (send_action s target body).1;
  so_notice : forall n s target body, PS n s -> PS n (send_notice s target body).1;
}.

(** A property of a session that it keeps by itself, whatever it is asked and whatever comes. *)
Class SessionKept `{platform : Platform} `{crypto : Crypto} `{policy : SecretPolicy} (PS : Core -> Prop) : Prop := {
  sk_steady : Steady PS;
  sk_retries : Retries PS;
  sk_restartable : Restartable PS;
  sk_tls : forall s b, PS s -> PS (s <| tls_enabled := b |>);
  sk_drained : forall s, PS s -> PS (s <| events := [] |>);
  sk_new : forall config store, PS (new_core config store);
}.

#[export] Instance kept_ops `{platform : Platform} `{crypto : Crypto} `{policy : SecretPolicy} (PS : Core -> Prop) `{!SessionKept PS} :
  SessionOps (fun _ => PS).
Proof.
  pose proof sk_steady as H. split; intros n.
  - apply (st_quiet PS (sd_moves _ H)).
  - apply (stable_drop_label PS H).
  - apply (stable_send_typing PS H).
  - apply (stable_request_read_marker_get PS H).
  - apply (stable_queue_read_marker_set PS H).
  - apply (stable_mark_away PS H).
  - apply (stable_set_away_locked PS H).
  - apply (stable_send_monitor_locked PS H).
  - apply (stable_list_channels PS H).
  - apply (stable_set_own_metadata PS H).
  - apply (stable_start_labeled_request PS H).
  - apply (stable_whois PS H).
  - apply (stable_send_ctcp PS H).
  - apply (stable_part PS H).
  - apply (stable_join_locked PS H).
  - apply (stable_kick PS H).
  - apply (stable_kickban PS H).
  - apply (stable_invite PS H).
  - apply (stable_send_channel_mode PS H).
  - apply (stable_send_command PS H).
  - apply (stable_set_topic PS H).
  - apply (stable_change_nick PS H).
  - apply (stable_request_older_history PS H).
  - apply (stable_request_history_after PS H).
  - apply (stable_request_history_latest PS H).
  - apply (stable_request_history_targets PS H).
  - apply (stable_send_privmsg_locked PS H).
  - apply (stable_send_action PS H).
  - apply (stable_send_notice PS H).
Qed.

(** A property of the away record that the fold of an event keeps. *)
Class AwayKept (A : AutoawayState -> Prop) : Prop := {
  ak_forget : forall network a, A a -> A (a <| auto_away := bs_remove network (auto_away a) |> <| manual_away := bs_remove network (manual_away a) |>
    <| unaway_sent := bs_remove network (unaway_sent a) |>);
  ak_unaway : forall sent a, A a -> A (a <| unaway_sent := sent |>);
}.

(** The lines of every network fit the ring. *)
Record console_ok (s : StatusConsole) : Prop := {
  console_capacity : capacity s = DEFAULT_CAPACITY;
  console_bounded : Forall (fun log => (length (log_entries log.2) <= DEFAULT_CAPACITY)%nat) (console_logs s);
}.

Lemma console_ok_append s entry : console_ok s -> console_ok (console_append s entry).
Proof.
  intros [Hc Hb]. unfold console_append. cbv zeta. case_match; [by split|]. split; [done|]. cbn. apply bt_insert_Forall; [|done].
  unfold append_entry, keep_last. cbn. rw length_drop Hc. lia.
Qed.

Lemma console_ok_on_log s network f :
  (forall l, (length (log_entries (f l)) <= length (log_entries l))%nat) -> console_ok s -> console_ok (on_log network f s).
Proof.
  intros Hf [Hc Hb]. unfold on_log. destruct (bt_get network (console_logs s)) as [l|] eqn:Hl; [|by split]. split; [done|]. cbn.
  apply bt_insert_Forall; [|done]. cbn. etrans; [apply Hf|]. exact (proj1 (Forall_forall _ _) Hb _ (bt_get_elem _ _ _ Hl)).
Qed.

Lemma see_all_length l : length (log_entries (see_all l)) = length (log_entries l).
Proof. unfold see_all. by case_match. Qed.
Lemma console_ok_seen s network : console_ok s -> console_ok (mark_seen s network).
Proof. apply console_ok_on_log. intros l. by rw see_all_length. Qed.
Lemma console_ok_clear s network : console_ok s -> console_ok (console_clear s network).
Proof. apply console_ok_on_log. intros l. case_match; [done|]. rw see_all_length. cbn. lia. Qed.

Lemma console_ok_forget s network : console_ok s -> console_ok (console_forget s network).
Proof. intros [Hc Hb]. split; [done|]. cbn. by apply bt_remove_Forall. Qed.

Definition inbox_fits (inbox : Inbox.Inbox) : Prop := (length inbox <= MAX_INBOX_ITEMS)%nat.
Lemma inbox_fits_append inbox item mapping : inbox_fits (inbox_append inbox item mapping).
Proof. unfold inbox_fits, inbox_append. rw length_take. lia. Qed.
Lemma inbox_fits_consume matches inbox : inbox_fits inbox -> inbox_fits (consume_matching matches inbox).
Proof. unfold inbox_fits, consume_matching. intros H. etrans; [apply length_filter|done]. Qed.
Lemma inbox_fits_remove inbox index : inbox_fits inbox -> inbox_fits (inbox_remove_at inbox index).1.
Proof.
  unfold inbox_fits, inbox_remove_at. intros H. destruct (inbox !! index) eqn:E; [|done]. cbn. rw length_delete; [by eexists|]. lia.
Qed.

Section Good.
Context `{platform : Platform} `{client_log : ClientLog} `{json : TimesJson} `{secrets : CredentialStore} `{chain_laws : !StoreLaws secrets} `{crypto : Crypto} `{crate : UrlCrate} `{policy : SecretPolicy}.
Context (W : World) {HW : SessionOps (w_session W)}.

Record good (A : AutoawayState -> Prop) (c : Controller) : Prop := {
  good_sessions : forall network s, bt_get network (ctl_manager c) = Some s -> w_session W network s;
  good_reducer : reachable (ctl_reducer c);
  good_inbox : inbox_fits (ctl_inbox c);
  good_console : console_ok (ctl_console c);
  good_lists : requests_ok (ctl_lists c);
  good_view : view_ok (ctl_list_view c);
  good_away : A (ctl_away c);
  good_list_queue : w_queue W (list_expiries (ctl_lists c));
  good_flag : w_pumping W (ctl_pumping c);
  good_secrets : forall k, orphan (ctl_profiles c) (ctl_vault c) k -> base_orphan (Baseline := w_base W) k;
  good_waiting : base_waiting (Baseline := w_base W) (ctl_waiting_starts c);
  good_profiles : base_profiles (Baseline := w_base W) (ctl_profiles c);
}.

Section Primitives.
Context {A : AutoawayState -> Prop}.
Implicit Types c : Controller.
Abbreviation good := (good A).

(** The parts [good] reads; the other fields are quiet. *)
Definition parts c := (ctl_manager c, ctl_reducer c, ctl_inbox c, ctl_console c, ctl_lists c, ctl_list_view c, ctl_away c, ctl_pumping c,
  (ctl_profiles c, ctl_vault c, ctl_waiting_starts c)).

Lemma good_quiet c c' : parts c' = parts c -> good c -> good c'.
Proof using Type.
  unfold parts. intros E H. assert (E' : ctl_manager c' = ctl_manager c /\ ctl_reducer c' = ctl_reducer c /\ ctl_inbox c' = ctl_inbox c /\
    ctl_console c' = ctl_console c /\ ctl_lists c' = ctl_lists c /\ ctl_list_view c' = ctl_list_view c /\ ctl_away c' = ctl_away c /\ ctl_pumping c' = ctl_pumping c /\
    ctl_profiles c' = ctl_profiles c /\ ctl_vault c' = ctl_vault c /\ ctl_waiting_starts c' = ctl_waiting_starts c).
  { by injection E. }
  clear E. destruct E' as (E1 & E2 & E3 & E4 & E5 & E6 & E7 & E8 & E9 & E10 & E11), H. by split; rw ?E1 ?E2 ?E3 ?E4 ?E5 ?E6 ?E7 ?E8 ?E9 ?E10 ?E11.
Qed.

Lemma good_put network s c : w_session W network s -> good c -> good (put_session network s c).
Proof using Type.
  intros Hs []. split; try done. cbn. intros other s'. destruct (decide (network = other)) as [<-|Hne]; [rw bt_get_insert; by intros [= <-]|].
  rw bt_get_insert_ne //. auto.
Qed.
Lemma good_put_inbox inbox c : inbox_fits inbox -> good c -> good (c <| ctl_inbox := inbox |>).
Proof using Type. by intros ? []. Qed.
Lemma good_put_console s c : console_ok s -> good c -> good (c <| ctl_console := s |>).
Proof using Type. by intros ? []. Qed.
Definition lists_ok (r : ChannelListRequests) : Prop := requests_ok r /\ w_queue W (list_expiries r).
Lemma good_put_lists r c : lists_ok r -> good c -> good (c <| ctl_lists := r |>).
Proof using Type. by intros [] []. Qed.
Lemma good_lists_ok c : good c -> lists_ok (ctl_lists c).
Proof using Type. by intros []. Qed.
Lemma lists_ok_request network mask refresh r : lists_ok r -> lists_ok (list_request network mask refresh r).1.
Proof using Type. intros []. split; [by apply requests_ok_request|by rw expiries_request]. Qed.
Lemma lists_ok_drop network r : lists_ok r -> lists_ok (list_drop network r).
Proof using Type. intros []. split; [by apply requests_ok_drop|by rw expiries_drop]. Qed.
Lemma lists_ok_row network row r : lists_ok r -> lists_ok (list_row network row r).1.
Proof using Type. intros []. split; [by apply requests_ok_row|by rw expiries_row]. Qed.
Lemma lists_ok_activity network r : lists_ok r -> lists_ok (list_activity network r).
Proof using Type. intros []. split; [by apply requests_ok_activity|by rw expiries_activity]. Qed.
Lemma lists_ok_finish network r : lists_ok r -> lists_ok (list_finish network r).1.
Proof using Type. intros []. split; [by apply requests_ok_finish|by rw expiries_finish]. Qed.
Lemma lists_ok_fail network text timed_out r : lists_ok r -> lists_ok (list_fail network text timed_out r).1.
Proof using Type. intros []. split; [by apply requests_ok_fail|by rw expiries_fail]. Qed.
Lemma good_put_view v c : view_ok v -> good c -> good (c <| ctl_list_view := v |>).
Proof using Type. by intros ? []. Qed.
Lemma good_update_view f c : (forall v, view_ok v -> view_ok (f v)) -> good c -> good (update_view f c).
Proof using Type. intros Hf Hc. apply good_put_view; [apply Hf, Hc|done]. Qed.
Lemma good_put_away a c : A a -> good c -> good (c <| ctl_away := a |>).
Proof using Type. by intros ? []. Qed.

(** A profile that is edited keeps its keys. *)
Lemma good_put_profile network p p' c :
  bt_get network (ctl_profiles c) = Some p -> same_keys p p' ->
  good c -> good (c <| ctl_profiles := bt_insert network p' (ctl_profiles c) |>).
Proof using Type.
  intros Hp Hkeys [Hs Hr Hi Hc Hl Hv Ha Hq Hf Ho Hw Hpr]. split; try done; [|by apply (base_edit (Baseline := w_base W) network p)]. intros k Hk. apply Ho. revert Hk. cbn. apply orphan_keeps; [done|].
  intros k'. by apply (current_insert _ _ p p').
Qed.
Lemma good_save_to_file f c : good c -> good (save_to_file f c).
Proof using Type. unfold save_to_file, on_file. destruct (f (ctl_file c)). by apply good_quiet. Qed.
Lemma good_put_vault v c : keeps (fun _ => False) (ctl_vault c) v -> good c -> good (c <| ctl_vault := v |>).
Proof using Type.
  intros Hv [Hs Hr Hi Hc Hl Hview Ha Hq Hf Ho Hw Hpr]. split; try done. intros k Hk. apply Ho. revert Hk. cbn. by apply orphan_keeps.
Qed.

Lemma good_on_vault {B} (f : Vault -> Vault * B) c : (forall v, keeps (fun _ => False) v (f v).1) -> good c -> good (on_vault f c).1.
Proof using Type.
  intros Hf Hc. unfold on_vault. pose proof (Hf (ctl_vault c)) as H. destruct (f (ctl_vault c)). by apply good_put_vault.
Qed.
Lemma good_put_waiting w c : base_waiting (Baseline := w_base W) w -> good c -> good (c <| ctl_waiting_starts := w |>).
Proof using Type. by intros Hw []. Qed.
Lemma good_remove_session network c : good c -> good (c <| ctl_manager := bt_remove network (ctl_manager c) |>).
Proof using Type. intros []. split; try done. cbn. intros other s Hs. apply bt_get_remove_Some in Hs. auto. Qed.

(** A session of the manager, as the controller sees it. *)
Lemma session_kept c network s : good c -> session c network = Some s -> w_session W network s.
Proof using HW.
  intros Hc Hs. unfold session in Hs. destruct (bt_get network (ctl_manager c)) as [s0|] eqn:E; [|done]. apply (inj Some) in Hs. rw -Hs.
  apply (so_quiet network s0); [done|]. exact (good_sessions _ _ Hc _ _ E).
Qed.

Lemma registered_kept c network s : good c -> registered_session c network = Some s -> w_session W network s.
Proof using HW.
  intros Hc. unfold registered_session. destruct (session c network) as [s0|] eqn:E; [|done]. case_match; [|done]. intros [= <-].
  by apply (session_kept c network).
Qed.

Lemma good_write network f c :
  (forall s, w_session W network s -> w_session W network (f s).1) -> good c -> good (write_session network f c).1.
Proof using HW.
  intros Hf Hc. unfold write_session. destruct (session c network) as [s|] eqn:E; [|done].
  pose proof (Hf s (session_kept c network s Hc E)) as H. destruct (f s) as [s' sent]. by apply good_put.
Qed.

Lemma good_ask {B} network (absent : B) f c :
  (forall s, w_session W network s -> w_session W network (f s).1) -> good c -> good (ask_session network absent f c).1.
Proof using HW.
  intros Hf Hc. unfold ask_session. destruct (session c network) as [s|] eqn:E; [|done].
  pose proof (Hf s (session_kept c network s Hc E)) as H. destruct (f s) as [s' answer]. by apply good_put.
Qed.

(** What the reducer is lent is a closed list with the file as it is. *)
Lemma reachable_closed (f : Closed -> Closed) (r : EventReducer) :
  reachable r -> reachable (set_facts (fun facts => facts <| closed_store := f <$> closed_store facts |>) r).
Proof using Type.
  intros Hr. destruct (closed_store (net_facts r)) as [closed|] eqn:E.
  - pose proof (reachable_step r (OpSetClosedStore (f closed)) Hr) as H. cbn [perform] in H.
    unfold set_closed_persistence in H. unfold set_facts in *. by rw E.
  - unfold set_facts. rw E. cbn. rw -E. by destruct r as [? []].
Qed.

Lemma good_on_reducer {B} (f : EventReducer -> EventReducer * B) c :
  (forall r, reachable r -> reachable (f r).1) -> good c -> good (on_reducer f c).1.
Proof using Type.
  intros Hf Hc. unfold on_reducer. cbv zeta.
  lazymatch goal with |- context [f ?r] => assert (Hr : reachable r) by apply (reachable_closed (fun closed : ClosedList => (closed.1, ctl_file c))), Hc end.
  apply Hf in Hr. destruct (f _) as [r b]. destruct Hc. by split.
Qed.

Lemma good_map_reducer f c : (forall r, reachable r -> reachable (f r)) -> good c -> good (map_reducer f c).
Proof using Type. intros Hf. apply good_on_reducer. exact Hf. Qed.

Lemma good_let (X : Controller) (body : Controller -> Controller) : good X -> (forall c, good c -> good (body c)) -> good (let c := X in body c).
Proof using Type. intros. cbv zeta. auto. Qed.
Lemma good_let_fst {B} (X : Controller) (body : Controller -> Controller * B) :
  good X -> (forall c, good c -> good (body c).1) -> good (let c := X in body c).1.
Proof using Type. intros. cbv zeta. auto. Qed.
Lemma good_pair {B} (X : Controller * B) (body : Controller -> B -> Controller) :
  good X.1 -> (forall c b, good c -> good (body c b)) -> good (let '(c, b) := X in body c b).
Proof using Type. destruct X. cbn. auto. Qed.
Lemma good_pair_fst {B D} (X : Controller * B) (body : Controller -> B -> Controller * D) :
  good X.1 -> (forall c b, good c -> good (body c b).1) -> good (let '(c, b) := X in body c b).1.
Proof using Type. destruct X. cbn. auto. Qed.
Lemma good_fold {X} (f : Controller -> X -> Controller) l c : (forall c x, good c -> good (f c x)) -> good c -> good (foldl f c l).
Proof using Type. intros Hf. apply (foldl_invariant f good). auto. Qed.
Lemma good_fold_fst {X B} (f : Controller * B -> X -> Controller * B) l st :
  (forall st x, good st.1 -> good (f st x).1) -> good st.1 -> good (foldl f st l).1.
Proof using Type. intros Hf. apply (foldl_invariant f (fun st => good st.1)). auto. Qed.

Lemma inbox_fits_good c : good c -> inbox_fits (ctl_inbox c).
Proof using Type. apply good_inbox. Qed.
End Primitives.
End Good.

(** ** The walk along a definition *)

(** An operation of a session keeps what sessions keep. *)
Ltac session_op :=
  intros; cbv beta;
  lazymatch goal with
  | |- w_session _ _ (fst (?s, _)) => cbn [fst]; session_op
  | |- w_session _ _ (drop_request_label _ _) => apply so_drop_label; assumption
  | |- w_session _ _ (queue_read_marker_set _ _ _) => apply so_marker_set; assumption
  | |- w_session _ _ (fst (write_kind ?kind _ _ _)) => destruct kind; cbn [write_kind]; [apply so_privmsg|apply so_action|apply so_notice]; assumption
  | |- w_session _ _ (fst (send_znc _ _ _)) => apply so_command; assumption
  | |- w_session _ _ (fst (send_typing _ _ _)) => apply so_typing; assumption
  | |- w_session _ _ (fst (request_read_marker_get _ _)) => apply so_marker_get; assumption
  | |- w_session _ _ (fst (mark_away _ _)) => apply so_mark_away; assumption
  | |- w_session _ _ (fst (set_away_locked _ _)) => apply so_set_away; assumption
  | |- w_session _ _ (fst (send_monitor_locked _ _ _)) => apply so_monitor; assumption
  | |- w_session _ _ (fst (list_channels _ _)) => apply so_list; assumption
  | |- w_session _ _ (fst (set_own_metadata _ _ _)) => apply so_metadata; assumption
  | |- w_session _ _ (fst (start_labeled_request _)) => apply so_label; assumption
  | |- w_session _ _ (fst (whois _ _ _)) => apply so_whois; assumption
  | |- w_session _ _ (fst (send_ctcp _ _ _ _ _)) => apply so_ctcp; assumption
  | |- w_session _ _ (fst (SessionOutbound.part _ _)) => apply so_part; assumption
  | |- w_session _ _ (fst (join_locked _ _)) => apply so_join; assumption
  | |- w_session _ _ (fst (SessionOutbound.kick _ _ _ _)) => apply so_kick; assumption
  | |- w_session _ _ (fst (SessionOutbound.kickban _ _ _ _ _)) => apply so_kickban; assumption
  | |- w_session _ _ (fst (SessionOutbound.invite _ _ _)) => apply so_invite; assumption
  | |- w_session _ _ (fst (send_channel_mode _ _)) => apply so_mode; assumption
  | |- w_session _ _ (fst (send_command _ _ _)) => apply so_command; assumption
  | |- w_session _ _ (fst (SessionOutbound.set_topic _ _ _)) => apply so_topic; assumption
  | |- w_session _ _ (fst (change_nick _ _)) => apply so_nick; assumption
  | |- w_session _ _ (fst (request_older_history _ _ _ _)) => apply so_older; assumption
  | |- w_session _ _ (fst (request_history_after _ _ _)) => apply so_after; assumption
  | |- w_session _ _ (fst (request_history_latest _ _)) => apply so_latest; assumption
  | |- w_session _ _ (fst (request_history_targets _ _ _)) => apply so_targets; assumption
  end.

(** An operation of the reducer, from a state it can reach. *)
Ltac reach :=
  lazymatch goal with
  | H : reachable ?r |- reachable ?r => exact H
  | |- forall _, _ => intros; cbv beta; reach
  | |- reachable (fst (fst (ReducerViews.apply ?e ?n ?r), _)) => cbn [fst]; reach
  | |- reachable (ensure_conversation _ _ _ ?r).1 => eapply (reachable_step r (OpEnsure _ _ _)); reach
  | |- reachable (drop_direct_message _ ?r).1 => eapply (reachable_step r (OpDropDirect _)); reach
  | |- reachable (drop_channel _ ?r).1 => eapply (reachable_step r (OpDropChannel _)); reach
  | |- reachable (mark_channel_left _ ?r).1 => eapply (reachable_step r (OpMarkLeft _)); reach
  | |- reachable (release_stale_names_sync _ _ ?r).1 => eapply (reachable_step r (OpReleaseStaleNames _ _)); reach
  | |- reachable (release_pending_query_playback _ ?r).1 => eapply (reachable_step r (OpReleaseQueries _)); reach
  | |- reachable (mark_read _ ?r).1 => eapply (reachable_step r (OpMarkRead _)); reach
  | |- reachable (mark_all_read ?r).1 => eapply (reachable_step r OpMarkAllRead); reach
  | |- reachable (apply_server_read_marker _ _ ?r).1 => eapply (reachable_step r (OpReadMarker _ _)); reach
  | |- reachable (take_mention_arrival ?r).1 => eapply (reachable_step r OpTakeMention); reach
  | |- reachable (take_inbox_arrival ?r).1 => eapply (reachable_step r OpTakeInbox); reach
  | |- reachable (take_remembered_queries ?r).1 => eapply (reachable_step r OpTakeQueries); reach
  | |- reachable (take_kept_replay ?r).1 => eapply (reachable_step r OpTakeReplay); reach
  | |- reachable (ReducerViews.apply _ _ ?r).1 => eapply (reachable_step r (OpApply _ _)); reach
  | |- reachable (note_closed _ ?r) => eapply (reachable_step r (OpNoteClosed _)); reach
  | |- reachable (clear_closed _ ?r) => eapply (reachable_step r (OpClearClosed _)); reach
  | |- reachable (forget_network _ ?r) => eapply (reachable_step r (OpForgetNetwork _)); reach
  | |- reachable (clear_messages _ ?r) => eapply (reachable_step r (OpClearMessages _)); reach
  | |- reachable (set_muted _ _ ?r) => eapply (reachable_step r (OpSetMuted _ _)); reach
  | |- reachable (mark_selected _ ?r) => eapply (reachable_step r (OpMarkSelected _)); reach
  | |- reachable (set_history_page_cap_tail _ _ ?r) => eapply (reachable_step r (OpPageCapTail _ _)); reach
  | |- reachable (set_server_features _ _ ?r) => eapply (reachable_step r (OpSetFeatures _ _)); reach
  | |- reachable (set_highlight_words _ _ ?r) => eapply (reachable_step r (OpSetHighlight _ _)); reach
  | |- reachable (clear_typing_facts _ ?r) => eapply (reachable_step r (OpClearTyping _)); reach
  | |- reachable (clear_presence_facts _ _ _ ?r) => eapply (reachable_step r (OpClearPresence _ _ _)); reach
  | |- reachable (clear_selection ?r) => eapply (reachable_step r OpClearSelection); reach
  | |- reachable (set_membership_noise _ ?r) => eapply (reachable_step r (OpSetNoise _)); reach
  | |- reachable (set_window_active _ ?r) => eapply (reachable_step r (OpSetWindowActive _)); reach
  end.

Ltac inbox_side :=
  repeat first [assumption | eapply inbox_fits_good; eassumption | apply inbox_fits_append | apply inbox_fits_consume | apply inbox_fits_remove | case_match; simplify_eq].
Ltac console_side :=
  repeat first [eapply good_console; eassumption | apply console_ok_append | apply console_ok_seen | apply console_ok_clear | apply console_ok_forget].
Ltac lists_side :=
  repeat first [assumption | eapply good_lists_ok; eassumption | apply lists_ok_request | apply lists_ok_drop | apply lists_ok_row | apply lists_ok_activity
    | apply lists_ok_finish | apply lists_ok_fail].
Ltac view_side :=
  repeat first [assumption | eapply good_view; eassumption | apply view_ok_show | apply view_ok_append | apply view_ok_clear
    | lazymatch goal with |- view_ok (view_begin_load _ _ _) => by cbv end
    | lazymatch goal with |- view_ok (view_fail ?t ?v) => change (view_ok v) end
    | lazymatch goal with |- view_ok (open_view ?v) => change (view_ok v) end
    | lazymatch goal with |- view_ok (@update _ _ _ _ _ ?v) => change (view_ok v) end].

(** An assignment of a field [good] does not read. *)
Ltac good_quietly :=
  lazymatch goal with
  | |- good ?W ?A (@update _ ?T ?proj ?upd ?f ?c) =>
      let H := fresh in
      assert (H : forall c0, parts (@update Controller T proj upd f c0) = parts c0) by reflexivity;
      apply (good_quiet W c _ (H c)); clear H
  end.

(** What a test or a binding that is not a controller leaves to know. *)
Ltac good_destruct X :=
  lazymatch X with
  | session _ _ =>
      let E := fresh "Es" in destruct X eqn:E; [match goal with Hc : good ?W _ ?c |- _ => pose proof (session_kept W _ _ _ Hc E) end|]
  | registered_session _ _ =>
      let E := fresh "Es" in destruct X eqn:E; [match goal with Hc : good ?W _ ?c |- _ => pose proof (registered_kept W _ _ _ Hc E) end|]
  | bt_get _ (ctl_profiles _) => let E := fresh "Ep" in destruct X eqn:E
  | _ =>
      lazymatch type of X with
      | (ChannelListRequests * _)%type => let H := fresh "Hl" in lazymatch goal with |- good ?W _ _ => assert (H : lists_ok W X.1) by lists_side end; destruct X; cbn [fst] in H
      | (Inbox.Inbox * _)%type => let H := fresh "Hi" in assert (H : inbox_fits X.1) by inbox_side; destruct X; cbn [fst] in H
      | _ => destruct X
      end
  end.

(** One step of the walk: a binding, a test, or the operation or the field it ends with. *)
Ltac good_step :=
  lazymatch goal with
  | |- good ?W ?A (let x := ?X in @?B x) =>
      lazymatch type of X with
      | Controller => refine (good_let W X B _ _); [|let c := fresh "c" in intros c ?; cbv beta]
      | _ => change (good W A (B X)); cbv beta
      end
  | |- good ?W ?A (fst (let x := ?X in @?B x)) =>
      lazymatch type of X with
      | Controller => refine (good_let_fst W X B _ _); [|let c := fresh "c" in intros c ?; cbv beta]
      | _ => change (good W A (fst (B X))); cbv beta
      end
  | |- good ?W ?A (let '(x, y) := ?X in @?B x y) =>
      lazymatch type of X with
      | (Controller * _)%type => refine (good_pair W X B _ _); [|let c := fresh "c" in intros c ? ?; cbv beta]
      | _ => good_destruct X
      end
  | |- good ?W ?A (fst (let '(x, y) := ?X in @?B x y)) =>
      lazymatch type of X with
      | (Controller * _)%type => refine (good_pair_fst W X B _ _); [|let c := fresh "c" in intros c ? ?; cbv beta]
      | _ => good_destruct X
      end
  | |- good ?W ?A (match ?X with _ => _ end) => good_destruct X
  | |- good ?W ?A (fst (match ?X with _ => _ end)) => good_destruct X
  | |- good ?W ?A (fst (?x, _)) => change (good W A x)
  | |- good ?W _ (fst (foldl _ _ _)) => apply (good_fold_fst W); [intros ? ? ?; cbv beta|cbn [fst]]
  | |- good ?W _ (foldl _ _ _) => apply (good_fold W); [intros ? ? ?; cbv beta|]
  | |- good ?W _ (put_session _ _ _) => apply (good_put W); [first [assumption|session_op|solve [auto]]|]
  | |- good ?W _ (fst (write_session _ _ _)) => apply (good_write W); [first [session_op|solve [auto]]|]
  | |- good ?W _ (fst (ask_session _ _ _ _)) => apply (good_ask W); [session_op|]
  | |- good ?W _ (fst (on_reducer _ _)) => apply (good_on_reducer W); [reach|]
  | |- good ?W _ (map_reducer _ _) => apply (good_map_reducer W); [reach|]
  | |- good ?W _ (@update _ _ ctl_profiles _ _ _) => eapply (good_put_profile W); [eassumption|done|]
  | |- good ?W _ (save_to_file _ _) => apply (good_save_to_file W)
  | |- good ?W _ (@update _ _ ctl_vault _ _ _) => apply (good_put_vault W); [first [apply keeps_poll|apply keeps_arrives]|]
  | |- good ?W _ (@update _ _ ctl_waiting_starts _ _ _) => apply (good_put_waiting W); [solve [auto with good | eauto using good_waiting]|]
  | |- good ?W _ (@update _ _ ctl_manager _ _ _) => apply (good_remove_session W)
  | |- good ?W _ (fst (on_vault _ _)) => apply (good_on_vault W); [intros; cbv beta; first [apply keeps_slot_text|apply keeps_allowed]|]
  | |- good ?W _ (@update _ _ ctl_inbox _ _ _) => apply (good_put_inbox W); [solve [inbox_side]|]
  | |- good ?W _ (@update _ _ ctl_console _ _ _) => apply (good_put_console W); [solve [console_side]|]
  | |- good ?W _ (@update _ _ ctl_lists _ _ _) => apply (good_put_lists W); [solve [lists_side]|]
  | |- good ?W _ (@update _ _ ctl_list_view _ _ _) => apply (good_put_view W); [solve [view_side]|]
  | |- good ?W _ (update_view _ _) => apply (good_update_view W); [solve [intros; cbv beta; view_side]|]
  | |- good _ _ (@update _ _ _ _ _ _) => good_quietly
  end.
Ltac good_walk := intros; repeat first [assumption | good_step | solve [auto with good nocore] | solve [eauto with good nocore]].
(** Unfolds a definition without its [let]s, then walks along it. *)
Tactic Notation "good_in" reference(f) := cbv beta delta [f]; good_walk.

(** ** The fold of an event, and the parts it reaches *)

Section Fold.
Context `{platform : Platform} `{client_log : ClientLog} `{json : TimesJson} `{secrets : CredentialStore} `{chain_laws : !StoreLaws secrets} `{crypto : Crypto} `{crate : UrlCrate} `{policy : SecretPolicy}.
Context {W : World} {HW : SessionOps (w_session W)} {A : AutoawayState -> Prop} {HA : AwayKept A}.
Implicit Types (c : Controller) (key : ConversationKey).
Abbreviation good := (good W A).
#[local] Hint Extern 2 (ControllerInvariants.good _ _ _) => good_step : good.

Lemma good_queue surfaces c : good c -> good (queue surfaces c).
Proof using HW HA. good_in queue. Qed.
#[local] Hint Resolve good_queue : good.
Lemma good_set_last_error network message c : good c -> good (set_last_error network message c).
Proof using HW HA. good_in set_last_error. Qed.
#[local] Hint Resolve good_set_last_error : good.
Lemma good_append_status entry c : good c -> good (append_status entry c).
Proof using HW HA. good_in append_status. Qed.
#[local] Hint Resolve good_append_status : good.
Lemma good_add_to_inbox item c : good c -> good (add_to_inbox item c).
Proof using HW HA. good_in add_to_inbox. Qed.
#[local] Hint Resolve good_add_to_inbox : good.

(** *** The stores and the read markers *)

Lemma good_on_ignores f c : good c -> good (on_ignores f c).1.
Proof using HW HA. unfold on_ignores. intros Hc. destruct (f _ _) as [[l file] changed]. cbn [fst]. good_walk. Qed.
#[local] Hint Resolve good_on_ignores : good.
Lemma good_on_mutes f c : good c -> good (on_mutes f c).1.
Proof using HW HA. unfold on_mutes. intros Hc. destruct (f _ _) as [[l file] changed]. cbn [fst]. good_walk. Qed.
#[local] Hint Resolve good_on_mutes : good.
Lemma good_on_highlights f c : good c -> good (on_highlights f c).1.
Proof using HW HA. unfold on_highlights. intros Hc. destruct (f _ _) as [[l file] changed]. cbn [fst]. good_walk. Qed.
#[local] Hint Resolve good_on_highlights : good.
Lemma good_on_monitors f c : good c -> good (on_monitors f c).1.
Proof using HW HA. unfold on_monitors. intros Hc. destruct (f _ _) as [[l file] changed]. cbn [fst]. good_walk. Qed.
#[local] Hint Resolve good_on_monitors : good.
Lemma good_on_directs f c : good c -> good (on_directs f c).1.
Proof using HW HA. unfold on_directs. intros Hc. destruct (f _ _) as [[l file] changed]. cbn [fst]. good_walk. Qed.
#[local] Hint Resolve good_on_directs : good.
Lemma good_on_closed f c : good c -> good (on_closed f c).
Proof using HW HA. unfold on_closed. intros Hc. apply good_map_reducer; [|done]. intros r. apply (reachable_closed (fun closed : ClosedList => (f closed.1 closed.2).1)). Qed.
#[local] Hint Resolve good_on_closed : good.
Lemma good_apply_mute network target value c : good c -> good (apply_mute network target value c).1.
Proof using HW HA. good_in apply_mute. Qed.
#[local] Hint Resolve good_apply_mute : good.
Lemma good_sync_highlight_words network c : good c -> good (sync_highlight_words network c).
Proof using HW HA. good_in sync_highlight_words. Qed.
#[local] Hint Resolve good_sync_highlight_words : good.
Lemma good_add_highlight_word network word c : good c -> good (add_highlight_word network word c).1.
Proof using HW HA. good_in add_highlight_word. Qed.
#[local] Hint Resolve good_add_highlight_word : good.
Lemma good_remove_highlight_word network word c : good c -> good (remove_highlight_word network word c).1.
Proof using HW HA. good_in remove_highlight_word. Qed.
#[local] Hint Resolve good_remove_highlight_word : good.
Lemma good_ignore_nick network nick c : good c -> good (ignore_nick network nick c).1.
Proof using HW HA. good_in ignore_nick. Qed.
#[local] Hint Resolve good_ignore_nick : good.
Lemma good_unignore_nick network nick c : good c -> good (unignore_nick network nick c).1.
Proof using HW HA. good_in unignore_nick. Qed.
#[local] Hint Resolve good_unignore_nick : good.
Lemma good_install_history_resume network c : good c -> good (install_history_resume network c).
Proof using HW HA. good_in install_history_resume. Qed.
#[local] Hint Resolve good_install_history_resume : good.
Lemma good_install_ignore_filter network c : good c -> good (install_ignore_filter network c).
Proof using HW HA. good_in install_ignore_filter. Qed.
#[local] Hint Resolve good_install_ignore_filter : good.
Lemma good_attach_store_hooks network c : good c -> good (attach_store_hooks network c).
Proof using HW HA. good_in attach_store_hooks. Qed.
#[local] Hint Resolve good_attach_store_hooks : good.
Lemma good_remember_open_direct network target c : good c -> good (remember_open_direct network target c).
Proof using HW HA. good_in remember_open_direct. Qed.
#[local] Hint Resolve good_remember_open_direct : good.
Lemma good_forget_open_direct network target c : good c -> good (forget_open_direct network target c).
Proof using HW HA. good_in forget_open_direct. Qed.
#[local] Hint Resolve good_forget_open_direct : good.
Lemma good_note_self_authored_direct network author target c : good c -> good (note_self_authored_direct network author target c).
Proof using HW HA. good_in note_self_authored_direct. Qed.
#[local] Hint Resolve good_note_self_authored_direct : good.
Lemma good_rekey_nick_lists network old new c : good c -> good (rekey_nick_lists network old new c).
Proof using HW HA. cbv beta delta [rekey_nick_lists]. good_walk. Qed.
#[local] Hint Resolve good_rekey_nick_lists : good.
Lemma good_restore_direct network prune st target : good st.1 -> good (restore_direct network prune st target).1.
Proof using HW HA. destruct st as [c created]. cbn [fst]. cbv beta iota delta [restore_direct]. good_walk. Qed.
#[local] Hint Resolve good_restore_direct : good.
Lemma good_restore_open_directs network c : good c -> good (restore_open_directs network c).
Proof using HW HA. good_in restore_open_directs. Qed.
#[local] Hint Resolve good_restore_open_directs : good.

(** *** Playback: the requests write to the session they are given *)

Lemma kept_play_target n r skip target from normalized round : w_session W n round.1.2 -> w_session W n (play_target r skip target from normalized round).1.2.
Proof using HW HA.
  destruct round as [[p s] go]. cbn. intros Hs. unfold play_target. destruct (negb go); [done|]. case_match; [done|].
  assert (Hsent : w_session W n (send_znc s target from).1) by session_op. destruct (send_znc s target from) as [s' sent]. by destruct sent.
Qed.

Lemma kept_play_everything n mark wanted round : w_session W n round.1.2 -> w_session W n (play_everything mark wanted round).1.2.
Proof using HW HA.
  destruct round as [[p s] go]. cbn. intros Hs. unfold play_everything. destruct (negb go || negb wanted); [done|].
  assert (Hsent : w_session W n (send_znc s (lit "*") (lit "0")).1) by session_op. destruct (send_znc _ _ _) as [s' sent]. by destruct sent.
Qed.

Lemma kept_request_channel_playback n r channel cap seen st : w_session W n st.2 -> w_session W n (request_channel_playback r channel cap seen st).2.
Proof using HW HA.
  destruct st as [p s]. cbn [snd]. intros Hs. unfold request_channel_playback. cbv zeta. do 3 (case_match; [done|]).
  lazymatch goal with |- context [send_znc s ?t ?f] => assert (Hsent : w_session W n (send_znc s t f).1) by session_op; destruct (send_znc s t f) as [s' sent] end.
  by destruct sent.
Qed.

Lemma kept_request_playback n r cap seen restored st : w_session W n st.2 -> w_session W n (request_playback r cap seen restored st).2.
Proof using HW HA.
  destruct st as [p s]. cbn [snd]. intros Hs. unfold request_playback. cbv zeta. do 2 (case_match; [done|]).
  set (stored := default [] _).
  lazymatch goal with |- w_session W n (snd (let '(_, _) := ?X in _)) => set (round := X) end.
  assert (Hfirst : w_session W n round.1.2).
  { unfold round. destruct stored as [|row stored]; [by apply kept_play_everything|]. apply kept_play_everything.
    do 3 (apply (foldl_invariant _ (fun round : Round => w_session W n round.1.2)); [intros; by apply kept_play_target|]). done. }
  destruct round as [[p' s'] go]. cbn in Hfirst. destruct (negb go); [done|].
  apply (foldl_invariant _ (fun st : PlaybackCoordinator * Core => w_session W n st.2)); [intros; by apply kept_request_channel_playback|done].
Qed.

Lemma kept_request_from_snapshot n p r target s : w_session W n s -> w_session W n (request_from_snapshot p r target s).1.
Proof using HW HA. intros Hs. unfold request_from_snapshot. case_match; session_op. Qed.

Lemma kept_catch_up_direct n r st nick : w_session W n st.2 -> w_session W n (catch_up_direct r st nick).2.
Proof using HW HA.
  destruct st as [p s]. cbn [snd]. intros Hs. unfold catch_up_direct. cbv zeta. do 2 (case_match; [done|]).
  pose proof (kept_request_from_snapshot n p r nick s Hs) as Hsent. destruct (request_from_snapshot p r nick s) as [s' sent]. by destruct sent.
Qed.

Lemma kept_request_catch_up n r history seen restored now st : w_session W n st.2 -> w_session W n (request_catch_up r history seen restored now st).2.
Proof using HW HA.
  destruct st as [p s]. cbn [snd]. intros Hs. unfold request_catch_up. cbv zeta. do 2 (case_match; [done|]).
  assert (Hfirst : w_session W n (foldl (catch_up_direct r) (p, s) restored).2).
  { apply (foldl_invariant _ (fun st : PlaybackCoordinator * Core => w_session W n st.2)); [intros; by apply kept_catch_up_direct|done]. }
  destruct (foldl _ _ _) as [p' s']. cbn [snd] in Hfirst. destruct (newest_snapshot p' _); [|done]. case_match; [done|].
  lazymatch goal with |- context [request_history_targets s' ?a ?b] => assert (Hsent : w_session W n (request_history_targets s' a b).1) by session_op end.
  destruct (request_history_targets _ _ _) as [s'' sent]. by destruct sent.
Qed.

Lemma kept_note_targets_page n targets ended limit st : w_session W n st.2 -> w_session W n (note_targets_page targets ended limit st).2.
Proof using HW HA.
  destruct st as [p s]. cbn [snd]. intros Hs. unfold note_targets_page. cbv zeta. case_match; [done|]. do 2 (case_match; [|done]). case_match; [done|].
  lazymatch goal with |- context [request_history_targets s ?a ?b] => assert (Hsent : w_session W n (request_history_targets s a b).1) by session_op end.
  destruct (request_history_targets _ _ _) as [s' sent]. by destruct sent.
Qed.

(** A discovery writes to its session, and opens and drops queries of its reducer. *)
Definition discovery_ok n (st : Discovery) : Prop := w_session W n st.1.1.2 /\ reachable st.1.2.

Lemma kept_discover_new n name key newest st : discovery_ok n st -> discovery_ok n (discover_new name key newest st).
Proof using HW HA.
  destruct st as [[[p s] r] created]. intros [Hs Hr]. cbn in Hs, Hr. unfold discover_new. cbv zeta. destruct newest as [newest|]; [|done]. case_match; [done|].
  assert (Hfirst : reachable (ensure_conversation key name InboundOther r).1) by reach.
  destruct (ensure_conversation _ _ _ _) as [r' made]. cbn [fst] in Hfirst. destruct (is_none made); [done|].
  lazymatch goal with |- context [request_history_after s ?a ?b] => assert (Hsecond : w_session W n (request_history_after s a b).1) by session_op end.
  destruct (request_history_after _ _ _) as [s' sent]. cbn [fst] in Hsecond. destruct sent; cbn [negb]; [done|]. split; [done|]. cbn.
  assert (Hthird : reachable (drop_direct_message key r').1) by reach. by repeat case_match.
Qed.

Lemma kept_discover_row n features nick restored dismissed newest st row :
  discovery_ok n st -> discovery_ok n (discover_row features nick restored dismissed newest st row).
Proof using HW HA.
  destruct st as [[[p s] r] created]. intros Hst. unfold discover_row. cbv zeta. case_match; [done|]. case_match; [case_match; [done|by apply kept_discover_new]|].
  destruct Hst as [Hs Hr]. pose proof (kept_request_from_snapshot n p r (history_target_name row) s Hs) as Hsent.
  destruct (request_from_snapshot _ _ _ _) as [s' sent]. by destruct sent.
Qed.

Lemma kept_note_discovered_targets n targets nick restored dismissed p s r :
  w_session W n s -> reachable r -> discovery_ok n (note_discovered_targets targets nick restored dismissed (p, s, r)).
Proof using HW HA.
  intros Hs Hr. unfold note_discovered_targets. cbv zeta. case_match; [done|].
  apply (foldl_invariant _ (discovery_ok n)); [intros; by apply kept_discover_row|done].
Qed.

Lemma good_with_playback network f c : (forall st, w_session W network st.2 -> w_session W network (f st).2) -> good c -> good (with_playback network f c).
Proof using HW HA.
  intros Hf Hc. unfold with_playback. destruct (session c network) as [s|] eqn:E; [|done].
  pose proof (Hf (ctl_playback c, s) (session_kept W c network s Hc E)) as H. destruct (f _) as [p' s']. good_walk.
Qed.
Lemma good_request_znc_playback network c : good c -> good (request_znc_playback network c).
Proof using HW HA. intros. apply good_with_playback; [intros; by apply kept_request_playback|done]. Qed.
#[local] Hint Resolve good_request_znc_playback : good.
Lemma good_request_chat_history_catch_up network c : good c -> good (request_chat_history_catch_up network c).
Proof using HW HA. intros. apply good_with_playback; [intros; by apply kept_request_catch_up|done]. Qed.
#[local] Hint Resolve good_request_chat_history_catch_up : good.
Lemma good_ask_channel_playback network channel c : good c -> good (ask_channel_playback network channel c).
Proof using HW HA. intros. apply good_with_playback; [intros; by apply kept_request_channel_playback|done]. Qed.
#[local] Hint Resolve good_ask_channel_playback : good.
Lemma good_remember_query c query : good c -> good (remember_query c query).
Proof using HW HA. good_in remember_query. Qed.
#[local] Hint Resolve good_remember_query : good.
Lemma good_note_kept_replay  c : good c -> good (note_kept_replay c).
Proof using HW HA. good_in note_kept_replay. Qed.
#[local] Hint Resolve good_note_kept_replay : good.
Lemma good_note_clock network message c : good c -> good (note_clock network message c).
Proof using HW HA. good_in note_clock. Qed.
#[local] Hint Resolve good_note_clock : good.
Lemma good_note_open_directs_motd network c : good c -> good (note_open_directs_motd network c).
Proof using HW HA. good_in note_open_directs_motd. Qed.
#[local] Hint Resolve good_note_open_directs_motd : good.

(** *** Read markers *)

Lemma good_update_marker_state f c : good c -> good (update_marker_state f c).
Proof using HW HA. good_in update_marker_state. Qed.
#[local] Hint Resolve good_update_marker_state : good.
Lemma good_clear_awaiting_get key c : good c -> good (clear_awaiting_get key c).1.
Proof using HW HA. good_in clear_awaiting_get. Qed.
#[local] Hint Resolve good_clear_awaiting_get : good.
Lemma good_clear_awaiting_network network c : good c -> good (clear_awaiting_network network c).1.
Proof using HW HA. good_in clear_awaiting_network. Qed.
#[local] Hint Resolve good_clear_awaiting_network : good.
Lemma good_sync_read_marker_for_selection  c : good c -> good (sync_read_marker_for_selection c).
Proof using HW HA. good_in sync_read_marker_for_selection. Qed.
#[local] Hint Resolve good_sync_read_marker_for_selection : good.
Lemma good_note_transcript_viewport focused follow_end c : good c -> good (note_transcript_viewport focused follow_end c).
Proof using HW HA. good_in note_transcript_viewport. Qed.
#[local] Hint Resolve good_note_transcript_viewport : good.
Lemma good_answered_get network target c : good c -> good (answered_get network target c).1.
Proof using HW HA. good_in answered_get. Qed.
#[local] Hint Resolve good_answered_get : good.
Lemma good_read_marker_received network target marker c : good c -> good (read_marker_received network target marker c).
Proof using HW HA. good_in read_marker_received. Qed.
#[local] Hint Resolve good_read_marker_received : good.
Lemma good_request_read_marker_get_with_key key target c : good c -> good (request_read_marker_get_with_key key target c).
Proof using HW HA. good_in request_read_marker_get_with_key. Qed.
#[local] Hint Resolve good_request_read_marker_get_with_key : good.
Lemma good_read_marker_clear_awaiting_network network c : good c -> good (read_marker_clear_awaiting_network network c).
Proof using HW HA. good_in read_marker_clear_awaiting_network. Qed.
#[local] Hint Resolve good_read_marker_clear_awaiting_network : good.
Lemma good_request_read_marker_get_for_selected_direct network c : good c -> good (request_read_marker_get_for_selected_direct network c).
Proof using HW HA. good_in request_read_marker_get_for_selected_direct. Qed.
#[local] Hint Resolve good_request_read_marker_get_for_selected_direct : good.

(** *** MONITOR *)

Lemma good_update_monitor f c : good c -> good (update_monitor f c).
Proof using HW HA. good_in update_monitor. Qed.
#[local] Hint Resolve good_update_monitor : good.
Lemma good_update_states network f c : good c -> good (update_states network f c).
Proof using HW HA. good_in update_states. Qed.
#[local] Hint Resolve good_update_states : good.
Lemma good_monitor_status network text c : good c -> good (monitor_status network text c).
Proof using HW HA. good_in monitor_status. Qed.
#[local] Hint Resolve good_monitor_status : good.
Lemma good_monitor_forget_presence network c : good c -> good (monitor_forget_presence network c).
Proof using HW HA. good_in monitor_forget_presence. Qed.
#[local] Hint Resolve good_monitor_forget_presence : good.
Lemma good_note_presence network online c nick : good c -> good (note_presence network online c nick).
Proof using HW HA. good_in note_presence. Qed.
#[local] Hint Resolve good_note_presence : good.
Lemma good_handle_monitor_presence network message online c : good c -> good (handle_monitor_presence network message online c).
Proof using HW HA. intros Hc. unfold handle_monitor_presence. good_walk. Qed.
#[local] Hint Resolve good_handle_monitor_presence : good.
Lemma good_drop_refused network c target : good c -> good (drop_refused network c target).
Proof using HW HA. good_in drop_refused. Qed.
#[local] Hint Resolve good_drop_refused : good.
Lemma good_handle_monitor_list_full network message c : good c -> good (handle_monitor_list_full network message c).
Proof using HW HA. good_in handle_monitor_list_full. Qed.
#[local] Hint Resolve good_handle_monitor_list_full : good.
Lemma good_add_monitored network argument c : good c -> good (add_monitored network argument c).1.
Proof using HW HA. good_in add_monitored. Qed.
#[local] Hint Resolve good_add_monitored : good.
Lemma good_remove_monitored network argument c : good c -> good (remove_monitored network argument c).1.
Proof using HW HA. good_in remove_monitored. Qed.
#[local] Hint Resolve good_remove_monitored : good.

(** *** Channel lists *)

Lemma good_begin_channel_list_load network mask c : good c -> good (begin_channel_list_load network mask c).1.
Proof using HW HA. good_in begin_channel_list_load. Qed.
#[local] Hint Resolve good_begin_channel_list_load : good.
Lemma good_start_channel_list network mask c : good c -> good (start_channel_list network mask c).1.
Proof using HW HA. good_in start_channel_list. Qed.
#[local] Hint Resolve good_start_channel_list : good.
Lemma good_dismiss_channel_list  c : good c -> good (dismiss_channel_list c).
Proof using HW HA. good_in dismiss_channel_list. Qed.
#[local] Hint Resolve good_dismiss_channel_list : good.
Lemma good_finish_channel_list network c : good c -> good (finish_channel_list network c).
Proof using HW HA. good_in finish_channel_list. Qed.
#[local] Hint Resolve good_finish_channel_list : good.
Lemma good_fail_channel_list network text timed_out c : good c -> good (fail_channel_list network text timed_out c).1.
Proof using HW HA. good_in fail_channel_list. Qed.
#[local] Hint Resolve good_fail_channel_list : good.
Lemma good_fail_channel_list_from_numeric network message c : good c -> good (fail_channel_list_from_numeric network message c).1.
Proof using HW HA. good_in fail_channel_list_from_numeric. Qed.
#[local] Hint Resolve good_fail_channel_list_from_numeric : good.
Lemma good_handle_channel_list_message network message c : good c -> good (handle_channel_list_message network message c).1.
Proof using HW HA. good_in handle_channel_list_message. Qed.
#[local] Hint Resolve good_handle_channel_list_message : good.
Lemma good_forget_channel_list network c : good c -> good (forget_channel_list network c).
Proof using HW HA. good_in forget_channel_list. Qed.
#[local] Hint Resolve good_forget_channel_list : good.

(** An expiry that is taken fails the load of its network. *)
Lemma good_run_channel_list_expiry c :
  (forall taken rest, w_queue W (taken ++ rest) -> w_queue W rest) -> good c -> good (run_channel_list_expiry c).1.
Proof using HW HA.
  intros Hsuffix Hc. unfold run_channel_list_expiry. pose proof (requests_ok_expire (ctl_lists c) CHANNEL_LIST_TIMEOUT_TEXT (good_lists W A c Hc)) as Hl.
  destruct (expiries_take (ctl_lists c)) as [taken Et]. pose proof (good_list_queue W A c Hc) as Hq. rw Et in Hq. apply Hsuffix in Hq.
  destruct (take_expiry (ctl_lists c)) as [lists [network|]]; cbn [fst] in Hq |- *; [|by apply good_put_lists].
  unfold fail_channel_list. cbn [ctl_lists update]. pose proof (expiries_fail network CHANNEL_LIST_TIMEOUT_TEXT true lists) as Ef.
  destruct (list_fail network _ true lists) as [lists' failed]. cbn [fst] in Hl, Ef. rw -Ef in Hq.
  assert (H : good (c <| ctl_lists := lists |> <| ctl_lists := lists' |>)) by (destruct Hc; by split). destruct failed; cbn [negb]; good_walk.
Qed.

(** *** The fold of an event *)

Lemma good_update_watches f c : good c -> good (update_watches f c).
Proof using HW HA. good_in update_watches. Qed.
#[local] Hint Resolve good_update_watches : good.
Lemma good_forget_away network c : good c -> good (autoaway_forget_network network c).
Proof using HW HA. intros Hc. apply good_put_away; [|done]. apply ak_forget, Hc. Qed.
#[local] Hint Resolve good_forget_away : good.
Lemma good_unaway_sent (f : AutoawayState -> bset) c : good c -> good (update_away (fun a => a <| unaway_sent := f a |>) c).
Proof using HW HA. intros Hc. apply good_put_away; [|done]. apply ak_unaway, Hc. Qed.
#[local] Hint Extern 1 (ControllerInvariants.good _ _ (update_away _ _)) => apply good_unaway_sent : good.
Lemma good_note_nick_delivery network target c : good c -> good (note_nick_delivery network target c).
Proof using HW HA. good_in note_nick_delivery. Qed.
#[local] Hint Resolve good_note_nick_delivery : good.
Lemma good_request_label_finished network label c : good c -> good (request_label_finished network label c).
Proof using HW HA. good_in request_label_finished. Qed.
#[local] Hint Resolve good_request_label_finished : good.
Lemma good_claim_first_conversation  c : good c -> good (claim_first_conversation c).
Proof using HW HA. good_in claim_first_conversation. Qed.
#[local] Hint Resolve good_claim_first_conversation : good.
Lemma good_before_apply event c : good c -> good (before_apply event c).
Proof using HW HA. good_in before_apply. Qed.
#[local] Hint Resolve good_before_apply : good.
Lemma good_keep_lists event reopened c : good c -> good (keep_lists event reopened c).
Proof using HW HA. cbv beta delta [keep_lists]. good_walk. Qed.
#[local] Hint Resolve good_keep_lists : good.
Lemma good_raise_arrivals  c : good c -> good (raise_arrivals c).
Proof using HW HA. good_in raise_arrivals. Qed.
#[local] Hint Resolve good_raise_arrivals : good.
Lemma good_fold_applied route event c : (forall e c, good c -> good (route e c)) -> good c -> good (fold_applied route event c).
Proof using HW HA. intros Hr. good_in fold_applied. Qed.
Lemma good_apply_with route event c : (forall e c, good c -> good (route e c)) -> good c -> good (apply_with route event c).
Proof using HW HA. intros Hr Hc. apply good_fold_applied; [done|]. by apply good_before_apply. Qed.
Lemma good_apply_whois_transcript destination body c : good c -> good (apply_whois_transcript destination body c).
Proof using HW HA. intros Hc. apply good_apply_with; [done|done]. Qed.
#[local] Hint Resolve good_apply_whois_transcript : good.
Lemma good_copy_to_destination destination text c : good c -> good (copy_to_destination destination text c).
Proof using HW HA. good_in copy_to_destination. Qed.
#[local] Hint Resolve good_copy_to_destination : good.

(** *** Replies *)

Lemma good_arm_own_metadata_watch network key_name kind value c : good c -> good (arm_own_metadata_watch network key_name kind value c).
Proof using HW HA. good_in arm_own_metadata_watch. Qed.
#[local] Hint Resolve good_arm_own_metadata_watch : good.
Lemma good_remove_own_metadata_watch network canonical c : good c -> good (remove_own_metadata_watch network canonical c).
Proof using HW HA. good_in remove_own_metadata_watch. Qed.
#[local] Hint Resolve good_remove_own_metadata_watch : good.
Lemma good_echo_own_metadata_outcome network destination text c : good c -> good (echo_own_metadata_outcome network destination text c).
Proof using HW HA. good_in echo_own_metadata_outcome. Qed.
#[local] Hint Resolve good_echo_own_metadata_outcome : good.
Lemma good_update_applied network f c : good c -> good (update_applied network f c).
Proof using Type. good_in update_applied. Qed.
#[local] Hint Resolve good_update_applied : good.
Lemma good_persist_avatar_url network url c : good c -> good (persist_avatar_url network url c).
Proof using HW HA. good_in persist_avatar_url. Qed.
#[local] Hint Resolve good_persist_avatar_url : good.
Lemma good_persist_if_avatar network canonical url c : good c -> good (persist_if_avatar network canonical url c).
Proof using HW HA. good_in persist_if_avatar. Qed.
#[local] Hint Resolve good_persist_if_avatar : good.
Lemma good_route_own_metadata_reply network nick key_name value c : good c -> good (route_own_metadata_reply network nick key_name value c).
Proof using HW HA. good_in route_own_metadata_reply. Qed.
#[local] Hint Resolve good_route_own_metadata_reply : good.
Lemma good_apply event c : good c -> good (ControllerReplies.apply event c).
Proof using HW HA. intros Hc. apply good_apply_with; [|done]. intros. by apply good_route_own_metadata_reply. Qed.
#[local] Hint Resolve good_apply : good.
Lemma good_end_refused network code reason c ended : good c -> good (end_refused network code reason c ended).
Proof using HW HA. good_in end_refused. Qed.
#[local] Hint Resolve good_end_refused : good.
Lemma good_route_own_metadata_fail network message c : good c -> good (route_own_metadata_fail network message c).
Proof using HW HA. good_in route_own_metadata_fail. Qed.
#[local] Hint Resolve good_route_own_metadata_fail : good.
Lemma good_route_own_metadata_error entry c : good c -> good (route_own_metadata_error entry c).
Proof using HW HA. good_in route_own_metadata_error. Qed.
#[local] Hint Resolve good_route_own_metadata_error : good.
Lemma good_send_whois network nick destination c : good c -> good (send_whois network nick destination c).1.
Proof using HW HA. good_in send_whois. Qed.
#[local] Hint Resolve good_send_whois : good.
Lemma good_send_ctcp_query network nick command argument destination c : good c -> good (send_ctcp_query network nick command argument destination c).1.
Proof using HW HA. good_in send_ctcp_query. Qed.
#[local] Hint Resolve good_send_ctcp_query : good.
Lemma good_apply_whois_detail network line destination emit_metadata c : good c -> good (apply_whois_detail network line destination emit_metadata c).
Proof using HW HA. good_in apply_whois_detail. Qed.
#[local] Hint Resolve good_apply_whois_detail : good.
Lemma good_route_whois_line network line c : good c -> good (route_whois_line network line c).
Proof using HW HA. good_in route_whois_line. Qed.
#[local] Hint Resolve good_route_whois_line : good.
Lemma good_route_labeled_whois network label line c : good c -> good (route_labeled_whois network label line c).
Proof using HW HA. good_in route_labeled_whois. Qed.
#[local] Hint Resolve good_route_labeled_whois : good.
Lemma good_route_labeled_ctcp network label line text c : good c -> good (route_labeled_ctcp network label line text c).
Proof using HW HA. good_in route_labeled_ctcp. Qed.
#[local] Hint Resolve good_route_labeled_ctcp : good.
Lemma good_route_ctcp_reply network line text c : good c -> good (route_ctcp_reply network line text c).
Proof using HW HA. good_in route_ctcp_reply. Qed.
#[local] Hint Resolve good_route_ctcp_reply : good.
Lemma good_route_labeled_standard_reply entry c : good c -> good (route_labeled_standard_reply entry c).
Proof using HW HA. good_in route_labeled_standard_reply. Qed.
#[local] Hint Resolve good_route_labeled_standard_reply : good.
Lemma good_route_list_mode_line network line c : good c -> good (route_list_mode_line network line c).
Proof using HW HA. good_in route_list_mode_line. Qed.
#[local] Hint Resolve good_route_list_mode_line : good.
Lemma good_route_labeled entry c : good c -> good (route_labeled entry c).
Proof using HW HA. good_in route_labeled. Qed.
#[local] Hint Resolve good_route_labeled : good.
Lemma good_route_status_entry entry c : good c -> good (route_status_entry entry c).
Proof using HW HA. good_in route_status_entry. Qed.
#[local] Hint Resolve good_route_status_entry : good.
Lemma good_status_entry entry c : good c -> good (status_entry entry c).
Proof using HW HA. good_in status_entry. Qed.
#[local] Hint Resolve good_status_entry : good.

(** *** The selection *)

Lemma good_withdraw_typing  c : good c -> good (withdraw_typing c).
Proof using HW HA. good_in withdraw_typing. Qed.
#[local] Hint Resolve good_withdraw_typing : good.
Lemma good_leave_previous key c : good c -> good (leave_previous key c).
Proof using HW HA. good_in leave_previous. Qed.
#[local] Hint Resolve good_leave_previous : good.
Lemma good_select network target c : good c -> good (select network target c).
Proof using HW HA. good_in select. Qed.
#[local] Hint Resolve good_select : good.
Lemma good_clear_selected  c : good c -> good (clear_selected c).
Proof using HW HA. good_in clear_selected. Qed.
#[local] Hint Resolve good_clear_selected : good.
Lemma good_drop_and_reselect key c : good c -> good (drop_and_reselect key c).
Proof using HW HA. good_in drop_and_reselect. Qed.
#[local] Hint Resolve good_drop_and_reselect : good.
Lemma good_dismiss_channel network name c : good c -> good (dismiss_channel network name c).1.
Proof using HW HA. good_in dismiss_channel. Qed.
#[local] Hint Resolve good_dismiss_channel : good.
Lemma good_close_key key c : good c -> good (close_key key c).1.
Proof using HW HA. good_in close_key. Qed.
#[local] Hint Resolve good_close_key : good.
Lemma good_close_selected  c : good c -> good (close_selected c).1.
Proof using HW HA. good_in close_selected. Qed.
#[local] Hint Resolve good_close_selected : good.
Lemma good_note_channel_left network name c : good c -> good (note_channel_left network name c).
Proof using HW HA. good_in note_channel_left. Qed.
#[local] Hint Resolve good_note_channel_left : good.

(** *** The session events *)

Lemma good_apply_profile_avatar_on_connect network c : good c -> good (apply_profile_avatar_on_connect network c).
Proof using HW HA. good_in apply_profile_avatar_on_connect. Qed.
#[local] Hint Resolve good_apply_profile_avatar_on_connect : good.
Lemma good_persist_autojoin network channels keys c : good c -> good (persist_autojoin network channels keys c).
Proof using HW HA. good_in persist_autojoin. Qed.
#[local] Hint Resolve good_persist_autojoin : good.
Lemma good_drop_empty_discovered_direct network target c : good c -> good (drop_empty_discovered_direct network target c).
Proof using HW HA. good_in drop_empty_discovered_direct. Qed.
#[local] Hint Resolve good_drop_empty_discovered_direct : good.
Lemma good_note_targets network batch c : good c -> good (note_targets network batch c).
Proof using HW HA.
  intros Hc. unfold note_targets. set (discover := discover_targets network batch c).
  assert (H : good (on_reducer discover c).1 /\ forall s, (on_reducer discover c).2.1.2 = Some s -> w_session W network s).
  { unfold on_reducer. cbv zeta.
    lazymatch goal with |- context [discover ?r] => assert (Hr : reachable r) by apply (reachable_closed (fun closed : ClosedList => (closed.1, ctl_file c))), Hc; set (lent := r) in * end.
    assert (H : reachable (discover lent).1 /\ forall s, (discover lent).2.1.2 = Some s -> w_session W network s).
    { unfold discover, discover_targets. cbv zeta. destruct (session c network) as [s|] eqn:Es; [|done].
      pose proof (kept_note_discovered_targets network (batch_targets batch) (current_nick c network) (restored_directs c network)
        (dismissed_listed (ctl_open_directs c) network (mapping_for c network)) (ctl_playback c) s lent (session_kept W c network s Hc Es) Hr) as [H1 H2].
      destruct (note_discovered_targets _ _ _ _ _) as [[[p' s'] r'] created]. cbn in H1, H2.
      pose proof (kept_note_targets_page network (batch_targets batch) (batch_history_ended batch) (history_limit s') (p', s') H1) as H3.
      destruct (note_targets_page _ _ _ _) as [p'' s'']. cbn. split; [done|]. by intros ? [= <-]. }
    destruct (discover lent) as [r a]. cbn in H. cbn [fst snd]. split; [|apply H]. destruct Hc. split; try done. apply H. }
  destruct (on_reducer discover c) as [c' [[p s] created]]. cbn [fst snd] in H. destruct H as [H1 H2].
  assert (H3 : good (match s with Some s => put_session network s (c' <| ctl_playback := p |>) | None => c' <| ctl_playback := p |> end)).
  { destruct s as [s|]; [apply good_put; [by apply H2|]|]; good_walk. }
  cbv zeta. destruct (0 <? created)%nat; [by apply good_queue|done].
Qed.
#[local] Hint Resolve good_note_targets : good.
Lemma good_handle_history_batch network batch c : good c -> good (handle_history_batch network batch c).
Proof using HW HA. good_in handle_history_batch. Qed.
#[local] Hint Resolve good_handle_history_batch : good.
Lemma good_on_chat_history_failed network subcommand target c : good c -> good (on_chat_history_failed network subcommand target c).
Proof using HW HA. good_in on_chat_history_failed. Qed.
#[local] Hint Resolve good_on_chat_history_failed : good.
Lemma good_on_self_join network name c : good c -> good (on_self_join network name c).
Proof using HW HA. good_in on_self_join. Qed.
#[local] Hint Resolve good_on_self_join : good.
Lemma good_drop_cancelled_join network name key c : good c -> good (drop_cancelled_join network name key c).
Proof using HW HA. good_in drop_cancelled_join. Qed.
#[local] Hint Resolve good_drop_cancelled_join : good.
Lemma good_fold_event network features own c event : good c -> good (fold_event network features own c event).
Proof using HW HA. good_in fold_event. Qed.
#[local] Hint Resolve good_fold_event : good.
Lemma good_note_motd_end network c : good c -> good (note_motd_end network c).
Proof using HW HA. good_in note_motd_end. Qed.
#[local] Hint Resolve good_note_motd_end : good.
Lemma good_translate_and_fold network message c : good c -> good (translate_and_fold network message c).
Proof using HW HA. good_in translate_and_fold. Qed.
#[local] Hint Resolve good_translate_and_fold : good.
Lemma good_handle_capabilities network capabilities c : good c -> good (handle_capabilities network capabilities c).
Proof using HW HA. good_in handle_capabilities. Qed.
#[local] Hint Resolve good_handle_capabilities : good.
Lemma good_record_line network message label when c entry : good c -> good (record_line network message label when c entry).
Proof using HW HA. good_in record_line. Qed.
#[local] Hint Resolve good_record_line : good.
Lemma good_record_inbound network message label nick types when c : good c -> good (record_inbound network message label nick types when c).
Proof using HW HA. good_in record_inbound. Qed.
#[local] Hint Resolve good_record_inbound : good.
End Fold.

(** ** Auto-away *)

(** Auto-away is only over networks that no one set away by hand, and only while it is tripped;
    [E] is what is asked of the expiries that wait. *)
Record away_ok (E : list AwayTimer -> Prop) (a : AutoawayState) : Prop := {
  auto_not_manual : forall network, bt_get network (auto_away a) = Some tt -> bt_get network (manual_away a) = None;
  auto_tripped : auto_away a <> [] -> tripped a = true /\ away_enabled (away_config a) = true;
  away_expiries : E (expiries a);
}.
Definition armed_ok (E : list AwayTimer -> Prop) (a : AutoawayState) : Prop := away_ok E a /\ tripped a = true /\ away_enabled (away_config a) = true.
Definition free_ok (E : list AwayTimer -> Prop) (network : str) (a : AutoawayState) : Prop := away_ok E a /\ bt_get network (manual_away a) = None.

Section AwayRecords.
Context (E : list AwayTimer -> Prop).

Lemma away_ok_view a a' :
  auto_away a' = auto_away a -> manual_away a' = manual_away a -> tripped a' = tripped a -> expiries a' = expiries a ->
  (away_enabled (away_config a) = true -> away_enabled (away_config a') = true) -> away_ok E a -> away_ok E a'.
Proof using Type. intros E1 E2 E3 E4 E5 [H1 H2 H3]. split; rw ?E1 ?E2 ?E3 ?E4; [done| |done]. intros Hn. destruct (H2 Hn). auto. Qed.

Lemma away_ok_idle a : auto_away a = [] -> E (expiries a) -> away_ok E a.
Proof using Type. intros Ha. split; rw ?Ha; done. Qed.

Lemma bs_remove_nil network s : bs_remove network s <> [] -> s <> [].
Proof using Type. by intros H ->. Qed.

Lemma away_ok_forget network a :
  away_ok E a -> away_ok E (a <| auto_away := bs_remove network (auto_away a) |> <| manual_away := bs_remove network (manual_away a) |>).
Proof using Type.
  intros [H1 H2 H3]. split; cbn; [| |done].
  - intros other Ho. apply bt_get_remove_Some, H1 in Ho. destruct (decide (network = other)) as [<-|Hne]; [apply bt_get_remove|by rw bt_get_remove_ne].
  - intros Hn. by apply H2, (bs_remove_nil network).
Qed.

Lemma away_ok_manual network a :
  away_ok E a -> away_ok E (a <| auto_away := bs_remove network (auto_away a) |> <| manual_away := bs_insert network (manual_away a) |>).
Proof using Type.
  intros [H1 H2 H3]. split; cbn; [| |done].
  - intros other Ho. destruct (decide (network = other)) as [<-|Hne]; [unfold bs_remove in Ho; by rw bt_get_remove in Ho|].
    unfold bs_insert. rw bt_get_insert_ne //. by apply bt_get_remove_Some, H1 in Ho.
  - intros Hn. by apply H2, (bs_remove_nil network).
Qed.

Lemma away_ok_mark network a :
  armed_ok E a -> bt_get network (manual_away a) = None -> armed_ok E (a <| auto_away := bs_insert network (auto_away a) |>).
Proof using Type.
  intros ([H1 H2 H3] & Ht & He) Hm. split; [|done]. split; cbn; [|done|done].
  intros other Ho. destruct (decide (network = other)) as [<-|Hne]; [done|]. apply H1. unfold bs_insert in Ho. by rw bt_get_insert_ne in Ho.
Qed.

#[local] Instance away_ok_kept : AwayKept (away_ok E).
Proof using Type.
  split; [intros network a Ha; by apply (away_ok_view (a <| auto_away := bs_remove network (auto_away a) |> <| manual_away := bs_remove network (manual_away a) |>)), away_ok_forget|].
  intros sent a. by apply away_ok_view.
Qed.
#[local] Instance armed_ok_kept : AwayKept (armed_ok E).
Proof using Type.
  split; [intros network a [Ha Hb]; split; [by apply (ak_forget network)|done]|]. intros sent a [Ha Hb]. split; [by apply (ak_unaway sent)|done].
Qed.
#[local] Instance free_ok_kept network : AwayKept (free_ok E network).
Proof using Type.
  split; [intros other a [Ha Hb]; split; [by apply (ak_forget other)|]|intros sent a [Ha Hb]; split; [by apply (ak_unaway sent)|done]].
  cbn. destruct (decide (other = network)) as [<-|Hne]; [apply bt_get_remove|by rw bt_get_remove_ne].
Qed.

End AwayRecords.
#[export] Existing Instances away_ok_kept armed_ok_kept free_ok_kept.

Section Whole.
Context `{platform : Platform} `{client_log : ClientLog} `{json : TimesJson} `{secrets : CredentialStore} `{chain_laws : !StoreLaws secrets} `{crypto : Crypto} `{crate : UrlCrate} `{policy : SecretPolicy}.
Context {W : World} {HW : SessionOps (w_session W)}.
Implicit Types (c : Controller) (key : ConversationKey).
Abbreviation away_ok := (away_ok (w_expiries W)).
Abbreviation armed_ok := (armed_ok (w_expiries W)).
Abbreviation free_ok := (free_ok (w_expiries W)).
Abbreviation good := (good W away_ok).
#[local] Hint Extern 2 (ControllerInvariants.good _ _ _) => good_step : good.
#[local] Hint Resolve away_ok_kept armed_ok_kept free_ok_kept : good.
#[local] Hint Resolve good_queue good_set_last_error good_append_status good_add_to_inbox good_on_ignores good_on_mutes good_on_highlights good_on_monitors good_on_directs good_on_closed good_apply_mute good_sync_highlight_words good_add_highlight_word good_remove_highlight_word good_ignore_nick good_unignore_nick good_install_history_resume good_install_ignore_filter good_attach_store_hooks good_remember_open_direct good_forget_open_direct good_note_self_authored_direct good_rekey_nick_lists good_restore_direct good_restore_open_directs good_request_znc_playback good_request_chat_history_catch_up good_ask_channel_playback good_remember_query good_note_kept_replay good_note_clock good_note_open_directs_motd good_update_marker_state good_clear_awaiting_get good_clear_awaiting_network good_sync_read_marker_for_selection good_note_transcript_viewport good_answered_get good_read_marker_received good_request_read_marker_get_with_key good_read_marker_clear_awaiting_network good_request_read_marker_get_for_selected_direct good_update_monitor good_update_states good_monitor_status good_monitor_forget_presence good_note_presence good_handle_monitor_presence good_drop_refused good_handle_monitor_list_full good_add_monitored good_remove_monitored good_begin_channel_list_load good_start_channel_list good_dismiss_channel_list good_finish_channel_list good_fail_channel_list good_fail_channel_list_from_numeric good_handle_channel_list_message good_forget_channel_list good_update_watches good_forget_away good_note_nick_delivery good_request_label_finished good_claim_first_conversation good_before_apply good_keep_lists good_raise_arrivals good_apply_whois_transcript good_copy_to_destination good_arm_own_metadata_watch good_remove_own_metadata_watch good_echo_own_metadata_outcome good_persist_avatar_url good_persist_if_avatar good_route_own_metadata_reply good_apply good_end_refused good_route_own_metadata_fail good_route_own_metadata_error good_send_whois good_send_ctcp_query good_apply_whois_detail good_route_whois_line good_route_labeled_whois good_route_labeled_ctcp good_route_ctcp_reply good_route_labeled_standard_reply good_route_list_mode_line good_route_labeled good_route_status_entry good_status_entry good_withdraw_typing good_leave_previous good_select good_clear_selected good_drop_and_reselect good_dismiss_channel good_close_key good_close_selected good_note_channel_left good_apply_profile_avatar_on_connect good_persist_autojoin good_drop_empty_discovered_direct good_note_targets good_handle_history_batch good_on_chat_history_failed good_on_self_join good_drop_cancelled_join good_fold_event good_note_motd_end good_translate_and_fold good_handle_capabilities good_record_line good_record_inbound : good.

#[local] Hint Extern 1 (ControllerInvariants.good _ _ (update_away _ _)) => apply good_unaway_sent : good.

Lemma good_weaken (A A' : AutoawayState -> Prop) c : A' (ctl_away c) -> ControllerInvariants.good W A c -> ControllerInvariants.good W A' c.
Proof using Type. intros H []. by split. Qed.

(** Only the away record changes, and its record stays as it must. *)
Lemma good_update_away f c : (away_ok (ctl_away c) -> away_ok (f (ctl_away c))) -> good c -> good (update_away f c).
Proof using Type. intros Hf Hc. apply good_put_away; [|done]. apply Hf, Hc. Qed.

Lemma good_update_config f c :
  (forall config, away_enabled config = true -> away_enabled (f config) = true) -> good c -> good (update_config f c).
Proof using Type. intros Hf. apply good_update_away. apply away_ok_view; try done. apply Hf. Qed.

Lemma away_ok_stop a : away_ok a -> away_ok (stop_timers a).
Proof using Type. by apply away_ok_view. Qed.
Lemma away_ok_arm_idle a : away_ok a -> away_ok (arm_idle a).
Proof using Type. intros Ha. unfold arm_idle. cbv zeta. case_match; [by apply away_ok_stop|]. by apply (away_ok_view _ (stop_timers a)), away_ok_stop. Qed.

(** The session the mark is written to changes nothing of the away record. *)
Lemma good_mark_session network c :
  ControllerInvariants.good W armed_ok c -> bt_get network (manual_away (ctl_away c)) = None ->
  ControllerInvariants.good W armed_ok (autoaway_mark_session network c).1.
Proof using HW.
  intros Hc Hm. unfold autoaway_mark_session. destruct (registered_session c network) as [s|]; [|done].
  assert (H : ControllerInvariants.good W (fun a => armed_ok a /\ bt_get network (manual_away a) = None) (write_session network (fun s => mark_away s (away_reason (ctl_away c))) c).1).
  { apply (good_write W); [first [session_op|solve [auto]]|]. apply (good_weaken armed_ok); [|done]. split; [apply Hc|done]. }
  destruct (write_session _ _ _) as [c' sent]. cbn [fst] in H. destruct sent; cbn [negb fst].
  - apply good_put_away; [|by apply (good_weaken _ armed_ok c') in H; [|apply H]]. apply away_ok_mark; apply H.
  - apply (good_weaken _ armed_ok c') in H; [done|apply H].
Qed.

Lemma good_record_away_status (A : AutoawayState -> Prop) `{!AwayKept A} network text c :
  ControllerInvariants.good W A c -> ControllerInvariants.good W A (autoaway_record_status network text c).
Proof using HW. intros Hc. unfold autoaway_record_status. case_match; [done|]. by apply good_append_status. Qed.
#[local] Hint Resolve good_record_away_status : good.

Lemma bs_contains_false network s : bs_contains network s = false -> bt_get network s = None.
Proof using Type.
  unfold bs_contains. intros H. destruct (bt_get network s) eqn:E; [|done]. assert (bt_contains network s = true) by (apply bt_contains_spec; eauto). congruence.
Qed.

Lemma good_trip_network status c network :
  ControllerInvariants.good W armed_ok c -> ControllerInvariants.good W armed_ok (trip_network status c network).
Proof using HW.
  intros Hc. unfold trip_network. destruct (bs_contains network (auto_away _) || _ || _) eqn:E; [done|].
  apply orb_false_iff in E as [E _]. apply orb_false_iff in E as [_ E].
  pose proof (good_mark_session network c Hc (bs_contains_false _ _ E)) as H. destruct (autoaway_mark_session network c) as [c' marked].
  destruct marked; [by apply good_record_away_status; [apply _|]|done].
Qed.

Lemma good_autoaway_trip c : good c -> good (autoaway_trip c).
Proof using HW.
  intros Hc. unfold autoaway_trip. destruct (away_enabled (away_config (ctl_away c))) eqn:He; cbn [negb]; [|done]. cbv zeta.
  lazymatch goal with |- good (update_away stop_timers ?X) => assert (H : ControllerInvariants.good W armed_ok X) end.
  { apply (good_fold W); [intros; by apply good_trip_network|]. apply (good_weaken (fun _ => True)); [|destruct Hc; by split].
    destruct (good_away _ _ _ Hc) as [H1 H2 H3]. split; [|done]. split; cbn; [done| |done]. intros Hn. by destruct (H2 Hn). }
  apply good_put_away; [apply away_ok_stop, H|]. apply (good_weaken armed_ok); [apply H|done].
Qed.

Lemma good_autoaway_on_grace c : good c -> good (autoaway_on_grace c).
Proof using HW.
  intros Hc. unfold autoaway_on_grace. case_match; [done|]. apply good_autoaway_trip, good_update_away; [|done].
  intros Ha. apply away_ok_stop. by apply (away_ok_view _ (ctl_away c)).
Qed.

Lemma good_autoaway_on_idle c : good c -> good (autoaway_on_idle c).
Proof using HW.
  intros Hc. unfold autoaway_on_idle. cbv zeta. case_match; [done|].
  assert (H1 : good (update_away (fun a => (stop_timers a) <| grace_armed := true |>) c)).
  { apply good_update_away; [|done]. intros Ha. by apply (away_ok_view _ (stop_timers (ctl_away c))), away_ok_stop. }
  case_match; [by apply good_autoaway_on_grace|]. apply good_update_away; [|done]. by apply away_ok_view.
Qed.

(** The expiry that is taken, once it has left the queue. *)
Definition expire (expiry : Expiry) (armed : N) c : Controller :=
  if negb (armed =? generation (ctl_away c)) then c else match expiry with ExpiryIdle => autoaway_on_idle c | ExpiryGrace => autoaway_on_grace c end.

Lemma run_autoaway_expiry_cons c expiry armed rest :
  expiries (ctl_away c) = (expiry, armed) :: rest ->
  run_autoaway_expiry c = (expire expiry armed (update_away (fun a => a <| expiries := rest |>) c), true).
Proof using Type. intros E. unfold run_autoaway_expiry, expire. rw E. cbv zeta. by case_match. Qed.

Lemma good_expire expiry armed c : good c -> good (expire expiry armed c).
Proof using HW. intros Hc. unfold expire. case_match; [done|]. destruct expiry; [by apply good_autoaway_on_idle|by apply good_autoaway_on_grace]. Qed.

(** The end of auto-away needs nothing of the record it finds. *)
Lemma good_clear_network log c network : good c -> good (clear_network log c network).
Proof using HW. good_in clear_network. Qed.
#[local] Hint Resolve good_clear_network : good.

Lemma good_clear_networks log c : ControllerInvariants.good W (fun a => w_expiries W (expiries a)) c -> good (autoaway_clear_networks log c).
Proof using HW.
  intros Hc. unfold autoaway_clear_networks. cbv zeta. apply good_update_config; [done|]. apply (good_fold W); [intros; by apply good_clear_network|].
  apply (good_weaken (fun a => w_expiries W (expiries a))); [|destruct Hc; by split]. apply away_ok_idle; [done|apply Hc].
Qed.

Lemma good_refresh_network reason c network : good c -> good (refresh_network reason c network).
Proof using HW. good_in refresh_network. Qed.
#[local] Hint Resolve good_refresh_network : good.
Lemma good_autoaway_refresh_reason c : good c -> good (autoaway_refresh_reason c).
Proof using HW. good_in autoaway_refresh_reason. Qed.
#[local] Hint Resolve good_autoaway_refresh_reason : good.

Lemma good_autoaway_change request c c' text : good c -> autoaway_change request c = Some (c', text) -> good c'.
Proof using HW.
  intros Hc. unfold autoaway_change. cbv zeta.
  assert (Harm : forall f, (forall config, away_enabled config = true -> away_enabled (f config) = true) ->
    good (if tripped (ctl_away (update_config f c)) then update_config f c else update_away arm_idle (update_config f c))).
  { intros f Hf. pose proof (good_update_config f c Hf Hc) as H. case_match; [done|]. apply good_update_away; [apply away_ok_arm_idle|done]. }
  destruct (away_kind request); intros H; simplify_eq; try done.
  - apply good_clear_networks. pose proof (good_away _ _ _ Hc) as [_ _ Hx]. destruct Hc. by split.
  - case_match; [done|]. simplify_eq. by apply Harm.
  - apply Harm. intros config _. by case_match.
  - by apply good_update_config.
  - by apply good_update_config.
Qed.

Lemma good_note_manual_away network c : good c -> good (note_manual_away network c).
Proof using HW. intros Hc. apply good_update_away; [apply away_ok_manual|done]. Qed.
#[local] Hint Resolve good_note_manual_away : good.
Lemma good_note_away_cleared network c : good c -> good (note_away_cleared network c).
Proof using HW.
  intros Hc. unfold note_away_cleared. cbv zeta.
  assert (H : good (update_away (fun a => a <| auto_away := bs_remove network (auto_away a) |> <| manual_away := bs_remove network (manual_away a) |>) c)).
  { apply good_update_away; [apply away_ok_forget|done]. }
  case_match; [by apply good_update_config|done].
Qed.
#[local] Hint Resolve good_note_away_cleared : good.
Lemma good_unaway_after_chat network c : good c -> good (unaway_after_chat network c).
Proof using HW. good_in unaway_after_chat. Qed.
#[local] Hint Resolve good_unaway_after_chat : good.

(** A network that registers again has no hand-set mark, so it may be marked. *)
Lemma good_autoaway_on_registered network c : ControllerInvariants.good W (free_ok network) c -> good (autoaway_on_registered network c).
Proof using HW.
  intros Hc. pose proof (good_away _ _ _ Hc) as [Ha Hm]. unfold autoaway_on_registered.
  destruct (tripped (ctl_away c)) eqn:Ht, (away_enabled (away_config (ctl_away c))) eqn:He; cbn [andb]; try by apply (good_weaken (free_ok network)).
  assert (H : ControllerInvariants.good W armed_ok (autoaway_mark_session network c).1).
  { apply good_mark_session; [|done]. by apply (good_weaken (free_ok network)). }
  apply (good_weaken armed_ok); [apply H|done].
Qed.

Lemma good_on_registered network c : good c -> good (on_registered network c).
Proof using HW.
  intros Hc. cbv beta delta [on_registered]. destruct (session c network) as [s|] eqn:Es; [|done]. good_step; [good_walk|].
  lazymatch goal with |- good (match ?X with _ => _ end) => destruct X as [p times] end.
  do 3 (lazymatch goal with |- good (let x := ?X in @?B x) => refine (good_let W X B _ _); [good_walk|intros ? ?; cbv beta] end).
  lazymatch goal with |- good (let x := ?X in @?B x) => assert (H' : ControllerInvariants.good W (free_ok network) X); [|set (c' := X) in *] end.
  { apply good_fold_applied; [intros; by apply good_route_own_metadata_reply|].
    lazymatch goal with H : good ?c |- ControllerInvariants.good _ _ (before_apply _ ?c) => pose proof (good_before_apply (EvWelcome (mkWelcome network (nickname s))) c H) as Hw end.
    apply (good_weaken away_ok); [|done]. split; [apply Hw|]. cbn. apply bt_get_remove. }
  cbv zeta. apply good_apply_profile_avatar_on_connect, good_autoaway_on_registered. by apply good_append_status.
Qed.
#[local] Hint Resolve good_on_registered : good.

(** ** What pumps *)

Section Pumping.
Context (pump : Controller -> Controller) (Hpump : forall c, good c -> good (pump c)).
#[local] Hint Resolve Hpump : good.

Lemma good_autoaway_command request c : good c -> good (autoaway_command pump request c).1.
Proof using HW Hpump.
  intros Hc. cbv beta delta [autoaway_command]. good_step; [good_walk|]. cbv zeta.
  lazymatch goal with H : good ?c |- _ => destruct (autoaway_change request c) as [[c' text]|] eqn:E; [pose proof (good_autoaway_change request c c' text H E)|done] end.
  apply Hpump. set (c2 := match away_kind request with AutoawayQuery => _ | _ => _ end). assert (H2 : good c2) by (unfold c2; good_walk). good_walk.
Qed.
#[local] Hint Resolve good_autoaway_command : good.
Lemma good_note_local_activity c : good c -> good (note_local_activity pump c).
Proof using HW Hpump.
  intros Hc. cbv beta delta [note_local_activity]. good_step; [good_walk|]. cbv zeta. apply Hpump.
  lazymatch goal with H : good ?c |- _ => rename c into c1; rename H into H1 end. pose proof (good_away _ _ _ H1) as [_ _ Hx].
  set (c2 := update_away _ c1). assert (H2 : ControllerInvariants.good W (fun a => w_expiries W (expiries a)) c2) by (destruct H1; by split).
  lazymatch goal with |- good (if _ then update_away arm_idle ?X else _) => assert (H3 : good X) end.
  { destruct (is_empty (auto_away (ctl_away c2))) eqn:E; cbn [negb]; [|by apply good_clear_networks].
    assert (H : good c2) by (apply (good_weaken (fun a => w_expiries W (expiries a))); [apply away_ok_idle; [by destruct (auto_away (ctl_away c2))|apply H2]|done]).
    case_match; [by apply good_update_config|done]. }
  lazymatch goal with |- good (if ?b then _ else _) => destruct b end; [apply good_update_away; [apply away_ok_arm_idle|done]|done].
Qed.
#[local] Hint Resolve good_note_local_activity : good.
Lemma good_note_chat_sent network c : good c -> good (note_chat_sent pump network c).
Proof using HW Hpump. good_in note_chat_sent. Qed.
#[local] Hint Resolve good_note_chat_sent : good.
Lemma good_monitor_subscribe network c : good c -> good (monitor_subscribe pump network c).
Proof using HW Hpump. good_in monitor_subscribe. Qed.
#[local] Hint Resolve good_monitor_subscribe : good.
Lemma good_monitor_add network argument c : good c -> good (monitor_add pump network argument c).1.
Proof using HW Hpump. good_in monitor_add. Qed.
#[local] Hint Resolve good_monitor_add : good.
Lemma good_monitor_remove network argument c : good c -> good (monitor_remove pump network argument c).1.
Proof using HW Hpump. good_in monitor_remove. Qed.
#[local] Hint Resolve good_monitor_remove : good.
Lemma good_monitor_list network argument c : good c -> good (monitor_list pump network argument c).1.
Proof using HW Hpump. good_in monitor_list. Qed.
#[local] Hint Resolve good_monitor_list : good.
Lemma good_ask_channel_list network mask c : good c -> good (ask_channel_list pump network mask c).1.
Proof using HW Hpump. good_in ask_channel_list. Qed.
#[local] Hint Resolve good_ask_channel_list : good.
Lemma good_apply_isupport network message c : good c -> good (apply_isupport pump network message c).
Proof using HW Hpump. good_in apply_isupport. Qed.
#[local] Hint Resolve good_apply_isupport : good.
Lemma good_handle_message network message c : good c -> good (handle_message pump network message c).
Proof using HW Hpump. good_in handle_message. Qed.
#[local] Hint Resolve good_handle_message : good.
Lemma good_handle_session_event c event : good c -> good (handle_session_event pump c event).
Proof using HW Hpump. intros Hc. cbv beta delta [handle_session_event]. destruct event; good_walk. Qed.
#[local] Hint Resolve good_handle_session_event : good.

End Pumping.

Lemma good_run_while step n c : (forall c, good c -> good (step c).1) -> good c -> good (run_while step n c).1.
Proof using Type.
  intros Hs. revert c. induction n as [|n IH]; intros c Hc; cbn [run_while]; [done|].
  pose proof (Hs c Hc) as H. destruct (step c) as [c' ran]. destruct ran; [by apply IH|done].
Qed.

(** ** What the reader asks for *)

Context (fuel : nat) (Hpump : forall c, good c -> good (pump fuel c)).
Context (Hquit : forall n s reason, w_session W n s -> w_session W n (SessionDispatch.quit s reason).1).
#[local] Hint Resolve Hpump good_autoaway_command good_note_local_activity good_note_chat_sent good_monitor_subscribe good_monitor_add good_monitor_remove good_monitor_list good_ask_channel_list good_handle_session_event : good.

Lemma good_log_outcome network text c : good c -> good (log_outcome fuel network text c).
Proof using HW Hpump Hquit. good_in log_outcome. Qed.
#[local] Hint Resolve good_log_outcome : good.
Lemma good_clear_status network c : good c -> good (clear_status fuel network c).
Proof using HW Hpump Hquit. good_in clear_status. Qed.
#[local] Hint Resolve good_clear_status : good.
Lemma good_clear_conversation network target c : good c -> good (clear_conversation fuel network target c).
Proof using HW Hpump Hquit. good_in clear_conversation. Qed.
#[local] Hint Resolve good_clear_conversation : good.
Lemma good_note_accepted_send network target c : good c -> good (note_accepted_send network target c).
Proof using HW Hpump Hquit. good_in note_accepted_send. Qed.
#[local] Hint Resolve good_note_accepted_send : good.
Lemma good_refuse_send network message c : good c -> good (refuse_send network message c).1.
Proof using HW Hpump Hquit. good_in refuse_send. Qed.
#[local] Hint Resolve good_refuse_send : good.
Lemma good_echo_if_present network target body kind c : good c -> good (echo_if_present network target body kind c).
Proof using HW Hpump Hquit. good_in echo_if_present. Qed.
#[local] Hint Resolve good_echo_if_present : good.
Lemma good_ensure_quiet network target c : good c -> good (ensure_quiet network target c).
Proof using HW Hpump Hquit. good_in ensure_quiet. Qed.
#[local] Hint Resolve good_ensure_quiet : good.
Lemma good_send_now network target text kind c : good c -> good (send_now fuel network target text kind c).1.
Proof using HW Hpump Hquit. good_in send_now. Qed.
#[local] Hint Resolve good_send_now : good.
Lemma good_send_kind kind network target text c : good c -> good (send_kind fuel kind network target text c).1.
Proof using HW Hpump Hquit. good_in send_kind. Qed.
#[local] Hint Resolve good_send_kind : good.
Lemma good_join_channel_of network name c : good c -> good (join_channel_of fuel network name c).1.
Proof using HW Hpump Hquit. good_in join_channel_of. Qed.
#[local] Hint Resolve good_join_channel_of : good.
Lemma good_dispatch_quiet_send kind argument surface c : good c -> good (dispatch_quiet_send fuel kind argument surface c).1.
Proof using HW Hpump Hquit. good_in dispatch_quiet_send. Qed.
#[local] Hint Resolve good_dispatch_quiet_send : good.
Lemma good_send_selected kind text c : good c -> good (send_selected fuel kind text c).1.
Proof using HW Hpump Hquit. good_in send_selected. Qed.
#[local] Hint Resolve good_send_selected : good.
Lemma good_send_selected_message text c : good c -> good (send_selected_message fuel text c).1.
Proof using HW Hpump Hquit. apply good_send_selected. Qed.
#[local] Hint Resolve good_send_selected_message : good.
Lemma good_dispatch_action text c : good c -> good (dispatch_action fuel text c).1.
Proof using HW Hpump Hquit. apply good_send_selected. Qed.
#[local] Hint Resolve good_dispatch_action : good.
Lemma good_query_nick words surface refuses send c :
  (forall network nick destination c, good c -> good (send network nick destination c).1) -> good c -> good (query_nick words surface refuses send c).1.
Proof using HW Hpump Hquit. intros Hsend. good_in query_nick. Qed.
Lemma good_dispatch_whois words surface c : good c -> good (dispatch_whois words surface c).1.
Proof using HW Hpump Hquit. intros Hc. apply good_query_nick; [intros; good_walk|done]. Qed.
#[local] Hint Resolve good_dispatch_whois : good.
Lemma good_dispatch_ctcp query words surface c : good c -> good (dispatch_ctcp query words surface c).1.
Proof using HW Hpump Hquit. cbv beta delta [dispatch_ctcp]. good_walk. apply good_query_nick; [intros; good_walk|done]. Qed.
#[local] Hint Resolve good_dispatch_ctcp : good.
Lemma good_echo_metadata_feedback surface network text c : good c -> good (echo_metadata_feedback surface network text c).1.
Proof using HW Hpump Hquit. good_in echo_metadata_feedback. Qed.
#[local] Hint Resolve good_echo_metadata_feedback : good.
Lemma good_begin_own_metadata_dispatch  c : good c -> good (begin_own_metadata_dispatch c).
Proof using HW Hpump Hquit. good_in begin_own_metadata_dispatch. Qed.
#[local] Hint Resolve good_begin_own_metadata_dispatch : good.
Lemma good_end_own_metadata_dispatch  c : good c -> good (end_own_metadata_dispatch c).
Proof using HW Hpump Hquit. good_in end_own_metadata_dispatch. Qed.
#[local] Hint Resolve good_end_own_metadata_dispatch : good.
Lemma good_write_own_metadata network key_name kind value c : good c -> good (write_own_metadata network key_name kind value c).1.
Proof using HW Hpump Hquit. good_in write_own_metadata. Qed.
#[local] Hint Resolve good_write_own_metadata : good.
Lemma good_dispatch_own_metadata argument surface key_name c : good c -> good (dispatch_own_metadata argument surface key_name c).1.
Proof using HW Hpump Hquit. good_in dispatch_own_metadata. Qed.
#[local] Hint Resolve good_dispatch_own_metadata : good.
Lemma good_dispatch_status argument surface c : good c -> good (dispatch_status argument surface c).1.
Proof using HW Hpump Hquit. apply good_dispatch_own_metadata. Qed.
#[local] Hint Resolve good_dispatch_status : good.
Lemma good_dispatch_avatar argument surface c : good c -> good (dispatch_avatar argument surface c).1.
Proof using HW Hpump Hquit. apply good_dispatch_own_metadata. Qed.
#[local] Hint Resolve good_dispatch_avatar : good.
Lemma good_dispatch_kick network argument surface c : good c -> good (dispatch_kick network argument surface c).1.
Proof using HW Hpump Hquit. good_in dispatch_kick. Qed.
#[local] Hint Resolve good_dispatch_kick : good.
Lemma good_dispatch_kickban network argument surface c : good c -> good (dispatch_kickban network argument surface c).1.
Proof using HW Hpump Hquit. good_in dispatch_kickban. Qed.
#[local] Hint Resolve good_dispatch_kickban : good.
Lemma good_dispatch_invite network argument surface c : good c -> good (dispatch_invite network argument surface c).1.
Proof using HW Hpump Hquit. good_in dispatch_invite. Qed.
#[local] Hint Resolve good_dispatch_invite : good.
Lemma good_dispatch_mode argument surface c : good c -> good (dispatch_mode argument surface c).1.
Proof using HW Hpump Hquit. good_in dispatch_mode. Qed.
#[local] Hint Resolve good_dispatch_mode : good.
Lemma good_dispatch_channel_mode_wrapper wrapper words surface c : good c -> good (dispatch_channel_mode_wrapper wrapper words surface c).1.
Proof using HW Hpump Hquit. good_in dispatch_channel_mode_wrapper. Qed.
#[local] Hint Resolve good_dispatch_channel_mode_wrapper : good.
Lemma good_dispatch_list_mode_inquiry kind argument surface c : good c -> good (dispatch_list_mode_inquiry kind argument surface c).1.
Proof using HW Hpump Hquit. good_in dispatch_list_mode_inquiry. Qed.
#[local] Hint Resolve good_dispatch_list_mode_inquiry : good.
Lemma good_join_one network st target : good st.1 -> good (join_one network st target).1.
Proof using HW Hpump Hquit. destruct st as [c sent]. cbn [fst]. cbv beta iota delta [join_one]. good_walk. Qed.
#[local] Hint Resolve good_join_one : good.
Lemma good_open_joined_channel network name c : good c -> good (open_joined_channel network name c).
Proof using HW Hpump Hquit. good_in open_joined_channel. Qed.
#[local] Hint Resolve good_open_joined_channel : good.
Lemma good_dispatch_join network argument c : good c -> good (dispatch_join network argument c).1.
Proof using HW Hpump Hquit. good_in dispatch_join. Qed.
#[local] Hint Resolve good_dispatch_join : good.
Lemma good_part_channel network name c : good c -> good (part_channel network name c).1.
Proof using HW Hpump Hquit. good_in part_channel. Qed.
#[local] Hint Resolve good_part_channel : good.
Lemma good_dispatch_part network words surface c : good c -> good (dispatch_part network words surface c).1.
Proof using HW Hpump Hquit. good_in dispatch_part. Qed.
#[local] Hint Resolve good_dispatch_part : good.
Lemma good_dispatch_query argument surface c : good c -> good (dispatch_query fuel argument surface c).1.
Proof using HW Hpump Hquit. good_in dispatch_query. Qed.
#[local] Hint Resolve good_dispatch_query : good.
Lemma good_dispatch_service_msg service text surface c : good c -> good (dispatch_service_msg fuel service text surface c).1.
Proof using HW Hpump Hquit. good_in dispatch_service_msg. Qed.
#[local] Hint Resolve good_dispatch_service_msg : good.
Lemma good_dispatch_raw line surface c : good c -> good (dispatch_raw line surface c).1.
Proof using HW Hpump Hquit. good_in dispatch_raw. Qed.
#[local] Hint Resolve good_dispatch_raw : good.
Lemma good_dispatch_list mask surface c : good c -> good (dispatch_list fuel mask surface c).1.
Proof using HW Hpump Hquit. good_in dispatch_list. Qed.
#[local] Hint Resolve good_dispatch_list : good.
Lemma good_clear_surface surface c : good c -> good (clear_surface fuel surface c).1.
Proof using HW Hpump Hquit. good_in clear_surface. Qed.
#[local] Hint Resolve good_clear_surface : good.
Lemma good_set_selected_topic text c : good c -> good (set_selected_topic text c).1.
Proof using HW Hpump Hquit. good_in set_selected_topic. Qed.
#[local] Hint Resolve good_set_selected_topic : good.

Lemma good_dispatch_store edit surface c :
  (forall network c, good c -> good (edit network c).1) -> good c -> good (dispatch_store fuel edit surface c).1.
Proof using HW Hpump Hquit. intros Hedit. good_in dispatch_store. Qed.
Lemma good_changed_line change yes no : good change.1 -> good (changed_line change yes no).1.
Proof using Type. unfold changed_line. by destruct change. Qed.
#[local] Hint Resolve good_changed_line : good.
Lemma good_dispatch_ignore verb argument surface c : good c -> good (dispatch_ignore fuel verb argument surface c).1.
Proof using HW Hpump Hquit. unfold dispatch_ignore. intros Hc. apply good_dispatch_store; [|done]. intros network c1 Hc1. cbv beta zeta. destruct verb; good_walk. Qed.
#[local] Hint Resolve good_dispatch_ignore : good.
Lemma good_dispatch_mute verb argument surface c : good c -> good (dispatch_mute fuel verb argument surface c).1.
Proof using HW Hpump Hquit. unfold dispatch_mute. intros Hc. apply good_dispatch_store; [|done]. intros network c1 Hc1. cbv beta zeta. destruct verb; good_walk. Qed.
#[local] Hint Resolve good_dispatch_mute : good.
Lemma good_dispatch_highlight verb argument surface c : good c -> good (dispatch_highlight fuel verb argument surface c).1.
Proof using HW Hpump Hquit. unfold dispatch_highlight. intros Hc. apply good_dispatch_store; [|done]. intros network c1 Hc1. cbv beta zeta. destruct verb; good_walk. Qed.
#[local] Hint Resolve good_dispatch_highlight : good.
Lemma good_dispatch_monitor verb argument surface c : good c -> good (dispatch_monitor fuel verb argument surface c).1.
Proof using HW Hpump Hquit. good_in dispatch_monitor. Qed.
#[local] Hint Resolve good_dispatch_monitor : good.
Lemma good_echo_in_surface surface text c : good c -> good (echo_in_surface fuel surface text c).1.
Proof using HW Hpump Hquit. good_in echo_in_surface. Qed.
#[local] Hint Resolve good_echo_in_surface : good.
Lemma good_dispatch_help surface c : good c -> good (dispatch_help fuel surface c).1.
Proof using HW Hpump Hquit. good_in dispatch_help. Qed.
#[local] Hint Resolve good_dispatch_help : good.
Lemma good_dispatch_autoaway argument surface c : good c -> good (dispatch_autoaway fuel argument surface c).1.
Proof using HW Hpump Hquit. good_in dispatch_autoaway. Qed.
#[local] Hint Resolve good_dispatch_autoaway : good.
Lemma good_after_preference_change name c : good c -> good (after_preference_change name c).
Proof using HW Hpump Hquit. good_in after_preference_change. Qed.
#[local] Hint Resolve good_after_preference_change : good.
Lemma good_preference_changed name c : good c -> good (preference_changed name c).
Proof using HW Hpump Hquit. good_in preference_changed. Qed.
#[local] Hint Resolve good_preference_changed : good.
Lemma good_set_preference name value c : good c -> good (set_preference name value c).1.
Proof using HW Hpump Hquit. good_in set_preference. Qed.
#[local] Hint Resolve good_set_preference : good.
Lemma good_echo_pref_feedback surface text c : good c -> good (echo_pref_feedback fuel surface text c).
Proof using HW Hpump Hquit. good_in echo_pref_feedback. Qed.
#[local] Hint Resolve good_echo_pref_feedback : good.
Lemma good_dispatch_pref request surface c : good c -> good (dispatch_pref fuel request surface c).1.
Proof using HW Hpump Hquit. good_in dispatch_pref. Qed.
#[local] Hint Resolve good_dispatch_pref : good.
Lemma good_disconnect_with_reason network reason c : good c -> good (disconnect_with_reason fuel network reason c).1.
Proof using HW Hpump Hquit. good_in disconnect_with_reason. Qed.
#[local] Hint Resolve good_disconnect_with_reason : good.
Lemma good_away_verb network reason c : good c -> good (away_verb network reason c).1.
Proof using HW Hpump Hquit. good_in away_verb. Qed.
#[local] Hint Resolve good_away_verb : good.
Lemma good_dispatch_wire command surface c : good c -> good (dispatch_wire fuel command surface c).1.
Proof using HW Hpump Hquit. intros Hc. cbv beta delta [dispatch_wire]. destruct (session_for c surface) as [network|]; [|done]. cbv zeta. destruct (_ && _); [done|]. destruct command; good_walk. Qed.
#[local] Hint Resolve good_dispatch_wire : good.
Lemma good_dispatch_command surface command c : good c -> good (dispatch_command fuel surface command c).1.
Proof using HW Hpump Hquit. intros Hc. cbv beta zeta delta [dispatch_command]. destruct command; try done; (destruct (negb _); [done|]); good_walk. Qed.
#[local] Hint Resolve good_dispatch_command : good.
Lemma good_dispatch surface command c : good c -> good (dispatch fuel surface command c).1.
Proof using HW Hpump Hquit. good_in dispatch. Qed.
#[local] Hint Resolve good_dispatch : good.
Lemma good_report outcome command surface c : good c -> good (report outcome command surface c).1.
Proof using HW Hpump Hquit. good_in report. Qed.
#[local] Hint Resolve good_report : good.
Lemma good_submit surface text c : good c -> good (submit fuel surface text c).1.
Proof using HW Hpump Hquit. intros Hc. cbv beta delta [submit]. destruct (parse_command text); good_walk. Qed.
#[local] Hint Resolve good_submit : good.
Lemma good_select_conversation network target c : good c -> good (select_conversation fuel network target c).
Proof using HW Hpump Hquit. good_in select_conversation. Qed.
#[local] Hint Resolve good_select_conversation : good.
Lemma good_reveal_conversation network target c : good c -> good (reveal_conversation fuel network target c).
Proof using HW Hpump Hquit. good_in reveal_conversation. apply good_queue, good_put_inbox; [apply inbox_fits_consume, (good_inbox W away_ok); good_walk|good_walk]. Qed.
#[local] Hint Resolve good_reveal_conversation : good.
Lemma good_open_status network c : good c -> good (open_status fuel network c).
Proof using HW Hpump Hquit. good_in open_status. Qed.
#[local] Hint Resolve good_open_status : good.
Lemma good_leave_status  c : good c -> good (leave_status fuel c).
Proof using HW Hpump Hquit. good_in leave_status. Qed.
#[local] Hint Resolve good_leave_status : good.
Lemma good_open_direct nick c : good c -> good (open_direct fuel nick c).1.
Proof using HW Hpump Hquit. good_in open_direct. Qed.
#[local] Hint Resolve good_open_direct : good.
Lemma good_close_direct  c : good c -> good (close_direct fuel c).1.
Proof using HW Hpump Hquit. good_in close_direct. Qed.
#[local] Hint Resolve good_close_direct : good.
Lemma good_close_conversation network target c : good c -> good (close_conversation fuel network target c).1.
Proof using HW Hpump Hquit. good_in close_conversation. Qed.
#[local] Hint Resolve good_close_conversation : good.
Lemma good_join_selected_channel  c : good c -> good (join_selected_channel fuel c).1.
Proof using HW Hpump Hquit. good_in join_selected_channel. Qed.
#[local] Hint Resolve good_join_selected_channel : good.
Lemma good_mark_everything_read  c : good c -> good (mark_everything_read fuel c).
Proof using HW Hpump Hquit. good_in mark_everything_read. Qed.
#[local] Hint Resolve good_mark_everything_read : good.
Lemma good_set_active active c : good c -> good (set_active fuel active c).
Proof using HW Hpump Hquit. good_in set_active. Qed.
#[local] Hint Resolve good_set_active : good.
Lemma good_request_older_transcript_history  c : good c -> good (request_older_transcript_history c).1.
Proof using HW Hpump Hquit. good_in request_older_transcript_history. Qed.
#[local] Hint Resolve good_request_older_transcript_history : good.
Lemma good_composer_edited network target text c : good c -> good (composer_edited fuel network target text c).
Proof using HW Hpump Hquit. good_in composer_edited. Qed.
#[local] Hint Resolve good_composer_edited : good.
Lemma good_take_inbox_item index c : good c -> good (take_inbox_item fuel index c).1.
Proof using HW Hpump Hquit. good_in take_inbox_item. Qed.
#[local] Hint Resolve good_take_inbox_item : good.

(** ** The networks the reader keeps *)

Context (Hstart : forall n s, w_session W n s -> w_session W n (start s)).
Context (Hstop : forall n s, w_session W n s -> w_session W n (stop s)).
Context (Hwake : forall n s, w_session W n s -> w_session W n (begin_reconnect_attempt s)).
Context (Hnew : forall n config policies, w_session W n (new_core config policies)).

(** Which networks wait may change by what is asked of them. *)
Abbreviation waits := (base_waiting (Baseline := w_base W)).
Context (Hdrop : forall n w, waits w -> waits (bs_remove n w)).

Lemma good_stop_session c network : good c -> good (stop_session c network).
Proof using HW Hstop. good_in stop_session. Qed.
Lemma good_shutdown c : good c -> good (shutdown c).
Proof using HW Hstop. intros Hc. unfold shutdown. apply good_fold; [|done]. intros. by apply good_stop_session. Qed.
Lemma good_wake_session c network : good c -> good (wake_session c network).
Proof using HW Hwake. good_in wake_session. Qed.
Lemma good_notify_network_reachable c : good c -> good (notify_network_reachable fuel c).
Proof using HW Hwake Hpump. intros Hc. unfold notify_network_reachable. apply Hpump, good_fold; [|done]. intros. by apply good_wake_session. Qed.
Lemma good_activate_session network c : good c -> good (activate_session network c).1.
Proof using HW Hstart. good_in activate_session. Qed.
Lemma good_discard_session network c : good c -> good (discard_session network c).
Proof using HW Hstop. good_in discard_session. Qed.
Lemma good_create_session config c : good c -> good (create_session config c).1.
Proof using HW Hnew. good_in create_session. Qed.
#[local] Hint Resolve good_stop_session good_wake_session good_activate_session good_discard_session good_create_session : good.

Lemma good_refuse_with network message c : good c -> good (refuse_with network message c).
Proof using HW. good_in refuse_with. Qed.
#[local] Hint Resolve good_refuse_with : good.
Lemma good_refuse_start network c : good c -> good (refuse_start network c).
Proof using HW. good_in refuse_start. Qed.
#[local] Hint Resolve good_refuse_start : good.

Lemma good_applied_session_for p c : good c -> good (applied_session_for p c).1.
Proof using HW. good_in applied_session_for. Qed.
Lemma good_session_config p c : good c -> good (session_config p c).1.
Proof using HW. good_in session_config. Qed.
#[local] Hint Resolve good_applied_session_for good_session_config : good.
Lemma good_register_session c p : good c -> good (register_session c p).
Proof using HW Hnew. good_in register_session. Qed.
#[local] Hint Resolve good_register_session : good.
Lemma good_drop_session network c : good c -> good (drop_session network c).
Proof using HW Hstop. good_in drop_session. Qed.
#[local] Hint Resolve good_drop_session : good.
Lemma good_rebuild_session network p candidate c : good c -> good (rebuild_session network p candidate c).1.
Proof using HW Hnew Hstop. good_in rebuild_session. Qed.
#[local] Hint Resolve good_rebuild_session : good.

Lemma good_register_named c network : good c -> good (register_named c network).
Proof using HW Hnew. good_in register_named. Qed.
#[local] Hint Resolve good_register_named : good.
Lemma good_register_waiting c network : good c -> good (register_waiting c network).
Proof using HW Hnew. good_in register_waiting. Qed.
#[local] Hint Resolve good_register_waiting : good.

Lemma kept_ready {X} (profile_of : X -> option Profile) l v kept : keeps (fun _ => False) v (foldl (keep_ready profile_of) (v, kept) l).1.
Proof using Type.
  revert v kept. induction l as [|x l IH]; intros v kept; [done|]. cbn [foldl]. unfold keep_ready at 2. destruct (profile_of x) as [p|]; [|apply IH].
  unfold secrets_ready. cbn [fst snd]. destruct (profile_credentials_loading v p); [apply IH|]. pose proof (keeps_allowed (fun _ => False) v p) as H1. destruct (startup_connect_allowed v p) as [v' ready].
  cbn [fst] in H1. etrans; [exact H1|apply IH].
Qed.
Lemma good_ready_of {X} (profile_of : X -> option Profile) l c : good c -> good (ready_of profile_of l c).1.
Proof using HW. intros Hc. unfold ready_of. apply good_on_vault; [|done]. intros v. apply kept_ready. Qed.
#[local] Hint Resolve good_ready_of : good.
Lemma good_poll_and_register c : good c -> good (poll_and_register c).
Proof using HW Hnew Hdrop. good_in poll_and_register. Qed.

(** A start that has to wait says so of its own network only. *)
Lemma good_start_complete network p c : (forall w, waits w -> waits (bs_insert network w)) -> good c -> good (start_complete network p c).1.
Proof using HW Hnew Hstop Hstart. intros Hin. good_in start_complete. Qed.
#[local] Hint Resolve good_start_complete : good.
Lemma good_start_profile network c : (forall w, waits w -> waits (bs_insert network w)) -> good c -> good (start_profile network c).1.
Proof using HW Hnew Hstop Hstart. intros Hin. good_in start_profile. Qed.
#[local] Hint Resolve good_start_profile : good.
Lemma good_start_with poll network c :
  (forall w, waits w -> waits (bs_insert network w)) -> (forall c, good c -> good (poll c)) -> good c -> good (start_with fuel poll network c).1.
Proof using HW Hnew Hstop Hstart Hpump. intros Hin Hpoll. good_in start_with. Qed.
#[local] Hint Resolve good_start_with : good.
Lemma good_start_waiting poll c network :
  (forall w, waits w -> waits (bs_insert network w)) -> (forall c, good c -> good (poll c)) -> good c -> good (start_waiting fuel poll c network).
Proof using HW Hnew Hstop Hstart Hpump Hdrop. intros Hin Hpoll. good_in start_waiting. Qed.

Context (Hagain : forall n w w', waits w -> n ∈ bs_elements w -> waits w' -> waits (bs_insert n w')).

Lemma good_poll_at depth c : good c -> good (poll_at fuel depth c).
Proof using HW Hnew Hstop Hstart Hpump Hdrop Hagain.
  revert c. induction depth as [|depth IH]; intros c Hc; [done|]. cbn [poll_at]. apply good_poll_and_register in Hc. cbv zeta.
  generalize dependent (poll_and_register c). clear c. intros c Hc. pose proof (good_waiting _ _ _ Hc) as Hw.
  apply (foldl_invariant (start_waiting fuel (poll_at fuel depth)) good); [|done]. intros c' network Hin Hc'. apply good_start_waiting; [|done|done].
  intros w. exact (Hagain network _ w Hw Hin).
Qed.
Lemma good_poll_credential_reads c : good c -> good (poll_credential_reads fuel c).
Proof using HW Hnew Hstop Hstart Hpump Hdrop Hagain. apply good_poll_at. Qed.
#[local] Hint Resolve good_poll_credential_reads : good.
Lemma good_start_network network c : (forall w, waits w -> waits (bs_insert network w)) -> good c -> good (start_network fuel network c).1.
Proof using HW Hnew Hstop Hstart Hpump Hdrop Hagain. intros Hin. good_in start_network. Qed.
#[local] Hint Resolve good_start_network : good.
Lemma good_start_at_startup st network : (forall w, waits w -> waits (bs_insert network w)) -> good st.1 -> good (start_at_startup fuel st network).1.
Proof using HW Hnew Hstop Hstart Hpump Hdrop Hagain. intros Hin Hc. destruct st as [c n]. cbn [fst] in Hc. cbv beta delta [start_at_startup]. good_walk. Qed.
Lemma good_activate_startup c : (forall n w, waits w -> waits (bs_insert n w)) -> good c -> good (activate_startup fuel c).1.
Proof using HW Hnew Hstop Hstart Hpump Hdrop Hagain.
  intros Hin Hc. unfold activate_startup. cbv zeta. apply good_fold_fst; [intros; by apply good_start_at_startup; [apply Hin|]|]. cbn [fst]. by apply good_poll_credential_reads.
Qed.

Lemma good_connect_session config c : good c -> good (connect_session fuel config c).1.
Proof using HW Hnew Hstop Hstart Hpump. good_in connect_session. Qed.

Lemma good_save_network p edits c : (forall table, base_profiles (Baseline := w_base W) table) -> good c -> good (save_network p edits c).1.
Proof using HW.
  intros Hany Hc. unfold save_network. pose proof (save_orphans (ctl_profiles c) p edits (ctl_vault c)) as H.
  assert (Hid : profile_id (save_secrets (bt_get (profile_id p) (ctl_profiles c)) p edits (ctl_vault c)).1.2 = profile_id p).
  { unfold save_secrets. destruct (store_secret _ p PURPOSE_PASSWORD _ _) as [v1 s1]. by destruct (store_secret _ p PURPOSE_NICKSERV _ v1). }
  destruct (save_secrets _ _ _ _) as [[v p'] states]. cbn [fst snd] in Hid.
  unfold on_file. destruct (save_profile _ _) as [file status]. cbn [fst]. apply good_queue. destruct Hc as [Hs Hr Hi Hcon Hl Hv Ha Hq Hf Ho Hw Hpr]. split; try done.
  intros k Hk. apply Ho, H. cbn in Hk. by rw Hid in Hk.
Qed.
Lemma unsaved_keys purpose p purpose' : key_for_profile (unsaved purpose p) purpose' = key_for_profile p purpose'.
Proof using Type. unfold unsaved. by repeat case_match. Qed.
Lemma good_forget_secret network purpose c : good c -> good (forget_secret network purpose c).1.
Proof using HW.
  intros Hc. unfold forget_secret. destruct (bt_get network (ctl_profiles c)) as [p|] eqn:Ep; [|done].
  assert (H : good (on_vault (forget_slot p purpose) c).1) by (apply good_on_vault; [intros v; apply keeps_forget_slot|done]).
  assert (Hp : ctl_profiles (on_vault (forget_slot p purpose) c).1 = ctl_profiles c) by (unfold on_vault; by destruct (forget_slot p purpose (ctl_vault c))).
  destruct (on_vault _ c) as [c' state]. cbn [fst] in *. destruct state; try done. cbn [fst]. cbv zeta.
  apply (good_put_profile W network p); [|intros purpose'; apply unsaved_keys|by apply good_save_to_file]. unfold save_to_file, on_file. destruct (save_profile _ _). cbn. by rw Hp.
Qed.

Lemma good_persist_network_order c : good c -> good (persist_network_order c).
Proof using HW. good_in persist_network_order. Qed.
Lemma good_persist_collapsed_networks c : good c -> good (persist_collapsed_networks c).
Proof using HW. good_in persist_collapsed_networks. Qed.
#[local] Hint Resolve good_persist_network_order good_persist_collapsed_networks : good.
Lemma good_set_network_order order c : good c -> good (set_network_order order c).
Proof using HW. good_in set_network_order. Qed.
#[local] Hint Resolve good_set_network_order : good.
Lemma good_set_network_collapsed network collapsed c : good c -> good (set_network_collapsed network collapsed c).
Proof using HW. good_in set_network_collapsed. Qed.
Lemma good_set_all_networks_collapsed collapsed c : good c -> good (set_all_networks_collapsed collapsed c).
Proof using HW. good_in set_all_networks_collapsed. Qed.
Lemma good_move_network network delta c : good c -> good (move_network network delta c).1.
Proof using HW. good_in move_network. Qed.

Lemma good_leave_network network c : good c -> good (leave_network fuel network c).
Proof using HW Hpump Hquit. good_in leave_network. Qed.
Lemma good_forget_state network order c : good c -> good (forget_state network order c).
Proof using HW. good_in forget_state. Qed.
Lemma good_leave_window network c : good c -> good (leave_window network c).
Proof using HW. good_in leave_window. Qed.
#[local] Hint Resolve good_leave_network good_forget_state good_leave_window : good.

Lemma good_finish_remove_profile network p c :
  (forall table, base_profiles (Baseline := w_base W) table) -> (exists q, bt_get network (ctl_profiles c) = Some q /\ same_keys q p) ->
  good c -> good (finish_remove_profile network (Some p) c).
Proof using HW.
  intros Hany (q & Hq0 & Hkeys) [Hs Hr Hi Hcon Hl Hv Ha Hq Hf Ho Hw Hpr]. unfold finish_remove_profile. cbv zeta. split; try done. cbn. intros k Hk. apply Ho.
  apply (forget_orphans _ network). rw Hq0. unfold forget_secrets, queue_slot_removals in *. by rw !Hkeys in Hk.
Qed.
End Whole.

(** ** What the controller's requests put in a session's queue *)

(** An event whose handler writes to no session. *)
Definition low_event (e : SessionEvent) : bool := match e with Outbound _ _ _ _ => true | _ => false end.
Definition low_events (s : Core) : Prop := Forall (fun e => low_event e = true) (events s).

Section Low.
Context `{platform : Platform} `{crypto : Crypto} `{policy : SecretPolicy}.
Implicit Types s : Core.

Lemma low_view s s' : events s' = events s -> low_events s -> low_events s'.
Proof using Type. unfold low_events. by intros ->. Qed.
Lemma low_let (X : Core) (body : Core -> Core) : low_events X -> (forall s, low_events s -> low_events (body s)) -> low_events (let s := X in body s).
Proof using Type. intros. cbv zeta. auto. Qed.
Lemma low_let_fst {A} (X : Core) (body : Core -> Core * A) :
  low_events X -> (forall s, low_events s -> low_events (body s).1) -> low_events (let s := X in body s).1.
Proof using Type. intros. cbv zeta. auto. Qed.
Lemma low_pair {A} (X : Core * A) (body : Core -> A -> Core) : low_events X.1 -> (forall s a, low_events s -> low_events (body s a)) -> low_events (let '(s, a) := X in body s a).
Proof using Type. destruct X. cbn. auto. Qed.
Lemma low_pair_fst {A B} (X : Core * A) (body : Core -> A -> Core * B) :
  low_events X.1 -> (forall s a, low_events s -> low_events (body s a).1) -> low_events (let '(s, a) := X in body s a).1.
Proof using Type. destruct X. cbn. auto. Qed.

Ltac low_step :=
  lazymatch goal with
  | |- low_events (let x := ?X in @?B x) =>
      lazymatch type of X with
      | Core => refine (low_let X B _ _); [|let s := fresh "s" in intros s ?; cbv beta]
      | _ => change (low_events (B X)); cbv beta
      end
  | |- low_events (fst (let x := ?X in @?B x)) =>
      lazymatch type of X with
      | Core => refine (low_let_fst X B _ _); [|let s := fresh "s" in intros s ?; cbv beta]
      | _ => change (low_events (fst (B X))); cbv beta
      end
  | |- low_events (fst (let '(x, y) := ?X in @?B x y)) =>
      lazymatch type of X with
      | (Core * _)%type => refine (low_pair_fst X B _ _); [|let s := fresh "s" in intros s ? ?; cbv beta]
      | _ => destruct X
      end
  | |- low_events (let '(x, y) := ?X in @?B x y) =>
      lazymatch type of X with
      | (Core * _)%type => refine (low_pair X B _ _); [|let s := fresh "s" in intros s ? ?; cbv beta]
      | _ => destruct X
      end
  | |- low_events (match ?X with _ => _ end) => destruct X
  | |- low_events (fst (match ?X with _ => _ end)) => destruct X
  | |- low_events (fst (?x, _)) => change (low_events x)
  | |- low_events (@update _ ?T ?proj ?upd ?f ?s) =>
      let H := fresh in
      assert (H : forall s0, events (@update Core T proj upd f s0) = events s0) by reflexivity; apply (low_view s _ (H s)); clear H
  end.
Ltac low_walk := intros; repeat first [assumption | low_step | solve [auto with low nocore]].
Tactic Notation "low_in" reference(f) := cbv beta delta [f]; low_walk.

Create HintDb low discriminated.
#[local] Hint Constants Opaque : low.

Lemma low_push s e : low_events s -> low_events (push_effect s e).
Proof using Type. low_in push_effect. Qed.
#[local] Hint Resolve low_push : low.
Lemma low_send_line s l : low_events s -> low_events (send_line s l).
Proof using Type. intros Hs. unfold send_line. case_match; [done|]. apply low_push. unfold low_events, emit. cbn. apply Forall_app. split; [done|]. by repeat constructor. Qed.
#[local] Hint Resolve low_send_line : low.
Lemma low_send_command s command label : low_events s -> low_events (send_command s command label).1.
Proof using Type. low_in send_command. Qed.
#[local] Hint Resolve low_send_command : low.
Lemma low_send_chunks s prefix suffix label chunks : low_events s -> low_events (send_chunks s prefix suffix label chunks).1.
Proof using Type. revert s. induction chunks as [|chunk chunks IH]; intros s Hs; cbn [send_chunks]; [done|]. low_walk. Qed.
#[local] Hint Resolve low_send_chunks : low.
Lemma low_send_trailing_body s prefix body suffix label : low_events s -> low_events (send_trailing_body s prefix body suffix label).1.
Proof using Type. low_in send_trailing_body. Qed.
#[local] Hint Resolve low_send_trailing_body : low.
Lemma low_cancel_timer s slot : low_events s -> low_events (cancel_timer s slot).
Proof using Type. low_in cancel_timer. Qed.
#[local] Hint Resolve low_cancel_timer : low.
Lemma low_arm_timer s slot delay : low_events s -> low_events (arm_timer s slot delay).
Proof using Type. low_in arm_timer. Qed.
#[local] Hint Resolve low_arm_timer : low.
Lemma low_arm_label_timer s : low_events s -> low_events (arm_label_timer s).
Proof using Type. low_in arm_label_timer. Qed.
#[local] Hint Resolve low_arm_label_timer : low.
Lemma low_update_markers f s : low_events s -> low_events (update_markers f s).
Proof using Type. low_in update_markers. Qed.
#[local] Hint Resolve low_update_markers : low.
Lemma low_flush_read_marker_set s folded : low_events s -> low_events (flush_read_marker_set s folded).
Proof using Type. low_in flush_read_marker_set. Qed.
#[local] Hint Resolve low_flush_read_marker_set : low.
Lemma low_update_history f s : low_events s -> low_events (update_history f s).
Proof using Type. low_in update_history. Qed.
#[local] Hint Resolve low_update_history : low.
Lemma low_send_history_page s kind verb target cursor : low_events s -> low_events (send_history_page s kind verb target cursor).1.
Proof using Type. low_in send_history_page. Qed.
#[local] Hint Resolve low_send_history_page : low.
Lemma low_send_channel_mode s request : low_events s -> low_events (send_channel_mode s request).1.
Proof using Type. low_in send_channel_mode. Qed.
#[local] Hint Resolve low_send_channel_mode : low.
Lemma low_monitor_loop s mark batch nicks : low_events s -> low_events (monitor_loop s mark batch nicks).1.
Proof using Type. revert s batch. induction nicks as [|nick nicks IH]; intros s batch Hs; cbn [monitor_loop]; [done|]. low_walk. Qed.
#[local] Hint Resolve low_monitor_loop : low.
Lemma low_note_message_sent s target : low_events s -> low_events (note_message_sent s target).
Proof using Type. low_in note_message_sent. Qed.
#[local] Hint Resolve low_note_message_sent : low.
Lemma low_begin_label s : low_events s -> low_events (begin_labeled_request s).1.
Proof using Type. low_in begin_labeled_request. Qed.
#[local] Hint Resolve low_begin_label : low.

(** A request of the controller queues the lines it writes, and nothing else. *)
#[export] Instance low_ops : SessionOps (fun _ => low_events).
Proof using Type.
  split; intros n.
  - intros s s' E. apply low_view. unfold loud in E. congruence.
  - low_in drop_request_label.
  - low_in send_typing.
  - low_in request_read_marker_get.
  - low_in queue_read_marker_set.
  - low_in mark_away.
  - low_in set_away_locked.
  - low_in send_monitor_locked.
  - low_in list_channels.
  - low_in set_own_metadata.
  - low_in start_labeled_request.
  - low_in whois.
  - low_in send_ctcp.
  - low_in SessionOutbound.part.
  - low_in join_locked.
  - low_in SessionOutbound.kick.
  - cbv beta delta [SessionOutbound.kickban]. low_walk. low_in SessionOutbound.kick.
  - low_in SessionOutbound.invite.
  - low_in send_channel_mode.
  - apply low_send_command.
  - low_in SessionOutbound.set_topic.
  - low_in change_nick.
  - low_in request_older_history.
  - cbv beta delta [request_history_after send_history_after]. low_walk.
  - low_in request_history_latest.
  - low_in request_history_targets.
  - low_in send_privmsg_locked.
  - low_in send_action.
  - low_in send_notice.
Qed.
End Low.

(** ** How a pump ends

    Handling an event asks sessions for lines only, and the record of a line asks for nothing.
    So the first round leaves written lines alone, the second leaves nothing, and the third
    finds nothing. *)

Section Worlds.
Context `{base : Baseline}.

(** What holds inside a pump whose expiries have run: what a session keeps, and [Q] of each. *)
Definition pump_world (PS : Core -> Prop) (Q : str -> Core -> Prop) : World :=
  mkWorld (fun network s => PS s /\ Q network s) (fun waiting => waiting = []) (fun waiting => waiting = []) (fun pumping => pumping = true) base.
(** What holds when a pump begins: the expiries may wait. *)
Definition begun_world (PS : Core -> Prop) (E : list AwayTimer -> Prop) : World := mkWorld (fun _ => PS) E (fun _ => True) (fun pumping => pumping = true) base.
(** What holds between pumps. *)
Definition resting_world (PS : Core -> Prop) : World := mkWorld (fun _ => PS) (fun _ => True) (fun _ => True) (fun pumping => pumping = false) base.
End Worlds.

Abbreviation good_in_world W := (good W (away_ok (w_expiries W))).

Section Settling.
Context `{platform : Platform} `{client_log : ClientLog} `{json : TimesJson} `{secrets : CredentialStore} `{chain_laws : !StoreLaws secrets} `{crypto : Crypto} `{crate : UrlCrate} `{policy : SecretPolicy}.
Context {PS : Core -> Prop} {HPS : SessionKept PS} `{base : Baseline}.
Implicit Types (c : Controller).

(** Another world whose sessions, expiries and flag the state satisfies. *)
Lemma good_world W W' c :
  w_base W' = w_base W -> good_in_world W c -> (forall network s, bt_get network (ctl_manager c) = Some s -> w_session W network s -> w_session W' network s) ->
  w_expiries W' (expiries (ctl_away c)) -> w_queue W' (list_expiries (ctl_lists c)) -> w_pumping W' (ctl_pumping c) -> good_in_world W' c.
Proof using Type.
  intros Hb [Hs Hr Hi Hc Hl Hv Ha Hq Hf Ho Hw Hpr] Hs' He Hq' Hf'. split; rw ?Hb; try done.
  - intros network s E. exact (Hs' network s E (Hs network s E)).
  - destruct Ha as [H1 H2 _]. by split.
Qed.

(** The field of [H] that a goal is an instance of. *)
Ltac kept_op H n :=
  first [eapply (so_quiet (SessionOps := H) n); eassumption
    | apply (so_drop_label (SessionOps := H) n); assumption | apply (so_typing (SessionOps := H) n); assumption | apply (so_marker_get (SessionOps := H) n); assumption
    | apply (so_marker_set (SessionOps := H) n); assumption | apply (so_mark_away (SessionOps := H) n); assumption | apply (so_set_away (SessionOps := H) n); assumption
    | apply (so_monitor (SessionOps := H) n); assumption | apply (so_list (SessionOps := H) n); assumption | apply (so_metadata (SessionOps := H) n); assumption
    | apply (so_label (SessionOps := H) n); assumption | apply (so_whois (SessionOps := H) n); assumption | apply (so_ctcp (SessionOps := H) n); assumption
    | apply (so_part (SessionOps := H) n); assumption | apply (so_join (SessionOps := H) n); assumption | apply (so_kick (SessionOps := H) n); assumption
    | apply (so_kickban (SessionOps := H) n); assumption | apply (so_invite (SessionOps := H) n); assumption | apply (so_mode (SessionOps := H) n); assumption
    | apply (so_command (SessionOps := H) n); assumption | apply (so_topic (SessionOps := H) n); assumption | apply (so_nick (SessionOps := H) n); assumption
    | apply (so_older (SessionOps := H) n); assumption | apply (so_after (SessionOps := H) n); assumption | apply (so_latest (SessionOps := H) n); assumption
    | apply (so_targets (SessionOps := H) n); assumption | apply (so_privmsg (SessionOps := H) n); assumption | apply (so_action (SessionOps := H) n); assumption
    | apply (so_notice (SessionOps := H) n); assumption].

(** What is asked of a session that is left alone is kept by the requests when [R] is. *)
Lemma pump_ops (R : Core -> Prop) (I D : str -> Prop) : SessionOps (fun _ => R) -> SessionOps (w_session (pump_world PS (fun network s => I network /\ (D network -> R s)))).
Proof using HPS.
  intros HR. pose proof (kept_ops PS) as HP.
  split; intros n; intros;
    (lazymatch goal with H : w_session _ _ _ |- _ => destruct H as (Hs & Hi & Hd) end); (split; [kept_op HP n|split; [exact Hi|]; intros HD; specialize (Hd HD); kept_op HR n]).
Qed.

(** *** The expiries that wait when a pump begins *)

Lemma away_queue_runs n c :
  (length (expiries (ctl_away c)) < n)%nat -> good_in_world (begun_world PS (fun _ => True)) c ->
  good_in_world (begun_world PS (fun waiting => waiting = [])) (run_while run_autoaway_expiry n c).1.
Proof using HPS.
  revert c. induction n as [|n IH]; intros c Hn Hc; [lia|]. cbn [run_while].
  destruct (expiries (ctl_away c)) as [|[expiry armed] rest] eqn:E.
  - assert (Hr : run_autoaway_expiry c = (c, false)) by (unfold run_autoaway_expiry; by rw E). rw Hr. cbn [fst]. apply (good_world (begun_world PS (fun _ => True))); [done|done|done|done|done|apply Hc].
  - rw (run_autoaway_expiry_cons c expiry armed rest E). cbn [fst].
    assert (H : good_in_world (begun_world PS (fun waiting => waiting = rest)) (expire expiry armed (update_away (fun a => a <| expiries := rest |>) c))).
    { apply good_expire. destruct Hc as [? ? ? ? ? ? [? ? ?] ? ? ? ? ?]. by split. }
    apply IH; [|apply (good_world (begun_world PS (fun waiting => waiting = rest))); [done|done|done|done|done|apply H]].
    destruct (good_away _ _ _ H) as [_ _ Hx]. cbn in Hx. rw Hx. cbn in Hn. lia.
Qed.

Lemma run_list_expiry_queue c :
  let remaining := list_expiries (ctl_lists (run_channel_list_expiry c).1) in
  if (run_channel_list_expiry c).2 then (length remaining < length (list_expiries (ctl_lists c)))%nat else remaining = [].
Proof using Type.
  unfold run_channel_list_expiry, take_expiry.
  assert (H : match take_expiries (list_expiries (ctl_lists c)) (list_timers (ctl_lists c)) with
    | (remaining, Some _) => (length remaining < length (list_expiries (ctl_lists c)))%nat | (remaining, None) => remaining = [] end).
  { induction (list_expiries (ctl_lists c)) as [|[n g] queue IH]; [done|]. cbn [take_expiries]. case_bool_decide; [cbn; lia|].
    destruct (take_expiries _ _) as [remaining [network|]]; [cbn; lia|done]. }
  destruct (take_expiries _ _) as [remaining [network|]]; [|exact H]. unfold fail_channel_list. cbn [ctl_lists update].
  lazymatch goal with |- context [list_fail network ?t true ?r] => pose proof (expiries_fail network t true r) as Ef; destruct (list_fail network t true r) as [lists failed] end.
  cbn [fst] in Ef. cbn [snd]. destruct failed; cbn [negb fst]; [case_match|]; cbn; by rw Ef.
Qed.

Lemma list_queue_runs n c :
  (length (list_expiries (ctl_lists c)) < n)%nat -> good_in_world (begun_world PS (fun waiting => waiting = [])) c ->
  good_in_world (pump_world PS (fun _ _ => True)) (run_while run_channel_list_expiry n c).1.
Proof using HPS.
  revert c. induction n as [|n IH]; intros c Hn Hc; [lia|]. cbn [run_while]. pose proof (run_list_expiry_queue c) as Hq.
  assert (H : good_in_world (begun_world PS (fun waiting => waiting = [])) (run_channel_list_expiry c).1) by (by apply good_run_channel_list_expiry).
  destruct (run_channel_list_expiry c) as [c' ran]. cbn [fst snd] in *. cbv zeta in Hq. destruct ran; cbn [fst]; [apply IH; [lia|done]|].
  apply (good_world (begun_world PS (fun waiting => waiting = []))); [done|done|done|apply H|done|apply H].
Qed.

(** *** The record of a line *)

Lemma outgoing_not_routed c network line types when :
  keeps_outgoing line = true -> route_status_entry (outgoing network line types when) c = c.
Proof using Type.
  intros Hk. assert (Hl : is_one_of (entry_label (outgoing network line types when)) [lit "764"; lit "767"; lit "769"] = false).
  { change (entry_label _) with (StatusEntry.first_token (wire_text (strip_line_end line))). unfold keeps_outgoing in Hk. cbv zeta in Hk.
    destruct (is_empty (StatusEntry.first_token (wire_text (strip_line_end line)))); [done|].
    destruct (keep_row (StatusEntry.first_token (wire_text (strip_line_end line)))) eqn:E; [|done]. clear Hk.
    apply not_true_iff_false. unfold is_one_of. intros H. apply existsb_exists in H as (x & Hin & Hx). apply str_eqb_eq in Hx. rw Hx in E.
    apply list_elem_of_In in Hin. repeat (apply elem_of_cons in Hin as [->|Hin]; [done|]). by apply elem_of_nil in Hin. }
  unfold route_status_entry. cbv zeta. assert (Hr : route_own_metadata_error (outgoing network line types when) c = c) by (unfold route_own_metadata_error; by rw Hl).
  by rw Hr.
Qed.

Lemma good_outbound W inner c network line types when :
  good_in_world W c -> good_in_world W (handle_session_event inner c (Outbound network line types when)).
Proof using Type.
  intros Hc. cbn [handle_session_event]. destruct (keeps_outgoing line) eqn:Hk; [|done]. unfold status_entry. rw outgoing_not_routed; [done|].
  unfold append_status, queue. cbv zeta. set (entry := outgoing _ _ _ _).
  assert (H1 : good_in_world W (c <| ctl_console := console_append (ctl_console c) entry |>)) by (apply good_put_console; [apply console_ok_append, Hc|done]).
  apply (good_quiet W (if ctl_console_open (c <| ctl_console := console_append (ctl_console c) entry |>) && str_eqb (ctl_console_network (c <| ctl_console := console_append (ctl_console c) entry |>)) (entry_network_id entry)
    then (c <| ctl_console := console_append (ctl_console c) entry |>) <| ctl_console := mark_seen (ctl_console (c <| ctl_console := console_append (ctl_console c) entry |>)) (entry_network_id entry) |>
    else c <| ctl_console := console_append (ctl_console c) entry |>)); [done|].
  case_match; [|done]. apply good_put_console; [apply console_ok_seen, H1|done].
Qed.

(** *** The rounds *)

Section Rounds.
Context (inner : Controller -> Controller) (Hinner : forall c, ctl_pumping c = true -> inner c = c).

(** One network is drained: what is asked of the sessions may grow to what holds of a drained one. *)
Lemma drain_step (Q Q' : str -> Core -> Prop) network st :
  (forall s event c, PS s -> Q network s -> event ∈ events s ->
    good_in_world (pump_world PS Q') c -> good_in_world (pump_world PS Q') (handle_session_event inner c event)) ->
  (forall n s, n <> network -> Q n s -> Q' n s) ->
  (forall s, Q network s -> events s = [] -> Q' network s) ->
  (forall s, Q network s -> Q' network (s <| events := [] |>)) ->
  (forall n s s', loud s' = loud s -> Q n s -> Q n s') ->
  good_in_world (pump_world PS Q) st.1 -> good_in_world (pump_world PS Q') (drain_network inner st network).1.
Proof using HPS.
  destruct st as [c drained]. cbn [fst]. intros Hhandle Hother Hempty Hdrained Hquiet Hc. unfold drain_network, session.
  destruct (bt_get network (ctl_manager c)) as [s0|] eqn:Es; cbn [fmap option_fmap option_map].
  - assert (Hs : PS (live c network s0) /\ Q network (live c network s0)).
    { destruct (good_sessions _ _ _ Hc network s0 Es) as [H1 H2].
      split; [by apply (so_quiet (SessionOps := kept_ops PS) network s0)|by apply (Hquiet network s0)]. }
    destruct Hs as [Hs Hq]. destruct (is_empty (events (live c network s0))) eqn:He.
    + cbn [fst]. apply (good_world (pump_world PS Q)); [done|done| |apply Hc|apply Hc|apply Hc]. intros n s E [H1 H2]. split; [done|].
      destruct (decide (n = network)) as [->|Hne]; [|by apply Hother]. rw Es in E. apply (inj Some) in E. rw -E. rw -E in H2.
      apply Hempty; [done|]. change (is_empty (events s0) = true) in He. by destruct (events s0).
    + cbn [fst]. apply (foldl_invariant _ (good_in_world (pump_world PS Q'))); [intros c' event Hin; by apply (Hhandle (live c network s0))|].
      destruct Hc as [Hsess ? ? ? ? ? [? ? ?] ? ?]. split; try done. cbn. intros n s.
      destruct (decide (network = n)) as [<-|Hne].
      * rw bt_get_insert. intros [= <-]. split; [exact (sk_drained _ Hs)|exact (Hdrained _ Hq)].
      * rw bt_get_insert_ne //. intros E. destruct (Hsess n s E) as [H1 H2]. split; [done|by apply Hother].
  - cbn [fst]. apply (good_world (pump_world PS Q)); [done|done| |apply Hc|apply Hc|apply Hc]. intros n s E [H1 H2]. split; [done|]. apply Hother; [intros ->|done]. by rw Es in E.
Qed.

(** The sessions known at the start of the round, and what the drained ones queue. *)
Definition first_round (ids done_ids : list str) (n : str) (s : Core) : Prop := n ∈ ids /\ (n ∈ done_ids -> low_events s).
Definition second_round (ids done_ids : list str) (n : str) (s : Core) : Prop := (n ∈ ids /\ low_events s) /\ (n ∈ done_ids -> events s = []).

Lemma drain_first ids todo done_ids st :
  good_in_world (pump_world PS (first_round ids done_ids)) st.1 ->
  good_in_world (pump_world PS (first_round ids (reverse todo ++ done_ids))) (foldl (drain_network inner) st todo).1.
Proof using HPS Hinner.
  revert done_ids st. induction todo as [|network todo IH]; intros done_ids st Hst; [done|]. cbn [foldl]. rw reverse_cons -app_assoc. apply IH.
  apply (drain_step (first_round ids done_ids) (first_round ids (network :: done_ids))); [| | | | |done].
  - intros s event c _ _ _ Hc. pose proof (pump_ops low_events (fun n => n ∈ ids) (fun n => n ∈ network :: done_ids) low_ops) as Hops.
    apply (good_handle_session_event inner); [|exact Hc]. intros c' Hc'. rw Hinner; [apply Hc'|done].
  - intros n s Hne [H1 H2]. split; [done|]. intros [->|H]%elem_of_cons; [done|by apply H2].
  - intros s [H1 H2] He. split; [done|]. intros _. unfold low_events. by rw He.
  - intros s [H1 H2]. split; [done|]. intros _. by constructor.
  - intros n s s' E [H1 H2]. split; [done|]. intros H. by apply (so_quiet (SessionOps := low_ops) n s), H2.
Qed.

Lemma drain_second ids todo done_ids st :
  good_in_world (pump_world PS (second_round ids done_ids)) st.1 ->
  good_in_world (pump_world PS (second_round ids (reverse todo ++ done_ids))) (foldl (drain_network inner) st todo).1.
Proof using HPS Hinner.
  revert done_ids st. induction todo as [|network todo IH]; intros done_ids st Hst; [done|]. cbn [foldl]. rw reverse_cons -app_assoc. apply IH.
  apply (drain_step (second_round ids done_ids) (second_round ids (network :: done_ids))); [| | | | |done].
  - intros s event c _ [[_ Hlow] _] Hin Hc. pose proof (proj1 (Forall_forall _ _) Hlow event Hin) as H.
    destruct event; try done. by apply good_outbound.
  - intros n s Hne [H1 H2]. split; [done|]. intros [->|H]%elem_of_cons; [done|by apply H2].
  - intros s [H1 H2] He. by split.
  - intros s [[H1 H2] H3]. split; [|done]. split; [done|by constructor].
  - intros n s s' E [[H1 H2] H3]. assert (events s' = events s) as Ee by (unfold loud in E; congruence).
    split; [split; [done|by apply (so_quiet (SessionOps := low_ops) n s)]|]. rw Ee. done.
Qed.

(** The expiries of the round have run: what its drain begins from. *)
Definition expired c : Controller * bool :=
  let '(c, away) := run_while run_autoaway_expiry (S (length (expiries (ctl_away c)))) c in
  let '(c, lists) := run_while run_channel_list_expiry (S (length (list_expiries (ctl_lists c)))) c in (c, away || lists).

Lemma pump_round_expired c : pump_round inner c = foldl (drain_network inner) (expired c) (network_ids (expired c).1).
Proof using Type.
  unfold pump_round, expired. destruct (run_while run_autoaway_expiry _ c) as [c1 away]. by destruct (run_while run_channel_list_expiry _ c1) as [c2 lists].
Qed.

Lemma good_expired c : good_in_world (begun_world PS (fun _ => True)) c -> good_in_world (pump_world PS (fun _ _ => True)) (expired c).1.
Proof using HPS.
  intros Hc. unfold expired. pose proof (away_queue_runs (S (length (expiries (ctl_away c)))) c ltac:(lia) Hc) as H1.
  destruct (run_while run_autoaway_expiry _ c) as [c1 away]. cbn [fst] in H1.
  pose proof (list_queue_runs (S (length (list_expiries (ctl_lists c1)))) c1 ltac:(lia) H1) as H2.
  by destruct (run_while run_channel_list_expiry _ c1) as [c2 lists].
Qed.

(** With no expiry that waits, nothing runs before the drain. *)
Lemma expired_idle Q c :
  good_in_world (pump_world PS Q) c -> good_in_world (pump_world PS Q) (expired c).1 /\ (expired c).2 = false /\ ctl_manager (expired c).1 = ctl_manager c.
Proof using Type.
  intros Hc. destruct (good_away _ _ _ Hc) as [_ _ He]. pose proof (good_list_queue _ _ _ Hc) as Hq. cbn in He, Hq. unfold expired.
  rw He. cbn [length run_while]. assert (Hr : run_autoaway_expiry c = (c, false)) by (unfold run_autoaway_expiry; by rw He). rw Hr. rw Hq. cbn [length run_while].
  unfold run_channel_list_expiry, take_expiry. rw Hq. cbn. split_and!; [|done|done]. apply good_put_lists; [|done]. split; [|done].
  destruct (good_lists _ _ _ Hc) as [H1 H2]. split; [done|]. intros network H. destruct (H2 network H) as (g & Hg & Hx). exists g. split; [done|].
  destruct Hx as [Hx|Hx]; [by left|]. rw Hq in Hx. by apply elem_of_nil in Hx.
Qed.

Lemma known_ids c n s : bt_get n (ctl_manager c) = Some s -> n ∈ network_ids c.
Proof using Type.
  intros E. destruct (decide (n ∈ bt_keys (ctl_manager c))) as [H|H]; [exact H|]. by rw (proj2 (bt_get_None_keys n (ctl_manager c)) H) in E.
Qed.

Lemma round_first c : good_in_world (begun_world PS (fun _ => True)) c -> good_in_world (pump_world PS (fun _ => low_events)) (pump_round inner c).1.
Proof using HPS Hinner.
  intros Hc. rw pump_round_expired. pose proof (good_expired c Hc) as H1. destruct (expired c) as [c1 drained]. cbn [fst] in *.
  assert (H2 : good_in_world (pump_world PS (first_round (network_ids c1) [])) c1).
  { apply (good_world (pump_world PS (fun _ _ => True))); [done|done| |apply H1|apply H1|apply H1]. intros n s E [Hs _]. split; [done|]. split; [by apply (known_ids _ n s)|]. by intros ?%elem_of_nil. }
  pose proof (drain_first (network_ids c1) (network_ids c1) [] (c1, drained) H2) as H3.
  apply (good_world (pump_world PS (first_round (network_ids c1) (reverse (network_ids c1) ++ [])))); [done|done| |apply H3|apply H3|apply H3].
  intros n s E (Hs & Hi & Hd). split; [done|]. apply Hd. rw app_nil_r. by apply elem_of_reverse.
Qed.

Lemma round_second c :
  good_in_world (pump_world PS (fun _ => low_events)) c -> good_in_world (pump_world PS (fun _ s => events s = [])) (pump_round inner c).1.
Proof using HPS Hinner.
  intros Hc. rw pump_round_expired. destruct (expired_idle _ c Hc) as (H1 & _ & _). destruct (expired c) as [c1 drained]. cbn [fst] in *.
  assert (H2 : good_in_world (pump_world PS (second_round (network_ids c1) [])) c1).
  { apply (good_world (pump_world PS (fun _ => low_events))); [done|done| |apply H1|apply H1|apply H1]. intros n s E [Hs Hlow]. split; [done|]. split; [split; [by apply (known_ids _ n s)|done]|].
    by intros ?%elem_of_nil. }
  pose proof (drain_second (network_ids c1) (network_ids c1) [] (c1, drained) H2) as H3.
  apply (good_world (pump_world PS (second_round (network_ids c1) (reverse (network_ids c1) ++ [])))); [done|done| |apply H3|apply H3|apply H3].
  intros n s E (Hs & [Hi _] & Hd). split; [done|]. apply Hd. rw app_nil_r. by apply elem_of_reverse.
Qed.

(** Sessions with nothing queued are left as they are. *)
Lemma drain_idle todo c : (forall n s, bt_get n (ctl_manager c) = Some s -> events s = []) -> foldl (drain_network inner) (c, false) todo = (c, false).
Proof using Type.
  intros He. induction todo as [|network todo IH]; [done|]. cbn [foldl]. unfold drain_network at 2, session.
  destruct (bt_get network (ctl_manager c)) as [s|] eqn:Es; cbn [fmap option_fmap option_map]; [|done].
  change (events (live c network s)) with (events s). by rw (He network s Es).
Qed.

Lemma round_third c :
  good_in_world (pump_world PS (fun _ s => events s = [])) c ->
  (pump_round inner c).2 = false /\ good_in_world (pump_world PS (fun _ s => events s = [])) (pump_round inner c).1.
Proof using HPS.
  intros Hc. rw pump_round_expired. destruct (expired_idle _ c Hc) as (H1 & H2 & H3). destruct (expired c) as [c1 drained]. cbn [fst snd] in *. rw H2.
  rw drain_idle; [|done]. intros n s E. exact (proj2 (good_sessions _ _ _ H1 n s E)).
Qed.

(** A round that found nothing leaves sessions with nothing queued. *)
Lemma drain_found todo c drained :
  (foldl (drain_network inner) (c, drained) todo).2 = false ->
  drained = false /\ (foldl (drain_network inner) (c, drained) todo).1 = c /\ forall n s, n ∈ todo -> bt_get n (ctl_manager c) = Some s -> events s = [].
Proof using Type.
  revert c drained. induction todo as [|network todo IH]; intros c drained; cbn [foldl]; [cbn; intros ->; split_and!; [done|done|]; by intros ? ? ?%elem_of_nil|].
  unfold drain_network at 2 4, session. destruct (bt_get network (ctl_manager c)) as [s|] eqn:Es; cbn [fmap option_fmap option_map].
  - change (events (live c network s)) with (events s). destruct (is_empty (events s)) eqn:He.
    + intros H. destruct (IH c drained H) as (H1 & H2 & H3). split_and!; [done|done|]. intros n s' [->|Hin]%elem_of_cons E; [|by apply (H3 n)].
      rw Es in E. apply (inj Some) in E. rw -E. by destruct (events s).
    + intros H. by destruct (IH _ _ H).
  - intros H. destruct (IH c drained H) as (H1 & H2 & H3). split_and!; [done|done|]. intros n s' [->|Hin]%elem_of_cons E; [congruence|by apply (H3 n)].
Qed.

Lemma round_found Q c :
  good_in_world (pump_world PS Q) (pump_round inner c).1 -> (pump_round inner c).2 = false ->
  good_in_world (pump_world PS (fun _ s => events s = [])) (pump_round inner c).1.
Proof using Type.
  rw pump_round_expired. destruct (expired c) as [c1 drained]. cbn [fst]. intros H Hd. destruct (drain_found _ _ _ Hd) as (_ & E & He). rw E in H |- *.
  apply (good_world (pump_world PS Q)); [done|done| |apply H|apply H|apply H]. intros n s Es [Hs _]. split; [done|]. exact (He n s (known_ids c1 n s Es) Es).
Qed.

(** Three rounds are enough. *)
Lemma pump_rounds_end n c :
  (3 <= n)%nat -> good_in_world (begun_world PS (fun _ => True)) c ->
  exists c', pump_rounds inner n c = (c', true) /\ good_in_world (pump_world PS (fun _ s => events s = [])) c'.
Proof using HPS Hinner.
  intros Hn Hc. destruct n as [|[|[|n]]]; [lia..|]. cbn [pump_rounds]. pose proof (round_first c Hc) as H1.
  destruct (pump_round inner c) as [c1 d1] eqn:E1. cbn [fst] in H1. destruct d1.
  2: { exists c1. split; [done|]. pose proof (round_found (fun _ => low_events) c) as H. rw E1 in H. by apply H. }
  pose proof (round_second c1 H1) as H2. destruct (pump_round inner c1) as [c2 d2]. cbn [fst] in H2. destruct d2; [|by exists c2].
  destruct (round_third c2 H2) as [H3 H4]. destruct (pump_round inner c2) as [c3 d3]. cbn [fst snd] in H3, H4. rw H3. by exists c3.
Qed.
End Rounds.

(** A pump that is not nested ends, with nothing left to do. *)
Lemma pump_ends fuel c :
  (4 <= fuel)%nat -> good_in_world (resting_world PS) c ->
  good_in_world (resting_world PS) (pump fuel c) /\ expiries (ctl_away (pump fuel c)) = [] /\ list_expiries (ctl_lists (pump fuel c)) = [] /\
  forall n s, bt_get n (ctl_manager (pump fuel c)) = Some s -> events s = [].
Proof using HPS.
  intros Hf Hc. destruct fuel as [|fuel]; [lia|]. cbn [pump]. rw (good_flag _ _ _ Hc).
  assert (Hbegun : good_in_world (begun_world PS (fun _ => True)) (c <| ctl_pumping := true |>)).
  { destruct Hc as [? ? ? ? ? ? [? ? ?] ? ? ? ? ?]. by split. }
  destruct (pump_rounds_end (pump fuel) (fun c Hp => ltac:(destruct fuel; cbn [pump]; by rw Hp)) fuel _ ltac:(lia) Hbegun) as (c' & E & H). rw E.
  destruct H as [Hs Hr Hi Hcon Hl Hv [Ha1 Ha2 Ha3] Hq Hp Ho Hw Hpr]. cbn in *. split_and!; [|done|done|].
  - split; try done. cbn. intros n s Es. apply (Hs n s Es).
  - intros n s Es. apply (Hs n s Es).
Qed.
End Settling.

(** ** A run of the client *)

(** What may happen to the client: the clock moves, the socket or a timer of a session speaks, a
    timer of the controller runs out, a transport can or cannot be opened, the worker of the
    keychain answers, and the window or the CLI asks for something. *)
Inductive Action :=
| ActClock (now : Time)
| ActInput (network : str) (step : Moment * Input)
| ActAwayTimer (timer : AwayTimer)
| ActListTimer (timer : str * N)
| ActTransports (open : str -> option str)
| ActArrives (key : CredentialKey) (answer : option Answer)
| ActPump
| ActPoll
| ActStartup
| ActStart (network : str)
| ActConnect (config : SessionConfig)
| ActReachable
| ActShutdown
| ActSaveNetwork (profile : Profile) (edits : SecretEdits)
| ActForgetSecret (network purpose : str)
| ActForgetNetwork (network : str)
| ActOrder (order : list str)
| ActMove (network : str) (delta : Z)
| ActFold (network : str) (collapsed : bool)
| ActFoldAll (collapsed : bool)
| ActSubmit (surface : ComposerSurface) (text : str)
| ActSend (kind : Outgoing) (network target text : str)
| ActJoin (network name : str)
| ActSelect (network target : str)
| ActReveal (network target : str)
| ActOpenStatus (network : str)
| ActLeaveStatus
| ActOpenDirect (nick : str)
| ActCloseDirect
| ActClose (network target : str)
| ActLeaveChannel
| ActJoinChannel
| ActMarkRead
| ActWindow (active : bool)
| ActOlderHistory
| ActEdited (network target text : str)
| ActTakeItem (index : nat)
| ActViewport (focused follow_end : bool)
| ActActivity
| ActDismissList
| ActForgetList (network : str)
| ActPreference (name : PrefName) (value : PrefValue)
| ActDisconnect (network reason : str)
| ActTakeNotifications
| ActTakeArrivals
| ActTakeSyncs.

(** Three rounds, and the call itself. *)
Definition PUMP_FUEL : nat := 4.

Section Runs.
Context `{platform : Platform} `{client_log : ClientLog} `{json : TimesJson} `{secrets : CredentialStore} `{crypto : Crypto} `{crate : UrlCrate} `{policy : SecretPolicy}.
Implicit Types (c : Controller).

Definition act c (action : Action) : Controller :=
  match action with
  | ActClock now => c <| ctl_now := now |>
  | ActInput network step => match session c network with Some s => put_session network (session_step s step) c | None => c end
  | ActAwayTimer timer => update_away (away_timer_fired timer) c
  | ActListTimer timer => c <| ctl_lists := list_timer_fired timer (ctl_lists c) |>
  | ActTransports open => c <| ctl_transports := open |>
  | ActArrives key answer => c <| ctl_vault := mkVault (chain_arrives (vault_chain (ctl_vault c)) key answer) (vault_owed (ctl_vault c)) |>
  | ActPump => pump PUMP_FUEL c
  | ActPoll => poll_credential_reads PUMP_FUEL c
  | ActStartup => (activate_startup PUMP_FUEL c).1
  | ActStart network => (start_network PUMP_FUEL network c).1
  | ActConnect config => (connect_session PUMP_FUEL config c).1
  | ActReachable => notify_network_reachable PUMP_FUEL c
  | ActShutdown => shutdown c
  | ActSaveNetwork profile edits => (save_network profile edits c).1
  | ActForgetSecret network purpose => (forget_secret network purpose c).1
  | ActForgetNetwork network => (forget_network_intent PUMP_FUEL network c).1
  | ActOrder order => set_network_order order c
  | ActMove network delta => (move_network network delta c).1
  | ActFold network collapsed => set_network_collapsed network collapsed c
  | ActFoldAll collapsed => set_all_networks_collapsed collapsed c
  | ActSubmit surface text => (submit PUMP_FUEL surface text c).1
  | ActSend kind network target text => (send_kind PUMP_FUEL kind network target text c).1
  | ActJoin network name => (join_channel_of PUMP_FUEL network name c).1
  | ActSelect network target => select_conversation PUMP_FUEL network target c
  | ActReveal network target => reveal_conversation PUMP_FUEL network target c
  | ActOpenStatus network => open_status PUMP_FUEL network c
  | ActLeaveStatus => leave_status PUMP_FUEL c
  | ActOpenDirect nick => (open_direct PUMP_FUEL nick c).1
  | ActCloseDirect => (close_direct PUMP_FUEL c).1
  | ActClose network target => (close_conversation PUMP_FUEL network target c).1
  | ActLeaveChannel => (leave_selected_channel PUMP_FUEL c).1
  | ActJoinChannel => (join_selected_channel PUMP_FUEL c).1
  | ActMarkRead => mark_everything_read PUMP_FUEL c
  | ActWindow active => set_active PUMP_FUEL active c
  | ActOlderHistory => (request_older_transcript_history c).1
  | ActEdited network target text => composer_edited PUMP_FUEL network target text c
  | ActTakeItem index => (take_inbox_item PUMP_FUEL index c).1
  | ActViewport focused follow_end => note_transcript_viewport focused follow_end c
  | ActActivity => note_local_activity (pump PUMP_FUEL) c
  | ActDismissList => dismiss_channel_list c
  | ActForgetList network => forget_channel_list network c
  | ActPreference name value => (set_preference name value c).1
  | ActDisconnect network reason => (disconnect_with_reason PUMP_FUEL network reason c).1
  | ActTakeNotifications => (take_notifications c).1
  | ActTakeArrivals => (take_arrivals c).1
  | ActTakeSyncs => (take_background_profile_syncs c).1
  end.
Definition client_run (actions : list Action) (c : Controller) : Controller := foldl act c actions.

Context `{chain_laws : !StoreLaws secrets} {PS : Core -> Prop} {HPS : SessionKept PS}.
#[local] Existing Instance kept_ops.

(** The world of a run: the secrets nothing names stay in [O]. *)
Definition orphans_base (O : CredentialKey -> Prop) : Baseline := mkBaseline O (fun _ => True) (fun _ => True) (fun _ _ _ _ _ _ _ => I).
(** The world of one step: every network of [table] keeps the keys of its profile. *)
Definition profiles_base (table : btree Profile) : Baseline.
Proof using Type.
  refine (mkBaseline (fun _ => True) (fun _ => True)
    (fun edited => forall network p, bt_get network table = Some p -> exists q, bt_get network edited = Some q /\ same_keys q p) _).
  intros network p p' edited Hp Hkeys H other q Hq. destruct (H other q Hq) as (r & Hr & Hsame). destruct (decide (network = other)) as [<-|Hne].
  - exists p'. rw bt_get_insert. split; [done|]. intros purpose. rw Hsame. rw Hp in Hr. injection Hr as ->. symmetry. apply Hkeys.
  - exists r. by rw bt_get_insert_ne.
Defined.

Abbreviation resting B := (good_in_world (resting_world (base := B) PS)).

(** The same state, against another baseline it satisfies. *)
Lemma resting_rebase (B B' : Baseline) c :
  resting B c -> (forall k, orphan (ctl_profiles c) (ctl_vault c) k -> base_orphan (Baseline := B') k) -> base_waiting (Baseline := B') (ctl_waiting_starts c) ->
  base_profiles (Baseline := B') (ctl_profiles c) -> resting B' c.
Proof using Type. intros [Hs Hr Hi Hcon Hl Hv Ha Hq Hf Ho Hw Hpr] H1 H2 H3. by split. Qed.

Section Steps.
Context (B : Baseline).
#[local] Existing Instance B.

Lemma resting_pump c : resting B c -> resting B (pump PUMP_FUEL c).
Proof using HPS. intros Hc. by apply pump_ends. Qed.
Lemma resting_quit n s reason : w_session (resting_world PS) n s -> w_session (resting_world PS) n (SessionDispatch.quit s reason).1.
Proof using HPS. apply (stable_quit PS sk_steady sk_retries). Qed.
Lemma resting_start n s : w_session (resting_world PS) n s -> w_session (resting_world PS) n (start s).
Proof using HPS. apply (stable_start PS sk_steady sk_restartable), sk_tls. Qed.
Lemma resting_stop n s : w_session (resting_world PS) n s -> w_session (resting_world PS) n (stop s).
Proof using HPS. apply sk_retries. Qed.
Lemma resting_wake n s : w_session (resting_world PS) n s -> w_session (resting_world PS) n (begin_reconnect_attempt s).
Proof using HPS. apply sk_retries. Qed.

(** A network on its way out, up to the profile. *)
Lemma resting_leaving network order c :
  resting B c -> resting B (forget_state network order (autoaway_forget_network network (discard_session network (leave_network PUMP_FUEL network c)))).
Proof using HPS.
  intros Hc. pose proof (kept_ops PS) as Hops. apply good_forget_state, good_forget_away, good_discard_session; [exact resting_stop|].
  by apply good_leave_network; [exact resting_pump|exact resting_quit|].
Qed.
End Steps.

Section Run.
Context (O : CredentialKey -> Prop).
#[local] Instance run_base : Baseline := orphans_base O.

Lemma resting_forget_everything network order c : resting run_base c -> resting run_base (forget_everything PUMP_FUEL network order c).
Proof using HPS.
  intros Hc. pose proof (kept_ops PS) as Hops. unfold forget_everything. cbv zeta.
  pose proof (resting_leaving run_base network order c Hc) as H1.
  assert (H2 : resting (profiles_base (ctl_profiles c)) c) by (apply (resting_rebase run_base); [done|done|done|]; intros n p Hp; by exists p).
  apply (resting_leaving _ network order) in H2. generalize dependent (forget_state network order (autoaway_forget_network network (discard_session network (leave_network PUMP_FUEL network c)))).
  intros c1 H1 H2. apply resting_pump, good_queue, good_queue, good_leave_window. destruct (bt_get network (ctl_profiles c)) as [p|] eqn:Ep; [|done].
  apply good_finish_remove_profile; [done| |done]. exact (good_profiles _ _ _ H2 network p Ep).
Qed.

Lemma resting_forget network c : resting run_base c -> resting run_base (forget_network_intent PUMP_FUEL network c).1.
Proof using HPS.
  intros Hc. unfold forget_network_intent. apply resting_pump in Hc. cbv zeta. generalize dependent (pump PUMP_FUEL c). clear c. intros c Hc.
  destruct (is_empty network); [done|]. case_match; [by apply resting_pump|].
  match goal with |- context [persist_forget_network ?n ?h ?o ?l c] => assert (H1 : resting run_base (persist_forget_network n h o l c).1); [|destruct (persist_forget_network n h o l c) as [c1 status]] end.
  { unfold persist_forget_network, on_file. destruct (ephemeral c); [exact Hc|]. destruct (forget_saved_network _ _ _ _ _). cbn [fst]. refine (good_quiet _ c _ _ Hc). reflexivity. }
  cbn [fst] in H1. destruct (blocked status); [by apply resting_pump|]. by apply resting_forget_everything.
Qed.

Lemma resting_act c action : resting run_base c -> resting run_base (act c action).
Proof using HPS.
  pose proof (kept_ops PS) as Hops. pose proof (resting_pump run_base) as Hp. pose proof (resting_quit run_base) as Hq.
  pose proof (resting_start run_base) as Hstart. pose proof (resting_stop run_base) as Hstop.
  assert (Hnew : forall n config policies, w_session (resting_world PS) n (new_core config policies)) by (intros; apply sk_new).
  intros Hc. destruct action; cbn [act].
  - good_walk.
  - destruct (session c network) as [s|] eqn:Es; [|done]. apply good_put; [|done].
    apply (stable_step PS sk_steady sk_retries sk_restartable); [right; apply sk_tls|]. exact (session_kept _ c network s Hc Es).
  - apply good_update_away; [|done]. intros Ha. unfold away_timer_fired. case_match; [|done]. destruct Ha. by split.
  - apply good_put_lists; [|done]. split; [apply requests_ok_fired, Hc|done].
  - good_walk.
  - good_walk.
  - by apply Hp.
  - by apply (good_poll_credential_reads _ Hp Hstart Hstop Hnew).
  - by apply (good_activate_startup _ Hp Hstart Hstop Hnew).
  - by apply (good_start_network _ Hp Hstart Hstop Hnew).
  - by apply (good_connect_session _ Hp Hstart Hstop Hnew).
  - by apply (good_notify_network_reachable _ Hp (resting_wake run_base)).
  - by apply good_shutdown.
  - by apply good_save_network.
  - by apply good_forget_secret.
  - by apply resting_forget.
  - by apply good_set_network_order.
  - by apply good_move_network.
  - by apply good_set_network_collapsed.
  - by apply good_set_all_networks_collapsed.
  - by apply good_submit.
  - by apply good_send_kind.
  - by apply good_join_channel_of.
  - by apply good_select_conversation.
  - by apply good_reveal_conversation.
  - by apply good_open_status.
  - by apply good_leave_status.
  - by apply good_open_direct.
  - by apply good_close_direct.
  - by apply good_close_conversation.
  - by apply good_submit.
  - by apply good_join_selected_channel.
  - by apply good_mark_everything_read.
  - by apply good_set_active.
  - by apply (good_request_older_transcript_history PUMP_FUEL).
  - by apply good_composer_edited.
  - by apply good_take_inbox_item.
  - by apply good_note_transcript_viewport.
  - by apply good_note_local_activity.
  - by apply good_dismiss_channel_list.
  - by apply good_forget_channel_list.
  - by apply (good_set_preference PUMP_FUEL).
  - by apply good_disconnect_with_reason.
  - unfold take_notifications. good_walk.
  - unfold take_arrivals. good_walk.
  - unfold take_background_profile_syncs. good_walk.
Qed.

End Run.

(** What was loaded: every profile may be any. *)
#[local] Instance any_base : Baseline := orphans_base (fun _ => True).

Lemma resting_new now file policies chain transports : resting any_base (new_controller now file policies chain transports).
Proof using HPS. split; try by repeat constructor. apply (reachable_step new_reducer (OpSetClosedStore _)), reachable_new. Qed.

Lemma resting_profiles table c : resting any_base c -> resting any_base (c <| ctl_profiles := table |>).
Proof using Type. by intros []. Qed.

Lemma resting_load c : auto_away (ctl_away c) = [] -> resting any_base c -> resting any_base (load_stored c).
Proof using HPS.
  intros Ha Hc. pose proof (kept_ops PS) as Hops. assert (Hnew : forall n config policies, w_session (resting_world PS) n (new_core config policies)) by (intros; apply sk_new).
  unfold load_stored. destruct (ephemeral c); [done|]. cbv zeta. apply good_fold.
  - intros c' p Hc'. unfold load_session.
    assert (H1 : resting any_base (on_vault (fun v => secrets_ready v p) c').1).
    { apply good_on_vault; [|done]. intros v. unfold secrets_ready. case_match; [done|apply keeps_allowed]. }
    destruct (on_vault _ c') as [c1 ready]. cbn [fst] in H1.
    destruct ready; [by apply good_register_session|by apply (good_quiet _ c1)].
  - apply resting_profiles. match goal with |- resting _ (?x <| ctl_network_order := _ |> <| ctl_collapsed := _ |>) => apply (good_quiet _ x); [done|] end.
    apply good_put_away; [by apply away_ok_idle|]. apply good_map_reducer; [|by apply (good_quiet _ c)]. intros r. apply (reachable_step r (OpSetNoise _)).
Qed.

Lemma resting_user now file policies chain transports : resting any_base (new_user now file policies chain transports).
Proof using HPS. by apply resting_load, resting_new. Qed.

(** Whatever happens to a client, it is as it must be between pumps, and the secrets nothing names
    are some of those nothing named when it was loaded. *)
Lemma resting_run actions now file policies chain transports :
  let c0 := new_user now file policies chain transports in
  resting (orphans_base (orphan (ctl_profiles c0) (ctl_vault c0))) (client_run actions c0).
Proof using HPS.
  intros c0. assert (H : resting (orphans_base (orphan (ctl_profiles c0) (ctl_vault c0))) c0).
  { by apply (resting_rebase any_base); [apply resting_user|..]. }
  generalize dependent (orphan (ctl_profiles c0) (ctl_vault c0)). clearbody c0. intros O H. unfold client_run. revert c0 H. induction actions as [|a actions IH]; intros c0 H; [done|]. by apply IH, resting_act.
Qed.
End Runs.
