(* ===== verification/ControllerProperties.v ===== *)
(** * ControllerProperties: what the client as a whole is sure of
    (src/client/src/controller/)

    What holds after any run of the client, what the pump leaves behind, and what the reader's
    requests do across the parts: the sessions, the reducer, the saved lists and the watches. *)

From S2P Require Import SessionTypes Sts Profiles Credentials.
From S2P Require Import Prelude Text Message Parser CaseMapping ServerFeatures Capability JoinTarget OrdMap Scram SessionTypes Platform Ctcp Metadata Typing.
From S2P Require Import SessionCore SessionOutbound SessionMarkers SessionHistory SessionDispatch Session SessionInvariants SessionProperties SessionReconnect.
From S2P Require Import Sts SettingsIni Settings Lists ListsProperties StatusEntry Command Autoaway Inbox Console AvatarUrl.
From S2P Require Import ChannelList PlaybackTime Presence Events Conversation MembershipNoise Translator ReducerState ReducerTranscript ReducerSplice Reducer ReducerViews ReducerSteps ReducerInvariants.
From S2P Require Import ClosedChannels Playback ControllerState ControllerServices ControllerReplies Controller ControllerCommands ControllerNetworks ControllerInvariants.

(** ** What every run keeps *)

Section Kept.
Context `{platform : Platform} `{client_log : ClientLog} `{json : TimesJson} `{secrets : CredentialStore} `{chain_laws : !StoreLaws secrets}.
Context `{crypto : Crypto} `{crate : UrlCrate} `{policy : SecretPolicy} (now : Time) (file : SharedFile) (policies : StsStore) (chain : Keychain) (transports : str -> option str).
(** The client as it starts, over the reader's files and keychain. *)
Abbreviation started := (new_user now file policies chain transports).

#[export] Instance reconnect_kept : SessionKept reconnect_ok.
Proof using Type.
  split.
  - apply reconnect_steady.
  - apply reconnect_retries.
  - constructor; [intros c [Ht H]|intros c _ [Ht H]]; (split; [by apply (timers_ok_view c)|exact H]).
  - intros c b H. apply (reconnect_ok_view c); [|done|done]. by apply (timers_ok_view c), H.
  - intros c H. apply (reconnect_ok_view c); [|done|done]. by apply (timers_ok_view c), H.
  - intros config store. exact (run_reconnect_ok config store []).
Qed.

#[export] Instance batches_kept : SessionKept batches_ok.
Proof using Type.
  pose proof (calm_stable _ batches_calm) as H. split; try done.
  - by apply stable_steady.
  - apply stable_retries; [done|apply batches_restartable].
  - apply batches_restartable.
  - intros config store. split; [by constructor|]. cbn. lia.
Qed.

(** C4: the parts of the client stay consistent together. Whatever the servers send, whenever the
    timers run out and whatever the reader asks for, every session's timers agree with its slots
    and a session that waits to reconnect has its timer armed, and the reducer is one its own
    operations can reach: its table is in order, every transcript is bounded and numbered, and
    every claim points at a channel that holds the message. *)
Theorem client_parts_consistent actions :
  let c := client_run actions started in
  (forall network s, session c network = Some s -> reconnect_ok s) /\ reachable (ctl_reducer c) /\ reducer_ok (ctl_reducer c).
Proof using chain_laws.
  intros c. pose proof (resting_run (PS := reconnect_ok) actions now file policies chain transports) as Hc. fold c in Hc. pose proof (kept_ops reconnect_ok).
  split_and!; [intros network s; exact (session_kept (resting_world reconnect_ok) c network s Hc)|apply Hc|apply reachable_ok, Hc].
Qed.


(** C15: auto-away never stands over an away the reader set by hand. After any run, a network it
    marked is not one the reader marked, and auto-away is enabled and tripped. *)
Theorem auto_away_respects_hand actions network :
  let a := ctl_away (client_run actions started) in
  bs_contains network (auto_away a) = true ->
  bs_contains network (manual_away a) = false /\ tripped a = true /\ away_enabled (away_config a) = true.
Proof using chain_laws.
  intros a Hauto. pose proof (good_away _ _ _ (resting_run (PS := batches_ok) actions now file policies chain transports)) as [H1 H2 _]. fold a in H1, H2.
  apply bt_contains_spec in Hauto as [[] Hauto]. split.
  - unfold bs_contains. apply not_true_iff_false. intros [? Hm]%bt_contains_spec. by rw (H1 _ Hauto) in Hm.
  - apply H2. intros E. by rw E in Hauto.
Qed.

(** C5: the pump always ends, and ends with nothing left to do. Handling a session's event asks
    sessions for lines only, and recording a line asks for nothing, so three rounds are enough
    after any run: no session has an event queued, and no expiry of auto-away or of /list waits. *)
Theorem pump_settles fuel actions :
  (4 <= fuel)%nat ->
  let c := pump fuel (client_run actions started) in
  ctl_pumping c = false /\ expiries (ctl_away c) = [] /\ list_expiries (ctl_lists c) = [] /\
  forall network s, session c network = Some s -> events s = [].
Proof using chain_laws.
  intros Hf c. destruct (pump_ends (PS := batches_ok) fuel _ Hf (resting_run actions now file policies chain transports)) as (H1 & H2 & H3 & H4). fold c in H1, H2, H3, H4.
  split_and!; [apply H1|done|done|]. intros network s Hs. unfold session in Hs.
  destruct (bt_get network (ctl_manager c)) as [s0|] eqn:E; [|done]. apply (inj Some) in Hs. rw -Hs. exact (H4 network s0 E).
Qed.
End Kept.

(** ** A /list that stopped *)

Section ListLoads.
Context `{platform : Platform} `{client_log : ClientLog} `{json : TimesJson} `{secrets : CredentialStore} `{chain_laws : !StoreLaws secrets}.
Context `{crypto : Crypto} `{crate : UrlCrate} `{policy : SecretPolicy}.
Implicit Types (r : ChannelListRequests) (c : Controller).

Lemma run_list_expiry_lists c :
  let '(lists, found) := take_expiry (ctl_lists c) in
  ctl_lists (run_channel_list_expiry c).1 = match found with Some network => (list_fail network CHANNEL_LIST_TIMEOUT_TEXT true lists).1 | None => lists end /\
  (run_channel_list_expiry c).2 = negb (is_none found).
Proof using Type.
  unfold run_channel_list_expiry. destruct (take_expiry (ctl_lists c)) as [lists [network|]]; [|done]. unfold fail_channel_list. cbn [ctl_lists update].
  destruct (list_fail network _ true lists) as [lists' failed]. destruct failed; cbn [negb fst]; [case_match|]; done.
Qed.

(** The expiry of one network leaves the others as they are. *)
Lemma fail_other network other text r :
  network <> other -> let r' := (list_fail network text true r).1 in
  bt_get other (list_states r') = bt_get other (list_states r) /\ bt_get other (list_timers r') = bt_get other (list_timers r).
Proof using Type.
  intros Hne r'. unfold r', list_fail. destruct (negb (is_loading network r)); [done|]. cbv zeta.
  assert (Ht : bt_get other (list_timers (list_stop network r)) = bt_get other (list_timers r)) by (unfold list_stop; case_match; [cbn; by rw bt_get_remove_ne|done]).
  destruct (bt_get network (list_states (list_stop network r))); cbn; rw ?bt_get_insert_ne // states_stop; done.
Qed.

Lemma take_expiries_found queue timers network : (take_expiries queue timers).2 = Some network -> is_Some (bt_get network timers).
Proof using Type.
  induction queue as [|[m g] queue IH]; [done|]. cbn [take_expiries]. case_bool_decide as Hm; [|exact IH]. cbn. intros [= ->]. by rw Hm.
Qed.

Lemma take_expiries_none queue timers : (take_expiries queue timers).2 = None -> (take_expiries queue timers).1 = [].
Proof using Type. induction queue as [|[m g] queue IH]; [done|]. cbn [take_expiries]. by case_bool_decide; [|apply IH]. Qed.

(** A network without a timer is not touched by the expiries that wait. *)
Lemma expiries_leave n network c :
  bt_get network (list_timers (ctl_lists c)) = None ->
  list_state (run_while run_channel_list_expiry n c).1 network = list_state c network.
Proof using Type.
  revert c. induction n as [|n IH]; intros c Ht; cbn [run_while]; [done|]. pose proof (run_list_expiry_lists c) as H. unfold take_expiry in H.
  pose proof (fun E => take_expiries_found (list_expiries (ctl_lists c)) (list_timers (ctl_lists c)) network E) as Hfound.
  destruct (take_expiries _ _) as [queue found]. cbn [snd] in Hfound. destruct (run_channel_list_expiry c) as [c' ran]. cbn [fst snd] in H.
  destruct found as [m|]; destruct H as [Hl Hr]; rw Hr; cbn [negb is_none fst]; [|unfold list_state; by rw Hl].
  set (r := _ <| list_timers := _ |>) in Hl. assert (Hne : m <> network) by (intros ->; destruct (Hfound eq_refl); congruence).
  destruct (fail_other m network CHANNEL_LIST_TIMEOUT_TEXT r Hne) as [H1 H2].
  rw IH; [|unfold list_state; by rw Hl H1]. rw Hl H2. unfold r. cbn. rw bt_get_remove_ne; [congruence|done].
Qed.

Lemma expiry_ends_load n network generation entry c :
  (length (list_expiries (ctl_lists c)) < n)%nat -> bt_get network (list_timers (ctl_lists c)) = Some generation ->
  (network, generation) ∈ list_expiries (ctl_lists c) -> list_state c network = Some entry -> list_loading entry = true ->
  list_state (run_while run_channel_list_expiry n c).1 network =
    Some (entry <| list_loading := false |> <| list_complete := false |> <| pending_mask := None |> <| list_error := CHANNEL_LIST_TIMEOUT_TEXT |>
      <| drain_timed_out_end := true |>).
Proof using Type.
  revert c. induction n as [|n IH]; intros c Hn Ht Hin He Hload; cbn [run_while]; [lia|].
  pose proof (run_list_expiry_lists c) as H. pose proof (run_list_expiry_queue c) as Hq. unfold take_expiry in H.
  pose proof (take_expiries_keeps _ _ network generation Ht Hin) as Hkeep.
  pose proof (take_expiries_none (list_expiries (ctl_lists c)) (list_timers (ctl_lists c))) as Hsome.
  destruct (take_expiries _ _) as [queue found]. cbn [fst snd] in Hkeep, Hsome. destruct (run_channel_list_expiry c) as [c' ran]. cbn [fst snd] in H, Hq. cbv zeta in Hq.
  destruct found as [m|]; [|rw Hsome // in Hkeep; by destruct Hkeep as [|?%elem_of_nil]]. destruct H as [Hl Hr]. rw Hr in Hq |- *. cbn [negb is_none fst] in Hq |- *.
  set (r := _ <| list_timers := _ |>) in Hl. destruct (decide (m = network)) as [->|Hne].
  - assert (Hfail : list_state c' network = Some (entry <| list_loading := false |> <| list_complete := false |> <| pending_mask := None |> <| list_error := CHANNEL_LIST_TIMEOUT_TEXT |> <| drain_timed_out_end := true |>)
      /\ bt_get network (list_timers (ctl_lists c')) = None).
    { unfold list_state in *. rw Hl. unfold list_fail, is_loading, r. cbn [list_states update]. rw He Hload. cbn [negb].
      unfold list_stop. cbn [list_timers update]. rw bt_get_remove. cbn [list_states update]. rw He. cbn. by rw bt_get_insert bt_get_remove. }
    destruct Hfail as [H1 H2]. by rw expiries_leave.
  - destruct (fail_other m network CHANNEL_LIST_TIMEOUT_TEXT r) as [H1 H2]; [congruence|]. apply IH; [lia| | | |done].
    + rw Hl H2. unfold r. cbn. by rw bt_get_remove_ne.
    + destruct Hkeep as [Hk|Hk]; [congruence|]. rw Hl expiries_fail. exact Hk.
    + unfold list_state in *. by rw Hl H1.
Qed.

Context (now : Time) (file : SharedFile) (policies : StsStore) (chain : Keychain) (transports : str -> option str).
Abbreviation started := (new_user now file policies chain transports).

(** C14: no /list hangs. After any run, a channel list that loads has a timer on the clock or an
    expiry that waits, and the pump's expiries end its load with the text that says it timed out:
    only a finished, failed or forgotten load stops being timed. *)
Theorem channel_list_load_ends actions network entry :
  let c := client_run actions started in
  list_state c network = Some entry -> list_loading entry = true ->
  exists generation,
    ((network, generation) ∈ list_clock (ctl_lists c) \/ (network, generation) ∈ list_expiries (ctl_lists c)) /\
    let c := act c (ActListTimer (network, generation)) in
    let c := (run_while run_channel_list_expiry (S (length (list_expiries (ctl_lists c)))) c).1 in
    exists entry', list_state c network = Some entry' /\ list_loading entry' = false /\ list_rows entry' = list_rows entry /\
      list_error entry' = CHANNEL_LIST_TIMEOUT_TEXT.
Proof using chain_laws.
  intros c He Hload. pose proof (resting_run (PS := batches_ok) actions now file policies chain transports) as Hc. fold c in Hc.
  destruct (loads_timed _ (good_lists _ _ _ Hc) network) as (generation & Ht & Hq); [unfold is_loading, list_state in *; by rw He|].
  exists generation. split; [done|]. cbv zeta. cbn [act].
  set (c1 := c <| ctl_lists := _ |>). assert (H1 : bt_get network (list_timers (ctl_lists c1)) = Some generation /\ list_state c1 network = Some entry /\ (network, generation) ∈ list_expiries (ctl_lists c1)).
  { unfold c1, list_timer_fired, list_state in *. cbn. case_bool_decide as Hin; cbn; split_and!; try done; [set_solver|]. by destruct Hq. }
  destruct H1 as (H1 & H2 & H3). eexists. split; [apply (expiry_ends_load _ network generation entry); try done; lia|done].
Qed.
End ListLoads.

(** ** A query the reader closes *)

Section Closing.
Context `{platform : Platform} `{stores : Stores}.
Implicit Types (r : EventReducer) (key : ConversationKey).

(** What leaves the case mappings as they are, and makes no conversation. *)
Record opens_nothing r r' : Prop := {
  same_features : net_features (net_facts r') = net_features (net_facts r);
  none_opened : forall key, find r key = None -> find r' key = None;
}.

#[export] Instance opens_nothing_preorder : PreOrder opens_nothing.
Proof.
  split; [by constructor|]. intros r1 r2 r3 [H1 H2] [H3 H4]. constructor; [congruence|auto].
Qed.

Lemma facts_open_nothing f r : net_features (f (net_facts r)) = net_features (net_facts r) -> opens_nothing r (set_facts f r).
Proof. by constructor. Qed.

Lemma update_opens_nothing key f r : opens_nothing r (update_conversation key f r).
Proof.
  unfold update_conversation, with_conversation. destruct (bt_get key (conversations r)) eqn:E; [|done]. constructor; [done|]. unfold find. cbn.
  intros other Ho. destruct (decide (key = other)) as [->|Hne]; [congruence|]. by rw bt_get_insert_ne.
Qed.

Lemma facts_update_open_nothing key f g r : net_features (g (net_facts r)) = net_features (net_facts r) -> opens_nothing r (update_conversation key f (set_facts g r)).
Proof. intros H. transitivity (set_facts g r); [by apply facts_open_nothing|apply update_opens_nothing]. Qed.

Lemma set_muted_opens_nothing key value r : opens_nothing r (set_muted key value r).
Proof. unfold set_muted. case_match; [done|]. by apply facts_update_open_nothing. Qed.
Lemma mark_selected_opens_nothing key r : opens_nothing r (mark_selected key r).
Proof. unfold mark_selected. case_match; [done|]. by apply facts_update_open_nothing. Qed.

Lemma find_remove key r : find (remove_conversation key r) key = None.
Proof. unfold find, remove_conversation. cbn. apply bt_get_remove. Qed.

Lemma remove_opens_nothing key r : opens_nothing r (remove_conversation key r).
Proof.
  unfold remove_conversation. constructor; [by case_match|]. unfold find. intros other. cbn.
  destruct (decide (key = other)) as [->|Hne]; [by rw bt_get_remove|]. rw bt_get_remove_ne //. by case_match.
Qed.

Lemma drop_direct_opens_nothing key r : opens_nothing r (drop_direct_message key r).1.
Proof. unfold drop_direct_message. case_match; [|done]. case_match; [done|]. apply remove_opens_nothing. Qed.

Lemma forget_rows_features rows st : net_features (forget_rows rows st).1 = net_features st.1.
Proof.
  revert st. induction rows as [|row rows IH]; intros [f c]; [done|]. cbn. rw IH. cbn. unfold release_channel_context. by repeat case_match.
Qed.

Lemma hydrate_features st : net_features (hydrate_from_log st).1 = net_features st.1.
Proof.
  destruct st as [f c]. unfold hydrate_from_log. destruct (log f) as [l|]; [|done]. generalize (log_read_tail l (network_id (conv_key c)) (normalized_target (conv_key c)) (mapping_of f (network_id (conv_key c))) MAX_MESSAGES) as lines. intros lines.
  assert (Hl : net_features (foldl hydrate_line (f, c) lines).1 = net_features f).
  { revert f c. induction lines as [|line lines IH]; intros f c; [done|]. cbn [foldl]. destruct (hydrate_line (f, c) line) as [f' c'] eqn:E. rw IH.
    unfold hydrate_line in E. repeat case_match; simplify_eq; try done; unfold claim_channel_context; by case_match. }
  destruct (foldl hydrate_line (f, c) lines) as [f' c']. cbn [fst] in Hl. unfold cap_messages. case_match; [done|].
  match goal with |- context [forget_rows ?rows ?st] => pose proof (forget_rows_features rows st) as Hr; destruct (forget_rows rows st) end.
  cbn in *. congruence.
Qed.

(** What [ensure_conversation] does to the others. *)
Lemma ensure_others key display cause r :
  let r' := (ensure_conversation key display cause r).1 in
  net_features (net_facts r') = net_features (net_facts r) /\ forall other, other <> key -> find r' other = find r other.
Proof.
  cbv zeta. unfold ensure_conversation, ensure_key. destruct (bt_contains key (conversations r)); [done|]. cbv zeta. destruct (negb _); [done|].
  destruct (is_channel _ _ && _); [done|].
  set (c := if is_channel _ _ then _ else _). pose proof (hydrate_features (net_facts r, c)) as H. destruct (hydrate_from_log _) as [f c']. cbn in *.
  split; [done|]. intros other Hne. unfold find. cbn. by rw bt_get_insert_ne.
Qed.
End Closing.

Section ClosedQueries.
Context `{platform : Platform} `{client_log : ClientLog} `{json : TimesJson} `{secrets : CredentialStore} `{crypto : Crypto} `{crate : UrlCrate}.
Implicit Types (c : Controller) (key : ConversationKey).

(** The controller under it: the case mappings and the saved queries are the same, and no conversation is new. *)
Record same_queries c c' : Prop := {
  same_mappings : net_features (net_facts (ctl_reducer c')) = net_features (net_facts (ctl_reducer c));
  same_directs : ctl_open_directs c' = ctl_open_directs c;
  none_new : forall key, conversation c key = None -> conversation c' key = None;
}.

Lemma same_refl c : same_queries c c.
Proof using Type. by constructor. Qed.

Lemma same_view c0 c c' : ctl_reducer c' = ctl_reducer c -> ctl_open_directs c' = ctl_open_directs c -> same_queries c0 c -> same_queries c0 c'.
Proof using Type. intros Hr Hd [H1 H2 H3]. constructor; [by rw Hr|by rw Hd|]. intros key Hk. unfold conversation. rw Hr. by apply H3. Qed.

Lemma same_on_reducer {A} (f : EventReducer -> EventReducer * A) c0 c :
  (forall r, opens_nothing r (f r).1) -> same_queries c0 c -> same_queries c0 (on_reducer f c).1.
Proof using Type.
  intros Hf [H1 H2 H3]. unfold on_reducer. match goal with |- context [f ?r] => specialize (Hf r); destruct (f r) as [r' a] end. cbn in *. destruct Hf as [H4 H5].
  constructor; cbn; [by rw H4|done|]. intros key Hk. unfold conversation. cbn. apply H5. exact (H3 key Hk).
Qed.

(** What the reducer's operations run on. *)
Definition lent c : EventReducer := set_facts (fun facts => facts <| closed_store := (fun closed : ClosedList => (closed.1, ctl_file c)) <$> closed_store facts |>) (ctl_reducer c).

Lemma on_reducer_is {A} (f : EventReducer -> EventReducer * A) c :
  ctl_reducer (on_reducer f c).1 = (f (lent c)).1 /\ (on_reducer f c).2 = (f (lent c)).2 /\ ctl_open_directs (on_reducer f c).1 = ctl_open_directs c.
Proof using Type. unfold on_reducer. fold (lent c). by destruct (f (lent c)). Qed.

Lemma same_map_reducer (f : EventReducer -> EventReducer) c0 c : (forall r, opens_nothing r (f r)) -> same_queries c0 c -> same_queries c0 (map_reducer f c).
Proof using Type. intros Hf. by apply same_on_reducer. Qed.

Lemma same_write network f c0 c : same_queries c0 c -> same_queries c0 (write_session network f c).1.
Proof using Type. unfold write_session. destruct (session c network); [|done]. destruct (f _). by apply same_view. Qed.

Lemma same_last_error network message c0 c : same_queries c0 c -> same_queries c0 (set_last_error network message c).
Proof using Type. unfold set_last_error. repeat case_match; by apply same_view. Qed.

Lemma same_withdraw_typing c0 c : same_queries c0 c -> same_queries c0 (withdraw_typing c).
Proof using Type. intros H. unfold withdraw_typing. repeat case_match; try done. apply same_write. by apply (same_view _ c). Qed.

Lemma same_leave_previous key c0 c : same_queries c0 c -> same_queries c0 (leave_previous key c).
Proof using Type.
  intros H. unfold leave_previous. case_match; [done|]. apply same_withdraw_typing. destruct (ctl_selected c); [|done].
  apply same_map_reducer; [|done]. intros r. apply update_opens_nothing.
Qed.

Lemma same_read_marker_get key target c0 c : same_queries c0 c -> same_queries c0 (request_read_marker_get_with_key key target c).
Proof using Type.
  intros H. unfold request_read_marker_get_with_key. case_match; [done|].
  match goal with |- context [write_session ?n ?f c] => pose proof (same_write n f c0 c H) as Hw; destruct (write_session n f c) as [c' sent] end.
  destruct sent; [by apply (same_view _ c')|done].
Qed.

Lemma same_select network target c0 c : same_queries c0 c -> same_queries c0 (select network target c).
Proof using Type.
  intros H. unfold select. case_match; [done|]. cbv zeta.
  match goal with |- context [leave_previous ?k ?x] =>
    assert (H1 : same_queries c0 (leave_previous k x)) by (apply same_leave_previous, (same_view _ (set_last_error network None c)), same_last_error; done);
    generalize dependent (leave_previous k x) end.
  intros c1 H1.
  match goal with |- context [map_reducer (mark_selected ?k) ?x] =>
    assert (H2 : same_queries c0 (map_reducer (mark_selected k) x));
      [apply same_map_reducer; [intros r; apply mark_selected_opens_nothing|by apply (same_view _ c1)]|generalize dependent (map_reducer (mark_selected k) x)] end.
  intros c2 H2. match goal with |- context [queue ?s c2] => assert (H3 : same_queries c0 (queue s c2)) by (by apply (same_view _ c2)) end.
  case_match; [done|]. case_match; [by apply same_read_marker_get|done].
Qed.

Lemma same_clear_selected c0 c : same_queries c0 c -> same_queries c0 (clear_selected c).
Proof using Type.
  intros H. unfold clear_selected. match goal with |- context [queue _ ?x] => apply (same_view _ x); [done..|] end. apply same_map_reducer; [intros r; by apply facts_open_nothing|]. by apply (same_view _ c).
Qed.

Lemma muted_is_there key r conv :
  find r key = Some conv -> conv_is_channel conv = false -> exists conv', find (set_muted key false r) key = Some conv' /\ conv_is_channel conv' = false.
Proof using Type.
  intros Hf Hc. unfold set_muted. case_match; [by exists conv|]. unfold update_conversation, with_conversation, find in *. cbn. rw Hf. cbn.
  eexists. split; [apply bt_get_insert|done].
Qed.

(** The drop of a direct, with the selection moved off it. *)
Lemma drop_and_reselect_direct key conv c0 c :
  conversation c key = Some conv -> conv_is_channel conv = false -> same_queries c0 c ->
  same_queries c0 (drop_and_reselect key c) /\ conversation (drop_and_reselect key c) key = None.
Proof using Type.
  intros Hf Hc H. unfold drop_and_reselect. rw Hf Hc. cbv zeta.
  assert (H1 : same_queries c0 (map_reducer (set_muted key false) c)) by (apply same_map_reducer; [intros r; apply set_muted_opens_nothing|done]).
  assert (Hm : exists conv', conversation (map_reducer (set_muted key false) c) key = Some conv' /\ conv_is_channel conv' = false).
  { unfold conversation, map_reducer, on_reducer. cbn. by apply (muted_is_there _ _ conv). }
  generalize dependent (map_reducer (set_muted key false) c). intros c1 H1 (conv' & Hf1 & Hc1).
  set (c2 := update_marker_state _ c1). assert (H2 : same_queries c0 (on_reducer (drop_direct_message key) c2).1).
  { apply same_on_reducer; [intros r; apply drop_direct_opens_nothing|]. by apply (same_view _ c1). }
  assert (Hn : conversation (on_reducer (drop_direct_message key) c2).1 key = None).
  { unfold conversation. rw (proj1 (on_reducer_is (drop_direct_message key) c2)). unfold drop_direct_message. change (find (lent c2) key) with (conversation c1 key).
    rw Hf1 Hc1. apply find_remove. }
  generalize dependent (on_reducer (drop_direct_message key) c2).1. intros c3 H3 Hn. clear c2.
  assert (H4 : same_queries c0 (queue reset_all c3)) by (by apply (same_view _ c3)).
  assert (H5 : same_queries c3 (queue reset_all c3)) by (by apply (same_view _ c3); [..|apply same_refl]).
  case_match; [done|]. case_match.
  - split; [by apply same_select|]. apply (none_new _ _ (same_select _ _ c3 _ H5)). done.
  - split; [by apply same_clear_selected|]. by apply (none_new _ _ (same_clear_selected c3 _ H5)).
Qed.
Lemma directs_removed network name mapping c :
  network <> [] -> name <> [] ->
  let c' := (on_directs (direct_remove network name mapping) c).1 in
  ctl_reducer c' = ctl_reducer c /\ normalize mapping name ∉ folded mapping (direct_listed (ctl_open_directs c') network mapping).
Proof using Type.
  intros Hn Hm. cbv zeta. unfold on_directs, direct_remove, on_open. pose proof (remove_set network mapping Hn (open_list (ctl_open_directs c)) name (ctl_file c) Hm) as H.
  destruct (list_remove _ _ _ _ _) as [[l kept] removed]. destruct H as [Hnames _]. split; [done|]. unfold direct_listed. intros Hin.
  apply (elem_of_list_to_set (C:=gset str)) in Hin. assert (E := proj1 (listed_once network mapping Hn l)). cbn in Hin. rw -E Hnames in Hin. set_solver.
Qed.

Lemma directs_dismissed network name mapping c :
  let c' := (on_directs (dismiss network name mapping) c).1 in
  ctl_reducer c' = ctl_reducer c /\ open_list (ctl_open_directs c') = open_list (ctl_open_directs c).
Proof using Type. unfold on_directs, dismiss, on_dismissed. by destruct (list_add _ _ _ _ _) as [[??]?]. Qed.

(** The name leaves the saved queries; the conversations and the case mappings stay. *)
Lemma forgotten_direct network name c :
  network <> [] -> name <> [] ->
  let c' := forget_open_direct network name c in
  (forall key, conversation c' key = conversation c key) /\ mapping_for c' network = mapping_for c network /\
  normalize (mapping_for c network) name ∉ folded (mapping_for c network) (direct_listed (ctl_open_directs c') network (mapping_for c network)).
Proof using Type.
  intros Hn Hm. cbv zeta. unfold forget_open_direct. rw !is_empty_false //. cbn [orb]. cbv zeta. set (mapping := mapping_for c network).
  destruct (directs_removed network name mapping c Hn Hm) as [Hr1 Hout]. generalize dependent (on_directs (direct_remove network name mapping) c).1. intros c1 Hr1 Hout.
  destruct (directs_dismissed network name mapping c1) as [Hr2 Ho2]. generalize dependent (on_directs (dismiss network name mapping) c1).1. intros c2 Hr2 Ho2.
  unfold on_closed, map_reducer. match goal with |- context [on_reducer ?f c2] => destruct (on_reducer_is f c2) as (Hr3 & _ & Ho3); generalize dependent (on_reducer f c2).1 end.
  intros c3 Hr3 Ho3. split_and!.
  - intros key. unfold conversation. rw Hr3. change (find (ctl_reducer c2) key = find (ctl_reducer c) key). by rw Hr2 Hr1.
  - unfold mapping_for, server_features. rw Hr3. change (mapping_of (net_facts (ctl_reducer c2)) network = mapping_of (net_facts (ctl_reducer c)) network). by rw Hr2 Hr1.
  - unfold direct_listed in *. by rw Ho3 Ho2.
Qed.

Lemma restore_keeps_closed network prune name targets st :
  let mapping := mapping_for st.1 network in
  normalize mapping name ∉ folded mapping targets -> conversation st.1 (mkKey network (normalize mapping name)) = None ->
  conversation (foldl (restore_direct network prune) st targets).1 (mkKey network (normalize mapping name)) = None.
Proof using Type.
  cbv zeta. revert st. induction targets as [|target targets IH]; intros [c created] Hnot Hf; [done|]. cbn [foldl fst] in *. apply not_elem_of_cons in Hnot as [Hne Hnot].
  assert (H : let st' := restore_direct network prune (c, created) target in
    mapping_for st'.1 network = mapping_for c network /\ conversation st'.1 (mkKey network (normalize (mapping_for c network) name)) = None).
  { unfold restore_direct. cbv zeta. assert (Hdrop : forall d, mapping_for (on_directs d c).1 network = mapping_for c network /\ forall key, conversation (on_directs d c).1 key = conversation c key).
    { intros d. unfold on_directs. by destruct (d _ _) as [[??]?]. }
    case_match; [case_match; [by rw (proj1 (Hdrop _)) (proj2 (Hdrop _))|done]|]. case_match; [done|].
    pose proof (on_reducer_is (ensure_conversation (key_for c network target) target Restore) c) as (Hr & _ & _).
    pose proof (ensure_others (key_for c network target) target Restore (lent c)) as [He Ho].
    destruct (on_reducer _ c) as [c' made]. cbn [fst] in Hr.
    assert (Hc' : mapping_for c' network = mapping_for c network /\ conversation c' (mkKey network (normalize (mapping_for c network) name)) = None).
    { unfold mapping_for, server_features, features_of, conversation. rw Hr He. split; [done|]. rw Ho; [|exact Hf]. unfold key_for, conversation_key. intros [= E]. by apply Hne. }
    case_match; [case_match|]; cbn [fst]; [|done|done]. unfold on_directs. by destruct (direct_remove _ _ _ _ _) as [[??]?]. }
  destruct H as [H1 H2]. rw -H1. apply IH; by rw H1.
Qed.

(** C7: a query the reader closes stays closed. Closing one drops its conversation, and neither the
    selection that moves to a neighbour nor the restore of the saved queries brings it back. *)
Theorem closed_query_stays_closed key conv c :
  network_id key <> [] -> conv_target conv <> [] -> key_for c (network_id key) (conv_target conv) = key ->
  conversation c key = Some conv -> conv_is_channel conv = false ->
  let '(c', closed) := close_key key c in
  closed = true /\ conversation c' key = None /\ conversation (restore_open_directs (network_id key) c') key = None.
Proof using Type.
  intros Hn Ht Hkey Hf Hc. unfold close_key. rw Hf Hc is_empty_false //. cbv zeta.
  destruct (forgotten_direct (network_id key) (conv_target conv) c Hn Ht) as (Hsame & Hmap & Hnot).
  generalize dependent (forget_open_direct (network_id key) (conv_target conv) c). intros c1 Hsame Hmap Hnot.
  destruct (drop_and_reselect_direct key conv c1 c1) as [[H1 H2 _] Hgone]; [by rw Hsame|done|apply same_refl|].
  split_and!; [done|done|]. generalize dependent (drop_and_reselect key c1). intros c2 H1 H2 Hgone.
  assert (Hm2 : mapping_for c2 (network_id key) = mapping_for c (network_id key)) by (rw -Hmap; unfold mapping_for, server_features, features_of; by rw H1).
  unfold restore_open_directs. case_match; [done|]. cbv zeta. rw Hm2.
  pose proof (restore_keeps_closed (network_id key) (bs_contains (network_id key) (ctl_motd_seen c2)) (conv_target conv)
    (direct_listed (ctl_open_directs c2) (network_id key) (mapping_for c (network_id key))) (c2, false)) as Hk. cbn [fst] in Hk. rw Hm2 H2 in Hk.
  change (mkKey (network_id key) (normalize (mapping_for c (network_id key)) (conv_target conv))) with (key_for c (network_id key) (conv_target conv)) in Hk. rw Hkey in Hk.
  rw H2. specialize (Hk Hnot Hgone). destruct (foldl _ _ _) as [c3 created]. cbn [fst] in Hk. by destruct created.
Qed.
End ClosedQueries.

(** ** Examples *)

(** A client with one network, whose session registers and hears bob. *)
#[export] Instance toy_log : ClientLog := {| LogFolder := unit; folder_append l _ _ _ _ := l; folder_prepend l _ _ _ _ := l; folder_read_tail _ _ _ _ _ := [] |}.
#[export] Existing Instance toy_json.
Definition demo_file : SharedFile := mkSharedFile Ephemeral [].
Definition reachable_host : str -> option str := fun _ => None.
Definition demo_start (file : SharedFile) : Controller := @new_user toy_platform toy_log toy_json memory_store 0%Z file [] [] reachable_host.
Definition demo_client (actions : list Action) : Controller :=
  @client_run toy_platform toy_log toy_json memory_store toy_crypto toy_urls toy_policy actions (demo_start demo_file).
Definition heard (line : string) : list Action := [ActInput (lit "n") (demo_line (lit line)); ActPump].
Definition greeting : list Action :=
  [ActConnect (with_defaults (lit "n") (lit "N") (lit "irc.example") (lit "me")); ActInput (lit "n") (demo_moment, TransportEncrypted)] ++ heard ":s CAP * LS :" ++ heard ":s 001 me :hi" ++ heard ":s 376 me :end".
Definition from_bob : list Action := greeting ++ heard ":bob!b@h PRIVMSG me :hello".
Definition away_actions : list Action :=
  from_bob ++ [ActSubmit OnConversation (lit "/autoaway 30s lunch"); ActAwayTimer (ExpiryIdle, 1); ActPump; ActAwayTimer (ExpiryGrace, 2); ActPump].
Definition list_actions : list Action := greeting ++ [ActOpenStatus (lit "n"); ActSubmit OnStatus (lit "/list")].
Definition last_line (c : Controller) : option Effect := session c (lit "n") ≫= fun s => last (effects s).

(** After thirty seconds idle and the grace the client says AWAY, and once the reader speaks the
    line that follows takes it back. *)
Example idle_client_goes_away :
  let c := demo_client away_actions in
  (auto_away (ctl_away c), last_line c) = ([(lit "n", tt)], Some (Write (as_bytes (lit "AWAY :lunch") ++ [13; 10]))) /\
  last_line (demo_client (away_actions ++ [ActSubmit OnConversation (lit "back")])) = Some (Write (as_bytes (lit "AWAY") ++ [13; 10])).
Proof. by vm_compute. Qed.

(** When the peer of the query that is shown takes another nick, the reducer's selection moves
    with the conversation and the controller's does not: the next line goes to the old nick. *)
Example nick_change_strands_selection :
  let c := demo_client (from_bob ++ heard ":bob!b@h NICK rob") in
  selected (net_facts (ctl_reducer c)) = Some (mkKey (lit "n") (lit "rob")) /\ ctl_selected c = Some (mkKey (lit "n") (lit "bob")) /\
  conversation c (mkKey (lit "n") (lit "bob")) = None /\
  last_line (demo_client (from_bob ++ heard ":bob!b@h NICK rob" ++ [ActSubmit OnConversation (lit "hey")])) = Some (Write (as_bytes (lit "PRIVMSG bob :hey") ++ [13; 10])).
Proof. by vm_compute. Qed.

Lemma auto_away_respects_hand_witness :
  let a := ctl_away (demo_client away_actions) in
  bs_contains (lit "n") (manual_away a) = false /\ tripped a = true /\ away_enabled (away_config a) = true.
Proof. apply (@auto_away_respects_hand toy_platform toy_log toy_json memory_store memory_laws toy_crypto toy_urls toy_policy 0%Z demo_file [] [] reachable_host away_actions (lit "n")). by vm_compute. Defined.

Lemma pump_settles_witness :
  (4 <= 5)%nat /\ let c := @pump toy_platform toy_log toy_json memory_store toy_crypto toy_urls 5 (demo_client away_actions) in
  ctl_pumping c = false /\ expiries (ctl_away c) = [] /\ list_expiries (ctl_lists c) = [] /\ forall network s, session c network = Some s -> events s = [].
Proof. split; [lia|]. apply (@pump_settles toy_platform toy_log toy_json memory_store memory_laws toy_crypto toy_urls toy_policy 0%Z demo_file [] [] reachable_host 5 away_actions). lia. Defined.

Definition listing_entry : ChannelListState := default (mkListState [] [] false false [] None false) (list_state (demo_client list_actions) (lit "n")).

Lemma channel_list_load_ends_witness :
  exists generation, let c := demo_client list_actions in
    ((lit "n", generation) ∈ list_clock (ctl_lists c) \/ (lit "n", generation) ∈ list_expiries (ctl_lists c)) /\
    let c := @act toy_platform toy_log toy_json memory_store toy_crypto toy_urls toy_policy c (ActListTimer (lit "n", generation)) in
    let c := (run_while run_channel_list_expiry (S (length (list_expiries (ctl_lists c)))) c).1 in
    exists entry', list_state c (lit "n") = Some entry' /\ list_loading entry' = false /\ list_rows entry' = list_rows listing_entry /\
      list_error entry' = CHANNEL_LIST_TIMEOUT_TEXT.
Proof.
  apply (@channel_list_load_ends toy_platform toy_log toy_json memory_store memory_laws toy_crypto toy_urls toy_policy 0%Z demo_file [] [] reachable_host list_actions (lit "n") listing_entry); by vm_compute.
Defined.

Definition bob_key : ConversationKey := mkKey (lit "n") (lit "bob").

Definition bob_query : ConversationState := default (new_conversation bob_key []) (conversation (demo_client from_bob) bob_key).

Lemma closed_query_stays_closed_witness :
  let '(c', closed) := @close_key toy_platform toy_log toy_json memory_store bob_key (demo_client from_bob) in
  closed = true /\ conversation c' bob_key = None /\ conversation (@restore_open_directs toy_platform toy_log memory_store (lit "n") c') bob_key = None.
Proof. apply (@closed_query_stays_closed toy_platform toy_log toy_json memory_store bob_key bob_query (demo_client from_bob)); by vm_compute. Defined.
